(* ===== verification/_CoqProject ===== *)
-Q . S2P
Prelude.v
CalDate.v
DecDigits.v
FieldTypes.v
Server.v
Demo.v
Numeric.v
DateCnvrt.v
CtcError.v
Blob.v
RowFormat.v
CondPush.v
Handler.v
Prefetch.v
Session.v
Dml.v
SharedMem.v
Stub.v
IndexSearch.v
Partition.v
ParallelReader.v
Cbo.v
SqlText.v
DdlRewriter.v
DdlNotify.v
Effects.v
MetaData.v
Proxy.v
ReqMem.v
FuncIndex.v
ColumnDef.v
TableDef.v
TableAlter.v
AlterReq.v
