(* ===== verification/Prelude.v ===== *)
(** * The Cantian connector for MySQL

    A verification development for the storage engine plugin under
    [src/storage/ctc]: the code that runs inside the MySQL server and makes
    tables of the Cantian engine, a process of its own, available to it.

    ** The program

    A statement reaches the plugin through the server's handler interface
    ([ha_ctc.cc], [ha_ctcpart.cc] for partitioned tables).  A row is converted
    between the server's record format and the engine's row format
    ([datatype_cnvrtr.cc], [decimal_convert.cc]); parts of the condition are
    translated for the engine ([ctc_util.cc], [cond_push]); the session keeps
    transactions, savepoints and cursors ([ha_ctc.cc]); and every call of the
    engine is a request in shared memory ([ctc_srv_mq_stub.cc]) that is carried
    by messages and semaphores ([ctc_srv_mq_module.cc]).

    ** The files

    A file has one Module of the same name; definitions keep the names of the
    source.

    - [Prelude]: machine integers as [Z] with their wrap-around written out
      ([wrapU], [wrapS]), memory as lists of bytes with loads and stores that
      fail outside of it ([rd], [wr]), loops with fuel, shared tactics.
    - [CalDate] ([cm_encode_date], [cm_decode_date], [check_datetime_vaild]): the
      engine's date integer.  Encoding and decoding are inverse, order
      preserving, and count microseconds along the Gregorian calendar.
    - [DecDigits] ([convert_mydec_to_dec4], [convert_dec4_to_mydec] through the
      digit buffer): the two decimal formats denote the same numbers.
    - [FieldTypes] ([get_auxiliary_for_field_convert]): the table of column types.
    - [Server], [Demo]: the functions of the MySQL server that conversions call,
      as class operations with laws for the values that the server has (valid
      dates and times, seconds of a TIMESTAMP up to 2^31-1, decimals of a valid
      precision), and instances that satisfy the laws.
    - [Numeric], [DateCnvrt], [Blob]: the conversion of one column in both
      directions, by type class; large objects in pieces.
    - [CtcError]: error numbers and their translation for the server.
    - [RowFormat] ([mysql_record_to_cantian_record],
      [cantian_record_to_mysql_record]): the row with its head, bitmap and
      columns.  What is inserted reads back (but for [BIT] columns of 3, 5, 6 or 7
      bytes and for NaN); updates; bounds.
    - [CondPush] ([cond_push], [cond_push_term], [ctc_fill_conds] and what they
      call): the pushed condition is implied by the statement's, no buffer is
      leaked.
    - [Handler]: return codes, flags and predicates that handler methods share.
    - [Prefetch] ([rnd_init], [rnd_next], [index_init], [index_fetch],
      [position]): scans through the record buffer refine a scan of the
      engine's rows and end.
    - [Session] ([thd_sess_ctx_s], [external_lock], [start_stmt], [ctc_commit],
      [ctc_rollback], savepoints): no cursor is lost or freed twice, one
      transaction at a time.
    - [Dml] ([write_row], [update_row], [delete_row], bulk inserts, and those of
      [ha_ctcpart]): the engine gets exactly the rows that the server wrote.
    - [SharedMem] ([ctc_srv_mq_module.cc]): shared memory, calls, calls in
      segments; a buffer sent in segments arrives and returns whole, and when the
      segments before a refused one are freed twice.
    - [Stub] ([ctc_srv_mq_stub.cc]): all functions of the engine's interface are
      memory safe and pass results on, but for the calls shown to be wrong.
    - [IndexSearch] ([datatype_cnvrt_4_index_search.cc], [index_read],
      [index_search], [ctc_fill_index_key_info]): the server's key tuples become
      the engine's keys, column by column; an index read finds what a search in
      the engine's order finds.
    - [Partition] ([ha_ctcpart.cc]): which partitions are opened, scanned,
      locked and pruned; ordered reads over partitions, on top of the methods of
      [ha_ctc] as [IndexSearch] and [Prefetch] define them.
    - [ParallelReader] ([ha_ctc_pq.cc]): the work of a scan is shared out to
      threads; each page is read by one of them, as long as the engine does not
      fail (what happens otherwise is shown too).
    - [Cbo] ([ctc_cbo.cc], [records_in_range], [info], [read_time]): estimates
      from histograms, in correctly rounded binary doubles ([SpecFloat]).
    - [SqlText]: text of statements and [std::regex_replace] with its search
      order and formats.
    - [DdlRewriter] ([ctc_ddl_rewriter_plugin.cc]): what the plugin does with a
      statement after it was parsed: checks per command, variables, passwords,
      locks of tables and of the instance, the broadcast.  The statement and the
      answers of the server and of the engine are arguments; calls with effects
      go to a log.
    - [DdlNotify] ([ctc_notify_exclusive_mdl], [ctc_notify_alter_table],
      [ctc_update_sysvars], databases): what the server tells the plugin around
      a change of a definition.
    - [Effects]: the monad of code that changes state and can fail, with rules
      for total correctness.
    - [MetaData] ([ctc_meta_data.cc], [invalidate_remote_dd]): locks and cached
      definitions on behalf of sessions of other nodes.  While there is memory
      and messages are whole, no thread or ticket is used after it is gone; what
      one node changed is removed from the caches of the others; and the thread
      that is used though it could not be allocated.
    - [Proxy] ([ctc_mysql_proxy.cc], [ctc_proxy_util.cc]): statements of other
      nodes over connections to the own server.  No connection is used after it
      was closed or lost outside of the map, no user is left, if the server does
      not fail in [DROP USER] and [SET foreign_key_checks]; the use of a closed
      connection if the latter fails; attempts to connect end.
    - [ReqMem] ([ctc_ddl_alloc_mem], [ctc_ddl_req_mem], [ctc_ddl_stack_mem]): the
      memory in which requests about tables are built; what code takes of it
      ([costs]) and what it leaves alone ([frames], [keeps]).
    - [FuncIndex] ([ctc_fill_func_key_part] and the parts of keys): which
      functional indexes are accepted, those that are because arguments of [AND] and
      [OR] are not looked at, the text of their expressions, prefixes.
    - [ColumnDef] ([ctc_ddl_fill_column_by_field] and the default values): the
      description of a column; quoted default texts read back, and the ones that
      are sent wrong.
    - [TableDef] ([fill_create_table_req]): a request is laid out exactly when it
      fits; all columns but those of functional indexes are described, in order.
    - [TableAlter] ([fill_alter_list_4alter_table], [fill_ctc_alter_drop_list],
      [ctc_ddl_prepare_alter_partition_info], [fill_partition_info_4truncate],
      [ctcbase_alter_tablespace]): the lists of a change; columns are renamed by
      way of temporary names, with the result of renaming them all at once.
    - [AlterReq] ([fill_alter_table_req]): the whole request of [ALTER TABLE] has
      what the statement asks for when it is finished.

    The interfaces between files are type classes with laws: [Server]'s codecs
    and [Blob]'s engine for the conversions, [WriteBuffer], [RowEncoder] (which
    [RowFormat] implements) and [DmlEngine] for [Dml], [Channel] for [SharedMem], [MdlServer]
    for [MetaData], [BaseHandler] and [PartIndexLaws] for [Partition]; [DdlServer] and [Layout] are what the description of tables uses
    of the server and of the generated code.

    ** How the code is modelled

    Code that returns is a function; code with effects is a state monad of its
    file ([Session.M], [Dml], [SharedMem.M], [DdlRewriter.M], [Effects.ST], [ReqMem.E]) whose state is what the code
    mutates, with a log of the calls of the engine where their order matters.
    [None] is undefined behaviour: a failing assertion, an access outside of a
    buffer or to freed memory, an exception.  Theorems that say that a function
    returns [Some] therefore exclude these.  What the code cannot control (the
    engine, allocation, the server) is an argument or a class operation;
    the laws of a class are its documented behaviour, and each is satisfied by
    an instance used in the witnesses.  Where the source has branches for two
    server versions a flag of the model ([mysql_32]) or the comment of the
    definition says which one is meant; sizes are those of the build with
    [WITH_CANTIAN] ([CBO_STRING_MAX_LEN] is 64).

    Where the code is wrong the theorem about the operation says which inputs
    or answers it excludes, and a theorem or lemma next to it shows what happens
    for them ([like_pattern_units], [condition_ignored], [null_thread_used],
    [index_read_stale_position], [prefetch_error_repeats], [stub_calls_wrong],
    [foreign_key_failure_frees] and others).

    ** Fuel

    [while] and the recursive functions on integers take fuel, and theorems show
    that the fuel given is enough: the year search of [cm_decode_date]
    ([decode_fuel]), the digit loops of [DecDigits] (the number of digits), the
    pieces of a large object (its length), [scan_all] (the rows left), the
    segments of a message ([DSW_MESSAGE_SEGMENT_NUM_MAX]), the engine's work
    during a wait (the messages sent), the loops with two positions over the columns
    of a table and the things to drop (their number) and [regex_replace] (the length of the
    text: no pattern matches an empty one).

    ** Not modelled

    The text of decimal numbers ([decimal_convert.cc]) is converted by functions that
    nothing in the repository calls.  The requests of [DROP], [RENAME] and
    [TRUNCATE TABLE] copy names and flags into generated structures; packing them
    is generated code.  [json_value] is printed as with [METADATA_NORMALIZED].
    Statistics, logging and the registration of the plugin have no logic of their
    own.  The concurrency of sessions in
    the server is outside: a connection is one thread. *)

From stdpp Require Export base tactics list gmap strings numbers.
From Stdlib Require Export ZArith Lia.

#[global] Open Scope Z_scope.

(** ** Machine integers

    A C integer is a [Z]; [wrapU w] and [wrapS w] are the conversions to the
    unsigned and to the two's complement signed type of [w] bits. *)

Definition wrapU (w z : Z) : Z := z mod 2 ^ w.
Definition wrapS (w z : Z) : Z := (z + 2 ^ (w - 1)) mod 2 ^ w - 2 ^ (w - 1).

Declare Scope ctc_scope.
Delimit Scope ctc_scope with ctc.
Notation "'u8' z" := (wrapU 8 z) (at level 9, z at level 9) : ctc_scope.
Notation "'u16' z" := (wrapU 16 z) (at level 9, z at level 9) : ctc_scope.
Notation "'u32' z" := (wrapU 32 z) (at level 9, z at level 9) : ctc_scope.
Notation "'u64' z" := (wrapU 64 z) (at level 9, z at level 9) : ctc_scope.
Notation "'i32' z" := (wrapS 32 z) (at level 9, z at level 9) : ctc_scope.

Create HintDb ctc.

Lemma wrapU_range w z : 0 <= w -> 0 <= wrapU w z < 2 ^ w.
Proof. intros H. apply Z.mod_pos_bound. lia. Qed.

Lemma wrapU_small w z : 0 <= z < 2 ^ w -> wrapU w z = z.
Proof. apply Z.mod_small. Qed.

Lemma wrapS_range w z : 1 <= w -> - 2 ^ (w - 1) <= wrapS w z < 2 ^ (w - 1).
Proof.
  intros H. unfold wrapS.
  assert (2 ^ w = 2 * 2 ^ (w - 1)) as Hw.
  { rewrite <- Z.pow_succ_r by lia. f_equal. lia. }
  pose proof (Z.mod_pos_bound (z + 2 ^ (w - 1)) (2 ^ w) ltac:(lia)). lia.
Qed.

Lemma wrapS_small w z :
  1 <= w -> - 2 ^ (w - 1) <= z < 2 ^ (w - 1) -> wrapS w z = z.
Proof.
  intros H Hz. unfold wrapS.
  assert (2 ^ w = 2 * 2 ^ (w - 1)) as Hw.
  { rewrite <- Z.pow_succ_r by lia. f_equal. lia. }
  rewrite Z.mod_small by lia. lia.
Qed.

Lemma wrapU_wrapS w z : 1 <= w -> wrapU w (wrapS w z) = wrapU w z.
Proof.
  intros H. unfold wrapU, wrapS.
  rewrite Zminus_mod, Z.mod_mod, <- Zminus_mod by lia. f_equal. lia.
Qed.

Lemma wrapS_wrapU w z : 1 <= w -> wrapS w (wrapU w z) = wrapS w z.
Proof.
  intros H. unfold wrapU, wrapS.
  rewrite Zplus_mod, Z.mod_mod, <- Zplus_mod by lia. done.
Qed.

Lemma wrapU_narrow v w z : 0 <= v <= w -> wrapU v (wrapU w z) = wrapU v z.
Proof.
  intros H. unfold wrapU.
  replace w with (v + (w - v)) by lia. rewrite Z.pow_add_r by lia.
  rewrite Z.rem_mul_r by lia.
  rewrite (Z.mul_comm (2 ^ v)), Z.mod_add by lia. apply Z.mod_mod. lia.
Qed.

#[export] Hint Resolve wrapU_range wrapS_range wrapU_small wrapS_small : ctc.

(** ** Loops

    [while fuel c b s] runs [while (c) b] on the state [s]; [None] only when
    the fuel runs out. *)

Fixpoint while {St : Type} (fuel : nat) (c : St -> bool) (b : St -> St) (s : St)
  : option St :=
  match fuel with
  | O => None
  | S n => if c s then while n c b (b s) else Some s
  end.

(** Total correctness of a loop from an invariant and a measure. *)
Lemma while_total {St} (Inv : St -> Prop) (m : St -> Z) (c : St -> bool) b :
  (forall s, Inv s -> c s = true -> Inv (b s) /\ m (b s) < m s) ->
  (forall s, Inv s -> 0 <= m s) ->
  forall fuel s, Inv s -> m s < Z.of_nat fuel ->
  exists s', while fuel c b s = Some s' /\ Inv s' /\ c s' = false.
Proof.
  intros Hstep Hpos. induction fuel as [|n IH]; intros s Hs Hm; simpl.
  { specialize (Hpos s Hs). lia. }
  destruct (c s) eqn:Hc; [|eauto].
  destruct (Hstep s Hs Hc) as [Hs' Hlt]. apply IH; [done|lia].
Qed.

(** ** Boolean facts turned into propositions for [lia] *)

Ltac zb :=
  repeat match goal with
  | H : (_ && _)%bool = true |- _ => apply andb_prop in H; destruct H
  | H : (_ || _)%bool = false |- _ => apply orb_false_elim in H; destruct H
  | H : negb _ = true |- _ => apply negb_true_iff in H
  | H : negb _ = false |- _ => apply negb_false_iff in H
  | H : (_ =? _) = true |- _ => apply Z.eqb_eq in H
  | H : (_ =? _) = false |- _ => apply Z.eqb_neq in H
  | H : (_ <? _) = true |- _ => apply Z.ltb_lt in H
  | H : (_ <? _) = false |- _ => apply Z.ltb_ge in H
  | H : (_ <=? _) = true |- _ => apply Z.leb_le in H
  | H : (_ <=? _) = false |- _ => apply Z.leb_gt in H
  | H : (_ >=? _) = true |- _ => rewrite Z.geb_leb in H; apply Z.leb_le in H
  | H : (_ >=? _) = false |- _ => rewrite Z.geb_leb in H; apply Z.leb_gt in H
  | H : (_ >? _) = true |- _ => rewrite Z.gtb_ltb in H; apply Z.ltb_lt in H
  | H : (_ >? _) = false |- _ => rewrite Z.gtb_ltb in H; apply Z.ltb_ge in H
  end.

(** ** Bytes in memory

    A buffer is the list of its bytes.  [le_val] and [le_bytes n] are the
    little-endian integer of a byte string and its [n]-byte representation;
    [rd] and [wr] are a load and a store of several bytes at an offset, and
    are [None] when they leave the buffer. *)

Definition byte (z : Z) : Prop := 0 <= z < 256.

Fixpoint le_val (l : list Z) : Z :=
  match l with [] => 0 | b :: l => b + 256 * le_val l end.

Fixpoint le_bytes (n : nat) (z : Z) : list Z :=
  match n with O => [] | S n => z mod 256 :: le_bytes n (z / 256) end.

Definition be_val (l : list Z) : Z := le_val (rev l).
Definition be_bytes (n : nat) (z : Z) : list Z := rev (le_bytes n z).

Definition rd (buf : list Z) (off n : Z) : option (list Z) :=
  if (0 <=? off) && (0 <=? n) && (off + n <=? Z.of_nat (length buf))
  then Some (take (Z.to_nat n) (drop (Z.to_nat off) buf)) else None.

Definition wr (buf : list Z) (off : Z) (bs : list Z) : option (list Z) :=
  if (0 <=? off) && (off + Z.of_nat (length bs) <=? Z.of_nat (length buf))
  then Some (take (Z.to_nat off) buf ++ bs
             ++ drop (Z.to_nat off + length bs)%nat buf)
  else None.

Lemma length_le_bytes n z : length (le_bytes n z) = n.
Proof. revert z. induction n; intros; simpl; auto. Qed.

Lemma le_bytes_byte n z : Forall byte (le_bytes n z).
Proof.
  revert z. induction n; intros; simpl; constructor; auto.
  apply Z.mod_pos_bound. lia.
Qed.

Lemma le_val_le_bytes n z : le_val (le_bytes n z) = z mod 256 ^ Z.of_nat n.
Proof.
  revert z. induction n as [|n IH]; intros z.
  { simpl. by rewrite Z.mod_1_r. }
  cbn [le_bytes le_val]. rewrite IH. rewrite Nat2Z.inj_succ, Z.pow_succ_r by lia.
  rewrite Z.rem_mul_r by lia. lia.
Qed.

Lemma le_val_range l : Forall byte l -> 0 <= le_val l < 256 ^ Z.of_nat (length l).
Proof.
  induction 1 as [|b l Hb Hl IH]; cbn [le_val length]; [lia|].
  rewrite Nat2Z.inj_succ, Z.pow_succ_r by lia. unfold byte in Hb. lia.
Qed.

Lemma le_bytes_le_val l : Forall byte l -> le_bytes (length l) (le_val l) = l.
Proof.
  induction 1 as [|b l Hb Hl IH]; [done|]. cbn [le_val length le_bytes].
  unfold byte in Hb. f_equal.
  - rewrite (Z.mul_comm 256), Z.mod_add, Z.mod_small by lia. done.
  - rewrite (Z.mul_comm 256), Z.div_add by lia. rewrite Z.div_small by lia.
    by rewrite Z.add_0_l.
Qed.

Lemma le_bytes_mod n m z :
  (n <= m)%nat -> le_bytes n (z mod 256 ^ Z.of_nat m) = le_bytes n z.
Proof.
  revert m z. induction n as [|n IH]; intros [|m] z Hm; try lia; try done.
  rewrite Nat2Z.inj_succ, Z.pow_succ_r by lia. rewrite Z.rem_mul_r by lia.
  cbn [le_bytes]. f_equal.
  - rewrite (Z.mul_comm 256 (_ mod _)), Z.mod_add, Z.mod_mod by lia. done.
  - rewrite (Z.mul_comm 256 (_ mod _)), Z.div_add by lia.
    rewrite (Z.div_small (z mod 256)) by (apply Z.mod_pos_bound; lia).
    rewrite Z.add_0_l. apply IH. lia.
Qed.

Lemma rd_Some buf off n :
  0 <= off -> 0 <= n -> off + n <= Z.of_nat (length buf) ->
  rd buf off n = Some (take (Z.to_nat n) (drop (Z.to_nat off) buf)).
Proof.
  intros. unfold rd. rewrite !(proj2 (Z.leb_le _ _)) by lia. done.
Qed.

Lemma rd_inv buf off n bs :
  rd buf off n = Some bs ->
  0 <= off /\ 0 <= n /\ off + n <= Z.of_nat (length buf) /\ length bs = Z.to_nat n /\
  bs = take (Z.to_nat n) (drop (Z.to_nat off) buf).
Proof.
  unfold rd. destruct (_ && _) eqn:E; [|done]. intros ?. simplify_eq. zb.
  rewrite length_take, length_drop. repeat split; lia.
Qed.

Lemma wr_inv buf off bs buf' :
  wr buf off bs = Some buf' ->
  0 <= off /\ off + Z.of_nat (length bs) <= Z.of_nat (length buf) /\
  length buf' = length buf /\
  buf' = take (Z.to_nat off) buf ++ bs ++ drop (Z.to_nat off + length bs)%nat buf.
Proof.
  unfold wr. destruct (_ && _) eqn:E; [|done]. intros ?. simplify_eq. zb.
  repeat split; try lia. rewrite !length_app, length_take, length_drop. lia.
Qed.

Lemma wr_Some buf off bs :
  0 <= off -> off + Z.of_nat (length bs) <= Z.of_nat (length buf) ->
  exists buf', wr buf off bs = Some buf'.
Proof.
  intros. unfold wr. rewrite !(proj2 (Z.leb_le _ _)) by lia. eauto.
Qed.

Lemma length_wr buf off bs buf' : wr buf off bs = Some buf' -> length buf' = length buf.
Proof. intros H. by apply wr_inv in H as (_ & _ & ? & _). Qed.

(** A load from where a store went. *)
Lemma rd_wr_same buf off bs buf' :
  wr buf off bs = Some buf' -> rd buf' off (Z.of_nat (length bs)) = Some bs.
Proof.
  intros H. apply wr_inv in H as (Ho & Hl & Hlen & ->).
  rewrite rd_Some by (rewrite ?length_app, ?length_take, ?length_drop; lia).
  f_equal. rewrite Nat2Z.id, drop_app_length' by (rewrite length_take; lia).
  by rewrite take_app_length.
Qed.

(** A load from elsewhere. *)
Lemma rd_wr_other buf off bs buf' o n :
  wr buf off bs = Some buf' ->
  o + n <= off \/ off + Z.of_nat (length bs) <= o ->
  rd buf' o n = rd buf o n.
Proof.
  intros H Hd. apply wr_inv in H as (Ho & Hl & Hlen & Hb). unfold rd. rewrite Hlen.
  destruct (_ && _) eqn:E; [|done]. zb. f_equal. rewrite Hb.
  apply list_eq. intros i. destruct (decide (i < Z.to_nat n)%nat) as [Hi|Hi].
  2:{ rewrite !lookup_ge_None_2; [done|rewrite length_take; lia..]. }
  rewrite !lookup_take_lt, !lookup_drop by done.
  destruct Hd as [Hd|Hd].
  - rewrite lookup_app_l by (rewrite length_take; lia).
    by rewrite lookup_take_lt by lia.
  - rewrite lookup_app_r by (rewrite length_take; lia).
    rewrite length_take, lookup_app_r by lia. rewrite lookup_drop. f_equal. lia.
Qed.

Lemma rd_byte buf off n bs : Forall byte buf -> rd buf off n = Some bs -> Forall byte bs.
Proof.
  intros Hb H. apply rd_inv in H as (_ & _ & _ & _ & ->).
  by apply Forall_take, Forall_drop.
Qed.

Lemma wr_byte buf off bs buf' :
  Forall byte buf -> Forall byte bs -> wr buf off bs = Some buf' -> Forall byte buf'.
Proof.
  intros Hb Hbs H. apply wr_inv in H as (_ & _ & _ & ->).
  apply Forall_app. split; [by apply Forall_take|].
  apply Forall_app. split; [done|by apply Forall_drop].
Qed.

#[export] Hint Resolve le_bytes_byte rd_byte wr_byte : ctc.

(** [lia] with division and remainder by constants. *)
Ltac dlia := Z.to_euclidean_division_equations; lia.

Lemma be_bytes_be_val l : Forall byte l -> be_bytes (length l) (be_val l) = l.
Proof.
  intros H. unfold be_bytes, be_val. rewrite <- (length_rev l).
  rewrite le_bytes_le_val by (by apply Forall_rev). apply rev_involutive.
Qed.

Lemma be_val_range l : Forall byte l -> 0 <= be_val l < 256 ^ Z.of_nat (length l).
Proof.
  intros H. unfold be_val. rewrite <- (length_rev l). apply le_val_range. by apply Forall_rev.
Qed.

Lemma length_be_bytes n z : length (be_bytes n z) = n.
Proof. unfold be_bytes. by rewrite length_rev, length_le_bytes. Qed.

Lemma be_bytes_byte n z : Forall byte (be_bytes n z).
Proof. apply Forall_rev, le_bytes_byte. Qed.

(** Reading back a number stored with its bytes in front of others. *)
Lemma be_field_mod n v rest : be_val (take n (be_bytes n v ++ rest)) = v mod 256 ^ Z.of_nat n.
Proof.
  rewrite take_app_le, take_ge by (rewrite length_be_bytes; lia).
  unfold be_val, be_bytes. by rewrite rev_involutive, le_val_le_bytes.
Qed.

Lemma be_field n v rest :
  0 <= v < 256 ^ Z.of_nat n -> be_val (take n (be_bytes n v ++ rest)) = v.
Proof. intros Hv. rewrite be_field_mod. by apply Z.mod_small. Qed.

(** A load inside a loaded range. *)
Lemma rd_sub buf o n bs k m :
  rd buf o n = Some bs -> 0 <= k -> 0 <= m -> k + m <= n ->
  rd buf (o + k) m = Some (take (Z.to_nat m) (drop (Z.to_nat k) bs)).
Proof.
  intros H Hk Hm Hkm. apply rd_inv in H as (Ho & Hn & Hl & Hlen & ->).
  rewrite rd_Some by lia. f_equal.
  rewrite Z2Nat.inj_add, <- drop_drop by lia.
  rewrite (take_drop_commute (take _ _)), take_take.
  replace ((Z.to_nat k + Z.to_nat m) `min` Z.to_nat n)%nat with (Z.to_nat k + Z.to_nat m)%nat by lia.
  by rewrite <- take_drop_commute.
Qed.

Lemma rd_agree b1 b2 o n k m :
  rd b1 o n = rd b2 o n -> is_Some (rd b2 o n) -> 0 <= k -> 0 <= m -> k + m <= n ->
  rd b1 (o + k) m = rd b2 (o + k) m.
Proof.
  intros H [bs Hbs] Hk Hm Hkm. rewrite (rd_sub b2 o n bs k m) by done.
  apply rd_sub with n; [congruence|done..].
Qed.

(** The bytes from an offset on start with what a load there gives. *)
Lemma rd_drop buf o n bs :
  rd buf o n = Some bs -> exists rest, drop (Z.to_nat o) buf = bs ++ rest.
Proof.
  intros H. apply rd_inv in H as (Ho & Hn & Hl & Hlen & ->).
  exists (drop (Z.to_nat n) (drop (Z.to_nat o) buf)). by rewrite take_drop.
Qed.

(** A load from a part that is kept. *)
Lemma rd_take l n o k : o + k <= n -> n <= Z.of_nat (length l) -> rd (take (Z.to_nat n) l) o k = rd l o k.
Proof.
  intros H Hn. unfold rd. rewrite length_take.
  replace (Z.of_nat (Z.to_nat n `min` length l)) with (Z.max 0 n) by lia.
  destruct (0 <=? o) eqn:E1; [|done]. destruct (0 <=? k) eqn:E2; [|done]. zb. cbn [andb].
  rewrite !(proj2 (Z.leb_le _ _)) by lia. f_equal.
  rewrite !take_drop_commute, take_take. do 2 f_equal. lia.
Qed.

Lemma rd_is_Some buf o n :
  0 <= o -> 0 <= n -> o + n <= Z.of_nat (length buf) -> is_Some (rd buf o n).
Proof. intros. rewrite rd_Some by done. eauto. Qed.

(** Two stores one after the other are read back as one range. *)
Lemma rd_app buf o n m b1 b2 :
  rd buf o n = Some b1 -> rd buf (o + n) m = Some b2 -> rd buf o (n + m) = Some (b1 ++ b2).
Proof.
  intros H1 H2. apply rd_inv in H1 as (Ho & Hn & Hl & _ & ->).
  apply rd_inv in H2 as (_ & Hm & Hl2 & _ & ->). rewrite rd_Some by lia. f_equal.
  rewrite (Z2Nat.inj_add o n), <- drop_drop, Z2Nat.inj_add by lia.
  symmetry. apply take_take_drop.
Qed.

(** Two bytes put together. *)
Lemma lor_shift8 x y : byte x -> 0 <= y -> Z.lor x (Z.shiftl y 8) = x + 256 * y.
Proof.
  intros Hx Hy. unfold byte in Hx. rewrite Z.shiftl_mul_pow2 by lia.
  rewrite <- Z.add_nocarry_lor; [lia|].
  apply Z.bits_inj_0; intros n; rewrite Z.land_spec.
  destruct (decide (n < 8)); [rewrite Z.mul_pow2_bits_low by lia; apply andb_false_r|].
  destruct (decide (x = 0)) as [->|]; [by rewrite Z.bits_0|].
  rewrite (Z.bits_above_log2 x); [done|lia|]. apply Z.log2_lt_pow2; [lia|].
  apply Z.lt_le_trans with (2 ^ 8); [lia|apply Z.pow_le_mono_r; lia].
Qed.
