(* ===== verification/CalDate.v ===== *)
(** * CalDate: the Cantian date codec

    Models the calendar part of [datatype_cnvrtr.cc]: [date_detail_t], the
    leap-year rule and month tables, [cm_decode_date], [cm_encode_date] and
    the validity checks.  A Cantian [date_t] counts the microseconds since
    2000-01-01 00:00:00.  A failing [assert] and a read past the end of a
    month table are [None]. *)

From S2P Require Import Prelude.

Module CalDate.

(** ** Data *)

Record date_detail := mk_date_detail {
  year : Z; mon : Z; day : Z; hour : Z; min : Z; sec : Z;
  millisec : Z; microsec : Z; nanosec : Z; tz_offset : Z }.

(** [MYSQL_TIME] of the server, as far as the connector reads it. *)
Record MYSQL_TIME := mk_mysql_time {
  t_year : Z; t_month : Z; t_day : Z; t_hour : Z; t_minute : Z; t_second : Z;
  t_second_part : Z; t_neg : bool }.

(** ** Constants *)

Definition UNITS_PER_DAY : Z := 86400000000.
Definition CM_ALL_ZERO_DATETIME : Z := -63113904000000000.
Definition SECONDS_PER_HOUR : Z := 3600.
Definition SECONDS_PER_MIN : Z := 60.
Definition SECONDS_PER_DAY : Z := 86400.
Definition MICROSECS_PER_MILLISEC : Z := 1000.
Definition MILLISECS_PER_SECOND : Z := 1000.
Definition CM_BASELINE_DAY : Z := 730120.
Definition DAYS_1 : Z := 365.
Definition DAYS_4 : Z := DAYS_1 * 4 + 1.
Definition DAYS_100 : Z := DAYS_4 * 25 - 1.
Definition DAYS_400 : Z := DAYS_100 * 4 + 1.

Definition IS_LEAP_YEAR (y : Z) : bool :=
  (y mod 4 =? 0) && (negb (y mod 100 =? 0) || (y mod 400 =? 0)).

Definition CM_IS_VALID_YEAR (y : Z) : bool := (1 <=? y) && (y <=? 9999).

Definition g_cantian_month_days (leap : bool) : list Z :=
  if leap then [31; 29; 31; 30; 31; 30; 31; 31; 30; 31; 30; 31]
  else [31; 28; 31; 30; 31; 30; 31; 31; 30; 31; 30; 31].

(** The array read [g_cantian_month_days[IS_LEAP_YEAR(year)][mon - 1]]. *)
Definition CM_MONTH_DAYS (y m : Z) : Z :=
  default 0 (g_cantian_month_days (IS_LEAP_YEAR y) !! Z.to_nat (m - 1)).

(** ** Decoding *)

(** The state of [cm_decode_leap]: [detail->year], the loop counter
    [hundred_count] and [days]. *)
Record leap_st := mk_leap { l_year : Z; l_cnt : Z; l_days : Z }.

Definition leap_400 (s : leap_st) : leap_st :=
  mk_leap (wrapU 16 (l_year s + 400)) (l_cnt s) (l_days s - DAYS_400).
Definition leap_100 (s : leap_st) : leap_st :=
  mk_leap (wrapU 16 (l_year s + 100)) (l_cnt s + 1) (l_days s - DAYS_100).
Definition leap_4 (s : leap_st) : leap_st :=
  mk_leap (wrapU 16 (l_year s + 4)) (l_cnt s) (l_days s - DAYS_4).
Definition leap_1 (s : leap_st) : leap_st :=
  let d := if IS_LEAP_YEAR (l_year s) then l_days s - 1 else l_days s in
  mk_leap (wrapU 16 (l_year s + 1)) (l_cnt s) (d - DAYS_1).

Definition cm_decode_leap (fuel : nat) (y days : Z) : option (Z * Z) :=
  s1 ← while fuel (fun s => DAYS_400 <=? l_days s) leap_400 (mk_leap y 0 days);
  s2 ← while fuel (fun s => (DAYS_100 <=? l_days s) && (l_cnt s <? 4)) leap_100
         (mk_leap (l_year s1) 1 (l_days s1));
  s3 ← while fuel (fun s => DAYS_4 <=? l_days s) leap_4 s2;
  s4 ← while fuel (fun s => DAYS_1 <? l_days s) leap_1 s3;
  Some (l_year s4, l_days s4).

(** [while (days > day_tab[i]) { days -= day_tab[i]; i++; }] over the part of
    the table that starts at [i]; [None] when the loop leaves the table. *)
Fixpoint month_walk (day_tab : list Z) (i days : Z) : option (Z * Z) :=
  match day_tab with
  | [] => None
  | t :: tab => if t <? days then month_walk tab (i + 1) (days - t)
                else Some (i, days)
  end.

Definition cm_set_all_zero_detail (d : date_detail) : date_detail :=
  mk_date_detail 0 0 0 0 0 0 0 0 0 (tz_offset d).

Definition decode_fuel : nat := Z.to_nat 1000.

Definition cm_decode_date (date : Z) (detail : date_detail) : option date_detail :=
  if date =? CM_ALL_ZERO_DATETIME then Some (cm_set_all_zero_detail detail) else
  let q := Z.quot date UNITS_PER_DAY in
  let t0 := date - q * UNITS_PER_DAY in
  let (time, q) := if t0 <? 0 then (t0 + UNITS_PER_DAY, q - 1) else (t0, q) in
  let microsec := wrapU 16 (Z.rem time MICROSECS_PER_MILLISEC) in
  let time := Z.quot time MICROSECS_PER_MILLISEC in
  let millisec := wrapU 16 (Z.rem time MILLISECS_PER_SECOND) in
  let time := Z.quot time MILLISECS_PER_SECOND in
  let hour := wrapU 8 (Z.quot time SECONDS_PER_HOUR) in
  let time := time - hour * SECONDS_PER_HOUR in
  let min := wrapU 8 (Z.quot time SECONDS_PER_MIN) in
  let time := time - min * SECONDS_PER_MIN in
  let sec := wrapU 8 time in
  let days := wrapS 32 (q + CM_BASELINE_DAY) in
  '(y, days) ← cm_decode_leap decode_fuel 1 days;
  '(y, m, d) ←
    (if days =? 0 then Some (wrapU 16 (y - 1), 12, 31) else
     '(i, r) ← month_walk (g_cantian_month_days (IS_LEAP_YEAR y)) 0 days;
     Some (y, wrapU 8 (1 + i), wrapU 8 r));
  Some (mk_date_detail y m d hour min sec millisec microsec
          (nanosec detail) (tz_offset detail)).

(** ** Encoding *)

Definition days_before_year (y : Z) : Z :=
  let y := y - 1 in
  y * 365 + Z.quot y 4 - Z.quot y 100 + Z.quot y 400.

Definition sum_list (l : list Z) : Z := foldr Z.add 0 l.

Definition total_days_before_date (d : date_detail) : Z :=
  days_before_year (year d) - CM_BASELINE_DAY
  + sum_list (take (Z.to_nat (mon d - 1)) (g_cantian_month_days (IS_LEAP_YEAR (year d))))
  + day d.

Definition check_zero_date (d : date_detail) : bool :=
  (year d =? 0) && (mon d =? 0) && (day d =? 0) && (hour d =? 0) && (min d =? 0)
  && (sec d =? 0) && (millisec d =? 0) && (microsec d =? 0) && (nanosec d =? 0).

Definition check_zero_time_ltime (t : MYSQL_TIME) : bool :=
  (t_year t =? 0) && (t_month t =? 0) && (t_day t =? 0) && (t_hour t =? 0)
  && (t_minute t =? 0) && (t_second t =? 0) && (t_second_part t =? 0).

Definition check_datetime_vaild (d : date_detail) : bool :=
  if check_zero_date d then true
  else if negb (CM_IS_VALID_YEAR (year d)) then false
  else if (mon d <? 1) || (12 <? mon d) then false
  else if (day d <? 1) || (CM_MONTH_DAYS (year d) (mon d) <? day d) then false
  else if (23 <? hour d) || (59 <? min d) || (59 <? sec d) then false
  else if (999 <? millisec d) || (999 <? microsec d) then false
  else true.

(** The assertions of [cm_encode_date]. *)
Definition encode_asserts (d : date_detail) : bool :=
  CM_IS_VALID_YEAR (year d)
  && ((1 <=? mon d) && (mon d <=? 12)) && ((1 <=? day d) && (day d <=? 31))
  && (hour d <=? 23) && (min d <=? 59) && (sec d <=? 59)
  && (microsec d <=? 999) && (millisec d <=? 999).

Definition encode_units (d : date_detail) : Z :=
  let date := total_days_before_date d * SECONDS_PER_DAY in
  let date := date + hour d * SECONDS_PER_HOUR in
  let date := date + min d * SECONDS_PER_MIN in
  let date := date + sec d in
  let date := date * MILLISECS_PER_SECOND + millisec d in
  date * MICROSECS_PER_MILLISEC + microsec d.

Definition cm_encode_date (d : date_detail) : option Z :=
  if check_zero_date d then Some CM_ALL_ZERO_DATETIME
  else if encode_asserts d then Some (encode_units d) else None.

(** ** From and to the server's representation *)

Definition assign_mysql_date_detail (is_time : bool) (lt : MYSQL_TIME) : date_detail :=
  let lt := if is_time then
      mk_mysql_time (if t_year lt =? 0 then 1900 else t_year lt)
        (if t_month lt =? 0 then 1 else t_month lt)
        (if t_day lt =? 0 then 1 else t_day lt)
        (t_hour lt) (t_minute lt) (t_second lt) (t_second_part lt) (t_neg lt)
    else lt in
  mk_date_detail (wrapU 16 (t_year lt))
    (wrapU 8 (if t_year lt =? 0 then 0 else t_month lt))
    (wrapU 8 (if t_year lt =? 0 then 0 else t_day lt))
    (wrapU 8 (t_hour lt)) (wrapU 8 (t_minute lt)) (wrapU 8 (t_second lt))
    (wrapU 16 (Z.quot (t_second_part lt) MICROSECS_PER_MILLISEC))
    (wrapU 16 (Z.rem (t_second_part lt) MICROSECS_PER_MILLISEC)) 0 0.

(** ** The calendar the codec implements

    [valid_date] is the Gregorian calendar; [next_day] its successor;
    [tod] the microseconds since midnight. *)

Definition valid_date (y m d : Z) : Prop :=
  1 <= y <= 9999 /\ 1 <= m <= 12 /\ 1 <= d <= CM_MONTH_DAYS y m.

Definition valid_tod (d : date_detail) : Prop :=
  0 <= hour d <= 23 /\ 0 <= min d <= 59 /\ 0 <= sec d <= 59 /\
  0 <= millisec d <= 999 /\ 0 <= microsec d <= 999.

Definition valid (d : date_detail) : Prop :=
  valid_date (year d) (mon d) (day d) /\ valid_tod d.

Definition tod (d : date_detail) : Z :=
  (((hour d * 60 + min d) * 60 + sec d) * 1000 + millisec d) * 1000 + microsec d.

Definition date_days (y m d : Z) : Z :=
  days_before_year y - CM_BASELINE_DAY
  + sum_list (take (Z.to_nat (m - 1)) (g_cantian_month_days (IS_LEAP_YEAR y))) + d.

(** The day after [y-m-d], written from the month lengths only. *)
Definition next_day (y m d : Z) : Z * Z * Z :=
  if d <? CM_MONTH_DAYS y m then (y, m, d + 1)
  else if m <? 12 then (y, m + 1, 1) else (y + 1, 1, 1).

Ltac consts :=
  unfold DAYS_400, DAYS_100, DAYS_4, DAYS_1, UNITS_PER_DAY, CM_BASELINE_DAY,
    SECONDS_PER_DAY, SECONDS_PER_HOUR, SECONDS_PER_MIN, MILLISECS_PER_SECOND,
    MICROSECS_PER_MILLISEC, CM_ALL_ZERO_DATETIME in *.

(** A month number is one of twelve. *)
Ltac month_cases m :=
  let H := fresh in
  assert (m = 1 \/ m = 2 \/ m = 3 \/ m = 4 \/ m = 5 \/ m = 6 \/ m = 7 \/ m = 8 \/
          m = 9 \/ m = 10 \/ m = 11 \/ m = 12) as H by lia;
  destruct H as [->|[->|[->|[->|[->|[->|[->|[->|[->|[->|[->| ->]]]]]]]]]]].

Lemma leap_not_mod4 y : y mod 4 <> 0 -> IS_LEAP_YEAR y = false.
Proof. intros H. unfold IS_LEAP_YEAR. by apply Z.eqb_neq in H as ->. Qed.

Lemma days_before_year_succ y :
  1 <= y -> days_before_year (y + 1) = days_before_year y + 365 + Z.b2z (IS_LEAP_YEAR y).
Proof.
  intros H. unfold days_before_year, IS_LEAP_YEAR. cbv zeta.
  replace (y + 1 - 1) with y by lia.
  rewrite !Z.quot_div_nonneg by lia.
  destruct (y mod 4 =? 0) eqn:E4, (y mod 100 =? 0) eqn:E100, (y mod 400 =? 0) eqn:E400;
    zb; cbn [andb orb negb Z.b2z]; dlia.
Qed.

Lemma days_before_year_mono y1 y2 :
  1 <= y1 <= y2 -> days_before_year y1 + 365 * (y2 - y1) <= days_before_year y2.
Proof.
  intros H. unfold days_before_year. rewrite !Z.quot_div_nonneg by lia. dlia.
Qed.

Lemma days_before_year_split a b c i :
  0 <= a -> 0 <= b <= 3 -> 0 <= c <= 24 -> 0 <= i <= 3 ->
  days_before_year (1 + 400 * a + 100 * b + 4 * c + i)
  = a * DAYS_400 + b * DAYS_100 + c * DAYS_4 + i * DAYS_1.
Proof.
  intros. unfold days_before_year. consts. cbv zeta.
  rewrite !Z.quot_div_nonneg by lia. dlia.
Qed.

(** Month tables. *)
Lemma month_table_sum b : sum_list (g_cantian_month_days b) = 365 + Z.b2z b.
Proof. by destruct b. Qed.

Lemma month_prefix_succ y m :
  1 <= m <= 12 ->
  sum_list (take (Z.to_nat m) (g_cantian_month_days (IS_LEAP_YEAR y)))
  = sum_list (take (Z.to_nat (m - 1)) (g_cantian_month_days (IS_LEAP_YEAR y)))
    + CM_MONTH_DAYS y m.
Proof.
  intros H. unfold CM_MONTH_DAYS.
  destruct (IS_LEAP_YEAR y); month_cases m; reflexivity.
Qed.

Lemma month_days_bounds y m : 1 <= m <= 12 -> 28 <= CM_MONTH_DAYS y m <= 31.
Proof.
  intros H. unfold CM_MONTH_DAYS.
  destruct (IS_LEAP_YEAR y); month_cases m; vm_compute; split; discriminate.
Qed.

Lemma sum_take_mono l i j :
  Forall (fun t => 0 <= t) l -> (i <= j)%nat -> sum_list (take i l) <= sum_list (take j l).
Proof.
  intros Hl. revert i j. induction Hl as [|t l Ht Hl IH]; intros [|i] [|j] Hij; simpl; try lia.
  - specialize (IH 0%nat j). rewrite take_0 in IH. simpl in IH. lia.
  - specialize (IH i j ltac:(lia)). lia.
Qed.

Lemma month_table_nonneg b : Forall (fun t => 0 <= t) (g_cantian_month_days b).
Proof. destruct b; repeat constructor; lia. Qed.

Lemma month_prefix_mono y m1 m2 :
  1 <= m1 -> m1 <= m2 ->
  sum_list (take (Z.to_nat (m1 - 1)) (g_cantian_month_days (IS_LEAP_YEAR y)))
  <= sum_list (take (Z.to_nat (m2 - 1)) (g_cantian_month_days (IS_LEAP_YEAR y))).
Proof. intros. apply sum_take_mono; [apply month_table_nonneg|lia]. Qed.

(** A valid date lies strictly inside its year. *)
Lemma day_of_year_bounds y m d :
  1 <= m <= 12 -> 1 <= d <= CM_MONTH_DAYS y m ->
  1 <= sum_list (take (Z.to_nat (m - 1)) (g_cantian_month_days (IS_LEAP_YEAR y))) + d
    <= 365 + Z.b2z (IS_LEAP_YEAR y).
Proof.
  intros Hm Hd. pose proof (month_prefix_succ y m Hm) as Hs.
  pose proof (month_prefix_mono y 1 m ltac:(lia) ltac:(lia)) as H1. simpl in H1.
  pose proof (month_prefix_mono y (m + 1) 13 ltac:(lia) ltac:(lia)) as H2.
  replace (m + 1 - 1) with m in H2 by lia.
  replace (take (Z.to_nat (13 - 1)) (g_cantian_month_days (IS_LEAP_YEAR y)))
    with (g_cantian_month_days (IS_LEAP_YEAR y)) in H2 by (by destruct (IS_LEAP_YEAR y)).
  rewrite month_table_sum in H2. lia.
Qed.

(** Lexicographic order of dates. *)
Definition date_lt (p q : Z * Z * Z) : Prop :=
  let '(y1, m1, d1) := p in let '(y2, m2, d2) := q in
  y1 < y2 \/ (y1 = y2 /\ (m1 < m2 \/ (m1 = m2 /\ d1 < d2))).

Lemma date_lt_total p q : date_lt p q \/ p = q \/ date_lt q p.
Proof.
  destruct p as [[y1 m1] d1], q as [[y2 m2] d2]. unfold date_lt.
  destruct (Z.lt_trichotomy y1 y2) as [?|[<-|?]]; [lia| |lia].
  destruct (Z.lt_trichotomy m1 m2) as [?|[<-|?]]; [lia| |lia].
  destruct (Z.lt_trichotomy d1 d2) as [?|[<-|?]]; [lia| |lia]. auto.
Qed.

Lemma date_days_lt y1 m1 d1 y2 m2 d2 :
  valid_date y1 m1 d1 -> valid_date y2 m2 d2 ->
  date_lt (y1, m1, d1) (y2, m2, d2) -> date_days y1 m1 d1 < date_days y2 m2 d2.
Proof.
  intros (Hy1 & Hm1 & Hd1) (Hy2 & Hm2 & Hd2) Hlt. unfold date_days.
  pose proof (day_of_year_bounds y1 m1 d1 Hm1 Hd1).
  pose proof (day_of_year_bounds y2 m2 d2 Hm2 Hd2).
  destruct Hlt as [Hlt|[<- [Hlt|[<- Hlt]]]]; [| |lia].
  - pose proof (days_before_year_succ y1 ltac:(lia)).
    pose proof (days_before_year_mono (y1 + 1) y2 ltac:(lia)). lia.
  - pose proof (month_prefix_succ y1 m1 Hm1) as Hs.
    pose proof (month_prefix_mono y1 (m1 + 1) m2 ltac:(lia) ltac:(lia)) as Hm.
    replace (m1 + 1 - 1) with m1 in Hm by lia. lia.
Qed.

Lemma date_days_inj y1 m1 d1 y2 m2 d2 :
  valid_date y1 m1 d1 -> valid_date y2 m2 d2 ->
  date_days y1 m1 d1 = date_days y2 m2 d2 -> (y1, m1, d1) = (y2, m2, d2).
Proof.
  intros H1 H2 He.
  destruct (date_lt_total (y1, m1, d1) (y2, m2, d2)) as [Hl|[?|Hl]]; [|done|];
    apply date_days_lt in Hl; auto; lia.
Qed.

Lemma date_days_range y m d :
  valid_date y m d -> 1 - CM_BASELINE_DAY <= date_days y m d <= 2921939.
Proof.
  intros (Hy & Hm & Hd). unfold date_days. consts.
  pose proof (day_of_year_bounds y m d Hm Hd).
  pose proof (days_before_year_mono 1 y ltac:(lia)) as H1.
  pose proof (days_before_year_succ y ltac:(lia)) as H2.
  pose proof (days_before_year_mono (y + 1) 10000 ltac:(lia)) as H3.
  change (days_before_year 1) with 0 in H1.
  change (days_before_year 10000) with 3652059 in H3. lia.
Qed.

(** ** The decoder, loop by loop *)

(** The year counter is a [uint16]: [wrapU 16] only matters mod 4 there. *)
Lemma wrap16_mod4 y : (wrapU 16 y) mod 4 = y mod 4.
Proof. unfold wrapU. change (2 ^ 16) with 65536. dlia. Qed.

Definition leap_rel (y0 d0 step len k : Z) (s : leap_st) : Prop :=
  l_year s = wrapU 16 (y0 + step * k) /\ l_days s = d0 - len * k.

Lemma leap_rel_step y0 d0 step len k y d :
  leap_rel y0 d0 step len k (mk_leap y 0 d) ->
  wrapU 16 (y + step) = wrapU 16 (y0 + step * (k + 1)) /\
  d - len = d0 - len * (k + 1).
Proof.
  intros [Hy Hd]. simpl in *. subst. split; [|lia].
  unfold wrapU. rewrite Zplus_mod_idemp_l. f_equal. lia.
Qed.

(** One loop that adds [step] years for every [len] days. *)
Lemma leap_loop (step len : Z) (b : leap_st -> leap_st) (c : leap_st -> bool)
    (fuel : nat) (y0 d0 hi : Z) (s : leap_st) :
  0 < len -> 0 <= d0 -> d0 < len * hi -> hi <= Z.of_nat fuel ->
  l_year s = wrapU 16 y0 -> l_days s = d0 ->
  (forall s, b s = mk_leap (wrapU 16 (l_year s + step)) (l_cnt (b s)) (l_days s - len)) ->
  (forall s, c s = (len <=? l_days s)) ->
  exists s', while fuel c b s = Some s' /\
    leap_rel y0 d0 step len (d0 / len) s'.
Proof.
  intros Hlen Hd0 Hhi Hfuel Hy Hd Hb Hc.
  pose (Inv := fun s => exists k, 0 <= k /\ leap_rel y0 d0 step len k s /\ 0 <= l_days s).
  destruct (while_total Inv (fun s => l_days s / len) c b) with (fuel := fuel) (s := s)
    as (s' & Hw & (k & Hk & [Hy' Hd'] & Hpos) & Hexit).
  - intros t (k & Hk & [Hty Htd] & Hpos) Ht. rewrite Hc in Ht. zb. split.
    + exists (k + 1). rewrite Hb. simpl. split; [lia|]. split; [|lia].
      split; simpl; [|lia]. rewrite Hty. unfold wrapU. rewrite Zplus_mod_idemp_l.
      f_equal. lia.
    + rewrite Hb. simpl. replace (l_days t - len) with (l_days t + (-1) * len) by lia.
      rewrite Z.div_add by lia. lia.
  - intros t (k & Hk & _ & Hpos). apply Z.div_pos; lia.
  - exists 0. split; [lia|]. split; [|lia]. split; [|lia].
    rewrite Z.mul_0_r, Z.add_0_r. done.
  - rewrite Hd. apply Z.lt_le_trans with hi; [|lia].
    apply Z.div_lt_upper_bound; lia.
  - exists s'. split; [done|]. rewrite Hc in Hexit. zb.
    assert (d0 / len = k) as ->; [|done].
    symmetry. apply (Z.div_unique d0 len k (l_days s')); lia.
Qed.

(** The second loop stops after at most three rounds. *)
Lemma century_loop fuel y0 d0 :
  0 <= d0 < DAYS_400 -> 4 <= Z.of_nat fuel ->
  exists b s', while fuel (fun s => (DAYS_100 <=? l_days s) && (l_cnt s <? 4)) leap_100
    (mk_leap (wrapU 16 y0) 1 d0) = Some s' /\
    0 <= b <= 3 /\ leap_rel y0 d0 100 DAYS_100 b s' /\ 0 <= l_days s' <= DAYS_100.
Proof.
  intros Hd Hfuel.
  pose (Inv := fun s => exists b, 0 <= b <= 3 /\ l_cnt s = b + 1 /\
                leap_rel y0 d0 100 DAYS_100 b s /\ 0 <= l_days s).
  destruct (while_total Inv (fun s => 4 - l_cnt s)
    (fun s => (DAYS_100 <=? l_days s) && (l_cnt s <? 4)) leap_100)
    with (fuel := fuel) (s := mk_leap (wrapU 16 y0) 1 d0)
    as (s' & Hw & (b & Hb & Hcnt & [Hy' Hd'] & Hpos) & Hexit).
  - intros t (b & Hb & Hcnt & [Hty Htd] & Hpos) Ht. zb. split; [|simpl; lia].
    exists (b + 1). split; [lia|]. split; [simpl; lia|]. split; [|simpl; lia].
    split; simpl; [|lia]. rewrite Hty. unfold wrapU. rewrite Zplus_mod_idemp_l.
    f_equal. lia.
  - intros t (b & Hb & Hcnt & _). lia.
  - exists 0. split; [lia|]. split; [done|]. split; [|simpl; lia].
    split; simpl; [|lia]. rewrite Z.add_0_r. done.
  - simpl. lia.
  - exists b, s'. split; [done|]. split; [done|]. split; [done|].
    apply andb_false_iff in Hexit as [He|He]; zb; consts; lia.
Qed.

(** The last loop: at most three rounds and never in a leap year, so its
    [days--] branch is not taken. *)
Lemma year_loop fuel y0 d0 cnt :
  y0 mod 4 = 1 -> 0 <= d0 < DAYS_4 -> 5 <= Z.of_nat fuel ->
  exists i s', while fuel (fun s => DAYS_1 <? l_days s) leap_1
    (mk_leap (wrapU 16 y0) cnt d0) = Some s' /\
    0 <= i <= 3 /\ leap_rel y0 d0 1 DAYS_1 i s' /\ 0 <= l_days s' <= DAYS_1 /\
    (0 < i -> 0 < l_days s').
Proof.
  intros Hm Hd Hfuel.
  pose (Inv := fun s => exists i, 0 <= i <= 3 /\ leap_rel y0 d0 1 DAYS_1 i s /\
                0 <= l_days s /\ (0 < i -> 0 < l_days s)).
  destruct (while_total Inv (fun s => l_days s / DAYS_1)
    (fun s => DAYS_1 <? l_days s) leap_1)
    with (fuel := fuel) (s := mk_leap (wrapU 16 y0) cnt d0)
    as (s' & Hw & (i & Hi & [Hy' Hd'] & Hpos & Hpos') & Hexit).
  - intros t (i & Hi & [Hty Htd] & Hpos & Hpos') Ht. zb.
    assert (IS_LEAP_YEAR (l_year t) = false) as Hnl.
    { apply leap_not_mod4. rewrite Hty, wrap16_mod4. consts. dlia. }
    unfold leap_1. rewrite Hnl. split.
    + exists (i + 1). split; [consts; lia|]. split; [|simpl; consts; lia].
      split; simpl; [|lia]. rewrite Hty. unfold wrapU. rewrite Zplus_mod_idemp_l.
      f_equal. lia.
    + simpl. consts. dlia.
  - intros t (i & _ & _ & Hpos & _). consts. apply Z.div_pos; lia.
  - exists 0. split; [lia|]. split; [|simpl; lia]. split; simpl; [|lia].
    rewrite Z.add_0_r. done.
  - simpl. consts. dlia.
  - exists i, s'. zb. repeat split; try done; lia.
Qed.

Lemma div_step_bounds d len hi :
  0 < len -> 0 <= d < len * hi -> 0 <= d / len < hi /\ 0 <= d - len * (d / len) < len.
Proof.
  intros Hl Hd. pose proof (Z.div_mod d len ltac:(lia)).
  pose proof (Z.mod_pos_bound d len Hl). split; [|lia].
  split; [apply Z.div_pos; lia|apply Z.div_lt_upper_bound; lia].
Qed.

Lemma cm_decode_leap_spec days :
  0 <= days < 2 ^ 27 ->
  exists a b c i r,
    cm_decode_leap decode_fuel 1 days
    = Some (wrapU 16 (1 + 400 * a + 100 * b + 4 * c + i), r) /\
    0 <= a <= 918 /\ 0 <= b <= 3 /\ 0 <= c <= 24 /\ 0 <= i <= 3 /\
    0 <= r <= DAYS_1 /\ (r = 0 -> i = 0) /\
    days = a * DAYS_400 + b * DAYS_100 + c * DAYS_4 + i * DAYS_1 + r.
Proof.
  intros Hd. unfold cm_decode_leap. assert (Z.of_nat decode_fuel = 1000) as Hf by done.
  destruct (leap_loop 400 DAYS_400 leap_400 (fun s => DAYS_400 <=? l_days s)
    decode_fuel 1 days 920 (mk_leap 1 0 days)) as (s1 & -> & Hy1 & Hd1);
    try done; try (consts; lia).
  cbn [mbind option_bind]. set (a := days / DAYS_400) in *.
  pose proof (div_step_bounds days DAYS_400 919 ltac:(done) ltac:(consts; lia)) as Ha.
  fold a in Ha. rewrite <- Hd1 in Ha. destruct Ha as [Ha Hr1].
  rewrite Hy1.
  destruct (century_loop decode_fuel (1 + 400 * a) (l_days s1)) as (b & s2 & -> & Hb & [Hy2 Hd2] & Hr2);
    [done|lia|]. cbn [mbind option_bind].
  destruct (leap_loop 4 DAYS_4 leap_4 (fun s => DAYS_4 <=? l_days s)
    decode_fuel (1 + 400 * a + 100 * b) (l_days s2) 26 s2) as (s3 & -> & Hy3 & Hd3);
    try done; try (consts; lia).
  cbn [mbind option_bind]. set (c := l_days s2 / DAYS_4) in *.
  pose proof (div_step_bounds (l_days s2) DAYS_4 25 ltac:(done) ltac:(consts; lia)) as Hc.
  fold c in Hc. rewrite <- Hd3 in Hc. destruct Hc as [Hc Hr3].
  destruct s3 as [y3 c3 d3]. cbn [l_year l_days l_cnt] in *. subst y3.
  destruct (year_loop decode_fuel (1 + 400 * a + 100 * b + 4 * c) d3 c3)
    as (i & s4 & -> & Hi & [Hy4 Hd4] & Hr4 & Hi4);
    [clear; dlia|done|lia|].
  cbn [mbind option_bind].
  exists a, b, c, i, (l_days s4). rewrite Hy4.
  split; [do 3 f_equal; lia|]. repeat split; try lia.
Qed.

Lemma month_walk_spec tab i days :
  1 <= days <= sum_list tab ->
  exists k, month_walk tab i days = Some (i + Z.of_nat k, days - sum_list (take k tab)) /\
    (k < length tab)%nat /\ 1 <= days - sum_list (take k tab) <= default 0 (tab !! k).
Proof.
  revert i days. induction tab as [|t tab IH]; intros i days Hd; simpl in *; [lia|].
  destruct (t <? days) eqn:Ht; zb.
  - destruct (IH (i + 1) (days - t)) as (k & -> & Hk & Hr); [lia|].
    exists (S k). simpl. split; [f_equal; f_equal; lia|]. split; [lia|].
    replace (days - (t + sum_list (take k tab))) with (days - t - sum_list (take k tab)) by lia.
    done.
  - exists 0%nat. simpl. rewrite Z.sub_0_r, Z.add_0_r. repeat split; lia.
Qed.

(** ** The decoder as a whole *)

Lemma leap_year_wrap y : 0 <= y < 65536 -> wrapU 16 y = y.
Proof. intros. apply wrapU_small. done. Qed.

(** The time of day: the cascade of divisions and byte conversions. *)
Lemma time_fields t :
  0 <= t < UNITS_PER_DAY ->
  exists h mi s ms us,
    wrapU 16 (Z.rem t MICROSECS_PER_MILLISEC) = us /\
    wrapU 16 (Z.rem (Z.quot t 1000) MILLISECS_PER_SECOND) = ms /\
    wrapU 8 (Z.quot (Z.quot (Z.quot t 1000) 1000) SECONDS_PER_HOUR) = h /\
    wrapU 8 (Z.quot (Z.quot (Z.quot t 1000) 1000 - h * SECONDS_PER_HOUR) SECONDS_PER_MIN) = mi /\
    wrapU 8 (Z.quot (Z.quot t 1000) 1000 - h * SECONDS_PER_HOUR - mi * SECONDS_PER_MIN) = s /\
    0 <= h <= 23 /\ 0 <= mi <= 59 /\ 0 <= s <= 59 /\ 0 <= ms <= 999 /\ 0 <= us <= 999 /\
    t = (((h * 60 + mi) * 60 + s) * 1000 + ms) * 1000 + us.
Proof.
  intros H. consts.
  exists (t / 3600000000), (t / 60000000 mod 60), (t / 1000000 mod 60),
    (t / 1000 mod 1000), (t mod 1000).
  rewrite Z.quot_div_nonneg, !Z.rem_mod_nonneg by dlia.
  rewrite (Z.quot_div_nonneg (t / 1000)) by dlia.
  assert (t / 1000 / 1000 / 3600 = t / 3600000000) as Hh by dlia.
  rewrite (Z.quot_div_nonneg (t / 1000 / 1000)) by dlia. rewrite Hh.
  assert ((t / 1000 / 1000 - t / 3600000000 * 3600) / 60 = t / 60000000 mod 60) as Hmi by dlia.
  rewrite (Z.quot_div_nonneg (_ - _)), Hmi by dlia.
  rewrite !wrapU_small by dlia. repeat split; try dlia.
Qed.

Lemma split_day (date : Z) :
  let q := Z.quot date UNITS_PER_DAY in
  let t := date - q * UNITS_PER_DAY in
  (if t <? 0 then (t + UNITS_PER_DAY, q - 1) else (t, q))
  = (date mod UNITS_PER_DAY, date / UNITS_PER_DAY).
Proof.
  cbv zeta. consts.
  destruct (_ <? 0) eqn:E; zb; f_equal; dlia.
Qed.

(** The calendar date of a non-negative day count. *)
Definition decode_days (days : Z) : option (Z * Z * Z) :=
  '(y, days) ← cm_decode_leap decode_fuel 1 days;
  if days =? 0 then Some (wrapU 16 (y - 1), 12, 31) else
  '(i, r) ← month_walk (g_cantian_month_days (IS_LEAP_YEAR y)) 0 days;
  Some (y, wrapU 8 (1 + i), wrapU 8 r).

Lemma cm_decode_date_unfold date d0 :
  date <> CM_ALL_ZERO_DATETIME ->
  exists h mi s ms us,
    cm_decode_date date d0 =
      ('(y, m, d) ← decode_days (wrapS 32 (date / UNITS_PER_DAY + CM_BASELINE_DAY));
       Some (mk_date_detail y m d h mi s ms us (nanosec d0) (tz_offset d0))) /\
    0 <= h <= 23 /\ 0 <= mi <= 59 /\ 0 <= s <= 59 /\ 0 <= ms <= 999 /\ 0 <= us <= 999 /\
    date mod UNITS_PER_DAY = (((h * 60 + mi) * 60 + s) * 1000 + ms) * 1000 + us.
Proof.
  intros Hz.
  destruct (time_fields (date mod UNITS_PER_DAY)) as
    (h & mi & s & ms & us & Hus & Hms & Hh & Hmi & Hs & Hrest).
  { apply Z.mod_pos_bound. done. }
  exists h, mi, s, ms, us. split; [|done].
  unfold cm_decode_date. apply Z.eqb_neq in Hz as ->. cbv zeta.
  rewrite split_day. rewrite Hus. change MICROSECS_PER_MILLISEC with 1000.
  rewrite Hms. change MILLISECS_PER_SECOND with 1000. rewrite Hh, Hmi, Hs.
  unfold decode_days.
  destruct (cm_decode_leap _ _ _) as [[y r]|]; [|done].
  cbn [mbind option_bind].
  destruct (r =? 0); [done|]. destruct (month_walk _ _ _) as [[? ?]|]; done.
Qed.

(** Every day count an [int64] date can give, before year 1 or not. *)
Lemma decode_days_total days :
  - 2 ^ 27 <= days < 2 ^ 27 -> exists y m d, decode_days days = Some (y, m, d).
Proof.
  intros Hd. unfold decode_days. destruct (Z_lt_dec days 0) as [Hneg|Hpos].
  - assert (cm_decode_leap decode_fuel 1 days = Some (1, days)) as ->.
    { unfold cm_decode_leap, decode_fuel.
      change (Z.to_nat 1000) with (S (Z.to_nat 999)). cbn [while l_days].
      assert (forall n, 0 < n -> (n <=? days) = false) as Hn by (intros; apply Z.leb_gt; lia).
      rewrite Hn by done. cbn [mbind option_bind while l_days l_year].
      rewrite Hn by done. cbn [andb mbind option_bind l_days].
      rewrite Hn by done. cbn [mbind option_bind l_days l_year].
      assert ((DAYS_1 <? days) = false) as -> by (apply Z.ltb_ge; consts; lia). done. }
    cbn [mbind option_bind].
    assert ((days =? 0) = false) as -> by (apply Z.eqb_neq; lia).
    simpl. assert ((31 <? days) = false) as -> by (apply Z.ltb_ge; lia). simpl. eauto.
  - destruct (cm_decode_leap_spec days) as (a & b & c & i & r & -> & Ha & Hb & Hc & Hi & Hr & _);
      [lia|]. cbn [mbind option_bind].
    destruct (r =? 0) eqn:Hr0; [eauto|]. zb.
    destruct (month_walk_spec (g_cantian_month_days
      (IS_LEAP_YEAR (wrapU 16 (1 + 400 * a + 100 * b + 4 * c + i)))) 0 r) as (k & -> & _).
    { rewrite month_table_sum. consts. destruct (IS_LEAP_YEAR _); simpl; lia. }
    cbn [mbind option_bind]. eauto.
Qed.

(** Inside the supported years, the decoded day count is the encoder's. *)
Lemma decode_days_spec days :
  1 <= days <= 3652059 ->
  exists y m d, decode_days days = Some (y, m, d) /\ valid_date y m d /\
    date_days y m d + CM_BASELINE_DAY = days.
Proof.
  intros Hd. unfold decode_days.
  destruct (cm_decode_leap_spec days) as
    (a & b & c & i & r & -> & Ha & Hb & Hc & Hi & Hr & Hri & Hdays); [lia|].
  cbn [mbind option_bind].
  set (y := 1 + 400 * a + 100 * b + 4 * c + i) in *.
  assert (1 <= y <= 10000) as Hy by (subst y; consts; lia).
  rewrite (leap_year_wrap y) by lia.
  pose proof (days_before_year_split a b c i ltac:(lia) Hb Hc Hi) as Hsplit.
  fold y in Hsplit. destruct (r =? 0) eqn:Hr0; zb.
  - assert (2 <= y) as Hy2 by (subst y; consts; lia).
    rewrite (leap_year_wrap (y - 1)) by lia. exists (y - 1), 12, 31.
    split; [done|]. split; [|].
    + split; [lia|]. split; [lia|].
      unfold CM_MONTH_DAYS; destruct (IS_LEAP_YEAR (y - 1)); vm_compute; split; discriminate.
    + unfold date_days. pose proof (days_before_year_succ (y - 1) ltac:(lia)) as Hs.
      replace (y - 1 + 1) with y in Hs by lia.
      pose proof (month_prefix_succ (y - 1) 12 ltac:(lia)) as Hm.
      assert (CM_MONTH_DAYS (y - 1) 12 = 31) as H31
        by (unfold CM_MONTH_DAYS; destruct (IS_LEAP_YEAR (y - 1)); reflexivity).
      pose proof (month_table_sum (IS_LEAP_YEAR (y - 1))) as Hsum.
      replace (take (Z.to_nat 12) (g_cantian_month_days (IS_LEAP_YEAR (y - 1))))
        with (g_cantian_month_days (IS_LEAP_YEAR (y - 1))) in Hm
        by (destruct (IS_LEAP_YEAR (y - 1)); reflexivity). lia.
  - assert (y <= 9999) by (subst y; consts; lia).
    destruct (month_walk_spec (g_cantian_month_days (IS_LEAP_YEAR y)) 0 r)
      as (k & -> & Hk & Hkr).
    { rewrite month_table_sum. consts. destruct (IS_LEAP_YEAR _); simpl; lia. }
    assert (length (g_cantian_month_days (IS_LEAP_YEAR y)) = 12%nat) as Hlen
      by (by destruct (IS_LEAP_YEAR y)). rewrite Hlen in Hk.
    cbn [mbind option_bind].
    assert (CM_MONTH_DAYS y (Z.of_nat k + 1)
      = default 0 (g_cantian_month_days (IS_LEAP_YEAR y) !! k)) as Hcm.
    { unfold CM_MONTH_DAYS. do 2 f_equal. lia. }
    pose proof (month_days_bounds y (Z.of_nat k + 1) ltac:(lia)).
    rewrite !wrapU_small by lia. eexists _, _, _. split; [done|].
    replace (1 + (0 + Z.of_nat k)) with (Z.of_nat k + 1) by lia. split.
    + split; [lia|]. split; lia.
    + unfold date_days. replace (Z.to_nat (Z.of_nat k + 1 - 1)) with k by lia. lia.
Qed.

Lemma encode_units_days d :
  encode_units d = date_days (year d) (mon d) (day d) * UNITS_PER_DAY + tod d.
Proof.
  unfold encode_units, total_days_before_date, date_days, tod. consts. lia.
Qed.

Lemma tod_range d : valid_tod d -> 0 <= tod d < UNITS_PER_DAY.
Proof. unfold valid_tod, tod. consts. lia. Qed.

Lemma check_valid_spec d :
  0 <= hour d -> 0 <= min d -> 0 <= sec d -> 0 <= millisec d -> 0 <= microsec d ->
  check_zero_date d = false -> (check_datetime_vaild d = true <-> valid d).
Proof.
  intros ? ? ? ? ? Hz. unfold check_datetime_vaild, valid, valid_date, valid_tod,
    CM_IS_VALID_YEAR. rewrite Hz. split.
  - intros Hv. repeat match type of Hv with
      (if ?c then _ else _) = true => destruct c eqn:?; [done|] end. zb. lia.
  - intros ((Hy & Hm & Hd) & Ht).
    repeat case_match; try done;
      repeat match goal with H : (_ || _)%bool = true |- _ => apply orb_true_iff in H; destruct H
        | H : negb (_ && _)%bool = true |- _ => apply negb_true_iff, andb_false_iff in H; destruct H end;
      zb; lia.
Qed.

Lemma valid_not_zero d : valid d -> check_zero_date d = false.
Proof.
  intros ((Hy & _) & _). unfold check_zero_date.
  assert ((year d =? 0) = false) as -> by (apply Z.eqb_neq; lia). done.
Qed.

Lemma valid_encode d : valid d -> cm_encode_date d = Some (encode_units d).
Proof.
  intros Hv. unfold cm_encode_date. rewrite valid_not_zero by done.
  destruct Hv as ((Hy & Hm & Hd) & Ht). unfold valid_tod in Ht.
  pose proof (month_days_bounds (year d) (mon d) Hm).
  assert (encode_asserts d = true) as ->; [|done].
  unfold encode_asserts, CM_IS_VALID_YEAR. rewrite !andb_true_iff, !Z.leb_le. lia.
Qed.

Lemma encode_range d :
  valid d -> -63082281600000000 <= encode_units d < 252455616000000000.
Proof.
  intros [Hd Ht]. rewrite encode_units_days.
  pose proof (date_days_range _ _ _ Hd). pose proof (tod_range d Ht). consts. lia.
Qed.

(** Decoding a date of the years 1 to 9999. *)
Lemma decode_in_range z d0 :
  -63082281600000000 <= z < 252455616000000000 ->
  exists d, cm_decode_date z d0 = Some d /\ valid d /\ encode_units d = z /\
    nanosec d = nanosec d0 /\ tz_offset d = tz_offset d0.
Proof.
  intros Hz.
  destruct (cm_decode_date_unfold z d0) as
    (h & mi & s & ms & us & -> & Hh & Hmi & Hs & Hms & Hus & Ht); [consts; lia|].
  rewrite wrapS_small by (try done; change (2 ^ (32 - 1)) with 2147483648; consts; dlia).
  destruct (decode_days_spec (z / UNITS_PER_DAY + CM_BASELINE_DAY))
    as (y & m & d & -> & Hv & Hdays); [consts; dlia|].
  cbn [mbind option_bind].
  eexists. split; [reflexivity|]. split; [split; [exact Hv|unfold valid_tod; simpl; lia]|].
  split; [|done]. rewrite encode_units_days. simpl. unfold tod. simpl. rewrite <- Ht.
  pose proof (Z.div_mod z UNITS_PER_DAY ltac:(done)). consts. lia.
Qed.

Lemma encode_units_inj d1 d2 :
  valid d1 -> valid d2 -> encode_units d1 = encode_units d2 ->
  year d1 = year d2 /\ mon d1 = mon d2 /\ day d1 = day d2 /\ tod d1 = tod d2.
Proof.
  intros [Hd1 Ht1] [Hd2 Ht2] He. rewrite !encode_units_days in He.
  pose proof (tod_range d1 Ht1). pose proof (tod_range d2 Ht2).
  assert (date_days (year d1) (mon d1) (day d1) = date_days (year d2) (mon d2) (day d2)
    /\ tod d1 = tod d2) as [Hdd ?] by (consts; lia).
  apply date_days_inj in Hdd; [|done..]. by simplify_eq.
Qed.

Lemma tod_inj d1 d2 :
  valid_tod d1 -> valid_tod d2 -> tod d1 = tod d2 ->
  hour d1 = hour d2 /\ min d1 = min d2 /\ sec d1 = sec d2 /\
  millisec d1 = millisec d2 /\ microsec d1 = microsec d2.
Proof. unfold valid_tod, tod. lia. Qed.

Lemma date_detail_eq d1 d2 :
  year d1 = year d2 -> mon d1 = mon d2 -> day d1 = day d2 -> hour d1 = hour d2 ->
  min d1 = min d2 -> sec d1 = sec d2 -> millisec d1 = millisec d2 ->
  microsec d1 = microsec d2 -> nanosec d1 = nanosec d2 -> tz_offset d1 = tz_offset d2 ->
  d1 = d2.
Proof. destruct d1, d2. simpl. congruence. Qed.

(** ** Properties of the codec *)

(** The fields of a [date_detail_t] are unsigned. *)
Definition fields_nonneg (d : date_detail) : Prop :=
  0 <= hour d /\ 0 <= min d /\ 0 <= sec d /\ 0 <= millisec d /\ 0 <= microsec d.

Definition with_extras (d d0 : date_detail) : date_detail :=
  mk_date_detail (year d) (mon d) (day d) (hour d) (min d) (sec d)
    (millisec d) (microsec d)
    (if check_zero_date d then 0 else nanosec d0) (tz_offset d0).

Lemma decode_encode_valid d d0 z :
  fields_nonneg d -> check_datetime_vaild d = true -> cm_encode_date d = Some z ->
  cm_decode_date z d0 = Some (with_extras d d0).
Proof.
  intros (? & ? & ? & ? & ?) Hv He. unfold with_extras.
  destruct (check_zero_date d) eqn:Hz.
  - unfold cm_encode_date in He. rewrite Hz in He. simplify_eq.
    unfold cm_decode_date. rewrite Z.eqb_refl. unfold cm_set_all_zero_detail.
    unfold check_zero_date in Hz. zb. f_equal. apply date_detail_eq; simpl; congruence.
  - apply check_valid_spec in Hv; [|done..]. rewrite valid_encode in He by done. simplify_eq.
    destruct (decode_in_range (encode_units d) d0 (encode_range d Hv))
      as (d' & -> & Hv' & He & Hn & Ho). f_equal.
    apply encode_units_inj in He as (? & ? & ? & ?); [|done..].
    destruct (tod_inj d' d) as (? & ? & ? & ? & ?); [apply Hv'|apply Hv|done|].
    apply date_detail_eq; simpl; congruence.
Qed.

Lemma valid_encodes d :
  fields_nonneg d -> check_datetime_vaild d = true -> exists z, cm_encode_date d = Some z.
Proof.
  intros (? & ? & ? & ? & ?) Hv. destruct (check_zero_date d) eqn:Hz.
  - unfold cm_encode_date. rewrite Hz. eauto.
  - apply check_valid_spec in Hv; [|done..]. rewrite valid_encode by done. eauto.
Qed.

Definition detail_key (d : date_detail) : Z * Z * Z := (year d, mon d, day d).

(** Chronological order: the calendar date first, then the time of day. *)
Definition detail_lt (d1 d2 : date_detail) : Prop :=
  date_lt (detail_key d1) (detail_key d2)
  \/ (detail_key d1 = detail_key d2 /\ tod d1 < tod d2).

Lemma encode_units_lt d1 d2 :
  valid d1 -> valid d2 -> detail_lt d1 d2 -> encode_units d1 < encode_units d2.
Proof.
  intros [Hd1 Ht1] [Hd2 Ht2] Hlt. rewrite !encode_units_days.
  pose proof (tod_range d1 Ht1). pose proof (tod_range d2 Ht2).
  destruct Hlt as [Hlt|[Heq Hlt]].
  - apply (date_days_lt _ _ _ _ _ _ Hd1 Hd2) in Hlt. consts. lia.
  - unfold detail_key in Heq. injection Heq as -> -> ->. lia.
Qed.

Lemma detail_lt_total d1 d2 :
  detail_lt d1 d2 \/ (detail_key d1 = detail_key d2 /\ tod d1 = tod d2) \/ detail_lt d2 d1.
Proof.
  unfold detail_lt. destruct (date_lt_total (detail_key d1) (detail_key d2)) as [?|[He|?]];
    [auto| |auto]. rewrite He.
  destruct (Z.lt_trichotomy (tod d1) (tod d2)) as [?|[?|?]]; auto.
Qed.

Lemma next_day_spec y m d y' m' d' :
  1 <= y -> 1 <= m <= 12 -> 1 <= d <= CM_MONTH_DAYS y m ->
  next_day y m d = (y', m', d') -> date_days y' m' d' = date_days y m d + 1.
Proof.
  intros Hy Hm Hd. unfold next_day, date_days.
  destruct (d <? CM_MONTH_DAYS y m) eqn:E1; zb.
  { intros He. injection He as <- <- <-. lia. }
  pose proof (month_prefix_succ y m Hm) as Hs.
  destruct (m <? 12) eqn:E2; zb; intros He; injection He as <- <- <-.
  - replace (m + 1 - 1) with m by lia. lia.
  - pose proof (days_before_year_succ y Hy).
    replace m with 12 in Hs |- * by lia.
    pose proof (month_table_sum (IS_LEAP_YEAR y)) as Ht.
    replace (take (Z.to_nat 12) (g_cantian_month_days (IS_LEAP_YEAR y)))
        with (g_cantian_month_days (IS_LEAP_YEAR y)) in Hs
        by (destruct (IS_LEAP_YEAR y); reflexivity).
    change (take (Z.to_nat (1 - 1)) (g_cantian_month_days (IS_LEAP_YEAR (y + 1)))) with (@nil Z).
    replace m with 12 in * by lia. simpl sum_list. lia.
Qed.

(** C13: whatever passes [check_datetime_vaild] is encoded, and
    [cm_decode_date] restores every calendar and time field of it (the
    decoder leaves the nanoseconds and the time zone of its output buffer
    alone, except for the zero date, whose nanoseconds are zero). *)
Theorem cm_decode_encode (d : date_detail) (H : fields_nonneg d)
    (Hv : check_datetime_vaild d = true) :
  exists z, cm_encode_date d = Some z /\
    forall d0, cm_decode_date z d0 = Some (with_extras d d0).
Proof.
  destruct (valid_encodes d H Hv) as [z Hz]. exists z. split; [done|].
  intros d0. by apply decode_encode_valid.
Qed.

Definition sample : date_detail := mk_date_detail 2024 2 29 23 59 58 123 456 0 0.

Lemma cm_decode_encode_witness :
  cm_encode_date sample = Some 762566398123456 /\
  exists z, cm_encode_date sample = Some z /\
    forall d0, cm_decode_date z d0 = Some (with_extras sample d0).
Proof.
  split; [vm_compute; reflexivity|]. apply (cm_decode_encode sample).
  - unfold fields_nonneg. simpl. lia.
  - vm_compute. reflexivity.
Defined.

(** On the dates of the years 1 to 9999 [cm_decode_date] gives a valid
    date, which [cm_encode_date] encodes back to the same integer. *)
Theorem cm_encode_decode (z : Z) (d0 : date_detail)
    (Hz : -63082281600000000 <= z < 252455616000000000) :
  exists d, cm_decode_date z d0 = Some d /\ check_datetime_vaild d = true /\
    cm_encode_date d = Some z.
Proof.
  destruct (decode_in_range z d0 Hz) as (d & Hdec & Hv & He & _).
  exists d. split; [done|]. split; [|by rewrite valid_encode, He].
  apply check_valid_spec; try (destruct Hv as [_ Ht]; unfold valid_tod in Ht; lia); [|done].
  by apply valid_not_zero.
Qed.

Lemma cm_encode_decode_witness :
  exists d, cm_decode_date (-1) sample = Some d /\ check_datetime_vaild d = true /\
    cm_encode_date d = Some (-1).
Proof. apply (cm_encode_decode (-1) sample). lia. Defined.

(** The encoding is order preserving: of two valid dates the earlier one
    (calendar date, then time of day) has the smaller integer, so comparing
    stored [date_t] values compares the dates; the zero date is below all. *)
Theorem cm_encode_date_order (d1 d2 : date_detail) (z1 z2 : Z)
    (H1 : valid d1) (H2 : valid d2)
    (E1 : cm_encode_date d1 = Some z1) (E2 : cm_encode_date d2 = Some z2) :
  (z1 < z2 <-> detail_lt d1 d2) /\ CM_ALL_ZERO_DATETIME < z1.
Proof.
  rewrite valid_encode in E1, E2 by done. simplify_eq.
  pose proof (encode_range d1 H1). split; [|consts; lia].
  split; [|by apply encode_units_lt]. intros Hlt.
  destruct (detail_lt_total d1 d2) as [?|[[Hk Ht]|Hgt]]; [done| |].
  - unfold detail_key in Hk. rewrite !encode_units_days in Hlt.
    injection Hk as Hy Hm Hd. rewrite Hy, Hm, Hd, Ht in Hlt. lia.
  - apply encode_units_lt in Hgt; [lia|done..].
Qed.

Definition sample2 : date_detail := mk_date_detail 2024 3 1 0 0 0 0 0 0 0.

Lemma cm_encode_date_order_witness :
  (762566398123456 < 762566400000000 <-> detail_lt sample sample2)
  /\ CM_ALL_ZERO_DATETIME < 762566398123456.
Proof.
  apply (cm_encode_date_order sample sample2); try (vm_compute; reflexivity);
    unfold valid, valid_date, valid_tod; vm_compute; repeat split; discriminate.
Defined.

(** The encoding counts microseconds since 2000-01-01: that day at
    midnight is 0, midnight of the calendar's next day is one day more, and
    within a day the time is added. *)
Theorem cm_encode_date_counts (d d' : date_detail) (z : Z)
    (Hv : valid d) (Hv' : valid d')
    (Hn : next_day (year d) (mon d) (day d) = (year d', mon d', day d'))
    (Hz : cm_encode_date d = Some z) :
  cm_encode_date d' = Some (z + UNITS_PER_DAY + (tod d' - tod d)) /\
  cm_encode_date (mk_date_detail 2000 1 1 0 0 0 0 0 0 0) = Some 0.
Proof.
  split; [|reflexivity]. rewrite valid_encode in Hz |- * by done. simplify_eq.
  destruct Hv as ((Hy & Hm & Hd) & _).
  apply next_day_spec in Hn; [|lia|done|done].
  rewrite !encode_units_days, Hn. f_equal. consts. lia.
Qed.

Lemma cm_encode_date_counts_witness :
  cm_encode_date sample2 = Some (762566398123456 + UNITS_PER_DAY + (tod sample2 - tod sample))
  /\ cm_encode_date (mk_date_detail 2000 1 1 0 0 0 0 0 0 0) = Some 0.
Proof.
  apply (cm_encode_date_counts sample sample2); try (vm_compute; reflexivity);
    unfold valid, valid_date, valid_tod; vm_compute; repeat split; discriminate.
Defined.

(** [cm_decode_date] returns on every [int64]: its loops stop within the
    fuel, the month loop never leaves its table, and the time fields are in
    range whatever the value read from storage. *)
Theorem cm_decode_date_total (z : Z) (d0 : date_detail) (Hz : - 2 ^ 63 <= z < 2 ^ 63) :
  exists d, cm_decode_date z d0 = Some d /\ valid_tod d.
Proof.
  destruct (Z.eq_dec z CM_ALL_ZERO_DATETIME) as [->|Hne].
  { eexists. split; [reflexivity|]. unfold valid_tod; simpl; lia. }
  destruct (cm_decode_date_unfold z d0 Hne) as
    (h & mi & s & ms & us & -> & Hh & Hmi & Hs & Hms & Hus & _).
  assert (-107000000 <= z / UNITS_PER_DAY <= 107000000) as Hq by (consts; clear Hne; dlia).
  rewrite wrapS_small by (try done; change (2 ^ (32 - 1)) with 2147483648; consts; lia).
  destruct (decode_days_total (z / UNITS_PER_DAY + CM_BASELINE_DAY)) as (y & m & d & ->);
    [consts; lia|].
  cbn [mbind option_bind]. eexists. split; [reflexivity|].
  unfold valid_tod; simpl; lia.
Qed.

Lemma cm_decode_date_total_witness :
  exists d, cm_decode_date (- 2 ^ 63) sample = Some d /\ valid_tod d.
Proof. apply (cm_decode_date_total (- 2 ^ 63) sample). lia. Defined.

End CalDate.
