(* ===== verification/DecDigits.v ===== *)
(** * DecDigits: exact decimals between the server and the Cantian row

    Models the digit-string conversions of [datatype_cnvrtr.cc] between the
    server's [my_decimal] (groups of nine digits) and Cantian's [dec4_t]
    (groups of four digits with an exponent).  The digit buffer is a byte
    array; an access outside of it is [None]. *)

From S2P Require Import Prelude.

Module DecDigits.

(** ** Data *)

(** [my_decimal]: [m_intg] and [m_frac] digits, in [m_buf] by groups of nine. *)
Record my_decimal := mk_my {
  m_sign : bool; m_intg : Z; m_frac : Z; m_buf : list Z }.

(** [dec4_t]; its [ncells] is the length of the used part of [cells]. *)
Record dec4_t := mk_dec4 { d_sign : bool; d_expn : Z; d_cells : list Z }.

Definition d_ncells (d : dec4_t) : Z := Z.of_nat (length (d_cells d)).

Definition DIG_PER_MYDEC : Z := 9.
Definition DIG_PER_DEC4 : Z := 4.
Definition DEC4_CELL_SIZE : Z := 18.

(** The server's [DECIMAL_MAX_STR_LENGTH]: 81 digits, a point and a sign. *)
Definition DECIMAL_MAX_STR_LENGTH : nat := 83.

(** The length of the server's [decimal_digit_t] buffer. *)
Definition MYDEC_BUF_LENGTH : Z := 9.

Definition dget (digits : list Z) (k : Z) : option Z :=
  if 0 <=? k then digits !! Z.to_nat k else None.

Definition dset (digits : list Z) (k v : Z) : option (list Z) :=
  if (0 <=? k) && (k <? Z.of_nat (length digits))
  then Some (<[Z.to_nat k := v]> digits) else None.

(** ** Digit groups *)

(** [while (val != 0 && end >= start) { digits[end] = val % 10; val /= 10; end--; }]
    for the [n] positions [start .. start + n - 1]. *)
Fixpoint record_digital_loop (digits : list Z) (val start : Z) (n : nat)
  : option (list Z) :=
  match n with
  | O => Some digits
  | S n' =>
    if val =? 0 then Some digits else
    digits' ← dset digits (start + Z.of_nat n') (Z.rem val 10);
    record_digital_loop digits' (Z.quot val 10) start n'
  end.

Definition record_digital (digits : list Z) (val start step : Z) : option (list Z) :=
  record_digital_loop digits val start (Z.to_nat step).

(** [val = val * 10 + digits[k]] for the [n] positions from [k]. *)
Fixpoint acc_digits (digits : list Z) (val k : Z) (n : nat) : option Z :=
  match n with
  | O => Some val
  | S n' => d ← dget digits k; acc_digits digits (val * 10 + d) (k + 1) n'
  end.

(** [while (start <= newEnd) { val = val * 10; start++; }] *)
Fixpoint acc_zeros (val : Z) (n : nat) : Z :=
  match n with O => val | S n' => acc_zeros (val * 10) n' end.

Definition restore_digital (digits : list Z) (start end_ step : Z) : option Z :=
  let newEnd := start + step - 1 in
  val ← acc_digits digits 0 start (Z.to_nat (end_ - start + 1));
  let start := Z.max start (end_ + 1) in
  Some (acc_zeros val (Z.to_nat (newEnd - start + 1))).

(** [while (end >= lo && digits[end] == 0) end--], [n] the number of positions
    from [lo] to [end]. *)
Fixpoint trim_end (digits : list Z) (end_ : Z) (n : nat) : option Z :=
  match n with
  | O => Some end_
  | S n' => d ← dget digits end_;
            if d =? 0 then trim_end digits (end_ - 1) n' else Some end_
  end.

(** [while (start < hi && digits[start] == 0) start++], [n] the number of
    positions from [start] to [hi - 1]. *)
Fixpoint trim_start (digits : list Z) (start : Z) (n : nat) : option Z :=
  match n with
  | O => Some start
  | S n' => d ← dget digits start;
            if d =? 0 then trim_start digits (start + 1) n' else Some start
  end.

(** The groups [buf[i], buf[i+1], ...] recorded from digit [i * step] on. *)
Fixpoint record_groups (digits buf : list Z) (i step : Z) : option (list Z) :=
  match buf with
  | [] => Some digits
  | v :: buf' => digits' ← record_digital digits v (i * step) step;
                 record_groups digits' buf' (i + 1) step
  end.

(** The loop that cuts [digits[digidx .. end]] into groups of [step]; [fuel]
    bounds the number of groups. *)
Fixpoint regroup (fuel : nat) (digits : list Z) (digidx end_ step : Z)
  : option (list Z) :=
  if digidx <=? end_ then
    match fuel with
    | O => None
    | S fuel' =>
      v ← (if digidx + step <=? end_
           then restore_digital digits digidx (digidx + step - 1) step
           else restore_digital digits digidx end_ step);
      rest ← regroup fuel' digits (digidx + step) end_ step;
      Some (v :: rest)
    end
  else Some [].

(** ** The four conversions *)

Definition my_point_loc (myd : my_decimal) : Z :=
  Z.quot (m_intg myd + DIG_PER_MYDEC - 1) DIG_PER_MYDEC.

(** The number of groups in use: the integer ones, then the fraction ones. *)
Definition my_groups (myd : my_decimal) : Z :=
  if m_frac myd =? 0 then my_point_loc myd
  else Z.quot (m_frac myd + DIG_PER_MYDEC - 1) DIG_PER_MYDEC + my_point_loc myd.

Definition convert_mydec_to_digital (myd : my_decimal) (digits : list Z)
  : option (list Z * Z * Z * Z) :=
  if Z.of_nat (length (m_buf myd)) <? my_groups myd then None else
  digits ← record_groups digits (take (Z.to_nat (my_groups myd)) (m_buf myd))
             0 DIG_PER_MYDEC;
  let point := my_point_loc myd * DIG_PER_MYDEC in
  let end_ := point + m_frac myd - 1 in
  end_ ← trim_end digits end_ (Z.to_nat (end_ - point + 1));
  start ← trim_start digits 0 (Z.to_nat end_);
  Some (digits, start, point, end_).

Definition convert_digital_to_dec4 (digits : list Z) (sign : bool)
    (start point end_ : Z) : option dec4_t :=
  let expn := point - start in
  is_zero ← (if start =? end_ then d ← dget digits start; Some (d =? 0)
             else Some false);
  if is_zero || ((start =? point) && (end_ <? point))
  then Some (mk_dec4 sign 0 []) else
  let '(cell0_num, expn) :=
    if 0 <? expn then
      let cell0_num := Z.rem expn DIG_PER_DEC4 in
      (cell0_num,
       if (cell0_num =? 0) && (DIG_PER_DEC4 <=? expn) then expn - DIG_PER_DEC4 else expn)
    else
      let cell0_num := DIG_PER_DEC4 + Z.rem expn DIG_PER_DEC4 in
      (cell0_num, expn - cell0_num) in
  cell0 ← (if cell0_num =? 0 then Some [] else
           v ← acc_digits digits 0 start (Z.to_nat cell0_num); Some [v]);
  let digidx := if cell0_num =? 0 then start else start + cell0_num in
  non_zero_end ← trim_end digits end_ (Z.to_nat (end_ + 1));
  cells ← regroup (Z.to_nat (non_zero_end - digidx + 1)) digits digidx non_zero_end
            DIG_PER_DEC4;
  if DEC4_CELL_SIZE <? Z.of_nat (length (cell0 ++ cells)) then None else
  Some (mk_dec4 sign (Z.quot expn DIG_PER_DEC4) (cell0 ++ cells)).

Definition convert_dec4_to_digital (dec4 : dec4_t) (digits : list Z)
  : option (list Z * Z * Z * Z) :=
  let point := if 0 <=? d_expn dec4 then
                 if d_ncells dec4 =? 0 then 0 else (d_expn dec4 + 1) * DIG_PER_DEC4
               else 0 in
  let i := if d_expn dec4 <? 0 then - (d_expn dec4 + 1) else 0 in
  digits ← record_groups digits (d_cells dec4) i DIG_PER_DEC4;
  let i := i + d_ncells dec4 in
  let end_ := if d_ncells dec4 - 1 <? d_expn dec4 then point
              else i * DIG_PER_DEC4 - 1 in
  end_ ← trim_end digits end_ (Z.to_nat (end_ - point + 1));
  start ← trim_start digits 0 (Z.to_nat point);
  Some (digits, start, point, end_).

Definition convert_digital_to_mydec (digits : list Z) (sign : bool)
    (start point end_ : Z) : option my_decimal :=
  let intg := point - start in
  let frac := end_ - point + 1 in
  let buf0_num := Z.rem intg DIG_PER_MYDEC in
  buf0 ← (if buf0_num =? 0 then Some [] else
          v ← acc_digits digits 0 start (Z.to_nat buf0_num); Some [v]);
  let digidx := if buf0_num =? 0 then start else start + buf0_num in
  rest ← regroup (Z.to_nat (end_ - digidx + 1)) digits digidx end_ DIG_PER_MYDEC;
  if MYDEC_BUF_LENGTH <? Z.of_nat (length (buf0 ++ rest)) then None else
  if (intg =? 0) && (frac =? 0) then Some (mk_my sign 1 frac [0])
  else Some (mk_my sign intg frac (buf0 ++ rest)).

Definition zero_digits : list Z := replicate DECIMAL_MAX_STR_LENGTH 0.

Definition convert_mydec_to_dec4 (from : my_decimal) : option dec4_t :=
  '(digits, start, point, end_) ← convert_mydec_to_digital from zero_digits;
  convert_digital_to_dec4 digits (m_sign from) start point end_.

Definition convert_dec4_to_mydec (from : dec4_t) : option my_decimal :=
  '(digits, start, point, end_) ← convert_dec4_to_digital from zero_digits;
  convert_digital_to_mydec digits (d_sign from) start point end_.

Definition cm_dec4_stor_sz (d4 : dec4_t) : Z := (1 + d_ncells d4) * 2.

Example dec_ex1 : convert_mydec_to_dec4 (mk_my true 5 3 [12345; 60000000])
  = Some (mk_dec4 true 1 [1; 2345; 600]).
Proof. reflexivity. Qed.

Example dec_ex2 : convert_dec4_to_mydec (mk_dec4 true 1 [1; 2345; 600])
  = Some (mk_my true 5 2 [12345; 60000000]).
Proof. reflexivity. Qed.

(** ** Digits of a buffer and of a list of groups *)

Definition at_ (digits : list Z) (k : Z) : Z := default 0 (dget digits k).

Definition digit (v j : Z) : Z := v / 10 ^ j mod 10.

(** The [k]-th digit of a list of groups of [step] digits. *)
Definition grp (step : Z) (l : list Z) (k : Z) : Z :=
  if k <? 0 then 0 else
  match l !! Z.to_nat (k / step) with
  | Some v => digit v (step - 1 - k mod step)
  | None => 0
  end.

Definition digits_ok (ds : list Z) : Prop := Forall (fun d => 0 <= d <= 9) ds.

Lemma digit_range v j : 0 <= digit v j <= 9.
Proof. unfold digit. pose proof (Z.mod_pos_bound (v / 10 ^ j) 10). lia. Qed.

Lemma digit_high v j n : 0 <= v < 10 ^ n -> n <= j -> 0 <= n -> digit v j = 0.
Proof.
  intros Hv Hj Hn. unfold digit. rewrite Z.div_small; [done|].
  split; [lia|]. apply Z.lt_le_trans with (10 ^ n); [lia|]. apply Z.pow_le_mono_r; lia.
Qed.

Lemma digit_mul10 v j : 0 <= j -> digit (v * 10) (j + 1) = digit v j.
Proof.
  intros. unfold digit. rewrite Z.pow_add_r by lia. rewrite Z.mul_comm.
  change (10 ^ 1) with 10. rewrite (Z.mul_comm (10 ^ j)).
  by rewrite Z.div_mul_cancel_l by lia.
Qed.

Lemma digit_snoc v d j :
  0 <= j -> 0 <= d <= 9 -> digit (v * 10 + d) (j + 1) = digit v j.
Proof.
  intros Hj Hd. unfold digit. rewrite (Z.add_comm j), Z.pow_add_r by lia.
  rewrite <- Z.div_div by lia. change (10 ^ 1) with 10.
  rewrite Z.div_add_l by lia. rewrite (Z.div_small d) by lia. by rewrite Z.add_0_r.
Qed.

Lemma digit_low v d : 0 <= d <= 9 -> digit (v * 10 + d) 0 = d.
Proof.
  intros. unfold digit. rewrite Z.pow_0_r, Z.div_1_r.
  rewrite Z.add_comm, Z.mod_add by lia. apply Z.mod_small. lia.
Qed.

Lemma dget_at ds k : 0 <= k < Z.of_nat (length ds) -> dget ds k = Some (at_ ds k).
Proof.
  intros H. unfold at_, dget. rewrite (proj2 (Z.leb_le 0 k)) by lia.
  destruct (ds !! Z.to_nat k) eqn:E; [done|]. apply lookup_ge_None in E. lia.
Qed.

Lemma at_range ds k : digits_ok ds -> 0 <= at_ ds k <= 9.
Proof.
  intros H. unfold at_, dget. destruct (0 <=? k); simpl; [|lia].
  destruct (ds !! Z.to_nat k) eqn:E; simpl; [|lia].
  by apply (Forall_lookup_1 _ _ _ _ H) in E.
Qed.

Lemma at_neg ds k : k < 0 -> at_ ds k = 0.
Proof. intros. unfold at_, dget. by rewrite (proj2 (Z.leb_gt 0 k)) by lia. Qed.

Lemma at_past ds k : Z.of_nat (length ds) <= k -> at_ ds k = 0.
Proof.
  intros. unfold at_, dget. destruct (0 <=? k); [|done].
  by rewrite lookup_ge_None_2 by lia.
Qed.

Lemma dset_spec ds k v :
  0 <= k < Z.of_nat (length ds) -> 0 <= v <= 9 -> digits_ok ds ->
  exists ds', dset ds k v = Some ds' /\ length ds' = length ds /\ digits_ok ds' /\
    forall j, at_ ds' j = if j =? k then v else at_ ds j.
Proof.
  intros Hk Hv Hok. unfold dset.
  rewrite (proj2 (Z.leb_le 0 k)), (proj2 (Z.ltb_lt k _)) by lia. simpl.
  eexists. split; [done|]. split; [apply length_insert|]. split.
  { by apply Forall_insert. }
  intros j. unfold at_, dget. destruct (0 <=? j) eqn:Ej; zb.
  - destruct (j =? k) eqn:E; zb.
    + subst. rewrite list_lookup_insert_eq by lia. done.
    + rewrite list_lookup_insert_ne by lia. done.
  - rewrite (proj2 (Z.eqb_neq j k)) by lia. done.
Qed.

Lemma record_digital_spec ds v start n :
  0 <= start -> start + Z.of_nat n <= Z.of_nat (length ds) -> digits_ok ds ->
  0 <= v < 10 ^ Z.of_nat n ->
  (forall k, start <= k < start + Z.of_nat n -> at_ ds k = 0) ->
  exists ds', record_digital_loop ds v start n = Some ds' /\ length ds' = length ds /\
    digits_ok ds' /\
    forall k, at_ ds' k = if (start <=? k) && (k <? start + Z.of_nat n)
                          then digit v (start + Z.of_nat n - 1 - k) else at_ ds k.
Proof.
  intros Hs Hl. revert ds v Hl. induction n as [|n IH]; intros ds v Hl Hok Hv Hz.
  { exists ds. repeat split; try done. intros k.
    destruct (_ && _) eqn:E; [|done]. zb. lia. }
  cbn [record_digital_loop]. destruct (v =? 0) eqn:Hv0; zb.
  { subst. exists ds. repeat split; try done. intros k.
    destruct (_ && _) eqn:E; [|done]. zb. rewrite Hz by lia. unfold digit.
    by rewrite Z.div_0_l by (apply Z.pow_nonzero; lia). }
  rewrite Z.rem_mod_nonneg, Z.quot_div_nonneg by lia.
  rewrite Nat2Z.inj_succ, Z.pow_succ_r in Hv by lia.
  destruct (dset_spec ds (start + Z.of_nat n) (v mod 10)) as (ds1 & -> & Hl1 & Hok1 & Hat1);
    [lia| |done|].
  { pose proof (Z.mod_pos_bound v 10). lia. }
  cbn [mbind option_bind].
  destruct (IH ds1 (v / 10)) as (ds2 & -> & Hl2 & Hok2 & Hat2); [lia|done| | |].
  - split; [apply Z.div_pos; lia|apply Z.div_lt_upper_bound; lia].
  - intros k Hk. rewrite Hat1, (proj2 (Z.eqb_neq _ _)) by lia. apply Hz. lia.
  - exists ds2. split; [done|]. split; [lia|]. split; [done|]. intros k.
    rewrite Hat2, Hat1. pose proof (Z.div_mod v 10 ltac:(lia)) as Hdm.
    pose proof (Z.mod_pos_bound v 10 ltac:(lia)).
    destruct (decide (start <= k < start + Z.of_nat n)) as [Hin|Hout].
    + rewrite !(proj2 (Z.leb_le _ _)), !(proj2 (Z.ltb_lt _ _)) by lia. simpl.
      replace (start + Z.of_nat (S n) - 1 - k) with (start + Z.of_nat n - 1 - k + 1) by lia.
      replace v with (v / 10 * 10 + v mod 10) at 2 by lia.
      by rewrite digit_snoc by lia.
    + assert ((start <=? k) && (k <? start + Z.of_nat n) = false) as ->.
      { apply andb_false_iff. rewrite Z.leb_gt, Z.ltb_ge. lia. }
      destruct (k =? start + Z.of_nat n) eqn:E; zb.
      * subst. rewrite !(proj2 (Z.leb_le _ _)), !(proj2 (Z.ltb_lt _ _)) by lia. simpl.
        replace (start + Z.of_nat (S n) - 1 - (start + Z.of_nat n)) with 0 by lia.
        replace v with (v / 10 * 10 + v mod 10) at 2 by lia.
        by rewrite digit_low by lia.
      * assert ((start <=? k) && (k <? start + Z.of_nat (S n)) = false) as ->; [|done].
        apply andb_false_iff. rewrite Z.leb_gt, Z.ltb_ge. lia.
Qed.

Lemma acc_digits_spec ds v k n :
  digits_ok ds -> 0 <= k -> k + Z.of_nat n <= Z.of_nat (length ds) ->
  exists v', acc_digits ds v k n = Some v' /\
    v * 10 ^ Z.of_nat n <= v' < (v + 1) * 10 ^ Z.of_nat n /\
    (forall t, 0 <= t < Z.of_nat n -> digit v' (Z.of_nat n - 1 - t) = at_ ds (k + t)) /\
    (forall j, 0 <= j -> digit v' (Z.of_nat n + j) = digit v j).
Proof.
  intros Hok. revert v k. induction n as [|n IH]; intros v k Hk Hl.
  { exists v. split; [done|]. change (10 ^ Z.of_nat 0) with 1.
    split; [lia|]. split; [lia|]. intros j _. done. }
  cbn [acc_digits]. rewrite dget_at by lia. cbn [mbind option_bind].
  pose proof (at_range ds k Hok) as Hd.
  destruct (IH (v * 10 + at_ ds k) (k + 1)) as (v' & -> & Hr & Hdg & Hhi); [lia..|].
  exists v'. split; [done|]. rewrite Nat2Z.inj_succ, Z.pow_succ_r by lia.
  split; [nia|]. split.
  - intros t Ht. destruct (decide (t = 0)) as [->|].
    + replace (Z.succ (Z.of_nat n) - 1 - 0) with (Z.of_nat n + 0) by lia.
      rewrite Hhi, digit_low by lia. f_equal. lia.
    + replace (Z.succ (Z.of_nat n) - 1 - t) with (Z.of_nat n - 1 - (t - 1)) by lia.
      rewrite Hdg by lia. f_equal. lia.
  - intros j Hj. replace (Z.succ (Z.of_nat n) + j) with (Z.of_nat n + (j + 1)) by lia.
    rewrite Hhi, digit_snoc by lia. done.
Qed.

Lemma acc_zeros_spec v n : acc_zeros v n = v * 10 ^ Z.of_nat n.
Proof.
  revert v. induction n as [|n IH]; intros v; cbn [acc_zeros].
  - change (10 ^ Z.of_nat 0) with 1. lia.
  - rewrite IH, Nat2Z.inj_succ, Z.pow_succ_r by lia. lia.
Qed.

Lemma digit_shift v n j : 0 <= n -> 0 <= j -> digit (v * 10 ^ n) (n + j) = digit v j.
Proof.
  intros Hn Hj. unfold digit. rewrite Z.pow_add_r by lia.
  rewrite (Z.mul_comm v). by rewrite Z.div_mul_cancel_l by lia.
Qed.

Lemma digit_shift_low v n j : 0 <= j < n -> digit (v * 10 ^ n) j = 0.
Proof.
  intros Hj. unfold digit. replace n with (j + (1 + (n - j - 1))) by lia.
  rewrite !Z.pow_add_r by lia.
  replace (v * (10 ^ j * (10 ^ 1 * 10 ^ (n - j - 1))))
    with (v * 10 ^ (n - j - 1) * 10 * 10 ^ j) by (change (10 ^ 1) with 10; ring).
  rewrite Z.div_mul by lia. apply Z.mod_mul. lia.
Qed.

Lemma restore_digital_spec ds start end_ step :
  digits_ok ds -> 0 <= start -> start <= end_ + 1 -> end_ < start + step ->
  end_ < Z.of_nat (length ds) ->
  exists v, restore_digital ds start end_ step = Some v /\ 0 <= v < 10 ^ step /\
    forall t, 0 <= t < step ->
      digit v (step - 1 - t) = if start + t <=? end_ then at_ ds (start + t) else 0.
Proof.
  intros Hok Hs Hse Hes Hel. unfold restore_digital.
  destruct (acc_digits_spec ds 0 start (Z.to_nat (end_ - start + 1)) Hok)
    as (v & -> & Hr & Hdg & Hhi); [lia..|].
  cbn [mbind option_bind]. rewrite acc_zeros_spec. eexists. split; [done|].
  rewrite Z.max_r by lia. set (n := end_ - start + 1) in *.
  replace (Z.of_nat (Z.to_nat n)) with n in * by lia.
  replace (Z.of_nat (Z.to_nat (start + step - 1 - (end_ + 1) + 1))) with (step - n) by lia.
  assert (10 ^ step = 10 ^ n * 10 ^ (step - n)) as Hp
    by (rewrite <- Z.pow_add_r by lia; f_equal; lia).
  split; [rewrite Hp; nia|]. intros t Ht. destruct (start + t <=? end_) eqn:E; zb.
  - replace (step - 1 - t) with (step - n + (n - 1 - t)) by lia.
    rewrite digit_shift by lia. apply Hdg. lia.
  - apply digit_shift_low. lia.
Qed.

Lemma trim_end_spec ds end_ n :
  end_ < Z.of_nat (length ds) -> 0 <= end_ + 1 - Z.of_nat n ->
  exists e, trim_end ds end_ n = Some e /\ end_ - Z.of_nat n <= e <= end_ /\
    (forall k, e < k <= end_ -> at_ ds k = 0) /\
    (end_ - Z.of_nat n < e -> at_ ds e <> 0).
Proof.
  revert end_. induction n as [|n IH]; intros end_ Hl Hn.
  { exists end_. simpl. repeat split; try lia. }
  cbn [trim_end]. rewrite dget_at by lia. cbn [mbind option_bind].
  destruct (at_ ds end_ =? 0) eqn:E; zb.
  - destruct (IH (end_ - 1)) as (e & -> & He & Hz & Hne); [lia..|].
    exists e. split; [done|]. split; [lia|]. split; [|intros; apply Hne; lia].
    intros k Hk. destruct (decide (k = end_)) as [->|]; [done|]. apply Hz. lia.
  - exists end_. repeat split; try lia; done.
Qed.

Lemma trim_start_spec ds start n :
  0 <= start -> start + Z.of_nat n <= Z.of_nat (length ds) ->
  exists s, trim_start ds start n = Some s /\ start <= s <= start + Z.of_nat n /\
    (forall k, start <= k < s -> at_ ds k = 0) /\
    (s < start + Z.of_nat n -> at_ ds s <> 0).
Proof.
  revert start. induction n as [|n IH]; intros start Hs Hl.
  { exists start. simpl. repeat split; try lia. }
  cbn [trim_start]. rewrite dget_at by lia. cbn [mbind option_bind].
  destruct (at_ ds start =? 0) eqn:E; zb.
  - destruct (IH (start + 1)) as (s & -> & Hb & Hz & Hne); [lia..|].
    exists s. split; [done|]. split; [lia|]. split; [|intros; apply Hne; lia].
    intros k Hk. destruct (decide (k = start)) as [->|]; [done|]. apply Hz. lia.
  - exists start. repeat split; try lia; done.
Qed.

Definition groups_ok (step : Z) (l : list Z) : Prop :=
  Forall (fun v => 0 <= v < 10 ^ step) l.

Lemma grp_nil step k : grp step [] k = 0.
Proof. unfold grp. by destruct (k <? 0). Qed.

Lemma grp_cons step v l k :
  0 < step -> 0 <= k ->
  grp step (v :: l) k = if k <? step then digit v (step - 1 - k) else grp step l (k - step).
Proof.
  intros Hs Hk. unfold grp. rewrite (proj2 (Z.ltb_ge k 0)) by lia.
  destruct (k <? step) eqn:E; zb.
  - rewrite Z.div_small, Z.mod_small by lia. done.
  - rewrite (proj2 (Z.ltb_ge _ _)) by lia.
    pose proof (Z.div_add (k - step) 1 step ltac:(lia)) as Hq.
    pose proof (Z.mod_add (k - step) 1 step ltac:(lia)) as Hm.
    replace (k - step + 1 * step) with k in Hq, Hm by lia. rewrite Hq, Hm.
    pose proof (Z.div_pos (k - step) step ltac:(lia) Hs).
    replace (Z.to_nat ((k - step) / step + 1)) with (S (Z.to_nat ((k - step) / step))) by lia.
    done.
Qed.

Lemma grp_past step l k :
  0 < step -> step * Z.of_nat (length l) <= k -> grp step l k = 0.
Proof.
  intros Hs Hk. unfold grp. destruct (k <? 0); [done|].
  assert (Z.of_nat (length l) <= k / step) by (apply Z.div_le_lower_bound; lia).
  by rewrite lookup_ge_None_2 by lia.
Qed.

Lemma grp_neg step l k : k < 0 -> grp step l k = 0.
Proof. intros. unfold grp. by rewrite (proj2 (Z.ltb_lt k 0)). Qed.

Lemma grp_range step l k : 0 <= grp step l k <= 9.
Proof.
  unfold grp. destruct (k <? 0); [lia|]. destruct (l !! _); [apply digit_range|lia].
Qed.

Lemma record_groups_spec step buf ds i :
  0 < step -> 0 <= i -> (i + Z.of_nat (length buf)) * step <= Z.of_nat (length ds) ->
  digits_ok ds -> groups_ok step buf ->
  (forall k, i * step <= k -> at_ ds k = 0) ->
  exists ds', record_groups ds buf i step = Some ds' /\ length ds' = length ds /\
    digits_ok ds' /\
    forall k, at_ ds' k = if i * step <=? k then grp step buf (k - i * step) else at_ ds k.
Proof.
  intros Hs. revert ds i. induction buf as [|v buf IH]; intros ds i Hi Hl Hok Hg Hz.
  { exists ds. repeat split; try done. intros k. rewrite grp_nil.
    destruct (i * step <=? k) eqn:E; zb; auto. }
  cbn [length] in Hl. rewrite Nat2Z.inj_succ in Hl.
  inversion Hg as [|? ? Hv Hg']; subst.
  cbn [record_groups]. unfold record_digital.
  destruct (record_digital_spec ds v (i * step) (Z.to_nat step))
    as (ds1 & -> & Hl1 & Hok1 & Hat1); try done; try nia.
  { by rewrite Z2Nat.id by lia. }
  { intros k Hk. apply Hz. lia. }
  cbn [mbind option_bind]. rewrite Z2Nat.id in Hat1 by lia.
  destruct (IH ds1 (i + 1)) as (ds2 & -> & Hl2 & Hok2 & Hat2); [lia|nia|done|done| |].
  { intros k Hk. rewrite Hat1. assert ((i * step <=? k) && (k <? i * step + step) = false) as ->.
    { apply andb_false_iff. rewrite Z.ltb_ge. lia. } apply Hz. lia. }
  exists ds2. split; [done|]. split; [lia|]. split; [done|]. intros k.
  rewrite Hat2, Hat1.
  destruct (i * step <=? k) eqn:E1; zb.
  - rewrite grp_cons by lia. destruct ((i + 1) * step <=? k) eqn:E2; zb.
    + rewrite (proj2 (Z.ltb_ge _ _)) by lia. f_equal. lia.
    + rewrite !(proj2 (Z.ltb_lt _ _)) by lia. simpl. f_equal. lia.
  - rewrite (proj2 (Z.leb_gt _ _)) by lia. done.
Qed.

Lemma regroup_spec step ds digidx end_ fuel :
  0 < step -> digits_ok ds -> 0 <= digidx -> end_ < Z.of_nat (length ds) ->
  end_ - digidx + 1 <= Z.of_nat fuel ->
  exists l, regroup fuel ds digidx end_ step = Some l /\ groups_ok step l /\
    (forall k, 0 <= k ->
       grp step l k = if digidx + k <=? end_ then at_ ds (digidx + k) else 0) /\
    (end_ - digidx + 1 <= step * Z.of_nat (length l)) /\
    (l = [] \/ step * Z.of_nat (length l) < end_ - digidx + 1 + step).
Proof.
  intros Hs Hok. revert digidx. induction fuel as [|fuel IH]; intros digidx Hd He Hf.
  - exists []. simpl. rewrite (proj2 (Z.leb_gt _ _)) by lia.
    split; [done|]. split; [constructor|]. split; [|split; [lia|by left]].
    intros k Hk. rewrite grp_nil. destruct (_ <=? _) eqn:E; zb; [lia|done].
  - cbn [regroup]. destruct (digidx <=? end_) eqn:E; zb.
    2:{ exists []. split; [done|]. split; [constructor|]. split; [|split; [simpl; lia|by left]].
        intros k Hk. rewrite grp_nil. destruct (_ <=? _) eqn:E2; zb; [lia|done]. }
    assert (exists v, (if digidx + step <=? end_
      then restore_digital ds digidx (digidx + step - 1) step
      else restore_digital ds digidx end_ step) = Some v /\ 0 <= v < 10 ^ step /\
      forall t, 0 <= t < step ->
        digit v (step - 1 - t) = if digidx + t <=? end_ then at_ ds (digidx + t) else 0)
      as (v & -> & Hv & Hdg).
    { destruct (digidx + step <=? end_) eqn:E2; zb.
      - destruct (restore_digital_spec ds digidx (digidx + step - 1) step) as (v & -> & Hv & Hdg);
          try done; try lia. exists v. split; [done|]. split; [done|]. intros t Ht.
        rewrite Hdg by lia. rewrite !(proj2 (Z.leb_le _ _)) by lia. done.
      - destruct (restore_digital_spec ds digidx end_ step) as (v & -> & Hv & Hdg);
          try done; try lia. exists v. done. }
    cbn [mbind option_bind].
    destruct (IH (digidx + step)) as (l & -> & Hg & Hgr & Hlo & Hhi); [lia..|].
    cbn [mbind option_bind]. exists (v :: l). split; [done|]. split; [by constructor|].
    cbn [length]. split; [|split; [lia|right; destruct Hhi as [->|Hhi]; simpl; lia]].
    intros k Hk. rewrite grp_cons by lia. destruct (k <? step) eqn:Ek; zb.
    + apply Hdg. lia.
    + rewrite Hgr by lia. replace (digidx + step + (k - step)) with (digidx + k) by lia. done.
Qed.

(** A first group of [r] digits, then whole groups: the digits from [start]
    on, right-aligned in the first group. *)
Lemma head_regroup_spec step ds start end_ r :
  0 < step -> digits_ok ds -> 0 <= start -> 0 <= r <= step ->
  start + r <= Z.of_nat (length ds) -> end_ < Z.of_nat (length ds) ->
  let s0 := if r =? 0 then start else start - (step - r) in
  let digidx := if r =? 0 then start else start + r in
  exists h l,
    (if r =? 0 then Some [] else
     v ← acc_digits ds 0 start (Z.to_nat r); Some [v]) = Some h /\
    regroup (Z.to_nat (end_ - digidx + 1)) ds digidx end_ step = Some l /\
    groups_ok step (h ++ l) /\
    (forall k, 0 <= k -> grp step (h ++ l) k
       = if (start <=? s0 + k) && (s0 + k <=? Z.max end_ (start + r - 1))
         then at_ ds (s0 + k) else 0) /\
    end_ - s0 + 1 <= step * Z.of_nat (length (h ++ l)) /\
    step * Z.of_nat (length (h ++ l)) < step + Z.max (end_ - s0 + 1) (if r =? 0 then 0 else step) /\
    (end_ < digidx -> l = []) /\ length h = (if (r =? 0)%Z then 0%nat else 1%nat).
Proof.
  intros Hs Hok Hst Hr Hsr He s0 digidx.
  destruct (regroup_spec step ds digidx end_ (Z.to_nat (end_ - digidx + 1)))
    as (l & Hl & Hg & Hgr & Hlo & Hhi); try done; try (unfold digidx; destruct (r =? 0); lia).
  assert (end_ < digidx -> l = []) as Hnil.
  { intros Hlt. destruct (Z.to_nat (end_ - digidx + 1)) eqn:Ef; [|lia].
    simpl in Hl. rewrite (proj2 (Z.leb_gt _ _)) in Hl by lia. congruence. }
  destruct (r =? 0) eqn:Er; zb.
  - subst r digidx s0. exists [], l. simpl app. repeat split; try done; try lia.
    + intros k Hk. rewrite Hgr by lia.
      destruct (start + k <=? end_) eqn:E; zb.
      * rewrite !(proj2 (Z.leb_le _ _)) by lia. done.
      * assert ((start + k <=? Z.max end_ (start + 0 - 1)) = false) as ->
          by (apply Z.leb_gt; lia). by rewrite andb_false_r.
    + destruct Hhi as [->|]; simpl; lia.
  - destruct (acc_digits_spec ds 0 start (Z.to_nat r) Hok) as (v & -> & Hv & Hdg & _);
      [lia..|]. cbn [mbind option_bind].
    rewrite Z2Nat.id in Hv, Hdg by lia. exists [v], l. simpl app.
    assert (0 <= v < 10 ^ r) as Hv' by lia.
    split; [done|]. split; [done|]. split.
    { constructor; [|done]. split; [lia|].
      apply Z.lt_le_trans with (10 ^ r); [lia|]. apply Z.pow_le_mono_r; lia. }
    subst digidx s0. cbn [length].
    split; [|split; [lia|split; [destruct Hhi as [->|]; simpl; lia|done]]].
    intros k Hk. rewrite grp_cons by lia. destruct (k <? step) eqn:Ek; zb.
    + destruct (start <=? start - (step - r) + k) eqn:E; zb.
      * rewrite (proj2 (Z.leb_le _ _)) by lia. simpl.
        replace (step - 1 - k) with (r - 1 - (k - (step - r))) by lia.
        rewrite Hdg by lia. f_equal. lia.
      * simpl. apply digit_high with r; lia.
    + rewrite Hgr by lia.
      replace (start + r + (k - step)) with (start - (step - r) + k) by lia.
      rewrite (proj2 (Z.leb_le start _)) by lia. simpl.
      destruct (start - (step - r) + k <=? end_) eqn:E; zb.
      * by rewrite (proj2 (Z.leb_le _ _)) by lia.
      * by rewrite (proj2 (Z.leb_gt _ _)) by lia.
Qed.

(** ** The decimal expansions denoted by the two representations *)

(** The decimal digit of weight [10^e] of a [my_decimal] and of a [dec4_t]. *)
Definition my_digit (m : my_decimal) (e : Z) : Z :=
  grp 9 (take (Z.to_nat (my_groups m)) (m_buf m)) (9 * my_point_loc m - 1 - e).

Definition dec_digit (d : dec4_t) (e : Z) : Z :=
  grp 4 (d_cells d) (4 * (d_expn d + 1) - 1 - e).

Definition ceil_div (a b : Z) : Z := (a + b - 1) / b.

(** A [my_decimal] as the server builds it for a [DECIMAL(prec, scale)] with
    [prec <= 65]: [m_intg] and [m_frac] digits and no others. *)
Definition my_wf (m : my_decimal) : Prop :=
  0 <= m_intg m /\ 0 <= m_frac m <= 30 /\ 1 <= m_intg m + m_frac m <= 65 /\
  my_groups m <= Z.of_nat (length (m_buf m)) /\
  groups_ok 9 (take (Z.to_nat (my_groups m)) (m_buf m)) /\
  forallb (fun k => ((9 * my_point_loc m - m_intg m <=? k)
                     && (k <? 9 * my_point_loc m + m_frac m))
                    || (grp 9 (take (Z.to_nat (my_groups m)) (m_buf m)) k =? 0))
    (seqZ 0 81) = true.

Lemma at_zero_digits k : at_ zero_digits k = 0.
Proof.
  unfold at_, dget, zero_digits. destruct (0 <=? k); [|done].
  destruct (replicate _ 0 !! Z.to_nat k) eqn:E; [|done].
  by apply lookup_replicate in E as [-> _].
Qed.

Lemma zero_digits_ok : digits_ok zero_digits.
Proof. apply Forall_replicate. lia. Qed.

Lemma my_wf_point m :
  my_wf m -> my_point_loc m = ceil_div (m_intg m) 9 /\
    my_groups m = ceil_div (m_intg m) 9 + ceil_div (m_frac m) 9 /\
    0 <= my_point_loc m /\ 9 * my_groups m <= 81 /\ m_intg m <= 9 * my_point_loc m <= m_intg m + 8
    /\ my_point_loc m <= my_groups m.
Proof.
  intros (Hi & Hf & Hs & _). unfold my_groups, my_point_loc, ceil_div, DIG_PER_MYDEC.
  rewrite !Z.quot_div_nonneg by lia. destruct (m_frac m =? 0) eqn:E; zb; dlia || lia.
Qed.

Lemma my_wf_digits m k :
  my_wf m -> k < 9 * my_point_loc m - m_intg m \/ 9 * my_point_loc m + m_frac m <= k ->
  grp 9 (take (Z.to_nat (my_groups m)) (m_buf m)) k = 0.
Proof.
  intros Hwf Hk. pose proof (my_wf_point m Hwf) as (_ & _ & Hp & Hg & _).
  destruct Hwf as (_ & _ & _ & _ & _ & Hall).
  destruct (decide (0 <= k < 81)) as [Hin|Hout].
  - rewrite forallb_forall in Hall. specialize (Hall k).
    assert (In k (seqZ 0 81)) as HIn by (apply list_elem_of_In, elem_of_seqZ; lia).
    apply Hall in HIn. apply orb_true_iff in HIn as [HIn|HIn]; zb; lia.
  - destruct (decide (k < 0)); [by apply grp_neg|].
    apply grp_past; [lia|]. rewrite length_take. lia.
Qed.

(** The digit buffer of [convert_mydec_to_digital] and its three indices. *)
Lemma mydec_to_digital_spec m :
  my_wf m ->
  exists ds s e, convert_mydec_to_digital m zero_digits
      = Some (ds, s, 9 * my_point_loc m, e) /\
    length ds = 83%nat /\ digits_ok ds /\
    (forall x, my_digit m x = at_ ds (9 * my_point_loc m - 1 - x)) /\
    9 * my_point_loc m - 1 <= e <= 9 * my_point_loc m + m_frac m - 1 /\
    (forall k, e < k -> at_ ds k = 0) /\ 0 <= s <= Z.max 0 e /\
    (forall k, k < s -> at_ ds k = 0) /\ (s < e -> at_ ds s <> 0).
Proof.
  intros Hwf. pose proof (my_wf_point m Hwf) as (_ & _ & Hp & Hg & Hip & Hpg).
  pose proof (my_wf_digits m) as Hd. destruct Hwf as (Hi & Hf & Hs & Hl & Hgok & Hall).
  assert (my_wf m) as Hwf by (repeat split; (done || lia)).
  unfold convert_mydec_to_digital. rewrite (proj2 (Z.ltb_ge _ _)) by lia.
  set (B := take _ _) in *. change DIG_PER_MYDEC with 9.
  assert (length zero_digits = 83%nat) as Hz by done.
  destruct (record_groups_spec 9 B zero_digits 0) as (ds & -> & Hlen & Hok & Hat);
    [lia|lia|subst B; rewrite length_take, Hz; lia|apply zero_digits_ok|done
    |intros; apply at_zero_digits|].
  cbn [mbind option_bind]. rewrite Hz in Hlen.
  assert (forall k, at_ ds k = grp 9 B k) as Hat'.
  { intros k. rewrite Hat, Z.mul_0_l, Z.sub_0_r, at_zero_digits.
    destruct (0 <=? k) eqn:E; zb; [done|]. by rewrite grp_neg. }
  destruct (trim_end_spec ds (my_point_loc m * 9 + m_frac m - 1)
    (Z.to_nat (my_point_loc m * 9 + m_frac m - 1 - my_point_loc m * 9 + 1)))
    as (e & -> & He & Hez & Hene); [lia..|]. cbn [mbind option_bind].
  destruct (trim_start_spec ds 0 (Z.to_nat e)) as (s & -> & Hsb & Hsz & Hsne); [lia..|].
  cbn [mbind option_bind]. exists ds, s, e. rewrite (Z.mul_comm _ 9).
  split; [done|]. split; [done|]. split; [done|].
  split; [intros x; unfold my_digit; by rewrite Hat'|]. split; [lia|].
  split; [|split; [lia|split; [|intros; apply Hsne; lia]]].
  - intros k Hk. destruct (decide (k <= my_point_loc m * 9 + m_frac m - 1)).
    + apply Hez. lia.
    + rewrite Hat'. apply Hd; [done|lia].
  - intros k Hk. destruct (decide (k < 0)); [by apply at_neg|]. apply Hsz. lia.
Qed.

(** The exponent and the size of the first cell, in one equation. *)
Lemma dec4_layout expn :
  let '(c0, expn') :=
    if 0 <? expn then
      let c := Z.rem expn 4 in
      (c, if (c =? 0) && (4 <=? expn) then expn - 4 else expn)
    else let c := 4 + Z.rem expn 4 in (c, expn - c) in
  0 <= c0 <= 4 /\ (0 < expn -> c0 <= expn) /\
  (expn <= 0 -> 1 <= c0 /\ c0 <= 4 - (- expn) mod 4) /\
  4 * (Z.quot expn' 4 + 1) = expn + (if c0 =? 0 then 0 else 4 - c0).
Proof.
  cbv zeta. destruct (0 <? expn) eqn:E; zb.
  - rewrite Z.rem_mod_nonneg by lia. destruct (expn mod 4 =? 0) eqn:E1; zb; cbn [andb].
    + rewrite (proj2 (Z.leb_le 4 expn)) by dlia. rewrite Z.quot_div_nonneg by dlia.
      repeat split; dlia.
    + rewrite Z.quot_div_nonneg by lia. repeat split; dlia.
  - assert (Z.rem expn 4 = - ((- expn) mod 4)) as ->.
    { rewrite <- (Z.opp_involutive expn) at 1. rewrite Z.rem_opp_l by lia.
      by rewrite Z.rem_mod_nonneg by lia. }
    rewrite (proj2 (Z.eqb_neq _ _)) by dlia. repeat split; dlia.
Qed.

Lemma digital_to_dec4_spec ds sign s P e intg frac :
  length ds = 83%nat -> digits_ok ds -> 0 <= P -> P - 1 <= e <= P + frac - 1 ->
  P <= intg + 8 -> 0 <= intg -> 0 <= frac <= 30 -> 1 <= intg + frac <= 65 ->
  (forall k, e < k -> at_ ds k = 0) -> 0 <= s <= Z.max 0 e ->
  (forall k, k < s -> at_ ds k = 0) -> (s < e -> at_ ds s <> 0) ->
  (forall k, k < P - intg -> at_ ds k = 0) ->
  exists d, convert_digital_to_dec4 ds sign s P e = Some d /\ d_sign d = sign /\
    groups_ok 4 (d_cells d) /\ d_ncells d <= ceil_div intg 4 + ceil_div frac 4 /\
    (d_expn d + 1 <= ceil_div intg 4 \/ d_ncells d = 0) /\ -8 <= d_expn d <= 16 /\
    d_ncells d <= Z.max 0 (d_expn d + 1 + ceil_div frac 4) /\
    forall x, dec_digit d x = at_ ds (P - 1 - x).
Proof.
  intros Hlen Hok HP He HPi Hi Hf Hif Hze Hs Hzs Hns Hzi.
  unfold convert_digital_to_dec4.
  assert (exists b, (if s =? e then d ← dget ds s; Some (d =? 0) else Some false) = Some b /\
    (b = true -> at_ ds s = 0 /\ s = e) /\ (b = false -> s = e -> at_ ds s <> 0)) as (b & -> & Hbt & Hbf).
  { destruct (s =? e) eqn:E; zb; [|exists false; repeat split; done].
    rewrite dget_at by lia. simpl. eexists. split; [done|].
    destruct (at_ ds s =? 0) eqn:E2; zb; split; done. }
  cbn [mbind option_bind].
  destruct (b || ((s =? P) && (e <? P))) eqn:Hzero.
  { exists (mk_dec4 sign 0 []). split; [done|]. split; [done|]. split; [constructor|].
    assert (forall k, at_ ds k = 0) as Hall.
    { intros k. apply orb_true_iff in Hzero as [->|Hz]; zb.
      - destruct Hbt as [Hs0 ->]; [done|].
        destruct (Z.lt_trichotomy k e) as [?|[->|?]]; auto.
      - destruct (decide (e < k)); [auto|]. apply Hzs. lia. }
    unfold d_ncells, ceil_div. cbn [d_cells d_expn length].
    repeat split; try lia; try dlia.
    intros x. rewrite Hall. apply grp_nil. }
  apply orb_false_iff in Hzero as [-> Hz].
  assert (at_ ds s <> 0) as Hs0.
  { destruct (decide (s = e)); [by apply Hbf|]. destruct (decide (s < e)); [auto|].
    apply andb_false_iff in Hz as [Hz|Hz]; zb; lia. }
  assert (P - intg <= s <= e) as Hse.
  { split; [|destruct (decide (s <= e)); [done|]].
    - destruct (decide (P - intg <= s)); [done|]. exfalso. apply Hs0, Hzi. lia.
    - exfalso. apply Hs0, Hze. lia. }
  pose proof (dec4_layout (P - s)) as Hlay. cbv zeta.
  change DIG_PER_DEC4 with 4. cbv zeta in Hlay. revert Hlay.
  match goal with |- context [let '(_, _) := ?x in _] => destruct x as [c0 expn'] end.
  intros (Hc0 & Hc1 & Hc2 & Hexp).
  assert (s + c0 <= 83) as Hsc.
  { destruct (decide (0 < P - s)); [lia|]. destruct Hc2 as [_ Hc2]; [lia|]. dlia. }
  destruct (trim_end_spec ds e (Z.to_nat (e + 1))) as (ne & Htr & Hne & Hnz & Hnn); [lia..|].
  destruct (head_regroup_spec 4 ds s ne c0) as (h & l & -> & Hl & Hg & Hgr & Hlo & Hhi & Hnil & Hh);
    try done; try lia.
  cbn [mbind option_bind]. rewrite Htr. cbn [mbind option_bind]. rewrite Hl.
  cbn [mbind option_bind]. clear Hbt Hbf Hz.
  set (s0 := if c0 =? 0 then s else s - (4 - c0)) in *.
  assert (P - s0 = 4 * (Z.quot expn' 4 + 1)) as Hal
    by (unfold s0; destruct (c0 =? 0); lia).
  assert (s <= ne) as Hsne.
  { destruct (decide (s <= ne)); [done|]. exfalso. apply Hs0.
    destruct (decide (s <= e)); [apply Hnz|apply Hze]; lia. }
  assert (s0 <= s <= s0 + 3 /\ (c0 = 0 -> s0 = s)) as Hs0s
    by (unfold s0; destruct (c0 =? 0) eqn:E; zb; lia).
  set (n := Z.of_nat (length (h ++ l))) in *. set (q := Z.quot expn' 4) in *.
  assert (4 * n < 4 + Z.max (ne - s0 + 1) 4) as Hhi' by (destruct (c0 =? 0); lia).
  assert (n <= ceil_div intg 4 + ceil_div frac 4) as Hn by (unfold ceil_div; dlia).
  change DEC4_CELL_SIZE with 18.
  rewrite (proj2 (Z.ltb_ge 18 n)) by (unfold ceil_div in Hn; dlia).
  eexists. split; [done|]. split; [done|]. split; [done|].
  unfold d_ncells. cbn [d_cells d_expn]. fold n q.
  split; [done|]. split; [left; unfold ceil_div; dlia|]. split; [clear Hn; dlia|].
  split; [unfold ceil_div; clear Hn; dlia|].
  intros x. unfold dec_digit. cbn [d_cells d_expn]. fold q. rewrite <- Hal.
  set (k := P - s0 - 1 - x). replace (P - 1 - x) with (s0 + k) by lia.
  destruct (decide (k < 0)); [rewrite grp_neg by done; symmetry; apply Hzs; lia|].
  rewrite Hgr by lia. destruct ((s <=? s0 + k) && _) eqn:E; [done|].
  symmetry. apply andb_false_iff in E as [E|E]; zb; [apply Hzs; lia|].
  destruct (decide (e < s0 + k)); [apply Hze|apply Hnz]; lia.
Qed.

Lemma mydec_to_dec4_spec m :
  my_wf m ->
  exists d, convert_mydec_to_dec4 m = Some d /\ d_sign d = m_sign m /\
    groups_ok 4 (d_cells d) /\
    d_ncells d <= ceil_div (m_intg m) 4 + ceil_div (m_frac m) 4 /\
    (d_expn d + 1 <= ceil_div (m_intg m) 4 \/ d_ncells d = 0) /\ -8 <= d_expn d <= 16 /\
    d_ncells d <= Z.max 0 (d_expn d + 1 + ceil_div (m_frac m) 4) /\
    forall x, dec_digit d x = my_digit m x.
Proof.
  intros Hwf. pose proof (my_wf_point m Hwf) as (_ & _ & Hp & _ & Hip & _).
  destruct (mydec_to_digital_spec m Hwf) as
    (ds & s & e & Hconv & Hlen & Hok & Hdig & He & Hze & Hs & Hzs & Hns).
  pose proof (my_wf_digits m) as Hzi.
  assert (0 <= m_intg m /\ 0 <= m_frac m <= 30 /\ 1 <= m_intg m + m_frac m <= 65) as (? & ? & ?)
    by (destruct Hwf as (? & ? & ? & _); done).
  unfold convert_mydec_to_dec4. rewrite Hconv. cbn [mbind option_bind].
  destruct (digital_to_dec4_spec ds (m_sign m) s (9 * my_point_loc m) e (m_intg m) (m_frac m))
    as (d & Hd & Hsg & Hg & Hn & Hex & Her & Hfc & Hdd); try done; try lia.
  { intros k Hk. specialize (Hdig (9 * my_point_loc m - 1 - k)).
    replace (9 * my_point_loc m - 1 - (9 * my_point_loc m - 1 - k)) with k in Hdig by lia.
    rewrite <- Hdig. unfold my_digit. apply Hzi; [done|lia]. }
  exists d. repeat split; try done; try lia. intros x. by rewrite Hdd, Hdig.
Qed.

(** The digit buffer of [convert_dec4_to_digital] and its indices. *)
Lemma dec4_to_digital_spec d :
  groups_ok 4 (d_cells d) -> -9 <= d_expn d <= 16 -> d_ncells d <= 18 ->
  d_ncells d <= Z.max 0 (d_expn d + 9) ->
  exists ds s P e, convert_dec4_to_digital d zero_digits = Some (ds, s, P, e) /\
    length ds = 83%nat /\ digits_ok ds /\ 0 <= P <= 68 /\
    (forall x, dec_digit d x = at_ ds (P - 1 - x)) /\
    P - 1 <= e < 83 /\ (forall k, e < k -> at_ ds k = 0) /\ 0 <= s <= P /\
    (forall k, k < s -> at_ ds k = 0) /\ (s < P -> at_ ds s <> 0) /\
    (P - 1 < e -> at_ ds e <> 0).
Proof.
  intros Hg Hex Hn Hfn. unfold convert_dec4_to_digital. change DIG_PER_DEC4 with 4.
  set (P := if 0 <=? d_expn d then if d_ncells d =? 0 then 0 else (d_expn d + 1) * 4 else 0).
  set (i := if d_expn d <? 0 then - (d_expn d + 1) else 0).
  assert (length zero_digits = 83%nat) as Hz by done.
  assert (0 <= d_ncells d) as Hn0 by (unfold d_ncells; lia).
  assert (0 <= i <= 8 /\ 0 <= P <= 68 /\ i + d_ncells d <= 20 /\
    (0 < d_ncells d -> P - i * 4 = 4 * (d_expn d + 1)) /\ (0 <= d_expn d -> i = 0))
    as (Hi & HP & Hin & Hpi & Hi0).
  { unfold i, P. destruct (0 <=? d_expn d) eqn:E1, (d_ncells d =? 0) eqn:E2, (d_expn d <? 0) eqn:E3;
      zb; lia. }
  destruct (record_groups_spec 4 (d_cells d) zero_digits i) as (ds & -> & Hlen & Hok & Hat);
    [lia|lia|unfold d_ncells in Hin; lia|apply zero_digits_ok|done
    |intros; apply at_zero_digits|].
  cbn [mbind option_bind]. rewrite Hz in Hlen.
  assert (forall k, at_ ds k = grp 4 (d_cells d) (k - i * 4)) as Hat'.
  { intros k. rewrite Hat, at_zero_digits. destruct (i * 4 <=? k) eqn:E; zb; [done|].
    by rewrite grp_neg by lia. }
  set (end0 := if d_ncells d - 1 <? d_expn d then P else (i + d_ncells d) * 4 - 1).
  assert (P - 1 <= end0 < 83) as He0.
  { unfold end0, P, i in *. destruct (0 <=? d_expn d) eqn:E1, (d_ncells d =? 0) eqn:E2,
      (d_expn d <? 0) eqn:E3, (d_ncells d - 1 <? d_expn d) eqn:E4; zb; lia. }
  assert (forall k, end0 < k -> at_ ds k = 0) as Hze0.
  { intros k Hk. rewrite Hat'. apply grp_past; [lia|]. fold (d_ncells d).
    unfold end0 in Hk. destruct (d_ncells d - 1 <? d_expn d) eqn:E; zb; [|lia].
    destruct (decide (0 < d_ncells d)); lia. }
  destruct (trim_end_spec ds end0 (Z.to_nat (end0 - P + 1))) as (e & -> & He & Hez & Hene); [lia..|].
  cbn [mbind option_bind].
  destruct (trim_start_spec ds 0 (Z.to_nat P)) as (s & -> & Hsb & Hsz & Hsne); [lia..|].
  cbn [mbind option_bind]. exists ds, s, P, e.
  split; [done|]. split; [done|]. split; [done|]. split; [lia|]. split.
  { intros x. rewrite Hat'. unfold dec_digit. destruct (decide (0 < d_ncells d)).
    - f_equal. lia.
    - rewrite !(nil_length_inv (d_cells d)) by (unfold d_ncells in *; lia). by rewrite !grp_nil. }
  split; [lia|]. split.
  { intros k Hk. destruct (decide (k <= end0)); [apply Hez|apply Hze0]; lia. }
  split; [lia|]. split.
  { intros k Hk. destruct (decide (k < 0)); [by apply at_neg|]. apply Hsz. lia. }
  split; intros; [apply Hsne|apply Hene]; lia.
Qed.

Lemma digital_to_mydec_spec ds sign s P e :
  length ds = 83%nat -> digits_ok ds -> 0 <= s <= P -> P <= 68 -> P - 1 <= e < 83 ->
  (forall k, e < k -> at_ ds k = 0) -> (forall k, k < s -> at_ ds k = 0) ->
  e - s + 1 <= 65 ->
  exists m, convert_digital_to_mydec ds sign s P e = Some m /\ m_sign m = sign /\
    m_intg m = Z.max (P - s) (if (e - s + 1 =? 0) then 1 else 0) /\
    m_frac m = e - P + 1 /\ groups_ok 9 (m_buf m) /\
    Z.of_nat (length (m_buf m)) = my_groups m /\ my_groups m <= 9 /\
    forall x, my_digit m x = at_ ds (P - 1 - x).
Proof.
  intros Hlen Hok Hs HP He Hze Hzs Hcnt. unfold convert_digital_to_mydec.
  change DIG_PER_MYDEC with 9.
  assert (0 <= Z.rem (P - s) 9 < 9) as Hr by (apply Z.rem_bound_pos; lia).
  set (r := Z.rem (P - s) 9) in *.
  destruct (head_regroup_spec 9 ds s e r) as (h & l & -> & Hl & Hg & Hgr & Hlo & Hhi & Hnil & Hh);
    try done; try lia.
  cbn [mbind option_bind]. rewrite Hl. cbn [mbind option_bind].
  set (s0 := if r =? 0 then s else s - (9 - r)) in *.
  assert (P - s0 = 9 * ceil_div (P - s) 9) as Hal.
  { unfold s0, ceil_div. subst r. rewrite Z.rem_mod_nonneg by lia.
    destruct ((P - s) mod 9 =? 0) eqn:E; zb; dlia. }
  set (n := Z.of_nat (length (h ++ l))) in *.
  assert (0 <= ceil_div (P - s) 9) as Hig by (unfold ceil_div; dlia).
  assert (n = ceil_div (P - s) 9 + ceil_div (e - P + 1) 9) as Hn.
  { assert (r = 0 \/ 1 <= ceil_div (P - s) 9) as Hr1.
    { subst r. unfold ceil_div. rewrite Z.rem_mod_nonneg by lia. dlia. }
    assert (s0 <= s) by (unfold s0; destruct (r =? 0); lia).
    unfold ceil_div at 2. clear Hgr Hnil Hh Hl. destruct (r =? 0) eqn:E; zb; dlia. }
  change MYDEC_BUF_LENGTH with 9.
  assert (n <= 9) as Hn9 by (rewrite Hn; unfold ceil_div; dlia).
  rewrite (proj2 (Z.ltb_ge 9 n)) by lia.
  destruct (((P - s) =? 0) && ((e - P + 1) =? 0)) eqn:Hz0; zb.
  - eexists. split; [done|]. cbn [m_sign m_intg m_frac m_buf].
    rewrite (proj2 (Z.eqb_eq _ _)) by lia. unfold my_digit, my_groups, my_point_loc. simpl.
    rewrite (proj2 (Z.eqb_eq _ _)) by lia. change (Z.quot _ _) with 1.
    split; [done|]. split; [lia|]. split; [lia|]. split; [repeat constructor; lia|].
    split; [done|]. split; [lia|].
    intros x. assert (at_ ds (P - 1 - x) = 0) as ->.
    { destruct (decide (e < P - 1 - x)); [apply Hze|apply Hzs]; lia. }
    change (take (Z.to_nat 1) [0]) with [0]. unfold grp.
    destruct (_ <? 0); [done|]. generalize (9 - 1 - (9 * 1 - 1 - x) mod 9) as j.
    intros j. destruct (Z.to_nat ((9 * 1 - 1 - x) / 9)) as [|?]; [|done]. cbn.
    unfold digit. by rewrite Zdiv_0_l.
  - eexists. split; [done|]. cbn [m_sign m_intg m_frac m_buf].
    assert (e - s + 1 <> 0) as Hne.
    { apply andb_false_iff in Hz0 as [Hz0|Hz0]; zb; lia. }
    rewrite (proj2 (Z.eqb_neq _ _)) by lia.
    assert (my_point_loc (mk_my sign (P - s) (e - P + 1) (h ++ l)) = ceil_div (P - s) 9) as Hpl.
    { unfold my_point_loc, ceil_div. cbn [m_intg]. change DIG_PER_MYDEC with 9.
      by rewrite Z.quot_div_nonneg by lia. }
    assert (my_groups (mk_my sign (P - s) (e - P + 1) (h ++ l)) = n) as Hgr_n.
    { unfold my_groups. rewrite Hpl, Hn. cbn [m_frac]. change DIG_PER_MYDEC with 9.
      unfold ceil_div. destruct (e - P + 1 =? 0) eqn:E; zb.
      - rewrite E. change ((0 + 9 - 1) / 9) with 0. lia.
      - rewrite Z.quot_div_nonneg by lia. lia. }
    split; [done|]. split; [lia|]. split; [done|]. split; [done|].
    split; [lia|]. split; [lia|]. intros x. unfold my_digit. rewrite Hgr_n, Hpl, <- Hal. cbn [m_buf].
    rewrite take_ge by (subst n; lia).
    set (k := P - s0 - 1 - x). replace (P - 1 - x) with (s0 + k) by lia.
    assert (s0 <= s) by (unfold s0; destruct (r =? 0); lia).
    destruct (decide (k < 0)); [rewrite grp_neg by done; symmetry; apply Hzs; lia|].
    rewrite Hgr by lia. destruct ((s <=? s0 + k) && _) eqn:E; [done|].
    symmetry. apply andb_false_iff in E as [E|E]; zb; [apply Hzs; lia|]. apply Hze; lia.
Qed.

(** What was stored by [convert_mydec_to_dec4] is read back exactly. *)
Lemma mydec_dec4_back m d :
  my_wf m -> convert_mydec_to_dec4 m = Some d ->
  exists m', convert_dec4_to_mydec d = Some m' /\
    m_sign m' = m_sign m /\ (forall x, my_digit m' x = my_digit m x) /\
    0 <= m_intg m' <= Z.max 1 (m_intg m) /\ 0 <= m_frac m' <= m_frac m /\
    Z.of_nat (length (m_buf m')) = my_groups m' /\ my_groups m' <= 9 /\
    groups_ok 9 (m_buf m').
Proof.
  intros Hwf Hconv.
  destruct (mydec_to_dec4_spec m Hwf) as (d' & Hd & Hs & Hg & Hn & Hie & He & Hfc & Hdig).
  assert (d' = d) as -> by congruence. clear Hd.
  pose proof (my_wf_digits m) as Hzd.
  pose proof Hwf as (Hi & Hf & Hif & _).
  destruct (dec4_to_digital_spec d Hg) as
    (ds & s & P & e & Hcd & Hlen & Hok & HP & Hdd & Hep & Hze & Hsp & Hzs & Hns & Hne);
    [lia|unfold ceil_div in Hn; dlia|unfold ceil_div in Hfc; dlia|].
  assert (forall k, at_ ds k = my_digit m (P - 1 - k)) as Hat.
  { intros k. rewrite <- Hdig, Hdd. f_equal. lia. }
  assert (forall k, P - 1 - k < - m_frac m \/ m_intg m <= P - 1 - k -> at_ ds k = 0) as Hout.
  { intros k Hk. rewrite Hat. unfold my_digit. apply Hzd; [done|lia]. }
  assert (P - s <= m_intg m) as Hsi.
  { destruct (decide (P - s <= m_intg m)); [done|].
    exfalso. apply Hns; [lia|]. apply Hout. lia. }
  assert (e - P + 1 <= m_frac m) as Hef.
  { destruct (decide (e - P + 1 <= m_frac m)); [done|].
    exfalso. apply Hne; [lia|]. apply Hout. lia. }
  destruct (digital_to_mydec_spec ds (d_sign d) s P e)
    as (m' & Hm & Hsg & Hmi & Hmf & Hmg & Hml & Hml9 & Hmd); try done; try lia.
  exists m'. unfold convert_dec4_to_mydec. rewrite Hcd.
  cbn [mbind option_bind]. split; [done|]. split; [congruence|]. split.
  { intros x. rewrite Hmd, Hat. f_equal. lia. }
  rewrite Hmi, Hmf. split; [destruct (_ =? 0); lia|]. split; [lia|]. by split; [lia|]; split.
Qed.

(** ** Properties *)

(** Storing a [DECIMAL(prec, scale)] value ([prec <= 65], [scale <= 30]) is
    exact: [convert_mydec_to_dec4] succeeds without leaving its digit buffer
    or the 18 cells, keeps the sign and every decimal digit, each cell is
    below 10000, and the stored size is within the bound that
    [calculate_variable_len] and [get_cantian_record_length] reserve. *)
Theorem convert_mydec_to_dec4_exact (m : my_decimal) (Hwf : my_wf m) :
  exists d, convert_mydec_to_dec4 m = Some d /\ d_sign d = m_sign m /\
    (forall x, dec_digit d x = my_digit m x) /\
    Forall (fun c => 0 <= c < 10000) (d_cells d) /\ -128 <= d_expn d <= 127 /\
    cm_dec4_stor_sz d
      <= (1 + (ceil_div (m_intg m) 4 + ceil_div (m_frac m) 4)) * 2.
Proof.
  destruct (mydec_to_dec4_spec m Hwf) as (d & Hd & Hs & Hg & Hn & _ & He & _ & Hdig).
  exists d. unfold cm_dec4_stor_sz. repeat split; try done; lia.
Qed.

Definition sample_dec : my_decimal := mk_my true 5 3 [12345; 60000000].

Lemma sample_dec_wf : my_wf sample_dec.
Proof.
  unfold my_wf. cbn [m_intg m_frac m_buf sample_dec]. split; [lia|]. split; [lia|].
  split; [lia|]. change (my_groups _) with 2. split; [simpl; lia|].
  split; [repeat constructor; lia|vm_compute; reflexivity].
Qed.

Lemma convert_mydec_to_dec4_exact_witness :
  exists d, convert_mydec_to_dec4 sample_dec = Some d /\ d_sign d = m_sign sample_dec /\
    (forall x, dec_digit d x = my_digit sample_dec x) /\
    Forall (fun c => 0 <= c < 10000) (d_cells d) /\ -128 <= d_expn d <= 127 /\
    cm_dec4_stor_sz d
      <= (1 + (ceil_div (m_intg sample_dec) 4 + ceil_div (m_frac sample_dec) 4)) * 2.
Proof. apply (convert_mydec_to_dec4_exact sample_dec), sample_dec_wf. Defined.

(** C14: reading a stored decimal back gives the same sign and the same decimal
    expansion, in a [my_decimal] with no more integer and fraction digits
    than the one stored (one integer digit for a zero), hence one that the
    column's [DECIMAL(prec, scale)] still holds. *)
Theorem decimal_round_trip (m : my_decimal) (Hwf : my_wf m) :
  exists d m', convert_mydec_to_dec4 m = Some d /\ convert_dec4_to_mydec d = Some m' /\
    m_sign m' = m_sign m /\ (forall x, my_digit m' x = my_digit m x) /\
    0 <= m_intg m' <= Z.max 1 (m_intg m) /\ 0 <= m_frac m' <= m_frac m /\
    Z.of_nat (length (m_buf m')) = my_groups m' /\ my_groups m' <= 9.
Proof.
  destruct (mydec_to_dec4_spec m Hwf) as (d & Hd & _).
  destruct (mydec_dec4_back m d Hwf Hd) as (m' & Hm' & H). exists d, m'.
  repeat split; try done; apply H.
Qed.


Lemma decimal_round_trip_witness :
  exists d m', convert_mydec_to_dec4 sample_dec = Some d /\ convert_dec4_to_mydec d = Some m' /\
    m_sign m' = m_sign sample_dec /\ (forall x, my_digit m' x = my_digit sample_dec x) /\
    0 <= m_intg m' <= Z.max 1 (m_intg sample_dec) /\ 0 <= m_frac m' <= m_frac sample_dec /\
    Z.of_nat (length (m_buf m')) = my_groups m' /\ my_groups m' <= 9.
Proof. apply (decimal_round_trip sample_dec), sample_dec_wf. Defined.

End DecDigits.
