(* ===== verification/FieldTypes.v ===== *)
(** * FieldTypes: columns and the storage class of their types

    Models the server's column descriptor as far as the connector reads it
    and the conversion table [g_field_cnvrt_aux_array] of
    [datatype_cnvrtr.cc] with its two lookup functions.  The table is shared
    and [get_auxiliary_for_field_convert] writes to it, so the lookup takes
    and returns the table. *)

From S2P Require Import Prelude.

Module FieldTypes.

(** ** The server's types *)

Inductive enum_field_types :=
  | MYSQL_TYPE_DECIMAL | MYSQL_TYPE_TINY | MYSQL_TYPE_SHORT | MYSQL_TYPE_LONG
  | MYSQL_TYPE_FLOAT | MYSQL_TYPE_DOUBLE | MYSQL_TYPE_NULL | MYSQL_TYPE_TIMESTAMP
  | MYSQL_TYPE_LONGLONG | MYSQL_TYPE_INT24 | MYSQL_TYPE_DATE | MYSQL_TYPE_TIME
  | MYSQL_TYPE_DATETIME | MYSQL_TYPE_YEAR | MYSQL_TYPE_NEWDATE | MYSQL_TYPE_VARCHAR
  | MYSQL_TYPE_BIT | MYSQL_TYPE_TIMESTAMP2 | MYSQL_TYPE_DATETIME2 | MYSQL_TYPE_TIME2
  | MYSQL_TYPE_TYPED_ARRAY | MYSQL_TYPE_INVALID | MYSQL_TYPE_BOOL | MYSQL_TYPE_JSON
  | MYSQL_TYPE_NEWDECIMAL | MYSQL_TYPE_ENUM | MYSQL_TYPE_SET | MYSQL_TYPE_TINY_BLOB
  | MYSQL_TYPE_MEDIUM_BLOB | MYSQL_TYPE_LONG_BLOB | MYSQL_TYPE_BLOB
  | MYSQL_TYPE_VAR_STRING | MYSQL_TYPE_STRING | MYSQL_TYPE_GEOMETRY.

#[export] Instance enum_field_types_eq_dec : EqDecision enum_field_types.
Proof. solve_decision. Defined.

(** The server's numbering. *)
Definition type_code (t : enum_field_types) : Z :=
  match t with
  | MYSQL_TYPE_DECIMAL => 0 | MYSQL_TYPE_TINY => 1 | MYSQL_TYPE_SHORT => 2
  | MYSQL_TYPE_LONG => 3 | MYSQL_TYPE_FLOAT => 4 | MYSQL_TYPE_DOUBLE => 5
  | MYSQL_TYPE_NULL => 6 | MYSQL_TYPE_TIMESTAMP => 7 | MYSQL_TYPE_LONGLONG => 8
  | MYSQL_TYPE_INT24 => 9 | MYSQL_TYPE_DATE => 10 | MYSQL_TYPE_TIME => 11
  | MYSQL_TYPE_DATETIME => 12 | MYSQL_TYPE_YEAR => 13 | MYSQL_TYPE_NEWDATE => 14
  | MYSQL_TYPE_VARCHAR => 15 | MYSQL_TYPE_BIT => 16 | MYSQL_TYPE_TIMESTAMP2 => 17
  | MYSQL_TYPE_DATETIME2 => 18 | MYSQL_TYPE_TIME2 => 19 | MYSQL_TYPE_TYPED_ARRAY => 20
  | MYSQL_TYPE_INVALID => 243 | MYSQL_TYPE_BOOL => 244 | MYSQL_TYPE_JSON => 245
  | MYSQL_TYPE_NEWDECIMAL => 246 | MYSQL_TYPE_ENUM => 247 | MYSQL_TYPE_SET => 248
  | MYSQL_TYPE_TINY_BLOB => 249 | MYSQL_TYPE_MEDIUM_BLOB => 250
  | MYSQL_TYPE_LONG_BLOB => 251 | MYSQL_TYPE_BLOB => 252 | MYSQL_TYPE_VAR_STRING => 253
  | MYSQL_TYPE_STRING => 254 | MYSQL_TYPE_GEOMETRY => 255
  end.

(** A column ([Field]): what the accessors called by the connector return. *)
Record Field := mk_field {
  f_type : enum_field_types;        (* type() *)
  f_real_type : enum_field_types;   (* real_type() *)
  f_offset : Z;                     (* offset(record[0]) *)
  f_pack_length : Z;                (* pack_length() *)
  f_row_pack_length : Z;            (* row_pack_length() *)
  f_length_bytes : Z;               (* get_length_bytes() *)
  f_nullable : bool;                (* is_nullable() *)
  f_null_offset : Z;                (* null_offset() *)
  f_null_bit : Z;                   (* null_bit *)
  f_virtual : bool;                 (* is_virtual_gcol() *)
  f_unsigned : bool;                (* is_unsigned() *)
  f_decimals : Z;                   (* decimals() *)
  f_precision : Z;                  (* Field_new_decimal::precision *)
  f_blob_flag : bool;               (* is_flag_set(BLOB_FLAG) *)
  f_binary_flag : bool;             (* is_flag_set(BINARY_FLAG) *)
  f_auto_increment : bool;          (* is_flag_set(AUTO_INCREMENT_FLAG) *)
  f_charset_bin : bool;             (* charset() == &my_charset_bin *)
  f_pad_char : Z;                   (* charset()->pad_char *)
  f_bit_len : Z;                    (* Field_bit::bit_len *)
  f_bytes_in_rec : Z;               (* Field_bit::bytes_in_rec *)
  f_rec_bits : Z;                   (* get_rec_bits(bit_ptr, bit_ofs, bit_len) *)
  f_index : nat                     (* field_index() *)
}.

(** ** Storage classes *)

Inductive enum_sql_data_types :=
  UNKNOW_DATA | NUMERIC_DATA | DATETIME_DATA | STRING_DATA | LOB_DATA.

#[export] Instance enum_sql_data_types_eq_dec : EqDecision enum_sql_data_types.
Proof. solve_decision. Defined.

Definition CANTIAN_COL_BITS_NULL : Z := 0.
Definition CANTIAN_COL_BITS_4 : Z := 1.
Definition CANTIAN_COL_BITS_8 : Z := 2.
Definition CANTIAN_COL_BITS_VAR : Z := 3.

Inductive enum_ctc_ddl_field_types :=
  | CTC_DDL_TYPE_DECIMAL | CTC_DDL_TYPE_LONG | CTC_DDL_TYPE_DOUBLE | CTC_DDL_TYPE_NULL
  | CTC_DDL_TYPE_TIMESTAMP | CTC_DDL_TYPE_LONGLONG | CTC_DDL_TYPE_DATE | CTC_DDL_TYPE_TIME
  | CTC_DDL_TYPE_DATETIME | CTC_DDL_TYPE_YEAR | CTC_DDL_TYPE_NEWDATE | CTC_DDL_TYPE_VARCHAR
  | CTC_DDL_TYPE_TIMESTAMP2 | CTC_DDL_TYPE_DATETIME2 | CTC_DDL_TYPE_TIME2
  | CTC_DDL_TYPE_TYPED_ARRAY | CTC_DDL_TYPE_JSON | CTC_DDL_TYPE_NEWDECIMAL
  | CTC_DDL_TYPE_CLOB | CTC_DDL_TYPE_TINY_BLOB | CTC_DDL_TYPE_MEDIUM_BLOB
  | CTC_DDL_TYPE_LONG_BLOB | CTC_DDL_TYPE_BLOB | CTC_DDL_TYPE_VAR_STRING
  | CTC_DDL_TYPE_STRING.

Record field_cnvrt_aux_t := mk_aux {
  mysql_field_type : enum_field_types;
  cantian_map_type : Z;
  sql_data_type : enum_sql_data_types;
  ddl_field_type : enum_ctc_ddl_field_types }.

Definition g_field_cnvrt_aux_array : list field_cnvrt_aux_t := [
  mk_aux MYSQL_TYPE_DECIMAL     CANTIAN_COL_BITS_NULL UNKNOW_DATA   CTC_DDL_TYPE_DECIMAL;
  mk_aux MYSQL_TYPE_TINY        CANTIAN_COL_BITS_4    NUMERIC_DATA  CTC_DDL_TYPE_LONG;
  mk_aux MYSQL_TYPE_SHORT       CANTIAN_COL_BITS_4    NUMERIC_DATA  CTC_DDL_TYPE_LONG;
  mk_aux MYSQL_TYPE_LONG        CANTIAN_COL_BITS_4    NUMERIC_DATA  CTC_DDL_TYPE_LONG;
  mk_aux MYSQL_TYPE_FLOAT       CANTIAN_COL_BITS_8    NUMERIC_DATA  CTC_DDL_TYPE_DOUBLE;
  mk_aux MYSQL_TYPE_DOUBLE      CANTIAN_COL_BITS_8    NUMERIC_DATA  CTC_DDL_TYPE_DOUBLE;
  mk_aux MYSQL_TYPE_NULL        CANTIAN_COL_BITS_NULL UNKNOW_DATA   CTC_DDL_TYPE_NULL;
  mk_aux MYSQL_TYPE_TIMESTAMP   CANTIAN_COL_BITS_8    DATETIME_DATA CTC_DDL_TYPE_TIMESTAMP;
  mk_aux MYSQL_TYPE_LONGLONG    CANTIAN_COL_BITS_8    NUMERIC_DATA  CTC_DDL_TYPE_LONGLONG;
  mk_aux MYSQL_TYPE_INT24       CANTIAN_COL_BITS_4    NUMERIC_DATA  CTC_DDL_TYPE_LONG;
  mk_aux MYSQL_TYPE_DATE        CANTIAN_COL_BITS_8    DATETIME_DATA CTC_DDL_TYPE_DATE;
  mk_aux MYSQL_TYPE_TIME        CANTIAN_COL_BITS_8    DATETIME_DATA CTC_DDL_TYPE_TIME;
  mk_aux MYSQL_TYPE_DATETIME    CANTIAN_COL_BITS_8    DATETIME_DATA CTC_DDL_TYPE_DATETIME;
  mk_aux MYSQL_TYPE_YEAR        CANTIAN_COL_BITS_8    DATETIME_DATA CTC_DDL_TYPE_YEAR;
  mk_aux MYSQL_TYPE_NEWDATE     CANTIAN_COL_BITS_NULL UNKNOW_DATA   CTC_DDL_TYPE_NEWDATE;
  mk_aux MYSQL_TYPE_VARCHAR     CANTIAN_COL_BITS_VAR  STRING_DATA   CTC_DDL_TYPE_VARCHAR;
  mk_aux MYSQL_TYPE_BIT         CANTIAN_COL_BITS_8    NUMERIC_DATA  CTC_DDL_TYPE_LONGLONG;
  mk_aux MYSQL_TYPE_TIMESTAMP2  CANTIAN_COL_BITS_NULL UNKNOW_DATA   CTC_DDL_TYPE_TIMESTAMP2;
  mk_aux MYSQL_TYPE_DATETIME2   CANTIAN_COL_BITS_NULL UNKNOW_DATA   CTC_DDL_TYPE_DATETIME2;
  mk_aux MYSQL_TYPE_TIME2       CANTIAN_COL_BITS_NULL UNKNOW_DATA   CTC_DDL_TYPE_TIME2;
  mk_aux MYSQL_TYPE_TYPED_ARRAY CANTIAN_COL_BITS_NULL UNKNOW_DATA   CTC_DDL_TYPE_TYPED_ARRAY;
  mk_aux MYSQL_TYPE_JSON        CANTIAN_COL_BITS_VAR  LOB_DATA      CTC_DDL_TYPE_JSON;
  mk_aux MYSQL_TYPE_NEWDECIMAL  CANTIAN_COL_BITS_VAR  NUMERIC_DATA  CTC_DDL_TYPE_NEWDECIMAL;
  mk_aux MYSQL_TYPE_TINY_BLOB   CANTIAN_COL_BITS_VAR  LOB_DATA      CTC_DDL_TYPE_TINY_BLOB;
  mk_aux MYSQL_TYPE_MEDIUM_BLOB CANTIAN_COL_BITS_VAR  LOB_DATA      CTC_DDL_TYPE_MEDIUM_BLOB;
  mk_aux MYSQL_TYPE_LONG_BLOB   CANTIAN_COL_BITS_VAR  LOB_DATA      CTC_DDL_TYPE_LONG_BLOB;
  mk_aux MYSQL_TYPE_BLOB        CANTIAN_COL_BITS_VAR  LOB_DATA      CTC_DDL_TYPE_BLOB;
  mk_aux MYSQL_TYPE_VAR_STRING  CANTIAN_COL_BITS_NULL UNKNOW_DATA   CTC_DDL_TYPE_VAR_STRING;
  mk_aux MYSQL_TYPE_STRING      CANTIAN_COL_BITS_VAR  STRING_DATA   CTC_DDL_TYPE_STRING ].

(** ** Lookup *)

Definition ty_lt (a b : enum_field_types) : bool := type_code a <? type_code b.
Definition ty_in (lo t hi : enum_field_types) : bool :=
  (type_code lo <=? type_code t) && (type_code t <=? type_code hi).

Definition get_idx_for_field_convert (t : enum_field_types) : Z :=
  let n1 := type_code MYSQL_TYPE_TYPED_ARRAY - type_code MYSQL_TYPE_DECIMAL + 1 in
  let n2 := type_code MYSQL_TYPE_NEWDECIMAL - type_code MYSQL_TYPE_JSON + 1 in
  if ty_lt t MYSQL_TYPE_INVALID then type_code t
  else if ty_in MYSQL_TYPE_JSON t MYSQL_TYPE_NEWDECIMAL
  then type_code t - type_code MYSQL_TYPE_JSON + n1
  else if ty_in MYSQL_TYPE_TINY_BLOB t MYSQL_TYPE_STRING
  then type_code t - type_code MYSQL_TYPE_TINY_BLOB + n1 + n2
  else -1.

(** The integer type that stores an [ENUM] or a [SET] of [len] bytes. *)
Definition enum_set_type (len : Z) : enum_field_types :=
  if len =? 1 then MYSQL_TYPE_TINY else if len =? 2 then MYSQL_TYPE_SHORT
  else if len =? 3 then MYSQL_TYPE_INT24 else if len =? 4 then MYSQL_TYPE_LONG
  else MYSQL_TYPE_LONGLONG.

Abbreviation aux_table := (list field_cnvrt_aux_t).

Definition set_ddl (a : field_cnvrt_aux_t) (d : enum_ctc_ddl_field_types) :=
  mk_aux (mysql_field_type a) (cantian_map_type a) (sql_data_type a) d.

(** The outer [None] is a read outside of the table, the inner [None] the
    null pointer. *)
Definition get_auxiliary_for_field_convert (tab : aux_table) (field : Field)
    (t : enum_field_types) : option (aux_table * option field_cnvrt_aux_t) :=
  if ty_lt t MYSQL_TYPE_INVALID then
    a ← tab !! Z.to_nat (type_code t); Some (tab, Some a)
  else
    let real := if bool_decide (f_real_type field = MYSQL_TYPE_ENUM)
                   || bool_decide (f_real_type field = MYSQL_TYPE_SET)
                then enum_set_type (f_pack_length field) else t in
    let idx := get_idx_for_field_convert real in
    if idx =? -1 then Some (tab, None) else
    a ← tab !! Z.to_nat idx;
    if f_blob_flag field then
      let a' := set_ddl a (if f_charset_bin field && f_binary_flag field
                           then CTC_DDL_TYPE_BLOB else CTC_DDL_TYPE_CLOB) in
      Some (<[Z.to_nat idx := a']> tab, Some a')
    else Some (tab, Some a).

(** ** What the table guarantees *)

(** The type whose entry is looked up. *)
Definition effective_type (field : Field) : enum_field_types :=
  if ty_lt (f_type field) MYSQL_TYPE_INVALID then f_type field
  else if bool_decide (f_real_type field = MYSQL_TYPE_ENUM)
          || bool_decide (f_real_type field = MYSQL_TYPE_SET)
  then enum_set_type (f_pack_length field) else f_type field.

(** The tables that calls can leave behind. *)
Inductive reachable_table : aux_table -> Prop :=
  | rt_init : reachable_table g_field_cnvrt_aux_array
  | rt_call tab field t tab' r :
      reachable_table tab -> get_auxiliary_for_field_convert tab field t = Some (tab', r) ->
      reachable_table tab'.

(** Two entries that differ at most in the DDL type. *)
Definition same_storage (a b : field_cnvrt_aux_t) : Prop :=
  mysql_field_type a = mysql_field_type b /\ cantian_map_type a = cantian_map_type b /\
  sql_data_type a = sql_data_type b.

#[export] Instance same_storage_equiv : Equivalence same_storage.
Proof.
  split; unfold same_storage.
  - done.
  - intros a b (-> & -> & ->). done.
  - intros a b c (-> & -> & ->). done.
Qed.

Lemma set_ddl_storage a d : same_storage (set_ddl a d) a.
Proof. done. Qed.

(** Only the DDL types of the entries ever change. *)
Lemma get_auxiliary_table tab field t tab' r :
  get_auxiliary_for_field_convert tab field t = Some (tab', r) ->
  Forall2 same_storage tab tab'.
Proof.
  assert (Forall2 same_storage tab tab) as Hrefl by reflexivity.
  unfold get_auxiliary_for_field_convert. destruct (ty_lt t _).
  { destruct (tab !! _); simpl; [|done]. by intros [= -> _]. }
  set (idx := get_idx_for_field_convert _). destruct (idx =? -1); [by intros [= -> _]|].
  destruct (tab !! Z.to_nat idx) as [a|] eqn:Ha; simpl; [|done].
  destruct (f_blob_flag field); intros [= <- _]; [|done].
  apply Forall2_same_length_lookup_2; [by rewrite length_insert|].
  intros i x y Hx Hy. destruct (decide (i = Z.to_nat idx)) as [->|Hne].
  - rewrite list_lookup_insert_eq in Hy by (by apply lookup_lt_Some in Ha).
    simplify_eq. done.
  - rewrite list_lookup_insert_ne in Hy by done. simplify_eq. done.
Qed.

Lemma reachable_table_storage tab :
  reachable_table tab -> Forall2 same_storage g_field_cnvrt_aux_array tab.
Proof.
  induction 1 as [|tab field t tab' r _ IH Hcall].
  - reflexivity.
  - apply get_auxiliary_table in Hcall. by transitivity tab.
Qed.

Lemma initial_index t :
  get_idx_for_field_convert t <> -1 ->
  exists a, g_field_cnvrt_aux_array !! Z.to_nat (get_idx_for_field_convert t) = Some a /\
    mysql_field_type a = t.
Proof. intros H. destruct t; try (by destruct H); eexists; split; reflexivity. Qed.

(** A column whose type the table covers; its large-object types carry
    [BLOB_FLAG] on the server. *)
Definition supported_field (f : Field) : Prop :=
  get_idx_for_field_convert (effective_type f) <> -1.

Lemma get_auxiliary_found tab f :
  supported_field f -> Forall2 same_storage g_field_cnvrt_aux_array tab ->
  exists tab' a a0, get_auxiliary_for_field_convert tab f (f_type f) = Some (tab', Some a) /\
    g_field_cnvrt_aux_array !! Z.to_nat (get_idx_for_field_convert (effective_type f)) = Some a0 /\
    same_storage a0 a /\ mysql_field_type a0 = effective_type f.
Proof.
  intros Hs Htab.
  destruct (initial_index _ Hs) as (a0 & Ha0 & Ht0).
  destruct (Forall2_lookup_l _ _ _ _ _ Htab Ha0) as (a & Ha & Hsame).
  unfold supported_field in Hs. unfold get_auxiliary_for_field_convert.
  unfold effective_type in *. destruct (ty_lt (f_type f) MYSQL_TYPE_INVALID) eqn:Hlt.
  - assert (get_idx_for_field_convert (f_type f) = type_code (f_type f)) as Hidx
      by (unfold get_idx_for_field_convert; by rewrite Hlt).
    rewrite Hidx in Ha, Ha0 |- *. rewrite Ha. simpl. eauto 10.
  - destruct (_ || _).
    + apply Z.eqb_neq in Hs as ->. rewrite Ha. simpl.
      destruct (f_blob_flag f); eauto 10.
    + apply Z.eqb_neq in Hs as ->. rewrite Ha. simpl.
      destruct (f_blob_flag f); eauto 10.
Qed.

(** Whatever calls were made before (they overwrite DDL types in the shared
    table), the entry returned for a supported column is the one of its own
    type, with the storage class and column width of the initial table. *)
Theorem get_auxiliary_storage_stable (tab : aux_table) (f : Field)
    (Hs : supported_field f) (Htab : reachable_table tab) :
  exists tab' a a0, get_auxiliary_for_field_convert tab f (f_type f) = Some (tab', Some a) /\
    g_field_cnvrt_aux_array !! Z.to_nat (get_idx_for_field_convert (effective_type f)) = Some a0 /\
    same_storage a0 a /\ mysql_field_type a0 = effective_type f.
Proof. apply get_auxiliary_found; [done|]. by apply reachable_table_storage. Qed.

Definition text_field : Field :=
  mk_field MYSQL_TYPE_BLOB MYSQL_TYPE_BLOB 1 10 2 2 true 0 1 false false 0 0
    true false false false 32 0 0 0 0.

Definition table_after_text : aux_table :=
  default [] (fst <$> get_auxiliary_for_field_convert g_field_cnvrt_aux_array
                        text_field MYSQL_TYPE_BLOB).

Lemma get_auxiliary_storage_stable_witness :
  exists tab' a a0,
    get_auxiliary_for_field_convert table_after_text text_field MYSQL_TYPE_BLOB
      = Some (tab', Some a) /\
    g_field_cnvrt_aux_array !! Z.to_nat (get_idx_for_field_convert (effective_type text_field))
      = Some a0 /\
    same_storage a0 a /\ mysql_field_type a0 = effective_type text_field.
Proof.
  apply (get_auxiliary_storage_stable table_after_text text_field); [vm_compute; discriminate|].
  apply (rt_call _ text_field MYSQL_TYPE_BLOB _ (Some (mk_aux MYSQL_TYPE_BLOB 3 LOB_DATA CTC_DDL_TYPE_CLOB))
           rt_init). vm_compute. reflexivity.
Defined.

End FieldTypes.
