(* ===== verification/Server.v ===== *)
(** * Server: the functions of the MySQL server that the connector calls

    These are not part of the repository.  [MySQL] collects them as
    operations; the classes after it state what their documentation promises
    and the conversions rely on.  [demo] is one implementation. *)

From S2P Require Import Prelude CalDate DecDigits FieldTypes.
Import CalDate DecDigits FieldTypes.

Module Server.

Class MySQL := {
  (* my_byteorder.h and myisampack.h *)
  uint3korr : list Z -> Z;
  sint3korr : list Z -> Z;
  mi_uintkorr : list Z -> Z;           (* mi_uint2korr .. mi_uint8korr *)
  mi_intstore : nat -> Z -> list Z;    (* mi_int2store .. mi_int4store *)
  (* my_time.h: packed temporal values *)
  my_time_packed_from_binary : list Z -> Z -> Z;
  my_time_packed_to_binary : Z -> Z -> list Z;
  my_datetime_packed_from_binary : list Z -> Z -> Z;
  my_datetime_packed_to_binary : Z -> Z -> list Z;
  TIME_from_longlong_time_packed : Z -> MYSQL_TIME;
  TIME_to_longlong_time_packed : MYSQL_TIME -> Z;
  TIME_from_longlong_datetime_packed : Z -> MYSQL_TIME;
  TIME_to_longlong_datetime_packed : MYSQL_TIME -> Z;
  (* timestamps: seconds and microseconds since the epoch *)
  my_timestamp_from_binary : list Z -> Z -> Z * Z;
  gmt_sec_to_TIME : Z * Z -> MYSQL_TIME;
  TIME_to_gmt_sec : MYSQL_TIME -> Z * bool;   (* seconds, in a DST gap *)
  non_zero_time : MYSQL_TIME -> bool;
  (* Field_blob: the length and the data of the value at a record position *)
  blob_get_length : Field -> list Z -> Z;
  blob_store_length : Z -> Z -> list Z;        (* bytes of length, length *)
  get_blob_data : Field -> list Z -> list Z;
  (* decimals; the status 0 is E_DEC_OK *)
  binary2my_decimal : list Z -> Z -> Z -> Z * my_decimal;
  my_decimal2binary : my_decimal -> Z -> Z -> Z * list Z }.

(** Integer loads and stores. *)
Class ByteOrder (M : MySQL) : Prop := {
  uint3korr_spec l : length l = 3%nat -> uint3korr l = le_val l;
  sint3korr_spec l : length l = 3%nat -> sint3korr l = wrapS 24 (le_val l);
  mi_uintkorr_spec l : (2 <= length l <= 8)%nat -> mi_uintkorr l = be_val l;
  mi_intstore_spec n z : (2 <= n <= 4)%nat -> mi_intstore n z = be_bytes n z }.

(** Bytes of the fraction of a second with [dec] digits. *)
Definition frac_bytes (dec : Z) : Z := (dec + 1) / 2.

(** A valid value of a [TIME(dec)] column: no date, no negative zero, a
    fraction of [dec] digits. *)
Definition time_value (dec : Z) (t : MYSQL_TIME) : Prop :=
  t_year t = 0 /\ t_month t = 0 /\ t_day t = 0 /\ 0 <= t_hour t <= 838 /\
  0 <= t_minute t <= 59 /\ 0 <= t_second t <= 59 /\ 0 <= t_second_part t < 1000000 /\
  t_second_part t mod 10 ^ (6 - dec) = 0 /\
  (t_neg t = true -> 0 < t_hour t + t_minute t + t_second t + t_second_part t).

(** The packed form of a valid [TIME]: it determines the value, it does not
    depend on a date with a month (the hours of a [TIME] are all in
    [t_hour]), and the bytes stored for it give it back; the functions read
    no byte behind those. *)
Class TimeCodec (M : MySQL) : Prop := {
  time_packed t :
    time_value 6 t -> TIME_from_longlong_time_packed (TIME_to_longlong_time_packed t) = t;
  time_packed_date t y m d :
    time_value 6 t -> 1 <= m ->
    TIME_to_longlong_time_packed
      (mk_mysql_time y m d (t_hour t) (t_minute t) (t_second t) (t_second_part t) (t_neg t))
    = TIME_to_longlong_time_packed t;
  time_binary t dec pad :
    0 <= dec <= 6 -> time_value dec t ->
    let p := TIME_to_longlong_time_packed t in
    let b := my_time_packed_to_binary p dec in
    Z.of_nat (length b) = 3 + frac_bytes dec /\ Forall byte b /\
    my_time_packed_from_binary (b ++ pad) dec = p }.

(** A valid value of a [DATETIME(dec)] column; months and days may be 0. *)
Definition datetime_value (dec : Z) (t : MYSQL_TIME) : Prop :=
  0 <= t_year t <= 9999 /\ 0 <= t_month t <= 12 /\ 0 <= t_day t <= 31 /\
  0 <= t_hour t <= 23 /\ 0 <= t_minute t <= 59 /\ 0 <= t_second t <= 59 /\
  0 <= t_second_part t < 1000000 /\ t_second_part t mod 10 ^ (6 - dec) = 0 /\
  t_neg t = false.

Class DatetimeCodec (M : MySQL) : Prop := {
  datetime_packed t :
    datetime_value 6 t ->
    TIME_from_longlong_datetime_packed (TIME_to_longlong_datetime_packed t) = t;
  datetime_binary t dec pad :
    0 <= dec <= 6 -> datetime_value dec t ->
    let p := TIME_to_longlong_datetime_packed t in
    let b := my_datetime_packed_to_binary p dec in
    Z.of_nat (length b) = 5 + frac_bytes dec /\ Forall byte b /\
    my_datetime_packed_from_binary (b ++ pad) dec = p }.

(** The microseconds of [v], the fraction of a second as it is stored. *)
Definition usec_of (dec v : Z) : Z :=
  v * (if (dec =? 1) || (dec =? 2) then 10000 else if (dec =? 3) || (dec =? 4) then 100 else 1).

(** The seconds a [TIMESTAMP] holds, [0] being the zero value and 2^31 - 1
    the last one, and the calendar of the time zone UTC. *)
Class TimestampCodec (M : MySQL) : Prop := {
  timestamp_from_binary b dec :
    0 <= dec <= 6 -> Z.of_nat (length b) = 4 + frac_bytes dec -> Forall byte b ->
    usec_of dec (be_val (drop 4 b)) < 1000000 ->
    my_timestamp_from_binary b dec = (be_val (take 4 b), usec_of dec (be_val (drop 4 b)));
  gmt_sec_fields s us :
    0 < s < 2 ^ 31 -> 0 <= us < 1000000 ->
    let t := gmt_sec_to_TIME (s, us) in
    1 <= t_year t <= 9999 /\ 1 <= t_month t <= 12 /\
    1 <= t_day t <= CM_MONTH_DAYS (t_year t) (t_month t) /\
    0 <= t_hour t <= 23 /\ 0 <= t_minute t <= 59 /\ 0 <= t_second t <= 59 /\
    t_second_part t = us /\ t_neg t = false;
  non_zero_time_spec t :
    non_zero_time t = negb ((t_hour t =? 0) && (t_minute t =? 0) && (t_second t =? 0)
                            && (t_second_part t =? 0));
  gmt_sec_inverse s us :
    0 < s < 2 ^ 31 -> 0 <= us < 1000000 ->
    TIME_to_gmt_sec (gmt_sec_to_TIME (s, us)) = (s, false) }.

(** [DECIMAL(prec, scale)] in the server's binary format.  Reading bytes that
    [my_decimal2binary] wrote gives all [scale] digits of the fraction and at
    most [prec - scale] digits before it: leading groups of zeros are left
    out. *)
Class DecimalCodec (M : MySQL) : Prop := {
  binary2my_decimal_ok b prec scale :
    1 <= prec <= 65 -> 0 <= scale <= 30 -> scale <= prec ->
    (exists d, snd (my_decimal2binary d prec scale) = b) ->
    fst (binary2my_decimal b prec scale) = 0 ->
    my_wf (snd (binary2my_decimal b prec scale)) /\
    m_intg (snd (binary2my_decimal b prec scale)) <= prec - scale /\
    m_frac (snd (binary2my_decimal b prec scale)) = scale;
  (* the stored form of a value only depends on its sign and digits; a zero
     has no sign *)
  my_decimal2binary_ext b prec scale m' :
    1 <= prec <= 65 -> 0 <= scale <= 30 -> scale <= prec ->
    (exists d, my_decimal2binary d prec scale = (0, b)) ->
    let r := binary2my_decimal b prec scale in
    fst r = 0 -> (m_sign (snd r) = true -> exists x, my_digit (snd r) x <> 0) ->
    m_sign m' = m_sign (snd r) ->
    (forall x, my_digit m' x = my_digit (snd r) x) ->
    groups_ok 9 (m_buf m') -> Z.of_nat (length (m_buf m')) = my_groups m' ->
    0 <= m_intg m' <= Z.max 1 (prec - scale) -> 0 <= m_frac m' <= scale ->
    my_decimal2binary m' prec scale = (0, b) }.

End Server.
