(* ===== verification/Demo.v ===== *)
(** * Demo: a server to instantiate the interface of [Server.v]

    One executable implementation of the operations and proofs of their laws.
    The witnesses of the theorems that rely on the interface use it.  Packed
    temporal values and their bytes have the server's documented layout, the
    time zone is UTC, and the only decimal type supported is
    [DECIMAL(9, 0)]. *)

From S2P Require Import Prelude CalDate DecDigits FieldTypes Server.
Import CalDate DecDigits FieldTypes Server.

Module Demo.

(** Packed values: the fraction in 24 bits, then second, minute and hour (6,
    6 and 10 bits in a [TIME]; 6, 6 and 5 bits, day and 13 * year + month in a
    [DATETIME]); negative values are negated as a whole. *)
Definition FRAC : Z := 2 ^ 24.

Definition signed (neg : bool) (v : Z) : Z := if neg then - v else v.

Definition demo_TIME_to_packed (t : MYSQL_TIME) : Z :=
  let hour := (if t_month t =? 0 then t_day t * 24 else 0) + t_hour t in
  signed (t_neg t)
    (((hour * 64 + t_minute t) * 64 + t_second t) * FRAC + t_second_part t).

Definition demo_packed_to_TIME (p : Z) : MYSQL_TIME :=
  let hms := Z.abs p / FRAC in
  mk_mysql_time 0 0 0 (hms / 4096 mod 1024) (hms / 64 mod 64) (hms mod 64)
    (Z.abs p mod FRAC) (p <? 0).

Definition demo_DATETIME_to_packed (t : MYSQL_TIME) : Z :=
  let ymd := (t_year t * 13 + t_month t) * 32 + t_day t in
  let hms := (t_hour t * 64 + t_minute t) * 64 + t_second t in
  signed (t_neg t) ((ymd * 131072 + hms) * FRAC + t_second_part t).

Definition demo_packed_to_DATETIME (p : Z) : MYSQL_TIME :=
  let ymdhms := Z.abs p / FRAC in
  let ymd := ymdhms / 131072 in
  let hms := ymdhms mod 131072 in
  mk_mysql_time (ymd / 32 / 13) (ymd / 32 mod 13) (ymd mod 32) (hms / 4096) (hms / 64 mod 64)
    (hms mod 64) (Z.abs p mod FRAC) (p <? 0).

(** The bytes of the fraction. *)
Definition frac_store (dec us : Z) : list Z :=
  if dec =? 0 then [] else if dec <=? 2 then be_bytes 1 (Z.quot us 10000)
  else if dec <=? 4 then be_bytes 2 (Z.quot us 100) else be_bytes 3 us.

Definition frac_unit (dec : Z) : Z := if dec <=? 2 then 10000 else if dec <=? 4 then 100 else 1.

(** [TIME]: the integer part plus 2^23, or the whole plus 2^47. *)
Definition demo_time_to_binary (p dec : Z) : list Z :=
  if 4 <? dec then be_bytes 6 (p + 2 ^ 47)
  else be_bytes 3 (p / FRAC + 2 ^ 23) ++ frac_store dec (Z.rem p FRAC).

Definition demo_time_from_binary (b : list Z) (dec : Z) : Z :=
  if 4 <? dec then be_val (take 6 b) - 2 ^ 47 else
  let n := Z.to_nat (frac_bytes dec) in
  let intpart := be_val (take 3 b) - 2 ^ 23 in
  let frac := be_val (take n (drop 3 b)) in
  let neg := (intpart <? 0) && negb (frac =? 0) in
  (intpart + (if neg then 1 else 0)) * FRAC
  + (frac - (if neg then 256 ^ Z.of_nat n else 0)) * frac_unit dec.

(** [DATETIME]: the integer part plus 2^39; the fraction is a signed number. *)
Definition demo_datetime_to_binary (p dec : Z) : list Z :=
  be_bytes 5 (p / FRAC + 2 ^ 39) ++ frac_store dec (Z.rem p FRAC).

Definition demo_datetime_from_binary (b : list Z) (dec : Z) : Z :=
  let n := Z.to_nat (frac_bytes dec) in
  let frac := be_val (take n (drop 5 b)) in
  (be_val (take 5 b) - 2 ^ 39) * FRAC
  + (if 2 * frac <? 256 ^ Z.of_nat n then frac else frac - 256 ^ Z.of_nat n) * frac_unit dec.

(** Microseconds from 1970-01-01 to 2000-01-01, in seconds. *)
Definition epoch_2000 : Z := 946684800.

Definition demo_gmt_sec_to_TIME (tm : Z * Z) : MYSQL_TIME :=
  match cm_decode_date ((tm.1 - epoch_2000) * 1000000 + tm.2)
          (mk_date_detail 0 0 0 0 0 0 0 0 0 0) with
  | Some d => mk_mysql_time (year d) (mon d) (day d) (hour d) (min d) (sec d)
                (millisec d * 1000 + microsec d) false
  | None => mk_mysql_time 0 0 0 0 0 0 0 false
  end.

Definition detail_of_time (t : MYSQL_TIME) : date_detail :=
  mk_date_detail (t_year t) (t_month t) (t_day t) (t_hour t) (t_minute t) (t_second t)
    (t_second_part t / 1000) (t_second_part t mod 1000) 0 0.

Definition demo_TIME_to_gmt_sec (t : MYSQL_TIME) : Z * bool :=
  ((encode_units (detail_of_time t) - t_second_part t) / 1000000 + epoch_2000, false).

(** The digits of weight [10^0 .. 10^(n-1)] added up. *)
Fixpoint digit_sum (f : Z -> Z) (n : nat) : Z :=
  match n with
  | O => 0
  | S n => digit_sum f n + f (Z.of_nat n) * 10 ^ Z.of_nat n
  end.

Definition demo_binary2my_decimal (b : list Z) (prec scale : Z) : Z * my_decimal :=
  let v := le_val (drop 1 b) in
  if (prec =? 9) && (scale =? 0) && (0 <=? v) && (v <? 10 ^ 9)
  then (0, mk_my (bool_decide (b !! 0%nat = Some 1)) 9 0 [v])
  else (1, mk_my false 1 0 [0]).

Definition demo_my_decimal2binary (m : my_decimal) (prec scale : Z) : Z * list Z :=
  if (prec =? 9) && (scale =? 0)
  then (0, (if m_sign m then 1 else 0) :: le_bytes 4 (digit_sum (my_digit m) 9))
  else (1, []).

#[export] Instance demo : MySQL := {|
  uint3korr := le_val;
  sint3korr l := wrapS 24 (le_val l);
  mi_uintkorr := be_val;
  mi_intstore := be_bytes;
  my_time_packed_from_binary := demo_time_from_binary;
  my_time_packed_to_binary := demo_time_to_binary;
  my_datetime_packed_from_binary := demo_datetime_from_binary;
  my_datetime_packed_to_binary := demo_datetime_to_binary;
  TIME_from_longlong_time_packed := demo_packed_to_TIME;
  TIME_to_longlong_time_packed := demo_TIME_to_packed;
  TIME_from_longlong_datetime_packed := demo_packed_to_DATETIME;
  TIME_to_longlong_datetime_packed := demo_DATETIME_to_packed;
  my_timestamp_from_binary b dec :=
    (be_val (take 4 b), usec_of dec (be_val (drop 4 b)));
  gmt_sec_to_TIME := demo_gmt_sec_to_TIME;
  TIME_to_gmt_sec := demo_TIME_to_gmt_sec;
  non_zero_time t := negb ((t_hour t =? 0) && (t_minute t =? 0) && (t_second t =? 0)
                           && (t_second_part t =? 0));
  blob_get_length f b := le_val (take (Z.to_nat (f_row_pack_length f)) b);
  blob_store_length n len := le_bytes (Z.to_nat n) len;
  get_blob_data f b := [];
  binary2my_decimal := demo_binary2my_decimal;
  my_decimal2binary := demo_my_decimal2binary |}.

#[export] Instance demo_byte_order : ByteOrder demo.
Proof. by split. Qed.

(** The fractions of [dec] digits. *)
Lemma frac_cases dec us :
  0 <= dec <= 6 -> 0 <= us < 1000000 -> us mod 10 ^ (6 - dec) = 0 ->
  (dec = 0 /\ us = 0) \/
  (1 <= dec <= 2 /\ us mod 10000 = 0) \/ (3 <= dec <= 4 /\ us mod 100 = 0) \/ 5 <= dec.
Proof.
  intros Hd Hu Hm.
  assert (dec = 0 \/ dec = 1 \/ dec = 2 \/ dec = 3 \/ dec = 4 \/ 5 <= dec) as Hc by lia.
  destruct Hc as [->|[->|[->|[->|[->|Hc]]]]]; cbn in Hm; dlia.
Qed.

Lemma demo_time_packed t : time_value 6 t -> demo_packed_to_TIME (demo_TIME_to_packed t) = t.
Proof.
  destruct t as [y mo d h mi s us neg]. unfold time_value. cbn.
  intros (-> & -> & -> & Hh & Hmi & Hs & Hu & _ & Hn).
  unfold demo_packed_to_TIME, demo_TIME_to_packed, signed, FRAC.
  change (2 ^ 24) with 16777216.
  cbn [t_year t_month t_day t_hour t_minute t_second t_second_part t_neg].
  rewrite ?Z.add_0_l; cbv zeta.
  set (v := ((h * 64 + mi) * 64 + s) * 16777216 + us).
  assert (0 <= v) by lia.
  assert (Z.abs (if neg then - v else v) = v) as -> by (destruct neg; lia).
  assert (((if neg then - v else v) <? 0) = neg) as ->.
  { destruct neg; zb; [specialize (Hn eq_refl)|]; lia. }
  assert (v / 16777216 = (h * 64 + mi) * 64 + s) as -> by (unfold v; dlia).
  assert (v mod 16777216 = us) as -> by (unfold v; dlia).
  f_equal; dlia.
Qed.

Lemma demo_datetime_packed t :
  datetime_value 6 t -> demo_packed_to_DATETIME (demo_DATETIME_to_packed t) = t.
Proof.
  destruct t as [y mo d h mi s us neg]. unfold datetime_value. cbn.
  intros (Hy & Hmo & Hd & Hh & Hmi & Hs & Hu & _ & ->).
  unfold demo_packed_to_DATETIME, demo_DATETIME_to_packed, signed, FRAC.
  
  change (2 ^ 24) with 16777216.
  cbn [t_year t_month t_day t_hour t_minute t_second t_second_part t_neg].
  rewrite ?Z.add_0_l; cbv zeta.
  set (ymd := (y * 13 + mo) * 32 + d). set (hms := (h * 64 + mi) * 64 + s).
  assert (0 <= ymd /\ 0 <= hms < 131072) as [Hy0 Hh0] by lia.
  set (v := (ymd * 131072 + hms) * 16777216 + us).
  assert (0 <= v) by lia. rewrite Z.abs_eq, (proj2 (Z.ltb_ge v 0)) by lia.
  assert (v / 16777216 = ymd * 131072 + hms) as -> by (unfold v; dlia).
  assert (v mod 16777216 = us) as -> by (unfold v; dlia).
  assert ((ymd * 131072 + hms) / 131072 = ymd) as -> by dlia.
  assert ((ymd * 131072 + hms) mod 131072 = hms) as -> by dlia.
  assert (ymd / 32 = y * 13 + mo) as -> by (unfold ymd; dlia).
  unfold ymd, hms. f_equal; dlia.
Qed.

Lemma length_frac_store dec us :
  0 <= dec <= 6 -> Z.of_nat (length (frac_store dec us)) = frac_bytes dec.
Proof.
  intros Hd. unfold frac_store, frac_bytes.
  repeat case_match; zb; rewrite ?length_be_bytes; simpl length; dlia.
Qed.

Lemma frac_store_byte dec us : Forall byte (frac_store dec us).
Proof. unfold frac_store. repeat case_match; try apply be_bytes_byte. constructor. Qed.

Lemma frac_load dec us pad :
  0 <= dec <= 6 -> 0 <= Z.abs us < 1000000 -> Z.abs us mod 10 ^ (6 - dec) = 0 ->
  let n := Z.to_nat (frac_bytes dec) in
  exists v, be_val (take n (frac_store dec us ++ pad)) = v mod 256 ^ Z.of_nat n /\
    v * frac_unit dec = us /\ 2 * Z.abs v < 256 ^ Z.of_nat n.
Proof.
  intros Hd Hu Hm. unfold frac_store, frac_unit, frac_bytes.
  destruct (frac_cases dec (Z.abs us) Hd Hu Hm) as [[-> Hz]|[[Hc Hq]|[[Hc Hq]|Hc]]].
  - exists 0. assert (us = 0) as -> by lia. vm_compute. repeat split; discriminate.
  - rewrite (proj2 (Z.eqb_neq dec 0)), (proj2 (Z.leb_le dec 2)) by lia.
    replace (Z.to_nat ((dec + 1) / 2)) with 1%nat by dlia.
    exists (Z.quot us 10000). rewrite be_field_mod. change (256 ^ Z.of_nat 1) with 256.
    split; [done|]. split; dlia.
  - rewrite (proj2 (Z.eqb_neq dec 0)), (proj2 (Z.leb_gt dec 2)), (proj2 (Z.leb_le dec 4)) by lia.
    replace (Z.to_nat ((dec + 1) / 2)) with 2%nat by dlia.
    exists (Z.quot us 100). rewrite be_field_mod. change (256 ^ Z.of_nat 2) with 65536.
    split; [done|]. split; dlia.
  - rewrite (proj2 (Z.eqb_neq dec 0)), (proj2 (Z.leb_gt dec 2)), (proj2 (Z.leb_gt dec 4)) by lia.
    replace (Z.to_nat ((dec + 1) / 2)) with 3%nat by dlia.
    exists us. rewrite be_field_mod. change (256 ^ Z.of_nat 3) with 16777216.
    split; [done|]. lia.
Qed.

Lemma demo_datetime_binary t dec pad :
  0 <= dec <= 6 -> datetime_value dec t ->
  let p := demo_DATETIME_to_packed t in
  let b := demo_datetime_to_binary p dec in
  Z.of_nat (length b) = 5 + frac_bytes dec /\ Forall byte b /\
  demo_datetime_from_binary (b ++ pad) dec = p.
Proof.
  intros Hd (Hy & Hmo & Hdy & Hh & Hmi & Hs & Hu & Hm & Hn) p b.
  assert (exists i, p = i * FRAC + t_second_part t /\ 0 <= i < 2 ^ 39) as (i & Hp & Hi).
  { unfold p, demo_DATETIME_to_packed. rewrite Hn. eexists. split; [reflexivity|]. lia. }
  clearbody p. unfold b, demo_datetime_to_binary. unfold FRAC in *. clear b.
  change (2 ^ 24) with 16777216 in *.
  assert (p / 16777216 = i /\ Z.rem p 16777216 = t_second_part t) as [-> ->]
    by (clear - Hp Hi Hu; split; dlia).
  set (us := t_second_part t) in *.
  split. { rewrite length_app, length_be_bytes, Nat2Z.inj_add, length_frac_store by done. lia. }
  split. { apply Forall_app. split; [apply be_bytes_byte|apply frac_store_byte]. }
  unfold demo_datetime_from_binary. rewrite <- app_assoc.
  rewrite be_field by (change (256 ^ Z.of_nat 5) with (2 ^ 40); lia).
  rewrite drop_app_length' by (by rewrite length_be_bytes).
  destruct (frac_load dec us pad Hd) as (v & -> & Hv & Hv1); [lia|by rewrite Z.abs_eq by lia|].
  set (n := Z.to_nat (frac_bytes dec)) in *.
  assert (0 <= v) by (revert Hv; unfold frac_unit; repeat case_match; lia).
  rewrite Z.mod_small by lia.
  rewrite (proj2 (Z.ltb_lt _ _)) by lia. rewrite Hv, Hp. unfold FRAC.
  change (2 ^ 24) with 16777216. lia.
Qed.

(** The integer part and the fraction of a [TIME] as they are stored: the
    former is rounded down. *)
Lemma demo_time_split t dec :
  0 <= dec <= 4 -> time_value dec t ->
  let p := demo_TIME_to_packed t in
  exists i us, 0 <= us < 1000000 /\ us mod 10 ^ (6 - dec) = 0 /\ 0 <= i < 2 ^ 22 /\
    p = signed (t_neg t) (i * FRAC + us).
Proof.
  intros Hd (Hy & Hmo & Hdy & Hh & Hmi & Hs & Hu & Hm & Hn) p.
  unfold p, demo_TIME_to_packed. rewrite Hmo, Hdy. cbn [Z.eqb Z.mul].
  eexists _, _. split; [exact Hu|]. split; [exact Hm|]. split; [|reflexivity]. lia.
Qed.

Lemma time_parts neg i us :
  0 <= i < 2 ^ 22 -> 0 <= us < 1000000 ->
  let p := signed neg (i * FRAC + us) in
  exists j r, Z.abs r = us /\ (r < 0 -> j < 0) /\ p / FRAC = j /\ Z.rem p FRAC = r /\
    p = (j + (if r <? 0 then 1 else 0)) * FRAC + r /\ - 2 ^ 23 <= j < 2 ^ 23 /\ (0 < r -> 0 <= j).
Proof.
  intros Hi Hu p. assert (FRAC = 16777216) as HF by done. rewrite HF in *. unfold p, signed. clear p.
  destruct neg.
  - destruct (decide (us = 0)) as [->|].
    + exists (- i), 0. cbn [Z.ltb Z.compare]. repeat split; try lia; dlia.
    + exists (- i - 1), (- us). rewrite (proj2 (Z.ltb_lt _ _)) by lia. repeat split; try lia; dlia.
  - exists i, us. rewrite (proj2 (Z.ltb_ge _ _)) by lia. repeat split; try lia; dlia.
Qed.

Lemma demo_time_binary t dec pad :
  0 <= dec <= 6 -> time_value dec t ->
  let p := demo_TIME_to_packed t in
  let b := demo_time_to_binary p dec in
  Z.of_nat (length b) = 3 + frac_bytes dec /\ Forall byte b /\
  demo_time_from_binary (b ++ pad) dec = p.
Proof.
  intros Hd Ht p b.
  unfold b, demo_time_to_binary, demo_time_from_binary. clear b.
  destruct (4 <? dec) eqn:E4; zb.
  - assert (frac_bytes dec = 3) as -> by (unfold frac_bytes; dlia).
    split; [by rewrite length_be_bytes|]. split; [apply be_bytes_byte|].
    rewrite be_field; [lia|]. change (256 ^ Z.of_nat 6) with (2 ^ 48).
    destruct Ht as (_ & Hmo & Hdy & Hh & Hmi & Hs & Hu & _).
    unfold p, demo_TIME_to_packed, FRAC, signed. rewrite Hmo, Hdy.
    change (2 ^ 24) with 16777216. cbn [Z.eqb Z.mul]. destruct (t_neg t); lia.
  - destruct (demo_time_split t dec ltac:(lia) Ht) as (i & us & Hu & Hm & Hi & Hp). fold p in Hp.
    clearbody p. clear Ht. destruct (time_parts (t_neg t) i us) as (j & r & Hr & Hj & Hpq & Hpr & Hpj & Hj23 & Hjp).
    { lia. } { exact Hu. } rewrite <- Hp in Hpq, Hpr, Hpj. rewrite Hpq, Hpr.
    split. { rewrite length_app, length_be_bytes, Nat2Z.inj_add, length_frac_store by lia. lia. }
    split. { apply Forall_app. split; [apply be_bytes_byte|apply frac_store_byte]. }
    rewrite <- app_assoc, be_field by (change (256 ^ Z.of_nat 3) with (2 ^ 24); lia).
    rewrite drop_app_length' by (by rewrite length_be_bytes).
    destruct (frac_load dec r pad ltac:(lia)) as (v & -> & Hv & Hv1); [lia|by rewrite Hr|].
    set (n := Z.to_nat (frac_bytes dec)) in *. replace (j + 2 ^ 23 - 2 ^ 23) with j by lia.
    assert (0 < frac_unit dec) by (unfold frac_unit; repeat case_match; lia).
    destruct (decide (v < 0)).
    + assert (v mod 256 ^ Z.of_nat n = v + 256 ^ Z.of_nat n) as ->.
      { symmetry. apply (Z.mod_unique_pos _ _ (-1)); lia. }
      rewrite (proj2 (Z.ltb_lt j 0)), (proj2 (Z.eqb_neq _ 0)) by nia. cbn [andb negb].
      rewrite Hpj, (proj2 (Z.ltb_lt r 0)) by nia. lia.
    + rewrite Z.mod_small by lia.
      assert ((j <? 0) && negb (v =? 0) = false) as ->.
      { destruct (v =? 0) eqn:E; zb; [by rewrite andb_false_r|].
        rewrite (proj2 (Z.ltb_ge j 0)) by nia. done. }
      rewrite Hpj, (proj2 (Z.ltb_ge r 0)) by nia. lia.
Qed.

#[export] Instance demo_time_codec : TimeCodec demo.
Proof.
  split; [apply demo_time_packed| |apply demo_time_binary].
  intros t y m d (Hy & Hmo & Hd & _) Hm. cbn [TIME_to_longlong_time_packed demo].
  unfold demo_TIME_to_packed. cbn [t_year t_month t_day t_hour t_minute t_second t_second_part t_neg].
  rewrite Hmo, Hd, (proj2 (Z.eqb_neq m 0)) by lia. done.
Qed.

#[export] Instance demo_datetime_codec : DatetimeCodec demo.
Proof. split; [apply demo_datetime_packed|apply demo_datetime_binary]. Qed.

Lemma demo_gmt_spec s us :
  0 < s < 2 ^ 31 -> 0 <= us < 1000000 ->
  exists d, demo_gmt_sec_to_TIME (s, us)
      = mk_mysql_time (year d) (mon d) (day d) (hour d) (min d) (sec d)
          (millisec d * 1000 + microsec d) false /\
    valid d /\ encode_units d = (s - epoch_2000) * 1000000 + us.
Proof.
  intros Hs Hu. unfold demo_gmt_sec_to_TIME. cbn [fst snd].
  destruct (decode_in_range ((s - epoch_2000) * 1000000 + us)
    (mk_date_detail 0 0 0 0 0 0 0 0 0 0)) as (d & -> & Hv & He & _);
    [unfold epoch_2000; lia|]. by exists d.
Qed.

Lemma units_usec d :
  valid d -> encode_units d mod 1000000 = millisec d * 1000 + microsec d.
Proof.
  intros [_ Ht]. rewrite encode_units_days. unfold tod, valid_tod, UNITS_PER_DAY in *. dlia.
Qed.

#[export] Instance demo_timestamp_codec : TimestampCodec demo.
Proof.
  split; cbn -[be_val demo_gmt_sec_to_TIME demo_TIME_to_gmt_sec].
  - done.
  - intros s us Hs Hu. destruct (demo_gmt_spec s us Hs Hu) as (d & -> & Hv & He).
    pose proof (units_usec d Hv) as Hus. rewrite He in Hus.
    destruct Hv as ((Hy & Hm & Hd) & Ht). unfold valid_tod in Ht.
    cbn [t_year t_month t_day t_hour t_minute t_second t_second_part t_neg].
    repeat split; try lia. dlia.
  - done.
  - intros s us Hs Hu. destruct (demo_gmt_spec s us Hs Hu) as (d & -> & Hv & He).
    pose proof (units_usec d Hv) as Hus. unfold demo_TIME_to_gmt_sec. f_equal.
    assert (encode_units (detail_of_time (mk_mysql_time (year d) (mon d) (day d) (hour d)
      (min d) (sec d) (millisec d * 1000 + microsec d) false)) = encode_units d) as ->.
    { rewrite !encode_units_days. unfold detail_of_time, tod.
      cbn [t_year t_month t_day t_hour t_minute t_second t_second_part year mon day hour min
           sec millisec microsec]. destruct Hv as [_ Ht]. unfold valid_tod in Ht. dlia. }
    cbn [t_second_part]. rewrite He in *. dlia.
Qed.

Lemma digit_sum_value v n :
  0 <= v -> digit_sum (digit v) n = v mod 10 ^ Z.of_nat n.
Proof.
  intros Hv. induction n as [|n IH]; [simpl; by rewrite Z.mod_1_r|].
  cbn [digit_sum]. rewrite IH, Nat2Z.inj_succ, Z.pow_succ_r by lia.
  rewrite (Z.mul_comm 10), Z.rem_mul_r by lia. unfold digit. lia.
Qed.

Lemma digit_sum_ext f g n :
  (forall x, 0 <= x < Z.of_nat n -> f x = g x) -> digit_sum f n = digit_sum g n.
Proof.
  intros H. induction n as [|n IH]; [done|]. cbn [digit_sum].
  rewrite IH, (H (Z.of_nat n)) by (intros; try apply H; lia). done.
Qed.

Lemma digit_sum_bound f n :
  (forall x, 0 <= f x <= 9) -> 0 <= digit_sum f n < 10 ^ Z.of_nat n.
Proof.
  intros H. induction n as [|n IH]; [simpl; lia|]. cbn [digit_sum].
  rewrite Nat2Z.inj_succ, Z.pow_succ_r by lia. specialize (H (Z.of_nat n)). nia.
Qed.

Lemma demo_digits s v x :
  0 <= v < 10 ^ 9 -> 0 <= x < 9 -> my_digit (mk_my s 9 0 [v]) x = digit v x.
Proof.
  intros Hv Hx. unfold my_digit. change (my_groups _) with 1. change (my_point_loc _) with 1.
  change (take _ _) with [v]. rewrite grp_cons by lia.
  rewrite (proj2 (Z.ltb_lt _ _)) by lia. f_equal. lia.
Qed.

#[export] Instance demo_decimal_codec : DecimalCodec demo.
Proof.
  split; cbn -[demo_binary2my_decimal demo_my_decimal2binary].
  - intros b prec scale Hp Hs Hsp. unfold demo_binary2my_decimal.
    destruct (_ && (le_val (drop 1 b) <? 10 ^ 9)) eqn:E; [|done]. intros _. zb.
    subst. split; [|done]. unfold my_wf. cbn [m_intg m_frac m_buf snd].
    change (my_groups _) with 1. change (my_point_loc _) with 1.
    split; [lia|]. split; [lia|]. split; [lia|]. split; [simpl; lia|].
    split; [repeat constructor; lia|]. apply forallb_forall. intros k Hk.
    apply list_elem_of_In, elem_of_seqZ in Hk. apply orb_true_iff.
    destruct (decide (k < 9)) as [H9|H9].
    + left. rewrite andb_true_iff, Z.leb_le, Z.ltb_lt. lia.
    + right. apply Z.eqb_eq, grp_past; [lia|]. simpl. lia.
  - intros b prec scale m' Hp Hs Hsp [d Hd]. unfold demo_my_decimal2binary in Hd |- *.
    unfold demo_binary2my_decimal.
    destruct ((prec =? 9) && (scale =? 0)) eqn:E; [|done]. zb. subst.
    apply (f_equal snd) in Hd. cbn [snd] in Hd. subst b.
    match goal with |- context [drop 1 (?h :: ?t)] => change (drop 1 (h :: t)) with t end.
    pose proof (digit_sum_bound (my_digit d) 9 (fun x => grp_range _ _ _)) as Hb.
    assert (le_val (le_bytes 4 (digit_sum (my_digit d) 9)) = digit_sum (my_digit d) 9) as ->.
    { rewrite le_val_le_bytes. apply Z.mod_small. change (10 ^ Z.of_nat 9) with (10 ^ 9) in Hb.
      change (256 ^ Z.of_nat 4) with (2 ^ 32). lia. }
    set (v := digit_sum (my_digit d) 9) in *. change (10 ^ Z.of_nat 9) with (10 ^ 9) in Hb.
    rewrite (proj2 (Z.leb_le 0 v)), (proj2 (Z.ltb_lt v _)) by lia. simpl Z.eqb. cbn [andb fst snd m_sign].
    intros _ _ Hsg Hdig _ _ _ _. do 3 f_equal.
    { rewrite Hsg. by destruct (m_sign d). }
    rewrite (digit_sum_ext _ (digit v)).
    + rewrite digit_sum_value by lia. apply Z.mod_small. done.
    + intros x Hx. rewrite Hdig. apply demo_digits; lia.
Qed.

End Demo.
