(* ===== verification/Numeric.v ===== *)
(** * Numeric: numeric columns

    Models the numeric conversions of [datatype_cnvrtr.cc]: integers of every
    width and signedness, [FLOAT] and [DOUBLE] as IEEE bit patterns, [BIT]
    and [DECIMAL].  A conversion reads the source bytes and returns the bytes
    that it stores at the target address; [None] is a failed assertion. *)

From S2P Require Import Prelude CalDate DecDigits FieldTypes Server Demo.
Import DecDigits FieldTypes Server Demo.

Module Numeric.

Definition E_DEC_OK : Z := 0.

(** ** Integers *)

(** [convert_numeric_datatype<U, SU, T, S>]: the source is read as an [sn]
    byte integer and stored as a [tn] byte one. *)
Definition convert_numeric_datatype (tn sn : nat) (is_unsigned : bool) (src : list Z)
  : list Z :=
  if is_unsigned then le_bytes tn (wrapU (8 * Z.of_nat tn) (le_val (take sn src)))
  else le_bytes tn (wrapS (8 * Z.of_nat tn) (wrapS (8 * Z.of_nat sn) (le_val (take sn src)))).

(** ** Floating point, on bit patterns *)

(** [v / 2^s] rounded to nearest, ties to even. *)
Definition shr_rne (v s : Z) : Z :=
  let q := v / 2 ^ s in
  let r := v mod 2 ^ s in
  let half := 2 ^ (s - 1) in
  if r <? half then q
  else if half <? r then q + 1
  else if Z.even q then q else q + 1.

(** [float] to [double]: exact; a NaN stays a (quiet) NaN. *)
Definition float_to_double (x : Z) : Z :=
  let s := x / 2 ^ 31 in
  let e := x / 2 ^ 23 mod 2 ^ 8 in
  let m := x mod 2 ^ 23 in
  let sign := s * 2 ^ 63 in
  if e =? 255 then
    if m =? 0 then sign + 2047 * 2 ^ 52
    else sign + 2047 * 2 ^ 52 + Z.lor (2 ^ 51) (m * 2 ^ 29)
  else if e =? 0 then
    if m =? 0 then sign
    else let k := Z.log2 m in
         sign + (874 + k) * 2 ^ 52 + (m - 2 ^ k) * 2 ^ (52 - k)
  else sign + (e + 896) * 2 ^ 52 + m * 2 ^ 29.

(** [double] to [float]: rounded to nearest even, overflow to infinity. *)
Definition double_to_float (x : Z) : Z :=
  let s := x / 2 ^ 63 in
  let e := x / 2 ^ 52 mod 2 ^ 11 in
  let m := x mod 2 ^ 52 in
  let sign := s * 2 ^ 31 in
  if e =? 2047 then
    if m =? 0 then sign + 255 * 2 ^ 23
    else sign + 255 * 2 ^ 23 + Z.lor (2 ^ 22) (m / 2 ^ 29)
  else
    let e32 := e - 896 in
    if e32 <=? 0 then
      (* subnormal or zero; a result of 2^23 is the smallest normal *)
      if e32 <? -24 then sign
      else sign + shr_rne (2 ^ 52 + m) (30 - e32)
    else
      let r := (e32 - 1) * 2 ^ 23 + shr_rne (2 ^ 52 + m) 29 in
      if 255 * 2 ^ 23 <=? r then sign + 255 * 2 ^ 23 else sign + r.

Section Conversions.
Context {M : MySQL}.

(** ** BIT *)

(** The value of a BIT column of [bytes_in_rec] bytes and [bit_len] bits that
    the record keeps with its null bits. *)
Definition bit_cnvt_mysql_cantian (f : Field) (ptr : list Z) : Z :=
  let n := f_bytes_in_rec f in
  let bits := if f_bit_len f =? 0 then 0
              else wrapU 64 (Z.shiftl (f_rec_bits f) (n * 8)) in
  if n =? 0 then bits
  else if n =? 1 then Z.lor bits (le_val (take 1 ptr))
  else if n <=? 7 then Z.lor bits (mi_uintkorr (take (Z.to_nat n) ptr))
  else mi_uintkorr (take 8 (drop (Z.to_nat (n - 8)) ptr)).

(** The bytes stored at [mysql_ptr]. *)
Definition bit_cnvt_cantian_mysql (f : Field) (cptr : list Z) : list Z :=
  let n := f_bytes_in_rec f in
  let bits := if f_bit_len f =? 0 then 0
              else wrapU 64 (Z.shiftl (f_rec_bits f) (n * 8)) in
  let v := Z.lor bits (mi_uintkorr (take (Z.to_nat n) cptr)) in
  if n =? 0 then []
  else if n =? 1 then le_bytes 1 (Z.lor bits (le_val (take 1 cptr)))
  else if n =? 2 then le_bytes 2 v
  else if n =? 3 then le_bytes 4 v
  else if n =? 4 then le_bytes 4 v
  else if n <=? 7 then le_bytes 8 v
  else le_bytes 8 (mi_uintkorr (take 8 (drop (Z.to_nat (n - 8)) cptr))).

(** ** DECIMAL *)

(** The memory image of a [dec4_t]: sign bit, [ncells] in the other seven,
    exponent, then the cells in use. *)
Definition dec4_bytes (d : dec4_t) : list Z :=
  [(if d_sign d then 1 else 0) + 2 * wrapU 7 (d_ncells d); wrapU 8 (d_expn d)]
  ++ concat (map (le_bytes 2) (d_cells d)).

Fixpoint read_cells (n : nat) (l : list Z) : list Z :=
  match n with O => [] | S n => le_val (take 2 l) :: read_cells n (drop 2 l) end.

Definition dec4_of_bytes (l : list Z) : option dec4_t :=
  match l with
  | h :: e :: cells =>
    let n := Z.to_nat (h / 2) in
    if (length cells <? 2 * n)%nat then None
    else Some (mk_dec4 (Z.odd h) (wrapS 8 e) (read_cells n cells))
  | _ => None
  end.

(** The status of [binary2my_decimal], the bytes and the length in bytes. *)
Definition decimal_mysql_to_cantian (ptr : list Z) (prec scale len : Z)
  : option (Z * list Z * Z) :=
  let '(ret, d) := binary2my_decimal ptr prec scale in
  if negb (ret =? E_DEC_OK) then Some (ret, [], len) else
  d4 ← convert_mydec_to_dec4 d;
  Some (ret, dec4_bytes d4, cm_dec4_stor_sz d4).

Definition decimal_cantian_to_mysql (cptr : list Z) (f : Field) : option (list Z) :=
  d4 ← dec4_of_bytes cptr;
  mydec ← convert_dec4_to_mydec d4;
  let '(ret, bs) := my_decimal2binary mydec (f_precision f) (f_decimals f) in
  if ret =? E_DEC_OK then Some bs else None.

(** ** Dispatch *)

(** The status, the bytes stored and the length for the row. *)
Definition convert_numeric_to_cantian (t : enum_field_types) (f : Field)
    (ptr : list Z) (len : Z) : option (Z * list Z * Z) :=
  let u := f_unsigned f in
  match t with
  | MYSQL_TYPE_TINY => Some (0, convert_numeric_datatype 4 1 u ptr, len)
  | MYSQL_TYPE_SHORT => Some (0, convert_numeric_datatype 4 2 u ptr, len)
  | MYSQL_TYPE_INT24 =>
    Some (0, (if u then le_bytes 4 (uint3korr (take 3 ptr))
              else le_bytes 4 (sint3korr (take 3 ptr))), len)
  | MYSQL_TYPE_LONG => Some (0, convert_numeric_datatype 4 4 u ptr, len)
  | MYSQL_TYPE_FLOAT => Some (0, le_bytes 8 (float_to_double (le_val (take 4 ptr))), len)
  | MYSQL_TYPE_DOUBLE => Some (0, take 8 ptr, len)
  | MYSQL_TYPE_BIT => Some (0, le_bytes 8 (bit_cnvt_mysql_cantian f ptr), len)
  | MYSQL_TYPE_LONGLONG => Some (0, convert_numeric_datatype 8 8 u ptr, len)
  | MYSQL_TYPE_NEWDECIMAL =>
    decimal_mysql_to_cantian ptr (f_precision f) (f_decimals f) len
  | _ => None
  end.

(** The bytes stored in the server's record. *)
Definition convert_numeric_to_mysql (t : enum_field_types) (f : Field) (cptr : list Z)
  : option (list Z) :=
  let u := f_unsigned f in
  match t with
  | MYSQL_TYPE_TINY => Some (convert_numeric_datatype 1 4 u cptr)
  | MYSQL_TYPE_SHORT => Some (convert_numeric_datatype 2 4 u cptr)
  | MYSQL_TYPE_INT24 => Some (take 3 cptr)
  | MYSQL_TYPE_LONG => Some (convert_numeric_datatype 4 4 u cptr)
  | MYSQL_TYPE_FLOAT => Some (le_bytes 4 (double_to_float (le_val (take 8 cptr))))
  | MYSQL_TYPE_DOUBLE => Some (take 8 cptr)
  | MYSQL_TYPE_BIT => Some (bit_cnvt_cantian_mysql f cptr)
  | MYSQL_TYPE_LONGLONG => Some (convert_numeric_datatype 8 8 u cptr)
  | MYSQL_TYPE_NEWDECIMAL => decimal_cantian_to_mysql cptr f
  | _ => None
  end.

End Conversions.

(** ** Integers keep their value *)

Lemma pow256 n : 256 ^ Z.of_nat n = 2 ^ (8 * Z.of_nat n).
Proof. by rewrite Z.pow_mul_r by lia. Qed.

Lemma le_val_le_bytes_app n z rest :
  le_val (take n (le_bytes n z ++ rest)) = wrapU (8 * Z.of_nat n) z.
Proof.
  rewrite take_app_le by (rewrite length_le_bytes; lia).
  rewrite take_ge by (rewrite length_le_bytes; lia).
  rewrite le_val_le_bytes, pow256. done.
Qed.

Lemma le_val_take n l :
  length l = n -> Forall byte l -> 0 <= le_val (take n l) < 2 ^ (8 * Z.of_nat n).
Proof.
  intros Hl Hb. rewrite take_ge by lia. rewrite <- pow256, <- Hl. by apply le_val_range.
Qed.

Lemma le_bytes_wrapU n z : le_bytes n (wrapU (8 * Z.of_nat n) z) = le_bytes n z.
Proof. unfold wrapU. rewrite <- pow256. by apply le_bytes_mod. Qed.

Lemma le_bytes_wrapS n z :
  (1 <= n)%nat -> le_bytes n (wrapS (8 * Z.of_nat n) z) = le_bytes n z.
Proof.
  intros Hn. rewrite <- le_bytes_wrapU, wrapU_wrapS by lia. apply le_bytes_wrapU.
Qed.

(** The integer that [n] bytes denote. *)
Definition int_value (u : bool) (n : nat) (l : list Z) : Z :=
  if u then le_val (take n l) else wrapS (8 * Z.of_nat n) (le_val (take n l)).

Lemma int_value_range (u : bool) n l :
  (1 <= n)%nat -> length l = n -> Forall byte l ->
  (if u then 0 <= int_value u n l < 2 ^ (8 * Z.of_nat n)
  else - 2 ^ (8 * Z.of_nat n - 1) <= int_value u n l < 2 ^ (8 * Z.of_nat n - 1) : Prop).
Proof.
  intros Hn Hl Hb. destruct u; simpl; [by apply le_val_take|].
  apply wrapS_range. lia.
Qed.

(** Widening keeps the value. *)
Lemma widen_value u n m l rest :
  (1 <= n <= m)%nat -> length l = n -> Forall byte l ->
  int_value u m (convert_numeric_datatype m n u l ++ rest) = int_value u n l.
Proof.
  intros Hn Hl Hb. pose proof (int_value_range u n l ltac:(lia) Hl Hb) as Hr.
  assert (2 ^ (8 * Z.of_nat n) <= 2 ^ (8 * Z.of_nat m)) by (apply Z.pow_le_mono_r; lia).
  assert (2 ^ (8 * Z.of_nat n - 1) <= 2 ^ (8 * Z.of_nat m - 1)) by (apply Z.pow_le_mono_r; lia).
  unfold convert_numeric_datatype. destruct u; cbn [int_value] in *.
  - rewrite le_val_le_bytes_app.
    assert (wrapU (8 * Z.of_nat m) (le_val (take n l)) = le_val (take n l)) as Hw
      by (apply wrapU_small; lia). by rewrite !Hw.
  - rewrite le_val_le_bytes_app, wrapS_wrapU by lia.
    set (v := wrapS (8 * Z.of_nat n) _) in *.
    assert (wrapS (8 * Z.of_nat m) v = v) as Hw by (apply wrapS_small; lia).
    by rewrite !Hw.
Qed.

(** Narrowing what was widened gives the bytes back. *)
Lemma narrow_widen u n m l rest :
  (1 <= n <= m)%nat -> length l = n -> Forall byte l ->
  convert_numeric_datatype n m u (convert_numeric_datatype m n u l ++ rest) = l.
Proof.
  intros Hn Hl Hb. pose proof (widen_value u n m l rest Hn Hl Hb) as Hv.
  assert (le_bytes n (le_val l) = l) as Hl' by (rewrite <- Hl; by apply le_bytes_le_val).
  unfold convert_numeric_datatype at 1. unfold int_value in Hv. destruct u.
  - rewrite Hv, le_bytes_wrapU, take_ge by lia. done.
  - rewrite Hv, !le_bytes_wrapS, take_ge by lia. done.
Qed.

Lemma length_convert m n u l : length (convert_numeric_datatype m n u l) = m.
Proof. unfold convert_numeric_datatype. destruct u; apply length_le_bytes. Qed.

(** ** FLOAT is stored exactly *)

Lemma shr_rne_exact q s : 1 <= s -> shr_rne (q * 2 ^ s) s = q.
Proof.
  intros Hs. unfold shr_rne. rewrite Z.mod_mul, Z.div_mul by lia.
  assert (0 < 2 ^ (s - 1)) by lia. by rewrite (proj2 (Z.ltb_lt 0 _)).
Qed.

(** The three fields of a [double] put together from its parts. *)
Lemma double_fields s e m :
  0 <= s <= 1 -> 0 <= e < 2048 -> 0 <= m < 2 ^ 52 ->
  let x := s * 2 ^ 63 + e * 2 ^ 52 + m in
  x / 2 ^ 63 = s /\ x / 2 ^ 52 mod 2 ^ 11 = e /\ x mod 2 ^ 52 = m.
Proof. intros. subst x. repeat split; dlia. Qed.

Definition float_is_nan (x : Z) : bool :=
  (x / 2 ^ 23 mod 2 ^ 8 =? 255) && negb (x mod 2 ^ 23 =? 0).

Lemma float_double_float x :
  0 <= x < 2 ^ 32 -> float_is_nan x = false ->
  double_to_float (float_to_double x) = x /\ 0 <= float_to_double x < 2 ^ 64.
Proof.
  intros Hx Hn. unfold float_is_nan in Hn. unfold float_to_double.
  set (s := x / 2 ^ 31). set (e := x / 2 ^ 23 mod 2 ^ 8) in *. set (m := x mod 2 ^ 23) in *.
  assert (0 <= s <= 1 /\ 0 <= e <= 255 /\ 0 <= m < 2 ^ 23 /\ x = s * 2 ^ 31 + e * 2 ^ 23 + m)
    as (Hs & He & Hm & Hxe) by (subst s e m; clear Hn; repeat split; dlia).
  clearbody s e m.
  assert (forall e' m', 0 <= e' < 2048 -> 0 <= m' < 2 ^ 52 ->
    0 <= s * 2 ^ 63 + e' * 2 ^ 52 + m' < 2 ^ 64) as Hr by lia.
  assert (forall e' m', 0 <= e' < 2048 -> 0 <= m' < 2 ^ 52 ->
    double_to_float (s * 2 ^ 63 + e' * 2 ^ 52 + m') =
      let sign := s * 2 ^ 31 in
      if e' =? 2047 then
        if m' =? 0 then sign + 255 * 2 ^ 23
        else sign + 255 * 2 ^ 23 + Z.lor (2 ^ 22) (m' / 2 ^ 29)
      else let e32 := e' - 896 in
        if e32 <=? 0 then if e32 <? -24 then sign else sign + shr_rne (2 ^ 52 + m') (30 - e32)
        else let r := (e32 - 1) * 2 ^ 23 + shr_rne (2 ^ 52 + m') 29 in
             if 255 * 2 ^ 23 <=? r then sign + 255 * 2 ^ 23 else sign + r) as Hd.
  { intros e' m' He' Hm'. unfold double_to_float.
    destruct (double_fields s e' m' Hs He' Hm') as (-> & -> & ->). done. }
  destruct (e =? 255) eqn:E1; zb.
  { destruct (m =? 0) eqn:E2; zb; [|done].
    replace (s * 2 ^ 63 + 2047 * 2 ^ 52) with (s * 2 ^ 63 + 2047 * 2 ^ 52 + 0) by lia.
    rewrite Hd by lia. simpl Z.eqb. cbv zeta iota. split; [lia|apply Hr; lia]. }
  destruct (e =? 0) eqn:E2; zb.
  - destruct (m =? 0) eqn:E3; zb.
    + replace (s * 2 ^ 63) with (s * 2 ^ 63 + 0 * 2 ^ 52 + 0) by lia.
      rewrite Hd by lia. simpl. split; [lia|apply Hr; lia].
    + pose proof (Z.log2_spec m ltac:(lia)) as Hk.
      pose proof (Z.log2_nonneg m) as Hk0. set (k := Z.log2 m) in *.
      assert (k < 23) as Hk23.
      { destruct (decide (k < 23)); [done|].
        assert (2 ^ 23 <= 2 ^ k) by (apply Z.pow_le_mono_r; lia). lia. }
      assert (2 ^ k * 2 ^ (52 - k) = 2 ^ 52) as Hp
        by (rewrite <- Z.pow_add_r by lia; f_equal; lia).
      rewrite Z.pow_succ_r in Hk by lia.
      assert (0 <= (m - 2 ^ k) * 2 ^ (52 - k) < 2 ^ 52) as Hm52 by nia.
      rewrite Hd by lia. split; [|apply Hr; lia]. cbv zeta.
      rewrite (proj2 (Z.eqb_neq (874 + k) 2047)) by lia.
      rewrite (proj2 (Z.leb_le _ _)), (proj2 (Z.ltb_ge _ _)) by lia.
      replace (2 ^ 52 + (m - 2 ^ k) * 2 ^ (52 - k)) with (m * 2 ^ (52 - k)) by lia.
      replace (30 - (874 + k - 896)) with (52 - k) by lia.
      rewrite shr_rne_exact by lia. lia.
  - rewrite Hd by lia. split; [|apply Hr; lia]. cbv zeta.
    rewrite (proj2 (Z.eqb_neq (e + 896) 2047)) by lia.
    rewrite (proj2 (Z.leb_gt _ _)) by lia.
    replace (2 ^ 52 + m * 2 ^ 29) with ((2 ^ 23 + m) * 2 ^ 29) by lia.
    rewrite shr_rne_exact by lia. rewrite (proj2 (Z.leb_gt _ _)) by lia. lia.
Qed.

(** ** The memory image of a decimal *)

Lemma read_cells_concat cells rest :
  Forall (fun c => 0 <= c < 65536) cells ->
  read_cells (length cells) (concat (map (le_bytes 2) cells) ++ rest) = cells.
Proof.
  induction 1 as [|c cells Hc Hcs IH]; [done|]. cbn [length read_cells map concat].
  rewrite <- app_assoc. f_equal.
  - rewrite le_val_le_bytes_app. apply wrapU_small. done.
  - rewrite drop_app_length' by (by rewrite length_le_bytes). done.
Qed.

Lemma length_cells cells :
  length (concat (map (le_bytes 2) cells)) = (2 * length cells)%nat.
Proof.
  induction cells as [|c cells IH]; [done|]. cbn [map concat length].
  rewrite length_app, IH, length_le_bytes. lia.
Qed.

Lemma dec4_image d rest :
  Forall (fun c => 0 <= c < 65536) (d_cells d) -> d_ncells d < 128 ->
  -128 <= d_expn d <= 127 ->
  dec4_of_bytes (dec4_bytes d ++ rest) = Some d.
Proof.
  intros Hc Hn He. unfold dec4_bytes. cbn [app dec4_of_bytes].
  rewrite (wrapU_small 7) by (unfold d_ncells in *; lia).
  set (h := _ + 2 * d_ncells d).
  assert (h / 2 = d_ncells d) as -> by (subst h; destruct (d_sign d); dlia).
  assert (Z.odd h = d_sign d) as ->.
  { subst h. rewrite Z.odd_add_mul_2. by destruct (d_sign d). }
  unfold d_ncells. rewrite Nat2Z.id.
  assert ((length (concat (map (le_bytes 2) (d_cells d)) ++ rest)
    <? 2 * length (d_cells d))%nat = false) as ->.
  { apply Nat.ltb_ge. rewrite length_app, length_cells. lia. }
  rewrite read_cells_concat by done. rewrite wrapS_wrapU, wrapS_small by lia.
  by destruct d.
Qed.

Lemma length_dec4_bytes d : Z.of_nat (length (dec4_bytes d)) = cm_dec4_stor_sz d.
Proof.
  unfold dec4_bytes, cm_dec4_stor_sz, d_ncells.
  rewrite length_app, length_cells. simpl length. lia.
Qed.

(** ** Column round trips *)

Lemma le_bytes_pad k l :
  Forall byte l -> (length l <= k)%nat ->
  le_bytes k (le_val l) = l ++ replicate (k - length l) 0.
Proof.
  intros Hb Hk. revert k Hk. induction Hb as [|b l Hb Hl IH]; intros k Hk; cbn [length] in *.
  - cbn [le_val app]. rewrite Nat.sub_0_r. clear Hk. induction k as [|k IHk]; [done|].
    cbn [le_bytes replicate]. rewrite Zmod_0_l, Zdiv_0_l. by rewrite IHk.
  - destruct k as [|k]; [lia|]. cbn [le_val le_bytes app]. unfold byte in Hb. f_equal.
    + rewrite (Z.mul_comm 256), Z.mod_add, Z.mod_small by lia. done.
    + rewrite (Z.mul_comm 256), Z.div_add, Z.div_small, Z.add_0_l by lia. apply IH. lia.
Qed.

Lemma take_le_bytes n k z : (n <= k)%nat -> take n (le_bytes k z) = le_bytes n z.
Proof.
  revert k z. induction n as [|n IH]; intros [|k] z Hk; try lia; try done.
  cbn [le_bytes take]. f_equal. apply IH. lia.
Qed.

(** The width of the value in the server's record and in the Cantian row. *)
Definition mysql_width (t : enum_field_types) (f : Field) : nat :=
  match t with
  | MYSQL_TYPE_TINY => 1 | MYSQL_TYPE_SHORT => 2 | MYSQL_TYPE_INT24 => 3
  | MYSQL_TYPE_LONG | MYSQL_TYPE_FLOAT => 4 | MYSQL_TYPE_DOUBLE | MYSQL_TYPE_LONGLONG => 8
  | MYSQL_TYPE_BIT => Z.to_nat (f_bytes_in_rec f)
  | _ => 0
  end.

Definition cantian_width (t : enum_field_types) : nat :=
  match t with
  | MYSQL_TYPE_TINY | MYSQL_TYPE_SHORT | MYSQL_TYPE_INT24 | MYSQL_TYPE_LONG => 4
  | _ => 8
  end.

(** Bytes that [bit_cnvt_cantian_mysql] stores past the end of the column. *)
Definition bit_store_len (n : Z) : Z :=
  if n <=? 2 then n else if n <=? 4 then 4 else 8.

Definition bit_overrun (t : enum_field_types) (f : Field) : nat :=
  if bool_decide (t = MYSQL_TYPE_BIT)
  then Z.to_nat (bit_store_len (f_bytes_in_rec f) - f_bytes_in_rec f) else 0.

Definition fixed_numeric (t : enum_field_types) (f : Field) : bool :=
  match t with
  | MYSQL_TYPE_TINY | MYSQL_TYPE_SHORT | MYSQL_TYPE_INT24 | MYSQL_TYPE_LONG
  | MYSQL_TYPE_FLOAT | MYSQL_TYPE_DOUBLE | MYSQL_TYPE_LONGLONG => true
  | MYSQL_TYPE_BIT => (f_bit_len f =? 0) && (1 <=? f_bytes_in_rec f) && (f_bytes_in_rec f <=? 8)
  | _ => false
  end.

Section RoundTrip.
Context {M : MySQL} {BO : ByteOrder M}.

Lemma bit_round_trip f ptr rest :
  f_bit_len f = 0 -> 1 <= f_bytes_in_rec f <= 8 ->
  Z.of_nat (length ptr) = f_bytes_in_rec f -> Forall byte ptr ->
  bit_cnvt_cantian_mysql f (le_bytes 8 (bit_cnvt_mysql_cantian f ptr) ++ rest)
  = ptr ++ replicate (bit_overrun MYSQL_TYPE_BIT f) 0.
Proof.
  intros Hbl Hn Hlen Hb.
  assert (forall k, (2 <= length ptr <= 8)%nat -> (length ptr <= k)%nat ->
    le_bytes k (mi_uintkorr (take (length ptr) (le_bytes 8 (mi_uintkorr ptr) ++ rest)))
    = ptr ++ replicate (k - length ptr) 0) as Hkey.
  { intros k Hk Hkk.
    assert (length (le_bytes 8 (mi_uintkorr ptr)) = 8%nat) as H8 by apply length_le_bytes.
    rewrite (mi_uintkorr_spec (take _ _))
      by (rewrite length_take, length_app, H8; lia).
    rewrite take_app_le by lia. rewrite take_le_bytes by lia.
    rewrite mi_uintkorr_spec by lia. unfold be_val.
    rewrite <- (length_rev ptr) at 1. rewrite le_bytes_le_val by (by apply Forall_rev).
    rewrite rev_involutive. apply le_bytes_pad; [done|lia]. }
  assert (bit_overrun MYSQL_TYPE_BIT f
    = Z.to_nat (bit_store_len (f_bytes_in_rec f)) - length ptr)%nat as ->
    by (unfold bit_overrun; simpl; lia).
  unfold bit_cnvt_cantian_mysql, bit_cnvt_mysql_cantian.
  rewrite Hbl. cbn [Z.eqb]. rewrite !Z.lor_0_l. cbv zeta.
  rewrite <- Hlen, !Nat2Z.id, (take_ge ptr (length ptr)) by lia.
  rewrite <- Hlen in Hn. rewrite (proj2 (Z.eqb_neq _ 0)) by lia.
  destruct (Z.of_nat (length ptr) =? 1) eqn:E1; zb.
  { rewrite (take_ge ptr) by lia.
    rewrite take_app_le by (rewrite length_le_bytes; lia).
    rewrite take_le_bytes, le_val_le_bytes by lia.
    assert (length ptr = 1%nat) as H1 by lia. rewrite H1.
    pose proof (le_val_range ptr Hb) as Hr. rewrite H1 in Hr.
    rewrite Z.mod_small by lia. rewrite <- H1 at 1.
    rewrite le_bytes_pad by (done || lia). by rewrite H1. }
  unfold bit_store_len.
  destruct (Z.of_nat (length ptr) =? 2) eqn:E2; zb.
  { rewrite (proj2 (Z.leb_le _ 7)), (proj2 (Z.leb_le _ 2)) by lia.
    rewrite Hkey by lia. do 2 f_equal. lia. }
  rewrite (proj2 (Z.leb_gt _ 2)) by lia.
  destruct (Z.of_nat (length ptr) =? 3) eqn:E3; zb.
  { rewrite (proj2 (Z.leb_le _ 7)), (proj2 (Z.leb_le _ 4)) by lia. apply Hkey; lia. }
  destruct (Z.of_nat (length ptr) =? 4) eqn:E4; zb.
  { rewrite (proj2 (Z.leb_le _ 7)), (proj2 (Z.leb_le _ 4)) by lia. apply Hkey; lia. }
  rewrite (proj2 (Z.leb_gt _ 4)) by lia.
  destruct (Z.of_nat (length ptr) <=? 7) eqn:E7; zb; [apply Hkey; lia|].
  assert (length ptr = 8%nat) as H8 by lia.
  replace (Z.to_nat (Z.of_nat (length ptr) - 8)) with 0%nat by lia.
  rewrite !drop_0, (take_ge ptr 8) by lia.
  replace (take 8 (le_bytes 8 (mi_uintkorr ptr) ++ rest))
    with (take (length ptr) (le_bytes 8 (mi_uintkorr ptr) ++ rest)) by (by rewrite H8).
  apply Hkey; lia.
Qed.

Lemma sint3_bytes l :
  length l = 3%nat -> Forall byte l -> forall rest,
  take 3 (le_bytes 4 (wrapS 24 (le_val l)) ++ rest) = l.
Proof.
  intros Hl Hb rest. rewrite take_app_le by (rewrite length_le_bytes; lia).
  rewrite take_le_bytes by lia. change 24 with (8 * Z.of_nat 3).
  rewrite le_bytes_wrapS by lia. rewrite <- Hl. by apply le_bytes_le_val.
Qed.

Lemma uint3_bytes l :
  length l = 3%nat -> Forall byte l -> forall rest,
  take 3 (le_bytes 4 (le_val l) ++ rest) = l.
Proof.
  intros Hl Hb rest. rewrite take_app_le by (rewrite length_le_bytes; lia).
  rewrite take_le_bytes by lia. rewrite <- Hl at 1. by apply le_bytes_le_val.
Qed.

(** What a fixed-width conversion stores, and what reading it back gives. *)
Lemma numeric_codec t f ptr len :
  fixed_numeric t f = true -> length ptr = mysql_width t f -> Forall byte ptr ->
  (t = MYSQL_TYPE_FLOAT -> float_is_nan (le_val ptr) = false) ->
  exists cb, convert_numeric_to_cantian t f ptr len = Some (0, cb, len) /\
    length cb = cantian_width t /\ Forall byte cb /\
    forall rest, convert_numeric_to_mysql t f (cb ++ rest)
      = Some (ptr ++ replicate (bit_overrun t f) 0).
Proof.
  intros Hfix Hlen Hb Hnan.
  assert (forall m n u, Forall byte (convert_numeric_datatype m n u ptr)) as Hcb
    by (intros; unfold convert_numeric_datatype; case_match; apply le_bytes_byte).
  destruct t; try done; cbn [mysql_width] in Hlen; cbn [convert_numeric_to_cantian
    convert_numeric_to_mysql cantian_width bit_overrun]; try (
    eexists; split; [reflexivity|]; split; [apply length_convert|]; split; [apply Hcb|];
    intros rest; rewrite narrow_widen by (done || lia); by rewrite app_nil_r).
  - (* FLOAT *)
    specialize (Hnan eq_refl). pose proof (le_val_range ptr Hb) as Hr. rewrite Hlen in Hr.
    change (256 ^ Z.of_nat 4) with (2 ^ 32) in Hr.
    destruct (float_double_float _ Hr Hnan) as [Hfd Hr64].
    eexists. split; [reflexivity|]. split; [apply length_le_bytes|].
    split; [apply le_bytes_byte|]. intros rest.
    rewrite (take_ge ptr) by lia. rewrite le_val_le_bytes_app, wrapU_small by done.
    rewrite Hfd, app_nil_r. rewrite <- Hlen at 1. by rewrite le_bytes_le_val.
  - (* DOUBLE *)
    eexists. split; [reflexivity|]. rewrite (take_ge ptr) by lia.
    split; [done|]. split; [done|]. intros rest.
    rewrite take_app_le, take_ge by lia. by rewrite app_nil_r.
  - (* INT24 *)
    rewrite (take_ge ptr) by lia.
    destruct (f_unsigned f); (eexists; split; [reflexivity|];
      split; [apply length_le_bytes|]; split; [apply le_bytes_byte|]; intros rest).
    + rewrite uint3korr_spec, uint3_bytes, app_nil_r by done. done.
    + rewrite sint3korr_spec, sint3_bytes, app_nil_r by done. done.
  - (* BIT *)
    cbn [fixed_numeric] in Hfix. zb.
    eexists. split; [reflexivity|]. split; [apply length_le_bytes|].
    split; [apply le_bytes_byte|]. intros rest.
    by rewrite bit_round_trip by (done || lia).
Qed.

(** A DECIMAL as the server stores it: bytes that [my_decimal2binary] wrote, no
    negative zero. *)
Definition stored_decimal (f : Field) (ptr : list Z) : Prop :=
  1 <= f_precision f <= 65 /\ 0 <= f_decimals f <= 30 /\ f_decimals f <= f_precision f /\
  fst (binary2my_decimal ptr (f_precision f) (f_decimals f)) = 0 /\
  (m_sign (snd (binary2my_decimal ptr (f_precision f) (f_decimals f))) = true ->
   exists x, my_digit (snd (binary2my_decimal ptr (f_precision f) (f_decimals f))) x <> 0) /\
  exists d, my_decimal2binary d (f_precision f) (f_decimals f) = (0, ptr).

Lemma decimal_codec {DC : DecimalCodec M} f ptr len :
  stored_decimal f ptr ->
  exists cb len', convert_numeric_to_cantian MYSQL_TYPE_NEWDECIMAL f ptr len = Some (0, cb, len') /\
    Z.of_nat (length cb) = len' /\ Forall byte cb /\
    2 <= len' <= (1 + (ceil_div (f_precision f - f_decimals f) 4 + ceil_div (f_decimals f) 4)) * 2 /\
    forall rest, convert_numeric_to_mysql MYSQL_TYPE_NEWDECIMAL f (cb ++ rest) = Some ptr.
Proof.
  intros (Hp & Hs & Hsp & Hok & Hnz & Hst).
  cbn [convert_numeric_to_cantian convert_numeric_to_mysql].
  unfold decimal_mysql_to_cantian, decimal_cantian_to_mysql.
  destruct (binary2my_decimal_ok ptr _ _ Hp Hs Hsp) as (Hwf & Hi & Hf); [|done|].
  { destruct Hst as [d Hd]. exists d. by rewrite Hd. }
  pose proof (my_decimal2binary_ext ptr (f_precision f) (f_decimals f)) as Hext.
  destruct (binary2my_decimal ptr _ _) as [ret d] eqn:Hb. cbn [fst snd] in *. subst ret.
  destruct (mydec_to_dec4_spec d Hwf) as (d4 & Hd4 & Hsg & Hg & Hn & _ & He & _ & Hdig).
  destruct (mydec_dec4_back d d4 Hwf Hd4) as (m' & Hm' & Hsg' & Hdig' & Hi' & Hf' & Hbl' & _ & Hgr').
  assert (0 <= m_intg d) by (by destruct Hwf).
  assert (ceil_div (m_intg d) 4 <= ceil_div (f_precision f - f_decimals f) 4)
    by (unfold ceil_div; dlia).
  simpl. rewrite Hd4. cbn [mbind option_bind].
  rewrite Hf in Hn, Hf'.
  assert (Forall (fun c => 0 <= c < 65536) (d_cells d4)) as Hc
    by (eapply Forall_impl; [|exact Hg]; simpl; intros; lia).
  assert (0 <= d_ncells d4 <= 17) as Hn17
    by (unfold d_ncells in *; unfold ceil_div in Hn; dlia).
  eexists _, _. split; [reflexivity|]. split; [apply length_dec4_bytes|]. split.
  { unfold dec4_bytes. apply Forall_app. split.
    - constructor; [|constructor; [apply (wrapU_range 8); lia|constructor]].
      rewrite wrapU_small by lia. unfold byte. destruct (d_sign d4); lia.
    - clear. induction (d_cells d4) as [|c l IH]; [constructor|].
      apply Forall_app. split; [apply le_bytes_byte|done]. }
  split; [unfold cm_dec4_stor_sz; lia|].
  intros rest. rewrite dec4_image by (done || lia). cbn [mbind option_bind].
  rewrite Hm'. cbn [mbind option_bind].
  rewrite (Hext m') by (done || lia || congruence). done.
Qed.

End RoundTrip.

(** ** Properties *)

(** Every fixed-width numeric column (integers of 1 to 8 bytes, signed or
    not, [FLOAT] other than NaN, [DOUBLE], [BIT] stored in bytes) is stored
    in exactly the 4 or 8 bytes of its storage class, and reading it back
    gives the original bytes.  For [BIT] columns of 3, 5, 6 and 7 bytes the
    store is wider than the column: it also writes zeros to the
    [bit_overrun] bytes after it. *)
Theorem numeric_round_trip (M : MySQL) (BO : ByteOrder M) (t : enum_field_types)
    (f : Field) (ptr : list Z) (len : Z)
    (Hfix : fixed_numeric t f = true) (Hlen : length ptr = mysql_width t f)
    (Hb : Forall byte ptr)
    (Hnan : t = MYSQL_TYPE_FLOAT -> float_is_nan (le_val ptr) = false) :
  exists cb, convert_numeric_to_cantian t f ptr len = Some (0, cb, len) /\
    length cb = cantian_width t /\ Forall byte cb /\
    forall rest, convert_numeric_to_mysql t f (cb ++ rest)
      = Some (ptr ++ replicate (bit_overrun t f) 0).
Proof. by apply numeric_codec. Qed.

(** A [BIT(24)] column: three bytes at offset 1. *)
Definition bit24_field : Field :=
  mk_field MYSQL_TYPE_BIT MYSQL_TYPE_BIT 1 3 3 0 true 0 2 false true 0 0
    false false false false 0 0 3 0 0.

Lemma numeric_round_trip_witness :
  bit_overrun MYSQL_TYPE_BIT bit24_field = 1%nat /\
  exists cb, convert_numeric_to_cantian MYSQL_TYPE_BIT bit24_field [1; 2; 3] 8
      = Some (0, cb, 8) /\
    length cb = cantian_width MYSQL_TYPE_BIT /\ Forall byte cb /\
    forall rest, convert_numeric_to_mysql MYSQL_TYPE_BIT bit24_field (cb ++ rest)
      = Some ([1; 2; 3] ++ replicate (bit_overrun MYSQL_TYPE_BIT bit24_field) 0).
Proof.
  split; [reflexivity|].
  apply (numeric_round_trip demo demo_byte_order MYSQL_TYPE_BIT bit24_field [1; 2; 3] 8).
  - reflexivity.
  - reflexivity.
  - repeat constructor; lia.
  - discriminate.
Defined.

(** The integer column types and the width of their values. *)
Definition int_width (t : enum_field_types) : option (nat * nat) :=
  match t with
  | MYSQL_TYPE_TINY => Some (1, 4)%nat | MYSQL_TYPE_SHORT => Some (2, 4)%nat
  | MYSQL_TYPE_INT24 => Some (3, 4)%nat | MYSQL_TYPE_LONG => Some (4, 4)%nat
  | MYSQL_TYPE_LONGLONG => Some (8, 8)%nat | _ => None
  end.

(** An integer column is stored with its value: the Cantian integer, read
    with the signedness of the column, is the server's integer, so the engine
    orders and compares index keys as the server does. *)
Theorem numeric_int_value (M : MySQL) (BO : ByteOrder M) (t : enum_field_types)
    (f : Field) (ptr : list Z) (len : Z) (n m : nat)
    (Ht : int_width t = Some (n, m)) (Hlen : length ptr = n) (Hb : Forall byte ptr) :
  exists cb, convert_numeric_to_cantian t f ptr len = Some (0, cb, len) /\
    int_value (f_unsigned f) m cb = int_value (f_unsigned f) n ptr.
Proof.
  destruct t; cbn [int_width] in Ht; try done; injection Ht as <- <-;
    cbn [convert_numeric_to_cantian]; try (
      eexists; split; [reflexivity|];
      rewrite <- (app_nil_r (convert_numeric_datatype _ _ _ _)); apply widen_value; done || lia).
  rewrite (take_ge ptr) by lia. pose proof (le_val_range ptr Hb) as Hr.
  rewrite Hlen in Hr. change (256 ^ Z.of_nat 3) with (2 ^ 24) in Hr.
  eexists. split; [reflexivity|]. unfold int_value. rewrite (take_ge ptr) by lia.
  destruct (f_unsigned f); (rewrite take_ge by (rewrite length_le_bytes; lia));
    rewrite le_val_le_bytes; change (256 ^ Z.of_nat 4) with (2 ^ 32).
  - rewrite uint3korr_spec by done. apply Z.mod_small. lia.
  - rewrite sint3korr_spec by done.
    change (8 * Z.of_nat 4) with 32. change (8 * Z.of_nat 3) with 24.
    change (?x mod 2 ^ 32) with (wrapU 32 x). rewrite wrapS_wrapU by lia.
    pose proof (wrapS_range 24 (le_val ptr) ltac:(lia)).
    apply wrapS_small; lia.
Qed.

Definition tinyint_field : Field :=
  mk_field MYSQL_TYPE_TINY MYSQL_TYPE_TINY 1 1 1 0 true 0 2 false false 0 0
    false false false false 0 0 0 0 0.

Lemma numeric_int_value_witness :
  int_value false 1 [200] = -56 /\
  exists cb, convert_numeric_to_cantian MYSQL_TYPE_TINY tinyint_field [200] 4 = Some (0, cb, 4) /\
    int_value (f_unsigned tinyint_field) 4 cb = int_value (f_unsigned tinyint_field) 1 [200].
Proof.
  split; [reflexivity|].
  apply (numeric_int_value demo demo_byte_order MYSQL_TYPE_TINY tinyint_field [200] 4 1 4).
  - reflexivity.
  - reflexivity.
  - repeat constructor; lia.
Defined.

(** A stored [DECIMAL(prec, scale)] column: the bytes written to the row
    are the [dec4_t] of the recorded length, within the reserved size, and
    reading them gives the server's bytes back. *)
Theorem decimal_column_round_trip (M : MySQL) (DC : DecimalCodec M) (f : Field)
    (ptr : list Z) (len : Z) (Hst : stored_decimal f ptr) :
  exists cb len', convert_numeric_to_cantian MYSQL_TYPE_NEWDECIMAL f ptr len = Some (0, cb, len') /\
    Z.of_nat (length cb) = len' /\ Forall byte cb /\
    2 <= len' <= (1 + (ceil_div (f_precision f - f_decimals f) 4 + ceil_div (f_decimals f) 4)) * 2 /\
    forall rest, convert_numeric_to_mysql MYSQL_TYPE_NEWDECIMAL f (cb ++ rest) = Some ptr.
Proof. by apply decimal_codec. Qed.

Definition decimal9_field : Field :=
  mk_field MYSQL_TYPE_NEWDECIMAL MYSQL_TYPE_NEWDECIMAL 1 5 5 0 true 0 2 false false 0 9
    false false false false 0 0 0 0 0.

Lemma decimal_column_round_trip_witness :
  exists cb len', convert_numeric_to_cantian MYSQL_TYPE_NEWDECIMAL decimal9_field
      (1 :: le_bytes 4 12345678) 0 = Some (0, cb, len') /\
    Z.of_nat (length cb) = len' /\ Forall byte cb /\
    2 <= len' <= (1 + (ceil_div (9 - 0) 4 + ceil_div 0 4)) * 2 /\
    forall rest, convert_numeric_to_mysql MYSQL_TYPE_NEWDECIMAL decimal9_field (cb ++ rest)
      = Some (1 :: le_bytes 4 12345678).
Proof.
  apply (decimal_column_round_trip demo demo_decimal_codec decimal9_field).
  unfold stored_decimal. cbn [f_precision f_decimals decimal9_field].
  split; [lia|]. split; [lia|]. split; [lia|]. split; [reflexivity|]. split.
  { intros _. exists 0. vm_compute. discriminate. }
  exists (mk_my true 9 0 [12345678]). vm_compute. reflexivity.
Defined.

End Numeric.
