(* ===== verification/DateCnvrt.v ===== *)
(** * DateCnvrt: temporal columns

    Models the temporal conversions of [datatype_cnvrtr.cc].  [DATE] is copied,
    [TIME] and [DATETIME] are widened to six fraction digits, [YEAR] and
    [TIMESTAMP] go through the date codec of [CalDate.v]. *)

From S2P Require Import Prelude CalDate DecDigits FieldTypes Server Demo.
Import CalDate FieldTypes Server Demo.

Module DateCnvrt.

Definition DATETIME_MAX_DECIMALS : Z := 6.
Definition CTC_BYTE_8 : Z := 8.

Definition zero_ltime : MYSQL_TIME := mk_mysql_time 0 0 0 0 0 0 0 false.

Section Conversions.
Context {M : MySQL}.

(** ** Decoding the server's values *)

Definition decode_mysql_year_type (ptr : list Z) : MYSQL_TIME :=
  let b := le_val (take 1 ptr) in
  let y := if b =? 0 then 0 else b + 1900 in
  mk_mysql_time y (if y =? 0 then 0 else 1) (if y =? 0 then 0 else 1) 0 0 0 0 false.

Definition set_date (y m d : Z) (t : MYSQL_TIME) : MYSQL_TIME :=
  mk_mysql_time y m d (t_hour t) (t_minute t) (t_second t) (t_second_part t) (t_neg t).

Definition decode_mysql_time_type (ptr : list Z) (f : Field) : MYSQL_TIME :=
  set_date 1900 1 1
    (TIME_from_longlong_time_packed (my_time_packed_from_binary ptr (f_decimals f))).

Definition decode_mysql_date_type (ltime : MYSQL_TIME) (ptr : list Z) : MYSQL_TIME :=
  let tmp := le_val (take 3 ptr) in
  set_date (Z.quot (Z.quot tmp 16) 32) (Z.rem (Z.quot tmp 32) 16) (Z.rem tmp 32) ltime.

Definition decode_mysql_datetime_type (ptr : list Z) (f : Field) : MYSQL_TIME :=
  TIME_from_longlong_datetime_packed (my_datetime_packed_from_binary ptr (f_decimals f)).

Definition decode_mysql_timestamp_type (ltime : MYSQL_TIME) (ptr : list Z) (f : Field)
  : MYSQL_TIME :=
  let tm := my_timestamp_from_binary ptr (f_decimals f) in
  if tm.1 =? 0 then ltime else gmt_sec_to_TIME tm.

Definition decode_mysql_datetime (ltime : MYSQL_TIME) (t : enum_field_types)
    (ptr : list Z) (f : Field) : option MYSQL_TIME :=
  match t with
  | MYSQL_TYPE_YEAR => Some (decode_mysql_year_type ptr)
  | MYSQL_TYPE_TIME => Some (decode_mysql_time_type ptr f)
  | MYSQL_TYPE_DATE => Some (decode_mysql_date_type ltime ptr)
  | MYSQL_TYPE_DATETIME => Some (decode_mysql_datetime_type ptr f)
  | MYSQL_TYPE_TIMESTAMP => Some (decode_mysql_timestamp_type ltime ptr f)
  | _ => None
  end.

(** ** To the row *)

(** [tmp_ptr[8] = {0}], the packed value stored into it, the first [len]
    bytes copied. *)
Definition tmp8 (bs : list Z) (len : Z) : option (list Z) :=
  if (8 <? Z.of_nat (length bs)) || (8 <? len) then None
  else Some (take (Z.to_nat len) (bs ++ replicate (8 - length bs) 0)).

Definition cnvrt_time_decimal (src : list Z) (src_dec des_dec len : Z)
  : option (list Z) :=
  let packed := my_time_packed_from_binary src src_dec in
  let ltime := set_date 1900 1 1 (TIME_from_longlong_time_packed packed) in
  tmp8 (my_time_packed_to_binary (TIME_to_longlong_time_packed ltime) des_dec) len.

Definition cnvrt_datetime_decimal (src : list Z) (src_dec des_dec len : Z)
  : option (list Z) :=
  let packed := my_datetime_packed_from_binary src src_dec in
  let ltime := TIME_from_longlong_datetime_packed packed in
  tmp8 (my_datetime_packed_to_binary (TIME_to_longlong_datetime_packed ltime) des_dec) len.

(** The status and the eight bytes of the row. *)
Definition convert_datetime_to_cantian (t : enum_field_types) (ptr : list Z) (f : Field)
  : option (Z * list Z) :=
  match t with
  | MYSQL_TYPE_TIME =>
    bs ← cnvrt_time_decimal ptr (f_decimals f) DATETIME_MAX_DECIMALS CTC_BYTE_8; Some (0, bs)
  | MYSQL_TYPE_DATETIME =>
    bs ← cnvrt_datetime_decimal ptr (f_decimals f) DATETIME_MAX_DECIMALS CTC_BYTE_8;
    Some (0, bs)
  | MYSQL_TYPE_DATE =>
    let bs := take (Z.to_nat (f_pack_length f)) ptr in
    if CTC_BYTE_8 <? f_pack_length f then None
    else Some (0, bs ++ replicate (8 - length bs) 0)
  | _ =>
    ltime ← decode_mysql_datetime zero_ltime t ptr f;
    date ← cm_encode_date
             (assign_mysql_date_detail (bool_decide (t = MYSQL_TYPE_TIME)) ltime);
    Some (0, le_bytes 8 date)
  end.

(** ** From the row *)

Definition MYSQL_TIME_WARN_TRUNCATED : Z := 1.
Definition MYSQL_TIME_WARN_OUT_OF_RANGE : Z := 2.
Definition MYSQL_TIME_WARN_INVALID_TIMESTAMP : Z := 4.

(** The error flag, the warnings and the value; an assertion may fail. *)
Definition ctc_datetime_with_no_zero_in_date_to_timeval (t : MYSQL_TIME) (warnings : Z)
  : option (bool * Z * (Z * Z)) :=
  if t_month t =? 0 then
    if negb (t_year t =? 0) || negb (t_day t =? 0) then None
    else if non_zero_time t
    then Some (true, Z.lor warnings MYSQL_TIME_WARN_TRUNCATED, (0, 0))
    else Some (false, warnings, (0, 0))
  else
    let '(tv_sec, gap) := TIME_to_gmt_sec t in
    if tv_sec =? 0
    then Some (true, Z.lor warnings MYSQL_TIME_WARN_OUT_OF_RANGE, (0, 0))
    else Some (false, (if gap then Z.lor warnings MYSQL_TIME_WARN_INVALID_TIMESTAMP
                       else warnings), (tv_sec, t_second_part t)).

Definition ctc_my_timestamp_to_binary (tm : Z * Z) (dec : Z) : option (list Z) :=
  if DATETIME_MAX_DECIMALS <? dec then None
  else if negb (Z.rem tm.2 (10 ^ (DATETIME_MAX_DECIMALS - dec)) =? 0) then None
  else Some (mi_intstore 4 tm.1 ++
    (if (dec =? 1) || (dec =? 2) then [wrapU 8 (Z.quot tm.2 10000)]
     else if (dec =? 3) || (dec =? 4) then mi_intstore 2 (Z.quot tm.2 100)
     else if (dec =? 5) || (dec =? 6) then mi_intstore 3 tm.2
     else [])).

Definition ltime_of_detail (d : date_detail) (usec : Z) : MYSQL_TIME :=
  mk_mysql_time (year d) (mon d) (day d) (hour d) (min d) (sec d) usec false.

(** The bytes stored in the server's record; [d0] is the stack value of the
    [date_detail] before decoding. *)
Definition convert_datetime_to_mysql (read_only_in_ct : bool) (d0 : date_detail)
    (t : enum_field_types) (cptr : list Z) (f : Field) : option (list Z) :=
  match t with
  | MYSQL_TYPE_DATE => Some (take (Z.to_nat (f_pack_length f)) cptr)
  | MYSQL_TYPE_TIME =>
    cnvrt_time_decimal (take 8 cptr) DATETIME_MAX_DECIMALS (f_decimals f) (f_pack_length f)
  | _ =>
    if bool_decide (t = MYSQL_TYPE_DATETIME) && negb read_only_in_ct then
      cnvrt_datetime_decimal (take 8 cptr) DATETIME_MAX_DECIMALS (f_decimals f)
        (f_pack_length f)
    else
      let date := wrapS 64 (le_val (take 8 cptr)) in
      d ← cm_decode_date date d0;
      match t with
      | MYSQL_TYPE_DATETIME =>
        let ll := TIME_to_longlong_datetime_packed (ltime_of_detail d 0) in
        let data := my_datetime_packed_to_binary ll (f_decimals f) in
        if (8 <? Z.of_nat (length data)) || (Z.of_nat (length data) <? f_pack_length f)
        then None else Some (take (Z.to_nat (f_pack_length f)) data)
      | MYSQL_TYPE_YEAR =>
        Some [if year d =? 0 then 0 else wrapU 8 (year d - 1900)]
      | MYSQL_TYPE_TIMESTAMP =>
        let ltime := ltime_of_detail d (millisec d * MICROSECS_PER_MILLISEC + microsec d) in
        '(_, warnings, tm) ← ctc_datetime_with_no_zero_in_date_to_timeval ltime 0;
        if negb (warnings =? 0) then None
        else ctc_my_timestamp_to_binary tm (f_decimals f)
      | _ => None
      end
  end.

End Conversions.

(** ** Round trips *)

(** The columns as the server stores them: type, fraction digits and bytes. *)
Definition stored_temporal {M : MySQL} (t : enum_field_types) (f : Field) (ptr : list Z) : Prop :=
  Forall byte ptr /\ Z.of_nat (length ptr) = f_pack_length f /\ 0 <= f_decimals f <= 6 /\
  match t with
  | MYSQL_TYPE_YEAR => f_pack_length f = 1
  | MYSQL_TYPE_DATE => f_pack_length f = 3
  | MYSQL_TYPE_TIME => exists v, time_value (f_decimals f) v /\
      ptr = my_time_packed_to_binary (TIME_to_longlong_time_packed v) (f_decimals f)
  | MYSQL_TYPE_DATETIME => exists v, datetime_value (f_decimals f) v /\
      ptr = my_datetime_packed_to_binary (TIME_to_longlong_datetime_packed v) (f_decimals f)
  | MYSQL_TYPE_TIMESTAMP =>
    f_pack_length f = 4 + frac_bytes (f_decimals f) /\
    let us := usec_of (f_decimals f) (be_val (drop 4 ptr)) in
    be_val (take 4 ptr) < 2 ^ 31 /\ us < 1000000 /\ us mod 10 ^ (6 - f_decimals f) = 0 /\
    (be_val (take 4 ptr) = 0 -> us = 0)
  | _ => False
  end.

Lemma frac_bytes_range dec : 0 <= dec <= 6 -> 0 <= frac_bytes dec <= 3.
Proof. unfold frac_bytes. intros. dlia. Qed.

Lemma tmp8_full bs : length bs = 8%nat -> tmp8 bs 8 = Some bs.
Proof.
  intros H. unfold tmp8. rewrite H. simpl. rewrite app_nil_r.
  by rewrite take_ge by (rewrite H; lia).
Qed.

Lemma tmp8_cut bs len :
  Z.of_nat (length bs) = len -> len <= 8 -> tmp8 bs len = Some bs.
Proof.
  intros H Hl. unfold tmp8. rewrite !(proj2 (Z.ltb_ge 8 _)) by lia. simpl.
  rewrite take_app_le, take_ge by lia. done.
Qed.

Lemma tmp8_wide bs : (length bs <= 8)%nat -> tmp8 bs 8 = Some (bs ++ replicate (8 - length bs) 0).
Proof.
  intros H. unfold tmp8. rewrite !(proj2 (Z.ltb_ge 8 _)) by lia. simpl.
  rewrite take_ge; [done|]. rewrite length_app, length_replicate. lia.
Qed.

Section RoundTrip.
Context {M : MySQL}.

Lemma time_value_wide dec t : time_value dec t -> time_value 6 t.
Proof. unfold time_value. change (10 ^ (6 - 6)) with 1. rewrite Z.mod_1_r. tauto. Qed.

Lemma datetime_value_wide dec t : datetime_value dec t -> datetime_value 6 t.
Proof. unfold datetime_value. change (10 ^ (6 - 6)) with 1. rewrite Z.mod_1_r. tauto. Qed.

(** Converting a stored [TIME] to another number of digits. *)
Lemma cnvrt_time_value {TC : TimeCodec M} v dec dec' pad len :
  0 <= dec <= 6 -> 0 <= dec' <= 6 -> time_value dec v ->
  let p := TIME_to_longlong_time_packed v in
  cnvrt_time_decimal (my_time_packed_to_binary p dec ++ pad) dec dec' len
  = tmp8 (my_time_packed_to_binary p dec') len.
Proof.
  intros Hd Hd' Hv p. subst p. unfold cnvrt_time_decimal.
  destruct (time_binary v dec pad Hd Hv) as (_ & _ & ->).
  pose proof (time_value_wide _ _ Hv) as Hw. unfold set_date.
  by rewrite time_packed, time_packed_date by (done || lia).
Qed.

Lemma cnvrt_datetime_value {DTC : DatetimeCodec M} v dec dec' pad len :
  0 <= dec <= 6 -> 0 <= dec' <= 6 -> datetime_value dec v ->
  let p := TIME_to_longlong_datetime_packed v in
  cnvrt_datetime_decimal (my_datetime_packed_to_binary p dec ++ pad) dec dec' len
  = tmp8 (my_datetime_packed_to_binary p dec') len.
Proof.
  intros Hd Hd' Hv p. subst p. unfold cnvrt_datetime_decimal.
  destruct (datetime_binary v dec pad Hd Hv) as (_ & _ & ->).
  pose proof (datetime_value_wide _ _ Hv) as Hw. by rewrite datetime_packed by done.
Qed.

Lemma time_column {TC : TimeCodec M} f ptr :
  stored_temporal MYSQL_TYPE_TIME f ptr ->
  exists cb, convert_datetime_to_cantian MYSQL_TYPE_TIME ptr f = Some (0, cb) /\
    length cb = 8%nat /\ Forall byte cb /\
    forall ro d0 rest, convert_datetime_to_mysql ro d0 MYSQL_TYPE_TIME (cb ++ rest) f = Some ptr.
Proof.
  intros (Hb & Hl & Hd & v & Hv & ->). pose proof (frac_bytes_range _ Hd).
  cbn [convert_datetime_to_cantian convert_datetime_to_mysql].
  unfold DATETIME_MAX_DECIMALS, CTC_BYTE_8. set (dec := f_decimals f) in *.
  pose proof (cnvrt_time_value v dec 6 [] 8 Hd ltac:(lia) Hv) as Hc.
  cbv zeta in Hc. rewrite app_nil_r in Hc. rewrite Hc.
  destruct (time_binary v 6 [] ltac:(lia) (time_value_wide _ _ Hv)) as (H6 & Hb6 & _).
  change (3 + frac_bytes 6) with 6 in H6.
  rewrite tmp8_wide by lia. cbn [mbind option_bind]. eexists. split; [done|].
  set (b6 := my_time_packed_to_binary _ 6) in *.
  assert (length b6 = 6%nat) as Hl6 by lia. rewrite Hl6.
  split; [rewrite length_app, Hl6; done|]. split.
  { apply Forall_app. split; [done|]. repeat constructor; lia. }
  intros _ _ rest. rewrite take_app_le by (rewrite length_app, Hl6; simpl; lia).
  rewrite take_ge by (rewrite length_app, Hl6; simpl; lia). unfold b6.
  rewrite cnvrt_time_value by (lia || by eapply time_value_wide).
  destruct (time_binary v dec [] Hd Hv) as (Hlen & _). apply tmp8_cut; lia.
Qed.

Lemma datetime_column {DTC : DatetimeCodec M} f ptr :
  stored_temporal MYSQL_TYPE_DATETIME f ptr ->
  exists cb, convert_datetime_to_cantian MYSQL_TYPE_DATETIME ptr f = Some (0, cb) /\
    length cb = 8%nat /\ Forall byte cb /\
    forall d0 rest, convert_datetime_to_mysql false d0 MYSQL_TYPE_DATETIME (cb ++ rest) f = Some ptr.
Proof.
  intros (Hb & Hl & Hd & v & Hv & ->). pose proof (frac_bytes_range _ Hd).
  cbn [convert_datetime_to_cantian convert_datetime_to_mysql].
  unfold DATETIME_MAX_DECIMALS, CTC_BYTE_8. set (dec := f_decimals f) in *.
  pose proof (cnvrt_datetime_value v dec 6 [] 8 Hd ltac:(lia) Hv) as Hc.
  cbv zeta in Hc. rewrite app_nil_r in Hc. rewrite Hc.
  destruct (datetime_binary v 6 [] ltac:(lia) (datetime_value_wide _ _ Hv)) as (H8 & Hb8 & _).
  change (5 + frac_bytes 6) with 8 in H8.
  rewrite tmp8_full by lia. cbn [mbind option_bind]. eexists. split; [done|].
  split; [lia|]. split; [done|]. intros d0 rest.
  change (bool_decide (MYSQL_TYPE_DATETIME = MYSQL_TYPE_DATETIME)) with true. cbn [andb negb].
  rewrite take_app_le, take_ge by lia.
  pose proof (cnvrt_datetime_value v 6 dec [] (f_pack_length f) ltac:(lia) Hd
    (datetime_value_wide _ _ Hv)) as Hc'. cbv zeta in Hc'. rewrite app_nil_r in Hc'. rewrite Hc'.
  destruct (datetime_binary v dec [] Hd Hv) as (Hlen & _). apply tmp8_cut; lia.
Qed.

Lemma date_column f ptr :
  stored_temporal MYSQL_TYPE_DATE f ptr ->
  exists cb, convert_datetime_to_cantian MYSQL_TYPE_DATE ptr f = Some (0, cb) /\
    length cb = 8%nat /\ Forall byte cb /\
    forall ro d0 rest, convert_datetime_to_mysql ro d0 MYSQL_TYPE_DATE (cb ++ rest) f = Some ptr.
Proof.
  intros (Hb & Hl & Hd & Hp). cbn [convert_datetime_to_cantian convert_datetime_to_mysql].
  rewrite Hp in *. cbn [Z.ltb]. change (CTC_BYTE_8 <? 3) with false. cbv iota.
  rewrite take_ge by lia. eexists. split; [done|].
  assert (length ptr = 3%nat) as H3 by lia. rewrite H3.
  split; [rewrite length_app, H3; done|]. split.
  { apply Forall_app. split; [done|]. repeat constructor; lia. }
  intros _ _ rest. rewrite <- app_assoc, take_app_le, take_ge by lia. done.
Qed.

(** The row value of a column that goes through the date codec. *)
Lemma encoded_date_bytes z rest :
  -63113904000000000 <= z < 252455616000000000 ->
  wrapS 64 (le_val (take 8 (le_bytes 8 z ++ rest))) = z.
Proof.
  intros Hz. rewrite take_app_le by (rewrite length_le_bytes; lia).
  rewrite take_ge by (rewrite length_le_bytes; lia). rewrite le_val_le_bytes.
  change (256 ^ Z.of_nat 8) with (2 ^ 64). change (z mod 2 ^ 64) with (wrapU 64 z).
  rewrite wrapS_wrapU by lia. apply wrapS_small; lia.
Qed.

(** Encoding a valid (or the zero) detail and decoding the stored bytes. *)
Lemma codec_through_row d z :
  fields_nonneg d -> check_datetime_vaild d = true -> cm_encode_date d = Some z ->
  forall d0 rest,
    cm_decode_date (wrapS 64 (le_val (take 8 (le_bytes 8 z ++ rest)))) d0
    = Some (with_extras d d0).
Proof.
  intros Hf Hv Hz d0 rest. rewrite encoded_date_bytes; [by apply decode_encode_valid|].
  unfold cm_encode_date in Hz. destruct (check_zero_date d) eqn:Hzero.
  - simplify_eq. unfold CM_ALL_ZERO_DATETIME. lia.
  - destruct (encode_asserts d); [|done]. simplify_eq.
    destruct Hf as (? & ? & ? & ? & ?).
    apply check_valid_spec in Hv; [|done..]. pose proof (encode_range d Hv). lia.
Qed.

Lemma year_column f ptr :
  stored_temporal MYSQL_TYPE_YEAR f ptr ->
  exists cb, convert_datetime_to_cantian MYSQL_TYPE_YEAR ptr f = Some (0, cb) /\
    length cb = 8%nat /\ Forall byte cb /\
    forall ro d0 rest, convert_datetime_to_mysql ro d0 MYSQL_TYPE_YEAR (cb ++ rest) f = Some ptr.
Proof.
  intros (Hb & Hl & _ & Hp). rewrite Hp in Hl.
  destruct ptr as [|b [|? ?]]; simpl in Hl; try lia.
  apply Forall_inv in Hb. unfold byte in Hb.
  set (d := assign_mysql_date_detail false (decode_mysql_year_type [b])).
  assert (fields_nonneg d) as Hf.
  { unfold fields_nonneg. simpl. repeat split; try (apply wrapU_range; lia); lia. }
  assert (check_datetime_vaild d = true /\ year d = (if b =? 0 then 0 else b + 1900)) as [Hv Hy].
  { subst d. unfold decode_mysql_year_type. simpl take. cbn [le_val].
    replace (b + 256 * 0) with b by lia.
    destruct (b =? 0) eqn:E; zb; [by subst|].
    assert ((b + 1900 =? 0) = false) as Hne by (apply Z.eqb_neq; lia).
    rewrite Hne. unfold assign_mysql_date_detail. cbn [t_year t_month t_day t_hour t_minute t_second
      t_second_part]. rewrite Hne, (wrapU_small 16) by lia.
    split; [|done]. apply check_valid_spec; try done.
    - unfold check_zero_date. cbn [year]. by rewrite Hne.
    - unfold valid, valid_date, valid_tod. cbn [year mon day hour min sec millisec microsec].
      change (wrapU 8 1) with 1. change (wrapU 8 0) with 0.
      pose proof (month_days_bounds (b + 1900) 1).
      change (wrapU 16 (Z.quot 0 MICROSECS_PER_MILLISEC)) with 0.
      change (wrapU 16 (Z.rem 0 MICROSECS_PER_MILLISEC)) with 0. lia. }
  destruct (valid_encodes d Hf Hv) as [z Hz].
  exists (le_bytes 8 z). split.
  { cbn [convert_datetime_to_cantian decode_mysql_datetime mbind option_bind].
    change (bool_decide (MYSQL_TYPE_YEAR = MYSQL_TYPE_TIME)) with false. fold d.
    rewrite Hz. done. }
  split; [apply length_le_bytes|]. split; [apply le_bytes_byte|]. intros ro d0 rest.
  cbn [convert_datetime_to_mysql].
  change (bool_decide (MYSQL_TYPE_YEAR = MYSQL_TYPE_DATETIME)) with false. cbn [andb].
  rewrite (codec_through_row d z Hf Hv Hz). cbn [mbind option_bind with_extras year].
  rewrite Hy. destruct (b =? 0) eqn:E; zb; [by subst|].
  rewrite (proj2 (Z.eqb_neq _ 0)) by lia. do 2 f_equal.
  replace (b + 1900 - 1900) with b by lia. by apply wrapU_small.
Qed.

(** The bytes of a timestamp from its seconds and microseconds. *)
Lemma timestamp_bytes {BO : ByteOrder M} f ptr :
  stored_temporal MYSQL_TYPE_TIMESTAMP f ptr ->
  ctc_my_timestamp_to_binary
    (be_val (take 4 ptr), usec_of (f_decimals f) (be_val (drop 4 ptr))) (f_decimals f)
  = Some ptr.
Proof.
  intros (Hb & Hl & Hd & Hp & _ & Hus & Hmod & _). set (dec := f_decimals f) in *.
  set (v := be_val (drop 4 ptr)) in *.
  assert (Forall byte (drop 4 ptr)) as Hbd by (by apply Forall_drop).
  pose proof (be_val_range _ Hbd) as Hv. fold v in Hv.
  pose proof (be_bytes_be_val _ Hbd) as Hbv. fold v in Hbv.
  assert (length (take 4 ptr) = 4%nat) as H4.
  { rewrite length_take. pose proof (frac_bytes_range dec Hd). lia. }
  pose proof (be_bytes_be_val (take 4 ptr) ltac:(by apply Forall_take)) as Ht.
  rewrite H4 in Ht. assert (length (drop 4 ptr) = Z.to_nat (frac_bytes dec)) as Hld.
  { rewrite length_drop. lia. }
  unfold ctc_my_timestamp_to_binary, DATETIME_MAX_DECIMALS. cbn [fst snd].
  rewrite (proj2 (Z.ltb_ge 6 dec)) by lia.
  assert (0 <= usec_of dec v) as Hus0 by (unfold usec_of; repeat case_match; lia).
  rewrite Z.rem_mod_nonneg by lia. rewrite Hmod. cbn [Z.eqb negb].
  rewrite mi_intstore_spec by lia. rewrite Ht. f_equal.
  rewrite <- (take_drop 4 ptr) at 2. f_equal. rewrite Hld in Hbv, Hv. clear Hl Hp Hmod H4 Ht.
  assert (dec = 0 \/ dec = 1 \/ dec = 2 \/ dec = 3 \/ dec = 4 \/ dec = 5 \/ dec = 6) as Hc by lia.
  clearbody dec v. unfold usec_of.
  destruct Hc as [->|[->|[->|[->|[->|[->| ->]]]]]]; simpl Z.eqb; cbn [orb];
    rewrite ?Z.quot_mul, ?Z.mul_1_r by lia;
    try rewrite mi_intstore_spec by lia; try exact Hbv.
  all: rewrite <- Hbv; change (Z.to_nat _) with 1%nat; unfold be_bytes; simpl;
    unfold wrapU; done.
Qed.

Lemma timestamp_column {BO : ByteOrder M} {TS : TimestampCodec M} f ptr :
  stored_temporal MYSQL_TYPE_TIMESTAMP f ptr ->
  exists cb, convert_datetime_to_cantian MYSQL_TYPE_TIMESTAMP ptr f = Some (0, cb) /\
    length cb = 8%nat /\ Forall byte cb /\
    forall ro d0 rest, convert_datetime_to_mysql ro d0 MYSQL_TYPE_TIMESTAMP (cb ++ rest) f = Some ptr.
Proof.
  intros Hst. pose proof (timestamp_bytes f ptr Hst) as Hbytes.
  destruct Hst as (Hb & Hl & Hd & Hp & Hs31 & Hus & Hmod & Hzero).
  set (s := be_val (take 4 ptr)) in *.
  set (us := usec_of (f_decimals f) (be_val (drop 4 ptr))) in *.
  assert (my_timestamp_from_binary ptr (f_decimals f) = (s, us)) as Hfb
    by (rewrite timestamp_from_binary by (done || lia); done).
  assert (0 <= s < 2 ^ 31) as Hs.
  { unfold s. pose proof (be_val_range (take 4 ptr) ltac:(by apply Forall_take)) as Hr.
    rewrite length_take in Hr. pose proof (frac_bytes_range _ Hd).
    replace (4 `min` length ptr)%nat with 4%nat in Hr by lia. lia. }
  assert (0 <= us) as Hus0.
  { unfold us, usec_of. pose proof (be_val_range (drop 4 ptr) ltac:(by apply Forall_drop)).
    repeat case_match; lia. }
  set (lt := if s =? 0 then zero_ltime else gmt_sec_to_TIME (s, us)).
  assert (decode_mysql_datetime zero_ltime MYSQL_TYPE_TIMESTAMP ptr f = Some lt) as Hlt.
  { cbn [decode_mysql_datetime]. unfold decode_mysql_timestamp_type. by rewrite Hfb. }
  set (d := assign_mysql_date_detail false lt).
  assert (fields_nonneg d) as Hf.
  { unfold fields_nonneg. simpl. repeat split; apply wrapU_range; lia. }
  assert (check_datetime_vaild d = true /\
    (forall d0, ltime_of_detail (with_extras d d0)
       (millisec d * MICROSECS_PER_MILLISEC + microsec d) = lt) /\
    (s = 0 -> lt = zero_ltime)) as (Hv & Hback & Hz).
  { destruct (s =? 0) eqn:E; zb; [by subst d lt|].
    destruct (gmt_sec_fields s us ltac:(lia) ltac:(lia)) as (Hy & Hm & Hdy & Hh & Hmi & Hse & Hsp & Hng).
    fold lt in Hy, Hm, Hdy, Hh, Hmi, Hse, Hsp, Hng. clearbody lt. destruct lt as [y mo dy h mi se sp ng].
    cbn [t_year t_month t_day t_hour t_minute t_second t_second_part t_neg] in *. subst sp ng.
    pose proof (month_days_bounds y mo Hm).
    assert (d = mk_date_detail y mo dy h mi se (us / 1000) (us mod 1000) 0 0) as ->.
    { subst d. unfold assign_mysql_date_detail.
      cbn [t_year t_month t_day t_hour t_minute t_second t_second_part].
      rewrite (proj2 (Z.eqb_neq y 0)) by lia. unfold MICROSECS_PER_MILLISEC.
      rewrite Z.quot_div_nonneg, Z.rem_mod_nonneg by lia.
      rewrite !wrapU_small by (lia || dlia). done. }
    unfold with_extras, ltime_of_detail, MICROSECS_PER_MILLISEC.
    cbn [year mon day hour min sec millisec microsec].
    split; [|split; [intros; f_equal; dlia|done]].
    apply check_valid_spec; cbn [hour min sec millisec microsec]; try lia; try dlia.
    - unfold check_zero_date. cbn [year]. by rewrite (proj2 (Z.eqb_neq y 0)) by lia.
    - unfold valid, valid_date, valid_tod. cbn [year mon day hour min sec millisec microsec].
      repeat split; try lia; dlia. }
  destruct (valid_encodes d Hf Hv) as [z Hzd]. exists (le_bytes 8 z). split.
  { unfold convert_datetime_to_cantian. rewrite Hlt. cbn [mbind option_bind].
    change (bool_decide (MYSQL_TYPE_TIMESTAMP = MYSQL_TYPE_TIME)) with false.
    fold d. by rewrite Hzd. }
  split; [apply length_le_bytes|]. split; [apply le_bytes_byte|]. intros ro d0 rest.
  cbn [convert_datetime_to_mysql].
  change (bool_decide (MYSQL_TYPE_TIMESTAMP = MYSQL_TYPE_DATETIME)) with false. cbn [andb].
  rewrite (codec_through_row d z Hf Hv Hzd). cbn [mbind option_bind].
  change (millisec (with_extras d d0)) with (millisec d).
  change (microsec (with_extras d d0)) with (microsec d). rewrite Hback.
  assert (ctc_datetime_with_no_zero_in_date_to_timeval lt 0 = Some (false, 0, (s, us))) as ->;
    [|exact Hbytes].
  unfold ctc_datetime_with_no_zero_in_date_to_timeval. destruct (s =? 0) eqn:E; zb.
  - rewrite (Hz E), non_zero_time_spec. simpl. by rewrite E, (Hzero E).
  - destruct (gmt_sec_fields s us ltac:(lia) ltac:(lia)) as (_ & Hm & _ & _ & _ & _ & Hsp & _).
    fold lt in Hm, Hsp. rewrite (proj2 (Z.eqb_neq _ 0)) by lia.
    unfold lt. rewrite gmt_sec_inverse by lia. rewrite (proj2 (Z.eqb_neq s 0)) by lia.
    unfold lt in Hsp. by rewrite Hsp.
Qed.

End RoundTrip.

(** All temporal types at once. *)
Lemma temporal_codec_any {M : MySQL} {BO : ByteOrder M} {TC : TimeCodec M} {DTC : DatetimeCodec M}
    {TS : TimestampCodec M} (t : enum_field_types) (f : Field) (ptr : list Z) :
  stored_temporal t f ptr ->
  exists cb, convert_datetime_to_cantian t ptr f = Some (0, cb) /\
    length cb = 8%nat /\ Forall byte cb /\
    forall ro d0 rest, (t = MYSQL_TYPE_DATETIME -> ro = false) ->
      convert_datetime_to_mysql ro d0 t (cb ++ rest) f = Some ptr.
Proof.
  intros Hst. destruct t; try (by destruct Hst as (_ & _ & _ & [])).
  - destruct (timestamp_column f ptr Hst) as (cb & ? & ? & ? & ?). exists cb. auto.
  - destruct (date_column f ptr Hst) as (cb & ? & ? & ? & ?). exists cb. auto.
  - destruct (time_column f ptr Hst) as (cb & ? & ? & ? & ?). exists cb. auto.
  - destruct (datetime_column f ptr Hst) as (cb & ? & ? & ? & Hback). exists cb.
    split; [done|]. split; [done|]. split; [done|]. intros ro d0 rest Hro. by rewrite Hro.
  - destruct (year_column f ptr Hst) as (cb & ? & ? & ? & ?). exists cb. auto.
Qed.

Lemma temporal_codec {M : MySQL} {BO : ByteOrder M} {TC : TimeCodec M} {DTC : DatetimeCodec M}
    {TS : TimestampCodec M} (t : enum_field_types) (f : Field) (ptr : list Z) :
  stored_temporal t f ptr ->
  exists cb, convert_datetime_to_cantian t ptr f = Some (0, cb) /\
    length cb = 8%nat /\ Forall byte cb /\
    forall d0 rest, convert_datetime_to_mysql false d0 t (cb ++ rest) f = Some ptr.
Proof.
  intros Hst. destruct (temporal_codec_any t f ptr Hst) as (cb & ? & ? & ? & ?). exists cb. auto.
Qed.

(** ** Property *)

(** C15: every valid value of a temporal column takes exactly eight bytes of
    the row, and reading the row gives the server's bytes back; no assertion
    of the conversions fails.  The types are [YEAR], [DATE], and [TIME],
    [DATETIME] and [TIMESTAMP] with 0 to 6 fraction digits; a [TIMESTAMP] is
    the zero value or has 1 to 2^31 - 1 seconds.  A [DATETIME] has to be read
    as one of a user table: in the tables that are read-only in the engine
    ([read_only_in_ct]) the code takes the row's bytes for the engine's own
    date format, which the connector does not write. *)
Theorem temporal_round_trip (M : MySQL) (BO : ByteOrder M) (TC : TimeCodec M)
    (DTC : DatetimeCodec M) (TS : TimestampCodec M) (t : enum_field_types) (f : Field)
    (ptr : list Z) (Hst : stored_temporal t f ptr) :
  exists cb, convert_datetime_to_cantian t ptr f = Some (0, cb) /\
    length cb = 8%nat /\ Forall byte cb /\
    forall ro d0 rest, (t = MYSQL_TYPE_DATETIME -> ro = false) ->
      convert_datetime_to_mysql ro d0 t (cb ++ rest) f = Some ptr.
Proof.
  destruct (temporal_codec_any t f ptr Hst) as (cb & H1 & H2 & H3 & H4). by exists cb.
Qed.

(** -12:34:56.789 of a [TIME(3)] column. *)
Definition time3_field : Field :=
  mk_field MYSQL_TYPE_TIME MYSQL_TYPE_TIME 1 5 5 0 true 0 2 false false 3 0
    false false false false 0 0 0 0 0.

Definition time3_value : MYSQL_TIME := mk_mysql_time 0 0 0 12 34 56 789000 true.

Lemma temporal_round_trip_witness :
  exists cb, convert_datetime_to_cantian MYSQL_TYPE_TIME [127; 55; 71; 225; 46] time3_field
      = Some (0, cb) /\
    length cb = 8%nat /\ Forall byte cb /\
    forall ro d0 rest, (MYSQL_TYPE_TIME = MYSQL_TYPE_DATETIME -> ro = false) ->
      convert_datetime_to_mysql ro d0 MYSQL_TYPE_TIME (cb ++ rest) time3_field
      = Some [127; 55; 71; 225; 46].
Proof.
  apply (temporal_round_trip demo demo_byte_order demo_time_codec demo_datetime_codec
    demo_timestamp_codec MYSQL_TYPE_TIME time3_field).
  unfold stored_temporal. cbn [f_pack_length f_decimals time3_field].
  split; [repeat constructor; lia|]. split; [done|]. split; [lia|].
  exists time3_value. split; [|reflexivity].
  unfold time_value. cbn. repeat split; try lia.
Defined.

End DateCnvrt.
