(* ===== verification/CtcError.v ===== *)
(** * CtcError: error codes of the engine

    Models [ctc_error.h] and [ctc_error.cc]: the engine's error numbers, the
    table [err_code_lookup_map], the errors that are reported to the user
    ([convert_cantian_err_to_mysql]) and the conversion that every handler
    method applies to the engine's answer
    ([convert_ctc_error_code_to_mysql_impl]). *)

From S2P Require Import Prelude.

Module CtcError.

(** ** The engine's error numbers *)

Inductive ct_errno_t :=
  | CT_SUCCESS | ERR_ALLOC_MEMORY | ERR_CAPABILITY_NOT_SUPPORT
  | ERR_OPERATIONS_NOT_SUPPORT | ERR_GENERIC_INTERNAL_ERROR | ERR_TOO_MANY_CONNECTIONS
  | ERR_NOT_SUPPORT | ERR_ROW_LOCKED_NOWAIT | ERR_USER_DDL_LOCKED
  | ERR_CLT_PARALLEL_LOCK | ERR_SQL_SYNTAX_ERROR | ERR_COLUMNS_MISMATCH
  | ERR_INVALID_SESSION_ID | ERR_MAX_ROLE_COUNT | ERR_TOO_MANY_OBJECTS
  | ERR_COLUMN_HAS_NULL | ERR_SNAPSHOT_TOO_OLD | ERR_DEAD_LOCK | ERR_LOCK_TIMEOUT
  | ERR_OPERATION_CANCELED | ERR_DC_INVALIDATED | ERR_RECORD_SIZE_OVERFLOW
  | ERR_DUPLICATE_KEY | ERR_DEF_CHANGED | ERR_SERIALIZE_ACCESS
  | ERR_SAVEPOINT_NOT_EXIST | ERR_TOO_MANY_SAVEPOINTS | ERR_NO_MORE_LOCKS
  | ERR_NAME_TOO_LONG | ERR_OBJECT_EXISTS | ERR_INDEX_INVALID | ERR_FILE_NOT_EXIST
  | ERR_DATABASE_ROLE | ERR_SPACE_NOT_EXIST | ERR_USER_NOT_EXIST
  | ERR_SPACE_ALREADY_EXIST | ERR_ROW_SELF_UPDATED | ERR_COL_TYPE_MISMATCH
  | ERR_BTREE_LEVEL_EXCEEDED | ERR_TABLE_OR_VIEW_NOT_EXIST | ERR_COLUMN_NOT_EXIST
  | ERR_FUNCTION_NOT_EXIST | ERR_TABLE_ID_NOT_EXIST | ERR_DROP_CONS | ERR_SEQ_NOT_EXIST
  | ERR_OBJECT_ALREADY_DROPPED | ERR_XA_EXTEND_BUFFER_EXCEEDED | ERR_ALLOC_TEMP_EXTENT
  | ERR_RECYCLE_PARTITION_NOT_EXIST | ERR_PERMANENTOBJ_IN_TEMPSPACE
  | ERR_BACKUP_RESTORE | ERR_CANNOT_MODIFY_COLUMN | ERR_LOG_ARCH_DEST_IN_USE
  | ERR_CANNOT_CLOSE_ARCHIVE | ERR_OPEN_RESETLOGS | ERR_LOGFILE_OPERATION_CANCELED
  | ERR_SPACE_OPEARTION_CANCELED | ERR_READMODE_OPEARTION_CANCELED
  | ERR_RENAME_FUNC_INDEX | ERR_ENFORCE_INDEX | ERR_EXCEED_MAX_BACKUP_PATH_LEN
  | ERR_NO_AUTO_INCREMENT_COLUMN | ERR_DATABASE_IS_ROLLING_BACK | ERR_TOO_MANY_TABLES
  | ERR_CHECKSUM_FAILED | ERR_NOLOGGING_SPACE | ERR_MISUSE_UNDO_SPACE
  | ERR_PART_LIST_COUNT | ERR_USER_ID_NOT_EXIST | ERR_EXCEED_MAX_INCR_BACKUP
  | ERR_ALTER_DB_TIMEZONE_FAILED | ERR_SHRINK_SPACE_SIZE | ERR_CANNOT_OPEN_DATABASE
  | ERR_SEND_RECORD_REQ_FAILED | ERR_RECORD_BACKUP_FAILED | ERR_PAGE_CORRUPTED
  | ERR_DATAFILE_RESIZE_TOO_SMALL | ERR_EXCLUDE_SPACES | ERR_INDEX_ALREADY_DROPPED
  | ERR_DATAFILE_RESIZE_EXCEED | ERR_XA_IN_AUTON_TRANS | ERR_SHRINK_EXTEND
  | ERR_SPACE_NO_DATAFILE | ERR_DUPLICATE_ENTRY | ERR_ROW_IS_REFERENCED
  | ERR_CONSTRAINT_VIOLATED_NO_FOUND | ERR_EXCEED_MAX_CASCADE_DEPTH
  | ERR_CHILD_ROW_CANNOT_ADD_OR_UPDATE | ERR_DUPLICATE_AUTO_COLUMN
  | ERR_DUPLICATE_TABLE | ERR_UNKNOWN_LOB_TYPE | ERR_CONVERT_TYPE
  | ERR_UNSUPPORT_DATATYPE | ERR_UNKNOWN_PLAN_TYPE | ERR_INVALID_DATAFILE_NUMBER
  | ERR_STORED_PROCEDURE | ERR_FEW_FILLED | ERR_DISTRI_COLUMN_DATA_TYPE
  | ERR_COMMENT_OBJECT_TYPE | ERR_MUST_BE_FIX_DATATYPE | ERR_KEY_EXPECTED
  | ERR_INVALID_ATTR_NAME | ERR_ONLY_SUPPORT_STR | ERR_COMPARE_TYPE
  | ERR_UNEXPECTED_KEY | ERR_UNEXPECTED_ARRG | ERR_UNKNOWN_DATATYPE | ERR_NUM_OVERFLOW
  | ERR_UNDEFINED_OPER | ERR_UNKNOWN_ARRG_OPER | ERR_CALC_EXPRESSION
  | ERR_UNSUPPORT_FUNC | ERR_INVOKE_FUNC_FAIL | ERR_COLUMN_DATA_TYPE
  | ERR_CAST_TO_COLUMN | ERR_UNSUPPORT_OPER_TYPE | ERR_TOO_MANY_ARRG | ERR_INVALID_FUNC
  | ERR_PARAM_VALUE_OUT_RANGE | ERR_INVALID_PACKAGE | ERR_FORBID_CREATE_SYS_USER
  | ERR_NO_OPTION_SPECIFIED | ERR_XA_TRANS_EXEC | ERR_READ_LOB_NULL
  | ERR_DATANODE_EXIST | ERR_DATANODE_NOT_EXIST | ERR_COORDNODE_FORBIDDEN
  | ERR_DISTRI_COLUMN_FORBIDDEN | ERR_INVALID_SEL4UPDATE | ERR_NO_SORT_ITEM_REMOTE
  | ERR_COLUM_LIST_EXCEED | ERR_INVALID_PROTOCOL_INVOKE | ERR_INVALID_STATEMENT_ID
  | ERR_DML_INSIDE_QUERY | ERR_EXCEED_MAX_FIELD_LEN | ERR_FUNCTION_NOT_INDEXABLE
  | ERR_RESERV_SQL_CURSORS_DECREASE | ERR_SELECT_ROWID | ERR_INVALID_NUMBER_FORAMT
  | ERR_INVALID_SESSION_TYPE | ERR_SQL_MAP_ONLY_SUPPORT_DML | ERR_SQL_MAP_NOT_EXIST
  | ERR_TF_ONLY_ONE_TABLE | ERR_TF_TABLE_NAME_NULL | ERR_EXCEED_MAX_STMTS
  | ERR_DEFAULT_LEN_TOO_LARGE | ERR_EXPECT_COLUMN_HERE | ERR_FOR_UPDATE_FROM_VIEW
  | ERR_CALC_COLUMN_NOT_ALLOWED | ERR_FOR_UPDATE_NOT_ALLOWED | ERR_INVALID_ARRAY_FORMAT
  | ERR_WRONG_ELEMENT_COUNT | ERR_INDEX_ON_ARRAY_FIELD | ERR_DATATYPE_NOT_SUPPORT_ARRAY
  | ERR_INVALID_ARG_TYPE | ERR_CONVERT_CODE_FAILED | ERR_REF_ON_ARRAY_COLUMN
  | ERR_SET_DEF_ARRAY_VAL | ERR_INVALID_SUBSCRIPT | ERR_USE_WRONG_SUBSCRIPT
  | ERR_ARRAY_NOT_SUPPORT | ERR_MODIFY_ARRAY_COLUMN | ERR_MODIFY_ARRAY_DATATYPE
  | ERR_WRONG_TABLE_TYPE | ERR_TF_DDL_ID_NULL | ERR_TF_DDL_INFO_NULL
  | ERR_TF_DDL_ID_OVER_LEN | ERR_TF_DDL_INFO_OVER_LEN | ERR_ARRAY_TO_STR_FAILED
  | ERR_AUTOINC_READ_FAILED | ERR_OAMAP_DUP_KEY_ERROR | ERR_OAMAP_INSERTION_FAILED
  | ERR_OAMAP_FETCH_FAILED | ERR_GSS_FILE_IS_OPEN | ERR_SEM_FAULT
  | ERR_BATCH_DATA_HANDLE_FAILED | ERR_SHM_SEND_MSG_FAILED | ERR_INSTANCE_REG_FAILED
  | ERR_CONNECTION_FAILED | ERR_USER_NOT_EMPTY_4MYSQL | ERR_FK_NO_INDEX_PAREN_4MYSQL
  | ERR_CHILD_DUPLICATE_KEY | ERR_WRITE_OPT_IN_READONLY | CTC_DDL_VERSION_NOT_MATCH.

Definition errno_code (e : ct_errno_t) : Z :=
  match e with
  | CT_SUCCESS => 0 | ERR_ALLOC_MEMORY => 1 | ERR_CAPABILITY_NOT_SUPPORT => 101
  | ERR_OPERATIONS_NOT_SUPPORT => 130 | ERR_GENERIC_INTERNAL_ERROR => 299
  | ERR_TOO_MANY_CONNECTIONS => 403 | ERR_NOT_SUPPORT => 404
  | ERR_ROW_LOCKED_NOWAIT => 408 | ERR_USER_DDL_LOCKED => 411
  | ERR_CLT_PARALLEL_LOCK => 517 | ERR_SQL_SYNTAX_ERROR => 601
  | ERR_COLUMNS_MISMATCH => 619 | ERR_INVALID_SESSION_ID => 683
  | ERR_MAX_ROLE_COUNT => 686 | ERR_TOO_MANY_OBJECTS => 706
  | ERR_COLUMN_HAS_NULL => 709 | ERR_SNAPSHOT_TOO_OLD => 715 | ERR_DEAD_LOCK => 716
  | ERR_LOCK_TIMEOUT => 717 | ERR_OPERATION_CANCELED => 718 | ERR_DC_INVALIDATED => 722
  | ERR_RECORD_SIZE_OVERFLOW => 727 | ERR_DUPLICATE_KEY => 729 | ERR_DEF_CHANGED => 732
  | ERR_SERIALIZE_ACCESS => 735 | ERR_SAVEPOINT_NOT_EXIST => 736
  | ERR_TOO_MANY_SAVEPOINTS => 737 | ERR_NO_MORE_LOCKS => 740
  | ERR_NAME_TOO_LONG => 748 | ERR_OBJECT_EXISTS => 753 | ERR_INDEX_INVALID => 759
  | ERR_FILE_NOT_EXIST => 771 | ERR_DATABASE_ROLE => 773 | ERR_SPACE_NOT_EXIST => 780
  | ERR_USER_NOT_EXIST => 781 | ERR_SPACE_ALREADY_EXIST => 788
  | ERR_ROW_SELF_UPDATED => 814 | ERR_COL_TYPE_MISMATCH => 817
  | ERR_BTREE_LEVEL_EXCEEDED => 820 | ERR_TABLE_OR_VIEW_NOT_EXIST => 843
  | ERR_COLUMN_NOT_EXIST => 844 | ERR_FUNCTION_NOT_EXIST => 845
  | ERR_TABLE_ID_NOT_EXIST => 846 | ERR_DROP_CONS => 847 | ERR_SEQ_NOT_EXIST => 848
  | ERR_OBJECT_ALREADY_DROPPED => 849 | ERR_XA_EXTEND_BUFFER_EXCEEDED => 850
  | ERR_ALLOC_TEMP_EXTENT => 851 | ERR_RECYCLE_PARTITION_NOT_EXIST => 852
  | ERR_PERMANENTOBJ_IN_TEMPSPACE => 853 | ERR_BACKUP_RESTORE => 855
  | ERR_CANNOT_MODIFY_COLUMN => 856 | ERR_LOG_ARCH_DEST_IN_USE => 857
  | ERR_CANNOT_CLOSE_ARCHIVE => 858 | ERR_OPEN_RESETLOGS => 859
  | ERR_LOGFILE_OPERATION_CANCELED => 860 | ERR_SPACE_OPEARTION_CANCELED => 861
  | ERR_READMODE_OPEARTION_CANCELED => 862 | ERR_RENAME_FUNC_INDEX => 863
  | ERR_ENFORCE_INDEX => 864 | ERR_EXCEED_MAX_BACKUP_PATH_LEN => 865
  | ERR_NO_AUTO_INCREMENT_COLUMN => 866 | ERR_DATABASE_IS_ROLLING_BACK => 867
  | ERR_TOO_MANY_TABLES => 868 | ERR_CHECKSUM_FAILED => 869
  | ERR_NOLOGGING_SPACE => 870 | ERR_MISUSE_UNDO_SPACE => 871
  | ERR_PART_LIST_COUNT => 872 | ERR_USER_ID_NOT_EXIST => 873
  | ERR_EXCEED_MAX_INCR_BACKUP => 874 | ERR_ALTER_DB_TIMEZONE_FAILED => 875
  | ERR_SHRINK_SPACE_SIZE => 876 | ERR_CANNOT_OPEN_DATABASE => 877
  | ERR_SEND_RECORD_REQ_FAILED => 878 | ERR_RECORD_BACKUP_FAILED => 879
  | ERR_PAGE_CORRUPTED => 880 | ERR_DATAFILE_RESIZE_TOO_SMALL => 881
  | ERR_EXCLUDE_SPACES => 882 | ERR_INDEX_ALREADY_DROPPED => 883
  | ERR_DATAFILE_RESIZE_EXCEED => 884 | ERR_XA_IN_AUTON_TRANS => 885
  | ERR_SHRINK_EXTEND => 886 | ERR_SPACE_NO_DATAFILE => 887
  | ERR_DUPLICATE_ENTRY => 970 | ERR_ROW_IS_REFERENCED => 1123
  | ERR_CONSTRAINT_VIOLATED_NO_FOUND => 1128 | ERR_EXCEED_MAX_CASCADE_DEPTH => 1133
  | ERR_CHILD_ROW_CANNOT_ADD_OR_UPDATE => 1134 | ERR_DUPLICATE_AUTO_COLUMN => 1300
  | ERR_DUPLICATE_TABLE => 1301 | ERR_UNKNOWN_LOB_TYPE => 1302
  | ERR_CONVERT_TYPE => 1303 | ERR_UNSUPPORT_DATATYPE => 1304
  | ERR_UNKNOWN_PLAN_TYPE => 1305 | ERR_INVALID_DATAFILE_NUMBER => 1306
  | ERR_STORED_PROCEDURE => 1307 | ERR_FEW_FILLED => 1308
  | ERR_DISTRI_COLUMN_DATA_TYPE => 1309 | ERR_COMMENT_OBJECT_TYPE => 1310
  | ERR_MUST_BE_FIX_DATATYPE => 1311 | ERR_KEY_EXPECTED => 1312
  | ERR_INVALID_ATTR_NAME => 1313 | ERR_ONLY_SUPPORT_STR => 1314
  | ERR_COMPARE_TYPE => 1315 | ERR_UNEXPECTED_KEY => 1316 | ERR_UNEXPECTED_ARRG => 1317
  | ERR_UNKNOWN_DATATYPE => 1318 | ERR_NUM_OVERFLOW => 1319
  | ERR_UNDEFINED_OPER => 1320 | ERR_UNKNOWN_ARRG_OPER => 1321
  | ERR_CALC_EXPRESSION => 1322 | ERR_UNSUPPORT_FUNC => 1323
  | ERR_INVOKE_FUNC_FAIL => 1324 | ERR_COLUMN_DATA_TYPE => 1325
  | ERR_CAST_TO_COLUMN => 1326 | ERR_UNSUPPORT_OPER_TYPE => 1327
  | ERR_TOO_MANY_ARRG => 1328 | ERR_INVALID_FUNC => 1329
  | ERR_PARAM_VALUE_OUT_RANGE => 1330 | ERR_INVALID_PACKAGE => 1331
  | ERR_FORBID_CREATE_SYS_USER => 1332 | ERR_NO_OPTION_SPECIFIED => 1333
  | ERR_XA_TRANS_EXEC => 1334 | ERR_READ_LOB_NULL => 1335 | ERR_DATANODE_EXIST => 1336
  | ERR_DATANODE_NOT_EXIST => 1337 | ERR_COORDNODE_FORBIDDEN => 1338
  | ERR_DISTRI_COLUMN_FORBIDDEN => 1339 | ERR_INVALID_SEL4UPDATE => 1340
  | ERR_NO_SORT_ITEM_REMOTE => 1341 | ERR_COLUM_LIST_EXCEED => 1342
  | ERR_INVALID_PROTOCOL_INVOKE => 1343 | ERR_INVALID_STATEMENT_ID => 1344
  | ERR_DML_INSIDE_QUERY => 1345 | ERR_EXCEED_MAX_FIELD_LEN => 1346
  | ERR_FUNCTION_NOT_INDEXABLE => 1347 | ERR_RESERV_SQL_CURSORS_DECREASE => 1348
  | ERR_SELECT_ROWID => 1349 | ERR_INVALID_NUMBER_FORAMT => 1350
  | ERR_INVALID_SESSION_TYPE => 1351 | ERR_SQL_MAP_ONLY_SUPPORT_DML => 1352
  | ERR_SQL_MAP_NOT_EXIST => 1353 | ERR_TF_ONLY_ONE_TABLE => 1354
  | ERR_TF_TABLE_NAME_NULL => 1355 | ERR_EXCEED_MAX_STMTS => 1356
  | ERR_DEFAULT_LEN_TOO_LARGE => 1357 | ERR_EXPECT_COLUMN_HERE => 1358
  | ERR_FOR_UPDATE_FROM_VIEW => 1359 | ERR_CALC_COLUMN_NOT_ALLOWED => 1360
  | ERR_FOR_UPDATE_NOT_ALLOWED => 1361 | ERR_INVALID_ARRAY_FORMAT => 1362
  | ERR_WRONG_ELEMENT_COUNT => 1363 | ERR_INDEX_ON_ARRAY_FIELD => 1364
  | ERR_DATATYPE_NOT_SUPPORT_ARRAY => 1365 | ERR_INVALID_ARG_TYPE => 1366
  | ERR_CONVERT_CODE_FAILED => 1367 | ERR_REF_ON_ARRAY_COLUMN => 1368
  | ERR_SET_DEF_ARRAY_VAL => 1369 | ERR_INVALID_SUBSCRIPT => 1370
  | ERR_USE_WRONG_SUBSCRIPT => 1371 | ERR_ARRAY_NOT_SUPPORT => 1372
  | ERR_MODIFY_ARRAY_COLUMN => 1373 | ERR_MODIFY_ARRAY_DATATYPE => 1374
  | ERR_WRONG_TABLE_TYPE => 1375 | ERR_TF_DDL_ID_NULL => 1376
  | ERR_TF_DDL_INFO_NULL => 1377 | ERR_TF_DDL_ID_OVER_LEN => 1378
  | ERR_TF_DDL_INFO_OVER_LEN => 1379 | ERR_ARRAY_TO_STR_FAILED => 1380
  | ERR_AUTOINC_READ_FAILED => 1467 | ERR_OAMAP_DUP_KEY_ERROR => 2008
  | ERR_OAMAP_INSERTION_FAILED => 2009 | ERR_OAMAP_FETCH_FAILED => 2010
  | ERR_GSS_FILE_IS_OPEN => 2042 | ERR_SEM_FAULT => 4000
  | ERR_BATCH_DATA_HANDLE_FAILED => 4001 | ERR_SHM_SEND_MSG_FAILED => 4002
  | ERR_INSTANCE_REG_FAILED => 4003 | ERR_CONNECTION_FAILED => 4004
  | ERR_USER_NOT_EMPTY_4MYSQL => 4005 | ERR_FK_NO_INDEX_PAREN_4MYSQL => 4006
  | ERR_CHILD_DUPLICATE_KEY => 4007 | ERR_WRITE_OPT_IN_READONLY => 4008
  | CTC_DDL_VERSION_NOT_MATCH => 9999
  end.

Definition all_errnos : list ct_errno_t := [
  CT_SUCCESS; ERR_ALLOC_MEMORY; ERR_CAPABILITY_NOT_SUPPORT; ERR_OPERATIONS_NOT_SUPPORT;
  ERR_GENERIC_INTERNAL_ERROR; ERR_TOO_MANY_CONNECTIONS; ERR_NOT_SUPPORT;
  ERR_ROW_LOCKED_NOWAIT; ERR_USER_DDL_LOCKED; ERR_CLT_PARALLEL_LOCK;
  ERR_SQL_SYNTAX_ERROR; ERR_COLUMNS_MISMATCH; ERR_INVALID_SESSION_ID;
  ERR_MAX_ROLE_COUNT; ERR_TOO_MANY_OBJECTS; ERR_COLUMN_HAS_NULL; ERR_SNAPSHOT_TOO_OLD;
  ERR_DEAD_LOCK; ERR_LOCK_TIMEOUT; ERR_OPERATION_CANCELED; ERR_DC_INVALIDATED;
  ERR_RECORD_SIZE_OVERFLOW; ERR_DUPLICATE_KEY; ERR_DEF_CHANGED; ERR_SERIALIZE_ACCESS;
  ERR_SAVEPOINT_NOT_EXIST; ERR_TOO_MANY_SAVEPOINTS; ERR_NO_MORE_LOCKS;
  ERR_NAME_TOO_LONG; ERR_OBJECT_EXISTS; ERR_INDEX_INVALID; ERR_FILE_NOT_EXIST;
  ERR_DATABASE_ROLE; ERR_SPACE_NOT_EXIST; ERR_USER_NOT_EXIST; ERR_SPACE_ALREADY_EXIST;
  ERR_ROW_SELF_UPDATED; ERR_COL_TYPE_MISMATCH; ERR_BTREE_LEVEL_EXCEEDED;
  ERR_TABLE_OR_VIEW_NOT_EXIST; ERR_COLUMN_NOT_EXIST; ERR_FUNCTION_NOT_EXIST;
  ERR_TABLE_ID_NOT_EXIST; ERR_DROP_CONS; ERR_SEQ_NOT_EXIST; ERR_OBJECT_ALREADY_DROPPED;
  ERR_XA_EXTEND_BUFFER_EXCEEDED; ERR_ALLOC_TEMP_EXTENT;
  ERR_RECYCLE_PARTITION_NOT_EXIST; ERR_PERMANENTOBJ_IN_TEMPSPACE; ERR_BACKUP_RESTORE;
  ERR_CANNOT_MODIFY_COLUMN; ERR_LOG_ARCH_DEST_IN_USE; ERR_CANNOT_CLOSE_ARCHIVE;
  ERR_OPEN_RESETLOGS; ERR_LOGFILE_OPERATION_CANCELED; ERR_SPACE_OPEARTION_CANCELED;
  ERR_READMODE_OPEARTION_CANCELED; ERR_RENAME_FUNC_INDEX; ERR_ENFORCE_INDEX;
  ERR_EXCEED_MAX_BACKUP_PATH_LEN; ERR_NO_AUTO_INCREMENT_COLUMN;
  ERR_DATABASE_IS_ROLLING_BACK; ERR_TOO_MANY_TABLES; ERR_CHECKSUM_FAILED;
  ERR_NOLOGGING_SPACE; ERR_MISUSE_UNDO_SPACE; ERR_PART_LIST_COUNT;
  ERR_USER_ID_NOT_EXIST; ERR_EXCEED_MAX_INCR_BACKUP; ERR_ALTER_DB_TIMEZONE_FAILED;
  ERR_SHRINK_SPACE_SIZE; ERR_CANNOT_OPEN_DATABASE; ERR_SEND_RECORD_REQ_FAILED;
  ERR_RECORD_BACKUP_FAILED; ERR_PAGE_CORRUPTED; ERR_DATAFILE_RESIZE_TOO_SMALL;
  ERR_EXCLUDE_SPACES; ERR_INDEX_ALREADY_DROPPED; ERR_DATAFILE_RESIZE_EXCEED;
  ERR_XA_IN_AUTON_TRANS; ERR_SHRINK_EXTEND; ERR_SPACE_NO_DATAFILE; ERR_DUPLICATE_ENTRY;
  ERR_ROW_IS_REFERENCED; ERR_CONSTRAINT_VIOLATED_NO_FOUND;
  ERR_EXCEED_MAX_CASCADE_DEPTH; ERR_CHILD_ROW_CANNOT_ADD_OR_UPDATE;
  ERR_DUPLICATE_AUTO_COLUMN; ERR_DUPLICATE_TABLE; ERR_UNKNOWN_LOB_TYPE;
  ERR_CONVERT_TYPE; ERR_UNSUPPORT_DATATYPE; ERR_UNKNOWN_PLAN_TYPE;
  ERR_INVALID_DATAFILE_NUMBER; ERR_STORED_PROCEDURE; ERR_FEW_FILLED;
  ERR_DISTRI_COLUMN_DATA_TYPE; ERR_COMMENT_OBJECT_TYPE; ERR_MUST_BE_FIX_DATATYPE;
  ERR_KEY_EXPECTED; ERR_INVALID_ATTR_NAME; ERR_ONLY_SUPPORT_STR; ERR_COMPARE_TYPE;
  ERR_UNEXPECTED_KEY; ERR_UNEXPECTED_ARRG; ERR_UNKNOWN_DATATYPE; ERR_NUM_OVERFLOW;
  ERR_UNDEFINED_OPER; ERR_UNKNOWN_ARRG_OPER; ERR_CALC_EXPRESSION; ERR_UNSUPPORT_FUNC;
  ERR_INVOKE_FUNC_FAIL; ERR_COLUMN_DATA_TYPE; ERR_CAST_TO_COLUMN;
  ERR_UNSUPPORT_OPER_TYPE; ERR_TOO_MANY_ARRG; ERR_INVALID_FUNC;
  ERR_PARAM_VALUE_OUT_RANGE; ERR_INVALID_PACKAGE; ERR_FORBID_CREATE_SYS_USER;
  ERR_NO_OPTION_SPECIFIED; ERR_XA_TRANS_EXEC; ERR_READ_LOB_NULL; ERR_DATANODE_EXIST;
  ERR_DATANODE_NOT_EXIST; ERR_COORDNODE_FORBIDDEN; ERR_DISTRI_COLUMN_FORBIDDEN;
  ERR_INVALID_SEL4UPDATE; ERR_NO_SORT_ITEM_REMOTE; ERR_COLUM_LIST_EXCEED;
  ERR_INVALID_PROTOCOL_INVOKE; ERR_INVALID_STATEMENT_ID; ERR_DML_INSIDE_QUERY;
  ERR_EXCEED_MAX_FIELD_LEN; ERR_FUNCTION_NOT_INDEXABLE;
  ERR_RESERV_SQL_CURSORS_DECREASE; ERR_SELECT_ROWID; ERR_INVALID_NUMBER_FORAMT;
  ERR_INVALID_SESSION_TYPE; ERR_SQL_MAP_ONLY_SUPPORT_DML; ERR_SQL_MAP_NOT_EXIST;
  ERR_TF_ONLY_ONE_TABLE; ERR_TF_TABLE_NAME_NULL; ERR_EXCEED_MAX_STMTS;
  ERR_DEFAULT_LEN_TOO_LARGE; ERR_EXPECT_COLUMN_HERE; ERR_FOR_UPDATE_FROM_VIEW;
  ERR_CALC_COLUMN_NOT_ALLOWED; ERR_FOR_UPDATE_NOT_ALLOWED; ERR_INVALID_ARRAY_FORMAT;
  ERR_WRONG_ELEMENT_COUNT; ERR_INDEX_ON_ARRAY_FIELD; ERR_DATATYPE_NOT_SUPPORT_ARRAY;
  ERR_INVALID_ARG_TYPE; ERR_CONVERT_CODE_FAILED; ERR_REF_ON_ARRAY_COLUMN;
  ERR_SET_DEF_ARRAY_VAL; ERR_INVALID_SUBSCRIPT; ERR_USE_WRONG_SUBSCRIPT;
  ERR_ARRAY_NOT_SUPPORT; ERR_MODIFY_ARRAY_COLUMN; ERR_MODIFY_ARRAY_DATATYPE;
  ERR_WRONG_TABLE_TYPE; ERR_TF_DDL_ID_NULL; ERR_TF_DDL_INFO_NULL;
  ERR_TF_DDL_ID_OVER_LEN; ERR_TF_DDL_INFO_OVER_LEN; ERR_ARRAY_TO_STR_FAILED;
  ERR_AUTOINC_READ_FAILED; ERR_OAMAP_DUP_KEY_ERROR; ERR_OAMAP_INSERTION_FAILED;
  ERR_OAMAP_FETCH_FAILED; ERR_GSS_FILE_IS_OPEN; ERR_SEM_FAULT;
  ERR_BATCH_DATA_HANDLE_FAILED; ERR_SHM_SEND_MSG_FAILED; ERR_INSTANCE_REG_FAILED;
  ERR_CONNECTION_FAILED; ERR_USER_NOT_EMPTY_4MYSQL; ERR_FK_NO_INDEX_PAREN_4MYSQL;
  ERR_CHILD_DUPLICATE_KEY; ERR_WRITE_OPT_IN_READONLY; CTC_DDL_VERSION_NOT_MATCH ].

(** The number back to the error. *)
Definition errno_of (n : Z) : option ct_errno_t :=
  List.find (fun e => errno_code e =? n) all_errnos.

Lemma errno_of_code e : errno_of (errno_code e) = Some e.
Proof. destruct e; vm_compute; reflexivity. Qed.

(** The engine's numbers are distinct, so a number denotes one error. *)
Lemma errno_code_inj e1 e2 : errno_code e1 = errno_code e2 -> e1 = e2.
Proof. intros H. pose proof (errno_of_code e1). pose proof (errno_of_code e2). congruence. Qed.

#[export] Instance ct_errno_t_eq_dec : EqDecision ct_errno_t.
Proof.
  intros e1 e2. destruct (Z.eq_dec (errno_code e1) (errno_code e2)) as [H|H].
  - left. by apply errno_code_inj.
  - right. congruence.
Defined.

(** ** The server's codes

    [HA_OK] is the 0 a handler method returns on success; [HA_*] are handler
    error codes and [ER_*] codes of messages to the user. *)

Inductive mysql_errno :=
  | HA_OK | HA_ERR_GENERIC | HA_ERR_WRONG_COMMAND | HA_ERR_LOCK_DEADLOCK
  | HA_ERR_RECORD_CHANGED | HA_ERR_LOCK_WAIT_TIMEOUT | HA_ERR_TOO_BIG_ROW
  | HA_ERR_FOUND_DUPP_KEY | HA_ERR_NO_REFERENCED_ROW | HA_ERR_ROW_IS_REFERENCED
  | HA_ERR_TABLE_DEF_CHANGED | HA_ERR_NO_SAVEPOINT | HA_ERR_LOCK_TABLE_FULL
  | HA_ERR_WRONG_FILE_NAME | HA_ERR_TABLESPACE_MISSING | HA_ERR_TABLESPACE_EXISTS
  | HA_ERR_INTERNAL_ERROR | HA_ERR_NO_SUCH_TABLE | HA_ERR_WRONG_INDEX
  | HA_ERR_NO_CONNECTION | HA_ERR_SE_OUT_OF_MEMORY | HA_ERR_NO_WAIT_LOCK
  | HA_ERR_QUERY_INTERRUPTED | HA_ERR_AUTOINC_READ_FAILED | HA_ERR_TABLE_CORRUPT
  | HA_ERR_READ_ONLY_TRANSACTION | HA_ERR_TOO_MANY_CONCURRENT_TRXS
  | ER_DISALLOWED_OPERATION | ER_OPEN_AS_READONLY | ER_WRONG_VALUE_COUNT
  | ER_LOCK_NOWAIT | ER_MULTI_UPDATE_KEY_CONFLICT | ER_INVALID_USE_OF_NULL
  | ER_CON_COUNT_ERROR | ER_TOO_LONG_IDENT | ER_FOREIGN_DUPLICATE_KEY_WITH_CHILD_INFO
  | ER_CANNOT_ADD_FOREIGN | ER_FK_DEPTH_EXCEEDED | ER_NO_REFERENCED_ROW_2
  | ER_LOCK_WAIT_TIMEOUT | ER_GET_ERRNO.

#[export] Instance mysql_errno_eq_dec : EqDecision mysql_errno.
Proof. solve_decision. Defined.

Definition is_handler_code (m : mysql_errno) : bool :=
  match m with
  | ER_DISALLOWED_OPERATION | ER_OPEN_AS_READONLY | ER_WRONG_VALUE_COUNT
  | ER_LOCK_NOWAIT | ER_MULTI_UPDATE_KEY_CONFLICT | ER_INVALID_USE_OF_NULL
  | ER_CON_COUNT_ERROR | ER_TOO_LONG_IDENT | ER_FOREIGN_DUPLICATE_KEY_WITH_CHILD_INFO
  | ER_CANNOT_ADD_FOREIGN | ER_FK_DEPTH_EXCEEDED | ER_NO_REFERENCED_ROW_2
  | ER_LOCK_WAIT_TIMEOUT | ER_GET_ERRNO => false
  | _ => true
  end.

(** ** The tables *)

Definition err_code_lookup_map : list (ct_errno_t * mysql_errno) := [
  (ERR_OAMAP_DUP_KEY_ERROR, HA_ERR_GENERIC);
  (ERR_OAMAP_INSERTION_FAILED, HA_ERR_GENERIC);
  (ERR_OAMAP_FETCH_FAILED, HA_ERR_GENERIC);
  (ERR_GENERIC_INTERNAL_ERROR, HA_ERR_GENERIC);
  (ERR_NOT_SUPPORT, HA_ERR_WRONG_COMMAND);
  (ERR_OPERATIONS_NOT_SUPPORT, HA_ERR_WRONG_COMMAND);
  (ERR_DEAD_LOCK, HA_ERR_LOCK_DEADLOCK);
  (ERR_SERIALIZE_ACCESS, HA_ERR_RECORD_CHANGED);
  (ERR_LOCK_TIMEOUT, HA_ERR_LOCK_WAIT_TIMEOUT);
  (ERR_RECORD_SIZE_OVERFLOW, HA_ERR_TOO_BIG_ROW);
  (ERR_DUPLICATE_KEY, HA_ERR_FOUND_DUPP_KEY);
  (ERR_CONSTRAINT_VIOLATED_NO_FOUND, HA_ERR_NO_REFERENCED_ROW);
  (ERR_ROW_IS_REFERENCED, HA_ERR_ROW_IS_REFERENCED);
  (ERR_DEF_CHANGED, HA_ERR_TABLE_DEF_CHANGED);
  (ERR_SAVEPOINT_NOT_EXIST, HA_ERR_NO_SAVEPOINT);
  (ERR_NO_MORE_LOCKS, HA_ERR_LOCK_TABLE_FULL);
  (ERR_FILE_NOT_EXIST, HA_ERR_WRONG_FILE_NAME);
  (ERR_SPACE_NOT_EXIST, HA_ERR_TABLESPACE_MISSING);
  (ERR_SPACE_ALREADY_EXIST, HA_ERR_TABLESPACE_EXISTS);
  (ERR_BTREE_LEVEL_EXCEEDED, HA_ERR_INTERNAL_ERROR);
  (ERR_TABLE_OR_VIEW_NOT_EXIST, HA_ERR_NO_SUCH_TABLE);
  (ERR_DC_INVALIDATED, HA_ERR_NO_SUCH_TABLE);
  (ERR_INDEX_INVALID, HA_ERR_WRONG_INDEX);
  (ERR_CONNECTION_FAILED, HA_ERR_NO_CONNECTION);
  (ERR_ALLOC_MEMORY, HA_ERR_SE_OUT_OF_MEMORY);
  (ERR_ROW_LOCKED_NOWAIT, HA_ERR_NO_WAIT_LOCK);
  (ERR_OPERATION_CANCELED, HA_ERR_QUERY_INTERRUPTED);
  (ERR_SEM_FAULT, HA_ERR_INTERNAL_ERROR);
  (ERR_BATCH_DATA_HANDLE_FAILED, HA_ERR_INTERNAL_ERROR);
  (ERR_SHM_SEND_MSG_FAILED, HA_ERR_NO_CONNECTION);
  (ERR_INSTANCE_REG_FAILED, HA_ERR_INTERNAL_ERROR);
  (ERR_AUTOINC_READ_FAILED, HA_ERR_AUTOINC_READ_FAILED);
  (ERR_OBJECT_ALREADY_DROPPED, HA_ERR_TABLE_CORRUPT);
  (ERR_PAGE_CORRUPTED, HA_ERR_TABLE_CORRUPT) ].

Fixpoint find_err (l : list (ct_errno_t * mysql_errno)) (e : ct_errno_t) : option mysql_errno :=
  match l with
  | [] => None
  | (k, v) :: l => if decide (e = k) then Some v else find_err l e
  end.

(** The error code, 0 for an error that is not reported here, and the codes
    of the messages sent to the user. *)
Definition convert_cantian_err_to_mysql (e : ct_errno_t) : mysql_errno * list mysql_errno :=
  match e with
  | ERR_CAPABILITY_NOT_SUPPORT => (ER_DISALLOWED_OPERATION, [ER_DISALLOWED_OPERATION])
  | ERR_WRITE_OPT_IN_READONLY => (ER_OPEN_AS_READONLY, [ER_OPEN_AS_READONLY])
  | ERR_DATABASE_ROLE => (ER_DISALLOWED_OPERATION, [ER_DISALLOWED_OPERATION])
  | ERR_COLUMNS_MISMATCH => (ER_WRONG_VALUE_COUNT, [ER_WRONG_VALUE_COUNT])
  | ERR_ROW_LOCKED_NOWAIT => (ER_LOCK_NOWAIT, [ER_LOCK_NOWAIT])
  | ERR_ROW_SELF_UPDATED => (ER_MULTI_UPDATE_KEY_CONFLICT, [ER_MULTI_UPDATE_KEY_CONFLICT])
  | ERR_COLUMN_HAS_NULL => (ER_INVALID_USE_OF_NULL, [ER_INVALID_USE_OF_NULL])
  | ERR_TOO_MANY_CONNECTIONS => (ER_CON_COUNT_ERROR, [ER_CON_COUNT_ERROR])
  | ERR_NAME_TOO_LONG => (ER_TOO_LONG_IDENT, [ER_TOO_LONG_IDENT])
  | ERR_CHILD_DUPLICATE_KEY => (ER_FOREIGN_DUPLICATE_KEY_WITH_CHILD_INFO, [ER_FOREIGN_DUPLICATE_KEY_WITH_CHILD_INFO])
  | ERR_FK_NO_INDEX_PAREN_4MYSQL => (ER_CANNOT_ADD_FOREIGN, [ER_CANNOT_ADD_FOREIGN])
  | ERR_EXCEED_MAX_CASCADE_DEPTH => (ER_FK_DEPTH_EXCEEDED, [ER_FK_DEPTH_EXCEEDED])
  | ERR_SNAPSHOT_TOO_OLD => (HA_ERR_TOO_MANY_CONCURRENT_TRXS, [HA_ERR_TOO_MANY_CONCURRENT_TRXS])
  | ERR_CHILD_ROW_CANNOT_ADD_OR_UPDATE => (ER_NO_REFERENCED_ROW_2, [ER_NO_REFERENCED_ROW_2])
  | ERR_LOCK_TIMEOUT => (ER_LOCK_WAIT_TIMEOUT, [ER_LOCK_WAIT_TIMEOUT])
  | _ => (HA_OK, [])
  end.

Definition ctc_alter_table_handle_fault (e : ct_errno_t) : list mysql_errno :=
  match e with
  | ERR_CONSTRAINT_VIOLATED_NO_FOUND => [ER_NO_REFERENCED_ROW_2]
  | _ => [ER_GET_ERRNO]
  end.

(** The handler code and the messages sent to the user. *)
Definition convert_ctc_error_code_to_mysql (e : ct_errno_t) : mysql_errno * list mysql_errno :=
  if decide (e = CT_SUCCESS) then (HA_OK, []) else
  let '(err_code, msgs) := convert_cantian_err_to_mysql e in
  if negb (bool_decide (err_code = HA_OK)) then
    (if decide (err_code = ER_OPEN_AS_READONLY) then HA_ERR_READ_ONLY_TRANSACTION
     else HA_ERR_WRONG_COMMAND, msgs)
  else
    match find_err err_code_lookup_map e with
    | Some ret => (ret, msgs)
    | None => (HA_ERR_GENERIC, msgs)
    end.

(** ** Properties *)

Definition shadowed (e : ct_errno_t) : bool :=
  match e with ERR_LOCK_TIMEOUT | ERR_ROW_LOCKED_NOWAIT => true | _ => false end.

(** The conversion answers 0 exactly for [CT_SUCCESS]; every failure gives
    a handler error code (never a message code), with a message to the user
    exactly for the errors of [convert_cantian_err_to_mysql]; an error of
    [err_code_lookup_map] gives the code of the table unless a message was
    sent, and any other error [HA_ERR_GENERIC]. *)
Theorem convert_ctc_error_code_spec (e : ct_errno_t) :
  let '(ret, msgs) := convert_ctc_error_code_to_mysql e in
  (ret = HA_OK <-> e = CT_SUCCESS) /\ is_handler_code ret = true /\
  msgs = snd (convert_cantian_err_to_mysql e) /\
  (msgs = [] -> e <> CT_SUCCESS -> ret = default HA_ERR_GENERIC (find_err err_code_lookup_map e)) /\
  (msgs <> [] -> ret = HA_ERR_WRONG_COMMAND \/
     (e = ERR_WRITE_OPT_IN_READONLY /\ ret = HA_ERR_READ_ONLY_TRANSACTION)).
Proof.
  destruct e; vm_compute; repeat split; try discriminate; try (by intros []); auto.
Qed.

(** The table's entries for lock timeouts and for [NOWAIT] conflicts are
    never used: both errors send a message first and are then answered with
    [HA_ERR_WRONG_COMMAND]; all other entries take effect. *)
Theorem err_code_lookup_shadowed :
  convert_ctc_error_code_to_mysql ERR_LOCK_TIMEOUT
    = (HA_ERR_WRONG_COMMAND, [ER_LOCK_WAIT_TIMEOUT]) /\
  convert_ctc_error_code_to_mysql ERR_ROW_LOCKED_NOWAIT
    = (HA_ERR_WRONG_COMMAND, [ER_LOCK_NOWAIT]) /\
  Forall (fun '(e, v) => shadowed e = false -> convert_ctc_error_code_to_mysql e = (v, []))
    err_code_lookup_map.
Proof.
  split; [reflexivity|]. split; [reflexivity|].
  repeat constructor; intros H; first [discriminate H | reflexivity].
Qed.

End CtcError.
