(* ===== verification/Blob.v ===== *)
(** * Blob: large objects

    Models [convert_blob_to_cantian] and [convert_blob_to_mysql] of
    [datatype_cnvrtr.cc]: short objects are stored inside the locator, long
    ones piece by piece through the engine.  The engine's large-object
    interface ([ctc_knl_write_lob], [ctc_knl_read_lob]) is the class
    [LobStore].  Memory that the server frees is a list of buffers: pointer
    [p > 0] is the buffer number [p - 1], and 0 is the null pointer. *)

From S2P Require Import Prelude CtcError.
Import CtcError.

Module Blob.

(** ** Constants and the locator *)

Definition LOB_DATA_SIZE_100K : Z := 1024 * 100.
Definition LOB_DATA_SIZE_1M : Z := 1024 * 1024.
Definition LOB_DATA_SIZE_8M : Z := 1024 * 1024 * 8.
Definition LOB_DATA_BUFFER_SIZE_8K : Z := 1024 * 8.
Definition CTC_LOB_LOCATOR_BUF_SIZE : Z := 4012.

(** [lob_locator_t]: the head is three 32-bit words, then data or padding. *)
Definition lob_data_offset : Z := 12.
Definition lob_locator_sizeof : Z := 44.
Definition CTC_LOB_MAX_INLINE_SIZE : Z := CTC_LOB_LOCATOR_BUF_SIZE - lob_data_offset.

Definition lob_head_bytes (size type outline_word : Z) : list Z :=
  le_bytes 4 size ++ le_bytes 4 type ++ le_bytes 4 outline_word.

Definition lob_size (loc : list Z) : Z := le_val (take 4 loc).
Definition lob_is_outline (loc : list Z) : bool :=
  Z.odd (le_val (take 4 (drop 8 loc))).
Definition lob_data (loc : list Z) : list Z := drop 12 loc.

Definition get_lob_locator_size (loc : list Z) : Z :=
  if lob_is_outline loc then lob_locator_sizeof else wrapU 32 (lob_size loc + lob_data_offset).

Definition g_blob_field_buffer_size_map (k : Z) : option Z :=
  if k =? LOB_DATA_SIZE_100K then Some LOB_DATA_BUFFER_SIZE_8K
  else if k =? LOB_DATA_SIZE_1M then Some LOB_DATA_SIZE_100K
  else if k =? LOB_DATA_SIZE_8M then Some LOB_DATA_SIZE_1M
  else None.

(** [None] is the exception of [unordered_map::at]. *)
Definition get_blob_buffer_size (remain_size : Z) : option Z :=
  if remain_size <? LOB_DATA_SIZE_100K then g_blob_field_buffer_size_map LOB_DATA_SIZE_100K
  else if remain_size <? LOB_DATA_SIZE_1M then g_blob_field_buffer_size_map LOB_DATA_SIZE_1M
  else if remain_size <? LOB_DATA_SIZE_8M then g_blob_field_buffer_size_map LOB_DATA_SIZE_8M
  else Some LOB_DATA_SIZE_8M.

(** ** The engine's interface *)

Class LobStore := {
  lob_state : Type;
  (* state, locator, column, piece, force_outline *)
  write_lob : lob_state -> list Z -> Z -> list Z -> bool -> ct_errno_t * lob_state * list Z;
  (* state, locator, offset, size: status and the bytes read *)
  read_lob : lob_state -> list Z -> Z -> Z -> ct_errno_t * list Z }.

(** What the engine promises.  [lob_holds st loc d]: in state [st] the
    locator [loc] refers to an object with content [d]. *)
Class LobStoreLaws (L : LobStore) := {
  lob_holds : lob_state -> list Z -> list Z -> Prop;
  lob_write_first st loc col d st' loc' :
    lob_size loc = 0 -> (44 <= length loc)%nat -> d <> [] ->
    write_lob st loc col d false = (CT_SUCCESS, st', loc') ->
    lob_holds st' loc' d /\ length loc' = length loc;
  lob_write_more st loc col d d0 st' loc' :
    lob_holds st loc d0 -> write_lob st loc col d true = (CT_SUCCESS, st', loc') ->
    lob_holds st' loc' (d0 ++ d) /\ length loc' = length loc;
  lob_holds_head st loc d :
    lob_holds st loc d -> Z.of_nat (length d) < 2 ^ 32 ->
    lob_size loc = Z.of_nat (length d) /\ lob_is_outline loc = true;
  lob_read st loc loc2 d off len e bs :
    lob_holds st loc d -> take 44 loc2 = take 44 loc ->
    0 <= off < Z.of_nat (length d) -> 0 < len ->
    read_lob st loc2 off len = (e, bs) -> e = CT_SUCCESS ->
    Z.of_nat (length bs) <= len /\ bs = take (length bs) (drop (Z.to_nat off) d) }.

Section Conversions.
Context {L : LobStore}.

(** ** Writing *)

(** The loop over the pieces; the result keeps the status of the last call. *)
Fixpoint write_pieces (fuel : nat) (st : lob_state) (loc : list Z) (col : Z)
    (blob : list Z) (offset remain_size buffer_size : Z) (force_outline : bool)
  : option (ct_errno_t * lob_state * list Z) :=
  if remain_size <=? 0 then Some (CT_SUCCESS, st, loc) else
  match fuel with
  | O => None
  | S fuel' =>
    let len := if buffer_size <? remain_size then buffer_size else remain_size in
    piece ← rd blob offset len;
    let '(ret, st', loc') := write_lob st loc col piece force_outline in
    if decide (ret = CT_SUCCESS)
    then write_pieces fuel' st' loc' col blob (offset + len) (remain_size - len)
           buffer_size true
    else Some (ret, st', loc')
  end.

(** The handler code, the messages, the row, its offset, the length recorded
    for the field and the engine's state. *)
Definition convert_blob_to_cantian (mem_ok : bool) (cbuf : list Z) (coff : Z)
    (blob : list Z) (col : Z) (st : lob_state)
  : option (mysql_errno * list mysql_errno * list Z * Z * Z * lob_state) :=
  let remain_size := Z.of_nat (length blob) in
  buffer_size ← get_blob_buffer_size remain_size;
  if buffer_size <? CTC_LOB_LOCATOR_BUF_SIZE then None else
  let locator_size := lob_data_offset + remain_size in
  let locator_size := if CTC_LOB_LOCATOR_BUF_SIZE <? locator_size
                      then CTC_LOB_LOCATOR_BUF_SIZE else locator_size in
  if negb mem_ok then Some (HA_ERR_SE_OUT_OF_MEMORY, [], cbuf, coff, 0, st) else
  let loc := lob_head_bytes 0 (2 ^ 32 - 1) (2 ^ 32 - 1)
             ++ replicate (Z.to_nat (locator_size - lob_data_offset)) 255 in
  r ← (if remain_size <=? CTC_LOB_MAX_INLINE_SIZE
       then Some (CT_SUCCESS, st, lob_head_bytes remain_size 0 (2 ^ 32 - 2) ++ blob)
       else write_pieces (length blob) st loc col blob 0 remain_size buffer_size false);
  let '(ret, st', loc') := r in
  if decide (ret = CT_SUCCESS) then
    let field_len := get_lob_locator_size loc' in
    cbuf ← wr cbuf coff (le_bytes 2 field_len);
    let coff := coff + 2 in
    data ← rd loc' 0 field_len;
    cbuf ← wr cbuf coff data;
    Some (HA_OK, [], cbuf, coff, field_len, st')
  else
    let '(code, msgs) := convert_ctc_error_code_to_mysql ret in
    Some (code, msgs, cbuf, coff, 0, st').

(** ** Reading *)

(** The loop over the pieces: the bytes read so far, and whether all were. *)
Fixpoint read_pieces (fuel : nat) (st : lob_state) (loc : list Z) (buf : list Z)
    (remain_size buffer_size : Z) : option (bool * list Z) :=
  if remain_size <=? 0 then Some (true, buf) else
  match fuel with
  | O => None
  | S fuel' =>
    let piece_len := if buffer_size <? remain_size then buffer_size else remain_size in
    let '(ret, bs) := read_lob st loc (Z.of_nat (length buf)) piece_len in
    if negb (bool_decide (ret = CT_SUCCESS)) then Some (false, buf)
    else if Z.of_nat (length bs) <=? 0 then Some (false, buf)
    else if piece_len <? Z.of_nat (length bs) then None
    else read_pieces fuel' st loc (buf ++ bs) (remain_size - Z.of_nat (length bs)) buffer_size
  end.

Definition heap := list (list Z).

Definition my_malloc (h : heap) (content : list Z) : heap * Z :=
  (h ++ [content], Z.of_nat (length h) + 1).

(** The heap and the pointer stored at [mysql_ptr], if one is stored. *)
Definition convert_blob_to_mysql (mem_ok : bool) (h : heap) (cptr : list Z) (st : lob_state)
  : option (heap * option Z) :=
  let blob_len := lob_size cptr in
  if blob_len =? 0 then
    if mem_ok then let '(h', p) := my_malloc h [] in Some (h', Some p)
    else Some (h, Some 0)
  else if negb mem_ok then Some (h, None)
  else if negb (lob_is_outline cptr) then
    data ← rd cptr lob_data_offset blob_len;
    let '(h', p) := my_malloc h data in Some (h', Some p)
  else
    buffer_size ← get_blob_buffer_size blob_len;
    match read_pieces (Z.to_nat blob_len) st cptr [] blob_len buffer_size with
    | Some (true, buf) => let '(h', p) := my_malloc h buf in Some (h', Some p)
    | Some (false, _) => Some (h, Some 0)
    | None => None
    end.

Definition deref (h : heap) (p : Z) : option (list Z) :=
  if 0 <? p then h !! Z.to_nat (p - 1) else None.

End Conversions.

(** ** Lemmas *)

Lemma get_blob_buffer_size_spec n :
  exists b, get_blob_buffer_size n = Some b /\ CTC_LOB_LOCATOR_BUF_SIZE <= b <= LOB_DATA_SIZE_8M.
Proof.
  unfold get_blob_buffer_size. repeat case_match; eexists; (split; [vm_compute; reflexivity|]);
    vm_compute; split; discriminate.
Qed.

Lemma deref_malloc h c : deref (h ++ [c]) (Z.of_nat (length h) + 1) = Some c.
Proof.
  unfold deref. rewrite (proj2 (Z.ltb_lt _ _)) by lia.
  replace (Z.to_nat (Z.of_nat (length h) + 1 - 1)) with (length h) by lia.
  by apply list_lookup_middle.
Qed.

Lemma length_lob_head s t o : length (lob_head_bytes s t o) = 12%nat.
Proof. unfold lob_head_bytes. by rewrite !length_app, !length_le_bytes. Qed.

Lemma take_app_exact {A} n (l1 l2 : list A) : length l1 = n -> take n (l1 ++ l2) = l1.
Proof. intros <-. apply take_app_length. Qed.

Lemma drop_app_exact {A} n (l1 l2 : list A) : length l1 = n -> drop n (l1 ++ l2) = l2.
Proof. intros <-. apply drop_app_length. Qed.

Lemma lob_size_head s t o rest : 0 <= s < 2 ^ 32 -> lob_size (lob_head_bytes s t o ++ rest) = s.
Proof.
  intros Hs. unfold lob_size, lob_head_bytes. rewrite <- !app_assoc.
  rewrite take_app_exact by apply length_le_bytes.
  rewrite le_val_le_bytes. by apply Z.mod_small.
Qed.

Lemma lob_outline_head s t o rest :
  0 <= o < 2 ^ 32 -> lob_is_outline (lob_head_bytes s t o ++ rest) = Z.odd o.
Proof.
  intros Ho. unfold lob_is_outline, lob_head_bytes. rewrite <- !app_assoc.
  change 8%nat with (4 + 4)%nat. rewrite <- drop_drop.
  rewrite !drop_app_exact by apply length_le_bytes.
  rewrite take_app_exact by apply length_le_bytes.
  rewrite le_val_le_bytes. f_equal. by apply Z.mod_small.
Qed.

Lemma lob_head_ext loc loc2 :
  take 44 loc2 = take 44 loc ->
  lob_size loc2 = lob_size loc /\ lob_is_outline loc2 = lob_is_outline loc.
Proof.
  intros H. assert (forall l : list Z, lob_size l = lob_size (take 44 l) /\
    lob_is_outline l = lob_is_outline (take 44 l)) as Hl.
  { intros l. unfold lob_size, lob_is_outline.
    rewrite !take_drop_commute, !take_take. done. }
  destruct (Hl loc) as [-> ->], (Hl loc2) as [-> ->]. by rewrite H.
Qed.

Section RoundTrip.
Context {L : LobStore} {LL : LobStoreLaws L}.

Lemma write_pieces_spec fuel st loc col blob offset buffer (force : bool) r :
  0 < buffer -> 0 <= offset <= Z.of_nat (length blob) ->
  Z.of_nat (length blob) - offset <= Z.of_nat fuel -> offset < Z.of_nat (length blob) \/ force = true ->
  (if force then lob_holds st loc (take (Z.to_nat offset) blob)
   else offset = 0 /\ lob_size loc = 0 /\ (44 <= length loc)%nat : Prop) ->
  write_pieces fuel st loc col blob offset (Z.of_nat (length blob) - offset) buffer force = r ->
  exists ret st' loc', r = Some (ret, st', loc') /\
    (ret = CT_SUCCESS -> lob_holds st' loc' blob /\ length loc' = length loc).
Proof.
  intros Hbuf. revert st loc offset force. induction fuel as [|fuel IH];
    intros st loc offset force Hoff Hfuel Hne Hinv Hr; cbn [write_pieces] in Hr.
  - assert (offset = Z.of_nat (length blob)) as -> by lia.
    rewrite (proj2 (Z.leb_le _ 0)) in Hr by lia. destruct force; [|lia].
    rewrite take_ge in Hinv by lia. subst r. eauto 10.
  - destruct (Z.of_nat (length blob) - offset <=? 0) eqn:E; zb.
    { assert (offset = Z.of_nat (length blob)) as -> by lia.
      destruct force; [|lia]. rewrite take_ge in Hinv by lia. subst r. eauto 10. }
    set (len := if buffer <? _ then _ else _) in Hr.
    assert (0 < len /\ offset + len <= Z.of_nat (length blob)) as [Hlen Hle]
      by (subst len; destruct (_ <? _) eqn:E2; zb; lia).
    rewrite rd_Some in Hr by lia. cbn [mbind option_bind] in Hr.
    set (piece := take _ _) in Hr.
    assert (take (Z.to_nat (offset + len)) blob = take (Z.to_nat offset) blob ++ piece) as Hcat.
    { unfold piece. replace (Z.to_nat (offset + len)) with (Z.to_nat offset + Z.to_nat len)%nat by lia.
      symmetry. apply take_take_drop. }
    assert (length piece = Z.to_nat len) as Hpl
      by (unfold piece; rewrite length_take, length_drop; lia).
    destruct (write_lob st loc col piece force) as [[ret st'] loc'] eqn:Hw.
    destruct (decide (ret = CT_SUCCESS)) as [->|Hret].
    + assert (lob_holds st' loc' (take (Z.to_nat (offset + len)) blob) /\ length loc' = length loc)
        as [Hh Hll].
      { rewrite Hcat. destruct force.
        - eapply lob_write_more; eauto.
        - destruct Hinv as (-> & Hs & Hl44). simpl app.
          eapply lob_write_first; eauto. intros Hp. rewrite Hp in Hpl. simpl in Hpl. lia. }
      replace (Z.of_nat (length blob) - offset - len)
        with (Z.of_nat (length blob) - (offset + len)) in Hr by lia.
      edestruct (IH st' loc' (offset + len) true) as (ret & st2 & loc2 & Heq & Hok);
        [lia|lia|by right|exact Hh|exact Hr|].
      exists ret, st2, loc2. split; [done|]. intros Hs.
      destruct (Hok Hs) as [? ?]. split; [done|lia].
    + subst r. eexists _, _, _. split; [done|]. intros ->. done.
Qed.

Lemma read_pieces_spec fuel st loc loc2 blob buf buffer :
  0 < buffer -> lob_holds st loc blob -> take 44 loc2 = take 44 loc ->
  buf = take (length buf) blob -> (length buf <= length blob)%nat ->
  (length blob - length buf <= fuel)%nat ->
  exists flag buf', read_pieces fuel st loc2 buf
      (Z.of_nat (length blob) - Z.of_nat (length buf)) buffer = Some (flag, buf') /\
    (flag = true -> buf' = blob) /\
    ((forall off len, 0 <= off < Z.of_nat (length blob) -> 0 < len ->
        exists bs, read_lob st loc2 off len = (CT_SUCCESS, bs) /\ bs <> []) -> flag = true).
Proof.
  intros Hbuf Hh Hhead. revert buf. induction fuel as [|fuel IH];
    intros buf Hpre Hle Hf; cbn [read_pieces].
  - rewrite (proj2 (Z.leb_le _ 0)) by lia. eexists _, _. split; [done|]. split; [|done].
    intros _. rewrite Hpre. apply take_ge. lia.
  - destruct (_ <=? 0) eqn:E; zb.
    { eexists _, _. split; [done|]. split; [|done].
      intros _. rewrite Hpre. apply take_ge. lia. }
    set (len := if buffer <? _ then _ else _).
    assert (0 < len <= Z.of_nat (length blob) - Z.of_nat (length buf)) as Hlen
      by (subst len; destruct (_ <? _) eqn:E2; zb; lia).
    destruct (read_lob st loc2 (Z.of_nat (length buf)) len) as [ret bs] eqn:Hr.
    destruct (bool_decide (ret = CT_SUCCESS)) eqn:Hret; cbn [negb].
    2:{ apply bool_decide_eq_false in Hret. eexists _, _. split; [done|]. split; [done|].
        intros Hok. destruct (Hok (Z.of_nat (length buf)) len) as (bs' & Hbs & _); [lia|lia|].
        congruence. }
    apply bool_decide_eq_true in Hret. subst ret.
    destruct (Z.of_nat (length bs) <=? 0) eqn:E2; zb.
    { eexists _, _. split; [done|]. split; [done|]. intros Hok.
      destruct (Hok (Z.of_nat (length buf)) len) as (bs' & Hbs & Hne); [lia|lia|].
      rewrite Hr in Hbs. injection Hbs as <-. destruct bs; [done|simpl in *; lia]. }
    destruct (lob_read st loc loc2 blob (Z.of_nat (length buf)) len CT_SUCCESS bs)
      as [Hbl Hbs]; [done|done|lia|lia|done|done|].
    rewrite (proj2 (Z.ltb_ge len _)) by lia. rewrite Nat2Z.id in Hbs.
    destruct (IH (buf ++ bs)) as (flag & buf' & Hrd & Hfl & Hok).
    + rewrite length_app, <- take_take_drop, <- Hbs, <- Hpre. done.
    + rewrite length_app. lia.
    + rewrite length_app. lia.
    + rewrite length_app, Nat2Z.inj_add in Hrd.
      replace (Z.of_nat (length blob) - Z.of_nat (length buf) - Z.of_nat (length bs))
        with (Z.of_nat (length blob) - (Z.of_nat (length buf) + Z.of_nat (length bs))) by lia.
      rewrite Hrd. eauto.
Qed.

Lemma rd_prefix buf n bs :
  rd buf 0 n = Some bs -> exists rest, buf = bs ++ rest /\ Z.of_nat (length bs) = n.
Proof.
  intros H. apply rd_inv in H as (_ & Hn & Hl & Hlen & Hbs).
  rewrite drop_0 in Hbs. exists (drop (Z.to_nat n) buf). rewrite Hbs at 1.
  rewrite take_drop. split; [done|]. lia.
Qed.

(** Room that the row must have at the object's offset. *)
Definition blob_room (n : Z) : Z := 2 + Z.max 44 (12 + Z.min n CTC_LOB_MAX_INLINE_SIZE).

Lemma blob_inline cbuf coff blob col st :
  Z.of_nat (length blob) <= CTC_LOB_MAX_INLINE_SIZE -> 0 <= coff ->
  coff + blob_room (Z.of_nat (length blob)) <= Z.of_nat (length cbuf) ->
  exists cbuf', convert_blob_to_cantian true cbuf coff blob col st
      = Some (HA_OK, [], cbuf', coff + 2, 12 + Z.of_nat (length blob), st) /\
    length cbuf' = length cbuf /\
    rd cbuf' coff 2 = Some (le_bytes 2 (12 + Z.of_nat (length blob))) /\
    rd cbuf' (coff + 2) (12 + Z.of_nat (length blob))
      = Some (lob_head_bytes (Z.of_nat (length blob)) 0 (2 ^ 32 - 2) ++ blob).
Proof.
  intros Hn Hc Hroom. unfold blob_room, CTC_LOB_MAX_INLINE_SIZE, CTC_LOB_LOCATOR_BUF_SIZE,
    lob_data_offset in *.
  unfold convert_blob_to_cantian.
  destruct (get_blob_buffer_size_spec (Z.of_nat (length blob))) as (b & -> & Hb).
  cbn [mbind option_bind]. rewrite (proj2 (Z.ltb_ge b _)) by lia. cbn [negb].
  change CTC_LOB_MAX_INLINE_SIZE with 4000. rewrite (proj2 (Z.leb_le _ 4000)) by lia.
  cbn [mbind option_bind]. destruct (decide (CT_SUCCESS = CT_SUCCESS)); [|done].
  set (n := Z.of_nat (length blob)) in *. set (head := lob_head_bytes n 0 (2 ^ 32 - 2)).
  assert (get_lob_locator_size (head ++ blob) = 12 + n) as ->.
  { unfold get_lob_locator_size, head. rewrite lob_outline_head by lia. cbn [Z.odd].
    rewrite lob_size_head by lia. unfold lob_data_offset. rewrite wrapU_small by lia.
    change (Z.odd (2 ^ 32 - 2)) with false. cbv iota. lia. }
  assert (length (head ++ blob) = Z.to_nat (12 + n)) as Hlen
    by (rewrite length_app; unfold head; rewrite length_lob_head; lia).
  destruct (wr_Some cbuf coff (le_bytes 2 (12 + n))) as [c1 H1];
    [lia|rewrite length_le_bytes; lia|].
  rewrite H1. cbn [mbind option_bind]. pose proof (length_wr _ _ _ _ H1) as Hl1.
  rewrite rd_Some by lia. rewrite drop_0, take_ge by lia. cbn [mbind option_bind].
  destruct (wr_Some c1 (coff + 2) (head ++ blob)) as [c2 H2]; [lia|lia|].
  rewrite H2. cbn [mbind option_bind]. pose proof (length_wr _ _ _ _ H2) as Hl2.
  exists c2. split; [done|]. split; [lia|]. split.
  - rewrite (rd_wr_other _ _ _ _ coff 2 H2) by lia.
    change 2 with (Z.of_nat (length (le_bytes 2 (12 + n)))). by apply (rd_wr_same cbuf).
  - replace (12 + n) with (Z.of_nat (length (head ++ blob))) by lia. by apply (rd_wr_same c1).
Qed.

Lemma blob_outline cbuf coff blob col st :
  CTC_LOB_MAX_INLINE_SIZE < Z.of_nat (length blob) < 2 ^ 32 -> 0 <= coff ->
  coff + blob_room (Z.of_nat (length blob)) <= Z.of_nat (length cbuf) ->
  exists code msgs cbuf' coff' flen st',
    convert_blob_to_cantian true cbuf coff blob col st
      = Some (code, msgs, cbuf', coff', flen, st') /\ length cbuf' = length cbuf /\
    (code = HA_OK ->
     coff' = coff + 2 /\ flen = 44 /\ rd cbuf' coff 2 = Some (le_bytes 2 44) /\
     exists loc, lob_holds st' loc blob /\ rd cbuf' (coff + 2) 44 = Some (take 44 loc) /\
       (44 <= length loc)%nat).
Proof.
  intros Hn Hc Hroom. unfold blob_room, CTC_LOB_MAX_INLINE_SIZE, CTC_LOB_LOCATOR_BUF_SIZE,
    lob_data_offset in *.
  unfold convert_blob_to_cantian.
  destruct (get_blob_buffer_size_spec (Z.of_nat (length blob))) as (b & -> & Hb).
  cbn [mbind option_bind]. rewrite (proj2 (Z.ltb_ge b _)) by lia. cbn [negb].
  change CTC_LOB_MAX_INLINE_SIZE with 4000. rewrite (proj2 (Z.leb_gt _ 4000)) by lia.
  unfold CTC_LOB_LOCATOR_BUF_SIZE, lob_data_offset in *.
  rewrite (proj2 (Z.ltb_lt 4012 _)) by lia.
  set (loc0 := lob_head_bytes 0 (2 ^ 32 - 1) (2 ^ 32 - 1) ++ _).
  assert (lob_size loc0 = 0 /\ length loc0 = 4012%nat) as [Hs0 Hl0].
  { split; [unfold loc0; apply lob_size_head; lia|]. unfold loc0.
    rewrite length_app, length_lob_head, length_replicate. lia. }
  clearbody loc0.
  destruct (write_pieces_spec (length blob) st loc0 col blob 0 b false
    (write_pieces (length blob) st loc0 col blob 0 (Z.of_nat (length blob) - 0) b false))
    as (ret & st' & loc' & Hw & Hok); [lia|lia|lia|left; lia|split; [done|split; [done|lia]]|done|].
  rewrite Z.sub_0_r in Hw. rewrite Hw. cbn [mbind option_bind].
  destruct (decide (ret = CT_SUCCESS)) as [->|Hne].
  2:{ destruct (convert_ctc_error_code_to_mysql ret) as [code msgs] eqn:Hcode.
      eexists _, _, _, _, _, _. split; [done|]. split; [done|]. intros ->. exfalso. apply Hne.
      clear -Hcode. destruct ret; vm_compute in Hcode; congruence. }
  destruct (Hok eq_refl) as [Hh Hll]. destruct (lob_holds_head _ _ _ Hh) as [_ Ho]; [lia|].
  unfold get_lob_locator_size. rewrite Ho. unfold lob_locator_sizeof.
  destruct (wr_Some cbuf coff (le_bytes 2 44)) as [c1 H1]; [lia|rewrite length_le_bytes; lia|].
  rewrite H1. cbn [mbind option_bind]. pose proof (length_wr _ _ _ _ H1) as Hl1.
  rewrite rd_Some by lia. rewrite drop_0. change (Z.to_nat 44) with 44%nat.
  cbn [mbind option_bind]. assert (length (take 44 loc') = 44%nat) as H44
    by (rewrite length_take; lia).
  destruct (wr_Some c1 (coff + 2) (take 44 loc')) as [c2 H2]; [lia|lia|].
  rewrite H2. cbn [mbind option_bind]. pose proof (length_wr _ _ _ _ H2) as Hl2.
  eexists _, _, _, _, _, _. split; [done|]. split; [lia|]. intros _. split; [done|].
  split; [done|]. split.
  - rewrite (rd_wr_other _ _ _ _ coff 2 H2) by lia.
    change 2 with (Z.of_nat (length (le_bytes 2 44))). by apply (rd_wr_same cbuf).
  - exists loc'. split; [done|]. split; [|lia].
    change 44 with (Z.of_nat 44) at 1. rewrite <- H44 at 1. by apply (rd_wr_same c1).
Qed.

Lemma blob_read_inline h blob rest st :
  Z.of_nat (length blob) <= CTC_LOB_MAX_INLINE_SIZE ->
  exists h', convert_blob_to_mysql true h
      (lob_head_bytes (Z.of_nat (length blob)) 0 (2 ^ 32 - 2) ++ blob ++ rest) st
    = Some (h', Some (Z.of_nat (length h) + 1)) /\ h' = h ++ [blob].
Proof.
  intros Hn. unfold CTC_LOB_MAX_INLINE_SIZE, CTC_LOB_LOCATOR_BUF_SIZE, lob_data_offset in Hn.
  unfold convert_blob_to_mysql. rewrite lob_size_head by lia.
  destruct (Z.of_nat (length blob) =? 0) eqn:E; zb.
  { destruct blob; [|simpl in E; lia]. simpl. eauto. }
  cbn [negb]. rewrite lob_outline_head by lia. change (Z.odd (2 ^ 32 - 2)) with false.
  cbn [negb]. unfold lob_data_offset.
  rewrite rd_Some by (rewrite ?length_app, ?length_lob_head; lia).
  rewrite drop_app_exact by (by rewrite length_lob_head).
  rewrite take_app_exact by lia. cbn [mbind option_bind]. eauto.
Qed.

Lemma blob_read_outline h loc loc2 blob st :
  lob_holds st loc blob -> 0 < Z.of_nat (length blob) < 2 ^ 32 -> take 44 loc2 = take 44 loc ->
  exists h' p, convert_blob_to_mysql true h loc2 st = Some (h', Some p) /\
    (p = 0 \/ deref h' p = Some blob) /\
    ((forall off len, 0 <= off < Z.of_nat (length blob) -> 0 < len ->
       exists bs, read_lob st loc2 off len = (CT_SUCCESS, bs) /\ bs <> []) -> p <> 0).
Proof.
  intros Hh Hn H44. destruct (lob_holds_head _ _ _ Hh) as [Hs Ho]; [lia|].
  destruct (lob_head_ext _ _ H44) as [Hs2 Ho2].
  unfold convert_blob_to_mysql. rewrite Hs2, Ho2, Hs, Ho.
  rewrite (proj2 (Z.eqb_neq _ 0)) by lia. cbn [negb].
  destruct (get_blob_buffer_size_spec (Z.of_nat (length blob))) as (b & -> & Hb).
  cbn [mbind option_bind]. unfold CTC_LOB_LOCATOR_BUF_SIZE in Hb.
  destruct (read_pieces_spec (Z.to_nat (Z.of_nat (length blob))) st loc loc2 blob [] b)
    as (flag & buf & Hr & Hflag & Hok); try done; try (simpl; lia).
  simpl length in Hr. rewrite Z.sub_0_r in Hr. rewrite Hr.
  destruct flag.
  - rewrite Hflag by done. eexists _, _. split; [reflexivity|]. split; [right; apply deref_malloc|].
    intros _. lia.
  - eexists _, _. split; [reflexivity|]. split; [by left|]. intros H. by apply Hok in H.
Qed.

End RoundTrip.

(** ** Properties *)

(** A large object of any size below 4 GiB is written with a length prefix
    that fits the row's two bytes, and as long as the locator is still at
    its place in the row, reading gives either the object itself or, when
    the engine fails or stops, a null pointer; it is the object whenever the
    engine's reads succeed.  The loops over the pieces terminate. *)
Theorem blob_round_trip (L : LobStore) (LL : LobStoreLaws L) (cbuf : list Z) (coff : Z)
    (blob : list Z) (col : Z) (st : lob_state) (h : heap)
    (Hn : Z.of_nat (length blob) < 2 ^ 32) (Hc : 0 <= coff)
    (Hroom : coff + blob_room (Z.of_nat (length blob)) <= Z.of_nat (length cbuf)) :
  exists code msgs cbuf' coff' flen st',
    convert_blob_to_cantian true cbuf coff blob col st
      = Some (code, msgs, cbuf', coff', flen, st') /\
    (code = HA_OK ->
     coff' = coff + 2 /\ 0 < flen < 2 ^ 16 /\ rd cbuf' coff 2 = Some (le_bytes 2 flen) /\
     forall cptr, rd cptr 0 flen = rd cbuf' coff' flen ->
     exists h' p, convert_blob_to_mysql true h cptr st' = Some (h', Some p) /\
       (p = 0 \/ deref h' p = Some blob) /\
       ((forall off len, 0 <= off < Z.of_nat (length blob) -> 0 < len ->
          exists bs, read_lob st' cptr off len = (CT_SUCCESS, bs) /\ bs <> []) -> p <> 0)).
Proof.
  destruct (Z_le_dec (Z.of_nat (length blob)) CTC_LOB_MAX_INLINE_SIZE) as [Hin|Hout].
  - destruct (blob_inline cbuf coff blob col st Hin Hc Hroom) as (cbuf' & -> & _ & Hp & Hd).
    assert (CTC_LOB_MAX_INLINE_SIZE = 4000) as H4 by done.
    eexists _, _, _, _, _, _. split; [done|]. intros _. split; [done|]. split; [lia|].
    split; [done|]. intros cptr Hptr. rewrite Hd in Hptr.
    apply rd_prefix in Hptr as (rest & -> & _). rewrite <- app_assoc.
    destruct (blob_read_inline h blob rest st Hin) as (h' & -> & ->).
    eexists _, _. split; [done|]. split; [right; apply deref_malloc|]. lia.
  - destruct (blob_outline cbuf coff blob col st ltac:(lia) Hc Hroom)
      as (code & msgs & cbuf' & coff' & flen & st' & -> & _ & Hok).
    eexists _, _, _, _, _, _. split; [done|]. intros Hcode.
    destruct (Hok Hcode) as (-> & -> & Hp & loc & Hh & Hd & Hll).
    split; [done|]. split; [lia|]. split; [done|]. intros cptr Hptr. rewrite Hd in Hptr.
    apply rd_prefix in Hptr as (rest & Hcp & Hl).
    apply (blob_read_outline h loc); [done| |].
    + unfold CTC_LOB_MAX_INLINE_SIZE, CTC_LOB_LOCATOR_BUF_SIZE, lob_data_offset in Hout. lia.
    + rewrite Hcp, take_app_exact; [done|]. lia.
Qed.

(** A store to instantiate the interface: objects are numbered, and the
    number is the second word of the locator. *)
Definition demo_locator (n id : Z) (loc : list Z) : list Z :=
  lob_head_bytes n id 1 ++ drop 12 loc.

Definition demo_id (loc : list Z) : nat := Z.to_nat (le_val (take 4 (drop 4 loc))).

#[export] Instance demo_store : LobStore := {|
  lob_state := list (list Z);
  write_lob st loc col d force :=
    if force then
      match st !! demo_id loc with
      | Some d0 => (CT_SUCCESS, <[demo_id loc := d0 ++ d]> st,
                    demo_locator (Z.of_nat (length (d0 ++ d))) (Z.of_nat (demo_id loc)) loc)
      | None => (ERR_READ_LOB_NULL, st, loc)
      end
    else if 2 ^ 32 <=? Z.of_nat (length st) then (ERR_ALLOC_MEMORY, st, loc)
    else (CT_SUCCESS, st ++ [d],
          demo_locator (Z.of_nat (length d)) (Z.of_nat (length st)) loc);
  read_lob st loc off len :=
    match st !! demo_id loc with
    | Some d => (CT_SUCCESS, take (Z.to_nat len) (drop (Z.to_nat off) d))
    | None => (ERR_READ_LOB_NULL, [])
    end |}.

Definition demo_holds (st : list (list Z)) (loc d : list Z) : Prop :=
  exists id tl, Z.of_nat id < 2 ^ 32 /\ st !! id = Some d /\ (32 <= length tl)%nat /\
    loc = lob_head_bytes (Z.of_nat (length d)) (Z.of_nat id) 1 ++ tl.

Lemma demo_id_head n id o rest :
  Z.of_nat id < 2 ^ 32 -> demo_id (lob_head_bytes n (Z.of_nat id) o ++ rest) = id.
Proof.
  intros H. unfold demo_id, lob_head_bytes. rewrite <- !app_assoc.
  rewrite drop_app_exact by apply length_le_bytes.
  rewrite take_app_exact by apply length_le_bytes.
  rewrite le_val_le_bytes, Z.mod_small by (split; [lia|exact H]). lia.
Qed.

#[export] Instance demo_store_laws : LobStoreLaws demo_store.
Proof.
  refine {| lob_holds := demo_holds : @lob_state demo_store -> _ |}.
  - intros st loc col d st' loc' Hs Hl Hd. cbn [write_lob demo_store].
    destruct (2 ^ 32 <=? _) eqn:E; zb; [done|]. intros [= <- <-].
    split; [|unfold demo_locator; rewrite length_app, length_lob_head, length_drop; lia].
    exists (length st), (drop 12 loc). split; [done|]. split; [by apply list_lookup_middle|].
    split; [rewrite length_drop; lia|done].
  - intros st loc col d d0 st' loc' (id & tl & Hid & Hst & Htl & ->).
    cbn [write_lob demo_store]. rewrite demo_id_head by done. rewrite Hst. intros Heq.
    pose proof (f_equal (fun r => snd (fst r)) Heq) as H1. pose proof (f_equal snd Heq) as H2.
    cbn [fst snd] in H1, H2. subst st' loc'. unfold demo_locator. rewrite drop_app_exact by apply length_lob_head.
    split; [|by rewrite !length_app, !length_lob_head].
    exists id, tl. split; [done|]. split; [|done].
    apply list_lookup_insert_eq. by apply lookup_lt_Some in Hst.
  - intros st loc d (id & tl & Hid & Hst & Htl & ->) Hd.
    rewrite lob_size_head by lia. by rewrite lob_outline_head by lia.
  - intros st loc loc2 d off len e bs (id & tl & Hid & Hst & Htl & ->) H44 Hoff Hlen.
    assert (demo_id loc2 = id) as Hid2.
    { rewrite <- (take_drop 44 loc2), H44. rewrite take_app_ge by (rewrite length_lob_head; lia).
      rewrite <- app_assoc. by apply demo_id_head. }
    cbn [read_lob demo_store]. rewrite Hid2, Hst. intros [= <- <-] _.
    rewrite length_take, length_drop. split; [lia|].
    destruct (Nat.min_spec (Z.to_nat len) (length d - Z.to_nat off)) as [[Hm ->]|[Hm ->]];
      [done|]. by rewrite !take_ge by (rewrite length_drop; lia).
Defined.

Lemma blob_round_trip_witness :
  exists code msgs cbuf' coff' flen st',
    convert_blob_to_cantian true (replicate 100 0) 8 [7; 7; 7] 2 []
      = Some (code, msgs, cbuf', coff', flen, st') /\
    (code = HA_OK ->
     coff' = 8 + 2 /\ 0 < flen < 2 ^ 16 /\ rd cbuf' 8 2 = Some (le_bytes 2 flen) /\
     forall cptr, rd cptr 0 flen = rd cbuf' coff' flen ->
     exists h' p, convert_blob_to_mysql true [] cptr st' = Some (h', Some p) /\
       (p = 0 \/ deref h' p = Some [7; 7; 7]) /\
       ((forall off len, 0 <= off < Z.of_nat (length [7; 7; 7]) -> 0 < len ->
          exists bs, read_lob st' cptr off len = (CT_SUCCESS, bs) /\ bs <> []) -> p <> 0)).
Proof.
  apply (blob_round_trip demo_store demo_store_laws (replicate 100 0) 8 [7; 7; 7] 2 [] []).
  - reflexivity.
  - lia.
  - vm_compute. discriminate.
Defined.

End Blob.
