(* ===== verification/RowFormat.v ===== *)
(** * RowFormat: whole records

    Models the record conversions of [datatype_cnvrtr.cc]: the row head and
    its column bitmap, [mysql_record_to_cantian_record] for inserts and
    updates, [cantian_record_to_mysql_record],
    [cantian_index_record_to_mysql_record] and [get_cantian_record_length].
    Record buffers are byte lists; an access outside of one, a failed
    assertion or an exception is [None]. *)

From S2P Require Import Prelude CalDate DecDigits FieldTypes Server Demo.
From S2P Require Import Numeric DateCnvrt CtcError Blob.
Import CalDate DecDigits FieldTypes Server Demo Numeric DateCnvrt CtcError Blob.

Module RowFormat.

(** ** Sizes *)

Definition row_head_sizeof : Z := 8.
Definition row_bitmap_offset : Z := 5.
Definition CT_SPRS_COLUMNS : Z := 1024.
Definition CTC_DDL_MAX_VARCHAR_COLUMN_SIZE : Z := 8000.

Definition CM_ALIGN16 (size : Z) : Z :=
  if Z.land size 15 =? 0 then size else size + 16 - Z.land size 15.

Definition ALIGN_UP (x align : Z) : Z := x / align + (if x mod align =? 0 then 0 else 1).
Definition ROUND_UP (x align : Z) : Z := ALIGN_UP x align * align.
Definition VARCHAR_AS_BLOB (len : Z) : bool := CTC_DDL_MAX_VARCHAR_COLUMN_SIZE <? len.

Definition col_bitmap_ex_size (cols : Z) : Z :=
  if CT_SPRS_COLUMNS <=? cols then wrapU 16 (CM_ALIGN16 (cols - 4) / 4)
  else wrapU 16 (if cols <=? 12 then 0 else CM_ALIGN16 (cols - 12) / 4).

(** ** The column bitmap: two bits per column *)

Definition row_set_column_bits2 (row : list Z) (bits col_id : Z) : option (list Z) :=
  let map_id := row_bitmap_offset + Z.shiftr col_id 2 in
  let s := Z.shiftl (Z.land col_id 3) 1 in
  b ← rd row map_id 1;
  let v := wrapU 8 (Z.land (le_val b) (Z.lnot (Z.shiftl 3 s))) in
  wr row map_id [wrapU 8 (Z.lor v (Z.shiftl bits s))].

Definition row_get_column_bits2 (row : list Z) (id : Z) : option Z :=
  let map_id := row_bitmap_offset + Z.shiftr id 2 in
  let s := Z.shiftl (Z.land id 3) 1 in
  b ← rd row map_id 1;
  Some (Z.land (wrapU 8 (Z.shiftr (le_val b) s)) 3).

(** ** Tables *)

Record table := mk_table {
  t_field : list Field;
  t_null_bytes : Z;
  t_has_gcol : bool;
  t_tmp_table : bool }.

Definition n_fields (t : table) : Z := Z.of_nat (length (t_field t)).

(** The number of virtual generated columns among the first [column_id]. *)
Fixpoint cal_gcol_cnts_for_update (fields : list Field) (column_id : nat) : Z :=
  match column_id, fields with
  | S n, f :: fs => (if f_virtual f then 1 else 0) + cal_gcol_cnts_for_update fs n
  | _, _ => 0
  end.

(** The status of a conversion: a status number of the server's decimal
    functions, or a handler code. *)
Inductive status := St (z : Z) | StErr (e : mysql_errno).

Definition is_ok (s : status) : bool :=
  match s with St z => z =? 0 | StErr e => bool_decide (e = HA_OK) end.

Section Conversions.
Context {M : MySQL} {L : LobStore}.

(** ** Encoding *)

Record enc := mk_enc {
  e_buf : list Z;          (* cantian_record_buf *)
  e_off : Z;               (* cantian_field_offset *)
  e_serial : Z;            (* *serial_column_offset *)
  e_tab : aux_table;       (* g_field_cnvrt_aux_array *)
  e_lob : lob_state }.

Definition set_buf (b : list Z) (e : enc) : enc :=
  mk_enc b (e_off e) (e_serial e) (e_tab e) (e_lob e).
Definition add_off (n : Z) (e : enc) : enc :=
  mk_enc (e_buf e) (e_off e + n) (e_serial e) (e_tab e) (e_lob e).
Definition set_serial (s : Z) (e : enc) : enc :=
  mk_enc (e_buf e) (e_off e) s (e_tab e) (e_lob e).
Definition set_tab (t : aux_table) (e : enc) : enc :=
  mk_enc (e_buf e) (e_off e) (e_serial e) t (e_lob e).

(** Stores at the current row offset plus [d]. *)
Definition put (d : Z) (bs : list Z) (e : enc) : option enc :=
  b ← wr (e_buf e) (e_off e + d) bs; Some (set_buf b e).

Definition read_from_2_little_endian (b : list Z) : Z :=
  Z.lor (le_val (take 1 b)) (Z.shiftl (le_val (take 1 (drop 1 b))) 8).

(** [while (field_len > 0 && mysql_ptr[field_len - 1] == pad_char) field_len--] *)
Fixpoint trim_pad (ptr : list Z) (pad : Z) (len : nat) : nat :=
  match len with
  | O => O
  | S n => match ptr !! n with
           | Some c => if c =? pad then trim_pad ptr pad n else len
           | None => len
           end
  end.

(** The field length and the bytes its length takes in the server's record. *)
Definition calculate_variable_len (t : enum_field_types) (f : Field) (mbuf : list Z) (moff : Z)
  : option (Z * Z) :=
  match t with
  | MYSQL_TYPE_VARCHAR =>
    let data_offset := wrapU 8 (f_length_bytes f) in
    if data_offset =? 1 then b ← rd mbuf moff 1; Some (le_val b, data_offset)
    else if data_offset =? 2
    then b ← rd mbuf moff 2; Some (read_from_2_little_endian b, data_offset)
    else Some (0, data_offset)
  | MYSQL_TYPE_JSON | MYSQL_TYPE_BLOB =>
    Some (blob_get_length f (drop (Z.to_nat moff) mbuf), f_row_pack_length f)
  | MYSQL_TYPE_STRING =>
    b ← rd mbuf moff (f_row_pack_length f);
    Some (if decide (f_real_type f = MYSQL_TYPE_STRING)
          then Z.of_nat (trim_pad b (f_pad_char f) (length b)) else f_row_pack_length f, 0)
  | MYSQL_TYPE_NEWDECIMAL =>
    let prec := f_precision f in
    let scale := f_decimals f in
    let ncells := ALIGN_UP (prec - scale) 4 + ALIGN_UP scale 4 in
    Some ((1 + ncells) * 2, 0)
  | _ => Some (0, 0)
  end.

(** The field length and the offsets after the length words. *)
Definition get_map_and_field_len (info : field_cnvrt_aux_t) (f : Field) (mbuf : list Z)
    (moff : Z) (e : enc) : option (Z * Z * enc) :=
  if cantian_map_type info =? CANTIAN_COL_BITS_4 then Some (4, moff, e)
  else if cantian_map_type info =? CANTIAN_COL_BITS_8 then Some (8, moff, e)
  else if cantian_map_type info =? CANTIAN_COL_BITS_VAR then
    if decide (sql_data_type info = LOB_DATA) then Some (0, moff, e) else
    '(field_len, lb) ← calculate_variable_len (mysql_field_type info) f mbuf moff;
    if negb (bool_decide (sql_data_type info = STRING_DATA)
             && VARCHAR_AS_BLOB (f_row_pack_length f))
    then e ← put 0 (le_bytes 2 field_len) e; Some (field_len, moff + lb, add_off 2 e)
    else Some (field_len, moff + lb, e)
  else None.

Definition put_blob (mem_ok : bool) (blob : list Z) (column_id : Z) (e : enc)
  : option (status * enc * Z) :=
  '(code, _, buf, off, field_len, st) ←
    convert_blob_to_cantian mem_ok (e_buf e) (e_off e) blob column_id (e_lob e);
  Some (StErr code, mk_enc buf off (e_serial e) (e_tab e) st, field_len).

Definition convert_data_from_mysql_to_cantian (mem_ok : bool) (info : field_cnvrt_aux_t)
    (f : Field) (mbuf : list Z) (moff field_len : Z) (column_id : Z) (e : enc)
  : option (status * enc * Z) :=
  match sql_data_type info with
  | NUMERIC_DATA =>
    ptr ← rd mbuf moff (f_pack_length f);
    '(ret, bs, field_len) ← convert_numeric_to_cantian (mysql_field_type info) f ptr field_len;
    e ← put 0 bs e;
    let e := if f_auto_increment f then set_serial (e_off e) e else e in
    if decide (f_type f = MYSQL_TYPE_NEWDECIMAL)
    then e ← put (-2) (le_bytes 2 field_len) e; Some (St ret, e, field_len)
    else Some (St ret, e, field_len)
  | DATETIME_DATA =>
    ptr ← rd mbuf moff (f_pack_length f);
    '(ret, bs) ← convert_datetime_to_cantian (mysql_field_type info) ptr f;
    e ← put 0 bs e;
    Some (St ret, e, field_len)
  | STRING_DATA =>
    data ← rd mbuf moff field_len;
    if negb (VARCHAR_AS_BLOB (f_row_pack_length f))
    then e ← put 0 data e; Some (St 0, e, field_len)
    else put_blob mem_ok data column_id e
  | LOB_DATA => put_blob mem_ok (get_blob_data f (drop (Z.to_nat moff) mbuf)) column_id e
  | UNKNOW_DATA => None
  end.

(** One column that is not null: its bitmap entry and the row after it. *)
Definition encode_column (mem_ok : bool) (f : Field) (mbuf : list Z) (column_id : Z) (e : enc)
  : option (status * Z * enc) :=
  '(tab, info) ← get_auxiliary_for_field_convert (e_tab e) f (f_type f);
  info ← info;
  let e := set_tab tab e in
  '(field_len, moff, e) ← get_map_and_field_len info f mbuf (f_offset f) e;
  '(res, e, field_len) ←
    convert_data_from_mysql_to_cantian mem_ok info f mbuf moff field_len column_id e;
  if negb (is_ok res) then Some (res, cantian_map_type info, e) else
  let field_len := if cantian_map_type info =? CANTIAN_COL_BITS_VAR
                   then ROUND_UP (field_len + 2) 4 - 2 else field_len in
  Some (res, cantian_map_type info, add_off field_len e).

(** The null bit of a column in the server's record. *)
Definition is_null_in (mbuf : list Z) (f : Field) : option bool :=
  if f_nullable f then
    b ← rd mbuf (f_null_offset f) 1;
    Some (negb (Z.land (le_val b) (f_null_bit f) =? 0))
  else Some false.

(** The state of the column loop: [column_cnt], [n_fields],
    [virtual_gcol_cnt] and the updated columns. *)
Record cols := mk_cols { c_cnt : Z; c_n : Z; c_virtual : Z; c_fields : list Z }.

(** Marks the column in the bitmap; an update of a table with generated
    columns also renumbers the column in [fields]. *)
Definition mark_column (t : table) (is_update : bool) (map : Z) (column_id : Z) (c : cols) (e : enc)
  : option (cols * enc) :=
  if is_update && t_has_gcol t then
    let v := cal_gcol_cnts_for_update (t_field t) (Z.to_nat column_id) in
    b ← row_set_column_bits2 (e_buf e) map (c_cnt c);
    let fields := <[Z.to_nat (c_cnt c) := wrapU 16 (column_id - v)]> (c_fields c) in
    Some (mk_cols (c_cnt c) (c_n c) v fields, set_buf b e)
  else
    b ← row_set_column_bits2 (e_buf e) map (c_cnt c - c_virtual c);
    Some (c, set_buf b e).

Definition next_column (c : cols) : cols :=
  mk_cols (c_cnt c + 1) (c_n c) (c_virtual c) (c_fields c).

(** Whether the loop goes on; the status that ends it otherwise. *)
Definition encode_step (mem_ok : bool) (t : table) (is_update : bool) (mbuf : list Z)
    (c : cols) (e : enc) : option (status * cols * enc) :=
  column_id ← (if is_update then c_fields c !! Z.to_nat (c_cnt c) else Some (c_cnt c));
  f ← t_field t !! Z.to_nat column_id;
  if f_virtual f then
    if is_update
    then Some (St 0, mk_cols (c_cnt c) (c_n c - 1) (c_virtual c)
                       (delete (Z.to_nat (c_cnt c)) (c_fields c)), e)
    else Some (St 0, next_column (mk_cols (c_cnt c) (c_n c) (c_virtual c + 1) (c_fields c)), e)
  else
    null ← is_null_in mbuf f;
    if null : bool then
      '(c, e) ← mark_column t is_update CANTIAN_COL_BITS_NULL column_id c e;
      Some (St 0, next_column c, e)
    else
      '(res, map, e') ← encode_column mem_ok f mbuf column_id e;
      if negb (is_ok res) then Some (res, c, e') else
      '(c, e') ← mark_column t is_update map column_id c e';
      Some (St 0, next_column c, e').

Fixpoint encode_columns (fuel : nat) (mem_ok : bool) (t : table) (is_update : bool)
    (mbuf : list Z) (c : cols) (e : enc) : option (status * cols * enc) :=
  if c_n c <=? c_cnt c then Some (St 0, c, e) else
  match fuel with
  | O => None
  | S fuel' =>
    '(res, c, e) ← encode_step mem_ok t is_update mbuf c e;
    if is_ok res then encode_columns fuel' mem_ok t is_update mbuf c e
    else Some (res, c, e)
  end.

(** The status, the row with its size, the updated columns and the rest of
    the state.  [fields = None] converts all columns of the table. *)
Definition mysql_record_to_cantian_record (mem_ok : bool) (t : table) (mbuf : list Z)
    (cbuf : list Z) (fields : option (list Z)) (tab : aux_table) (lob : lob_state)
  : option (status * Z * list Z * enc) :=
  let is_update := bool_decide (is_Some fields) in
  let fs := default [] fields in
  let n := if is_update then Z.of_nat (length fs) else n_fields t in
  let gcols := if t_has_gcol t then cal_gcol_cnts_for_update (t_field t) (Z.to_nat n) else 0 in
  let ex_maps := col_bitmap_ex_size (wrapU 16 (n - gcols)) in
  '(res, c, e) ← encode_columns (Z.to_nat n) mem_ok t is_update mbuf (mk_cols 0 n 0 fs)
                   (mk_enc cbuf (row_head_sizeof + ex_maps) 0 tab lob);
  if negb (is_ok res) then Some (res, 0, c_fields c, e) else
  let count := if is_update then c_n c else c_n c - c_virtual c in
  b ← wr (e_buf e) 0 (le_bytes 2 (e_off e) ++ le_bytes 2 (wrapU 10 count));
  Some (St 0, e_off e, c_fields c, set_buf b e).

(** ** Decoding *)

Record dec := mk_dec {
  d_buf : list Z;          (* mysql_record_buf *)
  d_heap : heap;
  d_tab : aux_table;
  d_read_set : list nat }. (* the columns of table->read_set *)

Definition dset_buf (b : list Z) (d : dec) : dec := mk_dec b (d_heap d) (d_tab d) (d_read_set d).

Definition dput (off : Z) (bs : list Z) (d : dec) : option dec :=
  b ← wr (d_buf d) off bs; Some (dset_buf b d).

(** What the conversion reads from the handler. *)
Record handler := mk_handler {
  h_is_select : bool;         (* tch.sql_command == SQLCOM_SELECT *)
  h_read_only_in_ct : bool;
  h_ror_intersect : bool;
  h_tmp_table : bool;
  h_mem_ok : bool;
  h_stack : date_detail;      (* uninitialised date_detail *)
  h_lob : lob_state }.

(** The bytes of the length word and their number. *)
Definition padding_variable_byte (t : enum_field_types) (f : Field) (len : Z) : list Z * Z :=
  match t with
  | MYSQL_TYPE_VARCHAR =>
    let o := wrapU 8 (f_length_bytes f) in
    (if o =? 1 then le_bytes 1 len else le_bytes 2 len, o)
  | MYSQL_TYPE_JSON | MYSQL_TYPE_BLOB =>
    let o := wrapU 8 (f_row_pack_length f) in (blob_store_length o len, o)
  | _ => ([], 0)
  end.

Definition ctc_field_type_is_lob (h : handler) (is_index_only : bool) (t : enum_field_types)
    (f : Field) : bool :=
  negb is_index_only &&
  (bool_decide (t = MYSQL_TYPE_BLOB) || bool_decide (t = MYSQL_TYPE_JSON)
   || (bool_decide (t = MYSQL_TYPE_VARCHAR) && VARCHAR_AS_BLOB (f_row_pack_length f)
       && negb (h_read_only_in_ct h))).

Definition set_null_bit (f : Field) (d : dec) : option dec :=
  b ← rd (d_buf d) (f_null_offset f) 1;
  dput (f_null_offset f) [Z.lor (le_val b) (f_null_bit f)] d.

Definition add_read_set (f : Field) (d : dec) : dec :=
  mk_dec (d_buf d) (d_heap d) (d_tab d) (f_index f :: d_read_set d).

(** [convert_blob_to_mysql] of the column at [coff], pointer stored at [moff]. *)
Definition dput_blob (h : handler) (f : Field) (cbuf : list Z) (coff moff : Z) (d : dec)
  : option (dec * option Z) :=
  let d := add_read_set f d in
  '(hp, p) ← convert_blob_to_mysql (h_mem_ok h) (d_heap d) (drop (Z.to_nat coff) cbuf) (h_lob h);
  let d := mk_dec (d_buf d) hp (d_tab d) (d_read_set d) in
  match p with
  | Some p => d ← dput moff (le_bytes 8 p) d; Some (d, Some p)
  | None => Some (d, None)
  end.

Definition copy_column_data_to_mysql (h : handler) (f : Field) (info : field_cnvrt_aux_t)
    (cbuf : list Z) (coff moff field_len : Z) (is_index_only : bool) (d : dec) : option dec :=
  if negb (bool_decide (f_index f ∈ d_read_set d)) && h_is_select h && negb (h_ror_intersect h)
  then Some d else
  let t := mysql_field_type info in
  match sql_data_type info with
  | NUMERIC_DATA =>
    bs ← convert_numeric_to_mysql t f (drop (Z.to_nat coff) cbuf); dput moff bs d
  | DATETIME_DATA =>
    bs ← convert_datetime_to_mysql (h_read_only_in_ct h) (h_stack h) t
           (drop (Z.to_nat coff) cbuf) f;
    dput moff bs d
  | STRING_DATA =>
    d ← (if negb (VARCHAR_AS_BLOB (f_row_pack_length f)) || h_read_only_in_ct h
         then src ← rd cbuf coff field_len; dput moff src d
         else
           '(d, p) ← dput_blob h f cbuf coff moff d;
           let src_len := wrapU 16 (lob_size (drop (Z.to_nat coff) cbuf)) in
           if src_len =? 0 then None else
           p ← p; src ← deref (d_heap d) p; src ← rd src 0 src_len; dput moff src d);
    if bool_decide (t = MYSQL_TYPE_STRING) && bool_decide (f_real_type f = MYSQL_TYPE_STRING)
       && (field_len <? f_row_pack_length f)
    then dput (moff + field_len)
           (replicate (Z.to_nat (f_row_pack_length f - field_len)) (f_pad_char f)) d
    else Some d
  | LOB_DATA =>
    if is_index_only then
      if negb (h_mem_ok h) then Some d else
      data ← rd cbuf coff field_len;
      let '(hp, p) := my_malloc (d_heap d) data in
      d ← dput moff (le_bytes 8 p) (mk_dec (d_buf d) hp (d_tab d) (d_read_set d));
      Some (add_read_set f d)
    else '(d, _) ← dput_blob h f cbuf coff moff d; Some d
  | UNKNOW_DATA => None
  end.

(** Lengths and offsets prefetched with the row in the single-process mode. *)
Record record_info := mk_record_info { r_lens : list Z; r_offsets : list Z }.

(** [None] inside: the column is null and done.  Otherwise the field length,
    the aligned length, the row offset and the record offset of the data. *)
Definition update_offset (h : handler) (col_id : Z) (f : Field) (bits : Z)
    (info : field_cnvrt_aux_t) (ri : option record_info) (cbuf : list Z) (coff : Z)
    (is_index_only : bool) (d : dec) : option (dec * option (Z * Z * Z * Z)) :=
  let t := mysql_field_type info in
  if bits =? CANTIAN_COL_BITS_NULL then d ← set_null_bit f d; Some (d, None)
  else
    '(field_len, aligned, coff) ←
      (match ri with
       | Some ri =>       (* ctc_update_offset_single *)
         len ← r_lens ri !! Z.to_nat col_id; off ← r_offsets ri !! Z.to_nat col_id;
         Some (len, 0, off)
       | None =>          (* ctc_parse_cantian_column_and_update_offset *)
         if bits =? CANTIAN_COL_BITS_4 then Some (4, 4, coff)
         else if bits =? CANTIAN_COL_BITS_8 then Some (8, 8, coff)
         else if negb (h_tmp_table h) && is_index_only
                 && bool_decide (t = MYSQL_TYPE_NEWDECIMAL)
         then hd ← rd cbuf coff 1;
              let len := (1 + le_val hd / 2) * 2 in
              Some (len, wrapU 16 (ROUND_UP len 4), coff)
         else lw ← rd cbuf coff 2;
              let len := le_val lw in
              Some (len, wrapU 16 (ROUND_UP (len + 2) 4 - 2), coff + 2)
       end);
    if bits =? CANTIAN_COL_BITS_VAR then
      let len := if ctc_field_type_is_lob h is_index_only t f
                 then lob_size (drop (Z.to_nat coff) cbuf) else field_len in
      let '(bs, n) := padding_variable_byte t f len in
      d ← dput (f_offset f) bs d;
      Some (d, Some (field_len, aligned, coff, f_offset f + n))
    else Some (d, Some (field_len, aligned, coff, f_offset f)).

(** The state and the row offset after the column. *)
Definition convert_cantian_field_to_mysql_field (h : handler) (col_id : Z) (f : Field) (bits : Z)
    (ri : option record_info) (cbuf : list Z) (coff : Z) (is_index_only : bool) (d : dec)
  : option (dec * Z) :=
  '(tab, info) ← get_auxiliary_for_field_convert (d_tab d) f (f_type f);
  info ← info;
  let d := mk_dec (d_buf d) (d_heap d) tab (d_read_set d) in
  '(d, r) ← update_offset h col_id f bits info ri cbuf coff is_index_only d;
  match r with
  | None => Some (d, coff)
  | Some (field_len, aligned, coff, moff) =>
    d ← copy_column_data_to_mysql h f info cbuf coff moff field_len is_index_only d;
    Some (d, coff + aligned)
  end.

(** The row head. *)
Definition row_word (cbuf : list Z) : option Z := b ← rd cbuf 2 2; Some (le_val b).
Definition row_column_count (w : Z) : Z := w mod 1024.
Definition row_flag (w i : Z) : bool := Z.testbit w i.

Definition memset0 (n : Z) (d : dec) : option dec := dput 0 (replicate (Z.to_nat n) 0) d.

(** The loop over the columns from [column_id] on. *)
Fixpoint decode_columns (h : handler) (max_col_idx : Z) (ri : option record_info)
    (cbuf : list Z) (count : Z) (fs : list Field) (column_id virtual_cnt coff : Z) (d : dec)
  : option dec :=
  match fs with
  | [] => Some d
  | f :: fs =>
    if max_col_idx <? column_id then Some d
    else if f_virtual f
    then decode_columns h max_col_idx ri cbuf count fs (column_id + 1) (virtual_cnt + 1) coff d
    else
      let col_id := column_id - virtual_cnt in
      bits ← (if count <=? col_id then Some CANTIAN_COL_BITS_NULL
              else row_get_column_bits2 cbuf col_id);
      '(d, coff) ← convert_cantian_field_to_mysql_field h col_id f bits ri cbuf coff false d;
      decode_columns h max_col_idx ri cbuf count fs (column_id + 1) virtual_cnt coff d
  end.

Definition cantian_record_to_mysql_record (h : handler) (t : table) (max_col_idx : Z)
    (cbuf : list Z) (ri : option record_info) (d : dec) : option dec :=
  w ← row_word cbuf;
  if row_flag w 15 then None                       (* is_csf *)
  else if row_column_count w =? 0 then None        (* IS_SPRS_ROW *)
  else
    let coff := match ri with
                | Some _ => 0
                | None => row_head_sizeof + col_bitmap_ex_size (row_column_count w)
                          + (if row_flag w 12 then 8 else 0)     (* is_migr *)
                end in
    d ← memset0 (t_null_bytes t) d;
    decode_columns h max_col_idx ri cbuf (row_column_count w) (t_field t) 0 0 coff d.

(** The loop over the parts of the active index. *)
Fixpoint decode_index_columns (h : handler) (max_col_idx : Z) (ri : option record_info)
    (cbuf : list Z) (parts : list Field) (key_id coff : Z) (d : dec) : option dec :=
  match parts with
  | [] => Some d
  | f :: parts =>
    bits ← row_get_column_bits2 cbuf key_id;
    '(d, coff) ← convert_cantian_field_to_mysql_field h key_id f bits ri cbuf coff true d;
    if Z.of_nat (f_index f) =? max_col_idx then Some d
    else decode_index_columns h max_col_idx ri cbuf parts (key_id + 1) coff d
  end.

Definition cantian_index_record_to_mysql_record (h : handler) (t : table) (parts : list Field)
    (max_col_idx : Z) (cbuf : list Z) (ri : option record_info) (d : dec) : option dec :=
  coff ← (match ri with
          | Some _ => Some 0
          | None => w ← row_word cbuf;
                    Some (row_head_sizeof + col_bitmap_ex_size (row_column_count w))
          end);
  d ← memset0 (t_null_bytes t) d;
  decode_index_columns h max_col_idx ri cbuf parts 0 coff d.

End Conversions.

(** ** The length of a row *)

(** [None]: an unsupported type, for which the code returns -1. *)
Definition record_field_length (f : Field) : option Z :=
  match f_type f with
  | MYSQL_TYPE_TINY | MYSQL_TYPE_SHORT | MYSQL_TYPE_INT24 | MYSQL_TYPE_LONG => Some 4
  | MYSQL_TYPE_DOUBLE | MYSQL_TYPE_FLOAT | MYSQL_TYPE_BIT | MYSQL_TYPE_LONGLONG
  | MYSQL_TYPE_TIMESTAMP | MYSQL_TYPE_DATETIME | MYSQL_TYPE_DATE | MYSQL_TYPE_YEAR
  | MYSQL_TYPE_TIME => Some 8
  | MYSQL_TYPE_VARCHAR | MYSQL_TYPE_STRING =>
    Some (wrapU 16 (ROUND_UP (f_row_pack_length f + 2) 4))
  | MYSQL_TYPE_NEWDECIMAL =>
    let ncells := ALIGN_UP (f_precision f - f_decimals f) 4 + ALIGN_UP (f_decimals f) 4 in
    Some (wrapU 16 (ROUND_UP ((1 + ncells) * 2 + 2) 4))
  | MYSQL_TYPE_BLOB | MYSQL_TYPE_JSON | MYSQL_TYPE_TINY_BLOB | MYSQL_TYPE_MEDIUM_BLOB =>
    Some (wrapU 16 (ROUND_UP (lob_locator_sizeof + 2) 4))
  | _ => None
  end.

Fixpoint record_fields_length (fs : list Field) : option Z :=
  match fs with
  | [] => Some 0
  | f :: fs => n ← record_field_length f; m ← record_fields_length fs; Some (n + m)
  end.

Definition get_cantian_record_length (t : table) : Z :=
  match record_fields_length (t_field t) with
  | Some n => row_head_sizeof + col_bitmap_ex_size (n_fields t) + n
  | None => -1
  end.

(** ** The column bitmap *)

Definition bits_set (v s bits : Z) : Z :=
  wrapU 8 (Z.lor (wrapU 8 (Z.land v (Z.lnot (Z.shiftl 3 s)))) (Z.shiftl bits s)).
Definition bits_get (v s : Z) : Z := Z.land (wrapU 8 (Z.shiftr v s)) 3.

Lemma bits_check :
  forallb (fun v => forallb (fun s => forallb (fun bits => forallb (fun s' =>
      bits_get (bits_set v (2 * s) bits) (2 * s')
      =? (if s =? s' then bits else bits_get v (2 * s')))
    (seqZ 0 4)) (seqZ 0 4)) (seqZ 0 4)) (seqZ 0 256) = true.
Proof. vm_compute. reflexivity. Qed.

Lemma bits_get_set v s bits s' :
  byte v -> 0 <= s < 4 -> 0 <= bits < 4 -> 0 <= s' < 4 ->
  bits_get (bits_set v (2 * s) bits) (2 * s') = if s =? s' then bits else bits_get v (2 * s').
Proof.
  intros Hv Hs Hb Hs'. pose proof bits_check as H. unfold byte in Hv.
  assert (forall n x, 0 <= x < n -> In x (seqZ 0 n)) as Hin
    by (intros; apply list_elem_of_In, elem_of_seqZ; lia).
  rewrite forallb_forall in H. specialize (H v (Hin 256 v ltac:(lia))).
  rewrite forallb_forall in H. specialize (H s (Hin 4 s ltac:(lia))).
  rewrite forallb_forall in H. specialize (H bits (Hin 4 bits ltac:(lia))).
  rewrite forallb_forall in H. specialize (H s' (Hin 4 s' ltac:(lia))).
  by apply Z.eqb_eq in H.
Qed.

Lemma column_position id : Z.shiftr id 2 = id / 4 /\ Z.shiftl (Z.land id 3) 1 = 2 * (id mod 4).
Proof.
  rewrite Z.shiftr_div_pow2, Z.shiftl_mul_pow2 by lia.
  change 3 with (Z.ones 2). rewrite Z.land_ones by lia. change (2 ^ 2) with 4. change (2 ^ 1) with 2.
  split; [done|lia].
Qed.

Lemma rd_one buf o bs : rd buf o 1 = Some bs -> exists b, bs = [b] /\ le_val bs = b.
Proof.
  intros H. apply rd_inv in H as (_ & _ & _ & Hl & _).
  destruct bs as [|b [|? ?]]; simpl in Hl; try lia. exists b. split; [done|]. simpl. lia.
Qed.

Lemma set_bits_total row bits id :
  0 <= id -> row_bitmap_offset + id / 4 < Z.of_nat (length row) ->
  exists row', row_set_column_bits2 row bits id = Some row' /\ length row' = length row.
Proof.
  intros Hid Hl. unfold row_set_column_bits2. destruct (column_position id) as [-> ->].
  assert (0 <= id / 4) by (apply Z.div_pos; lia). unfold row_bitmap_offset in *.
  rewrite rd_Some by lia. cbn [mbind option_bind].
  match goal with |- context [wr row ?o ?b] => destruct (wr_Some row o b) as [row' H'] end;
    [lia|simpl; lia|]. exists row'. split; [done|]. by apply length_wr in H'.
Qed.

Lemma set_bits_spec row bits id row' :
  Forall byte row -> 0 <= bits < 4 -> 0 <= id ->
  row_set_column_bits2 row bits id = Some row' ->
  Forall byte row' /\ length row' = length row /\
  row_get_column_bits2 row' id = Some bits /\
  (forall id', 0 <= id' -> id' <> id -> row_get_column_bits2 row' id' = row_get_column_bits2 row id') /\
  (forall o n, o + n <= row_bitmap_offset + id / 4 \/ row_bitmap_offset + id / 4 < o ->
     rd row' o n = rd row o n).
Proof.
  intros Hrow Hb Hid H. unfold row_set_column_bits2 in H.
  destruct (column_position id) as [Hsr Hsl]. rewrite Hsr, Hsl in H.
  destruct (rd row (row_bitmap_offset + id / 4) 1) as [bs|] eqn:Hrd; [|done].
  pose proof (rd_byte _ _ _ _ Hrow Hrd) as Hbs.
  destruct (rd_one _ _ _ Hrd) as (b & -> & Hle). cbn [mbind option_bind] in H. rewrite Hle in H.
  apply Forall_inv in Hbs. fold (bits_set b (2 * (id mod 4)) bits) in H.
  pose proof (Z.mod_pos_bound id 4 ltac:(lia)) as Hm.
  assert (byte (bits_set b (2 * (id mod 4)) bits)) as Hnb by (apply (wrapU_range 8); lia).
  pose proof (rd_wr_same _ _ _ _ H) as Hsame. simpl length in Hsame.
  change (Z.of_nat 1) with 1 in Hsame.
  split; [apply (wr_byte _ _ _ _ Hrow (Forall_cons_2 _ _ _ Hnb (Forall_nil_2 _)) H)|]. split; [by apply length_wr in H|].
  assert (forall id', 0 <= id' -> row_get_column_bits2 row' id'
    = if id' =? id then Some bits else row_get_column_bits2 row id') as Hget.
  { intros id' Hid'. unfold row_get_column_bits2. destruct (column_position id') as [-> ->].
    pose proof (Z.mod_pos_bound id' 4 ltac:(lia)) as Hm'.
    destruct (decide (id' / 4 = id / 4)) as [Heq|Hne].
    - rewrite Heq, Hsame, Hrd. cbn [mbind option_bind]. rewrite Hle.
      simpl le_val. rewrite Z.add_0_r.
      fold (bits_get (bits_set b (2 * (id mod 4)) bits) (2 * (id' mod 4))).
      rewrite bits_get_set by done. destruct (id' =? id) eqn:E; zb.
      + subst. by rewrite Z.eqb_refl.
      + rewrite (proj2 (Z.eqb_neq _ _)) by dlia. done.
    - rewrite (rd_wr_other _ _ _ _ _ 1 H) by (simpl; lia).
      rewrite (proj2 (Z.eqb_neq id' id)) by (intros ->; done). done. }
  split; [rewrite Hget, Z.eqb_refl; done|]. split.
  - intros id' Hid' Hne. rewrite Hget by done. by rewrite (proj2 (Z.eqb_neq id' id)).
  - intros o n Ho. apply (rd_wr_other _ _ _ _ _ _ H). simpl. lia.
Qed.

(** The bitmap of [cols] columns ends where the row's data starts. *)
Lemma CM_ALIGN16_spec x : 0 <= x -> x <= CM_ALIGN16 x < x + 16 /\ CM_ALIGN16 x mod 16 = 0.
Proof.
  intros Hx. unfold CM_ALIGN16. change 15 with (Z.ones 4). rewrite Z.land_ones by lia.
  change (2 ^ 4) with 16. destruct (x mod 16 =? 0) eqn:E; zb; dlia.
Qed.

Lemma bitmap_fits cols id :
  0 <= id < cols -> cols < CT_SPRS_COLUMNS ->
  row_bitmap_offset + id / 4 < row_head_sizeof + col_bitmap_ex_size cols.
Proof.
  intros Hid Hc. unfold col_bitmap_ex_size, CT_SPRS_COLUMNS, row_bitmap_offset, row_head_sizeof in *.
  rewrite (proj2 (Z.leb_gt 1024 cols)) by lia. destruct (cols <=? 12) eqn:E; zb.
  - change (wrapU 16 0) with 0. dlia.
  - pose proof (CM_ALIGN16_spec (cols - 12) ltac:(lia)). rewrite wrapU_small; dlia.
Qed.

Lemma ex_size_mono a b :
  0 <= a <= b -> b < CT_SPRS_COLUMNS -> 0 <= col_bitmap_ex_size a <= col_bitmap_ex_size b.
Proof.
  intros H Hb. unfold col_bitmap_ex_size, CT_SPRS_COLUMNS in *.
  rewrite !(proj2 (Z.leb_gt 1024 _)) by lia.
  assert (wrapU 16 0 = 0) as H0 by done.
  destruct (a <=? 12) eqn:Ea, (b <=? 12) eqn:Eb; zb; rewrite ?H0; try lia.
  - pose proof (CM_ALIGN16_spec (b - 12) ltac:(lia)).
    pose proof (wrapU_range 16 (CM_ALIGN16 (b - 12) / 4) ltac:(lia)). lia.
  - pose proof (CM_ALIGN16_spec (a - 12) ltac:(lia)).
    pose proof (CM_ALIGN16_spec (b - 12) ltac:(lia)).
    rewrite !wrapU_small by dlia. dlia.
Qed.

Lemma ROUND_UP_spec x : 0 <= x -> x <= ROUND_UP x 4 < x + 4 /\ ROUND_UP x 4 mod 4 = 0.
Proof.
  intros Hx. unfold ROUND_UP, ALIGN_UP. destruct (x mod 4 =? 0) eqn:E; zb; dlia.
Qed.

Lemma ROUND_UP_mono x y : 0 <= x <= y -> ROUND_UP x 4 <= ROUND_UP y 4.
Proof.
  intros H. pose proof (ROUND_UP_spec x ltac:(lia)). pose proof (ROUND_UP_spec y ltac:(lia)). dlia.
Qed.

(** ** One column *)

(** Width and class of the storage of a type. *)
Definition storage_class (t : enum_field_types) : Z * enum_sql_data_types :=
  match g_field_cnvrt_aux_array !! Z.to_nat (get_idx_for_field_convert t) with
  | Some a => (cantian_map_type a, sql_data_type a)
  | None => (0, UNKNOW_DATA)
  end.

Definition good_table (tab : aux_table) : Prop :=
  Forall2 same_storage g_field_cnvrt_aux_array tab.

Lemma good_table_initial : good_table g_field_cnvrt_aux_array.
Proof. unfold good_table. reflexivity. Qed.

Lemma aux_entry tab f :
  supported_field f -> good_table tab ->
  exists tab' a, get_auxiliary_for_field_convert tab f (f_type f) = Some (tab', Some a) /\
    good_table tab' /\ mysql_field_type a = effective_type f /\
    (cantian_map_type a, sql_data_type a) = storage_class (effective_type f).
Proof.
  intros Hs Ht. destruct (get_auxiliary_found tab f Hs Ht) as (tab' & a & a0 & Hg & Ha0 & Hsame & Hty).
  exists tab', a. split; [done|]. split.
  { apply get_auxiliary_table in Hg. unfold good_table in *. by transitivity tab. }
  destruct Hsame as (H1 & H2 & H3). split; [congruence|].
  unfold storage_class. rewrite Ha0. congruence.
Qed.

(** A value of a column in the server's record, for the types stored in the
    row itself. *)
Inductive stored_column {M : MySQL} (f : Field) (v : list Z) : Prop :=
  | sc_numeric :
      fixed_numeric (effective_type f) f = true -> length v = mysql_width (effective_type f) f ->
      bit_overrun (effective_type f) f = 0%nat ->
      (effective_type f = MYSQL_TYPE_FLOAT -> float_is_nan (le_val v) = false) ->
      stored_column f v
  | sc_decimal :
      effective_type f = MYSQL_TYPE_NEWDECIMAL -> f_type f = MYSQL_TYPE_NEWDECIMAL ->
      stored_decimal f v -> stored_column f v
  | sc_temporal : stored_temporal (effective_type f) f v -> stored_column f v
  | sc_varchar :
      effective_type f = MYSQL_TYPE_VARCHAR -> 1 <= f_length_bytes f <= 2 ->
      f_length_bytes f + le_val (take (Z.to_nat (f_length_bytes f)) v) <= f_pack_length f ->
      le_val (take (Z.to_nat (f_length_bytes f)) v) <= f_row_pack_length f ->
      stored_column f v
  | sc_char :
      effective_type f = MYSQL_TYPE_STRING -> f_real_type f = MYSQL_TYPE_STRING ->
      f_row_pack_length f = f_pack_length f -> byte (f_pad_char f) -> stored_column f v.

Definition column_ok {M : MySQL} (f : Field) (v : list Z) : Prop :=
  supported_field f /\ 0 <= f_offset f /\ Forall byte v /\
  Z.of_nat (length v) = f_pack_length f /\
  0 <= f_row_pack_length f <= 8000 /\
  (f_type f = effective_type f \/
   (f_type f = MYSQL_TYPE_STRING /\ f_row_pack_length f = f_pack_length f /\ 1 <= f_pack_length f)) /\
  stored_column f v.

(** The bytes that are the value: a [VARCHAR] only uses its prefix. *)
Definition sig_bytes (f : Field) (v : list Z) : list Z :=
  if decide (effective_type f = MYSQL_TYPE_VARCHAR)
  then take (Z.to_nat (f_length_bytes f + le_val (take (Z.to_nat (f_length_bytes f)) v))) v
  else v.

Record decoded (f : Field) (v : list Z) (d d' : dec) : Prop := {
  dd_value : rd (d_buf d') (f_offset f) (Z.of_nat (length (sig_bytes f v))) = Some (sig_bytes f v);
  dd_other o n : o + n <= f_offset f \/ f_offset f + f_pack_length f <= o ->
    rd (d_buf d') o n = rd (d_buf d) o n;
  dd_len : length (d_buf d') = length (d_buf d);
  dd_heap : d_heap d' = d_heap d;
  dd_rs : d_read_set d' = d_read_set d;
  dd_tab : good_table (d_tab d') }.

(** The handler wants the column, of a user table. *)
Definition reads {L : LobStore} (h : handler) (d : dec) (f : Field) : Prop :=
  negb (bool_decide (f_index f ∈ d_read_set d)) && h_is_select h && negb (h_ror_intersect h) = false
  /\ h_read_only_in_ct h = false.

Section OneColumn.
Context {M : MySQL} {L : LobStore}.

Record coded (f : Field) (v : list Z) (n : Z) (map : Z) (e e' : enc) : Prop := {
  cd_off : e_off e < e_off e' <= e_off e + n;
  cd_len : length (e_buf e') = length (e_buf e);
  cd_before o k : o + k <= e_off e -> rd (e_buf e') o k = rd (e_buf e) o k;
  cd_byte : Forall byte (e_buf e) -> Forall byte (e_buf e');
  cd_tab : good_table (e_tab e');
  cd_map : 1 <= map < 4;
  cd_decode h d cbuf col :
    reads h d f -> good_table (d_tab d) ->
    f_offset f + f_pack_length f <= Z.of_nat (length (d_buf d)) ->
    rd cbuf (e_off e) (e_off e' - e_off e) = rd (e_buf e') (e_off e) (e_off e' - e_off e) ->
    exists d', convert_cantian_field_to_mysql_field h col f map None cbuf (e_off e) false d
        = Some (d', e_off e') /\ decoded f v d d' }.

(** Storing the value's bytes in the record. *)
Lemma dput_decoded f v d tab rs hp bs :
  0 <= f_offset f -> bs = sig_bytes f v -> Z.of_nat (length bs) <= f_pack_length f ->
  f_offset f + f_pack_length f <= Z.of_nat (length (d_buf d)) ->
  good_table tab -> hp = d_heap d -> rs = d_read_set d ->
  exists d', dput (f_offset f) bs (mk_dec (d_buf d) hp tab rs) = Some d' /\ decoded f v d d'.
Proof.
  intros Ho -> Hl Hroom Ht -> ->. unfold dput. cbn [d_buf].
  destruct (wr_Some (d_buf d) (f_offset f) (sig_bytes f v)) as [b Hb]; [lia|lia|].
  rewrite Hb. cbn [mbind option_bind]. eexists. split; [done|].
  split; unfold dset_buf; cbn [d_buf d_heap d_read_set d_tab]; try done.
  - by apply (rd_wr_same (d_buf d)).
  - intros o n Hd. apply (rd_wr_other _ _ _ _ o n Hb). lia.
  - by apply length_wr in Hb.
Qed.

Lemma update_offset_fixed h col f map a cbuf coff d :
  1 <= map < 3 ->
  let w := if map =? 1 then 4 else 8 in
  update_offset h col f map a None cbuf coff false d = Some (d, Some (w, w, coff, f_offset f)).
Proof. intros H. by assert (map = 1 \/ map = 2) as [-> | ->] by lia. Qed.

(** A fixed-width column: [bs] goes to the row, and [conv] reads it. *)
Lemma coded_fixed f v n map e bs serial tab :
  0 <= e_off e -> e_off e + n <= Z.of_nat (length (e_buf e)) -> 0 < Z.of_nat (length bs) <= n ->
  Forall byte bs -> good_table tab -> 1 <= map < 3 ->
  Z.of_nat (length bs) = (if map =? 1 then 4 else 8) ->
  0 <= f_offset f -> Z.of_nat (length v) = f_pack_length f -> supported_field f ->
  effective_type f <> MYSQL_TYPE_VARCHAR ->
  fst (storage_class (effective_type f)) = map ->
  (forall h d rest, reads h d f ->
    match snd (storage_class (effective_type f)) with
    | NUMERIC_DATA => convert_numeric_to_mysql (effective_type f) f (bs ++ rest) = Some v
    | DATETIME_DATA => convert_datetime_to_mysql (h_read_only_in_ct h) (h_stack h)
                         (effective_type f) (bs ++ rest) f = Some v
    | _ => False
    end) ->
  exists b, wr (e_buf e) (e_off e) bs = Some b /\
    coded f v n map e (mk_enc b (e_off e + Z.of_nat (length bs)) serial tab (e_lob e)).
Proof.
  intros Ho Hroom Hbs Hb Htab Hmap Hw Hfo Hv Hsup Hvc Hsc Hconv.
  destruct (wr_Some (e_buf e) (e_off e) bs) as [b Hwr]; [lia|lia|].
  exists b. split; [done|]. split; cbn [e_off e_buf e_tab]; try done; try lia.
  - by apply length_wr in Hwr.
  - intros o k Hok. apply (rd_wr_other _ _ _ _ o k Hwr). lia.
  - intros Hbuf. by apply (wr_byte _ _ _ _ Hbuf Hb Hwr).
  - intros h d cbuf col Hreads Hdt Hdroom Heq.
    replace (e_off e + Z.of_nat (length bs) - e_off e) with (Z.of_nat (length bs)) in Heq by lia.
    rewrite (rd_wr_same _ _ _ _ Hwr) in Heq. destruct (rd_drop _ _ _ _ Heq) as [rest Hdrop].
    unfold convert_cantian_field_to_mysql_field.
    destruct (aux_entry (d_tab d) f Hsup Hdt) as (tab' & a & -> & Htab' & Hta & Hsca).
    cbn [mbind option_bind]. rewrite update_offset_fixed, <- Hw by done.
    cbn [mbind option_bind].
    unfold copy_column_data_to_mysql. cbn [d_read_set]. destruct Hreads as [Hr1 Hr2].
    rewrite Hr1. specialize (Hconv h d rest (conj Hr1 Hr2)).
    rewrite <- Hsca in Hconv, Hsc. cbn [fst snd] in Hconv, Hsc. rewrite Hta, Hdrop.
    destruct (dput_decoded f v d tab' (d_read_set d) (d_heap d) v) as (d' & Hd' & Hdec);
      try done; try lia.
    { unfold sig_bytes. by destruct (decide _). }
    destruct (sql_data_type a); try done; rewrite Hconv; cbn [mbind option_bind]; rewrite Hd';
      cbn [mbind option_bind]; eauto.
Qed.

(** A variable-length column: a length word, then the data. *)
Lemma update_offset_var h col f a cbuf coff d n :
  rd cbuf coff 2 = Some (le_bytes 2 n) -> 0 <= n < 65000 ->
  ctc_field_type_is_lob h false (mysql_field_type a) f = false ->
  update_offset h col f 3 a None cbuf coff false d =
    (let '(bs, k) := padding_variable_byte (mysql_field_type a) f n in
     d ← dput (f_offset f) bs d;
     Some (d, Some (n, ROUND_UP (n + 2) 4 - 2, coff + 2, f_offset f + k))).
Proof.
  intros Hr Hn Hlob. unfold update_offset. cbn [Z.eqb Pos.eqb CANTIAN_COL_BITS_NULL].
  change (3 =? CANTIAN_COL_BITS_4) with false. change (3 =? CANTIAN_COL_BITS_8) with false.
  change (3 =? CANTIAN_COL_BITS_VAR) with true. change (3 =? CANTIAN_COL_BITS_NULL) with false.
  rewrite andb_false_r. cbn [andb]. rewrite Hr. cbn [mbind option_bind].
  rewrite le_val_le_bytes. change (256 ^ Z.of_nat 2) with 65536. rewrite Z.mod_small by lia.
  pose proof (ROUND_UP_spec (n + 2) ltac:(lia)).
  rewrite (wrapU_small 16) by lia. rewrite Hlob. done.
Qed.

Lemma coded_var f v n e b serial tab data :
  let dl := Z.of_nat (length data) in
  0 <= e_off e -> e_off e + n <= Z.of_nat (length (e_buf e)) -> dl < 65000 ->
  ROUND_UP (dl + 2) 4 <= n -> supported_field f ->
  fst (storage_class (effective_type f)) = 3 -> good_table tab ->
  (forall h, ctc_field_type_is_lob h false (effective_type f) f = false) ->
  rd b (e_off e) 2 = Some (le_bytes 2 dl) -> rd b (e_off e + 2) dl = Some data ->
  length b = length (e_buf e) ->
  (forall o k, o + k <= e_off e -> rd b o k = rd (e_buf e) o k) ->
  (Forall byte (e_buf e) -> Forall byte b) ->
  (forall h d dd a cbuf rest, reads h d f -> good_table (d_tab d) -> good_table (d_tab dd) ->
     d_buf dd = d_buf d -> d_heap dd = d_heap d -> d_read_set dd = d_read_set d ->
     f_offset f + f_pack_length f <= Z.of_nat (length (d_buf d)) ->
     mysql_field_type a = effective_type f ->
     sql_data_type a = snd (storage_class (effective_type f)) ->
     rd cbuf (e_off e + 2) dl = Some data ->
     drop (Z.to_nat (e_off e + 2)) cbuf = data ++ rest ->
     exists d', (let '(bs, k) := padding_variable_byte (effective_type f) f dl in
        d1 ← dput (f_offset f) bs dd;
        copy_column_data_to_mysql h f a cbuf (e_off e + 2) (f_offset f + k) dl false d1) = Some d' /\
       decoded f v d d') ->
  coded f v n 3 e (mk_enc b (e_off e + ROUND_UP (dl + 2) 4) serial tab (e_lob e)).
Proof.
  intros dl Ho Hroom HL Hn Hsup Hsc Htab Hlob Hp Hd Hlen Hbefore Hbyte Hcopy.
  pose proof (ROUND_UP_spec (dl + 2) ltac:(lia)) as [Hru _].
  split; cbn [e_off e_buf e_tab]; try done; try lia.
  intros h d cbuf col Hreads Hdt Hdroom Heq.
  replace (e_off e + ROUND_UP (dl + 2) 4 - e_off e) with (ROUND_UP (dl + 2) 4) in Heq by lia.
  assert (is_Some (rd b (e_off e) (ROUND_UP (dl + 2) 4))) as HS by (apply rd_is_Some; lia).
  pose proof (rd_agree _ _ _ _ 0 2 Heq HS ltac:(lia) ltac:(lia) ltac:(lia)) as Hc1.
  pose proof (rd_agree _ _ _ _ 2 dl Heq HS ltac:(lia) ltac:(lia) ltac:(lia)) as Hc2.
  rewrite Z.add_0_r, Hp in Hc1. rewrite Hd in Hc2.
  destruct (rd_drop _ _ _ _ Hc2) as [rest Hdrop].
  unfold convert_cantian_field_to_mysql_field.
  destruct (aux_entry (d_tab d) f Hsup Hdt) as (tab' & a & -> & Htab' & Hta & Hsca).
  rewrite <- Hsca in Hsc. cbn [fst] in Hsc. cbn [mbind option_bind].
  rewrite (update_offset_var h col f a cbuf (e_off e) _ dl); [|done|lia|].
  2:{ rewrite Hta. apply Hlob. }
  rewrite Hta.
  destruct (Hcopy h d (mk_dec (d_buf d) (d_heap d) tab' (d_read_set d)) a cbuf rest)
    as (d' & Hd' & Hdec); try done.
  { by rewrite <- Hsca. }
  destruct (padding_variable_byte (effective_type f) f dl) as [bs k].
  destruct (dput (f_offset f) bs _) as [d1|]; [|done]. cbn [mbind option_bind] in Hd' |- *.
  rewrite Hd'. cbn [mbind option_bind]. exists d'. split; [|done].
  do 2 f_equal. lia.
Qed.

(** ** Encoding one column *)

Lemma put_spec d bs e e' :
  put d bs e = Some e' ->
  wr (e_buf e) (e_off e + d) bs = Some (e_buf e') /\ e_off e' = e_off e /\
  e_serial e' = e_serial e /\ e_tab e' = e_tab e /\ e_lob e' = e_lob e.
Proof.
  unfold put. destruct (wr _ _ _) as [b|]; [|done]. by intros [= <-].
Qed.

Lemma put_total d bs e :
  0 <= e_off e + d -> e_off e + d + Z.of_nat (length bs) <= Z.of_nat (length (e_buf e)) ->
  exists b, wr (e_buf e) (e_off e + d) bs = Some b /\ put d bs e = Some (set_buf b e).
Proof.
  intros H1 H2. destruct (wr_Some _ _ _ H1 H2) as [b Hb].
  exists b. split; [done|]. unfold put. by rewrite Hb.
Qed.

(** The length word and the data stored one after the other. *)
Lemma prefix_data buf off data b1 b2 :
  wr buf off (le_bytes 2 (Z.of_nat (length data))) = Some b1 ->
  wr b1 (off + 2) data = Some b2 ->
  rd b2 off 2 = Some (le_bytes 2 (Z.of_nat (length data))) /\
  rd b2 (off + 2) (Z.of_nat (length data)) = Some data /\
  length b2 = length buf /\
  (forall o k, o + k <= off -> rd b2 o k = rd buf o k) /\
  (Forall byte buf -> Forall byte data -> Forall byte b2).
Proof.
  intros H1 H2. split; [|split; [by apply (rd_wr_same b1)|split; [|split]]].
  - rewrite (rd_wr_other _ _ _ _ off 2 H2) by lia. apply (rd_wr_same buf _ _ _ H1).
  - apply length_wr in H1, H2. congruence.
  - intros o k Hok. rewrite (rd_wr_other _ _ _ _ o k H2) by lia.
    apply (rd_wr_other _ _ _ _ o k H1). lia.
  - intros Hb Hd. apply (wr_byte _ _ _ _ (wr_byte _ _ _ _ Hb (le_bytes_byte _ _) H1) Hd H2).
Qed.

End OneColumn.
Lemma fixed_storage t f :
  fixed_numeric t f = true ->
  snd (storage_class t) = NUMERIC_DATA /\ 1 <= fst (storage_class t) < 3 /\
  Z.of_nat (cantian_width t) = (if fst (storage_class t) =? 1 then 4 else 8) /\
  t <> MYSQL_TYPE_VARCHAR /\ t <> MYSQL_TYPE_NEWDECIMAL.
Proof.
  intros H. destruct t; try done; vm_compute; repeat split; discriminate.
Qed.

Lemma temporal_storage {M : MySQL} t f v :
  stored_temporal t f v ->
  storage_class t = (2, DATETIME_DATA) /\ t <> MYSQL_TYPE_VARCHAR /\
  (forall n, record_field_length (mk_field t t 0 0 0 0 false 0 0 false false 0 0 false false false
     false 0 0 0 0 0) = Some n -> n = 8).
Proof.
  intros (_ & _ & _ & H). destruct t; try done; (split; [reflexivity|]; split; [discriminate|]);
    vm_compute; congruence.
Qed.

(** The width of a fixed column is within the length counted for it. *)
Lemma fixed_room f n :
  (f_type f = effective_type f \/
   (f_type f = MYSQL_TYPE_STRING /\ f_row_pack_length f = f_pack_length f /\ 1 <= f_pack_length f)) ->
  0 <= f_row_pack_length f <= 8000 ->
  fixed_numeric (effective_type f) f = true ->
  f_pack_length f = Z.of_nat (mysql_width (effective_type f) f) ->
  record_field_length f = Some n -> Z.of_nat (cantian_width (effective_type f)) <= n.
Proof.
  intros Hty Hrp Hfix Hpl Hn. destruct Hty as [Hty|(Hty & Hrpl & Hp1)].
  - rewrite <- Hty in *. unfold record_field_length in Hn.
    destruct (f_type f); try done; cbn [cantian_width]; injection Hn as <-; lia.
  - unfold record_field_length in Hn. rewrite Hty in Hn. injection Hn as <-.
    rewrite Hrpl in Hrp |- *. pose proof (ROUND_UP_spec (f_pack_length f + 2) ltac:(lia)) as [Hr Hm].
    rewrite wrapU_small by lia.
    unfold effective_type in *. rewrite Hty in *. cbn [ty_lt type_code] in *.
    change (ty_lt MYSQL_TYPE_STRING MYSQL_TYPE_INVALID) with false in *.
    destruct (_ || _); [|done]. unfold enum_set_type in *.
    repeat case_match; zb; cbn [cantian_width mysql_width] in *; dlia.
Qed.

Section Encode.
Context {M : MySQL} {BO : ByteOrder M} {TC : TimeCodec M} {DTC : DatetimeCodec M}
  {TS : TimestampCodec M} {DC : DecimalCodec M} {L : LobStore}.

Lemma rd_full mbuf f v :
  rd mbuf (f_offset f) (f_pack_length f) = Some v -> Z.of_nat (length v) = f_pack_length f.
Proof. intros H. apply rd_inv in H as (_ & Hn & _ & Hl & _). lia. Qed.

Lemma encode_fixed f mbuf v cid e n :
  column_ok f v -> rd mbuf (f_offset f) (f_pack_length f) = Some v ->
  fixed_numeric (effective_type f) f = true -> length v = mysql_width (effective_type f) f ->
  bit_overrun (effective_type f) f = 0%nat ->
  (effective_type f = MYSQL_TYPE_FLOAT -> float_is_nan (le_val v) = false) ->
  record_field_length f = Some n -> 0 <= e_off e ->
  e_off e + n <= Z.of_nat (length (e_buf e)) -> good_table (e_tab e) ->
  exists map e', encode_column true f mbuf cid e = Some (St 0, map, e') /\ coded f v n map e e'
    /\ e_lob e' = e_lob e.
Proof.
  intros (Hsup & Hfo & Hb & Hlv & Hrp & Hty & _) Hrd Hfix Hlw Hov Hnan Hn Ho Hroom Htab.
  destruct (fixed_storage _ _ Hfix) as (Hsql & Hmap & Hcw & Hnv & Hnd).
  pose proof (fixed_room f n Hty Hrp Hfix ltac:(lia) Hn) as Hwn.
  unfold encode_column.
  destruct (aux_entry (e_tab e) f Hsup Htab) as (tab & a & -> & Htab' & Hta & Hsca).
  cbn [mbind option_bind]. rewrite <- Hsca in Hsql, Hmap, Hcw. cbn [fst snd] in Hsql, Hmap, Hcw.
  assert (get_map_and_field_len a f mbuf (f_offset f) (set_tab tab e)
    = Some (Z.of_nat (cantian_width (effective_type f)), f_offset f, set_tab tab e)) as ->.
  { unfold get_map_and_field_len, CANTIAN_COL_BITS_4, CANTIAN_COL_BITS_8.
    assert (cantian_map_type a = 1 \/ cantian_map_type a = 2) as [Hm|Hm] by lia;
      rewrite Hm in Hcw |- *; cbn [Z.eqb Pos.eqb] in Hcw |- *; by rewrite Hcw. }
  cbn [mbind option_bind]. unfold convert_data_from_mysql_to_cantian. rewrite Hsql, Hrd.
  cbn [mbind option_bind]. rewrite Hta.
  destruct (numeric_codec _ f v (Z.of_nat (cantian_width (effective_type f))) Hfix Hlw Hb Hnan)
    as (cb & -> & Hcl & Hcb & Hback). cbn [mbind option_bind].
  assert (f_type f <> MYSQL_TYPE_NEWDECIMAL) as Hndf
    by (destruct Hty as [->|[-> _]]; [done|discriminate]).
  destruct (coded_fixed f v n (cantian_map_type a) e cb
    (if f_auto_increment f then e_off e else e_serial e) tab) as (b & Hwr & Hcoded);
    try done; try lia.
  { split; [|lia]. rewrite Hcl. destruct (effective_type f); simpl; lia. }
  { by rewrite <- Hsca. }
  { intros h d rest Hreads. rewrite <- Hsca. cbn [snd]. rewrite Hsql, Hback, Hov.
    by rewrite app_nil_r. }
  unfold put. cbn [e_buf e_off set_tab]. rewrite Z.add_0_r, Hwr. cbn [mbind option_bind].
  destruct (decide (f_type f = MYSQL_TYPE_NEWDECIMAL)); [done|]. cbn [is_ok Z.eqb negb].
  unfold CANTIAN_COL_BITS_VAR. rewrite (proj2 (Z.eqb_neq (cantian_map_type a) 3)) by lia.
  eexists _, _. split; [reflexivity|]. rewrite Hcl in Hcoded.
  destruct (f_auto_increment f); (split; [exact Hcoded|reflexivity]).
Qed.

Lemma encode_temporal f mbuf v cid e n :
  column_ok f v -> rd mbuf (f_offset f) (f_pack_length f) = Some v ->
  stored_temporal (effective_type f) f v ->
  record_field_length f = Some n -> 0 <= e_off e ->
  e_off e + n <= Z.of_nat (length (e_buf e)) -> good_table (e_tab e) ->
  exists map e', encode_column true f mbuf cid e = Some (St 0, map, e') /\ coded f v n map e e'
    /\ e_lob e' = e_lob e.
Proof.
  intros (Hsup & Hfo & Hb & Hlv & Hrp & Hty & _) Hrd Hst Hn Ho Hroom Htab.
  destruct (temporal_storage _ _ _ Hst) as (Hsc & Hnv & Hn8).
  assert (n = 8) as ->.
  { destruct Hty as [Hty|[Hty _]].
    - apply Hn8. rewrite <- Hn. unfold record_field_length. cbn [f_type]. rewrite Hty.
      destruct Hst as (_ & _ & _ & Hst). by destruct (effective_type f).
    - exfalso. destruct Hst as (_ & _ & _ & Hst). unfold effective_type in Hst.
      rewrite Hty in Hst. change (ty_lt MYSQL_TYPE_STRING MYSQL_TYPE_INVALID) with false in Hst.
      cbv iota in Hst. destruct (_ || _); [|done]. unfold enum_set_type in Hst.
      by repeat case_match. }
  unfold encode_column.
  destruct (aux_entry (e_tab e) f Hsup Htab) as (tab & a & -> & Htab' & Hta & Hsca).
  cbn [mbind option_bind]. rewrite Hsc in Hsca. injection Hsca as Hm Hsql.
  unfold get_map_and_field_len. rewrite Hm. change (2 =? CANTIAN_COL_BITS_4) with false.
  change (2 =? CANTIAN_COL_BITS_8) with true. cbn [mbind option_bind].
  unfold convert_data_from_mysql_to_cantian. rewrite Hsql, Hrd. cbn [mbind option_bind].
  rewrite Hta. destruct (temporal_codec _ f v Hst) as (cb & -> & Hcl & Hcb & Hback).
  cbn [mbind option_bind].
  destruct (coded_fixed f v 8 2 e cb (e_serial e) tab) as (b & Hwr & Hcoded);
    try done; try (simpl; lia).
  { by rewrite Hsc. }
  { intros h d rest [_ Hro]. rewrite Hsc. cbn [snd]. rewrite Hro. apply Hback. }
  unfold put. cbn [e_buf e_off set_tab]. rewrite Z.add_0_r, Hwr. cbn [mbind option_bind].
  cbn [is_ok Z.eqb negb]. change (2 =? CANTIAN_COL_BITS_VAR) with false.
  eexists _, _. split; [reflexivity|]. rewrite Hcl in Hcoded. split; [exact Hcoded|reflexivity].
Qed.

Lemma ALIGN_UP_ceil x : 0 <= x -> ALIGN_UP x 4 = ceil_div x 4.
Proof. intros H. unfold ALIGN_UP, ceil_div. destruct (x mod 4 =? 0) eqn:E; zb; dlia. Qed.

Lemma dput_nil off d :
  0 <= off <= Z.of_nat (length (d_buf d)) -> dput off [] d = Some d.
Proof.
  intros H. unfold dput, wr. cbn [length]. rewrite !(proj2 (Z.leb_le _ _)) by lia.
  cbn [andb mbind option_bind app]. rewrite Nat.add_0_r, take_drop. by destruct d.
Qed.

Lemma reads_read h d dd f :
  reads h d f -> d_read_set dd = d_read_set d ->
  negb (bool_decide (f_index f ∈ d_read_set dd)) && h_is_select h && negb (h_ror_intersect h) = false.
Proof. by intros [H _] ->. Qed.

Lemma encode_decimal f mbuf v cid e n :
  column_ok f v -> rd mbuf (f_offset f) (f_pack_length f) = Some v ->
  effective_type f = MYSQL_TYPE_NEWDECIMAL -> f_type f = MYSQL_TYPE_NEWDECIMAL ->
  stored_decimal f v ->
  record_field_length f = Some n -> 0 <= e_off e ->
  e_off e + n <= Z.of_nat (length (e_buf e)) -> good_table (e_tab e) ->
  exists map e', encode_column true f mbuf cid e = Some (St 0, map, e') /\ coded f v n map e e'
    /\ e_lob e' = e_lob e.
Proof.
  intros (Hsup & Hfo & Hb & Hlv & _) Hrd Het Hft Hst Hn Ho Hroom Htab.
  pose proof Hst as (Hp & Hs & Hsp & _).
  assert (storage_class (effective_type f) = (3, NUMERIC_DATA)) as Hsc by (by rewrite Het).
  unfold encode_column.
  destruct (aux_entry (e_tab e) f Hsup Htab) as (tab & a & -> & Htab' & Hta & Hsca).
  cbn [mbind option_bind]. rewrite Hsc in Hsca. injection Hsca as Hm Hsql. rewrite Het in Hta.
  unfold record_field_length in Hn. rewrite Hft in Hn. injection Hn as <-.
  rewrite !ALIGN_UP_ceil in * by lia.
  set (k := ceil_div (f_precision f - f_decimals f) 4 + ceil_div (f_decimals f) 4) in *.
  assert (0 <= k <= 18) as Hk by (unfold k, ceil_div; dlia).
  pose proof (ROUND_UP_spec ((1 + k) * 2 + 2) ltac:(lia)) as [Hru _].
  rewrite (wrapU_small 16) in Hroom |- * by lia.
  unfold get_map_and_field_len. rewrite Hm, Hta, Hsql.
  cbn [Z.eqb Pos.eqb CANTIAN_COL_BITS_4 CANTIAN_COL_BITS_8 CANTIAN_COL_BITS_VAR].
  change (3 =? CANTIAN_COL_BITS_4) with false. change (3 =? CANTIAN_COL_BITS_8) with false.
  change (3 =? CANTIAN_COL_BITS_VAR) with true. cbn [calculate_variable_len].
  rewrite !ALIGN_UP_ceil by lia. fold k.
  destruct (decide (NUMERIC_DATA = LOB_DATA)); [done|].
  change (bool_decide (NUMERIC_DATA = STRING_DATA)) with false. cbn [mbind option_bind andb negb].
  destruct (put_total 0 (le_bytes 2 ((1 + k) * 2)) (set_tab tab e)) as (b0 & Hw0 & ->);
    [cbn; lia|rewrite length_le_bytes; cbn; lia|].
  cbn [e_buf e_off set_tab] in Hw0. rewrite Z.add_0_r in Hw0.
  cbn [mbind option_bind]. unfold convert_data_from_mysql_to_cantian.
  rewrite Hsql, Hta, Z.add_0_r, Hrd. cbn [mbind option_bind].
  destruct (decimal_codec f v ((1 + k) * 2) Hst) as (cb & len' & -> & Hcl & Hcb & Hlr & Hback).
  fold k in Hlr. cbn [mbind option_bind]. pose proof (length_wr _ _ _ _ Hw0) as Hl0.
  set (e1 := add_off 2 (set_buf b0 (set_tab tab e))).
  destruct (put_total 0 cb e1) as (b1 & Hw1 & ->); [cbn; lia|cbn; lia|].
  cbn [e_buf e_off e1 add_off set_buf set_tab] in Hw1. rewrite Z.add_0_r in Hw1.
  pose proof (length_wr _ _ _ _ Hw1) as Hl1. cbn [mbind option_bind].
  destruct (decide (f_type f = MYSQL_TYPE_NEWDECIMAL)); [|done].
  set (e2 := if f_auto_increment f then set_serial (e_off (set_buf b1 e1)) (set_buf b1 e1)
             else set_buf b1 e1).
  assert (e_buf e2 = b1 /\ e_off e2 = e_off e + 2 /\ e_tab e2 = tab /\ e_lob e2 = e_lob e)
    as (He2b & He2o & He2t & He2l) by (unfold e2; destruct (f_auto_increment f); done).
  destruct (put_total (-2) (le_bytes 2 len') e2) as (b2 & Hw2 & ->);
    [rewrite He2o; lia|rewrite He2o, He2b, length_le_bytes; lia|].
  rewrite He2b, He2o in Hw2. replace (e_off e + 2 + -2) with (e_off e) in Hw2 by lia.
  cbn [mbind option_bind is_ok Z.eqb negb].
  eexists _, _. split; [reflexivity|]. split; [|done].
  pose proof (length_wr _ _ _ _ Hw2) as Hl2. pose proof (ROUND_UP_spec (len' + 2) ltac:(lia)).
  pose proof (ROUND_UP_mono (len' + 2) ((1 + k) * 2 + 2) ltac:(lia)).
  replace (add_off (ROUND_UP (len' + 2) 4 - 2) (set_buf b2 e2))
    with (mk_enc b2 (e_off e + ROUND_UP (Z.of_nat (length cb) + 2) 4) (e_serial e2) tab (e_lob e)).
  2:{ unfold add_off, set_buf. cbn [e_off e_buf e_serial e_tab e_lob].
      rewrite He2o, He2t, He2l. f_equal. rewrite ?Hcl. lia. }
  apply (coded_var f v _ e b2 (e_serial e2) tab cb); try done; try lia.
  - rewrite Hcl. exact H0.
  - by rewrite Het.
  - intros h. by rewrite Het.
  - rewrite Hcl. apply (rd_wr_same b1 _ _ _ Hw2).
  - rewrite (rd_wr_other _ _ _ _ _ _ Hw2) by (rewrite length_le_bytes; lia).
    apply (rd_wr_same b0 _ _ _ Hw1).
  - intros o q Hoq. rewrite (rd_wr_other _ _ _ _ o q Hw2), (rd_wr_other _ _ _ _ o q Hw1) by lia.
    apply (rd_wr_other _ _ _ _ o q Hw0). lia.
  - intros Hbuf. eapply (wr_byte _ _ _ _ _ (le_bytes_byte _ _) Hw2).
    Unshelve. apply (wr_byte _ _ _ _ (wr_byte _ _ _ _ Hbuf (le_bytes_byte _ _) Hw0) Hcb Hw1).
  - intros h d dd a' cbuf rest Hreads Hdt Hddt Hbufd Hheap Hrs Hdr Hta' Hsql' Hcr Hdrop.
    rewrite Het. cbn [padding_variable_byte]. rewrite dput_nil by (rewrite Hbufd; lia).
    cbn [mbind option_bind]. unfold copy_column_data_to_mysql.
    rewrite (reads_read h d dd f Hreads Hrs). rewrite Hsql', Hsc, Hta', Het, Hdrop. cbn [snd].
    rewrite Hback. cbn [mbind option_bind]. rewrite Z.add_0_r.
    replace dd with (mk_dec (d_buf d) (d_heap d) (d_tab dd) (d_read_set d))
      by (destruct dd; cbn in *; congruence).
    apply dput_decoded; try done; try lia.
    unfold sig_bytes. rewrite Het. by destruct (decide _).
Qed.

(** The decoding half of a variable-length column. *)
Definition string_back (f : Field) (v data : list Z) : Prop :=
  forall h d dd a cbuf coff, reads h d f -> good_table (d_tab dd) ->
    d_buf dd = d_buf d -> d_heap dd = d_heap d -> d_read_set dd = d_read_set d ->
    f_offset f + f_pack_length f <= Z.of_nat (length (d_buf d)) ->
    mysql_field_type a = effective_type f -> sql_data_type a = STRING_DATA ->
    rd cbuf coff (Z.of_nat (length data)) = Some data ->
    exists d', (let '(bs, k) := padding_variable_byte (effective_type f) f (Z.of_nat (length data)) in
       d1 ← dput (f_offset f) bs dd;
       copy_column_data_to_mysql h f a cbuf coff (f_offset f + k)
         (Z.of_nat (length data)) false d1) = Some d' /\
      decoded f v d d'.

Lemma encode_string f mbuf v cid e n lb data :
  supported_field f -> storage_class (effective_type f) = (3, STRING_DATA) ->
  calculate_variable_len (effective_type f) f mbuf (f_offset f)
    = Some (Z.of_nat (length data), lb) ->
  rd mbuf (f_offset f + lb) (Z.of_nat (length data)) = Some data -> Forall byte data ->
  0 <= f_row_pack_length f <= 8000 -> Z.of_nat (length data) <= f_row_pack_length f ->
  (effective_type f = MYSQL_TYPE_VARCHAR \/ effective_type f = MYSQL_TYPE_STRING) ->
  ROUND_UP (f_row_pack_length f + 2) 4 <= n -> string_back f v data -> 0 <= e_off e ->
  e_off e + n <= Z.of_nat (length (e_buf e)) -> good_table (e_tab e) ->
  exists map e', encode_column true f mbuf cid e = Some (St 0, map, e') /\ coded f v n map e e'
    /\ e_lob e' = e_lob e.
Proof.
  intros Hsup Hsc Hcalc Hrd Hb Hrp Hl Hty Hn Hback Ho Hroom Htab.
  set (dl := Z.of_nat (length data)) in *.
  unfold encode_column.
  destruct (aux_entry (e_tab e) f Hsup Htab) as (tab & a & -> & Htab' & Hta & Hsca).
  cbn [mbind option_bind]. rewrite Hsc in Hsca. injection Hsca as Hm Hsql.
  pose proof (ROUND_UP_spec (f_row_pack_length f + 2) ltac:(lia)) as [Hru _].
  pose proof (ROUND_UP_mono (dl + 2) (f_row_pack_length f + 2) ltac:(lia)) as Hmono.
  assert (VARCHAR_AS_BLOB (f_row_pack_length f) = false) as Hvb.
  { unfold VARCHAR_AS_BLOB, CTC_DDL_MAX_VARCHAR_COLUMN_SIZE. apply Z.ltb_ge. lia. }
  unfold get_map_and_field_len. rewrite Hm, Hta, Hsql, Hcalc, Hvb.
  change (3 =? CANTIAN_COL_BITS_4) with false. change (3 =? CANTIAN_COL_BITS_8) with false.
  change (3 =? CANTIAN_COL_BITS_VAR) with true.
  destruct (decide (STRING_DATA = LOB_DATA)); [done|]. cbn [mbind option_bind].
  rewrite andb_false_r. cbn [negb].
  destruct (put_total 0 (le_bytes 2 dl) (set_tab tab e)) as (b0 & Hw0 & ->);
    [cbn; lia|rewrite length_le_bytes; cbn; lia|].
  cbn [e_buf e_off set_tab] in Hw0. rewrite Z.add_0_r in Hw0.
  cbn [mbind option_bind]. unfold convert_data_from_mysql_to_cantian.
  rewrite Hsql, Hrd, Hvb. cbn [mbind option_bind negb]. pose proof (length_wr _ _ _ _ Hw0) as Hl0.
  destruct (put_total 0 data (add_off 2 (set_buf b0 (set_tab tab e)))) as (b1 & Hw1 & ->);
    [cbn; lia|cbn; lia|].
  cbn [e_buf e_off add_off set_buf set_tab] in Hw1. rewrite Z.add_0_r in Hw1.
  cbn [mbind option_bind is_ok Z.eqb negb].
  destruct (prefix_data _ _ _ _ _ Hw0 Hw1) as (Hp1 & Hp2 & Hp3 & Hp4 & Hp5).
  eexists _, _. split; [reflexivity|]. split; [|done].
  unfold add_off, set_buf, set_tab. cbn [e_off e_buf e_serial e_tab e_lob].
  replace (e_off e + 2 + _) with (e_off e + ROUND_UP (dl + 2) 4) by lia.
  apply coded_var; try done; try lia; try (by rewrite Hsc).
  - fold dl. lia.
  - intros h. unfold ctc_field_type_is_lob. rewrite Hvb.
    by destruct Hty as [-> | ->].
  - auto.
  - intros h d dd a' cbuf rest Hreads _ Hddt Hbufd Hheap Hrs Hdr Hta' Hsql' Hcr _.
    rewrite Hsc in Hsql'. by apply (Hback h d dd a').
Qed.

(** Two stores, one after the other, that make up the value. *)
Lemma dput2_decoded f v d dd b1 b2 :
  0 <= f_offset f -> b1 ++ b2 = sig_bytes f v -> Z.of_nat (length (b1 ++ b2)) <= f_pack_length f ->
  f_offset f + f_pack_length f <= Z.of_nat (length (d_buf d)) ->
  good_table (d_tab dd) -> d_buf dd = d_buf d -> d_heap dd = d_heap d ->
  d_read_set dd = d_read_set d ->
  exists d1 d2, dput (f_offset f) b1 dd = Some d1 /\
    dput (f_offset f + Z.of_nat (length b1)) b2 d1 = Some d2 /\ decoded f v d d2 /\
    good_table (d_tab d1) /\ d_heap d1 = d_heap d /\ d_read_set d1 = d_read_set d.
Proof.
  intros Ho Hs Hl Hroom Ht Hb Hh Hr. unfold dput. rewrite Hb. rewrite length_app in Hl.
  destruct (wr_Some (d_buf d) (f_offset f) b1) as [w1 H1]; [lia|lia|].
  pose proof (length_wr _ _ _ _ H1) as Hl1. rewrite H1. cbn [mbind option_bind].
  destruct (wr_Some w1 (f_offset f + Z.of_nat (length b1)) b2) as [w2 H2]; [lia|lia|].
  pose proof (length_wr _ _ _ _ H2) as Hl2.
  eexists _, _. split; [reflexivity|]. cbn [d_buf dset_buf]. rewrite H2.
  split; [reflexivity|]. split; [|done].
  split; unfold dset_buf; cbn [d_buf d_heap d_read_set d_tab]; try done; try congruence.
  - rewrite <- Hs, length_app, Nat2Z.inj_add. apply rd_app; [|by apply (rd_wr_same w1)].
    rewrite (rd_wr_other _ _ _ _ _ _ H2) by lia. by apply (rd_wr_same (d_buf d)).
  - intros o n Hd. rewrite (rd_wr_other _ _ _ _ o n H2), (rd_wr_other _ _ _ _ o n H1) by lia. done.
Qed.

Lemma trim_pad_spec ptr pad n :
  (n <= length ptr)%nat ->
  (trim_pad ptr pad n <= n)%nat /\
  take n ptr = take (trim_pad ptr pad n) ptr ++ replicate (n - trim_pad ptr pad n) pad.
Proof.
  induction n as [|n IH]; intros Hn; [done|]. cbn [trim_pad].
  destruct (lookup_lt_is_Some_2 ptr n) as [c Hc]; [lia|]. rewrite Hc.
  assert (take (S n) ptr = take (S n) ptr ++ replicate (S n - S n) pad) as Hid
    by (by rewrite Nat.sub_diag, app_nil_r).
  destruct (c =? pad) eqn:E; [|by split]. zb. subst c.
  destruct IH as [Hle IH]; [lia|]. split; [lia|].
  rewrite (take_S_r _ _ _ Hc), IH, <- app_assoc. f_equal.
  replace (S n - trim_pad ptr pad n)%nat with (S (n - trim_pad ptr pad n)) by lia.
  symmetry. apply replicate_S_end.
Qed.

(** What the read set and the row length leave of the copying of strings. *)
Lemma copy_string h f a cbuf coff moff data d dd :
  reads h d f -> d_read_set dd = d_read_set d -> sql_data_type a = STRING_DATA ->
  0 <= f_row_pack_length f <= 8000 ->
  rd cbuf coff (Z.of_nat (length data)) = Some data ->
  copy_column_data_to_mysql h f a cbuf coff moff (Z.of_nat (length data)) false dd =
    (d1 ← dput moff data dd;
     if bool_decide (mysql_field_type a = MYSQL_TYPE_STRING)
        && bool_decide (f_real_type f = MYSQL_TYPE_STRING)
        && (Z.of_nat (length data) <? f_row_pack_length f)
     then dput (moff + Z.of_nat (length data))
            (replicate (Z.to_nat (f_row_pack_length f - Z.of_nat (length data))) (f_pad_char f)) d1
     else Some d1).
Proof.
  intros Hreads Hrs Hsql Hrp Hrd. unfold copy_column_data_to_mysql.
  rewrite (reads_read h d dd f Hreads Hrs), Hsql.
  assert (VARCHAR_AS_BLOB (f_row_pack_length f) = false) as ->.
  { unfold VARCHAR_AS_BLOB, CTC_DDL_MAX_VARCHAR_COLUMN_SIZE. apply Z.ltb_ge. lia. }
  cbn [negb orb]. rewrite Hrd. cbn [mbind option_bind]. done.
Qed.

Lemma varchar_back f v :
  0 <= f_offset f -> Z.of_nat (length v) = f_pack_length f -> Forall byte v ->
  effective_type f = MYSQL_TYPE_VARCHAR -> 1 <= f_length_bytes f <= 2 ->
  0 <= f_row_pack_length f <= 8000 ->
  f_length_bytes f + le_val (take (Z.to_nat (f_length_bytes f)) v) <= f_pack_length f ->
  string_back f v (take (Z.to_nat (le_val (take (Z.to_nat (f_length_bytes f)) v)))
                     (drop (Z.to_nat (f_length_bytes f)) v)).
Proof.
  intros Ho Hlv Hb Het Hlb Hrp Hfit h d dd a cbuf coff Hreads Hddt Hbufd Hheap Hrs Hdr Hta Hsql Hcr.
  set (w := take (Z.to_nat (f_length_bytes f)) v) in *.
  set (data := take (Z.to_nat (le_val w)) (drop (Z.to_nat (f_length_bytes f)) v)) in *.
  assert (Forall byte w) as Hbw by (by apply Forall_take).
  pose proof (le_val_range _ Hbw) as Hwr.
  assert (Z.of_nat (length w) = f_length_bytes f) as Hlw by (unfold w; rewrite length_take; lia).
  assert (Z.of_nat (length data) = le_val w) as Hdl
    by (unfold data; rewrite length_take, length_drop; lia).
  rewrite Het, Hdl. unfold padding_variable_byte. rewrite (wrapU_small 8) by lia.
  assert ((if f_length_bytes f =? 1 then le_bytes 1 (le_val w) else le_bytes 2 (le_val w)) = w) as ->.
  { assert (f_length_bytes f = 1 \/ f_length_bytes f = 2) as [H|H] by lia; rewrite H; cbn [Z.eqb Pos.eqb];
      rewrite <- (le_bytes_le_val w Hbw) at 2; f_equal; lia. }
  destruct (dput2_decoded f v d dd w data) as (d1 & d2 & Hp1 & Hp2 & Hdec & _ & _ & Hrs1); try done.
  { unfold sig_bytes. rewrite Het. destruct (decide _); [|done]. fold w.
    rewrite Z2Nat.inj_add by lia. unfold w, data. apply take_take_drop. }
  { rewrite length_app. lia. }
  rewrite Hp1. cbn [mbind option_bind]. rewrite <- Hdl, <- Hlw.
  rewrite (copy_string h f a cbuf coff _ data d d1), Hp2, Hta, Het by done.
  cbn [mbind option_bind]. rewrite bool_decide_eq_false_2 by done. cbn [andb]. eauto.
Qed.

Lemma char_back f v :
  0 <= f_offset f -> Z.of_nat (length v) = f_pack_length f ->
  effective_type f = MYSQL_TYPE_STRING -> f_real_type f = MYSQL_TYPE_STRING ->
  f_row_pack_length f = f_pack_length f -> f_row_pack_length f <= 8000 ->
  string_back f v (take (trim_pad v (f_pad_char f) (length v)) v).
Proof.
  intros Ho Hlv Het Hreal Hrpl Hrp h d dd a cbuf coff Hreads Hddt Hbufd Hheap Hrs Hdr Hta Hsql Hcr.
  destruct (trim_pad_spec v (f_pad_char f) (length v)) as [Hle Hsplit]; [done|].
  rewrite take_ge in Hsplit by lia.
  set (data := take (trim_pad v (f_pad_char f) (length v)) v) in *.
  assert (length data = trim_pad v (f_pad_char f) (length v)) as Hdl
    by (unfold data; rewrite length_take; lia).
  assert (sig_bytes f v = v) as Hsig by (unfold sig_bytes; rewrite Het; by destruct (decide _)).
  rewrite Het. cbn [padding_variable_byte]. rewrite dput_nil by (rewrite Hbufd; lia).
  cbn [mbind option_bind]. rewrite Z.add_0_r.
  rewrite (copy_string h f a cbuf coff _ data d dd), Hta, Het, Hreal by (done || lia).
  rewrite bool_decide_eq_true_2 by done. cbn [andb].
  destruct (_ <? _) eqn:E; zb.
  - destruct (dput2_decoded f v d dd data (replicate (Z.to_nat (f_row_pack_length f - Z.of_nat (length data)))
      (f_pad_char f))) as (d1 & d2 & Hp1 & Hp2 & Hdec & _); try done.
    { rewrite Hsig, Hsplit at 1. f_equal. f_equal. lia. }
    { rewrite length_app, length_replicate. lia. }
    rewrite Hp1. cbn [mbind option_bind]. rewrite Hp2. eauto.
  - assert (data = v) as ->. { rewrite Hsplit. replace (length v - _)%nat with 0%nat by lia. by rewrite app_nil_r. }
    destruct (dput2_decoded f v d dd v []) as (d1 & d2 & Hp1 & Hp2 & Hdec & _); try done.
    { by rewrite app_nil_r. } { rewrite app_nil_r. lia. }
    rewrite Hp1. cbn [mbind option_bind].
    assert (d2 = d1) as ->; [|eauto].
    rewrite dput_nil in Hp2; [congruence|]. unfold dput in Hp1.
    destruct (wr (d_buf dd) _ _) as [w|] eqn:Hw; [|done]. injection Hp1 as <-.
    cbn [d_buf dset_buf]. rewrite (length_wr _ _ _ _ Hw), Hbufd. lia.
Qed.

Lemma string_room f n :
  (f_type f = MYSQL_TYPE_VARCHAR \/ f_type f = MYSQL_TYPE_STRING) ->
  0 <= f_row_pack_length f <= 8000 -> record_field_length f = Some n ->
  n = ROUND_UP (f_row_pack_length f + 2) 4.
Proof.
  intros Hty Hrp Hn. pose proof (ROUND_UP_spec (f_row_pack_length f + 2) ltac:(lia)) as [H _].
  unfold record_field_length in Hn.
  destruct Hty as [Hty|Hty]; rewrite Hty in Hn; injection Hn as <-; apply wrapU_small; lia.
Qed.

(** The length and the data of a [VARCHAR] in the server's record. *)
Lemma varchar_parts f mbuf v :
  Forall byte v -> Z.of_nat (length v) = f_pack_length f ->
  rd mbuf (f_offset f) (f_pack_length f) = Some v ->
  effective_type f = MYSQL_TYPE_VARCHAR -> 1 <= f_length_bytes f <= 2 ->
  f_length_bytes f + le_val (take (Z.to_nat (f_length_bytes f)) v) <= f_pack_length f ->
  let w := take (Z.to_nat (f_length_bytes f)) v in
  let data := take (Z.to_nat (le_val w)) (drop (Z.to_nat (f_length_bytes f)) v) in
  Z.of_nat (length data) = le_val w /\
  calculate_variable_len (effective_type f) f mbuf (f_offset f)
    = Some (Z.of_nat (length data), f_length_bytes f) /\
  rd mbuf (f_offset f + f_length_bytes f) (Z.of_nat (length data)) = Some data.
Proof.
  intros Hb Hlv Hrd Het Hlb Hfit w data. fold w in Hfit.
  pose proof (le_val_range w (Forall_take _ _ _ Hb)) as Hwr.
  assert (Z.of_nat (length data) = le_val w) as Hlen
    by (unfold data; rewrite length_take, length_drop; lia).
  pose proof (rd_sub _ _ _ _ 0 (f_length_bytes f) Hrd ltac:(lia) ltac:(lia) ltac:(lia)) as Hw.
  rewrite Z.add_0_r in Hw. change (drop (Z.to_nat 0) v) with v in Hw. fold w in Hw.
  pose proof (rd_sub _ _ _ _ (f_length_bytes f) (le_val w) Hrd ltac:(lia) ltac:(lia) ltac:(lia))
    as Hd. fold data in Hd.
  split; [done|]. split; [|by rewrite Hlen].
  unfold calculate_variable_len. rewrite Het, (wrapU_small 8) by lia.
  assert (length w = Z.to_nat (f_length_bytes f)) as Hlw by (unfold w; rewrite length_take; lia).
  assert (f_length_bytes f = 1 \/ f_length_bytes f = 2) as [H|H] by lia;
    rewrite H in Hw, Hlw |- *; cbn [Z.eqb Pos.eqb]; rewrite Hw, Hlen; [done|].
  cbn [mbind option_bind]. do 2 f_equal.
  assert (Forall byte w) as Hbw by (by apply Forall_take).
  destruct w as [|x [|y [|]]]; try done.
  inversion Hbw as [|? ? Hx Hbw']; subst. inversion Hbw'; subst.
  unfold read_from_2_little_endian. cbn [take drop le_val]. rewrite !Z.mul_0_r, !Z.add_0_r.
  rewrite lor_shift8 by (unfold byte in *; lia). lia.
Qed.

(** The data of a [CHAR], without its padding. *)
Lemma char_parts f mbuf v :
  Z.of_nat (length v) = f_pack_length f ->
  rd mbuf (f_offset f) (f_pack_length f) = Some v ->
  effective_type f = MYSQL_TYPE_STRING -> f_real_type f = MYSQL_TYPE_STRING ->
  f_row_pack_length f = f_pack_length f ->
  let data := take (trim_pad v (f_pad_char f) (length v)) v in
  Z.of_nat (length data) <= f_pack_length f /\
  calculate_variable_len (effective_type f) f mbuf (f_offset f)
    = Some (Z.of_nat (length data), 0) /\
  rd mbuf (f_offset f + 0) (Z.of_nat (length data)) = Some data.
Proof.
  intros Hlv Hrd Het Hreal Hrpl data.
  destruct (trim_pad_spec v (f_pad_char f) (length v)) as [Hle _]; [done|].
  assert (Z.of_nat (length data) = Z.of_nat (trim_pad v (f_pad_char f) (length v))) as Hlen
    by (unfold data; rewrite length_take; lia).
  split; [lia|]. split.
  - unfold calculate_variable_len. rewrite Het, Hrpl, Hrd. cbn [mbind option_bind].
    rewrite decide_True by done. by rewrite Hlen.
  - rewrite Hlen. pose proof (rd_sub _ _ _ _ 0 (Z.of_nat (trim_pad v (f_pad_char f) (length v))) Hrd
      ltac:(lia) ltac:(lia) ltac:(lia)) as Hd.
    by rewrite Nat2Z.id in Hd.
Qed.

Lemma encode_varchar f mbuf v cid e n :
  column_ok f v -> rd mbuf (f_offset f) (f_pack_length f) = Some v ->
  effective_type f = MYSQL_TYPE_VARCHAR -> 1 <= f_length_bytes f <= 2 ->
  f_length_bytes f + le_val (take (Z.to_nat (f_length_bytes f)) v) <= f_pack_length f ->
  le_val (take (Z.to_nat (f_length_bytes f)) v) <= f_row_pack_length f ->
  record_field_length f = Some n -> 0 <= e_off e ->
  e_off e + n <= Z.of_nat (length (e_buf e)) -> good_table (e_tab e) ->
  exists map e', encode_column true f mbuf cid e = Some (St 0, map, e') /\ coded f v n map e e'
    /\ e_lob e' = e_lob e.
Proof.
  intros (Hsup & Hfo & Hb & Hlv & Hrp & Hty & _) Hrd Het Hlb Hfit Hdl Hn Ho Hroom Htab.
  assert (n = ROUND_UP (f_row_pack_length f + 2) 4) as Hn'.
  { apply string_room; [|done|done]. destruct Hty as [Hty|[Hty _]]; rewrite Hty; auto. }
  pose proof (varchar_back f v Hfo Hlv Hb Het Hlb Hrp Hfit) as Hback.
  destruct (varchar_parts f mbuf v Hb Hlv Hrd Het Hlb Hfit) as (Hlen & Hcalc & Hd).
  apply encode_string with (f_length_bytes f) (take (Z.to_nat (le_val (take (Z.to_nat
    (f_length_bytes f)) v))) (drop (Z.to_nat (f_length_bytes f)) v)); try done; try lia.
  - by rewrite Het.
  - by apply Forall_take, Forall_drop.
  - auto.
Qed.

Lemma encode_char f mbuf v cid e n :
  column_ok f v -> rd mbuf (f_offset f) (f_pack_length f) = Some v ->
  effective_type f = MYSQL_TYPE_STRING -> f_real_type f = MYSQL_TYPE_STRING ->
  f_row_pack_length f = f_pack_length f ->
  record_field_length f = Some n -> 0 <= e_off e ->
  e_off e + n <= Z.of_nat (length (e_buf e)) -> good_table (e_tab e) ->
  exists map e', encode_column true f mbuf cid e = Some (St 0, map, e') /\ coded f v n map e e'
    /\ e_lob e' = e_lob e.
Proof.
  intros (Hsup & Hfo & Hb & Hlv & Hrp & Hty & _) Hrd Het Hreal Hrpl Hn Ho Hroom Htab.
  assert (n = ROUND_UP (f_row_pack_length f + 2) 4) as Hn'.
  { apply string_room; [|done|done]. destruct Hty as [Hty|[Hty _]]; rewrite Hty; auto. }
  pose proof (char_back f v Hfo Hlv Het Hreal Hrpl ltac:(lia)) as Hback.
  destruct (char_parts f mbuf v Hlv Hrd Het Hreal Hrpl) as (Hlen & Hcalc & Hd).
  apply encode_string with 0 (take (trim_pad v (f_pad_char f) (length v)) v); try done; try lia.
  - by rewrite Het.
  - by apply Forall_take.
  - auto.
Qed.

Lemma encode_column_spec f mbuf v cid e n :
  column_ok f v -> rd mbuf (f_offset f) (f_pack_length f) = Some v ->
  record_field_length f = Some n -> 0 <= e_off e ->
  e_off e + n <= Z.of_nat (length (e_buf e)) -> good_table (e_tab e) ->
  exists map e', encode_column true f mbuf cid e = Some (St 0, map, e') /\ coded f v n map e e'
    /\ e_lob e' = e_lob e.
Proof.
  intros Hok Hrd Hn Ho Hroom Htab. pose proof Hok as (_ & _ & _ & _ & _ & _ & Hst).
  destruct Hst.
  - by apply (encode_fixed f mbuf v).
  - by apply (encode_decimal f mbuf v).
  - by apply (encode_temporal f mbuf v).
  - by apply (encode_varchar f mbuf v).
  - by apply (encode_char f mbuf v).
Qed.

(** ** Whole rows *)

(** What an encoded row holds of its columns from bitmap entry [id] and
    offset [off] on. *)
Inductive encoded (mbuf buf : list Z) : Z -> Z -> list Field -> Z -> Prop :=
  | enc_nil id off : encoded mbuf buf id off [] off
  | enc_virtual f fs id off off' :
      f_virtual f = true -> encoded mbuf buf id off fs off' -> encoded mbuf buf id off (f :: fs) off'
  | enc_null f fs id off off' :
      f_virtual f = false -> supported_field f -> is_null_in mbuf f = Some true ->
      row_get_column_bits2 buf id = Some CANTIAN_COL_BITS_NULL ->
      encoded mbuf buf (id + 1) off fs off' -> encoded mbuf buf id off (f :: fs) off'
  | enc_value f fs id off off1 off' v map :
      f_virtual f = false -> is_null_in mbuf f = Some false ->
      rd mbuf (f_offset f) (f_pack_length f) = Some v -> off < off1 ->
      row_get_column_bits2 buf id = Some map ->
      (forall h d cbuf col, reads h d f -> good_table (d_tab d) ->
         f_offset f + f_pack_length f <= Z.of_nat (length (d_buf d)) ->
         rd cbuf off (off1 - off) = rd buf off (off1 - off) ->
         exists d', convert_cantian_field_to_mysql_field h col f map None cbuf off false d
             = Some (d', off1) /\ decoded f v d d') ->
      encoded mbuf buf (id + 1) off1 fs off' -> encoded mbuf buf id off (f :: fs) off'.

Lemma encoded_le mbuf buf id off fs off' : encoded mbuf buf id off fs off' -> off <= off'.
Proof. induction 1; lia. Qed.

(** A row keeps its meaning when the bitmap entries and the data are the same. *)
Lemma encoded_agree mbuf buf buf2 id off fs off' lo :
  encoded mbuf buf id off fs off' -> 0 <= lo <= off ->
  (forall id', id <= id' -> is_Some (row_get_column_bits2 buf id') ->
     row_get_column_bits2 buf2 id' = row_get_column_bits2 buf id') ->
  (forall o k, lo <= o -> rd buf2 o k = rd buf o k) ->
  encoded mbuf buf2 id off fs off'.
Proof.
  induction 1 as [| |f fs id off off' Hv Hs Hn Hb He IH|f fs id off off1 off' v map Hv Hn Hrd Ho Hb Hd He IH];
    intros Hlo Hbits Hdata.
  - constructor.
  - constructor; auto.
  - apply enc_null; [done|done|done| |apply IH; [done|intros; apply Hbits; [lia|done]|done]].
    rewrite Hbits; [done|lia|by rewrite Hb].
  - apply enc_value with off1 v map; [done..| | |apply IH; [lia|intros; apply Hbits; [lia|done]|done]].
    + rewrite Hbits; [done|lia|by rewrite Hb].
    + intros h d cbuf col Hr Ht Hl Heq. apply Hd; try done. rewrite Heq. apply Hdata. lia.
Qed.

Definition value_ok (mbuf : list Z) (f : Field) : Prop :=
  f_virtual f = false ->
  supported_field f /\ exists b, is_null_in mbuf f = Some b /\
    (b = false -> exists v, rd mbuf (f_offset f) (f_pack_length f) = Some v /\ column_ok f v).

Definition n_virtual (fs : list Field) : Z := cal_gcol_cnts_for_update fs (length fs).

Lemma n_virtual_cons f fs : n_virtual (f :: fs) = (if f_virtual f then 1 else 0) + n_virtual fs.
Proof. done. Qed.

Lemma n_virtual_range fs : 0 <= n_virtual fs <= Z.of_nat (length fs).
Proof.
  induction fs as [|f fs IH]; [done|]. rewrite n_virtual_cons. cbn [length].
  destruct (f_virtual f); lia.
Qed.

(** Only its bitmap entries and its data matter for a row. *)
Lemma encoded_local mbuf buf buf2 id off fs off' :
  encoded mbuf buf id off fs off' ->
  (forall id', id <= id' < id + (Z.of_nat (length fs) - n_virtual fs) ->
     row_get_column_bits2 buf2 id' = row_get_column_bits2 buf id') ->
  (forall o k, off <= o -> o + k <= off' -> rd buf2 o k = rd buf o k) ->
  encoded mbuf buf2 id off fs off'.
Proof.
  induction 1 as [|f fs id off off' Hv He IH|f fs id off off' Hv Hs Hn Hb He IH
    |f fs id off off1 off' v map Hv Hn Hrd Ho Hb Hd He IH];
    intros Hbits Hdata; [constructor|..].
  all: rewrite n_virtual_cons, Hv in Hbits; cbn [length] in Hbits;
    pose proof (n_virtual_range fs) as Hnv; pose proof (encoded_le _ _ _ _ _ _ He).
  - apply enc_virtual; [done|]. apply IH; [|done]. intros id' Hid'. apply Hbits. lia.
  - apply enc_null; [done|done|done| |apply IH; [|done]].
    + rewrite Hbits; [done|lia].
    + intros id' Hid'. apply Hbits. lia.
  - apply enc_value with off1 v map; [done..| | |apply IH].
    + rewrite Hbits; [done|lia].
    + intros h d cbuf col Hr Ht Hl Heq. apply Hd; try done. rewrite Heq. apply Hdata; lia.
    + intros id' Hid'. apply Hbits. lia.
    + intros o k Ho' Hk. apply Hdata; lia.
Qed.

Lemma record_field_length_nonneg f n : record_field_length f = Some n -> 0 <= n.
Proof.
  unfold record_field_length. intros H.
  destruct (f_type f); try done; injection H as <-; try lia; try (apply wrapU_range; lia).
Qed.

Lemma record_fields_length_nonneg fs m : record_fields_length fs = Some m -> 0 <= m.
Proof.
  revert m. induction fs as [|f fs IH]; intros m H; [injection H as <-; lia|].
  cbn [record_fields_length] in H. destruct (record_field_length f) eqn:E; [|done].
  apply record_field_length_nonneg in E. destruct (record_fields_length fs) eqn:E2; [|done].
  injection H as <-. specialize (IH _ eq_refl). lia.
Qed.

(** Everything the column loop keeps, from the state [e] at bitmap entry [id]
    on, where the row's data starts at [base]. *)
Record kept (base id : Z) (e e' : enc) : Prop := {
  k_len : length (e_buf e') = length (e_buf e);
  k_byte : Forall byte (e_buf e) -> Forall byte (e_buf e');
  k_bits id' : 0 <= id' < id -> row_get_column_bits2 (e_buf e') id' = row_get_column_bits2 (e_buf e) id';
  k_data o k : base <= o -> o + k <= e_off e -> rd (e_buf e') o k = rd (e_buf e) o k;
  k_off : e_off e <= e_off e';
  k_lob : e_lob e' = e_lob e;
  k_tab : good_table (e_tab e) -> good_table (e_tab e') }.

Lemma kept_trans base id id2 e e1 e2 :
  kept base id e e1 -> kept base id2 e1 e2 -> id <= id2 -> kept base id e e2.
Proof.
  intros H1 H2 Hid. pose proof (k_off _ _ _ _ H1). pose proof (k_off _ _ _ _ H2).
  destruct H1, H2. split; [congruence|auto| | |lia|congruence|auto].
  - intros id' Hr. rewrite k_bits1, k_bits0 by lia. done.
  - intros o k Ho Hk. rewrite k_data1, k_data0 by lia. done.
Qed.

Lemma kept_refl base id e : kept base id e e.
Proof. by split. Qed.

(** Setting a bitmap entry. *)
Lemma mark_kept base id cnt bits e :
  Forall byte (e_buf e) -> 0 <= bits < 4 -> 0 <= id < cnt -> cnt < CT_SPRS_COLUMNS ->
  base = row_head_sizeof + col_bitmap_ex_size cnt -> base <= Z.of_nat (length (e_buf e)) ->
  exists b, row_set_column_bits2 (e_buf e) bits id = Some b /\ kept base id e (set_buf b e) /\
    row_get_column_bits2 b id = Some bits /\
    (forall o k, base <= o -> rd b o k = rd (e_buf e) o k).
Proof.
  intros Hb Hbits Hid Hcnt -> Hlen. pose proof (bitmap_fits cnt id Hid Hcnt) as Hfit.
  destruct (set_bits_total (e_buf e) bits id) as (b & Hs & Hl); [lia|lia|].
  destruct (set_bits_spec _ _ _ _ Hb Hbits (proj1 Hid) Hs) as (Hb' & _ & Hg & Ho & Hr).
  exists b. split; [done|]. split; [|split; [done|intros o k Hk; apply Hr; lia]].
  split; cbn [e_buf e_off e_lob e_tab set_buf]; try done.
  - intros id' Hid'. apply Ho; lia.
  - intros o k Hk _. apply Hr. lia.
Qed.

Lemma next_insert c : c_fields (next_column c) = c_fields c.
Proof. done. Qed.

Section InsertLoop.
Context (t : table) (mbuf : list Z) (cnt base : Z).
Context (Hcnt : cnt < CT_SPRS_COLUMNS) (Hbase : base = row_head_sizeof + col_bitmap_ex_size cnt).

(** The null column. *)
Lemma insert_null i v n f e :
  t_field t !! Z.to_nat i = Some f -> f_virtual f = false -> is_null_in mbuf f = Some true ->
  0 <= i - v < cnt -> base <= e_off e -> e_off e <= Z.of_nat (length (e_buf e)) ->
  Forall byte (e_buf e) ->
  exists e', encode_step true t false mbuf (mk_cols i n v []) e
      = Some (St 0, mk_cols (i + 1) n v [], e') /\
    kept base (i - v) e e' /\ e_off e' = e_off e /\
    row_get_column_bits2 (e_buf e') (i - v) = Some CANTIAN_COL_BITS_NULL.
Proof.
  intros Hf Hv Hn Hid Ho Hl Hb.
  destruct (mark_kept base (i - v) cnt CANTIAN_COL_BITS_NULL e) as (b & Hs & Hk & Hg & _);
    [done|done|done|done|done|lia|].
  exists (set_buf b e). split; [|done].
  unfold encode_step. cbn [mbind option_bind c_cnt]. rewrite Hf. cbn [mbind option_bind].
  rewrite Hv, Hn. cbn [mbind option_bind]. unfold mark_column. cbn [andb c_cnt c_virtual].
  rewrite Hs. done.
Qed.

(** The effect of a column with a value, stored at bitmap entry [id]. *)
Lemma value_marked id f val m cid e :
  rd mbuf (f_offset f) (f_pack_length f) = Some val -> column_ok f val ->
  record_field_length f = Some m ->
  0 <= id < cnt -> base <= e_off e -> e_off e + m <= Z.of_nat (length (e_buf e)) ->
  Forall byte (e_buf e) -> good_table (e_tab e) ->
  exists map e1 b, encode_column true f mbuf cid e = Some (St 0, map, e1) /\
    row_set_column_bits2 (e_buf e1) map id = Some b /\
    kept base id e (set_buf b e1) /\ e_off e < e_off e1 <= e_off e + m /\
    row_get_column_bits2 b id = Some map /\
    (forall h d cbuf col, reads h d f -> good_table (d_tab d) ->
       f_offset f + f_pack_length f <= Z.of_nat (length (d_buf d)) ->
       rd cbuf (e_off e) (e_off e1 - e_off e) = rd b (e_off e) (e_off e1 - e_off e) ->
       exists d', convert_cantian_field_to_mysql_field h col f map None cbuf (e_off e) false d
           = Some (d', e_off e1) /\ decoded f val d d').
Proof.
  intros Hrd Hok Hm Hid Ho Hroom Hb Ht.
  assert (0 <= base) as Hb0.
  { rewrite Hbase. pose proof (ex_size_mono 0 cnt). unfold row_head_sizeof. lia. }
  destruct (encode_column_spec f mbuf val cid e m) as (map & e1 & He & Hc & Hlob); try done; [lia|].
  pose proof (record_field_length_nonneg _ _ Hm).
  destruct Hc as [Hoff Hlen Hbefore Hbyte Htab Hmap Hdec].
  destruct (mark_kept base id cnt map e1) as (b & Hs & Hk & Hg & Hr);
    [auto|lia|done|done|done|rewrite Hlen; lia|].
  exists map, e1, b. split; [done|]. split; [done|]. split; [|split; [done|split; [done|]]].
  - apply kept_trans with id e1; [|done|lia]. split; try done; try lia; auto.
    intros id' Hid'. unfold row_get_column_bits2. destruct (column_position id') as [-> _].
    rewrite Hbefore; [done|]. pose proof (bitmap_fits cnt id'). lia.
  - intros h d cbuf col Hh Hd Hl Heq. apply Hdec; try done. rewrite Heq. apply Hr. lia.
Qed.

Lemma insert_value i v n f val m e :
  t_field t !! Z.to_nat i = Some f -> f_virtual f = false -> is_null_in mbuf f = Some false ->
  rd mbuf (f_offset f) (f_pack_length f) = Some val -> column_ok f val ->
  record_field_length f = Some m ->
  0 <= i - v < cnt -> base <= e_off e -> e_off e + m <= Z.of_nat (length (e_buf e)) ->
  Forall byte (e_buf e) -> good_table (e_tab e) ->
  exists e' map, encode_step true t false mbuf (mk_cols i n v []) e
      = Some (St 0, mk_cols (i + 1) n v [], e') /\
    kept base (i - v) e e' /\ e_off e < e_off e' <= e_off e + m /\
    row_get_column_bits2 (e_buf e') (i - v) = Some map /\
    (forall h d cbuf col, reads h d f -> good_table (d_tab d) ->
       f_offset f + f_pack_length f <= Z.of_nat (length (d_buf d)) ->
       rd cbuf (e_off e) (e_off e' - e_off e) = rd (e_buf e') (e_off e) (e_off e' - e_off e) ->
       exists d', convert_cantian_field_to_mysql_field h col f map None cbuf (e_off e) false d
           = Some (d', e_off e') /\ decoded f val d d').
Proof.
  intros Hf Hv Hn Hrd Hok Hm Hid Ho Hroom Hb Ht.
  destruct (value_marked (i - v) f val m i e) as (map & e1 & b & He & Hs & Hk & Hrest); try done.
  exists (set_buf b e1), map. split; [|done].
  unfold encode_step. cbn [mbind option_bind c_cnt]. rewrite Hf. cbn [mbind option_bind].
  rewrite Hv, Hn. cbn [mbind option_bind]. rewrite He. cbn [mbind option_bind is_ok Z.eqb negb].
  unfold mark_column. cbn [andb c_cnt c_virtual]. rewrite Hs. done.
Qed.

(** *** Updates

    The columns of an update are the entries of [fields]; the loop deletes
    the virtual ones and renumbers the others. *)

Definition is_virtual_id (id : Z) : bool :=
  match t_field t !! Z.to_nat id with Some f => f_virtual f | None => false end.

Definition renumber (id : Z) : Z :=
  if t_has_gcol t then wrapU 16 (id - cal_gcol_cnts_for_update (t_field t) (Z.to_nat id)) else id.

(** The fields of the columns [ids] that are stored. *)
Fixpoint picked (ids : list Z) : list Field :=
  match ids with
  | [] => []
  | id :: ids => match t_field t !! Z.to_nat id with
                 | Some f => if f_virtual f then picked ids else f :: picked ids
                 | None => picked ids
                 end
  end.

Definition stored_ids (ids : list Z) : list Z := filter (fun id => is_virtual_id id = false) ids.

Lemma encode_columns_step u fuel c e c1 e1 :
  (c_n c <=? c_cnt c) = false -> encode_step true t u mbuf c e = Some (St 0, c1, e1) ->
  encode_columns (S fuel) true t u mbuf c e = encode_columns fuel true t u mbuf c1 e1.
Proof. intros Hc H. cbn [encode_columns]. rewrite Hc, H. done. Qed.

Lemma insert_columns fs : forall i v m fuel e,
  drop (Z.to_nat i) (t_field t) = fs -> 0 <= i -> i + Z.of_nat (length fs) = n_fields t ->
  (length fs <= fuel)%nat -> Forall (value_ok mbuf) fs -> record_fields_length fs = Some m ->
  0 <= i - v -> i - v + (Z.of_nat (length fs) - n_virtual fs) <= cnt ->
  base <= e_off e -> e_off e + m <= Z.of_nat (length (e_buf e)) ->
  Forall byte (e_buf e) -> good_table (e_tab e) ->
  exists e', encode_columns fuel true t false mbuf (mk_cols i (n_fields t) v []) e
      = Some (St 0, mk_cols (n_fields t) (n_fields t) (v + n_virtual fs) [], e') /\
    kept base (i - v) e e' /\ e_off e' <= e_off e + m /\
    encoded mbuf (e_buf e') (i - v) (e_off e) fs (e_off e').
Proof.
  induction fs as [|f fs IH]; intros i v m fuel e Hd Hi Hlen Hfuel Hok Hm Hid Hcnt' Ho Hroom Hb Ht.
  { cbn [length] in Hlen. exists e. injection Hm as <-.
    assert (encode_columns fuel true t false mbuf (mk_cols i (n_fields t) v []) e
      = Some (St 0, mk_cols i (n_fields t) v [], e)) as ->.
    { destruct fuel; cbn [encode_columns c_n c_cnt]; rewrite (proj2 (Z.leb_le _ _)) by lia; done. }
    unfold n_virtual; cbn. split; [do 3 f_equal; f_equal; lia|].
    split; [apply kept_refl|]. split; [lia|constructor]. }
  destruct fuel as [|fuel]; [cbn in Hfuel; lia|]. cbn [length] in *.
  assert (t_field t !! Z.to_nat i = Some f) as Hf.
  { rewrite <- (Nat.add_0_r (Z.to_nat i)), <- lookup_drop, Hd. done. }
  assert (drop (Z.to_nat (i + 1)) (t_field t) = fs) as Hd'.
  { rewrite Z2Nat.inj_add, <- drop_drop, Hd by lia. done. }
  pose proof (Forall_inv Hok) as Hf_ok. apply Forall_inv_tail in Hok.
  cbn [record_fields_length] in Hm. destruct (record_field_length f) as [m1|] eqn:Hm1; [|done].
  destruct (record_fields_length fs) as [m2|] eqn:Hm2; [|done]. injection Hm as <-.
  pose proof (record_field_length_nonneg _ _ Hm1).
  pose proof (record_fields_length_nonneg _ _ Hm2). rewrite n_virtual_cons in *.
  pose proof (n_virtual_range fs).
  assert ((n_fields t <=? i) = false) as Hgo by (apply Z.leb_gt; lia).
  destruct (f_virtual f) eqn:Hv.
  - rewrite (encode_columns_step false fuel _ _ (mk_cols (i + 1) (n_fields t) (v + 1) []) e).
    2:{ done. }
    2:{ unfold encode_step. cbn [mbind option_bind c_cnt]. rewrite Hf. cbn [mbind option_bind].
        rewrite Hv. done. }
    destruct (IH (i + 1) (v + 1) m2 fuel e) as (e' & He & Hk & Hl & Henc); try done; try lia.
    replace (i + 1 - (v + 1)) with (i - v) in * by lia.
    exists e'. rewrite He. split; [do 3 f_equal; f_equal; lia|]. split; [done|].
    split; [lia|]. by constructor.
  - destruct (Hf_ok Hv) as (Hsup & [] & Hnull & Hval).
    + destruct (insert_null i v (n_fields t) f e) as (e1 & Hs & Hk1 & Ho1 & Hg); try done; try lia.
      rewrite (encode_columns_step false fuel (mk_cols i (n_fields t) v []) _ _ e1 Hgo Hs).
      destruct (IH (i + 1) v m2 fuel e1) as (e' & He & Hk & Hl & Henc); try done; try lia.
      { rewrite (k_len _ _ _ _ Hk1). lia. } { by apply (k_byte _ _ _ _ Hk1). }
      { by apply (k_tab _ _ _ _ Hk1). }
      replace (i + 1 - v) with (i - v + 1) in * by lia.
      exists e'. rewrite He. split; [done|]. split; [apply (kept_trans _ _ (i - v + 1) _ e1); [done|done|lia]|].
      split; [lia|]. apply enc_null; try done; [|congruence].
      rewrite (k_bits _ _ _ _ Hk) by lia. done.
    + destruct (Hval eq_refl) as (val & Hrd & Hcol).
      destruct (insert_value i v (n_fields t) f val m1 e) as (e1 & map & Hs & Hk1 & Ho1 & Hg & Hdec);
        try done; try lia.
      rewrite (encode_columns_step false fuel (mk_cols i (n_fields t) v []) _ _ e1 Hgo Hs).
      destruct (IH (i + 1) v m2 fuel e1) as (e' & He & Hk & Hl & Henc); try done; try lia.
      { rewrite (k_len _ _ _ _ Hk1). lia. } { by apply (k_byte _ _ _ _ Hk1). }
      { by apply (k_tab _ _ _ _ Hk1). }
      replace (i + 1 - v) with (i - v + 1) in * by lia.
      exists e'. rewrite He. split; [done|]. split; [apply (kept_trans _ _ (i - v + 1) _ e1); [done|done|lia]|].
      split; [lia|]. apply (enc_value _ _ _ _ _ _ (e_off e1) _ val map); try done; try lia.
      { rewrite (k_bits _ _ _ _ Hk) by lia. done. }
      intros h d cbuf col Hh Hdt Hl' Heq. apply Hdec; try done. rewrite Heq.
      apply (k_data _ _ _ _ Hk); lia.
Qed.

Lemma stored_ids_cons id ids :
  stored_ids (id :: ids) = if is_virtual_id id then stored_ids ids else id :: stored_ids ids.
Proof.
  unfold stored_ids. destruct (is_virtual_id id) eqn:E.
  - rewrite filter_cons_False; [done|congruence].
  - by rewrite filter_cons_True.
Qed.

Lemma length_picked ids :
  Forall (fun id => 0 <= id < n_fields t) ids -> length (picked ids) = length (stored_ids ids).
Proof.
  induction 1 as [|id ids Hid Hids IH]; [done|]. rewrite stored_ids_cons.
  cbn [picked]. unfold is_virtual_id, n_fields in *.
  destruct (lookup_lt_is_Some_2 (t_field t) (Z.to_nat id)) as [f Hf]; [lia|]. rewrite Hf.
  destruct (f_virtual f); cbn [length]; lia.
Qed.

(** Marking a column of an update. *)
Lemma mark_update dn id ids n v map e b :
  0 <= id -> (t_has_gcol t = false -> v = 0) ->
  row_set_column_bits2 (e_buf e) map (Z.of_nat (length dn)) = Some b ->
  exists v', mark_column t true map id (mk_cols (Z.of_nat (length dn)) n v (dn ++ id :: ids)) e
      = Some (mk_cols (Z.of_nat (length dn)) n v' (dn ++ renumber id :: ids), set_buf b e) /\
    (t_has_gcol t = false -> v' = 0).
Proof.
  intros Hid Hv Hb. unfold mark_column, renumber. cbn [andb c_cnt c_n c_virtual c_fields].
  destruct (t_has_gcol t) eqn:Hg.
  - rewrite Hb. cbn [mbind option_bind]. exists (cal_gcol_cnts_for_update (t_field t) (Z.to_nat id)).
    split; [|done]. do 3 f_equal. by rewrite Nat2Z.id, insert_app_r_alt, Nat.sub_diag by done.
  - rewrite Hv, Z.sub_0_r, Hb by done. cbn [mbind option_bind]. eauto.
Qed.

Lemma update_step dn id ids n v f m e :
  t_field t !! Z.to_nat id = Some f -> f_virtual f = false -> value_ok mbuf f ->
  record_field_length f = Some m -> 0 <= id -> Z.of_nat (length dn) < cnt ->
  (t_has_gcol t = false -> v = 0) ->
  base <= e_off e -> e_off e + m <= Z.of_nat (length (e_buf e)) ->
  Forall byte (e_buf e) -> good_table (e_tab e) ->
  let id0 := Z.of_nat (length dn) in
  exists v' e1, encode_step true t true mbuf (mk_cols id0 n v (dn ++ id :: ids)) e
      = Some (St 0, mk_cols (id0 + 1) n v' (dn ++ renumber id :: ids), e1) /\
    (t_has_gcol t = false -> v' = 0) /\ kept base id0 e e1 /\ e_off e1 <= e_off e + m /\
    forall e2 fs off', kept base (id0 + 1) e1 e2 ->
      encoded mbuf (e_buf e2) (id0 + 1) (e_off e1) fs off' ->
      encoded mbuf (e_buf e2) id0 (e_off e) (f :: fs) off'.
Proof.
  intros Hf Hvf Hok Hm Hid Hcnt' Hv Ho Hroom Hb Ht id0.
  pose proof (record_field_length_nonneg _ _ Hm).
  assert (c_fields (mk_cols id0 n v (dn ++ id :: ids)) !! Z.to_nat id0 = Some id) as Hlk.
  { cbn [c_fields]. unfold id0. rewrite Nat2Z.id. by apply list_lookup_middle. }
  unfold encode_step. cbn [c_cnt]. rewrite Hlk. cbn [mbind option_bind]. rewrite Hf.
  cbn [mbind option_bind]. rewrite Hvf.
  destruct (Hok Hvf) as (Hsup & [] & Hnull & Hval); rewrite Hnull; cbn [mbind option_bind].
  - destruct (mark_kept base id0 cnt CANTIAN_COL_BITS_NULL e) as (b & Hs & Hk & Hg & _);
      [done|done|lia|done|done|lia|].
    destruct (mark_update dn id ids n v _ e b Hid Hv Hs) as (v' & Hmk & Hv').
    fold id0 in Hmk. rewrite Hmk.
    cbn [mbind option_bind]. eexists v', _. split; [reflexivity|]. split; [done|]. split; [done|].
    split; [cbn; lia|]. intros e2 fs off' Hk2 Henc. apply enc_null; try done.
    rewrite (k_bits _ _ _ _ Hk2) by lia. done.
  - destruct (Hval eq_refl) as (val & Hrd & Hcol).
    destruct (value_marked id0 f val m id e) as (map & e1 & b & He & Hs & Hk & Ho1 & Hg & Hdec);
      try done; [lia|].
    rewrite He. cbn [mbind option_bind is_ok Z.eqb negb].
    destruct (mark_update dn id ids n v _ e1 b Hid Hv Hs) as (v' & Hmk & Hv').
    fold id0 in Hmk. rewrite Hmk.
    cbn [mbind option_bind]. eexists v', _. split; [reflexivity|]. split; [done|]. split; [done|].
    split; [cbn; lia|]. intros e2 fs off' Hk2 Henc.
    apply (enc_value _ _ _ _ _ _ (e_off e1) _ val map); try done; [lia| |].
    + rewrite (k_bits _ _ _ _ Hk2) by lia. done.
    + intros h d cbuf col Hh Hd Hl Heq. apply Hdec; try done. rewrite Heq.
      apply (k_data _ _ _ _ Hk2); cbn [e_off set_buf]; lia.
Qed.

Lemma update_columns ids : forall dn v m fuel e,
  (length ids <= fuel)%nat -> Forall (fun id => 0 <= id < n_fields t) ids ->
  Forall (value_ok mbuf) (picked ids) -> record_fields_length (picked ids) = Some m ->
  Z.of_nat (length dn + length (picked ids)) <= cnt -> (t_has_gcol t = false -> v = 0) ->
  base <= e_off e -> e_off e + m <= Z.of_nat (length (e_buf e)) ->
  Forall byte (e_buf e) -> good_table (e_tab e) ->
  let id0 := Z.of_nat (length dn) in
  let n1 := id0 + Z.of_nat (length (stored_ids ids)) in
  exists v' e', encode_columns fuel true t true mbuf
      (mk_cols id0 (id0 + Z.of_nat (length ids)) v (dn ++ ids)) e
      = Some (St 0, mk_cols n1 n1 v' (dn ++ map renumber (stored_ids ids)), e') /\
    kept base id0 e e' /\ e_off e' <= e_off e + m /\
    encoded mbuf (e_buf e') id0 (e_off e) (picked ids) (e_off e').
Proof.
  induction ids as [|id ids IH]; intros dn v m fuel e Hfuel Hids Hok Hm Hcnt' Hv Ho Hroom Hb Ht id0 n1.
  { exists v, e. injection Hm as <-. subst n1. cbn [length stored_ids filter picked].
    split; [|split; [apply kept_refl|split; [lia|constructor]]].
    destruct fuel; cbn [encode_columns c_n c_cnt]; rewrite (proj2 (Z.leb_le _ _)) by (cbn; lia); by rewrite !Z.add_0_r. }
  destruct fuel as [|fuel]; [cbn in Hfuel; lia|].
  pose proof (Forall_inv Hids) as Hid. apply Forall_inv_tail in Hids.
  destruct (lookup_lt_is_Some_2 (t_field t) (Z.to_nat id)) as [f Hf]; [unfold n_fields in Hid; lia|].
  assert (is_virtual_id id = f_virtual f) as Hvid by (unfold is_virtual_id; by rewrite Hf).
  cbn [picked length] in *. rewrite Hf in *. subst n1. rewrite stored_ids_cons, Hvid.
  assert ((id0 + Z.of_nat (S (length ids)) <=? id0) = false) as Hgo by (apply Z.leb_gt; lia).
  assert (forall v0, c_fields (mk_cols id0 (id0 + Z.of_nat (S (length ids))) v0 (dn ++ id :: ids))
    !! Z.to_nat id0 = Some id) as Hlk.
  { intros v0. cbn [c_fields]. unfold id0. rewrite Nat2Z.id. by apply list_lookup_middle. }
  destruct (f_virtual f) eqn:Hvf.
  - rewrite (encode_columns_step true fuel _ e
      (mk_cols id0 (id0 + Z.of_nat (length ids)) v (dn ++ ids)) e).
    + apply IH; try done. lia.
    + done.
    + unfold encode_step. cbn [c_cnt c_fields]. unfold id0.
      rewrite Nat2Z.id, list_lookup_middle by done. cbn [mbind option_bind]. rewrite Hf.
      cbn [mbind option_bind]. rewrite Hvf. cbn [c_n c_virtual c_fields].
      rewrite delete_middle. do 4 f_equal. lia.
  - cbn [record_fields_length length] in *.
    destruct (record_field_length f) as [m1|] eqn:Hm1; [|done].
    destruct (record_fields_length (picked ids)) as [m2|] eqn:Hm2; [|done]. injection Hm as <-.
    pose proof (record_fields_length_nonneg _ _ Hm2). pose proof (record_field_length_nonneg _ _ Hm1).
    destruct (update_step dn id ids (id0 + Z.of_nat (S (length ids))) v f m1 e)
      as (v1 & e1 & Hs & Hv1 & Hk1 & Ho1 & Hnext); try done; try lia.
    { by apply Forall_inv in Hok. }
    rewrite (encode_columns_step true fuel (mk_cols id0 (id0 + Z.of_nat (S (length ids))) v
      (dn ++ id :: ids)) e _ e1 Hgo Hs).
    destruct (IH (dn ++ [renumber id]) v1 m2 fuel e1) as (v' & e' & He & Hk & Hl & Henc); try done; try lia.
    { by apply Forall_inv_tail in Hok. } { rewrite length_app. cbn [length]. lia. }
    { pose proof (k_off _ _ _ _ Hk1). lia. } { rewrite (k_len _ _ _ _ Hk1). lia. }
    { by apply (k_byte _ _ _ _ Hk1). } { by apply (k_tab _ _ _ _ Hk1). }
    rewrite length_app in He, Hk, Henc. cbn [length] in He, Hk, Henc.
    rewrite <- !app_assoc in He. cbn [app] in He.
    replace (Z.of_nat (length dn + 1)) with (id0 + 1) in He, Hk, Henc by lia.
    exists v', e'. split; [|split; [apply (kept_trans _ _ (id0 + 1) _ e1); [done|done|lia]|split; [lia|auto]]].
    replace (id0 + Z.of_nat (S (length ids))) with (id0 + 1 + Z.of_nat (length ids)) by lia.
    fold id0. rewrite He. cbn [length map]. do 3 f_equal. f_equal; lia.
Qed.

End InsertLoop.

(** ** Reading a row *)

(** Where a column lies in the server's record: behind the null bits. *)
Definition in_record (null_bytes len : Z) (f : Field) : Prop :=
  0 <= f_pack_length f /\ null_bytes <= f_offset f /\ f_offset f + f_pack_length f <= len /\
  (f_nullable f = true ->
     0 <= f_null_offset f < null_bytes /\ exists k, 0 <= k < 8 /\ f_null_bit f = 2 ^ k).

Definition compat (f g : Field) : Prop :=
  (f_offset f + f_pack_length f <= f_offset g \/ f_offset g + f_pack_length g <= f_offset f) /\
  (f_nullable f = true -> f_nullable g = true ->
     f_null_offset f <> f_null_offset g \/ f_null_bit f <> f_null_bit g).

(** A column reads as in the record [mbuf]. *)
Definition restored (mbuf : list Z) (d : dec) (f : Field) : Prop :=
  f_virtual f = false ->
  is_null_in (d_buf d) f = is_null_in mbuf f /\
  (is_null_in mbuf f = Some false -> forall v, rd mbuf (f_offset f) (f_pack_length f) = Some v ->
     rd (d_buf d) (f_offset f) (Z.of_nat (length (sig_bytes f v))) = Some (sig_bytes f v)).

Record frame (nb len : Z) (fs : list Field) (d d' : dec) : Prop := {
  fr_len : length (d_buf d') = length (d_buf d);
  fr_heap : d_heap d' = d_heap d;
  fr_rs : d_read_set d' = d_read_set d;
  fr_tab : good_table (d_tab d) -> good_table (d_tab d');
  fr_null g : in_record nb len g -> Forall (compat g) fs ->
    is_null_in (d_buf d') g = is_null_in (d_buf d) g;
  fr_data g o n : in_record nb len g -> Forall (compat g) fs ->
    f_offset g <= o -> o + n <= f_offset g + f_pack_length g ->
    rd (d_buf d') o n = rd (d_buf d) o n }.

Lemma frame_trans nb len f fs d d1 d2 :
  frame nb len [f] d d1 -> frame nb len fs d1 d2 -> frame nb len (f :: fs) d d2.
Proof.
  intros H1 H2. destruct H1, H2. split; try congruence; [auto| |].
  - intros g Hg Hc. rewrite fr_null1, fr_null0; [done|done| |done|by apply Forall_inv_tail in Hc].
    constructor; [by apply Forall_inv in Hc|constructor].
  - intros g o n Hg Hc Ho Hn.
    rewrite (fr_data1 g), (fr_data0 g); try done; [|by apply Forall_inv_tail in Hc].
    constructor; [by apply Forall_inv in Hc|constructor].
Qed.

Lemma decoded_frame nb len f v d d' :
  decoded f v d d' -> in_record nb len f -> frame nb len [f] d d'.
Proof.
  intros Hd (Hp & Hnb & Hl & _). destruct Hd. split; try done.
  - intros g (_ & _ & _ & Hng) _. unfold is_null_in. destruct (f_nullable g); [|done].
    destruct (Hng eq_refl) as [Hno _]. rewrite dd_other0 by lia. done.
  - intros g o n _ Hc Ho Hn. apply Forall_inv in Hc as [Hc _]. apply dd_other0. lia.
Qed.

Lemma null_bit_test b k k' :
  0 <= k < 8 -> 0 <= k' < 8 ->
  negb (Z.land (Z.lor b (2 ^ k)) (2 ^ k') =? 0)
    = (k =? k') || negb (Z.land b (2 ^ k') =? 0).
Proof.
  intros Hk Hk'.
  assert (forall x, negb (Z.land x (2 ^ k') =? 0) = Z.testbit x k') as Ht.
  { intros x. destruct (Z.testbit x k') eqn:E.
    - apply negb_true_iff, Z.eqb_neq. intros H0.
      assert (Z.testbit (Z.land x (2 ^ k')) k' = false) as H1 by (by rewrite H0, Z.bits_0).
      rewrite Z.land_spec, E, Z.pow2_bits_true in H1 by lia. done.
    - apply negb_false_iff, Z.eqb_eq. apply Z.bits_inj_0. intros n.
      rewrite Z.land_spec. destruct (decide (n = k')) as [->|]; [by rewrite E|].
      rewrite Z.pow2_bits_false by lia. apply andb_false_r. }
  rewrite !Ht, Z.lor_spec. destruct (k =? k') eqn:E; zb.
  - subst. rewrite Z.pow2_bits_true by lia. apply orb_true_r.
  - rewrite (Z.pow2_bits_false k k') by lia. apply orb_false_r.
Qed.

(** Marking a column null in the record. *)
Lemma set_null_frame nb len f d :
  in_record nb len f -> f_nullable f = true -> Z.of_nat (length (d_buf d)) = len ->
  exists d', set_null_bit f d = Some d' /\ is_null_in (d_buf d') f = Some true /\
    frame nb len [f] d d'.
Proof.
  intros (Hp & Hnb & Hl & Hn) Hnull Hlen. destruct (Hn Hnull) as ([Hno1 Hno2] & k & Hk & Hkb).
  assert (rd (d_buf d) (f_null_offset f) 1
    = Some (take 1 (drop (Z.to_nat (f_null_offset f)) (d_buf d)))) as Hrd by (apply rd_Some; lia).
  set (bs := take 1 _) in Hrd. unfold set_null_bit, dput. rewrite Hrd. cbn [mbind option_bind].
  destruct (wr_Some (d_buf d) (f_null_offset f) [Z.lor (le_val bs) (f_null_bit f)]) as [b Hw];
    [lia|cbn [length]; lia|].
  rewrite Hw. cbn [mbind option_bind]. eexists. split; [reflexivity|].
  pose proof (rd_wr_same _ _ _ _ Hw) as Hs. cbn [length] in Hs. change (Z.of_nat 1) with 1 in Hs.
  assert (forall g k', f_null_offset g = f_null_offset f -> f_nullable g = true ->
     f_null_bit g = 2 ^ k' -> 0 <= k' < 8 ->
     is_null_in b g = Some ((k =? k') || negb (Z.land (le_val bs) (2 ^ k') =? 0))) as Hbit.
  { intros g k' Hg Hgn Hgb Hk'. unfold is_null_in. rewrite Hgn, Hg, Hs, Hgb.
    cbn [mbind option_bind le_val]. rewrite Z.mul_0_r, Z.add_0_r, Hkb.
    by rewrite null_bit_test. }
  cbn [d_buf dset_buf]. split; [rewrite (Hbit f k), Z.eqb_refl; done|].
  split; unfold dset_buf; cbn [d_buf d_heap d_read_set d_tab]; try done.
  - by apply length_wr in Hw.
  - intros g (_ & _ & _ & Hg) Hc. apply Forall_inv in Hc as [_ Hc].
    destruct (f_nullable g) eqn:Hgn; [|unfold is_null_in; by rewrite Hgn].
    destruct (Hg eq_refl) as (Hgo & k' & Hk' & Hgb).
    destruct (decide (f_null_offset g = f_null_offset f)) as [Heq|Hne].
    + rewrite (Hbit g k') by done. rewrite (proj2 (Z.eqb_neq k k')).
      2:{ intros ->. destruct (Hc eq_refl Hnull); congruence. }
      unfold is_null_in. rewrite Hgn, Heq, Hrd, Hgb. done.
    + unfold is_null_in. rewrite Hgn.
      rewrite (rd_wr_other _ _ _ _ _ 1 Hw) by (cbn [length]; lia). done.
  - intros g o n (_ & Hgo & _) _ Ho _. apply (rd_wr_other _ _ _ _ _ _ Hw). cbn [length]. lia.
Qed.

Lemma sig_bytes_length f v : (length (sig_bytes f v) <= length v)%nat.
Proof. unfold sig_bytes. destruct (decide _); [rewrite length_take; lia|done]. Qed.

(** Later columns do not change what an earlier one reads as. *)
Lemma restored_frame nb len fs mbuf d d' f :
  restored mbuf d f -> frame nb len fs d d' -> in_record nb len f -> Forall (compat f) fs ->
  restored mbuf d' f.
Proof.
  intros Hr Hf Hin Hc Hv. destruct (Hr Hv) as [H1 H2]. split.
  - by rewrite (fr_null _ _ _ _ _ Hf).
  - intros Hn v Hrd. rewrite (fr_data _ _ _ _ _ Hf f); auto; [lia|].
    pose proof (sig_bytes_length f v). apply rd_full in Hrd. lia.
Qed.

Lemma null_bits_not_set mbuf f : is_null_in mbuf f = Some true -> f_nullable f = true.
Proof. unfold is_null_in. by destruct (f_nullable f). Qed.

(** What reading the columns [fs] needs of the record. *)
Record ready (nb len : Z) (h : handler) (fs : list Field) (d : dec) : Prop := {
  rdy_in : Forall (in_record nb len) fs;
  rdy_pairs : ForallOrdPairs compat fs;
  rdy_len : Z.of_nat (length (d_buf d)) = len;
  rdy_reads : Forall (reads h d) fs;
  rdy_tab : good_table (d_tab d);
  rdy_null : Forall (fun f => is_null_in (d_buf d) f = Some false) fs }.

Lemma compat_sym f g : compat f g -> compat g f.
Proof. intros [H1 H2]. split; [lia|]. intros Hg Hf. destruct (H2 Hf Hg); auto. Qed.

Lemma ready_step nb len h f fs d d1 :
  ready nb len h (f :: fs) d -> frame nb len [f] d d1 -> ready nb len h fs d1.
Proof.
  intros [Hin Hp Hl Hr Ht Hn] Hf. inversion Hp as [|? ? Hc Hp']; subst.
  apply Forall_inv_tail in Hin, Hr, Hn. split; try done.
  - by rewrite (fr_len _ _ _ _ _ Hf).
  - eapply Forall_impl; [|exact Hr]. intros g [Hg1 Hg2]. split; [|done].
    by rewrite (fr_rs _ _ _ _ _ Hf).
  - by apply (fr_tab _ _ _ _ _ Hf).
  - apply Forall_forall. intros g Hg. rewrite Forall_forall in Hn, Hin, Hc.
    rewrite (fr_null _ _ _ _ _ Hf); [by apply Hn|by apply Hin|].
    constructor; [|constructor]. by apply compat_sym, Hc.
Qed.

Lemma decode_rest nb len h mbuf f fs d d1 (X : option dec) :
  ready nb len h (f :: fs) d -> frame nb len [f] d d1 -> restored mbuf d1 f ->
  (exists d', X = Some d' /\ Forall (restored mbuf d') fs /\ frame nb len fs d1 d') ->
  exists d', X = Some d' /\ Forall (restored mbuf d') (f :: fs) /\ frame nb len (f :: fs) d d'.
Proof.
  intros [Hin Hp _ _ _ _] Hf Hr (d' & -> & Hrs & Hf').
  inversion Hp as [|? ? Hc Hp']; subst. apply Forall_inv in Hin.
  exists d'. split; [done|]. split; [|by apply (frame_trans _ _ _ _ _ d1)].
  constructor; [|done]. by apply (restored_frame nb len fs mbuf d1).
Qed.

Lemma decode_null nb len h col f cbuf off d :
  supported_field f -> in_record nb len f -> f_nullable f = true ->
  Z.of_nat (length (d_buf d)) = len -> good_table (d_tab d) ->
  exists d1, convert_cantian_field_to_mysql_field h col f CANTIAN_COL_BITS_NULL None cbuf off false d
      = Some (d1, off) /\ frame nb len [f] d d1 /\ is_null_in (d_buf d1) f = Some true.
Proof.
  intros Hsup Hin Hnull Hlen Ht. unfold convert_cantian_field_to_mysql_field.
  destruct (aux_entry (d_tab d) f Hsup Ht) as (tab & a & -> & Htab & _). cbn [mbind option_bind].
  unfold update_offset. rewrite Z.eqb_refl.
  destruct (set_null_frame nb len f (mk_dec (d_buf d) (d_heap d) tab (d_read_set d)))
    as (d1 & Hd1 & Hn & Hfr); try done.
  rewrite Hd1. cbn [mbind option_bind]. exists d1. split; [done|]. split; [|done].
  destruct Hfr. split; try done. auto.
Qed.

Lemma decode_row_columns nb len mbuf buf h cnt max id off fs off' :
  encoded mbuf buf id off fs off' -> forall i v d,
  id = i - v -> 0 <= id -> i - 1 + Z.of_nat (length fs) <= max ->
  id + (Z.of_nat (length fs) - n_virtual fs) <= cnt -> ready nb len h fs d ->
  exists d', decode_columns h max None buf cnt fs i v off d = Some d' /\
    Forall (restored mbuf d') fs /\ frame nb len fs d d'.
Proof.
  induction 1 as [id off|f fs id off off' Hv He IH|f fs id off off' Hv Hsup Hn Hb He IH
    |f fs id off off1 off' val map Hv Hn Hrd Ho Hb Hdec He IH];
    intros i v d Hid Hid0 Hmax Hcnt Hready.
  { exists d. split; [done|]. split; [constructor|by split]. }
  all: cbn [length] in *; rewrite n_virtual_cons, Hv in Hcnt; pose proof (n_virtual_range fs);
    cbn [decode_columns]; rewrite (proj2 (Z.ltb_ge max i)), Hv by lia.
  { apply decode_rest with h d; [done|by split|by intros Hv'; congruence|].
    apply IH; try lia. apply (ready_step _ _ _ f _ d); [done|by split]. }
  all: rewrite (proj2 (Z.leb_gt cnt (i - v))), <- Hid, Hb by lia; cbn [mbind option_bind].
  all: pose proof (Forall_inv (rdy_in _ _ _ _ _ Hready)) as Hin;
    pose proof (rdy_len _ _ _ _ _ Hready) as Hlen; pose proof (rdy_tab _ _ _ _ _ Hready) as Htab.
  - destruct (decode_null nb len h id f buf off d) as (d1 & Hd1 & Hfr & Hd1n); try done.
    { by apply (null_bits_not_set mbuf). }
    rewrite Hd1. cbn [mbind option_bind].
    apply decode_rest with h d1; [done|done|by intros _; rewrite Hn|].
    apply IH; try lia. by apply (ready_step _ _ _ f _ d).
  - destruct (Hdec h d buf id) as (d1 & Hd1 & Hval); try done.
    { by apply (Forall_inv (rdy_reads _ _ _ _ _ Hready)). } { destruct Hin; lia. }
    rewrite Hd1. cbn [mbind option_bind]. pose proof (decoded_frame nb len _ _ _ _ Hval Hin) as Hfr.
    apply decode_rest with h d1; [done|done| |].
    + intros _. split.
      * pose proof (Forall_inv (rdy_null _ _ _ _ _ Hready)) as Hnf. rewrite Hn, <- Hnf.
        destruct Hin as (_ & Hnb & _ & Hnl). unfold is_null_in in Hnf |- *.
        destruct (f_nullable f); [|done]. destruct (Hnl eq_refl) as [Hno _].
        rewrite (dd_other _ _ _ _ Hval); [done|lia].
      * intros _ v' Hv'. rewrite Hrd in Hv'. injection Hv' as <-. apply (dd_value _ _ _ _ Hval).
    + apply IH; try lia. by apply (ready_step _ _ _ f _ d).
Qed.

(** ** The round trip of an inserted row *)

(** The server's record: every stored column is null or holds a value. *)
Definition record_ok (t : table) (mbuf : list Z) : Prop := Forall (value_ok mbuf) (t_field t).

Definition layout_ok (t : table) (len : Z) : Prop :=
  0 <= t_null_bytes t <= len /\
  Forall (in_record (t_null_bytes t) len) (t_field t) /\
  ForallOrdPairs compat (t_field t).

Definition stored_columns (t : table) : Z := n_fields t - n_virtual (t_field t).

Definition reads_all (h : handler) (t : table) (max : Z) (d : dec) : Prop :=
  n_fields t - 1 <= max /\ Forall (reads h d) (t_field t) /\ good_table (d_tab d).

Lemma null_bits_cleared t len d :
  layout_ok t len -> Z.of_nat (length (d_buf d)) = len ->
  exists d1, memset0 (t_null_bytes t) d = Some d1 /\
    length (d_buf d1) = length (d_buf d) /\ d_heap d1 = d_heap d /\
    d_read_set d1 = d_read_set d /\ d_tab d1 = d_tab d /\
    Forall (fun f => is_null_in (d_buf d1) f = Some false) (t_field t).
Proof.
  intros (Hnb & Hin & _) Hlen. unfold memset0, dput.
  destruct (wr_Some (d_buf d) 0 (replicate (Z.to_nat (t_null_bytes t)) 0)) as [b Hw];
    [lia|rewrite length_replicate; lia|].
  rewrite Hw. cbn [mbind option_bind]. eexists. split; [reflexivity|].
  cbn [d_buf d_heap d_read_set d_tab dset_buf].
  split; [by apply length_wr in Hw|]. split; [done|]. split; [done|]. split; [done|].
  pose proof (rd_wr_same _ _ _ _ Hw) as Hs. rewrite length_replicate in Hs.
  eapply Forall_impl; [|exact Hin]. intros f (_ & _ & _ & Hn). unfold is_null_in.
  destruct (f_nullable f); [|done]. destruct (Hn eq_refl) as [Hno _].
  pose proof (rd_sub _ _ _ _ (f_null_offset f) 1 Hs ltac:(lia) ltac:(lia) ltac:(lia)) as Hr.
  rewrite Z.add_0_l in Hr. rewrite Hr, drop_replicate, take_replicate. cbn [mbind option_bind].
  replace (Z.to_nat 1 `min` _)%nat with 1%nat by lia. done.
Qed.

Lemma read_row t mbuf buf size h max d base len :
  encoded mbuf buf 0 base (t_field t) size ->
  rd buf 2 2 = Some (le_bytes 2 (stored_columns t)) -> 1 <= stored_columns t < 1024 ->
  base = row_head_sizeof + col_bitmap_ex_size (stored_columns t) ->
  layout_ok t len -> Z.of_nat (length (d_buf d)) = len -> reads_all h t max d ->
  exists d', cantian_record_to_mysql_record h t max buf None d = Some d' /\
    Forall (restored mbuf d') (t_field t).
Proof.
  intros Henc Hhd Hcnt Hbase Hlay Hlen (Hmax & Hreads & Htab).
  unfold cantian_record_to_mysql_record, row_word. rewrite Hhd. cbn [mbind option_bind].
  rewrite le_val_le_bytes. change (256 ^ Z.of_nat 2) with 65536. rewrite Z.mod_small by lia.
  assert (forall n, 10 <= n -> row_flag (stored_columns t) n = false) as Hflag.
  { intros n Hn. unfold row_flag. apply Z.bits_above_log2; [lia|].
    apply Z.lt_le_trans with 10; [apply Z.log2_lt_pow2; lia|done]. }
  rewrite !Hflag by lia. unfold row_column_count. rewrite Z.mod_small by lia.
  rewrite (proj2 (Z.eqb_neq _ 0)) by lia. rewrite Z.add_0_r, <- Hbase.
  destruct (null_bits_cleared t len d Hlay Hlen) as (d1 & Hd1 & Hl1 & Hh1 & Hr1 & Ht1 & Hn1).
  rewrite Hd1. cbn [mbind option_bind]. destruct Hlay as (Hnb & Hin & Hpairs).
  destruct (decode_row_columns (t_null_bytes t) len mbuf buf h (stored_columns t) max 0 base
    (t_field t) size Henc 0 0 d1) as (d' & Hd' & Hres & _).
  - done.
  - done.
  - unfold n_fields in Hmax. lia.
  - unfold stored_columns, n_fields. lia.
  - split; [done|done|lia| |by rewrite Ht1|done].
    eapply Forall_impl; [|exact Hreads]. intros f [H1 H2]. split; [by rewrite Hr1|done].
  - eauto.
Qed.

(** The head goes in front of the bitmap. *)
Lemma head_written mbuf buf base fs size n :
  encoded mbuf buf 0 base fs size -> 8 <= base -> 8 <= Z.of_nat (length buf) ->
  exists b, wr buf 0 (le_bytes 2 size ++ le_bytes 2 n) = Some b /\ length b = length buf /\
    encoded mbuf b 0 base fs size /\
    rd b 0 2 = Some (le_bytes 2 size) /\ rd b 2 2 = Some (le_bytes 2 n).
Proof.
  intros Henc Hbase Hlen.
  destruct (wr_Some buf 0 (le_bytes 2 size ++ le_bytes 2 n)) as [b Hw];
    [done|rewrite length_app, !length_le_bytes; lia|].
  exists b. split; [done|]. pose proof (length_wr _ _ _ _ Hw) as Hl2. split; [done|].
  pose proof (rd_wr_same _ _ _ _ Hw) as Hs. rewrite length_app, !length_le_bytes in Hs.
  split; [|split].
  - apply (encoded_agree mbuf buf _ _ _ _ _ base Henc); [lia| |].
    + intros id' Hid' _. unfold row_get_column_bits2. destruct (column_position id') as [-> _].
      rewrite (rd_wr_other _ _ _ _ _ 1 Hw); [done|].
      rewrite length_app, !length_le_bytes. unfold row_bitmap_offset. dlia.
    + intros o k Ho. apply (rd_wr_other _ _ _ _ o k Hw).
      rewrite length_app, !length_le_bytes. lia.
  - pose proof (rd_sub _ _ _ _ 0 2 Hs ltac:(lia) ltac:(lia) ltac:(lia)) as H. exact H.
  - pose proof (rd_sub _ _ _ _ 2 2 Hs ltac:(lia) ltac:(lia) ltac:(lia)) as H. exact H.
Qed.

Lemma insert_row t mbuf cbuf tab lob m :
  record_ok t mbuf -> record_fields_length (t_field t) = Some m ->
  (t_has_gcol t = false -> n_virtual (t_field t) = 0) ->
  1 <= stored_columns t -> n_fields t < CT_SPRS_COLUMNS ->
  get_cantian_record_length t <= Z.of_nat (length cbuf) -> Forall byte cbuf ->
  good_table tab ->
  exists size e', mysql_record_to_cantian_record true t mbuf cbuf None tab lob
      = Some (St 0, size, [], e') /\
    size <= get_cantian_record_length t /\ e_lob e' = lob /\ length (e_buf e') = length cbuf /\
    encoded mbuf (e_buf e') 0 (row_head_sizeof + col_bitmap_ex_size (stored_columns t))
      (t_field t) size /\
    rd (e_buf e') 0 2 = Some (le_bytes 2 size) /\
    rd (e_buf e') 2 2 = Some (le_bytes 2 (stored_columns t)) /\
    Forall byte (e_buf e') /\ good_table (e_tab e').
Proof.
  intros Hok Hm Hg Hst Hn Hlen Hb Htab. unfold CT_SPRS_COLUMNS in Hn.
  pose proof (n_virtual_range (t_field t)) as Hnv. pose proof (record_fields_length_nonneg _ _ Hm) as Hm0.
  unfold get_cantian_record_length in Hlen |- *. rewrite Hm in Hlen |- *.
  pose proof (ex_size_mono (stored_columns t) (n_fields t)) as Hmono.
  assert (0 <= stored_columns t <= n_fields t /\ n_fields t < CT_SPRS_COLUMNS) as Hst'
    by (unfold stored_columns, n_fields, CT_SPRS_COLUMNS in *; lia).
  specialize (Hmono ltac:(lia) ltac:(lia)). unfold row_head_sizeof in Hlen |- *.
  set (base := 8 + col_bitmap_ex_size (stored_columns t)).
  destruct (insert_columns t mbuf (stored_columns t) base ltac:(lia) eq_refl (t_field t) 0 0 m
    (length (t_field t)) (mk_enc cbuf base 0 tab lob)) as (e1 & He & Hk & Hl & Henc);
    try done; try lia.
  { cbn [e_off e_buf]. unfold base. lia. }
  unfold mysql_record_to_cantian_record. cbn [default mbind option_bind].
  rewrite bool_decide_eq_false_2 by (by intros [? ?]).
  assert ((if t_has_gcol t then cal_gcol_cnts_for_update (t_field t) (Z.to_nat (n_fields t)) else 0)
    = n_virtual (t_field t)) as ->.
  { unfold n_fields. rewrite Nat2Z.id. destruct (t_has_gcol t); [done|]. by rewrite Hg. }
  fold (stored_columns t). rewrite (wrapU_small 16 (stored_columns t)) by lia.
  unfold row_head_sizeof. fold base. replace (Z.to_nat (n_fields t)) with (length (t_field t))
    by (unfold n_fields; lia).
  rewrite He. cbn [mbind option_bind is_ok Z.eqb negb c_n c_virtual c_fields].
  rewrite Z.add_0_l. fold (stored_columns t). rewrite (wrapU_small 10) by lia.
  pose proof (k_len _ _ _ _ Hk) as Hlen1. pose proof (k_off _ _ _ _ Hk) as Hoff1.
  cbn [e_buf e_off] in Hlen1, Hoff1, Hl.
  destruct (head_written mbuf (e_buf e1) base (t_field t) (e_off e1) (stored_columns t))
    as (b & Hw & Hl2 & Henc' & H0 & H2); [done|unfold base in *; lia|unfold base in *; lia|].
  rewrite Hw. cbn [mbind option_bind]. eexists _, _. split; [reflexivity|].
  cbn [e_buf e_lob e_tab set_buf]. split; [unfold base in *; lia|]. split; [apply (k_lob _ _ _ _ Hk)|].
  split; [congruence|]. split; [done|]. split; [done|]. split; [done|].
  split; [|by apply (k_tab _ _ _ _ Hk)]. apply (k_byte _ _ _ _ Hk) in Hb.
  eapply wr_byte; [exact Hb| |exact Hw]. apply Forall_app. split; apply le_bytes_byte.
Qed.

(** What the row says is said by its bytes alone. *)
Lemma insert_row_prefix t mbuf cbuf tab lob m :
  record_ok t mbuf -> record_fields_length (t_field t) = Some m ->
  (t_has_gcol t = false -> n_virtual (t_field t) = 0) ->
  1 <= stored_columns t -> n_fields t < CT_SPRS_COLUMNS ->
  get_cantian_record_length t <= Z.of_nat (length cbuf) -> Forall byte cbuf ->
  good_table tab ->
  exists size e', mysql_record_to_cantian_record true t mbuf cbuf None tab lob
      = Some (St 0, size, [], e') /\
    0 <= size <= get_cantian_record_length t /\ length (e_buf e') = length cbuf /\
    Forall byte (e_buf e') /\ good_table (e_tab e') /\
    forall n, size <= n <= Z.of_nat (length cbuf) ->
    forall h max d, layout_ok t (Z.of_nat (length (d_buf d))) -> reads_all h t max d ->
    exists d', cantian_record_to_mysql_record h t max (take (Z.to_nat n) (e_buf e')) None d = Some d' /\
      Forall (restored mbuf d') (t_field t).
Proof.
  intros Hok Hm Hg Hst Hn Hlen Hb Ht.
  destruct (insert_row t mbuf cbuf tab lob m) as (size & e' & He & Hsz & _ & Hl & Henc & _ & Hhd & Hb' & Ht');
    try done.
  pose proof (encoded_le _ _ _ _ _ _ Henc) as Hle.
  pose proof (n_virtual_range (t_field t)) as Hnv.
  assert (0 <= stored_columns t < CT_SPRS_COLUMNS) as Hcnt by (unfold stored_columns, n_fields in *; lia).
  pose proof (ex_size_mono 0 (stored_columns t) ltac:(lia) ltac:(lia)) as Hex. unfold row_head_sizeof in Hle.
  exists size, e'. split; [done|]. split; [change (col_bitmap_ex_size 0) with 0 in Hex; lia|].
  split; [done|]. split; [done|]. split; [done|]. intros n Hn' h max d Hlay Hreads.
  change (col_bitmap_ex_size 0) with 0 in Hex.
  assert (encoded mbuf (take (Z.to_nat n) (e_buf e')) 0
    (row_head_sizeof + col_bitmap_ex_size (stored_columns t)) (t_field t) size) as Henc2.
  { apply (encoded_local _ _ _ _ _ _ _ Henc).
    - intros id' Hid'. unfold row_get_column_bits2. destruct (column_position id') as [-> _].
      pose proof (bitmap_fits (stored_columns t) id' ltac:(unfold stored_columns, n_fields; lia) ltac:(lia)).
      unfold row_head_sizeof in *. rewrite rd_take by lia. done.
    - intros o k Ho Hk. apply rd_take; lia. }
  apply (read_row t mbuf _ size h max d _ (Z.of_nat (length (d_buf d))) Henc2); try done.
  - rewrite rd_take by lia. done.
  - unfold CT_SPRS_COLUMNS in *. lia.
Qed.

(** *** The row of an update *)

(** The place of a stored column among the stored columns. *)
Definition stored_position (t : table) (id : Z) : Z :=
  Z.of_nat (length (filter (fun f => f_virtual f = false) (take (Z.to_nat id) (t_field t)))).

Lemma gcol_position fs n :
  (n <= length fs)%nat ->
  Z.of_nat n - cal_gcol_cnts_for_update fs n
    = Z.of_nat (length (filter (fun f => f_virtual f = false) (take n fs))).
Proof.
  revert n. induction fs as [|f fs IH]; intros [|n] Hn; cbn [length] in Hn; try lia; [done..|].
  cbn [cal_gcol_cnts_for_update take]. destruct (f_virtual f) eqn:E.
  - rewrite filter_cons_False by congruence. specialize (IH n ltac:(lia)). lia.
  - rewrite filter_cons_True by done. cbn [length]. specialize (IH n ltac:(lia)). lia.
Qed.

Lemma renumber_position t id :
  0 <= id < n_fields t -> n_fields t < 65536 ->
  (t_has_gcol t = false -> n_virtual (t_field t) = 0) -> renumber t id = stored_position t id.
Proof.
  intros Hid Hn Hg. unfold renumber, stored_position. unfold n_fields in *.
  rewrite <- gcol_position by lia. rewrite Z2Nat.id by lia.
  destruct (t_has_gcol t).
  - apply wrapU_small. pose proof (gcol_position (t_field t) (Z.to_nat id) ltac:(lia)) as H.
    rewrite Z2Nat.id in H by lia. rewrite H.
    pose proof (length_filter (fun f => f_virtual f = false) (take (Z.to_nat id) (t_field t))) as Hl.
    rewrite length_take in Hl. lia.
  - specialize (Hg eq_refl). unfold n_virtual in Hg.
    enough (forall fs n, cal_gcol_cnts_for_update fs (length fs) = 0 ->
      cal_gcol_cnts_for_update fs n = 0) as Hz by (rewrite (Hz _ _ Hg); lia).
    induction fs as [|f fs IH]; intros [|n] H0; try done.
    cbn [cal_gcol_cnts_for_update length] in H0 |- *. pose proof (n_virtual_range fs) as Hr.
    unfold n_virtual in Hr. destruct (f_virtual f); [lia|]. rewrite IH; lia.
Qed.

(** The number of columns the bitmap of an update is sized for. *)
Definition update_bitmap_columns (t : table) (n : Z) : Z :=
  n - (if t_has_gcol t then cal_gcol_cnts_for_update (t_field t) (Z.to_nat n) else 0).

Lemma update_row t mbuf cbuf ids tab lob m :
  let base := row_head_sizeof + col_bitmap_ex_size (update_bitmap_columns t (Z.of_nat (length ids))) in
  Forall (fun id => 0 <= id < n_fields t) ids -> Forall (value_ok mbuf) (picked t ids) ->
  record_fields_length (picked t ids) = Some m ->
  Z.of_nat (length (picked t ids)) <= update_bitmap_columns t (Z.of_nat (length ids)) < CT_SPRS_COLUMNS ->
  base + m <= Z.of_nat (length cbuf) -> Forall byte cbuf -> good_table tab ->
  exists size e', mysql_record_to_cantian_record true t mbuf cbuf (Some ids) tab lob
      = Some (St 0, size, map (renumber t) (stored_ids t ids), e') /\
    size <= base + m /\ encoded mbuf (e_buf e') 0 base (picked t ids) size /\
    rd (e_buf e') 0 2 = Some (le_bytes 2 size) /\
    rd (e_buf e') 2 2 = Some (le_bytes 2 (Z.of_nat (length (picked t ids)))) /\
    length (e_buf e') = length cbuf.
Proof.
  intros base Hids Hok Hm Hcnt Hlen Hb Ht. unfold CT_SPRS_COLUMNS in Hcnt.
  set (cnt := update_bitmap_columns t (Z.of_nat (length ids))) in *.
  pose proof (record_fields_length_nonneg _ _ Hm) as Hm0.
  pose proof (ex_size_mono 0 cnt ltac:(lia) ltac:(unfold CT_SPRS_COLUMNS; lia)) as Hmono.
  unfold row_head_sizeof in base.
  destruct (update_columns t mbuf cnt base ltac:(unfold CT_SPRS_COLUMNS; lia) eq_refl ids [] 0 m
    (length ids) (mk_enc cbuf base 0 tab lob)) as (v' & e1 & He & Hk & Hl & Henc); try done; try lia.
  all: cbn [length e_off e_buf]; unfold base; try lia.
  unfold mysql_record_to_cantian_record. cbn [default mbind option_bind].
  rewrite bool_decide_eq_true_2 by eauto. unfold id. cbv beta iota zeta.
  unfold update_bitmap_columns in cnt. fold cnt. rewrite (wrapU_small 16 cnt) by lia.
  unfold row_head_sizeof. fold base. rewrite Nat2Z.id. cbn [length app] in He.
  rewrite !Z.add_0_l in He. change (Z.of_nat 0) with 0 in *. rewrite He.
  cbn [mbind option_bind is_ok Z.eqb negb c_n c_fields]. rewrite <- length_picked by done.
  rewrite (wrapU_small 10) by lia.
  pose proof (k_len _ _ _ _ Hk) as Hlen1. pose proof (k_off _ _ _ _ Hk) as Hoff1.
  cbn [e_buf e_off] in Hlen1, Hoff1, Hl.
  destruct (head_written mbuf (e_buf e1) base (picked t ids) (e_off e1)
    (Z.of_nat (length (picked t ids)))) as (b & Hw & Hl2 & Henc' & H0 & H2);
    [done|unfold base in *; lia|unfold base in *; lia|].
  rewrite Hw. cbn [mbind option_bind]. eexists _, _. split; [reflexivity|].
  do 4 (split; [done|]). cbn [e_buf set_buf]. congruence.
Qed.

(** The same with the places of the columns. *)
Lemma picked_row t mbuf cbuf ids tab lob m :
  let base := row_head_sizeof + col_bitmap_ex_size (Z.of_nat (length (picked t ids))) in
  Forall (fun id => 0 <= id < n_fields t) ids -> Forall (value_ok mbuf) (picked t ids) ->
  record_fields_length (picked t ids) = Some m ->
  (t_has_gcol t = false -> n_virtual (t_field t) = 0) -> n_fields t < CT_SPRS_COLUMNS ->
  update_bitmap_columns t (Z.of_nat (length ids)) = Z.of_nat (length (picked t ids)) ->
  (length (picked t ids) < 1024)%nat ->
  base + m <= Z.of_nat (length cbuf) -> Forall byte cbuf -> good_table tab ->
  exists size e', mysql_record_to_cantian_record true t mbuf cbuf (Some ids) tab lob
      = Some (St 0, size, map (stored_position t) (stored_ids t ids), e') /\
    base <= size <= base + m /\ length (e_buf e') = length cbuf /\
    rd (e_buf e') 0 2 = Some (le_bytes 2 size) /\
    rd (e_buf e') 2 2 = Some (le_bytes 2 (Z.of_nat (length (picked t ids)))) /\
    encoded mbuf (e_buf e') 0 base (picked t ids) size.
Proof.
  intros base Hids Hok Hm Hg Hn Hcnt Hpick Hlen Hb Ht. unfold base in *. rewrite <- Hcnt in Hlen |- *.
  unfold CT_SPRS_COLUMNS in Hn.
  destruct (update_row t mbuf cbuf ids tab lob m) as (size & e' & He & Hsz & Henc & H0 & H2 & Hl);
    try done; [unfold CT_SPRS_COLUMNS; lia|].
  pose proof (encoded_le _ _ _ _ _ _ Henc).
  exists size, e'. rewrite He. split; [|rewrite Hcnt in *; done]. do 3 f_equal.
  apply map_ext_in. intros id Hid. apply renumber_position; [|lia|done].
  rewrite Forall_forall in Hids. apply Hids. apply list_elem_of_In in Hid.
  apply list_elem_of_filter in Hid as [_ Hid]. by apply list_elem_of_In.
Qed.

End Encode.

(** ** Properties *)

(** C1: an inserted row reads back: converting a record to a Cantian row and
    that row to a record again restores, for every stored column, its null bit
    and, when it is not null, its value; columns stored in the row itself
    (integers, BIT, floats, decimals, dates, CHAR and VARCHAR up to 8000
    bytes), any mixture of nullable, null and virtual columns.  [record_ok]
    asks for valid values of the server and excludes two cases: BIT columns of
    3, 5, 6 and 7 bytes, whose bytes are read back with a store that also
    writes the bytes after the column ([numeric_round_trip]), and NaN in a
    FLOAT column.  The row is read as one of a user table. *)
Theorem insert_round_trip (M : MySQL) (BO : ByteOrder M) (TC : TimeCodec M)
    (DTC : DatetimeCodec M) (TS : TimestampCodec M) (DC : DecimalCodec M) (L : LobStore)
    (t : table) (mbuf cbuf : list Z) (tab : aux_table) (lob : lob_state) (m : Z)
    (Hok : record_ok t mbuf) (Hm : record_fields_length (t_field t) = Some m)
    (Hg : t_has_gcol t = false -> n_virtual (t_field t) = 0)
    (Hst : 1 <= stored_columns t) (Hn : n_fields t < CT_SPRS_COLUMNS)
    (Hlen : get_cantian_record_length t <= Z.of_nat (length cbuf))
    (Hb : Forall byte cbuf) (Ht : good_table tab) :
  exists size e', mysql_record_to_cantian_record true t mbuf cbuf None tab lob
      = Some (St 0, size, [], e') /\
    forall h max d, layout_ok t (Z.of_nat (length (d_buf d))) -> reads_all h t max d ->
    exists d', cantian_record_to_mysql_record h t max (e_buf e') None d = Some d' /\
      Forall (restored mbuf d') (t_field t).
Proof.
  destruct (insert_row t mbuf cbuf tab lob m) as (size & e' & He & _ & _ & _ & Henc & _ & Hhd & _);
    try done.
  exists size, e'. split; [done|]. intros h max d Hlay Hreads.
  apply (read_row t mbuf (e_buf e') size h max d _ (Z.of_nat (length (d_buf d))) Henc Hhd); try done.
  unfold stored_columns, CT_SPRS_COLUMNS in *. pose proof (n_virtual_range (t_field t)). lia.
Qed.

(** The row of an insert stays within the length that
    [get_cantian_record_length] computes for the table, the row's head holds
    that size and the number of stored columns, and the conversion neither
    fails, nor resizes the buffer, nor writes to a LOB. *)
Theorem insert_row_bounds (M : MySQL) (BO : ByteOrder M) (TC : TimeCodec M)
    (DTC : DatetimeCodec M) (TS : TimestampCodec M) (DC : DecimalCodec M) (L : LobStore)
    (t : table) (mbuf cbuf : list Z) (tab : aux_table) (lob : lob_state) (m : Z)
    (Hok : record_ok t mbuf) (Hm : record_fields_length (t_field t) = Some m)
    (Hg : t_has_gcol t = false -> n_virtual (t_field t) = 0)
    (Hst : 1 <= stored_columns t) (Hn : n_fields t < CT_SPRS_COLUMNS)
    (Hlen : get_cantian_record_length t <= Z.of_nat (length cbuf))
    (Hb : Forall byte cbuf) (Ht : good_table tab) :
  exists size e', mysql_record_to_cantian_record true t mbuf cbuf None tab lob
      = Some (St 0, size, [], e') /\
    row_head_sizeof + col_bitmap_ex_size (stored_columns t) <= size
      <= get_cantian_record_length t /\
    rd (e_buf e') 0 2 = Some (le_bytes 2 size) /\
    rd (e_buf e') 2 2 = Some (le_bytes 2 (stored_columns t)) /\
    length (e_buf e') = length cbuf /\ e_lob e' = lob.
Proof.
  destruct (insert_row t mbuf cbuf tab lob m)
    as (size & e' & He & Hsz & Hlob & Hl & Henc & H0 & H2 & _); try done.
  apply encoded_le in Henc. exists size, e'. done.
Qed.

(** An INT, a VARCHAR(20), a virtual BIGINT, a null CHAR(4) and a DATE. *)
Definition demo_int : Field :=
  mk_field MYSQL_TYPE_LONG MYSQL_TYPE_LONG 1 4 4 0 false 0 0 false false 0 0
    false false false false 0 0 0 0 0.
Definition demo_varchar : Field :=
  mk_field MYSQL_TYPE_VARCHAR MYSQL_TYPE_VARCHAR 5 21 20 1 true 0 1 false false 0 0
    false false false false 32 0 0 0 1.
Definition demo_virtual : Field :=
  mk_field MYSQL_TYPE_LONGLONG MYSQL_TYPE_LONGLONG 26 8 8 0 false 0 0 true false 0 0
    false false false false 0 0 0 0 2.
Definition demo_char : Field :=
  mk_field MYSQL_TYPE_STRING MYSQL_TYPE_STRING 34 4 4 0 true 0 2 false false 0 0
    false false false false 32 0 0 0 3.
Definition demo_date : Field :=
  mk_field MYSQL_TYPE_DATE MYSQL_TYPE_DATE 38 3 3 0 false 0 0 false false 0 0
    false false false false 0 0 0 0 4.
Definition demo_table : table :=
  mk_table [demo_int; demo_varchar; demo_virtual; demo_char; demo_date] 1 true false.
Definition demo_record : list Z :=
  2 :: le_bytes 4 7 ++ [2; 72; 105] ++ replicate 30 0 ++ le_bytes 3 1036381.

Lemma demo_record_ok : @record_ok demo demo_table demo_record.
Proof.
  unfold record_ok, demo_table. cbn [t_field].
  assert (forall f, f_virtual f = true -> @value_ok demo demo_record f) as Hvirt
    by (intros f Hf Hv; congruence).
  repeat apply Forall_cons_2; [| |by apply Hvirt| | |apply Forall_nil_2]; intros _;
    (split; [vm_compute; discriminate|]); eexists; (split; [vm_compute; reflexivity|]); intros H; try done;
    eexists; (split; [vm_compute; reflexivity|]).
  all: split; [vm_compute; discriminate|]; split; [cbn; lia|];
    split; [repeat constructor; lia|]; split; [done|].
  all: split; [cbn; lia|]; split; [by left|].
  - apply sc_numeric; done.
  - apply sc_varchar; try done; vm_compute; try split; discriminate.
  - apply sc_temporal. split; [repeat constructor; lia|]. split; [done|]. split; [cbn; lia|]. done.
Qed.

(** The hypotheses about the demonstration row, by evaluation. *)
Ltac demo_row :=
  first [ exact demo_record_ok | reflexivity | apply Forall_replicate; split; lia
        | (unfold good_table; reflexivity)
        | vm_compute; split; (discriminate || reflexivity) | vm_compute; discriminate ].

Lemma insert_round_trip_witness :
  exists size e', @mysql_record_to_cantian_record demo demo_store true demo_table demo_record
      (replicate 200 0) None g_field_cnvrt_aux_array []
      = Some (St 0, size, [], e') /\
    forall h max d, layout_ok demo_table (Z.of_nat (length (d_buf d))) ->
    reads_all h demo_table max d ->
    exists d', cantian_record_to_mysql_record h demo_table max (e_buf e') None d = Some d' /\
      Forall (restored demo_record d') (t_field demo_table).
Proof.
  apply (insert_round_trip demo demo_byte_order demo_time_codec demo_datetime_codec
    demo_timestamp_codec demo_decimal_codec demo_store demo_table demo_record (replicate 200 0)
    g_field_cnvrt_aux_array [] 52); demo_row.
Defined.

Lemma insert_row_bounds_witness :
  exists size e', @mysql_record_to_cantian_record demo demo_store true demo_table demo_record
      (replicate 200 0) None g_field_cnvrt_aux_array []
      = Some (St 0, size, [], e') /\
    row_head_sizeof + col_bitmap_ex_size (stored_columns demo_table) <= size
      <= get_cantian_record_length demo_table /\
    rd (e_buf e') 0 2 = Some (le_bytes 2 size) /\
    rd (e_buf e') 2 2 = Some (le_bytes 2 (stored_columns demo_table)) /\
    length (e_buf e') = length (replicate 200 0) /\ e_lob e' = [].
Proof.
  apply (insert_row_bounds demo demo_byte_order demo_time_codec demo_datetime_codec
    demo_timestamp_codec demo_decimal_codec demo_store demo_table demo_record (replicate 200 0)
    g_field_cnvrt_aux_array [] 52); demo_row.
Defined.

(** The row of an update: its bitmap entries and data are the updated
    stored columns in order, its head counts them, the data starts where that
    count says, and the column list becomes their places among the stored
    columns, the virtual columns removed; provided that the first columns of
    the table hold as many virtual columns as the updated ones do. *)
Theorem update_row_columns (M : MySQL) (BO : ByteOrder M) (TC : TimeCodec M)
    (DTC : DatetimeCodec M) (TS : TimestampCodec M) (DC : DecimalCodec M) (L : LobStore)
    (t : table) (mbuf cbuf : list Z) (ids : list Z) (tab : aux_table) (lob : lob_state) (m : Z)
    (Hids : Forall (fun id => 0 <= id < n_fields t) ids)
    (Hok : Forall (value_ok mbuf) (picked t ids))
    (Hm : record_fields_length (picked t ids) = Some m)
    (Hg : t_has_gcol t = false -> n_virtual (t_field t) = 0) (Hn : n_fields t < CT_SPRS_COLUMNS)
    (Hcnt : update_bitmap_columns t (Z.of_nat (length ids)) = Z.of_nat (length (picked t ids)))
    (Hpick : (length (picked t ids) < 1024)%nat)
    (Hlen : row_head_sizeof + col_bitmap_ex_size (Z.of_nat (length (picked t ids))) + m
      <= Z.of_nat (length cbuf))
    (Hb : Forall byte cbuf) (Ht : good_table tab) :
  exists size e', mysql_record_to_cantian_record true t mbuf cbuf (Some ids) tab lob
      = Some (St 0, size, map (stored_position t) (stored_ids t ids), e') /\
    rd (e_buf e') 0 2 = Some (le_bytes 2 size) /\
    rd (e_buf e') 2 2 = Some (le_bytes 2 (Z.of_nat (length (picked t ids)))) /\
    encoded mbuf (e_buf e') 0
      (row_head_sizeof + col_bitmap_ex_size (Z.of_nat (length (picked t ids)))) (picked t ids) size.
Proof.
  destruct (picked_row t mbuf cbuf ids tab lob m) as (size & e' & He & _ & _ & H0 & H2 & Henc); try done.
  by exists size, e'.
Qed.

Lemma update_row_columns_witness :
  exists size e', @mysql_record_to_cantian_record demo demo_store true demo_table demo_record
      (replicate 200 0) (Some [1; 2; 3]) g_field_cnvrt_aux_array []
      = Some (St 0, size, map (stored_position demo_table) (stored_ids demo_table [1; 2; 3]), e') /\
    rd (e_buf e') 0 2 = Some (le_bytes 2 size) /\
    rd (e_buf e') 2 2 = Some (le_bytes 2 (Z.of_nat (length (picked demo_table [1; 2; 3])))) /\
    encoded demo_record (e_buf e') 0
      (row_head_sizeof + col_bitmap_ex_size (Z.of_nat (length (picked demo_table [1; 2; 3]))))
      (picked demo_table [1; 2; 3]) size.
Proof.
  apply (update_row_columns demo demo_byte_order demo_time_codec demo_datetime_codec
    demo_timestamp_codec demo_decimal_codec demo_store demo_table demo_record (replicate 200 0)
    [1; 2; 3] g_field_cnvrt_aux_array [] 32).
  - repeat constructor; vm_compute; congruence.
  - pose proof demo_record_ok as H. apply Forall_inv_tail in H.
    pose proof (Forall_inv H) as H1. apply Forall_inv_tail, Forall_inv_tail, Forall_inv in H.
    exact (Forall_cons_2 _ _ _ H1 (Forall_cons_2 _ _ _ H (Forall_nil_2 _))).
  - reflexivity.
  - discriminate.
  - reflexivity.
  - reflexivity.
  - by apply Nat.ltb_lt.
  - demo_row.
  - demo_row.
  - demo_row.
Defined.

(** Fourteen INT columns, the first of them virtual, and a record with
    170 in every column. *)
Definition wide_int (virtual : bool) (i : nat) : Field :=
  mk_field MYSQL_TYPE_LONG MYSQL_TYPE_LONG (1 + 4 * Z.of_nat i) 4 4 0 false 0 0 virtual false 0 0
    false false false false 0 0 0 0 i.
Definition wide_table : table :=
  mk_table (wide_int true 0 :: map (wide_int false) (seq 1 13)) 1 true false.
Definition wide_record : list Z := 0 :: concat (replicate 14 (le_bytes 4 170)).
Definition wide_update : option (status * Z * list Z * @enc demo_store) :=
  @mysql_record_to_cantian_record demo demo_store true wide_table wide_record (replicate 200 0)
    (Some (seqZ 1 13)) g_field_cnvrt_aux_array [].

(** The bitmap of an update is sized by the virtual columns among the
    first columns of the table, not by those among the updated columns.
    Updating the 13 stored columns behind one virtual column sizes it for 12
    columns: the row's count says that the data starts at byte 12, the data
    is written from byte 8 on, and the bitmap entry of the 13th column
    overwrites the first byte of the first value. *)
Theorem update_bitmap_too_small :
  (r ← wide_update; let '(res, _, _, e') := r in
   Some (res, rd (e_buf e') 2 2, rd (e_buf e') 8 8))
    = Some (St 0, Some (le_bytes 2 13), Some (le_bytes 4 169 ++ le_bytes 4 170)) /\
  row_head_sizeof + col_bitmap_ex_size 13 = 12.
Proof. split; vm_compute; reflexivity. Qed.

End RowFormat.
