(* ===== verification/CondPush.v ===== *)
(** * CondPush: condition push-down

    Models the push-down of [WHERE] conditions: [ctc_util.cc] splits a
    condition into the part the engine evaluates and a remainder
    ([cond_push_term]) and translates the pushed part into the engine's
    [ctc_conds] ([dfs_fill_conds]); [ha_ctc.cc] drives both ([cond_push],
    [ctc_fill_conds], [free_m_cond]).  The server's [Item] tree is an
    inductive type with the attributes that the connector reads; a null
    pointer that is followed, a store outside of a buffer or a failed
    assertion is [None].  Buffers of the engine's memory are counted, so that
    leaks can be stated. *)

From stdpp Require Import strings.
From S2P Require Import Prelude CalDate DecDigits FieldTypes Server Demo.
From S2P Require Import Numeric DateCnvrt RowFormat.
Import CalDate DecDigits FieldTypes Server Demo Numeric DateCnvrt RowFormat.

Module CondPush.

(** ** The server's items *)

(** [Item_func::Functype], the ones of the table and all others. *)
Inductive Functype :=
  | EQ_FUNC | EQUAL_FUNC | NE_FUNC | LT_FUNC | LE_FUNC | GT_FUNC | GE_FUNC | LIKE_FUNC
  | ISNULL_FUNC | ISNOTNULL_FUNC | COND_AND_FUNC | COND_OR_FUNC | XOR_FUNC | MOD_FUNC
  | PLUS_FUNC | MINUS_FUNC | MUL_FUNC | DIV_FUNC | DATE_FUNC | DATETIME_LITERAL
  | OTHER_FUNC (code : Z).

#[export] Instance Functype_eq_dec : EqDecision Functype.
Proof. solve_decision. Defined.

Inductive Item_result :=
  INVALID_RESULT | STRING_RESULT | REAL_RESULT | INT_RESULT | ROW_RESULT | DECIMAL_RESULT.

#[export] Instance Item_result_eq_dec : EqDecision Item_result.
Proof. solve_decision. Defined.

(** A column of the table. *)
Record column := mk_column {
  col_name : string;               (* field_name *)
  col_field : Field;
  col_gcol : bool;                 (* is_gcol(): virtual or stored *)
  col_prefix_key : bool }.         (* !part_of_prefixkey.is_clear_all() *)

(** The attributes shared by all items. *)
Record info := mk_info {
  i_cmp : Item_result;             (* cmp_context *)
  i_result : Item_result;          (* result_type() *)
  i_data_type : enum_field_types;  (* data_type() *)
  i_const : bool;                  (* basic_const_item() *)
  i_null : bool;                   (* null_value *)
  i_collation : Z;                 (* collation.collation->number *)
  i_mbminlen : Z;                  (* collation.collation->mbminlen *)
  i_pad_char : Z;                  (* collation.collation->pad_char *)
  i_date : option MYSQL_TIME }.    (* get_date() of a function; [None]: it fails *)

Inductive Item :=
  | Item_field (i : info) (name : string) (col : column)
  | Item_int (i : info) (value : Z) (unsigned_flag : bool)
  | Item_float (i : info) (value : Z)               (* the bits of the double *)
  | Item_decimal (i : info) (d : my_decimal) (prec decimals : Z)
  | Item_string (i : info) (str : list Z)
  | Item_null (i : info)
  | Item_cache (i : info) (has_value : bool) (int_value : option (Z * bool))
  | Item_func (i : info) (ft : Functype) (like : option bool) (args : list Item)
                       (* like: [escape_was_used_in_parsing] of an [Item_func_like] *)
  | Item_cond (i : info) (ft : Functype) (args : list Item)
  | Item_other (i : info).

Inductive Item_Type :=
  | FIELD_ITEM | INT_ITEM | REAL_ITEM | DECIMAL_ITEM | STRING_ITEM | NULL_ITEM | CACHE_ITEM
  | FUNC_ITEM | COND_ITEM | OTHER_ITEM.

#[export] Instance Item_Type_eq_dec : EqDecision Item_Type.
Proof. solve_decision. Defined.

Definition item_type (t : Item) : Item_Type :=
  match t with
  | Item_field _ _ _ => FIELD_ITEM | Item_int _ _ _ => INT_ITEM | Item_float _ _ => REAL_ITEM
  | Item_decimal _ _ _ _ => DECIMAL_ITEM | Item_string _ _ => STRING_ITEM
  | Item_null _ => NULL_ITEM | Item_cache _ _ _ => CACHE_ITEM | Item_func _ _ _ _ => FUNC_ITEM
  | Item_cond _ _ _ => COND_ITEM | Item_other _ => OTHER_ITEM
  end.

Definition item_info (t : Item) : info :=
  match t with
  | Item_field i _ _ | Item_int i _ _ | Item_float i _ | Item_decimal i _ _ _ | Item_string i _
  | Item_null i | Item_cache i _ _ | Item_func i _ _ _ | Item_cond i _ _ | Item_other i => i
  end.

(** Predicates of the server on types and values. *)
Class ItemTypes := {
  is_integer_type : enum_field_types -> bool;
  is_numeric_type : enum_field_types -> bool;
  is_string_type : enum_field_types -> bool;
  is_temporal_type : enum_field_types -> bool;
  non_zero_date : MYSQL_TIME -> bool;
  same_name : string -> string -> bool;            (* my_strcasecmp(...) == 0 *)
  my_date_to_binary : MYSQL_TIME -> list Z }.

(** ** The engine's conditions *)

Inductive ctc_cond_type :=
  | CTC_FIELD_EXPR | CTC_CONST_EXPR | CTC_NULL_EXPR | CTC_LIKE_EXPR | CTC_CMP_EXPR
  | CTC_LOGIC_EXPR | CTC_ARITHMATIC_EXPR | CTC_DATE_EXPR | CTC_UNKNOWN_EXPR.

Inductive ctc_func_type :=
  | CTC_EQ_FUNC | CTC_EQUAL_FUNC | CTC_NE_FUNC | CTC_LT_FUNC | CTC_LE_FUNC | CTC_GE_FUNC
  | CTC_GT_FUNC | CTC_LIKE_FUNC | CTC_ISNULL_FUNC | CTC_ISNOTNULL_FUNC | CTC_COND_AND_FUNC
  | CTC_COND_OR_FUNC | CTC_XOR_FUNC | CTC_MOD_FUNC | CTC_PLUS_FUNC | CTC_MINUS_FUNC
  | CTC_MUL_FUNC | CTC_DIV_FUNC | CTC_DATE_FUNC | CTC_UNKNOWN_FUNC.

#[export] Instance ctc_cond_type_eq_dec : EqDecision ctc_cond_type.
Proof. solve_decision. Defined.
#[export] Instance ctc_func_type_eq_dec : EqDecision ctc_func_type.
Proof. solve_decision. Defined.

Record ctc_cond_field := mk_cond_field {
  field_no : Z; field_type : enum_ctc_ddl_field_types; field_size : Z;
  field_value : option (list Z); null_value : bool; is_unsigned : bool; collate_id : Z;
  timezone : Z; no_backslash : bool }.

(** A node; [cond_list = None] is the null pointer. *)
Inductive ctc_conds := mk_conds {
  cond_type : ctc_cond_type;
  func_type : ctc_func_type;
  field_info : ctc_cond_field;
  cond_list : option (list ctc_conds) }.

(** [memset(sub_cond, 0, sizeof(ctc_conds))] *)
Definition zero_field : ctc_cond_field :=
  mk_cond_field 0 CTC_DDL_TYPE_DECIMAL 0 None false false 0 0 false.
Definition zero_conds : ctc_conds := mk_conds CTC_FIELD_EXPR CTC_EQ_FUNC zero_field None.

Definition g_cond_func_type : list (Functype * ctc_func_type * ctc_cond_type) := [
  (EQ_FUNC, CTC_EQ_FUNC, CTC_CMP_EXPR); (EQUAL_FUNC, CTC_EQUAL_FUNC, CTC_CMP_EXPR);
  (NE_FUNC, CTC_NE_FUNC, CTC_CMP_EXPR); (LT_FUNC, CTC_LT_FUNC, CTC_CMP_EXPR);
  (LE_FUNC, CTC_LE_FUNC, CTC_CMP_EXPR); (GT_FUNC, CTC_GT_FUNC, CTC_CMP_EXPR);
  (GE_FUNC, CTC_GE_FUNC, CTC_CMP_EXPR); (LIKE_FUNC, CTC_LIKE_FUNC, CTC_LIKE_EXPR);
  (ISNULL_FUNC, CTC_ISNULL_FUNC, CTC_NULL_EXPR);
  (ISNOTNULL_FUNC, CTC_ISNOTNULL_FUNC, CTC_NULL_EXPR);
  (COND_AND_FUNC, CTC_COND_AND_FUNC, CTC_LOGIC_EXPR);
  (COND_OR_FUNC, CTC_COND_OR_FUNC, CTC_LOGIC_EXPR); (XOR_FUNC, CTC_XOR_FUNC, CTC_LOGIC_EXPR);
  (MOD_FUNC, CTC_MOD_FUNC, CTC_ARITHMATIC_EXPR); (PLUS_FUNC, CTC_PLUS_FUNC, CTC_ARITHMATIC_EXPR);
  (MINUS_FUNC, CTC_MINUS_FUNC, CTC_ARITHMATIC_EXPR); (MUL_FUNC, CTC_MUL_FUNC, CTC_ARITHMATIC_EXPR);
  (DIV_FUNC, CTC_DIV_FUNC, CTC_ARITHMATIC_EXPR); (DATE_FUNC, CTC_DATE_FUNC, CTC_DATE_EXPR);
  (DATETIME_LITERAL, CTC_DATE_FUNC, CTC_DATE_EXPR)].

(** The function and condition type of the first entry of the table. *)
Definition get_cond_func_type_map (fc : Functype) : option (ctc_func_type * ctc_cond_type) :=
  match list_find (fun e => fst (fst e) = fc) g_cond_func_type with
  | Some (_, (_, f, c)) => Some (f, c)
  | None => None
  end.

(** ** Which items can be pushed *)

Section Supported.
Context {IT : ItemTypes}.

Definition is_and_or (t : Functype) : bool :=
  bool_decide (t = COND_AND_FUNC) || bool_decide (t = COND_OR_FUNC).

Definition is_type (t : Item) (ty : Item_Type) : bool := bool_decide (item_type t = ty).

(** [functype()] of an [Item_func]; conditions are functions, too. *)
Definition functype (t : Item) : option Functype :=
  match t with Item_func _ ft _ _ | Item_cond _ ft _ => Some ft | _ => None end.

Definition arguments (t : Item) : list Item :=
  match t with Item_func _ _ _ args | Item_cond _ _ args => args | _ => [] end.

Definition is_supported_conds (term : Item) (parent_type : Functype) : bool :=
  is_and_or parent_type && match functype term with Some ft => is_and_or ft | None => false end.

(** [LIKE] has at least two arguments. *)
Definition is_supported_funcs_like (term : Item) (parent_type : Functype) : bool :=
  is_and_or parent_type &&
  match term, arguments term with
  | Item_func _ _ like _, a0 :: a1 :: _ =>
    is_type a1 STRING_ITEM && bool_decide (i_cmp (item_info a1) = STRING_RESULT) &&
    is_type a0 FIELD_ITEM && match like with Some escape => negb escape | None => false end &&
    is_string_type (i_data_type (item_info a0))
  | _, _ => false
  end.

Definition is_arithmetic_function (ft : Functype) : bool :=
  match ft with
  | PLUS_FUNC | MINUS_FUNC | MUL_FUNC | DIV_FUNC | MOD_FUNC => true
  | _ => false
  end.

Definition is_arithmetic_arg (a : Item) : bool :=
  match a with
  | Item_field i _ _ => is_integer_type (i_data_type i)
  | Item_func _ ft _ _ => is_arithmetic_function ft
  | Item_int _ _ _ | Item_cache _ _ _ => true
  | _ => false
  end.

Definition is_supported_funcs_arithmetic (term : Item) (parent_type : Functype) : bool :=
  negb (is_and_or parent_type) && (length (arguments term) =? 2)%nat &&
  forallb is_arithmetic_arg (arguments term).

(** The code behind the first [return true] is never reached. *)
Definition is_supported_funcs_logic (term : Item) (parent_type : Functype) : bool :=
  is_and_or parent_type && (length (arguments term) =? 2)%nat.

(** [IS NULL] has an argument. *)
Definition is_supported_funcs_null (term : Item) (parent_type : Functype) : bool :=
  is_and_or parent_type &&
  match arguments term with a0 :: _ => is_type a0 FIELD_ITEM | [] => false end.

(** The first operand is an [Item_field] with attributes [i]. *)
Definition check_cmp_result (i : info) (right : Item) : bool :=
  let cmp := i_cmp (item_info right) in
  let dt := i_data_type i in
  if is_type right NULL_ITEM then true
  else if decide (dt = MYSQL_TYPE_YEAR)
  then is_type right INT_ITEM && bool_decide (cmp = INT_RESULT)
  else if is_temporal_type dt then
    if negb (i_const (item_info right) && bool_decide (cmp = INT_RESULT)) then false
    else if decide (dt = MYSQL_TYPE_TIMESTAMP) then
      match functype right with
      | None => false
      | Some _ =>
        match i_date (item_info right) with
        | None => false
        | Some lt =>
          if non_zero_date lt
          then negb (t_year lt =? 0) && negb (t_month lt =? 0) && negb (t_day lt =? 0)
          else true
        end
      end
    else true
  else if is_string_type dt then is_type right STRING_ITEM && bool_decide (cmp = STRING_RESULT)
  else if is_integer_type dt
  then (is_type right INT_ITEM && bool_decide (cmp = INT_RESULT)) || is_type right CACHE_ITEM
  else if is_numeric_type dt
  then (is_type right REAL_ITEM || is_type right DECIMAL_ITEM)
       && negb (bool_decide (cmp = STRING_RESULT))
  else false.

Definition is_supported_const (term : Item) (parent_type : Functype) : bool :=
  negb (is_and_or parent_type) &&
  match item_type term with
  | INT_ITEM | STRING_ITEM | REAL_ITEM | DECIMAL_ITEM | NULL_ITEM => true
  | _ => false
  end.

Definition is_valid_cmp_operand (o1 o2 : Item) (parent_type : Functype) : bool :=
  match o1 with
  | Item_func _ ft _ _ =>
    match get_cond_func_type_map ft with
    | Some (_, CTC_ARITHMATIC_EXPR) =>
      match o2 with
      | Item_int _ _ _ => true
      | Item_cache i _ _ => bool_decide (i_result i = INT_RESULT)
      | Item_field i _ _ => is_integer_type (i_data_type i)
      | Item_func _ ft2 _ _ => is_arithmetic_function ft2
      | _ => false
      end
    | _ => false
    end
  | Item_field i _ _ => check_cmp_result i o2
  | _ => is_supported_const o2 parent_type
  end.

Definition is_supported_funcs_cmp (term : Item) (ft parent_type : Functype) : bool :=
  is_and_or parent_type &&
  match arguments term with
  | [a0; a1] => is_valid_cmp_operand a0 a1 ft || is_valid_cmp_operand a1 a0 ft
  | _ => false
  end.

Definition is_supported_funcs_date (parent_type : Functype) : bool := negb (is_and_or parent_type).

Definition is_supported_funcs (term : Item) (parent_type : Functype) : bool :=
  match functype term with
  | None => false
  | Some ft =>
    match get_cond_func_type_map ft with
    | None => false
    | Some (_, ct) =>
      match ct with
      | CTC_CMP_EXPR => is_supported_funcs_cmp term ft parent_type
      | CTC_LOGIC_EXPR => is_supported_funcs_logic term parent_type
      | CTC_NULL_EXPR => is_supported_funcs_null term parent_type
      | CTC_LIKE_EXPR => is_supported_funcs_like term parent_type
      | CTC_ARITHMATIC_EXPR => is_supported_funcs_arithmetic term parent_type
      | CTC_DATE_EXPR => is_supported_funcs_date parent_type
      | _ => false
      end
    end
  end.

Definition is_supported_cache (term : Item) (parent_type : Functype) : bool :=
  negb (is_and_or parent_type) && bool_decide (i_result (item_info term) = INT_RESULT).

Definition is_supported_datatype_field (t : enum_field_types) : bool :=
  match t with
  | MYSQL_TYPE_JSON | MYSQL_TYPE_ENUM | MYSQL_TYPE_SET | MYSQL_TYPE_BIT | MYSQL_TYPE_NULL
  | MYSQL_TYPE_TYPED_ARRAY | MYSQL_TYPE_TINY_BLOB | MYSQL_TYPE_MEDIUM_BLOB
  | MYSQL_TYPE_LONG_BLOB | MYSQL_TYPE_BLOB => false
  | _ => true
  end.

Definition is_supported_field (term : Item) (parent_type : Functype) : bool :=
  negb (is_and_or parent_type) &&
  match term with
  | Item_field i _ col =>
    if col_gcol col || col_prefix_key col then false
    else if negb (is_supported_datatype_field (f_real_type (col_field col))) then false
    else if bool_decide (i_data_type i = MYSQL_TYPE_STRING) && (i_pad_char i =? 0) then false
    else if bool_decide (parent_type = ISNULL_FUNC) || bool_decide (parent_type = ISNOTNULL_FUNC)
    then true
    else match get_cond_func_type_map parent_type with
         | None => false
         | Some (_, ct) =>
           negb (bool_decide (ct = CTC_CMP_EXPR) && bool_decide (i_cmp i = INVALID_RESULT))
         end
  | _ => false
  end.

(** The columns [type] and [is_support] of [g_cond_push_map]. *)
Definition cond_is_support (term : Item) (parent_type : Functype) : bool :=
  match item_type term with
  | FUNC_ITEM => is_supported_funcs term parent_type
  | COND_ITEM => is_supported_conds term parent_type
  | FIELD_ITEM => is_supported_field term parent_type
  | INT_ITEM | REAL_ITEM | DECIMAL_ITEM | STRING_ITEM | NULL_ITEM =>
    is_supported_const term parent_type
  | CACHE_ITEM => is_supported_cache term parent_type
  | OTHER_ITEM => false
  end.

(** ** Splitting a condition *)

(** The pushed condition and the remainder; [None] is the null pointer. *)
Definition split := (option Item * option Item)%type.

Definition push_all_cond_item (term : Item) : split := (Some term, None).
Definition remain_all_cond_item (term : Item) : split := (None, Some term).

Definition opt_list {A} (o : option A) : list A := match o with Some a => [a] | None => [] end.

(** A single condition, or the list joined by [ft]; [None]: out of memory.
    [i] are the attributes of the new item. *)
Definition join_conds (mem_ok : bool) (i : info) (ft : Functype) (l : list Item) : option Item :=
  match l with
  | [c] => Some c
  | _ => if mem_ok then Some (Item_cond i ft l) else None
  end.

(** [None]: the allocation of a new item failed. *)
Definition create_and_conditions (mem_ok : bool) (cond : Item) (pushed remainder : list Item)
  : option split :=
  match remainder, pushed with
  | [], _ => Some (Some cond, None)
  | _, [] => Some (None, Some cond)
  | _, _ => p ← join_conds mem_ok (item_info cond) COND_AND_FUNC pushed;
            r ← join_conds mem_ok (item_info cond) COND_AND_FUNC remainder;
            Some (Some p, Some r)
  end.

Definition create_or_conditions (mem_ok : bool) (cond : Item) (pushed remainder : list Item)
  : option split :=
  match remainder with
  | [] => Some (Some cond, None)
  | _ => if mem_ok then Some (Some (Item_cond (item_info cond) COND_OR_FUNC pushed), Some cond)
         else None
  end.

(** [cond_push_term] with [push_func_item] and [cond_push_boolean_term]. *)
Fixpoint cond_push_term (mem_ok : bool) (term : Item) (parent_type : Functype) : split :=
  if negb (cond_is_support term parent_type) then remain_all_cond_item term else
  match term with
  | Item_func _ ft _ args =>                       (* push_func_item *)
    if (fix all_pushed (l : list Item) : bool :=
          match l with
          | [] => true
          | operand :: l =>
            match fst (cond_push_term mem_ok operand ft) with
            | None => false
            | Some _ => all_pushed l
            end
          end) args
    then push_all_cond_item term else remain_all_cond_item term
  | Item_cond _ ft args =>                         (* cond_push_boolean_term *)
    let is_and := bool_decide (ft = COND_AND_FUNC) in
    match (fix terms (l pushed remainder : list Item) : option (list Item * list Item) :=
             match l with
             | [] => Some (pushed, remainder)
             | operand :: l =>
               let '(p, r) := cond_push_term mem_ok operand ft in
               match p, is_and with
               | None, false => None
               | _, _ => terms l (pushed ++ opt_list p) (remainder ++ opt_list r)
               end
             end) args [] [] with
    | None => remain_all_cond_item term
    | Some (pushed, remainder) =>
      default (remain_all_cond_item term)
        (if is_and then create_and_conditions mem_ok term pushed remainder
         else create_or_conditions mem_ok term pushed remainder)
    end
  | _ => push_all_cond_item term
  end.

End Supported.

(** ** Filling the engine's conditions *)

(** [mysql_collate_num_to_ctc_type] *)
Definition mysql_collate_num_to_ctc_type : list (Z * Z) := [
  (3, 87); (4, 28); (5, 45); (6, 46); (7, 63); (8, 255); (9, 309); (10, 48); (13, 49); (12, 47);
  (14, 65); (15, 33); (16, 83); (45, 5); (46, 6); (63, 7); (255, 8); (309, 9); (48, 10); (49, 11);
  (47, 12); (11, 13); (65, 14); (28, 4); (87, 3); (33, 15); (83, 16); (76, 17)].

Definition ctc_get_column_cs (number : Z) : Z :=
  match list_find (fun e => fst e = number) mysql_collate_num_to_ctc_type with
  | Some (_, (_, v)) => v
  | None => number
  end.

(** The engine's memory: whether the n-th allocation succeeds, how many were
    made and how many buffers are live; and the shared conversion table. *)
Record mem := mk_mem {
  m_ok : nat -> bool; m_count : nat; m_live : Z; m_tab : aux_table }.

Definition ctc_alloc_buf (m : mem) : bool * mem :=
  (m_ok m (m_count m),
   mk_mem (m_ok m) (S (m_count m)) (m_live m + (if m_ok m (m_count m) then 1 else 0)) (m_tab m)).

Definition ctc_free_buf (m : mem) : mem := mk_mem (m_ok m) (m_count m) (m_live m - 1) (m_tab m).

Definition mem_tab (tab : aux_table) (m : mem) : mem :=
  mk_mem (m_ok m) (m_count m) (m_live m) tab.

(** The session. *)
Record session := mk_session {
  s_tz_offset : option Z;                       (* seconds of a TZ_OFFSET zone *)
  s_day_to_gmt : Z;                             (* TIME_to_gmt_sec of 1970-01-02 *)
  s_to_timeval : MYSQL_TIME -> (Z * Z) * Z;     (* timeval and warnings *)
  s_no_backslash : bool }.

Definition ctc_get_timezone_offset (s : session) : Z :=
  wrapS 16 (Z.quot (86400 - s_day_to_gmt s) 60).

(** A [memcpy] of the eight bytes of [my_ptr], which was cleared. *)
Definition my_ptr8 (bs : list Z) : list Z := take 8 (bs ++ replicate 8 0).

(** Status ([true] is [CT_SUCCESS]), node, the parent's function type (or
    the null pointer) and memory. *)
Definition filled := (bool * ctc_conds * option ctc_func_type * mem)%type.

Definition set_info (f : ctc_cond_field -> ctc_cond_field) (c : ctc_conds) : ctc_conds :=
  mk_conds (cond_type c) (func_type c) (f (field_info c)) (cond_list c).
Definition set_cond_type (ct : ctc_cond_type) (c : ctc_conds) : ctc_conds :=
  mk_conds ct (func_type c) (field_info c) (cond_list c).
Definition set_func_type (ft : ctc_func_type) (c : ctc_conds) : ctc_conds :=
  mk_conds (cond_type c) ft (field_info c) (cond_list c).
Definition set_list (l : option (list ctc_conds)) (c : ctc_conds) : ctc_conds :=
  mk_conds (cond_type c) (func_type c) (field_info c) l.

Definition set_null (b : bool) (f : ctc_cond_field) : ctc_cond_field :=
  mk_cond_field (field_no f) (field_type f) (field_size f) (field_value f) b (is_unsigned f)
    (collate_id f) (timezone f) (no_backslash f).
Definition set_value (ty : enum_ctc_ddl_field_types) (size : Z) (v : option (list Z))
    (f : ctc_cond_field) : ctc_cond_field :=
  mk_cond_field (field_no f) ty size v (null_value f) (is_unsigned f)
    (collate_id f) (timezone f) (no_backslash f).
Definition set_unsigned (b : bool) (f : ctc_cond_field) : ctc_cond_field :=
  mk_cond_field (field_no f) (field_type f) (field_size f) (field_value f) (null_value f) b
    (collate_id f) (timezone f) (no_backslash f).
Definition set_collate (z : Z) (f : ctc_cond_field) : ctc_cond_field :=
  mk_cond_field (field_no f) (field_type f) (field_size f) (field_value f) (null_value f)
    (is_unsigned f) z (timezone f) (no_backslash f).
Definition set_timezone (z : Z) (f : ctc_cond_field) : ctc_cond_field :=
  mk_cond_field (field_no f) (field_type f) (field_size f) (field_value f) (null_value f)
    (is_unsigned f) (collate_id f) z (no_backslash f).
Definition set_no_backslash (f : ctc_cond_field) : ctc_cond_field :=
  mk_cond_field (field_no f) (field_type f) (field_size f) (field_value f) (null_value f)
    (is_unsigned f) (collate_id f) (timezone f) true.
Definition set_field_no (z : Z) (f : ctc_cond_field) : ctc_cond_field :=
  mk_cond_field z (field_type f) (field_size f) (field_value f) (null_value f)
    (is_unsigned f) (collate_id f) (timezone f) (no_backslash f).

Section Fill.
Context {IT : ItemTypes} {M : MySQL}.

(** Stores [bytes] in a new buffer as the value of type [ty] and that size. *)
Definition fill_buffer (ty : enum_ctc_ddl_field_types) (bytes : list Z) (c : ctc_conds)
    (m : mem) : bool * ctc_conds * mem :=
  let size := Z.of_nat (length bytes) in
  let '(ok, m) := ctc_alloc_buf m in
  if ok then (true, set_info (set_value ty size (Some bytes)) c, m)
  else (false, set_info (set_value (field_type (field_info c)) size None) c, m).

Definition ctc_cond_fill_data_int (c : ctc_conds) (val : Z) (unsigned : bool) (m : mem)
  : bool * ctc_conds * mem :=
  let '(ok, c, m) := fill_buffer CTC_DDL_TYPE_LONGLONG (le_bytes 8 val) c m in
  (ok, if ok then set_info (set_unsigned unsigned) c else c, m).

Definition cond_fill_null (i : info) (c : ctc_conds) : ctc_conds :=
  set_info (fun f => set_value CTC_DDL_TYPE_NULL 0 (field_value f) (set_null (i_null i) f))
    (set_cond_type CTC_CONST_EXPR c).

Definition cond_fill_int (i : info) (val : Z) (unsigned : bool) (c : ctc_conds) (m : mem)
  : bool * ctc_conds * mem :=
  let c := set_info (set_null (i_null i)) (set_cond_type CTC_CONST_EXPR c) in
  if i_null i then (true, c, m) else ctc_cond_fill_data_int c val unsigned m.

Definition cond_fill_real (i : info) (val : Z) (c : ctc_conds) (m : mem)
  : bool * ctc_conds * mem :=
  let c := set_info (fun f => set_null (i_null i)
             (set_value CTC_DDL_TYPE_DOUBLE (field_size f) (field_value f) f))
             (set_cond_type CTC_CONST_EXPR c) in
  if i_null i then (true, c, m) else fill_buffer CTC_DDL_TYPE_DOUBLE (le_bytes 8 val) c m.

(** [data] is a buffer of the server, allocated and freed here. *)
Definition cond_fill_decimal (i : info) (d : my_decimal) (prec scale : Z) (c : ctc_conds) (m : mem)
  : option (bool * ctc_conds * mem) :=
  let c := set_info (fun f => set_null (i_null i)
             (set_value CTC_DDL_TYPE_DECIMAL (field_size f) (field_value f) f))
             (set_cond_type CTC_CONST_EXPR c) in
  if i_null i then Some (true, c, m) else
  let '(ok, m) := ctc_alloc_buf m in                       (* my_malloc *)
  if negb ok then Some (false, c, m) else
  let data := snd (my_decimal2binary d prec scale) in
  '(ret, bytes, _) ← decimal_mysql_to_cantian data prec scale 0;
  if negb (ret =? 0) then Some (false, c, ctc_free_buf m) else
  let '(ok, c, m) := fill_buffer CTC_DDL_TYPE_DECIMAL bytes c m in
  Some (ok, c, ctc_free_buf m).

(** A date literal without a time of day also weakens the comparison of its
    parent: the null pointer would be followed. *)
Definition refill_cond_type_date (lt : MYSQL_TIME) (ft : option ctc_func_type)
  : option (option ctc_func_type) :=
  if (t_hour lt =? 0) || (t_minute lt =? 0) || (t_second lt =? 0) || (t_second_part lt =? 0)
  then f ← ft;
       Some (Some (match f with
                   | CTC_LT_FUNC => CTC_LE_FUNC
                   | CTC_NE_FUNC => CTC_ISNOTNULL_FUNC
                   | f => f
                   end))
  else Some ft.

Definition warnings_expected (w : Z) : bool := (w =? 0) || (w =? MYSQL_TIME_WARN_TRUNCATED).

Definition ctc_fill_cond_field_data_date (s : session) (datatype : enum_field_types)
    (ft : option ctc_func_type) (lt : MYSQL_TIME) (c : ctc_conds) (m : mem) : option filled :=
  let c := set_cond_type CTC_CONST_EXPR c in
  let '(ok, m) := ctc_alloc_buf m in
  if negb ok
  then Some (false, set_info (set_value (field_type (field_info c)) 8 None) c, ft, m) else
  let done ty bs ft := Some (true, set_info (set_value ty 8 (Some bs)) c, ft, m) in
  let encode ty lt := v ← cm_encode_date (assign_mysql_date_detail false lt);
                      done ty (le_bytes 8 v) ft in
  match datatype with
  | MYSQL_TYPE_TIME =>
    done CTC_DDL_TYPE_TIME
      (my_ptr8 (my_time_packed_to_binary (TIME_to_longlong_time_packed lt) 6)) ft
  | MYSQL_TYPE_DATETIME =>
    done CTC_DDL_TYPE_DATETIME
      (my_ptr8 (my_datetime_packed_to_binary (TIME_to_longlong_datetime_packed lt) 6)) ft
  | MYSQL_TYPE_DATE =>
    ft ← refill_cond_type_date lt ft;
    done CTC_DDL_TYPE_DATE (my_ptr8 (my_date_to_binary lt)) ft
  | MYSQL_TYPE_TIMESTAMP =>
    if check_zero_time_ltime lt then encode CTC_DDL_TYPE_TIMESTAMP lt else
    let '(tm, w) := s_to_timeval s lt in
    if warnings_expected w then encode CTC_DDL_TYPE_TIMESTAMP (gmt_sec_to_TIME tm) else None
  | _ => encode CTC_DDL_TYPE_YEAR lt
  end.

(** For a function; the cast to [Item_int] of a YEAR value fails there. *)
Definition cond_fill_date (s : session) (i : info) (ft : option ctc_func_type) (c : ctc_conds)
    (m : mem) : option filled :=
  if decide (i_data_type i = MYSQL_TYPE_YEAR) then Some (false, c, ft, m) else
  match i_date i with
  | None => Some (false, c, ft, m)
  | Some lt =>
    let tz := match s_tz_offset s with
              | Some o => wrapS 16 (Z.quot o 60)
              | None => ctc_get_timezone_offset s
              end in
    ctc_fill_cond_field_data_date s (i_data_type i) ft lt (set_info (set_timezone tz) c) m
  end.

(** In a LIKE pattern of a multi-byte character set the leading zero bytes of
    [_] and [%] are dropped, in place; [cur] is a 16-bit unsigned integer. *)
Fixpoint drop_lead_bytes (data : list Z) (bytes i cur : Z) (n : nat) : option (list Z * Z) :=
  match n with
  | O => Some (data, cur)
  | S n =>
    c ← data !! Z.to_nat i;
    let cur := if (c =? 95) || (c =? 37) then wrapU 16 (cur - bytes) else cur in
    if (cur <? Z.of_nat (length data))
    then drop_lead_bytes (<[Z.to_nat cur := c]> data) bytes (i + 1) (wrapU 16 (cur + 1)) n
    else None
  end.

Definition update_value_by_charset (data : list Z) (bytes : Z) : option (list Z * Z) :=
  if bytes =? 0 then Some (data, Z.of_nat (length data))
  else drop_lead_bytes data bytes 0 0 (length data).

(** The size is a 16-bit integer. *)
Definition cond_fill_string (i : info) (str : list Z) (no_backslash : bool)
    (ft : option ctc_func_type) (c : ctc_conds) (m : mem) : option filled :=
  let nb f := if no_backslash then set_no_backslash f else f in
  let c := set_info (fun f => set_null (i_null i) (nb (set_collate (ctc_get_column_cs (i_collation i))
             (set_value CTC_DDL_TYPE_VARCHAR (field_size f) (field_value f) f))))
             (set_cond_type CTC_CONST_EXPR c) in
  if i_null i then Some (true, c, ft, m) else
  let size := wrapU 16 (Z.of_nat (length str)) in
  let data := take (Z.to_nat size) str in
  let '(ok, m) := ctc_alloc_buf m in
  if (0 <? size) && negb ok
  then Some (false, set_info (set_value CTC_DDL_TYPE_VARCHAR size None) c, ft, m) else
  f ← ft;
  '(data, size) ← (if decide (f = CTC_LIKE_FUNC)
                   then update_value_by_charset data (i_mbminlen i - 1) else Some (data, size));
  Some (true, set_info (set_value CTC_DDL_TYPE_VARCHAR size (if ok then Some data else None)) c,
        ft, m).

Definition cond_fill_cache (i : info) (has_value : bool) (int_value : option (Z * bool))
    (c : ctc_conds) (m : mem) : bool * ctc_conds * mem :=
  let c := set_info (set_null (negb has_value)) (set_cond_type CTC_CONST_EXPR c) in
  if negb has_value then (true, c, m)
  else if decide (i_result i = INT_RESULT) then
    match int_value with
    | Some (v, u) => ctc_cond_fill_data_int c v u m
    | None => (false, c, m)
    end
  else (false, c, m).

(** [INVALID_MAX_COLUMN] is [None]. *)
Definition ctc_get_column_by_field (fields : list column) (name : string) : option nat :=
  match list_find (fun col => same_name (col_name col) name = true) fields with
  | Some (k, _) => Some k
  | None => None
  end.

(** The new size, or [None] for an unknown class. *)
Definition ctc_set_cond_field_size (a : field_cnvrt_aux_t) (size : Z) : option Z :=
  let t := cantian_map_type a in
  if t =? CANTIAN_COL_BITS_4 then Some 4
  else if t =? CANTIAN_COL_BITS_8 then Some 8
  else if t =? CANTIAN_COL_BITS_VAR then Some size
  else None.

Definition cond_fill_field (fields : list column) (i : info) (name : string) (nb : bool)
    (c : ctc_conds) (m : mem) : option (bool * ctc_conds * mem) :=
  let c := set_cond_type CTC_FIELD_EXPR c in
  match ctc_get_column_by_field fields name with
  | None => Some (false, set_info (set_field_no 65535) c, m)
  | Some k =>
    col ← fields !! k;
    let f := col_field col in
    let type := if decide (f_type f = MYSQL_TYPE_FLOAT) then MYSQL_TYPE_DOUBLE else f_type f in
    '(tab, a) ← get_auxiliary_for_field_convert (m_tab m) f type;
    a ← a;
    let gcol_cnt := Z.of_nat (length (filter (fun col => col_gcol col = true) (take k fields))) in
    let c := set_info (fun f =>
               set_field_no (wrapU 16 (wrapU 16 (Z.of_nat k) - gcol_cnt))
                 (set_value (ddl_field_type a) (field_size f) (field_value f)
                    (set_collate (ctc_get_column_cs (i_collation i))
                       (if nb then set_no_backslash f else f)))) c in
    let m := mem_tab tab m in
    match ctc_set_cond_field_size a (field_size (field_info c)) with
    | Some n => Some (true, set_info (fun f => set_value (field_type f) n (field_value f) f) c, m)
    | None => Some (false, c, m)
    end
  end.

(** The types that [set_cond_types] gives to a node. *)
Definition set_cond_types (c : ctc_conds) (fc : Functype) : ctc_conds :=
  match get_cond_func_type_map fc with
  | Some (f, t) => set_cond_type t (set_func_type f c)
  | None => set_cond_type CTC_UNKNOWN_EXPR (set_func_type CTC_UNKNOWN_FUNC c)
  end.

(** The loops of [cond_fill_func] and [cond_fill_cond] over the arguments:
    each gets a cleared node at the end of the list of [c], which takes part
    in freeing [c] from then on.  [fill]: [dfs_fill_conds] of one argument;
    [up]: the children see the function type of [c]. *)
Definition fill_args (fill : Item -> option ctc_func_type -> mem -> option filled) (up : bool) :=
  fix go (args : list Item) (c : ctc_conds) (subs : list ctc_conds) (m : mem)
    : option (bool * ctc_conds * mem) :=
    match args with
    | [] => Some (true, set_list (Some subs) c, m)
    | a :: args =>
      let '(ok, m) := ctc_alloc_buf m in
      if negb ok then Some (false, set_list (Some subs) c, m) else
      '(ok, sub, ft, m) ← fill a (if up then Some (func_type c) else None) m;
      let c := match ft with Some f => if up then set_func_type f c else c | None => c end in
      if (ok : bool) then go args c (subs ++ [sub]) m
      else Some (false, set_list (Some (subs ++ [sub])) c, m)
    end.

(** Always on a cleared node. *)
Fixpoint dfs_fill_conds (s : session) (fields : list column) (t : Item) (ft : option ctc_func_type)
    (m : mem) : option filled :=
  let plain r := let '(ok, c, m) := (r : bool * ctc_conds * mem) in Some (ok, c, ft, m) in
  let nb := s_no_backslash s in
  match t with
  | Item_field i name _ => r ← cond_fill_field fields i name nb zero_conds m; plain r
  | Item_int i v u => plain (cond_fill_int i v u zero_conds m)
  | Item_float i v => plain (cond_fill_real i v zero_conds m)
  | Item_decimal i d prec scale => r ← cond_fill_decimal i d prec scale zero_conds m; plain r
  | Item_string i str => cond_fill_string i str nb ft zero_conds m
  | Item_null i => plain (true, cond_fill_null i zero_conds, m)
  | Item_cache i has v => plain (cond_fill_cache i has v zero_conds m)
  | Item_func i fc _ args =>
    let '(ok, m) := ctc_alloc_buf m in                       (* the list *)
    if negb ok then Some (false, zero_conds, ft, m) else
    let c := set_cond_types (set_list (Some []) zero_conds) fc in
    if decide (cond_type c = CTC_DATE_EXPR)
    then cond_fill_date s i ft (set_list None c) (ctc_free_buf m)
    else r ← fill_args (fun a ft m => dfs_fill_conds s fields a ft m) true args c [] m; plain r
  | Item_cond i fc args =>
    let '(ok, m) := ctc_alloc_buf m in
    if negb ok then Some (false, zero_conds, ft, m) else
    let c := set_cond_types (set_list (Some []) zero_conds) fc in
    r ← fill_args (fun a ft m => dfs_fill_conds s fields a ft m) false args c [] m; plain r
  | Item_other _ => Some (false, zero_conds, ft, m)
  end.

Definition ctc_fill_conds (s : session) (fields : list column) (t : Item) (m : mem)
  : option (bool * ctc_conds * mem) :=
  '(ok, c, _, m) ← dfs_fill_conds s fields t None m; Some (ok, c, m).

(** The buffers that [free_m_cond] frees. *)
Fixpoint blocks (c : ctc_conds) : Z :=
  1 + (match field_value (field_info c) with Some _ => 1 | None => 0 end) +
  match cond_list c with
  | Some l => 1 + (fix sum (l : list ctc_conds) : Z :=
                     match l with [] => 0 | c :: l => blocks c + sum l end) l
  | None => 0
  end.

Definition free_m_cond (c : ctc_conds) (m : mem) : mem :=
  mk_mem (m_ok m) (m_count m) (m_live m - blocks c) (m_tab m).

(** ** The handler *)

Record handler_conds := mk_hc {
  m_cond : option ctc_conds;
  m_pushed_conds : option Item;
  m_remainder_conds : option Item;
  pushed_cond : option Item }.

(** [cond_push]: the returned remainder and the handler's conditions, from a
    handler without conditions; [push_on]: engine condition push-down is
    switched on and the query is not recursive. *)
Definition cond_push (mem_ok push_on : bool) (s : session) (fields : list column) (cond : Item)
    (m : mem) : option (Item * handler_conds * mem) :=
  if negb push_on then Some (cond, mk_hc None None None None, m) else
  let '(p, r) := cond_push_term mem_ok cond COND_AND_FUNC in
  match p with
  | None => Some (cond, mk_hc None None r None, m)
  | Some q =>
    let '(ok, m) := ctc_alloc_buf m in
    if negb ok then Some (cond, mk_hc None p r None, m) else
    '(ok, c, m) ← ctc_fill_conds s fields q m;
    if (ok : bool) then Some (cond, mk_hc (Some c) p (Some cond) p, m)
    else Some (cond, mk_hc None None None None, free_m_cond c m)
  end.

(** [reset]: the end of the statement. *)
Definition reset_conds (h : handler_conds) (m : mem) : handler_conds * mem :=
  (mk_hc None None None (pushed_cond h),
   match m_cond h with Some c => free_m_cond c m | None => m end).

End Fill.

(** ** Induction on items *)

Lemma Item_ind_args (P : Item -> Prop)
    (Hfield : forall i name col, P (Item_field i name col))
    (Hint : forall i v u, P (Item_int i v u)) (Hfloat : forall i v, P (Item_float i v))
    (Hdec : forall i d p s, P (Item_decimal i d p s)) (Hstr : forall i s, P (Item_string i s))
    (Hnull : forall i, P (Item_null i)) (Hcache : forall i h v, P (Item_cache i h v))
    (Hfunc : forall i ft like args, Forall P args -> P (Item_func i ft like args))
    (Hcond : forall i ft args, Forall P args -> P (Item_cond i ft args))
    (Hother : forall i, P (Item_other i)) :
  forall t, P t.
Proof.
  fix IH 1. intros [i name col|i v u|i v|i d p s|i s|i|i h v|i ft like args|i ft args|i].
  - apply Hfield.
  - apply Hint.
  - apply Hfloat.
  - apply Hdec.
  - apply Hstr.
  - apply Hnull.
  - apply Hcache.
  - apply Hfunc. induction args as [|a args IHl]; constructor; [apply IH|exact IHl].
  - apply Hcond. induction args as [|a args IHl]; constructor; [apply IH|exact IHl].
  - apply Hother.
Qed.

(** ** The split *)

Section Split.
Context {IT : ItemTypes}.

(** Whether a row satisfies an item, known for AND and OR. *)
Definition row_semantics (acc : Item -> bool) : Prop :=
  (forall i args, acc (Item_cond i COND_AND_FUNC args) = forallb acc args) /\
  (forall i args, acc (Item_cond i COND_OR_FUNC args) = existsb acc args).

Definition acc_opt (acc : Item -> bool) (o : option Item) : bool :=
  match o with Some t => acc t | None => true end.

Definition is_and_ft (ft : Functype) : bool := bool_decide (ft = COND_AND_FUNC).

(** The loops of [cond_push_term] over the arguments. *)
Definition all_pushed (ok : bool) (ft : Functype) : list Item -> bool :=
  fix go (l : list Item) : bool :=
    match l with
    | [] => true
    | operand :: l => match fst (cond_push_term ok operand ft) with
                      | None => false
                      | Some _ => go l
                      end
    end.

Definition terms (ok : bool) (ft : Functype) :=
  fix go (l pushed remainder : list Item) : option (list Item * list Item) :=
    match l with
    | [] => Some (pushed, remainder)
    | operand :: l =>
      let '(p, r) := cond_push_term ok operand ft in
      match p, is_and_ft ft with
      | None, false => None
      | _, _ => go l (pushed ++ opt_list p) (remainder ++ opt_list r)
      end
    end.

Lemma push_func ok i ft like args parent :
  cond_push_term ok (Item_func i ft like args) parent
    = if cond_is_support (Item_func i ft like args) parent && all_pushed ok ft args
      then push_all_cond_item (Item_func i ft like args)
      else remain_all_cond_item (Item_func i ft like args).
Proof. cbn [cond_push_term]. destruct (cond_is_support _ _); done. Qed.

Lemma push_cond ok i ft args parent :
  cond_push_term ok (Item_cond i ft args) parent
    = if cond_is_support (Item_cond i ft args) parent then
        match terms ok ft args [] [] with
        | None => remain_all_cond_item (Item_cond i ft args)
        | Some (pushed, remainder) =>
          default (remain_all_cond_item (Item_cond i ft args))
            (if is_and_ft ft then create_and_conditions ok (Item_cond i ft args) pushed remainder
             else create_or_conditions ok (Item_cond i ft args) pushed remainder)
        end
      else remain_all_cond_item (Item_cond i ft args).
Proof. cbn [cond_push_term]. destruct (cond_is_support _ _); done. Qed.

(** A split that loses nothing: the two parts together are the condition,
    and a missing part means that the other one is all of it. *)
Definition good_split (acc : Item -> bool) (t : Item) (s : split) : Prop :=
  acc t = acc_opt acc (fst s) && acc_opt acc (snd s) /\
  (fst s = None -> snd s = Some t) /\ (snd s = None -> fst s = Some t).

Lemma good_push acc t : good_split acc t (push_all_cond_item t).
Proof. split; cbn; [by rewrite andb_true_r|done]. Qed.

Lemma good_remain acc t : good_split acc t (remain_all_cond_item t).
Proof. done. Qed.

#[local] Hint Resolve good_push good_remain : core.

Lemma terms_and acc ok ft l :
  is_and_ft ft = true ->
  Forall (fun t => forall parent, good_split acc t (cond_push_term ok t parent)) l ->
  forall pushed remainder, exists p r, terms ok ft l pushed remainder = Some (p, r) /\
    forallb acc p && forallb acc r = forallb acc pushed && forallb acc remainder && forallb acc l.
Proof.
  intros Hft. induction 1 as [|t l Ht Hl IH]; intros pushed remainder.
  { exists pushed, remainder. split; [done|]. by rewrite andb_true_r. }
  cbn [terms]. destruct (Ht ft) as [Hacc _]. destruct (cond_push_term ok t ft) as [p r].
  destruct (IH (pushed ++ opt_list p) (remainder ++ opt_list r)) as (p' & r' & Hgo & Heq).
  exists p', r'. rewrite Hft. split; [by destruct p|]. rewrite Heq, !forallb_app.
  cbn [forallb fst snd] in Hacc |- *. rewrite Hacc.
  destruct p as [p|], r as [r|]; cbn [opt_list forallb acc_opt];
    repeat (destruct (forallb acc _)); repeat (destruct (acc _)); done.
Qed.

Lemma terms_or acc ok ft l :
  is_and_ft ft = false ->
  Forall (fun t => forall parent, good_split acc t (cond_push_term ok t parent)) l ->
  forall pushed remainder p r, terms ok ft l pushed remainder = Some (p, r) ->
    (existsb acc pushed || existsb acc l = true -> existsb acc p = true).
Proof.
  intros Hft. induction 1 as [|t l Ht Hl IH]; intros pushed remainder p r Hgo.
  { injection Hgo as <- <-. by rewrite orb_false_r. }
  cbn [terms] in Hgo. destruct (Ht ft) as [Hacc _].
  destruct (cond_push_term ok t ft) as [[q|] r0]; rewrite ?Hft in Hgo; [|done].
  intros H. apply (IH _ _ _ _ Hgo). cbn [existsb opt_list fst acc_opt] in *.
  rewrite existsb_app. cbn [existsb]. rewrite Hacc in H.
  destruct (existsb acc pushed), (acc q), (existsb acc l), (acc_opt acc _); done.
Qed.

Lemma join_acc acc ok i l t :
  row_semantics acc -> join_conds ok i COND_AND_FUNC l = Some t -> acc t = forallb acc l.
Proof.
  intros [Hand _] H. unfold join_conds in H.
  destruct l as [|a [|b l]]; try (destruct ok; [|done]); injection H as <-; try apply Hand.
  cbn. by rewrite andb_true_r.
Qed.

Lemma split_good acc ok t parent :
  row_semantics acc -> good_split acc t (cond_push_term ok t parent).
Proof.
  intros Hsem. revert parent. induction t as [| | | | | | |i ft like args IH|i ft args IH|] using Item_ind_args;
    intros parent; try (cbn [cond_push_term]; destruct (cond_is_support _ _); by cbn).
  { rewrite push_func. destruct (_ && _); auto. }
  rewrite push_cond. destruct (cond_is_support _ _) eqn:Hs; [|auto].
  set (t := Item_cond i ft args) in *.
  assert (ft = COND_AND_FUNC \/ ft = COND_OR_FUNC) as [-> | ->].
  { cbn in Hs. unfold is_supported_conds in Hs. apply andb_prop in Hs as [_ Hs]. cbn in Hs.
    unfold is_and_or in Hs. apply orb_prop in Hs as [H|H]; apply bool_decide_eq_true in H; auto. }
  - change (is_and_ft COND_AND_FUNC) with true. cbv iota.
    destruct (terms_and acc ok COND_AND_FUNC args eq_refl IH [] []) as (p & r & -> & Heq).
    cbn [forallb andb] in Heq. destruct Hsem as [Hand Hor]. pose proof (Hand i args) as Ht. fold t in Ht.
    destruct r as [|r0 r]; [cbn; split; [by rewrite andb_true_r|done]|].
    destruct p as [|p0 p]; [auto|]. unfold create_and_conditions.
    destruct (join_conds ok _ _ (p0 :: p)) as [tp|] eqn:Hp; [|auto].
    destruct (join_conds ok _ _ (r0 :: r)) as [tr|] eqn:Hr; [|auto].
    apply (join_acc acc) in Hp; [|done]. apply (join_acc acc) in Hr; [|done].
    split; [|done]. cbn [mbind option_bind default fst snd acc_opt]. unfold id. cbn [fst snd acc_opt].
    by rewrite Hp, Hr, Heq.
  - change (is_and_ft COND_OR_FUNC) with false. cbv iota.
    destruct (terms ok COND_OR_FUNC args [] []) as [[p r]|] eqn:Hgo; [|auto].
    pose proof (terms_or acc ok COND_OR_FUNC args eq_refl IH [] [] p r Hgo) as H.
    unfold create_or_conditions. destruct r as [|r0 r]; [cbn; split; [by rewrite andb_true_r|done]|].
    destruct ok; [|auto]. destruct Hsem as [Hand Hor].
    split; [|done]. cbn [default fst snd acc_opt]. unfold id. cbn [fst snd acc_opt].
    rewrite Hor. unfold t. rewrite Hor. cbn [existsb orb] in H.
    destruct (existsb acc args); [by rewrite H|by rewrite andb_false_r].
Qed.

End Split.

(** ** Filling never fails unexpectedly *)

Definition is_date_func (fc : Functype) : bool :=
  match get_cond_func_type_map fc with Some (_, CTC_DATE_EXPR) => true | _ => false end.

(** What the server guarantees of items: AND and OR are conditions, a date
    function is a date, time or datetime literal, a decimal has a DECIMAL's
    precision and scale; and character sets with one-byte units. *)
Inductive server_item : Item -> Prop :=
  | si_field i name col : server_item (Item_field i name col)
  | si_int i v u : server_item (Item_int i v u)
  | si_float i v : server_item (Item_float i v)
  | si_decimal i d prec scale :
      1 <= prec <= 65 -> 0 <= scale <= 30 -> scale <= prec -> server_item (Item_decimal i d prec scale)
  | si_string i s : i_mbminlen i = 1 -> server_item (Item_string i s)
  | si_null i : server_item (Item_null i)
  | si_cache i h v : server_item (Item_cache i h v)
  | si_func i ft like args :
      is_and_or ft = false ->
      (is_date_func ft = true -> i_data_type i = MYSQL_TYPE_DATE \/ i_data_type i = MYSQL_TYPE_TIME
         \/ i_data_type i = MYSQL_TYPE_DATETIME) ->
      Forall server_item args -> server_item (Item_func i ft like args)
  | si_cond i ft args : Forall server_item args -> server_item (Item_cond i ft args)
  | si_other i : server_item (Item_other i).

(** Filling follows the pointer to the parent's function type only where
    there is one ([up]). *)
Fixpoint fillable (up : bool) (t : Item) : bool :=
  match t with
  | Item_string _ _ => up
  | Item_func _ fc _ args => if is_date_func fc then up else forallb (fillable true) args
  | Item_cond _ _ args => forallb (fillable false) args
  | _ => true
  end.

Lemma fillable_mono t : fillable false t = true -> fillable true t = true.
Proof. destruct t; cbn; try done. by destruct (is_date_func ft). Qed.

Section Pushed.
Context {IT : ItemTypes}.

Lemma push_whole ok t parent :
  snd (cond_push_term ok t parent) = None -> fst (cond_push_term ok t parent) = Some t.
Proof.
  destruct t as [| | | | | | |i ft like args|i ft args|];
    try (cbn [cond_push_term]; by destruct (cond_is_support _ _)).
  { rewrite push_func. by destruct (_ && _). }
  rewrite push_cond. destruct (cond_is_support _ _); [|done].
  destruct (terms _ _ _ _ _) as [[p r]|]; [|done].
  destruct (is_and_ft ft); unfold create_and_conditions, create_or_conditions.
  - destruct r as [|r0 r]; [done|]. destruct p as [|p0 p]; [done|].
    cbn [item_info]. destruct (join_conds ok i COND_AND_FUNC (p0 :: p)); [|by cbn].
    destruct (join_conds ok i COND_AND_FUNC (r0 :: r)); by cbn.
  - destruct r; [done|]. by destruct ok.
Qed.

(** Below a function nothing is split. *)
Lemma push_under_func ok t parent q :
  is_and_or parent = false -> fst (cond_push_term ok t parent) = Some q -> q = t.
Proof.
  intros Hp H. destruct t as [| | | | | | |i ft like args|i ft args|];
    try (cbn [cond_push_term] in H; destruct (cond_is_support _ _); [|done]; cbn in H; congruence).
  { rewrite push_func in H. destruct (_ && _); [|done]. cbn in H. congruence. }
  rewrite push_cond in H. unfold cond_is_support in H. cbn [item_type] in H.
  unfold is_supported_conds in H. by rewrite Hp in H.
Qed.

Lemma terms_pushed (Q : Item -> Prop) ok ft l :
  Forall (fun t => forall q, fst (cond_push_term ok t ft) = Some q -> Q q) l ->
  forall pushed remainder p r, terms ok ft l pushed remainder = Some (p, r) ->
    Forall Q pushed -> Forall Q p /\ (r = [] -> Forall Q l).
Proof.
  induction 1 as [|t l Ht Hl IH]; intros pushed remainder p r Hgo HQ.
  { injection Hgo as <- <-. done. }
  cbn [terms] in Hgo. pose proof (push_whole ok t ft) as Hw.
  destruct (cond_push_term ok t ft) as [pt rt] eqn:Hpush. cbn [fst snd] in Ht, Hw.
  assert (terms ok ft l (pushed ++ opt_list pt) (remainder ++ opt_list rt) = Some (p, r)) as Hgo'
    by (destruct pt; [done|]; by destruct (is_and_ft ft)).
  destruct (IH _ _ _ _ Hgo') as [Hp Hr].
  { apply Forall_app. split; [done|]. destruct pt; cbn; repeat constructor. by apply Ht. }
  split; [done|]. intros ->. constructor; [|by apply Hr].
  assert (forall l0 pu re, terms ok ft l0 pu re = Some (p, []) -> re = []) as Hnil.
  { induction l0 as [|t0 l0 IH0]; intros pu re H0; [by injection H0 as _ ->|].
    cbn [terms] in H0. destruct (cond_push_term ok t0 ft) as [p0 r0].
    assert (re ++ opt_list r0 = []) as Hre
      by (destruct p0; [|destruct (is_and_ft ft); [|done]]; by apply IH0 in H0).
    by apply app_eq_nil in Hre as [-> _]. }
  apply Hnil in Hgo'. apply app_eq_nil in Hgo' as [_ Hrt]. destruct rt; [done|]. auto.
Qed.

Definition push_ok (up : bool) (q : Item) : Prop := fillable up q = true /\ server_item q.

Lemma joined_ok ok i ft l q :
  join_conds ok i ft l = Some q -> Forall (push_ok false) l -> push_ok false q.
Proof.
  intros H Hl. unfold join_conds in H.
  assert (push_ok false (Item_cond i ft l)) as Hc.
  { split; [|constructor; eapply Forall_impl; [|exact Hl]; by intros ? [_ ?]].
    cbn. apply forallb_forall. intros x Hx. rewrite Forall_forall in Hl. by apply Hl. }
  destruct l as [|a [|b l]]; try (destruct ok; [|done]); injection H as <-; try done.
  by apply Forall_inv in Hl.
Qed.

Lemma pushed_ok ok t :
  server_item t -> forall parent q, fst (cond_push_term ok t parent) = Some q ->
  push_ok (negb (is_and_or parent)) q.
Proof.
  intros Hs. induction t as [i name col|i v u|i v|i d p s|i s|i|i h v|i ft like args IH|i ft args IH|i]
    using Item_ind_args; intros parent q Hq;
    try (cbn [cond_push_term] in Hq; destruct (cond_is_support _ _) eqn:Hsup; [|done];
         cbn in Hq; injection Hq as <-; split; [|done]; done).
  - cbn [cond_push_term] in Hq. destruct (cond_is_support _ _) eqn:Hsup; [|done].
    cbn in Hq. injection Hq as <-. split; [|done]. cbn.
    cbn in Hsup. unfold is_supported_const in Hsup. by apply andb_prop in Hsup as [? _].
  - rewrite push_func in Hq. destruct (cond_is_support _ _) eqn:Hsup; [|done].
    destruct (all_pushed ok ft args) eqn:Hall; [|done]. cbn in Hq. injection Hq as <-.
    split; [|done]. inversion Hs as [| | | | | | |? ? ? ? Hao Hdate Hargs| |]; subst. cbn [fillable].
    destruct (is_date_func ft) eqn:Hd.
    { unfold is_date_func in Hd. cbn in Hsup. unfold is_supported_funcs in Hsup. cbn [functype] in Hsup.
      destruct (get_cond_func_type_map ft) as [[f []]|]; try done. }
    clear Hs Hsup Hdate. revert IH Hall Hargs. induction args as [|a args IHa]; intros IH Hall Hargs; [done|].
    cbn [all_pushed] in Hall. destruct (fst (cond_push_term ok a ft)) as [b|] eqn:Hb; [|done].
    cbn [forallb]. apply andb_true_intro. split.
    + pose proof (push_under_func _ _ _ _ Hao Hb) as ->.
      destruct (Forall_inv IH (Forall_inv Hargs) ft a Hb) as [Hf _]. by rewrite Hao in Hf.
    + apply IHa; [by apply Forall_inv_tail in IH|done|by apply Forall_inv_tail in Hargs].
  - rewrite push_cond in Hq. destruct (cond_is_support _ _) eqn:Hsup; [|done].
    assert (is_and_or parent = true /\ is_and_or ft = true) as [-> Hao].
    { cbn in Hsup. unfold is_supported_conds in Hsup. by apply andb_prop in Hsup. }
    inversion Hs as [| | | | | | | |? ? ? Hargs|]; subst.
    destruct (terms ok ft args [] []) as [[p r]|] eqn:Hgo; [|done].
    destruct (terms_pushed (push_ok false) ok ft args) with (3 := Forall_nil_2 (push_ok false)) (2 := Hgo)
      as [Hp Hr].
    { apply Forall_forall. intros a Ha b Hb. rewrite Forall_forall in IH, Hargs.
      pose proof (IH a Ha (Hargs a Ha) ft b Hb) as H. by rewrite Hao in H. }
    assert (Forall (push_ok false) args -> push_ok false (Item_cond i ft args)) as Hwhole.
    { intros Hl. split; [|done]. cbn. apply forallb_forall. intros x Hx.
      rewrite Forall_forall in Hl. by apply Hl. }
    cbn [negb]. destruct (is_and_ft ft); unfold create_and_conditions, create_or_conditions in Hq.
    + destruct r as [|r0 r]; [injection Hq as <-; auto|]. destruct p as [|p0 p]; [done|].
      cbn [item_info] in Hq.
      destruct (join_conds ok i COND_AND_FUNC (p0 :: p)) as [tp|] eqn:Hj; [|done].
      destruct (join_conds ok i COND_AND_FUNC (r0 :: r)); [|done]. injection Hq as <-.
      by apply (joined_ok _ _ _ _ _ Hj).
    + destruct r as [|r0 r]; [injection Hq as <-; auto|]. destruct ok; [|done]. injection Hq as <-.
      split; [cbn; apply forallb_forall; intros x Hx; rewrite Forall_forall in Hp; by apply Hp|].
      constructor. eapply Forall_impl; [|exact Hp]. by intros ? [_ ?].
Qed.

End Pushed.

Section Filled.
Context {IT : ItemTypes} {M : MySQL} {DC : DecimalCodec M}.

Fixpoint sum_blocks (l : list ctc_conds) : Z :=
  match l with [] => 0 | c :: l => blocks c + sum_blocks l end.

Lemma sum_blocks_app l1 l2 : sum_blocks (l1 ++ l2) = sum_blocks l1 + sum_blocks l2.
Proof. induction l1 as [|c l1 IH]; cbn [app sum_blocks]; [done|]. rewrite IH. lia. Qed.

Definition value_block (c : ctc_conds) : Z :=
  match field_value (field_info c) with Some _ => 1 | None => 0 end.

Lemma blocks_eq c :
  blocks c = 1 + value_block c
             + match cond_list c with Some l => 1 + sum_blocks l | None => 0 end.
Proof. by destruct c. Qed.

(** A node without a value and a list. *)
Definition bare (c : ctc_conds) : Prop := field_value (field_info c) = None /\ cond_list c = None.

(** Filling a node of its own: the new buffers are those of the node. *)
Definition fills (m : mem) (r : bool * ctc_conds * mem) : Prop :=
  let '(_, c, m') := r in
  m_live m' = m_live m + blocks c - 1 /\ good_table (m_tab m') /\ cond_list c = None.

Lemma alloc_live m ok m' :
  ctc_alloc_buf m = (ok, m') -> m_live m' = m_live m + (if ok then 1 else 0) /\ m_tab m' = m_tab m.
Proof. unfold ctc_alloc_buf. by intros [= <- <-]. Qed.

Lemma fill_buffer_fills ty bs c m :
  bare c -> good_table (m_tab m) -> fills m (fill_buffer ty bs c m).
Proof.
  intros [Hv Hl] Ht. unfold fill_buffer, fills.
  destruct (ctc_alloc_buf m) as [ok m'] eqn:Ha. apply alloc_live in Ha as [Hm Htab].
  destruct ok; rewrite blocks_eq; unfold value_block; cbn; rewrite Hl, Htab; repeat split; try done; lia.
Qed.

Lemma bare_fills ok c m : bare c -> good_table (m_tab m) -> fills m (ok, c, m).
Proof.
  intros [Hv Hl] Ht. unfold fills. rewrite blocks_eq. unfold value_block. rewrite Hv, Hl.
  repeat split; [lia|done].
Qed.

Lemma fill_int_fills c v u m :
  bare c -> good_table (m_tab m) -> fills m (ctc_cond_fill_data_int c v u m).
Proof.
  intros Hc Ht. unfold ctc_cond_fill_data_int.
  pose proof (fill_buffer_fills CTC_DDL_TYPE_LONGLONG (le_bytes 8 v) c m Hc Ht) as H.
  destruct (fill_buffer _ _ _ _) as [[ok c'] m']. unfold fills in *. destruct ok; [|done].
  destruct H as (H1 & H2 & H3). rewrite blocks_eq in *. unfold value_block in *. cbn. done.
Qed.

Lemma decimal_total d prec scale len :
  1 <= prec <= 65 -> 0 <= scale <= 30 -> scale <= prec ->
  (exists v, snd (my_decimal2binary v prec scale) = d) ->
  exists r, decimal_mysql_to_cantian d prec scale len = Some r.
Proof.
  intros Hp Hs Hsp Hd. unfold decimal_mysql_to_cantian.
  pose proof (binary2my_decimal_ok d prec scale Hp Hs Hsp Hd) as Hok.
  destruct (binary2my_decimal d prec scale) as [ret m] eqn:E. cbn [fst snd] in Hok.
  unfold E_DEC_OK. destruct (ret =? 0) eqn:Er; cbn [negb]; [|eauto]. zb.
  destruct (Hok Er) as (Hwf & _). destruct (mydec_to_dec4_spec m Hwf) as (d4 & -> & _).
  cbn [mbind option_bind]. eauto.
Qed.

Lemma fill_decimal_fills i d prec scale c m :
  1 <= prec <= 65 -> 0 <= scale <= 30 -> scale <= prec -> bare c -> good_table (m_tab m) ->
  exists r, cond_fill_decimal i d prec scale c m = Some r /\ fills m r.
Proof.
  intros Hp Hs Hsp [Hv Hl] Ht. unfold cond_fill_decimal. cbv zeta.
  match goal with |- context [if i_null i then Some (true, ?x, m) else _] => set (c1 := x) end.
  assert (bare c1) as Hc1 by (by split).
  destruct (i_null i). { eexists. split; [done|]. by apply bare_fills. }
  destruct (ctc_alloc_buf m) as [ok m1] eqn:Ha. apply alloc_live in Ha as [Hm Htab].
  destruct ok; cbn [negb].
  2:{ eexists. split; [done|]. pose proof (bare_fills false c1 m1 Hc1) as H. rewrite Htab in H.
      specialize (H Ht). unfold fills in *. rewrite Htab. destruct H as (H & _ & H3).
      repeat split; [lia|done|done]. }
  destruct (decimal_total (snd (my_decimal2binary d prec scale)) prec scale 0 Hp Hs Hsp
    (ex_intro _ d eq_refl)) as [[[ret bytes] len] ->]. cbn [mbind option_bind].
  destruct (negb (ret =? 0)).
  { eexists. split; [done|]. pose proof (bare_fills false c1 m1 Hc1) as H. rewrite Htab in H.
    specialize (H Ht). unfold fills in *. cbn [m_live m_tab ctc_free_buf]. rewrite Htab.
    destruct H as (H & _ & H3). repeat split; [lia|done|done]. }
  pose proof (fill_buffer_fills CTC_DDL_TYPE_DECIMAL bytes c1 m1 Hc1) as H. rewrite Htab in H.
  specialize (H Ht). destruct (fill_buffer _ _ _ _) as [[ok2 c2] m2]. eexists. split; [done|].
  unfold fills in *. cbn [m_live m_tab ctc_free_buf]. destruct H as (H1 & H2 & H3).
  repeat split; [lia|done|done].
Qed.

Lemma aux_found f tab :
  supported_field f -> good_table tab ->
  exists tab' a, get_auxiliary_for_field_convert tab f
      (if decide (f_type f = MYSQL_TYPE_FLOAT) then MYSQL_TYPE_DOUBLE else f_type f)
    = Some (tab', Some a) /\ good_table tab'.
Proof.
  intros Hs Ht. destruct (decide (f_type f = MYSQL_TYPE_FLOAT)).
  - unfold get_auxiliary_for_field_convert.
    change (ty_lt MYSQL_TYPE_DOUBLE MYSQL_TYPE_INVALID) with true. cbv iota.
    change (Z.to_nat (type_code MYSQL_TYPE_DOUBLE)) with 5%nat.
    pose proof (Forall2_length Ht) as Hl.
    destruct (lookup_lt_is_Some_2 tab 5) as [a Ha]; [rewrite <- Hl; cbn; lia|].
    rewrite Ha. cbn [mbind option_bind]. eauto.
  - destruct (aux_entry tab f Hs Ht) as (tab' & a & Hg & Ht' & _). eauto.
Qed.

Lemma fill_field_fills fields i name nb c m :
  Forall (fun col => supported_field (col_field col)) fields -> bare c -> good_table (m_tab m) ->
  exists r, cond_fill_field fields i name nb c m = Some r /\ fills m r.
Proof.
  intros Hf [Hv Hl] Ht. unfold cond_fill_field, ctc_get_column_by_field.
  assert (bare (set_info (set_field_no 65535) (set_cond_type CTC_FIELD_EXPR c))) as Hb by (by split).
  destruct (list_find _ fields) as [[k col]|] eqn:Hfind.
  2:{ eexists. split; [done|]. by apply bare_fills. }
  apply list_find_Some in Hfind as (Hk & _ & _). rewrite Hk. cbn [mbind option_bind].
  destruct (aux_found (col_field col) (m_tab m)) as (tab & a & Ha & Htab); [|done|].
  { rewrite Forall_forall in Hf. apply Hf. apply list_elem_of_In. by apply list_elem_of_lookup_2 in Hk. }
  rewrite Ha. cbn [mbind option_bind].
  match goal with |- context [ctc_set_cond_field_size a (field_size (field_info ?x))] => set (c1 := x) end.
  assert (bare c1) as Hc1.
  { split; [|done]. unfold c1. cbn [set_info set_cond_type field_info set_field_no field_value
      set_value set_collate]. by destruct nb. }
  destruct (ctc_set_cond_field_size a _).
  - eexists. split; [done|]. apply (bare_fills true _ (mem_tab tab m)); [|done].
    destruct Hc1. by split.
  - eexists. split; [done|]. by apply (bare_fills false c1 (mem_tab tab m)).
Qed.

(** A node filled with the parent's function type at hand. *)
Definition fills_ft (ft : option ctc_func_type) (m : mem) (r : filled) : Prop :=
  let '(_, c, ft', m') := r in
  m_live m' = m_live m + blocks c - 1 /\ good_table (m_tab m') /\ (ft = None -> ft' = None).

Lemma fills_plain ft m r :
  fills m r -> let '(ok, c, m') := r in fills_ft ft m (ok, c, ft, m').
Proof. destruct r as [[ok c] m']. by intros (H1 & H2 & _). Qed.

Lemma date_fills s i ft c m :
  (i_data_type i = MYSQL_TYPE_DATE \/ i_data_type i = MYSQL_TYPE_TIME
   \/ i_data_type i = MYSQL_TYPE_DATETIME) ->
  is_Some ft -> bare c -> good_table (m_tab m) ->
  exists r, cond_fill_date s i ft c m = Some r /\ fills_ft ft m r.
Proof.
  intros Hty [f ->] Hc Ht.
  assert (forall c0, bare c0 -> fills_ft (Some f) m (false, c0, Some f, m)) as Hfail.
  { intros c0 H0. by apply (fills_plain (Some f) m (false, c0, m)), bare_fills. }
  unfold cond_fill_date.
  destruct (decide _) as [Hy|_]; [rewrite Hy in Hty; by repeat destruct Hty as [Hty|Hty]|].
  destruct (i_date i) as [lt|]; [|eauto].
  set (c1 := set_info _ c). assert (bare c1) as [Hv1 Hl1] by (by destruct Hc; split).
  clearbody c1. unfold ctc_fill_cond_field_data_date.
  destruct (ctc_alloc_buf m) as [ok m1] eqn:Ha. apply alloc_live in Ha as [Hm Htab].
  destruct ok; cbn [negb].
  2:{ eexists. split; [reflexivity|]. unfold fills_ft. rewrite blocks_eq. unfold value_block. cbn.
      rewrite Hl1, Htab. repeat split; [lia|done|done]. }
  assert (forall ty bs g, fills_ft (Some f) m
    (true, set_info (set_value ty 8 (Some bs)) (set_cond_type CTC_CONST_EXPR c1), Some g, m1)) as Hok.
  { intros ty bs g. unfold fills_ft. rewrite blocks_eq. unfold value_block. cbn.
    rewrite Hl1, Htab. repeat split; [lia|done|done]. }
  destruct Hty as [-> | [-> | ->]]; [|eauto|eauto].
  unfold refill_cond_type_date. destruct (_ || _); cbn [mbind option_bind]; eauto.
Qed.

Lemma charset_one data : update_value_by_charset data 0 = Some (data, Z.of_nat (length data)).
Proof. done. Qed.

Lemma string_fills i str nb ft c m :
  i_mbminlen i = 1 -> is_Some ft -> bare c -> good_table (m_tab m) ->
  exists r, cond_fill_string i str nb ft c m = Some r /\ fills_ft ft m r.
Proof.
  intros Hmb [f ->] [Hv Hl] Ht. unfold cond_fill_string. cbv zeta.
  match goal with |- context [if i_null i then Some (true, ?x, _, m) else _] => set (c1 := x) end.
  assert (bare c1) as Hc1.
  { split; [|done]. unfold c1. cbn [set_info set_cond_type field_info]. by destruct nb. }
  clearbody c1. destruct (i_null i).
  { eexists. split; [reflexivity|]. by apply (fills_plain (Some f) m (true, c1, m)), bare_fills. }
  destruct (ctc_alloc_buf m) as [ok m1] eqn:Ha. apply alloc_live in Ha as [Hm Htab].
  destruct Hc1 as [Hv1 Hl1].
  destruct (_ && _) eqn:Hfail.
  { apply andb_prop in Hfail as [_ Hok]. destruct ok; [done|]. eexists. split; [reflexivity|].
    unfold fills_ft. rewrite blocks_eq. unfold value_block. cbn. rewrite Hl1, Htab.
    repeat split; [lia|done|done]. }
  cbn [mbind option_bind]. rewrite Hmb. change (1 - 1) with 0. rewrite charset_one.
  set (data := take _ str). set (size := wrapU 16 _).
  assert (exists d z, (if decide (f = CTC_LIKE_FUNC) then Some (data, Z.of_nat (length data))
    else Some (data, size)) = Some (d, z)) as (d & z & ->) by (destruct (decide _); eauto).
  cbn [mbind option_bind]. eexists. split; [reflexivity|].
  unfold fills_ft. rewrite blocks_eq. unfold value_block. cbn. rewrite Hl1, Htab.
  repeat split; [destruct ok; lia|done|done].
Qed.

(** The loop over the arguments. *)
Lemma args_fill fill up args :
  Forall (fun a => forall ft m, (up = true -> is_Some ft) -> good_table (m_tab m) ->
            exists r, fill a ft m = Some r /\ fills_ft ft m r) args ->
  forall c subs m, good_table (m_tab m) -> field_value (field_info c) = None ->
  exists ok c' m', fill_args fill up args c subs m = Some (ok, c', m') /\
    m_live m' = m_live m + blocks c' - 2 - sum_blocks subs /\ good_table (m_tab m').
Proof.
  induction 1 as [|a args Ha Hargs IH]; intros c subs m Ht Hv; cbn [fill_args].
  { eexists _, _, _. split; [reflexivity|]. rewrite blocks_eq. unfold value_block. cbn.
    rewrite Hv. split; [lia|done]. }
  destruct (ctc_alloc_buf m) as [ok m1] eqn:Hm. apply alloc_live in Hm as [Hm Htab].
  destruct ok; cbn [negb].
  2:{ eexists _, _, _. split; [reflexivity|]. rewrite blocks_eq. unfold value_block. cbn.
      rewrite Hv, Htab. split; [lia|done]. }
  destruct (Ha (if up then Some (func_type c) else None) m1) as ([[[ok sub] ft'] m2] & -> & H1 & H2 & H3).
  { intros ->. eauto. } { by rewrite Htab. }
  cbn [mbind option_bind].
  set (c1 := match ft' with Some f => if up then set_func_type f c else c | None => c end).
  assert (field_value (field_info c1) = None) as Hv1 by (unfold c1; by destruct ft', up).
  destruct ok.
  - destruct (IH c1 (subs ++ [sub]) m2 H2 Hv1) as (ok & c' & m' & Hgo & Hl & Htab').
    exists ok, c', m'. split; [exact Hgo|]. rewrite sum_blocks_app in Hl. cbn [sum_blocks] in Hl.
    split; [lia|done].
  - eexists _, _, _. split; [reflexivity|]. rewrite blocks_eq. unfold value_block. cbn.
    rewrite Hv1, sum_blocks_app. cbn [sum_blocks]. split; [lia|done].
Qed.

Lemma set_types_info c fc :
  field_info (set_cond_types c fc) = field_info c /\ cond_list (set_cond_types c fc) = cond_list c /\
  (cond_type (set_cond_types c fc) = CTC_DATE_EXPR <-> is_date_func fc = true).
Proof.
  unfold set_cond_types, is_date_func. destruct (get_cond_func_type_map fc) as [[f []]|]; by cbn.
Qed.

Lemma dfs_fill_sound s fields t :
  Forall (fun col => supported_field (col_field col)) fields -> server_item t ->
  forall ft m, fillable (bool_decide (is_Some ft)) t = true -> good_table (m_tab m) ->
  exists r, dfs_fill_conds s fields t ft m = Some r /\ fills_ft ft m r.
Proof.
  intros Hf Hs. assert (bare zero_conds) as Hz by done.
  induction t as [i name col|i v u|i v|i d p sc|i str|i|i h v|i fc like args IH|i fc args IH|i]
    using Item_ind_args; intros ft m Hfill Ht; cbn [dfs_fill_conds].
  - destruct (fill_field_fills fields i name (s_no_backslash s) zero_conds m Hf Hz Ht)
      as ([[ok c] m'] & -> & H). cbn [mbind option_bind]. eexists. split; [reflexivity|].
    by apply (fills_plain ft m (ok, c, m')).
  - pose proof (fun H => fill_int_fills (set_info (set_null (i_null i)) (set_cond_type CTC_CONST_EXPR
      zero_conds)) v u m H Ht) as H. unfold cond_fill_int.
    destruct (i_null i).
    { eexists. split; [reflexivity|]. by apply (fills_plain ft m (true, _, m)), bare_fills. }
    specialize (H ltac:(done)). destruct (ctc_cond_fill_data_int _ _ _ _) as [[ok c] m'].
    eexists. split; [reflexivity|]. by apply (fills_plain ft m (ok, c, m')).
  - unfold cond_fill_real. cbv zeta.
    match goal with |- context [if i_null i then (true, ?x, m) else _] => set (c1 := x) end.
    assert (bare c1) as Hc1 by done. destruct (i_null i).
    { eexists. split; [reflexivity|]. by apply (fills_plain ft m (true, _, m)), bare_fills. }
    pose proof (fill_buffer_fills CTC_DDL_TYPE_DOUBLE (le_bytes 8 v) c1 m Hc1 Ht) as H.
    destruct (fill_buffer _ _ _ _) as [[ok c] m']. eexists. split; [reflexivity|].
    by apply (fills_plain ft m (ok, c, m')).
  - inversion Hs as [| | |? ? ? ? Hp Hsc Hsp| | | | | |]; subst.
    destruct (fill_decimal_fills i d p sc zero_conds m Hp Hsc Hsp Hz Ht) as ([[ok c] m'] & -> & H).
    cbn [mbind option_bind]. eexists. split; [reflexivity|]. by apply (fills_plain ft m (ok, c, m')).
  - inversion Hs; subst. cbn in Hfill. apply bool_decide_eq_true in Hfill. by apply string_fills.
  - eexists. split; [reflexivity|]. by apply (fills_plain ft m (true, _, m)), bare_fills.
  - unfold cond_fill_cache.
    assert (forall ok c, bare c -> fills_ft ft m (ok, c, ft, m)) as Hb
      by (intros ok c H; by apply (fills_plain ft m (ok, c, m)), bare_fills).
    destruct (negb h); [eexists; split; [reflexivity|]; by apply Hb|].
    destruct (decide _); [|eexists; split; [reflexivity|]; by apply Hb].
    destruct v as [[v u]|]; [|eexists; split; [reflexivity|]; by apply Hb].
    pose proof (fun c H => fill_int_fills c v u m H Ht) as H.
    match goal with |- context [ctc_cond_fill_data_int ?c v u m] => specialize (H c ltac:(done)) end.
    destruct (ctc_cond_fill_data_int _ _ _ _) as [[ok c] m'].
    eexists. split; [reflexivity|]. by apply (fills_plain ft m (ok, c, m')).
  - inversion Hs as [| | | | | | |? ? ? ? Hao Hdate Hargs| |]; subst. cbn [fillable] in Hfill.
    destruct (ctc_alloc_buf m) as [ok m1] eqn:Ha. apply alloc_live in Ha as [Hm Htab].
    destruct ok; cbn [negb].
    2:{ eexists. split; [reflexivity|]. unfold fills_ft. rewrite Htab. cbn. repeat split; [lia|done|done]. }
    destruct (set_types_info (set_list (Some []) zero_conds) fc) as (Hinfo & Hlist & Hdt).
    destruct (decide _) as [Hct|Hct].
    + apply Hdt in Hct. rewrite Hct in Hfill. apply bool_decide_eq_true in Hfill.
      destruct (date_fills s i ft (set_list None (set_cond_types (set_list (Some []) zero_conds) fc))
        (ctc_free_buf m1) (Hdate Hct) Hfill) as ([[[ok c] ft'] m'] & -> & H1 & H2 & H3).
      { split; [cbn; by rewrite Hinfo|done]. } { cbn. by rewrite Htab. }
      eexists. split; [reflexivity|]. unfold fills_ft. cbn [m_live ctc_free_buf] in H1.
      repeat split; [lia|done|done].
    + destruct (is_date_func fc) eqn:Hd; [by destruct Hct; apply Hdt|].
      destruct (args_fill (fun a ft m => dfs_fill_conds s fields a ft m) true args) with
        (c := set_cond_types (set_list (Some []) zero_conds) fc) (subs := @nil ctc_conds) (m := m1)
        as (ok & c' & m' & Hgo & Hl & Ht'); [|by rewrite Htab|by rewrite Hinfo|].
      { apply Forall_forall. intros a Hin ft0 m0 Hup Ht0. rewrite Forall_forall in IH, Hargs.
        apply IH; [done|auto| |done]. rewrite (bool_decide_eq_true_2 _ (Hup eq_refl)).
        rewrite forallb_forall in Hfill. by apply Hfill. }
      rewrite Hgo. cbn [mbind option_bind]. eexists. split; [reflexivity|].
      unfold fills_ft. cbn [sum_blocks] in Hl. repeat split; [lia|done|done].
  - inversion Hs as [| | | | | | | |? ? ? Hargs|]; subst. cbn [fillable] in Hfill.
    destruct (ctc_alloc_buf m) as [ok m1] eqn:Ha. apply alloc_live in Ha as [Hm Htab].
    destruct ok; cbn [negb].
    2:{ eexists. split; [reflexivity|]. unfold fills_ft. rewrite Htab. cbn. repeat split; [lia|done|done]. }
    destruct (set_types_info (set_list (Some []) zero_conds) fc) as (Hinfo & Hlist & _).
    destruct (args_fill (fun a ft m => dfs_fill_conds s fields a ft m) false args) with
      (c := set_cond_types (set_list (Some []) zero_conds) fc) (subs := @nil ctc_conds) (m := m1)
      as (ok & c' & m' & Hgo & Hl & Ht'); [|by rewrite Htab|by rewrite Hinfo|].
    { apply Forall_forall. intros a Hin ft0 m0 _ Ht0. rewrite Forall_forall in IH, Hargs.
      rewrite forallb_forall in Hfill. apply IH; [done|auto| |done].
      destruct (bool_decide (is_Some ft0)); [apply fillable_mono|]; by apply Hfill. }
    rewrite Hgo. cbn [mbind option_bind]. eexists. split; [reflexivity|].
    unfold fills_ft. cbn [sum_blocks] in Hl. repeat split; [lia|done|done].
  - eexists. split; [reflexivity|]. by apply (fills_plain ft m (false, _, m)), bare_fills.
Qed.

End Filled.

(** ** Properties *)

(** C35: splitting loses nothing: a row satisfies the condition exactly when
    it satisfies the pushed part and the remainder; a part that is missing is
    no restriction, and then the other part is the whole condition.  Holds
    for every evaluation of the items under which AND and OR of conditions
    are what they are, and also when allocations fail. *)
Theorem cond_push_term_split (IT : ItemTypes) (acc : Item -> bool) (mem_ok : bool) (t : Item)
    (parent : Functype) (Hsem : row_semantics acc) :
  let '(pushed, remainder) := cond_push_term mem_ok t parent in
  acc t = acc_opt acc pushed && acc_opt acc remainder /\
  (pushed = None -> remainder = Some t) /\ (remainder = None -> pushed = Some t).
Proof.
  pose proof (split_good acc mem_ok t parent Hsem) as H. by destruct (cond_push_term _ _ _).
Qed.

(** C38: for conditions whose strings have a character set with one-byte units
    (not UCS-2, UTF-16 or UTF-32, whose LIKE patterns can be stored outside
    of the buffer: [like_pattern_units]) and columns of the types that the
    connector supports: [cond_push] never fails, that is, translating a pushed
    condition follows no null pointer and fails no assertion, whichever
    allocations fail; and what it returns is always the whole condition, which
    the server goes on evaluating.  If the engine gets a condition, every row
    that the query wants satisfies the item it was made from; if not, the
    handler holds no engine condition.  Every buffer is freed, at once after an
    error or else by the reset at the end of the statement. *)
Theorem cond_push_sound (IT : ItemTypes) (M : MySQL) (DC : DecimalCodec M)
    (mem_ok push_on : bool) (s : session) (fields : list column) (cond : Item) (m : mem)
    (Hf : Forall (fun col => supported_field (col_field col)) fields)
    (Hs : server_item cond) (Ht : good_table (m_tab m)) :
  exists h m', cond_push mem_ok push_on s fields cond m = Some (cond, h, m') /\
    m_live (snd (reset_conds h m')) = m_live m /\
    match m_cond h with
    | None => pushed_cond h = None
    | Some c => exists q, pushed_cond h = Some q /\
        forall acc, row_semantics acc -> acc cond = true -> acc q = true
    end.
Proof.
  unfold cond_push. destruct push_on; cbn [negb]; [|eexists _, _; split; done].
  destruct (cond_push_term mem_ok cond COND_AND_FUNC) as [p r] eqn:Hp.
  destruct p as [q|]; [|eexists _, _; split; done].
  destruct (ctc_alloc_buf m) as [ok m1] eqn:Ha. apply alloc_live in Ha as [Hm Htab].
  destruct ok; cbn [negb].
  2:{ eexists _, _. split; [reflexivity|]. cbn. split; [lia|done]. }
  destruct (pushed_ok mem_ok cond Hs COND_AND_FUNC q) as [Hfill Hq]; [by rewrite Hp|].
  destruct (dfs_fill_sound s fields q Hf Hq None m1 Hfill) as ([[[ok c] ft] m2] & Hdfs & Hl & Ht2 & _);
    [by rewrite Htab|].
  unfold ctc_fill_conds. rewrite Hdfs. cbn [mbind option_bind].
  destruct ok; (eexists _, _; split; [reflexivity|]; cbn; split; [lia|]); [|done].
  exists q. split; [done|]. intros acc Hsem Hacc.
  pose proof (split_good acc mem_ok cond COND_AND_FUNC Hsem) as [H _]. rewrite Hp, Hacc in H.
  symmetry in H. apply andb_prop in H as [H _]. exact H.
Qed.

(** The generated columns of the table's prefix that are stored. *)
Definition stored_gcols (fields : list column) : Z :=
  Z.of_nat (length (filter (fun col => col_gcol col = true /\ f_virtual (col_field col) = false) fields)).

Lemma gcol_count fields :
  Forall (fun col => f_virtual (col_field col) = true -> col_gcol col = true) fields ->
  Z.of_nat (length (filter (fun col => col_gcol col = true) fields)) + 
  Z.of_nat (length (filter (fun f => f_virtual f = false) (map col_field fields)))
    = Z.of_nat (length fields) + stored_gcols fields.
Proof.
  unfold stored_gcols. induction 1 as [|col fields Hv H IH]; [done|]. cbn [map].
  rewrite !filter_cons. cbn [length].
  destruct (col_gcol col), (f_virtual (col_field col)); try (by specialize (Hv eq_refl));
    repeat destruct (decide _) as [?|?]; cbn [length]; try lia; exfalso; naive_solver.
Qed.

(** The column number of a pushed condition is the place of the column
    among the stored columns, by which the engine knows it, less the number
    of stored generated columns before it: it is right exactly if there is
    none, since these are not counted although the engine stores them. *)
Theorem cond_field_position (IT : ItemTypes) (fields : list column) (i : info) (name : string)
    (nb : bool) (m : mem) (c : ctc_conds) (m' : mem) (k : nat) (tab : table)
    (Hname : ctc_get_column_by_field fields name = Some k)
    (Hn : Z.of_nat (length fields) < 65536) (Htab : t_field tab = map col_field fields)
    (Hg : Forall (fun col => f_virtual (col_field col) = true -> col_gcol col = true) fields)
    (Hok : cond_fill_field fields i name nb zero_conds m = Some (true, c, m')) :
  cond_type c = CTC_FIELD_EXPR /\
  field_no (field_info c) = stored_position tab (Z.of_nat k) - stored_gcols (take k fields).
Proof.
  unfold cond_fill_field in Hok. rewrite Hname in Hok.
  destruct (fields !! k) as [col|] eqn:Hk; [|done]. cbn [mbind option_bind] in Hok.
  destruct (get_auxiliary_for_field_convert _ _ _) as [[tb [a|]]|]; [|done|done].
  cbn [mbind option_bind] in Hok. destruct (ctc_set_cond_field_size _ _); [|done].
  injection Hok as <- <-. cbn. split; [done|].
  pose proof (lookup_lt_Some _ _ _ Hk) as Hlt.
  pose proof (gcol_count (take k fields) (Forall_take _ k _ Hg)) as Hc.
  pose proof (length_filter (fun col => col_gcol col = true) (take k fields)) as Hl.
  rewrite length_take in Hl, Hc. unfold stored_position. rewrite Nat2Z.id, Htab, firstn_map.
  rewrite (wrapU_small 16 (Z.of_nat k)) by lia. rewrite wrapU_small; lia.
Qed.

(** What a two-byte character of a LIKE pattern becomes. *)
Definition squash (u : Z * Z) : list Z :=
  if (u.2 =? 95) || (u.2 =? 37) then [u.2] else [u.1; u.2].
Definition units (us : list (Z * Z)) : list Z := flat_map (fun u => [u.1; u.2]) us.

Lemma length_units us : length (units us) = (2 * length us)%nat.
Proof. induction us; cbn [units flat_map app length]; [done|]. unfold units in IHus. lia. Qed.

Lemma store_past (data : list Z) (cur i : nat) (c : Z) :
  (cur <= i)%nat -> drop (S i) (<[cur := c]> data) = drop (S i) data.
Proof. intros H. apply drop_insert_lt. lia. Qed.

Lemma store_prefix (data : list Z) (cur : nat) (c : Z) :
  (cur < length data)%nat -> take (S cur) (<[cur := c]> data) = take cur data ++ [c].
Proof.
  intros H. erewrite take_S_r by (by apply list_lookup_insert_eq).
  by rewrite take_insert_ge by lia.
Qed.

Lemma drop_next (data : list Z) (i : nat) (c : Z) l :
  drop i data = c :: l -> data !! i = Some c /\ (i < length data)%nat /\ drop (S i) data = l.
Proof.
  intros H. assert (data !! i = Some c) as Hi
    by (rewrite <- (Nat.add_0_r i), <- lookup_drop, H; done).
  split; [done|]. split; [by apply lookup_lt_Some in Hi|].
  rewrite <- Nat.add_1_r, <- drop_drop, H. done.
Qed.

Lemma drop_lead_units us data (i cur : nat) :
  Forall (fun u => u.1 <> 37 /\ u.1 <> 95) us ->
  drop i data = units us -> (cur <= i)%nat -> Z.of_nat (length data) < 65536 ->
  exists data', drop_lead_bytes data 1 (Z.of_nat i) (Z.of_nat cur) (2 * length us)
      = Some (data', Z.of_nat (cur + length (flat_map squash us))) /\
    take (cur + length (flat_map squash us)) data' = take cur data ++ flat_map squash us.
Proof.
  intros Hus. revert data i cur. induction Hus as [|[h l] us [Hh1 Hh2] Hus IH]; intros data i cur Hd Hle Hn.
  { exists data. cbn [length flat_map]. by rewrite Nat.add_0_r, app_nil_r. }
  cbn [fst] in Hh1, Hh2. cbn [units flat_map app fst snd] in Hd. fold (units us) in Hd.
  destruct (drop_next _ _ _ _ Hd) as (Hi & Hlt & Hd1).
  destruct (drop_next _ _ _ _ Hd1) as (Hi1 & Hlt1 & Hd2).
  replace (2 * length ((h, l) :: us))%nat with (S (S (2 * length us))) by (cbn [length]; lia).
  cbn [drop_lead_bytes]. rewrite Nat2Z.id, Hi. cbn [mbind option_bind].
  rewrite (proj2 (Z.eqb_neq h 95)), (proj2 (Z.eqb_neq h 37)) by done. cbn [orb].
  rewrite (proj2 (Z.ltb_lt _ _)) by lia. rewrite Nat2Z.id.
  rewrite (wrapU_small 16 (Z.of_nat cur + 1)) by lia.
  replace (Z.to_nat (Z.of_nat i + 1)) with (S i) by lia.
  rewrite list_lookup_insert_ne by lia. rewrite Hi1. cbn [mbind option_bind].
  rewrite length_insert. cbn [flat_map]. unfold squash at 1 3 5. cbn [fst snd].
  set (wild := (l =? 95) || (l =? 37)).
  pose proof (store_past data cur i h Hle) as Hp1.
  destruct wild.
  - rewrite (wrapU_small 16 (Z.of_nat cur + 1 - 1)) by lia.
    rewrite (proj2 (Z.ltb_lt _ _)) by lia.
    replace (Z.to_nat (Z.of_nat cur + 1 - 1)) with cur by lia.
    replace (Z.of_nat cur + 1 - 1 + 1) with (Z.of_nat (S cur)) by lia.
    rewrite (wrapU_small 16 (Z.of_nat (S cur))) by lia.
    rewrite list_insert_insert_eq.
    replace (Z.of_nat i + 1 + 1) with (Z.of_nat (S (S i))) by lia.
    destruct (IH (<[cur:=l]> data) (S (S i)) (S cur)) as (data' & -> & Ht);
      [by rewrite store_past by lia|lia|by rewrite length_insert|].
    exists data'. cbn [length app]. split; [do 2 f_equal; lia|].
    rewrite store_prefix in Ht by lia. rewrite <- app_assoc in Ht. cbn [app] in Ht.
    rewrite <- Ht. f_equal. lia.
  - rewrite (proj2 (Z.ltb_lt _ _)) by lia.
    replace (Z.to_nat (Z.of_nat cur + 1)) with (S cur) by lia.
    replace (Z.of_nat cur + 1 + 1) with (Z.of_nat (S (S cur))) by lia.
    rewrite (wrapU_small 16 (Z.of_nat (S (S cur)))) by lia.
    replace (Z.of_nat i + 1 + 1) with (Z.of_nat (S (S i))) by lia.
    destruct (IH (<[S cur:=l]> (<[cur:=h]> data)) (S (S i)) (S (S cur))) as (data' & -> & Ht);
      [by rewrite !store_past by lia|lia|by rewrite !length_insert|].
    exists data'. cbn [length app]. split; [do 2 f_equal; lia|].
    rewrite store_prefix, store_prefix, <- !app_assoc in Ht by (rewrite ?length_insert; lia).
    cbn [app] in Ht. rewrite <- Ht. f_equal. lia.
Qed.

(** In a LIKE pattern of a two-byte character set every character whose
    low byte is that of [%] or [_] becomes this one byte, the others keep both
    bytes, if no high byte is 0x25 or 0x5F; but a pattern that starts with such
    a high byte, a character outside of ASCII, makes the index wrap around
    and the store go outside of the buffer. *)
Theorem like_pattern_units (us : list (Z * Z)) (h : Z) (rest : list Z)
    (Hus : Forall (fun u => u.1 <> 37 /\ u.1 <> 95) us)
    (Hn : Z.of_nat (length (units us)) < 65536)
    (Hh : h = 37 \/ h = 95) (Hr : Z.of_nat (length (h :: rest)) < 65536) :
  (exists data size, update_value_by_charset (units us) 1 = Some (data, Z.of_nat size) /\
     take size data = flat_map squash us) /\
  update_value_by_charset (h :: rest) 1 = None.
Proof.
  unfold update_value_by_charset. cbn [Z.eqb]. split.
  - destruct (drop_lead_units us (units us) 0 0 Hus) as (data & Hd & Ht); [done|done|done|].
    rewrite length_units. exists data, (length (flat_map squash us)). split; [exact Hd|exact Ht].
  - change (length (h :: rest)) with (S (length rest)). cbn [drop_lead_bytes].
    change ((h :: rest) !! Z.to_nat 0) with (Some h). cbn [mbind option_bind].
    assert ((h =? 95) || (h =? 37) = true) as -> by (destruct Hh as [-> | ->]; done).
    change (wrapU 16 (0 - 1)) with 65535. rewrite (proj2 (Z.ltb_ge _ _)); [done|]. cbn [length] in Hr |- *. lia.
Qed.

(** ** An instance of the server's predicates, for the witnesses *)

Definition demo_types : ItemTypes := {|
  is_integer_type t := match t with
    | MYSQL_TYPE_TINY | MYSQL_TYPE_SHORT | MYSQL_TYPE_LONG | MYSQL_TYPE_LONGLONG
    | MYSQL_TYPE_INT24 => true | _ => false end;
  is_numeric_type t := match t with
    | MYSQL_TYPE_TINY | MYSQL_TYPE_SHORT | MYSQL_TYPE_LONG | MYSQL_TYPE_LONGLONG
    | MYSQL_TYPE_INT24 | MYSQL_TYPE_FLOAT | MYSQL_TYPE_DOUBLE | MYSQL_TYPE_NEWDECIMAL => true
    | _ => false end;
  is_string_type t := match t with
    | MYSQL_TYPE_VARCHAR | MYSQL_TYPE_STRING | MYSQL_TYPE_VAR_STRING => true | _ => false end;
  is_temporal_type t := match t with
    | MYSQL_TYPE_TIME | MYSQL_TYPE_DATE | MYSQL_TYPE_DATETIME | MYSQL_TYPE_TIMESTAMP
    | MYSQL_TYPE_NEWDATE => true | _ => false end;
  non_zero_date t := negb ((t_year t =? 0) && (t_month t =? 0) && (t_day t =? 0));
  same_name a b := bool_decide (a = b);
  my_date_to_binary t := le_bytes 3 (t_day t + 32 * t_month t + 512 * t_year t) |}.

(** Attributes of an integer operand. *)
Definition demo_info : info :=
  mk_info INT_RESULT INT_RESULT MYSQL_TYPE_LONG true false 63 1 32 None.
Definition demo_long (i : nat) (virtual : bool) : Field :=
  mk_field MYSQL_TYPE_LONG MYSQL_TYPE_LONG (1 + 4 * Z.of_nat i) 4 4 0 true 0 1 virtual false 0 0
    false false false false 32 0 0 0 i.

(** [a INT], a generated column [g INT] and [b INT]. *)
Definition demo_columns (virtual : bool) : list column := [
  mk_column "a" (demo_long 0 false) false false;
  mk_column "g" (demo_long 1 virtual) true false;
  mk_column "b" (demo_long 2 false) false false].
Definition demo_col (name : string) : Item :=
  Item_field demo_info name (mk_column name (demo_long 0 false) false false).
Definition demo_eq (name : string) (v : Z) : Item :=
  Item_func demo_info EQ_FUNC None [demo_col name; Item_int demo_info v false].
Definition demo_cond : Item :=
  Item_cond demo_info COND_AND_FUNC [demo_eq "b" 5; Item_other demo_info].
Definition demo_mem : mem := mk_mem (fun _ => true) 0 7 g_field_cnvrt_aux_array.
Definition demo_session : session := mk_session None 86400 (fun _ => ((0, 0), 0)) false.

(** A row in which the column [b] is 5; AND and OR are what they are. *)
Fixpoint demo_acc (t : Item) : bool :=
  match t with
  | Item_cond _ COND_AND_FUNC args => forallb demo_acc args
  | Item_cond _ COND_OR_FUNC args => existsb demo_acc args
  | Item_func _ EQ_FUNC _ [_; Item_int _ v _] => v =? 5
  | _ => false
  end.

Lemma demo_acc_semantics : row_semantics demo_acc.
Proof. done. Qed.

Lemma demo_server_item : server_item demo_cond.
Proof. repeat constructor; done. Qed.

Lemma demo_columns_supported v :
  Forall (fun col => supported_field (col_field col)) (demo_columns v).
Proof. repeat constructor; vm_compute; discriminate. Qed.

(** The pushed part of the condition is [b = 5], the remainder the other term. *)
Lemma cond_push_term_split_witness :
  cond_push_term (IT := demo_types) true demo_cond COND_AND_FUNC
    = (Some (demo_eq "b" 5), Some (Item_other demo_info)) /\
  let '(p, r) := cond_push_term (IT := demo_types) true demo_cond COND_AND_FUNC in
  demo_acc demo_cond = acc_opt demo_acc p && acc_opt demo_acc r /\
  (p = None -> r = Some demo_cond) /\ (r = None -> p = Some demo_cond).
Proof.
  split; [by vm_compute|].
  apply (cond_push_term_split demo_types demo_acc true demo_cond COND_AND_FUNC demo_acc_semantics).
Defined.

Lemma cond_push_sound_witness :
  exists h m', cond_push (IT := demo_types) (M := demo) true true demo_session (demo_columns true)
      demo_cond demo_mem = Some (demo_cond, h, m') /\
    m_live (snd (reset_conds h m')) = m_live demo_mem /\
    match m_cond h with
    | None => pushed_cond h = None
    | Some c => exists q, pushed_cond h = Some q /\
        forall acc, row_semantics acc -> acc demo_cond = true -> acc q = true
    end.
Proof.
  apply (cond_push_sound demo_types demo demo_decimal_codec true true demo_session
    (demo_columns true) demo_cond demo_mem (demo_columns_supported true) demo_server_item).
  unfold good_table, demo_mem. cbn [m_tab]. reflexivity.
Defined.

(** After a stored generated column the number is one too small: [b] is
    stored third (2) and pushed as the second column (1), which is [g]. *)
Lemma cond_field_position_witness :
  exists c m', cond_fill_field (IT := demo_types) (demo_columns false) demo_info "b" false
      zero_conds demo_mem = Some (true, c, m') /\
    field_no (field_info c) = 1 /\
    stored_position (mk_table (map col_field (demo_columns false)) 1 true false) 2 = 2 /\
    cond_type c = CTC_FIELD_EXPR /\
    field_no (field_info c)
      = stored_position (mk_table (map col_field (demo_columns false)) 1 true false) 2
        - stored_gcols (take 2 (demo_columns false)).
Proof.
  destruct (cond_fill_field (IT := demo_types) (demo_columns false) demo_info "b" false
      zero_conds demo_mem) as [[[ok c] m']|] eqn:H; [|by vm_compute in H].
  destruct ok; [|by vm_compute in H].
  assert (cond_type c = CTC_FIELD_EXPR /\ field_no (field_info c)
    = stored_position (mk_table (map col_field (demo_columns false)) 1 true false) 2
        - stored_gcols (take 2 (demo_columns false))) as Hc.
  { apply (cond_field_position demo_types (demo_columns false) demo_info "b" false demo_mem c m' 2%nat
      (mk_table (map col_field (demo_columns false)) 1 true false)); [done|done|done| |done].
    by repeat constructor. }
  exists c, m'. split; [done|]. split; [by rewrite (proj2 Hc)|]. split; [by vm_compute|exact Hc].
Defined.

(** The pattern U+0125 [%] becomes [%%]; U+2530 makes the store go out of bounds. *)
Lemma like_pattern_units_witness :
  flat_map squash [(1, 37); (0, 37)] = [37; 37] /\
  (exists data size, update_value_by_charset (units [(1, 37); (0, 37)]) 1 = Some (data, Z.of_nat size) /\
     take size data = flat_map squash [(1, 37); (0, 37)]) /\
  update_value_by_charset [37; 48] 1 = None.
Proof.
  split; [done|]. apply (like_pattern_units [(1, 37); (0, 37)] 37 [48]); [|done|by left|done].
  by repeat constructor.
Defined.

End CondPush.
