(* ===== verification/Handler.v ===== *)
(** * Handler: what all handler methods share

    The return codes of handler methods, the attributes of a session thread
    and of the server that the connector reads, the predicates of [ha_ctc.cc]
    on them that decide whether a call goes to the engine, the flags sent with
    row operations ([ctc_get_dml_flag]) and the treatment of every engine
    answer ([check_error_code_to_mysql]). *)

From S2P Require Import Prelude CtcError.
Import CtcError.

Module Handler.

(** ** Return codes *)

(** [HA m] is a converted engine code ([HA HA_OK] is 0), the others are codes
    that [ha_ctc.cc] returns by itself; [RAW e] is an engine code returned
    without conversion, [STATUS z] another result passed on. *)
Inductive ha_code :=
  | HA (m : mysql_errno)
  | HA_ERR_END_OF_FILE | HA_ERR_KEY_NOT_FOUND | HA_ERR_OUT_OF_MEM
  | HA_ERR_RECORD_IS_THE_SAME | HA_ERR_AUTOINC_ERANGE
  | RAW (e : ct_errno_t) | STATUS (z : Z).

#[export] Instance ha_code_eq_dec : EqDecision ha_code.
Proof. solve_decision. Defined.

Definition OK : ha_code := HA HA_OK.

(** [convert_ctc_error_code_to_mysql] without the messages. *)
Definition convert (e : ct_errno_t) : ha_code := HA (fst (convert_ctc_error_code_to_mysql e)).

Lemma convert_ok e : convert e = OK <-> e = CT_SUCCESS.
Proof.
  unfold convert, OK. split; [|by intros ->].
  intros H. injection H. by destruct e.
Qed.

(** ** Threads *)

Inductive enum_sql_command :=
  | SQLCOM_SELECT | SQLCOM_INSERT | SQLCOM_UPDATE | SQLCOM_DELETE | SQLCOM_REPLACE
  | SQLCOM_REPLACE_SELECT | SQLCOM_CREATE_TABLE | SQLCOM_ALTER_TABLE | SQLCOM_DROP_TABLE
  | SQLCOM_LOCK_TABLES | SQLCOM_SAVEPOINT | SQLCOM_FLUSH | SQLCOM_OTHER (code : Z).

#[export] Instance enum_sql_command_eq_dec : EqDecision enum_sql_command.
Proof. solve_decision. Defined.

Inductive enum_tx_isolation :=
  | ISO_READ_UNCOMMITTED | ISO_READ_COMMITTED | ISO_REPEATABLE_READ | ISO_SERIALIZABLE.

#[export] Instance enum_tx_isolation_eq_dec : EqDecision enum_tx_isolation.
Proof. solve_decision. Defined.

(** What the connector reads of a [THD] and of its session context's
    [set_flag]. *)
Record THD := mk_thd {
  thread_id : Z;
  query_id : Z;
  sql_command : enum_sql_command;
  is_exec_started : bool;              (* lex->is_exec_started() *)
  is_ignore : bool;                    (* lex->is_ignore() *)
  no_fk_checks : bool;                 (* option_bits & OPTION_NO_FOREIGN_KEY_CHECKS *)
  dd_update_context : bool;            (* option_bits & OPTION_DD_UPDATE_CONTEXT *)
  in_sub_stmt : bool;                  (* in_sub_stmt != 0 *)
  in_trigger : bool;                   (* in_sub_stmt & SUB_STMT_TRIGGER *)
  auto_increment_increment : Z;
  auto_increment_offset : Z;
  alter_copy : option bool;            (* alter_info; requested_algorithm is COPY *)
  is_recursive : bool;                 (* the query has a recursive block *)
  in_multi_stmt_transaction_mode : bool;
  tx_isolation : enum_tx_isolation;
  set_flag : Z }.

(** Variables of the server process. *)
Record server := mk_server {
  opt_initialize : bool;
  opt_initialize_insecure : bool;
  mysqld_server_started : bool;
  upgrade_force : bool;                (* METADATA_NORMALIZED and opt_upgrade_mode *)
  ctc_concurrent_ddl : bool;
  ctc_select_prefetch : bool;
  ctc_autoinc_lock_mode : Z }.

Definition CTC_DDL_LOCAL_ENABLED : Z := 0.    (* the numbers of the bits *)
Definition CTC_DDL_ENABLED : Z := 1.
Definition CTC_REPLAY_DDL : Z := 2.

Definition has_flag (thd : THD) (bit : Z) : bool := Z.testbit (set_flag thd) bit.

Definition is_initialize (sv : server) : bool := opt_initialize sv || opt_initialize_insecure sv.
Definition is_starting (sv : server) : bool :=
  negb (mysqld_server_started sv) && negb (is_initialize sv).
Definition is_work_flow (sv : server) : bool :=
  mysqld_server_started sv && negb (is_initialize sv).

Definition is_create_table_check (thd : THD) : bool :=
  bool_decide (sql_command thd = SQLCOM_CREATE_TABLE) && is_exec_started thd.
Definition is_lock_table (thd : THD) : bool := bool_decide (sql_command thd = SQLCOM_LOCK_TABLES).

(** [name]: if a table name is given, whether it has the prefix of temporary
    files. *)
Definition is_alter_table_copy (thd : THD) (name : option bool) : bool :=
  match alter_copy thd with
  | Some true => match name with None => true | Some prefixed => prefixed end
  | _ => false
  end.

Definition ddl_enabled_normal (sv : server) (thd : THD) : bool :=
  negb (has_flag thd CTC_DDL_LOCAL_ENABLED)
  && (ctc_concurrent_ddl sv || has_flag thd CTC_DDL_ENABLED).
Definition engine_skip_ddl (sv : server) (thd : THD) : bool :=
  has_flag thd CTC_DDL_LOCAL_ENABLED && ctc_concurrent_ddl sv.
Definition engine_ddl_passthru (sv : server) (thd : THD) : bool :=
  if is_initialize sv || upgrade_force sv then false
  else is_initialize sv || negb (mysqld_server_started sv) || has_flag thd CTC_DDL_LOCAL_ENABLED.
Definition is_replay_ddl (system_db : bool) (thd : THD) : bool :=
  if system_db then false
  else has_flag thd CTC_DDL_LOCAL_ENABLED && has_flag thd CTC_REPLAY_DDL.

(** ** Flags of row operations *)

(** A bit field of [w] bits keeps the low bits of what is stored. *)
Record dml_flag_t := mk_dml {
  ignore : bool; no_foreign_key_check : bool; no_cascade_check : bool; dd_update : bool;
  is_replace : bool; dup_update : bool; no_logging : bool; auto_inc_used : bool;
  has_explicit_autoinc : bool; auto_increase : bool; autoinc_lock_mode : Z;
  auto_inc_step : Z; auto_inc_offset : Z; write_through : bool; is_create_select : bool }.

(** [write_through] is set by the caller. *)
Definition ctc_get_dml_flag (sv : server) (thd : THD)
    (replace auto_inc explicit_autoinc dup : bool) : dml_flag_t :=
  mk_dml (is_ignore thd) (no_fk_checks thd) false (dd_update_context thd) replace dup
    (in_sub_stmt thd && in_trigger thd) auto_inc explicit_autoinc false
    (wrapU 2 (ctc_autoinc_lock_mode sv)) (wrapU 16 (auto_increment_increment thd))
    (wrapU 16 (auto_increment_offset thd)) false (is_create_table_check thd).

(** ** Engine answers *)

(** Whether the transaction is marked to be rolled back, and the answer as it
    is used from then on. *)
Definition check_error_code_to_mysql (thd : THD) (ret : ct_errno_t) : bool * ct_errno_t :=
  if decide (ret = ERR_DEAD_LOCK) then (true, ret)
  else if negb (no_fk_checks thd) then (false, ret)
  else match ret with
       | ERR_CONSTRAINT_VIOLATED_NO_FOUND | ERR_ROW_IS_REFERENCED => (false, CT_SUCCESS)
       | _ => (false, ret)
       end.

(** The answer of the engine as a handler method returns it. *)
Definition checked (thd : THD) (ret : ct_errno_t) : ct_errno_t :=
  snd (check_error_code_to_mysql thd ret).

(** Not one of the errors of foreign key checks. *)
Definition no_fk_error (ret : ct_errno_t) : Prop :=
  ret <> ERR_CONSTRAINT_VIOLATED_NO_FOUND /\ ret <> ERR_ROW_IS_REFERENCED.

Lemma checked_id thd ret : no_fk_error ret -> checked thd ret = ret.
Proof.
  intros [H1 H2]. unfold checked, check_error_code_to_mysql.
  destruct (decide _); [done|]. destruct (negb _); [done|]. by destruct ret.
Qed.

Lemma checked_success thd : checked thd CT_SUCCESS = CT_SUCCESS.
Proof. unfold checked, check_error_code_to_mysql. simpl. by destruct (no_fk_checks thd). Qed.

#[export] Hint Resolve checked_success : ctc.

End Handler.
