(* ===== verification/Prefetch.v ===== *)
(** * Prefetch: table and index scans

    Models the reads of [ha_ctc.cc] that go through the engine's cursor:
    [rnd_next], [index_fetch], [position] and the buffer between them
    ([set_prefetch_buffer], [prefetch_and_fill_record_buffer],
    [fill_record_to_rec_buffer], [reset_rec_buf],
    [set_max_col_index_4_reading]).  A read-only scan fetches up to 100 engine
    records at once into [m_prefetch_buf] and converts them, some at a time,
    into the server's [Record_buffer]; every call returns one of them.

    The abstract specification is the list of the engine's rows that are
    still to come: [rnd_next] returns its head or the end of the file. *)

From S2P Require Import Prelude CtcError Handler.
Import CtcError Handler.

Module Prefetch.

Definition MAX_RECORD_SIZE : Z := 64 * 1024.
Definition MAX_RECORD_BUFFER_SIZE_CTC : Z := 64 * 1024.
Definition MAX_PREFETCH_REC_NUM : Z := 100.
Definition max_prefetch_num : Z := MAX_PREFETCH_REC_NUM.
Definition INVALID_MAX_UINT32 : Z := 2 ^ 32 - 1.

(** ** Interfaces *)

(** The server's [Record_buffer] of record images [R]. *)
Class RecordBuffer (R : Type) := {
  record_buffer : Type;
  new_record_buffer : Z -> record_buffer;                (* for so many records *)
  rb_max_records : record_buffer -> Z;
  rb_records : record_buffer -> Z;
  rb_is_out_of_range : record_buffer -> bool;
  rb_record : record_buffer -> Z -> R;
  rb_add_record : record_buffer -> record_buffer;        (* the slot [rb_records] *)
  rb_store : record_buffer -> Z -> R -> record_buffer;   (* through a pointer to a slot *)
  rb_clear : record_buffer -> record_buffer;
  rb_reset : record_buffer -> record_buffer;
  rb_set_out_of_range : record_buffer -> bool -> record_buffer }.

Class RecordBufferLaws {R} (RB : RecordBuffer R) : Prop := {
  rb_new_view n : 0 <= n ->
    rb_max_records (new_record_buffer n) = n /\ rb_records (new_record_buffer n) = 0;
  rb_add_view b : rb_records b < rb_max_records b ->
    rb_max_records (rb_add_record b) = rb_max_records b /\
    rb_records (rb_add_record b) = rb_records b + 1 /\
    forall i, rb_record (rb_add_record b) i = rb_record b i;
  rb_store_view b i r : 0 <= i < rb_max_records b ->
    rb_max_records (rb_store b i r) = rb_max_records b /\
    rb_records (rb_store b i r) = rb_records b /\
    forall j, rb_record (rb_store b i r) j = if j =? i then r else rb_record b j;
  rb_clear_view b :
    rb_max_records (rb_clear b) = rb_max_records b /\ rb_records (rb_clear b) = 0;
  rb_reset_view b :
    rb_max_records (rb_reset b) = rb_max_records b /\ rb_records (rb_reset b) = 0;
  rb_set_view b o :
    rb_max_records (rb_set_out_of_range b o) = rb_max_records b /\
    rb_records (rb_set_out_of_range b o) = rb_records b /\
    rb_is_out_of_range (rb_set_out_of_range b o) = o /\
    forall i, rb_record (rb_set_out_of_range b o) i = rb_record b i }.

(** A row of the engine: its record and its row id. *)
Abbreviation row := (list Z * Z)%type (only parsing).

(** The engine's cursor.  [eng_next] is [ctc_rnd_next] or [ctc_general_fetch]
    (no row: the record length is 0), [eng_prefetch] is [ctc_rnd_prefetch] or
    [ctc_general_prefetch] with the largest record length, and [eng_position]
    the row id of the row last returned by [eng_next] ([ctc_position]). *)
Class ScanEngine (E : Type) := {
  eng_next : E -> ct_errno_t * option row * E;
  eng_prefetch : Z -> E -> ct_errno_t * list row * E;
  eng_position : E -> Z }.

Definition bytes_of (rows : list row) : Z := Z.of_nat (length (concat (map fst rows))).

(** [scan e] are the rows that the cursor still has to return.  A prefetch
    with at least the length of every record returns a part of them within the
    buffer, and nothing only at the end; it stops before the limit of rows only
    at the end of the scan or when another record might not fit.  Reads do not
    check foreign keys. *)
Class ScanLaws {E} (Eng : ScanEngine E) (scan : E -> list row) : Prop := {
  eng_next_errors e : no_fk_error (fst (fst (eng_next e)));
  eng_prefetch_errors max e : no_fk_error (fst (fst (eng_prefetch max e)));
  eng_next_ok e r e' : eng_next e = (CT_SUCCESS, r, e') ->
    match r with
    | Some r => scan e = r :: scan e' /\ eng_position e' = snd r
    | None => scan e = [] /\ scan e' = []
    end;
  eng_prefetch_ok max e rows e' : 0 <= max < 2 ^ 16 ->
    Forall (fun r => Z.of_nat (length (fst r)) <= max) (scan e) ->
    eng_prefetch max e = (CT_SUCCESS, rows, e') ->
    scan e = rows ++ scan e' /\
    Z.of_nat (length rows) <= MAX_PREFETCH_REC_NUM /\ bytes_of rows <= MAX_RECORD_SIZE /\
    (rows = [] -> scan e' = []) /\
    (Z.of_nat (length rows) < MAX_PREFETCH_REC_NUM -> bytes_of rows <= MAX_RECORD_SIZE - max ->
     scan e' = []) }.

(** ** State *)

Section Scan.
Context {R E : Type} {RB : RecordBuffer R} {Eng : ScanEngine E}.

(** The members of [ha_ctc] that a scan uses. *)
Record scan_state := mk_scan {
  cur_pos_in_buf : Z;
  actual_fetched_nums : Z;
  cur_off_in_prefetch_buf : Z;
  cur_fill_buf_index : Z;
  m_prefetch_buf : option (list Z);
  m_record_lens : list Z;
  m_rowids : list Z;
  m_rec_buf : option record_buffer;
  max_col_index : Z;
  engine : E }.

(** The attributes that are fixed during a scan: the conversion function
    [cnvrt_to_mysql_record] with the last column wanted, the engine's record
    and the image that it is stored into ([None]: a failed assertion); whether
    memory can be allocated. *)
Record scan_env := mk_env {
  cnvrt_to_mysql_record : Z -> list Z -> R -> option R;
  m_cantian_rec_len : Z;
  thd : THD;
  passthru : bool;             (* an operation that does not reach the engine *)
  read_set : list bool;
  write_set : list bool;
  index_only : option (list nat);  (* the key's columns of an index-only scan *)
  malloc_ok : bool }.

Definition set_rec_buf (b : option record_buffer) (s : scan_state) : scan_state :=
  mk_scan (cur_pos_in_buf s) (actual_fetched_nums s) (cur_off_in_prefetch_buf s)
    (cur_fill_buf_index s) (m_prefetch_buf s) (m_record_lens s) (m_rowids s) b
    (max_col_index s) (engine s).
Definition set_cur_pos (p : Z) (s : scan_state) : scan_state :=
  mk_scan p (actual_fetched_nums s) (cur_off_in_prefetch_buf s)
    (cur_fill_buf_index s) (m_prefetch_buf s) (m_record_lens s) (m_rowids s) (m_rec_buf s)
    (max_col_index s) (engine s).
Definition set_fill (off idx : Z) (s : scan_state) : scan_state :=
  mk_scan (cur_pos_in_buf s) (actual_fetched_nums s) off idx (m_prefetch_buf s)
    (m_record_lens s) (m_rowids s) (m_rec_buf s) (max_col_index s) (engine s).
Definition set_max_col (c : Z) (s : scan_state) : scan_state :=
  mk_scan (cur_pos_in_buf s) (actual_fetched_nums s) (cur_off_in_prefetch_buf s)
    (cur_fill_buf_index s) (m_prefetch_buf s) (m_record_lens s) (m_rowids s) (m_rec_buf s)
    c (engine s).
Definition set_engine (e : E) (s : scan_state) : scan_state :=
  mk_scan (cur_pos_in_buf s) (actual_fetched_nums s) (cur_off_in_prefetch_buf s)
    (cur_fill_buf_index s) (m_prefetch_buf s) (m_record_lens s) (m_rowids s) (m_rec_buf s)
    (max_col_index s) e.

(** ** The record buffer *)

Definition can_prefetch_records (sv : server) (t : THD) (blob_fields : Z) : bool :=
  ctc_select_prefetch sv && bool_decide (sql_command t = SQLCOM_SELECT)
  && (blob_fields =? 0) && negb (is_recursive t).

(** [data_ok]: [m_rec_buf_data] is there or can be allocated. *)
Definition set_prefetch_buffer (sv : server) (t : THD) (blob_fields rec_length : Z)
    (data_ok : bool) (s : scan_state) : ct_errno_t * scan_state :=
  let s := set_rec_buf None s in
  if negb (can_prefetch_records sv t blob_fields) then (CT_SUCCESS, s) else
  let max_rows := max_prefetch_num in
  let max_rows := if max_rows >? MAX_RECORD_BUFFER_SIZE_CTC / rec_length
                  then MAX_RECORD_BUFFER_SIZE_CTC / rec_length else max_rows in
  let max_rows := if max_rows >? max_prefetch_num - 1 then max_prefetch_num - 1 else max_rows in
  if negb data_ok then (ERR_ALLOC_MEMORY, s) else
  (CT_SUCCESS, set_rec_buf (Some (new_record_buffer max_rows)) s).

Definition reset_rec_buf (is_prefetch : bool) (s : scan_state) : scan_state :=
  let s := set_cur_pos (if is_prefetch then 0 else INVALID_MAX_UINT32) s in
  set_rec_buf (option_map rb_reset (m_rec_buf s)) s.

(** The last column at or below [c] that is set. *)
Fixpoint last_set (set : list bool) (c : nat) : nat :=
  if default false (set !! c) then c else match c with O => O | S c => last_set set c end.

Definition bitmap_is_clear_all (b : list bool) : bool := forallb negb b.

Definition max_col_4_reading (env : scan_env) : Z :=
  let n_bits := length (read_set env) in
  let all := Z.of_nat n_bits - 1 in
  if negb (bitmap_is_clear_all (write_set env)) then all
  else if bitmap_is_clear_all (read_set env) then INVALID_MAX_UINT32
  else match index_only env with
       | Some key =>
         match list_find (fun c => default false (read_set env !! c) = true) (reverse key) with
         | Some (_, c) => Z.of_nat c
         | None => all
         end
       | None => Z.of_nat (last_set (read_set env) (n_bits - 1))
       end.

Definition set_max_col_index_4_reading (env : scan_env) (s : scan_state) : scan_state :=
  set_max_col (max_col_4_reading env) s.

(** [cnvrt_to_mysql_record] on the next prefetched record, if a column is
    wanted. *)
Definition convert_next (env : scan_env) (s : scan_state) (image : R) : option R :=
  if max_col_index s =? INVALID_MAX_UINT32 then Some image else
  buf ← m_prefetch_buf s;
  cnvrt_to_mysql_record env (max_col_index s) (drop (Z.to_nat (cur_off_in_prefetch_buf s)) buf)
    image.

(** [cur_off_in_prefetch_buf += m_record_lens[cur_fill_buf_index++]] *)
Definition advance (s : scan_state) : option scan_state :=
  len ← m_record_lens s !! Z.to_nat (cur_fill_buf_index s);
  Some (set_fill (cur_off_in_prefetch_buf s + len) (cur_fill_buf_index s + 1) s).

(** The body of the filling loops for a slot of the record buffer;
    [add_record] asserts that there is one. *)
Definition fill_slot (env : scan_env) (s : scan_state) : option scan_state :=
  b ← m_rec_buf s;
  let slot := rb_records b in
  if negb (slot <? rb_max_records b) then None else
  let b := rb_add_record b in
  image ← convert_next env s (rb_record b slot);
  advance (set_rec_buf (Some (rb_store b slot image)) s).

Fixpoint fill_slots (n : nat) (env : scan_env) (s : scan_state) : option scan_state :=
  match n with
  | O => Some s
  | S n => s ← fill_slot env s; fill_slots n env s
  end.

(** The scan is over if the engine could have returned another record. *)
Definition update_out_of_range (env : scan_env) (s : scan_state) : scan_state :=
  let out := (cur_off_in_prefetch_buf s <=? wrapU 64 (MAX_RECORD_SIZE - m_cantian_rec_len env))
             && (actual_fetched_nums s <? MAX_PREFETCH_REC_NUM) in
  set_rec_buf (option_map (fun b => rb_set_out_of_range b out) (m_rec_buf s)) s.

Definition fill_record_to_rec_buffer (env : scan_env) (s : scan_state) : option scan_state :=
  b ← m_rec_buf s;
  let s := set_rec_buf (Some (rb_clear b)) s in
  let n := Z.min (rb_max_records b) (actual_fetched_nums s - cur_fill_buf_index s) in
  s ← fill_slots (Z.to_nat n) env s;
  Some (update_out_of_range env s).

(** A [memcpy] to the start of a buffer. *)
Definition copy_to {A} (l buf : list A) : option (list A) :=
  if (length l <=? length buf)%nat then Some (l ++ drop (length l) buf) else None.

(** The engine stores the records one after the other, their lengths and
    their row ids at the start of the three buffers. *)
Definition store_rows (rows : list row) (buf : list Z) (s : scan_state) : option scan_state :=
  buf ← copy_to (concat (map fst rows)) buf;
  lens ← copy_to (map (fun r => Z.of_nat (length (fst r))) rows) (m_record_lens s);
  ids ← copy_to (map snd rows) (m_rowids s);
  Some (mk_scan (cur_pos_in_buf s) (actual_fetched_nums s) (cur_off_in_prefetch_buf s)
    (cur_fill_buf_index s) (Some buf) lens ids (m_rec_buf s) (max_col_index s) (engine s)).

(** [actual_fetched_nums = fetched_num], then the fill position is reset. *)
Definition start_batch (n : Z) (s : scan_state) : scan_state :=
  mk_scan (cur_pos_in_buf s) n 0 0 (m_prefetch_buf s)
    (m_record_lens s) (m_rowids s) (m_rec_buf s) (max_col_index s) (engine s).

(** An answer that is no error although the engine's was leaves the number of
    rows undefined: [None]. *)
Definition prefetch_and_fill_record_buffer (env : scan_env) (buf : R) (s : scan_state)
  : option (ha_code * R * scan_state) :=
  let s := set_max_col_index_4_reading env s in
  b ← m_rec_buf s;                                         (* assert(m_rec_buf != nullptr) *)
  if negb (bool_decide (is_Some (m_prefetch_buf s)) || malloc_ok env)
  then Some (HA_ERR_OUT_OF_MEM, buf, s) else
  let pbuf := default (replicate (Z.to_nat MAX_RECORD_SIZE) 0) (m_prefetch_buf s) in
  let '(ret, rows, e) := eng_prefetch (m_cantian_rec_len env) (engine s) in
  s ← store_rows (if decide (ret = CT_SUCCESS) then rows else []) pbuf (set_engine e s);
  if decide (checked (thd env) ret <> CT_SUCCESS)
  then Some (convert (checked (thd env) ret), buf, s) else
  if decide (ret <> CT_SUCCESS) then None else
  let fetched_num := Z.of_nat (length rows) in
  if fetched_num =? 0 then Some (HA_ERR_END_OF_FILE, buf, s) else
  let s := reset_rec_buf true (start_batch fetched_num s) in
  let filled_num := if fetched_num <=? rb_max_records b + 1 then fetched_num
                    else rb_max_records b + 1 in
  buf ← convert_next env s buf;
  s ← advance s;
  s ← fill_slots (Z.to_nat (filled_num - 1)) env s;
  Some (OK, buf, update_out_of_range env s).

(** ** Starting a scan *)

Inductive expected_cursor_action_t :=
  | EXP_CURSOR_ACTION_SELECT | EXP_CURSOR_ACTION_UPDATE | EXP_CURSOR_ACTION_DELETE
  | EXP_CURSOR_ACTION_INDEX_ONLY.

Definition rnd_init_action (exclusive : bool) (cmd : enum_sql_command)
  : expected_cursor_action_t :=
  if exclusive then
    if decide (cmd = SQLCOM_DELETE) then EXP_CURSOR_ACTION_DELETE
    else if decide (cmd = SQLCOM_ALTER_TABLE) then EXP_CURSOR_ACTION_SELECT
    else EXP_CURSOR_ACTION_UPDATE
  else EXP_CURSOR_ACTION_SELECT.

(** [ctc_rnd_init] opens the cursor for the action.  An allocation failure is
    returned without conversion. *)
Definition rnd_init (ctc_rnd_init : expected_cursor_action_t -> E -> ct_errno_t * E)
    (sv : server) (t : THD) (is_passthru : bool) (blob_fields rec_length : Z) (data_ok : bool)
    (exclusive : bool) (s : scan_state) : ha_code * scan_state :=
  if is_passthru then (OK, s) else
  let '(ret, s) := set_prefetch_buffer sv t blob_fields rec_length data_ok s in
  if decide (ret <> CT_SUCCESS) then (RAW ret, s) else
  let '(ret, e) := ctc_rnd_init (rnd_init_action exclusive (sql_command t)) (engine s) in
  (convert (checked t ret), reset_rec_buf false (set_engine e s)).

(** [index_init]; the cursor is opened by the first [index_read]. *)
Definition index_init (sv : server) (t : THD) (blob_fields rec_length : Z) (data_ok : bool)
    (s : scan_state) : ha_code * scan_state :=
  let '(ret, s) := set_prefetch_buffer sv t blob_fields rec_length data_ok s in
  if decide (ret <> CT_SUCCESS) then (RAW ret, s) else (OK, reset_rec_buf false s).

(** ** The calls of the server *)

(** Without a record buffer every row comes from the engine. *)
Definition process_cantian_record (env : scan_env) (buf : R) (ret : ct_errno_t) (r : option row)
    (rc_ret : ha_code) : option (ha_code * R) :=
  let ret := checked (thd env) ret in
  if decide (ret <> CT_SUCCESS) then Some (convert ret, buf) else
  match r with
  | None => Some (rc_ret, buf)
  | Some (record, _) =>
    buf ← cnvrt_to_mysql_record env INVALID_MAX_UINT32 record buf; Some (OK, buf)
  end.

(** [rnd_next] and [index_fetch] after the check for passed-through DDL;
    [read_ok]: the buffer for one record is there or can be allocated. *)
Definition fetch_row (env : scan_env) (read_ok : bool) (buf : R) (s : scan_state)
  : option (ha_code * R * scan_state) :=
  match m_rec_buf s with
  | Some b =>
    if rb_max_records b =? 0 then
      if negb read_ok then Some (convert ERR_ALLOC_MEMORY, buf, s) else
      let '(ret, r, e) := eng_next (engine s) in
      '(code, buf) ← process_cantian_record env buf ret r HA_ERR_END_OF_FILE;
      Some (code, buf, set_engine e s)
    else if negb (rb_records b =? 0) then
      if cur_pos_in_buf s >=? wrapU 32 (actual_fetched_nums s - 1) then
        let s := set_cur_pos INVALID_MAX_UINT32 s in
        if rb_is_out_of_range b then Some (HA_ERR_END_OF_FILE, buf, s)
        else prefetch_and_fill_record_buffer env buf s
      else
        let buf := rb_record b (cur_pos_in_buf s mod rb_max_records b) in
        let s := set_cur_pos (wrapU 32 (cur_pos_in_buf s + 1)) s in
        if cur_pos_in_buf s mod rb_max_records b =? 0
        then s ← fill_record_to_rec_buffer env s; Some (OK, buf, s)
        else Some (OK, buf, s)
    else prefetch_and_fill_record_buffer env buf s
  | None =>
    if negb read_ok then Some (convert ERR_ALLOC_MEMORY, buf, s) else
    let '(ret, r, e) := eng_next (engine s) in
    '(code, buf) ← process_cantian_record env buf ret r HA_ERR_END_OF_FILE;
    Some (code, buf, set_engine e s)
  end.

Definition rnd_next (env : scan_env) (read_ok : bool) (buf : R) (s : scan_state)
  : option (ha_code * R * scan_state) :=
  if match m_rec_buf s with Some b => rb_records b =? 0 | None => true end && passthru env
  then Some (HA_ERR_END_OF_FILE, buf, s)
  else fetch_row env read_ok buf s.

(** [index_fetch], [index_next], [index_next_same] and [index_prev] *)
Definition index_fetch (env : scan_env) (read_ok : bool) (buf : R) (s : scan_state)
  : option (ha_code * R * scan_state) := fetch_row env read_ok buf s.

(** The row id of the current row. *)
Definition position (s : scan_state) : option Z :=
  if cur_pos_in_buf s =? INVALID_MAX_UINT32 then Some (eng_position (engine s))
  else if cur_pos_in_buf s <? max_prefetch_num
  then m_rowids s !! Z.to_nat (cur_pos_in_buf s)
  else None.

End Scan.

Arguments scan_state : clear implicits.
Arguments scan_state R E {RB}.
Arguments scan_env : clear implicits.

(** ** Filling the record buffer *)

Lemma bytes_of_nonneg l : 0 <= bytes_of l.
Proof. unfold bytes_of. lia. Qed.

Lemma bytes_of_take l i r :
  l !! i = Some r -> bytes_of (take (S i) l) = bytes_of (take i l) + Z.of_nat (length (fst r)).
Proof.
  intros H. unfold bytes_of. erewrite take_S_r by exact H; rewrite map_app, concat_app, length_app.
  cbn [map concat]. rewrite app_nil_r. lia.
Qed.

Lemma drop_bytes l i r rest :
  l !! i = Some r ->
  exists rest', drop (Z.to_nat (bytes_of (take i l))) (concat (map fst l) ++ rest) = fst r ++ rest'.
Proof.
  intros H. exists (concat (map fst (drop (S i) l)) ++ rest).
  unfold bytes_of. rewrite Nat2Z.id.
  assert (concat (map fst l) = concat (map fst (take i l)) ++ fst r
          ++ concat (map fst (drop (S i) l))) as ->.
  { rewrite <- (take_drop_middle l i r H) at 1. by rewrite map_app, concat_app. }
  by rewrite <- !app_assoc, drop_app_length.
Qed.

Section Refinement.
Context {R E : Type} {RB : RecordBuffer R} {RBL : RecordBufferLaws RB}.
Context {Eng : ScanEngine E} {scan : E -> list row} {EL : ScanLaws Eng scan}.
Context (env : scan_env R).

(** The image holds the row: nothing was wanted of it, or it is the result of
    converting its record. *)
Definition shows (r : row) (image : R) : Prop :=
  max_col_4_reading env = INVALID_MAX_UINT32 \/
  exists c rest old, (c = max_col_4_reading env \/ c = INVALID_MAX_UINT32) /\
    cnvrt_to_mysql_record env c (fst r ++ rest) old = Some image.

(** The record has at most the expected length and its conversion fails no
    assertion. *)
Definition convertible (r : row) : Prop :=
  Z.of_nat (length (fst r)) <= m_cantian_rec_len env /\
  forall c rest old, c = max_col_4_reading env \/ c = INVALID_MAX_UINT32 ->
    is_Some (cnvrt_to_mysql_record env c (fst r ++ rest) old).

Section Filling.
Context (M p : Z) (batch : list row) (pb lens ids : list Z) (e : E) (base : nat).
Context (Hpb : exists rest, pb = concat (map fst batch) ++ rest).
Context (Hlens : exists rest, lens = map (fun r => Z.of_nat (length (fst r))) batch ++ rest).
Context (Hconv : Forall convertible batch).

(** The rows before [idx] are converted. *)
Definition fstate (b : record_buffer) (idx : nat) : scan_state R E :=
  mk_scan p (Z.of_nat (length batch)) (bytes_of (take idx batch)) (Z.of_nat idx) (Some pb) lens
    ids (Some b) (max_col_4_reading env) e.

(** The slots hold the rows from [base] to [idx]. *)
Definition shown (b : record_buffer) (idx : nat) : Prop :=
  forall r, (base <= r < idx)%nat -> exists x, batch !! r = Some x /\
    shows x (rb_record b (Z.of_nat (r - base))).

Lemma convert_next_ok b idx old :
  (idx < length batch)%nat -> exists x image, batch !! idx = Some x /\
    convert_next env (fstate b idx) old = Some image /\ shows x image.
Proof.
  intros Hi. destruct (lookup_lt_is_Some_2 _ _ Hi) as [x Hx]. exists x.
  unfold convert_next. cbn [max_col_index fstate m_prefetch_buf cur_off_in_prefetch_buf].
  destruct (_ =? _) eqn:Hc; zb. { exists old. by repeat split; [|left]. }
  destruct Hpb as [rest ->]. destruct (drop_bytes _ _ _ rest Hx) as [rest' Hd].
  cbn [mbind option_bind]. rewrite Hd.
  destruct (proj1 (Forall_lookup _ _) Hconv idx x Hx) as [_ Hc'].
  destruct (Hc' (max_col_4_reading env) rest' old) as [image Him]; [by left|].
  exists image. repeat split; [done..|]. right. exists (max_col_4_reading env), rest', old. auto.
Qed.

Lemma advance_ok b idx :
  (idx < length batch)%nat -> advance (fstate b idx) = Some (fstate b (S idx)).
Proof.
  intros Hi. destruct (lookup_lt_is_Some_2 _ _ Hi) as [x Hx]. unfold advance.
  cbn [m_record_lens fstate cur_fill_buf_index]. rewrite Nat2Z.id.
  destruct Hlens as [rest ->].
  rewrite (lookup_app_l_Some _ _ _ (Z.of_nat (length (fst x)))).
  - cbn [mbind option_bind]. unfold fstate, set_fill.
    cbn [cur_pos_in_buf actual_fetched_nums cur_off_in_prefetch_buf m_prefetch_buf m_record_lens
         m_rowids m_rec_buf max_col_index engine].
    rewrite (bytes_of_take _ _ _ Hx). do 2 f_equal. lia.
  - by rewrite list_lookup_fmap, Hx.
Qed.

Lemma fill_slot_ok b idx :
  rb_max_records b = M -> rb_records b = Z.of_nat (idx - base) -> (base <= idx)%nat ->
  rb_records b < M -> (idx < length batch)%nat -> shown b idx ->
  exists b', fill_slot env (fstate b idx) = Some (fstate b' (S idx)) /\
    rb_max_records b' = M /\ rb_records b' = rb_records b + 1 /\ shown b' (S idx).
Proof.
  intros HM Hr Hb Hlt Hi Hsh. unfold fill_slot. change (m_rec_buf (fstate b idx)) with (Some b).
  cbn [mbind option_bind].
  rewrite (proj2 (Z.ltb_lt _ _)) by lia. cbn [negb].
  destruct (rb_add_view b) as (Hm & Hc & Hrec); [lia|].
  destruct (convert_next_ok b idx (rb_record (rb_add_record b) (rb_records b)) Hi)
    as (x & image & Hx & Hcv & Hs).
  rewrite Hcv. cbn [mbind option_bind].
  change (set_rec_buf ?b' ?s) with (fstate (rb_store (rb_add_record b) (rb_records b) image) idx).
  rewrite advance_ok by done. eexists. split; [reflexivity|].
  destruct (rb_store_view (rb_add_record b) (rb_records b) image) as (Hm' & Hc' & Hrec');
    [rewrite Hm; lia|].
  split; [lia|]. split; [lia|]. intros r Hrr.
  rewrite Hrec'. destruct (decide (r = idx)) as [->|Hne].
  - exists x. split; [done|]. by rewrite (proj2 (Z.eqb_eq _ _)) by lia.
  - rewrite (proj2 (Z.eqb_neq _ _)) by lia. rewrite Hrec. apply Hsh. lia.
Qed.

Lemma fill_slots_ok n : forall b idx,
  rb_max_records b = M -> rb_records b = Z.of_nat (idx - base) -> (base <= idx)%nat ->
  rb_records b + Z.of_nat n <= M -> (idx + n <= length batch)%nat -> shown b idx ->
  exists b', fill_slots n env (fstate b idx) = Some (fstate b' (idx + n)) /\
    rb_max_records b' = M /\ rb_records b' = rb_records b + Z.of_nat n /\ shown b' (idx + n).
Proof.
  induction n as [|n IH]; intros b idx HM Hr Hb Hn Hi Hsh; cbn [fill_slots].
  { exists b. rewrite Nat.add_0_r. repeat split; [done|lia|done]. }
  destruct (fill_slot_ok b idx) as (b1 & -> & HM1 & Hr1 & Hsh1); [done|done|done|lia|lia|done|].
  cbn [mbind option_bind].
  destruct (IH b1 (S idx)) as (b' & -> & HM' & Hr' & Hsh'); [done|lia|lia|lia|lia|done|].
  exists b'. rewrite <- Nat.add_succ_comm. repeat split; [done|lia|done].
Qed.

End Filling.

(** ** What is still to come *)

Definition buffers_ok (s : scan_state R E) : Prop :=
  length (m_record_lens s) = 100%nat /\ length (m_rowids s) = 100%nat /\
  forall pb, m_prefetch_buf s = Some pb -> Z.of_nat (length pb) = MAX_RECORD_SIZE.

Definition out_of_range (off num : Z) : bool :=
  (off <=? wrapU 64 (MAX_RECORD_SIZE - m_cantian_rec_len env)) && (num <? MAX_PREFETCH_REC_NUM).

(** [pending rows s]: the scan in state [s] has yet to return [rows]:
    - without a record buffer, they are the engine's;
    - the record buffer is empty and the next call fetches a batch;
    - the last row of a batch was returned;
    - the row [p] of a batch was returned, and the rows up to [idx] after it
      are in the record buffer, the first of which is [base]. *)
Inductive pending : list row -> scan_state R E -> Prop :=
  | pending_single s :
      match m_rec_buf s with Some b => rb_max_records b = 0 | None => True end ->
      cur_pos_in_buf s = INVALID_MAX_UINT32 -> buffers_ok s ->
      pending (scan (engine s)) s
  | pending_fetch s b :
      m_rec_buf s = Some b -> 0 < rb_max_records b < 100 -> rb_records b = 0 -> buffers_ok s ->
      pending (scan (engine s)) s
  | pending_done s b :
      m_rec_buf s = Some b -> 0 < rb_max_records b < 100 -> rb_records b <> 0 -> buffers_ok s ->
      cur_pos_in_buf s = INVALID_MAX_UINT32 -> 1 <= actual_fetched_nums s <= 100 ->
      (rb_is_out_of_range b = true -> scan (engine s) = []) ->
      pending (scan (engine s)) s
  | pending_active (p : nat) batch pb lens ids e b base idx :
      let N := length batch in
      let M := rb_max_records b in
      let s := fstate (Z.of_nat p) batch pb lens ids e b idx in
      0 < M < 100 -> (p < N <= 100)%nat -> buffers_ok s ->
      (exists rest, pb = concat (map fst batch) ++ rest) ->
      (exists rest, lens = map (fun r => Z.of_nat (length (fst r))) batch ++ rest) ->
      (exists rest, ids = map snd batch ++ rest) ->
      Forall convertible batch ->
      Z.of_nat base = Z.of_nat p / M * M + 1 ->
      Z.of_nat idx = Z.min (Z.of_nat N) (Z.of_nat base + M) ->
      rb_records b = Z.of_nat (idx - base) -> shown batch base b idx ->
      rb_is_out_of_range b = out_of_range (bytes_of (take idx batch)) (Z.of_nat N) ->
      (out_of_range (bytes_of batch) (Z.of_nat N) = true -> scan e = []) ->
      pending (drop (S p) batch ++ scan e) s.

(** An error of a call that found the engine in state [e]. *)
Definition call_error (read_ok : bool) (e : E) (ret : ct_errno_t) : Prop :=
  ret <> CT_SUCCESS /\
  (ret = fst (fst (eng_next e)) \/ ret = fst (fst (eng_prefetch (m_cantian_rec_len env) e)) \/
   (ret = ERR_ALLOC_MEMORY /\ read_ok = false)).

(** The answer of a call when [rows] were pending. *)
Definition answer (read_ok : bool) (e : E) (rows : list row) (a : ha_code * R * scan_state R E)
  : Prop :=
  let '(code, image, s) := a in
  match code with
  | HA HA_OK => exists r rs, rows = r :: rs /\ shows r image /\ pending rs s /\
                             position s = Some (snd r)
  | HA_ERR_END_OF_FILE => rows = [] /\ pending [] s
  | HA_ERR_OUT_OF_MEM => malloc_ok env = false
  | HA _ => exists ret, code = convert ret /\ call_error read_ok e ret
  | _ => False
  end.

Lemma answer_error read_ok e rows ret image s :
  call_error read_ok e ret -> answer read_ok e rows (convert ret, image, s).
Proof.
  intros H. pose proof (convert_ok ret) as Hc. unfold answer, convert in *.
  destruct (fst (convert_ctc_error_code_to_mysql ret)) eqn:Hm; try (by exists ret; rewrite Hm).
  destruct H as [H _]. destruct H. by apply Hc.
Qed.

Lemma copy_ok {A} (l buf : list A) :
  (length l <= length buf)%nat ->
  exists buf', copy_to l buf = Some buf' /\ length buf' = length buf /\
    exists rest, buf' = l ++ rest.
Proof.
  intros H. unfold copy_to. rewrite (proj2 (Nat.leb_le _ _)) by done.
  eexists. split; [reflexivity|]. rewrite length_app, length_drop. split; [lia|]. eauto.
Qed.

Lemma store_rows_ok rows pb s :
  buffers_ok s -> Z.of_nat (length pb) = MAX_RECORD_SIZE ->
  (length rows <= 100)%nat -> bytes_of rows <= MAX_RECORD_SIZE ->
  exists pb' lens ids, store_rows rows pb s
      = Some (mk_scan (cur_pos_in_buf s) (actual_fetched_nums s) (cur_off_in_prefetch_buf s)
          (cur_fill_buf_index s) (Some pb') lens ids (m_rec_buf s) (max_col_index s) (engine s)) /\
    Z.of_nat (length pb') = MAX_RECORD_SIZE /\ length lens = 100%nat /\ length ids = 100%nat /\
    (exists rest, pb' = concat (map fst rows) ++ rest) /\
    (exists rest, lens = map (fun r => Z.of_nat (length (fst r))) rows ++ rest) /\
    (exists rest, ids = map snd rows ++ rest).
Proof.
  intros (Hl & Hi & _) Hpb Hn Hb. unfold store_rows.
  destruct (copy_ok (concat (map fst rows)) pb) as (pb' & -> & Hpb' & ?); [unfold bytes_of in Hb; lia|].
  destruct (copy_ok (map (fun r => Z.of_nat (length (fst r))) rows) (m_record_lens s))
    as (lens & -> & Hlens & ?); [rewrite length_map; lia|].
  destruct (copy_ok (map snd rows) (m_rowids s)) as (ids & -> & Hids & ?); [rewrite length_map; lia|].
  exists pb', lens, ids. cbn [mbind option_bind]. repeat split; try done; lia.
Qed.

(** ** The steps *)

Context (Hrec : 0 <= m_cantian_rec_len env < 2 ^ 16).

Lemma rows_first (batch rest : list row) x :
  batch !! 0%nat = Some x -> batch ++ rest = x :: drop 1 batch ++ rest.
Proof. destruct batch; [done|]. by intros [= ->]. Qed.

(** A state whose record buffer was just filled. *)
Lemma active_intro (p : nat) batch pb lens ids e b base idx :
  let N := length batch in
  let M := rb_max_records b in
  0 < M < 100 -> (p < N <= 100)%nat ->
  Z.of_nat (length pb) = MAX_RECORD_SIZE -> length lens = 100%nat -> length ids = 100%nat ->
  (exists rest, pb = concat (map fst batch) ++ rest) ->
  (exists rest, lens = map (fun r => Z.of_nat (length (fst r))) batch ++ rest) ->
  (exists rest, ids = map snd batch ++ rest) ->
  Forall convertible batch ->
  Z.of_nat base = Z.of_nat p / M * M + 1 ->
  Z.of_nat idx = Z.min (Z.of_nat N) (Z.of_nat base + M) ->
  rb_records b = Z.of_nat (idx - base) -> shown batch base b idx ->
  (out_of_range (bytes_of batch) (Z.of_nat N) = true -> scan e = []) ->
  pending (drop (S p) batch ++ scan e)
    (update_out_of_range env (fstate (Z.of_nat p) batch pb lens ids e b idx)).
Proof.
  intros N M HM Hp Hpb Hlens Hids Hpb' Hlens' Hids' Hconv Hbase Hidx Hr Hsh Hout.
  change (update_out_of_range env _) with (fstate (Z.of_nat p) batch pb lens ids e
    (rb_set_out_of_range b (out_of_range (bytes_of (take idx batch)) (Z.of_nat (length batch)))) idx).
  set (b' := rb_set_out_of_range _ _).
  destruct (rb_set_view b (out_of_range (bytes_of (take idx batch)) (Z.of_nat (length batch))))
    as (Hm & Hc & Ho & Hi). fold b' in Hm, Hc, Ho, Hi.
  apply (pending_active p batch pb lens ids e b' base idx); rewrite ?Hm; try done.
  - repeat split; [done|done|]. by intros ? [= <-].
  - by rewrite Hc.
  - intros r Hr'. rewrite Hi. by apply Hsh.
Qed.

Lemma current_row (p : nat) batch pb lens ids e b idx x :
  (length batch <= 100)%nat -> (exists rest, ids = map snd batch ++ rest) -> batch !! p = Some x ->
  position (fstate (Z.of_nat p) batch pb lens ids e b idx) = Some (snd x).
Proof.
  intros HN [rest ->] Hx. unfold position, fstate. cbn [cur_pos_in_buf m_rowids].
  apply lookup_lt_Some in Hx as Hp.
  rewrite (proj2 (Z.eqb_neq _ _)) by (unfold INVALID_MAX_UINT32; lia).
  rewrite (proj2 (Z.ltb_lt _ _)) by (unfold max_prefetch_num, MAX_PREFETCH_REC_NUM; lia).
  rewrite Nat2Z.id. apply lookup_app_l_Some. by rewrite list_lookup_fmap, Hx.
Qed.

(** A new batch: the first row is in the server's buffer. *)
Lemma prefetch_ok read_ok s b image :
  m_rec_buf s = Some b -> 0 < rb_max_records b < 100 -> buffers_ok s ->
  Forall convertible (scan (engine s)) ->
  (rb_records b = 0 \/
   (cur_pos_in_buf s = INVALID_MAX_UINT32 /\ 1 <= actual_fetched_nums s <= 100)) ->
  exists a, prefetch_and_fill_record_buffer env image s = Some a /\
    answer read_ok (engine s) (scan (engine s)) a.
Proof.
  intros Hb HM Hbuf Hconv Hpos. unfold prefetch_and_fill_record_buffer.
  set (s1 := set_max_col_index_4_reading env s). change (m_rec_buf s1) with (m_rec_buf s).
  rewrite Hb. cbn [mbind option_bind]. change (m_prefetch_buf s1) with (m_prefetch_buf s).
  destruct (negb _) eqn:Hmem.
  { eexists. split; [reflexivity|]. cbn. zb. by destruct (malloc_ok env). }
  set (pbuf := default _ _). change (engine s1) with (engine s).
  destruct (eng_prefetch (m_cantian_rec_len env) (engine s)) as [[ret rows] e] eqn:He.
  pose proof (eng_prefetch_errors (m_cantian_rec_len env) (engine s)) as Hfk.
  rewrite He in Hfk. cbn [fst] in Hfk. rewrite (checked_id (thd env) ret Hfk).
  assert (Z.of_nat (length pbuf) = MAX_RECORD_SIZE) as Hpbuf.
  { unfold pbuf. destruct (m_prefetch_buf s) as [pb|] eqn:Hpb; cbn [default].
    - destruct Hbuf as (_ & _ & H). by apply H.
    - rewrite length_replicate. unfold MAX_RECORD_SIZE. lia. }
  destruct (decide (ret = CT_SUCCESS)) as [->|Hne].
  2:{ destruct (store_rows_ok [] pbuf (set_engine e s1)) as (pb' & lens & ids & -> & _);
        [done|done|simpl; lia|done|].
      cbn [mbind option_bind]. destruct (decide _); [|done]. eexists. split; [reflexivity|].
      apply answer_error. split; [done|]. right. left. by rewrite He. }
  assert (Forall (fun r : row => Z.of_nat (length (fst r)) <= m_cantian_rec_len env) (scan (engine s)))
    as Hfit by (eapply Forall_impl; [|exact Hconv]; by intros r [? _]).
  destruct (eng_prefetch_ok _ _ _ _ Hrec Hfit He)
    as (Hscan & Hn & Hbytes & Hnil & Hend).
  unfold MAX_PREFETCH_REC_NUM in Hn, Hend.
  destruct (store_rows_ok rows pbuf (set_engine e s1)) as
    (pb' & lens & ids & -> & Hpb & Hlens & Hids & Hpb' & Hlens' & Hids'); [done|done|lia|done|].
  cbn [mbind option_bind]. destruct (decide _); [done|].
  destruct (Z.of_nat (length rows) =? 0) eqn:H0; zb.
  { destruct rows; [|done]. eexists. split; [reflexivity|]. specialize (Hnil eq_refl).
    split; [by rewrite Hscan, Hnil|]. set (s2 := mk_scan _ _ _ _ _ _ _ _ _ _).
    assert (scan (engine s2) = []) as Hs2 by done. rewrite <- Hs2.
    assert (buffers_ok s2) by (split; [done|split; [done|by intros ? [= <-]]]).
    destruct Hpos as [Hz|[Hc Ha]]; [by apply (pending_fetch s2 b)|].
    destruct (decide (rb_records b = 0)); [by apply (pending_fetch s2 b)|].
    by apply (pending_done s2 b). }
  set (b0 := rb_reset b). destruct (rb_reset_view b) as [Hm0 Hc0]. fold b0 in Hm0, Hc0.
  match goal with |- context [reset_rec_buf true ?x] =>
    assert (reset_rec_buf true x = fstate 0 rows pb' lens ids e b0 0) as -> end.
  { unfold reset_rec_buf, fstate. cbn. by rewrite Hb. }
  assert (Forall convertible rows) as Hcr by (rewrite Hscan in Hconv; by apply Forall_app in Hconv as [? _]).
  destruct (convert_next_ok 0 rows pb' lens ids e Hpb' Hcr b0 0 image) as
    (x & image' & Hx & -> & Hshow); [lia|]. cbn [mbind option_bind].
  rewrite (advance_ok 0 rows pb' lens ids e Hlens') by lia. cbn [mbind option_bind].
  set (filled := if _ <=? _ then _ else _).
  assert (filled = Z.min (Z.of_nat (length rows)) (rb_max_records b + 1)) as Hnn
    by (unfold filled; destruct (_ <=? _) eqn:Hle; zb; lia).
  destruct (fill_slots_ok (rb_max_records b) 0 rows pb' lens ids e 1 Hpb' Hlens' Hcr
    (Z.to_nat (filled - 1)) b0 1) as (b1 & -> & HM1 & Hr1 & Hsh1); [done|lia|lia|lia|lia| |].
  { intros r Hr. lia. }
  cbn [mbind option_bind]. eexists. split; [reflexivity|].
  rewrite Hscan. exists x, (drop 1 rows ++ scan e). split; [by apply (rows_first rows (scan e))|].
  split; [done|]. split.
  - apply (active_intro 0 rows pb' lens ids e b1 1); rewrite ?HM1; try done; try lia.
    intros Ho. unfold out_of_range in Ho. zb. unfold MAX_PREFETCH_REC_NUM in *.
    apply Hend; [done|].
    match goal with H : _ <= wrapU 64 _ |- _ =>
      rewrite wrapU_small in H by (unfold MAX_RECORD_SIZE in *; lia); exact H end.
  - apply (current_row 0 rows pb' lens ids e (rb_set_out_of_range b1 _) _ x); [lia|done|done].
Qed.

(** A row straight from the engine. *)
Lemma single_ok read_ok s image :
  match m_rec_buf s with Some b => rb_max_records b = 0 | None => True end ->
  cur_pos_in_buf s = INVALID_MAX_UINT32 -> buffers_ok s ->
  Forall convertible (scan (engine s)) ->
  exists a, (if negb read_ok then Some (convert ERR_ALLOC_MEMORY, image, s) else
     let '(ret, r, e) := eng_next (engine s) in
     '(code, image) ← process_cantian_record env image ret r HA_ERR_END_OF_FILE;
     Some (code, image, set_engine e s)) = Some a /\
    answer read_ok (engine s) (scan (engine s)) a.
Proof.
  intros Hs Hp Hbuf Hconv. destruct (negb read_ok) eqn:Hro.
  { eexists. split; [reflexivity|]. apply answer_error. split; [done|]. right. right.
    split; [done|]. by destruct read_ok. }
  destruct (eng_next (engine s)) as [[ret r] e] eqn:He. unfold process_cantian_record.
  pose proof (eng_next_errors (engine s)) as Hfk. rewrite He in Hfk. cbn [fst] in Hfk.
  rewrite (checked_id (thd env) ret Hfk). destruct (decide _) as [Hne|Hok].
  { eexists. split; [reflexivity|]. apply answer_error. split; [done|]. left. by rewrite He. }
  assert (ret = CT_SUCCESS) as -> by (destruct (decide (ret = CT_SUCCESS)); [done|by destruct Hok]).
  assert (forall rows, scan e = rows -> pending rows (set_engine e s)) as Hpend.
  { intros rows <-. by apply (pending_single (set_engine e s)). }
  pose proof (eng_next_ok _ _ _ He) as Hnext. destruct r as [[record id]|].
  - destruct Hnext as [Hscan Hpos]. rewrite Hscan in Hconv |- *.
    destruct (proj2 (Forall_inv Hconv) INVALID_MAX_UINT32 [] image) as [image' Him]; [by right|].
    cbn [fst] in Him. rewrite app_nil_r in Him. rewrite Him. cbn [mbind option_bind].
    eexists. split; [reflexivity|]. exists (record, id), (scan e). split; [done|]. split.
    { right. exists INVALID_MAX_UINT32, [], image. cbn [fst]. rewrite app_nil_r. auto. }
    split; [by apply Hpend|]. unfold position. cbn [cur_pos_in_buf set_engine engine].
    rewrite Hp, Z.eqb_refl. by rewrite Hpos.
  - destruct Hnext as [Hscan Hscan']. cbn [mbind option_bind]. eexists. split; [reflexivity|].
    split; [done|]. by apply Hpend.
Qed.

Lemma div_step p M :
  0 < M -> 0 <= p ->
  ((p + 1) mod M = 0 /\ (p + 1) / M * M = p + 1 /\ p / M * M + M = p + 1) \/
  ((p + 1) mod M <> 0 /\ (p + 1) / M = p / M).
Proof.
  intros HM Hp. pose proof (Z.div_mod p M ltac:(lia)) as Hdm.
  pose proof (Z.mod_pos_bound p M HM) as Hr.
  destruct (decide (p mod M + 1 = M)).
  - left. assert (p + 1 = (p / M + 1) * M) as -> by lia.
    rewrite Z.mod_mul, Z.div_mul by lia. lia.
  - right. assert (p + 1 = M * (p / M) + (p mod M + 1)) as Heq by lia. split.
    + rewrite <- (Z.mod_unique (p + 1) M (p / M) (p mod M + 1)) by lia. lia.
    + symmetry. apply Z.div_unique with (p mod M + 1); lia.
Qed.

(** Converting the next part of a batch. *)
Lemma refill_ok M p batch pb lens ids e base
    (Hpb : exists rest, pb = concat (map fst batch) ++ rest)
    (Hlens : exists rest, lens = map (fun r => Z.of_nat (length (fst r))) batch ++ rest)
    (Hconv : Forall convertible batch) b (HM : rb_max_records b = M) :
  0 <= M -> (base <= length batch)%nat ->
  exists b' idx,
    fill_record_to_rec_buffer env (fstate p batch pb lens ids e b base)
      = Some (fstate p batch pb lens ids e b' idx) /\
    rb_max_records b' = M /\ Z.of_nat idx = Z.min (Z.of_nat (length batch)) (Z.of_nat base + M) /\
    rb_records b' = Z.of_nat (idx - base) /\ shown batch base b' idx /\
    rb_is_out_of_range b' = out_of_range (bytes_of (take idx batch)) (Z.of_nat (length batch)).
Proof.
  intros H0 Hle. destruct (rb_clear_view b) as [Hmc Hcc].
  set (n := Z.to_nat (Z.min (rb_max_records b) (Z.of_nat (length batch) - Z.of_nat base))).
  change (fill_record_to_rec_buffer env _) with
    (s ← fill_slots n env (fstate p batch pb lens ids e (rb_clear b) base);
     Some (update_out_of_range env s)).
  destruct (fill_slots_ok M p batch pb lens ids e base Hpb Hlens Hconv n (rb_clear b) base)
    as (b1 & -> & HM1 & Hr1 & Hsh1); [lia|lia|lia|lia|lia| |].
  { intros r Hr. lia. }
  cbn [mbind option_bind].
  change (update_out_of_range env _) with (fstate p batch pb lens ids e
    (rb_set_out_of_range b1 (out_of_range (bytes_of (take (base + n) batch))
      (Z.of_nat (length batch)))) (base + n)).
  destruct (rb_set_view b1 (out_of_range (bytes_of (take (base + n) batch))
    (Z.of_nat (length batch)))) as (Hm2 & Hc2 & Ho2 & Hi2).
  eexists _, (base + n)%nat. split; [reflexivity|]. repeat split; [lia|lia|lia| |done].
  intros r Hr. rewrite Hi2. by apply Hsh1.
Qed.

(** The next row of a batch. *)
Lemma active_ok read_ok (p : nat) batch pb lens ids e b base idx image :
  let N := length batch in
  let M := rb_max_records b in
  let s := fstate (Z.of_nat p) batch pb lens ids e b idx in
  0 < M < 100 -> (S p < N <= 100)%nat -> buffers_ok s ->
  (exists rest, pb = concat (map fst batch) ++ rest) ->
  (exists rest, lens = map (fun r => Z.of_nat (length (fst r))) batch ++ rest) ->
  (exists rest, ids = map snd batch ++ rest) ->
  Forall convertible batch ->
  Z.of_nat base = Z.of_nat p / M * M + 1 ->
  Z.of_nat idx = Z.min (Z.of_nat N) (Z.of_nat base + M) ->
  rb_records b = Z.of_nat (idx - base) -> shown batch base b idx ->
  rb_is_out_of_range b = out_of_range (bytes_of (take idx batch)) (Z.of_nat N) ->
  (out_of_range (bytes_of batch) (Z.of_nat N) = true -> scan e = []) ->
  exists a, fetch_row env read_ok image s = Some a /\
    answer read_ok e (drop (S p) batch ++ scan e) a.
Proof.
  intros N M s HM Hp Hbuf Hpb Hlens Hids Hconv Hbase Hidx Hr Hsh Hflag Hout.
  unfold fetch_row. change (m_rec_buf s) with (Some b). cbv iota beta.
  pose proof (Z.div_mod (Z.of_nat p) M ltac:(lia)) as Hdm.
  pose proof (Z.mod_pos_bound (Z.of_nat p) M ltac:(lia)) as Hmb.
  rewrite (proj2 (Z.eqb_neq _ 0)) by lia. rewrite (proj2 (Z.eqb_neq _ 0)) by lia. cbn [negb].
  change (cur_pos_in_buf s) with (Z.of_nat p). change (actual_fetched_nums s) with (Z.of_nat N).
  rewrite (wrapU_small 32 (Z.of_nat N - 1)) by lia. rewrite Z.geb_leb, (proj2 (Z.leb_gt _ _)) by lia. fold M.
  assert (exists x, batch !! S p = Some x /\ shows x (rb_record b (Z.of_nat p mod M))) as (x & Hx & Hsx).
  { destruct (Hsh (S p)) as (x & Hx & Hsx); [lia|]. exists x. split; [done|].
    replace (Z.of_nat p mod M) with (Z.of_nat (S p - base)) by lia. done. }
  assert (drop (S p) batch ++ scan e = x :: drop (S (S p)) batch ++ scan e) as -> by (by rewrite (drop_S _ _ _ Hx)).
  replace (wrapU 32 (Z.of_nat p + 1)) with (Z.of_nat (S p)) by (rewrite wrapU_small; lia).
  change (set_cur_pos (Z.of_nat (S p)) s) with (fstate (Z.of_nat (S p)) batch pb lens ids e b idx).
  cbn [cur_pos_in_buf fstate]. fold (fstate (Z.of_nat (S p)) batch pb lens ids e b idx).
  destruct Hbuf as (Hl & Hi & Hb).
  assert (forall b', rb_max_records b' = M -> forall base' idx',
    Z.of_nat base' = Z.of_nat (S p) / M * M + 1 ->
    Z.of_nat idx' = Z.min (Z.of_nat N) (Z.of_nat base' + M) ->
    rb_records b' = Z.of_nat (idx' - base') -> shown batch base' b' idx' ->
    rb_is_out_of_range b' = out_of_range (bytes_of (take idx' batch)) (Z.of_nat N) ->
    answer read_ok e (x :: drop (S (S p)) batch ++ scan e)
      (OK, rb_record b (Z.of_nat p mod M), fstate (Z.of_nat (S p)) batch pb lens ids e b' idx')) as Hans.
  { intros b' HM' base' idx' Hb' Hi' Hr' Hs' Hf'. exists x, (drop (S (S p)) batch ++ scan e).
    split; [done|]. split; [done|]. split.
    - apply (pending_active (S p) batch pb lens ids e b' base' idx'); rewrite ?HM'; try done; lia.
    - apply (current_row (S p)); [lia|done|done]. }
  assert (Z.of_nat (S p) = Z.of_nat p + 1) as HS by lia.
  destruct (div_step (Z.of_nat p) M) as [[H0 H1]|[H0 H1]]; [lia|lia|idtac|idtac];
    rewrite <- HS in H0, H1.
  2:{ rewrite (proj2 (Z.eqb_neq _ 0)) by done. eexists. split; [reflexivity|].
      apply (Hans b eq_refl base idx); try done. by rewrite H1. }
  rewrite H0, Z.eqb_refl. destruct H1 as [H1 Hq]. assert (idx = S (S p)) as -> by lia.
  destruct (refill_ok M (Z.of_nat (S p)) batch pb lens ids e (S (S p)) Hpb Hlens Hconv b eq_refl)
    as (b1 & idx' & -> & HM1 & Hidx1 & Hr1 & Hsh1 & Hf1); [lia|lia|].
  cbn [mbind option_bind]. eexists. split; [reflexivity|].
  apply (Hans b1 HM1 (S (S p)) idx'); [lia|lia|done|done|done].
Qed.

Lemma fetch_ok read_ok rows s image :
  pending rows s -> Forall convertible rows ->
  exists a, fetch_row env read_ok image s = Some a /\ answer read_ok (engine s) rows a.
Proof.
  intros Hp Hconv. destruct Hp as [s Hb Hpos Hbuf|s b Hb HM Hr Hbuf|s b Hb HM Hr Hbuf Hpos Hn Hout|
    p batch pb lens ids e b base idx N M s HM Hp Hbuf Hpb Hlens Hids Hcb Hbase Hidx Hr Hsh Hflag Hout].
  - pose proof (single_ok read_ok s image Hb Hpos Hbuf Hconv) as H.
    unfold fetch_row. destruct (m_rec_buf s) as [b|]; [|exact H].
    rewrite (proj2 (Z.eqb_eq _ _)) by done. exact H.
  - unfold fetch_row. rewrite Hb, (proj2 (Z.eqb_neq _ _)), (proj2 (Z.eqb_eq (rb_records b) _)) by lia.
    cbn [negb]. apply (prefetch_ok read_ok s b); auto.
  - unfold fetch_row. rewrite Hb, (proj2 (Z.eqb_neq _ _)), (proj2 (Z.eqb_neq (rb_records b) _)) by lia.
    cbn [negb]. rewrite (wrapU_small 32 (actual_fetched_nums s - 1)) by lia.
    rewrite Z.geb_leb, (proj2 (Z.leb_le _ _)) by (rewrite Hpos; unfold INVALID_MAX_UINT32; lia).
    assert (pending (scan (engine s)) (set_cur_pos INVALID_MAX_UINT32 s)) as Hd
      by (by apply (pending_done (set_cur_pos INVALID_MAX_UINT32 s) b)).
    destruct (rb_is_out_of_range b) eqn:Ho.
    + eexists. split; [reflexivity|]. rewrite (Hout eq_refl) in Hd |- *. by split.
    + apply (prefetch_ok read_ok (set_cur_pos INVALID_MAX_UINT32 s) b); auto.
  - change (engine s) with e.
    destruct (decide (S p < N)%nat) as [Hlt|Hge];
      [apply (active_ok read_ok p batch pb lens ids e b base idx image); try done; lia|].
    assert (S p = N) as HpN by lia.
    pose proof (Z.div_mod (Z.of_nat p) M ltac:(lia)) as Hdm.
    pose proof (Z.mod_pos_bound (Z.of_nat p) M ltac:(lia)) as Hmb.
    assert (idx = N) as -> by lia.
    assert (drop (S p) batch = []) as Hd by (apply drop_ge; lia). rewrite Hd in Hconv |- *.
    cbn [app] in Hconv |- *. unfold fetch_row. change (m_rec_buf s) with (Some b). cbv iota beta.
    fold M. rewrite (proj2 (Z.eqb_neq M 0)) by lia.
    destruct (rb_records b =? 0) eqn:H0; zb; cbn [negb].
    { by apply (prefetch_ok read_ok s b); auto. }
    change (actual_fetched_nums s) with (Z.of_nat N).
    rewrite (wrapU_small 32 (Z.of_nat N - 1)) by lia. change (cur_pos_in_buf s) with (Z.of_nat p).
    rewrite Z.geb_leb, (proj2 (Z.leb_le _ _)) by lia.
    rewrite (take_ge batch N) in Hflag by done. rewrite <- Hflag in Hout.
    assert (pending (scan e) (set_cur_pos INVALID_MAX_UINT32 s)) as Hdone.
    { apply (pending_done (set_cur_pos INVALID_MAX_UINT32 s) b); try done.
      change (actual_fetched_nums _) with (Z.of_nat N). lia. }
    destruct (rb_is_out_of_range b) eqn:Ho.
    + eexists. split; [reflexivity|]. rewrite (Hout eq_refl) in Hdone |- *. by split.
    + apply (prefetch_ok read_ok (set_cur_pos INVALID_MAX_UINT32 s) b); try done. right.
      split; [done|]. change (actual_fetched_nums _) with (Z.of_nat N). lia.
Qed.

(** ** Starting a scan *)

Lemma reset_pending s :
  buffers_ok s -> match m_rec_buf s with Some b => 0 <= rb_max_records b < 100 | None => True end ->
  pending (scan (engine s)) (reset_rec_buf false s).
Proof.
  intros Hbuf HM. change (engine s) with (engine (reset_rec_buf false s)).
  destruct (m_rec_buf s) as [b|] eqn:Hb.
  - destruct (rb_reset_view b) as [Hm Hc]. destruct (decide (rb_max_records b = 0)) as [H0|H0].
    + apply pending_single; [|done|done]. unfold reset_rec_buf. cbn. rewrite Hb. cbn. lia.
    + apply (pending_fetch _ (rb_reset b)); [|rewrite Hm; lia|exact Hc|done].
      unfold reset_rec_buf. cbn. by rewrite Hb.
  - apply pending_single; [|done|done]. unfold reset_rec_buf. cbn. by rewrite Hb.
Qed.

Lemma set_prefetch_rows sv t blobs len data_ok s ret s' :
  0 < len -> set_prefetch_buffer sv t blobs len data_ok s = (ret, s') ->
  engine s' = engine s /\ (buffers_ok s -> buffers_ok s') /\
  match m_rec_buf s' with
  | Some b => 0 <= rb_max_records b < 100 /\ rb_max_records b * len <= MAX_RECORD_BUFFER_SIZE_CTC
  | None => True
  end.
Proof.
  intros Hl. unfold set_prefetch_buffer. cbv zeta.
  destruct (negb _); [by intros [= <- <-]|].
  set (n1 := if max_prefetch_num >? _ then _ else _). set (n := if n1 >? _ then _ else n1).
  assert (0 <= n < 100 /\ n * len <= MAX_RECORD_BUFFER_SIZE_CTC) as [Hn Hlen].
  { unfold max_prefetch_num, MAX_PREFETCH_REC_NUM, MAX_RECORD_BUFFER_SIZE_CTC in *.
    pose proof (Z.div_pos (64 * 1024) len ltac:(lia) Hl) as Hq.
    pose proof (Z.mul_div_le (64 * 1024) len Hl) as Hm. set (q := 64 * 1024 / len) in *.
    assert (forall k, 0 <= k <= q -> k * len <= 64 * 1024) as Hk by (intros k Hk; nia).
    assert (n1 = Z.min 100 q) as Hn1 
      by (unfold n1, q, max_prefetch_num, MAX_PREFETCH_REC_NUM, MAX_RECORD_BUFFER_SIZE_CTC;
          destruct (_ >? _) eqn:?; zb; lia).
    clearbody n1. assert (n = Z.min n1 99) as Hn
      by (unfold n, max_prefetch_num, MAX_PREFETCH_REC_NUM; destruct (_ >? _) eqn:?; zb; lia).
    clearbody n q. split; [lia|apply Hk; lia]. }
  destruct (negb data_ok); intros [= <- <-]; [done|]. split; [done|]. split; [done|].
  cbn [m_rec_buf set_rec_buf]. destruct (rb_new_view n ltac:(lia)) as [-> _]. done.
Qed.

(** ** Properties *)

(** C3: every call of [rnd_next] refines the abstract cursor: with [rows] still
    to come it returns the first of them, of which every wanted column is
    converted and whose row id [position] gives, and the others are still to
    come; the end of the file is reported exactly when nothing is left; every
    other answer is an error of the engine or of an allocation.  No index
    leaves the buffers and no assertion fails. *)
Theorem rnd_next_refines (read_ok : bool) (rows : list row) (s : scan_state R E) (image : R)
    (Hp : pending rows s) (Hrows : Forall convertible rows) (Hpass : passthru env = false) :
  exists a, rnd_next env read_ok image s = Some a /\ answer read_ok (engine s) rows a.
Proof. unfold rnd_next. rewrite Hpass, andb_false_r. by apply fetch_ok. Qed.

(** All rows of a scan with their row ids, by calls of [rnd_next] until the
    end of the file; [None]: another answer, or not finished. *)
Fixpoint scan_all (fuel : nat) (image : R) (s : scan_state R E) : option (list (R * Z)) :=
  match fuel with
  | O => None
  | S fuel =>
    '(code, image, s) ← rnd_next env true image s;
    match code with
    | HA HA_OK => id ← position s; out ← scan_all fuel image s; Some ((image, id) :: out)
    | HA_ERR_END_OF_FILE => Some []
    | _ => None
    end
  end.

Lemma scan_all_ok fuel : forall rows s image,
  (forall e, fst (fst (eng_next e)) = CT_SUCCESS) ->
  (forall max e, fst (fst (eng_prefetch max e)) = CT_SUCCESS) ->
  malloc_ok env = true -> passthru env = false ->
  pending rows s -> Forall convertible rows -> (length rows < fuel)%nat ->
  exists out, scan_all fuel image s = Some out /\
    Forall2 (fun r o => shows r (fst o) /\ snd o = snd r) rows out.
Proof.
  induction fuel as [|fuel IH]; intros rows s image Hn Hpre Hmal Hpass Hp Hrows Hf; [lia|].
  cbn [scan_all]. unfold rnd_next. rewrite Hpass, andb_false_r.
  destruct (fetch_ok true rows s image Hp Hrows) as ([[code image'] s'] & -> & Ha).
  cbn [mbind option_bind]. unfold answer in Ha.
  assert (forall ret, ~ call_error true (engine s) ret) as Herr.
  { intros ret [H0 [H1|[H1|[_ H1]]]]; [|by rewrite Hpre in H1|done]. by rewrite Hn in H1. }
  destruct code as [[]| | | | | | |]; try (by destruct Ha as (ret & _ & H); destruct (Herr ret)); try done.
  - destruct Ha as (r & rs & -> & Hs & Hp' & ->). cbn [mbind option_bind].
    destruct (IH rs s' image') as (out & -> & Hout); try done; [by apply Forall_inv_tail in Hrows|
      cbn in Hf; lia|].
    cbn [mbind option_bind]. eexists. split; [reflexivity|]. by constructor.
  - destruct Ha as [-> _]. by exists [].
  - by rewrite Hmal in Ha.
Qed.

(** C17: a table scan terminates and is complete: after a successful
    [rnd_init] the calls of [rnd_next] return all rows of the engine's cursor,
    each once, in its order and with its row id, and then the end of the
    file, whatever the sizes of the batches and of the record buffer. *)
Theorem scan_complete (ctc_rnd_init : expected_cursor_action_t -> E -> ct_errno_t * E)
    (sv : server) (blobs len : Z) (data_ok exclusive : bool) (s s' : scan_state R E)
    (image : R) (fuel : nat)
    (Hnext : forall e, fst (fst (eng_next e)) = CT_SUCCESS)
    (Hpre : forall max e, fst (fst (eng_prefetch max e)) = CT_SUCCESS)
    (Hmal : malloc_ok env = true) (Hpass : passthru env = false) (Hlen : 0 < len)
    (Hbuf : buffers_ok s)
    (Hinit : rnd_init ctc_rnd_init sv (thd env) false blobs len data_ok exclusive s = (OK, s'))
    (Hrows : Forall convertible (scan (engine s'))) (Hf : (length (scan (engine s')) < fuel)%nat) :
  exists out, scan_all fuel image s' = Some out /\
    Forall2 (fun r o => shows r (fst o) /\ snd o = snd r) (scan (engine s')) out.
Proof.
  unfold rnd_init in Hinit.
  destruct (set_prefetch_buffer sv (thd env) blobs len data_ok s) as [ret s1] eqn:Hset.
  destruct (set_prefetch_rows _ _ _ _ _ _ _ _ Hlen Hset) as (He & Hb & Hm).
  destruct (decide _); [done|]. destruct (ctc_rnd_init _ _) as [ret2 e] eqn:Hc.
  assert (s' = reset_rec_buf false (set_engine e s1)) as -> by congruence.
  apply scan_all_ok; try done. apply (reset_pending (set_engine e s1)); [by apply Hb|].
  cbn [m_rec_buf set_engine]. destruct (m_rec_buf s1); [apply Hm|done].
Qed.

(** The record buffer has at most 99 records, which fit in the 64 KB
    allocated for it, and a scan with it starts from the engine's first row. *)
Theorem set_prefetch_buffer_fits (sv : server) (t : THD) (blobs len : Z) (data_ok : bool)
    (s s' : scan_state R E) (ret : ct_errno_t) (Hlen : 0 < len) (Hbuf : buffers_ok s)
    (Hset : set_prefetch_buffer sv t blobs len data_ok s = (ret, s')) :
  match m_rec_buf s' with
  | Some b => 0 <= rb_max_records b <= 99 /\
              rb_max_records b * len <= MAX_RECORD_BUFFER_SIZE_CTC /\
              can_prefetch_records sv t blobs = true
  | None => can_prefetch_records sv t blobs = false \/ ret = ERR_ALLOC_MEMORY
  end /\ pending (scan (engine s)) (reset_rec_buf false s').
Proof.
  destruct (set_prefetch_rows _ _ _ _ _ _ _ _ Hlen Hset) as (He & Hb & Hm). split.
  - unfold set_prefetch_buffer in Hset. destruct (can_prefetch_records sv t blobs); cbn [negb] in Hset.
    + destruct (negb data_ok); injection Hset as <- <-; [by right|].
      cbn [m_rec_buf set_rec_buf] in Hm |- *. split; [lia|]. split; [lia|done].
    + injection Hset as <- <-. by left.
  - rewrite <- He. apply reset_pending; [by apply Hb|].
    destruct (m_rec_buf s'); [apply Hm|done].
Qed.

End Refinement.

(** ** The last column of interest *)

Lemma last_set_spec set c :
  (exists i, (i <= c)%nat /\ default false (set !! i) = true) ->
  default false (set !! last_set set c) = true /\
  forall i, (i <= c)%nat -> default false (set !! i) = true -> (i <= last_set set c)%nat.
Proof.
  induction c as [|c IH]; intros (i & Hi & Hset); cbn [last_set].
  - assert (i = 0)%nat as -> by lia. rewrite Hset. by split.
  - destruct (default false (set !! S c)) eqn:Hc; [by split|].
    destruct IH as [H1 H2].
    { exists i. split; [|done]. destruct (decide (i = S c)) as [->|]; [congruence|lia]. }
    split; [done|]. intros j Hj Hset'. apply H2; [|done].
    destruct (decide (j = S c)) as [->|]; [congruence|lia].
Qed.

Lemma clear_all_spec b : bitmap_is_clear_all b = false -> exists i, default false (b !! i) = true.
Proof.
  intros H. induction b as [|x b IH]; [done|]. destruct x; [by exists 0%nat|].
  destruct IH as [i Hi]; [exact H|]. by exists (S i).
Qed.

Lemma set_bit_lt (b : list bool) i : default false (b !! i) = true -> (i < length b)%nat.
Proof. intros H. destruct (b !! i) eqn:Hi; [by apply lookup_lt_Some in Hi|done]. Qed.

(** A read-only scan converts every column that is read: no column after
    [max_col_index] is wanted, and that one is; in an index-only scan the
    conversion stops after the last wanted column of the key; nothing is
    converted if no column is wanted, and everything if one is written. *)
Theorem max_col_index_spec {R : Type} (env : scan_env R) (n : nat)
    (Hn : length (read_set env) = n) (Hlim : Z.of_nat n < INVALID_MAX_UINT32) :
  let c := max_col_4_reading env in
  let wanted i := default false (read_set env !! i) = true in
  if negb (bitmap_is_clear_all (write_set env)) then c = Z.of_nat n - 1
  else match index_only env with
  | None => (c = INVALID_MAX_UINT32 <-> forall i, ~ wanted i) /\
            (c <> INVALID_MAX_UINT32 -> wanted (Z.to_nat c)) /\
            (forall i, wanted i -> Z.of_nat i <= c)
  | Some key => (forall i, ~ wanted i) -> c = INVALID_MAX_UINT32
  end /\
  forall key j col, index_only env = Some key -> key !! j = Some col -> wanted col ->
    exists k last, (j <= k)%nat /\ key !! k = Some last /\ c = Z.of_nat last /\ wanted last.
Proof.
  intros c wanted. unfold c, max_col_4_reading. rewrite Hn.
  destruct (negb (bitmap_is_clear_all (write_set env))); [done|].
  destruct (bitmap_is_clear_all (read_set env)) eqn:Hclear.
  - assert (forall i, ~ wanted i) as Hnone.
    { intros i Hi. unfold wanted in Hi. unfold bitmap_is_clear_all in Hclear.
      rewrite forallb_forall in Hclear. destruct (read_set env !! i) as [[]|] eqn:Hr; try done.
      apply list_elem_of_lookup_2, list_elem_of_In, Hclear in Hr. done. }
    split; [|intros key j col _ _ Hw; by destruct (Hnone col)].
    destruct (index_only env); [done|]. repeat split; try done. intros i Hi. by destruct (Hnone i).
  - destruct (clear_all_spec _ Hclear) as [i Hi]. pose proof (set_bit_lt _ _ Hi) as Hlt.
    destruct (index_only env) as [key|] eqn:Hkey.
    + split; [intros Hnone; by destruct (Hnone i)|]. intros key' j col [= <-] Hj Hw.
      destruct (list_find _ (reverse key)) as [[k last]|] eqn:Hfind.
      * apply list_find_Some in Hfind as (Hk & Hlast & Hmin).
        apply reverse_lookup_Some in Hk as [Hk Hkl].
        exists (length key - S k)%nat, last. repeat split; try done.
        destruct (decide (j <= length key - S k)%nat) as [Hle|Hgt]; [done|].
        apply lookup_lt_Some in Hj as Hjl.
        destruct (Hmin (length key - S j)%nat col); [|lia|done].
        apply reverse_lookup_Some. split; [|lia].
        replace (length key - S (length key - S j))%nat with j by lia. done.
      * apply list_find_None in Hfind. rewrite Forall_forall in Hfind.
        destruct (Hfind col); [|done]. apply list_elem_of_In, elem_of_reverse.
        by apply list_elem_of_lookup_2 in Hj.
    + destruct (last_set_spec (read_set env) (n - 1)) as [H1 H2].
      { exists i. split; [lia|done]. }
      pose proof (set_bit_lt _ _ H1) as Hll. split; [|done]. repeat split.
      * intros H. lia.
      * intros H. by destruct (H (last_set (read_set env) (n - 1))).
      * intros _. unfold wanted. by rewrite Nat2Z.id.
      * intros j Hj. pose proof (set_bit_lt _ _ Hj) as Hjl.
        specialize (H2 j ltac:(lia) Hj). lia.
Qed.

(** ** Instances, for the witnesses *)

Record demo_buffer := mk_db { db_max : Z; db_count : Z; db_out : bool; db_slot : Z -> list Z }.

Definition demo_rb : RecordBuffer (list Z) := {|
  record_buffer := demo_buffer;
  new_record_buffer n := mk_db n 0 false (fun _ => []);
  rb_max_records := db_max;
  rb_records := db_count;
  rb_is_out_of_range := db_out;
  rb_record := db_slot;
  rb_add_record b := mk_db (db_max b) (db_count b + 1) (db_out b) (db_slot b);
  rb_store b i r := mk_db (db_max b) (db_count b) (db_out b)
                      (fun j => if j =? i then r else db_slot b j);
  rb_clear b := mk_db (db_max b) 0 (db_out b) (db_slot b);
  rb_reset b := mk_db (db_max b) 0 false (db_slot b);
  rb_set_out_of_range b o := mk_db (db_max b) (db_count b) o (db_slot b) |}.

#[export] Instance demo_rb_laws : RecordBufferLaws demo_rb.
Proof. by split. Qed.

(** As many rows as there is room for. *)
Fixpoint grab (n : nat) (room : Z) (rows : list row) : list row :=
  match n, rows with
  | S n, r :: rows => let room := room - Z.of_nat (length (fst r)) in
                      if room <? 0 then [] else r :: grab n room rows
  | _, _ => []
  end.

Definition demo_batch (rows : list row) : list row := grab 100 MAX_RECORD_SIZE rows.

Definition demo_engine : ScanEngine (list row * Z) := {|
  eng_next e := match fst e with
                | [] => (CT_SUCCESS, None, e)
                | r :: rows => (CT_SUCCESS, Some r, (rows, snd r))
                end;
  eng_prefetch max e := let batch := demo_batch (fst e) in
                        (CT_SUCCESS, batch, (drop (length batch) (fst e), snd e));
  eng_position := snd |}.

Lemma bytes_of_cons r l : bytes_of (r :: l) = Z.of_nat (length (fst r)) + bytes_of l.
Proof. unfold bytes_of. cbn [map concat]. rewrite length_app. lia. Qed.

Lemma grab_spec n : forall room rows max,
  0 <= room -> 0 <= max -> Forall (fun r : row => Z.of_nat (length (fst r)) <= max) rows ->
  let b := grab n room rows in
  take (length b) rows = b /\ (length b <= n)%nat /\ bytes_of b <= room /\
  (b = [] -> (0 < n)%nat -> max <= room -> rows = []) /\
  ((length b < n)%nat -> bytes_of b <= room - max -> drop (length b) rows = []).
Proof.
  induction n as [|n IH]; intros room rows max Hr Hm Hf.
  { cbn. split; [done|]. split; [done|]. unfold bytes_of. cbn. repeat split; lia. }
  destruct rows as [|r rows]; cbn [grab].
  { cbn. repeat split; try done; try lia. }
  destruct (_ <? 0) eqn:Hfit; zb.
  - pose proof (Forall_inv Hf) as Hlen. cbn in Hlen. cbn. unfold bytes_of. cbn.
    repeat split; try done; try lia.
  - destruct (IH (room - Z.of_nat (length (fst r))) rows max) as (H1 & H2 & H3 & H4 & H5);
      [lia|lia|by apply Forall_inv_tail in Hf|].
    cbn [length take drop]. rewrite bytes_of_cons. split; [by rewrite H1|].
    split; [lia|]. split; [lia|]. split; [done|]. intros Hl Hb. apply H5; lia.
Qed.

#[export] Instance demo_engine_laws : ScanLaws demo_engine fst.
Proof.
  split.
  - intros [[|r rows] id]; by split.
  - by split.
  - intros [[|r rows] id] o e' [= <- <-]; by split.
  - intros max [rows id] b e' Hmax Hf H.
    assert (b = demo_batch rows /\ e' = (drop (length b) rows, id)) as [Hb ->]
      by (cbn [eng_prefetch demo_engine fst snd] in H; split; congruence).
    clear H. cbn [fst] in Hf |- *. unfold demo_batch in Hb.
    destruct (grab_spec 100 MAX_RECORD_SIZE rows max ltac:(unfold MAX_RECORD_SIZE; lia)
      ltac:(lia) Hf) as (H1 & H2 & H3 & H4 & H5).
    rewrite <- Hb in *. clear Hb. unfold MAX_PREFETCH_REC_NUM.
    split; [by rewrite <- H1 at 1; rewrite take_drop|]. split; [lia|]. split; [done|]. split.
    + intros Hb. rewrite Hb. cbn [length drop]. apply H4; [done|lia|unfold MAX_RECORD_SIZE; lia].
    + intros Hl Hbs. apply H5; [lia|done].
Qed.

(** One column, whose value is the record; the last byte tells where the
    record ends. *)
Definition demo_cnvrt (c : Z) (bytes : list Z) (old : list Z) : option (list Z) :=
  Some (take 3 bytes).

Definition demo_server : server := mk_server false false true false true true 1.
Definition demo_thd : THD :=
  mk_thd 1 1 SQLCOM_SELECT true false false false false false 1 1 None false false
    ISO_READ_COMMITTED 0.
Definition demo_env : scan_env (list Z) :=
  mk_env demo_cnvrt 8 demo_thd false [true] [false] None true.
Definition demo_rows (n : nat) : list row :=
  map (fun i => ([Z.of_nat i; 7; 0], 1000 + Z.of_nat i)) (seq 0 n).
Definition demo_scan (n : nat) : scan_state (RB := demo_rb) (list Z) (list row * Z) :=
  mk_scan (RB := demo_rb) 5 3 0 0 None (replicate 100 0) (replicate 100 0) None 0
    (demo_rows n, 0).

Lemma demo_buffers n : buffers_ok (RB := demo_rb) (demo_scan n).
Proof. by repeat split. Qed.

Lemma demo_convertible n : Forall (convertible demo_env) (demo_rows n).
Proof.
  apply Forall_forall. intros r Hr. apply in_map_iff in Hr as (i & <- & _). split; [cbn; lia|].
  intros c rest old _. by eexists.
Qed.

(** The scan of 250 rows with 40-byte images, and its first row. *)
Definition demo_started (n : nat) : ha_code * scan_state (RB := demo_rb) (list Z) (list row * Z) :=
  rnd_init (RB := demo_rb) (fun _ e => (CT_SUCCESS, e)) demo_server demo_thd false 0 4096 true false
    (demo_scan n).

Lemma demo_pending n :
  pending (RB := demo_rb) (scan := fst) demo_env (demo_rows n) (snd (demo_started n)).
Proof.
  apply (pending_fetch (RB := demo_rb) (scan := fst) demo_env (snd (demo_started n))
    (mk_db 16 0 false (fun _ => []))); [done|cbn; lia|done|].
  by repeat split.
Qed.

Lemma rnd_next_refines_witness :
  exists a, rnd_next (RB := demo_rb) (Eng := demo_engine) demo_env true [] (snd (demo_started 250))
      = Some a /\
    fst (fst a) = OK /\ snd (fst a) = [0; 7; 0] /\
    answer (RB := demo_rb) (Eng := demo_engine) (scan := fst) demo_env true
      (engine (snd (demo_started 250))) (demo_rows 250) a.
Proof.
  destruct (rnd_next_refines (RB := demo_rb) (Eng := demo_engine) (scan := fst) demo_env
    ltac:(cbn; lia) true (demo_rows 250) (snd (demo_started 250)) [] (demo_pending 250)
    (demo_convertible 250) eq_refl) as (a & Ha & Hans).
  exists a. split; [exact Ha|]. split; [|split; [|exact Hans]].
  - assert (option_map (fun a => fst (fst a)) (rnd_next (RB := demo_rb) (Eng := demo_engine) demo_env
      true [] (snd (demo_started 250))) = Some OK) as H by (by vm_compute).
    rewrite Ha in H. by injection H.
  - assert (option_map (fun a => snd (fst a)) (rnd_next (RB := demo_rb) (Eng := demo_engine) demo_env
      true [] (snd (demo_started 250))) = Some [0; 7; 0]) as H by (by vm_compute).
    rewrite Ha in H. by injection H.
Defined.

(** 250 rows come in three batches, each converted 16 rows at a time. *)
Lemma scan_complete_witness :
  exists out, scan_all (RB := demo_rb) (Eng := demo_engine) demo_env 251 [] (snd (demo_started 250))
      = Some out /\
    Forall2 (fun r o => shows (R := list Z) demo_env r (fst o) /\ snd o = snd r) (demo_rows 250) out.
Proof.
  apply (scan_complete (RB := demo_rb) (Eng := demo_engine) (scan := fst) demo_env
    ltac:(cbn; lia) (fun _ e => (CT_SUCCESS, e)) demo_server 0 4096 true false (demo_scan 250)
    (snd (demo_started 250)) [] 251); try done; try lia.
  - by intros [[|r rows] id].
  - apply demo_convertible.
  - vm_compute. lia.
Defined.

Lemma set_prefetch_buffer_fits_witness :
  let s' := set_rec_buf (RB := demo_rb) (Some (mk_db 16 0 false (fun _ => []))) (demo_scan 250) in
  match m_rec_buf s' with
  | Some b => 0 <= rb_max_records b <= 99 /\ rb_max_records b * 4096 <= MAX_RECORD_BUFFER_SIZE_CTC /\
              can_prefetch_records demo_server demo_thd 0 = true
  | None => can_prefetch_records demo_server demo_thd 0 = false \/ CT_SUCCESS = ERR_ALLOC_MEMORY
  end /\ pending (RB := demo_rb) (scan := fst) demo_env (demo_rows 250) (reset_rec_buf false s').
Proof.
  apply (set_prefetch_buffer_fits (RB := demo_rb) (scan := fst) demo_env
    demo_server demo_thd 0 4096 true (demo_scan 250)); [lia|apply demo_buffers|reflexivity].
Defined.

Lemma max_col_index_spec_witness :
  let env := mk_env demo_cnvrt 8 demo_thd false [true; false; true; false] [] (Some [2; 1; 0; 3]%nat)
               true in
  (length (read_set env) = 4)%nat /\ max_col_4_reading env = 0 /\
  match index_only env with
  | None => True
  | Some key => (forall i, ~ default false (read_set env !! i) = true) ->
                max_col_4_reading env = INVALID_MAX_UINT32
  end.
Proof.
  split; [done|]. split; [done|].
  apply (max_col_index_spec (mk_env demo_cnvrt 8 demo_thd false [true; false; true; false]
    [] (Some [2; 1; 0; 3]%nat) true) 4%nat eq_refl). done.
Defined.

End Prefetch.
