(* ===== verification/Session.v ===== *)
(** * Session: sessions, transactions and savepoints

    Models the session context that [ha_ctc.cc] keeps for every connection
    ([thd_sess_ctx_s]), its exchange with the handlers' [ctc_handler_t]
    ([get_tch_in_handler_data], [update_member_tch], [update_sess_ctx_by_tch],
    [update_sess_ctx_cursor_by_tch]) and the transaction callbacks of the
    handlerton ([ctc_commit], [ctc_rollback], the savepoints,
    [ctc_close_connect], [ctc_kill_connection]) and of the handler
    ([external_lock], [start_stmt]).

    The calls to the engine are recorded in a log, the latest first, with the
    engine's answer, which an arbitrary function of the log chooses.  A failed
    assertion is [None]. *)

From S2P Require Import Prelude CtcError Handler.
Import CtcError Handler.

Module Session.

Definition INVALID_VALUE64 : Z := 2 ^ 64 - 1.
Definition SESSION_CURSOR_NUM : Z := 8192 * 2.
Definition ISOLATION_READ_COMMITTED : Z := 1.
Definition ISOLATION_SERIALIZABLE : Z := 3.
Definition CTC_SQL_START_INTERNAL_SAVEPOINT : string := "CTC4CANTIAN_SYS_SV".

(** ** State *)

Record thd_sess_ctx_s := mk_ctx {
  sess_addr : Z;
  ctx_thd_id : Z;
  bind_core : Z;
  is_ctc_trx_begin : bool;
  sql_stat_start : bool;
  cursors_map : gmap Z Z;              (* the cursor of every handler *)
  invalid_cursors : option (list Z);
  msg_buf : bool }.                    (* allocated *)

(** [ctc_handler_t] *)
Record ctc_handler_t := mk_tch {
  tch_thd_id : Z; tch_sess_addr : Z; tch_ctx_addr : Z; cursor_addr : Z; pre_sess_addr : Z;
  cursor_ref : Z; tch_bind_core : Z; tch_sql_command : enum_sql_command; tch_query_id : Z;
  tch_sql_stat_start : bool; change_data_capture : bool; is_broadcast : bool;
  read_only_in_ct : bool; tch_msg_buf : bool }.

Record ctc_trx_context_t := mk_trx {
  isolation_level : Z; autocommit : bool; lock_wait_timeout : Z; use_exclusive_lock : bool }.

(** Calls to the engine. *)
Inductive event :=
  | Ctc_trx_begin (c : ctc_trx_context_t) (is_mysql_local : bool)
  | Ctc_trx_commit (cursors : list Z) (with_sql : bool)
  | Ctc_trx_rollback (cursors : list Z)
  | Ctc_srv_rollback_savepoint (cursors : list Z) (name : string)
  | Ctc_srv_set_savepoint (name : string)
  | Ctc_srv_release_savepoint (name : string)
  | Ctc_free_session_cursors (cursors : list Z)
  | Ctc_statistic_begin
  | Ctc_statistic_commit
  | Ctc_invalidate_dd
  | Ctc_execute_mysql_ddl_sql
  | Ctc_analyze_table
  | Ctc_close_session (broadcast : bool)
  | Ctc_kill_session.

(** The engine's answer: a code, and what it stores in the [ctc_handler_t]
    and in [is_ddl_commit]. *)
Record reply := mk_reply {
  rp_ret : ct_errno_t; rp_sess_addr : Z; rp_bind_core : Z; rp_sql_stat_start : bool;
  rp_is_ddl : bool }.

Definition log := list (event * reply).

(** The context of the connection ([thd_get_ha_data]) and the log; whether
    the transaction was registered for the statement and for the session, and
    whether it was marked to be rolled back. *)
Record world := mk_world {
  w_ctx : option thd_sess_ctx_s;
  w_log : log;
  w_reg_stmt : bool;
  w_reg_all : bool;
  w_mark_rollback : bool }.

(** What is outside of the connector. *)
Record env := mk_env {
  oracle : log -> event -> reply;
  malloc_ok : log -> bool;             (* my_malloc *)
  alloc_ok : log -> bool;              (* ctc_alloc_buf of a positive size *)
  srv : server;
  thd : THD;
  is_attachable : bool;                (* is_attachable_transaction_active() *)
  is_mdl_thd : bool;                   (* is_ctc_mdl_thd *)
  is_ddl_cmd : bool;                   (* is_ddl_sql_cmd(sql_command) *)
  enable_stat : bool;                  (* get_enable_wsr_stat() *)
  is_dml_query : bool;                 (* the query starts as a DML command *)
  has_invalidates : bool;              (* !thd->is_empty() *)
  lock_wait : Z;                       (* THDVAR(thd, lock_wait_timeout) *)
  ctc_max_cursors_no_autocommit : Z;
  is_reading_dd : bool;
  longlong2str : Z -> string }.        (* in base 36 *)

(** ** Effects *)

Definition M (A : Type) := world -> option (A * world).
Definition ret {A} (a : A) : M A := fun w => Some (a, w).
Definition bind {A B} (m : M A) (k : A -> M B) : M B :=
  fun w => match m w with Some (a, w) => k a w | None => None end.
Definition fail {A} : M A := fun _ => None.

Notation "x <-- m ;; k" := (bind m (fun x => k))
  (at level 20, m at level 99, k at level 200) : ctc_scope.
Notation "' p <-- m ;; k" := (bind m (fun x => match x with p => k end))
  (at level 20, p pattern, m at level 99, k at level 200) : ctc_scope.
Notation "m ;;; k" := (bind m (fun _ => k)) (at level 100, k at level 200, right associativity) : ctc_scope.
Open Scope ctc_scope.

Definition get_ctx : M (option thd_sess_ctx_s) := fun w => Some (w_ctx w, w).
Definition put_ctx (c : option thd_sess_ctx_s) : M unit :=
  fun w => Some (tt, mk_world c (w_log w) (w_reg_stmt w) (w_reg_all w) (w_mark_rollback w)).
Definition get_log : M log := fun w => Some (w_log w, w).

(** [trans_register_ha] for the session ([all]) or the statement. *)
Definition trans_register_ha (all : bool) : M unit :=
  fun w => Some (tt, mk_world (w_ctx w) (w_log w) (w_reg_stmt w || negb all) (w_reg_all w || all)
                       (w_mark_rollback w)).

(** [thd_mark_transaction_to_rollback] *)
Definition mark_rollback (b : bool) : M unit :=
  fun w => Some (tt, mk_world (w_ctx w) (w_log w) (w_reg_stmt w) (w_reg_all w)
                       (w_mark_rollback w || b)).

(** The context of the connection, which must be there. *)
Definition the_ctx : M thd_sess_ctx_s := fun w => c ← w_ctx w; Some (c, w).

Definition set_trx_begin (b : bool) (c : thd_sess_ctx_s) : thd_sess_ctx_s :=
  mk_ctx (sess_addr c) (ctx_thd_id c) (bind_core c) b (sql_stat_start c) (cursors_map c)
    (invalid_cursors c) (msg_buf c).
Definition set_stat_start (b : bool) (c : thd_sess_ctx_s) : thd_sess_ctx_s :=
  mk_ctx (sess_addr c) (ctx_thd_id c) (bind_core c) (is_ctc_trx_begin c) b (cursors_map c)
    (invalid_cursors c) (msg_buf c).
Definition set_cursors (m : gmap Z Z) (i : option (list Z)) (c : thd_sess_ctx_s)
  : thd_sess_ctx_s :=
  mk_ctx (sess_addr c) (ctx_thd_id c) (bind_core c) (is_ctc_trx_begin c) (sql_stat_start c) m i
    (msg_buf c).

Definition modify_ctx (f : thd_sess_ctx_s -> thd_sess_ctx_s) : M unit :=
  c <-- the_ctx;; put_ctx (Some (f c)).

Section Ops.
Context (E : env).
Let t := thd E.

Definition call (ev : event) : M reply := fun w =>
  let r := oracle E (w_log w) ev in
  Some (r, mk_world (w_ctx w) ((ev, r) :: w_log w) (w_reg_stmt w) (w_reg_all w)
             (w_mark_rollback w)).

(** A call that passes a [ctc_handler_t], which the engine updates. *)
Definition call_tch (ev : event) (tch : ctc_handler_t) : M (ct_errno_t * ctc_handler_t * bool) :=
  r <-- call ev;;
  ret (rp_ret r,
       mk_tch (tch_thd_id tch) (rp_sess_addr r) (tch_ctx_addr tch) (cursor_addr tch)
         (pre_sess_addr tch) (cursor_ref tch) (rp_bind_core r) (tch_sql_command tch)
         (tch_query_id tch) (rp_sql_stat_start r) (change_data_capture tch) (is_broadcast tch)
         (read_only_in_ct tch) (tch_msg_buf tch), rp_is_ddl r).

(** ** The session context *)

(** [None] is the null pointer. *)
Definition get_or_init_sess_ctx : M (option thd_sess_ctx_s) :=
  c <-- get_ctx;;
  match c with
  | Some c => ret (Some c)
  | None =>
    l <-- get_log;;
    if negb (malloc_ok E l) then ret None else
    let c := mk_ctx INVALID_VALUE64 (2 ^ 32 - 1) (2 ^ 16 - 1) false false ∅ None false in
    put_ctx (Some c);;; ret (Some c)
  end.

(** [ctc_handler_t] of a handlerton call, or an error. *)
Definition get_tch_in_handler_data (alloc_msg_buf : bool) : M (option ctc_handler_t) :=
  c <-- get_or_init_sess_ctx;;
  match c with
  | None => ret None
  | Some c =>
    let c := if negb (ctx_thd_id c =? thread_id t)
             then mk_ctx INVALID_VALUE64 (thread_id t) 0 false false (cursors_map c)
                    (invalid_cursors c) (msg_buf c)
             else c in
    let buf := msg_buf c || alloc_msg_buf in
    let c := mk_ctx (sess_addr c) (ctx_thd_id c) (bind_core c) (is_ctc_trx_begin c)
               (sql_stat_start c) (cursors_map c) (invalid_cursors c) buf in
    put_ctx (Some c);;;
    ret (Some (mk_tch (ctx_thd_id c) (sess_addr c) INVALID_VALUE64 0 0 0 (bind_core c)
                 (sql_command t) (query_id t) (sql_stat_start c) false false false buf))
  end.

(** The cursors to be freed: the invalid ones, and those of the handlers
    unless [left]; they are no longer the session's. *)
Definition ctc_copy_cursors_to_free (left : bool) : M (list Z) :=
  c <-- the_ctx;;
  let inv := default [] (invalid_cursors c) in
  let live := if left then [] else map snd (map_to_list (cursors_map c)) in
  put_ctx (Some (set_cursors (if left then cursors_map c else ∅)
                   (option_map (fun _ => []) (invalid_cursors c)) c));;;
  ret (inv ++ live).

(** Memory for so many cursors; [assert((total_csize == 0) ^ (cursors !=
    nullptr))], where [ctc_alloc_buf] of size 0 is null. *)
Definition alloc_cursors (total_csize size : Z) : M unit :=
  l <-- get_log;;
  if eqb (total_csize =? 0) (negb (size =? 0) && alloc_ok E l) then fail else ret tt.

Definition total_csize (c : thd_sess_ctx_s) : Z :=
  Z.of_nat (size (cursors_map c)) + Z.of_nat (length (default [] (invalid_cursors c))).

(** [h] is the address of the handler. *)
Definition update_sess_ctx_cursor_by_tch (h : Z) (tch : ctc_handler_t) : M unit :=
  if cursor_addr tch =? INVALID_VALUE64 then ret tt else
  c <-- the_ctx;;
  let register (inv : option (list Z)) : M unit :=
    let c := set_cursors (<[h := cursor_addr tch]> (cursors_map c)) inv c in
    put_ctx (Some c);;;
    match inv with
    | None => ret tt
    | Some inv =>
      let total := total_csize c in
      if total >=? SESSION_CURSOR_NUM then
        alloc_cursors total (Z.of_nat (length inv));;;
        cursors <-- ctc_copy_cursors_to_free true;;
        call (Ctc_free_session_cursors cursors);;; ret tt
      else ret tt
    end in
  match cursors_map c !! h with
  | Some current_cursor =>
    if current_cursor =? cursor_addr tch then ret tt
    else register (Some (default [] (invalid_cursors c) ++ [current_cursor]))
  | None => register (invalid_cursors c)
  end.

Definition update_sess_ctx_by_tch (tch : ctc_handler_t) : M unit :=
  c <-- get_or_init_sess_ctx;;
  match c with
  | None => ret tt
  | Some c => put_ctx (Some (mk_ctx (tch_sess_addr tch) (tch_thd_id tch) (tch_bind_core tch)
                               (is_ctc_trx_begin c) (tch_sql_stat_start tch) (cursors_map c)
                               (invalid_cursors c) (msg_buf c)))
  end.

Definition update_member_tch (tch : ctc_handler_t) (alloc_msg_buf : bool) : M ctc_handler_t :=
  c <-- get_ctx;;
  match c with
  | Some c =>
    if ctx_thd_id c =? thread_id t then
      let buf := msg_buf c || alloc_msg_buf in
      put_ctx (Some (mk_ctx (sess_addr c) (ctx_thd_id c) (bind_core c) (is_ctc_trx_begin c)
                       (sql_stat_start c) (cursors_map c) (invalid_cursors c) buf));;;
      ret (mk_tch (ctx_thd_id c) (sess_addr c) (tch_ctx_addr tch)
             (if tch_sess_addr tch =? sess_addr c then cursor_addr tch else INVALID_VALUE64) 0
             (cursor_ref tch) (bind_core c) (sql_command t) (query_id t)
             (sql_stat_start c || is_reading_dd E) (change_data_capture tch) (is_broadcast tch)
             (read_only_in_ct tch) buf)
    else
      ret (mk_tch (thread_id t) INVALID_VALUE64 (tch_ctx_addr tch) (cursor_addr tch) 0 0 0
             (sql_command t) (query_id t) false false (is_broadcast tch) false false)
  | None =>
    ret (mk_tch (thread_id t) INVALID_VALUE64 (tch_ctx_addr tch) (cursor_addr tch) 0 0 0
           (sql_command t) (query_id t) false false (is_broadcast tch) false false)
  end.

Definition release_sess_ctx : M unit := c <-- the_ctx;; put_ctx None.

(** ** Transactions *)

Definition isolation_level_to_cantian (l : enum_tx_isolation) : Z :=
  match l with
  | ISO_READ_UNCOMMITTED | ISO_READ_COMMITTED | ISO_REPEATABLE_READ => ISOLATION_READ_COMMITTED
  | ISO_SERIALIZABLE => ISOLATION_SERIALIZABLE
  end.

Definition trx_context (exclusive : bool) : ctc_trx_context_t :=
  mk_trx (isolation_level_to_cantian (tx_isolation t)) (negb (in_multi_stmt_transaction_mode t))
    (lock_wait E) exclusive.

Definition is_mysql_local : bool := has_flag t CTC_DDL_LOCAL_ENABLED.

(** [START TRANSACTION WITH CONSISTENT SNAPSHOT] *)
Definition ctc_start_trx_and_assign_scn : M ha_code :=
  if engine_ddl_passthru (srv E) t && is_alter_table_copy t None then ret OK else
  if negb (bool_decide (tx_isolation t = ISO_REPEATABLE_READ)) then ret OK else
  tch <-- get_tch_in_handler_data true;;
  match tch with
  | None => ret HA_ERR_OUT_OF_MEM
  | Some tch =>
    c <-- the_ctx;;
    if is_ctc_trx_begin c then fail else
    '(r, tch, _) <-- call_tch (Ctc_trx_begin (trx_context false) is_mysql_local) tch;;
    update_sess_ctx_by_tch tch;;;
    if decide (r <> CT_SUCCESS) then ret (convert r) else
    modify_ctx (set_trx_begin true);;;
    trans_register_ha (in_multi_stmt_transaction_mode t);;;
    ret OK
  end.

(** All cursors of the session, with the memory for them. *)
Definition take_cursors : M (list Z) :=
  c <-- the_ctx;;
  alloc_cursors (total_csize c) (total_csize c);;;
  ctc_copy_cursors_to_free false.

Definition ctc_free_cursors_no_autocommit : M unit :=
  if negb (in_multi_stmt_transaction_mode t) then ret tt else
  c <-- the_ctx;;
  if total_csize c <=? ctc_max_cursors_no_autocommit E then ret tt else
  cursors <-- take_cursors;;
  call (Ctc_free_session_cursors cursors);;; ret tt.

Definition will_end (all : bool) : bool := all || negb (in_multi_stmt_transaction_mode t).

(** The broadcast of an atomic DDL that the engine committed. *)
Definition commit_broadcast (is_ddl_commit : bool) : M unit :=
  if is_ddl_commit && negb (engine_skip_ddl (srv E) t) then
    r <-- call Ctc_execute_mysql_ddl_sql;;
    if decide (rp_ret r = CT_SUCCESS) then ret tt else fail
  else ret tt.

(** The end of [ctc_commit]. *)
Definition commit_finish (commit_trx : bool) : M ha_code :=
  (if negb commit_trx then modify_ctx (set_stat_start true) else ret tt);;;
  (if commit_trx && bool_decide (sql_command t = SQLCOM_ALTER_TABLE)
      && is_alter_table_copy t None
   then call Ctc_analyze_table;;; ret tt else ret tt);;;
  ret OK.

(** [commit_preprocess] *)
Definition commit_preprocess : M unit :=
  if is_work_flow (srv E) && has_invalidates E && negb (is_attachable E)
  then call Ctc_invalidate_dd;;; ret tt else ret tt.

Definition ctc_commit (commit_trx : bool) : M ha_code :=
  if engine_ddl_passthru (srv E) t
     && (is_alter_table_copy t None || is_create_table_check t || is_lock_table t)
  then ret OK else
  tch <-- get_tch_in_handler_data (will_end commit_trx);;
  match tch with
  | None => ret HA_ERR_OUT_OF_MEM
  | Some tch =>
    let is_dmlsql := enable_stat E && is_dml_query E in
    if will_end commit_trx then
      commit_preprocess;;;
      cursors <-- take_cursors;;
      '(r, tch, is_ddl_commit) <-- call_tch (Ctc_trx_commit cursors is_dmlsql) tch;;
      if decide (r <> CT_SUCCESS) then ret (convert r) else
      commit_broadcast is_ddl_commit;;;
      modify_ctx (set_trx_begin false);;; commit_finish commit_trx
    else if is_dmlsql then
      r <-- call Ctc_statistic_commit;;
      if decide (rp_ret r <> CT_SUCCESS) then ret (convert (rp_ret r))
      else ctc_free_cursors_no_autocommit;;; commit_finish commit_trx
    else ctc_free_cursors_no_autocommit;;; commit_finish commit_trx
  end.

Definition ctc_rollback (rollback_trx : bool) : M ha_code :=
  tch <-- get_tch_in_handler_data true;;
  match tch with
  | None => ret HA_ERR_OUT_OF_MEM
  | Some tch =>
    let finish : M ha_code :=
      (if negb rollback_trx then modify_ctx (set_stat_start true) else ret tt);;; ret OK in
    c <-- the_ctx;;
    if will_end rollback_trx then
      cursors <-- take_cursors;;
      r <-- call (Ctc_trx_rollback cursors);;
      if decide (rp_ret r <> CT_SUCCESS) then ret (convert (rp_ret r)) else
      modify_ctx (set_trx_begin false);;; finish
    else if negb (sql_stat_start c) then
      cursors <-- take_cursors;;
      call (Ctc_srv_rollback_savepoint cursors CTC_SQL_START_INTERNAL_SAVEPOINT);;; finish
    else ctc_free_cursors_no_autocommit;;; finish
  end.

Definition ctc_close_connect : M ha_code :=
  tch <-- get_tch_in_handler_data true;;
  match tch with
  | None => ret HA_ERR_OUT_OF_MEM
  | Some _ =>
    r <-- call (Ctc_close_session (negb (is_attachable E || is_initialize (srv E) || is_mdl_thd E)));;
    release_sess_ctx;;;
    ret (convert (rp_ret r))
  end.

Definition ctc_kill_connection : M unit :=
  tch <-- get_tch_in_handler_data true;;
  match tch with
  | None => ret tt
  | Some tch =>
    if tch_sess_addr tch =? INVALID_VALUE64 then ret tt
    else if is_ddl_cmd E then ret tt
    else call Ctc_kill_session;;; ret tt
  end.

(** ** Savepoints *)

(** [ER_DISALLOWED_OPERATION] for the name that the engine reserves. *)
Definition ctc_set_savepoint (savepoint : Z) : M ha_code :=
  let name := longlong2str E savepoint in
  tch <-- get_tch_in_handler_data true;;
  match tch with
  | None => ret HA_ERR_OUT_OF_MEM
  | Some _ =>
    if decide (name = CTC_SQL_START_INTERNAL_SAVEPOINT) then ret (HA ER_DISALLOWED_OPERATION) else
    r <-- call (Ctc_srv_set_savepoint name);; ret (convert (rp_ret r))
  end.

Definition ctc_rollback_savepoint (savepoint : Z) : M ha_code :=
  let name := longlong2str E savepoint in
  tch <-- get_tch_in_handler_data true;;
  match tch with
  | None => ret HA_ERR_OUT_OF_MEM
  | Some _ =>
    cursors <-- take_cursors;;
    r <-- call (Ctc_srv_rollback_savepoint cursors name);; ret (convert (rp_ret r))
  end.

Definition ctc_release_savepoint (savepoint : Z) : M ha_code :=
  if decide (sql_command t = SQLCOM_SAVEPOINT) then ret OK else
  let name := longlong2str E savepoint in
  tch <-- get_tch_in_handler_data true;;
  match tch with
  | None => ret HA_ERR_OUT_OF_MEM
  | Some _ => r <-- call (Ctc_srv_release_savepoint name);; ret (convert (rp_ret r))
  end.

(** ** The start of a statement *)

(** On the handler [tch], which is also returned; [exclusive]: its select lock
    is exclusive. *)
Definition start_stmt (exclusive : bool) (tch : ctc_handler_t) : M (ha_code * ctc_handler_t) :=
  trans_register_ha false;;;
  tch <-- update_member_tch tch false;;
  c <-- get_or_init_sess_ctx;;
  match c with
  | None => ret (HA_ERR_OUT_OF_MEM, tch)
  | Some _ =>
    modify_ctx (fun c => mk_ctx (sess_addr c) (thread_id t) (bind_core c) (is_ctc_trx_begin c)
                 (sql_stat_start c) (cursors_map c) (invalid_cursors c) (msg_buf c));;;
    (if negb (in_sub_stmt t) then modify_ctx (set_stat_start true) else ret tt);;;
    let tch := if negb (in_sub_stmt t)
               then mk_tch (tch_thd_id tch) (tch_sess_addr tch) (tch_ctx_addr tch)
                      (cursor_addr tch) (pre_sess_addr tch) (cursor_ref tch) (tch_bind_core tch)
                      (tch_sql_command tch) (tch_query_id tch) true (change_data_capture tch)
                      (is_broadcast tch) (read_only_in_ct tch) (tch_msg_buf tch)
               else tch in
    if decide (sql_command t = SQLCOM_LOCK_TABLES) then ret (OK, tch) else
    c <-- the_ctx;;
    if is_ctc_trx_begin c then
      if (tch_sess_addr tch =? INVALID_VALUE64) || negb (tch_thd_id tch =? thread_id t) then fail else
      r <-- call Ctc_statistic_begin;;
      ret (if decide (rp_ret r <> CT_SUCCESS) then convert (rp_ret r) else OK, tch)
    else
      '(r, tch, _) <-- call_tch (Ctc_trx_begin (trx_context exclusive) is_mysql_local) tch;;
      let '(mark, r) := check_error_code_to_mysql t r in
      mark_rollback mark;;;
      update_sess_ctx_by_tch tch;;;
      if decide (r <> CT_SUCCESS) then ret (convert r, tch) else
      modify_ctx (set_trx_begin true);;;
      (if in_multi_stmt_transaction_mode t then trans_register_ha true else ret tt);;;
      ret (OK, tch)
  end.

(** [F_UNLCK] is [unlock]; [log_table]: the table is a log table and the
    metadata is normalized. *)
Definition external_lock (log_table unlock exclusive : bool) (tch : ctc_handler_t)
  : M (ha_code * ctc_handler_t) :=
  if log_table then
    if negb (in_sub_stmt t) then
      c <-- get_or_init_sess_ctx;;
      match c with
      | None => fail
      | Some _ =>
        modify_ctx (set_stat_start true);;;
        ret (OK, mk_tch (tch_thd_id tch) (tch_sess_addr tch) (tch_ctx_addr tch)
                   (cursor_addr tch) (pre_sess_addr tch) (cursor_ref tch) (tch_bind_core tch)
                   (tch_sql_command tch) (tch_query_id tch) true (change_data_capture tch)
                   (is_broadcast tch) (read_only_in_ct tch) (tch_msg_buf tch))
      end
    else ret (OK, tch)
  else if engine_ddl_passthru (srv E) t && (is_create_table_check t || is_alter_table_copy t None)
  then ret (OK, tch)
  else if unlock then ret (OK, tch)
  else start_stmt exclusive tch.

End Ops.

(** ** Accounting for cursors

    [holds h m h']: when [m] starts with the cursors [h] in hand and returns
    [a], it has [h' a] in hand; every other cursor is still the session's or
    was passed to the engine to be freed. *)

Definition cursors_of (ev : event) : list Z :=
  match ev with
  | Ctc_trx_commit cs _ | Ctc_trx_rollback cs | Ctc_srv_rollback_savepoint cs _
  | Ctc_free_session_cursors cs => cs
  | _ => []
  end.

Definition freed (l : log) : list Z := concat (map (fun e => cursors_of (fst e)) l).

Definition ctx_cursors (c : thd_sess_ctx_s) : list Z :=
  default [] (invalid_cursors c) ++ map snd (map_to_list (cursors_map c)).

Definition live (w : world) : list Z :=
  match w_ctx w with Some c => ctx_cursors c | None => [] end.

Definition holds {A} (h : list Z) (m : M A) (h' : A -> list Z) : Prop :=
  forall w a w', m w = Some (a, w') ->
    h ++ live w ++ freed (w_log w) ≡ₚ h' a ++ live w' ++ freed (w_log w').

Lemma holds_ret {A} (a : A) h h' : h ≡ₚ h' a -> holds h (ret a) h'.
Proof. intros H w a' w' [= <- <-]. by rewrite H. Qed.

Lemma holds_bind {A B} (m : M A) (k : A -> M B) h h1 h2 :
  holds h m h1 -> (forall a, holds (h1 a) (k a) h2) -> holds h (bind m k) h2.
Proof.
  intros Hm Hk w b w' H. unfold bind in H. destruct (m w) as [[a w1]|] eqn:Hw; [|done].
  etrans; [by apply (Hm w a w1)|]. by apply (Hk a w1 b w').
Qed.

Lemma holds_fail {A} h h' : holds h (@fail A) h'.
Proof. intros w a w' H. done. Qed.

Lemma holds_get_ctx h : holds h get_ctx (fun _ => h).
Proof. intros w a w' [= <- <-]. done. Qed.

Lemma holds_get_log h : holds h get_log (fun _ => h).
Proof. intros w a w' [= <- <-]. done. Qed.

Lemma holds_register all h : holds h (trans_register_ha all) (fun _ => h).
Proof. intros w a w' [= <- <-]. done. Qed.

Lemma holds_mark b h : holds h (mark_rollback b) (fun _ => h).
Proof. intros w a w' [= <- <-]. done. Qed.

Lemma holds_the_ctx h : holds h the_ctx (fun _ => h).
Proof.
  intros w a w' H. unfold the_ctx in H. destruct (w_ctx w); [|done]. by injection H as <- <-.
Qed.

(** Reading and writing the context: the cursors stay the same. *)
Lemma holds_modify f h :
  (forall c, ctx_cursors (f c) = ctx_cursors c) -> holds h (modify_ctx f) (fun _ => h).
Proof.
  intros Hf w a w' H. unfold modify_ctx, bind, the_ctx, put_ctx in H.
  destruct (w_ctx w) as [c|] eqn:Hc; [|done]. injection H as <- <-. unfold live. cbn. rewrite Hc.
  by rewrite Hf.
Qed.

(** A computation whose context has the cursors of the old one. *)
Lemma holds_with {A} (m : M A) h h' :
  (forall w a w', m w = Some (a, w') -> h = h' a /\ live w' = live w /\ w_log w' = w_log w) ->
  holds h m h'.
Proof. intros H w a w' Hw. by destruct (H w a w' Hw) as (-> & -> & ->). Qed.

Section Accounting.
Context (E : env).

Lemma holds_call ev h h' : h ≡ₚ cursors_of ev ++ h' -> holds h (call E ev) (fun _ => h').
Proof.
  intros H w a w' [= <- <-]. unfold live. cbn. rewrite H. unfold freed. cbn.
  solve_Permutation.
Qed.

Lemma holds_call_tch ev tch h h' :
  h ≡ₚ cursors_of ev ++ h' -> holds h (call_tch E ev tch) (fun _ => h').
Proof.
  intros H. eapply holds_bind; [by apply holds_call|]. intros r. by apply holds_ret.
Qed.

Lemma holds_alloc n m h : holds h (alloc_cursors E n m) (fun _ => h).
Proof.
  eapply holds_bind; [apply holds_get_log|]. intros l.
  destruct (eqb _ _); [apply holds_fail|by apply holds_ret].
Qed.

Lemma holds_copy left h : holds h (ctc_copy_cursors_to_free left) (fun cs => cs ++ h).
Proof.
  intros w cs w' H. unfold ctc_copy_cursors_to_free, bind, the_ctx, put_ctx, ret in H.
  destruct (w_ctx w) as [c|] eqn:Hc; [|done]. injection H as <- <-. unfold live. cbn. rewrite Hc.
  unfold ctx_cursors. cbn. destruct left.
  - destruct (invalid_cursors c); cbn [option_map default app]; solve_Permutation.
  - rewrite map_to_list_empty. destruct (invalid_cursors c); cbn; solve_Permutation.
Qed.

Lemma holds_take h : holds h (take_cursors E) (fun cs => cs ++ h).
Proof.
  apply (holds_bind _ _ h (fun _ => h)); [apply holds_the_ctx|]. intros c.
  apply (holds_bind _ _ h (fun _ => h)); [apply holds_alloc|]. intros ?. apply holds_copy.
Qed.

Lemma holds_init h : holds h (get_or_init_sess_ctx E) (fun _ => h).
Proof.
  apply holds_with. intros w a w' H. unfold get_or_init_sess_ctx, bind, get_ctx, get_log, put_ctx, ret in H.
  unfold live. destruct (w_ctx w) as [c|] eqn:Hc; [injection H as <- <-; by rewrite Hc|].
  destruct (malloc_ok E (w_log w)); cbn in H; injection H as <- <-; by rewrite ?Hc.
Qed.

Lemma holds_get_tch b h : holds h (get_tch_in_handler_data E b) (fun _ => h).
Proof.
  apply holds_with. intros w a w' H.
  unfold get_tch_in_handler_data, get_or_init_sess_ctx, bind, get_ctx, get_log, put_ctx, ret in H.
  unfold live. destruct (w_ctx w) as [c|] eqn:Hc.
  - injection H as <- <-. cbn. by destruct (negb _).
  - destruct (malloc_ok E (w_log w)); cbn in H; [|by injection H as <- <-; rewrite Hc].
    injection H as <- <-. cbn. by destruct (negb _).
Qed.

Lemma holds_update_sess tch h : holds h (update_sess_ctx_by_tch E tch) (fun _ => h).
Proof.
  apply holds_with. intros w a w' H.
  unfold update_sess_ctx_by_tch, get_or_init_sess_ctx, bind, get_ctx, get_log, put_ctx, ret in H.
  unfold live. destruct (w_ctx w) as [c|] eqn:Hc; [by injection H as <- <-|].
  destruct (malloc_ok E (w_log w)); cbn in H; injection H as <- <-; by rewrite ?Hc.
Qed.

Lemma holds_update_member tch b h : holds h (update_member_tch E tch b) (fun _ => h).
Proof.
  apply holds_with. intros w a w' H. unfold update_member_tch, bind, get_ctx, put_ctx, ret in H.
  unfold live. destruct (w_ctx w) as [c|] eqn:Hc; [|by injection H as <- <-; rewrite Hc].
  destruct (_ =? _); injection H as <- <-; [done|by rewrite Hc].
Qed.

End Accounting.

Create HintDb holds.
#[local] Hint Resolve holds_get_ctx holds_get_log holds_register holds_mark holds_the_ctx
  holds_init holds_get_tch holds_update_sess holds_update_member holds_fail : holds.

(** One step of a computation that has nothing in hand at its end and takes
    cursors only to pass them on. *)
Ltac holds_step :=
  match goal with
  | |- holds _ (bind (take_cursors _) _) _ => eapply holds_bind; [apply holds_take|intros ?]
  | |- holds _ (bind _ _) _ => apply (holds_bind _ _ _ (fun _ => [])); [|intros ?; cbv beta]
  | |- holds _ (if ?b then _ else _) _ => destruct b
  | |- holds _ (match ?x with _ => _ end) _ => destruct x
  | |- holds _ (modify_ctx _) _ => apply holds_modify; intros ?; reflexivity
  | |- holds _ (ret _) _ => by apply holds_ret
  | |- holds _ (call _ _) _ => by apply holds_call
  | |- holds _ (call_tch _ _ _) _ => by apply holds_call_tch
  | |- holds _ (let '_ := _ in _) _ => progress cbv zeta
  | |- holds _ _ _ => solve [eauto with holds]
  end.

Section Conserves.
Context (E : env).

Lemma holds_no_autocommit : holds [] (ctc_free_cursors_no_autocommit E) (fun _ => []).
Proof. unfold ctc_free_cursors_no_autocommit. repeat holds_step. Qed.

#[local] Hint Resolve holds_no_autocommit : holds.

Lemma holds_start_trx : holds [] (ctc_start_trx_and_assign_scn E) (fun _ => []).
Proof. unfold ctc_start_trx_and_assign_scn. repeat holds_step. Qed.

Lemma holds_commit b : holds [] (ctc_commit E b) (fun _ => []).
Proof.
  unfold ctc_commit, commit_preprocess, commit_broadcast, commit_finish. repeat holds_step.
Qed.

Lemma holds_rollback b : holds [] (ctc_rollback E b) (fun _ => []).
Proof. unfold ctc_rollback. repeat holds_step. Qed.

Lemma holds_kill : holds [] (ctc_kill_connection E) (fun _ => []).
Proof. unfold ctc_kill_connection. repeat holds_step. Qed.

Lemma holds_set_savepoint n : holds [] (ctc_set_savepoint E n) (fun _ => []).
Proof. unfold ctc_set_savepoint. repeat holds_step. Qed.

Lemma holds_rollback_savepoint n : holds [] (ctc_rollback_savepoint E n) (fun _ => []).
Proof. unfold ctc_rollback_savepoint. repeat holds_step. Qed.

Lemma holds_release_savepoint n : holds [] (ctc_release_savepoint E n) (fun _ => []).
Proof. unfold ctc_release_savepoint. repeat holds_step. Qed.

Lemma holds_start_stmt x tch : holds [] (start_stmt E x tch) (fun _ => []).
Proof. unfold start_stmt. repeat holds_step. Qed.

#[local] Hint Resolve holds_start_stmt : holds.

Lemma holds_external_lock l u x tch : holds [] (external_lock E l u x tch) (fun _ => []).
Proof. unfold external_lock. repeat holds_step. Qed.

End Conserves.

(** ** Histories of a connection *)

Inductive session_op :=
  | Op_start_trx_and_assign_scn
  | Op_commit (all : bool)
  | Op_rollback (all : bool)
  | Op_close_connect
  | Op_kill_connection
  | Op_set_savepoint (sv : Z)
  | Op_rollback_savepoint (sv : Z)
  | Op_release_savepoint (sv : Z)
  | Op_external_lock (log_table unlock exclusive : bool) (tch : ctc_handler_t)
  | Op_start_stmt (exclusive : bool) (tch : ctc_handler_t)
  | Op_update_sess_ctx_cursor (h : Z) (tch : ctc_handler_t).

Definition ignore_result {A} (m : M A) : M unit := bind m (fun _ => ret tt).

Definition run_op (E : env) (op : session_op) : M unit :=
  match op with
  | Op_start_trx_and_assign_scn => ignore_result (ctc_start_trx_and_assign_scn E)
  | Op_commit all => ignore_result (ctc_commit E all)
  | Op_rollback all => ignore_result (ctc_rollback E all)
  | Op_close_connect => ignore_result (ctc_close_connect E)
  | Op_kill_connection => ctc_kill_connection E
  | Op_set_savepoint sv => ignore_result (ctc_set_savepoint E sv)
  | Op_rollback_savepoint sv => ignore_result (ctc_rollback_savepoint E sv)
  | Op_release_savepoint sv => ignore_result (ctc_release_savepoint E sv)
  | Op_external_lock l u x tch => ignore_result (external_lock E l u x tch)
  | Op_start_stmt x tch => ignore_result (start_stmt E x tch)
  | Op_update_sess_ctx_cursor h tch => update_sess_ctx_cursor_by_tch E h tch
  end.

(** The cursor that becomes the session's by an operation: the handler's, when
    it has one that the session does not know of. *)
Definition opens (op : session_op) (w : world) : list Z :=
  match op with
  | Op_update_sess_ctx_cursor h tch =>
    if cursor_addr tch =? INVALID_VALUE64 then []
    else if decide ((c ← w_ctx w; cursors_map c !! h) = Some (cursor_addr tch)) then []
    else [cursor_addr tch]
  | _ => []
  end.

(** The cursors left to the closing of the connection. *)
Definition drops (op : session_op) (w : world) : list Z :=
  match op with Op_close_connect => live w | _ => [] end.

(** Worlds reached from a new connection, each operation in an environment
    that [ok] admits, with the cursors opened and dropped so far. *)
Inductive reach (ok : env -> Prop) : world -> list Z -> list Z -> Prop :=
  | reach_new : reach ok (mk_world None [] false false false) [] []
  | reach_step E op w w' opened dropped :
      reach ok w opened dropped -> ok E -> run_op E op w = Some (tt, w') ->
      reach ok w' (opens op w ++ opened) (drops op w ++ dropped).

Lemma holds_ignore {A} (m : M A) : holds [] m (fun _ => []) -> holds [] (ignore_result m) (fun _ => []).
Proof. intros H. eapply holds_bind; [apply H|]. intros a. by apply holds_ret. Qed.

Lemma get_tch_live E b w r w' :
  get_tch_in_handler_data E b w = Some (r, w') -> live w' = live w /\ w_log w' = w_log w.
Proof.
  unfold get_tch_in_handler_data, get_or_init_sess_ctx, bind, get_ctx, get_log, put_ctx, ret.
  unfold live. destruct (w_ctx w) as [c|] eqn:Hc.
  - intros [= <- <-]. cbn. by destruct (negb _).
  - destruct (malloc_ok E (w_log w)); cbn; intros [= <- <-]; [|by rewrite Hc].
    cbn. by destruct (negb _).
Qed.

(** Closing leaves no context, and frees no cursor by itself. *)
Lemma close_connect_effect E w r w' :
  ctc_close_connect E w = Some (r, w') -> live w' = [] /\ freed (w_log w') = freed (w_log w).
Proof.
  unfold ctc_close_connect. unfold bind at 1.
  destruct (get_tch_in_handler_data E true w) as [[[tch|] w1]|] eqn:H1; [|cbn..]; [| |done].
  2:{ intros [= <- <-]. pose proof (get_tch_live _ _ _ _ _ H1) as [-> ->].
      split; [|done]. unfold get_tch_in_handler_data, get_or_init_sess_ctx, bind, get_ctx, get_log,
        put_ctx, ret in H1. unfold live. destruct (w_ctx w); [done|].
      done. }
  apply get_tch_live in H1 as [_ <-].
  unfold bind, call, release_sess_ctx, the_ctx, bind, put_ctx, ret. cbn.
  destruct (w_ctx w1); [|done]. cbn. by intros [= <- <-].
Qed.

Lemma map_to_list_replace (m : gmap Z Z) h x :
  map snd (map_to_list (<[h := x]> m))
  ≡ₚ x :: map snd (map_to_list (delete h m)).
Proof.
  rewrite <- insert_delete_eq. rewrite map_to_list_insert by apply lookup_delete_eq. done.
Qed.

Lemma map_to_list_delete (m : gmap Z Z) h y :
  m !! h = Some y ->
  map snd (map_to_list m) ≡ₚ y :: map snd (map_to_list (delete h m)).
Proof.
  intros H. rewrite <- (insert_id m h y) at 1 by done. by rewrite map_to_list_replace.
Qed.

(** The part of [update_sess_ctx_cursor_by_tch] that frees replaced cursors. *)
Lemma holds_free_invalid E (b : bool) n k :
  holds [] (if b then alloc_cursors E n k;;; (cursors <-- ctc_copy_cursors_to_free true;;
                       call E (Ctc_free_session_cursors cursors);;; ret tt)
            else ret tt) (fun _ => []).
Proof.
  destruct b; [|by apply holds_ret].
  apply (holds_bind _ _ _ (fun _ => [])); [apply holds_alloc|intros _].
  eapply holds_bind; [apply holds_copy|intros cs; cbv beta].
  apply (holds_bind _ _ _ (fun _ => [])); [by apply holds_call|intros _]. by apply holds_ret.
Qed.

Lemma update_cursor_conserves E h tch w w' :
  update_sess_ctx_cursor_by_tch E h tch w = Some (tt, w') ->
  opens (Op_update_sess_ctx_cursor h tch) w ++ live w ++ freed (w_log w)
  ≡ₚ live w' ++ freed (w_log w').
Proof.
  unfold update_sess_ctx_cursor_by_tch, opens.
  destruct (_ =? INVALID_VALUE64); [by intros [= <-]|].
  unfold bind at 1, the_ctx. destruct (w_ctx w) as [c|] eqn:Hc; [|done]. cbn [mbind option_bind].
  unfold live at 1. rewrite Hc.
  assert (forall inv w1 w2, w_log w1 = w_log w ->
    w_ctx w1 = Some (set_cursors (<[h := cursor_addr tch]> (cursors_map c)) inv c) ->
    default [] inv ++ map snd (map_to_list (delete h (cursors_map c))) ≡ₚ ctx_cursors c ->
    (match inv with None => ret tt | Some vs =>
       if total_csize (set_cursors (<[h := cursor_addr tch]> (cursors_map c)) inv c)
          >=? SESSION_CURSOR_NUM then
         alloc_cursors E (total_csize (set_cursors (<[h := cursor_addr tch]> (cursors_map c))
           inv c)) (Z.of_nat (length vs));;;
         (cursors <-- ctc_copy_cursors_to_free true;;
          call E (Ctc_free_session_cursors cursors);;; ret tt)
       else ret tt end) w1 = Some (tt, w2) ->
    cursor_addr tch :: ctx_cursors c ++ freed (w_log w) ≡ₚ live w2 ++ freed (w_log w2)) as Hreg.
  { intros inv w1 w2 Hl Hx Hinv Hw. transitivity (live w1 ++ freed (w_log w1)).
    - rewrite Hl. unfold live. rewrite Hx. unfold ctx_cursors at 2. cbn [set_cursors invalid_cursors cursors_map].
      rewrite map_to_list_replace, <- Hinv. solve_Permutation.
    - destruct inv; [exact (holds_free_invalid E _ _ _ w1 tt w2 Hw)|by injection Hw as <-]. }
  destruct (cursors_map c !! h) as [cur|] eqn:Hh.
  - destruct (cur =? cursor_addr tch) eqn:Heq; zb.
    + intros [= <-]. rewrite decide_True by congruence. unfold live. by rewrite Hc.
    + rewrite decide_False by congruence. intros Hw.
      refine (Hreg (Some (default [] (invalid_cursors c) ++ [cur])) (mk_world (Some _) (w_log w)
        (w_reg_stmt w) (w_reg_all w) (w_mark_rollback w)) w' eq_refl eq_refl _ Hw).
      unfold ctx_cursors. cbn.
      rewrite (map_to_list_delete _ _ _ Hh). solve_Permutation.
  - rewrite decide_False by done. intros Hw.
    refine (Hreg (invalid_cursors c) (mk_world (Some _) (w_log w) (w_reg_stmt w) (w_reg_all w)
      (w_mark_rollback w)) w' eq_refl eq_refl _ Hw). unfold ctx_cursors.
    by rewrite delete_id.
Qed.

Lemma run_op_conserves E op w w' :
  run_op E op w = Some (tt, w') ->
  opens op w ++ live w ++ freed (w_log w) ≡ₚ drops op w ++ live w' ++ freed (w_log w').
Proof.
  destruct op; cbn [run_op opens drops app]; intros H.
  4: { unfold ignore_result, bind in H. destruct (ctc_close_connect E w) as [[r w1]|] eqn:Hw; [|done].
       injection H as <-. destruct (close_connect_effect _ _ _ _ Hw) as [-> ->]. done. }
  all: try (refine (holds_ignore _ _ w tt w' H);
            first [apply holds_start_trx|apply holds_commit|apply holds_rollback
                  |apply holds_set_savepoint|apply holds_rollback_savepoint
                  |apply holds_release_savepoint|apply holds_external_lock|apply holds_start_stmt]).
  - exact (holds_kill E w tt w' H).
  - by apply (update_cursor_conserves E).
Qed.

(** C5: no cursor is lost and none is freed twice: every cursor that the
    session of a connection came to know of (counted as often as it was
    registered) is, once each, either still the session's, or was handed to
    the engine by a commit, a rollback, a rollback to a savepoint or a request
    to free cursors, or was left to the closing of the connection. *)
Theorem cursors_conserved ok w opened dropped :
  reach ok w opened dropped -> opened ≡ₚ dropped ++ live w ++ freed (w_log w).
Proof.
  induction 1 as [|E op w w' opened dropped _ IH _ Hop]; [done|].
  apply run_op_conserves in Hop. rewrite IH.
  transitivity (dropped ++ (opens op w ++ live w ++ freed (w_log w))); [solve_Permutation|].
  rewrite Hop. solve_Permutation.
Qed.

(** ** The transaction of the session *)

(** Whether the engine has an open transaction. *)
Fixpoint trx_open (l : log) : bool :=
  match l with
  | [] => false
  | (ev, r) :: l =>
    match ev with
    | Ctc_trx_begin _ _ => if decide (rp_ret r = CT_SUCCESS) then true else trx_open l
    | Ctc_trx_commit _ _ | Ctc_trx_rollback _ =>
      if decide (rp_ret r = CT_SUCCESS) then false else trx_open l
    | Ctc_close_session _ => false
    | _ => trx_open l
    end
  end.

(** No transaction was begun while another one was open. *)
Fixpoint begins_ok (l : log) : Prop :=
  match l with
  | [] => True
  | (Ctc_trx_begin _ _, _) :: l => trx_open l = false /\ begins_ok l
  | _ :: l => begins_ok l
  end.

(** [P] before [m] gives [Q] after it. *)
Definition triple {A} (P : world -> Prop) (m : M A) (Q : A -> world -> Prop) : Prop :=
  forall w a w', P w -> m w = Some (a, w') -> Q a w'.

Lemma triple_ret {A} (a : A) (P : world -> Prop) (Q : A -> world -> Prop) :
  (forall w, P w -> Q a w) -> triple P (ret a) Q.
Proof. intros H w a' w' Hw [= <- <-]. auto. Qed.

Lemma triple_bind {A B} (m : M A) (k : A -> M B) P R Q :
  triple P m R -> (forall a, triple (R a) (k a) Q) -> triple P (bind m k) Q.
Proof.
  intros Hm Hk w b w' Hw H. unfold bind in H. destruct (m w) as [[a w1]|] eqn:E; [|done].
  by apply (Hk a w1 b w'); [apply (Hm w)|].
Qed.

Lemma triple_fail {A} P Q : triple P (@fail A) Q.
Proof. intros w a w' _ H. done. Qed.

Lemma triple_post {A} P (m : M A) (Q Q' : A -> world -> Prop) :
  triple P m Q -> (forall a w, Q a w -> Q' a w) -> triple P m Q'.
Proof. intros H HQ w a w' Hw Hm. by apply HQ, (H w). Qed.

Lemma triple_pre {A} (P P' : world -> Prop) (m : M A) Q :
  triple P m Q -> (forall w, P' w -> P w) -> triple P' m Q.
Proof. intros H HP w a w' Hw. apply H. by apply HP. Qed.

Lemma triple_ex {A X} (P : X -> world -> Prop) (m : M A) Q :
  (forall x, triple (P x) m Q) -> triple (fun w => exists x, P x w) m Q.
Proof. intros H w a w' [x Hx]. by apply (H x). Qed.

Lemma triple_pure {A} (P : world -> Prop) (phi : Prop) (m : M A) Q :
  (phi -> triple P m Q) -> triple (fun w => P w /\ phi) m Q.
Proof. intros H w a w' [Hw Hp]. by apply H. Qed.

Section Transaction.
Context (tid : Z) (E : env).
Context (Htid : thread_id (thd E) = tid).
Context (Hfk : forall l c b, no_fk_error (rp_ret (oracle E l (Ctc_trx_begin c b)))).

(** The session belongs to the thread; the engine's transaction is open iff
    [o], the session's flag is [f]. *)
Definition K (o f : bool) (w : world) : Prop :=
  exists c, w_ctx w = Some c /\ ctx_thd_id c = tid /\ is_ctc_trx_begin c = f /\
    trx_open (w_log w) = o /\ begins_ok (w_log w).

(** Between the calls of the server. *)
Definition trx_inv (w : world) : Prop :=
  begins_ok (w_log w) /\
  match w_ctx w with
  | None => trx_open (w_log w) = false
  | Some c => is_ctc_trx_begin c = trx_open (w_log w) /\
    (ctx_thd_id c <> tid -> trx_open (w_log w) = false)
  end.

Lemma K_inv o w : K o o w -> trx_inv w.
Proof.
  intros (c & Hc & Hid & Hf & Ho & Hok). unfold trx_inv. rewrite Hc. split; [done|].
  split; [congruence|done].
Qed.

(** Calls that are not about the transaction. *)
Definition plain (ev : event) : Prop :=
  match ev with
  | Ctc_trx_begin _ _ | Ctc_trx_commit _ _ | Ctc_trx_rollback _ | Ctc_close_session _ => False
  | _ => True
  end.

Lemma plain_open ev r l : plain ev -> trx_open ((ev, r) :: l) = trx_open l.
Proof. by destruct ev. Qed.

Lemma plain_ok ev r l : plain ev -> begins_ok ((ev, r) :: l) <-> begins_ok l.
Proof. by destruct ev. Qed.

Lemma K_call o f ev : plain ev -> triple (K o f) (call E ev) (fun _ => K o f).
Proof.
  intros Hp w r w' (c & Hc & Hid & Hf & Ho & Hok) [= <- <-]. exists c. cbn [w_ctx w_log].
  rewrite plain_open, plain_ok by done. done.
Qed.

Lemma K_modify o f f' g :
  (forall c, ctx_thd_id c = tid -> ctx_thd_id (g c) = tid) ->
  (forall c, is_ctc_trx_begin c = f -> is_ctc_trx_begin (g c) = f') ->
  triple (K o f) (modify_ctx g) (fun _ => K o f').
Proof.
  intros H1 H2 w r w' (c & Hc & Hid & Hf & Ho & Hok) H.
  unfold modify_ctx, bind, the_ctx, put_ctx in H. rewrite Hc in H. injection H as <- <-.
  exists (g c). cbn. auto.
Qed.

Lemma K_the_ctx o f :
  triple (K o f) the_ctx (fun c w => K o f w /\ is_ctc_trx_begin c = f).
Proof.
  intros w r w' Hw H. unfold the_ctx in H. pose proof Hw as (c & Hc & Hid & Hf & Ho & Hok).
  rewrite Hc in H. injection H as <- <-. done.
Qed.

Lemma K_alloc o f n k : triple (K o f) (alloc_cursors E n k) (fun _ => K o f).
Proof.
  intros w r w' Hw H. unfold alloc_cursors, bind, get_log in H.
  destruct (eqb _ _); [done|by injection H as <- <-].
Qed.

Lemma K_copy o f left : triple (K o f) (ctc_copy_cursors_to_free left) (fun _ => K o f).
Proof.
  intros w r w' (c & Hc & Hid & Hf & Ho & Hok) H.
  unfold ctc_copy_cursors_to_free, bind, the_ctx, put_ctx, ret in H. rewrite Hc in H.
  injection H as <- <-. unfold K. cbn. eauto 10.
Qed.

Lemma K_take o f : triple (K o f) (take_cursors E) (fun _ => K o f).
Proof.
  eapply triple_bind; [apply K_the_ctx|intros c].
  apply (triple_bind _ _ _ (fun _ => K o f)); [|intros ?; apply K_copy].
  by eapply triple_pre; [apply K_alloc|intros w [? _]].
Qed.

Lemma K_register o f all : triple (K o f) (trans_register_ha all) (fun _ => K o f).
Proof. intros w r w' Hw [= <- <-]. done. Qed.

Lemma K_mark o f b : triple (K o f) (mark_rollback b) (fun _ => K o f).
Proof. intros w r w' Hw [= <- <-]. done. Qed.

Lemma K_init o f :
  triple (K o f) (get_or_init_sess_ctx E) (fun _ => K o f).
Proof.
  intros w r w' Hw H. unfold get_or_init_sess_ctx, bind, get_ctx in H.
  pose proof Hw as (c & Hc & _). rewrite Hc in H. by injection H as <- <-.
Qed.

Lemma K_update_sess o f tch :
  tch_thd_id tch = tid -> triple (K o f) (update_sess_ctx_by_tch E tch) (fun _ => K o f).
Proof.
  intros Ht w r w' (c & Hc & Hid & Hf & Ho & Hok) H.
  unfold update_sess_ctx_by_tch, get_or_init_sess_ctx, bind, get_ctx, put_ctx, ret in H.
  rewrite Hc in H. injection H as <- <-. unfold K. cbn. eauto 10.
Qed.

(** Getting a handler for a call reconciles the session with the thread. *)
Lemma get_tch_K b :
  triple trx_inv (get_tch_in_handler_data E b)
    (fun a w => trx_inv w /\ forall tch, a = Some tch -> tch_thd_id tch = tid /\ exists o, K o o w).
Proof.
  intros w a w' [Hok Hw] H. unfold get_tch_in_handler_data, get_or_init_sess_ctx, bind, get_ctx,
    get_log, put_ctx, ret in H.
  rewrite Htid in H. destruct (w_ctx w) as [c|] eqn:Hc.
  - destruct Hw as [Hf Ho]. injection H as <- <-.
    assert (exists o, K o o (mk_world (Some
      (let c := if negb (ctx_thd_id c =? tid)
             then mk_ctx INVALID_VALUE64 tid 0 false false (cursors_map c)
                    (invalid_cursors c) (msg_buf c)
             else c in
       mk_ctx (sess_addr c) (ctx_thd_id c) (bind_core c) (is_ctc_trx_begin c)
               (sql_stat_start c) (cursors_map c) (invalid_cursors c) (msg_buf c || b)))
      (w_log w) (w_reg_stmt w) (w_reg_all w) (w_mark_rollback w))) as [o HK].
    { exists (trx_open (w_log w)). eexists. split; [done|]. cbn.
      destruct (ctx_thd_id c =? tid) eqn:Heq; zb; cbn; [done|]. rewrite Ho by done. done. }
    split; [by eapply K_inv|]. intros tch [= <-]. split; [|by exists o].
    destruct HK as (c' & [= <-] & Hid & _). exact Hid.
  - destruct (malloc_ok E (w_log w)); cbn in H.
    2:{ injection H as <- <-. split; [|done]. split; [done|]. by rewrite Hc. }
    injection H as <- <-.
    assert (K false false (mk_world (Some
      (let c := if negb (2 ^ 32 - 1 =? tid)
             then mk_ctx INVALID_VALUE64 tid 0 false false ∅ None false
             else mk_ctx INVALID_VALUE64 (2 ^ 32 - 1) (2 ^ 16 - 1) false false ∅ None false in
       mk_ctx (sess_addr c) (ctx_thd_id c) (bind_core c) (is_ctc_trx_begin c)
               (sql_stat_start c) (cursors_map c) (invalid_cursors c) (msg_buf c || b)))
      (w_log w) (w_reg_stmt w) (w_reg_all w) (w_mark_rollback w))) as HK.
    { eexists. split; [done|]. cbn. destruct (2 ^ 32 - 1 =? tid) eqn:Heq; zb; cbn; done. }
    split; [by eapply K_inv|]. intros tch [= <-]. split; [|by exists false].
    destruct HK as (c' & [= <-] & Hid & _). exact Hid.
Qed.

Lemma K_begin x b :
  triple (K false false) (call E (Ctc_trx_begin x b))
    (fun r => K (bool_decide (rp_ret r = CT_SUCCESS)) false).
Proof.
  intros w r w' (c & Hc & Hid & Hf & Ho & Hok) [= <- <-]. exists c. cbn.
  split_and!; try done. by rewrite Ho.
Qed.

Lemma K_begin_tch x b tch :
  tch_thd_id tch = tid ->
  triple (K false false) (call_tch E (Ctc_trx_begin x b) tch)
    (fun a w => K (bool_decide (a.1.1 = CT_SUCCESS)) false w /\ tch_thd_id a.1.2 = tid /\
                no_fk_error a.1.1).
Proof.
  intros Ht w a w' Hw H. unfold call_tch, bind in H.
  destruct (call E (Ctc_trx_begin x b) w) as [[r w1]|] eqn:Hcall; [|done].
  pose proof (K_begin _ _ _ _ _ Hw Hcall) as HK. injection H as <- <-. split; [exact HK|].
  split; [done|]. injection Hcall as <- _. apply Hfk.
Qed.

Lemma K_end o ev :
  match ev with Ctc_trx_commit _ _ | Ctc_trx_rollback _ => True | _ => False end ->
  triple (K o o) (call E ev)
    (fun r w => if decide (rp_ret r = CT_SUCCESS) then K false o w else K o o w).
Proof.
  intros Hev w r w' (c & Hc & Hid & Hf & Ho & Hok) [= <- <-].
  destruct ev; try done; destruct (decide _) as [Hr|Hr]; exists c;
    cbn [w_ctx w_log trx_open begins_ok]; (split_and!; [done..| |done]).
  all: first [by rewrite (decide_True _ _ Hr)|by rewrite (decide_False _ _ Hr)].
Qed.

Lemma K_end_tch o ev tch :
  match ev with Ctc_trx_commit _ _ | Ctc_trx_rollback _ => True | _ => False end ->
  triple (K o o) (call_tch E ev tch)
    (fun a w => if decide (a.1.1 = CT_SUCCESS) then K false o w else K o o w).
Proof.
  intros Hev w a w' Hw H. unfold call_tch, bind in H.
  destruct (call E ev w) as [[r w1]|] eqn:Hcall; [|done].
  pose proof (K_end _ _ Hev _ _ _ Hw Hcall) as HK. injection H as <- <-. exact HK.
Qed.

Lemma K_free_no_autocommit o f :
  triple (K o f) (ctc_free_cursors_no_autocommit E) (fun _ => K o f).
Proof.
  unfold ctc_free_cursors_no_autocommit. destruct (negb _); [by apply triple_ret|].
  eapply triple_bind; [apply K_the_ctx|intros c].
  destruct (_ <=? _); [apply triple_ret; by intros w [? _]|].
  apply triple_bind with (fun _ => K o f);
    [by eapply triple_pre; [apply K_take|intros w [? _]]|intros cs].
  eapply triple_bind; [by apply K_call|intros r]. by apply triple_ret.
Qed.

(** Steps that leave the transaction as it is. *)
Ltac K_step :=
  match goal with
  | |- triple (K ?o ?f) (bind _ _) _ => apply (triple_bind _ _ _ (fun _ => K o f)); [|intros ?; cbv beta]
  | |- triple _ (if ?b then _ else _) _ => destruct b
  | |- triple (K _ _) (match ?x with _ => _ end) _ => destruct x
  | |- triple _ (ret _) _ => apply triple_ret; try done; intros ?; apply K_inv
  | |- triple _ fail _ => apply triple_fail
  | |- triple _ (call _ _) _ => by apply K_call
  | |- triple _ (take_cursors _) _ => apply K_take
  | |- triple _ (trans_register_ha _) _ => apply K_register
  | |- triple _ (mark_rollback _) _ => apply K_mark
  | |- triple _ (ctc_free_cursors_no_autocommit _) _ => apply K_free_no_autocommit
  | |- triple _ (modify_ctx _) _ => by apply K_modify
  end.

(** An operation that gets a handler for its calls. *)
Lemma with_tch {A} b (k : ctc_handler_t -> M A) (e : A) (Q : A -> world -> Prop) :
  (forall w, trx_inv w -> Q e w) ->
  (forall tch o, tch_thd_id tch = tid -> triple (K o o) (k tch) Q) ->
  triple trx_inv
    (bind (get_tch_in_handler_data E b) (fun tch => match tch with None => ret e | Some tch => k tch end)) Q.
Proof.
  intros He Hk. eapply triple_bind; [by apply get_tch_K|intros [tch|]; cbv beta].
  - intros w a w' [_ Hw]. destruct (Hw tch eq_refl) as [Ht [o Ho]]. by apply (Hk tch o Ht w a w').
  - apply triple_ret. intros w [Hw _]. by apply He.
Qed.

Let inv {A} : A -> world -> Prop := fun _ => trx_inv.

Lemma trx_savepoint_ops n :
  triple trx_inv (ctc_set_savepoint E n) inv /\ triple trx_inv (ctc_rollback_savepoint E n) inv /\
  triple trx_inv (ctc_release_savepoint E n) inv.
Proof.
  unfold ctc_set_savepoint, ctc_rollback_savepoint, ctc_release_savepoint. split_and!.
  - apply with_tch; [done|]. intros tch o _. repeat K_step.
  - apply with_tch; [done|]. intros tch o _. repeat K_step.
  - destruct (decide _); [by apply triple_ret|]. apply with_tch; [done|]. intros tch o _. repeat K_step.
Qed.

Lemma trx_kill : triple trx_inv (ctc_kill_connection E) inv.
Proof. apply with_tch; [done|]. intros tch o _. repeat K_step. Qed.

Lemma trx_commit all : triple trx_inv (ctc_commit E all) inv.
Proof.
  unfold ctc_commit, commit_preprocess, commit_broadcast, commit_finish.
  destruct (_ && _); [by apply triple_ret|].
  apply with_tch; [done|]. intros tch o _. destruct (will_end E all).
  2:{ repeat K_step. }
  K_step; [repeat K_step|]. K_step; [repeat K_step|].
  eapply triple_bind; [by apply K_end_tch|intros [[r tch'] ddl]; cbn [fst]].
  destruct (decide (r <> CT_SUCCESS)) as [Hr|Hr].
  { apply triple_pre with (K o o); [repeat K_step|intros w; by rewrite decide_False]. }
  apply triple_pre with (K false o); [|intros w; rewrite decide_True; [done|by apply dec_stable]].
  K_step; [repeat K_step|]. apply (triple_bind _ _ _ (fun _ => K false false)); [by apply K_modify|].
  intros ?. repeat K_step.
Qed.

Lemma trx_rollback all : triple trx_inv (ctc_rollback E all) inv.
Proof.
  apply with_tch; [done|]. intros tch o _. eapply triple_bind; [apply K_the_ctx|intros c].
  apply triple_pre with (K o o); [|by intros w [? _]]. destruct (will_end E all).
  2:{ repeat K_step. }
  K_step; [repeat K_step|].
  eapply triple_bind; [by apply K_end|intros r; cbv beta].
  destruct (decide (rp_ret r <> CT_SUCCESS)) as [Hr|Hr].
  { apply triple_pre with (K o o); [repeat K_step|intros w; by rewrite decide_False]. }
  apply triple_pre with (K false o); [|intros w; rewrite decide_True; [done|by apply dec_stable]].
  apply (triple_bind _ _ _ (fun _ => K false false)); [by apply K_modify|].
  intros ?. repeat K_step.
Qed.

(** After the begin of a transaction. *)
Lemma after_begin {A} r (m1 m2 : M A) :
  (r <> CT_SUCCESS -> triple (K false false) m1 inv) ->
  triple (K true true) m2 inv ->
  triple (K (bool_decide (r = CT_SUCCESS)) false)
    (if decide (r <> CT_SUCCESS) then m1 else modify_ctx (set_trx_begin true);;; m2) inv.
Proof.
  intros H1 H2. destruct (decide (r <> CT_SUCCESS)) as [Hr|Hr].
  - rewrite bool_decide_false by done. auto.
  - rewrite bool_decide_true by (by apply dec_stable).
    apply (triple_bind _ _ _ (fun _ => K true true)); [by apply K_modify|intros ?; exact H2].
Qed.

Lemma trx_start_trx : triple trx_inv (ctc_start_trx_and_assign_scn E) inv.
Proof.
  unfold ctc_start_trx_and_assign_scn.
  destruct (_ && _); [by apply triple_ret|]. destruct (negb (bool_decide _)); [by apply triple_ret|].
  apply with_tch; [done|]. intros tch o Ht. eapply triple_bind; [apply K_the_ctx|intros c; cbv beta].
  destruct (is_ctc_trx_begin c); [apply triple_fail|].
  apply triple_pre with (K false false); [|by intros w [? <-]].
  eapply triple_bind; [by apply K_begin_tch|intros [[r tch'] ddl]; cbn [fst snd]].
  apply (triple_bind _ _ _ (fun _ => K (bool_decide (r = CT_SUCCESS)) false)).
  { intros w a w' (HK & Ht' & _). by apply K_update_sess. }
  intros ?. apply after_begin; [intros _|]; repeat K_step.
Qed.

Lemma inv_register all : triple trx_inv (trans_register_ha all) inv.
Proof. intros w r w' Hw [= <- <-]. done. Qed.

Lemma inv_update_member tch b :
  triple trx_inv (update_member_tch E tch b) (fun tch' w => trx_inv w /\ tch_thd_id tch' = tid).
Proof.
  intros w a w' Hw H. unfold update_member_tch, bind, get_ctx, put_ctx, ret in H.
  rewrite Htid in H. destruct (w_ctx w) as [c|] eqn:Hc; [|by injection H as <- <-].
  destruct (ctx_thd_id c =? tid) eqn:Heq; injection H as <- <-; [|done]. zb.
  unfold trx_inv in *. rewrite Hc in Hw. cbn. tauto.
Qed.

Lemma inv_init : triple trx_inv (get_or_init_sess_ctx E) (fun a w => trx_inv w /\ a = w_ctx w).
Proof.
  intros w a w' Hw H. unfold get_or_init_sess_ctx, bind, get_ctx, get_log, put_ctx, ret in H.
  destruct (w_ctx w) as [c|] eqn:Hc; [by injection H as <- <-|].
  destruct (malloc_ok E (w_log w)); cbn in H; injection H as <- <-; [|by rewrite Hc].
  unfold trx_inv in *. rewrite Hc in Hw. cbn. destruct Hw as [? ->]. done.
Qed.

Lemma inv_modify f :
  (forall c, ctx_thd_id (f c) = ctx_thd_id c /\ is_ctc_trx_begin (f c) = is_ctc_trx_begin c) ->
  triple trx_inv (modify_ctx f) inv.
Proof.
  intros Hf w r w' Hw H. unfold modify_ctx, bind, the_ctx, put_ctx in H.
  destruct (w_ctx w) as [c|] eqn:Hc; [|done]. injection H as <- <-.
  unfold inv, trx_inv in *. rewrite Hc in Hw. cbn. by destruct (Hf c) as [-> ->].
Qed.

(** The session is given to the thread. *)
Lemma inv_to_K f c0 :
  (forall c, ctx_thd_id (f c) = tid /\ is_ctc_trx_begin (f c) = is_ctc_trx_begin c) ->
  triple (fun w => trx_inv w /\ Some c0 = w_ctx w) (modify_ctx f) (fun _ w => exists o, K o o w).
Proof.
  intros Hf w r w' [Hw Hc] H. unfold modify_ctx, bind, the_ctx, put_ctx in H.
  rewrite <- Hc in H. injection H as <- <-. unfold trx_inv in Hw. rewrite <- Hc in Hw.
  destruct Hw as (Hok & Hfl & _). destruct (Hf c0) as [H1 H2].
  exists (trx_open (w_log w)), (f c0). rewrite H2. done.
Qed.

Lemma trx_start_stmt x tch : triple trx_inv (start_stmt E x tch) inv.
Proof.
  unfold start_stmt. eapply triple_bind; [apply inv_register|intros ?; cbv beta].
  eapply triple_bind; [apply inv_update_member|intros tch1; cbv beta].
  apply (triple_bind _ _ _ (fun a w => (trx_inv w /\ a = w_ctx w) /\ tch_thd_id tch1 = tid)).
  { intros w x0 w' [Hw Ht] H. split; [by apply (inv_init w)|done]. }
  intros [c0|]; cbv beta; [|apply triple_ret; by intros w [[? _] _]].
  apply triple_pure. intros Ht.
  eapply triple_bind; [by apply inv_to_K|intros ?; cbv beta]. apply triple_ex. intros o.
  apply triple_pre with (K o o); [|done].
  K_step; [repeat K_step|]. destruct (decide _); [repeat K_step|].
  eapply triple_bind; [apply K_the_ctx|intros c; cbv beta].
  destruct (is_ctc_trx_begin c).
  { apply triple_pre with (K o o); [repeat K_step|by intros w [? _]]. }
  apply triple_pre with (K false false); [|by intros w [? <-]].
  eapply triple_bind; [apply K_begin_tch; by destruct (negb _)|intros [[r tch'] ddl]; cbn [fst snd]].
  apply triple_pre with (fun w => K (bool_decide (r = CT_SUCCESS)) false w /\
    (tch_thd_id tch' = tid /\ no_fk_error r)); [|done].
  apply triple_pure. intros [Ht' Hnofk].
  pose proof (checked_id (thd E) r Hnofk) as Hck. unfold checked in Hck.
  destruct (check_error_code_to_mysql (thd E) r) as [mark r']. cbn in Hck. subst r'.
  K_step; [apply K_mark|].
  apply (triple_bind _ _ _ (fun _ => K (bool_decide (r = CT_SUCCESS)) false));
    [by apply K_update_sess|].
  intros ?. apply after_begin; [intros _|]; repeat K_step.
Qed.

Lemma trx_external_lock l u x tch : triple trx_inv (external_lock E l u x tch) inv.
Proof.
  unfold external_lock. destruct l.
  - destruct (negb _); [|by apply triple_ret].
    eapply triple_bind; [apply inv_init|intros [c|]; cbv beta]; [|apply triple_fail].
    apply (triple_bind _ _ _ (fun _ => trx_inv)); [|intros ?; by apply triple_ret].
    by eapply triple_pre; [by apply inv_modify|intros w [? _]].
  - repeat (destruct (_ && _) || destruct u); try (by apply triple_ret). apply trx_start_stmt.
Qed.

Lemma inv_call ev : plain ev -> triple trx_inv (call E ev) inv.
Proof.
  intros Hp w r w' Hw [= <- <-]. unfold inv, trx_inv in *. cbn [w_log w_ctx].
  by rewrite plain_open, plain_ok.
Qed.

Lemma inv_put_cursors m i c w :
  trx_inv w -> w_ctx w = Some c ->
  trx_inv (mk_world (Some (set_cursors m i c)) (w_log w) (w_reg_stmt w) (w_reg_all w)
             (w_mark_rollback w)).
Proof. unfold trx_inv. intros Hw Hc. by rewrite Hc in Hw. Qed.

Lemma trx_free_invalid (b : bool) n k :
  triple trx_inv (if b then alloc_cursors E n k;;; (cursors <-- ctc_copy_cursors_to_free true;;
                       call E (Ctc_free_session_cursors cursors);;; ret tt)
            else ret tt) inv.
Proof.
  destruct b; [|by apply triple_ret].
  apply (triple_bind _ _ _ (fun _ => trx_inv)).
  { intros w a w' Hw H. unfold alloc_cursors, bind, get_log in H.
    destruct (eqb _ _); [done|by injection H as <- <-]. }
  intros ?. apply (triple_bind _ _ _ (fun _ => trx_inv)).
  { intros w x0 w' Hw H. unfold ctc_copy_cursors_to_free, bind, the_ctx, put_ctx, ret in H.
    destruct (w_ctx w) as [c|] eqn:Hc; [|done]. injection H as <- <-. by apply inv_put_cursors. }
  intros cs. eapply triple_bind; [by apply inv_call|intros ?]. by apply triple_ret.
Qed.

Lemma trx_update_cursor h tch : triple trx_inv (update_sess_ctx_cursor_by_tch E h tch) inv.
Proof.
  unfold update_sess_ctx_cursor_by_tch. destruct (_ =? _); [by apply triple_ret|].
  eapply (triple_bind _ _ _ (fun c w => trx_inv w /\ w_ctx w = Some c)).
  { intros w c w' Hw H. unfold the_ctx in H. destruct (w_ctx w) eqn:Hc; [|done].
    by injection H as <- <-. }
  intros c. assert (forall i m, triple (fun w => trx_inv w /\ w_ctx w = Some c)
    (put_ctx (Some (set_cursors m i c))) inv) as Hput.
  { intros i m w a w' [Hw Hc] [= <- <-]. by apply inv_put_cursors. }
  destruct (cursors_map c !! h); [destruct (_ =? _); [by apply triple_ret; intros w [? _]|]|].
  - eapply triple_bind; [apply Hput|intros ?]. apply trx_free_invalid.
  - eapply triple_bind; [apply Hput|intros ?]. destruct (invalid_cursors c);
      [apply trx_free_invalid|by apply triple_ret].
Qed.

Lemma trx_close : triple trx_inv (ctc_close_connect E) inv.
Proof.
  apply with_tch; [done|]. intros tch o _ w a w' (c & Hc & Hid & Hf & Ho & Hok) H.
  unfold bind, call, release_sess_ctx, the_ctx, put_ctx, ret in H. cbn in H. rewrite Hc in H.
  injection H as <- <-. done.
Qed.

Lemma trx_ignore {A} (m : M A) : triple trx_inv m inv -> triple trx_inv (ignore_result m) inv.
Proof. intros H. eapply triple_bind; [apply H|intros ?]. by apply triple_ret. Qed.

Lemma run_op_trx op : triple trx_inv (run_op E op) inv.
Proof.
  destruct op; cbn [run_op]; try apply trx_ignore;
    auto using trx_start_trx, trx_commit, trx_rollback, trx_close, trx_kill, trx_external_lock,
      trx_start_stmt, trx_update_cursor; apply trx_savepoint_ops.
Qed.

End Transaction.

(** C11: at most one transaction of a connection is open in the engine, and the
    session context knows whether one is: whatever operations are performed by
    a thread, no transaction is begun while another one is open (none begun
    and neither committed nor rolled back), and between operations
    [is_ctc_trx_begin] is set iff one is open; without a context none is. *)
Theorem one_transaction tid w opened dropped :
  reach (fun E => thread_id (thd E) = tid /\
           forall l c b, no_fk_error (rp_ret (oracle E l (Ctc_trx_begin c b)))) w opened dropped ->
  begins_ok (w_log w) /\
  match w_ctx w with
  | Some c => is_ctc_trx_begin c = trx_open (w_log w)
  | None => trx_open (w_log w) = false
  end.
Proof.
  intros H. assert (trx_inv tid w) as [Hok Hw].
  { induction H as [|E op w w' opened dropped _ IH [Ht Hfk] Hop]; [done|].
    exact (run_op_trx tid E Ht Hfk op w tt w' IH Hop). }
  split; [done|]. destruct (w_ctx w); [apply Hw|done].
Qed.

(** ** The end of a statement and of a transaction *)

Definition with_ctx (c : thd_sess_ctx_s) (w : world) : world :=
  mk_world (Some c) (w_log w) (w_reg_stmt w) (w_reg_all w) (w_mark_rollback w).

(** The context without cursors. *)
Definition taken (c : thd_sess_ctx_s) : thd_sess_ctx_s :=
  set_cursors ∅ (option_map (fun _ => []) (invalid_cursors c)) c.

Definition set_buf (b : bool) (c : thd_sess_ctx_s) : thd_sess_ctx_s :=
  mk_ctx (sess_addr c) (ctx_thd_id c) (bind_core c) (is_ctc_trx_begin c) (sql_stat_start c)
    (cursors_map c) (invalid_cursors c) b.

Lemma taken_cursors c : ctx_cursors (taken c) = [].
Proof. unfold ctx_cursors. cbn. rewrite map_to_list_empty. by destruct (invalid_cursors c). Qed.

Lemma total_csize_cursors c : total_csize c = Z.of_nat (length (ctx_cursors c)).
Proof.
  unfold total_csize, ctx_cursors. rewrite length_app, length_map.
  rewrite length_map_to_list. lia.
Qed.

Lemma bind_run {A B} (m : M A) (k : A -> M B) w a w' :
  m w = Some (a, w') -> bind m k w = k a w'.
Proof. intros H. unfold bind. by rewrite H. Qed.

Section Ends.
Context (E : env) (Halloc : forall l, alloc_ok E l = true).

Lemma take_cursors_run w c :
  w_ctx w = Some c -> take_cursors E w = Some (ctx_cursors c, with_ctx (taken c) w).
Proof.
  intros Hc. unfold take_cursors. rewrite (bind_run _ _ w c w) by (unfold the_ctx; by rewrite Hc).
  rewrite (bind_run _ _ w tt w).
  - unfold ctc_copy_cursors_to_free. rewrite (bind_run _ _ w c w) by (unfold the_ctx; by rewrite Hc).
    done.
  - unfold alloc_cursors, bind, get_log. rewrite Halloc. by destruct (total_csize c =? 0).
Qed.

Lemma get_tch_run b w c :
  w_ctx w = Some c -> ctx_thd_id c = thread_id (thd E) ->
  exists tch, get_tch_in_handler_data E b w
    = Some (Some tch, with_ctx (set_buf (msg_buf c || b) c) w).
Proof.
  intros Hc Ht. unfold get_tch_in_handler_data, get_or_init_sess_ctx, bind, get_ctx. rewrite Hc.
  unfold ret, put_ctx. rewrite (proj2 (Z.eqb_eq _ _) Ht). eexists. done.
Qed.

(** In the midst of a transaction, cursors are freed only when there are too
    many. *)
Lemma free_no_autocommit_run w c :
  w_ctx w = Some c -> in_multi_stmt_transaction_mode (thd E) = true ->
  exists c' evs, ctc_free_cursors_no_autocommit E w
    = Some (tt, mk_world (Some c') (evs ++ w_log w) (w_reg_stmt w) (w_reg_all w) (w_mark_rollback w))
  /\ is_ctc_trx_begin c' = is_ctc_trx_begin c /\
  if Z.of_nat (length (ctx_cursors c)) <=? ctc_max_cursors_no_autocommit E
  then evs = [] /\ c' = c
  else map fst evs = [Ctc_free_session_cursors (ctx_cursors c)] /\ ctx_cursors c' = [].
Proof.
  intros Hc Hm. unfold ctc_free_cursors_no_autocommit. rewrite Hm. cbn [negb].
  rewrite (bind_run _ _ w c w) by (unfold the_ctx; by rewrite Hc). rewrite total_csize_cursors.
  destruct (_ <=? _).
  - exists c, []. split; [|done]. destruct w. cbn in *. by subst.
  - rewrite (bind_run _ _ _ _ _ (take_cursors_run w c Hc)).
    eexists (taken c), [_]. split_and!; [reflexivity|done|done|apply taken_cursors].
Qed.

End Ends.

(** What the end of a statement in the midst of a transaction leaves of the
    session. *)
Definition statement_ended (E : env) (c c' : thd_sess_ctx_s) (evs : log) : Prop :=
  sql_stat_start c' = true /\ is_ctc_trx_begin c' = is_ctc_trx_begin c /\
  if Z.of_nat (length (ctx_cursors c)) <=? ctc_max_cursors_no_autocommit E
  then evs = [] /\ ctx_cursors c' = ctx_cursors c
  else map fst evs = [Ctc_free_session_cursors (ctx_cursors c)] /\ ctx_cursors c' = [].

(** C24: a rollback, with memory for the cursors and the session's own thread,
    always returns. It tells the engine exactly once and gives it all cursors
    of the session: at the end of the transaction to roll the transaction back,
    after which the session has no cursors and, if the engine did so, no
    transaction; otherwise to roll back to the engine's own savepoint if the
    statement had begun in the engine, and not at all if it had not, the
    transaction stays and the next call begins a statement. *)
Theorem ctc_rollback_spec E all w c :
  (forall l, alloc_ok E l = true) -> w_ctx w = Some c -> ctx_thd_id c = thread_id (thd E) ->
  exists r w' c' evs, ctc_rollback E all w = Some (r, w') /\
    w_ctx w' = Some c' /\ w_log w' = evs ++ w_log w /\
    if will_end E all then
      exists rp, evs = [(Ctc_trx_rollback (ctx_cursors c), rp)] /\ ctx_cursors c' = [] /\
        r = convert (rp_ret rp) /\
        is_ctc_trx_begin c' = (if decide (rp_ret rp = CT_SUCCESS) then false else is_ctc_trx_begin c)
    else
      r = OK /\
      if sql_stat_start c then statement_ended E c c' evs
      else exists rp,
        evs = [(Ctc_srv_rollback_savepoint (ctx_cursors c) CTC_SQL_START_INTERNAL_SAVEPOINT, rp)] /\
        ctx_cursors c' = [] /\ sql_stat_start c' = true /\ is_ctc_trx_begin c' = is_ctc_trx_begin c.
Proof.
  intros Halloc Hc Ht. unfold ctc_rollback.
  destruct (get_tch_run E true w c Hc Ht) as [tch Htch]. rewrite (bind_run _ _ _ _ _ Htch).
  set (w1 := with_ctx _ w). pose (c1 := set_buf (msg_buf c || true) c).
  rewrite (bind_run _ _ w1 c1 w1) by done. destruct (will_end E all) eqn:He.
  - rewrite (bind_run _ _ _ _ _ (take_cursors_run E Halloc w1 c1 eq_refl)).
    set (rp := oracle E (w_log w) (Ctc_trx_rollback (ctx_cursors c))).
    assert (exists r w' c', (if decide (rp_ret rp <> CT_SUCCESS) then ret (convert (rp_ret rp)) else
      modify_ctx (set_trx_begin false);;;
      ((if negb all then modify_ctx (set_stat_start true) else ret tt);;; ret OK))
      (mk_world (Some (taken c1)) ((Ctc_trx_rollback (ctx_cursors c), rp) :: w_log w)
         (w_reg_stmt w) (w_reg_all w) (w_mark_rollback w)) = Some (r, w') /\
      w_ctx w' = Some c' /\ w_log w' = (Ctc_trx_rollback (ctx_cursors c), rp) :: w_log w /\
      ctx_cursors c' = [] /\ r = convert (rp_ret rp) /\
      is_ctc_trx_begin c' = (if decide (rp_ret rp = CT_SUCCESS) then false else is_ctc_trx_begin c))
      as (r & w' & c' & Hr & H1 & H2 & H3 & H4 & H5).
    { destruct (decide (rp_ret rp <> CT_SUCCESS)) as [Hn|Hn].
      - rewrite decide_False by done. do 3 eexists. split_and!; [reflexivity..| | |]; [apply taken_cursors|done|done].
      - apply dec_stable in Hn. rewrite Hn. destruct all; do 3 eexists;
          (split_and!; [reflexivity..| | |]; [apply taken_cursors|done|done]). }
    exists r, w', c', [(Ctc_trx_rollback (ctx_cursors c), rp)]. split_and!; [exact Hr|done|done|eauto].
  - assert (all = false /\ in_multi_stmt_transaction_mode (thd E) = true) as [-> Hm].
    { unfold will_end in He. by destruct all, (in_multi_stmt_transaction_mode (thd E)). }
    change (sql_stat_start c1) with (sql_stat_start c). destruct (sql_stat_start c) eqn:Hs.
    + destruct (free_no_autocommit_run E Halloc w1 c1 eq_refl Hm) as (c2 & evs & Hf & Hb & Hif).
      cbn [negb]. rewrite (bind_run _ _ _ _ _ Hf).
      eexists OK, _, (set_stat_start true c2), evs. split_and!; [reflexivity..|].
      split; [done|]. change (ctx_cursors c1) with (ctx_cursors c) in Hif.
      destruct (_ <=? _); [destruct Hif as [-> ->]|]; done.
    + cbn [negb]. rewrite (bind_run _ _ _ _ _ (take_cursors_run E Halloc w1 c1 eq_refl)).
      eexists _, _, _, [_]. split_and!; [reflexivity..|]. eexists.
      split_and!; [reflexivity|apply taken_cursors|done..].
Qed.

(** [ctc_commit] does nothing for statements that the server executes on
    behalf of the engine. *)
Definition commit_skipped (E : env) : bool :=
  engine_ddl_passthru (srv E) (thd E)
  && (is_alter_table_copy (thd E) None || is_create_table_check (thd E) || is_lock_table (thd E)).

(** The SQL text goes to the engine for its statistics. *)
Definition with_sql (E : env) : bool := enable_stat E && is_dml_query E.

(** The last part of a commit: [sql_stat_start], and statistics of the new
    table. *)
Lemma commit_finish_run E (all : bool) w c :
  w_ctx w = Some c ->
  exists evs c',
    commit_finish E all w
    = Some (OK, mk_world (Some c') (evs ++ w_log w) (w_reg_stmt w) (w_reg_all w) (w_mark_rollback w))
    /\ ctx_cursors c' = ctx_cursors c /\ is_ctc_trx_begin c' = is_ctc_trx_begin c
    /\ (sql_stat_start c' = sql_stat_start c || negb all) /\ Forall (fun ev => ev = Ctc_analyze_table) (map fst evs)
    /\ (all = false -> evs = []).
Proof.
  intros Hc. unfold commit_finish. destruct all; cbn [negb andb].
  - rewrite (bind_run _ _ w tt w) by done. destruct (_ && _).
    + eexists [_], c. unfold bind, call, ret. rewrite Hc. split_and!; try done; [by rewrite orb_false_r|].
      by repeat constructor.
    + exists [], c. unfold bind, ret. split_and!; try done; [by destruct w; cbn in *; subst|by rewrite orb_false_r].
  - exists [], (set_stat_start true c). unfold modify_ctx, bind, the_ctx, put_ctx, ret. rewrite Hc.
    split_and!; try done. by rewrite orb_true_r.
Qed.

Section Commit.
Context (E : env) (Halloc : forall l, alloc_ok E l = true).
Context (Hddl : forall l, rp_ret (oracle E l Ctc_execute_mysql_ddl_sql) = CT_SUCCESS).

(** What a commit does after the engine's: the other instances execute an
    atomic DDL, the session has no transaction. *)
Lemma commit_done_run (all ddl : bool) w c :
  w_ctx w = Some c ->
  exists evs c',
    bind (commit_broadcast E ddl) (fun _ =>
    bind (modify_ctx (set_trx_begin false)) (fun _ => commit_finish E all)) w
    = Some (OK, mk_world (Some c') (evs ++ w_log w) (w_reg_stmt w) (w_reg_all w) (w_mark_rollback w))
    /\ ctx_cursors c' = ctx_cursors c /\ is_ctc_trx_begin c' = false
    /\ sql_stat_start c' = sql_stat_start c || negb all
    /\ Forall (fun ev => ev = Ctc_analyze_table \/ ev = Ctc_execute_mysql_ddl_sql) (map fst evs).
Proof.
  intros Hc. assert (forall w1, w_ctx w1 = Some c -> exists evs c',
    bind (modify_ctx (set_trx_begin false)) (fun _ => commit_finish E all) w1
    = Some (OK, mk_world (Some c') (evs ++ w_log w1) (w_reg_stmt w1) (w_reg_all w1)
                  (w_mark_rollback w1))
    /\ ctx_cursors c' = ctx_cursors c /\ is_ctc_trx_begin c' = false
    /\ sql_stat_start c' = sql_stat_start c || negb all
    /\ Forall (fun ev => ev = Ctc_analyze_table) (map fst evs)) as Hend.
  { intros w1 Hc1. destruct (commit_finish_run E all (with_ctx (set_trx_begin false c) w1)
      (set_trx_begin false c) eq_refl) as (evs & c' & Hr & H1 & H2 & H3 & H4 & _).
    exists evs, c'. rewrite (bind_run _ _ w1 tt (with_ctx (set_trx_begin false c) w1)).
    2:{ unfold modify_ctx. by rewrite (bind_run _ _ w1 c w1) by (unfold the_ctx; by rewrite Hc1). }
    done. }
  unfold commit_broadcast. destruct (ddl && _).
  - destruct (Hend (mk_world (w_ctx w) ((Ctc_execute_mysql_ddl_sql,
      oracle E (w_log w) Ctc_execute_mysql_ddl_sql) :: w_log w) (w_reg_stmt w) (w_reg_all w)
      (w_mark_rollback w)) Hc) as (evs & c' & Hr & H1 & H2 & H3 & H4).
    eexists (evs ++ [_]), c'. rewrite <- app_assoc. split_and!; [|done..|].
    + erewrite (bind_run _ _ w tt); [exact Hr|].
      unfold bind, call. rewrite decide_True by apply Hddl. done.
    + rewrite map_app. apply Forall_app. split; [|by repeat constructor; right].
      eapply Forall_impl; [|exact H4]. intros ev ->. by left.
  - destruct (Hend w Hc) as (evs & c' & Hr & H1 & H2 & H3 & H4).
    exists evs, c'. split_and!; [exact Hr|done..|].
    eapply Forall_impl; [|exact H4]. intros ev ->. by left.
Qed.

(** Before the commit, the other instances are told what to invalidate. *)
Lemma commit_invalidate_run w c :
  w_ctx w = Some c ->
  exists evs,
    commit_preprocess E w
    = Some (tt, mk_world (Some c) (evs ++ w_log w) (w_reg_stmt w) (w_reg_all w) (w_mark_rollback w))
    /\ Forall (fun ev => ev = Ctc_invalidate_dd) (map fst evs).
Proof.
  intros Hc. unfold commit_preprocess. destruct (_ && _).
  - eexists [_]. unfold bind, call, ret. rewrite Hc. split; [done|]. by repeat constructor.
  - exists []. unfold ret. split; [by destruct w; cbn in *; subst|done].
Qed.

(** The end of a statement of a longer transaction. *)
Lemma commit_statement_run c c1 w :
  w_ctx w = Some c1 -> ctx_cursors c1 = ctx_cursors c -> is_ctc_trx_begin c1 = is_ctc_trx_begin c ->
  in_multi_stmt_transaction_mode (thd E) = true ->
  exists w' c' after,
    bind (ctc_free_cursors_no_autocommit E) (fun _ => commit_finish E false) w = Some (OK, w') /\
    w_ctx w' = Some c' /\ w_log w' = after ++ w_log w /\ statement_ended E c c' after.
Proof.
  intros Hc Hcs Hb1 Hm. destruct (free_no_autocommit_run E Halloc w c1 Hc Hm) as (c2 & evs & Hf & Hb & Hif).
  rewrite (bind_run _ _ _ _ _ Hf). rewrite Hcs in Hif.
  eexists _, (set_stat_start true c2), evs. split_and!; [reflexivity..|].
  split; [done|]. split; [by rewrite <- Hb1|].
  destruct (_ <=? _); [by destruct Hif as [-> ->]|done].
Qed.

End Commit.

(** C34: a commit, with memory for the cursors and the session's own thread, in
    which the other instances can execute an atomic DDL, always returns. At the
    end of the transaction the engine gets exactly one commit with all cursors
    of the session, preceded only by invalidations and followed only by the
    broadcast of an atomic DDL and an analysis of the table; afterwards the
    session has no cursors and, if the engine committed, no transaction (else
    the converted error is returned and nothing follows). At the end of a
    statement of a longer transaction the statistics are reported, an error of
    which is returned, the transaction stays open, and the next call begins a
    statement. *)
Theorem ctc_commit_spec E all w c :
  (forall l, alloc_ok E l = true) ->
  (forall l, rp_ret (oracle E l Ctc_execute_mysql_ddl_sql) = CT_SUCCESS) ->
  commit_skipped E = false -> w_ctx w = Some c -> ctx_thd_id c = thread_id (thd E) ->
  exists r w' c' after before, ctc_commit E all w = Some (r, w') /\ w_ctx w' = Some c' /\
    if will_end E all then
      exists rp,
        w_log w' = after ++ (Ctc_trx_commit (ctx_cursors c) (with_sql E), rp) :: before ++ w_log w /\
        Forall (fun ev => ev = Ctc_invalidate_dd) (map fst before) /\
        ctx_cursors c' = [] /\ r = convert (rp_ret rp) /\
        if decide (rp_ret rp = CT_SUCCESS) then
          is_ctc_trx_begin c' = false /\ sql_stat_start c' = sql_stat_start c || negb all /\
          Forall (fun ev => ev = Ctc_analyze_table \/ ev = Ctc_execute_mysql_ddl_sql) (map fst after)
        else is_ctc_trx_begin c' = is_ctc_trx_begin c /\ after = []
    else
      w_log w' = after ++ before ++ w_log w /\
      map fst before = (if with_sql E then [Ctc_statistic_commit] else []) /\
      ((exists rp, before = [(Ctc_statistic_commit, rp)] /\ rp_ret rp <> CT_SUCCESS /\
         r = convert (rp_ret rp) /\ after = [] /\ ctx_cursors c' = ctx_cursors c /\
         is_ctc_trx_begin c' = is_ctc_trx_begin c)
       \/ (r = OK /\ statement_ended E c c' after)).
Proof.
  intros Halloc Hddl Hskip Hc Ht. unfold ctc_commit.
  change (engine_ddl_passthru _ _ && _) with (commit_skipped E). rewrite Hskip.
  destruct (get_tch_run E (will_end E all) w c Hc Ht) as [tch Htch].
  rewrite (bind_run _ _ _ _ _ Htch). set (w1 := with_ctx _ w).
  pose (c1 := set_buf (msg_buf c || will_end E all) c). cbv zeta.
  change (enable_stat E && is_dml_query E) with (with_sql E).
  destruct (will_end E all) eqn:He.
  - destruct (commit_invalidate_run E w1 c1 eq_refl) as (before & Hb & Hbf).
    rewrite (bind_run _ _ _ _ _ Hb).
    erewrite (bind_run (take_cursors E));
      [|exact (take_cursors_run E Halloc (mk_world (Some c1) (before ++ w_log w1) (w_reg_stmt w1)
          (w_reg_all w1) (w_mark_rollback w1)) c1 eq_refl)].
    set (ev := Ctc_trx_commit (ctx_cursors c1) (with_sql E)).
    set (w2 := with_ctx (taken c1) _). set (rp := oracle E (w_log w2) ev).
    set (w3 := mk_world (w_ctx w2) ((ev, rp) :: w_log w2) (w_reg_stmt w2) (w_reg_all w2)
      (w_mark_rollback w2)).
    erewrite (bind_run (call_tch E ev tch) _ w2 _ w3) by reflexivity.
    change (oracle E (w_log w2) ev) with rp. cbv beta iota.
    destruct (decide (rp_ret rp <> CT_SUCCESS)) as [Hn|Hn].
    + eexists _, w3, (taken c1), [], before. split_and!; [reflexivity|done|].
      exists rp. rewrite decide_False by done.
      split_and!; [done|done|apply taken_cursors|done|done|done].
    + apply dec_stable in Hn.
      destruct (commit_done_run E Hddl all (rp_is_ddl rp) w3 (taken c1) eq_refl)
        as (evs & c' & Hr & H1 & H2 & H3 & H4).
      eexists OK, _, c', evs, before. split_and!; [exact Hr|done|]. exists rp.
      rewrite H1, Hn, decide_True by done. split_and!; [done|done|apply taken_cursors|done|done|done|done].
  - assert (all = false /\ in_multi_stmt_transaction_mode (thd E) = true) as [-> Hm].
    { unfold will_end in He. by destruct all, (in_multi_stmt_transaction_mode (thd E)). }
    destruct (with_sql E).
    + set (rp := oracle E (w_log w1) Ctc_statistic_commit).
      erewrite (bind_run _ _ w1 rp) by reflexivity.
      destruct (decide (rp_ret rp <> CT_SUCCESS)) as [Hn|Hn].
      * eexists _, _, c1, [], [(Ctc_statistic_commit, rp)]. split_and!; [reflexivity|done|done|done|].
        left. by exists rp.
      * destruct (commit_statement_run E Halloc c c1 (mk_world (Some c1)
          ((Ctc_statistic_commit, rp) :: w_log w) (w_reg_stmt w) (w_reg_all w) (w_mark_rollback w))
          eq_refl eq_refl eq_refl Hm) as (w' & c' & after & H1 & H2 & H3 & H4).
        exists OK, w', c', after, [(Ctc_statistic_commit, rp)].
        split_and!; [exact H1|done|done|done|by right].
    + destruct (commit_statement_run E Halloc c c1 w1 eq_refl eq_refl eq_refl Hm)
        as (w' & c' & after & H1 & H2 & H3 & H4).
      exists OK, w', c', after, []. split_and!; [exact H1|done|done|done|by right].
Qed.

(** ** Sample histories *)

(** The operations of a history, one after the other, with the cursors opened
    and dropped. *)
Fixpoint history (E : env) (ops : list session_op) (s : world * list Z * list Z)
  : option (world * list Z * list Z) :=
  match ops with
  | [] => Some s
  | op :: ops =>
    let '(w, opened, dropped) := s in
    match run_op E op w with
    | Some (_, w') => history E ops (w', opens op w ++ opened, drops op w ++ dropped)
    | None => None
    end
  end.

Lemma history_reach (ok : env -> Prop) E ops w o d w' o' d' :
  ok E -> reach ok w o d -> history E ops (w, o, d) = Some (w', o', d') -> reach ok w' o' d'.
Proof.
  intros HE. revert w o d. induction ops as [|op ops IH]; intros w o d Hr H.
  - by injection H as <- <- <-.
  - cbn [history] in H. destruct (run_op E op w) as [[[] w1]|] eqn:Hop; [|done].
    by eapply IH; [eapply reach_step|].
Qed.

Definition new_connection : world * list Z * list Z :=
  (mk_world None [] false false false, [], []).

Definition sample_thd (multi : bool) : THD :=
  mk_thd 7 1 SQLCOM_UPDATE false false false false false false 1 1 None false multi
    ISO_REPEATABLE_READ 0.

(** The engine opens session 5 and accepts everything. *)
Definition sample_env (multi : bool) : env :=
  mk_env (fun _ _ => mk_reply CT_SUCCESS 5 0 false false) (fun _ => true) (fun _ => true)
    (mk_server false false true false false true 0) (sample_thd multi) false false false true true
    false 50 100 false (fun _ => EmptyString).

Definition sample_tch (cursor : Z) : ctc_handler_t :=
  mk_tch 7 5 0 cursor 0 0 0 SQLCOM_UPDATE 1 false false false false false.

(** A transaction of two statements on one table, whose cursor is replaced,
    then a third statement, and the closing of the connection. *)
Definition sample_ops : list session_op :=
  [Op_start_stmt false (sample_tch INVALID_VALUE64); Op_update_sess_ctx_cursor 1 (sample_tch 21);
   Op_commit false; Op_start_stmt false (sample_tch 21);
   Op_update_sess_ctx_cursor 1 (sample_tch 22); Op_commit true;
   Op_start_stmt false (sample_tch INVALID_VALUE64); Op_update_sess_ctx_cursor 2 (sample_tch 23)].

Lemma cursors_conserved_witness :
  match history (sample_env true) (sample_ops ++ [Op_close_connect]) new_connection with
  | Some (w, opened, dropped) =>
    opened = [23; 22; 21] /\ dropped = [23] /\ opened ≡ₚ dropped ++ live w ++ freed (w_log w)
  | None => False
  end.
Proof.
  assert (option_map (fun s => (s.1.2, s.2))
    (history (sample_env true) (sample_ops ++ [Op_close_connect]) new_connection)
    = Some ([23; 22; 21], [23])) as He by (vm_compute; reflexivity).
  destruct (history _ _ _) as [[[w o] d]|] eqn:H; [|discriminate He].
  injection He as He1 He2. cbn in He1, He2. subst o d. split; [reflexivity|]. split; [reflexivity|].
  apply (cursors_conserved (fun _ => True)).
  eapply history_reach; [exact I|apply reach_new|exact H].
Defined.

Lemma one_transaction_witness :
  match history (sample_env true) sample_ops new_connection with
  | Some (w, _, _) =>
    trx_open (w_log w) = true /\ begins_ok (w_log w) /\
    match w_ctx w with
    | Some c => is_ctc_trx_begin c = trx_open (w_log w)
    | None => trx_open (w_log w) = false
    end
  | None => False
  end.
Proof.
  assert (option_map (fun s => trx_open (w_log s.1.1))
    (history (sample_env true) sample_ops new_connection) = Some true) as He
    by (vm_compute; reflexivity).
  destruct (history _ _ _) as [[[w o] d]|] eqn:H; [|discriminate He].
  injection He as He. cbn in He. split; [exact He|].
  apply (one_transaction 7 w o d).
  eapply history_reach; [|apply reach_new|exact H].
  split; [reflexivity|intros; split; discriminate].
Defined.

Definition sample_ctx (stat : bool) : thd_sess_ctx_s :=
  mk_ctx 5 7 0 true stat {[1 := 21; 2 := 22]} (Some [20]) true.

Definition sample_world (stat : bool) : world :=
  mk_world (Some (sample_ctx stat)) [] true true false.

(** A statement that began in the engine is rolled back. *)
Lemma ctc_rollback_spec_witness :
  exists r w' c' evs, ctc_rollback (sample_env true) false (sample_world false) = Some (r, w') /\
    w_ctx w' = Some c' /\ w_log w' = evs ++ [] /\
    r = OK /\ exists rp,
      evs = [(Ctc_srv_rollback_savepoint (ctx_cursors (sample_ctx false))
                CTC_SQL_START_INTERNAL_SAVEPOINT, rp)] /\
      ctx_cursors c' = [] /\ sql_stat_start c' = true /\
      is_ctc_trx_begin c' = is_ctc_trx_begin (sample_ctx false).
Proof.
  exact (ctc_rollback_spec (sample_env true) false (sample_world false) (sample_ctx false)
    (fun _ => eq_refl) eq_refl eq_refl).
Defined.

Lemma ctc_commit_spec_witness :
  exists r w' c' after before,
    ctc_commit (sample_env false) false (sample_world false) = Some (r, w') /\ w_ctx w' = Some c' /\
    exists rp, w_log w' = after ++ (Ctc_trx_commit (ctx_cursors (sample_ctx false)) true, rp)
      :: before ++ [] /\
    Forall (fun ev => ev = Ctc_invalidate_dd) (map fst before) /\
    ctx_cursors c' = [] /\ r = convert (rp_ret rp) /\
    if decide (rp_ret rp = CT_SUCCESS) then
      is_ctc_trx_begin c' = false /\ sql_stat_start c' = true /\
      Forall (fun ev => ev = Ctc_analyze_table \/ ev = Ctc_execute_mysql_ddl_sql) (map fst after)
    else is_ctc_trx_begin c' = true /\ after = [].
Proof.
  exact (ctc_commit_spec (sample_env false) false (sample_world false) (sample_ctx false)
    (fun _ => eq_refl) (fun _ => eq_refl) eq_refl eq_refl eq_refl).
Defined.

End Session.
