(* ===== verification/Dml.v ===== *)
(** * Dml: inserts, updates and deletes

    Models the row operations of [ha_ctc.cc] ([write_row],
    [handle_auto_increment], [convert_mysql_record_and_write_to_cantian],
    [update_row], [delete_row]) and the buffer that bulk inserts collect rows
    in ([start_bulk_insert], [bulk_insert], [bulk_insert_low],
    [end_bulk_insert]), with the engine calls of [ctc_srv_mq_stub.cc] and what
    [ha_ctcpart.cc] adds for partitions.

    The memory of the buffers is bytes.  The row conversion is an interface
    that [RowFormat] implements; the theorems on bulk inserts say that the
    engine holds exactly the rows given, in order, decodable. *)

From S2P Require Import Prelude CtcError FieldTypes Server Demo Blob RowFormat Handler Session.
Import CtcError Handler.

Module Dml.

Abbreviation status := RowFormat.status.
Abbreviation ctc_handler_t := Session.ctc_handler_t.

Definition MAX_RECORD_SIZE : Z := 64 * 1024.
Definition BIG_RECORD_SIZE : Z := 64 * 1024.
Definition MAX_RECORD_BUFFER_SIZE_CTC : Z := 64 * 1024.
Definition CT_MAX_RECORD_LENGTH : Z := 64000.
Definition CTC_MAX_COLUMNS : Z := 4096.
Definition MAX_BULK_INSERT_PART_ROWS : Z := 128.
Definition INVALID_PART_ID : Z := 2 ^ 32 - 1.

(** Partition and subpartition. *)
Abbreviation ctc_part_t := (Z * Z)%type (only parsing).

(** ** Interfaces *)

(** The server's [Record_buffer]: a record is the offset of its slot in the
    buffer's memory. *)
Class WriteBuffer := {
  wbuf : Type;
  wb_new : Z -> Z -> wbuf;                 (* records, size of each *)
  wb_max_records : wbuf -> Z;
  wb_records : wbuf -> Z;
  wb_record : wbuf -> Z -> Z;
  wb_add_record : wbuf -> wbuf;            (* the slot [wb_records] *)
  wb_reset : wbuf -> wbuf }.

Class WriteBufferLaws (WB : WriteBuffer) := {
  wb_record_size : wbuf -> Z;
  wb_new_view n size : 0 <= n ->
    wb_max_records (wb_new n size) = n /\ wb_records (wb_new n size) = 0 /\
    wb_record_size (wb_new n size) = size;
  wb_add_view b : wb_records b < wb_max_records b ->
    wb_max_records (wb_add_record b) = wb_max_records b /\
    wb_records (wb_add_record b) = wb_records b + 1 /\
    wb_record_size (wb_add_record b) = wb_record_size b;
  wb_reset_view b :
    wb_max_records (wb_reset b) = wb_max_records b /\ wb_records (wb_reset b) = 0 /\
    wb_record_size (wb_reset b) = wb_record_size b;
  wb_record_view b i : wb_record b i = i * wb_record_size b }.

(** [mysql_record_to_cantian_record] on a record and the memory from the write
    position on, for the columns of an update if given: the result, the size of
    the row, the offset of the serial column, the columns that are left, and
    the memory. *)
Class RowEncoder (Y : Type) := {
  encode_row : list Z -> list Z -> option (list Z) -> Y ->
    option (status * Z * Z * list Z * list Z * Y) }.

(** Records that satisfy [good] are encoded within [len] bytes; [row_of row
    bytes] says that the bytes are an encoding of the record, [codec_ok] is
    what the state of the conversion needs. *)
Class RowEncoderLaws {Y} (Enc : RowEncoder Y) (good : list Z -> Prop) (len : Z)
    (row_of : list Z -> list Z -> Prop) (codec_ok : Y -> Prop) : Prop := {
  encode_insert row buf y :
    good row -> codec_ok y -> len <= Z.of_nat (length buf) -> Forall byte buf ->
    exists size serial buf' y', encode_row row buf None y
        = Some (RowFormat.St 0, size, serial, [], buf', y') /\
      0 <= size <= len /\ codec_ok y' /\ length buf' = length buf /\ Forall byte buf' /\
      forall n, size <= n <= Z.of_nat (length buf) -> row_of row (take (Z.to_nat n) buf') }.

(** The engine's row operations, behind the message queue: they get and
    update the handler's [ctc_handler_t], whose partition is given apart. *)
Class DmlEngine (X : Type) := {
  eng_write_row : ctc_handler_t -> ctc_part_t -> list Z -> Z -> dml_flag_t -> X ->
    ct_errno_t * Z * ctc_handler_t * X;           (* and the last insert id *)
  eng_bulk_write : ctc_handler_t -> ctc_part_t -> list Z -> Z -> Z -> option (list ctc_part_t) ->
    dml_flag_t -> X -> ct_errno_t * Z * ctc_handler_t * X;   (* and the duplicate's position *)
  eng_update_row : ctc_handler_t -> ctc_part_t -> list Z -> list Z -> dml_flag_t -> X ->
    ct_errno_t * ctc_handler_t * X;
  eng_delete_row : ctc_handler_t -> ctc_part_t -> Z -> dml_flag_t -> X ->
    ct_errno_t * ctc_handler_t * X }.

(** The records of [len] bytes that follow each other in memory. *)
Fixpoint chunks (n : nat) (len : nat) (data : list Z) : list (list Z) :=
  match n with
  | O => []
  | S n => take len data :: chunks n len (drop len data)
  end.

(** [rows_in x]: the rows that the engine holds, each with its partition,
    the last one last.  Only foreign key checks give foreign key errors. *)
Class DmlLaws {X} (Eng : DmlEngine X) (rows_in : X -> list (ctc_part_t * list Z)) : Prop := {
  eng_write_errors t p r s f x : no_fk_error (fst (fst (fst (eng_write_row t p r s f x))));
  eng_bulk_errors t p d l n ps f x : no_fk_error (fst (fst (fst (eng_bulk_write t p d l n ps f x))));
  eng_write_ok t p r s f x i t' x' :
    eng_write_row t p r s f x = (CT_SUCCESS, i, t', x') -> rows_in x' = rows_in x ++ [(p, r)];
  eng_bulk_ok t p d len n ps f x i t' x' :
    eng_bulk_write t p d len n ps f x = (CT_SUCCESS, i, t', x') ->
    rows_in x' = rows_in x
      ++ zip (default (replicate (Z.to_nat n) p) ps) (chunks (Z.to_nat n) (Z.to_nat len) d) }.

(** ** State *)

Inductive fk_rule := RULE_CASCADE | RULE_SET_NULL | RULE_OTHER.

#[export] Instance fk_rule_eq_dec : EqDecision fk_rule.
Proof. solve_decision. Defined.

Record KEY_PART_INFO := mk_part {
  kp_offset : Z; kp_length : Z;
  kp_var : bool;                                 (* HA_BLOB_PART or HA_VAR_LENGTH_PART *)
  kp_cmp_binary : list Z -> list Z -> bool }.    (* field->cmp_binary is not 0 *)

(** What is fixed while the table is open, or during a call. *)
Record dml_env := mk_env {
  sess_env : Session.env;
  m_cantian_rec_len : Z;
  m_max_batch_num : Z;
  blob_fields : Z;
  reclength : Z;
  data_ok : bool;                                (* my_malloc *)
  buf_ok : bool;                                 (* ctc_alloc_buf *)
  no_auto_value_on_zero : bool;                  (* sql_mode *)
  truncated_value : bool;                        (* ER_TRUNCATED_WRONG_VALUE is set *)
  field_val_int : list Z -> Z;                   (* next_number_field of record[0] *)
  field_store : Z -> list Z -> list Z;
  write_set : list bool;
  primary_key : option (list nat);               (* its columns *)
  errkey : option (list KEY_PART_INFO);          (* the key of the last error *)
  foreign_key_parent : list (fk_rule * fk_rule); (* update and delete rules *)
  (* cantian_record_to_mysql_record, to show a duplicate row *)
  read_back : list Z -> list Z -> list Z }.

Section Operations.
Context {X Y : Type} {WB : WriteBuffer} {Enc : RowEncoder Y} {Eng : DmlEngine X}.

Record dml_state := mk_dml_state {
  world : Session.world;
  m_tch : ctc_handler_t;
  m_part : ctc_part_t;                           (* m_tch.part_id, m_tch.subpart_id *)
  m_last_part : Z;
  engine : X;
  codec : Y;
  m_ctc_buf : option (list Z);
  m_rec_buf_data : option (list Z);
  m_rec_buf_4_writing : option wbuf;
  m_bulk_insert_parts : option (list ctc_part_t);
  record_0 : list Z;
  insert_id_for_cur_row : Z;
  auto_inc_intervals_forced : list Z;            (* their minimum *)
  my_errno : ha_code;
  m_is_replace : bool;
  m_is_insert_dup : bool;
  m_ignore_dup : bool;
  next_number_field : bool;                      (* not null *)
  autoinc_field_has_explicit_non_null_value : bool }.

Definition set_conn (w : Session.world) (t : ctc_handler_t) (x : X) (s : dml_state) : dml_state :=
  mk_dml_state w t (m_part s) (m_last_part s) x (codec s) (m_ctc_buf s) (m_rec_buf_data s) (m_rec_buf_4_writing s)
    (m_bulk_insert_parts s) (record_0 s) (insert_id_for_cur_row s)
    (auto_inc_intervals_forced s) (my_errno s) (m_is_replace s) (m_is_insert_dup s)
    (m_ignore_dup s) (next_number_field s) (autoinc_field_has_explicit_non_null_value s).
Definition set_codec (y : Y) (s : dml_state) : dml_state :=
  mk_dml_state (world s) (m_tch s) (m_part s) (m_last_part s) (engine s) y (m_ctc_buf s) (m_rec_buf_data s)
    (m_rec_buf_4_writing s) (m_bulk_insert_parts s) (record_0 s) (insert_id_for_cur_row s)
    (auto_inc_intervals_forced s) (my_errno s) (m_is_replace s) (m_is_insert_dup s)
    (m_ignore_dup s) (next_number_field s) (autoinc_field_has_explicit_non_null_value s).
Definition set_part (p : ctc_part_t) (last : Z) (s : dml_state) : dml_state :=
  mk_dml_state (world s) (m_tch s) p last (engine s) (codec s) (m_ctc_buf s) (m_rec_buf_data s)
    (m_rec_buf_4_writing s) (m_bulk_insert_parts s) (record_0 s) (insert_id_for_cur_row s)
    (auto_inc_intervals_forced s) (my_errno s) (m_is_replace s) (m_is_insert_dup s)
    (m_ignore_dup s) (next_number_field s) (autoinc_field_has_explicit_non_null_value s).
Definition set_ctc_buf (b : list Z) (s : dml_state) : dml_state :=
  mk_dml_state (world s) (m_tch s) (m_part s) (m_last_part s) (engine s) (codec s) (Some b) (m_rec_buf_data s)
    (m_rec_buf_4_writing s) (m_bulk_insert_parts s) (record_0 s) (insert_id_for_cur_row s)
    (auto_inc_intervals_forced s) (my_errno s) (m_is_replace s) (m_is_insert_dup s)
    (m_ignore_dup s) (next_number_field s) (autoinc_field_has_explicit_non_null_value s).
Definition set_data (b : option (list Z)) (s : dml_state) : dml_state :=
  mk_dml_state (world s) (m_tch s) (m_part s) (m_last_part s) (engine s) (codec s) (m_ctc_buf s) b
    (m_rec_buf_4_writing s) (m_bulk_insert_parts s) (record_0 s) (insert_id_for_cur_row s)
    (auto_inc_intervals_forced s) (my_errno s) (m_is_replace s) (m_is_insert_dup s)
    (m_ignore_dup s) (next_number_field s) (autoinc_field_has_explicit_non_null_value s).
Definition set_wbuf (b : option wbuf) (s : dml_state) : dml_state :=
  mk_dml_state (world s) (m_tch s) (m_part s) (m_last_part s) (engine s) (codec s) (m_ctc_buf s) (m_rec_buf_data s) b
    (m_bulk_insert_parts s) (record_0 s) (insert_id_for_cur_row s)
    (auto_inc_intervals_forced s) (my_errno s) (m_is_replace s) (m_is_insert_dup s)
    (m_ignore_dup s) (next_number_field s) (autoinc_field_has_explicit_non_null_value s).
Definition set_parts (p : option (list ctc_part_t)) (s : dml_state) : dml_state :=
  mk_dml_state (world s) (m_tch s) (m_part s) (m_last_part s) (engine s) (codec s) (m_ctc_buf s) (m_rec_buf_data s)
    (m_rec_buf_4_writing s) p (record_0 s) (insert_id_for_cur_row s)
    (auto_inc_intervals_forced s) (my_errno s) (m_is_replace s) (m_is_insert_dup s)
    (m_ignore_dup s) (next_number_field s) (autoinc_field_has_explicit_non_null_value s).
Definition set_autoinc (r : list Z) (id : Z) (s : dml_state) : dml_state :=
  mk_dml_state (world s) (m_tch s) (m_part s) (m_last_part s) (engine s) (codec s) (m_ctc_buf s) (m_rec_buf_data s)
    (m_rec_buf_4_writing s) (m_bulk_insert_parts s) r id (auto_inc_intervals_forced s)
    (my_errno s) (m_is_replace s) (m_is_insert_dup s) (m_ignore_dup s)
    (next_number_field s) (autoinc_field_has_explicit_non_null_value s).
Definition set_forced (l : list Z) (s : dml_state) : dml_state :=
  mk_dml_state (world s) (m_tch s) (m_part s) (m_last_part s) (engine s) (codec s) (m_ctc_buf s) (m_rec_buf_data s)
    (m_rec_buf_4_writing s) (m_bulk_insert_parts s) (record_0 s) (insert_id_for_cur_row s)
    l (my_errno s) (m_is_replace s) (m_is_insert_dup s) (m_ignore_dup s)
    (next_number_field s) (autoinc_field_has_explicit_non_null_value s).
Definition set_errno (c : ha_code) (s : dml_state) : dml_state :=
  mk_dml_state (world s) (m_tch s) (m_part s) (m_last_part s) (engine s) (codec s) (m_ctc_buf s) (m_rec_buf_data s)
    (m_rec_buf_4_writing s) (m_bulk_insert_parts s) (record_0 s) (insert_id_for_cur_row s)
    (auto_inc_intervals_forced s) c (m_is_replace s) (m_is_insert_dup s) (m_ignore_dup s)
    (next_number_field s) (autoinc_field_has_explicit_non_null_value s).
Definition set_hints (replace insert_dup ignore_dup : bool) (s : dml_state) : dml_state :=
  mk_dml_state (world s) (m_tch s) (m_part s) (m_last_part s) (engine s) (codec s) (m_ctc_buf s) (m_rec_buf_data s)
    (m_rec_buf_4_writing s) (m_bulk_insert_parts s) (record_0 s) (insert_id_for_cur_row s)
    (auto_inc_intervals_forced s) (my_errno s) replace insert_dup ignore_dup
    (next_number_field s) (autoinc_field_has_explicit_non_null_value s).
Definition set_next_number (field explicit : bool) (s : dml_state) : dml_state :=
  mk_dml_state (world s) (m_tch s) (m_part s) (m_last_part s) (engine s) (codec s) (m_ctc_buf s) (m_rec_buf_data s)
    (m_rec_buf_4_writing s) (m_bulk_insert_parts s) (record_0 s) (insert_id_for_cur_row s)
    (auto_inc_intervals_forced s) (my_errno s) (m_is_replace s) (m_is_insert_dup s)
    (m_ignore_dup s) field explicit.

(** ** Common steps *)

Section WithEnv.
Context (E : dml_env).
Let SE := sess_env E.
Let t := Session.thd E.(sess_env).

(** [update_member_tch], before the calls of the engine, and
    [update_sess_ctx_by_tch], after them. *)
Definition enter (s : dml_state) : option dml_state :=
  '(tch, w) ← Session.update_member_tch SE (m_tch s) true (world s);
  Some (set_conn w tch (engine s) s).
Definition leave (s : dml_state) : option dml_state :=
  '(_, w) ← Session.update_sess_ctx_by_tch SE (m_tch s) (world s);
  Some (set_conn w (m_tch s) (engine s) s).

(** [check_error_code_to_mysql] *)
Definition check_error (ret : ct_errno_t) (s : dml_state) : option (ct_errno_t * dml_state) :=
  let '(mark, ret) := check_error_code_to_mysql t ret in
  '(_, w) ← Session.mark_rollback mark (world s);
  Some (ret, set_conn w (m_tch s) (engine s) s).

(** The result of a conversion as a handler method returns it. *)
Definition of_status (r : status) : ha_code :=
  match r with RowFormat.StErr e => HA e | RowFormat.St z => if z =? 0 then OK else STATUS z end.

(** [memset(pos, 0, sizeof(row_head_t))] *)
Definition clear_head (buf : list Z) : option (list Z) :=
  wr buf 0 (replicate (Z.to_nat RowFormat.row_head_sizeof) 0).

(** The flags of an engine call, but for [no_cascade_check]. *)
Definition dml_flag (replace auto_inc explicit_autoinc dup : bool) : dml_flag_t :=
  ctc_get_dml_flag (Session.srv SE) t replace auto_inc explicit_autoinc dup.

Definition set_write_through (b : bool) (f : dml_flag_t) : dml_flag_t :=
  mk_dml (ignore f) (no_foreign_key_check f) (no_cascade_check f) (dd_update f) (is_replace f)
    (dup_update f) (no_logging f) (auto_inc_used f) (has_explicit_autoinc f) (auto_increase f)
    (autoinc_lock_mode f) (auto_inc_step f) (auto_inc_offset f) b (is_create_select f).
Definition set_no_cascade (b : bool) (f : dml_flag_t) : dml_flag_t :=
  mk_dml (ignore f) (no_foreign_key_check f) b (dd_update f) (is_replace f)
    (dup_update f) (no_logging f) (auto_inc_used f) (has_explicit_autoinc f) (auto_increase f)
    (autoinc_lock_mode f) (auto_inc_step f) (auto_inc_offset f) (write_through f)
    (is_create_select f).

(** ** Calls of the engine *)

Definition ctc_write_row (len serial : Z) (flag : dml_flag_t) (s : dml_state)
  : option (ct_errno_t * Z * dml_state) :=
  buf ← m_ctc_buf s; record ← rd buf 0 len;
  let '(ret, id, tch, x) := eng_write_row (m_tch s) (m_part s) record serial flag (engine s) in
  Some (ret, id, set_conn (world s) tch x s).

(** The message has room for [MAX_RECORD_SIZE] bytes, which is asserted, and
    for [MAX_BULK_INSERT_PART_ROWS] partitions. *)
Definition ctc_bulk_write (record_len rec_num : Z) (flag : dml_flag_t) (s : dml_state)
  : option (ct_errno_t * Z * dml_state) :=
  if negb (record_len * rec_num <=? MAX_RECORD_SIZE) then None else
  data ← m_rec_buf_data s; bytes ← rd data 0 (record_len * rec_num);
  parts ← match m_bulk_insert_parts s with
          | None => Some None
          | Some ps => if (rec_num <=? MAX_BULK_INSERT_PART_ROWS) && (rec_num <=? Z.of_nat (length ps))
                       then Some (Some (take (Z.to_nat rec_num) ps)) else None
          end;
  let '(ret, pos, tch, x) :=
    eng_bulk_write (m_tch s) (m_part s) bytes record_len rec_num parts flag (engine s) in
  Some (ret, pos, set_conn (world s) tch x s).

Definition ctc_update_row (len : Z) (cols : list Z) (flag : dml_flag_t) (s : dml_state)
  : option (ct_errno_t * dml_state) :=
  if negb (len <? BIG_RECORD_SIZE) || negb (Z.of_nat (length cols) <=? CTC_MAX_COLUMNS) then None else
  buf ← m_ctc_buf s; record ← rd buf 0 len;
  let '(ret, tch, x) := eng_update_row (m_tch s) (m_part s) record cols flag (engine s) in
  Some (ret, set_conn (world s) tch x s).

Definition ctc_delete_row (len : Z) (flag : dml_flag_t) (s : dml_state)
  : option (ct_errno_t * dml_state) :=
  if negb (len <? BIG_RECORD_SIZE) then None else
  let '(ret, tch, x) := eng_delete_row (m_tch s) (m_part s) len flag (engine s) in
  Some (ret, set_conn (world s) tch x s).

(** ** Inserts *)

(** Also returns [has_explicit_autoinc]. *)
Definition handle_auto_increment (s : dml_state) : ha_code * bool * dml_state :=
  let s := set_autoinc (record_0 s) 0 s in
  if negb (field_val_int E (record_0 s) =? 0)
     || (autoinc_field_has_explicit_non_null_value s && no_auto_value_on_zero E)
  then if truncated_value E then (HA_ERR_AUTOINC_ERANGE, false, s) else (OK, true, s)
  else match auto_inc_intervals_forced s with
       | forced_val :: _ =>
         (OK, true, set_forced [] (set_autoinc (field_store E forced_val (record_0 s)) forced_val s))
       | [] => (OK, false, s)
       end.

(** [buf]: [None] is [table->record[0]]. *)
Definition image (buf : option (list Z)) (s : dml_state) : list Z := default (record_0 s) buf.
Definition is_record_0 (buf : option (list Z)) : bool := bool_decide (buf = None).

(** [m_ctc_buf], which is allocated when it is first needed. *)
Definition get_ctc_buf (s : dml_state) : option (list Z) :=
  match m_ctc_buf s with
  | Some b => Some b
  | None => if buf_ok E then Some (replicate (Z.to_nat BIG_RECORD_SIZE) 0) else None
  end.

Definition convert_mysql_record_and_write_to_cantian (buf : option (list Z)) (flag : dml_flag_t)
    (s : dml_state) : option (ha_code * dml_state) :=
  match get_ctc_buf s with
  | None => Some (convert ERR_ALLOC_MEMORY, s)
  | Some b =>
    b ← clear_head b;
    s ← enter s;
    '(res, size, serial, _, b, y) ← encode_row (image buf s) b None (codec s);
    s ← leave (set_codec y (set_ctc_buf b s));
    if negb (RowFormat.is_ok res) then Some (of_status res, s) else
    s ← enter s;
    '(ret, last_insert_id, s) ← ctc_write_row (wrapU 16 size) serial flag s;
    s ← leave s;
    '(ret, s) ← check_error ret s;
    let s := if next_number_field s && is_record_0 buf && negb (has_explicit_autoinc flag)
             then set_autoinc (field_store E last_insert_id (record_0 s)) last_insert_id s
             else s in
    Some (convert ret, s)
  end.

Definition bulk_insert_low (flag : dml_flag_t) (s : dml_state)
  : option (ct_errno_t * Z * dml_state) :=
  b ← m_rec_buf_4_writing s;
  ctc_bulk_write (wrapU 16 (m_cantian_rec_len E)) (wb_records b) flag s.

(** A duplicate row is shown in [table->record[0]]. *)
Definition bulk_insert (s : dml_state) : option (ha_code * dml_state) :=
  s ← enter s;
  '(ret, dup_offset, s) ← bulk_insert_low (dml_flag false false false false) s;
  s ← leave s;
  '(ret, s) ← check_error ret s;
  if decide (ret = CT_SUCCESS) then Some (OK, s) else
  s ← (if decide (ret = ERR_DUPLICATE_KEY) then
         b ← m_rec_buf_4_writing s; data ← m_rec_buf_data s;
         Some (set_autoinc (read_back E (drop (Z.to_nat (wb_record b dup_offset)) data) (record_0 s))
                 (insert_id_for_cur_row s) s)
       else Some s);
  Some (convert ret, s).

(** The last part of [write_row]: the record is encoded into the buffer. *)
Definition add_to_buffer (buf : option (list Z)) (s : dml_state) : option (ha_code * dml_state) :=
  b ← m_rec_buf_4_writing s; data ← m_rec_buf_data s;
  if negb (wb_records b <? wb_max_records b) then None else
  let pos := Z.to_nat (wb_record b (wb_records b)) in
  let s := set_wbuf (Some (wb_add_record b)) s in
  slot ← clear_head (drop pos data);
  s ← enter s;
  '(res, size, _, _, slot, y) ← encode_row (image buf s) slot None (codec s);
  s ← leave (set_codec y (set_data (Some (take pos data ++ slot)) s));
  if negb (RowFormat.is_ok res)
  then Some (of_status res, set_wbuf (Some (wb_reset (wb_add_record b))) s)
  else if negb (size <=? m_cantian_rec_len E) then None else Some (OK, s).

Definition write_row (through : bool) (buf : option (list Z)) (s : dml_state)
  : option (ha_code * dml_state) :=
  if engine_ddl_passthru (Session.srv SE) t && is_create_table_check t then Some (OK, s) else
  let auto_inc_used := next_number_field s && is_record_0 buf in
  let '(res, explicit_autoinc, s) :=
    if auto_inc_used then handle_auto_increment s else (OK, false, s) in
  if decide (res <> OK) then Some (res, s) else
  match m_rec_buf_4_writing s with
  | None =>
    convert_mysql_record_and_write_to_cantian buf
      (set_write_through through (dml_flag false auto_inc_used explicit_autoinc false)) s
  | Some b =>
    if wb_records b =? wb_max_records b then
      '(res, s) ← bulk_insert s;
      if decide (res <> OK) then Some (res, set_wbuf None s)
      else add_to_buffer buf (set_wbuf (Some (wb_reset b)) s)
    else add_to_buffer buf s
  end.

(** The assertion is [m_rec_buf_4_writing == nullptr]. *)
Definition start_bulk_insert (rows : Z) (s : dml_state) : option dml_state :=
  if bool_decide (is_Some (m_rec_buf_4_writing s)) then None else
  if engine_ddl_passthru (Session.srv SE) t && (is_alter_table_copy t None || is_create_table_check t)
  then Some s else
  let s := match m_rec_buf_data s with
           | None => if data_ok E
                     then set_data (Some (replicate (Z.to_nat MAX_RECORD_BUFFER_SIZE_CTC) 0)) s else s
           | Some _ => s
           end in
  if (rows =? 1) || m_is_insert_dup s || m_is_replace s || m_ignore_dup s || (blob_fields E >? 0)
     || next_number_field s || negb (bool_decide (is_Some (m_rec_buf_data s)))
  then Some (set_wbuf None s)
  else Some (set_wbuf (Some (wb_new (m_max_batch_num E) (m_cantian_rec_len E))) s).

Definition end_bulk_insert (s : dml_state) : option (ha_code * dml_state) :=
  if engine_ddl_passthru (Session.srv SE) t && is_create_table_check t then Some (OK, s) else
  match m_rec_buf_4_writing s with
  | None => Some (OK, s)
  | Some b =>
    '(ret, s) ← (if negb (wb_records b =? 0) then
                   '(ret, s) ← bulk_insert s;
                   Some (ret, if decide (ret <> OK) then set_errno ret s else s)
                 else Some (OK, s));
    Some (ret, set_wbuf None s)
  end.

(** ** Updates and deletes *)

(** Whether all foreign keys that refer to the table cascade. *)
Definition pre_check_for_cascade (is_update : bool) : bool :=
  forallb (fun '(update_rule, delete_rule) =>
             let r := if is_update then update_rule else delete_rule : fk_rule in
             bool_decide (r = RULE_CASCADE) || bool_decide (r = RULE_SET_NULL))
    (foreign_key_parent E).

Definition check_if_update_primary_key : bool :=
  match primary_key E with
  | Some cols => existsb (fun c => default false (write_set E !! c)) cols
  | None => false
  end.

(** Whether the values of a key differ between two records. *)
Fixpoint ctc_cmp_key_values (parts : list KEY_PART_INFO) (old_data new_data : list Z) : option bool :=
  match parts with
  | [] => Some false
  | p :: parts =>
    o ← rd old_data (kp_offset p) (kp_length p); n ← rd new_data (kp_offset p) (kp_length p);
    if kp_var p then
      if kp_cmp_binary p (drop (Z.to_nat (kp_offset p)) old_data)
           (drop (Z.to_nat (kp_offset p)) new_data) then Some true
      else ctc_cmp_key_values parts old_data new_data
    else if negb (bool_decide (o = n)) then Some true
    else ctc_cmp_key_values parts old_data new_data
  end.

(** The columns to be updated. *)
Definition upd_columns (cdc : bool) : list Z :=
  let update_primary_key := cdc && check_if_update_primary_key in
  map Z.of_nat
    (filter (fun i => (update_primary_key || default false (write_set E !! i)) = true)
       (seq 0 (length (write_set E)))).

Definition is_replace_cmd : bool :=
  bool_decide (sql_command t = SQLCOM_REPLACE) || bool_decide (sql_command t = SQLCOM_REPLACE_SELECT).

(** [no_cascade_check] *)
Definition with_cascade_check (is_update : bool) (f : dml_flag_t) : dml_flag_t :=
  if negb (no_foreign_key_check f)
  then set_no_cascade (if dd_update f then true else pre_check_for_cascade is_update) f else f.

Definition update_row (old_data new_data : list Z) (s : dml_state) : option (ha_code * dml_state) :=
  let s := set_hints (is_replace_cmd || m_is_replace s) (m_is_insert_dup s) (m_ignore_dup s) s in
  differ ← (if is_replace_cmd then
              match errkey E with
              | Some parts => ctc_cmp_key_values parts old_data new_data
              | None => Some false
              end
            else Some false);
  if (differ : bool) then Some (HA_ERR_KEY_NOT_FOUND, s) else
  let upd_fields := upd_columns (Session.change_data_capture (m_tch s)) in
  if decide (upd_fields = []) then Some (HA_ERR_RECORD_IS_THE_SAME, s) else
  match get_ctc_buf s with
  | None => Some (convert ERR_ALLOC_MEMORY, s)
  | Some b =>
    b ← clear_head b;
    '(res, size, _, upd_fields, b, y) ← encode_row new_data b (Some upd_fields) (codec s);
    let s := set_codec y (set_ctc_buf b s) in
    if negb (RowFormat.is_ok res) then Some (of_status res, s) else
    if decide (upd_fields = []) then Some (OK, s) else
    let dup_update := m_is_insert_dup s || (m_ignore_dup s && m_is_replace s) in
    let flag := with_cascade_check true (dml_flag (m_is_replace s) false false dup_update) in
    '(ret, s) ← ctc_update_row (wrapU 16 size) upd_fields flag s;
    '(ret, s) ← check_error ret s;
    Some (convert ret, s)
  end.

Definition delete_row (s : dml_state) : option (ha_code * dml_state) :=
  let s := set_hints (is_replace_cmd || m_is_replace s) (m_is_insert_dup s) (m_ignore_dup s) s in
  let flag := with_cascade_check false
    (dml_flag (m_is_replace s || m_is_insert_dup s) false false false) in
  '(ret, s) ← ctc_delete_row (wrapU 16 (reclength E)) flag s;
  '(ret, s) ← check_error ret s;
  Some (convert ret, s).

(** ** Hints *)

Inductive ha_extra_function :=
  | HA_EXTRA_WRITE_CAN_REPLACE | HA_EXTRA_WRITE_CANNOT_REPLACE | HA_EXTRA_IGNORE_DUP_KEY
  | HA_EXTRA_NO_IGNORE_DUP_KEY | HA_EXTRA_INSERT_WITH_UPDATE | HA_EXTRA_OTHER.

(** But for [m_is_covering_index]. *)
Definition extra (op : ha_extra_function) (s : dml_state) : dml_state :=
  let '(r, d, i) := (m_is_replace s, m_is_insert_dup s, m_ignore_dup s) in
  match op with
  | HA_EXTRA_WRITE_CAN_REPLACE => set_hints true d i s
  | HA_EXTRA_WRITE_CANNOT_REPLACE => set_hints false d i s
  | HA_EXTRA_IGNORE_DUP_KEY => set_hints r d true s
  | HA_EXTRA_NO_IGNORE_DUP_KEY => set_hints r false false s
  | HA_EXTRA_INSERT_WITH_UPDATE => set_hints r true i s
  | HA_EXTRA_OTHER => s
  end.

(** ** Partitions ([ha_ctcpart.cc]) *)

(** [num_subparts]: if the table has subpartitions. *)
Definition set_partition (num_subparts : option Z) (part_id : Z) (s : dml_state) : dml_state :=
  match num_subparts with
  | Some n => set_part (part_id / n, part_id mod n) (m_last_part s) s
  | None => set_part (part_id, INVALID_PART_ID) (m_last_part s) s
  end.

Definition reset_partition (part_id : Z) (s : dml_state) : dml_state :=
  set_part (INVALID_PART_ID, INVALID_PART_ID) part_id s.

Definition part_start_bulk_insert (rows : Z) (s : dml_state) : option dml_state :=
  s ← start_bulk_insert rows s;
  match m_rec_buf_4_writing s, m_bulk_insert_parts s with
  | Some _, None =>
    Some (if data_ok E then set_parts (Some (replicate (Z.to_nat (m_max_batch_num E)) (0, 0))) s else s)
  | _, _ => Some s
  end.

(** [table->next_number_field] and the flag of an explicit value around an
    insert: [found]: [found_next_number_field] is there; [expl]:
    [autoinc_has_expl_non_null_value]; [upd]:
    [autoinc_has_expl_non_null_value_update_row]. *)
Definition before_part_write (found expl upd : bool) (s : dml_state) : dml_state :=
  let s := if negb upd && next_number_field s && negb expl
           then set_next_number (next_number_field s) false
                  (set_autoinc (field_store E 0 (record_0 s)) (insert_id_for_cur_row s) s)
           else s in
  if found && upd then
    let s := set_next_number true true s in
    if field_val_int E (record_0 s) =? 0 then set_forced [0] s else s
  else s.

Definition write_row_in_part (num_subparts : option Z) (found expl upd : bool) (part_id : Z)
    (buf : option (list Z)) (s : dml_state) : option (ha_code * dml_state) :=
  let saved := (next_number_field s, autoinc_field_has_explicit_non_null_value s) in
  let s := set_partition num_subparts part_id (before_part_write found expl upd s) in
  '(ret, s) ← write_row false buf s;
  s ← (if decide (ret = OK) then
         match m_rec_buf_4_writing s with
         | Some b =>
           parts ← m_bulk_insert_parts s;
           if negb (0 <? wb_records b) then None else
           let pos := wb_records b - 1 in
           if Z.of_nat (length parts) <=? pos then None
           else Some (set_parts (Some (<[Z.to_nat pos := m_part s]> parts)) s)
         | None => Some s
         end
       else Some s);
  Some (ret, set_next_number (fst saved) (snd saved) (reset_partition part_id s)).

End WithEnv.

End Operations.

(** ** Inserting rows

    The server inserts rows one after the other: each is put into
    [table->record[0]] and passed to the handler, of a partitioned table if
    [mode] is not [None] (with the number of subpartitions, if any). It starts
    and ends the bulk insert, and stops at the first error. *)

Section Inserts.
Context {X Y : Type} {WB : WriteBuffer} {Enc : RowEncoder Y} {Eng : DmlEngine X}.
Context (E : dml_env) (mode : option (option Z)).

Definition server_start (estimate : Z) (s : dml_state) : option (@dml_state X Y WB) :=
  match mode with
  | None => start_bulk_insert E estimate s
  | Some _ => part_start_bulk_insert E estimate s
  end.

Definition server_write (r : Z * list Z) (s : dml_state) : option (ha_code * dml_state) :=
  let s := set_autoinc (snd r) (insert_id_for_cur_row s) s in
  match mode with
  | None => write_row E false None s
  | Some n => write_row_in_part E n false false false (fst r) None s
  end.

Fixpoint server_writes (rows : list (Z * list Z)) (s : dml_state) : option (ha_code * dml_state) :=
  match rows with
  | [] => end_bulk_insert E s
  | r :: rows =>
    '(code, s) ← server_write r s;
    if decide (code <> OK) then Some (code, s) else server_writes rows s
  end.

Definition insert_rows (estimate : Z) (rows : list (Z * list Z)) (s : dml_state)
  : option (ha_code * dml_state) :=
  s ← server_start estimate s; server_writes rows s.

End Inserts.

(** [m_max_batch_num] *)
Definition max_batch_num (partitioned : bool) (rec_len : Z) : Z :=
  let m := MAX_RECORD_SIZE / rec_len in
  let m := if m >? 2 ^ 32 - 1 then 2 ^ 32 - 1 else m in
  if partitioned && (m >? MAX_BULK_INSERT_PART_ROWS) then MAX_BULK_INSERT_PART_ROWS else m.

Lemma max_batch_range p len :
  0 < len <= CT_MAX_RECORD_LENGTH ->
  1 <= max_batch_num p len /\ len * max_batch_num p len <= MAX_RECORD_SIZE /\
  (p = true -> max_batch_num p len <= MAX_BULK_INSERT_PART_ROWS).
Proof.
  unfold max_batch_num, MAX_RECORD_SIZE, CT_MAX_RECORD_LENGTH, MAX_BULK_INSERT_PART_ROWS.
  intros H. pose proof (Z.div_str_pos (64 * 1024) len ltac:(lia)).
  pose proof (Z.mul_div_le (64 * 1024) len ltac:(lia)).
  destruct (_ >? 2 ^ 32 - 1) eqn:E1; zb; [nia|].
  destruct p; cbn [andb]; [|split; [lia|split; [lia|done]]].
  destruct (_ >? 128) eqn:E2; zb; split; try lia; split; try lia; nia.
Qed.

(** ** Memory *)

Definition slot (len i : nat) (l : list Z) : list Z := take len (drop (i * len) l).

Lemma length_chunks n len data : length (chunks n len data) = n.
Proof. revert data. induction n; intros; cbn; auto. Qed.

Lemma lookup_chunks n len data i :
  (i < n)%nat -> chunks n len data !! i = Some (slot len i data).
Proof.
  revert data i. induction n as [|n IH]; intros data [|i] Hi; [lia..|done|].
  cbn [chunks lookup list_lookup]. change (chunks n len (drop len data) !! i = Some (slot len (S i) data)).
  rewrite IH by lia. unfold slot. rewrite drop_drop. done.
Qed.

Lemma slot_take len i n l : (i < n)%nat -> slot len i (take (n * len) l) = slot len i l.
Proof.
  intros H. unfold slot. rewrite !take_drop_commute, take_take. do 2 f_equal. nia.
Qed.

(** A store behind a slot, and at it. *)
Lemma slot_before len i n l l2 :
  (i < n)%nat -> (n * len <= length l)%nat -> slot len i (take (n * len) l ++ l2) = slot len i l.
Proof.
  intros Hi Hl. unfold slot. rewrite take_drop_commute, take_app_le by (rewrite length_take; nia).
  rewrite <- take_drop_commute. apply slot_take. done.
Qed.

Lemma slot_at len n l l2 :
  (n * len <= length l)%nat -> slot len n (take (n * len) l ++ l2) = take len l2.
Proof. intros Hl. unfold slot. by rewrite drop_app_length' by (rewrite length_take; lia). Qed.

Definition memory_ok (b : option (list Z)) : Prop :=
  match b with Some l => Z.of_nat (length l) = MAX_RECORD_SIZE /\ Forall byte l | None => True end.

Lemma clear_head_run (l : list Z) :
  8 <= Z.of_nat (length l) -> Forall byte l ->
  exists l', clear_head l = Some l' /\ length l' = length l /\ Forall byte l'.
Proof.
  intros Hl Hb. unfold clear_head.
  destruct (wr_Some l 0 (replicate (Z.to_nat RowFormat.row_head_sizeof) 0)) as [l' Hw];
    [done|rewrite length_replicate; unfold RowFormat.row_head_sizeof; lia|].
  exists l'. split; [done|]. split; [by eapply length_wr|].
  eapply wr_byte; [done| |done]. apply Forall_replicate. unfold byte. lia.
Qed.


Section BulkInsert.
Context {X Y : Type} {WB : WriteBuffer} {Enc : RowEncoder Y} {Eng : DmlEngine X}.
Context {WBL : WriteBufferLaws WB}.
Context (E : dml_env) (mode : option (option Z)) (own : ctc_part_t).
Let len := m_cantian_rec_len E.
Context (good : list Z -> Prop) (row_of : list Z -> list Z -> Prop) (codec_ok : Y -> Prop)
  (rows_in : X -> list (ctc_part_t * list Z)).
Context {EncL : RowEncoderLaws Enc good (m_cantian_rec_len E) row_of codec_ok}.
Context {EngL : DmlLaws Eng rows_in}.
Context (Hlen : 0 < m_cantian_rec_len E <= CT_MAX_RECORD_LENGTH).
Context (Hbatch : m_max_batch_num E
  = max_batch_num (bool_decide (is_Some mode)) (m_cantian_rec_len E)).
Context (Hdata : data_ok E = true).
Context (Hreach : engine_ddl_passthru (Session.srv (sess_env E)) (Session.thd (sess_env E)) = false).

Abbreviation state := (@dml_state X Y WB).

(** ** Session calls *)

Lemma enter_run (s : state) : exists w t, enter E s = Some (set_conn w t (engine s) s).
Proof.
  unfold enter, Session.update_member_tch, Session.bind, Session.get_ctx, Session.put_ctx, Session.ret.
  destruct (Session.w_ctx (world s)); [|eexists _, _; reflexivity].
  destruct (_ =? _); eexists _, _; reflexivity.
Qed.

Lemma leave_run (s : state) : exists w t, leave E s = Some (set_conn w t (engine s) s).
Proof.
  unfold leave, Session.update_sess_ctx_by_tch, Session.get_or_init_sess_ctx, Session.bind,
    Session.get_ctx, Session.get_log, Session.put_ctx, Session.ret.
  destruct (Session.w_ctx (world s)); [eexists _, _; reflexivity|].
  destruct (Session.malloc_ok _ _); eexists _, _; reflexivity.
Qed.

Lemma check_run ret (s : state) :
  no_fk_error ret -> exists w t, check_error E ret s = Some (ret, set_conn w t (engine s) s).
Proof.
  intros H. unfold check_error, Session.mark_rollback.
  pose proof (checked_id (Session.thd (sess_env E)) ret H) as Hc. unfold checked in Hc.
  destruct (check_error_code_to_mysql _ _) as [m r]. cbn in Hc. subst r.
  eexists _, _. reflexivity.
Qed.

(** ** The invariant *)

(** The partition of a row: the handler's own one, if it is not partitioned. *)
Definition part_of (r : Z * list Z) : ctc_part_t :=
  match mode with
  | None => own
  | Some (Some n) => (fst r / n, fst r mod n)
  | Some None => (fst r, INVALID_PART_ID)
  end.

Definition stored_as (r : Z * list Z) (p : ctc_part_t * list Z) : Prop :=
  fst p = part_of r /\ row_of (snd r) (snd p).

(** The rows [d] are in the buffer, with their partitions. *)
Definition slots_hold (d : list (Z * list Z)) (data : option (list Z)) (wb : option wbuf) : Prop :=
  match wb with
  | None => d = []
  | Some b =>
    wb_max_records b = m_max_batch_num E /\ wb_record_size b = len /\
    wb_records b = Z.of_nat (length d) /\ Z.of_nat (length d) <= m_max_batch_num E /\
    exists l, data = Some l /\
      forall i r, d !! i = Some r -> row_of (snd r) (slot (Z.to_nat len) i l)
  end.

Definition parts_hold (d : list (Z * list Z)) (wb : option wbuf) (parts : option (list ctc_part_t))
  : Prop :=
  match mode, wb with
  | None, _ => parts = None
  | Some _, None => True
  | Some _, Some _ => exists ps, parts = Some ps /\ Z.of_nat (length ps) = m_max_batch_num E /\
      forall i r, d !! i = Some r -> ps !! i = Some (part_of r)
  end.

Record steady (y : Y) (cb data : option (list Z)) (nn : bool) : Prop := {
  st_codec : codec_ok y;
  st_cb : memory_ok cb;
  st_data : memory_ok data;
  st_nn : nn = false }.

Abbreviation steady_state s :=
  (steady (codec s) (m_ctc_buf s) (m_rec_buf_data s) (next_number_field s)) (only parsing).

(** The part of a batch that goes to the engine. *)
Lemma batch_rows d (l : list Z) :
  (forall i r, d !! i = Some r -> row_of (snd r) (slot (Z.to_nat len) i l)) ->
  forall parts, length parts = length d ->
  (forall i r, d !! i = Some r -> parts !! i = Some (part_of r)) ->
  Forall2 stored_as d (zip parts
    (chunks (length d) (Z.to_nat len) (take (Z.to_nat (len * Z.of_nat (length d))) l))).
Proof.
  intros Hrow parts Hl Hp. apply Forall2_same_length_lookup_2.
  { rewrite length_zip, length_chunks. lia. }
  intros i r p Hi Hz. rewrite lookup_zip_with in Hz.
  pose proof (lookup_lt_Some _ _ _ Hi) as Hlt.
  rewrite (Hp i r Hi), lookup_chunks in Hz by done. cbn in Hz. injection Hz as <-.
  split; [done|]. cbn [snd]. replace (Z.to_nat (len * Z.of_nat (length d)))
    with (length d * Z.to_nat len)%nat by (fold len in Hlen; nia).
  rewrite slot_take by done. by apply Hrow.
Qed.

(** The engine never refuses. *)
Definition engine_accepts : Prop :=
  (forall t p r sr f x, fst (fst (fst (eng_write_row t p r sr f x))) = CT_SUCCESS) /\
  (forall t p d l n ps f x, fst (fst (fst (eng_bulk_write t p d l n ps f x))) = CT_SUCCESS).

Lemma parts_sent d b parts :
  parts_hold d (Some b) parts -> Z.of_nat (length d) <= m_max_batch_num E ->
  match parts with
  | None => Some None
  | Some ps => if (Z.of_nat (length d) <=? MAX_BULK_INSERT_PART_ROWS)
                  && (Z.of_nat (length d) <=? Z.of_nat (length ps))
               then Some (Some (take (Z.to_nat (Z.of_nat (length d))) ps)) else None
  end = Some (option_map (take (length d)) parts).
Proof.
  intros Hp Hle. destruct (max_batch_range (bool_decide (is_Some mode)) _ Hlen) as (_ & _ & Hmax).
  rewrite <- Hbatch in Hmax. unfold parts_hold in Hp. destruct mode as [n|].
  - destruct Hp as (ps & -> & Hl & _). specialize (Hmax eq_refl).
    rewrite !(proj2 (Z.leb_le _ _)) by lia. by rewrite Nat2Z.id.
  - by subst parts.
Qed.

Lemma bulk_write_run (s : state) d b flag :
  m_rec_buf_4_writing s = Some b -> slots_hold d (m_rec_buf_data s) (Some b) ->
  parts_hold d (Some b) (m_bulk_insert_parts s) -> memory_ok (m_rec_buf_data s) ->
  (mode = None -> m_part s = own) ->
  exists ret pos t x, bulk_insert_low E flag s = Some (ret, pos, set_conn (world s) t x s) /\
    no_fk_error ret /\ (engine_accepts -> ret = CT_SUCCESS) /\
    (ret = CT_SUCCESS -> exists st, rows_in x = rows_in (engine s) ++ st /\ Forall2 stored_as d st).
Proof.
  intros Hb (Hmx & Hsz & Hn & Hle & l & Hl & Hslots) Hparts Hmem Hown.
  destruct (max_batch_range (bool_decide (is_Some mode)) _ Hlen) as (H1 & H2 & _).
  rewrite <- Hbatch in H1, H2. fold len in H2, Hlen. rewrite Hl in Hmem. destruct Hmem as [Hml _].
  unfold CT_MAX_RECORD_LENGTH in Hlen.
  unfold bulk_insert_low. rewrite Hb. cbn [mbind option_bind]. fold len.
  rewrite wrapU_small by lia. unfold ctc_bulk_write. rewrite Hn.
  rewrite (proj2 (Z.leb_le _ _)) by nia. cbn [negb]. rewrite Hl. cbn [mbind option_bind].
  rewrite rd_Some by nia. cbn [mbind option_bind]. rewrite (parts_sent d b) by done.
  cbn [mbind option_bind]. set (bytes := take _ _). set (ps := option_map _ _).
  pose proof (eng_bulk_errors (m_tch s) (m_part s) bytes len (Z.of_nat (length d)) ps flag (engine s)) as Herr.
  destruct (eng_bulk_write (m_tch s) (m_part s) bytes len (Z.of_nat (length d)) ps flag (engine s))
    as [[[ret pos] t] x] eqn:Hcall. exists ret, pos, t, x. split; [done|]. split; [exact Herr|]. split.
  { intros [_ Hacc]. specialize (Hacc (m_tch s) (m_part s) bytes len (Z.of_nat (length d)) ps flag (engine s)).
    by rewrite Hcall in Hacc. }
  intros ->. apply eng_bulk_ok in Hcall. eexists. split; [exact Hcall|].
  rewrite Nat2Z.id. unfold bytes. rewrite drop_0. apply batch_rows; [done| |].
  - unfold ps, parts_hold in *. destruct mode as [n|].
    + destruct Hparts as (ps' & -> & Hl' & _). cbn. rewrite length_take. lia.
    + rewrite Hparts. cbn. apply length_replicate.
  - intros i r Hi. pose proof (lookup_lt_Some _ _ _ Hi). unfold ps, parts_hold in *. destruct mode as [n|] eqn:Hm.
    + destruct Hparts as (ps' & -> & Hl' & Hp). cbn. rewrite lookup_take_lt by done. by apply Hp.
    + rewrite Hparts. cbn. rewrite lookup_replicate_2 by done.
      unfold part_of. rewrite Hm, Hown by done. done.
Qed.

(** What a call leaves of the handler. *)
Record unchanged (s s' : state) : Prop := {
  un_cb : m_ctc_buf s' = m_ctc_buf s;
  un_data : m_rec_buf_data s' = m_rec_buf_data s;
  un_wb : m_rec_buf_4_writing s' = m_rec_buf_4_writing s;
  un_parts : m_bulk_insert_parts s' = m_bulk_insert_parts s;
  un_nn : next_number_field s' = next_number_field s;
  un_codec : codec s' = codec s;
  un_part : m_part s' = m_part s }.

Lemma bulk_insert_run (s : state) d b :
  m_rec_buf_4_writing s = Some b -> slots_hold d (m_rec_buf_data s) (Some b) ->
  parts_hold d (Some b) (m_bulk_insert_parts s) -> memory_ok (m_rec_buf_data s) ->
  (mode = None -> m_part s = own) ->
  exists code s', bulk_insert E s = Some (code, s') /\ unchanged s s' /\
    (engine_accepts -> code = OK) /\
    (code = OK -> record_0 s' = record_0 s /\
       exists st, rows_in (engine s') = rows_in (engine s) ++ st /\ Forall2 stored_as d st).
Proof.
  intros Hb Hslots Hparts Hmem Hown. unfold bulk_insert.
  destruct (enter_run s) as (w1 & t1 & ->). cbn [mbind option_bind].
  destruct (bulk_write_run (set_conn w1 t1 (engine s) s) d b
    (dml_flag E false false false false)) as (ret & pos & t2 & x & -> & Hfk & Hacc & Hok); try done.
  cbn [mbind option_bind]. set (s1 := set_conn _ t2 x _).
  destruct (leave_run s1) as (w3 & t3 & ->). cbn [mbind option_bind].
  set (s2 := set_conn w3 _ _ _). destruct (check_run ret s2 Hfk) as (w4 & t4 & ->).
  cbn [mbind option_bind]. set (s3 := set_conn w4 _ _ _).
  assert (unchanged s s3) as Hun by (by split).
  destruct (decide (ret = CT_SUCCESS)) as [->|Hr].
  - exists OK, s3. split; [done|]. split; [done|]. split; [done|]. intros _. split; [done|].
    by apply Hok.
  - assert (forall s4, unchanged s s4 -> exists code s', Some (convert ret, s4) = Some (code, s') /\
      unchanged s s' /\ (engine_accepts -> code = OK) /\
      (code = OK -> record_0 s' = record_0 s /\
         exists st, rows_in (engine s') = rows_in (engine s) ++ st /\ Forall2 stored_as d st)) as Hend.
    { intros s4 H4. exists (convert ret), s4. split; [done|]. split; [done|].
      rewrite convert_ok. split; [by intros ?; destruct Hr; auto|done]. }
    destruct Hslots as (_ & _ & _ & _ & l & Hl & _).
    destruct (decide _) as [->|Hdup]; cbn [mbind option_bind]; [|by apply Hend].
    change (m_rec_buf_4_writing s3) with (m_rec_buf_4_writing s).
    change (m_rec_buf_data s3) with (m_rec_buf_data s). rewrite Hb, Hl. cbn [mbind option_bind].
    apply Hend. by destruct Hun.
Qed.

(** ** One row *)

Lemma get_ctc_buf_ok (s : state) b :
  memory_ok (m_ctc_buf s) -> get_ctc_buf E s = Some b -> memory_ok (Some b).
Proof.
  unfold get_ctc_buf. intros Hm H. destruct (m_ctc_buf s); [by injection H as <-|].
  destruct (buf_ok E); [|done]. apply (inj Some) in H. subst b. split; [by rewrite length_replicate, Z2Nat.id|].
  apply Forall_replicate. unfold byte. lia.
Qed.

(** The row goes to the engine at once. *)
Lemma write_now_run (s : state) flag r :
  8 <= len -> record_0 s = snd r -> good (snd r) -> m_part s = part_of r -> steady_state s ->
  exists code s', convert_mysql_record_and_write_to_cantian E None flag s = Some (code, s') /\
    steady_state s' /\ m_rec_buf_4_writing s' = m_rec_buf_4_writing s /\
    m_bulk_insert_parts s' = m_bulk_insert_parts s /\ m_part s' = m_part s /\
    (engine_accepts -> buf_ok E = true -> code = OK) /\
    (code = OK -> exists p, rows_in (engine s') = rows_in (engine s) ++ [p] /\ stored_as r p).
Proof.
  intros H8 Hrec Hgood Hpart [Hco Hcb Hda Hnn]. unfold convert_mysql_record_and_write_to_cantian.
  destruct (get_ctc_buf E s) as [b0|] eqn:Hb0.
  2:{ eexists _, s. split; [done|]. split; [by split|]. do 3 (split; [done|]). split.
      - intros _ Hok. unfold get_ctc_buf in Hb0. rewrite Hok in Hb0. by destruct (m_ctc_buf s).
      - rewrite convert_ok. done. }
  apply get_ctc_buf_ok in Hb0 as [Hl0 Hbb0]; [|done]. unfold MAX_RECORD_SIZE in Hl0.
  destruct (clear_head_run b0) as (b & -> & Hl & Hb); [lia|done|]. cbn [mbind option_bind].
  destruct (enter_run s) as (w1 & t1 & ->). cbn [mbind option_bind].
  set (s1 := set_conn w1 t1 (engine s) s). change (image None s1) with (record_0 s). rewrite Hrec.
  unfold CT_MAX_RECORD_LENGTH in Hlen. change (codec s1) with (codec s).
  destruct (encode_insert (snd r) b (codec s)) as (size & serial & b' & y & Henc & Hsz & Hy & Hl' & Hb' & Hrow);
    [done|done|lia|done|].
  rewrite Henc. cbn [mbind option_bind]. set (s2 := set_codec y _).
  destruct (leave_run s2) as (w3 & t3 & ->). cbn [mbind option_bind RowFormat.is_ok Z.eqb negb].
  set (s3 := set_conn w3 t3 _ s2). destruct (enter_run s3) as (w4 & t4 & ->). cbn [mbind option_bind].
  set (s4 := set_conn w4 t4 _ s3). rewrite wrapU_small by lia. unfold ctc_write_row.
  change (m_ctc_buf s4) with (Some b'). cbn [mbind option_bind]. rewrite rd_Some by lia.
  cbn [mbind option_bind]. rewrite drop_0. set (rec := take _ b').
  pose proof (eng_write_errors (m_tch s4) (m_part s4) rec serial flag (engine s4)) as Hfk.
  destruct (eng_write_row (m_tch s4) (m_part s4) rec serial flag (engine s4)) as [[[ret id] t5] x]
    eqn:Hcall. cbn [mbind option_bind]. set (s5 := set_conn _ t5 x s4).
  destruct (leave_run s5) as (w6 & t6 & ->). cbn [mbind option_bind].
  set (s6 := set_conn w6 t6 _ s5). destruct (check_run ret s6 Hfk) as (w7 & t7 & ->).
  cbn [mbind option_bind]. set (s7 := set_conn w7 t7 _ s6).
  change (next_number_field s7) with (next_number_field s). rewrite Hnn. cbn [andb].
  eexists _, s7. split; [reflexivity|]. split.
  { split; [exact Hy| |exact Hda|exact Hnn]. split; [unfold MAX_RECORD_SIZE; lia|exact Hb']. }
  do 3 (split; [done|]). rewrite convert_ok. split.
  - intros [Hacc _] _. specialize (Hacc (m_tch s4) (m_part s4) rec serial flag (engine s4)).
    by rewrite Hcall in Hacc.
  - intros ->. apply eng_write_ok in Hcall. exists (m_part s4, rec). split; [exact Hcall|].
    split; [exact Hpart|]. apply Hrow. lia.
Qed.

(** The row goes into the buffer. *)
Lemma add_run (s : state) d b r :
  8 <= len -> record_0 s = snd r -> good (snd r) -> steady_state s ->
  m_rec_buf_4_writing s = Some b -> slots_hold d (m_rec_buf_data s) (Some b) ->
  wb_records b < wb_max_records b ->
  exists s', add_to_buffer E None s = Some (OK, s') /\ steady_state s' /\
    m_part s' = m_part s /\ m_bulk_insert_parts s' = m_bulk_insert_parts s /\
    engine s' = engine s /\ m_rec_buf_4_writing s' = Some (wb_add_record b) /\
    slots_hold (d ++ [r]) (m_rec_buf_data s') (Some (wb_add_record b)).
Proof.
  intros H8 Hrec Hgood [Hco Hcb Hda Hnn] Hb (Hmx & Hsz & Hn & Hle & l & Hl & Hslots) Hroom.
  unfold add_to_buffer. rewrite Hb, Hl. cbn [mbind option_bind]. rewrite Hl in Hda.
  destruct Hda as [Hml Hbl]. destruct (max_batch_range (bool_decide (is_Some mode)) _ Hlen) as (_ & H2 & _).
  rewrite <- Hbatch in H2. fold len in H2, Hlen. rewrite (proj2 (Z.ltb_lt _ _)) by done. cbn [negb].
  rewrite wb_record_view, Hsz, Hn. set (pos := Z.to_nat (Z.of_nat (length d) * len)).
  assert (pos = (length d * Z.to_nat len)%nat) as Hpos by (unfold pos; nia).
  assert (Z.of_nat pos + len <= Z.of_nat (length l)) as Hin by (unfold pos; nia).
  destruct (clear_head_run (drop pos l)) as (slot0 & -> & Hls & Hbs);
    [rewrite length_drop; lia|by apply Forall_drop|]. rewrite length_drop in Hls.
  cbn [mbind option_bind]. set (s0 := set_wbuf _ s).
  destruct (enter_run s0) as (w1 & t1 & ->). cbn [mbind option_bind]. set (s1 := set_conn w1 t1 _ s0).
  change (image None s1) with (record_0 s). rewrite Hrec. change (codec s1) with (codec s).
  destruct (encode_insert (snd r) slot0 (codec s)) as (size & serial & sl & y & Henc & Hsize & Hy & Hl' & Hb' & Hrow);
    [done|done|fold len; lia|done|].
  rewrite Henc. cbn [mbind option_bind]. set (s2 := set_codec y _).
  destruct (leave_run s2) as (w3 & t3 & ->). cbn [mbind option_bind RowFormat.is_ok Z.eqb negb].
  set (s3 := set_conn w3 t3 _ s2). rewrite (proj2 (Z.leb_le _ _)) by lia. cbn [negb].
  destruct (wb_add_view b Hroom) as (A1 & A2 & A3).
  exists s3. split; [done|]. split.
  { split; try done. change (m_rec_buf_data s3) with (Some (take pos l ++ sl)). split.
    - rewrite length_app, length_take. lia.
    - apply Forall_app. split; [by apply Forall_take|done]. }
  do 4 (split; [done|]). unfold slots_hold. rewrite A1, A2, A3, length_app. cbn [length].
  rewrite Hmx, Hn in Hroom. do 4 (split; [first [done|lia]|]).
  exists (take pos l ++ sl). split; [done|]. rewrite Hpos. intros i r' Hi.
  apply lookup_app_Some in Hi as [Hi|[Hi Hr']].
  - rewrite slot_before; [by apply Hslots|by eapply lookup_lt_Some|lia].
  - destruct (i - length d)%nat eqn:Hid; [|done]. cbn in Hr'. injection Hr' as <-.
    replace i with (length d) by lia. rewrite slot_at by lia. apply Hrow. fold len. lia.
Qed.

(** [write_row]: afterwards the row, and those that were in the buffer, are
    in the engine or the buffer; it is the last one in the buffer. *)
Lemma write_row_run (s : state) d r :
  8 <= len -> record_0 s = snd r -> good (snd r) -> m_part s = part_of r -> steady_state s ->
  slots_hold d (m_rec_buf_data s) (m_rec_buf_4_writing s) ->
  parts_hold d (m_rec_buf_4_writing s) (m_bulk_insert_parts s) ->
  exists code s', write_row E false None s = Some (code, s') /\ steady_state s' /\
    m_part s' = m_part s /\ m_bulk_insert_parts s' = m_bulk_insert_parts s /\
    (engine_accepts -> buf_ok E = true -> code = OK) /\
    (code = OK -> exists d1 d2 st, rows_in (engine s') = rows_in (engine s) ++ st /\
       Forall2 stored_as d1 st /\
       ((m_rec_buf_4_writing s' = None /\ d2 = [] /\ d1 = d ++ [r]) \/
        (is_Some (m_rec_buf_4_writing s) /\ is_Some (m_rec_buf_4_writing s') /\ d1 ++ d2 = d /\
         slots_hold (d2 ++ [r]) (m_rec_buf_data s') (m_rec_buf_4_writing s') /\
         parts_hold d2 (m_rec_buf_4_writing s') (m_bulk_insert_parts s')))).
Proof.
  intros H8 Hrec Hgood Hpart Hst Hslots Hparts. unfold write_row. rewrite Hreach. cbn [andb].
  rewrite (st_nn _ _ _ _ Hst). cbn [andb]. rewrite decide_False by (by intros H; apply H).
  destruct (m_rec_buf_4_writing s) as [b|] eqn:Hb.
  2:{ cbn in Hslots. subst d.
      destruct (write_now_run s (set_write_through false (dml_flag E false false false false)) r)
        as (code & s' & -> & Hst' & Hwb & Hpa & Hp & Hacc & Hok); try done.
      exists code, s'. split; [done|]. split; [done|]. split; [done|]. split; [done|]. split; [done|].
      intros Hc. destruct (Hok Hc) as (p & Hin & Hp'). exists [r], [], [p].
      split; [done|]. split; [by constructor|]. left. by rewrite Hwb, Hb. }
  destruct (wb_records b =? wb_max_records b) eqn:Hfull; zb.
  - destruct (bulk_insert_run s d b) as (code & s1 & -> & Hun & Hacc & Hok); try done.
    { apply (st_data _ _ _ _ Hst). }
    { intros Hm. rewrite Hpart. unfold part_of. by rewrite Hm. }
    cbn [mbind option_bind]. destruct Hun as [U1 U2 U3 U4 U5 U6 U7].
    destruct Hst as [Hco Hcb Hda Hnn].
    destruct (decide (code <> OK)) as [Hc|Hc].
    { exists code, (set_wbuf None s1). split; [done|]. split.
      { split; cbn [codec m_ctc_buf m_rec_buf_data next_number_field set_wbuf]; congruence. }
      split; [done|]. split; [done|]. split; [by intros ? _; auto|done]. }
    apply dec_stable in Hc. destruct (Hok Hc) as (Hr0 & st & Hin & Hfor).
    destruct (wb_reset_view b) as (R1 & R2 & R3).
    destruct Hslots as (Hmx & Hsz & Hn & Hle & l & Hl & _).
    destruct (max_batch_range (bool_decide (is_Some mode)) _ Hlen) as (H1 & _).
    rewrite <- Hbatch in H1.
    destruct (add_run (set_wbuf (Some (wb_reset b)) s1) [] (wb_reset b) r)
      as (s' & -> & Hst' & Hp' & Hpa' & He' & Hwb' & Hs'); try done.
    { cbn [record_0 set_wbuf]. congruence. }
    { split; cbn [codec m_ctc_buf m_rec_buf_data next_number_field set_wbuf]; congruence. }
    { unfold slots_hold. rewrite R1, R2, R3. cbn [m_rec_buf_data set_wbuf length]. rewrite U2.
      split; [done|]. split; [done|]. split; [done|]. split; [lia|]. by exists l. }
    { rewrite R1, R2. lia. }
    exists OK, s'. split; [done|]. split; [done|]. split; [etrans; [exact Hp'|exact U7]|].
    split; [etrans; [exact Hpa'|exact U4]|]. split; [done|].
    intros _. exists d, [], st. rewrite He'. split; [exact Hin|]. split; [done|]. right. rewrite Hwb'.
    split; [done|]. split; [done|]. split; [apply app_nil_r|]. split; [exact Hs'|].
    rewrite Hpa'. cbn [m_bulk_insert_parts set_wbuf]. rewrite U4. unfold parts_hold in Hparts |- *.
    destruct mode; [|done]. destruct Hparts as (ps & -> & Hl' & _). by exists ps.
  - pose proof Hslots as (Hmx & Hsz & Hn & Hle & _).
    destruct (add_run s d b r) as (s' & -> & Hst' & Hp' & Hpa' & He' & Hwb' & Hs'); try done; [lia|].
    exists OK, s'. split; [done|]. split; [done|]. split; [done|]. split; [done|]. split; [done|].
    intros _. exists [], d, []. rewrite He', app_nil_r. split; [done|]. split; [done|]. right.
    rewrite Hwb'. split; [done|]. split; [done|]. split; [done|]. split; [done|]. rewrite Hpa'. done.
Qed.

(** ** A whole insert *)

(** After the rows [dn]: they are, in order, in the engine, behind the rows
    [base] it had, or in the buffer. *)
Definition Inv (base : list (ctc_part_t * list Z)) (dn : list (Z * list Z)) (s : state) : Prop :=
  steady_state s /\ (mode = None -> m_part s = own) /\
  exists d1 d2 st, dn = d1 ++ d2 /\ rows_in (engine s) = base ++ st /\ Forall2 stored_as d1 st /\
    slots_hold d2 (m_rec_buf_data s) (m_rec_buf_4_writing s) /\
    parts_hold d2 (m_rec_buf_4_writing s) (m_bulk_insert_parts s).

Lemma plain_write_run base dn (s : state) r :
  8 <= len -> mode = None -> Inv base dn s -> good (snd r) ->
  exists code s', server_write E mode r s = Some (code, s') /\
    (engine_accepts -> buf_ok E = true -> code = OK) /\ (code = OK -> Inv base (dn ++ [r]) s').
Proof.
  intros H8 Hm (Hst & Hown & d1 & d2 & st & -> & Hin & Hd1 & Hslots & Hparts) Hgood.
  unfold server_write. rewrite Hm. specialize (Hown Hm).
  destruct (write_row_run (set_autoinc (snd r) (insert_id_for_cur_row s) s) d2 r)
    as (code & s' & Hw & Hst' & Hp' & Hpa' & Hacc & Hok); try done.
  { cbn [m_part set_autoinc]. rewrite Hown. unfold part_of. by rewrite Hm. }
  exists code, s'. split; [exact Hw|]. split; [done|]. intros Hc. destruct (Hok Hc) as (e1 & e2 & st2 & Hi & Hf & Hcase).
  split; [done|]. split; [intros _; by etrans|]. cbn [engine set_autoinc] in Hi.
  destruct Hcase as [(Hwb & -> & ->)|(_ & Hwb & <- & Hs & Hpt)].
  - exists (d1 ++ d2 ++ [r]), [], (st ++ st2). rewrite app_nil_r.
    split; [by rewrite app_assoc|]. split; [by rewrite Hi, Hin, app_assoc|].
    split; [by apply Forall2_app|]. rewrite Hwb.
    split; [done|]. unfold parts_hold in *. rewrite Hm in *. etrans; [exact Hpa'|exact Hparts].
  - exists (d1 ++ e1), (e2 ++ [r]), (st ++ st2).
    split; [by rewrite !app_assoc|]. split; [by rewrite Hi, Hin, app_assoc|]. split; [by apply Forall2_app|]. split; [done|].
    unfold parts_hold in *. by rewrite Hm in *.
Qed.

Lemma part_write_run base dn (s : state) n r :
  8 <= len -> mode = Some n -> Inv base dn s -> good (snd r) ->
  exists code s', server_write E mode r s = Some (code, s') /\
    (engine_accepts -> buf_ok E = true -> code = OK) /\ (code = OK -> Inv base (dn ++ [r]) s').
Proof.
  intros H8 Hm (Hst & _ & d1 & d2 & st & -> & Hin & Hd1 & Hslots & Hparts) Hgood.
  unfold server_write. rewrite Hm. unfold write_row_in_part, before_part_write.
  set (s0 := set_autoinc (snd r) (insert_id_for_cur_row s) s). cbn [negb andb].
  change (next_number_field s0) with (next_number_field s). rewrite (st_nn _ _ _ _ Hst). cbn [andb].
  set (s1 := set_partition n (fst r) s0).
  assert (m_part s1 = part_of r) as Hp1.
  { unfold part_of. rewrite Hm. unfold s1, set_partition. by destruct n. }
  assert (exists p, s1 = set_part p (m_last_part s0) s0) as [p Hs1].
  { unfold s1, set_partition. destruct n; by eexists. }
  destruct (write_row_run s1 d2 r) as (code & s2 & Hw & Hst2 & Hp2 & Hpa2 & Hacc & Hok); try done.
  1-4: by rewrite Hs1.
  rewrite Hw. cbn [mbind option_bind]. clearbody s1.
  destruct (decide (code = OK)) as [->|Hc]; cbn [mbind option_bind].
  2:{ eexists code, _. split; [reflexivity|]. split; [done|]. intros ->. done. }
  destruct (Hok eq_refl) as (e1 & e2 & st2 & Hi & Hf & Hcase). subst s1. cbn [engine set_part set_autoinc] in Hi.
  change (engine s0) with (engine s) in Hi. destruct Hst2 as [Y1 Y2 Y3 Y4].
  destruct Hcase as [(Hwb & -> & ->)|(_ & [b Hwb] & <- & Hs & Hpt)]; rewrite Hwb; cbn [mbind option_bind].
  - eexists OK, _. split; [reflexivity|]. split; [done|]. intros _. split; [by split|].
    split; [by rewrite Hm|].
    exists (d1 ++ d2 ++ [r]), [], (st ++ st2). rewrite app_nil_r.
    split; [by rewrite app_assoc|]. split; [etrans; [exact Hi|by rewrite Hin, app_assoc]|].
    split; [by apply Forall2_app|].
    cbn [m_rec_buf_4_writing m_bulk_insert_parts set_next_number reset_partition set_part].
    rewrite Hwb. split; [done|]. unfold parts_hold. by rewrite Hm.
  - rewrite Hwb in Hs, Hpt. pose proof Hs as (Hmx & Hsz & Hn & Hle & _).
    rewrite length_app in Hn, Hle. cbn [length] in Hn, Hle.
    unfold parts_hold in Hpt. rewrite Hm in Hpt. destruct Hpt as (ps & Hps & Hlps & Hlook).
    rewrite Hps. cbn [mbind option_bind]. rewrite Hn.
    rewrite (proj2 (Z.ltb_lt _ _)) by lia. cbn [negb]. rewrite (proj2 (Z.leb_gt _ _)) by lia.
    cbn [mbind option_bind]. eexists OK, _. split; [reflexivity|]. split; [done|]. intros _.
    split; [by split|]. split; [by rewrite Hm|].
    exists (d1 ++ e1), (e2 ++ [r]), (st ++ st2). split; [by rewrite !app_assoc|].
    split; [etrans; [exact Hi|by rewrite Hin, app_assoc]|]. split; [by apply Forall2_app|].
    cbn [m_rec_buf_4_writing m_rec_buf_data m_bulk_insert_parts set_next_number reset_partition set_part set_parts].
    rewrite Hwb. split; [done|]. unfold parts_hold. rewrite Hm. eexists. split; [done|].
    rewrite length_insert. split; [done|]. replace (Z.to_nat _) with (length e2) by lia.
    intros i r' Hi'. apply lookup_app_Some in Hi' as [Hi'|[Hi' Hr']].
    + pose proof (lookup_lt_Some _ _ _ Hi'). rewrite list_lookup_insert_ne by lia. by apply Hlook.
    + destruct (i - length e2)%nat eqn:Hid; [|done]. cbn in Hr'. injection Hr' as <-.
      replace i with (length e2) by lia. rewrite list_lookup_insert_eq by lia.
      by rewrite Hp2, Hp1.
Qed.

Lemma start_run n (s : state) :
  steady_state s -> (mode = None -> m_part s = own) -> m_rec_buf_4_writing s = None ->
  match mode with
  | None => m_bulk_insert_parts s = None
  | Some _ => forall ps, m_bulk_insert_parts s = Some ps -> Z.of_nat (length ps) = m_max_batch_num E
  end ->
  exists s', server_start E mode n s = Some s' /\ Inv (rows_in (engine s)) [] s' /\
    engine s' = engine s.
Proof.
  intros Hst Hown Hwb Hparts. destruct (max_batch_range (bool_decide (is_Some mode)) _ Hlen) as (H1 & _).
  rewrite <- Hbatch in H1. destruct Hst as [Hco Hcb Hda Hnn].
  assert (exists s1, start_bulk_insert E n s = Some s1 /\
    steady_state s1 /\ m_part s1 = m_part s /\ engine s1 = engine s /\
    m_bulk_insert_parts s1 = m_bulk_insert_parts s /\
    slots_hold [] (m_rec_buf_data s1) (m_rec_buf_4_writing s1)) as (s1 & Hs1 & Hst1 & Hp1 & He1 & Hpa1 & Hsl1).
  { unfold start_bulk_insert. rewrite Hwb. rewrite bool_decide_eq_false_2 by (by intros [? ?]).
    rewrite Hreach. cbn [andb]. rewrite Hdata.
    set (data := match m_rec_buf_data s with Some b => b
      | None => replicate (Z.to_nat MAX_RECORD_BUFFER_SIZE_CTC) 0 end).
    assert (memory_ok (Some data)) as Hmem.
    { unfold data. destruct (m_rec_buf_data s); [done|]. split; [by rewrite length_replicate, Z2Nat.id|].
      apply Forall_replicate. unfold byte. lia. }
    set (s0 := match m_rec_buf_data s with None => _ | Some _ => s end).
    assert (m_rec_buf_data s0 = Some data /\ codec s0 = codec s /\ m_ctc_buf s0 = m_ctc_buf s /\
      next_number_field s0 = next_number_field s /\ m_part s0 = m_part s /\ engine s0 = engine s /\
      m_bulk_insert_parts s0 = m_bulk_insert_parts s) as (D1 & D2 & D3 & D4 & D5 & D6 & D7).
    { unfold s0, data. by destruct (m_rec_buf_data s) eqn:Hd. }
    clearbody s0 data. rewrite Hnn in D4.
    destruct (_ || _); eexists; (split; [reflexivity|]); (split; [split;
      cbn [codec m_ctc_buf m_rec_buf_data next_number_field set_wbuf]; congruence|]);
      cbn [m_part engine m_bulk_insert_parts m_rec_buf_data m_rec_buf_4_writing set_wbuf];
      (do 3 (split; [done|])); [done|].
    destruct (wb_new_view (m_max_batch_num E) (m_cantian_rec_len E)) as (V1 & V2 & V3); [lia|].
    unfold slots_hold. rewrite V1, V2, V3. split; [done|]. split; [done|]. split; [done|].
    split; [cbn; lia|]. exists data. done. }
  assert (forall s2, steady_state s2 -> (mode = None -> m_part s2 = own) -> engine s2 = engine s ->
    slots_hold [] (m_rec_buf_data s2) (m_rec_buf_4_writing s2) ->
    parts_hold [] (m_rec_buf_4_writing s2) (m_bulk_insert_parts s2) ->
    Inv (rows_in (engine s)) [] s2) as Hinv.
  { intros s2 H2 Hp2 He2 Hs2 Hpt2. split; [done|]. split; [done|].
    exists [], [], []. split_and!; [done|by rewrite He2, app_nil_r|constructor|done|done]. }
  unfold server_start, parts_hold in *. destruct mode as [nsub|].
  - unfold part_start_bulk_insert. rewrite Hs1. cbn [mbind option_bind]. rewrite Hpa1.
    destruct (m_rec_buf_4_writing s1) as [b|] eqn:Hb1, (m_bulk_insert_parts s) as [ps|] eqn:Hps;
      (eexists; split; [reflexivity|]); (split; [|by rewrite ?Hdata]).
    + apply Hinv; try done; rewrite Hb1; [exact Hsl1|]. exists ps. rewrite Hpa1. split; [done|].
      split; [by apply Hparts|done].
    + rewrite Hdata. apply Hinv; try done.
      * cbn [m_rec_buf_data m_rec_buf_4_writing set_parts]. by rewrite Hb1.
      * cbn [m_rec_buf_data m_rec_buf_4_writing m_bulk_insert_parts set_parts]. rewrite Hb1.
        eexists. split; [done|]. rewrite length_replicate, Z2Nat.id by lia. done.
    + apply Hinv; try done; by rewrite Hb1.
    + apply Hinv; try done; by rewrite Hb1.
  - exists s1. split; [done|]. split; [|done]. apply Hinv; try done.
    + intros _. rewrite Hp1. by apply Hown.
    + congruence.
Qed.

Lemma end_run base dn (s : state) :
  Inv base dn s ->
  exists code s', end_bulk_insert E s = Some (code, s') /\ m_rec_buf_4_writing s' = None /\
    (engine_accepts -> code = OK) /\
    (code = OK -> exists st, rows_in (engine s') = base ++ st /\ Forall2 stored_as dn st).
Proof.
  intros (Hst & Hown & d1 & d2 & st & -> & Hin & Hd1 & Hslots & Hparts).
  unfold end_bulk_insert. rewrite Hreach. cbn [andb].
  destruct (m_rec_buf_4_writing s) as [b|] eqn:Hb.
  2:{ exists OK, s. split; [done|]. split; [done|]. split; [done|]. intros _. cbn in Hslots. subst d2.
      exists st. by rewrite app_nil_r. }
  destruct (wb_records b =? 0) eqn:H0; cbn [negb mbind option_bind]; zb.
  - exists OK, (set_wbuf None s). split; [done|]. split; [done|]. split; [done|]. intros _. exists st.
    destruct Hslots as (_ & _ & Hn & _). destruct d2; [by rewrite app_nil_r|cbn in Hn; lia].
  - destruct (bulk_insert_run s d2 b) as (code & s1 & -> & Hun & Hacc & Hok); try done.
    { apply (st_data _ _ _ _ Hst). }
    cbn [mbind option_bind]. eexists code, _. split; [reflexivity|]. split; [done|]. split; [done|].
    intros ->. rewrite decide_False by (by intros H; apply H).
    destruct (Hok eq_refl) as (_ & st2 & Hi & Hf). exists (st ++ st2).
    split; [transitivity (rows_in (engine s) ++ st2); [exact Hi|by rewrite Hin, app_assoc]|].
    by apply Forall2_app.
Qed.

Lemma server_writes_run base rows dn (s : state) :
  8 <= len -> Inv base dn s -> Forall (fun r => good (snd r)) rows ->
  exists code s', server_writes E mode rows s = Some (code, s') /\
    (engine_accepts -> buf_ok E = true -> code = OK) /\
    (code = OK -> m_rec_buf_4_writing s' = None /\
       exists st, rows_in (engine s') = base ++ st /\ Forall2 stored_as (dn ++ rows) st).
Proof.
  intros H8. revert dn s. induction rows as [|r rows IH]; intros dn s Hinv Hgood.
  - destruct (end_run base dn s Hinv) as (code & s' & Hw & Hwb & Hacc & Hok).
    exists code, s'. rewrite app_nil_r. split; [exact Hw|]. split; [auto|]. auto.
  - pose proof (Forall_inv Hgood) as Hr. apply Forall_inv_tail in Hgood. cbn [server_writes].
    assert (exists code s', server_write E mode r s = Some (code, s') /\
      (engine_accepts -> buf_ok E = true -> code = OK) /\ (code = OK -> Inv base (dn ++ [r]) s'))
      as (code & s1 & -> & Hacc & Hok).
    { assert (mode = None \/ exists n, mode = Some n) as [Hm|[n Hm]] by (destruct mode; eauto).
      - by apply plain_write_run.
      - by apply part_write_run with n. }
    cbn [mbind option_bind]. destruct (decide (code <> OK)) as [Hc|Hc].
    + exists code, s1. split; [done|]. split; [by intros; exfalso; auto|done].
    + apply dec_stable in Hc. destruct (IH (dn ++ [r]) s1 (Hok Hc) Hgood) as (code' & s' & H).
      exists code', s'. by rewrite <- app_assoc in H.
Qed.

End BulkInsert.

(** Inserting rows, for any row conversion. *)
Lemma insert_rows_run {X Y} {WB : WriteBuffer} {Enc : RowEncoder Y} {Eng : DmlEngine X}
    (WBL : WriteBufferLaws WB) (E : dml_env) (mode : option (option Z)) (own : Z * Z) good row_of
    codec_ok rows_in
    (EncL : RowEncoderLaws Enc good (m_cantian_rec_len E) row_of codec_ok)
    (EngL : DmlLaws Eng rows_in) (n : Z) (rows : list (Z * list Z)) (s : dml_state)
    (Hlen : 8 <= m_cantian_rec_len E <= CT_MAX_RECORD_LENGTH)
    (Hbatch : m_max_batch_num E
      = max_batch_num (bool_decide (is_Some mode)) (m_cantian_rec_len E))
    (Hdata : data_ok E = true)
    (Hreach : engine_ddl_passthru (Session.srv (sess_env E)) (Session.thd (sess_env E)) = false)
    (Hgood : Forall (fun r => good (snd r)) rows)
    (Hst : steady codec_ok (codec s) (m_ctc_buf s) (m_rec_buf_data s) (next_number_field s))
    (Hown : mode = None -> m_part s = own) (Hwb : m_rec_buf_4_writing s = None)
    (Hparts : match mode with
      | None => m_bulk_insert_parts s = None
      | Some _ => forall ps, m_bulk_insert_parts s = Some ps ->
          Z.of_nat (length ps) = m_max_batch_num E
      end) :
  exists code s', insert_rows E mode n rows s = Some (code, s') /\
    (code = OK -> m_rec_buf_4_writing s' = None /\
       exists st, rows_in (engine s') = rows_in (engine s) ++ st /\
         Forall2 (stored_as mode own row_of) rows st) /\
    (@engine_accepts X Eng -> buf_ok E = true -> code = OK).
Proof.
  unfold insert_rows.
  destruct (start_run E mode own row_of codec_ok rows_in ltac:(lia) Hbatch Hdata Hreach n s)
    as (s1 & -> & Hinv & _); try done.
  cbn [mbind option_bind].
  destruct (server_writes_run E mode own good row_of codec_ok rows_in ltac:(lia) Hbatch Hreach
    (rows_in (engine s)) rows [] s1) as (code & s' & -> & Hacc & Hok); try done; [lia|].
  by exists code, s'.
Qed.

(** ** The row format as the conversion *)

Section RowFormatEncoder.
Import Server FieldTypes Blob RowFormat.
Context {M : MySQL} {BO : ByteOrder M} {TC : TimeCodec M} {DTC : DatetimeCodec M}
  {TS : TimestampCodec M} {DC : DecimalCodec M} {L : LobStore}.
Context (t : table).

(** The state is the conversion table and the large objects. *)
#[export] Instance row_format_encoder : RowEncoder (aux_table * lob_state) := {|
  encode_row mbuf cbuf fields y :=
    '(res, size, fs, e) ← mysql_record_to_cantian_record true t mbuf cbuf fields (fst y) (snd y);
    Some (res, size, e_serial e, fs, e_buf e, (e_tab e, e_lob e)) |}.

(** The bytes are read as the record, every stored column. *)
Definition reads_as (mbuf bytes : list Z) : Prop :=
  forall h max d, layout_ok t (Z.of_nat (length (d_buf d))) -> reads_all h t max d ->
  exists d', cantian_record_to_mysql_record h t max bytes None d = Some d' /\
    Forall (restored mbuf d') (t_field t).

#[export] Instance row_format_laws (m : Z) :
  record_fields_length (t_field t) = Some m ->
  (t_has_gcol t = false -> n_virtual (t_field t) = 0) ->
  1 <= stored_columns t -> n_fields t < CT_SPRS_COLUMNS ->
  RowEncoderLaws row_format_encoder (record_ok t) (get_cantian_record_length t) reads_as
    (fun y => good_table (fst y)).
Proof.
  intros Hm Hg Hst Hn. split. intros mbuf cbuf [tab lob] Hok Ht Hlen Hb.
  destruct (insert_row_prefix t mbuf cbuf tab lob m) as (size & e & He & Hsz & Hl & Hby & Ht' & Hr);
    try done.
  exists size, (e_serial e), (e_buf e), (e_tab e, e_lob e). cbn [encode_row row_format_encoder fst snd].
  rewrite He. done.
Qed.

End RowFormatEncoder.


(** ** Updates *)

Lemma upd_columns_spec E cdc i :
  i ∈ upd_columns E cdc <->
  0 <= i < Z.of_nat (length (write_set E)) /\
  (write_set E !! Z.to_nat i = Some true \/ (cdc = true /\ check_if_update_primary_key E = true)).
Proof.
  unfold upd_columns. rewrite list_elem_of_In, in_map_iff. split.
  - intros (k & <- & Hk). apply list_elem_of_In, list_elem_of_filter in Hk as [Hk Hs].
    apply elem_of_seq in Hs. rewrite Nat2Z.id. split; [lia|].
    apply orb_true_iff in Hk as [Hk|Hk]; [right; by apply andb_true_iff in Hk|left].
    by destruct (write_set E !! k) as [[]|].
  - intros [Hi Hor]. exists (Z.to_nat i). split; [lia|]. apply list_elem_of_In, list_elem_of_filter.
    split; [|apply elem_of_seq; lia]. apply orb_true_iff.
    destruct Hor as [->|[-> ->]]; [by right|by left].
Qed.

Lemma length_upd_columns E cdc : (length (upd_columns E cdc) <= length (write_set E))%nat.
Proof.
  unfold upd_columns. rewrite length_map.
  etrans; [apply length_filter|]. by rewrite length_seq.
Qed.

Lemma check_error_any {X Y} {WB : WriteBuffer} E ret (s : @dml_state X Y WB) :
  exists w, check_error E ret s
    = Some (checked (Session.thd (sess_env E)) ret, set_conn w (m_tch s) (engine s) s).
Proof.
  unfold check_error, checked, Session.mark_rollback.
  destruct (check_error_code_to_mysql _ _) as [m r]. by eexists.
Qed.

(** An update: the columns sent to the engine are those of the write set
    (all columns if the primary key changes while changes are captured), by
    their places among the stored columns and without the virtual ones, in a
    row that states their number. Without a column nothing is sent and the
    record is reported as the same; with virtual columns only, nothing is sent
    and the update succeeds; else the engine is called exactly once, with flags
    that say REPLACE, ON DUPLICATE KEY UPDATE and whether all referring foreign
    keys cascade, and its answer is returned. *)
Theorem update_row_sends (M : Server.MySQL) (BO : Server.ByteOrder M) (TC : Server.TimeCodec M)
    (DTC : Server.DatetimeCodec M) (TS : Server.TimestampCodec M) (DC : Server.DecimalCodec M)
    (L : Blob.LobStore) (WB : WriteBuffer) (X : Type) (Eng : DmlEngine X)
    (E : dml_env) (t : RowFormat.table) (m : Z) (old new : list Z) (s : @dml_state X _ WB)
    (ids := upd_columns E (Session.change_data_capture (m_tch s)))
    (Hcols : Z.of_nat (length (write_set E)) = RowFormat.n_fields t)
    (Hrep : is_replace_cmd E = false \/ errkey E = None)
    (Hok : Forall (RowFormat.value_ok new) (RowFormat.picked t ids))
    (Hm : RowFormat.record_fields_length (RowFormat.picked t ids) = Some m)
    (Hg : RowFormat.t_has_gcol t = false -> RowFormat.n_virtual (RowFormat.t_field t) = 0)
    (Hn : RowFormat.n_fields t < RowFormat.CT_SPRS_COLUMNS)
    (Hcnt : RowFormat.update_bitmap_columns t (Z.of_nat (length ids))
      = Z.of_nat (length (RowFormat.picked t ids)))
    (Hlen : RowFormat.row_head_sizeof
      + RowFormat.col_bitmap_ex_size (Z.of_nat (length (RowFormat.picked t ids))) + m
      < BIG_RECORD_SIZE)
    (Hb : memory_ok (m_ctc_buf s)) (Hbok : buf_ok E = true)
    (Ht : RowFormat.good_table (fst (codec s))) :
  (forall i, i ∈ ids <-> 0 <= i < RowFormat.n_fields t /\
     (write_set E !! Z.to_nat i = Some true \/
      (Session.change_data_capture (m_tch s) = true /\ check_if_update_primary_key E = true))) /\
  exists code s', @update_row X _ WB (row_format_encoder t) Eng E old new s = Some (code, s') /\
    if decide (ids = []) then code = HA_ERR_RECORD_IS_THE_SAME /\ engine s' = engine s
    else if decide (RowFormat.stored_ids t ids = []) then code = OK /\ engine s' = engine s
    else exists record ret tch,
      let replace := is_replace_cmd E || m_is_replace s in
      eng_update_row (m_tch s) (m_part s) record
        (map (RowFormat.stored_position t) (RowFormat.stored_ids t ids))
        (with_cascade_check E true
           (dml_flag E replace false false (m_is_insert_dup s || (m_ignore_dup s && replace))))
        (engine s) = (ret, tch, engine s') /\ m_tch s' = tch /\
      code = convert (checked (Session.thd (sess_env E)) ret) /\
      Z.of_nat (length record) < BIG_RECORD_SIZE /\
      rd record 2 2 = Some (le_bytes 2 (Z.of_nat (length (RowFormat.stored_ids t ids)))).
Proof.
  split. { intros i. unfold ids. by rewrite upd_columns_spec, Hcols. }
  unfold update_row. set (s0 := set_hints _ _ _ s).
  assert ((if is_replace_cmd E then match errkey E with
    | Some parts => ctc_cmp_key_values parts old new | None => Some false end else Some false)
    = Some false) as -> by (by destruct Hrep as [->| ->]; [|destruct (is_replace_cmd E)]).
  cbn [mbind option_bind]. change (upd_columns E _) with ids.
  destruct (decide (ids = [])) as [Hids|Hids]; [eexists _, s0; split; [done|done]|].
  destruct (get_ctc_buf E s0) as [b0|] eqn:Hb0.
  2:{ unfold get_ctc_buf in Hb0. rewrite Hbok in Hb0. by destruct (m_ctc_buf s0). }
  apply get_ctc_buf_ok in Hb0 as [Hl0 Hbb0]; [|done]. unfold MAX_RECORD_SIZE, BIG_RECORD_SIZE in *.
  destruct (clear_head_run b0) as (b & -> & Hl & Hbb); [lia|done|]. cbn [mbind option_bind].
  assert (Forall (fun id => 0 <= id < RowFormat.n_fields t) ids) as Hrange.
  { apply Forall_forall. intros i Hi. apply list_elem_of_In, upd_columns_spec in Hi. lia. }
  assert ((length (RowFormat.picked t ids) < 1024)%nat) as Hpick.
  { pose proof (RowFormat.length_picked t ids Hrange) as Hp.
    pose proof (length_filter (fun id => RowFormat.is_virtual_id t id = false) ids) as Hf.
    pose proof (length_upd_columns E (Session.change_data_capture (m_tch s))) as Hu.
    unfold RowFormat.stored_ids in Hp. fold ids in Hu. unfold RowFormat.CT_SPRS_COLUMNS in Hn. lia. }
  destruct (RowFormat.picked_row t new b ids (fst (codec s)) (snd (codec s)) m)
    as (size & e & He & Hsz & Hl' & _ & Hrd & _); try done; [lia|].
  change (codec s0) with (codec s). cbn [encode_row row_format_encoder]. rewrite He.
  cbn [mbind option_bind RowFormat.is_ok Z.eqb negb]. set (s1 := set_codec _ _).
  destruct (decide (RowFormat.stored_ids t ids = [])) as [Hnil|Hnil].
  { rewrite Hnil. cbn [map]. rewrite decide_True by done. by eexists _, s1. }
  rewrite decide_False by (by destruct (RowFormat.stored_ids t ids)).
  pose proof (RowFormat.ex_size_mono 0 (Z.of_nat (length (RowFormat.picked t ids))) ltac:(lia)
    ltac:(unfold RowFormat.CT_SPRS_COLUMNS; lia)) as Hex.
  change (RowFormat.col_bitmap_ex_size 0) with 0 in Hex.
  unfold RowFormat.row_head_sizeof in *. unfold ctc_update_row. rewrite wrapU_small by lia.
  unfold BIG_RECORD_SIZE, CTC_MAX_COLUMNS.
  rewrite (proj2 (Z.ltb_lt _ _)) by lia. rewrite length_map.
  rewrite <- RowFormat.length_picked by done. rewrite (proj2 (Z.leb_le _ _)) by lia. cbn [negb orb].
  change (m_ctc_buf s1) with (Some (RowFormat.e_buf e)). cbn [mbind option_bind].
  rewrite rd_Some by lia. cbn [mbind option_bind]. set (record := take _ _).
  change (m_is_replace s1) with (is_replace_cmd E || m_is_replace s).
  change (m_is_insert_dup s1) with (m_is_insert_dup s). change (m_ignore_dup s1) with (m_ignore_dup s).
  change (m_tch s1) with (m_tch s). change (m_part s1) with (m_part s). change (engine s1) with (engine s).
  set (flag := with_cascade_check _ _ _).
  destruct (eng_update_row (m_tch s) (m_part s) record
    (map (RowFormat.stored_position t) (RowFormat.stored_ids t ids)) flag (engine s))
    as [[ret tch] x] eqn:Hcall. cbn [mbind option_bind]. set (s2 := set_conn _ tch x s1).
  destruct (check_error_any E ret s2) as [w ->]. cbn [mbind option_bind].
  eexists _, (set_conn w tch x s2). split; [done|]. exists record, ret, tch.
  split; [exact Hcall|]. do 2 (split; [done|]). unfold record. rewrite drop_0. split.
  - rewrite length_take. lia.
  - rewrite rd_take by lia. exact Hrd.
Qed.

(** ** Instances, for the witnesses *)

Record demo_wbuf := mk_dw { dw_max : Z; dw_size : Z; dw_count : Z }.

#[export] Instance demo_write_buffer : WriteBuffer := {|
  wbuf := demo_wbuf;
  wb_new n size := mk_dw n size 0;
  wb_max_records := dw_max;
  wb_records := dw_count;
  wb_record b i := i * dw_size b;
  wb_add_record b := mk_dw (dw_max b) (dw_size b) (dw_count b + 1);
  wb_reset b := mk_dw (dw_max b) (dw_size b) 0 |}.

#[export] Instance demo_write_buffer_laws : WriteBufferLaws demo_write_buffer.
Proof. by refine {| wb_record_size := dw_size : @wbuf demo_write_buffer -> Z |}. Defined.

(** The engine keeps all rows. *)
#[export] Instance demo_dml_engine : DmlEngine (list (ctc_part_t * list Z)) := {|
  eng_write_row t p r serial flag x := (CT_SUCCESS, 0, t, x ++ [(p, r)]);
  eng_bulk_write t p data len n parts flag x :=
    (CT_SUCCESS, 0, t, x ++ zip (default (replicate (Z.to_nat n) p) parts)
                              (chunks (Z.to_nat n) (Z.to_nat len) data));
  eng_update_row t p r cols flag x := (CT_SUCCESS, t, x);
  eng_delete_row t p len flag x := (CT_SUCCESS, t, x) |}.

#[export] Instance demo_dml_laws : DmlLaws demo_dml_engine (fun x => x).
Proof.
  split; try (intros; split; discriminate).
  - intros t p r sr f x i t' x' H. by injection H as _ _ <-.
  - intros t p d len n ps f x i t' x' H. by injection H as _ _ <-.
Qed.

Definition demo_dml_env (partitioned : bool) (columns : list bool) : dml_env :=
  let len := RowFormat.get_cantian_record_length RowFormat.demo_table in
  mk_env (Session.sample_env true) len (max_batch_num partitioned len) 0 200 true true false false
    (fun _ => 0) (fun _ r => r) columns None None [(RULE_CASCADE, RULE_OTHER)] (fun _ r => r).

Definition demo_dml_state {L : Blob.LobStore} (lob : Blob.lob_state)
  : @dml_state (list (ctc_part_t * list Z)) (FieldTypes.aux_table * Blob.lob_state) demo_write_buffer :=
  mk_dml_state (Session.mk_world None [] false false false) (Session.sample_tch 1) (0, 0) 0 []
    (FieldTypes.g_field_cnvrt_aux_array, lob) None None None None [] 0 [] OK false false false false false.


(** An update of the VARCHAR, the virtual and the null column. *)
Lemma update_row_sends_witness :
  let E := demo_dml_env false [false; true; true; true; false] in
  let s := @demo_dml_state Blob.demo_store [] in
  (forall i, i ∈ [1; 2; 3] <-> 0 <= i < 5 /\
     (write_set E !! Z.to_nat i = Some true \/
      (Session.change_data_capture (m_tch s) = true /\ check_if_update_primary_key E = true))) /\
  exists code s', @update_row _ _ demo_write_buffer
      (@row_format_encoder Demo.demo Blob.demo_store RowFormat.demo_table) demo_dml_engine E
      RowFormat.demo_record RowFormat.demo_record s = Some (code, s') /\
    exists record ret tch,
      eng_update_row (m_tch s) (m_part s) record [1; 2]
        (with_cascade_check E true (dml_flag E false false false false)) (engine s)
        = (ret, tch, engine s') /\ m_tch s' = tch /\
      code = convert (checked (Session.thd (sess_env E)) ret) /\
      Z.of_nat (length record) < BIG_RECORD_SIZE /\ rd record 2 2 = Some (le_bytes 2 2).
Proof.
  apply (update_row_sends Demo.demo Demo.demo_byte_order Demo.demo_time_codec
    Demo.demo_datetime_codec Demo.demo_timestamp_codec Demo.demo_decimal_codec Blob.demo_store
    demo_write_buffer _ demo_dml_engine (demo_dml_env false [false; true; true; true; false])
    RowFormat.demo_table 32 RowFormat.demo_record RowFormat.demo_record (@demo_dml_state Blob.demo_store [])).
  - reflexivity.
  - left. reflexivity.
  - pose proof RowFormat.demo_record_ok as H. apply Forall_inv_tail in H.
    pose proof (Forall_inv H) as H1. apply Forall_inv_tail, Forall_inv_tail, Forall_inv in H.
    exact (Forall_cons_2 _ _ _ H1 (Forall_cons_2 _ _ _ H (Forall_nil_2 _))).
  - reflexivity.
  - discriminate.
  - reflexivity.
  - reflexivity.
  - reflexivity.
  - exact I.
  - reflexivity.
  - exact RowFormat.good_table_initial.
Defined.


End Dml.
