(* ===== verification/SharedMem.v ===== *)
(** * SharedMem: calls through shared memory

    Models [ctc_srv_mq_module.cc], which carries the calls between the server
    and the engine's process: the shared memory ([alloc_share_mem],
    [free_share_mem]), a call ([ctc_mq_deal_func]) and a call with a large
    buffer, cut into segments ([ctc_mq_fill_batch_data],
    [ctc_mq_get_batch_data], [ctc_mq_batch_send_message]), the registration
    and the treatment of the engine's own calls ([mq_msg_handler]).

    A pointer is the number of a block, numbers are never reused, and every
    access to a freed block, every second free and every read of a field that
    was not written are errors ([None]).  The engine runs concurrently: it
    works on the messages sent to it when a semaphore is waited for. *)

From S2P Require Import Prelude CtcError.
Import CtcError.

Module SharedMem.

Definition CTC_MQ_MESSAGE_SLICE_LEN : Z := 102400.
Definition DSW_MESSAGE_SEGMENT_NUM_MAX : Z := 512.
Definition SERVER_PROC_ID : Z := 0.
Definition SERVER_REGISTER_PROC_ID : Z := 1.
Definition SMALL_RECORD_SIZE : Z := 128.
Definition SHM_SEG_MAX_NUM : Z := 64.
Definition MAX_RECORD_SIZE : Z := 64 * 1024.
Definition BIG_RECORD_SIZE : Z := 64 * 1024.
Definition MAX_PREFETCH_REC_NUM : Z := 100.
Definition REQUEST_SIZE : Z := MAX_RECORD_SIZE + 2 * MAX_PREFETCH_REC_NUM + 24.

Inductive CTC_FUNC_TYPE :=
  | CTC_FUNC_TYPE_OPEN_TABLE | CTC_FUNC_TYPE_CLOSE_TABLE | CTC_FUNC_TYPE_CLOSE_SESSION
  | CTC_FUNC_TYPE_WRITE_ROW | CTC_FUNC_TYPE_UPDATE_JOB | CTC_FUNC_TYPE_UPDATE_ROW
  | CTC_FUNC_TYPE_DELETE_ROW | CTC_FUNC_TYPE_UPDATE_SAMPLE_SIZE
  | CTC_FUNC_TYPE_GET_SAMPLE_SIZE | CTC_FUNC_TYPE_RND_INIT | CTC_FUNC_TYPE_RND_END
  | CTC_FUNC_TYPE_RND_NEXT | CTC_FUNC_TYPE_RND_PREFETCH | CTC_FUNC_TYPE_SCAN_RECORDS
  | CTC_FUNC_TYPE_TRX_COMMIT | CTC_FUNC_TYPE_TRX_ROLLBACK | CTC_FUNC_TYPE_STATISTIC_BEGIN
  | CTC_FUNC_TYPE_STATISTIC_COMMIT | CTC_FUNC_TYPE_TRX_BEGIN | CTC_FUNC_TYPE_LOCK_TABLE
  | CTC_FUNC_TYPE_UNLOCK_TABLE | CTC_FUNC_TYPE_INDEX_END | CTC_FUNC_TYPE_SRV_SET_SAVEPOINT
  | CTC_FUNC_TYPE_SRV_ROLLBACK_SAVEPOINT | CTC_FUNC_TYPE_SRV_RELEASE_SAVEPOINT
  | CTC_FUNC_TYPE_GENERAL_FETCH | CTC_FUNC_TYPE_GENERAL_PREFETCH
  | CTC_FUNC_TYPE_FREE_CURSORS | CTC_FUNC_TYPE_GET_INDEX_NAME | CTC_FUNC_TYPE_INDEX_READ
  | CTC_FUNC_TYPE_RND_POS | CTC_FUNC_TYPE_POSITION | CTC_FUNC_TYPE_DELETE_ALL_ROWS
  | CTC_FUNC_TYPE_GET_CBO_STATS | CTC_FUNC_TYPE_WRITE_LOB | CTC_FUNC_TYPE_READ_LOB
  | CTC_FUNC_TYPE_CREATE_TABLE | CTC_FUNC_TYPE_TRUNCATE_TABLE
  | CTC_FUNC_TYPE_TRUNCATE_PARTITION | CTC_FUNC_TYPE_RENAME_TABLE
  | CTC_FUNC_TYPE_ALTER_TABLE | CTC_FUNC_TYPE_GET_SERIAL_VALUE | CTC_FUNC_TYPE_DROP_TABLE
  | CTC_FUNC_TYPE_EXCUTE_MYSQL_DDL_SQL | CTC_FUNC_TYPE_SET_OPT
  | CTC_FUNC_TYPE_BROADCAST_REWRITE_SQL | CTC_FUNC_TYPE_CREATE_TABLESPACE
  | CTC_FUNC_TYPE_ALTER_TABLESPACE | CTC_FUNC_TYPE_DROP_TABLESPACE
  | CTC_FUNC_TYPE_BULK_INSERT | CTC_FUNC_TYPE_ANALYZE | CTC_FUNC_TYPE_GET_MAX_SESSIONS
  | CTC_FUNC_LOCK_INSTANCE | CTC_FUNC_UNLOCK_INSTANCE | CTC_FUNC_CHECK_TABLE_EXIST
  | CTC_FUNC_SEARCH_METADATA_SWITCH | CTC_FUNC_QUERY_SHM_USAGE
  | CTC_FUNC_QUERY_CLUSTER_ROLE | CTC_FUNC_SET_CLUSTER_ROLE_BY_CANTIAN
  | CTC_FUNC_PRE_CREATE_DB | CTC_FUNC_TYPE_DROP_TABLESPACE_AND_USER
  | CTC_FUNC_DROP_DB_PRE_CHECK | CTC_FUNC_KILL_CONNECTION | CTC_FUNC_TYPE_INVALIDATE_OBJECT
  | CTC_FUNC_TYPE_RECORD_SQL | CTC_FUNC_TYPE_GET_PARAL_SCHEDULE
  | CTC_FUNC_TYPE_GET_INDEX_PARAL_SCHEDULE | CTC_FUNC_TYPE_PQ_INDEX_READ
  | CTC_FUNC_TYPE_PQ_SET_CURSOR_RANGE | CTC_FUNC_QUERY_SQL_STATISTIC_STAT
  | CTC_FUNC_TYPE_REGISTER_INSTANCE | CTC_FUNC_QUERY_SHM_FILE_NUM
  | CTC_FUNC_TYPE_WAIT_CONNETOR_STARTUPED | CTC_FUNC_TYPE_MYSQL_EXECUTE_UPDATE
  | CTC_FUNC_TYPE_MYSQL_EXECUTE_SET_OPT | CTC_FUNC_TYPE_CLOSE_MYSQL_CONNECTION
  | CTC_FUNC_TYPE_LOCK_TABLES | CTC_FUNC_TYPE_UNLOCK_TABLES
  | CTC_FUNC_TYPE_EXECUTE_REWRITE_OPEN_CONN | CTC_FUNC_TYPE_INVALIDATE_OBJECTS
  | CTC_FUNC_TYPE_INVALIDATE_ALL_OBJECTS | CTC_FUNC_TYPE_UPDATE_DDCACHE
  | CTC_FUNC_TYPE_UPDATE_SQL_STATISTIC_STAT.

#[export] Instance CTC_FUNC_TYPE_eq_dec : EqDecision CTC_FUNC_TYPE.
Proof. solve_decision. Defined.

(** ** Data *)

(** [ctc_handler_t]: the fields that this layer reads and writes, and the
    others. *)
Record ctc_handler_t := mk_tch {
  inst_id : Z;
  thd_id : Z;
  bind_core : Z;
  sql_stat_start : Z;
  msg_buf : option nat;              (* a message block of the session *)
  others : list Z }.

Definition zero_tch : ctc_handler_t := mk_tch 0 0 0 0 None [].

(** A field of a request, and its C type. *)
Inductive arg :=
  | ATch (t : ctc_handler_t)
  | ACode (e : ct_errno_t)
  | ANum (z : Z)
  | AU16 (z : Z)
  | AText (s : string)               (* a terminated string in an array *)
  | ABytes (l : list Z)
  | APtr (p : option nat)
  | ARows (l : list (list Z)).        (* an array of arrays of numbers *)

Inductive kind := KTch | KCode | KNum | KU16 | KText | KBytes (n : nat) | KPtr | KRows.

#[export] Instance kind_eq_dec : EqDecision kind.
Proof. solve_decision. Defined.

Definition kind_of (a : arg) : kind :=
  match a with
  | ATch _ => KTch | ACode _ => KCode | ANum _ => KNum | AU16 _ => KU16 | AText _ => KText
  | ABytes l => KBytes (length l) | APtr _ => KPtr | ARows _ => KRows
  end.

(** What [memset] with 0 leaves. *)
Definition zero_of (k : kind) : arg :=
  match k with
  | KTch => ATch zero_tch | KCode => ACode CT_SUCCESS | KNum => ANum 0 | KU16 => AU16 0
  | KText => AText "" | KBytes n => ABytes (replicate n 0) | KPtr => APtr None
  | KRows => ARows []
  end.

(** A request: whether all of it was set to 0, and the fields written since. *)
Record request := mk_req { zeroed : bool; fields : gmap string arg }.

Definition lookup_field (k : kind) (f : string) (q : request) : option arg :=
  match fields q !! f with
  | Some a => if decide (kind_of a = k) then Some a else None
  | None => if zeroed q then Some (zero_of k) else None
  end.

Definition set_field (f : string) (a : arg) (q : request) : request :=
  mk_req (zeroed q) (<[f := a]> (fields q)).

(** [dsw_message_block_t]: the semaphore and the header fields used; a segment
    is its length and its buffer. *)
Record message := mk_msg {
  sem : nat;
  cmd_type : CTC_FUNC_TYPE;
  dst_nid : Z;
  segs : list (Z * nat) }.

Inductive block := BReq (q : request) | BMsg (m : message) | BRaw (l : list Z).

(** What the engine received. *)
Inductive payload := PReq (q : request) | PRaw (segments : list (list Z)).

(** The shared memory, the messages that the engine has to work on, and those
    it has worked on. [tick] numbers the events that the environment
    decides. *)
Record shm := mk_shm {
  blocks : gmap nat block;
  next : nat;
  pending : list nat;
  served : list (CTC_FUNC_TYPE * Z * payload);
  tick : nat }.

(** The environment: allocation, system calls and the engine. *)
Class Channel := {
  shm_alloc_ok : nat -> bool;
  sem_init_ok : nat -> bool;
  shm_send_ok : nat -> bool;
  interrupted : nat -> bool;         (* sem_wait or sem_timedwait fails *)
  junk : nat -> nat -> Z;            (* bytes of new memory *)
  serve : CTC_FUNC_TYPE -> request -> request;
  serve_batch : CTC_FUNC_TYPE -> list (list Z) -> list (Z * list Z);
  g_shm_file_num : Z;
  g_group_num : Z }.

(** ** Effects *)

Definition M (A : Type) := shm -> option (A * shm).
Definition ret {A} (a : A) : M A := fun s => Some (a, s).
Definition bind {A B} (m : M A) (k : A -> M B) : M B :=
  fun s => match m s with Some (a, s) => k a s | None => None end.
Definition fail {A} : M A := fun _ => None.
Definition assert (b : bool) : M unit := if b then ret tt else fail.
Definition lift {A} (o : option A) : M A := match o with Some a => ret a | None => fail end.

Notation "x <-- m ;; k" := (bind m (fun x => k))
  (at level 20, m at level 99, k at level 200) : ctc_scope.
Notation "' p <-- m ;; k" := (bind m (fun x => match x with p => k end))
  (at level 20, p pattern, m at level 99, k at level 200) : ctc_scope.
Notation "m ;;; k" := (bind m (fun _ => k)) (at level 100, k at level 200, right associativity)
  : ctc_scope.
#[local] Open Scope ctc_scope.

Definition set_blocks (b : gmap nat block) (s : shm) : shm :=
  mk_shm b (next s) (pending s) (served s) (tick s).
Definition set_pending (p : list nat) (s : shm) : shm :=
  mk_shm (blocks s) (next s) p (served s) (tick s).

(** The environment decides. *)
Definition ask (f : nat -> bool) : M bool :=
  fun s => Some (f (tick s), mk_shm (blocks s) (next s) (pending s) (served s) (S (tick s))).

Definition load (p : nat) : M block := fun s => b ← blocks s !! p; Some (b, s).
Definition store (p : nat) (b : block) : M unit :=
  fun s => _ ← blocks s !! p; Some (tt, set_blocks (<[p := b]> (blocks s)) s).

Definition load_req (p : nat) : M request :=
  b <-- load p;; match b with BReq q => ret q | _ => fail end.
Definition load_msg (p : nat) : M message :=
  b <-- load p;; match b with BMsg m => ret m | _ => fail end.
Definition load_raw (p : nat) : M (list Z) :=
  b <-- load p;; match b with BRaw l => ret l | _ => fail end.

(** The fields of a request as values. *)
Definition q_tch (f : string) (q : request) : option ctc_handler_t :=
  a ← lookup_field KTch f q; match a with ATch t => Some t | _ => None end.
Definition q_code (f : string) (q : request) : option ct_errno_t :=
  a ← lookup_field KCode f q; match a with ACode e => Some e | _ => None end.
Definition q_num (f : string) (q : request) : option Z :=
  a ← lookup_field KNum f q; match a with ANum z => Some z | _ => None end.
Definition q_u16 (f : string) (q : request) : option Z :=
  a ← lookup_field KU16 f q; match a with AU16 z => Some z | _ => None end.
Definition q_text (f : string) (q : request) : option string :=
  a ← lookup_field KText f q; match a with AText s => Some s | _ => None end.
Definition q_bytes (n : nat) (f : string) (q : request) : option (list Z) :=
  a ← lookup_field (KBytes n) f q; match a with ABytes l => Some l | _ => None end.
Definition q_ptr (f : string) (q : request) : option (option nat) :=
  a ← lookup_field KPtr f q; match a with APtr p => Some p | _ => None end.
Definition q_rows (f : string) (q : request) : option (list (list Z)) :=
  a ← lookup_field KRows f q; match a with ARows l => Some l | _ => None end.

Definition read {A} (p : nat) (g : request -> option A) : M A :=
  q <-- load_req p;; lift (g q).
Definition put (p : nat) (f : string) (a : arg) : M unit :=
  q <-- load_req p;; store p (BReq (set_field f a q)).

Fixpoint puts (p : nat) (args : list (string * arg)) : M unit :=
  match args with
  | [] => ret tt
  | (f, a) :: args => put p f a;;; puts p args
  end.

Definition mem_zero (p : nat) : M unit := store p (BReq (mk_req true ∅)).

(** ** Registration *)

(** The rows of processor numbers, each ended by a negative number; the rest
    of a row is not copied. *)
Fixpoint copy_cpu_row (new old : list Z) : list Z :=
  match new, old with
  | n :: new, o :: old => if n <? 0 then n :: old else n :: copy_cpu_row new old
  | _, _ => old
  end.

Definition set_cpu_info (group_num : Z) (new old : list (list Z)) : option (list (list Z)) :=
  if group_num <=? SHM_SEG_MAX_NUM
  then Some (zip_with copy_cpu_row (take (Z.to_nat group_num) new) old
             ++ drop (Z.to_nat group_num) old)
  else None.

(** The processors of a row; [CPU_SET] ignores numbers from 1024 on. *)
Fixpoint cpu_mask (fuel : nat) (row : list Z) : gset Z :=
  match fuel, row with
  | S fuel, c :: row =>
      if c <? 0 then ∅
      else (if c <? 1024 then {[ c ]} else ∅) ∪ cpu_mask fuel row
  | _, _ => ∅
  end.

Definition SHM_MAX_SEG_NUM : Z := 8.

(** [g_masks] has [SHM_MAX_SEG_NUM] elements. *)
Definition set_cpu_mask (group_num : Z) (info : list (list Z)) : option (list (gset Z)) :=
  if group_num <=? SHM_MAX_SEG_NUM
  then Some (map (cpu_mask (Z.to_nat SHM_SEG_MAX_NUM)) (take (Z.to_nat group_num) info))
  else None.

Definition CTC_CLIENT_VERSION_NUMBER : Z := 0x0301.

(** ** Memory and messages *)

Section calls.
Context {CH : Channel}.

(** The segment of a session, by its thread; the thread is bound to the cores
    of its segment once. *)
Definition get_one_shm_inst (t : option ctc_handler_t) : option (Z * option ctc_handler_t) :=
  let hashSeed := match t with Some t => thd_id t | None => 0 end in
  if g_shm_file_num =? 0 then None
  else Some (hashSeed mod g_shm_file_num,
    match t with
    | Some t => Some (if negb (g_group_num =? 0) && negb (bind_core t =? 1)
        then mk_tch (inst_id t) (thd_id t) 1 (sql_stat_start t) (msg_buf t) (others t) else t)
    | None => None
    end).

Definition bound_tch (t : ctc_handler_t) : M ctc_handler_t :=
  p <-- lift (get_one_shm_inst (Some t));; lift (snd p).

Definition alloc_share_mem (b : nat -> block) : M (option nat) := fun s =>
  if shm_alloc_ok (tick s)
  then Some (Some (next s),
    mk_shm (<[next s := b (next s)]> (blocks s)) (S (next s)) (pending s) (served s) (S (tick s)))
  else Some (None, mk_shm (blocks s) (next s) (pending s) (served s) (S (tick s))).

(** A new request has no defined contents. *)
Definition alloc_req : M (option nat) := alloc_share_mem (fun _ => BReq (mk_req false ∅)).
Definition alloc_msg : M (option nat) :=
  alloc_share_mem (fun _ => BMsg (mk_msg 0 CTC_FUNC_TYPE_OPEN_TABLE 0 [])).
Definition alloc_raw (n : Z) : M (option nat) :=
  alloc_share_mem (fun p => BRaw (map (junk p) (seq 0 (Z.to_nat n)))).

Definition free_share_mem (p : nat) : M unit := fun s =>
  _ ← blocks s !! p; Some (tt, set_blocks (delete p (blocks s)) s).

Fixpoint free_all (ps : list nat) : M unit :=
  match ps with [] => ret tt | p :: ps => free_share_mem p;;; free_all ps end.

Definition batch_free_shm_buf (p : nat) : M unit :=
  m <-- load_msg p;; free_all (map snd (segs m)).

(** ** The engine's side *)

Definition seg_data (b : gmap nat block) (sg : Z * nat) : option (list Z) :=
  match b !! sg.2 with
  | Some (BRaw l) => rd l 0 sg.1
  | _ => None
  end.

(** New lengths and contents of segments, within the memory they have. *)
Fixpoint store_segs (sgs : list (Z * nat)) (new : list (Z * list Z)) (b : gmap nat block)
  : option (list (Z * nat) * gmap nat block) :=
  match sgs, new with
  | [], [] => Some ([], b)
  | (_, p) :: sgs, (len, d) :: new =>
      match b !! p with
      | Some (BRaw l) =>
          l' ← wr l 0 d;
          '(sgs', b') ← store_segs sgs new (<[p := BRaw l']> b);
          Some ((len, p) :: sgs', b')
      | _ => None
      end
  | _, _ => None
  end.

Definition post (m : message) (sg : list (Z * nat)) : message :=
  mk_msg (S (sem m)) (cmd_type m) (dst_nid m) sg.

(** The engine works on the oldest message, writes its answer into the
    request and posts the semaphore. *)
Definition engine_step : M unit := fun s =>
  match pending s with
  | [] => None
  | p :: rest =>
      match blocks s !! p with
      | Some (BMsg m) =>
          let done (b : gmap nat block) sg pl := Some (tt, mk_shm (<[p := BMsg (post m sg)]> b)
            (next s) rest (served s ++ [(cmd_type m, dst_nid m, pl)]) (tick s)) in
          match segs m with
          | (len, r) :: _ =>
              match blocks s !! r with
              | Some (BReq q) =>
                  done (<[r := BReq (serve (cmd_type m) q)]> (blocks s)) (segs m) (PReq q)
              | _ =>
                  ds ← mapM (seg_data (blocks s)) (segs m);
                  '(sg, b) ← store_segs (segs m) (serve_batch (cmd_type m) ds) (blocks s);
                  done b sg (PRaw ds)
              end
          | [] => done (blocks s) [] (PRaw [])
          end
      | _ => None
      end
  end.

(** A semaphore of a message: the wait fails, or it ends when the engine has
    posted; with nothing for the engine to do it does not end. *)
Fixpoint wait_loop (fuel : nat) (p : nat) : M bool :=
  m <-- load_msg p;;
  match sem m with
  | S k => store p (BMsg (mk_msg k (cmd_type m) (dst_nid m) (segs m)));;; ret true
  | O =>
      i <-- ask interrupted;;
      if i : bool then ret false
      else match fuel with O => fail | S fuel => engine_step;;; wait_loop fuel p end
  end.

Definition sem_wait (p : nat) : M bool := fun s => wait_loop (length (pending s)) p s.

Definition shm_send_msg (p : nat) : M bool :=
  ok <-- ask shm_send_ok;;
  if ok : bool then (fun s => Some (true, set_pending (pending s ++ [p]) s)) else ret false.

(** ** Calls *)

Definition ctc_mq_deal_func (func_type : CTC_FUNC_TYPE) (req : nat) (buf : option nat)
    (server_id : Z) : M ct_errno_t :=
  msg <-- match buf with Some p => ret (Some p) | None => alloc_msg end;;
  match msg with
  | None => ret ERR_ALLOC_MEMORY
  | Some p =>
      let is_alloc := match buf with Some _ => false | None => true end in
      let finish (r : ct_errno_t) : M ct_errno_t :=
        (if is_alloc then free_share_mem p else ret tt);;; ret r in
      ok <-- (if is_alloc then ask sem_init_ok else ret true);;
      if negb ok then (if is_alloc then free_share_mem p else ret tt);;; ret ERR_SEM_FAULT
      else
      m <-- load_msg p;;
      store p (BMsg (mk_msg (sem m) func_type server_id [(REQUEST_SIZE, req)]));;;
      sent <-- shm_send_msg p;;
      if negb sent then finish ERR_SHM_SEND_MSG_FAILED
      else
      posted <-- sem_wait p;;
      finish (if posted : bool then CT_SUCCESS else ERR_SEM_FAULT)
  end.

(** Copies the segments into the buffer from [use_len] on. *)
Fixpoint get_batch_loop (sgs : list (Z * nat)) (buf : list Z) (use_len buf_len : Z)
  : M (ct_errno_t * list Z) :=
  match sgs with
  | [] => ret (CT_SUCCESS, buf)
  | (len, p) :: sgs =>
      if len >? CTC_MQ_MESSAGE_SLICE_LEN then ret (ERR_GENERIC_INTERNAL_ERROR, buf)
      else if use_len + len >? buf_len then ret (ERR_GENERIC_INTERNAL_ERROR, buf)
      else
        l <-- load_raw p;;
        d <-- lift (rd l 0 len);;
        buf <-- lift (wr buf use_len d);;
        get_batch_loop sgs buf (use_len + len) buf_len
  end.

Definition ctc_mq_get_batch_data (p : nat) (buf : list Z) (buf_len : Z) : M (ct_errno_t * list Z) :=
  m <-- load_msg p;; get_batch_loop (segs m) buf 0 buf_len.

(** The length of the next segment. *)
Definition slice (len : Z) : Z :=
  if len >? CTC_MQ_MESSAGE_SLICE_LEN then CTC_MQ_MESSAGE_SLICE_LEN else len.

(** [fuel]: the segments that still fit into the message. *)
Fixpoint fill_loop (fuel : nat) (p : nat) (data : list Z) (tmp_len : Z) : M ct_errno_t :=
  if tmp_len <=? 0 then ret CT_SUCCESS
  else match fuel with
  | O => fail
  | S fuel =>
      m <-- load_msg p;;
      b <-- alloc_raw (slice tmp_len);;
      match b with
      | None => batch_free_shm_buf p;;; ret ERR_ALLOC_MEMORY
      | Some b =>
          let copy_len := slice (Z.of_nat (length data)) in
          l <-- load_raw b;;
          l <-- lift (wr l 0 (take (Z.to_nat copy_len) data));;
          store b (BRaw l);;;
          store p (BMsg (mk_msg (sem m) (cmd_type m) (dst_nid m) (segs m ++ [(slice tmp_len, b)])));;;
          fill_loop fuel p (drop (Z.to_nat copy_len) data) (tmp_len - slice tmp_len)
      end
  end.

(** The first [data_len] bytes of a buffer go into segments of [buf_size]
    bytes in all. *)
Definition ctc_mq_fill_batch_data (p : nat) (data_buf : list Z) (data_len buf_size : Z)
  : M ct_errno_t :=
  assert (data_len <=? buf_size);;;
  m <-- load_msg p;;
  store p (BMsg (mk_msg (sem m) (cmd_type m) (dst_nid m) []));;;
  fill_loop (Z.to_nat DSW_MESSAGE_SEGMENT_NUM_MAX) p (take (Z.to_nat data_len) data_buf) buf_size.

(** The result, and the buffer with the engine's answer. *)
Definition ctc_mq_batch_send_message (func_type : CTC_FUNC_TYPE) (data_buf : list Z)
    (send_data_len buf_size : Z) : M (ct_errno_t * list Z) :=
  if buf_size >? CTC_MQ_MESSAGE_SLICE_LEN * DSW_MESSAGE_SEGMENT_NUM_MAX
  then ret (ERR_GENERIC_INTERNAL_ERROR, data_buf)
  else
  msg <-- alloc_msg;;
  match msg with
  | None => ret (ERR_ALLOC_MEMORY, data_buf)
  | Some p =>
      ok <-- ask sem_init_ok;;
      if negb ok then free_share_mem p;;; ret (ERR_SEM_FAULT, data_buf)
      else
      let finish (r : ct_errno_t * list Z) : M (ct_errno_t * list Z) :=
        batch_free_shm_buf p;;; free_share_mem p;;; ret r in
      r <-- ctc_mq_fill_batch_data p data_buf send_data_len buf_size;;
      if negb (bool_decide (r = CT_SUCCESS)) then finish (ERR_BATCH_DATA_HANDLE_FAILED, data_buf)
      else
      m <-- load_msg p;;
      store p (BMsg (mk_msg (sem m) func_type SERVER_PROC_ID (segs m)));;;
      sent <-- shm_send_msg p;;
      if negb sent then finish (ERR_SHM_SEND_MSG_FAILED, data_buf)
      else
      posted <-- sem_wait p;;
      if negb posted then finish (ERR_SEM_FAULT, data_buf)
      else
      '(r, buf) <-- ctc_mq_get_batch_data p data_buf buf_size;;
      finish (if bool_decide (r = CT_SUCCESS) then CT_SUCCESS else ERR_BATCH_DATA_HANDLE_FAILED, buf)
  end.

(** The result, and the processors of the groups when the registration
    succeeded. *)
Definition ctc_mq_register_func (cpu_info : list (list Z))
  : M (Z * option (Z * list (list Z) * list (gset Z))) :=
  _ <-- lift (get_one_shm_inst None);;
  req <-- alloc_req;;
  match req with
  | None => ret (errno_code ERR_ALLOC_MEMORY, None)
  | Some req =>
      put req "ctc_version" (ANum CTC_CLIENT_VERSION_NUMBER);;;
      r <-- ctc_mq_deal_func CTC_FUNC_TYPE_REGISTER_INSTANCE req None SERVER_REGISTER_PROC_ID;;
      result <-- (if bool_decide (r = CT_SUCCESS) then read req (q_num "result")
                  else ret (errno_code ERR_CONNECTION_FAILED));;
      globals <-- (if result =? 0 then
          group_num <-- read req (q_num "group_num");;
          rows <-- read req (q_rows "cpu_info");;
          info <-- lift (set_cpu_info group_num rows cpu_info);;
          masks <-- lift (set_cpu_mask group_num info);;
          ret (Some (group_num, info, masks))
        else ret None);;
      free_share_mem req;;;
      ret (result, globals)
  end.

End calls.

(** ** Start and stop *)

(** The segments that are mapped, in an array of [SHM_MAX_SEG_NUM] + 1, the
    number of segments, and the client's number, -1 before it is connected. *)
Record module_state := mk_module {
  g_shm_segs : list bool;
  shm_file_num : Z;
  g_shm_client_id : Z }.

Definition initial_module : module_state :=
  mk_module (replicate (Z.to_nat (SHM_MAX_SEG_NUM + 1)) false) 1 (-1).

(** The shared memory library: the thread pool, the connection with the
    instance number it gives, and the mapping of a segment. *)
Class ShmLibrary := {
  shm_tpool_init_ok : bool;
  shm_client_connect : option Z;
  shm_init_ok : Z -> bool }.

Section start.
Context {SL : ShmLibrary}.

(** Whether the segment is there now; [None] outside of the array. *)
Definition init_shm_segment (shm_num : Z) (s : module_state) : option (bool * module_state) :=
  mapped ← g_shm_segs s !! Z.to_nat shm_num;
  if (mapped : bool) then Some (true, s)
  else
    let map (s : module_state) :=
      if shm_init_ok shm_num
      then Some (true, mk_module (<[Z.to_nat shm_num := true]> (g_shm_segs s)) (shm_file_num s)
                         (g_shm_client_id s))
      else Some (false, s) in
    if shm_num =? 0 then
      match shm_client_connect with
      | None => Some (false, s)
      | Some inst_id => map (mk_module (g_shm_segs s) (shm_file_num s) (Z.land inst_id 0xFFFF))
      end
    else map s.

(** The segments from [i] on, [n] of them, up to the first failure. *)
Fixpoint init_segments (n : nat) (i : Z) (s : module_state) : option (bool * module_state) :=
  match n with
  | O => Some (true, s)
  | S n =>
      '(ok, s) ← init_shm_segment i s;
      if (ok : bool) then init_segments n (i + 1) s else Some (false, s)
  end.

(** [file_num]: the answer of the engine to [ctc_get_shm_file_num]. *)
Definition init_ctc_mq_moudle (file_num : option Z) (s : module_state)
  : option (bool * module_state) :=
  if negb shm_tpool_init_ok then Some (false, s)
  else
    '(ok, s) ← init_shm_segment 0 s;
    if negb ok then Some (false, s)
    else match file_num with
    | None => Some (false, s)
    | Some n => init_segments (Z.to_nat n) 1 (mk_module (g_shm_segs s) n (g_shm_client_id s))
    end.

(** The segments that [deinit_ctc_mq_moudle] stops and leaves, in order. *)
Definition deinit_ctc_mq_moudle (s : module_state) : list Z :=
  filter (fun i => g_shm_segs s !! Z.to_nat i = Some true)
    (map Z.of_nat (seq 0 (S (Z.to_nat (shm_file_num s))))).

(** A start that succeeds has mapped the segments 0 to [file_num]. *)
Lemma init_segments_mapped n : forall i s s',
  0 <= i -> init_segments n i s = Some (true, s') ->
  (forall j, g_shm_segs s !! j = Some true -> g_shm_segs s' !! j = Some true) /\
  (forall j, i <= j < i + Z.of_nat n -> g_shm_segs s' !! Z.to_nat j = Some true).
Proof.
  induction n as [|n IH]; intros i s s' Hi H; cbn [init_segments] in H.
  { simplify_eq. split; [done|]. intros j Hj. lia. }
  destruct (init_shm_segment i s) as [[[] s1]|] eqn:E; cbn [mbind option_bind] in H; try done.
  destruct (IH (i + 1) s1 s' ltac:(lia) H) as [H1 H2].
  assert ((forall j, g_shm_segs s !! j = Some true -> g_shm_segs s1 !! j = Some true) /\
    g_shm_segs s1 !! Z.to_nat i = Some true) as [H3 H4].
  { unfold init_shm_segment in E. destruct (g_shm_segs s !! Z.to_nat i) as [[]|] eqn:Em;
      cbn [mbind option_bind] in E; [by simplify_eq| |done].
    assert (forall f c, (forall j, g_shm_segs s !! j = Some true ->
        g_shm_segs (mk_module (<[Z.to_nat i := true]> (g_shm_segs s)) f c) !! j = Some true) /\
      g_shm_segs (mk_module (<[Z.to_nat i := true]> (g_shm_segs s)) f c) !! Z.to_nat i = Some true) as Hins.
    { intros f c. cbn. apply lookup_lt_Some in Em. split.
      - intros j Hj. destruct (decide (Z.to_nat i = j)) as [<-|];
          [by rewrite list_lookup_insert_eq|by rewrite list_lookup_insert_ne].
      - by rewrite list_lookup_insert_eq. }
    destruct (i =? 0); [destruct shm_client_connect; [|done]|];
      (destruct (shm_init_ok i); [|done]); injection E as <-; apply Hins. }
  split; [auto|]. intros j Hj. destruct (decide (j = i)) as [->|]; [auto|]. apply H2. lia.
Qed.

(** More segments than the array has leave it. *)
Lemma init_segments_overflow n i s :
  Z.of_nat (length (g_shm_segs s)) <= i -> 0 <= i -> init_segments (S n) i s = None.
Proof.
  intros H Hi. cbn [init_segments]. unfold init_shm_segment.
  by rewrite lookup_ge_None_2 by lia.
Qed.

End start.

(** ** Calls of the engine *)

Inductive upstream_result := Handled (ignore_at_shutdown : bool) | Unknown.

Definition upstream_cmd (func_type : CTC_FUNC_TYPE) : upstream_result :=
  match func_type with
  | CTC_FUNC_TYPE_EXECUTE_REWRITE_OPEN_CONN | CTC_FUNC_TYPE_MYSQL_EXECUTE_UPDATE
  | CTC_FUNC_TYPE_MYSQL_EXECUTE_SET_OPT | CTC_FUNC_TYPE_CLOSE_MYSQL_CONNECTION
  | CTC_FUNC_TYPE_LOCK_TABLES | CTC_FUNC_TYPE_UNLOCK_TABLES | CTC_FUNC_TYPE_INVALIDATE_OBJECTS
  | CTC_FUNC_SET_CLUSTER_ROLE_BY_CANTIAN => Handled true
  | CTC_FUNC_TYPE_UPDATE_SQL_STATISTIC_STAT => Handled false
  | _ => Unknown
  end.

(** [CTC_IGNORE_ERROR_WHEN_MYSQL_SHUTDOWN] *)
Definition ignore_error_when_shutdown (shutting_down : bool) (result : Z) : Z :=
  if negb (result =? 0) && shutting_down then 0 else result.

(** [run] performs the call and gives its result; the answer is what is in
    [result] when the semaphore is posted. *)
Definition mq_msg_handler (shutting_down : bool) (run : CTC_FUNC_TYPE -> Z)
    (func_type : CTC_FUNC_TYPE) (old_result : Z) : Z :=
  match upstream_cmd func_type with
  | Handled true => ignore_error_when_shutdown shutting_down (run func_type)
  | Handled false => run func_type
  | Unknown => old_result
  end.

Definition MAX_DDL_THD_NUM : Z := 1024.

(** A message of the engine gets a thread of its own; [g_ddl_thd_num] counts
    them. *)
Definition mq_recv_msg (create_ok : bool) (g_ddl_thd_num : Z) : option (bool * Z) :=
  if g_ddl_thd_num >? MAX_DDL_THD_NUM then None
  else Some (create_ok, g_ddl_thd_num + 1).

(** ** Laws *)

(** The fields that the engine fills in, besides those it finds. *)
Definition reply_of (func_type : CTC_FUNC_TYPE) : list (string * kind) :=
  match func_type with
  | CTC_FUNC_TYPE_GET_MAX_SESSIONS => [("max_sessions", KNum)]
  | CTC_FUNC_TYPE_GET_SAMPLE_SIZE => [("value", KNum)]
  | CTC_FUNC_TYPE_UPDATE_SAMPLE_SIZE | CTC_FUNC_TYPE_WAIT_CONNETOR_STARTUPED => []
  | CTC_FUNC_TYPE_REGISTER_INSTANCE => [("result", KNum); ("group_num", KNum); ("cpu_info", KRows)]
  | CTC_FUNC_TYPE_RND_NEXT | CTC_FUNC_TYPE_RND_POS | CTC_FUNC_TYPE_GENERAL_FETCH
  | CTC_FUNC_TYPE_INDEX_READ | CTC_FUNC_TYPE_PQ_INDEX_READ => [("result", KCode); ("record_len", KU16)]
  | CTC_FUNC_TYPE_SCAN_RECORDS => [("result", KCode); ("num_rows", KNum)]
  | CTC_FUNC_TYPE_GET_SERIAL_VALUE => [("result", KCode); ("value", KNum)]
  | CTC_FUNC_TYPE_TRX_COMMIT => [("result", KCode); ("is_ddl_commit", KNum)]
  | CTC_FUNC_TYPE_GET_INDEX_NAME => [("result", KCode); ("index_name", KText)]
  | CTC_FUNC_TYPE_LOCK_TABLE => [("result", KCode); ("error_code", KNum)]
  | CTC_FUNC_DROP_DB_PRE_CHECK | CTC_FUNC_PRE_CREATE_DB | CTC_FUNC_TYPE_DROP_TABLESPACE_AND_USER =>
      [("result", KCode); ("error_code", KNum); ("error_message", KText)]
  | CTC_FUNC_CHECK_TABLE_EXIST => [("result", KCode); ("is_exists", KNum)]
  | CTC_FUNC_SEARCH_METADATA_SWITCH =>
      [("result", KCode); ("metadata_switch", KNum); ("cluster_ready", KNum)]
  | CTC_FUNC_QUERY_CLUSTER_ROLE => [("result", KCode); ("is_slave", KNum); ("cluster_ready", KNum)]
  | CTC_FUNC_QUERY_SHM_FILE_NUM => [("result", KCode); ("shm_file_num", KNum)]
  | CTC_FUNC_QUERY_SQL_STATISTIC_STAT => [("result", KCode); ("enable_stat", KPtr)]
  | CTC_FUNC_TYPE_TRUNCATE_TABLE | CTC_FUNC_TYPE_RENAME_TABLE | CTC_FUNC_TYPE_DROP_TABLE
  | CTC_FUNC_TYPE_CREATE_TABLESPACE | CTC_FUNC_TYPE_ALTER_TABLESPACE
  | CTC_FUNC_TYPE_DROP_TABLESPACE => []
  | _ => [("result", KCode)]
  end.

(** What the engine keeps to: fields keep their types, sizes and addresses,
    the answer is filled in, and segments keep their lengths. *)
Class ChannelLaws (CH : Channel) : Prop := {
  shm_files : g_shm_file_num <> 0;
  serve_keeps ft q f a :
    fields q !! f = Some a -> exists b, fields (serve ft q) !! f = Some b /\ kind_of b = kind_of a;
  serve_fills ft q f k :
    In (f, k) (reply_of ft) -> (forall a, fields q !! f = Some a -> kind_of a = k) ->
    exists b, fields (serve ft q) !! f = Some b /\ kind_of b = k;
  serve_ptr ft q f p : q_ptr f q = Some (Some p) -> q_ptr f (serve ft q) = Some (Some p);
  serve_u16 ft q f z : q_u16 f (serve ft q) = Some z -> 0 <= z < 2 ^ 16;
  serve_msg_buf ft q t t' :
    q_tch "tch" q = Some t -> q_tch "tch" (serve ft q) = Some t' -> msg_buf t' = msg_buf t;
  serve_batch_shape ft ds :
    map fst (serve_batch ft ds) = map (fun d => Z.of_nat (length d)) ds /\
    map (fun x => length (snd x)) (serve_batch ft ds) = map length ds }.

(** Between calls no message is under way, every semaphore is 0, and the
    numbers from [next] on are free. *)
Record wf (s : shm) : Prop := {
  wf_pending : pending s = [];
  wf_sem p m : blocks s !! p = Some (BMsg m) -> sem m = 0%nat;
  wf_next p : (next s <= p)%nat -> blocks s !! p = None }.

(** The memory is the same but for the contents of message blocks. *)
Definition same_block (b b' : option block) : Prop :=
  match b, b' with
  | Some (BMsg _), Some (BMsg _) => True
  | _, _ => b = b'
  end.
Definition same_mem (b b' : gmap nat block) : Prop := forall p, same_block (b !! p) (b' !! p).

Definition msg_ok (buf : option nat) (s : shm) : Prop :=
  match buf with Some p => exists m, blocks s !! p = Some (BMsg m) | None => True end.

#[export] Instance same_block_equiv : Equivalence same_block.
Proof.
  split; unfold same_block.
  - by intros [[]|].
  - intros [[]|] [[]|]; congruence.
  - intros [[]|] [[]|] [[]|]; congruence.
Qed.

#[export] Instance same_mem_equiv : Equivalence same_mem.
Proof.
  split.
  - intros b p. reflexivity.
  - intros b b' H p. by symmetry.
  - intros b b' b'' H H' p. by transitivity (b' !! p).
Qed.

Lemma same_mem_insert b b' p x y :
  same_mem b b' -> same_block (Some x) (Some y) -> same_mem (<[p := x]> b) (<[p := y]> b').
Proof.
  intros H Hx q. destruct (decide (p = q)) as [->|]; [by rewrite !lookup_insert_eq|].
  by rewrite !lookup_insert_ne by done.
Qed.

Lemma same_mem_insert_l b p x y :
  b !! p = Some x -> same_block (Some x) (Some y) -> same_mem b (<[p := y]> b).
Proof.
  intros H Hx. rewrite <- (insert_id b p x) at 1 by done. by apply same_mem_insert.
Qed.

Lemma same_mem_delete b b' p : same_mem b b' -> same_mem (delete p b) (delete p b').
Proof.
  intros H q. destruct (decide (p = q)) as [->|]; [by rewrite !lookup_delete_eq|].
  by rewrite !lookup_delete_ne by done.
Qed.

Lemma same_mem_new b b' p x :
  b !! p = None -> same_mem (<[p := x]> b) b' -> same_mem b (delete p b').
Proof.
  intros Hp H. apply (same_mem_delete _ _ p) in H. by rewrite delete_insert_id in H.
Qed.

Lemma same_mem_msg b b' p : msg_ok p (mk_shm b 0 [] [] 0) -> same_mem b b' ->
  msg_ok p (mk_shm b' 0 [] [] 0).
Proof.
  destruct p as [p|]; [|done]. intros [m Hm] H. specialize (H p). cbn in *.
  rewrite Hm in H. destruct (b' !! p) as [[]|]; try done. by eexists.
Qed.

(** ** One call *)

(** Steps of a program. *)
Lemma bind_eq {A B} (m : M A) (k : A -> M B) s a s' : m s = Some (a, s') -> bind m k s = k a s'.
Proof. unfold bind. by intros ->. Qed.

Lemma bind_cong {A B} (m m' : M A) (k : A -> M B) s : m s = m' s -> bind m k s = bind m' k s.
Proof. unfold bind. by intros ->. Qed.

Lemma load_msg_eq s p m : blocks s !! p = Some (BMsg m) -> load_msg p s = Some (m, s).
Proof. intros H. unfold load_msg, bind, load. by rewrite H. Qed.

Lemma load_req_eq s p q : blocks s !! p = Some (BReq q) -> load_req p s = Some (q, s).
Proof. intros H. unfold load_req, bind, load. by rewrite H. Qed.

Lemma load_raw_eq s p l : blocks s !! p = Some (BRaw l) -> load_raw p s = Some (l, s).
Proof. intros H. unfold load_raw, bind, load. by rewrite H. Qed.

Lemma store_eq s p x b :
  blocks s !! p = Some x -> store p b s = Some (tt, set_blocks (<[p := b]> (blocks s)) s).
Proof. intros H. unfold store. by rewrite H. Qed.

Lemma free_eq s p x :
  blocks s !! p = Some x -> free_share_mem p s = Some (tt, set_blocks (delete p (blocks s)) s).
Proof. intros H. unfold free_share_mem. by rewrite H. Qed.

Section deal.
Context {CH : Channel} {CL : ChannelLaws CH}.
Hypothesis calm : forall t, interrupted t = false.

Lemma wf_msg s p m m' :
  wf s -> blocks s !! p = Some (BMsg m) -> sem m' = 0%nat ->
  wf (set_blocks (<[p := BMsg m']> (blocks s)) s).
Proof.
  intros [Hp Hs Hn] Hm Hs'. split; cbn; [done| |].
  - intros r x. destruct (decide (p = r)) as [->|];
      [rewrite lookup_insert_eq|rewrite lookup_insert_ne by done; apply Hs].
    intros ?. by simplify_eq.
  - intros r Hr. rewrite lookup_insert_ne; [by apply Hn|].
    intros ->. by rewrite Hn in Hm.
Qed.

(** The wait for a message that the engine has got ends with the answer. *)
Lemma sem_wait_served s p m req q len :
  pending s = [p] -> blocks s !! p = Some (BMsg m) -> sem m = 0%nat ->
  segs m = [(len, req)] -> blocks s !! req = Some (BReq q) ->
  sem_wait p s
  = Some (true, mk_shm (<[p := BMsg m]> (<[req := BReq (serve (cmd_type m) q)]> (blocks s)))
      (next s) [] (served s ++ [(cmd_type m, dst_nid m, PReq q)]) (S (tick s))).
Proof.
  intros Hp Hm H0 Hg Hq. assert (p <> req) by (intros ->; congruence).
  unfold sem_wait. rewrite Hp. cbn [length wait_loop].
  unfold bind, load_msg, bind, load, ask. rewrite Hm. cbn. rewrite H0, calm.
  unfold engine_step. cbn. rewrite Hp, Hm. cbn. rewrite Hg, Hq. cbn.
  rewrite lookup_insert_eq. cbn. rewrite H0. unfold store. cbn. rewrite lookup_insert_eq. cbn.
  unfold set_blocks. cbn. rewrite insert_insert_eq. destruct m. cbn in *. by subst.
Qed.

#[local] Arguments sem_wait : simpl never.

(** Memory, semaphores and the queue never fail. *)
Definition reliable : Prop :=
  forall t, shm_alloc_ok t = true /\ sem_init_ok t = true /\ shm_send_ok t = true.

(** What a call leaves, from the state [s] in which the request was [q]. *)
Definition dealt (ft : CTC_FUNC_TYPE) (req : nat) (srv : Z) (q : request) (s : shm)
    (r : ct_errno_t) (s' : shm) : Prop :=
  wf s' /\ (next s <= next s')%nat /\
  ((r = ERR_ALLOC_MEMORY \/ r = ERR_SEM_FAULT \/ r = ERR_SHM_SEND_MSG_FAILED) /\
   same_mem (blocks s) (blocks s') /\ served s' = served s /\ ~ reliable
   \/ r = CT_SUCCESS /\ same_mem (<[req := BReq (serve ft q)]> (blocks s)) (blocks s') /\
      served s' = served s ++ [(ft, srv, PReq q)] /\ exists t, shm_send_ok t = true).

(** The part of a call after the semaphore is ready. *)
Definition send_and_wait (ft : CTC_FUNC_TYPE) (req : nat) (srv : Z) (p : nat) : M ct_errno_t :=
  m <-- load_msg p;;
  store p (BMsg (mk_msg (sem m) ft srv [(REQUEST_SIZE, req)]));;;
  sent <-- shm_send_msg p;;
  if negb sent then ret ERR_SHM_SEND_MSG_FAILED
  else posted <-- sem_wait p;; ret (if posted : bool then CT_SUCCESS else ERR_SEM_FAULT).

Lemma send_and_wait_dealt ft req srv p m q s :
  wf s -> blocks s !! p = Some (BMsg m) -> blocks s !! req = Some (BReq q) ->
  exists r s', send_and_wait ft req srv p s = Some (r, s') /\ dealt ft req srv q s r s' /\
    next s' = next s /\ exists m', blocks s' !! p = Some (BMsg m').
Proof.
  intros Hw Hm Hq. pose proof (wf_sem s Hw p m Hm) as H0.
  assert (p <> req) by (intros ->; congruence).
  set (m' := mk_msg 0 ft srv [(REQUEST_SIZE, req)]).
  pose proof (wf_msg s p m m' Hw Hm eq_refl) as Hw'.
  assert (same_mem (blocks s) (<[p := BMsg m']> (blocks s))) as Hsame
    by (apply same_mem_insert_l with (BMsg m); done).
  unfold send_and_wait, bind, load_msg, bind, load. rewrite Hm. cbn.
  unfold store. cbn. rewrite Hm. cbn. rewrite H0. fold m'.
  unfold shm_send_msg, bind, ask. cbn. destruct (shm_send_ok _) eqn:Es; cbn.
  - unfold set_pending. cbn. rewrite (wf_pending s Hw). cbn.
    rewrite (sem_wait_served _ p m' req q REQUEST_SIZE); [|done|cbn; by rewrite lookup_insert_eq|done..|
      cbn; by rewrite lookup_insert_ne]. cbn.
    eexists _, _. split; [done|]. split; [|split; [done|eexists; cbn; by rewrite lookup_insert_eq]].
    split; [|split; [done|right; cbn]].
    + destruct Hw' as [_ Hs' Hn']. cbn in *. split; cbn; [done| |].
      * intros r x. destruct (decide (p = r)) as [->|];
          [rewrite lookup_insert_eq; intros ?; by simplify_eq|rewrite lookup_insert_ne by done].
        destruct (decide (req = r)) as [->|]; [by rewrite lookup_insert_eq|].
        rewrite lookup_insert_ne by done. apply Hs'.
      * intros r Hr. specialize (Hn' r Hr).
        assert (p <> r) by (intros ->; by rewrite lookup_insert_eq in Hn').
        assert (req <> r) by (intros ->; rewrite lookup_insert_ne in Hn' by done; congruence).
        by rewrite !lookup_insert_ne in * by done.
    + split; [done|]. split; [|split; [done|by eexists]]. intros r.
      destruct (decide (p = r)) as [->|]; [rewrite lookup_insert_eq|rewrite (lookup_insert_ne _ p) by done].
      * rewrite lookup_insert_ne by done. by rewrite Hm.
      * destruct (decide (req = r)) as [->|]; [by rewrite !lookup_insert_eq|].
        rewrite !lookup_insert_ne by done. reflexivity.
  - eexists _, _. split; [done|]. split; [|split; [done|eexists; cbn; by rewrite lookup_insert_eq]].
    split; [destruct Hw'; by split|]. split; [done|]. left. cbn. split; [auto|]. split; [done|].
    split; [done|]. intros Hrel. destruct (Hrel (tick s)) as (_ & _ & ?). congruence.
Qed.

(** A call is this part between the preparation and the end. *)
Lemma send_and_wait_then ft req srv p (k : ct_errno_t -> M ct_errno_t) s :
  (m <-- load_msg p;;
   store p (BMsg (mk_msg (sem m) ft srv [(REQUEST_SIZE, req)]));;;
   sent <-- shm_send_msg p;;
   if negb sent then k ERR_SHM_SEND_MSG_FAILED
   else posted <-- sem_wait p;; k (if posted : bool then CT_SUCCESS else ERR_SEM_FAULT)) s
  = bind (send_and_wait ft req srv p) k s.
Proof.
  unfold send_and_wait, bind. destruct (load_msg p s) as [[m s1]|]; [|done].
  destruct (store _ _ s1) as [[[] s2]|]; [|done].
  destruct (shm_send_msg p s2) as [[[] s3]|]; cbn; try done.
  by destruct (sem_wait p s3) as [[[] s4]|].
Qed.

Lemma deal_func_dealt ft req buf srv q s :
  wf s -> msg_ok buf s -> blocks s !! req = Some (BReq q) ->
  exists r s', ctc_mq_deal_func ft req buf srv s = Some (r, s') /\ dealt ft req srv q s r s'.
Proof.
  intros Hw Hb Hq. destruct buf as [p|].
  - destruct Hb as [m Hm].
    destruct (send_and_wait_dealt ft req srv p m q s Hw Hm Hq) as (r & s' & E & Hd & _).
    exists r, s'. split; [|done].
    transitivity (bind (send_and_wait ft req srv p) (fun r => ret tt;;; ret r) s).
    { rewrite <- send_and_wait_then. reflexivity. }
    by rewrite (bind_eq _ _ _ _ _ E).
  - unfold ctc_mq_deal_func, bind at 1, alloc_msg, alloc_share_mem.
    set (m0 := mk_msg 0 CTC_FUNC_TYPE_OPEN_TABLE 0 []).
    destruct (shm_alloc_ok (tick s)) eqn:Ea.
    2:{ eexists _, _. split; [done|]. destruct Hw. split; [by split|]. split; [done|]. left. cbn. split; [auto|].
        split; [reflexivity|]. split; [done|]. intros Hrel. destruct (Hrel (tick s)) as (? & _ & _). congruence. }
    set (p := next s).
    assert (blocks s !! p = None) as Hp by (by apply (wf_next s Hw)).
    unfold bind at 1, ask. cbn [tick blocks next pending served].
    set (s1 := mk_shm (<[p := BMsg m0]> (blocks s)) (S p) (pending s) (served s) (S (S (tick s)))).
    assert (wf s1) as Hw1.
    { destruct Hw as [Hw1 Hw2 Hw3]. split; cbn; [done| |].
      - intros r x. destruct (decide (p = r)) as [->|];
          [rewrite lookup_insert_eq; intros ?; by simplify_eq|rewrite lookup_insert_ne by done; apply Hw2].
      - intros r Hr. rewrite lookup_insert_ne by lia. apply Hw3. unfold p in Hr. lia. }
    assert (p <> req) by (intros ->; congruence).
    assert (blocks s1 !! req = Some (BReq q)) as Hq1 by (cbn; by rewrite lookup_insert_ne).
    assert (blocks s1 !! p = Some (BMsg m0)) as Hm1 by (cbn; by rewrite lookup_insert_eq).
    destruct (sem_init_ok _) eqn:Ei; cbn [negb].
    2:{ rewrite (bind_eq _ _ _ _ _ (free_eq _ _ _ Hm1)). eexists _, _. split; [done|].
        unfold set_blocks, dealt. cbn. rewrite delete_insert_id by done. destruct Hw as [A B C].
        split; [split; cbn; [done..|intros r ?; apply C; lia]|]. split; [cbn; lia|]. left. cbn. split; [auto|].
        split; [reflexivity|]. split; [done|]. intros Hrel. destruct (Hrel (S (tick s))) as (_ & ? & _). congruence. }
    destruct (send_and_wait_dealt ft req srv p m0 q s1 Hw1 Hm1 Hq1)
      as (r & s' & E & (Hw' & Hn & Hd) & Hn' & m' & Hm').
    exists r, (set_blocks (delete p (blocks s')) s'). split.
    { transitivity (bind (send_and_wait ft req srv p) (fun r => free_share_mem p;;; ret r) s1).
      { rewrite <- send_and_wait_then. reflexivity. }
      by rewrite (bind_eq _ _ _ _ _ E), (bind_eq _ _ _ _ _ (free_eq _ _ _ Hm')). }
    cbn in Hn, Hn'. split; [|split; [cbn; lia|]].
    + destruct Hw' as [A B C]. split; cbn; [done| |].
      * intros r0 x. rewrite lookup_delete_Some. intros [_ ?]. eauto.
      * intros r0 Hr. rewrite lookup_delete_None. right. apply C. lia.
    + cbn. destruct Hd as [(Hr & Hsm & Hsv)|(Hr & Hsm & Hsv)]; [left|right]; (split; [done|]);
        cbn in Hsm, Hsv; (split; [|done]).
      * by apply same_mem_new with (x := BMsg m0).
      * apply same_mem_new with (x := BMsg m0); [by rewrite lookup_insert_ne|].
        by rewrite insert_insert_ne.
Qed.

End deal.

(** ** Segments *)

(** The buffers of the segments hold the data. *)
Definition holds_segs (b : gmap nat block) (sgs : list (Z * nat)) (ds : list (list Z)) : Prop :=
  Forall2 (fun sg d => sg.1 = Z.of_nat (length d) /\ b !! sg.2 = Some (BRaw d)) sgs ds.

Definition with_segs (m : message) (sgs : list (Z * nat)) : message :=
  mk_msg (sem m) (cmd_type m) (dst_nid m) sgs.

Lemma length_concat_same {A} (ds : list (list A)) : forall ds' : list (list A),
  map length ds' = map length ds -> length (concat ds') = length (concat ds).
Proof.
  induction ds as [|d ds IH]; intros [|d' ds'] H; try done. cbn in *. injection H as H1 H2.
  rewrite !length_app, H1. f_equal. by apply IH.
Qed.

Lemma Forall_same_length {A} n (ds : list (list A)) : forall ds' : list (list A),
  map length ds' = map length ds ->
  Forall (fun d => Z.of_nat (length d) <= n) ds -> Forall (fun d => Z.of_nat (length d) <= n) ds'.
Proof.
  induction ds as [|d ds IH]; intros [|d' ds'] H F; try done. cbn in *. injection H as H1 H2.
  pose proof (Forall_inv F) as Hd. cbn in Hd. constructor; [lia|]. apply IH; [done|]. by apply Forall_inv_tail in F.
Qed.

Lemma rd_all l : rd l 0 (Z.of_nat (length l)) = Some l.
Proof. rewrite rd_Some by lia. by rewrite drop_0, Nat2Z.id, firstn_all. Qed.

Lemma wr_all l d : length d = length l -> wr l 0 d = Some d.
Proof.
  intros H. unfold wr. rewrite H, !(proj2 (Z.leb_le _ _)) by lia. cbn.
  by rewrite drop_ge, app_nil_r by lia.
Qed.

Lemma holds_segs_frame b b' sgs ds :
  (forall r, In r (map snd sgs) -> b' !! r = b !! r) -> holds_segs b sgs ds -> holds_segs b' sgs ds.
Proof.
  intros Hb H. induction H as [|sg d sgs ds [Hl Hd] H IH]; [constructor|]. constructor.
  - split; [done|]. rewrite Hb; [done|by left].
  - apply IH. intros r Hr. apply Hb. by right.
Qed.

Lemma holds_segs_data b sgs ds : holds_segs b sgs ds -> mapM (seg_data b) sgs = Some ds.
Proof.
  induction 1 as [|[len p] d sgs ds [Hl Hd] H IH]; [done|]. cbn in *.
  assert (seg_data b (len, p) = Some d) as E by (unfold seg_data; cbn; by rewrite Hd, Hl, rd_all).
  rewrite E. cbn. by rewrite IH.
Qed.

(** The engine's answer goes into the same segments. *)
Lemma store_segs_ok sgs : forall ds new b,
  holds_segs b sgs ds -> NoDup (map snd sgs) ->
  map fst new = map (fun d => Z.of_nat (length d)) ds ->
  map (fun x => length (snd x)) new = map length ds ->
  exists b', store_segs sgs new b = Some (sgs, b') /\ holds_segs b' sgs (map snd new) /\
    forall r, ~ In r (map snd sgs) -> b' !! r = b !! r.
Proof.
  induction sgs as [|[len p] sgs IH]; intros ds new b H Hn Hf Hl.
  - apply Forall2_nil_inv_l in H as ->. destruct new; [|done]. exists b.
    split; [done|]. split; [constructor|done].
  - apply Forall2_cons_inv_l in H as (d & ds' & [Hd Hb] & H & ->). cbn in Hd, Hb.
    destruct new as [|[len' d'] new]; [done|]. cbn in Hf, Hl. injection Hf as Hf1 Hf.
    injection Hl as Hl1 Hl. cbn in Hn. pose proof (NoDup_cons_1_1 _ _ Hn) as Hp. apply NoDup_cons_1_2 in Hn.
    assert (~ In p (map snd sgs)) as Hp' by (by rewrite <- list_elem_of_In).
    destruct (IH ds' new (<[p := BRaw d']> b)) as (b' & E & Hh & Hfr); [|done..|].
    { apply holds_segs_frame with b; [|done]. intros r Hr. rewrite lookup_insert_ne; [done|].
      by intros ->. }
    exists b'. cbn [store_segs]. rewrite Hb, wr_all by done. cbn [mbind option_bind].
    rewrite E. cbn [mbind option_bind]. split; [by rewrite Hf1, Hd|]. split.
    + constructor; [|done]. cbn. split; [by rewrite Hd, Hl1|].
      rewrite Hfr by done. by rewrite lookup_insert_eq.
    + intros r Hr. cbn in Hr. rewrite Hfr by tauto. rewrite lookup_insert_ne; [done|]. tauto.
Qed.

Lemma holds_raw b sgs ds r : holds_segs b sgs ds -> In r (map snd sgs) -> exists d, b !! r = Some (BRaw d).
Proof.
  intros H. induction H as [|sg d sgs ds [_ Hd] H IH]; [done|]. intros [<-|Hr]; eauto.
Qed.

Definition delete_all (ps : list nat) (b : gmap nat block) : gmap nat block :=
  fold_left (fun b p => delete p b) ps b.

Lemma delete_all_lookup ps : forall b r,
  delete_all ps b !! r = if decide (r ∈ ps) then None else b !! r.
Proof.
  induction ps as [|p ps IH]; intros b r; [done|]. cbn [delete_all fold_left].
  change (fold_left _ ps _) with (delete_all ps (delete p b)). rewrite IH.
  destruct (decide (r ∈ ps)) as [Hi|Hi].
  - rewrite decide_True by (by right). done.
  - destruct (decide (p = r)) as [->|Hp].
    + rewrite decide_True by (by left). apply lookup_delete_eq.
    + rewrite decide_False by (rewrite elem_of_cons; intros [?|?]; done).
      by rewrite lookup_delete_ne.
Qed.

Lemma free_all_ok ps : forall s,
  NoDup ps -> (forall r, In r ps -> is_Some (blocks s !! r)) ->
  free_all ps s = Some (tt, set_blocks (delete_all ps (blocks s)) s).
Proof.
  induction ps as [|p ps IH]; intros s Hn Hs; cbn [free_all].
  - unfold ret. by destruct s.
  - destruct (Hs p) as [x Hx]; [by left|]. rewrite (bind_eq _ _ _ _ _ (free_eq _ _ _ Hx)).
    rewrite IH; [done|by apply NoDup_cons_1_2 in Hn|].
    intros r Hr. cbn. rewrite lookup_delete_ne; [apply Hs; by right|].
    intros ->. apply NoDup_cons_1_1 in Hn. apply Hn. by apply list_elem_of_In.
Qed.

Lemma alloc_raw_eq {CH : Channel} s n : shm_alloc_ok (tick s) = true ->
  alloc_raw n s = Some (Some (next s),
    mk_shm (<[next s := BRaw (map (junk (next s)) (seq 0 (Z.to_nat n)))]> (blocks s))
      (S (next s)) (pending s) (served s) (S (tick s))).
Proof. intros H. unfold alloc_raw, alloc_share_mem. by rewrite H. Qed.

Lemma alloc_raw_fail {CH : Channel} s n : shm_alloc_ok (tick s) = false ->
  alloc_raw n s = Some (None, mk_shm (blocks s) (next s) (pending s) (served s) (S (tick s))).
Proof. intros H. unfold alloc_raw, alloc_share_mem. by rewrite H. Qed.

Lemma fill_loop_S {CH : Channel} fuel p data tmp_len : 0 < tmp_len ->
  fill_loop (S fuel) p data tmp_len
  = (m <-- load_msg p;;
     b <-- alloc_raw (slice tmp_len);;
     match b with
     | None => batch_free_shm_buf p;;; ret ERR_ALLOC_MEMORY
     | Some b =>
         let copy_len := slice (Z.of_nat (length data)) in
         l <-- load_raw b;;
         l <-- lift (wr l 0 (take (Z.to_nat copy_len) data));;
         store b (BRaw l);;;
         store p (BMsg (mk_msg (sem m) (cmd_type m) (dst_nid m) (segs m ++ [(slice tmp_len, b)])));;;
         fill_loop fuel p (drop (Z.to_nat copy_len) data) (tmp_len - slice tmp_len)
     end).
Proof. intros H. cbn [fill_loop]. destruct (_ <=? 0) eqn:E; zb; [lia|done]. Qed.

Section batch.
Context {CH : Channel} {CL : ChannelLaws CH}.
Hypothesis calm : forall t, interrupted t = false.

(** The message at [p] got segments with the data in newly allocated
    memory. *)
Record filled (p : nat) (m : message) (data : list Z) (s s' : shm)
    (sgs : list (Z * nat)) (ds : list (list Z)) : Prop := {
  fl_segs : holds_segs (blocks s') sgs ds;
  fl_data : concat ds = data;
  fl_len : Forall (fun d => Z.of_nat (length d) <= CTC_MQ_MESSAGE_SLICE_LEN) ds;
  fl_nodup : NoDup (map snd sgs);
  fl_new : Forall (fun r => (next s <= r)%nat) (map snd sgs);
  fl_msg : blocks s' !! p = Some (BMsg (with_segs m (segs m ++ sgs)));
  fl_frame r : r <> p -> ~ In r (map snd sgs) -> blocks s' !! r = blocks s !! r;
  fl_next r : (next s' <= r)%nat -> blocks s' !! r = None;
  fl_mono : (next s <= next s')%nat;
  fl_pending : pending s' = pending s;
  fl_served : served s' = served s }.

Lemma slice_range z : 0 < z -> 0 < slice z <= z /\ slice z <= CTC_MQ_MESSAGE_SLICE_LEN.
Proof.
  intros H. unfold slice, CTC_MQ_MESSAGE_SLICE_LEN. destruct (_ >? _) eqn:E; zb; lia.
Qed.

Lemma slice_rest z n : 0 <= z <= (n + 1) * CTC_MQ_MESSAGE_SLICE_LEN -> 0 <= n ->
  z - slice z <= n * CTC_MQ_MESSAGE_SLICE_LEN.
Proof.
  intros H. unfold slice, CTC_MQ_MESSAGE_SLICE_LEN in *. destruct (_ >? _) eqn:E; zb; lia.
Qed.

Lemma fill_loop_filled fuel : forall p data m s,
  blocks s !! p = Some (BMsg m) -> (forall r, (next s <= r)%nat -> blocks s !! r = None) ->
  Z.of_nat (length data) <= Z.of_nat fuel * CTC_MQ_MESSAGE_SLICE_LEN ->
  (forall j, Z.of_nat j * CTC_MQ_MESSAGE_SLICE_LEN < Z.of_nat (length data) ->
     shm_alloc_ok (tick s + j) = true) ->
  exists sgs ds s', fill_loop fuel p data (Z.of_nat (length data)) s = Some (CT_SUCCESS, s') /\
    filled p m data s s' sgs ds.
Proof.
  induction fuel as [|fuel IH]; intros p data m s Hm Hn Hl Hok.
  - assert (length data = 0)%nat as H0 by lia. destruct data; [|done].
    exists [], [], s. split; [done|]. split; cbn; auto; try constructor.
    unfold with_segs. rewrite app_nil_r. by destruct m.
  - cbn [fill_loop]. destruct (_ <=? 0) eqn:E0; zb.
    { destruct data; [|cbn in E0; lia]. exists [], [], s. split; [done|].
      split; cbn; auto; try constructor. unfold with_segs. rewrite app_nil_r. by destruct m. }
    destruct (slice_range _ E0) as [Hs1 Hs2].
    set (k := slice (Z.of_nat (length data))) in *.
    assert (p <> next s) as Hpn by (intros ->; rewrite Hn in Hm; [done|lia]).
    rewrite (bind_eq _ _ _ _ _ (load_msg_eq _ _ _ Hm)).
    assert (shm_alloc_ok (tick s) = true) as Hok0.
    { rewrite <- (Nat.add_0_r (tick s)). apply Hok. lia. }
    rewrite (bind_eq _ _ _ _ _ (alloc_raw_eq s _ Hok0)).
    set (n := next s). set (chunk := take (Z.to_nat k) data).
    assert (length chunk = Z.to_nat k) as Hc by (unfold chunk; rewrite length_take; lia).
    set (l0 := map (junk n) (seq 0 (Z.to_nat k))).
    set (s1 := mk_shm (<[n := BRaw l0]> (blocks s)) _ _ _ _).
    assert (blocks s1 !! n = Some (BRaw l0)) as Hb by (cbn; by rewrite lookup_insert_eq).
    rewrite (bind_eq _ _ _ _ _ (load_raw_eq _ _ _ Hb)).
    rewrite wr_all by (unfold l0; by rewrite length_map, length_seq).
    unfold bind at 1, lift, ret at 1.
    rewrite (bind_eq _ _ _ _ _ (store_eq _ _ _ (BRaw chunk) Hb)).
    set (s2 := set_blocks _ s1). set (m' := mk_msg (sem m) _ _ _).
    assert (blocks s2 !! p = Some (BMsg m)) as Hm2 by (cbn; by rewrite !lookup_insert_ne).
    rewrite (bind_eq _ _ _ _ _ (store_eq _ _ _ (BMsg m') Hm2)).
    set (s3 := set_blocks _ s2).
    replace (Z.of_nat (length data) - k) with (Z.of_nat (length (drop (Z.to_nat k) data)))
      by (rewrite length_drop; lia).
    destruct (IH p (drop (Z.to_nat k) data) m' s3) as (sgs & ds & s' & E & HF).
    + cbn. by rewrite lookup_insert_eq.
    + intros r Hr. cbn in Hr. cbn. assert (r <> n) by lia. assert (p <> r).
      { intros ->. rewrite Hn in Hm; [done|lia]. }
      rewrite !lookup_insert_ne by done. apply Hn. lia.
    + rewrite length_drop. unfold k.
      assert (Z.of_nat (length data) - k <= Z.of_nat fuel * CTC_MQ_MESSAGE_SLICE_LEN)
        by (apply slice_rest; lia). lia.
    + intros j Hj. cbn [tick s3 s2 s1 set_blocks]. rewrite Nat.add_succ_comm. apply Hok.
      rewrite length_drop in Hj. unfold k in Hj, Hs2. unfold slice, CTC_MQ_MESSAGE_SLICE_LEN in *.
      destruct (_ >? _) eqn:E; zb; lia.
    + exists ((k, n) :: sgs), (chunk :: ds), s'. split; [done|].
      destruct HF as [F1 F2 F3 F4 F5 F6 F7 F8 F9 F10 F11].
      assert (~ In n (map snd sgs)) as Hni.
      { intros Hi. rewrite List.Forall_forall in F5. specialize (F5 _ Hi). cbn in F5. lia. }
      split; cbn [map].
      * constructor; [|done]. cbn [fst snd]. split; [lia|]. rewrite F7 by done. cbn.
        by rewrite lookup_insert_ne, lookup_insert_eq.
      * cbn [concat]. rewrite F2. unfold chunk. apply take_drop.
      * constructor; [|done]. rewrite Hc. lia.
      * constructor; [by rewrite list_elem_of_In|done].
      * constructor; [cbn; lia|]. eapply Forall_impl; [|exact F5]. cbn. lia.
      * rewrite F6. unfold with_segs, m'. cbn. by rewrite <- app_assoc.
      * intros r Hr Hr2. cbn in Hr2. rewrite F7 by tauto. cbn.
        assert (p <> r) by congruence. assert (n <> r) by (intros e; apply Hr2; by left).
        by rewrite !lookup_insert_ne.
      * done.
      * cbn in F9. lia.
      * done.
      * done.
Qed.

(** A refused segment: those before it are freed, and the message keeps them. *)
Lemma fill_loop_refused i : forall fuel p data m s ds0,
  blocks s !! p = Some (BMsg m) -> (forall r, (next s <= r)%nat -> blocks s !! r = None) ->
  holds_segs (blocks s) (segs m) ds0 -> NoDup (map snd (segs m)) ->
  Z.of_nat i * CTC_MQ_MESSAGE_SLICE_LEN < Z.of_nat (length data) -> (i < fuel)%nat ->
  (forall j, (j < i)%nat -> shm_alloc_ok (tick s + j) = true) -> shm_alloc_ok (tick s + i) = false ->
  exists sgs s', fill_loop fuel p data (Z.of_nat (length data)) s = Some (ERR_ALLOC_MEMORY, s') /\
    length sgs = i /\ Forall (fun r => (next s <= r)%nat) (map snd sgs) /\
    blocks s' !! p = Some (BMsg (with_segs m (segs m ++ sgs))) /\
    (forall r, In r (map snd (segs m ++ sgs)) -> blocks s' !! r = None) /\
    (forall r, r <> p -> ~ In r (map snd (segs m ++ sgs)) -> blocks s' !! r = blocks s !! r) /\
    pending s' = pending s /\ served s' = served s /\ (next s <= next s')%nat.
Proof.
  induction i as [|i IH]; intros fuel p data m s ds0 Hm Hn Hh Hnd Hl Hf Hok Hno;
    (destruct fuel as [|fuel]; [lia|]); rewrite fill_loop_S by (unfold CTC_MQ_MESSAGE_SLICE_LEN in Hl; lia);
    rewrite (bind_eq _ _ _ _ _ (load_msg_eq _ _ _ Hm)).
  - rewrite Nat.add_0_r in Hno. rewrite (bind_eq _ _ _ _ _ (alloc_raw_fail s _ Hno)).
    set (s1 := mk_shm _ _ _ _ _).
    assert (forall r, In r (map snd (segs m)) -> is_Some (blocks s !! r)) as Hs.
    { intros r Hr. destruct (holds_raw _ _ _ _ Hh Hr) as [d ->]. eauto. }
    assert (p ∉ map snd (segs m)) as Hpm.
    { intros Hin%list_elem_of_In. destruct (holds_raw _ _ _ _ Hh Hin). congruence. }
    assert (batch_free_shm_buf p s1 = Some (tt, set_blocks (delete_all (map snd (segs m)) (blocks s)) s1)) as Eb.
    { unfold batch_free_shm_buf. rewrite (bind_eq _ _ _ _ _ (load_msg_eq s1 _ _ Hm)). exact (free_all_ok (map snd (segs m)) s1 Hnd Hs). }
    rewrite (bind_eq _ _ _ _ _ Eb).
    exists [], (set_blocks (delete_all (map snd (segs m)) (blocks s)) s1). split; [done|].
    rewrite app_nil_r. cbn [set_blocks blocks pending served next s1 length map].
    split; [done|]. split; [constructor|]. split.
    { rewrite delete_all_lookup, decide_False by done. by destruct m. }
    split; [intros r Hr; apply list_elem_of_In in Hr; by rewrite delete_all_lookup, decide_True|].
    split; [|done]. intros r _ Hr. rewrite delete_all_lookup, decide_False; [done|].
    by rewrite list_elem_of_In.
  - assert (shm_alloc_ok (tick s) = true) as Hok0.
    { rewrite <- (Nat.add_0_r (tick s)). apply Hok. lia. }
    rewrite (bind_eq _ _ _ _ _ (alloc_raw_eq s _ Hok0)).
    assert (slice (Z.of_nat (length data)) = CTC_MQ_MESSAGE_SLICE_LEN) as Hsl.
    { unfold slice. rewrite (proj2 (Z.gtb_lt _ _)) by (unfold CTC_MQ_MESSAGE_SLICE_LEN in *; lia). done. }
    cbv zeta. rewrite Hsl. set (k := CTC_MQ_MESSAGE_SLICE_LEN) in *. assert (0 < k) as Hk by done.
    assert (p <> next s) as Hpn by (intros ->; rewrite Hn in Hm; [done|lia]).
    set (n := next s) in *. set (chunk := take (Z.to_nat k) data).
    assert (length chunk = Z.to_nat k) as Hc by (unfold chunk; rewrite length_take; lia).
    set (l0 := map (junk n) (seq 0 (Z.to_nat k))).
    set (s1 := mk_shm (<[n := BRaw l0]> (blocks s)) _ _ _ _).
    assert (blocks s1 !! n = Some (BRaw l0)) as Hb by (cbn; by rewrite lookup_insert_eq).
    rewrite (bind_eq _ _ _ _ _ (load_raw_eq _ _ _ Hb)).
    rewrite wr_all by (unfold l0; by rewrite length_map, length_seq).
    unfold bind at 1, lift, ret at 1.
    rewrite (bind_eq _ _ _ _ _ (store_eq _ _ _ (BRaw chunk) Hb)).
    set (s2 := set_blocks _ s1). set (m' := mk_msg (sem m) _ _ _).
    assert (blocks s2 !! p = Some (BMsg m)) as Hm2 by (cbn; by rewrite !lookup_insert_ne).
    rewrite (bind_eq _ _ _ _ _ (store_eq _ _ _ (BMsg m') Hm2)). set (s3 := set_blocks _ s2).
    assert (n ∉ map snd (segs m)) as Hnm.
    { intros Hin%list_elem_of_In. pose proof (Hn n ltac:(lia)) as Hnn.
      destruct (holds_raw _ _ _ _ Hh Hin). congruence. }
    replace (Z.of_nat (length data) - k) with (Z.of_nat (length (drop (Z.to_nat k) data)))
      by (rewrite length_drop; lia).
    destruct (IH fuel p (drop (Z.to_nat k) data) m' s3 (ds0 ++ [chunk]))
      as (sgs & s' & E & Hlen & Hnew & Hp' & Hfree & Hfr & Hpe & Hse & Hnx).
    + cbn. by rewrite lookup_insert_eq.
    + intros r Hr. cbn in Hr. cbn. assert (r <> n) by lia. assert (p <> r).
      { intros ->. rewrite Hn in Hm; [done|lia]. }
      rewrite !lookup_insert_ne by done. apply Hn. lia.
    + cbn [segs m']. apply Forall2_app; [|constructor; [|constructor]].
      * eapply (holds_segs_frame (blocks s)); [|exact Hh]. intros r Hr. cbn.
        assert (r <> p /\ r <> n) as [Hrp Hrn].
        { split; [|by intros ->; apply Hnm, list_elem_of_In]. intros ->.
          destruct (holds_raw _ _ _ _ Hh Hr). congruence. }
        by rewrite !lookup_insert_ne by done.
      * cbn [fst snd]. split; [lia|]. cbn. by rewrite lookup_insert_ne, lookup_insert_eq.
    + cbn [segs m']. rewrite map_app. cbn [map snd]. apply list.NoDup_app. split; [done|]. split.
      * intros x Hx Hxn. apply list_elem_of_singleton in Hxn as ->. done.
      * apply NoDup_singleton.
    + rewrite length_drop. lia.
    + lia.
    + intros j Hj. cbn [tick s3 s2 s1 set_blocks]. rewrite Nat.add_succ_comm. apply Hok. lia.
    + cbn [tick s3 s2 s1 set_blocks]. by rewrite Nat.add_succ_comm.
    + exists ((k, n) :: sgs), s'. split; [exact E|]. cbn [segs m'] in Hp', Hfree, Hfr.
      rewrite <- app_assoc in Hp', Hfree, Hfr. cbn [app] in Hp', Hfree, Hfr.
      split; [cbn; lia|]. split.
      { constructor; [cbn; lia|]. eapply Forall_impl; [|exact Hnew]. cbn. lia. }
      split; [exact Hp'|]. split; [done|]. split; [|cbn in Hpe, Hse, Hnx; split_and!; [done|done|lia]].
      intros r Hr Hr2. rewrite Hfr by done. cbn.
      assert (n <> r). { intros ->. apply Hr2. rewrite map_app. apply in_or_app. right. by left. }
      assert (p <> r) by congruence. by rewrite !lookup_insert_ne by done.
Qed.

(** The first of [n] allocations that is refused *)
Lemma first_refused (ok : nat -> bool) n :
  (forall j, (j < n)%nat -> ok j = true) \/
  exists i, (i < n)%nat /\ (forall j, (j < i)%nat -> ok j = true) /\ ok i = false.
Proof.
  induction n as [|n [IH|(i & Hi & H)]]; [left; lia| |right; exists i; split; [lia|done]].
  destruct (ok n) eqn:E; [left|right; by exists n; split; [lia|]].
  intros j Hj. destruct (decide (j = n)) as [->|]; [done|]. apply IH. lia.
Qed.

Lemma serve_batch_segs ft ds :
  let new := serve_batch ft ds in
  map fst new = map (fun d => Z.of_nat (length d)) ds /\
  map (fun x => length (snd x)) new = map length ds.
Proof. apply serve_batch_shape. Qed.

Lemma wait_loop_S n p : wait_loop (S n) p
  = (m <-- load_msg p;;
     match sem m with
     | S k => store p (BMsg (mk_msg k (cmd_type m) (dst_nid m) (segs m)));;; ret true
     | O => i <-- ask interrupted;;
         if i : bool then ret false else engine_step;;; wait_loop n p
     end).
Proof. reflexivity. Qed.

(** The wait for a message with segments. *)
Lemma sem_wait_segs s p m ds :
  pending s = [p] -> blocks s !! p = Some (BMsg m) -> sem m = 0%nat ->
  holds_segs (blocks s) (segs m) ds -> NoDup (map snd (segs m)) -> ~ In p (map snd (segs m)) ->
  exists b', sem_wait p s
    = Some (true, mk_shm b' (next s) [] (served s ++ [(cmd_type m, dst_nid m, PRaw ds)]) (S (tick s))) /\
    b' !! p = Some (BMsg m) /\ holds_segs b' (segs m) (map snd (serve_batch (cmd_type m) ds)) /\
    forall r, r <> p -> ~ In r (map snd (segs m)) -> b' !! r = blocks s !! r.
Proof.
  intros Hp Hm H0 Hh Hn Hni. destruct (serve_batch_segs (cmd_type m) ds) as [Hf Hl].
  destruct (store_segs_ok _ _ _ _ Hh Hn Hf Hl) as (b & Eb & Hb & Hfr).
  exists (<[p := BMsg m]> b). split.
  - unfold sem_wait. rewrite Hp. cbn [length]. rewrite wait_loop_S.
    rewrite (bind_eq _ _ _ _ _ (load_msg_eq _ _ _ Hm)), H0.
    unfold bind at 1, ask. rewrite calm.
    assert (engine_step (mk_shm (blocks s) (next s) (pending s) (served s) (S (tick s)))
      = Some (tt, mk_shm (<[p := BMsg (post m (segs m))]> b) (next s) []
          (served s ++ [(cmd_type m, dst_nid m, PRaw ds)]) (S (tick s)))) as Ee.
    { unfold engine_step. cbn [pending blocks]. rewrite Hp, Hm. cbn [next served tick].
      destruct (segs m) as [|[len r] sgs] eqn:Es.
      - apply Forall2_nil_inv_l in Hh as ->. destruct (serve_batch _ _); [|done]. cbn in Eb.
        by simplify_eq.
      - pose proof Hh as Hh'. apply Forall2_cons_inv_l in Hh' as (d & ds' & [_ Hd] & _ & ->).
        cbn [snd] in Hd. rewrite Hd, (holds_segs_data _ _ _ Hh). cbn [mbind option_bind].
        rewrite Eb. done. }
    rewrite (bind_eq _ _ _ _ _ Ee).
    assert (forall sx, blocks sx !! p = Some (BMsg (post m (segs m))) ->
      wait_loop 0 p sx = Some (true, set_blocks (<[p := BMsg m]> (blocks sx)) sx)) as Hw.
    { intros sx Hx. cbn [wait_loop]. rewrite (bind_eq _ _ _ _ _ (load_msg_eq _ _ _ Hx)).
      cbn [post sem]. rewrite (bind_eq _ _ _ _ _ (store_eq _ _ _ _ Hx)). rewrite H0.
      by destruct m; cbn in *; subst. }
    rewrite Hw by (cbn; by rewrite lookup_insert_eq). unfold set_blocks. cbn.
    by rewrite insert_insert_eq.
  - split; [by rewrite lookup_insert_eq|]. split.
    + apply holds_segs_frame with b; [|done]. intros r Hr. rewrite lookup_insert_ne; [done|].
      by intros ->.
    + intros r Hr Hr2. rewrite lookup_insert_ne by done. by apply Hfr.
Qed.

Lemma get_batch_loop_ok sgs : forall ds buf use s,
  holds_segs (blocks s) sgs ds ->
  Forall (fun d => Z.of_nat (length d) <= CTC_MQ_MESSAGE_SLICE_LEN) ds ->
  (use + length (concat ds))%nat = length buf ->
  get_batch_loop sgs buf (Z.of_nat use) (Z.of_nat (length buf)) s
  = Some (CT_SUCCESS, take use buf ++ concat ds, s).
Proof.
  induction sgs as [|[len p] sgs IH]; intros ds buf use s H Hl Hb; cbn [get_batch_loop].
  - apply Forall2_nil_inv_l in H as ->. cbn in *. rewrite firstn_all2 by lia. by rewrite app_nil_r.
  - apply Forall2_cons_inv_l in H as (d & ds' & [Hd Hp] & H & ->). cbn [fst snd concat] in *.
    rewrite length_app in Hb. pose proof (Forall_inv Hl) as Hld. cbn in Hld.
    apply Forall_inv_tail in Hl.
    destruct (len >? _) eqn:E1; zb; [lia|]. destruct (_ + len >? _) eqn:E2; zb; [lia|].
    rewrite (bind_eq _ _ _ _ _ (load_raw_eq _ _ _ Hp)). rewrite Hd, rd_all.
    unfold bind at 1, lift, ret at 1.
    set (buf' := take use buf ++ d ++ drop (use + length d) buf).
    assert (wr buf (Z.of_nat use) d = Some buf') as Hw.
    { unfold wr. rewrite !(proj2 (Z.leb_le _ _)) by lia. by rewrite Nat2Z.id. }
    assert (length buf' = length buf) as Hlb by (by apply length_wr in Hw).
    rewrite Hw. unfold bind at 1, ret at 1.
    replace (Z.of_nat use + Z.of_nat (length d)) with (Z.of_nat (use + length d)) by lia.
    rewrite <- Hlb. rewrite (IH ds'); [|done..|lia]. do 3 f_equal.
    unfold buf'. rewrite app_assoc. rewrite take_app_length'; [by rewrite <- app_assoc|].
    rewrite length_app, length_take. lia.
Qed.

(** Freeing the segments and the message gives the memory before the message
    was allocated. *)
Lemma batch_free_ok {A} p m ds (r : A) s b0 :
  blocks s !! p = Some (BMsg m) -> holds_segs (blocks s) (segs m) ds ->
  NoDup (map snd (segs m)) -> ~ In p (map snd (segs m)) ->
  (forall x, x <> p -> ~ In x (map snd (segs m)) -> blocks s !! x = b0 !! x) ->
  b0 !! p = None -> Forall (fun x => b0 !! x = None) (map snd (segs m)) ->
  (batch_free_shm_buf p;;; free_share_mem p;;; ret r) s = Some (r, set_blocks b0 s).
Proof.
  intros Hm Hh Hn Hni Hf H0 Hnew.
  assert (forall x, In x (map snd (segs m)) -> is_Some (blocks s !! x)) as Hs.
  { clear -Hh. induction Hh as [|sg d sgs ds [_ Hd] H IH]; [done|]. intros x [<-|Hx]; eauto. }
  assert (batch_free_shm_buf p s
    = Some (tt, set_blocks (delete_all (map snd (segs m)) (blocks s)) s)) as E1.
  { unfold batch_free_shm_buf. rewrite (bind_eq _ _ _ _ _ (load_msg_eq _ _ _ Hm)).
    by rewrite free_all_ok. }
  rewrite (bind_eq _ _ _ _ _ E1). set (s1 := set_blocks _ s).
  assert (blocks s1 !! p = Some (BMsg m)) as Hp1.
  { cbn. rewrite delete_all_lookup, decide_False; [done|]. by rewrite list_elem_of_In. }
  rewrite (bind_eq _ _ _ _ _ (free_eq _ _ _ Hp1)). unfold ret, set_blocks. cbn.
  do 3 f_equal. apply map_eq. intros x.
  destruct (decide (x = p)) as [->|Hx]; [by rewrite lookup_delete_eq|].
  rewrite lookup_delete_ne, delete_all_lookup by done.
  destruct (decide _) as [Hi|Hi]; rewrite list_elem_of_In in Hi; [|by apply Hf].
  rewrite List.Forall_forall in Hnew. by rewrite Hnew.
Qed.

(** How many segments a buffer needs *)
Definition segment_count (len : Z) : nat :=
  Z.to_nat ((len + CTC_MQ_MESSAGE_SLICE_LEN - 1) / CTC_MQ_MESSAGE_SLICE_LEN).

Lemma segment_count_spec len j : 0 <= len ->
  (j < segment_count len)%nat <-> Z.of_nat j * CTC_MQ_MESSAGE_SLICE_LEN < len.
Proof. intros H. unfold segment_count, CTC_MQ_MESSAGE_SLICE_LEN. split; intros; dlia. Qed.

(** The memory for a segment after the first is refused: the message, its
    semaphore and the segments before it are there. *)
Definition later_refused (len : Z) (s : shm) : Prop :=
  shm_alloc_ok (tick s) = true /\ sem_init_ok (S (tick s)) = true /\
  exists i, (0 < i < segment_count len)%nat /\
    (forall j, (j < i)%nat -> shm_alloc_ok (S (S (tick s)) + j) = true) /\
    shm_alloc_ok (S (S (tick s)) + i) = false.

(** What a call gives that returns *)
Definition batch_outcome (ft : CTC_FUNC_TYPE) (data : list Z) (s : shm) (o : option ((ct_errno_t * list Z) * shm)) : Prop :=
  exists code buf s', o = Some ((code, buf), s') /\
    blocks s' = blocks s /\ wf s' /\ length buf = length data /\
    (code ∈ [ERR_ALLOC_MEMORY; ERR_BATCH_DATA_HANDLE_FAILED; ERR_SEM_FAULT; ERR_SHM_SEND_MSG_FAILED] /\
       buf = data /\ served s' = served s
     \/ code = CT_SUCCESS /\ exists ds, concat ds = data /\
        Forall (fun d => Z.of_nat (length d) <= CTC_MQ_MESSAGE_SLICE_LEN) ds /\
        served s' = served s ++ [(ft, SERVER_PROC_ID, PRaw ds)] /\
        buf = concat (map snd (serve_batch ft ds))).

(** The call behind the filling of the segments *)
Definition batch_rest (func_type : CTC_FUNC_TYPE) (p : nat) (data_buf : list Z) (buf_size : Z)
    (r : ct_errno_t) : M (ct_errno_t * list Z) :=
  let finish (r : ct_errno_t * list Z) : M (ct_errno_t * list Z) :=
    batch_free_shm_buf p;;; free_share_mem p;;; ret r in
  if negb (bool_decide (r = CT_SUCCESS)) then finish (ERR_BATCH_DATA_HANDLE_FAILED, data_buf)
  else
  m <-- load_msg p;;
  store p (BMsg (mk_msg (sem m) func_type SERVER_PROC_ID (segs m)));;;
  sent <-- shm_send_msg p;;
  if negb sent then finish (ERR_SHM_SEND_MSG_FAILED, data_buf)
  else
  posted <-- sem_wait p;;
  if negb posted then finish (ERR_SEM_FAULT, data_buf)
  else
  '(r, buf) <-- ctc_mq_get_batch_data p data_buf buf_size;;
  finish (if bool_decide (r = CT_SUCCESS) then CT_SUCCESS else ERR_BATCH_DATA_HANDLE_FAILED, buf).

(** The memory with a new message *)
Definition with_message (s : shm) : shm :=
  mk_shm (<[next s := BMsg (mk_msg 0 CTC_FUNC_TYPE_OPEN_TABLE 0 [])]> (blocks s)) (S (next s)) (pending s)
    (served s) (S (S (tick s))).

Lemma batch_begin ft data s :
  Z.of_nat (length data) <= CTC_MQ_MESSAGE_SLICE_LEN * DSW_MESSAGE_SEGMENT_NUM_MAX ->
  shm_alloc_ok (tick s) = true -> sem_init_ok (S (tick s)) = true ->
  ctc_mq_batch_send_message ft data (Z.of_nat (length data)) (Z.of_nat (length data)) s
  = bind (fill_loop (Z.to_nat DSW_MESSAGE_SEGMENT_NUM_MAX) (next s) data (Z.of_nat (length data)))
      (batch_rest ft (next s) data (Z.of_nat (length data))) (with_message s).
Proof.
  intros Hl Ha Hsem. unfold ctc_mq_batch_send_message.
  destruct (_ >? _) eqn:E; zb; [lia|]. clear E.
  unfold bind at 1, alloc_msg, alloc_share_mem. rewrite Ha.
  unfold bind at 1, ask. cbn [tick blocks next pending served]. rewrite Hsem. cbn [negb].
  fold (with_message s). assert (blocks (with_message s) !! next s
    = Some (BMsg (mk_msg 0 CTC_FUNC_TYPE_OPEN_TABLE 0 []))) as Hm by (cbn; by rewrite lookup_insert_eq).
  assert (set_blocks (<[next s := BMsg (mk_msg 0 CTC_FUNC_TYPE_OPEN_TABLE 0 [])]> (blocks (with_message s)))
    (with_message s) = with_message s) as Es.
  { unfold with_message, set_blocks. cbn. by rewrite insert_insert_eq. }
  assert (ctc_mq_fill_batch_data (next s) data (Z.of_nat (length data)) (Z.of_nat (length data)) (with_message s)
    = fill_loop (Z.to_nat DSW_MESSAGE_SEGMENT_NUM_MAX) (next s) data (Z.of_nat (length data)) (with_message s)) as Ef.
  { unfold ctc_mq_fill_batch_data, assert. rewrite Z.leb_refl. unfold bind at 1, ret at 1.
    rewrite (bind_eq _ _ _ _ _ (load_msg_eq _ _ _ Hm)), (bind_eq _ _ _ _ _ (store_eq _ _ _ _ Hm)).
    rewrite Nat2Z.id, firstn_all. cbn [sem cmd_type dst_nid]. by rewrite Es. }
  exact (bind_cong _ _ (batch_rest ft (next s) data (Z.of_nat (length data))) _ Ef).
Qed.

Lemma with_message_fresh s r : wf s -> (next (with_message s) <= r)%nat -> blocks (with_message s) !! r = None.
Proof. intros Hw Hr. cbn in Hr. cbn. rewrite lookup_insert_ne by lia. apply (wf_next s Hw). lia. Qed.

Lemma wf_after s b n t sv : wf s -> b = blocks s -> (next s <= n)%nat -> wf (mk_shm b n [] sv t).
Proof. intros [A B C] -> Hn. split; cbn; [done..|]. intros r Hr. apply C. lia. Qed.

Ltac failure_code := apply list_elem_of_In; cbn; auto.

(** When all segments are granted *)
Lemma batch_granted ft data s :
  wf s -> Z.of_nat (length data) <= CTC_MQ_MESSAGE_SLICE_LEN * DSW_MESSAGE_SEGMENT_NUM_MAX ->
  (forall j, (j < segment_count (Z.of_nat (length data)))%nat -> shm_alloc_ok (S (S (tick s)) + j) = true) ->
  batch_outcome ft data s
    (bind (fill_loop (Z.to_nat DSW_MESSAGE_SEGMENT_NUM_MAX) (next s) data (Z.of_nat (length data)))
      (batch_rest ft (next s) data (Z.of_nat (length data))) (with_message s)).
Proof.
  intros Hw Hl Hall. unfold batch_outcome. set (p := next s). set (s1 := with_message s).
  set (m0 := mk_msg 0 CTC_FUNC_TYPE_OPEN_TABLE 0 []).
  assert (blocks s !! p = None) as Hp by (by apply (wf_next s Hw)).
  assert (blocks s1 !! p = Some (BMsg m0)) as Hm1 by (cbn; by rewrite lookup_insert_eq).
  destruct (fill_loop_filled (Z.to_nat DSW_MESSAGE_SEGMENT_NUM_MAX) p data m0 s1)
    as (sgs & ds & s2 & E2 & F); [done|by intros; apply with_message_fresh|unfold DSW_MESSAGE_SEGMENT_NUM_MAX in *; lia| |].
  { intros j Hj. apply Hall, segment_count_spec; [lia|exact Hj]. }
  rewrite (bind_eq _ _ _ _ _ E2). unfold batch_rest. cbv zeta. rewrite bool_decide_true by done. cbn [negb].
  destruct F as [F1 F2 F3 F4 F5 F6 F7 F8 F9 F10 F11]. cbn [segs m0 app] in F6. change (next s1) with (S p) in F5, F9.
  assert (next s <= next s2)%nat as F9' by (change (S p <= next s2)%nat in F9; unfold p in F9; lia).
  assert (~ In p (map snd sgs)) as Hni.
  { intros Hi. rewrite List.Forall_forall in F5. specialize (F5 _ Hi). cbn in F5. lia. }
  assert (Forall (fun x => blocks s !! x = None) (map snd sgs)) as Hnew.
  { eapply Forall_impl; [|exact F5]. intros x Hx. cbn in Hx. apply (wf_next s Hw). unfold p in Hx. lia. }
  assert (forall x, x <> p -> ~ In x (map snd sgs) -> blocks s2 !! x = blocks s !! x) as Hfr.
  { intros x Hx Hi. rewrite F7 by done. cbn. by rewrite lookup_insert_ne. }
  rewrite (bind_eq _ _ _ _ _ (load_msg_eq _ _ _ F6)), (bind_eq _ _ _ _ _ (store_eq _ _ _ _ F6)).
  set (m3 := mk_msg _ ft _ _). set (s3 := set_blocks _ s2).
  assert (blocks s3 !! p = Some (BMsg m3)) as Hm3 by (cbn; by rewrite lookup_insert_eq).
  assert (holds_segs (blocks s3) sgs ds) as H3.
  { apply holds_segs_frame with (blocks s2); [|done]. intros r Hr. cbn. rewrite lookup_insert_ne; [done|].
    by intros ->. }
  assert (forall x, x <> p -> ~ In x (map snd sgs) -> blocks s3 !! x = blocks s !! x) as Hfr3.
  { intros x Hx Hi. cbn. rewrite lookup_insert_ne by done. by apply Hfr. }
  unfold shm_send_msg. unfold bind at 1. unfold bind at 1, ask at 1. cbn [tick].
  destruct (shm_send_ok _); unfold ret at 1; cbn [negb].
  2:{ eexists _, _, _. split; [by apply (batch_free_ok p m3 ds _ _ (blocks s))|].
      cbn. split; [done|]. split.
      { rewrite F10. cbn. rewrite (wf_pending s Hw). exact (wf_after s _ _ _ _ Hw eq_refl F9'). }
      split; [done|]. left. split; [failure_code|by rewrite F11]. }
  set (s4 := set_pending _ _).
  destruct (sem_wait_segs s4 p m3 ds) as (b5 & E5 & Hm5 & Hh5 & Hf5); try done.
  { cbn. rewrite F10. cbn. by rewrite (wf_pending s Hw). }
  rewrite (bind_eq _ _ _ _ _ E5). cbn [negb]. set (s5 := mk_shm b5 _ _ _ _).
  destruct (serve_batch_segs ft ds) as [Hsf Hsl]. set (ds' := map snd (serve_batch ft ds)).
  assert (map length ds' = map length ds) as Hlen by (unfold ds'; rewrite map_map; exact Hsl).
  assert (length (concat ds') = length data) as Hlc by (rewrite <- F2; by apply length_concat_same).
  pose proof (Forall_same_length _ _ ds' Hlen F3) as Hl'.
  assert (ctc_mq_get_batch_data p data (Z.of_nat (length data)) s5
    = Some ((CT_SUCCESS, concat ds'), s5)) as E6.
  { unfold ctc_mq_get_batch_data. rewrite (bind_eq _ _ _ _ _ (load_msg_eq s5 _ _ Hm5)).
    cbn [segs m3]. by apply (get_batch_loop_ok sgs ds' data 0 s5 Hh5 Hl'). }
  rewrite (bind_eq _ _ _ _ _ E6). rewrite bool_decide_true by done.
  eexists _, _, _. split.
  { apply (batch_free_ok p m3 ds' _ s5 (blocks s)); [done..| |done|done].
    intros x Hx Hi. cbn. rewrite Hf5 by done. by apply Hfr3. }
  cbn. split; [done|]. split; [exact (wf_after s _ _ _ _ Hw eq_refl F9')|]. split; [done|].
  right. split; [done|]. exists ds. rewrite F11. done.
Qed.

(** When the message or its semaphore is refused *)
Lemma batch_refused_early ft data s :
  wf s -> Z.of_nat (length data) <= CTC_MQ_MESSAGE_SLICE_LEN * DSW_MESSAGE_SEGMENT_NUM_MAX ->
  shm_alloc_ok (tick s) && sem_init_ok (S (tick s)) = false ->
  batch_outcome ft data s (ctc_mq_batch_send_message ft data (Z.of_nat (length data)) (Z.of_nat (length data)) s).
Proof.
  intros Hw Hl Hno. unfold batch_outcome, ctc_mq_batch_send_message.
  destruct (_ >? _) eqn:E; zb; [lia|]. clear E.
  unfold bind at 1, alloc_msg, alloc_share_mem. destruct (shm_alloc_ok (tick s)).
  - unfold bind at 1, ask. cbn [tick blocks next pending served]. cbn [andb] in Hno. rewrite Hno. cbn [negb].
    fold (with_message s). assert (blocks (with_message s) !! next s
      = Some (BMsg (mk_msg 0 CTC_FUNC_TYPE_OPEN_TABLE 0 []))) as Hm by (cbn; by rewrite lookup_insert_eq).
    rewrite (bind_eq _ _ _ _ _ (free_eq _ _ _ Hm)). eexists _, _, _. split; [done|].
    unfold set_blocks. cbn. rewrite delete_insert_id by (by apply (wf_next s Hw)). split; [done|].
    split; [rewrite (wf_pending s Hw); apply (wf_after s); [done|done|lia]|].
    split; [done|]. left. split; [failure_code|done].
  - eexists _, _, _. split; [done|]. cbn. split; [done|].
    split; [rewrite (wf_pending s Hw); by apply (wf_after s)|]. split; [done|].
    left. split; [failure_code|done].
Qed.

(** A large buffer arrives as it is, in segments of at most
    [CTC_MQ_MESSAGE_SLICE_LEN] bytes, the buffer then holds the engine's
    segments in order, and no memory is kept; or a segment after the first
    is refused, and the call is undefined. *)
Lemma batch_send_ok ft data s :
  wf s -> Z.of_nat (length data) <= CTC_MQ_MESSAGE_SLICE_LEN * DSW_MESSAGE_SEGMENT_NUM_MAX ->
  let o := ctc_mq_batch_send_message ft data (Z.of_nat (length data)) (Z.of_nat (length data)) s in
  later_refused (Z.of_nat (length data)) s /\ o = None \/
  ~ later_refused (Z.of_nat (length data)) s /\ batch_outcome ft data s o.
Proof.
  intros Hw Hl o. subst o. destruct (shm_alloc_ok (tick s) && sem_init_ok (S (tick s))) eqn:Hbegin.
  2:{ right. split; [intros (H1 & H2 & _); by rewrite H1, H2 in Hbegin|].
      by apply batch_refused_early. }
  apply andb_true_iff in Hbegin as [Ha Hsem]. rewrite batch_begin by done.
  destruct (first_refused (fun j => shm_alloc_ok (S (S (tick s)) + j)) (segment_count (Z.of_nat (length data))))
    as [Hall|(i & Hi & Hbefore & Hno)].
  { right. split; [|by apply batch_granted]. intros (_ & _ & i & Hi & _ & Hno).
    specialize (Hall i ltac:(lia)). cbv beta in Hall. congruence. }
  pose proof (proj1 (segment_count_spec (Z.of_nat (length data)) i ltac:(lia)) Hi) as Hil.
  set (p := next s). set (s1 := with_message s). set (m0 := mk_msg 0 CTC_FUNC_TYPE_OPEN_TABLE 0 []).
  destruct (fill_loop_refused i (Z.to_nat DSW_MESSAGE_SEGMENT_NUM_MAX) p data m0 s1 [])
    as (sgs & s2 & E2 & Hlen & Hnew & Hm2 & Hfree & Hfr & Hpe & Hse & Hnx);
    [cbn; by rewrite lookup_insert_eq|by intros; apply with_message_fresh|constructor|constructor|done
    |unfold DSW_MESSAGE_SEGMENT_NUM_MAX, CTC_MQ_MESSAGE_SLICE_LEN in *; lia|done|done|].
  rewrite (bind_eq _ _ _ _ _ E2). unfold batch_rest. cbv zeta. rewrite bool_decide_false by done. cbn [negb].
  destruct i as [|i].
  - right. split.
    { intros (_ & _ & i & Hi0 & Hbef & _). specialize (Hbef 0%nat ltac:(lia)). congruence. }
    destruct sgs; [|done]. rewrite app_nil_r in Hm2, Hfr. cbn [with_segs segs m0] in Hm2, Hfr.
    assert (batch_free_shm_buf p s2 = Some (tt, s2)) as Eb.
    { unfold batch_free_shm_buf. by rewrite (bind_eq _ _ _ _ _ (load_msg_eq _ _ _ Hm2)). }
    rewrite (bind_eq _ _ _ _ _ Eb), (bind_eq _ _ _ _ _ (free_eq _ _ _ Hm2)).
    eexists _, _, _. split; [reflexivity|]. cbn [set_blocks blocks served].
    assert (delete p (blocks s2) = blocks s) as Hb.
    { apply map_eq. intros r. destruct (decide (r = p)) as [->|Hr].
      - rewrite lookup_delete_eq. symmetry. by apply (wf_next s Hw).
      - rewrite lookup_delete_ne, Hfr by (done || (cbn; tauto)). cbn. by rewrite lookup_insert_ne. }
    split; [done|]. split.
    { unfold set_blocks. rewrite Hpe. cbn [pending s1 with_message]. rewrite (wf_pending s Hw).
      apply (wf_after s); [done|done|]. change (next s1) with (S p) in Hnx. unfold p in Hnx. lia. }
    split; [done|]. left. split; [failure_code|]. split; [done|]. by rewrite Hse.
  - left. split.
    { split; [done|]. split; [done|]. exists (S i). split; [lia|]. done. }
    destruct sgs as [|[k n] sgs]; [done|].
    unfold bind at 1, batch_free_shm_buf. rewrite (bind_eq _ _ _ _ _ (load_msg_eq _ _ _ Hm2)).
    cbn [with_segs segs m0 app map snd free_all]. unfold bind, free_share_mem.
    by rewrite (Hfree n) by (cbn; by left).
Qed.

End batch.


(** A wait that is interrupted: the message is freed while the engine still
    has it in its queue. *)
Lemma deal_func_interrupted {CH : Channel} ft req srv s :
  reliable -> (forall t, interrupted t = true) -> wf s ->
  exists s', ctc_mq_deal_func ft req None srv s = Some (ERR_SEM_FAULT, s') /\
    pending s' <> [] /\ engine_step s' = None.
Proof.
  intros Hr Hi Hw. unfold ctc_mq_deal_func, bind at 1, alloc_msg, alloc_share_mem.
  destruct (Hr (tick s)) as (-> & _ & _). set (m0 := mk_msg 0 _ 0 []). set (p := next s).
  unfold bind at 1, ask at 1. cbn [tick blocks next pending served].
  destruct (Hr (S (tick s))) as (_ & -> & _). cbn [negb].
  set (s1 := mk_shm _ _ _ _ _).
  assert (blocks s1 !! p = Some (BMsg m0)) as Hm by (cbn; by rewrite lookup_insert_eq).
  rewrite (bind_eq _ _ _ _ _ (load_msg_eq _ _ _ Hm)), (bind_eq _ _ _ _ _ (store_eq _ _ _ _ Hm)).
  set (m1 := mk_msg _ ft _ _). set (s2 := set_blocks _ s1).
  unfold shm_send_msg. unfold bind at 1. unfold bind at 1, ask at 1. cbn [tick].
  destruct (Hr (tick s2)) as (_ & _ & ->). cbn [negb].
  set (s3 := set_pending _ _).
  assert (blocks s3 !! p = Some (BMsg m1)) as Hm3 by (cbn; by rewrite lookup_insert_eq).
  assert (sem_wait p s3 = Some (false, mk_shm (blocks s3) (next s3) (pending s3) (served s3) (S (tick s3)))) as E.
  { unfold sem_wait. destruct (length (pending s3)); cbn [wait_loop];
      rewrite (bind_eq _ _ _ _ _ (load_msg_eq _ _ _ Hm3)); cbn [m1 sem m0];
      unfold bind, ask; by rewrite Hi. }
  rewrite (bind_eq _ _ _ _ _ E). set (s4 := mk_shm _ _ _ _ _).
  assert (blocks s4 !! p = Some (BMsg m1)) as Hm4 by done.
  rewrite (bind_eq _ _ _ _ _ (free_eq _ _ _ Hm4)). eexists. split; [reflexivity|].
  assert (pending s4 = [p]) as Hp by (cbn; by rewrite (wf_pending s Hw)).
  unfold engine_step. cbn [pending set_blocks blocks]. rewrite Hp. split; [done|].
  by rewrite lookup_delete_eq.
Qed.

(** The processors of a row that ends within the first [SHM_SEG_MAX_NUM]
    numbers are all used, up to the first negative number. *)
Fixpoint row_cpus (row : list Z) : list Z :=
  match row with [] => [] | c :: row => if c <? 0 then [] else c :: row_cpus row end.

Lemma cpu_mask_spec fuel : forall row, (length (row_cpus row) <= fuel)%nat ->
  forall c, c ∈ cpu_mask fuel row <-> In c (row_cpus row) /\ c < 1024.
Proof.
  induction fuel as [|fuel IH]; intros [|x row] Hl c; cbn in *; [set_solver| |set_solver|].
  - destruct (x <? 0); cbn in *; [set_solver|lia].
  - destruct (x <? 0); [set_solver|]. cbn in *. rewrite elem_of_union, IH by lia.
    destruct (x <? 1024) eqn:E; zb; rewrite ?elem_of_singleton, ?elem_of_empty; split; intros H.
    + destruct H as [->|[? ?]]; auto.
    + destruct H as [[->|?] ?]; auto.
    + destruct H as [[]|[? ?]]; auto.
    + destruct H as [[->|?] ?]; [lia|auto].
Qed.

(** More than [SHM_MAX_SEG_NUM] groups leave [g_masks]. *)
Lemma set_cpu_mask_overflow group_num info :
  SHM_MAX_SEG_NUM < group_num -> set_cpu_mask group_num info = None.
Proof. intros H. unfold set_cpu_mask. by rewrite (proj2 (Z.leb_gt _ _)). Qed.

(** The counter of threads does not go down for a thread that was not
    created, and the limit is an assertion. *)
Lemma mq_recv_msg_leak n : n <= MAX_DDL_THD_NUM -> mq_recv_msg false n = Some (false, n + 1).
Proof. intros H. unfold mq_recv_msg. destruct (_ >? _) eqn:E; zb; [lia|done]. Qed.

(** ** An engine that answers every request with success *)

Module DemoChannel.

Definition clamp (a : arg) : arg := match a with AU16 z => AU16 (wrapU 16 z) | a => a end.

Definition fill (q : request) (r : string * kind) : request :=
  match fields q !! fst r with
  | Some _ => q
  | None => set_field (fst r) (zero_of (snd r)) q
  end.

Definition answer (ft : CTC_FUNC_TYPE) (q : request) : request :=
  foldl fill (mk_req (zeroed q) (clamp <$> fields q)) (reply_of ft).

#[export] Instance channel : Channel := {
  shm_alloc_ok _ := true;
  sem_init_ok _ := true;
  shm_send_ok _ := true;
  interrupted _ := false;
  junk _ _ := 0;
  serve := answer;
  serve_batch _ ds := map (fun d => (Z.of_nat (length d), map (fun x => 255 - x) d)) ds;
  g_shm_file_num := 1;
  g_group_num := 0 }.

Lemma kind_clamp a : kind_of (clamp a) = kind_of a.
Proof. by destruct a. Qed.

Lemma fill_other l : forall q f, ~ In f (map fst l) -> fields (foldl fill q l) !! f = fields q !! f.
Proof.
  induction l as [|[g k] l IH]; intros q f H; [done|]. cbn in *. rewrite IH by tauto.
  unfold fill. cbn. destruct (fields q !! g); [done|]. cbn. rewrite lookup_insert_ne; [done|]. tauto.
Qed.

Lemma fill_keeps l : forall q f a, fields q !! f = Some a -> fields (foldl fill q l) !! f = Some a.
Proof.
  induction l as [|[g k] l IH]; intros q f a H; [done|]. cbn. apply IH. unfold fill. cbn.
  destruct (fields q !! g) eqn:E; [done|]. cbn. rewrite lookup_insert_ne; [done|]. congruence.
Qed.

Lemma fill_zeroed l : forall q, zeroed (foldl fill q l) = zeroed q.
Proof.
  induction l as [|[g k] l IH]; intros q; [done|]. cbn. rewrite IH. unfold fill. cbn.
  by destruct (fields q !! g).
Qed.

Lemma fill_new l : forall q f k, In (f, k) l -> NoDup (map fst l) -> fields q !! f = None ->
  fields (foldl fill q l) !! f = Some (zero_of k).
Proof.
  induction l as [|[g k'] l IH]; intros q f k H Hn Hf; [done|]. cbn in *.
  pose proof (NoDup_cons_1_1 _ _ Hn) as Hg. apply NoDup_cons_1_2 in Hn. destruct H as [H|H].
  - injection H as -> ->. rewrite fill_other by (by rewrite <- list_elem_of_In).
    unfold fill. cbn. rewrite Hf. cbn. by rewrite lookup_insert_eq.
  - apply IH; [done|done|]. unfold fill. cbn. destruct (fields q !! g); [done|]. cbn.
    rewrite lookup_insert_ne; [done|]. intros ->. apply Hg. rewrite list_elem_of_In.
    by apply (in_map fst) in H.
Qed.

Lemma reply_names ft : NoDup (map fst (reply_of ft)).
Proof. destruct ft; by apply (bool_decide_unpack _); vm_compute. Qed.

Lemma kind_zero k : kind_of (zero_of k) = k.
Proof. destruct k; cbn; try done. by rewrite length_replicate. Qed.

Lemma answer_some ft q f a : fields q !! f = Some a -> fields (answer ft q) !! f = Some (clamp a).
Proof. intros H. apply fill_keeps. cbn. by rewrite lookup_fmap, H. Qed.

(** A field of the answer is one of the request, or zero. *)
Lemma answer_inv ft q f b : fields (answer ft q) !! f = Some b ->
  fields q !! f = None /\ (exists k, In (f, k) (reply_of ft) /\ b = zero_of k) \/
  exists a, fields q !! f = Some a /\ b = clamp a.
Proof.
  intros H. destruct (fields q !! f) as [a|] eqn:E.
  - right. exists a. rewrite (answer_some _ _ _ _ E) in H. by simplify_eq.
  - left. split; [done|].
    destruct (decide (f ∈ map fst (reply_of ft))) as [Hi|Hi]; rewrite list_elem_of_In in Hi.
    + apply in_map_iff in Hi as ([g k] & <- & Hi). cbn [fst] in *. exists k. split; [done|].
      unfold answer in H. rewrite (fill_new _ _ _ k) in H; [by simplify_eq|done|apply reply_names|].
      cbn. by rewrite lookup_fmap, E.
    + unfold answer in H. rewrite fill_other in H by done. cbn in H. by rewrite lookup_fmap, E in H.
Qed.

#[export] Instance laws : ChannelLaws channel.
Proof.
  split; cbn [g_shm_file_num serve serve_batch channel].
  - done.
  - intros ft q f a H. exists (clamp a). split; [by apply answer_some|apply kind_clamp].
  - intros ft q f k Hi Hk. destruct (fields q !! f) as [a|] eqn:E.
    + exists (clamp a). split; [by apply answer_some|]. rewrite kind_clamp. by apply Hk.
    + exists (zero_of k). split; [|apply kind_zero].
      apply fill_new; [done|apply reply_names|]. cbn. by rewrite lookup_fmap, E.
  - intros ft q f p. unfold q_ptr, lookup_field. destruct (fields q !! f) as [a|] eqn:E.
    + rewrite (answer_some _ _ _ _ E), kind_clamp. destruct (decide _); [|done]. cbn. by destruct a.
    + destruct (zeroed q); cbn; [|done]. intros [= ].
  - intros ft q f z. unfold q_u16, lookup_field.
    destruct (fields (answer ft q) !! f) as [b|] eqn:E.
    + destruct (decide _) as [Hk|]; [|done]. cbn. destruct b; try done. intros [= <-].
      apply answer_inv in E as [[_ (k & _ & Hz)]|(a & _ & Ha)].
      * destruct k; try discriminate Hz. injection Hz as ->. lia.
      * destruct a; try discriminate Ha. injection Ha as ->. by apply wrapU_range.
    + unfold answer. rewrite fill_zeroed. cbn. destruct (zeroed q); cbn; [|done]. intros [= <-]. lia.
  - intros ft q t t'. unfold q_tch, lookup_field. destruct (fields q !! "tch") as [a|] eqn:E.
    + rewrite (answer_some _ _ _ _ E), kind_clamp. destruct (decide _); [|done]. cbn.
      destruct a; try done. cbn. congruence.
    + destruct (zeroed q) eqn:Ez; cbn; [|done]. intros [= <-].
      destruct (fields (answer ft q) !! "tch") as [b|] eqn:E'.
      * apply answer_inv in E' as [[_ (k & Hi & ->)]|(a & Ha & _)]; [|congruence].
        exfalso. destruct ft; cbn in Hi; intuition discriminate.
      * unfold answer. rewrite fill_zeroed. cbn. rewrite Ez. cbn. by intros [= <-].
  - intros ft ds. rewrite !map_map. split; apply map_ext; intros d; cbn; [done|].
    by rewrite length_map.
Qed.

Definition empty : shm := mk_shm ∅ 0 [] [] 0.

Lemma wf_empty : wf empty.
Proof. split; cbn; [done|intros ? ?; by rewrite lookup_empty|intros; apply lookup_empty]. Qed.

End DemoChannel.

(** ** Properties *)

Import DemoChannel.

(** C33: a large buffer sent in segments reaches the engine as it is and comes
    back as the engine left it, whatever the allocations, the semaphore and the
    queue do, as long as no wait is interrupted and the buffer needs at most
    [DSW_MESSAGE_SEGMENT_NUM_MAX] segments.  When the memory for a segment
    after the first is refused, the call is undefined: the segments before it
    are freed twice.  In every other case it returns, and the shared memory is
    what it was; when it succeeds the engine got segments of at most
    [CTC_MQ_MESSAGE_SLICE_LEN] bytes that make up the data, and the buffer
    holds the engine's segments in order; when it fails the buffer is unchanged
    and the engine got nothing. *)
Theorem batch_message_round_trip {CH : Channel} {CL : ChannelLaws CH} ft data s :
  (forall t, interrupted t = false) -> wf s ->
  Z.of_nat (length data) <= CTC_MQ_MESSAGE_SLICE_LEN * DSW_MESSAGE_SEGMENT_NUM_MAX ->
  let o := ctc_mq_batch_send_message ft data (Z.of_nat (length data)) (Z.of_nat (length data)) s in
  later_refused (Z.of_nat (length data)) s /\ o = None \/
  ~ later_refused (Z.of_nat (length data)) s /\ batch_outcome ft data s o.
Proof. intros Hc. by apply batch_send_ok. Qed.

(** An engine like [DemoChannel], but for the memory of the second segment. *)
Definition short_channel : Channel := {|
  shm_alloc_ok t := negb (t =? 3)%nat;
  sem_init_ok _ := true;
  shm_send_ok _ := true;
  interrupted _ := false;
  junk _ _ := 0;
  serve := DemoChannel.answer;
  serve_batch := @serve_batch DemoChannel.channel;
  g_shm_file_num := 1;
  g_group_num := 0 |}.

Lemma short_laws : ChannelLaws short_channel.
Proof.
  destruct DemoChannel.laws as [A B C D F G I]. exact (Build_ChannelLaws short_channel A B C D F G I).
Qed.

(** Three segments: with memory for all of them, and for the first only *)
Definition large_buffer : list Z := replicate (Z.to_nat 250000) 7.

Lemma large_buffer_length : Z.of_nat (length large_buffer) = 250000.
Proof. unfold large_buffer. rewrite length_replicate. lia. Qed.

Lemma batch_message_round_trip_witness :
  segment_count (Z.of_nat (length large_buffer)) = 3%nat /\
  batch_outcome CTC_FUNC_TYPE_CREATE_TABLE large_buffer DemoChannel.empty
    (ctc_mq_batch_send_message CTC_FUNC_TYPE_CREATE_TABLE large_buffer (Z.of_nat (length large_buffer))
       (Z.of_nat (length large_buffer)) DemoChannel.empty) /\
  @ctc_mq_batch_send_message short_channel CTC_FUNC_TYPE_CREATE_TABLE large_buffer
    (Z.of_nat (length large_buffer)) (Z.of_nat (length large_buffer)) DemoChannel.empty = None.
Proof.
  assert (Z.of_nat (length large_buffer) <= CTC_MQ_MESSAGE_SLICE_LEN * DSW_MESSAGE_SEGMENT_NUM_MAX) as Hl
    by (rewrite large_buffer_length; done).
  split; [rewrite large_buffer_length; reflexivity|]. split.
  - destruct (batch_message_round_trip CTC_FUNC_TYPE_CREATE_TABLE large_buffer DemoChannel.empty)
      as [[(_ & _ & i & _ & _ & Hno) _]|[_ H]]; [done|apply DemoChannel.wf_empty|exact Hl| |exact H].
    discriminate Hno.
  - destruct (@batch_message_round_trip short_channel short_laws CTC_FUNC_TYPE_CREATE_TABLE large_buffer
      DemoChannel.empty) as [[_ H]|[Hno _]]; [done|apply DemoChannel.wf_empty|exact Hl|exact H|].
    exfalso. apply Hno. split; [done|]. split; [done|]. exists 1%nat. rewrite large_buffer_length.
    split; [change (segment_count 250000) with 3%nat; lia|]. split; [|done].
    intros j Hj. assert (j = 0%nat) as -> by lia. done.
Defined.

End SharedMem.
