(* ===== verification/Stub.v ===== *)
(** * Stub: the engine's interface as calls

    Models [ctc_srv_mq_stub.cc]: for every function of the engine that the
    connector calls, the request that is built in shared memory, the message,
    and what is read from the answer.  Most functions have the shape of
    [request_call]; those that read their request after it was freed, or
    never free it, are written out.  The functions of row operations and of
    the prefetch are in [Dml] and [Prefetch], where their data are, and the
    statistics of the optimizer are not modelled.

    [stub_calls_safe] is about all others at once: no access outside of live
    memory, nothing left allocated, one message of the right function, and
    the engine's own result or a failure of the transport. *)

From S2P Require Import Prelude CtcError SharedMem.
Import CtcError SharedMem.

Module Stub.
#[local] Open Scope ctc_scope.

Definition MAX_DDL_SQL_LEN : Z := 63488 + 30.
Definition MAX_WSR_DML_SQL_LEN : Z := 8192 + 30.
Definition ERROR_MESSAGE_LEN : Z := 512.
Definition CTC_MAX_KEY_NAME_LENGTH : Z := 64.
Definition INDEX_KEY_SIZE : Z := 4096.
Definition MAX_KEY_COLUMNS : Z := 16.

(** [strncpy] with [n] into an array of zeros that is longer than [n]. *)
Definition strncpy (s : string) (n : Z) : arg := AText (String.substring 0 (Z.to_nat n) s).
Definition bool_arg (b : bool) : arg := ANum (if b then 1 else 0).
Definition to_bool (z : Z) : bool := negb (z =? 0).

(** Layout of [ddl_ctrl_t] in memory: its size, and where the engine stores
    its error. *)
Class DdlLayout := {
  sizeof_ddl_ctrl : Z;
  ddl_error_code : list Z -> ct_errno_t }.

(** The result of a call and the handler afterwards. *)
Abbreviation answer := (ct_errno_t * ctc_handler_t)%type.

Section stub.
Context {CH : Channel} {DL : DdlLayout}.

(** ** The shape of most calls *)

(** Allocates a request, fills it, sends it, reads the answer with [after]
    and frees the request. *)
Definition request_call {A} (ft : CTC_FUNC_TYPE) (srv : Z) (zero : bool)
    (args : list (string * arg)) (buf : option nat)
    (after : ct_errno_t -> request -> option A) (oom : A) : M A :=
  req <-- alloc_req;;
  match req with
  | None => ret oom
  | Some req =>
      (if zero then mem_zero req else ret tt);;;
      puts req args;;;
      r <-- ctc_mq_deal_func ft req buf srv;;
      a <-- read req (after r);;
      free_share_mem req;;;
      ret a
  end.

(** A call for a session. *)
Definition session_call {A} (ft : CTC_FUNC_TYPE) (zero : bool) (args : list (string * arg))
    (t : ctc_handler_t) (after : ctc_handler_t -> ct_errno_t -> request -> option A)
    (oom : ctc_handler_t -> A) : M A :=
  t <-- bound_tch t;;
  request_call ft SERVER_PROC_ID zero (args ++ [("tch", ATch t)]) (msg_buf t) (after t) (oom t).

(** The engine's result, or that the message failed. *)
Definition result_of (r : ct_errno_t) (q : request) : option ct_errno_t :=
  if decide (r = CT_SUCCESS) then q_code "result" q else Some ERR_CONNECTION_FAILED.

(** With the handler that the engine has updated; without. *)
Definition back (t : ctc_handler_t) (r : ct_errno_t) (q : request) : option answer :=
  t ← q_tch "tch" q; c ← result_of r q; Some (c, t).
Definition no_back (t : ctc_handler_t) (r : ct_errno_t) (q : request) : option answer :=
  c ← result_of r q; Some (c, t).
Definition oom (t : ctc_handler_t) : answer := (ERR_ALLOC_MEMORY, t).

(** ** Tables and sessions *)

Definition ctc_open_table (t : ctc_handler_t) (table_name user_name : string) : M answer :=
  session_call CTC_FUNC_TYPE_OPEN_TABLE true
    [("table_name", strncpy table_name (SMALL_RECORD_SIZE - 1));
     ("user_name", strncpy user_name (SMALL_RECORD_SIZE - 1))] t back oom.

Definition ctc_close_session (t : ctc_handler_t) : M answer :=
  session_call CTC_FUNC_TYPE_CLOSE_SESSION false [] t back oom.

(** Nothing is returned; [t] is not changed. *)
Definition ctc_kill_session (t : ctc_handler_t) : M unit :=
  session_call CTC_FUNC_KILL_CONNECTION false [] t (fun _ _ _ => Some tt) (fun _ => tt).

Definition ctc_close_table (t : ctc_handler_t) : M answer :=
  session_call CTC_FUNC_TYPE_CLOSE_TABLE false [] t back oom.

(** ** Scans *)

(** The result, the handler and the value of a field when the engine
    succeeded, else [old]. *)
Definition back_num (f : string) (old : Z) (t : ctc_handler_t) (r : ct_errno_t) (q : request)
  : option (answer * Z) :=
  '(c, t) ← back t r q;
  n ← (if decide (c = CT_SUCCESS) then q_num f q else Some old);
  Some ((c, t), n).

Definition back_len (old : Z) (t : ctc_handler_t) (r : ct_errno_t) (q : request)
  : option (answer * Z) :=
  '(c, t) ← back t r q;
  n ← (if decide (c = CT_SUCCESS)
       then n ← q_u16 "record_len" q; if n <? BIG_RECORD_SIZE then Some n else None
       else Some old);
  Some ((c, t), n).

Definition ctc_scan_records (t : ctc_handler_t) (num_rows : Z) (index_name : option string)
  : M (answer * Z) :=
  session_call CTC_FUNC_TYPE_SCAN_RECORDS true
    (match index_name with
     | Some s => if (String.length s =? 0)%nat then [] else [("index_name", AText s)]
     | None => []
     end) t (back_num "num_rows" num_rows) (fun t => (oom t, num_rows)).

(** [record] is the address of the buffer for the record, [record_len] the
    length that the caller passed in. *)
Definition ctc_rnd_next (t : ctc_handler_t) (record : nat) (record_len : Z) : M (answer * Z) :=
  session_call CTC_FUNC_TYPE_RND_NEXT false [("record", APtr (Some record))] t
    (back_len record_len) (fun t => (oom t, record_len)).

Definition ctc_rnd_init (t : ctc_handler_t) (action mode : Z) (cond : option nat) : M answer :=
  session_call CTC_FUNC_TYPE_RND_INIT false
    [("action", ANum action); ("mode", ANum mode); ("cond", APtr cond)] t back oom.

Definition ctc_rnd_end (t : ctc_handler_t) : M answer :=
  session_call CTC_FUNC_TYPE_RND_END false [] t back oom.

(** The first [pos_length] bytes of an array of [SMALL_RECORD_SIZE]; those
    after it were set to 0. *)
Definition pos_arg (position : list Z) (pos_length : Z) : arg :=
  ABytes (take (Z.to_nat pos_length) position
          ++ replicate (Z.to_nat (SMALL_RECORD_SIZE - pos_length)) 0).

Definition ctc_rnd_pos (t : ctc_handler_t) (position : list Z) (pos_length : Z) (record : nat)
    (record_len : Z) : M (answer * Z) :=
  assert (pos_length <? SMALL_RECORD_SIZE);;;
  session_call CTC_FUNC_TYPE_RND_POS false
    [("record", APtr (Some record)); ("pos_length", ANum pos_length);
     ("position", pos_arg position pos_length)] t
    (fun t r q =>
       c ← result_of r q;
       n ← (if decide (c = CT_SUCCESS)
            then n ← q_u16 "record_len" q; if n <? BIG_RECORD_SIZE then Some n else None
            else Some record_len);
       Some ((c, t), n))
    (fun t => (oom t, record_len)).

Definition ctc_delete_all_rows (t : ctc_handler_t) (flag : list Z) : M answer :=
  session_call CTC_FUNC_TYPE_DELETE_ALL_ROWS false [("flag", ABytes flag)] t back oom.

Definition ctc_index_end (t : ctc_handler_t) : M answer :=
  session_call CTC_FUNC_TYPE_INDEX_END false [] t back oom.

Definition ctc_general_fetch (t : ctc_handler_t) (record : nat) (record_len : Z) : M (answer * Z) :=
  session_call CTC_FUNC_TYPE_GENERAL_FETCH false [("record", APtr (Some record))] t
    (back_len record_len) (fun t => (oom t, record_len)).

(** ** Search by an index *)

(** One column of a search key: [None] for a null pointer. *)
Record key_info := mk_key {
  is_key_null : bool;
  left_key : option (list Z);
  right_key : option (list Z) }.

Record index_key_info_t := mk_index_key {
  need_init : bool; find_flag : Z; action : Z; sorted : bool; index_skip_scan : bool;
  index_name : string; key_info_list : list key_info }.

(** One side of the keys: the record so far, and the lengths and offsets. *)
Fixpoint copy_keys (keys : list (option (list Z))) (rec : list Z)
  : option (list Z * list Z * list Z) :=
  match keys with
  | [] => Some (rec, [], [])
  | None :: keys =>
      '(rec, lens, offs) ← copy_keys keys rec; Some (rec, 0 :: lens, 0 :: offs)
  | Some k :: keys =>
      if Z.of_nat (length rec) + Z.of_nat (length k) <=? INDEX_KEY_SIZE
      then '(rec', lens, offs) ← copy_keys keys (rec ++ k);
           Some (rec', Z.of_nat (length k) :: lens, Z.of_nat (length rec) :: offs)
      else None
  end.

(** The arrays have [MAX_KEY_COLUMNS] elements; columns without a key are
    null. *)
Definition copy_index_info_to_req (i : index_key_info_t) : option (list (string * arg)) :=
  let n := length (key_info_list i) in
  if Z.of_nat n <=? MAX_KEY_COLUMNS then
    '(left_rec, left_lens, left_offs) ← copy_keys (map left_key (key_info_list i)) [];
    '(right_rec, right_lens, right_offs) ← copy_keys (map right_key (key_info_list i)) [];
    Some [("is_key_null", ABytes (map (fun k => if is_key_null k then 1 else 0) (key_info_list i)
             ++ replicate (Z.to_nat MAX_KEY_COLUMNS - n) 1));
          ("left_key_record", ABytes left_rec); ("right_key_record", ABytes right_rec);
          ("left_key_info", ARows [left_lens; left_offs]);
          ("right_key_info", ARows [right_lens; right_offs]);
          ("need_init", bool_arg (need_init i)); ("find_flag", ANum (find_flag i));
          ("action", ANum (action i)); ("sorted", bool_arg (sorted i));
          ("key_num", ANum (Z.of_nat n)); ("index_skip_scan", bool_arg (index_skip_scan i));
          ("index_name", AText (index_name i))]
  else None.

(** The result, the length of the record, and [need_init] as the engine left
    it. *)
Definition back_read (record_len : Z) (init : bool) (t : ctc_handler_t) (r : ct_errno_t)
    (q : request) : option (answer * Z * bool) :=
  '(a, n) ← back_len record_len t r q;
  b ← (if decide (r = CT_SUCCESS) then to_bool <$> q_num "need_init" q else Some init);
  Some (a, n, b).

Definition ctc_index_read (t : ctc_handler_t) (record : nat) (record_len : Z)
    (index_info : option index_key_info_t) (mode : Z) (cond : option nat) (is_replace : bool)
  : M (answer * Z * bool) :=
  match index_info with
  | None => ret ((ERR_GENERIC_INTERNAL_ERROR, t), record_len, false)
  | Some i =>
      t <-- bound_tch t;;
      req <-- alloc_req;;
      match req with
      | None => ret ((ERR_ALLOC_MEMORY, t), record_len, need_init i)
      | Some req =>
          args <-- lift (copy_index_info_to_req i);;
          puts req ((args ++ [("record", APtr (Some record)); ("record_len", AU16 0);
            ("mode", ANum mode); ("cond", APtr cond); ("is_replace", bool_arg is_replace);
            ("result", ACode CT_SUCCESS)]) ++ [("tch", ATch t)]);;;
          r <-- ctc_mq_deal_func CTC_FUNC_TYPE_INDEX_READ req (msg_buf t) SERVER_PROC_ID;;
          a <-- read req (back_read record_len (need_init i) t r);;
          free_share_mem req;;;
          ret a
      end
  end.

Definition ctc_pq_index_read (t : ctc_handler_t) (record : nat) (record_len : Z)
    (index_info : option index_key_info_t) (scan_range : list Z) (mode : Z) (cond : option nat)
    (is_replace : bool) (query_scn : Z) : M (answer * Z * bool) :=
  match index_info with
  | None => ret ((ERR_GENERIC_INTERNAL_ERROR, t), record_len, false)
  | Some i =>
      session_call CTC_FUNC_TYPE_PQ_INDEX_READ true
        [("record", APtr (Some record)); ("record_len", AU16 0); ("mode", ANum mode);
         ("cond", APtr cond); ("is_replace", bool_arg is_replace); ("result", ACode CT_SUCCESS);
         ("action", ANum (action i)); ("need_init", bool_arg (need_init i));
         ("query_scn", ANum query_scn); ("scan_range", ABytes scan_range);
         ("index_name", AText (index_name i))] t
        (back_read record_len (need_init i)) (fun t => (oom t, record_len, need_init i))
  end.

(** ** Transactions *)

Definition ctc_trx_begin (t : ctc_handler_t) (trx_context : list Z) (is_mysql_local : bool)
    (begin_time : list Z) (enable_stat : bool) : M answer :=
  session_call CTC_FUNC_TYPE_TRX_BEGIN false
    [("trx_context", ABytes trx_context); ("is_mysql_local", bool_arg is_mysql_local);
     ("begin_time", ABytes begin_time); ("enable_stat", bool_arg enable_stat)] t back oom.

Definition ctc_statistic_begin (t : ctc_handler_t) (begin_time : list Z) (enable_stat : bool)
  : M answer :=
  session_call CTC_FUNC_TYPE_STATISTIC_BEGIN false
    [("begin_time", ABytes begin_time); ("enable_stat", bool_arg enable_stat)] t back oom.

(** A null statement leaves the zeros of [memset]. *)
Definition sql_arg (sql_str : option string) : list (string * arg) :=
  match sql_str with Some s => [("sql", strncpy s (MAX_WSR_DML_SQL_LEN - 1))] | None => [] end.

(** And whether a DDL was committed; the handler is not copied back. *)
Definition ctc_trx_commit (t : ctc_handler_t) (cursors : option nat) (csize : Z)
    (is_ddl_commit : bool) (sql_str : option string) (enable_stat : bool) : M (answer * bool) :=
  session_call CTC_FUNC_TYPE_TRX_COMMIT true
    (sql_arg sql_str ++ [("csize", ANum csize); ("cursors", APtr cursors);
                         ("enable_stat", bool_arg enable_stat)]) t
    (fun t r q => d ← q_num "is_ddl_commit" q; a ← no_back t r q; Some (a, to_bool d))
    (fun t => (oom t, is_ddl_commit)).

Definition ctc_statistic_commit (t : ctc_handler_t) (sql_str : option string) (enable_stat : bool)
  : M answer :=
  session_call CTC_FUNC_TYPE_STATISTIC_COMMIT true
    (sql_arg sql_str ++ [("enable_stat", bool_arg enable_stat)]) t no_back oom.

Definition ctc_trx_rollback (t : ctc_handler_t) (cursors : option nat) (csize : Z) : M answer :=
  session_call CTC_FUNC_TYPE_TRX_ROLLBACK false
    [("csize", ANum csize); ("cursors", APtr cursors)] t no_back oom.

Definition ctc_srv_set_savepoint (t : ctc_handler_t) (name : string) : M answer :=
  session_call CTC_FUNC_TYPE_SRV_SET_SAVEPOINT true
    [("name", strncpy name (SMALL_RECORD_SIZE - 1))] t no_back oom.

Definition ctc_srv_rollback_savepoint (t : ctc_handler_t) (cursors : option nat) (csize : Z)
    (name : string) : M answer :=
  session_call CTC_FUNC_TYPE_SRV_ROLLBACK_SAVEPOINT false
    [("name", strncpy name (SMALL_RECORD_SIZE - 1)); ("csize", ANum csize);
     ("cursors", APtr cursors)] t no_back oom.

Definition ctc_srv_release_savepoint (t : ctc_handler_t) (name : string) : M answer :=
  session_call CTC_FUNC_TYPE_SRV_RELEASE_SAVEPOINT true
    [("name", strncpy name (SMALL_RECORD_SIZE - 1))] t no_back oom.

Definition ctc_free_session_cursors (t : ctc_handler_t) (cursors : option nat) (csize : Z)
  : M answer :=
  session_call CTC_FUNC_TYPE_FREE_CURSORS false
    [("csize", ANum csize); ("cursors", APtr cursors)] t back oom.

(** ** Statistics, sequences and buffers *)

Definition ctc_analyze_table (t : ctc_handler_t) (db_name table_name : string) (ratio : list Z)
  : M answer :=
  session_call CTC_FUNC_TYPE_ANALYZE true
    [("ratio", ABytes ratio); ("table_name", strncpy table_name (SMALL_RECORD_SIZE - 1));
     ("user_name", strncpy db_name (SMALL_RECORD_SIZE - 1))] t back oom.

(** The transport's own code is returned when the message fails. *)
Definition ctc_get_index_name (t : ctc_handler_t) (index_name : string) : M (answer * string) :=
  session_call CTC_FUNC_TYPE_GET_INDEX_NAME true [] t
    (fun t r q =>
       if decide (r = CT_SUCCESS)
       then s ← q_text "index_name" q; c ← q_code "result" q; Some ((c, t), s)
       else Some ((r, t), index_name))
    (fun t => (oom t, index_name)).

Definition ctc_alloc_buf (t : option ctc_handler_t) (buf_size : Z) : M (option nat) :=
  if buf_size =? 0 then ret None
  else _ <-- lift (get_one_shm_inst t);; alloc_raw buf_size.

Definition ctc_free_buf (t : option ctc_handler_t) (buf : option nat) : M unit :=
  match buf with
  | None => ret tt
  | Some p => _ <-- lift (get_one_shm_inst t);; free_share_mem p
  end.

Definition ctc_get_serial_value (t : ctc_handler_t) (value auto_inc_step auto_inc_offset : Z)
    (auto_increase : bool) : M (answer * Z) :=
  session_call CTC_FUNC_TYPE_GET_SERIAL_VALUE false
    [("flag.auto_inc_step", ANum auto_inc_step); ("flag.auto_inc_offset", ANum auto_inc_offset);
     ("flag.auto_increase", bool_arg auto_increase)] t
    (fun t r q =>
       a ← back t r q;
       v ← (if decide (r = CT_SUCCESS) then q_num "value" q else Some value);
       Some (a, v))
    (fun t => (oom t, value)).

(** ** Locks and databases *)

Definition ctc_lock_table (t : ctc_handler_t) (db_name : option string) (lock_info : list Z)
    (error_code : Z) : M (answer * Z) :=
  session_call CTC_FUNC_TYPE_LOCK_TABLE true
    (match db_name with Some s => [("db_name", strncpy s (SMALL_RECORD_SIZE - 1))] | None => [] end
     ++ [("lock_info", ABytes lock_info); ("mysql_inst_id", ANum (inst_id t))]) t
    (fun t r q => e ← q_num "error_code" q; a ← back t r q; Some (a, e))
    (fun t => (oom t, error_code)).

Definition ctc_unlock_table (t : ctc_handler_t) (mysql_inst_id : Z) (lock_info : list Z) : M answer :=
  session_call CTC_FUNC_TYPE_UNLOCK_TABLE false
    [("mysql_inst_id", ANum mysql_inst_id); ("lock_info", ABytes lock_info)] t back oom.

Definition ctc_lock_instance (is_mysqld_starting : bool) (lock_type : Z) (t : ctc_handler_t)
  : M answer :=
  session_call CTC_FUNC_LOCK_INSTANCE false
    [("lock_type", ANum lock_type); ("is_mysqld_starting", bool_arg is_mysqld_starting)] t back oom.

Definition ctc_unlock_instance (is_mysqld_starting : bool) (t : ctc_handler_t) : M answer :=
  session_call CTC_FUNC_UNLOCK_INSTANCE false
    [("is_mysqld_starting", bool_arg is_mysqld_starting)] t back oom.

Definition ctc_drop_db_pre_check (t : ctc_handler_t) (db_name : string) (error_code : Z)
    (error_message : string) : M (answer * Z * string) :=
  session_call CTC_FUNC_DROP_DB_PRE_CHECK true
    [("db_name", strncpy db_name (SMALL_RECORD_SIZE - 1))] t
    (fun t r q => e ← q_num "error_code" q; m ← q_text "error_message" q; a ← back t r q;
       Some (a, e, String.substring 0 (Z.to_nat ERROR_MESSAGE_LEN) m))
    (fun t => (oom t, error_code, error_message)).

(** ** Broadcasts *)

(** [ctc_ddl_broadcast_request]: its code and message, and the rest. *)
Record broadcast := mk_broadcast { bc_err_code : Z; bc_err_msg : string; bc_rest : list Z }.

Definition bc_args (b : broadcast) : list (string * arg) :=
  [("broadcast_req.err_code", ANum (bc_err_code b)); ("broadcast_req.err_msg", AText (bc_err_msg b));
   ("broadcast_req", ABytes (bc_rest b))].

Definition back_broadcast (b : broadcast) (t : ctc_handler_t) (r : ct_errno_t) (q : request)
  : option (answer * broadcast) :=
  e ← q_num "broadcast_req.err_code" q; m ← q_text "broadcast_req.err_msg" q; a ← back t r q;
  Some (a, mk_broadcast e (String.substring 0 (Z.to_nat (ERROR_MESSAGE_LEN - 1)) m) (bc_rest b)).

Definition broadcast_call (ft : CTC_FUNC_TYPE) (t : ctc_handler_t) (b : broadcast)
    (allow_fail : bool) : M (answer * broadcast) :=
  session_call ft false (bc_args b ++ [("allow_fail", bool_arg allow_fail)]) t
    (back_broadcast b) (fun t => (oom t, b)).

Definition ctc_execute_mysql_ddl_sql := broadcast_call CTC_FUNC_TYPE_EXCUTE_MYSQL_DDL_SQL.
Definition ctc_broadcast_rewrite_sql := broadcast_call CTC_FUNC_TYPE_BROADCAST_REWRITE_SQL.
Definition ctc_record_sql_for_cantian := broadcast_call CTC_FUNC_TYPE_RECORD_SQL.

(** The options are a second block, whose address is read back from the
    request. *)
Definition ctc_execute_set_opt (t : ctc_handler_t) (b : broadcast) (set_opt_info : list Z)
    (allow_fail : bool) : M (answer * broadcast) :=
  t <-- bound_tch t;;
  req <-- alloc_req;;
  match req with
  | None => ret (oom t, b)
  | Some req =>
      puts req (bc_args b);;;
      opts <-- alloc_raw (Z.of_nat (length set_opt_info));;
      match opts with
      | None => free_share_mem req;;; ret (oom t, b)
      | Some p =>
          put req "set_opt_info" (APtr (Some p));;;
          store p (BRaw set_opt_info);;;
          puts req [("allow_fail", bool_arg allow_fail); ("tch", ATch t)];;;
          r <-- ctc_mq_deal_func CTC_FUNC_TYPE_SET_OPT req (msg_buf t) SERVER_PROC_ID;;
          a <-- read req (back_broadcast b t r);;
          p <-- read req (q_ptr "set_opt_info");;
          match p with Some p => free_share_mem p | None => fail end;;;
          free_share_mem req;;;
          ret a
      end
  end.

Definition ctc_broadcast_mysql_dd_invalidate (t : ctc_handler_t) (err_code : Z) (rest : list Z)
  : M (answer * Z) :=
  session_call CTC_FUNC_TYPE_INVALIDATE_OBJECT false
    [("broadcast_req.err_code", ANum err_code); ("broadcast_req", ABytes rest)] t
    (fun t r q => e ← q_num "broadcast_req.err_code" q; a ← back t r q; Some (a, e))
    (fun t => (oom t, err_code)).

(** ** Calls without a session *)

Definition plain_call {A} (ft : CTC_FUNC_TYPE) (srv : Z) (zero : bool) (args : list (string * arg))
    (after : ct_errno_t -> request -> option A) (oom : A) : M A :=
  _ <-- lift (get_one_shm_inst None);;
  request_call ft srv zero args None after oom.

(** The result, and fields when the message got through. *)
Definition result_nums (fs : list string) (old : list Z) (r : ct_errno_t) (q : request)
  : option (ct_errno_t * list Z) :=
  c ← result_of r q;
  l ← (if decide (r = CT_SUCCESS) then mapM (fun f => q_num f q) fs else Some old);
  Some (c, l).

Definition srv_wait_instance_startuped : M ct_errno_t :=
  plain_call CTC_FUNC_TYPE_WAIT_CONNETOR_STARTUPED SERVER_REGISTER_PROC_ID false []
    (fun r _ => Some r) ERR_ALLOC_MEMORY.

Definition ctc_update_job (info : list Z) : M ct_errno_t :=
  plain_call CTC_FUNC_TYPE_UPDATE_JOB SERVER_PROC_ID false [("info", ABytes info)]
    result_of ERR_ALLOC_MEMORY.

Definition ctc_search_metadata_status (metadata_switch cluster_ready : Z)
  : M (ct_errno_t * list Z) :=
  plain_call CTC_FUNC_SEARCH_METADATA_SWITCH SERVER_PROC_ID false []
    (result_nums ["metadata_switch"; "cluster_ready"] [metadata_switch; cluster_ready])
    (ERR_ALLOC_MEMORY, [metadata_switch; cluster_ready]).

Definition ctc_check_db_table_exists (db name : string) (is_exists : Z)
  : M (ct_errno_t * list Z) :=
  plain_call CTC_FUNC_CHECK_TABLE_EXIST SERVER_PROC_ID true
    [("db", strncpy db (SMALL_RECORD_SIZE - 1)); ("name", strncpy name (SMALL_RECORD_SIZE - 1))]
    (result_nums ["is_exists"] [is_exists]) (ERR_ALLOC_MEMORY, [is_exists]).

Definition ctc_query_cluster_role (is_slave cluster_ready : Z) : M (ct_errno_t * list Z) :=
  plain_call CTC_FUNC_QUERY_CLUSTER_ROLE SERVER_PROC_ID false []
    (result_nums ["is_slave"; "cluster_ready"] [is_slave; cluster_ready])
    (ERR_ALLOC_MEMORY, [is_slave; cluster_ready]).

Definition ctc_update_sample_size (sample_size : Z) (need_persist : bool) : M ct_errno_t :=
  plain_call CTC_FUNC_TYPE_UPDATE_SAMPLE_SIZE SERVER_PROC_ID false
    [("sample_size", ANum sample_size); ("need_persist", bool_arg need_persist)]
    (fun r _ => Some r) ERR_ALLOC_MEMORY.

Definition ctc_query_shm_file_num (shm_file_num : Z) : M (ct_errno_t * list Z) :=
  plain_call CTC_FUNC_QUERY_SHM_FILE_NUM SERVER_REGISTER_PROC_ID false []
    (result_nums ["shm_file_num"] [shm_file_num]) (ERR_ALLOC_MEMORY, [shm_file_num]).

(** The engine writes to the buffer at [shm_usage]. *)
Definition ctc_query_shm_usage (shm_usage : nat) : M ct_errno_t :=
  plain_call CTC_FUNC_QUERY_SHM_USAGE SERVER_PROC_ID false [("shm_usage", APtr (Some shm_usage))]
    result_of ERR_ALLOC_MEMORY.

(** [enable_stat] is a pointer in the request and is converted to [bool]. *)
Definition ctc_query_sql_statistic_stat (enable_stat : bool) : M (ct_errno_t * bool) :=
  plain_call CTC_FUNC_QUERY_SQL_STATISTIC_STAT SERVER_REGISTER_PROC_ID false []
    (fun r q =>
       c ← result_of r q;
       b ← (if decide (r = CT_SUCCESS)
            then p ← q_ptr "enable_stat" q; Some match p with Some _ => true | None => false end
            else Some enable_stat);
       Some (c, b))
    (ERR_ALLOC_MEMORY, enable_stat).

(** ** Table and tablespace definitions *)

(** [ddl_ctrl_t] as bytes, then the definition; the answer's control block is
    copied back and holds the result. *)
Definition ddl_call (ft : CTC_FUNC_TYPE) (def ctrl : list Z) (msg_len : Z)
  : M (ct_errno_t * list Z) :=
  assert (msg_len + sizeof_ddl_ctrl <? REQUEST_SIZE);;;
  plain_call ft SERVER_PROC_ID false
    [("ddl_ctrl", ABytes ctrl); ("def", ABytes (take (Z.to_nat msg_len) def))]
    (fun r q =>
       ctrl ← q_bytes (length ctrl) "ddl_ctrl" q;
       Some (if decide (r = CT_SUCCESS) then ddl_error_code ctrl else ERR_CONNECTION_FAILED, ctrl))
    (ERR_ALLOC_MEMORY, ctrl).

Definition ctc_truncate_table := ddl_call CTC_FUNC_TYPE_TRUNCATE_TABLE.
Definition ctc_rename_table := ddl_call CTC_FUNC_TYPE_RENAME_TABLE.
Definition ctc_drop_table := ddl_call CTC_FUNC_TYPE_DROP_TABLE.
Definition ctc_create_tablespace := ddl_call CTC_FUNC_TYPE_CREATE_TABLESPACE.
Definition ctc_alter_tablespace := ddl_call CTC_FUNC_TYPE_ALTER_TABLESPACE.
Definition ctc_drop_tablespace := ddl_call CTC_FUNC_TYPE_DROP_TABLESPACE.

(** The definition of these is too large for a request: [def] begins with the
    control block. *)
Definition batch_ddl_call (ft : CTC_FUNC_TYPE) (def : list Z) (msg_len : Z) (t : ctc_handler_t)
  : M (ct_errno_t * list Z) :=
  _ <-- bound_tch t;;
  '(r, def) <-- ctc_mq_batch_send_message ft def msg_len msg_len;;
  ctrl <-- lift (rd def 0 sizeof_ddl_ctrl);;
  ret (if decide (r = CT_SUCCESS) then ddl_error_code ctrl else ERR_CONNECTION_FAILED, ctrl).

Definition ctc_create_table := batch_ddl_call CTC_FUNC_TYPE_CREATE_TABLE.
Definition ctc_truncate_partition := batch_ddl_call CTC_FUNC_TYPE_TRUNCATE_PARTITION.
Definition ctc_alter_table := batch_ddl_call CTC_FUNC_TYPE_ALTER_TABLE.

(** ** Calls that use their request wrongly *)

(** The result is read whether or not the message got through. *)
Definition ctc_position (t : ctc_handler_t) (position : list Z) (pos_length : Z)
  : M (answer * list Z) :=
  assert (pos_length <? SMALL_RECORD_SIZE);;;
  session_call CTC_FUNC_TYPE_POSITION false
    [("pos_length", ANum pos_length);
     ("position", ABytes (take (Z.to_nat pos_length) position))] t
    (fun t r q =>
       p ← (if decide (r = CT_SUCCESS) then q_bytes (Z.to_nat pos_length) "position" q
            else Some position);
       c ← q_code "result" q;
       Some ((c, t), p))
    (fun t => (oom t, position)).

(** The request is not freed. *)
Definition ctc_get_max_sessions_per_node (max_sessions : Z) : M (ct_errno_t * Z) :=
  _ <-- lift (get_one_shm_inst None);;
  req <-- alloc_req;;
  match req with
  | None => ret (ERR_ALLOC_MEMORY, max_sessions)
  | Some req =>
      r <-- ctc_mq_deal_func CTC_FUNC_TYPE_GET_MAX_SESSIONS req None SERVER_PROC_ID;;
      n <-- (if decide (r = CT_SUCCESS) then read req (q_num "max_sessions") else ret max_sessions);;
      ret (r, n)
  end.

(** The value is read whether or not the message got through. *)
Definition ctc_get_sample_size : M (ct_errno_t * option Z) :=
  plain_call CTC_FUNC_TYPE_GET_SAMPLE_SIZE SERVER_PROC_ID false []
    (fun r q => n ← q_num "value" q; Some (r, Some n)) (ERR_ALLOC_MEMORY, None).

(** The request is freed, then its result is read. [after] reads the rest
    before. *)
Definition freed_call {A} (ft : CTC_FUNC_TYPE) (zero : bool) (args : list (string * arg))
    (t : ctc_handler_t) (after : request -> option A) (oom : A) (failed : ct_errno_t -> ct_errno_t)
  : M (ct_errno_t * A) :=
  t <-- bound_tch t;;
  req <-- alloc_req;;
  match req with
  | None => ret (ERR_ALLOC_MEMORY, oom)
  | Some req =>
      (if zero then mem_zero req else ret tt);;;
      puts req (args ++ [("tch", ATch t)]);;;
      r <-- ctc_mq_deal_func ft req (msg_buf t) SERVER_PROC_ID;;
      a <-- read req after;;
      free_share_mem req;;;
      c <-- (if decide (r = CT_SUCCESS) then read req (q_code "result") else ret (failed r));;
      ret (c, a)
  end.

(** The handler, and the error of the engine if it sent a message. *)
Definition back_error (q : request) : option (ctc_handler_t * option (Z * string)) :=
  t ← q_tch "tch" q;
  m ← q_text "error_message" q;
  if (0 <? String.length m)%nat
  then e ← q_num "error_code" q;
       Some (t, Some (e, String.substring 0 (Z.to_nat ERROR_MESSAGE_LEN) m))
  else Some (t, None).

Definition ctc_drop_tablespace_and_user (t : ctc_handler_t)
    (db_name sql_str user_name user_ip : string)
  : M (ct_errno_t * (ctc_handler_t * option (Z * string))) :=
  freed_call CTC_FUNC_TYPE_DROP_TABLESPACE_AND_USER true
    [("db_name", strncpy db_name (SMALL_RECORD_SIZE - 1));
     ("sql_str", strncpy sql_str (MAX_DDL_SQL_LEN - 1));
     ("user_name", strncpy user_name (SMALL_RECORD_SIZE - 1));
     ("user_ip", strncpy user_ip (SMALL_RECORD_SIZE - 1))] t back_error (t, None)
    (fun _ => ERR_CONNECTION_FAILED).

Definition ctc_pre_create_db (t : ctc_handler_t) (sql_str name : string)
    (datafile_size datafile_extend_size : Z) (datafile_autoextend : bool)
  : M (ct_errno_t * (ctc_handler_t * option (Z * string))) :=
  freed_call CTC_FUNC_PRE_CREATE_DB true
    [("sql_str", strncpy sql_str (MAX_DDL_SQL_LEN - 1));
     ("db_name", strncpy name (SMALL_RECORD_SIZE - 1));
     ("ctc_db_datafile_size", ANum datafile_size);
     ("ctc_db_datafile_autoextend", bool_arg datafile_autoextend);
     ("ctc_db_datafile_extend_size", ANum datafile_extend_size)] t back_error (t, None)
    (fun _ => ERR_CONNECTION_FAILED).

Definition ctc_get_index_paral_schedule (t : ctc_handler_t) (query_scn worker_count : Z)
    (index_name : string) (reverse is_index_full : bool) (scan_range paral_range : nat)
  : M (ct_errno_t * (ctc_handler_t * Z * Z)) :=
  freed_call CTC_FUNC_TYPE_GET_INDEX_PARAL_SCHEDULE true
    [("worker_count", ANum worker_count); ("index_name", AText index_name);
     ("scan_range", APtr (Some scan_range)); ("query_scn", ANum query_scn);
     ("reverse", bool_arg reverse); ("is_index_full", bool_arg is_index_full);
     ("index_paral_range", APtr (Some paral_range))] t
    (fun q => t ← q_tch "tch" q; s ← q_num "query_scn" q; w ← q_num "worker_count" q; Some (t, s, w))
    (t, query_scn, worker_count) id.

Definition ctc_pq_set_cursor_range (t : ctc_handler_t) (l_page r_page : list Z) (query_scn ssn : Z)
  : M (ct_errno_t * ctc_handler_t) :=
  freed_call CTC_FUNC_TYPE_PQ_SET_CURSOR_RANGE false
    [("l_page", ABytes l_page); ("r_page", ABytes r_page); ("query_scn", ANum query_scn);
     ("ssn", ANum ssn)] t (q_tch "tch") t id.

(** This one does it right. *)
Definition ctc_get_paral_schedule (t : ctc_handler_t) (query_scn ssn worker : Z) (paral_range : nat)
  : M (answer * (Z * Z * Z)) :=
  session_call CTC_FUNC_TYPE_GET_PARAL_SCHEDULE true
    [("query_scn", ANum query_scn); ("paral_range", APtr (Some paral_range));
     ("worker_count", ANum worker); ("ssn", ANum ssn)] t
    (fun t r q =>
       w ← q_num "worker_count" q; s ← q_num "query_scn" q; n ← q_num "ssn" q;
       a ← back t r q; Some (a, (s, n, w)))
    (fun t => (oom t, (query_scn, ssn, worker))).

End stub.

(** ** Large objects *)

(** The layout of the requests of LOB calls: a structure, then the data. *)
Class LobLayout := {
  lob_struct : request -> list Z;
  lob_fields : list Z -> request;      (* of the bytes of a structure *)
  sizeof_lob : CTC_FUNC_TYPE -> Z }.

Definition MAX_LOB_LOCATOR_SIZE : Z := 4000.
Definition OUTLINE_LOB_LOCATOR_SIZE : Z := 44.

Section lob.
Context {CH : Channel} {LL : LobLayout}.

(** Sends the structure and the data in one buffer and splits the answer. *)
Definition lob_call (ft : CTC_FUNC_TYPE) (args : list (string * arg)) (data : list Z)
  : M (ct_errno_t * request * list Z) :=
  let q := foldl (fun q '(f, a) => set_field f a q) (mk_req false ∅) args in
  let buf := lob_struct q ++ data in
  let reqSize := sizeof_lob ft + Z.of_nat (length data) in
  '(r, buf) <-- ctc_mq_batch_send_message ft buf reqSize reqSize;;
  s <-- lift (rd buf 0 (sizeof_lob ft));;
  ret (r, lob_fields s, drop (Z.to_nat (sizeof_lob ft)) buf).

Definition ctc_knl_write_lob (t : ctc_handler_t) (locator : list Z) (column_id : Z) (data : list Z)
    (force_outline : bool) : M (ct_errno_t * ctc_handler_t * list Z) :=
  t <-- bound_tch t;;
  '(r, q, _) <-- lob_call CTC_FUNC_TYPE_WRITE_LOB
    [("tch", ATch t); ("locator", ABytes locator); ("data_len", ANum (Z.of_nat (length data)));
     ("column_id", ANum column_id); ("force_outline", ANum (if force_outline then 1 else 0))] data;;
  t <-- lift (q_tch "tch" q);;
  if decide (r = CT_SUCCESS)
  then c <-- lift (q_code "result" q);;
       l <-- (if decide (c = CT_SUCCESS) then lift (q_bytes (length locator) "locator" q)
              else ret locator);;
       ret (c, t, l)
  else ret (ERR_CONNECTION_FAILED, t, locator).

(** [junk_data]: the contents of the buffer that is sent. *)
Definition ctc_knl_read_lob (t : ctc_handler_t) (locator : list Z) (offset size : Z)
    (junk_data buf : list Z) (read_size : Z) : M (ct_errno_t * Z * list Z) :=
  t <-- bound_tch t;;
  '(r, q, d) <-- lob_call CTC_FUNC_TYPE_READ_LOB
    [("tch", ATch t); ("locator", ABytes (take (Z.to_nat OUTLINE_LOB_LOCATOR_SIZE) locator));
     ("offset", ANum offset); ("size", ANum size)] junk_data;;
  if decide (r = CT_SUCCESS)
  then c <-- lift (q_code "result" q);;
       if decide (c = CT_SUCCESS)
       then n <-- lift (q_num "read_size" q);;
            assert (n <=? size);;;
            d <-- lift (rd d 0 n);;
            buf <-- lift (wr buf 0 d);;
            ret (c, n, buf)
       else ret (c, read_size, buf)
  else ret (ERR_CONNECTION_FAILED, read_size, buf).

End lob.

(** ** All calls *)

Inductive stub_call :=
  | Open_table (t : ctc_handler_t) (table_name user_name : string)
  | Close_session (t : ctc_handler_t)
  | Close_table (t : ctc_handler_t)
  | Scan_records (t : ctc_handler_t) (num_rows : Z) (index_name : option string)
  | Rnd_next (t : ctc_handler_t) (record : nat) (record_len : Z)
  | Rnd_init (t : ctc_handler_t) (action mode : Z) (cond : option nat)
  | Rnd_end (t : ctc_handler_t)
  | Rnd_pos (t : ctc_handler_t) (position : list Z) (pos_length : Z) (record : nat) (record_len : Z)
  | Delete_all_rows (t : ctc_handler_t) (flag : list Z)
  | Index_end (t : ctc_handler_t)
  | General_fetch (t : ctc_handler_t) (record : nat) (record_len : Z)
  | Index_read (t : ctc_handler_t) (record : nat) (record_len : Z) (i : index_key_info_t)
      (mode : Z) (cond : option nat) (is_replace : bool)
  | Pq_index_read (t : ctc_handler_t) (record : nat) (record_len : Z) (i : index_key_info_t)
      (scan_range : list Z) (mode : Z) (cond : option nat) (is_replace : bool) (query_scn : Z)
  | Trx_begin (t : ctc_handler_t) (trx_context : list Z) (is_mysql_local : bool)
      (begin_time : list Z) (enable_stat : bool)
  | Statistic_begin (t : ctc_handler_t) (begin_time : list Z) (enable_stat : bool)
  | Trx_commit (t : ctc_handler_t) (cursors : option nat) (csize : Z) (is_ddl_commit : bool)
      (sql_str : option string) (enable_stat : bool)
  | Statistic_commit (t : ctc_handler_t) (sql_str : option string) (enable_stat : bool)
  | Trx_rollback (t : ctc_handler_t) (cursors : option nat) (csize : Z)
  | Set_savepoint (t : ctc_handler_t) (name : string)
  | Rollback_savepoint (t : ctc_handler_t) (cursors : option nat) (csize : Z) (name : string)
  | Release_savepoint (t : ctc_handler_t) (name : string)
  | Free_session_cursors (t : ctc_handler_t) (cursors : option nat) (csize : Z)
  | Analyze_table (t : ctc_handler_t) (db_name table_name : string) (ratio : list Z)
  | Get_index_name (t : ctc_handler_t) (index_name : string)
  | Get_serial_value (t : ctc_handler_t) (value step offset : Z) (increase : bool)
  | Lock_table (t : ctc_handler_t) (db_name : option string) (lock_info : list Z) (error_code : Z)
  | Unlock_table (t : ctc_handler_t) (mysql_inst_id : Z) (lock_info : list Z)
  | Lock_instance (is_mysqld_starting : bool) (lock_type : Z) (t : ctc_handler_t)
  | Unlock_instance (is_mysqld_starting : bool) (t : ctc_handler_t)
  | Drop_db_pre_check (t : ctc_handler_t) (db_name : string) (error_code : Z) (error_message : string)
  | Execute_ddl_sql (t : ctc_handler_t) (b : broadcast) (allow_fail : bool)
  | Rewrite_sql (t : ctc_handler_t) (b : broadcast) (allow_fail : bool)
  | Record_sql (t : ctc_handler_t) (b : broadcast) (allow_fail : bool)
  | Set_opt (t : ctc_handler_t) (b : broadcast) (set_opt_info : list Z) (allow_fail : bool)
  | Dd_invalidate (t : ctc_handler_t) (err_code : Z) (rest : list Z)
  | Get_paral_schedule (t : ctc_handler_t) (query_scn ssn worker : Z) (paral_range : nat)
  | Wait_instance
  | Update_job (info : list Z)
  | Search_metadata (metadata_switch cluster_ready : Z)
  | Check_db_table_exists (db name : string) (is_exists : Z)
  | Query_cluster_role (is_slave cluster_ready : Z)
  | Update_sample_size (sample_size : Z) (need_persist : bool)
  | Query_shm_file_num (shm_file_num : Z)
  | Query_shm_usage (shm_usage : nat)
  | Query_sql_statistic_stat (enable_stat : bool)
  | Truncate_table (def ctrl : list Z) (msg_len : Z)
  | Rename_table (def ctrl : list Z) (msg_len : Z)
  | Drop_table (def ctrl : list Z) (msg_len : Z)
  | Create_tablespace (def ctrl : list Z) (msg_len : Z)
  | Alter_tablespace (def ctrl : list Z) (msg_len : Z)
  | Drop_tablespace (def ctrl : list Z) (msg_len : Z).

(** What a call asks the engine for. *)
Definition func_of (c : stub_call) : CTC_FUNC_TYPE :=
  match c with
  | Open_table _ _ _ => CTC_FUNC_TYPE_OPEN_TABLE | Close_session _ => CTC_FUNC_TYPE_CLOSE_SESSION
  | Close_table _ => CTC_FUNC_TYPE_CLOSE_TABLE | Scan_records _ _ _ => CTC_FUNC_TYPE_SCAN_RECORDS
  | Rnd_next _ _ _ => CTC_FUNC_TYPE_RND_NEXT | Rnd_init _ _ _ _ => CTC_FUNC_TYPE_RND_INIT
  | Rnd_end _ => CTC_FUNC_TYPE_RND_END | Rnd_pos _ _ _ _ _ => CTC_FUNC_TYPE_RND_POS
  | Delete_all_rows _ _ => CTC_FUNC_TYPE_DELETE_ALL_ROWS | Index_end _ => CTC_FUNC_TYPE_INDEX_END
  | General_fetch _ _ _ => CTC_FUNC_TYPE_GENERAL_FETCH
  | Index_read _ _ _ _ _ _ _ => CTC_FUNC_TYPE_INDEX_READ
  | Pq_index_read _ _ _ _ _ _ _ _ _ => CTC_FUNC_TYPE_PQ_INDEX_READ
  | Trx_begin _ _ _ _ _ => CTC_FUNC_TYPE_TRX_BEGIN
  | Statistic_begin _ _ _ => CTC_FUNC_TYPE_STATISTIC_BEGIN
  | Trx_commit _ _ _ _ _ _ => CTC_FUNC_TYPE_TRX_COMMIT
  | Statistic_commit _ _ _ => CTC_FUNC_TYPE_STATISTIC_COMMIT
  | Trx_rollback _ _ _ => CTC_FUNC_TYPE_TRX_ROLLBACK
  | Set_savepoint _ _ => CTC_FUNC_TYPE_SRV_SET_SAVEPOINT
  | Rollback_savepoint _ _ _ _ => CTC_FUNC_TYPE_SRV_ROLLBACK_SAVEPOINT
  | Release_savepoint _ _ => CTC_FUNC_TYPE_SRV_RELEASE_SAVEPOINT
  | Free_session_cursors _ _ _ => CTC_FUNC_TYPE_FREE_CURSORS
  | Analyze_table _ _ _ _ => CTC_FUNC_TYPE_ANALYZE
  | Get_index_name _ _ => CTC_FUNC_TYPE_GET_INDEX_NAME
  | Get_serial_value _ _ _ _ _ => CTC_FUNC_TYPE_GET_SERIAL_VALUE
  | Lock_table _ _ _ _ => CTC_FUNC_TYPE_LOCK_TABLE | Unlock_table _ _ _ => CTC_FUNC_TYPE_UNLOCK_TABLE
  | Lock_instance _ _ _ => CTC_FUNC_LOCK_INSTANCE | Unlock_instance _ _ => CTC_FUNC_UNLOCK_INSTANCE
  | Drop_db_pre_check _ _ _ _ => CTC_FUNC_DROP_DB_PRE_CHECK
  | Execute_ddl_sql _ _ _ => CTC_FUNC_TYPE_EXCUTE_MYSQL_DDL_SQL
  | Rewrite_sql _ _ _ => CTC_FUNC_TYPE_BROADCAST_REWRITE_SQL
  | Record_sql _ _ _ => CTC_FUNC_TYPE_RECORD_SQL | Set_opt _ _ _ _ => CTC_FUNC_TYPE_SET_OPT
  | Dd_invalidate _ _ _ => CTC_FUNC_TYPE_INVALIDATE_OBJECT
  | Get_paral_schedule _ _ _ _ _ => CTC_FUNC_TYPE_GET_PARAL_SCHEDULE
  | Wait_instance => CTC_FUNC_TYPE_WAIT_CONNETOR_STARTUPED
  | Update_job _ => CTC_FUNC_TYPE_UPDATE_JOB
  | Search_metadata _ _ => CTC_FUNC_SEARCH_METADATA_SWITCH
  | Check_db_table_exists _ _ _ => CTC_FUNC_CHECK_TABLE_EXIST
  | Query_cluster_role _ _ => CTC_FUNC_QUERY_CLUSTER_ROLE
  | Update_sample_size _ _ => CTC_FUNC_TYPE_UPDATE_SAMPLE_SIZE
  | Query_shm_file_num _ => CTC_FUNC_QUERY_SHM_FILE_NUM
  | Query_shm_usage _ => CTC_FUNC_QUERY_SHM_USAGE
  | Query_sql_statistic_stat _ => CTC_FUNC_QUERY_SQL_STATISTIC_STAT
  | Truncate_table _ _ _ => CTC_FUNC_TYPE_TRUNCATE_TABLE
  | Rename_table _ _ _ => CTC_FUNC_TYPE_RENAME_TABLE | Drop_table _ _ _ => CTC_FUNC_TYPE_DROP_TABLE
  | Create_tablespace _ _ _ => CTC_FUNC_TYPE_CREATE_TABLESPACE
  | Alter_tablespace _ _ _ => CTC_FUNC_TYPE_ALTER_TABLESPACE
  | Drop_tablespace _ _ _ => CTC_FUNC_TYPE_DROP_TABLESPACE
  end.

(** The registration of a server has a process of its own. *)
Definition server_of (c : stub_call) : Z :=
  match c with
  | Wait_instance | Query_shm_file_num _ | Query_sql_statistic_stat _ => SERVER_REGISTER_PROC_ID
  | _ => SERVER_PROC_ID
  end.

Definition session_of (c : stub_call) : option ctc_handler_t :=
  match c with
  | Open_table t _ _ | Close_session t | Close_table t | Scan_records t _ _ | Rnd_next t _ _
  | Rnd_init t _ _ _ | Rnd_end t | Rnd_pos t _ _ _ _ | Delete_all_rows t _ | Index_end t
  | General_fetch t _ _ | Index_read t _ _ _ _ _ _ | Pq_index_read t _ _ _ _ _ _ _ _
  | Trx_begin t _ _ _ _ | Statistic_begin t _ _ | Trx_commit t _ _ _ _ _
  | Statistic_commit t _ _ | Trx_rollback t _ _ | Set_savepoint t _ | Rollback_savepoint t _ _ _
  | Release_savepoint t _ | Free_session_cursors t _ _ | Analyze_table t _ _ _
  | Get_index_name t _ | Get_serial_value t _ _ _ _ | Lock_table t _ _ _ | Unlock_table t _ _
  | Lock_instance _ _ t | Unlock_instance _ t | Drop_db_pre_check t _ _ _
  | Execute_ddl_sql t _ _ | Rewrite_sql t _ _ | Record_sql t _ _ | Set_opt t _ _ _
  | Dd_invalidate t _ _ | Get_paral_schedule t _ _ _ _ => Some t
  | _ => None
  end.

Abbreviation outcome := (ct_errno_t * option ctc_handler_t)%type.

Section all.
Context {CH : Channel} {DL : DdlLayout}.

(** The result of a call and, where it is passed back, the handler. *)
Definition fmap_m {A B} (f : A -> B) (m : M A) : M B := x <-- m;; ret (f x).

Definition o_back (a : answer) : outcome := (fst a, Some (snd a)).
Definition o_back2 {B} (a : answer * B) : outcome := o_back (fst a).
Definition o_back3 {B C} (a : answer * B * C) : outcome := o_back2 (fst a).
Definition o_only (a : answer) : outcome := (fst a, None).
Definition o_code (c : ct_errno_t) : outcome := (c, None).
Definition o_code2 {B} (a : ct_errno_t * B) : outcome := (fst a, None).

Definition exec (c : stub_call) : M outcome :=
  match c with
  | Open_table t n u => fmap_m o_back (ctc_open_table t n u)
  | Close_session t => fmap_m o_back (ctc_close_session t)
  | Close_table t => fmap_m o_back (ctc_close_table t)
  | Scan_records t n i => fmap_m o_back2 (ctc_scan_records t n i)
  | Rnd_next t r l => fmap_m o_back2 (ctc_rnd_next t r l)
  | Rnd_init t a m c => fmap_m o_back (ctc_rnd_init t a m c)
  | Rnd_end t => fmap_m o_back (ctc_rnd_end t)
  | Rnd_pos t p n r l => fmap_m (fun a => o_only (fst a)) (ctc_rnd_pos t p n r l)
  | Delete_all_rows t f => fmap_m o_back (ctc_delete_all_rows t f)
  | Index_end t => fmap_m o_back (ctc_index_end t)
  | General_fetch t r l => fmap_m o_back2 (ctc_general_fetch t r l)
  | Index_read t r l i m c b => fmap_m o_back3 (ctc_index_read t r l (Some i) m c b)
  | Pq_index_read t r l i g m c b s => fmap_m o_back3 (ctc_pq_index_read t r l (Some i) g m c b s)
  | Trx_begin t x l b e => fmap_m o_back (ctc_trx_begin t x l b e)
  | Statistic_begin t b e => fmap_m o_back (ctc_statistic_begin t b e)
  | Trx_commit t c n d s e => fmap_m (fun a => o_only (fst a)) (ctc_trx_commit t c n d s e)
  | Statistic_commit t s e => fmap_m o_only (ctc_statistic_commit t s e)
  | Trx_rollback t c n => fmap_m o_only (ctc_trx_rollback t c n)
  | Set_savepoint t n => fmap_m o_only (ctc_srv_set_savepoint t n)
  | Rollback_savepoint t c n s => fmap_m o_only (ctc_srv_rollback_savepoint t c n s)
  | Release_savepoint t n => fmap_m o_only (ctc_srv_release_savepoint t n)
  | Free_session_cursors t c n => fmap_m o_back (ctc_free_session_cursors t c n)
  | Analyze_table t d n r => fmap_m o_back (ctc_analyze_table t d n r)
  | Get_index_name t n => fmap_m (fun a => o_only (fst a)) (ctc_get_index_name t n)
  | Get_serial_value t v s o i => fmap_m o_back2 (ctc_get_serial_value t v s o i)
  | Lock_table t d l e => fmap_m o_back2 (ctc_lock_table t d l e)
  | Unlock_table t n l => fmap_m o_back (ctc_unlock_table t n l)
  | Lock_instance s l t => fmap_m o_back (ctc_lock_instance s l t)
  | Unlock_instance s t => fmap_m o_back (ctc_unlock_instance s t)
  | Drop_db_pre_check t d e m => fmap_m o_back3 (ctc_drop_db_pre_check t d e m)
  | Execute_ddl_sql t b f => fmap_m o_back2 (ctc_execute_mysql_ddl_sql t b f)
  | Rewrite_sql t b f => fmap_m o_back2 (ctc_broadcast_rewrite_sql t b f)
  | Record_sql t b f => fmap_m o_back2 (ctc_record_sql_for_cantian t b f)
  | Set_opt t b o f => fmap_m o_back2 (ctc_execute_set_opt t b o f)
  | Dd_invalidate t e r => fmap_m o_back2 (ctc_broadcast_mysql_dd_invalidate t e r)
  | Get_paral_schedule t q s w p => fmap_m o_back2 (ctc_get_paral_schedule t q s w p)
  | Wait_instance => fmap_m o_code srv_wait_instance_startuped
  | Update_job i => fmap_m o_code (ctc_update_job i)
  | Search_metadata m c => fmap_m o_code2 (ctc_search_metadata_status m c)
  | Check_db_table_exists d n e => fmap_m o_code2 (ctc_check_db_table_exists d n e)
  | Query_cluster_role s c => fmap_m o_code2 (ctc_query_cluster_role s c)
  | Update_sample_size s p => fmap_m o_code (ctc_update_sample_size s p)
  | Query_shm_file_num n => fmap_m o_code2 (ctc_query_shm_file_num n)
  | Query_shm_usage p => fmap_m o_code (ctc_query_shm_usage p)
  | Query_sql_statistic_stat e => fmap_m o_code2 (ctc_query_sql_statistic_stat e)
  | Truncate_table d c n => fmap_m o_code2 (ctc_truncate_table d c n)
  | Rename_table d c n => fmap_m o_code2 (ctc_rename_table d c n)
  | Drop_table d c n => fmap_m o_code2 (ctc_drop_table d c n)
  | Create_tablespace d c n => fmap_m o_code2 (ctc_create_tablespace d c n)
  | Alter_tablespace d c n => fmap_m o_code2 (ctc_alter_tablespace d c n)
  | Drop_tablespace d c n => fmap_m o_code2 (ctc_drop_tablespace d c n)
  end.

(** Where the engine's result is in its answer. *)
Definition engine_result (c : stub_call) (q : request) : option ct_errno_t :=
  match c with
  | Wait_instance | Update_sample_size _ _ => Some CT_SUCCESS
  | Truncate_table _ ctrl _ | Rename_table _ ctrl _ | Drop_table _ ctrl _
  | Create_tablespace _ ctrl _ | Alter_tablespace _ ctrl _ | Drop_tablespace _ ctrl _ =>
      ddl_error_code <$> q_bytes (length ctrl) "ddl_ctrl" q
  | _ => q_code "result" q
  end.

(** The arguments that callers pass: limits asserted by the functions. *)
Definition call_ok (c : stub_call) : Prop :=
  match c with
  | Rnd_pos _ _ pos_length _ _ => pos_length < SMALL_RECORD_SIZE
  | Index_read _ _ _ i _ _ _ => is_Some (copy_index_info_to_req i)
  | Truncate_table _ _ n | Rename_table _ _ n | Drop_table _ _ n
  | Create_tablespace _ _ n | Alter_tablespace _ _ n | Drop_tablespace _ _ n =>
      n + sizeof_ddl_ctrl < REQUEST_SIZE
  | _ => True
  end.

End all.

(** ** Fields of requests *)

(** The last value given to a field. *)
Fixpoint assoc (f : string) (args : list (string * arg)) : option arg :=
  match args with
  | [] => None
  | (g, a) :: args =>
      match assoc f args with
      | Some b => Some b
      | None => if String.eqb g f then Some a else None
      end
  end.

Definition set_fields (q : request) (args : list (string * arg)) : request :=
  foldl (fun q '(f, a) => set_field f a q) q args.

Definition args_req (zero : bool) (args : list (string * arg)) : request :=
  set_fields (mk_req zero ∅) args.

Lemma fields_set_fields args : forall q f,
  fields (set_fields q args) !! f
  = match assoc f args with Some a => Some a | None => fields q !! f end.
Proof.
  induction args as [|[g a] args IH]; intros q f; [done|]. cbn [set_fields foldl assoc].
  change (foldl _ _ args) with (set_fields (set_field g a q) args). rewrite IH.
  destruct (assoc f args); [done|]. cbn [set_field fields].
  destruct (String.eqb_spec g f) as [->|]; [by rewrite lookup_insert_eq|by rewrite lookup_insert_ne].
Qed.

Lemma zeroed_set_fields args : forall q, zeroed (set_fields q args) = zeroed q.
Proof.
  induction args as [|[g a] args IH]; intros q; [done|]. cbn [set_fields foldl].
  change (foldl _ _ args) with (set_fields (set_field g a q) args). by rewrite IH.
Qed.

Lemma lookup_args_req k f zero args :
  lookup_field k f (args_req zero args)
  = match assoc f args with
    | Some a => if decide (kind_of a = k) then Some a else None
    | None => if zero then Some (zero_of k) else None
    end.
Proof.
  unfold lookup_field, args_req. rewrite fields_set_fields, zeroed_set_fields. cbn [fields zeroed].
  by destruct (assoc f args).
Qed.

Lemma assoc_app_last f args a : assoc f (args ++ [(f, a)]) = Some a.
Proof.
  induction args as [|[g b] args IH]; cbn; [by rewrite String.eqb_refl|]. by rewrite IH.
Qed.

Lemma lookup_kind k f q b : fields q !! f = Some b -> kind_of b = k -> lookup_field k f q = Some b.
Proof. intros H <-. unfold lookup_field. rewrite H. by rewrite decide_True. Qed.

Section answers.
Context {CH : Channel} {CL : ChannelLaws CH}.

(** The field has the type [k] in the answer. *)
Definition field_ok (k : kind) (ft : CTC_FUNC_TYPE) (f : string) (args : list (string * arg)) : Prop :=
  match assoc f args with Some a => kind_of a = k | None => In (f, k) (reply_of ft) end.

Lemma served_field k ft f zero args :
  field_ok k ft f args ->
  exists b, lookup_field k f (serve ft (args_req zero args)) = Some b /\ kind_of b = k.
Proof.
  unfold field_ok. intros H.
  assert (exists b, fields (serve ft (args_req zero args)) !! f = Some b /\ kind_of b = k) as (b & Hb & Hk).
  { pose proof (fields_set_fields args (mk_req zero ∅) f) as Hf.
    change (set_fields _ _) with (args_req zero args) in Hf. cbn [fields] in Hf.
    destruct (assoc f args) as [a|] eqn:E.
    - rewrite <- H. by apply serve_keeps.
    - apply serve_fills; [done|]. intros a Ha. rewrite Ha in Hf. done. }
  exists b. split; [by apply lookup_kind|done].
Qed.

Ltac served H := intros H; match type of H with
  field_ok ?k ?ft ?f ?args =>
    match goal with |- context [serve ft (args_req ?zero args)] =>
      destruct (served_field k ft f zero args H) as (b & Hb & Hk);
      destruct b; try discriminate Hk; rewrite Hb
    end end.

Lemma served_tch ft f zero args : field_ok KTch ft f args ->
  exists t, q_tch f (serve ft (args_req zero args)) = Some t.
Proof. unfold q_tch. served H. by eexists. Qed.

Lemma served_code ft f zero args : field_ok KCode ft f args ->
  exists c, q_code f (serve ft (args_req zero args)) = Some c.
Proof. unfold q_code. served H. by eexists. Qed.

Lemma served_num ft f zero args : field_ok KNum ft f args ->
  exists z, q_num f (serve ft (args_req zero args)) = Some z.
Proof. unfold q_num. served H. by eexists. Qed.

Lemma served_u16 ft f zero args : field_ok KU16 ft f args ->
  exists z, q_u16 f (serve ft (args_req zero args)) = Some z /\ z < BIG_RECORD_SIZE.
Proof.
  intros H. assert (exists z, q_u16 f (serve ft (args_req zero args)) = Some z) as [z Hz].
  { revert H. unfold q_u16. served H. by eexists. }
  exists z. split; [done|]. apply serve_u16 in Hz. unfold BIG_RECORD_SIZE. lia.
Qed.

Lemma served_text ft f zero args : field_ok KText ft f args ->
  exists s, q_text f (serve ft (args_req zero args)) = Some s.
Proof. unfold q_text. served H. by eexists. Qed.

Lemma served_ptr ft f zero args : field_ok KPtr ft f args ->
  exists p, q_ptr f (serve ft (args_req zero args)) = Some p.
Proof. unfold q_ptr. served H. by eexists. Qed.

Lemma served_bytes n ft f zero args : field_ok (KBytes n) ft f args ->
  exists l, q_bytes n f (serve ft (args_req zero args)) = Some l.
Proof. unfold q_bytes. served H. by eexists. Qed.

(** The handler that was sent. *)
Lemma args_tch zero args t : q_tch "tch" (args_req zero (args ++ [("tch", ATch t)])) = Some t.
Proof.
  unfold q_tch. rewrite lookup_args_req, assoc_app_last. by rewrite decide_True.
Qed.

Lemma field_tch ft args t : field_ok KTch ft "tch" (args ++ [("tch", ATch t)]).
Proof. unfold field_ok. by rewrite assoc_app_last. Qed.

(** ** One request *)

Lemma put_eq s p q f a : blocks s !! p = Some (BReq q) ->
  put p f a s = Some (tt, set_blocks (<[p := BReq (set_field f a q)]> (blocks s)) s).
Proof.
  intros Hq. unfold put. rewrite (bind_eq _ _ _ _ _ (load_req_eq _ _ _ Hq)).
  by rewrite (store_eq _ _ _ _ Hq).
Qed.

Lemma puts_eq args : forall s p q,
  blocks s !! p = Some (BReq q) ->
  puts p args s = Some (tt, set_blocks (<[p := BReq (set_fields q args)]> (blocks s)) s).
Proof.
  induction args as [|[f a] args IH]; intros s p q Hq; cbn [puts].
  - unfold ret, set_blocks. cbn. rewrite insert_id by done. by destruct s.
  - rewrite (bind_eq _ _ _ _ _ (put_eq _ _ _ f a Hq)). rewrite (IH _ p (set_field f a q)).
    + unfold set_blocks. cbn. by rewrite insert_insert_eq.
    + cbn. by rewrite lookup_insert_eq.
Qed.

Lemma read_eq {A} s p q (g : request -> option A) a :
  blocks s !! p = Some (BReq q) -> g q = Some a -> read p g s = Some (a, s).
Proof.
  intros Hq Ha. unfold read. rewrite (bind_eq _ _ _ _ _ (load_req_eq _ _ _ Hq)). by rewrite Ha.
Qed.

Definition transport_failure (r : ct_errno_t) : Prop :=
  r = ERR_ALLOC_MEMORY \/ r = ERR_SEM_FAULT \/ r = ERR_SHM_SEND_MSG_FAILED.

(** A state with a new block; without it again. *)
Lemma wf_new s b : wf s -> (forall m, b = BMsg m -> sem m = 0%nat) -> forall t,
  wf (mk_shm (<[next s := b]> (blocks s)) (S (next s)) (pending s) (served s) t).
Proof.
  intros [A B C] Hb t. split; cbn; [done| |].
  - intros p m. destruct (decide (next s = p)) as [<-|];
      [rewrite lookup_insert_eq; intros ?; simplify_eq; by apply Hb|rewrite lookup_insert_ne by done; apply B].
  - intros p Hp. rewrite lookup_insert_ne by lia. apply C. lia.
Qed.

Lemma wf_free s p : wf s -> wf (set_blocks (delete p (blocks s)) s).
Proof.
  intros [A B C]. split; cbn; [done| |].
  - intros r m. rewrite lookup_delete_Some. intros [_ ?]. eauto.
  - intros r Hr. rewrite lookup_delete_None. right. by apply C.
Qed.

Lemma wf_store s p x : wf s -> is_Some (blocks s !! p) ->
  match x with BMsg _ => False | _ => True end -> wf (set_blocks (<[p := x]> (blocks s)) s).
Proof.
  intros [A B C] [y Hy] Hx. split; cbn; [done| |].
  - intros r m. destruct (decide (p = r)) as [->|].
    + rewrite lookup_insert_eq. intros ?. by simplify_eq.
    + rewrite lookup_insert_ne by done. apply B.
  - intros r Hr. rewrite lookup_insert_ne; [by apply C|]. intros ->. rewrite C in Hy; done.
Qed.

Section calm.
Hypothesis calm : forall t, interrupted t = false.

(** Memory and the messages after a call that answered [a]. *)
Definition called (s s' : shm) (sent : list (CTC_FUNC_TYPE * Z * payload)) : Prop :=
  wf s' /\ same_mem (blocks s) (blocks s') /\ served s' = served s ++ sent.

(** The request is allocated and filled. *)
Lemma prepare_eq {A} (zero : bool) args (oom : A) (k : nat -> M A) buf s :
  wf s -> msg_ok buf s -> shm_alloc_ok (tick s) = true ->
  exists s3,
    (req <-- alloc_req;;
     match req with
     | None => ret oom
     | Some req => (if zero then mem_zero req else ret tt);;; puts req args;;; k req
     end) s = k (next s) s3 /\
    wf s3 /\ blocks s !! next s = None /\
    blocks s3 = <[next s := BReq (args_req zero args)]> (blocks s) /\
    served s3 = served s /\ msg_ok buf s3.
Proof.
  intros Hw Hb Ha. unfold bind at 1, alloc_req, alloc_share_mem. rewrite Ha.
  set (req := next s).
  assert (blocks s !! req = None) as Hn by (by apply (wf_next s Hw)).
  set (s1 := mk_shm (<[req := _]> (blocks s)) _ _ _ _).
  assert (wf s1) as Hw1 by (apply wf_new; [done|discriminate]).
  assert (blocks s1 !! req = Some (BReq (mk_req false ∅))) as Hq1 by (cbn; by rewrite lookup_insert_eq).
  assert (exists s2, (if zero then mem_zero req else ret tt) s1 = Some (tt, s2) /\ wf s2 /\
    blocks s2 = <[req := BReq (mk_req zero ∅)]> (blocks s) /\ served s2 = served s) as (s2 & E2 & Hw2 & Hb2 & Hs2).
  { destruct zero; [|by exists s1]. eexists. unfold mem_zero. rewrite (store_eq _ _ _ _ Hq1).
    split; [done|]. split; [apply wf_store; [done|by rewrite Hq1|done]|].
    cbn. by rewrite insert_insert_eq. }
  rewrite (bind_eq _ _ _ _ _ E2).
  assert (blocks s2 !! req = Some (BReq (mk_req zero ∅))) as Hq2 by (rewrite Hb2; by rewrite lookup_insert_eq).
  rewrite (bind_eq _ _ _ _ _ (puts_eq args _ _ _ Hq2)). change (set_fields _ args) with (args_req zero args).
  eexists. split; [reflexivity|]. split; [apply wf_store; [done|by rewrite Hq2|done]|].
  split; [done|]. cbn. rewrite Hb2, insert_insert_eq. split; [done|]. split; [done|].
  destruct buf as [p|]; [|done]. destruct Hb as [m Hm]. exists m. cbn. rewrite lookup_insert_ne; [done|].
  intros e. rewrite <- e in Hm. congruence.
Qed.

Lemma request_call_ok {A} ft srv zero args buf (after : ct_errno_t -> request -> option A) oom s :
  wf s -> msg_ok buf s ->
  (forall r, transport_failure r -> is_Some (after r (args_req zero args))) ->
  is_Some (after CT_SUCCESS (serve ft (args_req zero args))) ->
  exists a s', request_call ft srv zero args buf after oom s = Some (a, s') /\
    (~ reliable /\ called s s' [] /\ (a = oom \/ exists r, transport_failure r /\ after r (args_req zero args) = Some a) \/
     called s s' [(ft, srv, PReq (args_req zero args))] /\
     after CT_SUCCESS (serve ft (args_req zero args)) = Some a).
Proof.
  intros Hw Hb Hf Ha. destruct (shm_alloc_ok (tick s)) eqn:Ea.
  2:{ unfold request_call, bind at 1, alloc_req, alloc_share_mem. rewrite Ea.
      eexists _, _. split; [done|]. left. split; [intros H; destruct (H (tick s)) as (? & _); congruence|].
      split; [|by left]. unfold called. cbn.
      split; [destruct Hw; by split|]. split; [reflexivity|by rewrite app_nil_r]. }
  unfold request_call.
  destruct (prepare_eq zero args oom (fun req => r <-- ctc_mq_deal_func ft req buf srv;;
    a <-- read req (after r);; free_share_mem req;;; ret a) buf s Hw Hb Ea)
    as (s3 & -> & Hw3 & Hn & Hb3 & Hs3 & Hm3).
  set (req := next s) in *. set (q := args_req zero args) in *.
  assert (blocks s3 !! req = Some (BReq q)) as Hq3 by (rewrite Hb3; by rewrite lookup_insert_eq).
  destruct (deal_func_dealt calm ft req buf srv q s3 Hw3 Hm3 Hq3) as (r & s4 & E4 & Hw4 & Hn4 & Hd).
  rewrite (bind_eq _ _ _ _ _ E4).
  assert (forall q' a, same_mem (<[req := BReq q']> (blocks s)) (blocks s4) -> after r q' = Some a ->
    bind (read req (after r)) (fun a => free_share_mem req;;; ret a) s4
    = Some (a, set_blocks (delete req (blocks s4)) s4) /\
    same_mem (blocks s) (delete req (blocks s4))) as Hend.
  { intros q' a Hsm Hq'.
    assert (blocks s4 !! req = Some (BReq q')) as Hq4.
    { specialize (Hsm req). rewrite lookup_insert_eq in Hsm. exact (eq_sym Hsm). }
    split; [|by apply same_mem_new with (x := BReq q')].
    rewrite (bind_eq _ _ _ _ _ (read_eq _ _ _ _ _ Hq4 Hq')).
    by rewrite (bind_eq _ _ _ _ _ (free_eq _ _ _ Hq4)). }
  destruct Hd as [(Hr & Hsm & Hsv & Hrel)|(-> & Hsm & Hsv & _)].
  - destruct (Hf r Hr) as [a Haa]. rewrite Hb3 in Hsm. destruct (Hend q a Hsm Haa) as [E Hsame].
    eexists a, _. split; [exact E|]. left. split; [done|]. split; [|right; by exists r].
    split; [by apply wf_free|]. split; [done|]. cbn. rewrite Hsv. by rewrite Hs3, app_nil_r.
  - destruct Ha as [a Haa]. rewrite Hb3, insert_insert_eq in Hsm.
    destruct (Hend _ a Hsm Haa) as [E Hsame].
    eexists a, _. split; [exact E|]. right. split; [|done].
    split; [by apply wf_free|]. split; [done|]. cbn. rewrite Hsv. by rewrite Hs3.
Qed.

(** Reading an answer that the request does not have. *)
Lemma request_call_unsent {A} ft srv zero args buf (after : ct_errno_t -> request -> option A) oom s :
  (forall t, shm_alloc_ok t = true) -> (forall t, shm_send_ok t = false) ->
  wf s -> msg_ok buf s ->
  (forall r, transport_failure r -> after r (args_req zero args) = None) ->
  request_call ft srv zero args buf after oom s = None.
Proof.
  intros Hal Hse Hw Hb Hf. unfold request_call.
  destruct (prepare_eq zero args oom (fun req => r <-- ctc_mq_deal_func ft req buf srv;;
    a <-- read req (after r);; free_share_mem req;;; ret a) buf s Hw Hb (Hal _))
    as (s3 & -> & Hw3 & Hn & Hb3 & Hs3 & Hm3).
  assert (blocks s3 !! next s = Some (BReq (args_req zero args))) as Hq3
    by (rewrite Hb3; by rewrite lookup_insert_eq).
  destruct (deal_func_dealt calm ft (next s) buf srv _ s3 Hw3 Hm3 Hq3) as (r & s4 & E4 & Hw4 & Hn4 & Hd).
  rewrite (bind_eq _ _ _ _ _ E4).
  destruct Hd as [(Hr & Hsm & _)|(_ & _ & _ & t & Ht)]; [|by rewrite Hse in Ht].
  specialize (Hsm (next s)). rewrite Hq3 in Hsm. apply eq_sym in Hsm. cbn in Hsm.
  unfold bind, read, bind. rewrite (load_req_eq _ _ _ Hsm). by rewrite Hf.
Qed.

End calm.
End answers.

(** ** All calls are safe *)

Section safe.
Context {CH : Channel} {CL : ChannelLaws CH} {DL : DdlLayout}.

(** The handler as it is sent, bound to its processors. *)
Definition bound_of (t : ctc_handler_t) : ctc_handler_t :=
  match get_one_shm_inst (Some t) with Some (_, Some t) => t | _ => t end.

Lemma bound_tch_eq t s : bound_tch t s = Some (bound_of t, s).
Proof.
  unfold bound_tch, bound_of, bind, lift, ret, get_one_shm_inst.
  destruct (g_shm_file_num =? 0) eqn:E; zb; [by pose proof shm_files|done].
Qed.

Lemma msg_buf_bound t : msg_buf (bound_of t) = msg_buf t.
Proof.
  unfold bound_of, get_one_shm_inst. destruct (g_shm_file_num =? 0); [done|].
  by destruct (negb _ && negb _).
Qed.

(** The transport failed: the engine got nothing. *)
Definition failure_code (c : ct_errno_t) : Prop := transport_failure c \/ c = ERR_CONNECTION_FAILED.

(** What a call leaves behind: the memory as it was, and either a failure and
    no message, or one message with the handler, to the right function, and
    the engine's result and handler. *)
Definition verdict (c : stub_call) (s s' : shm) (o : outcome) : Prop :=
  (~ reliable /\ called s s' [] /\ failure_code (fst o) /\
   forall t, snd o = Some t -> bound_of <$> session_of c = Some t) \/
  exists q, called s s' [(func_of c, server_of c, PReq q)] /\
    (forall t, session_of c = Some t -> q_tch "tch" q = Some (bound_of t)) /\
    engine_result c (serve (func_of c) q) = Some (fst o) /\
    forall t, snd o = Some t -> q_tch "tch" (serve (func_of c) q) = Some t.

Hypothesis calm : forall t, interrupted t = false.

Lemma fmap_m_eq {A B} (f : A -> B) (m : M A) s a s' :
  m s = Some (a, s') -> fmap_m f m s = Some (f a, s').
Proof. intros H. unfold fmap_m. by rewrite (bind_eq _ _ _ _ _ H). Qed.

Lemma session_exec {A} c t ft zero args (after : ctc_handler_t -> ct_errno_t -> request -> option A)
    oom (pr : A -> outcome) s :
  session_of c = Some t -> func_of c = ft -> server_of c = SERVER_PROC_ID ->
  wf s -> msg_ok (msg_buf t) s ->
  let q := args_req zero (args ++ [("tch", ATch (bound_of t))]) in
  (forall r, transport_failure r -> exists a, after (bound_of t) r q = Some a /\
     failure_code (fst (pr a)) /\ forall t', snd (pr a) = Some t' -> t' = bound_of t) ->
  (exists a, after (bound_of t) CT_SUCCESS (serve ft q) = Some a /\
     engine_result c (serve ft q) = Some (fst (pr a)) /\
     forall t', snd (pr a) = Some t' -> q_tch "tch" (serve ft q) = Some t') ->
  failure_code (fst (pr (oom (bound_of t)))) /\
    (forall t', snd (pr (oom (bound_of t))) = Some t' -> t' = bound_of t) ->
  exists o s', fmap_m pr (session_call ft zero args t after oom) s = Some (o, s') /\ verdict c s s' o.
Proof.
  intros Hc Hft Hsrv Hw Hb q Hf (a0 & Ha0 & Hr0 & Ht0) [Ho1 Ho2].
  destruct (request_call_ok calm ft SERVER_PROC_ID zero (args ++ [("tch", ATch (bound_of t))])
    (msg_buf (bound_of t)) (after (bound_of t)) (oom (bound_of t)) s) as (a & s' & E & H); [done| | | |].
  - by rewrite msg_buf_bound.
  - intros r Hr. destruct (Hf r Hr) as (a & Ha & _). by eexists.
  - by eexists.
  - exists (pr a), s'. split.
    { apply fmap_m_eq. unfold session_call. by rewrite (bind_eq _ _ _ _ _ (bound_tch_eq t s)). }
    unfold verdict. rewrite Hc, Hft, Hsrv. cbn.
    destruct H as [(Hrel & Hd & [->|(r & Hr & Ha)])|[Hd Ha]].
    + left. split; [done|]. split; [done|]. split; [done|]. intros t' H. by rewrite (Ho2 t' H).
    + left. destruct (Hf r Hr) as (a' & Ha' & H1 & H2). fold q in Ha. rewrite Ha in Ha'. injection Ha' as <-.
      split; [done|]. split; [done|]. split; [done|]. intros t' H. by rewrite (H2 t' H).
    + right. exists q. fold q in Ha. rewrite Ha0 in Ha. injection Ha as <-.
      split; [done|]. split; [|done]. intros ? [= <-]. apply args_tch.
Qed.

Lemma plain_exec {A} c ft srv zero args (after : ct_errno_t -> request -> option A) oom
    (pr : A -> outcome) s :
  session_of c = None -> func_of c = ft -> server_of c = srv -> wf s ->
  let q := args_req zero args in
  (forall r, transport_failure r -> exists a, after r q = Some a /\
     failure_code (fst (pr a)) /\ snd (pr a) = None) ->
  (exists a, after CT_SUCCESS (serve ft q) = Some a /\
     engine_result c (serve ft q) = Some (fst (pr a)) /\ snd (pr a) = None) ->
  failure_code (fst (pr oom)) /\ snd (pr oom) = None ->
  exists o s', fmap_m pr (plain_call ft srv zero args after oom) s = Some (o, s') /\ verdict c s s' o.
Proof.
  intros Hc Hft Hsrv Hw q Hf (a0 & Ha0 & Hr0 & Ht0) [Ho1 Ho2].
  destruct (request_call_ok calm ft srv zero args None after oom s) as (a & s' & E & H); [done|done| | |].
  - intros r Hr. destruct (Hf r Hr) as (a & Ha & _). by eexists.
  - by eexists.
  - exists (pr a), s'. split.
    { apply fmap_m_eq. unfold plain_call, get_one_shm_inst.
      destruct (g_shm_file_num =? 0) eqn:Eg; zb; [by pose proof shm_files|]. exact E. }
    unfold verdict. rewrite Hc, Hft, Hsrv.
    destruct H as [(Hrel & Hd & [->|(r & Hr & Ha)])|[Hd Ha]].
    + left. split; [done|]. split; [done|]. split; [done|]. by rewrite Ho2.
    + left. destruct (Hf r Hr) as (a' & Ha' & H1 & H2). fold q in Ha. rewrite Ha in Ha'. injection Ha' as <-.
      split; [done|]. split; [done|]. split; [done|]. by rewrite H2.
    + right. exists q. fold q in Ha. rewrite Ha0 in Ha. injection Ha as <-.
      split; [done|]. split; [done|]. split; [done|]. by rewrite Ht0.
Qed.

Lemma result_of_failed r q : transport_failure r -> result_of r q = Some ERR_CONNECTION_FAILED.
Proof. unfold result_of. by intros [->|[->| ->]]. Qed.

Lemma transport_not_success r : transport_failure r -> r <> CT_SUCCESS.
Proof. by intros [->|[->| ->]]. Qed.

#[local] Arguments strncpy : simpl never.
#[local] Arguments pos_arg : simpl never.
#[local] Arguments String.substring : simpl never.
#[local] Arguments Z.to_nat : simpl never.

(** Fields of the request that was sent. *)
Ltac sent_fields :=
  repeat first
    [ rewrite args_tch
    | rewrite (decide_False (P := ERR_CONNECTION_FAILED = CT_SUCCESS)) by done
    | progress unfold q_num, q_text, q_code, q_u16, q_ptr, q_bytes
    | rewrite lookup_args_req
    | progress cbn ].

Ltac failed :=
  let r := fresh "r" in let Hr := fresh "Hr" in
  intros r Hr;
  unfold back_num, back_len, back_read, back_len, back_broadcast, back, no_back, result_nums;
  rewrite ?(result_of_failed r _ Hr);
  rewrite ?(decide_False (P := r = CT_SUCCESS)) by (by apply transport_not_success);
  sent_fields; eexists; split; [reflexivity|]; cbn;
  split; [first [by right | by left]|try done; intros ? [= <-]; reflexivity].

Ltac field := first [apply field_tch | unfold field_ok; cbn; tauto].

Ltac served :=
  repeat match goal with
  | |- context [q_tch ?f (serve ?ft (args_req ?z ?args))] =>
      let x := fresh "t" in let E := fresh "E" in
      destruct (served_tch ft f z args) as [x E]; [field|rewrite !E]
  | |- context [q_code ?f (serve ?ft (args_req ?z ?args))] =>
      let x := fresh "c" in let E := fresh "E" in
      destruct (served_code ft f z args) as [x E]; [field|rewrite !E]
  | |- context [q_num ?f (serve ?ft (args_req ?z ?args))] =>
      let x := fresh "z" in let E := fresh "E" in
      destruct (served_num ft f z args) as [x E]; [field|rewrite !E]
  | |- context [q_u16 ?f (serve ?ft (args_req ?z ?args))] =>
      let x := fresh "z" in let E := fresh "E" in let L := fresh "L" in
      destruct (served_u16 ft f z args) as (x & E & L); [field|rewrite !E; apply Z.ltb_lt in L]
  | |- context [q_text ?f (serve ?ft (args_req ?z ?args))] =>
      let x := fresh "s" in let E := fresh "E" in
      destruct (served_text ft f z args) as [x E]; [field|rewrite !E]
  | |- context [q_ptr ?f (serve ?ft (args_req ?z ?args))] =>
      let x := fresh "p" in let E := fresh "E" in
      destruct (served_ptr ft f z args) as [x E]; [field|rewrite !E]
  | |- context [decide (CT_SUCCESS = CT_SUCCESS)] => rewrite (decide_True (P := CT_SUCCESS = CT_SUCCESS)) by done
  | |- context [decide (?c = CT_SUCCESS)] => destruct (decide (c = CT_SUCCESS))
  | L : (?n <? BIG_RECORD_SIZE) = true |- context [?n <? BIG_RECORD_SIZE] => rewrite L
  | |- context [mbind _ _] => progress cbn [mbind option_bind fmap option_fmap option_map mapM]
  end;
  (eexists; split; [reflexivity|]; cbn;
   split; [first [assumption | reflexivity]|try done; intros ? [= <-]; first [assumption|reflexivity]]).

Ltac answered :=
  unfold engine_result, back_num, back_len, back_read, back_len, back_broadcast, back, no_back, result_nums;
  change (result_of CT_SUCCESS) with (q_code "result"); served.

Ltac no_memory := split; [left; by left|try done; intros ? [= <-]; reflexivity].

Ltac session_case :=
  eapply session_exec; [reflexivity|reflexivity|reflexivity|assumption|assumption|failed|answered|no_memory].
Ltac plain_case :=
  eapply plain_exec; [reflexivity|reflexivity|reflexivity|assumption|failed|answered|no_memory].

Lemma ddl_call_exec c ft def ctrl n s :
  session_of c = None -> func_of c = ft -> server_of c = SERVER_PROC_ID ->
  (forall q, engine_result c q = ddl_error_code <$> q_bytes (length ctrl) "ddl_ctrl" q) ->
  wf s -> n + sizeof_ddl_ctrl < REQUEST_SIZE ->
  exists o s', fmap_m o_code2 (ddl_call ft def ctrl n) s = Some (o, s') /\ verdict c s s' o.
Proof.
  intros Hc Hft Hsrv He Hw Hn. unfold ddl_call, assert. rewrite (proj2 (Z.ltb_lt _ _)) by done.
  change (bind (ret tt) ?k) with (k tt).
  eapply plain_exec; [done..| | |by split; [left; left|]].
  - intros r Hr. unfold q_bytes. rewrite lookup_args_req. cbn.
    rewrite decide_True by done. cbn. eexists. split; [done|].
    rewrite decide_False by (by apply transport_not_success). cbn. split; [by right|done].
  - destruct (served_bytes (length ctrl) ft "ddl_ctrl" false
      [("ddl_ctrl", ABytes ctrl); ("def", ABytes (take (Z.to_nat n) def))]) as [l El]; [reflexivity|].
    rewrite He, El. cbn. eexists. split; [done|]. by rewrite decide_True.
Qed.

Lemma index_read_exec t r l i m c b s : wf s -> msg_ok (msg_buf t) s ->
  is_Some (copy_index_info_to_req i) ->
  exists o s', exec (Index_read t r l i m c b) s = Some (o, s') /\
    verdict (Index_read t r l i m c b) s s' o.
Proof.
  intros Hw Hb [args Ha].
  assert (exists o s', fmap_m o_back3 (session_call CTC_FUNC_TYPE_INDEX_READ false
    (args ++ [("record", APtr (Some r)); ("record_len", AU16 0); ("mode", ANum m); ("cond", APtr c);
      ("is_replace", bool_arg b); ("result", ACode CT_SUCCESS)]) t
    (back_read l (need_init i)) (fun t => (oom t, l, need_init i))) s = Some (o, s') /\
    verdict (Index_read t r l i m c b) s s' o) as (o & s' & E & V).
  { unfold copy_index_info_to_req in Ha. destruct (_ <=? MAX_KEY_COLUMNS); [|done].
    destruct (copy_keys (map left_key _) _) as [[[? ?] ?]|]; [|done].
    destruct (copy_keys (map right_key _) _) as [[[? ?] ?]|]; [|done].
    cbn [mbind option_bind] in Ha. injection Ha as <-. session_case. }
  exists o, s'. split; [|done]. rewrite <- E. cbn [exec]. unfold fmap_m, ctc_index_read, session_call, request_call.
  unfold bind. rewrite !bound_tch_eq. destruct (alloc_req s) as [[[req|] s1]|]; [|done..].
  by rewrite Ha.
Qed.

(** The second block of [ctc_execute_set_opt] is freed by its address in the
    answer. *)
Lemma set_opt_exec t b l f s : wf s -> msg_ok (msg_buf t) s ->
  exists o s', exec (Set_opt t b l f) s = Some (o, s') /\ verdict (Set_opt t b l f) s s' o.
Proof.
  intros Hw Hb. cbn [exec]. unfold fmap_m, ctc_execute_set_opt.
  unfold bind at 1. rewrite (bind_eq _ _ _ _ _ (bound_tch_eq t s)).
  set (t' := bound_of t). assert (msg_ok (msg_buf t') s) as Hb' by (unfold t'; by rewrite msg_buf_bound).
  assert (forall s', called s s' [] -> ~ reliable -> exists o s'',
    match Some (oom t', b, s') with Some (a, s') => ret (o_back2 a) s' | None => None end = Some (o, s'') /\
    verdict (Set_opt t b l f) s s'' o) as Hoom.
  { intros s' H Hrel. eexists _, _. split; [reflexivity|]. left. split; [done|]. split; [done|]. cbn.
    split; [left; by left|]. by intros ? [= <-]. }
  unfold bind at 1, alloc_req, alloc_share_mem. destruct (shm_alloc_ok (tick s)) eqn:Ea.
  2:{ apply Hoom; [|intros H; destruct (H (tick s)) as (? & _); congruence].
      split; [destruct Hw; by split|]. split; [reflexivity|by rewrite app_nil_r]. }
  set (req := next s). assert (blocks s !! req = None) as Hn by (by apply (wf_next s Hw)).
  set (s1 := mk_shm (<[req := _]> (blocks s)) _ _ _ _).
  assert (wf s1) as Hw1 by (apply wf_new; [done|discriminate]).
  assert (blocks s1 !! req = Some (BReq (mk_req false ∅))) as Hq1 by (cbn; by rewrite lookup_insert_eq).
  rewrite (bind_eq _ _ _ _ _ (puts_eq _ _ _ _ Hq1)). set (q2 := set_fields _ (bc_args b)).
  set (s2 := set_blocks _ s1).
  assert (wf s2) as Hw2 by (apply wf_store; [done|by rewrite Hq1|done]).
  assert (blocks s2 !! req = Some (BReq q2)) as Hq2 by (cbn; by rewrite lookup_insert_eq).
  assert (blocks s2 = <[req := BReq q2]> (blocks s)) as Hb2 by (cbn; by rewrite insert_insert_eq).
  unfold alloc_raw, alloc_share_mem. unfold bind at 1. destruct (shm_alloc_ok (tick s2)) eqn:Ea2.
  2:{ set (s3 := mk_shm _ _ _ _ _).
      assert (blocks s3 !! req = Some (BReq q2)) as Hq3 by done.
      rewrite (bind_eq _ _ _ _ _ (free_eq _ _ _ Hq3)).
      apply Hoom; [|intros H; destruct (H (tick s2)) as (? & _); congruence].
      split; [apply (wf_free s3 req); destruct Hw2; by split|]. split.
      - change (blocks s3) with (blocks s2). rewrite Hb2. cbn. by rewrite delete_insert_id.
      - cbn. by rewrite app_nil_r. }
  set (p := next s2). assert (p <> req) as Hpr by (change p with (S req); lia).
  assert (blocks s2 !! p = None) as Hnp by (by apply (wf_next s2 Hw2)).
  set (s3 := mk_shm (<[p := _]> (blocks s2)) _ _ _ _).
  assert (wf s3) as Hw3 by (apply wf_new; [done|discriminate]).
  assert (blocks s3 !! req = Some (BReq q2)) as Hq3 by (cbn -[s2]; by rewrite lookup_insert_ne).
  rewrite (bind_eq _ _ _ _ _ (put_eq _ _ _ "set_opt_info" (APtr (Some p)) Hq3)).
  set (s4 := set_blocks _ s3).
  assert (wf s4) as Hw4 by (apply wf_store; [done|by rewrite Hq3|done]).
  assert (is_Some (blocks s4 !! p)) as [x4 Hp4].
  { cbn -[s2]. rewrite lookup_insert_ne, lookup_insert_eq by done. by eexists. }
  rewrite (bind_eq _ _ _ _ _ (store_eq _ _ _ (BRaw l) Hp4)). set (s5 := set_blocks _ s4).
  assert (wf s5) as Hw5 by (apply wf_store; [done|by rewrite Hp4|done]).
  set (q4 := set_field "set_opt_info" (APtr (Some p)) q2).
  assert (blocks s5 !! req = Some (BReq q4)) as Hq5.
  { cbn -[s2]. by rewrite lookup_insert_ne, lookup_insert_eq. }
  rewrite (bind_eq _ _ _ _ _ (puts_eq _ _ _ _ Hq5)). set (s6 := set_blocks _ s5).
  assert (wf s6) as Hw6 by (apply wf_store; [done|by rewrite Hq5|done]).
  set (args := bc_args b ++ [("set_opt_info", APtr (Some p)); ("allow_fail", bool_arg f)]).
  set (q := args_req false (args ++ [("tch", ATch t')])).
  assert (blocks s6 = <[req := BReq q]> (<[p := BRaw l]> (blocks s))) as Hb6.
  { apply map_eq. intros x. cbn -[s2 args_req]. fold q. rewrite Hb2.
    destruct (decide (x = req)) as [->|]; [by rewrite !lookup_insert_eq|].
    destruct (decide (x = p)) as [->|]; [by rewrite !(lookup_insert_ne _ req), !lookup_insert_eq by done|].
    by rewrite !lookup_insert_ne by done. }
  assert (msg_ok (msg_buf t') s6) as Hb6'.
  { destruct (msg_buf t') as [y|]; [|done]. destruct Hb' as [m Hm]. exists m. rewrite Hb6.
    assert (req <> y) by (intros e; rewrite <- e in Hm; congruence).
    assert (p <> y).
    { intros e. rewrite <- e in Hm. rewrite Hb2, lookup_insert_ne in Hnp by done. congruence. }
    by rewrite !lookup_insert_ne by done. }
  assert (blocks s6 !! req = Some (BReq q)) as Hq6 by (rewrite Hb6; by rewrite lookup_insert_eq).
  destruct (deal_func_dealt calm CTC_FUNC_TYPE_SET_OPT req (msg_buf t') SERVER_PROC_ID q s6 Hw6 Hb6' Hq6)
    as (r & s7 & E7 & Hw7 & _ & Hd). rewrite (bind_eq _ _ _ _ _ E7).
  assert (forall q' a, same_mem (<[req := BReq q']> (blocks s6)) (blocks s7) ->
    back_broadcast b t' r q' = Some a -> q_ptr "set_opt_info" q' = Some (Some p) ->
    exists s8, (a <-- read req (back_broadcast b t' r);;
     p <-- read req (q_ptr "set_opt_info");;
     match p with Some p => free_share_mem p | None => fail end;;;
     free_share_mem req;;; ret a) s7 = Some (a, s8) /\
    wf s8 /\ same_mem (blocks s) (blocks s8) /\ served s8 = served s7) as Hend.
  { intros q' a Hsm Ha Hptr. rewrite Hb6, insert_insert_eq in Hsm.
    assert (blocks s7 !! req = Some (BReq q')) as Hq7.
    { specialize (Hsm req). rewrite lookup_insert_eq in Hsm. exact (eq_sym Hsm). }
    assert (blocks s7 !! p = Some (BRaw l)) as Hp7.
    { specialize (Hsm p). rewrite lookup_insert_ne, lookup_insert_eq in Hsm by done. exact (eq_sym Hsm). }
    rewrite (bind_eq _ _ _ _ _ (read_eq _ _ _ _ _ Hq7 Ha)).
    rewrite (bind_eq _ _ _ _ _ (read_eq _ _ _ _ _ Hq7 Hptr)).
    rewrite (bind_eq _ _ _ _ _ (free_eq _ _ _ Hp7)). set (s7' := set_blocks _ s7).
    assert (blocks s7' !! req = Some (BReq q')) as Hq7' by (cbn; by rewrite lookup_delete_ne).
    rewrite (bind_eq _ _ _ _ _ (free_eq _ _ _ Hq7')). eexists. split; [reflexivity|].
    split; [apply (wf_free s7' req); by apply wf_free|]. split; [|done].
    cbn. apply same_mem_new with (x := BReq q'); [done|].
    apply same_mem_new with (x := BRaw l).
    - rewrite lookup_insert_ne by done. rewrite Hb2 in Hnp. by rewrite lookup_insert_ne in Hnp.
    - by rewrite insert_insert_ne by done. }
  destruct Hd as [(Hr & Hsm & Hsv & Hrel)|(-> & Hsm & Hsv & _)].
  - assert (exists a, back_broadcast b t' r q = Some a /\ failure_code (fst (o_back2 a)) /\
      forall t1, snd (o_back2 a) = Some t1 -> t1 = t') as (a & Ha & Hc1 & Hc2).
    { unfold q, args. clear - Hr. revert r Hr. failed. }
    destruct (Hend q a) as (s8 & E8 & Hw8 & Hsm8 & Hsv8); [|done|done|].
    { rewrite insert_id by done. done. }
    rewrite E8. eexists _, _. split; [reflexivity|]. left. split; [done|]. split.
    { split; [done|]. split; [done|]. rewrite Hsv8, Hsv. cbn. by rewrite app_nil_r. }
    split; [done|]. intros t1 Ht1. by rewrite (Hc2 _ Ht1).
  - assert (exists a, back_broadcast b t' CT_SUCCESS (serve CTC_FUNC_TYPE_SET_OPT q) = Some a /\
      engine_result (Set_opt t b l f) (serve CTC_FUNC_TYPE_SET_OPT q) = Some (fst (o_back2 a)) /\
      forall t1, snd (o_back2 a) = Some t1 -> q_tch "tch" (serve CTC_FUNC_TYPE_SET_OPT q) = Some t1)
      as (a & Ha & Hc1 & Hc2) by (unfold q, args; answered).
    destruct (Hend (serve CTC_FUNC_TYPE_SET_OPT q) a) as (s8 & E8 & Hw8 & Hsm8 & Hsv8); [done|done| |].
    { apply serve_ptr. done. }
    rewrite E8. eexists _, _. split; [reflexivity|]. right. exists q. split.
    { split; [done|]. split; [done|]. by rewrite Hsv8, Hsv. }
    split; [|done]. intros ? [= <-]. apply args_tch.
Qed.

(** A call is safe in every state between calls whose message block, if the
    session has one, is allocated. *)
Lemma exec_safe c s :
  wf s -> call_ok c -> (forall t, session_of c = Some t -> msg_ok (msg_buf t) s) ->
  exists o s', exec c s = Some (o, s') /\ verdict c s s' o.
Proof.
  intros Hw Hc Hb. destruct c; cbn [session_of] in Hb;
    try (specialize (Hb _ eq_refl); session_case);
    try (clear Hb; plain_case);
    try (by apply ddl_call_exec).
  all: try specialize (Hb _ eq_refl).
  - match goal with i : option string |- _ => destruct i as [x|] end; cbn [exec];
      unfold ctc_scan_records; [destruct (String.length x =? 0)%nat|]; session_case.
  - cbn [exec]. unfold ctc_rnd_pos, assert. cbn [call_ok] in Hc.
    rewrite (proj2 (Z.ltb_lt _ _)) by done. change (bind (ret tt) ?k) with (k tt). session_case.
  - by apply index_read_exec.
  - cbn [exec]. unfold ctc_trx_commit. destruct sql_str; session_case.
  - cbn [exec]. unfold ctc_statistic_commit. destruct sql_str; session_case.
  - cbn [exec]. unfold ctc_lock_table. destruct db_name; session_case.
  - by apply set_opt_exec.
Qed.

(** ** Calls that misuse their request *)

Inductive freed_stub :=
  | Drop_tablespace_and_user (t : ctc_handler_t) (db_name sql_str user_name user_ip : string)
  | Pre_create_db (t : ctc_handler_t) (sql_str name : string) (size extend : Z) (autoextend : bool)
  | Get_index_paral_schedule (t : ctc_handler_t) (query_scn worker_count : Z) (index_name : string)
      (reverse is_index_full : bool) (scan_range paral_range : nat)
  | Pq_set_cursor_range (t : ctc_handler_t) (l_page r_page : list Z) (query_scn ssn : Z).

Definition freed_session (c : freed_stub) : ctc_handler_t :=
  match c with
  | Drop_tablespace_and_user t _ _ _ _ | Pre_create_db t _ _ _ _ _
  | Get_index_paral_schedule t _ _ _ _ _ _ _ | Pq_set_cursor_range t _ _ _ _ => t
  end.

Definition exec_freed (c : freed_stub) : M ct_errno_t :=
  match c with
  | Drop_tablespace_and_user t d q u i => fmap_m fst (ctc_drop_tablespace_and_user t d q u i)
  | Pre_create_db t q n s e a => fmap_m fst (ctc_pre_create_db t q n s e a)
  | Get_index_paral_schedule t q w i r f s p =>
      fmap_m fst (ctc_get_index_paral_schedule t q w i r f s p)
  | Pq_set_cursor_range t l r q n => fmap_m fst (ctc_pq_set_cursor_range t l r q n)
  end.

Lemma freed_call_undefined {A} ft zero args t (after : request -> option A) oom failed s :
  reliable -> wf s -> msg_ok (msg_buf t) s ->
  freed_call ft zero args t after oom failed s = None.
Proof.
  intros Hrel Hw Hb. unfold freed_call. rewrite (bind_eq _ _ _ _ _ (bound_tch_eq t s)).
  set (t' := bound_of t). assert (msg_ok (msg_buf t') s) as Hb' by (unfold t'; by rewrite msg_buf_bound).
  destruct (Hrel (tick s)) as (Ha & _ & _).
  edestruct (prepare_eq zero (args ++ [("tch", ATch t')]) (ERR_ALLOC_MEMORY, oom)) as
    (s3 & -> & Hw3 & Hn & Hb3 & _ & Hm3); [done|exact Hb'|done|].
  set (req := next s) in *. set (q := args_req _ _) in *.
  assert (blocks s3 !! req = Some (BReq q)) as Hq3 by (rewrite Hb3; by rewrite lookup_insert_eq).
  destruct (deal_func_dealt calm ft req (msg_buf t') SERVER_PROC_ID q s3 Hw3 Hm3 Hq3)
    as (r & s4 & E4 & Hw4 & _ & Hd). rewrite (bind_eq _ _ _ _ _ E4).
  destruct Hd as [(_ & _ & _ & Hno)|(-> & Hsm & _)]; [done|].
  assert (blocks s4 !! req = Some (BReq (serve ft q))) as Hq4.
  { specialize (Hsm req). rewrite lookup_insert_eq in Hsm. exact (eq_sym Hsm). }
  unfold bind at 1, read, bind at 1. rewrite (load_req_eq _ _ _ Hq4).
  destruct (after (serve ft q)) as [a|]; [|done]. cbn [lift]. unfold ret at 1.
  rewrite (bind_eq _ _ _ _ _ (free_eq _ _ _ Hq4)). rewrite decide_True by done.
  unfold bind, read, bind, load_req, bind, load. cbn. by rewrite lookup_delete_eq.
Qed.

End safe.

(** ** Properties *)


(** A session with a message block of its own. *)
Definition sample_shm : shm :=
  mk_shm {[ 0%nat := BMsg (mk_msg 0 CTC_FUNC_TYPE_OPEN_TABLE 0 []) ]} 1 [] [] 0.
Definition sample_tch : ctc_handler_t := mk_tch 1 7 0 0 (Some 0%nat) [5].
Definition sample_layout : DdlLayout := {| sizeof_ddl_ctrl := 1; ddl_error_code _ := CT_SUCCESS |}.

Lemma wf_sample : wf sample_shm.
Proof.
  split; cbn; [done| |].
  - intros p m. rewrite lookup_singleton_Some. intros [_ H]. by injection H as <-.
  - intros p Hp. apply lookup_singleton_ne. lia.
Qed.


(** Calls of the interface that are wrong: on a reliable channel the four
    calls of [freed_stub] read the result of a request that they have freed;
    [ctc_get_max_sessions_per_node] leaves its request allocated; and
    [ctc_position] and [ctc_get_sample_size] read an answer that is not there
    when the message cannot be sent. *)
Theorem stub_calls_wrong {CH : Channel} {CL : ChannelLaws CH} :
  (forall t, interrupted t = false) ->
  (forall c s, reliable -> wf s -> msg_ok (msg_buf (freed_session c)) s -> exec_freed c s = None) /\
  (forall n s, reliable -> wf s ->
     exists a s', ctc_get_max_sessions_per_node n s = Some (a, s') /\ is_Some (blocks s' !! next s)) /\
  (forall s, (forall t, shm_alloc_ok t = true) -> (forall t, shm_send_ok t = false) -> wf s ->
     ctc_get_sample_size s = None /\
     forall t pos n, msg_ok (msg_buf t) s -> ctc_position t pos n s = None).
Proof.
  intros calm. split; [|split].
  - intros c s Hrel Hw Hb. destruct c; cbn [exec_freed freed_session] in *; unfold fmap_m, bind at 1,
      ctc_drop_tablespace_and_user, ctc_pre_create_db, ctc_get_index_paral_schedule,
      ctc_pq_set_cursor_range; by rewrite freed_call_undefined.
  - intros n s Hrel Hw. unfold ctc_get_max_sessions_per_node.
    unfold bind at 1, get_one_shm_inst. destruct (g_shm_file_num =? 0) eqn:Eg; zb;
      [by pose proof shm_files|]. cbn [lift]. unfold ret at 1.
    destruct (Hrel (tick s)) as (Ha & _ & _).
    edestruct (prepare_eq false [] (ERR_ALLOC_MEMORY, n) (fun req =>
      r <-- ctc_mq_deal_func CTC_FUNC_TYPE_GET_MAX_SESSIONS req None SERVER_PROC_ID;;
      n <-- (if decide (r = CT_SUCCESS) then read req (q_num "max_sessions") else ret n);;
      ret (r, n)) None) as (s3 & E & Hw3 & Hn & Hb3 & _ & Hm3); [done|done|done|].
    set (req := next s) in *.
    assert (blocks s3 !! req = Some (BReq (args_req false []))) as Hq3 by (rewrite Hb3; by rewrite lookup_insert_eq).
    destruct (deal_func_dealt calm CTC_FUNC_TYPE_GET_MAX_SESSIONS req None SERVER_PROC_ID _ s3 Hw3 Hm3 Hq3)
      as (r & s4 & E4 & Hw4 & _ & Hd). destruct Hd as [(_ & _ & _ & Hno)|(-> & Hsm & _)]; [done|].
    assert (blocks s4 !! req = Some (BReq (serve CTC_FUNC_TYPE_GET_MAX_SESSIONS (args_req false [])))) as Hq4.
    { specialize (Hsm req). rewrite lookup_insert_eq in Hsm. exact (eq_sym Hsm). }
    destruct (served_num CTC_FUNC_TYPE_GET_MAX_SESSIONS "max_sessions" false []) as [z Ez];
      [unfold field_ok; cbn; tauto|].
    exists (CT_SUCCESS, z), s4. split; [|by rewrite Hq4].
    etransitivity; [exact E|]. rewrite (bind_eq _ _ _ _ _ E4), decide_True by done.
    by rewrite (bind_eq _ _ _ _ _ (read_eq _ _ _ _ _ Hq4 Ez)).
  - intros s Hal Hse Hw. split.
    + unfold ctc_get_sample_size, plain_call, get_one_shm_inst.
      destruct (g_shm_file_num =? 0) eqn:Eg; zb; [by pose proof shm_files|].
      change (bind (lift (Some ?x)) ?k) with (k x). cbv beta. apply request_call_unsent; try done.
    + intros t pos n Hb. unfold ctc_position, assert. destruct (n <? SMALL_RECORD_SIZE); [|done].
      change (bind (ret tt) ?k) with (k tt). cbv beta. unfold session_call.
      rewrite (bind_eq _ _ _ _ _ (bound_tch_eq t s)).
      apply request_call_unsent; try done; [by rewrite msg_buf_bound|].
      intros r Hr. rewrite decide_False by (by apply transport_not_success). cbn [mbind option_bind].
      unfold q_code. rewrite lookup_args_req. done.
Qed.

Lemma stub_calls_wrong_witness :
  @exec_freed DemoChannel.channel (Pq_set_cursor_range sample_tch [] [] 1 1) sample_shm = None.
Proof.
  apply (@stub_calls_wrong DemoChannel.channel DemoChannel.laws).
  - done.
  - done.
  - apply wf_sample.
  - by eexists.
Defined.

End Stub.
