(* ===== verification/IndexSearch.v ===== *)
(** * IndexSearch: searches by an index

    Models [datatype_cnvrt_4_index_search.cc] (the key tuple of the server
    taken apart column by column and every value converted to the engine's
    representation) and the index calls of [ha_ctc.cc] ([index_init],
    [index_read] and its variants, [index_end], [rnd_end], [records]).  The
    rows after the first one are fetched by [Prefetch.index_fetch].

    [index_keys_split] states that the tuple is taken apart the way the server
    built it, [index_key_matches_row] that a key value has the very bytes the
    column has in a row ([RowFormat]), so that the engine finds it, and
    [index_scan_complete] that a search and the calls after it return exactly
    the rows that the engine has for the keys. *)

From S2P Require Import Prelude FieldTypes Server Demo DecDigits Numeric DateCnvrt CtcError Blob RowFormat Handler Prefetch Session SharedMem Stub.
Import FieldTypes Server CtcError Handler Prefetch.

Module IndexSearch.

Abbreviation key_info := Stub.key_info.

(** ** The key tuple of the server *)

(** A column of an index ([KEY_PART_INFO]). *)
Record KEY_PART_INFO := mk_part {
  kp_field : Field;
  kp_key_length : Z;               (* field->key_length() *)
  kp_store_length : Z;             (* store_length *)
  kp_prefix_only : bool }.         (* part_of_prefixkey && !part_of_key_not_extended *)

(** The upper end of a range ([key_range]). *)
Record key_range := mk_range {
  kr_key : list Z; kr_length : Z; kr_keypart_map : Z; kr_flag : Z }.

Definition OFFSET_VARCHAR_TYPE : Z := 2.
Definition MAX_KEY_COLUMNS : Z := Stub.MAX_KEY_COLUMNS.

(** One value of the tuple [key] at [pos]: the room it takes in the tuple, the
    pointer and the length of the value, and whether it is null.  A pointer
    stands for the bytes that it points at. *)
Definition ctc_convert_mysql_key_to_cantian (kp : KEY_PART_INFO) (key : list Z) (pos key_len : Z)
    (data_field_len : Z) (use_key : option (list Z)) (is_key_null : bool)
  : option (Z * option (list Z) * bool) :=
  if wrapU 16 key_len =? 0 then Some (data_field_len, use_key, is_key_null) else
  let f := kp_field kp in
  let offset := if f_nullable f then 1 else 0 in
  let data_len := kp_key_length kp in
  let is_varchar := bool_decide (f_type f = MYSQL_TYPE_VARCHAR) in
  let check_blob := negb is_varchar && f_blob_flag f && kp_prefix_only kp in
  let data_field_len :=
    if is_varchar then offset + data_len + OFFSET_VARCHAR_TYPE
    else if check_blob then kp_store_length kp
    else offset + data_len in
  null ← (if f_nullable f then b ← rd key pos 1; Some (le_val b =? 1) else Some false);
  if null : bool then Some (data_field_len, option_map (fun _ => []) use_key, true)
  else if is_varchar || check_blob then
    len ← rd key (pos + offset) 2;
    data ← rd key (pos + offset + OFFSET_VARCHAR_TYPE) (le_val len);
    Some (data_field_len, Some data, is_key_null)
  else
    data ← rd key (pos + offset) data_len;
    let data := if decide (f_real_type f = MYSQL_TYPE_STRING)
                then take (RowFormat.trim_pad data (f_pad_char f) (length data)) data else data in
    Some (data_field_len, Some data, is_key_null).

(** The body of the loop over the columns, from the one where [pos] and
    [my_pos] point at, in the tuple and in the upper end of the range; no
    column left: [key_num] is [actual_key_parts]. *)
Fixpoint fill_parts (parts : list KEY_PART_INFO) (index_skip_scan : bool) (key : list Z)
    (key_len : Z) (end_range : option key_range) (pos my_pos : Z)
  : option (ct_errno_t * list key_info) :=
  match parts with
  | [] => Some (ERR_GENERIC_INTERNAL_ERROR, [])
  | kp :: parts =>
    '(data_field_len, lk, null) ←
      ctc_convert_mysql_key_to_cantian kp key pos key_len 0 None false;
    '(data_field_len, rk, null) ←
      match end_range with
      | Some r =>
        if negb index_skip_scan && (my_pos <? kr_length r)
        then ctc_convert_mysql_key_to_cantian kp (kr_key r) my_pos (kr_length r)
               data_field_len None null
        else Some (data_field_len, None, null)
      | None => Some (data_field_len, None, null)
      end;
    let my_pos := match end_range with
                  | Some r => if my_pos <? kr_length r then my_pos + data_field_len else my_pos
                  | None => my_pos
                  end in
    let pos := pos + data_field_len in
    let k := Stub.mk_key null lk rk in
    if (pos <? key_len) && negb (key_len =? 0) then
      '(ret, ks) ← fill_parts parts index_skip_scan key key_len end_range pos my_pos;
      Some (ret, k :: ks)
    else Some (CT_SUCCESS, [k])
  end.

(** The elements of [key_info] up to [key_num]; the others are set to null.
    The array has [MAX_KEY_COLUMNS] elements. *)
Definition ctc_fill_index_key_info (parts : list KEY_PART_INFO) (key : list Z) (key_len : Z)
    (end_range : option key_range) (index_skip_scan : bool)
  : option (ct_errno_t * list key_info) :=
  '(ret, ks) ← fill_parts parts index_skip_scan key key_len end_range 0 0;
  if MAX_KEY_COLUMNS <? Z.of_nat (length ks) then None
  else if decide (ret = CT_SUCCESS)
  then if MAX_KEY_COLUMNS <? Z.of_nat (length parts) then None else Some (CT_SUCCESS, ks)
  else Some (ret, ks).

(** ** Conversion of the values *)

Definition sizeof_dec4 : Z := 2 + 2 * DecDigits.DEC4_CELL_SIZE.
Definition CT_ERROR : Z := -1.

Section Conversion.
Context {M : MySQL}.

(** The status and the bytes that the pointer and the length stand for; the
    converted value is stored in a [dec4_t]. *)
Definition ctc_convert_key_from_mysql_to_cantian (tab : aux_table) (f : Field) (ptr : list Z)
  : option (Z * list Z * aux_table) :=
  '(tab, info) ← get_auxiliary_for_field_convert tab f (f_type f);
  info ← info;
  let t := mysql_field_type info in
  let len := Z.of_nat (length ptr) in
  if bool_decide (t = MYSQL_TYPE_TINY) || bool_decide (t = MYSQL_TYPE_SHORT)
     || bool_decide (t = MYSQL_TYPE_INT24) then
    '(ret, bs, _) ← Numeric.convert_numeric_to_cantian t f ptr len;
    if negb (ret =? 0) then Some (CT_ERROR, ptr, tab) else Some (0, take 4 bs, tab)
  else if decide (f_type f = MYSQL_TYPE_BIT) then
    Some (0, le_bytes 8 (Numeric.bit_cnvt_mysql_cantian f ptr), tab)
  else if decide (f_type f = MYSQL_TYPE_FLOAT) then
    Some (0, le_bytes 8 (Numeric.float_to_double (le_val (take 4 ptr))), tab)
  else if decide (sql_data_type info = DATETIME_DATA) then
    '(ret, bs) ← DateCnvrt.convert_datetime_to_cantian t ptr f;
    if negb (ret =? 0) then Some (ret, ptr, tab) else Some (0, take 8 bs, tab)
  else if decide (f_type f = MYSQL_TYPE_DECIMAL) then
    Some (CT_ERROR, ptr, tab)                     (* no Field_new_decimal *)
  else if decide (f_type f = MYSQL_TYPE_NEWDECIMAL) then
    '(ret, bs, len) ← Numeric.decimal_mysql_to_cantian ptr (f_precision f) (f_decimals f) len;
    if negb (ret =? 0) then Some (ret, ptr, tab)
    else if sizeof_dec4 <? Z.of_nat (length bs) then None
    else Some (0, take (Z.to_nat len) bs, tab)
  else Some (0, ptr, tab).

(** One side of a column, if it is there and not empty: [data++] takes the
    next of the [cells] elements left. *)
Definition convert_side (tab : aux_table) (f : Field) (wanted : bool) (ptr : option (list Z))
    (cells : Z) : option (Z * option (list Z) * aux_table * Z) :=
  match ptr with
  | Some ((_ :: _) as bs) =>
    if wanted then
      if cells <=? 0 then None else
      '(ret, bs, tab) ← ctc_convert_key_from_mysql_to_cantian tab f bs;
      Some (ret, Some bs, tab, cells - 1)
    else Some (0, ptr, tab, cells)
  | _ => Some (0, ptr, tab, cells)
  end.

Fixpoint convert_keys (tab : aux_table) (parts : list KEY_PART_INFO) (ks : list key_info)
    (has_right_key : bool) (cells : Z) {struct ks} : option (Z * list key_info * aux_table) :=
  match ks with
  | [] => Some (0, [], tab)
  | k :: ks =>
    match parts with
    | [] => None
    | kp :: parts =>
      let f := kp_field kp in
      '(ret, lk, tab, cells) ← convert_side tab f true (Stub.left_key k) cells;
      if negb (ret =? 0)
      then Some (ret, Stub.mk_key (Stub.is_key_null k) lk (Stub.right_key k) :: ks, tab) else
      '(ret, rk, tab, cells) ← convert_side tab f has_right_key (Stub.right_key k) cells;
      let k := Stub.mk_key (Stub.is_key_null k) lk rk in
      if negb (ret =? 0) then Some (ret, k :: ks, tab) else
      '(ret, ks, tab) ← convert_keys tab parts ks has_right_key cells;
      Some (ret, k :: ks, tab)
    end
  end.

(** [dec4_t d4[MAX_KEY_COLUMNS * 2]] *)
Definition ctc_convert_index_datatype (tab : aux_table) (parts : list KEY_PART_INFO)
    (ks : list key_info) (has_right_key : bool) : option (Z * list key_info * aux_table) :=
  convert_keys tab parts ks has_right_key (MAX_KEY_COLUMNS * 2).

End Conversion.

(** ** The tuple is taken apart as it was built *)

(** A key column as the server describes it: the room of its values in the
    tuple is a null byte, two bytes of length for the types of variable
    length, and the longest value. *)
Definition var_part (kp : KEY_PART_INFO) : bool :=
  bool_decide (f_type (kp_field kp) = MYSQL_TYPE_VARCHAR) || f_blob_flag (kp_field kp).
Definition null_bytes (kp : KEY_PART_INFO) : Z := if f_nullable (kp_field kp) then 1 else 0.

Definition part_ok (kp : KEY_PART_INFO) : Prop :=
  0 < kp_store_length kp /\
  (f_blob_flag (kp_field kp) = true -> kp_prefix_only kp = true /\
     f_type (kp_field kp) <> MYSQL_TYPE_VARCHAR) /\
  (f_blob_flag (kp_field kp) = false ->
     kp_store_length kp = null_bytes kp
       + (if bool_decide (f_type (kp_field kp) = MYSQL_TYPE_VARCHAR) then 2 else 0)
       + kp_key_length kp).

(** The room of a value in the tuple: a null value leaves what follows its
    null byte undefined, a value of variable length is filled up. *)
Inductive part_image (kp : KEY_PART_INFO) : option (list Z) -> list Z -> Prop :=
  | pi_null fill :
      f_nullable (kp_field kp) = true -> Z.of_nat (length fill) = kp_store_length kp - 1 ->
      part_image kp None (1 :: fill)
  | pi_var v fill :
      var_part kp = true -> Z.of_nat (length v) < 2 ^ 16 ->
      null_bytes kp + 2 + Z.of_nat (length (v ++ fill)) = kp_store_length kp ->
      part_image kp (Some v)
        (replicate (Z.to_nat (null_bytes kp)) 0 ++ le_bytes 2 (Z.of_nat (length v)) ++ v ++ fill)
  | pi_fixed v :
      var_part kp = false -> null_bytes kp + Z.of_nat (length v) = kp_store_length kp ->
      part_image kp (Some v) (replicate (Z.to_nat (null_bytes kp)) 0 ++ v).

Lemma part_image_length kp v img :
  part_image kp v img -> Z.of_nat (length img) = kp_store_length kp.
Proof.
  assert (0 <= null_bytes kp) by (unfold null_bytes; by destruct (f_nullable _)).
  destruct 1; cbn [length]; rewrite ?length_app, ?length_replicate, ?length_le_bytes in *; lia.
Qed.

(** The bytes of a value that go to the engine: [CHAR] without its padding. *)
Definition key_value (kp : KEY_PART_INFO) (v : list Z) : list Z :=
  if negb (var_part kp) && bool_decide (f_real_type (kp_field kp) = MYSQL_TYPE_STRING)
  then take (RowFormat.trim_pad v (f_pad_char (kp_field kp)) (length v)) v else v.

(** A load at the start of the second of three parts. *)
Lemma rd_middle (pre a post : list Z) n :
  n = Z.of_nat (length a) -> rd (pre ++ a ++ post) (Z.of_nat (length pre)) n = Some a.
Proof.
  intros ->. rewrite rd_Some by (rewrite ?length_app; lia).
  by rewrite !Nat2Z.id, drop_app_length, take_app_length.
Qed.

Lemma rd_at (pre a post : list Z) o n :
  o = Z.of_nat (length pre) -> n = Z.of_nat (length a) -> rd (pre ++ a ++ post) o n = Some a.
Proof. intros -> Hn. by apply rd_middle. Qed.

Lemma convert_part kp v img pre post key_len d null :
  part_ok kp -> part_image kp v img -> 0 < key_len < 2 ^ 16 ->
  ctc_convert_mysql_key_to_cantian kp (pre ++ img ++ post) (Z.of_nat (length pre)) key_len d None null
  = Some (kp_store_length kp, option_map (key_value kp) v,
          match v with Some _ => null | None => true end).
Proof.
  intros (Hpos & Hblob & Hplain) Himg Hlen. unfold ctc_convert_mysql_key_to_cantian.
  rewrite wrapU_small, (proj2 (Z.eqb_neq _ _)) by lia.
  set (f := kp_field kp) in *. set (var := bool_decide (f_type f = MYSQL_TYPE_VARCHAR)) in *.
  change (if f_nullable f then 1 else 0) with (null_bytes kp). unfold OFFSET_VARCHAR_TYPE.
  set (dfl := if var then _ else _).
  assert (dfl = kp_store_length kp) as ->.
  { unfold dfl. destruct (f_blob_flag f) eqn:Hb.
    - destruct (Hblob eq_refl) as [-> Hnv].
      assert (var = false) as -> by (by apply bool_decide_eq_false_2). done.
    - specialize (Hplain eq_refl). rewrite Hplain, andb_false_r. cbn [andb]. destruct var; lia. }
  assert (var || (negb var && f_blob_flag f && kp_prefix_only kp) = var_part kp) as Hvar.
  { unfold var_part. fold f. fold var. destruct var; [done|]. cbn [negb andb orb].
    destruct (f_blob_flag f) eqn:Hb; [|done]. by destruct (Hblob eq_refl) as [-> _]. }
  rewrite Hvar. clear Hvar.
  assert (forall b rest, null_bytes kp = 1 -> img = b :: rest ->
    rd (pre ++ img ++ post) (Z.of_nat (length pre)) 1 = Some [b]) as Hnull.
  { intros b rest _ ->. change ((b :: rest) ++ post) with ([b] ++ rest ++ post). by apply rd_middle. }
  destruct Himg as [fill Hn Hl|v fill Hv Hl Hr|v Hv Hr].
  - unfold null_bytes in *. fold f in Hnull, Hn. rewrite Hn in *. rewrite (Hnull 1 fill) by done. done.
  - assert (0 <= null_bytes kp <= 1) by (unfold null_bytes; destruct (f_nullable _); lia).
    assert ((if f_nullable f then b ← rd (pre ++ (replicate (Z.to_nat (null_bytes kp)) 0
        ++ le_bytes 2 (Z.of_nat (length v)) ++ v ++ fill) ++ post) (Z.of_nat (length pre)) 1;
      Some (le_val b =? 1) else Some false) = Some false) as ->.
    { unfold null_bytes in *. fold f in Hnull |- *. destruct (f_nullable f); [|done].
      by rewrite (Hnull 0 (le_bytes 2 (Z.of_nat (length v)) ++ v ++ fill)). }
    cbn [mbind option_bind]. rewrite Hv.
    rewrite <- !app_assoc. rewrite (app_assoc pre (replicate _ _)).
    rewrite (rd_at _ (le_bytes 2 _)) by (rewrite ?length_app, ?length_replicate, ?length_le_bytes; lia).
    cbn [mbind option_bind]. rewrite le_val_le_bytes. change (256 ^ Z.of_nat 2) with (2 ^ 16).
    rewrite Z.mod_small by lia.
    rewrite (app_assoc _ (le_bytes 2 _)), (rd_at _ v)
      by (rewrite ?length_app, ?length_replicate, ?length_le_bytes; lia).
    cbn [mbind option_bind option_map]. unfold key_value. rewrite Hv. done.
  - assert (0 <= null_bytes kp <= 1) by (unfold null_bytes; destruct (f_nullable _); lia).
    assert ((if f_nullable f then b ← rd (pre ++ (replicate (Z.to_nat (null_bytes kp)) 0
        ++ v) ++ post) (Z.of_nat (length pre)) 1; Some (le_val b =? 1) else Some false)
      = Some false) as ->.
    { unfold null_bytes in *. fold f in Hnull |- *. destruct (f_nullable f); [|done].
      by rewrite (Hnull 0 v). }
    cbn [mbind option_bind]. rewrite Hv.
    unfold var_part in Hv. fold f in Hv. fold var in Hv.
    apply orb_false_elim in Hv as [Hv Hb]. specialize (Hplain Hb). rewrite Hv in Hplain.
    rewrite <- !app_assoc. rewrite (app_assoc pre (replicate _ _)), (rd_at _ v)
      by (rewrite ?length_app, ?length_replicate; lia).
    cbn [mbind option_bind option_map]. unfold key_value, var_part. fold f. fold var.
    rewrite Hv, Hb. cbn [orb negb andb].
    case_bool_decide; [by rewrite decide_True|by rewrite decide_False].
Qed.

(** A tuple of values for the first columns of the index. *)
Inductive tuple : list KEY_PART_INFO -> list (option (list Z)) -> list Z -> Prop :=
  | tup_nil parts : tuple parts [] []
  | tup_cons kp parts v vs img bytes :
      part_image kp v img -> tuple parts vs bytes -> tuple (kp :: parts) (v :: vs) (img ++ bytes).

Definition is_null (v : option (list Z)) : bool := match v with None => true | Some _ => false end.

(** The search conditions that the engine gets for the values of the tuple and
    of the upper end of the range, column by column. *)
Fixpoint split_keys (parts : list KEY_PART_INFO) (lvs rvs : list (option (list Z)))
  : list key_info :=
  match parts, lvs with
  | kp :: parts, v :: lvs =>
    Stub.mk_key (is_null v || match rvs with w :: _ => is_null w | [] => false end)
      (option_map (key_value kp) v)
      (match rvs with w :: _ => option_map (key_value kp) w | [] => None end)
    :: split_keys parts lvs (tail rvs)
  | _, _ => []
  end.

Lemma tuple_nonempty parts vs bytes :
  Forall part_ok parts -> tuple parts vs bytes -> vs <> [] -> 0 < Z.of_nat (length bytes).
Proof.
  intros Hok Ht. destruct Ht as [|kp parts v vs img bytes Himg Ht]; [done|]. intros _.
  apply Forall_inv in Hok. destruct Hok as (Hpos & _).
  pose proof (part_image_length _ _ _ Himg). rewrite length_app. lia.
Qed.

Lemma tuple_length_parts parts vs bytes : tuple parts vs bytes -> (length vs <= length parts)%nat.
Proof. induction 1; cbn [length]; lia. Qed.

(** The upper end of the range from [my_pos] on. *)
Definition right_at (parts : list KEY_PART_INFO) (end_range : option key_range) (my_pos : Z)
    (rvs : list (option (list Z))) : Prop :=
  match end_range with
  | None => rvs = []
  | Some r => exists pre bytes rest, kr_key r = pre ++ bytes ++ rest /\
      my_pos = Z.of_nat (length pre) /\ kr_length r = Z.of_nat (length pre + length bytes) /\
      kr_length r < 2 ^ 16 /\ tuple parts rvs bytes
  end.

(** One step on the side of the range. *)
Lemma right_step kp parts er my_pos rvs (skip : bool) d null :
  Forall part_ok (kp :: parts) -> right_at (kp :: parts) er my_pos rvs ->
  d = kp_store_length kp \/ (d = 0 /\ null = false) ->
  match er with
  | Some r =>
    if negb skip && (my_pos <? kr_length r)
    then ctc_convert_mysql_key_to_cantian kp (kr_key r) my_pos (kr_length r) d None null
    else Some (d, None, null)
  | None => Some (d, None, null)
  end = Some (if negb skip && negb (bool_decide (rvs = [])) then kp_store_length kp else d,
              match rvs with
              | w :: _ => if skip then None else option_map (key_value kp) w | [] => None end,
              null || match rvs with w :: _ => negb skip && is_null w | [] => false end) /\
  right_at parts er
    (match er with
     | Some r => if my_pos <? kr_length r then my_pos + kp_store_length kp else my_pos
     | None => my_pos end) (tail rvs).
Proof.
  intros Hok Hr Hd. unfold right_at in *. destruct er as [r|].
  2:{ subst rvs. rewrite bool_decide_eq_true_2, andb_false_r, orb_false_r by done. done. }
  destruct Hr as (pre & bytes & rest & Hk & -> & Hl & Hlt & Ht).
  destruct rvs as [|w rvs].
  - inversion Ht; subst. cbn [length] in Hl. rewrite Nat.add_0_r in Hl.
    rewrite (proj2 (Z.ltb_ge _ _)), andb_false_r by lia.
    rewrite bool_decide_eq_true_2, andb_false_r, orb_false_r by done.
    split; [done|]. exists pre, [], rest. repeat split; try done. { cbn [length]. lia. } constructor.
  - inversion Ht as [|? ? ? ? img b2 Himg Ht2]; subst.
    pose proof (tuple_nonempty _ _ _ Hok Ht ltac:(done)) as Hpos.
    rewrite (proj2 (Z.ltb_lt _ _)), andb_true_r by lia.
    rewrite bool_decide_eq_false_2, andb_true_r by done. cbn [negb tail].
    pose proof (part_image_length _ _ _ Himg) as Hil. split.
    + destruct skip; cbn [negb andb]; [by rewrite orb_false_r|].
      rewrite Hk, <- app_assoc.
      rewrite (convert_part kp w) by (done || (by apply Forall_inv in Hok) || lia).
      destruct w; cbn [is_null]; by rewrite ?orb_false_r, ?orb_true_r.
    + exists (pre ++ img), b2, rest. rewrite Hk, <- !app_assoc. split; [done|].
      rewrite !length_app in *. repeat split; try done; lia.
Qed.

Lemma fill_split (skip : bool) er parts : forall lvs rvs pre bytes rest my_pos,
  Forall part_ok parts -> tuple parts lvs bytes -> lvs <> [] ->
  Z.of_nat (length pre + length bytes) < 2 ^ 16 -> right_at parts er my_pos rvs ->
  fill_parts parts skip (pre ++ bytes ++ rest) (Z.of_nat (length pre + length bytes)) er
    (Z.of_nat (length pre)) my_pos
  = Some (CT_SUCCESS, split_keys parts lvs (if skip then [] else rvs)).
Proof.
  induction parts as [|kp parts IH]; intros lvs rvs pre bytes rest my_pos Hok Ht Hne Hlen Hr.
  { by inversion Ht; subst. }
  destruct lvs as [|v lvs]; [done|]. inversion Ht as [|? ? ? ? img b2 Himg Ht2]; subst.
  pose proof (tuple_nonempty _ _ _ Hok Ht Hne) as Hpos.
  pose proof (part_image_length _ _ _ Himg) as Hil. pose proof (Forall_inv Hok) as Hkp.
  cbn [fill_parts]. rewrite <- app_assoc.
  rewrite (convert_part kp v) by (done || lia). cbn [mbind option_bind].
  destruct (right_step kp parts er my_pos rvs skip (kp_store_length kp)
    (match v with Some _ => false | None => true end) Hok Hr (or_introl eq_refl)) as [-> Hr2].
  cbn [mbind option_bind].
  assert ((if negb skip && negb (bool_decide (rvs = [])) then kp_store_length kp
           else kp_store_length kp) = kp_store_length kp) as -> by (by destruct (_ && _)).
  assert (forall ks, Stub.mk_key (match v with Some _ => false | None => true end
      || match rvs with w :: _ => negb skip && is_null w | [] => false end)
      (option_map (key_value kp) v)
      (match rvs with w :: _ => if skip then None else option_map (key_value kp) w | [] => None end)
      :: split_keys parts lvs (tail (if skip then [] else rvs))
    = ks -> split_keys (kp :: parts) (v :: lvs) (if skip then [] else rvs) = ks) as Hks.
  { intros ks <-. cbn [split_keys]. by destruct v, skip, rvs. }
  rewrite (Hks _ eq_refl). clear Hks. rewrite length_app in *.
  destruct lvs as [|v2 lvs].
  - inversion Ht2; subst. cbn [length]. rewrite (proj2 (Z.ltb_ge _ _)) by lia.
    destruct parts; done.
  - pose proof (tuple_nonempty _ _ _ (Forall_inv_tail Hok) Ht2 ltac:(done)) as Hpos2.
    rewrite (proj2 (Z.ltb_lt _ _)), (proj2 (Z.eqb_neq _ 0)) by lia. cbn [negb andb].
    replace (pre ++ img ++ b2 ++ rest) with ((pre ++ img) ++ b2 ++ rest) by (by rewrite <- app_assoc).
    replace (Z.of_nat (length pre) + kp_store_length kp) with (Z.of_nat (length (pre ++ img)))
      by (rewrite length_app; lia).
    replace (length pre + (length img + length b2))%nat with (length (pre ++ img) + length b2)%nat
      by (rewrite length_app; lia).
    rewrite (IH (v2 :: lvs) (tail rvs)); try done; [..|rewrite length_app; lia];
      [|by apply Forall_inv_tail in Hok].
    cbn [mbind option_bind]. by destruct skip.
Qed.

(** A tuple that goes on after the last column of the index. *)
Lemma fill_too_long (skip : bool) er key_len parts : forall lvs rvs pre bytes rest my_pos,
  Forall part_ok parts -> tuple parts lvs bytes -> length lvs = length parts ->
  Z.of_nat (length pre + length bytes) < key_len < 2 ^ 16 -> right_at parts er my_pos rvs ->
  exists ks, fill_parts parts skip (pre ++ bytes ++ rest) key_len er
    (Z.of_nat (length pre)) my_pos = Some (ERR_GENERIC_INTERNAL_ERROR, ks) /\
    length ks = length parts.
Proof.
  induction parts as [|kp parts IH]; intros lvs rvs pre bytes rest my_pos Hok Ht Hl Hlen Hr.
  { exists []. by split. }
  destruct lvs as [|v lvs]; [done|]. inversion Ht as [|? ? ? ? img b2 Himg Ht2]; subst.
  pose proof (part_image_length _ _ _ Himg) as Hil. pose proof (Forall_inv Hok) as Hkp.
  cbn [fill_parts]. rewrite <- app_assoc.
  rewrite (convert_part kp v) by (done || lia). cbn [mbind option_bind].
  destruct (right_step kp parts er my_pos rvs skip (kp_store_length kp)
    (match v with Some _ => false | None => true end) Hok Hr (or_introl eq_refl)) as [-> Hr2].
  cbn [mbind option_bind]. rewrite length_app in *.
  assert ((if negb skip && negb (bool_decide (rvs = [])) then kp_store_length kp
           else kp_store_length kp) = kp_store_length kp) as -> by (by destruct (_ && _)).
  rewrite (proj2 (Z.ltb_lt _ _)), (proj2 (Z.eqb_neq _ 0)) by lia. cbn [negb andb].
  replace (pre ++ img ++ b2 ++ rest) with ((pre ++ img) ++ b2 ++ rest) by (by rewrite <- app_assoc).
  replace (Z.of_nat (length pre) + kp_store_length kp) with (Z.of_nat (length (pre ++ img)))
    by (rewrite length_app; lia).
  destruct (IH lvs (tail rvs) (pre ++ img) b2 rest _ (Forall_inv_tail Hok) Ht2
    ltac:(cbn in Hl; lia) ltac:(rewrite length_app; lia) Hr2) as (ks & -> & Hks).
  cbn [mbind option_bind]. eexists. split; [reflexivity|]. cbn [length]. by rewrite Hks.
Qed.

(** The conditions for a search without a key, as in [index_first]: only the
    upper end for the first column. *)
Definition split_first (parts : list KEY_PART_INFO) (rvs : list (option (list Z)))
  : list key_info :=
  match parts with
  | [] => []
  | kp :: _ => [Stub.mk_key (match rvs with w :: _ => is_null w | [] => false end) None
                 (match rvs with w :: _ => option_map (key_value kp) w | [] => None end)]
  end.

Definition search_keys (parts : list KEY_PART_INFO) (lvs rvs : list (option (list Z)))
  : list key_info :=
  match lvs with [] => split_first parts rvs | _ => split_keys parts lvs rvs end.

Lemma split_keys_length parts : forall lvs rvs,
  (length lvs <= length parts)%nat -> length (split_keys parts lvs rvs) = length lvs.
Proof.
  induction parts as [|kp parts IH]; intros [|v lvs] rvs H; cbn [split_keys length] in *; try lia.
  rewrite IH; lia.
Qed.

Lemma search_keys_length parts lvs rvs :
  (length lvs <= length parts)%nat -> (length (search_keys parts lvs rvs) <= length parts)%nat.
Proof.
  intros H. unfold search_keys. destruct lvs; [by destruct parts; cbn; lia|].
  by rewrite split_keys_length.
Qed.

Lemma fill_first skip er parts rvs my_pos key :
  Forall part_ok parts -> parts <> [] -> right_at parts er my_pos rvs ->
  fill_parts parts skip key 0 er 0 my_pos
  = Some (CT_SUCCESS, split_first parts (if skip then [] else rvs)).
Proof.
  intros Hok Hne Hr. destruct parts as [|kp parts]; [done|]. cbn [fill_parts].
  assert (ctc_convert_mysql_key_to_cantian kp key 0 0 0 None false = Some (0, None, false)) as ->
    by done.
  cbn [mbind option_bind].
  destruct (right_step kp parts er my_pos rvs skip 0 false Hok Hr (or_intror (conj eq_refl eq_refl)))
    as [-> _].
  cbn [mbind option_bind orb]. rewrite andb_false_r. cbn [split_first]. by destruct skip, rvs.
Qed.

Lemma fill_keys parts lvs rvs bytes rest er skip :
  Forall part_ok parts -> (0 < length parts)%nat -> Z.of_nat (length parts) <= MAX_KEY_COLUMNS ->
  tuple parts lvs bytes -> Z.of_nat (length bytes) < 2 ^ 16 -> right_at parts er 0 rvs ->
  ctc_fill_index_key_info parts (bytes ++ rest) (Z.of_nat (length bytes)) er skip
  = Some (CT_SUCCESS, search_keys parts lvs (if skip then [] else rvs)).
Proof.
  intros Hok Hne H16 Ht Hlen Hr. unfold ctc_fill_index_key_info.
  assert (fill_parts parts skip (bytes ++ rest) (Z.of_nat (length bytes)) er 0 0
    = Some (CT_SUCCESS, search_keys parts lvs (if skip then [] else rvs))) as ->.
  { destruct lvs as [|v lvs].
    - inversion Ht; subst. apply fill_first; [done| |done]. by destruct parts; [cbn in Hne; lia|].
    - apply (fill_split skip er parts (v :: lvs) rvs [] bytes rest 0); done. }
  cbn [mbind option_bind].
  pose proof (search_keys_length parts lvs (if skip then [] else rvs) (tuple_length_parts _ _ _ Ht)).
  rewrite !(proj2 (Z.ltb_ge _ _)) by lia. done.
Qed.

(** C20: the key tuple of a search is taken apart the way the server put it
    together: the engine gets one condition for every column of the tuple, with
    its value (a [CHAR] without its padding), the value of the same column in
    the upper end of the range if that goes so far, and the null flag; a
    search without a key only has the upper end of its first column.  No load
    leaves the two buffers.  A tuple that goes on after the last column is
    refused. *)
Theorem index_keys_split (parts : list KEY_PART_INFO) (lvs rvs : list (option (list Z)))
    (bytes rest : list Z) (er : option key_range) (skip : bool)
    (Hok : Forall part_ok parts) (Hne : (0 < length parts)%nat)
    (H16 : Z.of_nat (length parts) <= MAX_KEY_COLUMNS) (Ht : tuple parts lvs bytes)
    (Hlen : Z.of_nat (length bytes) < 2 ^ 16) (Hr : right_at parts er 0 rvs) :
  ctc_fill_index_key_info parts (bytes ++ rest) (Z.of_nat (length bytes)) er skip
    = Some (CT_SUCCESS, search_keys parts lvs (if skip then [] else rvs)) /\
  forall key_len, length lvs = length parts -> Z.of_nat (length bytes) < key_len < 2 ^ 16 ->
    exists ks, ctc_fill_index_key_info parts (bytes ++ rest) key_len er skip
      = Some (ERR_GENERIC_INTERNAL_ERROR, ks).
Proof.
  split; [by apply fill_keys|]. intros key_len Hl Hk. unfold ctc_fill_index_key_info.
  destruct (fill_too_long skip er key_len parts lvs rvs [] bytes rest 0 Hok Ht Hl Hk Hr)
    as (ks & Hf & Hks).
  change (fill_parts parts skip (bytes ++ rest) key_len er 0 0
    = Some (ERR_GENERIC_INTERNAL_ERROR, ks)) in Hf.
  rewrite Hf. cbn [mbind option_bind]. rewrite Hks, (proj2 (Z.ltb_ge _ _)) by lia. by exists ks.
Qed.

(** ** A key value has the bytes of the column in a row *)

(** The value of a column in a record, as key tuples have it: without the
    length of a [VARCHAR]. *)
Definition column_value (f : Field) (v : list Z) : list Z :=
  if decide (f_type f = MYSQL_TYPE_VARCHAR)
  then take (Z.to_nat (le_val (take (Z.to_nat (f_length_bytes f)) v)))
         (drop (Z.to_nat (f_length_bytes f)) v)
  else v.

(** A key over the whole column. *)
Definition key_column (kp : KEY_PART_INFO) (f : Field) : Prop :=
  kp_field kp = f /\ f_blob_flag f = false /\
  (f_real_type f = MYSQL_TYPE_STRING -> f_type f = MYSQL_TYPE_STRING).

Section KeyRow.
Import Numeric DateCnvrt Blob RowFormat.
Context {M : MySQL} {BO : ByteOrder M} {TC : TimeCodec M} {DTC : DatetimeCodec M}
  {TS : TimestampCodec M} {DC : DecimalCodec M} {L : LobStore}.

(** The bytes [bs] are the column in the row that was encoded from state [e]
    to [e']. *)
Definition stored_as (map : Z) (e e' : enc) (bs : list Z) : Prop :=
  let n := Z.of_nat (length bs) in
  if map =? CANTIAN_COL_BITS_VAR then
    rd (e_buf e') (e_off e) 2 = Some (le_bytes 2 n) /\
    rd (e_buf e') (e_off e + 2) n = Some bs
  else
    rd (e_buf e') (e_off e) n = Some bs /\
    n = (if map =? CANTIAN_COL_BITS_4 then 4 else 8).

Lemma put_rd d bs e e' :
  put d bs e = Some e' ->
  rd (e_buf e') (e_off e + d) (Z.of_nat (length bs)) = Some bs /\ e_off e' = e_off e.
Proof.
  intros H. apply put_spec in H as (Hw & Ho & _). split; [|done]. by apply (rd_wr_same (e_buf e)).
Qed.

Lemma int_copy (u : bool) n ptr :
  (1 <= n)%nat -> length ptr = n -> Forall byte ptr -> convert_numeric_datatype n n u ptr = ptr.
Proof.
  intros Hn <- Hb. unfold convert_numeric_datatype. rewrite take_ge by lia.
  destruct u; rewrite ?le_bytes_wrapU, ?le_bytes_wrapS by lia; by apply le_bytes_le_val.
Qed.

(** The status, the type and the table of a conversion of a key. *)
Lemma key_entry tab f bs r :
  supported_field f -> good_table tab ->
  (forall tab' a, good_table tab' -> mysql_field_type a = effective_type f ->
     sql_data_type a = snd (storage_class (effective_type f)) ->
     (let t := mysql_field_type a in
      if bool_decide (t = MYSQL_TYPE_TINY) || bool_decide (t = MYSQL_TYPE_SHORT)
         || bool_decide (t = MYSQL_TYPE_INT24) then
        '(ret, bs', _) ← convert_numeric_to_cantian t f bs (Z.of_nat (length bs));
        if negb (ret =? 0) then Some (CT_ERROR, bs, tab') else Some (0, take 4 bs', tab')
      else if decide (f_type f = MYSQL_TYPE_BIT) then
        Some (0, le_bytes 8 (bit_cnvt_mysql_cantian f bs), tab')
      else if decide (f_type f = MYSQL_TYPE_FLOAT) then
        Some (0, le_bytes 8 (float_to_double (le_val (take 4 bs))), tab')
      else if decide (sql_data_type a = DATETIME_DATA) then
        '(ret, bs') ← convert_datetime_to_cantian t bs f;
        if negb (ret =? 0) then Some (ret, bs, tab') else Some (0, take 8 bs', tab')
      else if decide (f_type f = MYSQL_TYPE_DECIMAL) then Some (CT_ERROR, bs, tab')
      else if decide (f_type f = MYSQL_TYPE_NEWDECIMAL) then
        '(ret, bs', len) ← decimal_mysql_to_cantian bs (f_precision f) (f_decimals f)
                            (Z.of_nat (length bs));
        if negb (ret =? 0) then Some (ret, bs, tab')
        else if sizeof_dec4 <? Z.of_nat (length bs') then None
        else Some (0, take (Z.to_nat len) bs', tab')
      else Some (0, bs, tab')) = Some (0, r, tab')) ->
  exists tab', ctc_convert_key_from_mysql_to_cantian tab f bs = Some (0, r, tab') /\ good_table tab'.
Proof.
  intros Hsup Htab H. unfold ctc_convert_key_from_mysql_to_cantian.
  destruct (aux_entry tab f Hsup Htab) as (tab' & a & -> & Htab' & Hta & Hsca).
  cbn [mbind option_bind]. exists tab'. split; [|done].
  apply H; [done|done|]. by rewrite <- Hsca.
Qed.

Lemma key_fixed tab f v cb n :
  supported_field f -> good_table tab -> Forall byte v ->
  (f_type f = effective_type f \/ f_type f = MYSQL_TYPE_STRING) ->
  fixed_numeric (effective_type f) f = true -> length v = mysql_width (effective_type f) f ->
  convert_numeric_to_cantian (effective_type f) f v n = Some (0, cb, n) ->
  length cb = cantian_width (effective_type f) ->
  exists tab', ctc_convert_key_from_mysql_to_cantian tab f v = Some (0, cb, tab') /\ good_table tab'.
Proof.
  intros Hsup Htab Hb Hty Hfix Hlv Hcb Hcl. apply key_entry; [done|done|].
  intros tab' a _ Hta Hsql. cbv zeta. rewrite Hta, Hsql. clear Hta Hsql.
  assert (f_type f = effective_type f \/ (f_type f = MYSQL_TYPE_STRING /\
    effective_type f <> MYSQL_TYPE_BIT /\ effective_type f <> MYSQL_TYPE_FLOAT /\
    effective_type f <> MYSQL_TYPE_DOUBLE)) as Hty2.
  { destruct Hty as [Hty|Hty]; [by left|]. right. split; [done|]. unfold effective_type. rewrite Hty.
    change (ty_lt MYSQL_TYPE_STRING MYSQL_TYPE_INVALID) with false. cbv iota.
    unfold enum_set_type. destruct (_ || _); repeat case_match; done. }
  clear Hty. destruct Hty2 as [Hty|(Hty & Hn1 & Hn2 & Hn3)]; rewrite Hty;
    destruct (effective_type f); try done; cbn [convert_numeric_to_cantian cantian_width mysql_width] in *;
    cbn [bool_decide decide_rel]; injection Hcb as <-; simpl;
    rewrite ?(take_ge (convert_numeric_datatype _ _ _ _)) by (rewrite Hcl; lia);
    rewrite ?int_copy, ?(take_ge v 8) by (done || lia); try done.
  all: by rewrite take_ge by (rewrite Hcl; lia).
Qed.

Lemma row_fixed f mbuf v cid e map e' cb :
  supported_field f -> good_table (e_tab e) ->
  rd mbuf (f_offset f) (f_pack_length f) = Some v ->
  fixed_numeric (effective_type f) f = true -> f_type f <> MYSQL_TYPE_NEWDECIMAL ->
  (forall n, convert_numeric_to_cantian (effective_type f) f v n = Some (0, cb, n)) ->
  length cb = cantian_width (effective_type f) ->
  encode_column true f mbuf cid e = Some (St 0, map, e') -> stored_as map e e' cb.
Proof.
  intros Hsup Htab Hrd Hfix Hnd Hcb Hcl. unfold encode_column.
  destruct (fixed_storage _ _ Hfix) as (Hsql & Hmap & Hcw & Hnv & _).
  destruct (aux_entry (e_tab e) f Hsup Htab) as (tab' & a & -> & Htab' & Hta & Hsca).
  cbn [mbind option_bind]. rewrite <- Hsca in Hsql, Hmap, Hcw. cbn [fst snd] in Hsql, Hmap, Hcw.
  assert (get_map_and_field_len a f mbuf (f_offset f) (set_tab tab' e)
    = Some (Z.of_nat (cantian_width (effective_type f)), f_offset f, set_tab tab' e)) as ->.
  { unfold get_map_and_field_len, CANTIAN_COL_BITS_4, CANTIAN_COL_BITS_8.
    assert (cantian_map_type a = 1 \/ cantian_map_type a = 2) as [Hm|Hm] by lia;
      rewrite Hm in Hcw |- *; cbn [Z.eqb Pos.eqb] in Hcw |- *; by rewrite Hcw. }
  cbn [mbind option_bind]. unfold convert_data_from_mysql_to_cantian. rewrite Hsql, Hrd.
  cbn [mbind option_bind]. rewrite Hta, Hcb. cbn [mbind option_bind].
  destruct (put 0 cb (set_tab tab' e)) as [e1|] eqn:Hput; [|done]. cbn [mbind option_bind].
  destruct (put_rd _ _ _ _ Hput) as [Hr Ho]. cbn [e_off set_tab] in Hr, Ho. rewrite Z.add_0_r in Hr.
  destruct (decide (f_type f = MYSQL_TYPE_NEWDECIMAL)); [done|]. cbn [is_ok Z.eqb negb].
  unfold CANTIAN_COL_BITS_VAR. rewrite (proj2 (Z.eqb_neq (cantian_map_type a) 3)) by lia.
  intros [= <- <-]. unfold stored_as, CANTIAN_COL_BITS_VAR, CANTIAN_COL_BITS_4.
  rewrite (proj2 (Z.eqb_neq (cantian_map_type a) 3)) by lia.
  assert (e_buf (add_off (Z.of_nat (cantian_width (effective_type f)))
    (if f_auto_increment f then set_serial (e_off e1) e1 else e1)) = e_buf e1) as ->
    by (by destruct (f_auto_increment f)).
  split; [done|]. by rewrite Hcl.
Qed.

Lemma row_temporal f mbuf v cid e map e' cb :
  supported_field f -> good_table (e_tab e) ->
  rd mbuf (f_offset f) (f_pack_length f) = Some v ->
  storage_class (effective_type f) = (2, DATETIME_DATA) ->
  convert_datetime_to_cantian (effective_type f) v f = Some (0, cb) -> length cb = 8%nat ->
  encode_column true f mbuf cid e = Some (St 0, map, e') -> stored_as map e e' cb.
Proof.
  intros Hsup Htab Hrd Hsc Hcb Hcl. unfold encode_column.
  destruct (aux_entry (e_tab e) f Hsup Htab) as (tab' & a & -> & Htab' & Hta & Hsca).
  cbn [mbind option_bind]. rewrite Hsc in Hsca. injection Hsca as Hm Hsql.
  unfold get_map_and_field_len. rewrite Hm. change (2 =? CANTIAN_COL_BITS_4) with false.
  change (2 =? CANTIAN_COL_BITS_8) with true. cbn [mbind option_bind].
  unfold convert_data_from_mysql_to_cantian. rewrite Hsql, Hrd. cbn [mbind option_bind].
  rewrite Hta, Hcb. cbn [mbind option_bind].
  destruct (put 0 cb (set_tab tab' e)) as [e1|] eqn:Hput; [|done]. cbn [mbind option_bind].
  destruct (put_rd _ _ _ _ Hput) as [Hr Ho]. cbn [e_off set_tab] in Hr, Ho. rewrite Z.add_0_r in Hr.
  cbn [is_ok Z.eqb negb]. change (2 =? CANTIAN_COL_BITS_VAR) with false.
  intros [= <- <-]. unfold stored_as. change (2 =? CANTIAN_COL_BITS_VAR) with false.
  change (2 =? CANTIAN_COL_BITS_4) with false. split; [done|]. by rewrite Hcl.
Qed.

Lemma row_decimal f mbuf v cid e map e' cb :
  supported_field f -> good_table (e_tab e) ->
  rd mbuf (f_offset f) (f_pack_length f) = Some v ->
  effective_type f = MYSQL_TYPE_NEWDECIMAL -> f_type f = MYSQL_TYPE_NEWDECIMAL ->
  (forall n, decimal_mysql_to_cantian v (f_precision f) (f_decimals f) n
     = Some (0, cb, Z.of_nat (length cb))) ->
  encode_column true f mbuf cid e = Some (St 0, map, e') -> stored_as map e e' cb.
Proof.
  intros Hsup Htab Hrd Het Hft Hcb. unfold encode_column.
  assert (storage_class (effective_type f) = (3, NUMERIC_DATA)) as Hsc by (by rewrite Het).
  destruct (aux_entry (e_tab e) f Hsup Htab) as (tab' & a & -> & Htab' & Hta & Hsca).
  cbn [mbind option_bind]. rewrite Hsc in Hsca. injection Hsca as Hm Hsql. rewrite Het in Hta.
  unfold get_map_and_field_len. rewrite Hm, Hta, Hsql.
  change (3 =? CANTIAN_COL_BITS_4) with false. change (3 =? CANTIAN_COL_BITS_8) with false.
  change (3 =? CANTIAN_COL_BITS_VAR) with true. cbn [calculate_variable_len].
  destruct (decide (NUMERIC_DATA = LOB_DATA)); [done|].
  change (bool_decide (NUMERIC_DATA = STRING_DATA)) with false. cbn [mbind option_bind andb negb].
  destruct (put 0 _ (set_tab tab' e)) as [e0|] eqn:Hp0; [|done]. cbn [mbind option_bind].
  destruct (put_rd _ _ _ _ Hp0) as [_ Ho0]. cbn [e_off set_tab] in Ho0.
  unfold convert_data_from_mysql_to_cantian.
  rewrite Hsql, Hta, Z.add_0_r, Hrd. cbn [mbind option_bind convert_numeric_to_cantian].
  rewrite Hcb. cbn [mbind option_bind].
  destruct (put 0 cb (add_off 2 e0)) as [e1|] eqn:Hp1; [|done]. cbn [mbind option_bind].
  destruct (put_rd _ _ _ _ Hp1) as [Hr1 Ho1]. cbn [e_off add_off] in Hr1, Ho1.
  destruct (decide (f_type f = MYSQL_TYPE_NEWDECIMAL)) as [_|]; [|done].
  set (e2 := if f_auto_increment f then set_serial (e_off e1) e1 else e1).
  assert (e_buf e2 = e_buf e1 /\ e_off e2 = e_off e1) as [Hb2 Ho2]
    by (unfold e2; by destruct (f_auto_increment f)).
  destruct (put (-2) _ e2) as [e3|] eqn:Hp3; [|done]. cbn [mbind option_bind is_ok Z.eqb negb].
  intros [= <- <-]. destruct (put_rd _ _ _ _ Hp3) as [Hr3 Ho3].
  apply put_spec in Hp3 as (Hw3 & _).
  rewrite length_le_bytes in Hr3. rewrite Ho2, Ho1, Ho0, Hb2 in *.
  replace (e_off e + 2 + -2) with (e_off e) in * by lia.
  unfold stored_as. change (3 =? CANTIAN_COL_BITS_VAR) with true. cbn [e_buf add_off].
  split; [done|]. rewrite (rd_wr_other _ _ _ _ _ _ Hw3) by (rewrite length_le_bytes; lia).
  by rewrite Z.add_0_r in Hr1.
Qed.

Lemma row_string f mbuf cid e map e' lb data :
  supported_field f -> good_table (e_tab e) ->
  storage_class (effective_type f) = (3, STRING_DATA) -> f_row_pack_length f <= 8000 ->
  calculate_variable_len (effective_type f) f mbuf (f_offset f)
    = Some (Z.of_nat (length data), lb) ->
  rd mbuf (f_offset f + lb) (Z.of_nat (length data)) = Some data ->
  encode_column true f mbuf cid e = Some (St 0, map, e') -> stored_as map e e' data.
Proof.
  intros Hsup Htab Hsc Hrp Hcalc Hrd. unfold encode_column.
  destruct (aux_entry (e_tab e) f Hsup Htab) as (tab' & a & -> & Htab' & Hta & Hsca).
  cbn [mbind option_bind]. rewrite Hsc in Hsca. injection Hsca as Hm Hsql.
  assert (VARCHAR_AS_BLOB (f_row_pack_length f) = false) as Hvb.
  { unfold VARCHAR_AS_BLOB, CTC_DDL_MAX_VARCHAR_COLUMN_SIZE. apply Z.ltb_ge. lia. }
  unfold get_map_and_field_len. rewrite Hm, Hta, Hsql, Hcalc, Hvb.
  change (3 =? CANTIAN_COL_BITS_4) with false. change (3 =? CANTIAN_COL_BITS_8) with false.
  change (3 =? CANTIAN_COL_BITS_VAR) with true.
  destruct (decide (STRING_DATA = LOB_DATA)); [done|]. cbn [mbind option_bind].
  rewrite andb_false_r. cbn [negb].
  destruct (put 0 _ (set_tab tab' e)) as [e0|] eqn:Hp0; [|done]. cbn [mbind option_bind].
  destruct (put_rd _ _ _ _ Hp0) as [_ Ho0]. cbn [e_off set_tab] in Ho0.
  apply put_spec in Hp0 as (Hw0 & _). cbn [e_off e_buf set_tab] in Hw0. rewrite Z.add_0_r in Hw0.
  unfold convert_data_from_mysql_to_cantian. rewrite Hsql, Hrd, Hvb. cbn [mbind option_bind negb].
  destruct (put 0 data (add_off 2 e0)) as [e1|] eqn:Hp1; [|done].
  apply put_spec in Hp1 as (Hw1 & _). cbn [e_off e_buf add_off] in Hw1. rewrite Z.add_0_r, Ho0 in Hw1.
  cbn [mbind option_bind is_ok Z.eqb negb]. intros [= <- <-].
  unfold stored_as. change (3 =? CANTIAN_COL_BITS_VAR) with true. cbn [e_buf add_off].
  by destruct (prefix_data _ _ _ _ _ Hw0 Hw1) as (? & ? & _).
Qed.
End KeyRow.

Section KeyRowClaim.
Import Numeric DateCnvrt Blob RowFormat.
Context {M : MySQL} {BO : ByteOrder M} {TC : TimeCodec M} {DTC : DatetimeCodec M}
  {TS : TimestampCodec M} {DC : DecimalCodec M} {L : LobStore}.

Lemma fixed_any_len t f v cb n m :
  fixed_numeric t f = true -> convert_numeric_to_cantian t f v n = Some (0, cb, n) ->
  convert_numeric_to_cantian t f v m = Some (0, cb, m).
Proof. intros Hfix H. destruct t; try done; cbn in *; by injection H as <-. Qed.

(** A value that is not trimmed and not empty is converted as it is. *)
Lemma side_converted tab f v cells bs tab' :
  v <> [] -> 0 < cells -> ctc_convert_key_from_mysql_to_cantian tab f v = Some (0, bs, tab') ->
  convert_side tab f true (Some v) cells = Some (0, Some bs, tab', cells - 1).
Proof.
  intros Hv Hc H. destruct v as [|b v]; [done|]. unfold convert_side.
  rewrite (proj2 (Z.leb_gt _ _)) by lia. by rewrite H.
Qed.

(** A string is passed as it is. *)
Lemma side_string tab f data cells :
  supported_field f -> good_table tab -> 0 < cells ->
  effective_type f = MYSQL_TYPE_VARCHAR \/ effective_type f = MYSQL_TYPE_STRING ->
  f_type f = effective_type f \/ f_type f = MYSQL_TYPE_STRING ->
  exists tab' c, convert_side tab f true (Some data) cells = Some (0, Some data, tab', c).
Proof.
  intros Hsup Htab Hc Het Hty. destruct data as [|b data]; [by exists tab, cells|].
  destruct (key_entry tab f (b :: data) (b :: data) Hsup Htab) as (tab' & H & _).
  { intros tab' a _ Hta Hsql. cbv zeta. rewrite Hta, Hsql. clear Hta Hsql.
    destruct Hty as [-> | ->], Het as [-> | ->]; done. }
  exists tab', (cells - 1). by apply side_converted.
Qed.

Lemma key_plain kp f v :
  key_column kp f -> effective_type f <> MYSQL_TYPE_STRING ->
  f_type f = effective_type f \/ f_type f = MYSQL_TYPE_STRING ->
  key_value kp v = v.
Proof.
  intros (Hf & Hb & Hreal) Hne Hty. unfold key_value. rewrite Hf.
  case_bool_decide as Hr; [|by rewrite andb_false_r].
  exfalso. specialize (Hreal Hr). apply Hne. unfold effective_type. rewrite Hreal, Hr.
  reflexivity.
Qed.

Lemma plain_value f v :
  effective_type f <> MYSQL_TYPE_VARCHAR ->
  f_type f = effective_type f \/ f_type f = MYSQL_TYPE_STRING -> column_value f v = v.
Proof.
  intros Hne Hty. unfold column_value. destruct (decide _) as [E|]; [|done].
  rewrite E in Hty. destruct Hty as [Hty|]; [|done]. congruence.
Qed.

Lemma key_matches_row kp f v mbuf cid e map e' tab cells :
  column_ok f v -> key_column kp f -> 0 < f_pack_length f -> good_table tab -> 0 < cells ->
  good_table (e_tab e) -> rd mbuf (f_offset f) (f_pack_length f) = Some v ->
  encode_column true f mbuf cid e = Some (St 0, map, e') ->
  exists bs tab' c,
    convert_side tab f true (Some (key_value kp (column_value f v))) cells
      = Some (0, Some bs, tab', c) /\ stored_as map e e' bs.
Proof.
  intros (Hsup & Hfo & Hb & Hlv & Hrp & Hty0 & Hst) Hkc Hpl Htab Hc Hetab Hrd Henc.
  assert (f_type f = effective_type f \/ f_type f = MYSQL_TYPE_STRING) as Hty
    by (destruct Hty0 as [?|[? _]]; auto).
  assert (v <> []) as Hv by (intros ->; cbn in Hlv; lia).
  destruct Hst as [Hfix Hlw _ Hnan|Het Hft Hdec|Htmp|Het Hlb Hfit Hdl|Het Hreal Hrpl].
  - destruct (numeric_codec _ f v 0 Hfix Hlw Hb Hnan) as (cb & Hcb & Hcl & _).
    assert (effective_type f <> MYSQL_TYPE_VARCHAR /\ effective_type f <> MYSQL_TYPE_STRING /\
      effective_type f <> MYSQL_TYPE_NEWDECIMAL) as (Hn1 & Hn2 & Hn3)
      by (destruct (effective_type f); done).
    rewrite plain_value, (key_plain kp f) by done.
    destruct (key_fixed tab f v cb 0) as (tab' & Hk & _); try done.
    exists cb, tab', (cells - 1). split; [by apply side_converted|].
    apply (row_fixed f mbuf v cid e); try done.
    + destruct Hty as [-> | ->]; done.
    + intros n. by apply (fixed_any_len _ f v cb 0).
  - destruct (decimal_codec f v 0 Hdec) as (cb & len & Hcb & Hcl & _ & Hlr & _).
    rewrite plain_value, (key_plain kp f) by (done || by rewrite Het).
    cbn [convert_numeric_to_cantian] in Hcb.
    assert (forall n, decimal_mysql_to_cantian v (f_precision f) (f_decimals f) n
      = Some (0, cb, Z.of_nat (length cb))) as Hany.
    { intros n. unfold decimal_mysql_to_cantian in *.
      destruct (binary2my_decimal v _ _) as [ret d]. destruct (negb (ret =? E_DEC_OK)) eqn:Er.
      - injection Hcb as -> _ _. done.
      - destruct (DecDigits.convert_mydec_to_dec4 d) as [d4|]; [|done]. cbn [mbind option_bind] in *.
        injection Hcb as -> <- Hl. by rewrite Hcl, Hl. }
    destruct (key_entry tab f v cb Hsup Htab) as (tab' & Hk & _).
    { intros tab' a _ Hta Hsql. cbv zeta. rewrite Hta, Hsql, Het, Hft, Hany. clear Hta Hsql.
      change (storage_class MYSQL_TYPE_NEWDECIMAL) with (3, NUMERIC_DATA).
      rewrite !bool_decide_eq_false_2 by done. cbn [orb snd]. do 4 rewrite decide_False by done.
      rewrite decide_True by done. cbn [mbind option_bind negb Z.eqb].
      rewrite (proj2 (Z.ltb_ge _ _)); [by rewrite Nat2Z.id, take_ge by lia|].
      destruct Hdec as (Hp & Hs & Hsp & _).
      unfold sizeof_dec4, DecDigits.DEC4_CELL_SIZE. unfold DecDigits.ceil_div in Hlr.
      rewrite Hcl. dlia. }
    exists cb, tab', (cells - 1). split; [by apply side_converted|].
    by apply (row_decimal f mbuf v cid e).
  - destruct (temporal_codec _ f v Htmp) as (cb & Hcb & Hcl & _).
    destruct (temporal_storage _ _ _ Htmp) as (Hsc & Hnv & _).
    assert (effective_type f <> MYSQL_TYPE_STRING) as Hns
      by (intros E; rewrite E in Hsc; discriminate).
    rewrite plain_value, (key_plain kp f) by done.
    assert (effective_type f <> MYSQL_TYPE_TINY /\ effective_type f <> MYSQL_TYPE_SHORT /\
      effective_type f <> MYSQL_TYPE_INT24 /\ f_type f <> MYSQL_TYPE_BIT /\
      f_type f <> MYSQL_TYPE_FLOAT) as (H1 & H2 & H3 & H4 & H5).
    { destruct Htmp as (_ & _ & _ & Htmp). destruct Hty as [-> | ->];
        destruct (effective_type f); done. }
    destruct (key_entry tab f v cb Hsup Htab) as (tab' & Hk & _).
    { intros tab' a _ Hta Hsql. cbv zeta. rewrite Hta, Hsql, Hsc. cbn [snd].
      rewrite !bool_decide_eq_false_2 by done. cbn [orb]. do 2 rewrite decide_False by done.
      rewrite decide_True by done. rewrite Hcb. cbn [mbind option_bind negb Z.eqb].
      by rewrite take_ge by lia. }
    exists cb, tab', (cells - 1). split; [by apply side_converted|].
    by apply (row_temporal f mbuf v cid e).
  - destruct (varchar_parts f mbuf v Hb Hlv Hrd Het Hlb Hfit) as (Hlen & Hcalc & Hd).
    assert (f_type f = MYSQL_TYPE_VARCHAR) as Hft.
    { destruct Hty as [Hty|Hty]; [congruence|]. unfold effective_type in Het. rewrite Hty in Het.
      change (ty_lt MYSQL_TYPE_STRING MYSQL_TYPE_INVALID) with false in Het. cbv iota in Het.
      unfold enum_set_type in Het. destruct (_ || _); repeat case_match; done. }
    rewrite (key_plain kp f) by (done || by rewrite Het).
    unfold column_value. rewrite decide_True by done.
    destruct (side_string tab f (take (Z.to_nat (le_val (take (Z.to_nat (f_length_bytes f)) v)))
      (drop (Z.to_nat (f_length_bytes f)) v)) cells) as (tab' & c & ->); auto.
    eexists _, tab', c. split; [reflexivity|].
    eapply (row_string f mbuf cid e); try done; [by rewrite Het|lia].
  - destruct (char_parts f mbuf v Hlv Hrd Het Hreal Hrpl) as (Hlen & Hcalc & Hd).
    assert (f_type f = MYSQL_TYPE_STRING) as Hft by (destruct Hty; congruence).
    rewrite plain_value by (done || by rewrite Het).
    assert (key_value kp v = take (trim_pad v (f_pad_char f) (length v)) v) as ->.
    { destruct Hkc as (Hf & Hbl & _). unfold key_value, var_part. rewrite Hf, Hft, Hbl, Hreal. done. }
    destruct (side_string tab f (take (trim_pad v (f_pad_char f) (length v)) v) cells)
      as (tab' & c & ->); auto.
    eexists _, tab', c. split; [reflexivity|].
    eapply (row_string f mbuf cid e); try done; [by rewrite Het|lia].
Qed.
End KeyRowClaim.

(** C18: a search value finds its rows: for every indexed column (integers,
    [FLOAT], [DOUBLE], [BIT], [DECIMAL], temporal types, [CHAR], [VARCHAR],
    [ENUM], [SET]) the bytes that the search passes to the engine for a value
    are exactly the bytes which the column has in the row of a record with
    that value, length word or storage width included.  As in the row format,
    BIT columns of 3, 5, 6 or 7 bytes and NaN in a FLOAT column are excluded
    ([column_ok]); so are prefixes of blobs. *)
Theorem index_key_matches_row (M : MySQL) (BO : ByteOrder M) (TC : TimeCodec M)
    (DTC : DatetimeCodec M) (TS : TimestampCodec M) (DC : DecimalCodec M) (L : Blob.LobStore)
    (kp : KEY_PART_INFO) (f : Field) (v mbuf : list Z) (cid map cells : Z)
    (e e' : RowFormat.enc) (tab : aux_table)
    (Hv : RowFormat.column_ok f v) (Hkp : key_column kp f) (Hpl : 0 < f_pack_length f)
    (Htab : RowFormat.good_table tab) (Hc : 0 < cells) (Hetab : RowFormat.good_table (RowFormat.e_tab e))
    (Hrd : rd mbuf (f_offset f) (f_pack_length f) = Some v)
    (Henc : RowFormat.encode_column true f mbuf cid e = Some (RowFormat.St 0, map, e')) :
  exists bs tab' c,
    convert_side tab f true (Some (key_value kp (column_value f v))) cells
      = Some (0, Some bs, tab', c) /\ stored_as map e e' bs.
Proof. by apply (key_matches_row kp f v mbuf cid e map e' tab cells). Qed.

(** ** The handler *)

Abbreviation ctc_handler_t := Session.ctc_handler_t.

(** What a search leaves in its arguments and returns: the row, the handler's
    connection with the flag [cursor_valid], and [need_init]. *)
Record index_answer (E : Type) := mk_answer {
  ia_ret : ct_errno_t; ia_row : option row; ia_tch : ctc_handler_t; ia_valid : bool;
  ia_need_init : bool; ia_engine : E }.
Arguments mk_answer {E}.
Arguments ia_ret {E}.
Arguments ia_row {E}.
Arguments ia_tch {E}.
Arguments ia_valid {E}.
Arguments ia_need_init {E}.
Arguments ia_engine {E}.

(** The engine's functions for indexes, behind the message queue ([Stub]);
    [ctc_index_read] gets the select mode and whether duplicates are replaced.
    The calls that end a scan and [ctc_scan_records] return their code and the
    number of rows. *)
Class IndexEngine (E : Type) := {
  eng_index_read : ctc_handler_t -> Stub.index_key_info_t -> Z -> bool -> E -> index_answer E;
  eng_index_end : ctc_handler_t -> E -> ct_errno_t * ctc_handler_t * E;
  eng_rnd_end : ctc_handler_t -> E -> ct_errno_t * ctc_handler_t * E;
  eng_scan_records : ctc_handler_t -> option string -> E -> ct_errno_t * Z * ctc_handler_t * E }.

Definition HA_READ_PREFIX_LAST : Z := 6.
Definition HA_READ_AFTER_KEY : Z := 3.
Definition HA_READ_BEFORE_KEY : Z := 4.

Definition action_code (a : expected_cursor_action_t) : Z :=
  match a with
  | EXP_CURSOR_ACTION_SELECT => 0 | EXP_CURSOR_ACTION_UPDATE => 1
  | EXP_CURSOR_ACTION_DELETE => 2 | EXP_CURSOR_ACTION_INDEX_ONLY => 3
  end.

(** The action of a search and whether it only reads the index. *)
Definition read_action (exclusive : bool) (cmd : enum_sql_command) (covering : bool)
  : expected_cursor_action_t * bool :=
  let action := if covering then EXP_CURSOR_ACTION_INDEX_ONLY else EXP_CURSOR_ACTION_SELECT in
  if exclusive then
    if decide (cmd = SQLCOM_DELETE) then (EXP_CURSOR_ACTION_DELETE, false)
    else if decide (cmd <> SQLCOM_ALTER_TABLE) then (EXP_CURSOR_ACTION_UPDATE, false)
    else (action, covering)
  else (action, covering).

Section Search.
Context {M : MySQL} {R E : Type} {RB : RecordBuffer R} {Eng : ScanEngine E} {IE : IndexEngine E}.

(** The members of [ha_ctc] that searches use; [None] is [MAX_KEY],
    [cnvrt_index] tells which function [cnvrt_to_mysql_record] is. *)
Record search_state := mk_search {
  scan : scan_state R E;
  world : Session.world;
  m_tch : ctc_handler_t;
  cursor_valid : bool;                           (* m_tch.cursor_valid *)
  active_index : option nat;
  m_index_sorted : bool;
  m_is_covering_index : bool;
  m_ror_intersect : bool;
  cnvrt_index : bool;
  m_replace : bool;                              (* m_is_replace || m_is_insert_dup *)
  tab : aux_table }.

(** What is fixed during a statement. *)
Record search_env := mk_senv {
  sess : Session.env;
  handler : Z;                                   (* the address of the handler *)
  keys : list (list KEY_PART_INFO * string); (* actual_key_parts of them, and the name *)
  cantian_record_to_mysql_record : Z -> list Z -> R -> option R;
  cantian_index_record_to_mysql_record : Z -> list Z -> R -> option R;
  rec_len : Z;
  cols_read : list bool;
  cols_written : list bool;
  mem_ok : bool;                                 (* my_malloc *)
  buf_ok : bool;                                 (* m_read_buf is there or can be allocated *)
  exclusive : bool;                              (* m_select_lock == EXCLUSIVE_LOCK *)
  own_cursor : bool;                             (* a temporary table but a transactional one *)
  is_log_table : bool;
  passes_rnd_end : bool;                         (* a passed-through DDL operation *)
  ror_intersect : bool;                          (* the plan intersects row ids *)
  end_range : option key_range;
  index_skip_scan : bool;
  select_mode : Z;
  blob_fields : Z;
  rec_length : Z;
  data_ok : bool }.

Definition set_scan (c : scan_state R E) (s : search_state) : search_state :=
  mk_search c (world s) (m_tch s) (cursor_valid s) (active_index s) (m_index_sorted s)
    (m_is_covering_index s) (m_ror_intersect s) (cnvrt_index s) (m_replace s) (tab s).
Definition set_conn (w : Session.world) (t : ctc_handler_t) (valid : bool) (s : search_state)
  : search_state :=
  mk_search (scan s) w t valid (active_index s) (m_index_sorted s)
    (m_is_covering_index s) (m_ror_intersect s) (cnvrt_index s) (m_replace s) (tab s).
Definition set_index (i : option nat) (sorted : bool) (s : search_state) : search_state :=
  mk_search (scan s) (world s) (m_tch s) (cursor_valid s) i sorted
    (m_is_covering_index s) (m_ror_intersect s) (cnvrt_index s) (m_replace s) (tab s).
Definition set_covering (covering ror cnvrt : bool) (s : search_state) : search_state :=
  mk_search (scan s) (world s) (m_tch s) (cursor_valid s) (active_index s) (m_index_sorted s)
    covering ror cnvrt (m_replace s) (tab s).
Definition set_table (t : aux_table) (s : search_state) : search_state :=
  mk_search (scan s) (world s) (m_tch s) (cursor_valid s) (active_index s) (m_index_sorted s)
    (m_is_covering_index s) (m_ror_intersect s) (cnvrt_index s) (m_replace s) t.

Definition set_cursor (addr ref : Z) (t : ctc_handler_t) : ctc_handler_t :=
  Session.mk_tch (Session.tch_thd_id t) (Session.tch_sess_addr t) (Session.tch_ctx_addr t) addr (Session.pre_sess_addr t) ref
    (Session.tch_bind_core t) (Session.tch_sql_command t) (Session.tch_query_id t) (Session.tch_sql_stat_start t)
    (Session.change_data_capture t) (Session.is_broadcast t) (Session.read_only_in_ct t) (Session.tch_msg_buf t).

Section WithEnv.
Context (V : search_env).
Let SE := sess V.
Let t := Session.thd SE.

(** The conversion and the columns of the following fetches ([Prefetch]). *)
Definition scan_env_of (s : search_state) : scan_env R :=
  Prefetch.mk_env
    (if cnvrt_index s then cantian_index_record_to_mysql_record V
     else cantian_record_to_mysql_record V)
    (rec_len V) t false (cols_read V) (cols_written V)
    (if m_is_covering_index s then
       parts ← (i ← active_index s; keys V !! i);
       Some (map (fun kp => f_index (kp_field kp)) (fst parts))
     else None)
    (mem_ok V).

(** [index_init]; a failure of an allocation is returned as it is. *)
Definition index_init (index : nat) (sorted : bool) (s : search_state)
  : option (ha_code * search_state) :=
  let s := if ror_intersect V then set_covering (m_is_covering_index s) true (cnvrt_index s) s else s in
  let '(code, c) := Prefetch.index_init (Session.srv SE) t (blob_fields V) (rec_length V) (data_ok V)
                      (scan s) in
  if decide (code <> OK) then Some (code, set_scan c s) else
  '(tch, w) ← Session.update_member_tch SE (m_tch s) false (world s);
  let s := set_index (Some index) sorted (set_scan c s) in
  let tch := if Session.cursor_ref tch <=? 0 then set_cursor Session.INVALID_VALUE64 1 tch
             else set_cursor (Session.cursor_addr tch) (Session.cursor_ref tch + 1) tch in
  Some (OK, set_conn w tch false s).

(** The code of [ctc_index_end] is asserted to be 0. *)
Definition index_end (s : search_state) : option (ha_code * search_state) :=
  let s := set_index None (m_index_sorted s) s in
  s ← (if own_cursor V then
         let '(ret, tch, e) := eng_index_end (m_tch s) (engine (scan s)) in
         if decide (ret <> CT_SUCCESS) then None
         else Some (set_scan (set_engine e (scan s)) (set_conn (world s) tch (cursor_valid s) s))
       else Some s);
  let ref := Session.cursor_ref (m_tch s) - 1 in
  Some (OK, set_conn (world s) (set_cursor (Session.cursor_addr (m_tch s)) ref (m_tch s))
              (if ref <=? 0 then false else cursor_valid s) s).

Definition rnd_end (s : search_state) : option (ha_code * search_state) :=
  if passes_rnd_end V then Some (OK, s) else
  '(code, s) ←
    (if own_cursor V || is_log_table V then
       let '(ret, tch, e) := eng_rnd_end (m_tch s) (engine (scan s)) in
       '(_, w) ← Session.mark_rollback (fst (check_error_code_to_mysql t ret)) (world s);
       Some (convert (checked t ret), set_scan (set_engine e (scan s)) (set_conn w tch (cursor_valid s) s))
     else Some (OK, s));
  Some (code, set_conn (world s) (set_cursor Session.INVALID_VALUE64 (Session.cursor_ref (m_tch s)) (m_tch s)) false s).

(** The search as the engine gets it. *)
Definition search_key (s : search_state) (find_flag : Z) (action : expected_cursor_action_t)
    (name : string) (ks : list Stub.key_info) : Stub.index_key_info_t :=
  Stub.mk_index_key (negb (cursor_valid s)) (wrapU 16 find_flag) (action_code action)
    (m_index_sorted s) (index_skip_scan V) name ks.

(** The engine's part of [index_read]: the call and what it leaves in the
    session. *)
Definition engine_read (ki : Stub.index_key_info_t) (buf : R) (s : search_state)
  : option (ha_code * R * search_state) :=
  if negb (buf_ok V) then Some (convert ERR_ALLOC_MEMORY, buf, s) else
  '(tch, w) ← Session.update_member_tch SE (m_tch s) true (world s);
  let a := eng_index_read tch ki (select_mode V) (m_replace s) (engine (scan s)) in
  '(_, w) ← Session.update_sess_ctx_by_tch SE (ia_tch a) w;
  '(_, w) ← (if ia_need_init a && negb (own_cursor V)
             then Session.update_sess_ctx_cursor_by_tch SE (handler V) (ia_tch a) w
             else Some (tt, w));
  '(_, w) ← Session.mark_rollback (fst (check_error_code_to_mysql t (ia_ret a))) w;
  let s := set_conn w (ia_tch a) (ia_valid a) (set_scan (set_engine (ia_engine a) (scan s)) s) in
  '(code, buf) ← process_cantian_record (scan_env_of s) buf (ia_ret a) (ia_row a)
                   HA_ERR_KEY_NOT_FOUND;
  Some (code, buf, s).

Definition has_right_key : bool :=
  negb (index_skip_scan V)
  && match end_range V with Some r => negb (kr_length r =? 0) | None => false end.

Definition index_read (buf : R) (key : list Z) (key_len find_flag : Z) (s : search_state)
  : option (ha_code * R * search_state) :=
  let c := scan s in
  let s := match m_rec_buf c with
           | Some b => if rb_records b >? 0 then set_scan (reset_rec_buf false c) s else s
           | None => s
           end in
  let covering := if m_ror_intersect s then false else m_is_covering_index s in
  let '(action, covering) := read_action (exclusive V) (sql_command t) covering in
  let s := set_covering covering (m_ror_intersect s) covering s in
  '(parts, name) ← (i ← active_index s; keys V !! i);
  '(ret, ks) ← ctc_fill_index_key_info parts key key_len (end_range V) (index_skip_scan V);
  if decide (ret <> CT_SUCCESS) then Some (RAW ret, buf, s) else
  '(ret, ks, tab) ← ctc_convert_index_datatype (tab s) parts ks has_right_key;
  let s := set_table tab s in
  if negb (ret =? 0) then Some (STATUS ret, buf, s) else
  engine_read (search_key s find_flag action name ks) buf s.

Definition index_read_last (buf : R) (key : list Z) (key_len : Z) (s : search_state)
  : option (ha_code * R * search_state) := index_read buf key key_len HA_READ_PREFIX_LAST s.

(** The end of an empty index is the end of the file. *)
Definition end_of_file (code : ha_code) : ha_code :=
  if decide (code = HA_ERR_KEY_NOT_FOUND) then HA_ERR_END_OF_FILE else code.

Definition index_first (buf : R) (s : search_state) : option (ha_code * R * search_state) :=
  let s := set_conn (world s) (set_cursor Session.INVALID_VALUE64 (Session.cursor_ref (m_tch s)) (m_tch s))
             false s in
  '(code, buf, s) ← index_read buf [] 0 HA_READ_AFTER_KEY s;
  Some (end_of_file code, buf, s).

Definition index_last (buf : R) (s : search_state) : option (ha_code * R * search_state) :=
  '(code, buf, s) ← index_read buf [] 0 HA_READ_BEFORE_KEY s;
  Some (end_of_file code, buf, s).

(** [index_next], [index_next_same] and [index_prev] *)
Definition index_next (buf : R) (s : search_state) : option (ha_code * R * search_state) :=
  '(code, buf, c) ← index_fetch (scan_env_of s) (buf_ok V) buf (scan s);
  Some (code, buf, set_scan c s).

(** The number of rows, by the active index if there is one; the code of the
    engine is asserted to be 0. *)
Definition records (s : search_state) : option (Z * search_state) :=
  '(tch, w) ← Session.update_member_tch SE (m_tch s) true (world s);
  name ← (match active_index s with
          | None => Some None
          | Some i => k ← keys V !! i; Some (Some (snd k))
          end);
  let '(ret, n, tch, e) := eng_scan_records tch name (engine (scan s)) in
  '(_, w) ← Session.update_sess_ctx_by_tch SE tch w;
  if decide (ret <> CT_SUCCESS) then None
  else Some (n, set_conn w tch (cursor_valid s) (set_scan (set_engine e (scan s)) s)).

Definition records_from_index (inx : nat) (s : search_state) : option (Z * search_state) :=
  '(n, s) ← records (set_index (Some inx) (m_index_sorted s) s);
  Some (n, set_index None (m_index_sorted s) s).

End WithEnv.

(** What the engine promises: the rows it finds for a search, the first of
    which it returns and the others of which its cursor still has ([row]s in
    the order of the index).  Searches do not check foreign keys. *)
Class IndexLaws (rows_of : E -> list row) (found : Stub.index_key_info_t -> E -> list row) : Prop := {
  index_read_errors t ki mode b e : no_fk_error (ia_ret (eng_index_read t ki mode b e));
  index_read_ok t ki mode b e :
    let a := eng_index_read t ki mode b e in
    ia_ret a = CT_SUCCESS ->
    match ia_row a with
    | Some r => found ki e = r :: rows_of (ia_engine a) /\ eng_position (ia_engine a) = snd r
    | None => found ki e = [] /\ rows_of (ia_engine a) = []
    end }.

End Search.

Arguments search_state : clear implicits.
Arguments search_state R E {RB}.
Arguments search_env : clear implicits.

(** ** Searches return what the engine finds *)

Section Keys.
Context {M : MySQL}.

(** The value [v] of a column is converted to [bs]. *)
Definition encodes (f : Field) (v bs : list Z) : Prop :=
  forall tab, RowFormat.good_table tab ->
  exists tab', ctc_convert_key_from_mysql_to_cantian tab f v = Some (0, bs, tab') /\
    RowFormat.good_table tab'.

Definition side_encoded (f : Field) (wanted : bool) (k k' : option (list Z)) : Prop :=
  match k with
  | Some ((_ :: _) as v) => if wanted then exists bs, k' = Some bs /\ encodes f v bs else k' = k
  | _ => k' = k
  end.

Inductive keys_encoded (has_right : bool)
  : list KEY_PART_INFO -> list Stub.key_info -> list Stub.key_info -> Prop :=
  | ke_nil parts : keys_encoded has_right parts [] []
  | ke_cons kp parts k k' ks ks' :
      Stub.is_key_null k' = Stub.is_key_null k ->
      side_encoded (kp_field kp) true (Stub.left_key k) (Stub.left_key k') ->
      side_encoded (kp_field kp) has_right (Stub.right_key k) (Stub.right_key k') ->
      keys_encoded has_right parts ks ks' ->
      keys_encoded has_right (kp :: parts) (k :: ks) (k' :: ks').

Lemma convert_side_ok tab f (wanted : bool) k k' cells :
  RowFormat.good_table tab -> side_encoded f wanted k k' -> 0 < cells ->
  exists tab' c, convert_side tab f wanted k cells = Some (0, k', tab', c) /\
    RowFormat.good_table tab' /\ cells - 1 <= c.
Proof.
  intros Htab Hs Hc. unfold convert_side.
  destruct k as [[|x v]|]; cbn [side_encoded] in Hs;
    [subst k'; exists tab, cells; split; [done|]; split; [done|lia]| |
     subst k'; exists tab, cells; split; [done|]; split; [done|lia]].
  destruct wanted.
  - destruct Hs as (bs & -> & He). rewrite (proj2 (Z.leb_gt _ _)) by lia.
    destruct (He tab Htab) as (tab' & -> & Htab'). cbn [mbind option_bind].
    exists tab', (cells - 1). split; [done|]. split; [done|lia].
  - subst k'. exists tab, cells. split; [done|]. split; [done|lia].
Qed.

Lemma convert_keys_ok has_right parts ks ks' : forall tab cells,
  RowFormat.good_table tab -> keys_encoded has_right parts ks ks' ->
  2 * Z.of_nat (length ks) <= cells ->
  exists tab', convert_keys tab parts ks has_right cells = Some (0, ks', tab') /\
    RowFormat.good_table tab'.
Proof.
  intros tab cells Htab Hk. revert tab cells Htab.
  induction Hk as [parts|kp parts k k' ks ks' Hn Hl Hr Hk IH]; intros tab cells Htab Hc.
  { exists tab. by split. }
  cbn [convert_keys]. cbn [length] in Hc.
  destruct (convert_side_ok tab _ _ _ _ cells Htab Hl ltac:(lia)) as (tab1 & c1 & -> & Htab1 & Hc1).
  cbn [mbind option_bind negb Z.eqb].
  destruct (convert_side_ok tab1 _ _ _ _ c1 Htab1 Hr ltac:(lia)) as (tab2 & c2 & -> & Htab2 & Hc2).
  cbn [mbind option_bind negb Z.eqb].
  destruct (IH tab2 c2 Htab2 ltac:(lia)) as (tab3 & -> & Htab3). cbn [mbind option_bind].
  exists tab3. rewrite <- Hn. split; [|done]. by destruct k'.
Qed.

End Keys.

(** ** What the session keeps of a search *)

Lemma update_member_ok SE tch b w c :
  Session.w_ctx w = Some c ->
  exists tch' w' c', Session.update_member_tch SE tch b w = Some (tch', w') /\
    Session.w_ctx w' = Some c' /\ Session.cursors_map c' = Session.cursors_map c /\
    Session.invalid_cursors c' = Session.invalid_cursors c.
Proof.
  intros Hc. unfold Session.update_member_tch, Session.bind, Session.get_ctx, Session.put_ctx,
    Session.ret. rewrite Hc. destruct (_ =? _); eexists _, _, _; (split; [reflexivity|]); done.
Qed.

Lemma update_sess_ok SE tch w c :
  Session.w_ctx w = Some c ->
  exists w' c', Session.update_sess_ctx_by_tch SE tch w = Some (tt, w') /\
    Session.w_ctx w' = Some c' /\ Session.cursors_map c' = Session.cursors_map c /\
    Session.invalid_cursors c' = Session.invalid_cursors c.
Proof.
  intros Hc. unfold Session.update_sess_ctx_by_tch, Session.get_or_init_sess_ctx, Session.bind,
    Session.get_ctx, Session.put_ctx, Session.ret. rewrite Hc.
  eexists _, _. split; [reflexivity|]. done.
Qed.

(** A session with few cursors registers the cursor without freeing others. *)
Lemma update_cursor_ok SE h tch w c :
  Session.w_ctx w = Some c -> Session.total_csize c + 1 < Session.SESSION_CURSOR_NUM ->
  exists w' c', Session.update_sess_ctx_cursor_by_tch SE h tch w = Some (tt, w') /\
    Session.w_ctx w' = Some c' /\
    (Session.cursor_addr tch <> Session.INVALID_VALUE64 ->
     Session.cursors_map c' !! h = Some (Session.cursor_addr tch)).
Proof.
  intros Hc Hn. unfold Session.update_sess_ctx_cursor_by_tch.
  destruct (_ =? _) eqn:Hi; zb; [exists w, c; by repeat split|].
  assert (forall inv, Z.of_nat (length (default [] inv)) <= Z.of_nat (length (default []
      (Session.invalid_cursors c))) + (match Session.cursors_map c !! h with Some _ => 1 | None => 0 end) ->
    Session.total_csize (Session.set_cursors (<[h:=Session.cursor_addr tch]> (Session.cursors_map c))
      inv c) < Session.SESSION_CURSOR_NUM) as Hsz.
  { intros inv Hl. unfold Session.total_csize in *. cbn [Session.cursors_map Session.invalid_cursors
      Session.set_cursors]. rewrite map_size_insert. revert Hl. destruct (Session.cursors_map c !! h); intros; unfold id in *; lia. }
  unfold Session.the_ctx, Session.bind, Session.put_ctx, Session.ret. rewrite Hc.
  cbn [mbind option_bind].
  destruct (Session.cursors_map c !! h) as [cur|] eqn:Hh.
  - destruct (cur =? _) eqn:He; zb.
    { subst cur. exists w, c. by repeat split. }
    rewrite Z.geb_leb, (proj2 (Z.leb_gt _ _)) by (apply Hsz; cbn [default from_option id];
      rewrite length_app; cbn [length]; lia).
    eexists _, _. split; [reflexivity|]. split; [reflexivity|]. intros _. apply lookup_insert_eq.
  - destruct (Session.invalid_cursors c) as [inv|] eqn:Hinv.
    + rewrite Z.geb_leb, (proj2 (Z.leb_gt _ _)) by (apply Hsz; cbn; lia).
      eexists _, _. split; [reflexivity|]. split; [reflexivity|]. intros _. apply lookup_insert_eq.
    + eexists _, _. split; [reflexivity|]. split; [reflexivity|]. intros _. apply lookup_insert_eq.
Qed.

Section SearchRefinement.
Context {M : MySQL} {R E : Type} {RB : RecordBuffer R} {RBL : RecordBufferLaws RB}
  {Eng : ScanEngine E} {rows_of : E -> list row} {EL : ScanLaws Eng rows_of} {IE : IndexEngine E}
  {found : Stub.index_key_info_t -> E -> list row} {IL : IndexLaws rows_of found}.
Context (V : search_env R).

(** The buffers of a scan between two calls: those of an open scan are, see
    [pending_idle]. *)
Definition idle (c : scan_state R E) : Prop :=
  buffers_ok c /\
  match m_rec_buf c with
  | Some b => 0 <= rb_max_records b < 100 /\ 0 <= rb_records b /\
      (rb_max_records b = 0 -> rb_records b = 0 -> cur_pos_in_buf c = INVALID_MAX_UINT32)
  | None => cur_pos_in_buf c = INVALID_MAX_UINT32
  end.

Lemma pending_idle env rows c :
  pending (scan := rows_of) env rows c ->
  match m_rec_buf c with Some b => 0 <= rb_records b | None => True end -> idle c.
Proof.
  intros Hp H0. destruct Hp as [s Hb Hpos Hbuf|s b Hb HM Hr Hbuf|s b Hb HM Hr Hbuf Hpos Hn Hout|
    p batch pb lens ids e b base idx N MX s HM Hp Hbuf Hpb Hlens Hids Hcb Hbase Hidx Hr Hsh Hflag Hout];
    (split; [done|]).
  - destruct (m_rec_buf s) as [b|]; [|done]. rewrite Hb. by split; [lia|].
  - rewrite Hb. split; [lia|]. split; lia.
  - rewrite Hb in *. split; [lia|]. split; lia.
  - change (m_rec_buf s) with (Some b) in *. cbv iota in *. fold MX. split; [lia|]. split; [done|lia].
Qed.

(** No row of an earlier batch is current: nothing of a batch is left, or the
    record buffer is not empty and [index_read] resets it. *)
Definition ready (c : scan_state R E) : Prop :=
  buffers_ok c /\
  match m_rec_buf c with
  | Some b => 0 <= rb_max_records b < 100 /\
      (0 < rb_records b \/ (rb_records b = 0 /\ cur_pos_in_buf c = INVALID_MAX_UINT32))
  | None => cur_pos_in_buf c = INVALID_MAX_UINT32
  end.

(** The scan that [index_read] starts from. *)
Definition fresh (c : scan_state R E) : scan_state R E :=
  match m_rec_buf c with
  | Some b => if rb_records b >? 0 then reset_rec_buf false c else c
  | None => c
  end.

Lemma idle_pending env c e :
  idle c -> pending (scan := rows_of) env (rows_of e) (set_engine e (fresh c)).
Proof.
  intros [Hbuf Hm]. unfold fresh. destruct (m_rec_buf c) as [b|] eqn:Hb.
  2:{ apply (pending_single env (set_engine e c)); [|done|done]. cbn [m_rec_buf set_engine]. by rewrite Hb. }
  destruct Hm as (Hmax & Hr0 & H0). destruct (rb_records b >? 0) eqn:Hr; zb.
  - change (set_engine e (reset_rec_buf false c)) with (reset_rec_buf false (set_engine e c)).
    apply (reset_pending env (set_engine e c)); [done|]. cbn [m_rec_buf set_engine]. by rewrite Hb.
  - destruct (decide (rb_max_records b = 0)) as [He|He].
    + apply (pending_single env (set_engine e c)); [|apply H0; lia|done].
      cbn [m_rec_buf set_engine]. by rewrite Hb.
    + apply (pending_fetch env (set_engine e c) b); try done; lia.
Qed.

(** The row id that [position] gives after a search that found a row with the
    id [id]: that id, unless a row of an earlier batch is still current. *)
Definition answer_id (c : scan_state R E) (id : Z) : option Z :=
  if cur_pos_in_buf (fresh c) =? INVALID_MAX_UINT32 then Some id else position (fresh c).

Lemma position_fresh c e : position (set_engine e (fresh c)) = answer_id c (eng_position e).
Proof.
  unfold position, answer_id, position. cbn [cur_pos_in_buf m_rowids engine set_engine].
  by destruct (cur_pos_in_buf (fresh c) =? INVALID_MAX_UINT32).
Qed.

Lemma ready_idle c : ready c -> idle c /\ forall id, answer_id c id = Some id.
Proof.
  intros [Hbuf Hm]. unfold idle, answer_id, fresh. destruct (m_rec_buf c) as [b|] eqn:Hb.
  2:{ split; [by split|]. intros id. by rewrite Hm. }
  destruct Hm as [Hmax [Hr|[Hr Hpos]]].
  - split; [|intros id; by rewrite Z.gtb_ltb, (proj2 (Z.ltb_lt _ _))].
    split; [done|]. split; [lia|]. split; [lia|]. lia.
  - split; [|intros id; rewrite Hr; cbn [Z.gtb Z.compare]; by rewrite Hpos]. split; [done|]. split; [lia|]. split; [lia|]. done.
Qed.

Definition cmd : enum_sql_command := sql_command (Session.thd (sess V)).

(** The action of a search in state [s] and whether it only reads the index. *)
Definition search_action (s : search_state R E) : expected_cursor_action_t * bool :=
  read_action (exclusive V) cmd (if m_ror_intersect s then false else m_is_covering_index s).

(** The conversion of the rows of a search that starts in state [s]. *)
Definition row_env (s : search_state R E) : scan_env R :=
  scan_env_of V (set_covering (snd (search_action s)) (m_ror_intersect s)
                   (snd (search_action s)) s).

(** A call of [index_read] with a proper tuple, in a state of a proper
    session; [ki] is what the engine gets. *)
Record search_call (s : search_state R E) (bytes : list Z) (find_flag : Z)
    (ki : Stub.index_key_info_t) : Prop := {
  sc_keys : exists i parts name lvs rvs ks,
    active_index s = Some i /\ keys V !! i = Some (parts, name) /\
    Forall part_ok parts /\ (0 < length parts)%nat /\ Z.of_nat (length parts) <= MAX_KEY_COLUMNS /\
    tuple parts lvs bytes /\ Z.of_nat (length bytes) < 2 ^ 16 /\
    right_at parts (end_range V) 0 rvs /\
    keys_encoded (has_right_key V) parts
      (search_keys parts lvs (if index_skip_scan V then [] else rvs)) ks /\
    ki = search_key V s find_flag (fst (search_action s)) name ks;
  sc_idle : idle (scan s);
  sc_table : RowFormat.good_table (tab s);
  sc_session : exists c, Session.w_ctx (world s) = Some c /\
    Session.total_csize c + 1 < Session.SESSION_CURSOR_NUM }.

(** The same when no row of an earlier batch is current. *)
Record search_ok (s : search_state R E) (bytes : list Z) (find_flag : Z)
    (ki : Stub.index_key_info_t) : Prop := {
  so_keys : exists i parts name lvs rvs ks,
    active_index s = Some i /\ keys V !! i = Some (parts, name) /\
    Forall part_ok parts /\ (0 < length parts)%nat /\ Z.of_nat (length parts) <= MAX_KEY_COLUMNS /\
    tuple parts lvs bytes /\ Z.of_nat (length bytes) < 2 ^ 16 /\
    right_at parts (end_range V) 0 rvs /\
    keys_encoded (has_right_key V) parts
      (search_keys parts lvs (if index_skip_scan V then [] else rvs)) ks /\
    ki = search_key V s find_flag (fst (search_action s)) name ks;
  so_ready : ready (scan s);
  so_table : RowFormat.good_table (tab s);
  so_session : exists c, Session.w_ctx (world s) = Some c /\
    Session.total_csize c + 1 < Session.SESSION_CURSOR_NUM }.

Lemma search_ok_call s bytes find_flag ki :
  search_ok s bytes find_flag ki -> search_call s bytes find_flag ki.
Proof. intros [? Hr ? ?]. split; try done. by apply ready_idle. Qed.

(** The answer of [index_read] in a scan in state [c]: the first row that the
    engine finds, the others being still to come, and the row id for it; no
    row exactly if it finds none; or an error. *)
Definition read_answer (env : scan_env R) (ki : Stub.index_key_info_t) (c : scan_state R E)
    (a : ha_code * R * search_state R E) : Prop :=
  let '(code, image, s) := a in
  match code with
  | HA HA_OK => exists r rs, found ki (engine c) = r :: rs /\ shows env r image /\
      pending (scan := rows_of) env rs (scan s) /\ position (scan s) = answer_id c (snd r)
  | HA_ERR_KEY_NOT_FOUND => found ki (engine c) = [] /\ pending (scan := rows_of) env [] (scan s)
  | HA _ => exists ret, code = convert ret /\ ret <> CT_SUCCESS /\
      ((ret = ERR_ALLOC_MEMORY /\ buf_ok V = false) \/
       exists t mode b, ret = ia_ret (eng_index_read t ki mode b (engine c)))
  | _ => False
  end.

Lemma read_error env ki c ret image s :
  ret <> CT_SUCCESS ->
  ((ret = ERR_ALLOC_MEMORY /\ buf_ok V = false) \/
   exists t mode b, ret = ia_ret (eng_index_read t ki mode b (engine c))) ->
  read_answer env ki c (convert ret, image, s).
Proof.
  intros Hret H. pose proof (convert_ok ret) as Hc. unfold read_answer, convert in *.
  destruct (fst (convert_ctc_error_code_to_mysql ret)) eqn:Hm;
    try (exists ret; rewrite Hm; split; [done|]; split; [done|exact H]).
  destruct Hret. by apply Hc.
Qed.

(** A cursor that the engine opened for the search is the handler's cursor in
    the session, which frees it later. *)
Definition registered (ki : Stub.index_key_info_t) (e : E) (s' : search_state R E) : Prop :=
  buf_ok V = true -> exists t mode b, let a := eng_index_read t ki mode b e in
    m_tch s' = ia_tch a /\
    (ia_need_init a = true -> own_cursor V = false ->
     Session.cursor_addr (m_tch s') <> Session.INVALID_VALUE64 ->
     exists c, Session.w_ctx (world s') = Some c /\
       Session.cursors_map c !! handler V = Some (Session.cursor_addr (m_tch s'))).

Lemma engine_read_ok ki buf s (s0 : search_state R E) c :
  scan s = fresh (scan s0) -> idle (scan s0) ->
  Session.w_ctx (world s) = Some c -> Session.total_csize c + 1 < Session.SESSION_CURSOR_NUM ->
  Forall (convertible (scan_env_of V s)) (found ki (engine (scan s0))) ->
  exists code image s', engine_read V ki buf s = Some (code, image, s') /\
    read_answer (scan_env_of V s) ki (scan s0) (code, image, s') /\
    scan_env_of V s' = scan_env_of V s /\ registered ki (engine (scan s0)) s'.
Proof.
  intros Hscan Hready Hc Hn Hconv. unfold engine_read, registered.
  destruct (buf_ok V) eqn:Hbuf; cbn [negb].
  2:{ eexists _, _, _. split; [reflexivity|]. split; [|by split].
    apply read_error; [done|by left]. }
  destruct (update_member_ok (sess V) (m_tch s) true (world s) c Hc)
    as (tch & w1 & c1 & -> & Hc1 & Hm1 & Hi1).
  cbn [mbind option_bind]. cbv zeta.
  assert (engine (scan s) = engine (scan s0)) as He
    by (rewrite Hscan; unfold fresh; by repeat case_match).
  rewrite He. set (a := eng_index_read tch ki (select_mode V) (m_replace s) (engine (scan s0))).
  destruct (update_sess_ok (sess V) (ia_tch a) w1 c1 Hc1) as (w2 & c2 & -> & Hc2 & Hm2 & Hi2).
  cbn [mbind option_bind].
  assert (exists w3, (if ia_need_init a && negb (own_cursor V)
    then Session.update_sess_ctx_cursor_by_tch (sess V) (handler V) (ia_tch a) w2
    else Some (tt, w2)) = Some (tt, w3) /\
    (ia_need_init a = true -> own_cursor V = false ->
     Session.cursor_addr (ia_tch a) <> Session.INVALID_VALUE64 ->
     exists c, Session.w_ctx w3 = Some c /\
       Session.cursors_map c !! handler V = Some (Session.cursor_addr (ia_tch a))))
    as (w3 & -> & Hreg).
  { destruct (ia_need_init a && negb (own_cursor V)) eqn:Hi.
    - destruct (update_cursor_ok (sess V) (handler V) (ia_tch a) w2 c2 Hc2)
        as (w3 & c3 & H & Hc3 & Hm3);
        [unfold Session.total_csize in *; rewrite Hm2, Hi2, Hm1, Hi1; exact Hn|].
      exists w3. split; [done|]. intros _ _ Hne. exists c3. by split; [|apply Hm3].
    - exists w2. split; [done|]. intros H1 H2. by rewrite H1, H2 in Hi. }
  cbn [mbind option_bind]. unfold Session.mark_rollback at 1. cbn [mbind option_bind].
  set (w4 := Session.mk_world _ _ _ _ _).
  set (s1 := set_conn w4 (ia_tch a) (ia_valid a) (set_scan (set_engine (ia_engine a) (scan s)) s)).
  pose proof (index_read_errors tch ki (select_mode V) (m_replace s) (engine (scan s0))) as Hfk.
  pose proof (index_read_ok tch ki (select_mode V) (m_replace s) (engine (scan s0))) as Hok.
  cbv zeta in Hok. fold a in Hfk, Hok.
  assert (true = true -> exists t mode b, let a := eng_index_read t ki mode b (engine (scan s0)) in
    m_tch s1 = ia_tch a /\ (ia_need_init a = true -> own_cursor V = false ->
      Session.cursor_addr (m_tch s1) <> Session.INVALID_VALUE64 ->
      exists c, Session.w_ctx (world s1) = Some c /\
        Session.cursors_map c !! handler V = Some (Session.cursor_addr (m_tch s1)))) as Hregs
    by (intros _; by exists tch, (select_mode V), (m_replace s)).
  unfold process_cantian_record. rewrite checked_id by done.
  destruct (decide (ia_ret a <> CT_SUCCESS)) as [Hret|Hret].
  { cbn [mbind option_bind]. eexists _, _, _. split; [reflexivity|]. split; [|by split].
    apply read_error; [done|]. right. by exists tch, (select_mode V), (m_replace s). }
  assert (ia_ret a = CT_SUCCESS) as Hs by (by destruct (decide (ia_ret a = CT_SUCCESS))).
  specialize (Hok Hs).
  pose proof (idle_pending (scan_env_of V s) (scan s0) (ia_engine a) Hready) as Hp.
  pose proof (position_fresh (scan s0) (ia_engine a)) as Hpos. rewrite <- Hscan in Hp, Hpos.
  destruct (ia_row a) as [[record id]|].
  - destruct Hok as [Hf Hid]. rewrite Hf in Hconv. pose proof (Forall_inv Hconv) as [_ Hcv].
    destruct (Hcv INVALID_MAX_UINT32 [] buf (or_intror eq_refl)) as [image Himg].
    cbn [fst] in Himg. rewrite app_nil_r in Himg.
    change (scan_env_of V s1) with (scan_env_of V s). rewrite Himg. cbn [mbind option_bind].
    eexists _, image, s1. split; [reflexivity|]. split; [|by split].
    exists (record, id), (rows_of (ia_engine a)). split; [done|]. split.
    { right. exists INVALID_MAX_UINT32, [], buf. split; [by right|]. cbn [fst]. by rewrite app_nil_r. }
    split; [done|]. change (scan s1) with (set_engine (ia_engine a) (scan s)). by rewrite Hpos, Hid.
  - destruct Hok as [Hf Hr]. cbn [mbind option_bind].
    eexists _, _, s1. split; [reflexivity|]. split; [|by split]. split; [done|].
    rewrite Hr in Hp. exact Hp.
Qed.

Lemma fresh_state (s : search_state R E) :
  match m_rec_buf (scan s) with
  | Some b => if rb_records b >? 0 then set_scan (reset_rec_buf false (scan s)) s else s
  | None => s
  end = set_scan (fresh (scan s)) s.
Proof. unfold fresh. destruct s. cbn. repeat case_match; done. Qed.

Lemma search_keys_bound parts lvs rvs bytes :
  tuple parts lvs bytes -> Z.of_nat (length parts) <= MAX_KEY_COLUMNS ->
  2 * Z.of_nat (length (search_keys parts lvs rvs)) <= MAX_KEY_COLUMNS * 2.
Proof.
  intros Ht Hp. pose proof (search_keys_length parts lvs rvs (tuple_length_parts _ _ _ Ht)). lia.
Qed.

(** A proper call reaches the engine with the search [ki]. *)
Lemma index_read_call s bytes rest find_flag ki buf :
  search_call s bytes find_flag ki ->
  exists s1, index_read V buf (bytes ++ rest) (Z.of_nat (length bytes)) find_flag s = engine_read V ki buf s1 /\
    scan s1 = fresh (scan s) /\ scan_env_of V s1 = row_env s /\ world s1 = world s /\
    m_index_sorted s1 = m_index_sorted s.
Proof.
  intros [(i & parts & name & lvs & rvs & ks & Hi & Hk & Hok & Hne & H16 & Ht & Hlen & Hr & Henc & ->)
    _ Htab _].
  unfold index_read. cbv zeta. rewrite fresh_state.
  change (m_ror_intersect (set_scan (fresh (scan s)) s)) with (m_ror_intersect s).
  change (m_is_covering_index (set_scan (fresh (scan s)) s)) with (m_is_covering_index s).
  fold cmd. fold (search_action s). unfold row_env in *.
  destruct (search_action s) as [action covering]. cbn [fst snd] in *.
  set (s1 := set_covering covering (m_ror_intersect s) covering (set_scan (fresh (scan s)) s)).
  change (active_index s1) with (active_index s). rewrite Hi. cbn [mbind option_bind].
  rewrite Hk. cbn [mbind option_bind].
  rewrite (fill_keys parts lvs rvs bytes rest (end_range V) (index_skip_scan V)) by done.
  cbn [mbind option_bind]. destruct (decide (CT_SUCCESS <> CT_SUCCESS)); [done|].
  unfold ctc_convert_index_datatype.
  destruct (convert_keys_ok (has_right_key V) parts _ ks (tab s1) (MAX_KEY_COLUMNS * 2) Htab Henc)
    as (tab' & -> & Htab'); [by apply (search_keys_bound parts lvs _ bytes)|].
  cbn [mbind option_bind negb Z.eqb]. by exists (set_table tab' s1).
Qed.

Lemma read_ok s bytes rest find_flag ki buf :
  search_call s bytes find_flag ki ->
  Forall (convertible (row_env s)) (found ki (engine (scan s))) ->
  exists code image s', index_read V buf (bytes ++ rest) (Z.of_nat (length bytes)) find_flag s
      = Some (code, image, s') /\
    read_answer (row_env s) ki (scan s) (code, image, s') /\
    scan_env_of V s' = row_env s /\ registered ki (engine (scan s)) s'.
Proof.
  intros Hcall Hconv.
  destruct (index_read_call s bytes rest find_flag ki buf Hcall) as (s1 & -> & Hscan & Henv & Hw & _).
  destruct Hcall as [_ Hidle _ (c & Hc & Hn)]. rewrite <- Hw in Hc. rewrite <- Henv in *.
  by apply (engine_read_ok ki buf s1 s c).
Qed.

(** C4: [index_read] refines the engine's search: for a proper key tuple, in a
    session with room for a cursor, it returns the first row that the engine
    finds for the converted keys, converted for the server, and leaves exactly
    the others to the calls after it; it reports that there is no such row
    exactly if the engine finds none; and every other answer is an error of
    the engine or of the allocation of the read buffer.  A cursor that the
    engine opened is registered with the session.  [position] then gives the
    id of the row, except where a row of an earlier batch is still current:
    after a batch that left the record buffer empty, [index_read] does not
    reset the scan, and [position] gives the id of that row
    ([answer_id]; [index_read_stale_position] is an instance). *)
Theorem index_read_refines (s : search_state R E) (bytes rest : list Z) (find_flag : Z)
    (ki : Stub.index_key_info_t) (buf : R)
    (Hok : search_call s bytes find_flag ki)
    (Hconv : Forall (convertible (row_env s)) (found ki (engine (scan s)))) :
  exists code image s', index_read V buf (bytes ++ rest) (Z.of_nat (length bytes)) find_flag s
      = Some (code, image, s') /\
    read_answer (row_env s) ki (scan s) (code, image, s') /\
    registered ki (engine (scan s)) s'.
Proof.
  destruct (read_ok s bytes rest find_flag ki buf Hok Hconv) as (code & image & s' & H & Ha & _ & Hr).
  by exists code, image, s'.
Qed.

(** The rows of a search with their row ids, by a call of [index_read] and
    then of [index_next] until the end of the file; [None]: another answer, or
    not finished. *)
Fixpoint fetch_all (fuel : nat) (image : R) (s : search_state R E) : option (list (R * Z)) :=
  match fuel with
  | O => None
  | S fuel =>
    '(code, image, s) ← index_next V image s;
    match code with
    | HA HA_OK => id ← position (scan s); out ← fetch_all fuel image s; Some ((image, id) :: out)
    | HA_ERR_END_OF_FILE => Some []
    | _ => None
    end
  end.

Definition search_all (fuel : nat) (image : R) (key : list Z) (key_len find_flag : Z)
    (s : search_state R E) : option (list (R * Z)) :=
  '(code, image, s) ← index_read V image key key_len find_flag s;
  match code with
  | HA HA_OK => id ← position (scan s); out ← fetch_all fuel image s; Some ((image, id) :: out)
  | HA_ERR_KEY_NOT_FOUND => Some []
  | _ => None
  end.

Lemma fetch_all_ok env fuel : forall rows s image,
  0 <= m_cantian_rec_len env < 2 ^ 16 -> scan_env_of V s = env ->
  (forall e, fst (fst (eng_next e)) = CT_SUCCESS) ->
  (forall max e, fst (fst (eng_prefetch max e)) = CT_SUCCESS) ->
  malloc_ok env = true -> buf_ok V = true ->
  pending (scan := rows_of) env rows (scan s) -> Forall (convertible env) rows ->
  (length rows < fuel)%nat ->
  exists out, fetch_all fuel image s = Some out /\
    Forall2 (fun r o => shows env r (fst o) /\ snd o = snd r) rows out.
Proof.
  induction fuel as [|fuel IH]; intros rows s image Hrec He Hn Hpre Hmal Hbuf Hp Hrows Hf; [lia|].
  cbn [fetch_all]. unfold index_next, index_fetch. rewrite He, Hbuf.
  destruct (fetch_ok env Hrec true rows (scan s) image Hp Hrows) as ([[code image'] c'] & -> & Ha).
  cbn [mbind option_bind]. unfold answer in Ha.
  assert (forall ret, ~ call_error env true (engine (scan s)) ret) as Herr.
  { intros ret [H0 [H1|[H1|[_ H1]]]]; [|by rewrite Hpre in H1|done]. by rewrite Hn in H1. }
  destruct code as [[]| | | | | | |]; try (by destruct Ha as (ret & _ & H); destruct (Herr ret)); try done.
  - destruct Ha as (r & rs & -> & Hs & Hp' & Hpos). cbn [scan set_scan]. rewrite Hpos.
    cbn [mbind option_bind].
    destruct (IH rs (set_scan c' s) image') as (out & -> & Hout); try done;
      [by apply Forall_inv_tail in Hrows|cbn in Hf; lia|].
    cbn [mbind option_bind]. eexists. split; [reflexivity|]. by constructor.
  - destruct Ha as [-> _]. by exists [].
  - by rewrite Hmal in Ha.
Qed.

(** C19: a search is complete and terminates: [index_read] and the calls of
    [index_next] after it return all rows that the engine finds for the keys,
    each once, in the order of the index and with its row id, and then the end
    of the file, whatever the sizes of the batches and of the record buffer. *)
Theorem index_scan_complete (s : search_state R E) (bytes rest : list Z) (find_flag : Z)
    (ki : Stub.index_key_info_t) (buf : R) (fuel : nat)
    (Hok : search_ok s bytes find_flag ki)
    (Hconv : Forall (convertible (row_env s)) (found ki (engine (scan s))))
    (Hrec : 0 <= rec_len V < 2 ^ 16) (Hmal : mem_ok V = true) (Hbuf : buf_ok V = true)
    (Hread : forall t ki mode b e, ia_ret (eng_index_read t ki mode b e) = CT_SUCCESS)
    (Hnext : forall e, fst (fst (eng_next e)) = CT_SUCCESS)
    (Hpre : forall max e, fst (fst (eng_prefetch max e)) = CT_SUCCESS)
    (Hf : (length (found ki (engine (scan s))) <= fuel)%nat) :
  exists out, search_all fuel buf (bytes ++ rest) (Z.of_nat (length bytes)) find_flag s = Some out /\
    Forall2 (fun r o => shows (row_env s) r (fst o) /\ snd o = snd r)
      (found ki (engine (scan s))) out.
Proof.
  destruct (read_ok s bytes rest find_flag ki buf (search_ok_call _ _ _ _ Hok) Hconv)
    as (code & image & s' & H & Ha & He & _).
  unfold search_all. rewrite H. cbn [mbind option_bind]. unfold read_answer in Ha.
  destruct (ready_idle _ (so_ready _ _ _ _ Hok)) as [_ Hid].
  destruct code as [[]| | | | | | |]; try done;
    try (by destruct Ha as (ret & _ & Hr & [[_ Hb]|(t & mode & b & ->)]);
         [rewrite Hbuf in Hb|destruct Hr; apply Hread]).
  - destruct Ha as (r & rs & Hfound & Hs & Hp & ->). rewrite Hid, Hfound in *. cbn [mbind option_bind].
    destruct (fetch_all_ok (row_env s) fuel rs s' image) as (out & -> & Hout); try done;
      [by apply Forall_inv_tail in Hconv|]. cbn [mbind option_bind].
    eexists. split; [reflexivity|]. by constructor.
  - destruct Ha as [-> _]. by exists [].
Qed.

(** ** A row id that is out of date *)

Lemma engine_read_scan ki buf s code image s' :
  engine_read V ki buf s = Some (code, image, s') ->
  exists e, scan s' = set_engine e (scan s).
Proof.
  unfold engine_read. destruct (negb (buf_ok V)).
  { intros [= _ _ <-]. exists (engine (scan s)). by destruct (scan s). }
  destruct (Session.update_member_tch _ _ _ _) as [[tch w]|]; [|done]. cbn [mbind option_bind].
  cbv zeta. set (a := eng_index_read _ _ _ _ _).
  destruct (Session.update_sess_ctx_by_tch _ _ _) as [[? w2]|]; [|done]. cbn [mbind option_bind].
  destruct (if _ && _ then _ else _) as [[? w3]|]; [|done]. cbn [mbind option_bind].
  destruct (Session.mark_rollback _ _) as [[? w4]|]; [|done]. cbn [mbind option_bind].
  destruct (process_cantian_record _ _ _ _ _) as [[code' image']|]; [|done].
  intros [= _ _ <-]. by exists (ia_engine a).
Qed.

Lemma index_read_scan buf key key_len flag s code image s' :
  index_read V buf key key_len flag s = Some (code, image, s') ->
  exists e, scan s' = set_engine e (fresh (scan s)).
Proof.
  unfold index_read. cbv zeta. rewrite fresh_state.
  destruct (read_action _ _ _) as [action covering].
  match goal with |- context [set_covering ?a ?b ?c ?d] => set (s1 := set_covering a b c d) end.
  assert (scan s1 = set_engine (engine (scan s1)) (fresh (scan s))) as Hs1
    by (change (scan s1) with (fresh (scan s)); by destruct (fresh (scan s))).
  destruct (i ← active_index s1; keys V !! i) as [[parts name]|]; [|done]. cbn [mbind option_bind].
  destruct (ctc_fill_index_key_info _ _ _ _ _) as [[ret ks]|]; [|done]. cbn [mbind option_bind].
  destruct (decide _); [intros [= _ _ <-]; by exists (engine (scan s1))|].
  destruct (ctc_convert_index_datatype _ _ _ _) as [[[ret2 ks2] tab']|]; [|done].
  cbn [mbind option_bind]. destruct (negb _); [intros [= _ _ <-]; by exists (engine (scan s1))|].
  intros H. apply engine_read_scan in H as (e & He). exists e. exact He.
Qed.

(** [index_read] does not reset the position of the scan when the record
    buffer is empty.  After a batch of exactly one row, whose position is 0
    and which leaves the record buffer empty, [position] then gives the id of
    that old row for whatever row the next [index_read] returns. *)
Theorem index_read_stale_position (s s' : search_state R E) (b : record_buffer) (buf image : R)
    (key : list Z) (key_len flag : Z) (code : ha_code)
    (Hb : m_rec_buf (scan s) = Some b) (Hr : rb_records b = 0)
    (Hpos : cur_pos_in_buf (scan s) = 0)
    (Hread : index_read V buf key key_len flag s = Some (code, image, s')) :
  position (scan s') = m_rowids (scan s) !! 0%nat.
Proof.
  apply index_read_scan in Hread as (e & ->). unfold fresh. rewrite Hb, Hr. cbn [Z.gtb Z.compare].
  unfold position. cbn [cur_pos_in_buf m_rowids set_engine]. by rewrite Hpos.
Qed.

End SearchRefinement.

(** ** Instances, for the witnesses *)

(** A nullable [VARCHAR(20)] column before an [INT] one in a key, and the
    tuple ('Hi', 7) with the upper end ('Hi', 9). *)
Definition demo_parts : list KEY_PART_INFO :=
  [mk_part RowFormat.demo_varchar 20 23 false; mk_part RowFormat.demo_int 4 4 false].
Definition demo_tuple (n : Z) : list Z :=
  ([0] ++ le_bytes 2 2 ++ [72; 105] ++ replicate 18 0) ++ le_bytes 4 n ++ [].
Definition demo_range : key_range := mk_range (demo_tuple 9) 27 3 3.

Lemma demo_tuple_ok n : tuple demo_parts [Some [72; 105]; Some (le_bytes 4 n)] (demo_tuple n).
Proof.
  constructor; [exact (pi_var (mk_part RowFormat.demo_varchar 20 23 false) [72; 105] (replicate 18 0)
    eq_refl ltac:(cbn; lia) eq_refl)|].
  constructor; [exact (pi_fixed (mk_part RowFormat.demo_int 4 4 false) (le_bytes 4 n) eq_refl
    eq_refl)|constructor].
Qed.

Lemma demo_parts_ok : Forall part_ok demo_parts.
Proof. repeat constructor; cbn; try lia; done. Qed.

Lemma index_keys_split_witness :
  ctc_fill_index_key_info demo_parts (demo_tuple 7 ++ [0]) 27 (Some demo_range) false
    = Some (CT_SUCCESS, [Stub.mk_key false (Some [72; 105]) (Some [72; 105]);
                         Stub.mk_key false (Some (le_bytes 4 7)) (Some (le_bytes 4 9))]) /\
  forall key_len, 27 < key_len < 2 ^ 16 ->
    exists ks, ctc_fill_index_key_info demo_parts (demo_tuple 7 ++ [0]) key_len (Some demo_range)
      false = Some (ERR_GENERIC_INTERNAL_ERROR, ks).
Proof.
  destruct (index_keys_split demo_parts [Some [72; 105]; Some (le_bytes 4 7)]
    [Some [72; 105]; Some (le_bytes 4 9)] (demo_tuple 7) [0] (Some demo_range) false demo_parts_ok
    ltac:(cbn; lia) ltac:(cbn; unfold MAX_KEY_COLUMNS, Stub.MAX_KEY_COLUMNS; lia) (demo_tuple_ok 7)
    ltac:(cbn; lia)) as [H1 H2].
  - exists [], (demo_tuple 9), []. rewrite app_nil_r. repeat split; try done. apply demo_tuple_ok.
  - split; [exact H1|]. intros key_len Hk. by apply H2.
Defined.

Lemma index_key_matches_row_witness :
  let mbuf := RowFormat.demo_record in
  let f := RowFormat.demo_varchar in
  let e := @RowFormat.mk_enc Blob.demo_store (replicate 60 0) 8 0 g_field_cnvrt_aux_array [] in
  exists map e', @RowFormat.encode_column Demo.demo Blob.demo_store true f mbuf 1 e
      = Some (RowFormat.St 0, map, e') /\
    exists bs tab' c,
      @convert_side Demo.demo g_field_cnvrt_aux_array f true
        (Some (key_value (mk_part f 20 23 false) (column_value f (take 21 (drop 5 mbuf))))) 32
        = Some (0, Some bs, tab', c) /\
      @stored_as Blob.demo_store map e e' bs.
Proof.
  eexists _, _. split; [vm_compute; reflexivity|].
  apply (index_key_matches_row Demo.demo Demo.demo_byte_order Demo.demo_time_codec
    Demo.demo_datetime_codec Demo.demo_timestamp_codec Demo.demo_decimal_codec Blob.demo_store
    (mk_part RowFormat.demo_varchar 20 23 false) RowFormat.demo_varchar
    (take 21 (drop 5 RowFormat.demo_record)) RowFormat.demo_record 1).
  - split; [done|]. split; [cbn; lia|]. split; [repeat constructor; lia|]. split; [done|].
    split; [cbn; lia|]. split; [by left|].
    apply RowFormat.sc_varchar; try done; vm_compute; try split; discriminate.
  - done.
  - done.
  - apply RowFormat.good_table_initial.
  - lia.
  - apply RowFormat.good_table_initial.
  - reflexivity.
  - vm_compute. reflexivity.
Defined.

(** An index on an [INT] column with the rows (7, A), (7, B) and (8, C); a
    search finds the rows with its left key, and opens cursor 33. *)
Definition demo_rows : list row :=
  [(le_bytes 4 7 ++ [65], 100); (le_bytes 4 7 ++ [66], 101); (le_bytes 4 8 ++ [67], 200)].

Definition demo_found (ki : Stub.index_key_info_t) (e : list row * Z) : list row :=
  filter (fun r => Some (take 4 (fst r)) = (head (Stub.key_info_list ki) ≫= Stub.left_key)) demo_rows.

Definition demo_cursor (t : ctc_handler_t) : ctc_handler_t := set_cursor 33 (Session.cursor_ref t) t.

#[export] Instance demo_index_engine : IndexEngine (list row * Z) := {|
  eng_index_read t ki mode b e :=
    match demo_found ki e with
    | [] => mk_answer CT_SUCCESS None (demo_cursor t) true (Stub.need_init ki) ([], snd e)
    | r :: rs => mk_answer CT_SUCCESS (Some r) (demo_cursor t) true (Stub.need_init ki) (rs, snd r)
    end;
  eng_index_end t e := (CT_SUCCESS, t, e);
  eng_rnd_end t e := (CT_SUCCESS, t, e);
  eng_scan_records t n e := (CT_SUCCESS, Z.of_nat (length demo_rows), t, e) |}.

Lemma demo_index_laws : @IndexLaws _ demo_engine demo_index_engine fst demo_found.
Proof.
  split; intros t ki mode b e; unfold eng_index_read, demo_index_engine;
    destruct (demo_found ki e) as [|r rs]; by split.
Qed.

Definition demo_conv (c : Z) (bytes old : list Z) : option (list Z) := Some (take 5 bytes).

Definition demo_sess : Session.env :=
  Session.mk_env (fun _ _ => Session.mk_reply CT_SUCCESS 5 0 false false) (fun _ => true)
    (fun _ => true) demo_server demo_thd false false false true true false 50 100 false
    (fun _ => EmptyString).

Definition demo_search_env : search_env (list Z) :=
  mk_senv demo_sess 1 [([mk_part RowFormat.demo_int 4 4 false], "k"%string)] demo_conv demo_conv
    8 [true; true] [false; false] true true false false false false false None false 0 0 4096 true.

Definition demo_idle : search_state (RB := demo_rb) (list Z) (list row * Z) :=
  mk_search (RB := demo_rb)
    (mk_scan (RB := demo_rb) INVALID_MAX_UINT32 0 0 0 None (replicate 100 0) (replicate 100 0) None 0 ([], 0))
    (Session.mk_world (Some (Session.mk_ctx 5 1 0 true false ∅ None true)) [] true true false)
    (Session.sample_tch Session.INVALID_VALUE64) false None false false false false false
    g_field_cnvrt_aux_array.

(** After [index_init]. *)
Definition demo_open : search_state (RB := demo_rb) (list Z) (list row * Z) :=
  match index_init (RB := demo_rb) demo_search_env 0 true demo_idle with
  | Some (_, s) => s
  | None => demo_idle
  end.

Definition demo_ki (n : Z) : Stub.index_key_info_t :=
  Stub.mk_index_key true 0 0 true false "k" [Stub.mk_key false (Some (le_bytes 4 n)) None].

Lemma demo_int_encodes n : @encodes Demo.demo RowFormat.demo_int (le_bytes 4 n) (le_bytes 4 n).
Proof.
  intros tab Htab.
  apply (@key_fixed Demo.demo tab RowFormat.demo_int (le_bytes 4 n) (le_bytes 4 n) 0); try done.
  - apply le_bytes_byte.
  - by left.
  - change (effective_type RowFormat.demo_int) with MYSQL_TYPE_LONG.
    unfold Numeric.convert_numeric_to_cantian.
    rewrite int_copy; [done|lia|apply length_le_bytes|apply le_bytes_byte].
Qed.

Lemma demo_search_ok n :
  @search_ok Demo.demo (list Z) (list row * Z) demo_rb demo_search_env demo_open
    (le_bytes 4 n ++ []) 0 (demo_ki n).
Proof.
  split.
  - exists 0%nat, [mk_part RowFormat.demo_int 4 4 false], "k"%string, [Some (le_bytes 4 n)], [],
      [Stub.mk_key false (Some (le_bytes 4 n)) None].
    split; [reflexivity|]. split; [reflexivity|]. split; [repeat constructor; done|].
    split; [cbn; lia|]. split; [cbn; unfold MAX_KEY_COLUMNS, Stub.MAX_KEY_COLUMNS; lia|].
    split; [constructor; [exact (pi_fixed (mk_part RowFormat.demo_int 4 4 false) (le_bytes 4 n)
      eq_refl eq_refl)|constructor]|].
    split; [cbn; lia|]. split; [done|]. split; [|reflexivity].
    constructor; [done| |done|constructor].
    exists (le_bytes 4 n). split; [done|]. apply demo_int_encodes.
  - split; [by repeat split|]. split; [split; by vm_compute|]. right. by split.
  - apply RowFormat.good_table_initial.
  - eexists. split; [reflexivity|]. vm_compute. done.
Qed.

Lemma demo_found_converts n :
  Forall (convertible (row_env (RB := demo_rb) demo_search_env demo_open))
    (demo_found (demo_ki n) ([], 0)).
Proof.
  assert (Forall (convertible (row_env (RB := demo_rb) demo_search_env demo_open)) demo_rows) as H.
  { repeat apply Forall_cons_2; [..|apply Forall_nil_2]; (split; [cbn; lia|intros; by eexists]). }
  unfold demo_found. apply Forall_forall. intros r Hr. apply list_elem_of_In in Hr.
  apply list_elem_of_filter in Hr as [_ Hr]. apply list_elem_of_In in Hr.
  by apply (proj1 (Forall_forall _ _) H).
Qed.

Lemma index_scan_complete_witness :
  exists out, @search_all Demo.demo (list Z) (list row * Z) demo_rb demo_engine demo_index_engine
      demo_search_env 2 [] ((le_bytes 4 7 ++ []) ++ []) 4 0 demo_open = Some out /\
    Forall2 (fun r o => shows (row_env (RB := demo_rb) demo_search_env demo_open) r (fst o) /\
        snd o = snd r)
      [(le_bytes 4 7 ++ [65], 100); (le_bytes 4 7 ++ [66], 101)] out.
Proof.
  apply (@index_scan_complete Demo.demo (list Z) (list row * Z) demo_rb demo_rb_laws demo_engine
    fst demo_engine_laws demo_index_engine demo_found demo_index_laws demo_search_env demo_open
    (le_bytes 4 7 ++ []) [] 0 (demo_ki 7) [] 2).
  - apply demo_search_ok.
  - apply demo_found_converts.
  - cbn. lia.
  - reflexivity.
  - reflexivity.
  - intros t ki mode b e. cbn [eng_index_read demo_index_engine]. by destruct (demo_found ki e).
  - by intros [[|r rows] id].
  - done.
  - vm_compute. lia.
Defined.

(** The second row of a search comes in a batch of its own; the search for 8
    after it returns the row (8, C) with the row id of (7, B). *)
Definition demo_step (key : list Z)
    (s : option (ha_code * list Z * search_state (RB := demo_rb) (list Z) (list row * Z)))
  : option (ha_code * list Z * search_state (RB := demo_rb) (list Z) (list row * Z)) :=
  '(_, image, s) ← s;
  match key with
  | [] => @index_next (list Z) (list row * Z) demo_rb demo_engine demo_search_env image s
  | _ => @index_read Demo.demo (list Z) (list row * Z) demo_rb demo_index_engine demo_search_env
           image key 4 0 s
  end.

Definition demo_after_7 : search_state (RB := demo_rb) (list Z) (list row * Z) :=
  match demo_step [] (demo_step [] (demo_step (le_bytes 4 7) (Some (OK, [], demo_open)))) with
  | Some (_, _, s) => s
  | None => demo_idle
  end.

Abbreviation demo_read_8 :=
  (@index_read Demo.demo (list Z) (list row * Z) demo_rb demo_index_engine demo_search_env []
    (le_bytes 4 8) 4 0 demo_after_7).

Definition demo_stale : search_state (RB := demo_rb) (list Z) (list row * Z) :=
  match demo_read_8 with Some (_, _, s) => s | None => demo_idle end.

Definition demo_buffer_left : record_buffer (RecordBuffer := demo_rb) :=
  match m_rec_buf (scan demo_after_7) with Some b => b | None => mk_db 0 0 false (fun _ => []) end.

Lemma the_answer {A B C} (o : option (A * B * C)) (a : A) (b : B) (d : C) :
  option_map (fun p => (fst (fst p), snd (fst p))) o = Some (a, b) ->
  o = Some (a, b, match o with Some (_, _, c) => c | None => d end).
Proof. destruct o as [[[a' b'] c]|]; [|done]. cbn. by intros [= -> ->]. Qed.

Lemma the_value {A} (o : option A) (d : A) :
  match o with Some _ => true | None => false end = true ->
  o = Some (match o with Some a => a | None => d end).
Proof. by destruct o. Qed.

Lemma demo_read_8_answer : demo_read_8 = Some (OK, le_bytes 4 8 ++ [67], demo_stale).
Proof. unfold demo_stale. apply the_answer. vm_compute. reflexivity. Qed.

(** What the engine gets for the key 8 in state [s]. *)
Definition demo_ki_8 (s : search_state (RB := demo_rb) (list Z) (list row * Z))
  : Stub.index_key_info_t :=
  search_key (RB := demo_rb) demo_search_env s 0 (fst (search_action (RB := demo_rb) demo_search_env s))
    "k" [Stub.mk_key false (Some (le_bytes 4 8)) None].

(** Checks of a state by computation. *)
Lemma idle_check (s : search_state (RB := demo_rb) (list Z) (list row * Z)) :
  (length (m_record_lens (scan s)) =? 100)%nat && (length (m_rowids (scan s)) =? 100)%nat &&
  match m_prefetch_buf (scan s) with Some pb => Z.of_nat (length pb) =? MAX_RECORD_SIZE | None => true end &&
  match m_rec_buf (scan s) with
  | Some b => (0 <? rb_max_records b) && (rb_max_records b <? 100) && (0 <=? rb_records b)
  | None => false
  end = true -> idle (scan s).
Proof.
  intros H. apply andb_true_iff in H as [H H4]. apply andb_true_iff in H as [H H3].
  apply andb_true_iff in H as [H1 H2]. apply Nat.eqb_eq in H1, H2. unfold idle.
  split; [split; [done|]; split; [done|]; intros pb Hpb; rewrite Hpb in H3; by apply Z.eqb_eq|].
  destruct (m_rec_buf (scan s)) as [b|]; [|done]. zb. split; [lia|]. split; [lia|]. lia.
Qed.

Lemma session_check (s : search_state (RB := demo_rb) (list Z) (list row * Z)) :
  match Session.w_ctx (world s) with
  | Some c => Session.total_csize c + 1 <? Session.SESSION_CURSOR_NUM
  | None => false
  end = true ->
  exists c, Session.w_ctx (world s) = Some c /\
    Session.total_csize c + 1 < Session.SESSION_CURSOR_NUM.
Proof. destruct (Session.w_ctx (world s)) as [c|]; [|done]. intros H. zb. by exists c. Qed.

(** The search for 8 in the state that the second row of the search for 7
    left, which is current. *)
Lemma demo_stale_call :
  @search_call Demo.demo (list Z) (list row * Z) demo_rb demo_search_env demo_after_7
    (le_bytes 4 8 ++ []) 0 (demo_ki_8 demo_after_7).
Proof.
  split.
  - exists 0%nat, [mk_part RowFormat.demo_int 4 4 false], "k"%string, [Some (le_bytes 4 8)], [],
      [Stub.mk_key false (Some (le_bytes 4 8)) None].
    split; [vm_compute; reflexivity|]. split; [reflexivity|]. split; [repeat constructor; done|].
    split; [cbn; lia|]. split; [cbn; unfold MAX_KEY_COLUMNS, Stub.MAX_KEY_COLUMNS; lia|].
    split; [constructor; [exact (pi_fixed (mk_part RowFormat.demo_int 4 4 false) (le_bytes 4 8)
      eq_refl eq_refl)|constructor]|].
    split; [cbn; lia|]. split; [done|]. split; [|reflexivity].
    constructor; [done| |done|constructor].
    exists (le_bytes 4 8). split; [done|]. apply demo_int_encodes.
  - apply (idle_check demo_after_7). vm_compute. reflexivity.
  - assert (tab demo_after_7 = g_field_cnvrt_aux_array) as -> by (vm_compute; reflexivity).
    apply RowFormat.good_table_initial.
  - apply (session_check demo_after_7). vm_compute. reflexivity.
Qed.

Lemma index_read_refines_witness :
  cur_pos_in_buf (scan demo_after_7) = 0 /\
  exists code image s', @index_read Demo.demo (list Z) (list row * Z) demo_rb demo_index_engine
      demo_search_env [] ((le_bytes 4 8 ++ []) ++ []) 4 0 demo_after_7 = Some (code, image, s') /\
    @read_answer (list Z) (list row * Z) demo_rb demo_engine fst demo_index_engine demo_found
      demo_search_env (row_env (RB := demo_rb) demo_search_env demo_after_7)
      (demo_ki_8 demo_after_7) (scan demo_after_7) (code, image, s') /\
    registered (RB := demo_rb) demo_search_env (demo_ki_8 demo_after_7)
      (engine (scan demo_after_7)) s'.
Proof.
  split; [vm_compute; reflexivity|].
  apply (@index_read_refines Demo.demo (list Z) (list row * Z) demo_rb demo_rb_laws demo_engine
    fst demo_index_engine demo_found demo_index_laws demo_search_env demo_after_7
    (le_bytes 4 8 ++ []) [] 0 (demo_ki_8 demo_after_7) []).
  - apply demo_stale_call.
  - repeat apply Forall_cons_2; [..|apply Forall_nil_2]; (split; [cbn; lia|intros; by eexists]).
Defined.

Lemma index_read_stale_position_witness :
  demo_read_8 = Some (OK, le_bytes 4 8 ++ [67], demo_stale) /\
  @eng_position _ demo_engine (engine (scan demo_stale)) = 200 /\
  m_rowids (scan demo_after_7) !! 0%nat = Some 101 /\
  @position (list Z) (list row * Z) demo_rb demo_engine (scan demo_stale)
    = m_rowids (scan demo_after_7) !! 0%nat.
Proof.
  split; [exact demo_read_8_answer|]. split; [vm_compute; reflexivity|].
  split; [vm_compute; reflexivity|].
  apply (@index_read_stale_position Demo.demo (list Z) (list row * Z) demo_rb demo_engine
    demo_index_engine demo_search_env demo_after_7 demo_stale demo_buffer_left []
    (le_bytes 4 8 ++ [67]) (le_bytes 4 8) 4 0 OK).
  - unfold demo_buffer_left. apply the_value. vm_compute. reflexivity.
  - vm_compute. reflexivity.
  - vm_compute. reflexivity.
  - exact demo_read_8_answer.
Defined.
End IndexSearch.
