(* ===== verification/Partition.v ===== *)
(** * Partition: partitioned tables

    Models [ha_ctcpart.cc] but for its bulk inserts, which are in [Dml]: the
    numbers of partitions, reads of one partition at a time through the methods
    of [ha_ctc] with a cursor per partition, row positions with partition
    numbers, the partitions that a range can be restricted to, and the
    statistics of the partitions.

    The server's [Partition_helper] decides which partition is read next, so
    that theorems are about any order of these calls.  The methods of [ha_ctc]
    are an interface, [BaseHandler]; [IndexSearch] implements it, and the laws
    that ordered reads rely on are proved for it ([search_base_laws],
    [search_open_laws]). *)

From S2P Require Import Prelude CtcError FieldTypes Handler Server RowFormat Session Stub Prefetch IndexSearch Demo.
Import CtcError Handler Prefetch.

Module Partition.

Abbreviation key_range := IndexSearch.key_range.

(** ** Partitions of a table *)

Definition PART_CURSOR_NUM : Z := 8192.
Definition INVALID_PART_ID : Z := 2 ^ 32 - 1.
Definition MY_BIT_NONE : Z := 2 ^ 32 - 1.
Definition PARTITION_BYTES_IN_POS : Z := 2.
Definition ROW_ID_LENGTH : Z := 8.

(** The server's [partition_info] of the table in a statement. *)
Class PartitionInfo := {
  num_parts : Z;
  num_subparts : Z;                              (* 0: the table has no subpartitions *)
  get_tot_partitions : Z;
  num_partitions_used : Z;
  get_first_used_partition : Z;
  get_next_used_partition : Z -> Z;
  part_field_array : list nat }.                 (* the numbers of the fields *)

(** [used] are the partitions that the statement uses, in their order. *)
Class PartitionInfoLaws (PI : PartitionInfo) (used : list Z) : Prop := {
  parts_range : 0 < num_parts /\ 0 <= num_subparts;
  parts_total : get_tot_partitions = num_parts * Z.max 1 num_subparts;
  parts_few : get_tot_partitions <= PART_CURSOR_NUM;
  used_range : Forall (fun p => 0 <= p < get_tot_partitions) used;
  used_count : num_partitions_used = Z.of_nat (length used);
  first_used : get_first_used_partition = default MY_BIT_NONE (head used);
  next_used l1 p l2 : used = l1 ++ p :: l2 ->
    get_next_used_partition p = default MY_BIT_NONE (head l2) }.

Definition get_ct_sub_no (num_subparts part_id : Z) : Z := part_id mod num_subparts.
Definition get_ct_part_no (num_subparts part_id : Z) : Z := part_id / num_subparts.

(** [m_tch.part_id] and [m_tch.subpart_id] of a partition. *)
Definition part_numbers (is_sub_partitioned : bool) (num_subparts part_id : Z) : Z * Z :=
  if is_sub_partitioned
  then (get_ct_part_no num_subparts part_id, get_ct_sub_no num_subparts part_id)
  else (part_id, INVALID_PART_ID).

(** [for (i = get_first_used_partition(); i < bound; i = get_next_used_partition(i))] *)
Fixpoint for_used {PI : PartitionInfo} {A} (fuel : nat) (bound i : Z) (body : Z -> A -> option A)
    (a : A) : option A :=
  match fuel with
  | O => None
  | S n => if i <? bound then a ← body i a; for_used n bound (get_next_used_partition i) body a
           else Some a
  end.

Definition used_fuel {PI : PartitionInfo} : nat := S (Z.to_nat num_partitions_used).

(** The loop's effect. *)
Fixpoint each {A} (l : list Z) (body : Z -> A -> option A) (a : A) : option A :=
  match l with [] => Some a | i :: l => a ← body i a; each l body a end.

Section Partitions.
Context {PI : PartitionInfo} {used : list Z} {PIL : PartitionInfoLaws PI used}.

Lemma for_used_from {A} (body : Z -> A -> option A) bound l2 : forall l1 fuel a,
  used = l1 ++ l2 -> (length l2 < fuel)%nat -> get_tot_partitions <= bound <= MY_BIT_NONE ->
  for_used fuel bound (default MY_BIT_NONE (head l2)) body a = each l2 body a.
Proof.
  induction l2 as [|p l2 IH]; intros l1 [|fuel] a Hu Hf Hb; try (cbn in Hf; lia).
  - cbn [for_used head default]. by rewrite (proj2 (Z.ltb_ge _ _)) by lia.
  - change (default MY_BIT_NONE (head (p :: l2))) with p. cbn [for_used each]. pose proof used_range as Hr. rewrite Hu in Hr.
    apply Forall_app in Hr as [_ Hr]. apply Forall_inv in Hr.
    rewrite (proj2 (Z.ltb_lt _ _)) by lia. destruct (body p a) as [a'|]; [|done].
    cbn [mbind option_bind]. rewrite (next_used l1 p l2 Hu).
    apply (IH (l1 ++ [p])); [by rewrite <- app_assoc|cbn in Hf; lia|done].
Qed.

Lemma for_used_each {A} (body : Z -> A -> option A) bound a :
  get_tot_partitions <= bound <= MY_BIT_NONE ->
  for_used used_fuel bound get_first_used_partition body a = each used body a.
Proof.
  intros Hb. rewrite first_used. apply (for_used_from body bound used []); [done| |done].
  unfold used_fuel. rewrite used_count. lia.
Qed.

Lemma tot_positive : 0 < get_tot_partitions.
Proof. rewrite parts_total. destruct parts_range. nia. Qed.

End Partitions.

(** [get_used_partitions]; [m1], [m2]: the allocations succeed.  [None]: what
    was allocated is not initialised.  Without a used partition nothing is
    allocated, and the answer is the same. *)
Fixpoint collect_parts {PI : PartitionInfo} (n : nat) (part_id : Z) : list (Z * Z) :=
  match n with
  | O => []
  | S n => (if num_subparts >? 0 then (part_id / num_subparts, part_id mod num_subparts)
            else (part_id, 0)) :: collect_parts n (get_next_used_partition part_id)
  end.

Definition get_used_partitions {PI : PartitionInfo} (m1 m2 : bool)
  : option (bool * list (Z * Z)) :=
  if num_partitions_used >? 0 then
    if negb m1 then Some (false, []) else if negb m2 then Some (false, []) else
    if get_first_used_partition =? MY_BIT_NONE then None
    else Some (true, collect_parts (Z.to_nat num_partitions_used) get_first_used_partition)
  else Some (true, []).

(** ** The methods of [ha_ctc] *)

(** The reading methods of [ha_ctc], with their arguments but the record. *)
Inductive base_read :=
  | RND_NEXT
  | RND_POS (pos : list Z)
  | INDEX_FIRST
  | INDEX_LAST
  | INDEX_NEXT
  | INDEX_PREV
  | INDEX_NEXT_SAME (key : list Z) (length : Z)
  | INDEX_READ (key : list Z) (key_len find_flag : Z)
  | INDEX_READ_MAP (key : list Z) (keypart_map find_flag : Z)
  | INDEX_READ_LAST_MAP (key : list Z) (keypart_map : Z)
  | INDEX_READ_IDX_MAP (index : nat) (key : list Z) (keypart_map find_flag : Z).

(** What [ha_ctcpart] uses of its base class: the members of [m_tch] that it
    sets, and methods.  [b_position] is the row id of the current row. *)
Class BaseHandler (R B : Type) := {
  b_part : B -> Z * Z;
  b_set_part : Z * Z -> B -> B;
  b_cursor : B -> Z;
  b_set_cursor : Z -> B -> B;
  b_set_cursor_ref : Z -> bool -> B -> B;        (* cursor_ref and cursor_valid *)
  b_index_sorted : B -> bool;
  b_has_rec_buf : B -> bool;
  b_drop_rec_buf : B -> B;                       (* delete m_rec_buf *)
  b_reset_rec_buf : B -> B;
  b_rnd_init : bool -> B -> option (ha_code * B);
  b_rnd_end : B -> option (ha_code * B);
  b_index_init : nat -> bool -> B -> option (ha_code * B);
  b_index_end : B -> option (ha_code * B);
  b_records : B -> option (ha_code * Z * B);
  b_position : B -> option (list Z);
  b_read : base_read -> R -> B -> option (ha_code * R * B) }.

Section Handler.
Context {R B : Type} {PI : PartitionInfo} {BH : BaseHandler R B}.
(** [m_is_sub_partitioned] *)
Context (is_sub_partitioned : bool).

(** The members of [ha_ctcpart] and, of [Partition_helper], [m_last_part] and
    [m_ordered]. *)
Record part_state := mk_part_state {
  base : B;
  m_last_part : Z;
  m_ordered : bool;
  cursors : list Z;
  cursor_set : list Z;
  pruned_by_engine : bool;
  part_spec : Z * Z }.

Definition set_base (b : B) (s : part_state) : part_state :=
  mk_part_state b (m_last_part s) (m_ordered s) (cursors s) (cursor_set s) (pruned_by_engine s)
    (part_spec s).
Definition set_last (p : Z) (s : part_state) : part_state :=
  mk_part_state (base s) p (m_ordered s) (cursors s) (cursor_set s) (pruned_by_engine s)
    (part_spec s).
Definition set_ordered (o : bool) (s : part_state) : part_state :=
  mk_part_state (base s) (m_last_part s) o (cursors s) (cursor_set s) (pruned_by_engine s)
    (part_spec s).
Definition set_cursors (c set : list Z) (s : part_state) : part_state :=
  mk_part_state (base s) (m_last_part s) (m_ordered s) c set (pruned_by_engine s) (part_spec s).
Definition set_pruned (b : bool) (spec : Z * Z) (s : part_state) : part_state :=
  mk_part_state (base s) (m_last_part s) (m_ordered s) (cursors s) (cursor_set s) b spec.

Definition set_partition (part_id : Z) (s : part_state) : part_state :=
  set_base (b_set_part (part_numbers is_sub_partitioned num_subparts part_id) (base s)) s.

Definition reset_partition (part_id : Z) (s : part_state) : part_state :=
  set_last part_id (set_base (b_set_part (INVALID_PART_ID, INVALID_PART_ID) (base s)) s).

(** *** The set of partitions with a cursor *)

Definition cursor_set_bit (set : list Z) (bit : Z) : option (list Z) :=
  w ← set !! Z.to_nat (bit / 8);
  Some (<[Z.to_nat (bit / 8) := Z.lor w (Z.shiftl 1 (Z.land bit 7))]> set).
Definition cursor_is_set (set : list Z) (bit : Z) : option bool :=
  w ← set !! Z.to_nat (bit / 8);
  Some (negb (Z.land w (Z.shiftl 1 (Z.land bit 7)) =? 0)).
Definition cursor_clear_bit (set : list Z) (bit : Z) : option (list Z) :=
  w ← set !! Z.to_nat (bit / 8);
  Some (<[Z.to_nat (bit / 8) := Z.land w (Z.lnot (Z.shiftl 1 (Z.land bit 7)))]> set).

(** [cursor_set_bit(cursor_set, part_id); cursors[part_id] = m_tch.cursor_addr] *)
Definition save_cursor (part_id : Z) (s : part_state) : option part_state :=
  if b_index_sorted (base s) then
    set ← cursor_set_bit (cursor_set s) part_id;
    if Z.of_nat (length (cursors s)) <=? part_id then None
    else Some (set_cursors (<[Z.to_nat part_id := b_cursor (base s)]> (cursors s)) set s)
  else Some s.

(** [cursor_set_bit(cursor_set, part_id); m_tch.cursor_addr = cursors[part_id]] *)
Definition restore_cursor (part_id : Z) (s : part_state) : option part_state :=
  if b_index_sorted (base s) then
    set ← cursor_set_bit (cursor_set s) part_id;
    c ← cursors s !! Z.to_nat part_id;
    Some (set_base (b_set_cursor c (base s)) (set_cursors (cursors s) set s))
  else Some s.

(** [if (part_id != m_last_part) ha_ctc::reset_rec_buf()] *)
Definition reset_other (part_id : Z) (s : part_state) : part_state :=
  if part_id =? m_last_part s then s else set_base (b_reset_rec_buf (base s)) s.

(** A method of [ha_ctc] between [set_partition] and [reset_partition]. *)
Definition in_part (part_id : Z) (m : base_read) (buf : R) (s : part_state)
  : option (ha_code * R * part_state) :=
  let s := set_partition part_id s in
  '(ret, buf, b) ← b_read m buf (base s);
  Some (ret, buf, reset_partition part_id (set_base b s)).

(** A read that opens the partition's cursor, and one that goes on with it. *)
Definition open_in_part (part_id : Z) (m : base_read) (buf : R) (s : part_state)
  : option (ha_code * R * part_state) :=
  '(ret, buf, s) ← in_part part_id m buf (reset_other part_id s);
  s ← save_cursor part_id s;
  Some (ret, buf, s).

Definition go_on_in_part (part_id : Z) (m : base_read) (buf : R) (s : part_state)
  : option (ha_code * R * part_state) :=
  s ← restore_cursor part_id s;
  in_part part_id m buf s.

Definition index_first_in_part (part_id : Z) := open_in_part part_id INDEX_FIRST.
Definition index_last_in_part (part_id : Z) := open_in_part part_id INDEX_LAST.
Definition index_read_map_in_part (part_id : Z) (key : list Z) (keypart_map find_flag : Z) :=
  open_in_part part_id (INDEX_READ_MAP key keypart_map find_flag).
Definition index_read_last_map_in_part (part_id : Z) (key : list Z) (keypart_map : Z) :=
  open_in_part part_id (INDEX_READ_LAST_MAP key keypart_map).
Definition index_read_idx_map_in_part (part_id : Z) (index : nat) (key : list Z)
    (keypart_map find_flag : Z) :=
  in_part part_id (INDEX_READ_IDX_MAP index key keypart_map find_flag).
Definition index_next_in_part (part_id : Z) := go_on_in_part part_id INDEX_NEXT.
Definition index_prev_in_part (part_id : Z) := go_on_in_part part_id INDEX_PREV.
Definition index_next_same_in_part (part_id : Z) (key : list Z) (length : Z) :=
  go_on_in_part part_id (INDEX_NEXT_SAME key length).
(** [read_range_next_in_part]; [record]: [None] is a null pointer, for which the
    row goes to [table->record[0]]. *)
Definition read_range_next_in_part (part_id : Z) (record : option R) (record_0 : R) :=
  go_on_in_part part_id INDEX_NEXT (default record_0 record).

Definition rnd_init_in_part (part_id : Z) (scan : bool) (s : part_state)
  : option (ha_code * part_state) :=
  let s := set_partition part_id s in
  '(ret, b) ← b_rnd_init scan (base s);
  Some (ret, reset_partition part_id (set_base b s)).

Definition rnd_next_in_part (part_id : Z) := in_part part_id RND_NEXT.

Definition rnd_end_in_part (part_id : Z) (s : part_state) : option (ha_code * part_state) :=
  if b_cursor (base s) =? Session.INVALID_VALUE64 then Some (OK, s) else
  let s := set_partition part_id s in
  '(ret, b) ← b_rnd_end (base s);
  Some (ret, reset_partition part_id (set_base b s)).

(** The row id of the current row; an error of the engine fails an assertion. *)
Definition position_in_last_part (s : part_state) : option (list Z * part_state) :=
  let part_id := m_last_part s in
  let s := set_partition part_id s in
  ref ← b_position (base s);
  Some (ref, reset_partition part_id s).

(** A position: two bytes of the partition's number, then the row id. *)
Definition rnd_pos (buf : R) (pos : list Z) (s : part_state) : option (ha_code * R * part_state) :=
  part_id ← rd pos 0 PARTITION_BYTES_IN_POS;
  in_part (le_val part_id) (RND_POS (drop (Z.to_nat PARTITION_BYTES_IN_POS) pos)) buf s.

(** [setup] is the code of [ph_index_init_setup], which sets [m_ordered],
    [queue] that of [init_record_priority_queue]. *)
Definition index_init (setup queue : ha_code) (index : nat) (sorted : bool) (s : part_state)
  : option (ha_code * part_state) :=
  let s := set_ordered sorted s in
  if decide (setup <> OK) then Some (setup, s) else
  if sorted && bool_decide (queue <> OK) then Some (queue, s) else
  let part_id := get_first_used_partition in
  let s := set_partition part_id s in
  '(ret, b) ← b_index_init index sorted (base s);
  let s := set_pruned false (part_spec s) (reset_partition part_id (set_base b s)) in
  Some (ret, if sorted && b_has_rec_buf (base s) && (num_partitions_used >? 1)
             then set_base (b_drop_rec_buf (base s)) s else s).

Definition index_end (s : part_state) : option (ha_code * part_state) :=
  let s := set_pruned false (part_spec s) s in
  let invalid s := set_base (b_set_part (INVALID_PART_ID, INVALID_PART_ID) (base s)) s in
  if m_ordered s then
    s ← for_used used_fuel MY_BIT_NONE get_first_used_partition
          (fun i s =>
             is_set ← cursor_is_set (cursor_set s) i;
             if is_set : bool then
               c ← cursors s !! Z.to_nat i;
               '(_, b) ← b_index_end (b_set_cursor c (base s));
               set ← cursor_clear_bit (cursor_set s) i;
               Some (set_base b (set_cursors (cursors s) set s))
             else Some s) s;
    Some (OK, invalid s)
  else
    '(_, b) ← b_index_end (base s);
    let s := invalid (set_base b s) in
    Some (OK, set_base (b_set_cursor_ref 0 false (base s)) s).

(** [records]: the sum of the partitions; the first error ends it. *)
Definition HA_POS_ERROR : Z := 2 ^ 64 - 1.

Definition records (s : part_state) : option (ha_code * Z * part_state) :=
  '(ret, n, s) ← for_used used_fuel get_tot_partitions get_first_used_partition
    (fun i '(ret, n, s) =>
       if decide (ret <> OK) then Some (ret, n, s) else      (* returned *)
       let s := set_partition i s in
       '(ret, rows, b) ← b_records (base s);
       let s := reset_partition i (set_base b s) in
       Some (if decide (ret <> OK) then (ret, HA_POS_ERROR, s) else (OK, wrapU 64 (n + rows), s)))
    (OK, 0, s);
  Some (ret, n, s).

(** ** Ranges *)

(** A column of the active index: [field->field_index()] and [length], the
    bytes of its values without the null byte and the bytes of a length. *)
Record index_part := mk_ipart { ip_field_index : nat; ip_length : Z }.

Definition HA_READ_KEY_EXACT : Z := 0.

(** [part_of_key i]: the partitioning field [i] is a column of the index. *)
Definition need_prune_partitions_by_engine (part_of_key : nat -> bool)
    (start_key end_key : option key_range) : bool :=
  match start_key, end_key with
  | Some start_key, Some _ =>
    if negb (num_partitions_used =? get_tot_partitions) then false
    else if IndexSearch.kr_flag start_key =? HA_READ_KEY_EXACT then false
    else forallb part_of_key part_field_array
  | _, _ => false
  end.

(** The loop over the columns from the one of number [i] on. *)
Fixpoint equal_parts (start_key end_key : key_range) (i offset : Z) (parts : list index_part)
  : option bool :=
  match parts with
  | [] => Some true
  | p :: parts =>
    if offset >=? IndexSearch.kr_length start_key then Some false else
    if negb (bool_decide (ip_field_index p ∈ part_field_array))
    then equal_parts start_key end_key (i + 1) offset parts else
    a ← rd (IndexSearch.kr_key start_key) offset (ip_length p);
    b ← rd (IndexSearch.kr_key end_key) offset (ip_length p);
    if negb (bool_decide (a = b)) then Some false else
    let offset := if Z.testbit (IndexSearch.kr_keypart_map start_key) i
                  then offset + ip_length p else offset in
    equal_parts start_key end_key (i + 1) offset parts
  end.

Definition equal_range_on_part_field (index : list index_part) (start_key end_key : key_range)
  : option bool := equal_parts start_key end_key 0 0 index.

(** What a range read uses of the table and of the server: the active index,
    [get_partition_set] for a key that is to match exactly, [m_start_key], the
    comparison of a record with the end of the range, and whether the engine
    checks that end itself. *)
Record range_env := mk_range_env {
  index : list index_part;
  part_of_key : nat -> bool;
  get_partition_set : R -> list Z -> Z -> Z -> Z * Z;      (* key, length, keypart_map *)
  m_start_key : option key_range;
  compare_key_end : R -> Z;
  in_range_check_pushed_down : bool }.

Definition end_of_range (E : range_env) (ret : ha_code) (buf : R) : ha_code :=
  if decide (ret = HA_ERR_KEY_NOT_FOUND) then HA_ERR_END_OF_FILE
  else if bool_decide (ret = OK) && negb (in_range_check_pushed_down E) then
    if compare_key_end E buf >? 0 then HA_ERR_END_OF_FILE else ret
  else ret.

(** The first half: the partitions that are not read, [inl]. *)
Definition prune_partitions (E : range_env) (part_id : Z) (read_record : R)
    (start_key end_key : option key_range) (s : part_state) : option (ha_code * part_state + part_state) :=
  if pruned_by_engine s && negb (part_id =? fst (part_spec s))
  then Some (inl (HA_ERR_END_OF_FILE, s)) else
  prune ← (if need_prune_partitions_by_engine (part_of_key E) start_key end_key then
             match start_key, end_key with
             | Some start_key, Some end_key =>
               equal_range_on_part_field (index E) start_key end_key
             | _, _ => Some false
             end
           else Some false);
  if prune : bool then
    start_key ← start_key;
    let spec := get_partition_set E read_record (IndexSearch.kr_key start_key)
                  (IndexSearch.kr_length start_key) (IndexSearch.kr_keypart_map start_key) in
    let s := set_pruned true spec s in
    if negb (fst spec =? snd spec) then None               (* assert *)
    else if negb (part_id =? fst spec) then Some (inl (HA_ERR_END_OF_FILE, s))
    else Some (inr s)
  else Some (inr s).

(** [record]: [None] is a null pointer.  The row read is the result; without
    the check by the engine it is in [table->record[0]] as well. *)
Definition read_range_first_in_part (E : range_env) (part_id : Z) (record : option R)
    (record_0 : R) (start_key end_key : option key_range) (s : part_state)
  : option (ha_code * R * part_state) :=
  let read_record := default record_0 record in
  r ← prune_partitions E part_id read_record start_key end_key s;
  match r with
  | inl (ret, s) => Some (ret, read_record, s)
  | inr s =>
    let m := match m_start_key E with
             | Some k => INDEX_READ (IndexSearch.kr_key k) (IndexSearch.kr_length k) (IndexSearch.kr_flag k)
             | None => INDEX_FIRST
             end in
    let s := set_partition part_id (reset_other part_id s) in
    '(ret, buf, b) ← b_read m read_record (base s);
    s ← save_cursor part_id (reset_partition part_id (set_base b s));
    Some (end_of_range E ret buf, buf, s)
  end.

(** ** Row ids *)

(** [rowid_t]: 8 bytes with bit fields. *)
Record rowid := mk_rowid { ri_file : Z; ri_page : Z; ri_slot : Z }.

Definition rowid_of (ref : list Z) : option rowid :=
  b ← rd ref 0 ROW_ID_LENGTH;
  let v := le_val b in
  Some (mk_rowid (v mod 2 ^ 10) (Z.shiftr v 10 mod 2 ^ 30) (Z.shiftr v 40 mod 2 ^ 12)).

Definition cmp3 (x y : Z) : Z := if x >? y then 1 else if x <? y then -1 else 0.

Definition ctc_cmp_cantian_rowid (r1 r2 : rowid) : Z :=
  let result := cmp3 (ri_file r1) (ri_file r2) in
  if negb (result =? 0) then result else
  let result := cmp3 (ri_page r1) (ri_page r2) in
  if negb (result =? 0) then result else
  cmp3 (ri_slot r1) (ri_slot r2).

(** [ha_ctc::cmp_ref], and the one of [ha_ctcpart] after the partition's
    number. *)
Definition base_cmp_ref (ref1 ref2 : list Z) : option Z :=
  r1 ← rowid_of ref1; r2 ← rowid_of ref2; Some (ctc_cmp_cantian_rowid r1 r2).

Definition cmp_ref (ref1 ref2 : list Z) : option Z :=
  base_cmp_ref (drop (Z.to_nat PARTITION_BYTES_IN_POS) ref1)
    (drop (Z.to_nat PARTITION_BYTES_IN_POS) ref2).

(** The order of the priority queue: records are preceded by their row ids;
    [cmp] is the server's [key_rec_cmp] of the two records. *)
Definition key_and_rowid_cmp (cmp : Z) (rowid_a rowid_b : list Z) : option Z :=
  if negb (cmp =? 0) then Some cmp else base_cmp_ref rowid_a rowid_b.

(** ** Statistics *)

(** The statistics of a partition that the optimizer gets. *)
Record part_stats := mk_part_stats { estimate_rows : Z; avg_row_len : Z; blocks : Z }.

(** [stats.records] and [stats.mean_rec_length]; [None] for [cbo]: there are
    no statistics; [len]: the length so far. *)
Definition info_low (cbo : option (list part_stats)) (len : Z) : option (Z * Z) :=
  match cbo with
  | None => Some (0, len)
  | Some stats_table =>
    '(records, total, n) ← for_used used_fuel get_tot_partitions get_first_used_partition
      (fun p '(records, total, n) =>
         st ← stats_table !! Z.to_nat p;
         Some (if negb (avg_row_len st =? 0)
               then (wrapU 64 (records + estimate_rows st), wrapU 32 (total + avg_row_len st), n + 1)
               else (wrapU 64 (records + estimate_rows st), total, n))) (0, 0, 0);
    Some (records, if n >? 0 then total / n else len)
  end.

(** The blocks of the used partitions; sums of these integers are exact in a
    [double] below [2 ^ 53]. *)
Definition scan_time (cbo : option (list part_stats)) : option Z :=
  match cbo with
  | None => Some 0
  | Some stats_table =>
    for_used used_fuel get_tot_partitions get_first_used_partition
      (fun p t => st ← stats_table !! Z.to_nat p; Some (t + blocks st)) 0
  end.

(** [get_cbo_stats_4share]: the calls of [ctc_get_cbo_stats] with the first
    partition and the number of partitions, up to the first error.  [data_size]
    is the larger of the two lengths of a partition's statistics. *)
Definition MAX_MESSAGE_SIZE : Z := 4194304.
Definition STATS_HISTGRAM_MAX_SIZE : Z := 254.

Definition stats_data_size (num_str_cols str_max_len msg_len : Z) : Z :=
  let str_data_size := wrapU 32 (num_str_cols * (STATS_HISTGRAM_MAX_SIZE + 2) * str_max_len) in
  if msg_len >? str_data_size then msg_len else str_data_size.

Fixpoint fetch_full (n : nat) (get : Z -> Z -> ct_errno_t) (first num : Z)
  : ct_errno_t * Z * list (Z * Z) :=
  match n with
  | O => (CT_SUCCESS, first, [])
  | S n =>
    let ret := get first num in
    if decide (ret <> CT_SUCCESS) then (ret, first, [(first, num)]) else
    let '(ret, last, calls) := fetch_full n get (first + num) num in
    (ret, last, (first, num) :: calls)
  end.

Definition fetch_cbo_stats (get : Z -> Z -> ct_errno_t) (part_cnt data_size : Z)
  : option (ct_errno_t * list (Z * Z)) :=
  if data_size =? 0 then None else
  let num := MAX_MESSAGE_SIZE / data_size in
  if num =? 0 then None else                               (* a division by zero *)
  let '(ret, first, calls) := fetch_full (Z.to_nat (part_cnt / num)) get 0 num in
  if decide (ret <> CT_SUCCESS) then Some (ret, calls) else
  let rest := part_cnt - first in
  if rest >? 0 then Some (get first rest, calls ++ [(first, rest)]) else Some (ret, calls).

(** ** Statements on partitions *)

(** [get_auto_increment]: the flags of the call of [ctc_get_serial_value],
    [auto_inc_offset] and [auto_inc_step] of 16 bits. *)
Definition get_auto_increment (t : THD) (ctc_get_serial_value : Z * Z -> ct_errno_t * Z) : Z :=
  let flag := (wrapU 16 (auto_increment_increment t), wrapU 16 (auto_increment_offset t)) in
  let '(ret, inc_value) := ctc_get_serial_value flag in
  if decide (ret <> CT_SUCCESS) then 2 ^ 64 - 1 else inc_value.

(** [analyze]: [admin_partition], [all_partitions]: the flags of the statement;
    [names_ok]: [set_read_partitions] succeeds; [base_analyze] is
    [ha_ctc::analyze] with [m_tch]'s partition. The result has the partitions
    analyzed. *)
Definition HA_ERR_GENERIC : Z := 168.

Fixpoint analyze_parts (base_analyze : Z * Z -> ha_code) (parts : list (Z * Z)) (ret : ha_code)
  : ha_code * list (Z * Z) :=
  match parts with
  | [] => (ret, [])
  | p :: parts =>
    let ret := base_analyze p in
    if decide (ret <> OK) then (ret, [p])
    else let '(ret, done) := analyze_parts base_analyze parts ret in (ret, p :: done)
  end.

(** Without a used partition the result is not initialised: [None]. *)
Definition analyze (passthru admin_partition all_partitions names_ok m1 m2 : bool)
    (subpart_id : Z) (base_analyze : Z * Z -> ha_code) : option (ha_code * list (Z * Z)) :=
  if passthru then Some (OK, []) else
  let whole := (INVALID_PART_ID, subpart_id) in
  if negb admin_partition || all_partitions then Some (base_analyze whole, [whole]) else
  if negb names_ok then Some (STATUS HA_ERR_GENERIC, []) else
  '(allocated, parts) ← get_used_partitions m1 m2;
  if negb allocated then Some (HA_ERR_OUT_OF_MEM, []) else
  if num_parts =? num_partitions_used then Some (base_analyze whole, [whole]) else
  match parts with
  | [] => None
  | _ => Some (analyze_parts base_analyze parts OK)
  end.

End Handler.

Arguments part_state : clear implicits.
Arguments range_env : clear implicits.

(** ** The set of cursors *)

Lemma bit_test w k : 0 <= k -> negb (Z.land w (Z.shiftl 1 k) =? 0) = Z.testbit w k.
Proof.
  intros Hk. rewrite Z.shiftl_1_l.
  destruct (Z.testbit w k) eqn:Hb.
  - apply negb_true_iff, Z.eqb_neq. intros H.
    assert (Z.testbit (Z.land w (2 ^ k)) k = true) as Ht
      by (by rewrite Z.land_spec, Hb, Z.pow2_bits_true by done).
    rewrite H, Z.bits_0 in Ht. done.
  - apply negb_false_iff, Z.eqb_eq. apply Z.bits_inj_0. intros n. rewrite Z.land_spec.
    destruct (decide (n = k)) as [->|]; [by rewrite Hb|].
    rewrite Z.pow2_bits_false by lia. apply andb_false_r.
Qed.

Lemma mod8 b : Z.land b 7 = b mod 8.
Proof. change 7 with (Z.ones 3). by rewrite Z.land_ones by lia. Qed.

Lemma byte_bit (b b' : Z) : 0 <= b -> 0 <= b' -> b <> b' -> b / 8 = b' / 8 -> b mod 8 <> b' mod 8.
Proof. intros. dlia. Qed.

(** The bits are a set of partitions. *)
Definition has_bit (set : list Z) (b : Z) : bool :=
  default false (w ← set !! Z.to_nat (b / 8); Some (Z.testbit w (b mod 8))).

Definition bit_index (set : list Z) (b : Z) : Prop := 0 <= b < 8 * Z.of_nat (length set).

Lemma bit_lookup set b : bit_index set b -> is_Some (set !! Z.to_nat (b / 8)).
Proof. unfold bit_index. intros. apply lookup_lt_is_Some_2. dlia. Qed.

Lemma cursor_is_set_ok set b : bit_index set b -> cursor_is_set set b = Some (has_bit set b).
Proof.
  intros H. unfold cursor_is_set, has_bit. destruct (bit_lookup set b H) as [w ->].
  cbn [mbind option_bind default]. rewrite bit_test, mod8; [done|]. rewrite mod8. dlia.
Qed.

(** Both operations change one bit. *)
Lemma update_bit set b (f : Z -> Z) v :
  bit_index set b ->
  (forall w n, 0 <= n -> Z.testbit (f w) n = if decide (n = b mod 8) then v else Z.testbit w n) ->
  exists set', (w ← set !! Z.to_nat (b / 8); Some (<[Z.to_nat (b / 8) := f w]> set)) = Some set' /\
    length set' = length set /\
    forall b', 0 <= b' -> has_bit set' b' = if decide (b' = b) then v else has_bit set b'.
Proof.
  intros H Hf. destruct (bit_lookup set b H) as [w Hw]. rewrite Hw. cbn [mbind option_bind].
  eexists. split; [done|]. split; [apply length_insert|]. intros b' Hb'. unfold has_bit.
  unfold bit_index in H. assert (0 <= b' mod 8) as Hm by dlia.
  destruct (decide (Z.to_nat (b' / 8) = Z.to_nat (b / 8))) as [He|Hne].
  - rewrite He, list_lookup_insert_eq by (by apply lookup_lt_is_Some_1; rewrite Hw).
    rewrite Hw. cbn [mbind option_bind default id]. rewrite Hf by done.
    destruct (decide (b' = b)) as [->|Hb]; [by rewrite decide_True|].
    rewrite decide_False; [done|]. apply byte_bit; try lia. apply Z2Nat.inj; [dlia..|done].
  - rewrite list_lookup_insert_ne by done.
    rewrite decide_False; [done|]. by intros ->.
Qed.

Lemma cursor_set_bit_ok set b :
  bit_index set b ->
  exists set', cursor_set_bit set b = Some set' /\ length set' = length set /\
    forall b', 0 <= b' -> has_bit set' b' = if decide (b' = b) then true else has_bit set b'.
Proof.
  intros H. apply (update_bit set b (fun w => Z.lor w (Z.shiftl 1 (Z.land b 7)))); [done|].
  intros w n Hn. unfold bit_index in H. rewrite mod8, Z.lor_spec, Z.shiftl_1_l.
  destruct (decide _) as [->|]; [by rewrite Z.pow2_bits_true, orb_true_r by dlia|].
  by rewrite Z.pow2_bits_false, orb_false_r by lia.
Qed.

Lemma cursor_clear_bit_ok set b :
  bit_index set b ->
  exists set', cursor_clear_bit set b = Some set' /\ length set' = length set /\
    forall b', 0 <= b' -> has_bit set' b' = if decide (b' = b) then false else has_bit set b'.
Proof.
  intros H. apply (update_bit set b (fun w => Z.land w (Z.lnot (Z.shiftl 1 (Z.land b 7))))); [done|].
  intros w n Hn. unfold bit_index in H. rewrite mod8, Z.land_spec, Z.lnot_spec, Z.shiftl_1_l by done.
  destruct (decide _) as [->|]; [by rewrite Z.pow2_bits_true, andb_false_r by dlia|].
  by rewrite Z.pow2_bits_false, andb_true_r by lia.
Qed.

(** ** Reading several partitions *)

(** What a read promises: the next of [rows], those after it, or their end. *)
Definition read_answer {R} (shown : row -> R -> Prop) (rows : list row) (ret : ha_code) (buf : R)
    (rows' : list row) : Prop :=
  match ret with
  | HA HA_OK => exists r, rows = r :: rows' /\ shown r buf
  | HA_ERR_END_OF_FILE | HA_ERR_KEY_NOT_FOUND => rows = [] /\ rows' = []
  | _ => True
  end.

Definition goes_on (m : base_read) : bool :=
  match m with INDEX_NEXT | INDEX_PREV | INDEX_NEXT_SAME _ _ => true | _ => false end.
Definition opens (m : base_read) : bool :=
  match m with
  | INDEX_FIRST | INDEX_LAST | INDEX_READ _ _ _ | INDEX_READ_MAP _ _ _ | INDEX_READ_LAST_MAP _ _ => true
  | _ => false
  end.
Definition answered (ret : ha_code) : bool :=
  match ret with HA HA_OK | HA_ERR_END_OF_FILE | HA_ERR_KEY_NOT_FOUND => true | _ => false end.

(** What [ha_ctcpart] relies on in an ordered scan.  [rows_at c b] are the rows
    that the cursor [c] still has to return, [is_open c b] tells whether [c] is
    one.  A read goes on with the cursor in [m_tch]. *)
Class BaseLaws {R B} (BH : BaseHandler R B) (shown : row -> R -> Prop) (ok : B -> Prop)
    (rows_at : Z -> B -> list row) (is_open : Z -> B -> Prop) : Prop := {
  base_set_part p b : ok b ->
    ok (b_set_part p b) /\ b_part (b_set_part p b) = p /\ b_cursor (b_set_part p b) = b_cursor b /\
    b_index_sorted (b_set_part p b) = b_index_sorted b /\
    forall c, rows_at c (b_set_part p b) = rows_at c b /\ (is_open c (b_set_part p b) <-> is_open c b);
  base_set_cursor c b : ok b -> is_open c b ->
    ok (b_set_cursor c b) /\ b_cursor (b_set_cursor c b) = c /\
    b_index_sorted (b_set_cursor c b) = b_index_sorted b /\
    forall c', rows_at c' (b_set_cursor c b) = rows_at c' b /\
               (is_open c' (b_set_cursor c b) <-> is_open c' b);
  base_goes_on m buf b ret buf' b' : ok b -> goes_on m = true -> is_open (b_cursor b) b ->
    b_read m buf b = Some (ret, buf', b') ->
    ok b' /\ b_index_sorted b' = b_index_sorted b /\
    read_answer shown (rows_at (b_cursor b) b) ret buf' (rows_at (b_cursor b) b') /\
    forall c, (is_open c b' <-> is_open c b) /\ (c <> b_cursor b -> rows_at c b' = rows_at c b) }.

(** [found m p b rows]: [rows] are the rows of the partition [p] that the read
    [m] finds, which starts a scan of its own in the state [b]; if there is an
    answer, the scan has a new cursor. *)
Class OpenLaws {R B} (BH : BaseHandler R B) (shown : row -> R -> Prop) (ok : B -> Prop)
    (rows_at : Z -> B -> list row) (is_open : Z -> B -> Prop)
    (found : base_read -> Z * Z -> B -> list row -> Prop) : Prop := {
  base_reset_rec_buf b : ok b ->
    ok (b_reset_rec_buf b) /\ b_index_sorted (b_reset_rec_buf b) = b_index_sorted b /\
    (forall m p rows, found m p b rows -> found m p (b_reset_rec_buf b) rows) /\
    forall c, rows_at c (b_reset_rec_buf b) = rows_at c b /\
              (is_open c (b_reset_rec_buf b) <-> is_open c b);
  base_found_part m p p' b rows : ok b -> found m p b rows -> found m p (b_set_part p' b) rows;
  base_opens m buf b rows : ok b -> b_index_sorted b = true ->
    fst (b_part b) < PART_CURSOR_NUM -> found m (b_part b) b rows ->
    exists ret buf' b', b_read m buf b = Some (ret, buf', b') /\
    (answered ret = true ->
     ok b' /\ b_index_sorted b' = b_index_sorted b /\
     ~ is_open (b_cursor b') b /\ is_open (b_cursor b') b' /\
     read_answer shown rows ret buf' (rows_at (b_cursor b') b') /\
     forall c, is_open c b -> is_open c b' /\ rows_at c b' = rows_at c b) }.

Section Ordered.
Context {R B : Type} {PI : PartitionInfo} {used : list Z} {PIL : PartitionInfoLaws PI used}.
Context {BH : BaseHandler R B} {shown : row -> R -> Prop} {ok : B -> Prop}
  {rows_at : Z -> B -> list row} {is_open : Z -> B -> Prop}
  {found : base_read -> Z * Z -> B -> list row -> Prop}.
Context {BL : BaseLaws BH shown ok rows_at is_open}.
Context (sub : bool) (Hsub : sub = true -> 0 < num_subparts).

Definition has (s : part_state B) (p : Z) : Prop := has_bit (cursor_set s) p = true.

(** The rows that the scan of a partition has yet to return. *)
Definition view (s : part_state B) (p : Z) : list row :=
  match cursors s !! Z.to_nat p with Some c => rows_at c (base s) | None => [] end.

Definition in_range (p : Z) : Prop := 0 <= p < PART_CURSOR_NUM.

(** The partitions with a cursor have different open ones. *)
Record wf (s : part_state B) : Prop := {
  wf_ok : ok (base s);
  wf_sorted : b_index_sorted (base s) = true;
  wf_cursors : Z.of_nat (length (cursors s)) = PART_CURSOR_NUM;
  wf_set : 8 * Z.of_nat (length (cursor_set s)) = PART_CURSOR_NUM;
  wf_open p c : in_range p -> has s p -> cursors s !! Z.to_nat p = Some c -> is_open c (base s);
  wf_distinct p q c : in_range p -> in_range q -> has s p -> has s q ->
    cursors s !! Z.to_nat p = Some c -> cursors s !! Z.to_nat q = Some c -> p = q }.

Lemma wf_index s p : wf s -> in_range p -> bit_index (cursor_set s) p.
Proof. intros W H. unfold bit_index. pose proof (wf_set s W). unfold in_range in H. lia. Qed.

Lemma wf_lookup s p : wf s -> in_range p -> exists c, cursors s !! Z.to_nat p = Some c.
Proof.
  intros W H. unfold in_range in H. pose proof (wf_cursors s W).
  apply lookup_lt_is_Some_2. lia.
Qed.

(** The handler between two calls: only the partition in [m_tch] differs. *)
Lemma reset_ok s p :
  wf s -> wf (reset_partition p s) /\ (forall q, has (reset_partition p s) q <-> has s q) /\
  forall q, view (reset_partition p s) q = view s q.
Proof.
  intros W. destruct (base_set_part (INVALID_PART_ID, INVALID_PART_ID) (base s) (wf_ok s W))
    as (Hok & _ & _ & Hsort & Hrows).
  assert (forall q, view (reset_partition p s) q = view s q) as Hv.
  { intros q. unfold view, reset_partition, set_last, set_base. cbn [cursors base].
    destruct (cursors s !! _); [apply Hrows|done]. }
  split; [|done]. destruct W as [H1 H2 H3 H4 H5 H6].
  split; cbn [reset_partition set_last set_base base cursors cursor_set]; try done.
  - by rewrite Hsort.
  - intros q c Hq Hh Hc. apply Hrows. by apply (H5 q).
Qed.

(** [b'] has the same cursors as [b]. *)
Definition sim (b b' : B) : Prop :=
  ok b' /\ b_index_sorted b' = b_index_sorted b /\
  forall c, rows_at c b' = rows_at c b /\ (is_open c b' <-> is_open c b).

(** A new state of the base class and of the set of cursors. *)
Definition with_base (b : B) (set : list Z) (s : part_state B) : part_state B :=
  mk_part_state b (m_last_part s) (m_ordered s) (cursors s) set (pruned_by_engine s) (part_spec s).

(** A cursor goes on: the other ones stay as they are. *)
Lemma with_base_wf s p set' b' :
  wf s -> in_range p -> has s p -> length set' = length (cursor_set s) ->
  (forall q, 0 <= q -> has_bit set' q = if decide (q = p) then true else has_bit (cursor_set s) q) ->
  ok b' -> b_index_sorted b' = true -> (forall c, is_open c b' <-> is_open c (base s)) ->
  wf (with_base b' set' s) /\ forall q, in_range q -> has (with_base b' set' s) q <-> has s q.
Proof.
  intros W Hp Hh Hlen Hbit Hok Hsort Hopen.
  assert (forall q, in_range q -> has (with_base b' set' s) q <-> has s q) as Hh1.
  { intros q Hq. unfold has, with_base. cbn [cursor_set]. rewrite Hbit by apply Hq.
    destruct (decide _) as [->|]; [|done]. by split. }
  split; [|done]. split; try done.
  - exact (wf_cursors s W).
  - cbn [with_base cursor_set]. rewrite Hlen. exact (wf_set s W).
  - intros q d Hq Hhq Hd. apply Hh1 in Hhq; [|done]. apply Hopen. by apply (wf_open s W q).
  - intros q q' d Hq Hq' Hhq Hhq' Hd Hd'. apply Hh1 in Hhq; [|done]. apply Hh1 in Hhq'; [|done].
    by apply (wf_distinct s W q q' d).
Qed.

Lemma prepare_ok s p c :
  wf s -> is_open c (base s) ->
  let b := b_set_part (part_numbers sub num_subparts p) (b_set_cursor c (base s)) in
  sim (base s) b /\ b_cursor b = c.
Proof.
  intros W Hopen b. destruct (base_set_cursor c (base s) (wf_ok s W) Hopen)
    as (Hok1 & Hcur1 & Hsort1 & Hrows1).
  destruct (base_set_part (part_numbers sub num_subparts p) (b_set_cursor c (base s)) Hok1)
    as (Hok2 & _ & Hcur2 & Hsort2 & Hrows2).
  split; [|unfold b; by rewrite Hcur2]. split; [done|]. split; [unfold b; by rewrite Hsort2|].
  intros d. unfold b. split.
  - rewrite (proj1 (Hrows2 d)). apply Hrows1.
  - rewrite (proj2 (Hrows2 d)). apply Hrows1.
Qed.

(** The call, made explicit. *)
Lemma go_on_run s p m buf :
  wf s -> in_range p ->
  exists set' c, length set' = length (cursor_set s) /\ cursors s !! Z.to_nat p = Some c /\
    (forall q, 0 <= q -> has_bit set' q = if decide (q = p) then true else has_bit (cursor_set s) q) /\
    go_on_in_part sub p m buf s =
      ('(ret, buf, b) ← b_read m buf (b_set_part (part_numbers sub num_subparts p)
                                        (b_set_cursor c (base s)));
       Some (ret, buf, reset_partition p (with_base b set' s))).
Proof.
  intros W Hp.
  destruct (cursor_set_bit_ok (cursor_set s) p (wf_index s p W Hp)) as (set' & Hset & Hlen & Hbit).
  destruct (wf_lookup s p W Hp) as [c Hc]. exists set', c. repeat split; try done.
  unfold go_on_in_part, restore_cursor. by rewrite (wf_sorted s W), Hset, Hc.
Qed.

(** A read that goes on with the cursor of a partition. *)
Lemma go_on_ok s p m buf ret buf' s' :
  wf s -> in_range p -> has s p -> goes_on m = true ->
  go_on_in_part sub p m buf s = Some (ret, buf', s') ->
  wf s' /\ (forall q, in_range q -> has s' q <-> has s q) /\
  read_answer shown (view s p) ret buf' (view s' p) /\
  forall q, in_range q -> has s q -> q <> p -> view s' q = view s q.
Proof.
  intros W Hp Hh Hm.
  destruct (go_on_run s p m buf W Hp) as (set' & c & Hlen & Hc & Hbit & ->).
  destruct (prepare_ok s p c W (wf_open s W p c Hp Hh Hc)) as [(Hok & Hsort & Hrows) Hcur].
  set (b := b_set_part _ _) in *. destruct (b_read m buf b) as [[[r im] b']|] eqn:Hread; [|done].
  cbn [mbind option_bind]. intros [= <- <- <-].
  destruct (base_goes_on m buf b r im b' Hok Hm) as (Hok' & Hsort' & Hans & Hoth);
    [rewrite Hcur; apply Hrows; by apply (wf_open s W p c)|done|].
  rewrite Hcur in Hans, Hoth.
  destruct (with_base_wf s p set' b' W Hp Hh Hlen Hbit Hok') as [W1 Hh1].
  { rewrite Hsort', Hsort. exact (wf_sorted s W). }
  { intros d. rewrite (proj1 (Hoth d)). apply Hrows. }
  destruct (reset_ok _ p W1) as (W2 & Hh2 & Hv2). split; [done|].
  split; [intros q Hq; rewrite Hh2; by apply Hh1|]. split.
  - rewrite Hv2. unfold view, with_base. cbn [cursors base]. rewrite Hc.
    by rewrite (proj1 (Hrows c)) in Hans.
  - intros q Hq Hhq Hne. rewrite Hv2. unfold view, with_base. cbn [cursors base].
    destruct (cursors s !! Z.to_nat q) as [d|] eqn:Hd; [|done].
    rewrite (proj2 (Hoth d)); [apply Hrows|]. intros ->. by apply Hne, (wf_distinct s W q p c).
Qed.

(** A read that opens the cursor of a partition. *)
Definition opened (p : Z) (b : B) (set : list Z) (s : part_state B) : part_state B :=
  mk_part_state b p (m_ordered s) (<[Z.to_nat p := b_cursor b]> (cursors s)) set
    (pruned_by_engine s) (part_spec s).

Lemma after_open_wf s p set' b' :
  wf s -> in_range p -> length set' = length (cursor_set s) ->
  (forall q, 0 <= q -> has_bit set' q = if decide (q = p) then true else has_bit (cursor_set s) q) ->
  ok b' -> b_index_sorted b' = true ->
  ~ is_open (b_cursor b') (base s) -> is_open (b_cursor b') b' ->
  (forall c, is_open c (base s) -> is_open c b') ->
  wf (opened p b' set' s).
Proof.
  intros W Hp Hlen Hbit Hok Hsort Hfresh Hopen Hkeep.
  pose proof (wf_cursors s W) as Hc. unfold in_range in *.
  set (s1 := opened _ _ _ _).
  assert (forall q d, in_range q -> has s1 q -> cursors s1 !! Z.to_nat q = Some d ->
    (q = p /\ d = b_cursor b') \/ (q <> p /\ has s q /\ cursors s !! Z.to_nat q = Some d)) as Hcase.
  { intros q d Hq Hhq Hd. unfold has, s1 in Hhq, Hd. cbn [opened cursor_set cursors] in Hhq, Hd.
    rewrite Hbit in Hhq by apply Hq. unfold in_range in Hq.
    destruct (decide (q = p)) as [->|Hne].
    - rewrite list_lookup_insert_eq in Hd by lia. left. split; [done|]. by injection Hd.
    - rewrite list_lookup_insert_ne in Hd by lia. by right. }
  split; try done.
  - cbn [s1 opened cursors]. by rewrite length_insert.
  - cbn [s1 opened cursor_set]. rewrite Hlen. exact (wf_set s W).
  - intros q d Hq Hhq Hd. destruct (Hcase q d Hq Hhq Hd) as [[-> ->]|(Hne & Hh & Hd')]; [done|].
    apply Hkeep. by apply (wf_open s W q).
  - intros q q' d Hq Hq' Hhq Hhq' Hd Hd'.
    destruct (Hcase q d Hq Hhq Hd) as [[-> ->]|(Hne & Hh & He)];
      destruct (Hcase q' _ Hq' Hhq' Hd') as [[-> Hd2]|(Hne' & Hh' & He')]; try done.
    + exfalso. apply Hfresh. by apply (wf_open s W q').
    + exfalso. apply Hfresh. rewrite <- Hd2. by apply (wf_open s W q).
    + by apply (wf_distinct s W q q' d).
Qed.

Context {OL : OpenLaws BH shown ok rows_at is_open found}.

Lemma part_number_small p : in_range p -> fst (part_numbers sub num_subparts p) < PART_CURSOR_NUM.
Proof.
  unfold in_range, part_numbers, get_ct_part_no. intros Hp. destruct sub; cbn [fst]; [|lia].
  specialize (Hsub eq_refl). apply Z.le_lt_trans with p; [|lia]. apply Z.div_le_upper_bound; nia.
Qed.

(** Before a read that opens a cursor. *)
Lemma start_ok s p :
  wf s ->
  let b := b_set_part (part_numbers sub num_subparts p) (base (reset_other p s)) in
  sim (base s) b /\ b_part b = part_numbers sub num_subparts p /\
  forall m q rows, found m q (base s) rows -> found m q b rows.
Proof.
  intros W b. assert (sim (base s) (base (reset_other p s)) /\
    forall m q rows, found m q (base s) rows -> found m q (base (reset_other p s)) rows)
    as [(Hok & Hsort & Hrows) Hfound].
  { unfold reset_other. destruct (p =? m_last_part s).
    { split; [|done]. split; [apply (wf_ok s W)|]. split; [done|]. intros c. by split. }
    destruct (base_reset_rec_buf (base s) (wf_ok s W)) as (H1 & H2 & H3 & H4).
    exact (conj (conj H1 (conj H2 H4)) H3). }
  destruct (base_set_part (part_numbers sub num_subparts p) _ Hok) as (Hok2 & Hpart & _ & Hsort2 & Hrows2).
  split; [split; [done|split]|split; [done|]].
  - unfold b. by rewrite Hsort2.
  - intros c. unfold b. rewrite (proj1 (Hrows2 c)), (proj2 (Hrows2 c)). apply Hrows.
  - intros m q rows Hf. unfold b. by apply base_found_part, Hfound.
Qed.

(** The call, made explicit. *)
Lemma open_run s p m buf :
  wf s -> in_range p ->
  exists set', length set' = length (cursor_set s) /\
    (forall q, 0 <= q -> has_bit set' q = if decide (q = p) then true else has_bit (cursor_set s) q) /\
    open_in_part sub p m buf s =
      ('(ret, buf, b) ← b_read m buf (b_set_part (part_numbers sub num_subparts p)
                                        (base (reset_other p s)));
       let b2 := b_set_part (INVALID_PART_ID, INVALID_PART_ID) b in
       Some (ret, buf, if b_index_sorted b2 then opened p b2 set' s
                       else reset_partition p (with_base b (cursor_set s) s))).
Proof.
  intros W Hp. pose proof (wf_cursors s W) as Hc.
  destruct (cursor_set_bit_ok (cursor_set s) p (wf_index s p W Hp)) as (set' & Hset & Hlen & Hbit).
  exists set'. split; [done|]. split; [done|]. unfold open_in_part, in_part, set_partition.
  assert (reset_other p s = with_base (base (reset_other p s)) (cursor_set s) s) as He
    by (unfold reset_other, with_base; destruct s; by destruct (_ =? _)).
  rewrite He. cbn [base set_base with_base].
  destruct (b_read m buf _) as [[[r im] b']|]; [|done]. cbn [mbind option_bind]. unfold save_cursor.
  unfold reset_partition, set_last, set_base, with_base, opened.
  cbn [base cursors cursor_set m_last_part m_ordered pruned_by_engine part_spec].
  destruct (b_index_sorted (b_set_part _ b')); [|done]. rewrite Hset. cbn [mbind option_bind].
  unfold in_range in Hp. by rewrite (proj2 (Z.leb_gt _ _)) by lia.
Qed.

Lemma open_ok s p m buf rows :
  wf s -> in_range p -> found m (part_numbers sub num_subparts p) (base s) rows ->
  exists ret buf' s', open_in_part sub p m buf s = Some (ret, buf', s') /\
  (answered ret = true ->
   wf s' /\ has s' p /\ (forall q, in_range q -> has s q -> has s' q) /\
   read_answer shown rows ret buf' (view s' p) /\
   forall q, in_range q -> has s q -> q <> p -> view s' q = view s q).
Proof.
  intros W Hp Hf. destruct (open_run s p m buf W Hp) as (set' & Hlen & Hbit & ->).
  destruct (start_ok s p W) as ((Hok & Hsort & Hrows) & Hpart & Hfound). apply Hfound in Hf.
  set (b := b_set_part _ _) in *. rewrite <- Hpart in Hf.
  destruct (base_opens m buf b rows Hok) as (ret & im & b' & -> & Hafter);
    [by rewrite Hsort; apply wf_sorted|rewrite Hpart; by apply part_number_small|done|].
  cbn [mbind option_bind]. eexists ret, im, _. split; [reflexivity|]. intros Ha.
  destruct (Hafter Ha) as (Hok' & Hsort' & Hfresh & Hopen & Hans & Hkeep).
  destruct (base_set_part (INVALID_PART_ID, INVALID_PART_ID) b' Hok')
    as (Hok2 & _ & Hcur2 & Hsort2 & Hrows2).
  set (b2 := b_set_part _ b') in *.
  assert (b_index_sorted b2 = true) as Hs2 by (rewrite Hsort2, Hsort', Hsort; by apply wf_sorted).
  assert (forall c, is_open c (base s) -> is_open c b2 /\ rows_at c b2 = rows_at c (base s)) as Hkeep2.
  { intros c Ho. apply Hrows in Ho. destruct (Hkeep c Ho) as [Ho' Hr]. split; [by apply Hrows2|].
    rewrite (proj1 (Hrows2 c)), Hr. apply Hrows. }
  rewrite Hs2. unfold in_range in *. pose proof (wf_cursors s W) as Hc.
  split; [|split; [|split; [|split]]].
  - apply (after_open_wf s p set' b2 W Hp Hlen Hbit Hok2 Hs2).
    + rewrite Hcur2. intros Ho. by apply Hfresh, Hrows.
    + rewrite Hcur2. by apply Hrows2.
    + intros c Ho. by apply Hkeep2.
  - unfold has, opened. cbn [cursor_set]. rewrite Hbit by lia. by rewrite decide_True.
  - intros q Hq Hh. unfold has, opened. cbn [cursor_set]. rewrite Hbit by apply Hq. by destruct (decide _).
  - unfold view, opened. cbn [cursors base]. rewrite list_lookup_insert_eq by lia.
    by rewrite (proj1 (Hrows2 _)), Hcur2.
  - intros q Hq Hh Hne. unfold view, opened. cbn [cursors base]. rewrite list_lookup_insert_ne by lia.
    destruct (cursors s !! Z.to_nat q) as [c|] eqn:Hcq; [|done].
    apply Hkeep2. by apply (wf_open s W q).
Qed.

(** *** A sequence of reads

    Each call goes on with a partition's cursor ([goes_on]) or opens one
    ([opens]). *)

Definition read_in_part (p : Z) (m : base_read) : R -> part_state B -> option (ha_code * R * part_state B) :=
  if opens m then open_in_part sub p m else go_on_in_part sub p m.

Fixpoint reads (calls : list (Z * base_read)) (buf : R) (s : part_state B)
  : option (list (ha_code * R) * part_state B) :=
  match calls with
  | [] => Some ([], s)
  | (p, m) :: calls =>
    '(ret, buf, s) ← read_in_part p m buf s;
    '(out, s) ← reads calls buf s;
    Some ((ret, buf) :: out, s)
  end.

(** The images that the calls for a partition returned. *)
Fixpoint rows_of (p : Z) (calls : list (Z * base_read)) (out : list (ha_code * R)) : list R :=
  match calls, out with
  | (q, _) :: calls, (ret, buf) :: out =>
    if bool_decide (q = p) && bool_decide (ret = OK) then buf :: rows_of p calls out
    else rows_of p calls out
  | _, _ => []
  end.

Lemma read_answer_rows rows ret buf rows' :
  answered ret = true -> read_answer shown rows ret buf rows' ->
  exists got, rows = got ++ rows' /\ Forall2 shown got (if bool_decide (ret = OK) then [buf] else []).
Proof.
  intros Ha H. destruct ret as [[]| | | | | | |]; try done; cbn in H.
  - destruct H as (r & -> & Hr). exists [r]. split; [done|]. rewrite bool_decide_eq_true_2 by done.
    by repeat constructor.
  - destruct H as [-> ->]. exists []. by rewrite bool_decide_eq_false_2.
  - destruct H as [-> ->]. exists []. by rewrite bool_decide_eq_false_2.
Qed.

(** The calls that go on: each partition's rows come in order. *)
Lemma reads_ok calls : forall buf s out s',
  wf s -> Forall (fun c => in_range (fst c) /\ has s (fst c) /\ goes_on (snd c) = true) calls ->
  reads calls buf s = Some (out, s') -> Forall (fun a => answered (fst a) = true) out ->
  wf s' /\ (forall q, in_range q -> has s q -> has s' q) /\
  forall p, in_range p -> has s p ->
    exists got, view s p = got ++ view s' p /\ Forall2 shown got (rows_of p calls out).
Proof.
  induction calls as [|[q m] calls IH]; intros buf s out s' W Hc Hr Ha.
  { cbn in Hr. injection Hr as <- <-. split; [done|]. split; [done|]. intros p _ _. exists []. by split. }
  destruct (Forall_inv Hc) as (Hq & Hh & Hm). cbn [fst snd] in *. cbn [reads] in Hr.
  unfold read_in_part in Hr. assert (opens m = false) as Hopen by (by destruct m). rewrite Hopen in Hr.
  destruct (go_on_in_part sub q m buf s) as [[[ret im] s1]|] eqn:Hgo; [|done].
  cbn [mbind option_bind] in Hr. destruct (reads calls im s1) as [[out1 s2]|] eqn:Hrs; [|done].
  cbn [mbind option_bind] in Hr. injection Hr as <- <-.
  destruct (go_on_ok s q m buf ret im s1 W Hq Hh Hm Hgo) as (W1 & Hh1 & Hans & Hoth).
  destruct (IH im s1 out1 s2 W1) as (W2 & Hh2 & Hrows); [|done|by apply Forall_inv_tail in Ha|].
  { apply Forall_inv_tail in Hc. revert Hc. apply Forall_impl. intros c (Hcr & Hch & Hcm).
    split; [done|]. split; [by apply Hh1|done]. }
  split; [done|]. split; [intros p Hp Hhp; apply Hh2; [done|]; by apply Hh1|].
  intros p Hp Hhp. destruct (Hrows p Hp) as (got & Hv & Hf); [by apply Hh1|]. cbn [rows_of].
  destruct (decide (q = p)) as [->|Hne].
  - rewrite bool_decide_eq_true_2 by done. cbn [andb].
    destruct (read_answer_rows _ _ _ _ (Forall_inv Ha) Hans) as (g & Hg & Hfg). cbn [fst] in Hfg.
    exists (g ++ got). rewrite Hg, Hv. split; [by rewrite app_assoc|].
    destruct (bool_decide (ret = OK)); [by apply (Forall2_app (l1' := [im]))|].
    by inversion Hfg.
  - rewrite bool_decide_eq_false_2 by done. cbn [andb]. exists got. by rewrite <- (Hoth p).
Qed.

End Ordered.

(** ** Pruning *)

Lemma concat_rd (done : list Z) v rest n :
  Z.of_nat (length v) = n ->
  rd (done ++ v ++ rest) (Z.of_nat (length done)) n = Some v.
Proof.
  intros <-. rewrite rd_Some by (rewrite ?length_app; lia). f_equal.
  rewrite !Nat2Z.id, drop_app_length, take_app_length. done.
Qed.

Section Pruning.
Context {R B : Type} {PI : PartitionInfo} {BH : BaseHandler R B}.

(** A key whose first columns have the values [vals]. *)
Record key_of (k : key_range) (parts : list index_part) (vals : list (list Z)) : Prop := {
  key_image : exists rest, IndexSearch.kr_key k = concat vals ++ rest;
  key_sizes : Forall2 (fun p v => Z.of_nat (length v) = ip_length p) parts vals;
  key_map : forall i, 0 <= i < Z.of_nat (length parts) -> Z.testbit (IndexSearch.kr_keypart_map k) i = true }.

Lemma equal_parts_sound (st en : key_range) post pre : forall done svals evals i,
  Forall (fun p => ip_field_index p ∈ part_field_array) pre ->
  (exists r, IndexSearch.kr_key st = done ++ concat svals ++ r) ->
  (exists d r, length d = length done /\ IndexSearch.kr_key en = d ++ concat evals ++ r) ->
  Forall2 (fun p v => Z.of_nat (length v) = ip_length p) pre svals ->
  Forall2 (fun p v => Z.of_nat (length v) = ip_length p) pre evals ->
  (forall j, i <= j < i + Z.of_nat (length pre) -> Z.testbit (IndexSearch.kr_keypart_map st) j = true) ->
  equal_parts st en i (Z.of_nat (length done)) (pre ++ post) = Some true -> svals = evals.
Proof.
  induction pre as [|p pre IH]; intros dn svals evals i Hin [rs Hs] (d & re & Hd & He) Hls Hle Hmap H.
  { inversion Hls. inversion Hle. done. }
  inversion Hls as [|? v ? svals' Hv Hls' Hx Hy]. inversion Hle as [|? w ? evals' Hw Hle' Hz Hu].
  subst svals evals. cbn [concat] in Hs, He. rewrite <- app_assoc in Hs, He.
  cbn [app equal_parts] in H.
  destruct (_ >=? _); [done|]. rewrite bool_decide_eq_true_2 in H by (by apply Forall_inv in Hin).
  cbn [negb] in H.
  rewrite Hs, concat_rd in H by done. rewrite He, <- Hd, concat_rd in H by done.
  cbn [mbind option_bind] in H. destruct (decide (v = w)) as [->|Hne].
  2:{ by rewrite bool_decide_eq_false_2 in H by done. }
  rewrite bool_decide_eq_true_2 in H by done. cbn [negb] in H. rewrite Hmap in H by (cbn; lia).
  f_equal. apply (IH (dn ++ w) svals' evals' (i + 1)); try done.
  - by apply Forall_inv_tail in Hin.
  - exists rs. rewrite <- app_assoc. exact Hs.
  - exists (d ++ w), re. rewrite !length_app, Hd, <- app_assoc. by split.
  - intros j Hj. apply Hmap. cbn [length]. lia.
  - rewrite length_app, Nat2Z.inj_add, Hw. by rewrite Hd in H.
Qed.

(** The answer that leaves a partition out. *)
End Pruning.

Section PruningClaims.
Context {R B : Type} {PI : PartitionInfo} {BH : BaseHandler R B}.

(** What an earlier call may have left: nothing, or the partition of the range
    that is read now.  ([prune_next_range] shows what is left of another range.) *)
Definition of_this_range (E : range_env R) (st en : key_range) (s : part_state B) : Prop :=
  pruned_by_engine s = true ->
  equal_range_on_part_field (index E) st en = Some true /\
  exists buf, part_spec s = get_partition_set E buf (IndexSearch.kr_key st) (IndexSearch.kr_length st)
                              (IndexSearch.kr_keypart_map st).


(** With a column before the partitioning column in the index, the
    comparison is made at the wrong place: the range [a = A and B1 <= b <= B2]
    of a table partitioned by [b] is read only in the partition of [B1],
    whatever [B2] is. *)
Theorem prune_ignores_column (E : range_env R) (fa fb : nat) (n : Z) (A B1 B2 : list Z)
    (st en : key_range) (p q : Z) (buf : R) (s : part_state B)
    (Hidx : index E = [mk_ipart fa n; mk_ipart fb n])
    (Hfa : fa ∉ part_field_array) (Hfb : fb ∈ part_field_array)
    (Hlen : Z.of_nat (length A) = n)
    (Hst : IndexSearch.kr_key st = A ++ B1) (Hen : IndexSearch.kr_key en = A ++ B2)
    (Hpos : 0 < IndexSearch.kr_length st)
    (Hneed : need_prune_partitions_by_engine (part_of_key E) (Some st) (Some en) = true)
    (Hset : get_partition_set E buf (A ++ B1) (IndexSearch.kr_length st)
              (IndexSearch.kr_keypart_map st) = (q, q))
    (Hs : pruned_by_engine s = false) (Hp : p <> q) :
  read_range_first_in_part false E p (Some buf) buf (Some st) (Some en) s
    = Some (HA_ERR_END_OF_FILE, buf, set_pruned true (q, q) s).
Proof.
  unfold read_range_first_in_part, prune_partitions. rewrite Hs, Hneed. cbn [andb default].
  assert (equal_range_on_part_field (index E) st en = Some true) as ->.
  { unfold equal_range_on_part_field. rewrite Hidx. cbn [equal_parts ip_field_index ip_length].
    assert ((0 >=? IndexSearch.kr_length st) = false) as -> by (rewrite Z.geb_leb; apply Z.leb_gt; lia).
    rewrite bool_decide_eq_false_2, bool_decide_eq_true_2 by done. cbn [negb].
    rewrite Hst, Hen. pose proof (concat_rd [] A B1 n Hlen) as H1. pose proof (concat_rd [] A B2 n Hlen) as H2.
    cbn [app length] in H1, H2. change (Z.of_nat 0) with 0 in H1, H2. rewrite H1, H2. cbn [mbind option_bind].
    by rewrite bool_decide_eq_true_2. }
  cbn [mbind option_bind]. unfold id. rewrite Hst, Hset. cbn [fst snd]. rewrite Z.eqb_refl. cbn [negb].
  by rewrite (proj2 (Z.eqb_neq p q)).
Qed.

(** After a range that is restricted to the partition [p1], the next range of
    the same index scan is not read in any partition when its rows are in
    [p0], before [p1]: [p0] is left out because of the range before, [p1] because
    of this one. *)
Theorem prune_next_range (E : range_env R) (st en : key_range) (p0 p1 : Z) (buf : R)
    (s : part_state B)
    (Hs : pruned_by_engine s = true) (Hspec : part_spec s = (p1, p1)) (Hp : p0 <> p1)
    (Hneed : need_prune_partitions_by_engine (part_of_key E) (Some st) (Some en) = true)
    (Heq : equal_range_on_part_field (index E) st en = Some true)
    (Hset : get_partition_set E buf (IndexSearch.kr_key st) (IndexSearch.kr_length st)
              (IndexSearch.kr_keypart_map st) = (p0, p0)) :
  read_range_first_in_part false E p0 (Some buf) buf (Some st) (Some en) s
    = Some (HA_ERR_END_OF_FILE, buf, s) /\
  read_range_first_in_part false E p1 (Some buf) buf (Some st) (Some en) s
    = Some (HA_ERR_END_OF_FILE, buf, set_pruned true (p0, p0) s).
Proof.
  unfold read_range_first_in_part, prune_partitions.
  rewrite Hs, Hspec, Hneed, Heq. cbn [fst snd andb default]. unfold id.
  rewrite (proj2 (Z.eqb_neq p0 p1)) by done. rewrite Z.eqb_refl. cbn [negb mbind option_bind].
  split; [done|]. rewrite Hset. cbn [fst snd]. rewrite Z.eqb_refl. cbn [negb].
  by rewrite (proj2 (Z.eqb_neq p1 p0)).
Qed.

End PruningClaims.

Lemma decide_cons {A} (q i : Z) (l : list Z) (a b : A) :
  (if decide (q ∈ i :: l) then a else b)
    = if decide (q = i) then a else if decide (q ∈ l) then a else b.
Proof.
  destruct (decide (q ∈ i :: l)) as [Hin|Hin].
  - apply elem_of_cons in Hin as [->|Hin]; [by rewrite decide_True|].
    destruct (decide (q = i)); [done|]. by rewrite decide_True.
  - rewrite decide_False by (intros ->; apply Hin; left). rewrite decide_False; [done|].
    intros H. apply Hin. by right.
Qed.

Section Claims.
Context {R B : Type} {PI : PartitionInfo} {used : list Z} {PIL : PartitionInfoLaws PI used}.
Context {BH : BaseHandler R B}.
Context (sub : bool) (Hsub : sub = bool_decide (0 < num_subparts)).

Definition valid_numbers (n : Z * Z) : Prop :=
  0 <= fst n < num_parts /\ (if sub then 0 <= snd n < num_subparts else snd n = INVALID_PART_ID).

Lemma part_numbers_sub p :
  0 < num_subparts -> 0 <= p < get_tot_partitions ->
  let n := part_numbers true num_subparts p in
  0 <= fst n < num_parts /\ 0 <= snd n < num_subparts /\ p = fst n * num_subparts + snd n.
Proof.
  intros Hn. rewrite (parts_total (used := used)), Z.max_r by lia. intros Hp.
  cbn [part_numbers fst snd]. unfold get_ct_part_no, get_ct_sub_no.
  pose proof (Z.mod_pos_bound p num_subparts Hn). pose proof (Z_div_mod_eq_full p num_subparts).
  split; [|split; [done|lia]]. split; [apply Z.div_pos; lia|apply Z.div_lt_upper_bound; nia].
Qed.

Lemma parts_without : num_subparts <= 0 -> get_tot_partitions = num_parts.
Proof. intros H. rewrite (parts_total (used := used)). rewrite Z.max_l; lia. Qed.

Lemma collect_used l2 : forall l1, used = l1 ++ l2 ->
  collect_parts (length l2) (default MY_BIT_NONE (head l2))
    = map (fun p => if sub then part_numbers true num_subparts p else (p, 0)) l2.
Proof.
  induction l2 as [|p l2 IH]; intros l1 Hu; [done|].
  cbn [length collect_parts map]. change (default MY_BIT_NONE (head (p :: l2))) with p. f_equal.
  - rewrite Hsub. destruct (decide (0 < num_subparts)).
    + rewrite bool_decide_eq_true_2 by done.
      assert ((num_subparts >? 0) = true) as -> by (rewrite Z.gtb_ltb; by apply Z.ltb_lt). done.
    + rewrite bool_decide_eq_false_2 by done.
      assert ((num_subparts >? 0) = false) as -> by (rewrite Z.gtb_ltb; apply Z.ltb_ge; lia). done.
  - rewrite (next_used l1 p l2 Hu). apply (IH (l1 ++ [p])). by rewrite <- app_assoc.
Qed.

(** [get_used_partitions] gives the used partitions, in order, with the
    numbers that reads use (0 for the missing subpartition). *)
Lemma get_used_partitions_ok :
  used <> [] ->
  get_used_partitions true true
    = Some (true, map (fun p => if sub then part_numbers true num_subparts p else (p, 0)) used).
Proof.
  intros Hne. unfold get_used_partitions. rewrite (used_count (used := used)).
  rewrite (first_used (used := used)).
  pose proof (collect_used used [] eq_refl) as Hc. destruct used as [|p l] eqn:Hu; [done|].
  assert ((Z.of_nat (length (p :: l)) >? 0) = true) as ->
    by (rewrite Z.gtb_ltb; apply Z.ltb_lt; cbn [length]; lia).
  cbn [negb]. pose proof (used_range (used := p :: l)) as Hr. apply Forall_inv in Hr.
  pose proof (parts_few (used := p :: l)) as Hf. unfold PART_CURSOR_NUM in Hf.
  change (default MY_BIT_NONE (head (p :: l))) with p in *.
  rewrite (proj2 (Z.eqb_neq p MY_BIT_NONE)) by (unfold MY_BIT_NONE; lia). by rewrite Nat2Z.id, Hc.
Qed.

(** [index_end] of an ordered scan. *)
Lemma each_clears l : forall (s : part_state B),
  (forall b : B, is_Some (b_index_end b)) ->
  Forall (bit_index (cursor_set s)) l -> 8 * Z.of_nat (length (cursor_set s)) = Z.of_nat (length (cursors s)) ->
  exists s', each l (fun i s =>
             is_set ← cursor_is_set (cursor_set s) i;
             if is_set : bool then
               c ← cursors s !! Z.to_nat i;
               '(_, b) ← b_index_end (b_set_cursor c (base s));
               set ← cursor_clear_bit (cursor_set s) i;
               Some (set_base b (set_cursors (cursors s) set s))
             else Some s) s = Some s' /\ m_ordered s' = m_ordered s /\
    forall q, 0 <= q -> has_bit (cursor_set s') q
      = if decide (q ∈ l) then false else has_bit (cursor_set s) q.
Proof.
  induction l as [|i l IH]; intros s Hend Hl Hlen.
  { exists s. repeat split; try done. }
  cbn [each]. pose proof (Forall_inv Hl) as Hi. rewrite (cursor_is_set_ok _ _ Hi).
  cbn [mbind option_bind]. destruct (has_bit (cursor_set s) i) eqn:Hb.
  - unfold bit_index in Hi. destruct (lookup_lt_is_Some_2 (cursors s) (Z.to_nat i)) as [c ->]; [lia|].
    cbn [mbind option_bind]. destruct (Hend (b_set_cursor c (base s))) as [[r b] ->].
    cbn [mbind option_bind].
    destruct (cursor_clear_bit_ok (cursor_set s) i (Forall_inv Hl)) as (set' & -> & Hs & Hbit).
    cbn [mbind option_bind].
    destruct (IH (set_base b (set_cursors (cursors s) set' s)) Hend) as (s' & -> & Ho & Hq).
    + apply Forall_inv_tail in Hl. revert Hl. apply Forall_impl. unfold bit_index.
      cbn [set_base set_cursors cursor_set]. intros j Hj. by rewrite Hs.
    + cbn [set_base set_cursors cursor_set cursors]. by rewrite Hs.
    + exists s'. split; [done|]. split; [done|]. intros q Hq0. rewrite Hq by done.
      cbn [set_base set_cursors cursor_set]. rewrite Hbit, decide_cons by done.
      by repeat case_decide.
  - cbn [mbind option_bind]. destruct (IH s Hend (Forall_inv_tail Hl) Hlen) as (s' & -> & Ho & Hq).
    exists s'. split; [done|]. split; [done|]. intros q Hq0. rewrite Hq, decide_cons by done.
    destruct (decide (q = i)) as [->|]; by repeat case_decide.
Qed.

Lemma index_end_clears (s : part_state B) :
  (forall b : B, is_Some (b_index_end b)) -> m_ordered s = true ->
  Z.of_nat (length (cursors s)) = PART_CURSOR_NUM ->
  8 * Z.of_nat (length (cursor_set s)) = PART_CURSOR_NUM ->
  exists s', index_end s = Some (OK, s') /\
    Forall (fun p => has_bit (cursor_set s') p = false) used.
Proof.
  intros Hend Ho Hc Hs. unfold index_end. unfold set_pruned at 1. cbn [m_ordered]. rewrite Ho.
  rewrite (for_used_each (used := used)).
  2:{ pose proof (parts_few (used := used)). unfold MY_BIT_NONE, PART_CURSOR_NUM in *. lia. }
  destruct (each_clears used (set_pruned false (part_spec s) s) Hend) as (s' & -> & _ & Hq).
  - pose proof (used_range (used := used)) as Hr. revert Hr. apply Forall_impl.
    pose proof (parts_few (used := used)). unfold bit_index. cbn [set_pruned cursor_set]. intros p Hp. lia.
  - cbn [set_pruned cursor_set cursors]. lia.
  - cbn [mbind option_bind]. eexists. split; [done|].
    pose proof (used_range (used := used)) as Hr. apply Forall_forall. intros p Hp.
    assert (0 <= p < get_tot_partitions) by exact (proj1 (Forall_forall _ _) Hr p Hp). cbn [set_base cursor_set]. rewrite Hq by lia.
    by rewrite decide_True by (by apply list_elem_of_In).
Qed.

End Claims.

(** ** Sums over the partitions *)

Section Sums.
Context {R B : Type} {PI : PartitionInfo} {used : list Z} {PIL : PartitionInfoLaws PI used}.
Context {BH : BaseHandler R B} (sub : bool) (ok : B -> Prop) (rows_in : Z * Z -> Z).

Definition sum_of (f : Z -> Z) (l : list Z) : Z := foldr (fun p t => f p + t) 0 l.

Lemma each_records l :
  (forall p b, ok b -> ok (b_set_part p b) /\ b_part (b_set_part p b) = p) ->
  (forall b, ok b -> exists b', b_records b = Some (OK, rows_in (b_part b), b') /\ ok b') ->
  forall n (s : part_state B), ok (base s) ->
  exists s', each l (fun i '(ret, n, s) =>
       if decide (ret <> OK) then Some (ret, n, s) else
       let s := set_partition sub i s in
       '(ret, rows, b) ← b_records (base s);
       let s := reset_partition i (set_base b s) in
       Some (if decide (ret <> OK) then (ret, HA_POS_ERROR, s) else (OK, wrapU 64 (n + rows), s)))
    (OK, wrapU 64 n, s)
    = Some (OK, wrapU 64 (n + sum_of (fun p => rows_in (part_numbers sub num_subparts p)) l), s').
Proof.
  intros Hset Hrec. induction l as [|i l IH]; intros n s Hs.
  { exists s. cbn. by rewrite Z.add_0_r. }
  cbn [each]. rewrite decide_False by (intros H; by apply H).
  destruct (Hset (part_numbers sub num_subparts i) (base s) Hs) as [Hok Hpart].
  destruct (Hrec _ Hok) as (b & Hb & Hokb). unfold set_partition. cbn [set_base base].
  rewrite Hb. cbn [mbind option_bind]. rewrite decide_False by (intros H; by apply H).
  rewrite Hpart. set (s1 := reset_partition i _).
  assert (wrapU 64 (wrapU 64 n + rows_in (part_numbers sub num_subparts i))
    = wrapU 64 (n + rows_in (part_numbers sub num_subparts i))) as ->
    by (unfold wrapU; by rewrite Zplus_mod_idemp_l).
  destruct (IH (n + rows_in (part_numbers sub num_subparts i)) s1) as [s' Hs'].
  { unfold s1, reset_partition, set_last, set_base. cbn [base]. by apply Hset. }
  exists s'. cbn [sum_of foldr]. rewrite Z.add_assoc. exact Hs'.
Qed.

End Sums.

(** ** Fetching the statistics *)

(** Consecutive ranges of partitions, from the first to the second bound. *)
Inductive covers : Z -> Z -> list (Z * Z) -> Prop :=
  | covers_nil a : covers a a []
  | covers_cons a b n l : 0 < n -> covers (a + n) b l -> covers a b ((a, n) :: l).

Lemma covers_app a b c l1 l2 : covers a b l1 -> covers b c l2 -> covers a c (l1 ++ l2).
Proof. induction 1; intros H2; cbn; [done|]. constructor; [done|]. by apply IHcovers. Qed.

Lemma fetch_full_ok get num n : 0 < num ->
  (forall a b, get a b = CT_SUCCESS) -> forall first,
  exists calls, fetch_full n get first num = (CT_SUCCESS, first + Z.of_nat n * num, calls) /\
    covers first (first + Z.of_nat n * num) calls /\ Forall (fun c => snd c = num) calls.
Proof.
  intros Hnum Hget. induction n as [|n IH]; intros first; cbn [fetch_full].
  { exists []. replace (first + Z.of_nat 0 * num) with first by lia. repeat constructor. }
  rewrite Hget. rewrite decide_False by (intros H; by apply H).
  destruct (IH (first + num)) as (calls & -> & Hc & Hf). exists ((first, num) :: calls).
  replace (first + Z.of_nat (S n) * num) with (first + num + Z.of_nat n * num) by lia.
  split; [done|]. split; by constructor.
Qed.

(** A table whose statistics of one partition are larger than a message. *)
Lemma fetch_cbo_stats_too_large get part_cnt data_size :
  MAX_MESSAGE_SIZE < data_size -> fetch_cbo_stats get part_cnt data_size = None.
Proof.
  intros H. unfold fetch_cbo_stats. unfold MAX_MESSAGE_SIZE in *.
  rewrite (proj2 (Z.eqb_neq _ _)) by lia. by rewrite Z.div_small by lia.
Qed.

(** ** Theorems *)

Section Theorems.
Context {R B : Type} {PI : PartitionInfo} {used : list Z} {PIL : PartitionInfoLaws PI used}.
Context {BH : BaseHandler R B}.
Context (sub : bool) (Hsub : sub = bool_decide (0 < num_subparts)).

(** The numbers under which a partition is read are those of a partition of
    the table, and tell it from the other partitions. *)
Theorem part_numbers_valid (p q : Z)
    (Hp : 0 <= p < get_tot_partitions) (Hq : 0 <= q < get_tot_partitions) :
  valid_numbers sub (part_numbers sub num_subparts p) /\
  (part_numbers sub num_subparts p = part_numbers sub num_subparts q -> p = q).
Proof.
  unfold valid_numbers. rewrite Hsub. destruct (decide (0 < num_subparts)) as [Hn|Hn].
  - rewrite bool_decide_eq_true_2 by done.
    pose proof (part_numbers_sub (used := used) p Hn Hp) as (H1 & H2 & H3).
    pose proof (part_numbers_sub (used := used) q Hn Hq) as (_ & _ & H4). split; [done|]. congruence.
  - rewrite bool_decide_eq_false_2 by done. cbn [part_numbers fst snd].
    rewrite (parts_without (used := used)) in Hp by lia. split; [done|]. by intros [= ->].
Qed.

(** The calls that read statistics cover every partition of the table
    exactly once, in order, and none asks for more than a message holds. *)
Theorem fetch_cbo_stats_covers (get : Z -> Z -> ct_errno_t) (part_cnt data_size : Z)
    (Hcnt : 0 <= part_cnt) (Hsize : 0 < data_size <= MAX_MESSAGE_SIZE)
    (Hget : forall a b, get a b = CT_SUCCESS) :
  exists calls, fetch_cbo_stats get part_cnt data_size = Some (CT_SUCCESS, calls) /\
    covers 0 part_cnt calls /\ Forall (fun c => snd c * data_size <= MAX_MESSAGE_SIZE) calls.
Proof.
  unfold fetch_cbo_stats. rewrite (proj2 (Z.eqb_neq _ _)) by lia.
  set (num := MAX_MESSAGE_SIZE / data_size).
  assert (0 < num) as Hnum by (apply Z.div_str_pos; lia).
  assert (num * data_size <= MAX_MESSAGE_SIZE) as Hmul
    by (unfold num; pose proof (Z.mul_div_le MAX_MESSAGE_SIZE data_size); lia).
  rewrite (proj2 (Z.eqb_neq num 0)) by lia.
  pose proof (Z_div_mod_eq_full part_cnt num) as Hdm. pose proof (Z.mod_pos_bound part_cnt num Hnum) as Hmod.
  destruct (fetch_full_ok get num (Z.to_nat (part_cnt / num)) Hnum Hget 0) as (calls & -> & Hc & Hf).
  rewrite Z2Nat.id, Z.add_0_l in Hc by (apply Z.div_pos; lia).
  rewrite Z2Nat.id, Z.add_0_l by (apply Z.div_pos; lia).
  rewrite decide_False by (intros H; by apply H).
  assert (Forall (fun c => snd c * data_size <= MAX_MESSAGE_SIZE) calls) as Hs.
  { revert Hf. apply Forall_impl. intros c ->. done. }
  destruct (_ >? 0) eqn:Hr; zb.
  - exists (calls ++ [(part_cnt / num * num, part_cnt - part_cnt / num * num)]).
    rewrite Hget. split; [done|]. split.
    + apply (covers_app _ (part_cnt / num * num)); [done|]. constructor; [lia|].
      replace (part_cnt / num * num + _) with part_cnt by lia. constructor.
    + apply Forall_app. split; [done|]. constructor; [|constructor]. cbn [snd]. nia.
  - exists calls. split; [done|]. split; [|done].
    replace part_cnt with (part_cnt / num * num) at 1 by lia. done.
Qed.

(** [records] is the sum of the rows of the partitions that the statement
    uses. *)
Theorem records_sum (ok : B -> Prop) (rows_in : Z * Z -> Z) (s : part_state B)
    (Hset : forall p b, ok b -> ok (b_set_part p b) /\ b_part (b_set_part p b) = p)
    (Hrec : forall b, ok b -> exists b', b_records b = Some (OK, rows_in (b_part b), b') /\ ok b')
    (Hs : ok (base s)) :
  exists s', records sub s
    = Some (OK, wrapU 64 (sum_of (fun p => rows_in (part_numbers sub num_subparts p)) used), s').
Proof.
  unfold records. rewrite (for_used_each (used := used)).
  2:{ pose proof (parts_few (used := used)). unfold MY_BIT_NONE, PART_CURSOR_NUM in *. lia. }
  destruct (each_records sub ok rows_in used Hset Hrec 0 s Hs) as [s' H].
  exists s'.
  set (e := each used _ _). assert (e = Some (OK, wrapU 64 (0 + sum_of
    (fun p => rows_in (part_numbers sub num_subparts p)) used), s')) as -> by exact H. done.
Qed.

(** C21: in an ordered scan, in whatever order the server goes on with the
    partitions, the rows that it gets of each partition are the next ones of
    that partition, in order: no read moves the cursor of another one. *)
Theorem ordered_reads (shown : row -> R -> Prop) (ok : B -> Prop)
    (rows_at : Z -> B -> list row) (is_open : Z -> B -> Prop)
    (BL : BaseLaws BH shown ok rows_at is_open)
    (calls : list (Z * base_read)) (buf : R) (s s' : part_state B) (out : list (ha_code * R))
    (W : wf (ok := ok) (is_open := is_open) s)
    (Hcalls : Forall (fun c => in_range (fst c) /\ has s (fst c) /\ goes_on (snd c) = true) calls)
    (Hrun : reads sub calls buf s = Some (out, s'))
    (Hout : Forall (fun a => answered (fst a) = true) out) :
  forall p, in_range p -> has s p ->
    exists got, view (rows_at := rows_at) s p = got ++ view (rows_at := rows_at) s' p /\
      Forall2 shown got (rows_of p calls out).
Proof. by eapply reads_ok. Qed.

End Theorems.

(** ** Positions *)

Lemma rowid_cmp_spec (a b : rowid) :
  let c := ctc_cmp_cantian_rowid a b in
  (ri_file a < ri_file b /\ c = -1) \/ (ri_file b < ri_file a /\ c = 1) \/
  (ri_file a = ri_file b /\
   ((ri_page a < ri_page b /\ c = -1) \/ (ri_page b < ri_page a /\ c = 1) \/
    (ri_page a = ri_page b /\
     ((ri_slot a < ri_slot b /\ c = -1) \/ (ri_slot b < ri_slot a /\ c = 1) \/
      (ri_slot a = ri_slot b /\ c = 0))))).
Proof.
  unfold ctc_cmp_cantian_rowid, cmp3. rewrite !Z.gtb_ltb.
  destruct (ri_file b <? ri_file a) eqn:E1; zb; [cbn; lia|].
  destruct (ri_file a <? ri_file b) eqn:E2; zb; [cbn; lia|]. cbn [Z.eqb negb].
  destruct (ri_page b <? ri_page a) eqn:E3; zb; [cbn; lia|].
  destruct (ri_page a <? ri_page b) eqn:E4; zb; [cbn; lia|]. cbn [Z.eqb negb].
  destruct (ri_slot b <? ri_slot a) eqn:E5; zb; [lia|].
  destruct (ri_slot a <? ri_slot b) eqn:E6; zb; lia.
Qed.

(** Row ids are ordered: first by file, then by page and slot. *)
Lemma rowid_order (r1 r2 r3 : rowid) :
  (ctc_cmp_cantian_rowid r1 r2 = 0 <-> r1 = r2) /\
  ctc_cmp_cantian_rowid r2 r1 = - ctc_cmp_cantian_rowid r1 r2 /\
  (0 < ctc_cmp_cantian_rowid r1 r2 -> 0 < ctc_cmp_cantian_rowid r2 r3 -> 0 < ctc_cmp_cantian_rowid r1 r3).
Proof.
  pose proof (rowid_cmp_spec r1 r2) as H12. cbn zeta in H12. split; [|split].
  - split; [|intros ->; lia]. intros H. rewrite H in H12. destruct r1, r2. cbn [ri_file ri_page ri_slot] in H12.
    f_equal; lia.
  - pose proof (rowid_cmp_spec r2 r1) as H21. cbn zeta in H21. lia.
  - pose proof (rowid_cmp_spec r2 r3) as H23. pose proof (rowid_cmp_spec r1 r3) as H13. cbn zeta in *. lia.
Qed.

(** A position leads back to the partition and the row that it was taken of. *)
Lemma rnd_pos_position {R B} {PI : PartitionInfo} {BH : BaseHandler R B} (sub : bool) (buf : R)
    (s s1 s2 : part_state B) (ref : list Z) :
  0 <= m_last_part s < PART_CURSOR_NUM ->
  position_in_last_part sub s = Some (ref, s1) ->
  rnd_pos sub buf (le_bytes 2 (m_last_part s) ++ ref) s2 = in_part sub (m_last_part s) (RND_POS ref) buf s2.
Proof.
  unfold PART_CURSOR_NUM. intros Hp _. unfold rnd_pos.
  change PARTITION_BYTES_IN_POS with (Z.of_nat (length (le_bytes 2 (m_last_part s)))).
  pose proof (concat_rd [] (le_bytes 2 (m_last_part s)) ref 2 eq_refl) as H. cbn [app] in H.
  change (Z.of_nat (length [])) with 0 in H. change (Z.of_nat (length (le_bytes 2 _))) with 2.
  rewrite H. cbn [mbind option_bind]. rewrite le_val_le_bytes.
  change (256 ^ Z.of_nat 2) with 65536. by rewrite Z.mod_small by lia.
Qed.

(** ** [ha_ctc] as the base class *)

(** The engine as a handler with partitions sees it: the requests carry the
    partition and the cursor of [m_tch], and rows are read by row id. *)
Class PartEngine (E : Type) := {
  eng_part : E -> Z * Z;
  eng_set_part : Z * Z -> E -> E;
  eng_cursor : E -> Z;
  eng_set_cursor : Z -> E -> E;
  eng_rnd_init : expected_cursor_action_t -> E -> ct_errno_t * E;
  eng_rnd_pos : list Z -> E -> ct_errno_t * option row * E }.

Class PartEngineLaws {E} (PE : PartEngine E) (Eng : ScanEngine E) (scan : E -> list row)
    (rows_at : Z -> E -> list row) (is_open : Z -> E -> Prop) : Prop := {
  eng_scan e : scan e = rows_at (eng_cursor e) e;
  eng_set_part_ok p e : eng_part (eng_set_part p e) = p /\ eng_cursor (eng_set_part p e) = eng_cursor e /\
    forall c, rows_at c (eng_set_part p e) = rows_at c e /\ (is_open c (eng_set_part p e) <-> is_open c e);
  eng_set_cursor_ok c e : eng_cursor (eng_set_cursor c e) = c /\
    forall c', rows_at c' (eng_set_cursor c e) = rows_at c' e /\
               (is_open c' (eng_set_cursor c e) <-> is_open c' e);
  eng_next_cursor e : let e' := snd (eng_next e) in
    eng_cursor e' = eng_cursor e /\
    forall c, (is_open c e' <-> is_open c e) /\ (c <> eng_cursor e -> rows_at c e' = rows_at c e) }.

(** What the searches of the engine promise besides [IndexLaws]: they are made
    in the partition of the request, and one with [need_init] gets a cursor of
    its own, the other ones staying as they are. *)
Class PartIndexLaws {E} (PE : PartEngine E) (IE : IndexSearch.IndexEngine E)
    (rows_at : Z -> E -> list row) (is_open : Z -> E -> Prop)
    (found : Stub.index_key_info_t -> E -> list row)
    (part_found : Z * Z -> Stub.index_key_info_t -> E -> list row) : Prop := {
  eng_found_part ki e : found ki e = part_found (eng_part e) ki e;
  eng_part_found p p' ki e : part_found p ki (eng_set_part p' e) = part_found p ki e;
  eng_opens t ki mode b e :
    let a := IndexSearch.eng_index_read t ki mode b e in
    let c := Session.cursor_addr (IndexSearch.ia_tch a) in
    Stub.need_init ki = true -> IndexSearch.ia_ret a = CT_SUCCESS ->
    eng_cursor (IndexSearch.ia_engine a) = c /\ ~ is_open c e /\ is_open c (IndexSearch.ia_engine a) /\
    forall d, is_open d e ->
      is_open d (IndexSearch.ia_engine a) /\ rows_at d (IndexSearch.ia_engine a) = rows_at d e }.

Section Search.
Context {M : Server.MySQL} {R E : Type} {RB : RecordBuffer R} {Eng : ScanEngine E}
  {IE : IndexSearch.IndexEngine E} {PE : PartEngine E}.
Context (V : IndexSearch.search_env R).

(** The server's [calculate_key_len] of the active index, and
    [handler::index_read_idx_map]. *)
Context (calculate_key_len : option nat -> Z -> Z)
  (read_idx_map : nat -> list Z -> Z -> Z -> R -> IndexSearch.search_state R E ->
     option (ha_code * R * IndexSearch.search_state R E)).

Abbreviation search_state := (IndexSearch.search_state R E).

Definition on_engine (f : E -> E) (s : search_state) : search_state :=
  IndexSearch.set_scan (set_engine (f (engine (IndexSearch.scan s))) (IndexSearch.scan s)) s.

(** [ha_ctc::rnd_pos] *)
Definition base_rnd_pos (buf : R) (pos : list Z) (s : search_state) : option (ha_code * R * search_state) :=
  if negb (IndexSearch.buf_ok V) then Some (convert ERR_ALLOC_MEMORY, buf, s) else
  let '(ret, r, e) := eng_rnd_pos pos (engine (IndexSearch.scan s)) in
  '(code, buf) ← process_cantian_record (IndexSearch.scan_env_of V s) buf ret r HA_ERR_KEY_NOT_FOUND;
  Some (code, buf, on_engine (fun _ => e) s).

Definition base_read_call (m : base_read) (buf : R) (s : search_state)
  : option (ha_code * R * search_state) :=
  match m with
  | RND_NEXT =>
    '(code, buf, c) ← rnd_next (IndexSearch.scan_env_of V s) (IndexSearch.buf_ok V) buf (IndexSearch.scan s);
    Some (code, buf, IndexSearch.set_scan c s)
  | RND_POS pos => base_rnd_pos buf pos s
  | INDEX_FIRST => IndexSearch.index_first V buf s
  | INDEX_LAST => IndexSearch.index_last V buf s
  | INDEX_NEXT | INDEX_PREV | INDEX_NEXT_SAME _ _ => IndexSearch.index_next V buf s
  | INDEX_READ key key_len find_flag => IndexSearch.index_read V buf key key_len find_flag s
  | INDEX_READ_MAP key map find_flag =>
    IndexSearch.index_read V buf key (calculate_key_len (IndexSearch.active_index s) map) find_flag s
  | INDEX_READ_LAST_MAP key map =>
    IndexSearch.index_read_last V buf key (calculate_key_len (IndexSearch.active_index s) map) s
  | INDEX_READ_IDX_MAP index key map find_flag => read_idx_map index key map find_flag buf s
  end.

#[local] Instance search_base : BaseHandler R search_state := {|
  b_part s := eng_part (engine (IndexSearch.scan s));
  b_set_part p := on_engine (eng_set_part p);
  b_cursor s := Session.cursor_addr (IndexSearch.m_tch s);
  b_set_cursor c s := on_engine (eng_set_cursor c)
    (IndexSearch.set_conn (IndexSearch.world s)
       (IndexSearch.set_cursor c (Session.cursor_ref (IndexSearch.m_tch s)) (IndexSearch.m_tch s))
       (IndexSearch.cursor_valid s) s);
  b_set_cursor_ref r valid s :=
    IndexSearch.set_conn (IndexSearch.world s)
      (IndexSearch.set_cursor (Session.cursor_addr (IndexSearch.m_tch s)) r (IndexSearch.m_tch s)) valid s;
  b_index_sorted := IndexSearch.m_index_sorted;
  b_has_rec_buf s := bool_decide (is_Some (m_rec_buf (IndexSearch.scan s)));
  b_drop_rec_buf s := IndexSearch.set_scan (set_rec_buf None (IndexSearch.scan s)) s;
  b_reset_rec_buf s := IndexSearch.set_scan (reset_rec_buf false (IndexSearch.scan s)) s;
  b_rnd_init _ s :=
    let '(code, c) := rnd_init eng_rnd_init (Session.srv (IndexSearch.sess V))
      (Session.thd (IndexSearch.sess V)) (IndexSearch.passes_rnd_end V) (IndexSearch.blob_fields V)
      (IndexSearch.rec_length V) (IndexSearch.data_ok V) (IndexSearch.exclusive V) (IndexSearch.scan s) in
    Some (code, IndexSearch.set_scan c s);
  b_rnd_end := IndexSearch.rnd_end V;
  b_index_init := IndexSearch.index_init V;
  b_index_end := IndexSearch.index_end V;
  b_records s := '(n, s) ← IndexSearch.records V s; Some (OK, n, s);
  b_position s := id ← position (IndexSearch.scan s); Some (le_bytes (Z.to_nat ROW_ID_LENGTH) id);
  b_read := base_read_call |}.

(** Without a record buffer, as [index_init] leaves an ordered scan of several
    partitions, [ha_ctc] is what [ha_ctcpart] relies on. *)
Context {scan : E -> list row} {rows_at : Z -> E -> list row} {is_open : Z -> E -> Prop}.
Context {EL : ScanLaws Eng scan} {PEL : PartEngineLaws PE Eng scan rows_at is_open}.

Definition search_ready (s : search_state) : Prop :=
  m_rec_buf (IndexSearch.scan s) = None /\
  eng_cursor (engine (IndexSearch.scan s)) = Session.cursor_addr (IndexSearch.m_tch s).

Definition search_shown (r : row) (image : R) : Prop :=
  exists (s : search_state) old, cnvrt_to_mysql_record (IndexSearch.scan_env_of V s) INVALID_MAX_UINT32 (fst r) old = Some image.

Lemma search_next (s s' : search_state) buf ret image :
  search_ready s -> IndexSearch.index_next V buf s = Some (ret, image, s') ->
  search_ready s' /\ IndexSearch.m_index_sorted s' = IndexSearch.m_index_sorted s /\
  let e := engine (IndexSearch.scan s) in let e' := engine (IndexSearch.scan s') in
  read_answer search_shown (rows_at (eng_cursor e) e) ret image (rows_at (eng_cursor e) e') /\
  forall c, (is_open c e' <-> is_open c e) /\ (c <> eng_cursor e -> rows_at c e' = rows_at c e).
Proof.
  intros [Hbuf Hcur]. unfold IndexSearch.index_next, index_fetch, fetch_row. rewrite Hbuf.
  destruct (negb _).
  { cbn [mbind option_bind]. intros [= <- <- <-]. repeat split; done. }
  pose proof (eng_next_cursor (PartEngineLaws := PEL) (engine (IndexSearch.scan s))) as [Hc Hoth].
  pose proof (eng_next_errors (engine (IndexSearch.scan s))) as Hfk.
  pose proof (fun r e' => eng_next_ok (engine (IndexSearch.scan s)) r e') as Hok.
  destruct (eng_next (engine (IndexSearch.scan s))) as [[rc r] e']. cbn [fst snd] in *.
  unfold process_cantian_record. rewrite checked_id by done.
  assert (search_ready (IndexSearch.set_scan (set_engine e' (IndexSearch.scan s)) s)) as Hr.
  { split; [done|]. cbn. by rewrite Hc. }
  destruct (decide (rc <> CT_SUCCESS)) as [Hne|He].
  - cbn [mbind option_bind]. intros [= <- <- <-]. split; [done|]. split; [done|].
    cbn [IndexSearch.scan IndexSearch.set_scan engine set_engine]. split; [|done].
    pose proof (convert_ok rc) as Hconv. unfold convert, OK in Hconv |- *. unfold read_answer.
    destruct (fst (convert_ctc_error_code_to_mysql rc)); try done. by destruct Hne; apply Hconv.
  - assert (rc = CT_SUCCESS) as -> by (destruct (decide (rc = CT_SUCCESS)); [done|by destruct He]).
    specialize (Hok r e' eq_refl). rewrite !(eng_scan (PartEngineLaws := PEL)), Hc in Hok. destruct r as [[record id]|].
    + destruct (cnvrt_to_mysql_record _ _ _ _) as [im|] eqn:Him; [|done]. cbn [mbind option_bind].
      intros [= <- <- <-]. split; [done|]. split; [done|]. cbn zeta. split; [|done].
      destruct Hok as [Hrows _]. exists (record, id). split; [exact Hrows|]. by exists s, buf.
    + cbn [mbind option_bind]. intros [= <- <- <-]. split; [done|]. split; [done|]. by split.
Qed.

#[local] Instance search_base_laws :
  BaseLaws search_base search_shown search_ready
    (fun c s => rows_at c (engine (IndexSearch.scan s))) (fun c s => is_open c (engine (IndexSearch.scan s))).
Proof.
  split.
  - intros p b [Hbuf Hcur]. destruct (eng_set_part_ok (PartEngineLaws := PEL) p (engine (IndexSearch.scan b))) as (Hp & Hc & Hr).
    split; [split; [done|cbn; by rewrite Hc]|].
    exact (conj Hp (conj eq_refl (conj eq_refl Hr))).
  - intros c b [Hbuf Hcur] _. destruct (eng_set_cursor_ok (PartEngineLaws := PEL) c (engine (IndexSearch.scan b))) as (Hc & Hr).
    split; [split; [done|by cbn]|]. exact (conj eq_refl (conj eq_refl Hr)).
  - intros m buf b ret buf' b' Hok Hm _ Hrun.
    assert (IndexSearch.index_next V buf b = Some (ret, buf', b')) as Hn by (by destruct m).
    destruct (search_next b b' buf ret buf' Hok Hn) as (Hok' & Hs & Hans & Hoth).
    pose proof (proj2 Hok) as Hcur. cbn [b_cursor b_index_sorted search_base].
    rewrite Hcur in Hans, Hoth. exact (conj Hok' (conj Hs (conj Hans Hoth))).
Qed.

(** *** Searches that open a cursor *)

(** The engine searches indexes in partitions. *)
Context {RBL : RecordBufferLaws RB} {eng_found : Stub.index_key_info_t -> E -> list row}
  {IL : IndexSearch.IndexLaws scan eng_found}
  {part_found : Z * Z -> Stub.index_key_info_t -> E -> list row}
  {PIL : PartIndexLaws PE IE rows_at is_open eng_found part_found}.

(** The call of [index_read] that a read makes, and the state that it makes it
    in. *)
Definition search_of (m : base_read) (s : search_state) : option (list Z * Z * Z) :=
  match m with
  | INDEX_FIRST => Some ([], 0, IndexSearch.HA_READ_AFTER_KEY)
  | INDEX_LAST => Some ([], 0, IndexSearch.HA_READ_BEFORE_KEY)
  | INDEX_READ key key_len find_flag => Some (key, key_len, find_flag)
  | INDEX_READ_MAP key map find_flag =>
    Some (key, calculate_key_len (IndexSearch.active_index s) map, find_flag)
  | INDEX_READ_LAST_MAP key map =>
    Some (key, calculate_key_len (IndexSearch.active_index s) map, IndexSearch.HA_READ_PREFIX_LAST)
  | _ => None
  end.

Definition search_start (m : base_read) (s : search_state) : search_state :=
  match m with
  | INDEX_FIRST =>
    IndexSearch.set_conn (IndexSearch.world s)
      (IndexSearch.set_cursor Session.INVALID_VALUE64 (Session.cursor_ref (IndexSearch.m_tch s))
         (IndexSearch.m_tch s)) false s
  | _ => s
  end.

(** The rows that a read finds: those that the engine has in the partition for
    the proper search [ki] that the key stands for.  The search asks for a
    cursor: [index_first] always does, another read if [cursor_valid] is not
    set. *)
Definition search_found (m : base_read) (p : Z * Z) (s : search_state) (rows : list row) : Prop :=
  exists bytes rest find_flag ki,
    search_of m s = Some (bytes ++ rest, Z.of_nat (length bytes), find_flag) /\
    IndexSearch.search_call V (search_start m s) bytes find_flag ki /\ Stub.need_init ki = true /\
    rows = part_found p ki (engine (IndexSearch.scan s)) /\
    Forall (Prefetch.convertible (IndexSearch.row_env V (search_start m s))) rows.

(** A read is this call; the end of an empty index is the end of the file. *)
Lemma base_read_search m buf s key key_len flag :
  search_of m s = Some (key, key_len, flag) ->
  base_read_call m buf s =
    ('(code, image, s') ← IndexSearch.index_read V buf key key_len flag (search_start m s);
     Some (match m with INDEX_FIRST | INDEX_LAST => IndexSearch.end_of_file code | _ => code end, image, s')).
Proof.
  assert (forall o : option (ha_code * R * search_state),
    o = ('(code, image, s') ← o; Some (code, image, s'))) as Hid by (by intros [[[? ?] ?]|]).
  destruct m; cbn [search_of search_start base_read_call]; intros [= <- <- <-]; try done; apply Hid.
Qed.

Lemma answered_end code : answered (IndexSearch.end_of_file code) = true -> answered code = true.
Proof. unfold IndexSearch.end_of_file. by destruct (decide (code = HA_ERR_KEY_NOT_FOUND)) as [->|]. Qed.

Lemma read_answer_end {T} (shown : row -> T -> Prop) rows code buf rows' :
  read_answer shown rows code buf rows' ->
  read_answer shown rows (IndexSearch.end_of_file code) buf rows'.
Proof. unfold IndexSearch.end_of_file. by destruct (decide (code = HA_ERR_KEY_NOT_FOUND)) as [->|]. Qed.

(** An answered search opened a cursor for the rows after the first one. *)
Lemma engine_read_opens ki buf s code image s' :
  Stub.need_init ki = true -> m_rec_buf (IndexSearch.scan s) = None ->
  IndexSearch.engine_read V ki buf s = Some (code, image, s') -> answered code = true ->
  let e := engine (IndexSearch.scan s) in let e' := engine (IndexSearch.scan s') in
  let c := Session.cursor_addr (IndexSearch.m_tch s') in
  search_ready s' /\ IndexSearch.m_index_sorted s' = IndexSearch.m_index_sorted s /\
  ~ is_open c e /\ is_open c e' /\
  read_answer search_shown (eng_found ki e) code image (rows_at c e') /\
  forall d, is_open d e -> is_open d e' /\ rows_at d e' = rows_at d e.
Proof.
  intros Hinit Hbuf. unfold IndexSearch.engine_read.
  destruct (negb (IndexSearch.buf_ok V)); [by intros [= <- <- <-]|].
  destruct (Session.update_member_tch _ _ _ _) as [[tch w]|]; [|done]. cbn [mbind option_bind].
  cbv zeta. pose proof (IndexSearch.index_read_errors tch ki (IndexSearch.select_mode V)
    (IndexSearch.m_replace s) (engine (IndexSearch.scan s))) as Hfk.
  pose proof (IndexSearch.index_read_ok tch ki (IndexSearch.select_mode V)
    (IndexSearch.m_replace s) (engine (IndexSearch.scan s))) as Hok.
  pose proof (eng_opens (PartIndexLaws := PIL) tch ki (IndexSearch.select_mode V)
    (IndexSearch.m_replace s) (engine (IndexSearch.scan s)) Hinit) as Hnew. cbv zeta in Hok, Hnew.
  set (a := IndexSearch.eng_index_read _ _ _ _ _) in *.
  destruct (Session.update_sess_ctx_by_tch _ _ _) as [[? w2]|]; [|done]. cbn [mbind option_bind].
  destruct (if _ && _ then _ else _) as [[? w3]|]; [|done]. cbn [mbind option_bind].
  destruct (Session.mark_rollback _ _) as [[? w4]|]; [|done]. cbn [mbind option_bind].
  unfold process_cantian_record. rewrite checked_id by done.
  destruct (decide (IndexSearch.ia_ret a <> CT_SUCCESS)) as [Hret|Hret].
  { cbn [mbind option_bind]. intros [= <- <- <-] Ha. exfalso. apply Hret.
    pose proof (convert_ok (IndexSearch.ia_ret a)) as Hc. unfold convert, OK in Hc. unfold convert in Ha.
    destruct (fst (convert_ctc_error_code_to_mysql (IndexSearch.ia_ret a))); try done. by apply Hc. }
  assert (IndexSearch.ia_ret a = CT_SUCCESS) as Hs by (by destruct (decide (IndexSearch.ia_ret a = CT_SUCCESS))).
  specialize (Hok Hs). destruct (Hnew Hs) as (Hcur & Hfresh & Hopen & Hkeep).
  rewrite (eng_scan (PartEngineLaws := PEL)), Hcur in Hok.
  destruct (IndexSearch.ia_row a) as [[record id]|].
  - match goal with |- context [IndexSearch.scan_env_of V ?x] => set (s1 := x) end.
    destruct (cnvrt_to_mysql_record _ _ _ _) as [im|] eqn:Him; [|done]. cbn [mbind option_bind].
    intros [= <- <- <-] _. split; [by split|]. split; [done|]. split; [done|]. split; [done|]. split; [|done].
    destruct Hok as [Hf _]. exists (record, id). split; [exact Hf|]. by exists s1, buf.
  - cbn [mbind option_bind]. intros [= <- <- <-] _. split; [by split|]. split; [done|]. split; [done|].
    split; [done|]. by split.
Qed.

Lemma search_found_scan m p s c rows :
  (IndexSearch.idle (IndexSearch.scan s) -> IndexSearch.idle c) ->
  (forall ki, part_found p ki (engine c) = part_found p ki (engine (IndexSearch.scan s))) ->
  search_found m p s rows -> search_found m p (IndexSearch.set_scan c s) rows.
Proof.
  intros Hidle Hp (bytes & rest & flag & ki & Hs & [Hk Hi Ht Hc] & Hn & Hr & Hconv).
  exists bytes, rest, flag, ki. split; [by destruct m|].
  assert (IndexSearch.idle c) as Hidle' by (apply Hidle; by destruct m).
  split; [|split; [done|]].
  - split; [..|by destruct m]; destruct m; done.
  - split; [by rewrite Hr, <- Hp|]. by destruct m.
Qed.

Lemma search_start_scan m s : IndexSearch.scan (search_start m s) = IndexSearch.scan s.
Proof. by destruct m. Qed.

#[local] Instance search_open_laws :
  OpenLaws search_base search_shown search_ready
    (fun c s => rows_at c (engine (IndexSearch.scan s))) (fun c s => is_open c (engine (IndexSearch.scan s)))
    search_found.
Proof.
  split.
  - intros b [Hbuf Hcur]. assert (search_ready (b_reset_rec_buf b)) as Hr
      by (split; [cbn; by rewrite Hbuf|done]).
    split; [exact Hr|]. split; [done|]. split; [|done].
    intros m p rows. apply search_found_scan; [|done]. intros [Hb _]. split; [done|]. cbn. by rewrite Hbuf.
  - intros m p p' b rows [Hbuf _]. apply search_found_scan; [|intros ki; apply (eng_part_found (PartIndexLaws := PIL))].
    intros [Hb Hm]. split; [done|]. exact Hm.
  - intros m buf b rows [Hbuf Hcur] Hsort _ (bytes & rest & flag & ki & Hs & Hcall & Hn & -> & Hconv).
    cbn [b_read search_base b_part] in *. rewrite (base_read_search m buf b _ _ _ Hs).
    rewrite <- (eng_found_part (PartIndexLaws := PIL)) in *.
    destruct (IndexSearch.read_ok (IL := IL) V (search_start m b) bytes rest flag ki buf Hcall)
      as (code & image & s' & Hrun & _); [rewrite search_start_scan; exact Hconv|].
    destruct (IndexSearch.index_read_call V (search_start m b) bytes rest flag ki buf Hcall)
      as (s1 & Hcall1 & Hscan & _ & _ & Hsort1).
    rewrite Hrun in Hcall1. symmetry in Hcall1. rewrite Hrun. cbn [mbind option_bind].
    eexists _, image, s'. split; [reflexivity|]. intros Ha.
    assert (answered code = true) as Ha' by (destruct m; try done; by apply answered_end).
    assert (IndexSearch.scan s1 = IndexSearch.scan b) as Hb.
    { rewrite Hscan, search_start_scan. unfold IndexSearch.fresh. by rewrite Hbuf. }
    pose proof (engine_read_opens ki buf s1 code image s' Hn) as Ho. rewrite Hb in Ho.
    destruct (Ho Hbuf Hcall1 Ha') as (H1 & H2 & H3 & H4 & H5 & H6).
    split; [done|]. split; [cbn [b_index_sorted search_base]; rewrite H2, Hsort1; by destruct m|].
    split; [done|]. split; [done|]. split; [|done].
    destruct m; try done; by apply read_answer_end.
Qed.

(** *** The first read of a partition *)

Context {PI : PartitionInfo} {used : list Z} {PL : PartitionInfoLaws PI used}.
Context (sub : bool) (Hsub : sub = bool_decide (0 < num_subparts)).

(** C22: in an ordered scan whose base class is the [ha_ctc] of [IndexSearch]
    without a record buffer, a read that opens the scan of a partition returns,
    and if the engine does not fail it answers with the first row that its
    search finds in that partition, opens a cursor for the rows after it, and
    keeps the cursors of the other partitions with the rows that they have yet
    to return.  The read is one that asks the engine for a cursor: any
    [index_first], and the others while [cursor_valid] is not set
    ([search_found]). *)
Theorem open_in_part_refines (p : Z) (m : base_read) (buf : R) (s : part_state search_state)
    (rows : list row)
    (W : wf (ok := search_ready) (is_open := fun c s => is_open c (engine (IndexSearch.scan s))) s)
    (Hp : in_range p)
    (Hfound : search_found m (part_numbers sub num_subparts p) (base s) rows) :
  exists ret image s', open_in_part (BH := search_base) sub p m buf s = Some (ret, image, s') /\
  (answered ret = true ->
   wf (ok := search_ready) (is_open := fun c s => is_open c (engine (IndexSearch.scan s))) s' /\
   has s' p /\
   read_answer search_shown rows ret image
     (view (rows_at := fun c s => rows_at c (engine (IndexSearch.scan s))) s' p) /\
   forall q, in_range q -> has s q -> q <> p ->
     has s' q /\
     view (rows_at := fun c s => rows_at c (engine (IndexSearch.scan s))) s' q
       = view (rows_at := fun c s => rows_at c (engine (IndexSearch.scan s))) s q).
Proof.
  assert (sub = true -> 0 < num_subparts) as Hs by (rewrite Hsub; apply bool_decide_eq_true_1).
  destruct (open_ok (OL := search_open_laws) sub Hs s p m buf rows W Hp Hfound)
    as (ret & image & s' & Hrun & Hafter).
  exists ret, image, s'. split; [done|]. intros Ha.
  destruct (Hafter Ha) as (W' & Hh & Hk & Hans & Hv).
  split; [done|]. split; [done|]. split; [done|]. intros q Hq Hhq Hne. split; [by apply Hk|by apply Hv].
Qed.

End Search.

(** ** An instance *)

(** Four partitions, all used. *)
#[local] Instance demo_info : PartitionInfo := {|
  num_parts := 4; num_subparts := 0; get_tot_partitions := 4; num_partitions_used := 4;
  get_first_used_partition := 0;
  get_next_used_partition p := if p + 1 <? 4 then p + 1 else MY_BIT_NONE;
  part_field_array := [1%nat] |}.

Definition demo_used : list Z := [0; 1; 2; 3].

#[local] Instance demo_info_laws : PartitionInfoLaws demo_info demo_used.
Proof.
  split; try done.
  - repeat apply Forall_cons_2; try apply Forall_nil_2; cbn; lia.
  - intros l1 p l2 H. destruct l1 as [|a [|b [|c [|d l1]]]]; unfold demo_used in H; simplify_eq/=; try done.
    by destruct l1.
Qed.

(** An engine whose open cursors are lists of rows. *)
Record demo_pe := mk_pe {
  pe_parts : list (list row); pe_open : gmap Z (list row); pe_part : Z * Z; pe_cur : Z; pe_pos : Z }.

Definition pe_rows (c : Z) (e : demo_pe) : list row := default [] (pe_open e !! c).
Definition pe_is_open (c : Z) (e : demo_pe) : Prop := is_Some (pe_open e !! c).
Definition pe_set (c : Z) (l : list row) (pos : Z) (e : demo_pe) : demo_pe :=
  mk_pe (pe_parts e) (<[c := l]> (pe_open e)) (pe_part e) c pos.

Definition pe_next (e : demo_pe) : ct_errno_t * option row * demo_pe :=
  match pe_open e !! pe_cur e with
  | Some (r :: l) => (CT_SUCCESS, Some r, pe_set (pe_cur e) l (snd r) e)
  | _ => (CT_SUCCESS, None, e)
  end.

#[local] Instance demo_pe_scan : ScanEngine demo_pe := {|
  eng_next := pe_next;
  eng_prefetch max e := (ERR_GENERIC_INTERNAL_ERROR, [], e);
  eng_position := pe_pos |}.

#[local] Instance demo_pe_scan_laws : ScanLaws demo_pe_scan (fun e => pe_rows (pe_cur e) e).
Proof.
  split; try done.
  - intros e. cbn. unfold pe_next. by destruct (pe_open e !! pe_cur e) as [[|]|].
  - intros e r e' H. cbn in H. unfold pe_next in H. unfold pe_rows.
    destruct (pe_open e !! pe_cur e) as [[|r0 l]|] eqn:Hl; injection H as <- <-; rewrite ?Hl; try done.
    cbn. rewrite lookup_insert_eq. by split.
Qed.

#[local] Instance demo_part_engine : PartEngine demo_pe := {|
  eng_part := pe_part;
  eng_set_part p e := mk_pe (pe_parts e) (pe_open e) p (pe_cur e) (pe_pos e);
  eng_cursor := pe_cur;
  eng_set_cursor c e := mk_pe (pe_parts e) (pe_open e) (pe_part e) c (pe_pos e);
  eng_rnd_init _ e := (CT_SUCCESS, e);
  eng_rnd_pos _ e := (CT_SUCCESS, None, e) |}.

#[local] Instance demo_part_engine_laws :
  PartEngineLaws demo_part_engine demo_pe_scan (fun e => pe_rows (pe_cur e) e) pe_rows pe_is_open.
Proof.
  split; try done.
  intros e. cbn. unfold pe_next, pe_rows, pe_is_open.
  destruct (pe_open e !! pe_cur e) as [[|r l]|] eqn:Hl; try done. cbn [snd pe_set pe_cur pe_open].
  split; [done|]. intros c. destruct (decide (c = pe_cur e)) as [->|Hne].
  - rewrite lookup_insert_eq, Hl. split; [|done]. split; eauto.
  - by rewrite lookup_insert_ne.
Qed.

(** The search of an index finds the rows of the partition whose first column
    is the left key, if there is one. *)
Definition pe_found (p : Z * Z) (ki : Stub.index_key_info_t) (e : demo_pe) : list row :=
  let rows := default [] (pe_parts e !! Z.to_nat (fst p)) in
  match head (Stub.key_info_list ki) ≫= Stub.left_key with
  | Some k => filter (fun r => take 4 (fst r) = k) rows
  | None => rows
  end.

(** The cursor of a search: a new one if the search asks for one. *)
Definition pe_cursor (t : Session.ctc_handler_t) (ki : Stub.index_key_info_t) (e : demo_pe) : Z :=
  if Stub.need_init ki then fresh (dom (pe_open e) : gset Z) else Session.cursor_addr t.

#[local] Instance demo_pe_index : IndexSearch.IndexEngine demo_pe := {|
  IndexSearch.eng_index_read t ki mode b e :=
    let c := pe_cursor t ki e in
    let t := IndexSearch.set_cursor c (Session.cursor_ref t) t in
    match pe_found (pe_part e) ki e with
    | [] => IndexSearch.mk_answer CT_SUCCESS None t true (Stub.need_init ki) (pe_set c [] (pe_pos e) e)
    | r :: l => IndexSearch.mk_answer CT_SUCCESS (Some r) t true (Stub.need_init ki) (pe_set c l (snd r) e)
    end;
  IndexSearch.eng_index_end t e := (CT_SUCCESS, t, e);
  IndexSearch.eng_rnd_end t e := (CT_SUCCESS, t, e);
  IndexSearch.eng_scan_records t n e := (CT_SUCCESS, 0, t, e) |}.

Lemma pe_set_rows c l pos e : pe_rows c (pe_set c l pos e) = l.
Proof. unfold pe_rows, pe_set. cbn [pe_open]. by rewrite lookup_insert_eq. Qed.

Lemma pe_set_other c d l pos e :
  ~ pe_is_open c e -> pe_is_open d e ->
  pe_is_open d (pe_set c l pos e) /\ pe_rows d (pe_set c l pos e) = pe_rows d e.
Proof.
  unfold pe_is_open, pe_rows, pe_set. cbn [pe_open]. intros Hc Hd.
  rewrite lookup_insert_ne; [by split|]. by intros ->.
Qed.

#[local] Instance demo_pe_index_laws :
  IndexSearch.IndexLaws (fun e => pe_rows (pe_cur e) e) (fun ki e => pe_found (pe_part e) ki e).
Proof.
  split; intros t ki mode b e; cbn [IndexSearch.eng_index_read demo_pe_index]; cbv zeta;
    destruct (pe_found (pe_part e) ki e) as [|r l]; try done; intros _;
    cbn [IndexSearch.ia_row IndexSearch.ia_engine]; change (pe_cur (pe_set ?c _ _ _)) with c;
    rewrite pe_set_rows; done.
Qed.

#[local] Instance demo_pe_part_laws :
  PartIndexLaws demo_part_engine demo_pe_index pe_rows pe_is_open
    (fun ki e => pe_found (pe_part e) ki e) pe_found.
Proof.
  split; try done.
  intros t ki mode b e a c Hn _. subst c. subst a. cbn [IndexSearch.eng_index_read demo_pe_index].
  cbv zeta. unfold pe_cursor. rewrite Hn.
  pose proof (is_fresh (dom (pe_open e) : gset Z)) as Hf. apply not_elem_of_dom in Hf.
  set (c := fresh (dom (pe_open e) : gset Z)) in *.
  assert (~ pe_is_open c e) as Hc by (unfold pe_is_open; rewrite Hf; by intros [? ?]).
  destruct (pe_found (pe_part e) ki e) as [|r l];
    cbn [IndexSearch.ia_engine IndexSearch.ia_tch]; (split; [done|]); (split; [exact Hc|]);
    (split; [unfold pe_is_open, pe_set; cbn [pe_open]; rewrite lookup_insert_eq; by eexists|]);
    intros d; by apply pe_set_other.
Qed.

Definition no_key_len (i : option nat) (m : Z) : Z := 0.
Definition no_idx_map (i : nat) (k : list Z) (m f : Z) (buf : list Z)
    (s : IndexSearch.search_state (RB := demo_rb) (list Z) demo_pe)
  : option (ha_code * list Z * IndexSearch.search_state (RB := demo_rb) (list Z) demo_pe) := None.

Abbreviation demo_base :=
  (search_base (M := Demo.demo) (RB := demo_rb) IndexSearch.demo_search_env no_key_len no_idx_map).
Abbreviation demo_state := (IndexSearch.search_state (RB := demo_rb) (list Z) demo_pe).

(** Two partitions with open cursors, 10 and 11. *)
Definition demo_row (n : Z) : row := (le_bytes 4 n ++ [65], n).
Definition demo_handler : demo_state :=
  IndexSearch.mk_search (RB := demo_rb)
    (mk_scan (RB := demo_rb) INVALID_MAX_UINT32 0 0 0 None (replicate 100 0) (replicate 100 0) None 0
       (mk_pe [] (<[11 := map demo_row [2; 4; 9]]> (<[10 := map demo_row [1; 3]]> ∅)) (0, 0) 10 0))
    (IndexSearch.world IndexSearch.demo_idle) (Session.sample_tch 10) true (Some 0%nat) true false false
    false false FieldTypes.g_field_cnvrt_aux_array.

Definition demo_cursors : list Z := <[1%nat := 11]> (<[0%nat := 10]> (replicate (Z.to_nat PART_CURSOR_NUM) 0)).
Definition demo_set : list Z := <[0%nat := 3]> (replicate (Z.to_nat (PART_CURSOR_NUM / 8)) 0).
Definition demo_parts : part_state demo_state :=
  mk_part_state demo_handler 1 true demo_cursors demo_set false (0, 0).

Lemma demo_set_bit p : in_range p -> has_bit demo_set p = true -> p = 0 \/ p = 1.
Proof.
  unfold in_range, has_bit, demo_set. intros Hp.
  destruct (decide (Z.to_nat (p / 8) = 0%nat)) as [He|Hne].
  - rewrite He, list_lookup_insert_eq by (rewrite length_replicate; unfold PART_CURSOR_NUM; change (8192 / 8) with 1024; lia).
    cbn [mbind option_bind default id]. intros H.
    assert (0 <= p < 8) as Hr by (assert (p / 8 <= 0) by lia; dlia).
    assert (p = 0 \/ p = 1 \/ p = 2 \/ p = 3 \/ p = 4 \/ p = 5 \/ p = 6 \/ p = 7) as Hc by lia.
    destruct Hc as [->|[->|[->|[->|[->|[->|[->| ->]]]]]]]; cbn in H; try done; auto.
  - rewrite list_lookup_insert_ne by done.
    rewrite lookup_replicate_2 by (unfold PART_CURSOR_NUM in *; change (8192 / 8) with 1024;
      assert (0 <= p / 8 < 1024) by dlia; lia).
    cbn [mbind option_bind default id]. by rewrite Z.bits_0.
Qed.

Lemma demo_cursor_of p : p = 0 \/ p = 1 -> demo_cursors !! Z.to_nat p = Some (10 + p).
Proof.
  unfold demo_cursors. intros [-> | ->].
  - rewrite list_lookup_insert_ne by done.
    by rewrite list_lookup_insert_eq by (rewrite length_replicate; unfold PART_CURSOR_NUM; change (8192 / 8) with 1024; lia).
  - by rewrite list_lookup_insert_eq by (rewrite length_insert, length_replicate; unfold PART_CURSOR_NUM; lia).
Qed.

Lemma demo_wf :
  wf (BH := demo_base) (ok := search_ready (RB := demo_rb))
    (is_open := fun c s => pe_is_open c (engine (IndexSearch.scan s))) demo_parts.
Proof.
  split.
  - by split.
  - done.
  - unfold demo_parts, demo_cursors. cbn [cursors]. rewrite !length_insert, length_replicate.
    unfold PART_CURSOR_NUM. lia.
  - unfold demo_parts, demo_set. cbn [cursor_set]. rewrite length_insert, length_replicate.
    unfold PART_CURSOR_NUM. change (8192 / 8) with 1024. lia.
  - intros p c Hp Hh Hc. apply demo_set_bit in Hh; [|done]. cbn [demo_parts cursors] in Hc.
    rewrite demo_cursor_of in Hc by done. injection Hc as <-.
    destruct Hh as [-> | ->]; unfold pe_is_open; by eexists.
  - intros p q c Hp Hq Hh Hh' Hc Hc'. apply demo_set_bit in Hh; [|done]. apply demo_set_bit in Hh'; [|done].
    cbn [demo_parts cursors] in *. rewrite demo_cursor_of in Hc, Hc' by done.
    injection Hc as <-. injection Hc' as Hc'. lia.
Qed.

(** ** Witnesses *)

Lemma the_pair {A B} (o : option (A * B)) (a : A) (d : B) :
  option_map fst o = Some a -> o = Some (a, match o with Some (_, b) => b | None => d end).
Proof. destruct o as [[a' b]|]; [|done]. cbn. by intros [= ->]. Qed.

Definition demo_calls : list (Z * base_read) :=
  [(1, INDEX_NEXT); (0, INDEX_NEXT); (1, INDEX_NEXT); (0, INDEX_NEXT); (0, INDEX_NEXT)].
Definition demo_out : list (ha_code * list Z) :=
  [(OK, le_bytes 4 2 ++ [65]); (OK, le_bytes 4 1 ++ [65]); (OK, le_bytes 4 4 ++ [65]);
   (OK, le_bytes 4 3 ++ [65]); (HA_ERR_END_OF_FILE, le_bytes 4 3 ++ [65])].

Abbreviation demo_reads := (reads (BH := demo_base) false demo_calls [] demo_parts).

Definition demo_end : part_state demo_state :=
  match demo_reads with Some (_, s) => s | None => demo_parts end.

Lemma ordered_reads_witness :
  demo_reads = Some (demo_out, demo_end) /\
  exists got, [demo_row 2; demo_row 4; demo_row 9]
      = got ++ view (rows_at := fun c s => pe_rows c (engine (IndexSearch.scan s))) demo_end 1 /\
    Forall2 (search_shown (E := demo_pe) (RB := demo_rb) IndexSearch.demo_search_env)
      got [le_bytes 4 2 ++ [65]; le_bytes 4 4 ++ [65]].
Proof.
  assert (demo_reads = Some (demo_out, demo_end)) as Hrun
    by (unfold demo_end; apply the_pair; vm_compute; reflexivity).
  split; [exact Hrun|].
  apply (ordered_reads (BH := demo_base) false
    (search_shown (E := demo_pe) (RB := demo_rb) IndexSearch.demo_search_env)
    (search_ready (RB := demo_rb)) (fun c s => pe_rows c (engine (IndexSearch.scan s)))
    (fun c s => pe_is_open c (engine (IndexSearch.scan s))) (search_base_laws _ _ _)
    demo_calls [] demo_parts demo_end demo_out) with (p := 1).
  - exact demo_wf.
  - repeat apply Forall_cons_2; try apply Forall_nil_2; (split; [cbn; unfold in_range, PART_CURSOR_NUM; lia|]);
      (split; [vm_compute; reflexivity|done]).
  - exact Hrun.
  - repeat apply Forall_cons_2; try apply Forall_nil_2; done.
  - unfold in_range, PART_CURSOR_NUM. lia.
  - vm_compute. reflexivity.
Defined.

(** The same scan before partition 2 is read, of a table with rows in it. *)
Definition demo_opening : part_state demo_state :=
  set_base (IndexSearch.set_scan (set_engine
    (mk_pe [[]; []; map demo_row [5; 6]] (pe_open (engine (IndexSearch.scan demo_handler))) (0, 0) 10 0)
    (IndexSearch.scan demo_handler)) demo_handler) demo_parts.

Abbreviation demo_open_2 := (open_in_part (BH := demo_base) false 2 INDEX_FIRST [] demo_opening).
Definition demo_opened : part_state demo_state :=
  match demo_open_2 with Some (_, s) => s | None => demo_opening end.

(** [index_first] asks for a cursor and has no key. *)
Definition demo_first : Stub.index_key_info_t :=
  Stub.mk_index_key true 3 0 true false "k" [Stub.mk_key false None None].

Lemma demo_first_found :
  search_found (M := Demo.demo) (RB := demo_rb) (part_found := pe_found) IndexSearch.demo_search_env
    no_key_len INDEX_FIRST (2, INVALID_PART_ID) (base demo_opening) (map demo_row [5; 6]).
Proof.
  exists [], [], IndexSearch.HA_READ_AFTER_KEY, demo_first. split; [reflexivity|]. split.
  - split.
    + exists 0%nat, [IndexSearch.mk_part RowFormat.demo_int 4 4 false], "k"%string, [], [],
        [Stub.mk_key false None None].
      split; [reflexivity|]. split; [reflexivity|]. split; [repeat constructor; done|].
      split; [cbn; lia|]. split; [cbn; unfold IndexSearch.MAX_KEY_COLUMNS, Stub.MAX_KEY_COLUMNS; lia|].
      split; [constructor|]. split; [cbn; lia|]. split; [done|]. split; [|reflexivity].
      constructor; [done|done|done|constructor].
    + by repeat split.
    + apply RowFormat.good_table_initial.
    + eexists. split; [reflexivity|]. vm_compute. done.
  - split; [done|]. split; [reflexivity|].
    repeat apply Forall_cons_2; [..|apply Forall_nil_2]; (split; [cbn; lia|intros; by eexists]).
Qed.

Lemma open_in_part_refines_witness :
  demo_open_2 = Some (OK, le_bytes 4 5 ++ [65], demo_opened) /\
  (exists r, map demo_row [5; 6] = r :: view (rows_at := fun c s => pe_rows c (engine (IndexSearch.scan s))) demo_opened 2 /\
    search_shown (E := demo_pe) (RB := demo_rb) IndexSearch.demo_search_env r (le_bytes 4 5 ++ [65])) /\
  view (rows_at := fun c s => pe_rows c (engine (IndexSearch.scan s))) demo_opened 1
    = map demo_row [2; 4; 9].
Proof.
  assert (demo_open_2 = Some (OK, le_bytes 4 5 ++ [65], demo_opened)) as Hrun
    by (unfold demo_opened; apply the_pair; vm_compute; reflexivity).
  split; [exact Hrun|].
  destruct (open_in_part_refines (M := Demo.demo) (RB := demo_rb) (RBL := demo_rb_laws) (IL := demo_pe_index_laws)
    (PIL := demo_pe_part_laws) (PEL := demo_part_engine_laws) (EL := demo_pe_scan_laws)
    (PI := demo_info)
    IndexSearch.demo_search_env no_key_len no_idx_map false eq_refl 2 INDEX_FIRST []
    demo_opening (map demo_row [5; 6])) as (ret & image & s' & Hr & H).
  - destruct demo_wf as [H1 H2 H3 H4 H5 H6]. split; [by split|exact H2|exact H3|exact H4|exact H5|exact H6].
  - unfold in_range, PART_CURSOR_NUM. lia.
  - exact demo_first_found.
  - assert (Some (ret, image, s') = Some (OK, le_bytes 4 5 ++ [65], demo_opened)) as He
      by (rewrite <- Hr; exact Hrun).
    injection He as -> -> ->. destruct (H eq_refl) as (_ & _ & Hans & Hoth). split; [exact Hans|].
    destruct (Hoth 1) as [_ Hv]; [unfold in_range, PART_CURSOR_NUM; lia|vm_compute; reflexivity|done|].
    rewrite Hv. vm_compute. reflexivity.
Defined.

(** A plain base class on the same engine, whose searches find all rows of a
    partition. *)
Definition plain_found (p : Z * Z) (e : demo_pe) : list row :=
  default [] (pe_parts e !! Z.to_nat (fst p)).
Definition pe_new (e : demo_pe) : Z := fresh (dom (pe_open e) : gset Z).

Definition pe_read (m : base_read) (buf : list Z) (e : demo_pe) : option (ha_code * list Z * demo_pe) :=
  if opens m then
    match plain_found (pe_part e) e with
    | [] => Some (HA_ERR_KEY_NOT_FOUND, buf, pe_set (pe_new e) [] (pe_pos e) e)
    | r :: l => Some (OK, fst r, pe_set (pe_new e) l (snd r) e)
    end
  else
    match pe_rows (pe_cur e) e with
    | [] => Some (HA_ERR_END_OF_FILE, buf, e)
    | r :: l => Some (OK, fst r, pe_set (pe_cur e) l (snd r) e)
    end.

Definition plain_base : BaseHandler (list Z) demo_pe := {|
  b_part := pe_part;
  b_set_part p e := mk_pe (pe_parts e) (pe_open e) p (pe_cur e) (pe_pos e);
  b_cursor := pe_cur;
  b_set_cursor c e := mk_pe (pe_parts e) (pe_open e) (pe_part e) c (pe_pos e);
  b_set_cursor_ref _ _ e := e;
  b_index_sorted _ := true;
  b_has_rec_buf _ := false;
  b_drop_rec_buf e := e;
  b_reset_rec_buf e := e;
  b_rnd_init _ e := Some (OK, e);
  b_rnd_end e := Some (OK, e);
  b_index_init _ _ e := Some (OK, e);
  b_index_end e := Some (OK, e);
  b_records e := Some (OK, Z.of_nat (length (plain_found (pe_part e) e)), e);
  b_position e := Some (le_bytes 8 (pe_pos e));
  b_read := pe_read |}.

(** No cursor is open yet. *)
Definition plain_start : part_state demo_pe :=
  mk_part_state (mk_pe [map demo_row [1; 3]; map demo_row [2; 4; 9]] ∅ (0, 0) 0 0) 1 true
    (replicate (Z.to_nat PART_CURSOR_NUM) 0) (replicate (Z.to_nat (PART_CURSOR_NUM / 8)) 0) false (0, 0).

Lemma part_numbers_valid_witness :
  valid_numbers false (part_numbers false num_subparts 3) /\
  (part_numbers false num_subparts 3 = part_numbers false num_subparts 2 -> 3 = 2).
Proof. apply (part_numbers_valid (PI := demo_info) (used := demo_used) false eq_refl 3 2); cbn; lia. Defined.

Lemma fetch_cbo_stats_covers_witness :
  exists calls, fetch_cbo_stats (fun _ _ => CT_SUCCESS) 5 2000000 = Some (CT_SUCCESS, calls) /\
    covers 0 5 calls /\ Forall (fun c => snd c * 2000000 <= MAX_MESSAGE_SIZE) calls.
Proof. apply (fetch_cbo_stats_covers (fun _ _ => CT_SUCCESS) 5 2000000); [lia|unfold MAX_MESSAGE_SIZE; lia|done]. Defined.

Lemma records_sum_witness :
  exists s', records (BH := plain_base) false plain_start
    = Some (OK, wrapU 64 (sum_of (fun p => Z.of_nat (length (default []
        ([map demo_row [1; 3]; map demo_row [2; 4; 9]] !! Z.to_nat (fst (part_numbers false 0 p))))))
        demo_used), s').
Proof.
  apply (records_sum (used := demo_used) (BH := plain_base) false
    (fun e => pe_parts e = [map demo_row [1; 3]; map demo_row [2; 4; 9]])
    (fun p => Z.of_nat (length (default []
        ([map demo_row [1; 3]; map demo_row [2; 4; 9]] !! Z.to_nat (fst p)))))).
  - done.
  - intros e He. exists e. split; [|done]. cbn. unfold plain_found. by rewrite He.
  - done.
Defined.

(** A table partitioned into four by the field 1, and an index with the fields
    [f] and [g]. *)
Definition demo_set_of (at_ : nat) (_ : list Z) (key : list Z) (_ _ : Z) : Z * Z :=
  let p := le_val (take 4 (drop at_ key)) mod 4 in (p, p).
Definition demo_range_env (f g at_ : nat) (st : key_range) : range_env (list Z) :=
  mk_range_env [mk_ipart f 4; mk_ipart g 4] (fun _ => true) (demo_set_of at_) (Some st) (fun _ => 0) true.
Definition demo_key (a b flag : Z) : key_range :=
  IndexSearch.mk_range (le_bytes 4 a ++ le_bytes 4 b) 8 3 flag.

Lemma prune_ignores_column_witness :
  read_range_first_in_part (BH := plain_base) false (demo_range_env 0 1 4 (demo_key 1 1 2)) 2 (Some []) []
    (Some (demo_key 1 1 2)) (Some (demo_key 1 2 3)) plain_start
    = Some (HA_ERR_END_OF_FILE, [], set_pruned true (1, 1) plain_start).
Proof.
  apply (prune_ignores_column (PI := demo_info) (BH := plain_base) (demo_range_env 0 1 4 (demo_key 1 1 2))
    0 1 4 (le_bytes 4 1) (le_bytes 4 1) (le_bytes 4 2) (demo_key 1 1 2) (demo_key 1 2 3) 2 1 []
    plain_start); try done.
  - cbn. by intros H%list_elem_of_singleton.
  - cbn. by apply list_elem_of_singleton.
Defined.

Lemma prune_next_range_witness :
  read_range_first_in_part (BH := plain_base) false (demo_range_env 1 0 0 (demo_key 1 1 2)) 0 (Some []) []
    (Some (demo_key 1 1 2)) (Some (demo_key 1 9 3)) plain_start
    = Some (HA_ERR_END_OF_FILE, [], set_pruned true (1, 1) plain_start) /\
  read_range_first_in_part (BH := plain_base) false (demo_range_env 1 0 0 (demo_key 4 1 2)) 0 (Some []) []
    (Some (demo_key 4 1 2)) (Some (demo_key 4 9 3)) (set_pruned true (1, 1) plain_start)
    = Some (HA_ERR_END_OF_FILE, [], set_pruned true (1, 1) plain_start) /\
  read_range_first_in_part (BH := plain_base) false (demo_range_env 1 0 0 (demo_key 4 1 2)) 1 (Some []) []
    (Some (demo_key 4 1 2)) (Some (demo_key 4 9 3)) (set_pruned true (1, 1) plain_start)
    = Some (HA_ERR_END_OF_FILE, [], set_pruned true (0, 0) (set_pruned true (1, 1) plain_start)).
Proof.
  split; [reflexivity|].
  apply (prune_next_range (PI := demo_info) (BH := plain_base) (demo_range_env 1 0 0 (demo_key 4 1 2))
    (demo_key 4 1 2) (demo_key 4 9 3) 0 1 [] (set_pruned true (1, 1) plain_start)); done.
Defined.


End Partition.
