(* ===== verification/ParallelReader.v ===== *)
(** * ParallelReader: parallel scans of a table

    Models [ha_ctc_pq.cc]: a handler that several threads of the server call at
    the same time, each for a block of rows at a time.  The table is split into
    ranges of pages; a fixed number of workers, each with a session and a cursor
    of its own, takes ranges from a list and fetches their rows in batches.

    What a thread does while it holds a mutex is one step, and so is what it
    does on its own in between; any interleaving of the steps of any number of
    threads is considered. *)

From S2P Require Import Prelude CtcError Prefetch.
Import CtcError.

Module ParallelReader.

Definition BIG_RECORD_SIZE : Z := 64 * 1024.
Definition MAX_BATCH_FETCH_NUM : Z := 100.
Definition MAX_PARALLEL_READ_THREADS : Z := 256.

(** ** Threads for all readers

    [parallel_reader_thread_running] is shared by all readers of the server. *)

(** The number of workers a reader gets, and the new count.  [expected_dop] 0:
    the session's variable [dop_thd_var] decides. *)
Definition acquire_parallel_thread_count_from_global (expected_dop dop_thd_var global_dop_var
    running : Z) : Z * Z :=
  let acquire :=
    if negb (expected_dop =? 0) then
      if expected_dop >? MAX_PARALLEL_READ_THREADS then MAX_PARALLEL_READ_THREADS else expected_dop
    else dop_thd_var in
  let acquire := if acquire >? global_dop_var then global_dop_var else acquire in
  if acquire + running >? global_dop_var then (0, running) else (acquire, running + acquire).

Definition release_parallel_thread_count_back_to_global (m_worker_count running : Z) : Z :=
  running - m_worker_count.

(** ** The reader *)

(** [ctcpart_scan_range_t] *)
Record scan_range := mk_range {
  l_page : Z; r_page : Z; sr_part : Z * Z; query_scn : Z; sr_ssn : Z }.

(** [save_task]: the ranges of a partition are put in front of the list. *)
Definition save_task (ranges : list (Z * Z)) (part : Z * Z) (scn ssn : Z) (m_paral_range : list scan_range)
  : list scan_range :=
  fold_left (fun l r => mk_range (fst r) (snd r) part scn ssn :: l) ranges m_paral_range.

Definition fetch_range (m_paral_range : list scan_range) : option (scan_range * list scan_range) :=
  match m_paral_range with [] => None | r :: l => Some (r, l) end.

(** The engine's session of a worker, with its [tch]: [E].  [ctc_rnd_init] gets
    the partition of the range; [ctc_rnd_prefetch] returns records of at most
    the length given. *)
Class PqEngine (E : Type) := {
  cursor_valid : E -> bool;
  ctc_rnd_end : E -> ct_errno_t * E;
  ctc_rnd_init : Z * Z -> E -> ct_errno_t * E;
  ctc_pq_set_cursor_range : scan_range -> E -> ct_errno_t * E;
  ctc_rnd_prefetch : Z -> E -> ct_errno_t * list (list Z) * E }.

Section Reader.
Context {R E : Type} {PE : PqEngine E}.
(** [cantian_record_to_mysql_record] on the bytes that start with a record
    ([None]: an assertion fails), the lengths of the records of the server and
    of the engine. *)
Context (cantian_record_to_mysql_record : list Z -> option R) (m_row_len m_cantian_rec_len : Z).

(** [pq_work_tuple] *)
Record pq_work_tuple := mk_tuple {
  tch : E;
  prefetch_buf : list Z;
  current_offset : Z;
  current_entry_index : Z;
  record_lens : list Z;
  fetched_num : Z;
  in_use : bool }.

Definition set_tch (e : E) (t : pq_work_tuple) : pq_work_tuple :=
  mk_tuple e (prefetch_buf t) (current_offset t) (current_entry_index t) (record_lens t)
    (fetched_num t) (in_use t).
Definition set_position (off idx : Z) (t : pq_work_tuple) : pq_work_tuple :=
  mk_tuple (tch t) (prefetch_buf t) off idx (record_lens t) (fetched_num t) (in_use t).
Definition set_in_use (b : bool) (t : pq_work_tuple) : pq_work_tuple :=
  mk_tuple (tch t) (prefetch_buf t) (current_offset t) (current_entry_index t) (record_lens t)
    (fetched_num t) b.

(** The members that threads share; a buffer for rows is its address. *)
Record reader := mk_reader {
  m_work_tuples : list pq_work_tuple;
  m_my_buf_for_read : list Z;
  m_buf_for_read_count : Z;
  m_paral_range : list scan_range }.

Definition set_tuples (l : list pq_work_tuple) (s : reader) : reader :=
  mk_reader l (m_my_buf_for_read s) (m_buf_for_read_count s) (m_paral_range s).
Definition set_bufs (l : list Z) (n : Z) (s : reader) : reader :=
  mk_reader (m_work_tuples s) l n (m_paral_range s).
Definition set_ranges (l : list scan_range) (s : reader) : reader :=
  mk_reader (m_work_tuples s) (m_my_buf_for_read s) (m_buf_for_read_count s) l.

(** After [initialize] with the workers' sessions, the buffers and what is in
    the prefetch buffers. *)
Definition initialize (tchs : list E) (bufs : list Z) (memory : list Z) (ranges : list scan_range)
  : reader :=
  mk_reader (map (fun e => mk_tuple e memory 0 0 (replicate (Z.to_nat MAX_BATCH_FETCH_NUM) 0) 0 false) tchs)
    bufs (Z.of_nat (length tchs) - 1) ranges.

(** The first tuple with rows in its buffer, or one that is not in use. *)
Definition started (t : pq_work_tuple) : bool :=
  cursor_valid (tch t) && negb (fetched_num t =? 0) && negb (in_use t).

Definition get_work_tuple (l : list pq_work_tuple) : option nat :=
  match list_find (fun t => started t = true) l with
  | Some (i, _) => Some i
  | None => option_map fst (list_find (fun t => in_use t = false) l)
  end.

(** [false]: there is no range left, or the engine failed. *)
Definition prepare_work_tuple (ranges : list scan_range) (need_new_range : bool) (t : pq_work_tuple)
  : bool * list scan_range * pq_work_tuple :=
  if cursor_valid (tch t) && negb need_new_range then (true, ranges, t) else
  match fetch_range ranges with
  | None => (false, ranges, t)
  | Some (r, ranges) =>
    let '(ret, e) := ctc_rnd_end (tch t) in
    if decide (ret <> CT_SUCCESS) then (false, ranges, set_tch e t) else
    let '(ret, e) := ctc_rnd_init (sr_part r) e in
    if decide (ret <> CT_SUCCESS) then (false, ranges, set_tch e t) else
    let '(ret, e) := ctc_pq_set_cursor_range r e in
    (bool_decide (ret = CT_SUCCESS), ranges, set_tch e t)
  end.

(** The copies that [ctc_rnd_prefetch] makes when the engine answers
    [CT_SUCCESS]; otherwise its arguments are left as they are. *)
Definition store_batch (ret : ct_errno_t) (rows : list (list Z)) (t : pq_work_tuple)
  : option pq_work_tuple :=
  if decide (ret <> CT_SUCCESS) then Some t else
  buf ← Prefetch.copy_to (concat rows) (prefetch_buf t);
  lens ← Prefetch.copy_to (map (fun r => Z.of_nat (length r)) rows) (record_lens t);
  Some (mk_tuple (tch t) buf (current_offset t) (current_entry_index t) lens
          (Z.of_nat (length rows)) (in_use t)).

(** A pass of the loop of [rnd_next_block]: [inl]: once more, with a new
    range; [inr]: the loop is left. *)
Definition fetch_pass (ranges : list scan_range) (need_new_range : bool) (t : pq_work_tuple)
  : option (list scan_range * (pq_work_tuple + pq_work_tuple)) :=
  let '(ok, ranges, t) := prepare_work_tuple ranges need_new_range t in
  if negb ok then Some (ranges, inr t) else
  let '(ret, rows, e) := ctc_rnd_prefetch m_cantian_rec_len (tch t) in
  t ← store_batch ret rows (set_tch e t);
  if (fetched_num t =? 0) && bool_decide (ret = CT_SUCCESS) then Some (ranges, inl t)
  else Some (ranges, inr (set_position 0 0 t)).

(** [convert_prefetch_buffer_to_mysql]; the rows so far, and whether the next
    store would leave the buffer ([None]). *)
Fixpoint convert_loop (n : nat) (t : pq_work_tuple) (rows : list R) : option (pq_work_tuple * list R) :=
  match n with
  | O => Some (t, rows)
  | S n =>
    let size := Z.of_nat (length rows) * m_row_len in
    if size + m_row_len >? BIG_RECORD_SIZE then None else
    row ← cantian_record_to_mysql_record (drop (Z.to_nat (current_offset t)) (prefetch_buf t));
    len ← record_lens t !! Z.to_nat (current_entry_index t);
    let t := set_position (current_offset t + len) (current_entry_index t + 1) t in
    if size + m_row_len + m_row_len >=? BIG_RECORD_SIZE then Some (t, rows ++ [row])
    else convert_loop n t (rows ++ [row])
  end.

Definition convert_prefetch_buffer_to_mysql (t : pq_work_tuple) : option (pq_work_tuple * list R) :=
  convert_loop (Z.to_nat (fetched_num t - current_entry_index t)) t [].

(** [reset_data_frame] of a frame with the buffer [buf] *)
Definition reset_data_frame (buf : Z) (s : reader) : option reader :=
  let n := m_buf_for_read_count s + 1 in
  if (n <? 0) || (Z.of_nat (length (m_my_buf_for_read s)) <=? n) then None
  else Some (set_bufs (<[Z.to_nat n := buf]> (m_my_buf_for_read s)) n s).

(** ** Threads *)

(** A call of [rnd_next_block] in progress: the number of the tuple, its copy
    and the frame's buffer. *)
Record call := mk_call { c_index : nat; c_tuple : pq_work_tuple; c_buf : Z }.

(** A thread of the server that reads blocks until one is empty:
    - [Idle]: before a call;
    - [Fetching]: in the loop, before a pass;
    - [Fetched]: behind the loop;
    - [Holding]: with the rows of a block, which it will give back;
    - [Empty]: an empty block's buffer is about to be given back;
    - [Done]: it got an empty block. *)
Inductive phase :=
  | Idle
  | Fetching (c : call) (need_new_range : bool)
  | Fetched (c : call)
  | Holding (buf : Z)
  | Empty (buf : Z)
  | Done.

(** The part of [rnd_next_block] up to the first unlock and the test whether
    the buffer is exhausted. *)
Definition begin_call (s : reader) : option (phase * reader) :=
  if m_buf_for_read_count s <? 0 then Some (Done, s) else
  match get_work_tuple (m_work_tuples s) with
  | None => Some (Done, s)
  | Some i =>
    t ← m_work_tuples s !! i;
    let t := set_in_use true t in
    buf ← m_my_buf_for_read s !! Z.to_nat (m_buf_for_read_count s);
    let s := set_bufs (m_my_buf_for_read s) (m_buf_for_read_count s - 1)
               (set_tuples (<[i := t]> (m_work_tuples s)) s) in
    let c := mk_call i t buf in
    Some (if (fetched_num t <=? current_entry_index t) || (fetched_num t =? 0)
          then Fetching c false else Fetched c, s)
  end.

(** The conversion and the second locked section. *)
Definition end_call (c : call) (s : reader) : option (phase * list R * reader) :=
  '(t, rows) ← convert_prefetch_buffer_to_mysql (c_tuple c);
  if (length (m_work_tuples s) <=? c_index c)%nat then None else
  let s := set_tuples (<[c_index c := set_in_use false t]> (m_work_tuples s)) s in
  Some (match rows with [] => Empty (c_buf c) | _ => Holding (c_buf c) end, rows, s).

(** A step of a thread: its new phase, the rows it delivers, the reader. *)
Definition thread_step (p : phase) (s : reader) : option (phase * list R * reader) :=
  match p with
  | Idle => '(p, s) ← begin_call s; Some (p, [], s)
  | Fetching c need =>
    '(ranges, r) ← fetch_pass (m_paral_range s) need (c_tuple c);
    Some (match r with
          | inl t => Fetching (mk_call (c_index c) t (c_buf c)) true
          | inr t => Fetched (mk_call (c_index c) t (c_buf c))
          end, [], set_ranges ranges s)
  | Fetched c => end_call c s
  | Holding buf => s ← reset_data_frame buf s; Some (Idle, [], s)
  | Empty buf => s ← reset_data_frame buf s; Some (Done, [], s)
  | Done => Some (Done, [], s)
  end.

(** The threads, the reader and the rows delivered so far. *)
Record system := mk_system { threads : list phase; shared : reader; delivered : list R }.

Definition system_step (i : nat) (s : system) : option system :=
  p ← threads s !! i;
  '(p, rows, r) ← thread_step p (shared s);
  Some (mk_system (<[i := p]> (threads s)) r (delivered s ++ rows)).

(** The steps of the threads in the order of [schedule]. *)
Fixpoint run (schedule : list nat) (s : system) : option system :=
  match schedule with
  | [] => Some s
  | i :: schedule => s ← system_step i s; run schedule s
  end.

(** The addresses that [deinitialize] frees. *)
Definition freed (m_worker_count : Z) (s : reader) : list Z :=
  take (Z.to_nat m_worker_count) (m_my_buf_for_read s).

End Reader.

Arguments pq_work_tuple : clear implicits.
Arguments reader : clear implicits.
Arguments call : clear implicits.
Arguments phase : clear implicits.
Arguments system : clear implicits.

(** ** Sums over the threads and the tuples *)

Fixpoint total {A} (f : A -> nat) (l : list A) : nat :=
  match l with [] => 0%nat | x :: l => (f x + total f l)%nat end.

Lemma total_insert {A} (f : A -> nat) l i x y :
  l !! i = Some x -> (total f (<[i := y]> l) + f x = total f l + f y)%nat.
Proof.
  revert i. induction l as [|a l IH]; intros [|i] H; try done; simpl in *.
  - injection H as ->. simpl. lia.
  - specialize (IH i H). lia.
Qed.

Lemma total_ge {A} (f : A -> nat) l i x : l !! i = Some x -> (f x <= total f l)%nat.
Proof.
  revert i. induction l as [|a l IH]; intros [|i] H; try done; simpl in *.
  - injection H as ->. simpl. lia.
  - specialize (IH i H). lia.
Qed.

Lemma total_ge_two {A} (f : A -> nat) l i j x y :
  i <> j -> l !! i = Some x -> l !! j = Some y -> (f x + f y <= total f l)%nat.
Proof.
  revert i j. induction l as [|a l IH]; intros [|i] [|j] Hij Hx Hy; try done; simpl in *.
  - injection Hx as ->. pose proof (total_ge f l j y Hy). lia.
  - injection Hy as ->. pose proof (total_ge f l i x Hx). lia.
  - assert (i <> j) by congruence. specialize (IH i j H Hx Hy). lia.
Qed.

Lemma total_zero {A} (f : A -> nat) l : Forall (fun x => f x = 0%nat) l -> total f l = 0%nat.
Proof. induction 1; cbn; lia. Qed.

Lemma total_le {A} (f g : A -> nat) l :
  Forall (fun x => (f x <= g x)%nat) l -> (total f l <= total g l)%nat.
Proof. induction 1; cbn; lia. Qed.

Lemma total_plus {A} (f g : A -> nat) l :
  total (fun x => f x + g x)%nat l = (total f l + total g l)%nat.
Proof. induction l; cbn; lia. Qed.

Lemma total_const {A} n (l : list A) : total (fun _ => n) l = (n * length l)%nat.
Proof. induction l; cbn; lia. Qed.

Lemma total_pos {A} (f : A -> nat) l :
  (0 < total f l)%nat -> exists i x, l !! i = Some x /\ (0 < f x)%nat.
Proof.
  induction l as [|a l IH]; cbn; [lia|]. intros H.
  destruct (decide (0 < f a)%nat); [by exists 0%nat, a|].
  destruct IH as (i & x & ? & ?); [lia|]. by exists (S i), x.
Qed.

Lemma total_map {A B} (f : B -> nat) (g : A -> B) l : total f (map g l) = total (fun x => f (g x)) l.
Proof. induction l; cbn; congruence. Qed.

(** How often [x] is in [l]. *)
Definition occ {A} `{EqDecision A} (x : A) (l : list A) : nat := count_occ (fun a b => decide (a = b)) l x.

Lemma occ_app {A} `{EqDecision A} (x : A) l k : occ x (l ++ k) = (occ x l + occ x k)%nat.
Proof. apply count_occ_app. Qed.

Lemma occ_Permutation {A} `{EqDecision A} (l k : list A) : (forall x, occ x l = occ x k) -> l ≡ₚ k.
Proof. apply (Permutation_count_occ (fun a b => decide (a = b))). Qed.

Lemma occ_NoDup {A} `{EqDecision A} (l : list A) x : NoDup l -> (occ x l <= 1)%nat.
Proof. intros H%NoDup_ListNoDup. by apply (NoDup_count_occ (fun a b => decide (a = b))). Qed.

Lemma occ_elem {A} `{EqDecision A} (l : list A) x : (0 < occ x l)%nat -> x ∈ l.
Proof. intros H. apply list_elem_of_In, (count_occ_In (fun a b => decide (a = b))). unfold occ in H. lia. Qed.

(** [x] in front of the elements from [n] on *)
Lemma occ_take_S {A} `{EqDecision A} (l : list A) n x y :
  l !! n = Some y -> occ x (take (S n) l) = (occ x (take n l) + occ x [y])%nat.
Proof. intros H. by rewrite (take_S_r l n y H), occ_app. Qed.

(** ** Rows of a tuple *)

(** The rows of the given lengths at the start of [bytes] *)
Fixpoint split_rows (lens bytes : list Z) : list (list Z) :=
  match lens with
  | [] => []
  | n :: lens => take (Z.to_nat n) bytes :: split_rows lens (drop (Z.to_nat n) bytes)
  end.

Lemma split_rows_concat rows rest :
  split_rows (map (fun r => Z.of_nat (length r)) rows) (concat rows ++ rest) = rows.
Proof.
  induction rows as [|r rows IH]; [done|]. cbn. rewrite Nat2Z.id.
  by rewrite <- (assoc_L (++)), take_app_length, drop_app_length, IH.
Qed.

(** Engine operations that do not fail: [rows_left], the rows the cursor has
    still to return, and [range_rows], the rows on the pages of a range. *)
Class PqLaws (E : Type) {PE : PqEngine E} := {
  rows_left : E -> list (list Z);
  range_rows : scan_range -> list (list Z);
  rnd_end_ok e : exists e', ctc_rnd_end e = (CT_SUCCESS, e');
  rnd_init_ok p e : exists e', ctc_rnd_init p e = (CT_SUCCESS, e');
  set_cursor_range_ok r e0 e p : ctc_rnd_init p e0 = (CT_SUCCESS, e) ->
    exists e', ctc_pq_set_cursor_range r e = (CT_SUCCESS, e') /\ cursor_valid e' = true /\
      rows_left e' = range_rows r;
  rnd_prefetch_ok n e : cursor_valid e = true ->
    exists rows e', ctc_rnd_prefetch n e = (CT_SUCCESS, rows, e') /\
      rows_left e = rows ++ rows_left e' /\ (rows = [] -> rows_left e = []) /\
      cursor_valid e' = true /\
      Z.of_nat (length rows) <= MAX_BATCH_FETCH_NUM /\
      Z.of_nat (length (concat rows)) <= BIG_RECORD_SIZE }.

Section Buffer.
Context {R E : Type} {good : list Z -> Prop}.
Context (conv : list Z -> option R) (row_of : list Z -> R) (m_row_len : Z).
Hypothesis good_conv : forall x rest, good x -> conv (x ++ rest) = Some (row_of x).
Hypothesis row_len_ok : 0 < m_row_len <= BIG_RECORD_SIZE.

(** The rows of the buffer that were not delivered yet *)
Definition leftover (t : pq_work_tuple E) : list (list Z) :=
  split_rows (take (Z.to_nat (fetched_num t - current_entry_index t))
                (drop (Z.to_nat (current_entry_index t)) (record_lens t)))
    (drop (Z.to_nat (current_offset t)) (prefetch_buf t)).

(** The buffers of a tuple have their sizes and hold the rows the indices say. *)
Record buffer_of (t : pq_work_tuple E) : Prop := {
  bo_buf : Z.of_nat (length (prefetch_buf t)) = BIG_RECORD_SIZE;
  bo_lens : Z.of_nat (length (record_lens t)) = MAX_BATCH_FETCH_NUM;
  bo_index : 0 <= current_offset t /\ 0 <= current_entry_index t /\ 0 <= fetched_num t <= MAX_BATCH_FETCH_NUM;
  bo_batch : exists batch rest,
    take (Z.to_nat (fetched_num t - current_entry_index t))
      (drop (Z.to_nat (current_entry_index t)) (record_lens t))
      = map (fun r => Z.of_nat (length r)) batch /\
    drop (Z.to_nat (current_offset t)) (prefetch_buf t) = concat batch ++ rest /\
    Forall good batch }.

Lemma leftover_batch t batch rest :
  take (Z.to_nat (fetched_num t - current_entry_index t))
      (drop (Z.to_nat (current_entry_index t)) (record_lens t))
      = map (fun r => Z.of_nat (length r)) batch ->
  drop (Z.to_nat (current_offset t)) (prefetch_buf t) = concat batch ++ rest ->
  leftover t = batch.
Proof. intros H1 H2. unfold leftover. rewrite H1, H2. apply split_rows_concat. Qed.

(** How many rows are left over *)
Lemma leftover_length t :
  buffer_of t -> fetched_num t <= MAX_BATCH_FETCH_NUM ->
  length (leftover t) = Z.to_nat (fetched_num t - current_entry_index t).
Proof.
  intros [? Hl ? (batch & rest & Hb & Hd & ?)] ?. rewrite (leftover_batch t batch rest Hb Hd).
  apply (f_equal length) in Hb. rewrite length_map, length_take, length_drop in Hb. lia.
Qed.


Lemma leftover_nil t :
  buffer_of t ->
  (fetched_num t <=? current_entry_index t) || (fetched_num t =? 0) = true <-> leftover t = [].
Proof.
  intros H. assert (Hf : fetched_num t <= MAX_BATCH_FETCH_NUM) by apply (bo_index t H).
  pose proof (leftover_length t H Hf) as Hl.
  assert (0 <= current_entry_index t /\ 0 <= fetched_num t) by (destruct H; lia). split.
  - intros Hb. apply nil_length_inv. rewrite Hl. zb; lia.
  - intros Hn. rewrite Hn in Hl. simpl in Hl. zb; lia.
Qed.

(** Past the first row left over *)
Lemma leftover_next t x l :
  buffer_of t -> leftover t = x :: l ->
  let t' := set_position (current_offset t + Z.of_nat (length x)) (current_entry_index t + 1) t in
  good x /\ record_lens t !! Z.to_nat (current_entry_index t) = Some (Z.of_nat (length x)) /\
  (exists rest, drop (Z.to_nat (current_offset t)) (prefetch_buf t) = x ++ rest) /\
  buffer_of t' /\ leftover t' = l.
Proof.
  intros [Hbuf Hlens Hidx (batch & rest & Hbat & Hd & Hg)] Hl t'.
  rewrite (leftover_batch t batch rest Hbat Hd) in Hl. subst batch.
  cbn [concat map] in Hbat, Hd. rewrite <- (assoc_L (++)) in Hd.
  destruct (Z.to_nat (fetched_num t - current_entry_index t)) as [|n] eqn:Hn; [done|].
  destruct (drop (Z.to_nat (current_entry_index t)) (record_lens t)) as [|z lens] eqn:Hdr; [done|].
  cbn [take] in Hbat. injection Hbat as -> Hbat.
  assert (Hb' : take (Z.to_nat (fetched_num t' - current_entry_index t'))
      (drop (Z.to_nat (current_entry_index t')) (record_lens t'))
      = map (fun r => Z.of_nat (length r)) l).
  { subst t'. cbn. replace (Z.to_nat (fetched_num t - (current_entry_index t + 1))) with n by lia.
    replace (Z.to_nat (current_entry_index t + 1)) with (Z.to_nat (current_entry_index t) + 1)%nat by lia.
    by rewrite <- drop_drop, Hdr. }
  assert (Hd' : drop (Z.to_nat (current_offset t')) (prefetch_buf t') = concat l ++ rest).
  { subst t'. cbn. rewrite Z2Nat.inj_add, Nat2Z.id, <- drop_drop, Hd by lia.
    by rewrite drop_app_length. }
  split_and!.
  - apply (Forall_inv Hg).
  - rewrite <- (Nat.add_0_r (Z.to_nat _)), <- lookup_drop, Hdr. done.
  - eauto.
  - split; cbn; try done; [lia|]. exists l, rest. split_and!; try done. apply (Forall_inv_tail Hg).
  - apply (leftover_batch t' l rest Hb' Hd').
Qed.

(** The conversion of the rows left over, as many as fit *)
Lemma convert_loop_ok l : forall t rows,
  buffer_of t -> leftover t = l ->
  (Z.of_nat (length rows) + 1) * m_row_len <= BIG_RECORD_SIZE ->
  exists t' done, convert_loop conv m_row_len (length l) t rows = Some (t', rows ++ map row_of done) /\
    l = done ++ leftover t' /\ buffer_of t' /\ tch t' = tch t /\
    fetched_num t' = fetched_num t /\ (l <> [] -> done <> []) /\
    Z.of_nat (length (rows ++ map row_of done)) * m_row_len <= BIG_RECORD_SIZE.
Proof.
  induction l as [|x l IH]; intros t rows Hb Hl Hsize.
  { exists t, []. cbn. rewrite app_nil_r. split_and!; try done. lia. }
  pose proof (leftover_next t x l Hb Hl) as (Hg & Hlen & (rest & Hd) & Hb1 & Hl1).
  cbn [convert_loop length]. rewrite Hd, good_conv, Hlen by done. cbn [mbind option_bind].
  assert ((Z.of_nat (length rows) * m_row_len + m_row_len >? BIG_RECORD_SIZE) = false) as ->
    by (zb; lia).
  set (t1 := set_position _ _ t) in *.
  destruct (Z.geb_spec (Z.of_nat (length rows) * m_row_len + m_row_len + m_row_len) BIG_RECORD_SIZE)
    as [Hfull|Hfull].
  - exists t1, [x]. rewrite Hl1. split_and!; try done. rewrite length_app. simpl. lia.
  - destruct (IH t1 (rows ++ [row_of x])) as (t' & d & -> & Hsplit & Hb' & Ht & Hf & _ & Hs).
    { done. } { done. } { rewrite length_app. simpl. lia. }
    exists t', (x :: d). cbn [map]. rewrite <- !(assoc_L (++)) in *. split_and!; try done.
    by rewrite Hsplit.
Qed.

End Buffer.

Arguments buffer_of {E} good t.

Section Correct.
Context {R E : Type} {PE : PqEngine E} {PL : PqLaws E}.
Context (conv : list Z -> option R) (row_of : list Z -> R) (m_row_len m_cantian_rec_len : Z).
Hypothesis conv_ok : forall r x rest, x ∈ range_rows r -> conv (x ++ rest) = Some (row_of x).
Hypothesis row_len_ok : 0 < m_row_len <= BIG_RECORD_SIZE.

Definition good (x : list Z) : Prop := exists r, x ∈ range_rows r.

Abbreviation buffer_ok := (buffer_of good).

Lemma good_conv x rest : good x -> conv (x ++ rest) = Some (row_of x).
Proof. intros [r H]. by apply (conv_ok r). Qed.

Definition cursor_rows (t : pq_work_tuple E) : list (list Z) :=
  if cursor_valid (tch t) then rows_left (tch t) else [].

Definition tuple_rows (t : pq_work_tuple E) : list (list Z) := leftover t ++ cursor_rows t.

Record tuple_ok (t : pq_work_tuple E) : Prop := {
  to_buffer : buffer_ok t;
  to_good : Forall good (cursor_rows t);
  to_none : fetched_num t = 0 -> cursor_rows t = [];
  to_some : fetched_num t <> 0 -> cursor_valid (tch t) = true }.

Definition fetching_ok (need_new_range : bool) (t : pq_work_tuple E) : Prop :=
  tuple_ok t /\ leftover t = [] /\ (need_new_range = true -> fetched_num t = 0).

Lemma convert_prefetch_buffer_ok t :
  tuple_ok t ->
  exists t' done,
    convert_prefetch_buffer_to_mysql conv m_row_len t = Some (t', map row_of done) /\
    tuple_rows t = done ++ tuple_rows t' /\ tuple_ok t' /\ fetched_num t' = fetched_num t /\
    (leftover t <> [] -> done <> []) /\ Z.of_nat (length done) * m_row_len <= BIG_RECORD_SIZE.
Proof.
  intros [Hb Hg Hn Hs].
  assert (Hf : fetched_num t <= MAX_BATCH_FETCH_NUM) by apply (bo_index t Hb).
  destruct (convert_loop_ok conv row_of m_row_len good_conv row_len_ok (leftover t) t [] Hb eq_refl) as (t' & d & Hc & Hl & Hb' & Ht & Hf' & Hd & Hz).
  { simpl. lia. }
  exists t', d. unfold convert_prefetch_buffer_to_mysql. rewrite <- leftover_length by done.
  rewrite Hc. split_and!; try done.
  - unfold tuple_rows, cursor_rows. by rewrite Hl, Ht, (assoc_L (++)).
  - unfold cursor_rows in *. split; unfold cursor_rows; rewrite ?Ht, ?Hf'; done.
  - cbn [app] in Hz. by rewrite length_map in Hz.
Qed.

(** ** A pass of the loop *)

Definition ranges_occ (x : list Z) (ranges : list scan_range) : nat :=
  total (fun r => occ x (range_rows r)) ranges.

Lemma prepare_work_tuple_ok ranges need t :
  fetching_ok need t ->
  (ranges = [] /\ prepare_work_tuple ranges need t = (false, [], t) /\ fetched_num t = 0) \/
  exists ranges' t', prepare_work_tuple ranges need t = (true, ranges', t') /\
    cursor_valid (tch t') = true /\ (exists e, t' = set_tch e t) /\ Forall good (cursor_rows t') /\
    (forall x, occ x (cursor_rows t) + ranges_occ x ranges
       = occ x (cursor_rows t') + ranges_occ x ranges')%nat /\
    (length ranges' + (if need then 1 else 0) <= length ranges)%nat.
Proof.
  intros ([Hb Hg Hn Hs] & Hl & Hneed). unfold prepare_work_tuple.
  assert (Hcur : (cursor_valid (tch t) && negb need) = false -> fetched_num t = 0).
  { intros H. destruct need; [by apply Hneed|]. rewrite andb_true_r in H.
    destruct (decide (fetched_num t = 0)); [done|]. rewrite Hs in H by done. done. }
  destruct (cursor_valid (tch t) && negb need) eqn:Hv.
  - right. exists ranges, t. zb. destruct need; [done|]. split_and!; try done; try lia.
    exists (tch t). by destruct t.
  - specialize (Hcur eq_refl). destruct ranges as [|r ranges]; [by left|]. right. cbn [fetch_range].
    destruct (rnd_end_ok (tch t)) as [e1 ->]. rewrite decide_False by tauto.
    destruct (rnd_init_ok (sr_part r) e1) as [e2 He2]. rewrite He2, decide_False by tauto.
    destruct (set_cursor_range_ok r e1 e2 _ He2) as (e3 & -> & Hv3 & Hr3).
    exists ranges, (set_tch e3 t). rewrite bool_decide_eq_true_2 by done.
    assert (Hc : cursor_rows (set_tch e3 t) = range_rows r).
    { unfold cursor_rows. cbn. by rewrite Hv3. }
    rewrite Hc, (Hn Hcur). split_and!; try done; [by eexists| |destruct need; cbn; lia].
    apply Forall_forall. intros x Hx. exists r. by apply list_elem_of_In.
Qed.

Lemma store_batch_ok rows (t : pq_work_tuple E) :
  buffer_ok t -> Forall good rows ->
  Z.of_nat (length rows) <= MAX_BATCH_FETCH_NUM -> Z.of_nat (length (concat rows)) <= BIG_RECORD_SIZE ->
  exists t', store_batch CT_SUCCESS rows t = Some t' /\ tch t' = tch t /\
    fetched_num t' = Z.of_nat (length rows) /\
    buffer_ok (set_position 0 0 t') /\ leftover (set_position 0 0 t') = rows /\
    (rows = [] -> buffer_ok t' /\ leftover t' = []).
Proof.
  intros [Hbuf Hlens Hidx _] Hg Hn Hz. unfold store_batch. rewrite decide_False by tauto.
  destruct (Prefetch.copy_ok (concat rows) (prefetch_buf t)) as (buf & -> & Hlb & rest & Hbr); [lia|].
  destruct (Prefetch.copy_ok (map (fun r => Z.of_nat (length r)) rows) (record_lens t))
    as (lens & -> & Hll & rest' & Hlr); [rewrite length_map; lia|].
  cbn [mbind option_bind]. eexists. split; [reflexivity|]. cbn.
  assert (Hbat : take (Z.to_nat (Z.of_nat (length rows) - 0)) (drop (Z.to_nat 0) lens)
                 = map (fun r => Z.of_nat (length r)) rows).
  { rewrite Z.sub_0_r, Nat2Z.id, Hlr. cbn [drop].
    rewrite <- (length_map (fun r => Z.of_nat (length r)) rows). apply take_app_length. }
  split_and!; try done.
  - split; cbn; try lia. exists rows, rest. by split_and!.
  - apply (leftover_batch _ _ rest); cbn; done.
  - intros ->. assert (Hz0 : Z.to_nat (0 - current_entry_index t) = 0%nat) by lia. split.
    + split; cbn [prefetch_buf record_lens current_offset current_entry_index fetched_num length]; try lia. change (Z.of_nat 0) with 0. rewrite Hz0. by exists [], (drop (Z.to_nat (current_offset t)) buf).
    + unfold leftover. cbn [fetched_num current_entry_index length]. change (Z.of_nat 0) with 0. by rewrite Hz0.
Qed.

(** What a pass does, in all cases *)
Lemma fetch_pass_ok ranges need t :
  fetching_ok need t ->
  exists ranges' r, fetch_pass m_cantian_rec_len ranges need t = Some (ranges', r) /\
    (forall x, occ x (tuple_rows t) + ranges_occ x ranges
       = occ x (tuple_rows (match r with inl t' | inr t' => t' end)) + ranges_occ x ranges')%nat /\
    match r with
    | inl t' => fetching_ok true t' /\ (length ranges' + (if need then 1 else 0) <= length ranges)%nat
    | inr t' => tuple_ok t' /\ (leftover t' = [] -> ranges' = [] /\ fetched_num t' = 0) /\
        (length ranges' <= length ranges)%nat
    end.
Proof.
  intros Hfo. pose proof Hfo as ([Hb Hg Hn Hs] & Hl & Hneed). unfold fetch_pass.
  destruct (prepare_work_tuple_ok ranges need t Hfo)
    as [(-> & -> & Hf0)|(ranges' & t' & -> & Hv & (e & ->) & Hg' & Hocc & Hlen)]; cbn [negb].
  { exists [], (inr t). split_and!; done. }
  cbn in Hv. destruct (rnd_prefetch_ok m_cantian_rec_len e Hv)
    as (rows & e' & Hp & Hrows & Hnil & Hv' & Hn100 & Hbytes).
  cbn [tch set_tch]. rewrite Hp. unfold cursor_rows in Hg'. cbn in Hg'. rewrite Hv in Hg'.
  assert (Hgr : Forall good rows /\ Forall good (rows_left e')) by (rewrite Hrows in Hg'; by apply Forall_app).
  destruct Hgr as [Hgr Hge].
  destruct (store_batch_ok rows (set_tch e' (set_tch e t))) as (t' & -> & Ht & Hf & Hb' & Hl' & Hnil'); try done.
  { destruct Hb. by split. }
  cbn [mbind option_bind]. cbn in Ht.
  assert (Hcur : forall p q, cursor_rows (set_position p q t') = rows_left e').
  { intros p q. unfold cursor_rows. cbn. by rewrite Ht, Hv'. }
  assert (Hcur' : cursor_rows t' = rows_left e') by (unfold cursor_rows; by rewrite Ht, Hv').
  assert (Hocc' : forall x, (occ x (tuple_rows t) + ranges_occ x ranges
            = occ x rows + occ x (rows_left e') + ranges_occ x ranges')%nat).
  { intros x. unfold tuple_rows. rewrite Hl. cbn [app]. rewrite Hocc. f_equal.
    unfold cursor_rows at 1. cbn. rewrite Hv, Hrows. apply occ_app. }
  rewrite bool_decide_eq_true_2, andb_true_r by done. destruct (Z.eqb_spec (fetched_num t') 0) as [Hf0|Hf0].
  - assert (rows = []) as -> by (apply nil_length_inv; lia).
    assert (Hre : rows_left e' = []) by (rewrite <- (Hnil eq_refl); symmetry; exact Hrows).
    destruct (Hnil' eq_refl) as [Hbt Hlt]. exists ranges', (inl t'). split; [done|]. split.
    + intros x. rewrite Hocc'. unfold tuple_rows. by rewrite Hlt, Hcur'.
    + split; [|done]. split; [|done].
      split; rewrite ?Hcur', ?Hre; done.
  - exists ranges', (inr (set_position 0 0 t')). split; [done|]. split.
    + intros x. rewrite Hocc'. unfold tuple_rows. by rewrite Hl', Hcur, occ_app.
    + split; [|split; [|lia]].
      * split; rewrite ?Hcur; try done. intros _. cbn. by rewrite Ht.
      * rewrite Hl'. intros ->. cbn in *. lia.
Qed.

(** ** The threads together *)

Definition p_call (p : phase E) : option (call E) :=
  match p with Fetching c _ | Fetched c => Some c | _ => None end.
Definition p_buf (p : phase E) : list Z :=
  match p with Fetching c _ | Fetched c => [c_buf c] | Holding b | Empty b => [b] | _ => [] end.
Definition call_rows (p : phase E) : list (list Z) :=
  match p_call p with Some c => tuple_rows (c_tuple c) | None => [] end.
Definition idle_rows (t : pq_work_tuple E) : list (list Z) := if in_use t then [] else tuple_rows t.

Definition calls (p : phase E) : nat := match p_call p with Some _ => 1 | None => 0 end.
Definition owns (j : nat) (p : phase E) : nat :=
  match p_call p with Some c => Nat.b2n (c_index c =? j)%nat | None => 0 end.
Definition waits (p : phase E) : nat := match p with Idle | Holding _ => 1 | _ => 0 end.
Definition empties (p : phase E) : nat := match p with Empty _ => 1 | _ => 0 end.
Definition live (p : phase E) : nat := match p with Done => 0 | _ => 1 end.
Definition used (t : pq_work_tuple E) : nat := Nat.b2n (in_use t).
Definition ready (t : pq_work_tuple E) : nat := Nat.b2n (started t).

Definition phase_ok (n : nat) (ranges : list scan_range) (p : phase E) : Prop :=
  match p with
  | Fetching c need => (c_index c < n)%nat /\ fetching_ok need (c_tuple c)
  | Fetched c => (c_index c < n)%nat /\ tuple_ok (c_tuple c) /\
      (leftover (c_tuple c) = [] -> ranges = [] /\ fetched_num (c_tuple c) = 0)
  | Empty _ => ranges = []
  | _ => True
  end.

(** [n] workers, the buffers [bufs], the rows [all] of the ranges; threads that
    wait are enough for the tuples with rows left. *)
Record system_ok (n : nat) (bufs : list Z) (all : list (list Z)) (s : system R E) : Prop := {
  so_tuples_len : length (m_work_tuples (shared s)) = n;
  so_bufs_len : length (m_my_buf_for_read (shared s)) = n;
  so_tuples : forall j t, m_work_tuples (shared s) !! j = Some t -> in_use t = false -> tuple_ok t;
  so_threads : Forall (phase_ok n (m_paral_range (shared s))) (threads s);
  so_owner : forall j t, m_work_tuples (shared s) !! j = Some t -> used t = total (owns j) (threads s);
  so_calls : total calls (threads s) = total used (m_work_tuples (shared s));
  so_count : m_buf_for_read_count (shared s) + 1
      + Z.of_nat (total (fun p => length (p_buf p)) (threads s)) = Z.of_nat n;
  so_bufs : -1 <= m_buf_for_read_count (shared s) /\ forall b,
      (occ b (take (Z.to_nat (m_buf_for_read_count (shared s) + 1)) (m_my_buf_for_read (shared s)))
       + total (fun p => occ b (p_buf p)) (threads s) = occ b bufs)%nat;
  so_ready : (total ready (m_work_tuples (shared s)) <= total waits (threads s))%nat;
  so_free : (total ready (m_work_tuples (shared s)) + total used (m_work_tuples (shared s))
      + total empties (threads s) <= n)%nat;
  so_live : m_paral_range (shared s) = [] \/ (0 < total live (threads s))%nat;
  so_rows : exists dl, delivered s = map row_of dl /\ forall x,
      (occ x dl + total (fun t => occ x (idle_rows t)) (m_work_tuples (shared s))
       + total (fun p => occ x (call_rows p)) (threads s)
       + ranges_occ x (m_paral_range (shared s)) = occ x all)%nat }.

(** The sums after a change of thread [i] *)
Ltac thread_sums H q :=
  pose proof (total_insert calls _ _ _ q H) as Tcalls;
  pose proof (total_insert (fun p => length (p_buf p)) _ _ _ q H) as Tbuf;
  pose proof (total_insert waits _ _ _ q H) as Twaits;
  pose proof (total_insert empties _ _ _ q H) as Tempties;
  pose proof (total_insert live _ _ _ q H) as Tlive; pose proof (total_ge live _ _ _ H) as Glive;
  assert (Towns : forall j, _) by exact (fun j => total_insert (owns j) _ _ _ q H);
  assert (Thold : forall b, _) by exact (fun b => total_insert (fun p => occ b (p_buf p)) _ _ _ q H);
  assert (Trows : forall x, _) by exact (fun x => total_insert (fun p => occ x (call_rows p)) _ _ _ q H);
  cbn [calls owns call_rows p_call p_buf waits empties live length c_index c_tuple c_buf]
    in Tcalls, Tbuf, Twaits, Tempties, Tlive, Glive, Towns, Thold, Trows.

Lemma phase_ok_ranges n ranges ranges' p :
  (length ranges' <= length ranges)%nat -> phase_ok n ranges p -> phase_ok n ranges' p.
Proof.
  assert (H0 : (length ranges' <= length ranges)%nat -> ranges = [] -> ranges' = []).
  { intros H ->. destruct ranges'; [done|simpl in H; lia]. }
  intros H. specialize (H0 H). destruct p; cbn [phase_ok]; tauto.
Qed.

(** The ranges become fewer, the other members stay. *)
Lemma threads_ok_ranges n (s : system R E) i p ranges :
  Forall (phase_ok n (m_paral_range (shared s))) (threads s) ->
  (length ranges <= length (m_paral_range (shared s)))%nat -> phase_ok n ranges p ->
  Forall (phase_ok n ranges) (<[i := p]> (threads s)).
Proof.
  intros H Hl Hp. apply Forall_insert; [|done].
  revert H. apply Forall_impl. intros q. by apply phase_ok_ranges.
Qed.

Lemma fetching_step_ok n bufs all s i c need :
  system_ok n bufs all s -> threads s !! i = Some (Fetching c need) ->
  exists s', system_step conv m_row_len m_cantian_rec_len i s = Some s' /\ system_ok n bufs all s'.
Proof.
  intros [] Hi.
  destruct (proj1 (Forall_lookup _ _) so_threads0 i _ Hi) as [Hc Hf].
  destruct (fetch_pass_ok (m_paral_range (shared s)) need (c_tuple c) Hf) as (rs & r & Hp & Hocc & Hr).
  unfold system_step. rewrite Hi. cbn [mbind option_bind thread_step]. rewrite Hp. cbn [mbind option_bind].
  eexists. split; [reflexivity|].
  destruct so_rows0 as (dl & Hdl & Hrows).
  destruct r as [t|t]; [destruct Hr as (Hok & Hlen)|destruct Hr as (Hok & Hdone & Hlen)].
  all: lazymatch goal with H : @lookup _ _ _ _ _ (threads _) = _ |- context [@insert _ _ _ _ _ ?q (threads _)] =>
         thread_sums H q end.
  all: split; cbn [threads shared delivered set_ranges m_work_tuples m_my_buf_for_read
                   m_buf_for_read_count m_paral_range]; try done; try lia.
  all: try (apply threads_ok_ranges; [done|lia|cbn; tauto]).
  all: try (intros j u Hu; specialize (Towns j); rewrite (so_owner0 j u Hu); lia).
  all: try (split; [lia|]; intros b; specialize (Thold b); destruct so_bufs0 as [_ Hb]; specialize (Hb b); lia).
  all: try (right; lia).
  all: exists dl; rewrite app_nil_r; split; [done|]; intros x; specialize (Hrows x); specialize (Trows x);
    specialize (Hocc x); cbn in Hocc; lia.
Qed.

(** The sums after a change of a tuple *)
Ltac tuple_sums H q :=
  pose proof (total_insert used _ _ _ q H) as Uused;
  pose proof (total_insert ready _ _ _ q H) as Uready;
  assert (Urows : forall x, _) by exact (fun x => total_insert (fun t => occ x (idle_rows t)) _ _ _ q H).

Lemma in_use_sums t : in_use t = true -> used t = 1%nat /\ ready t = 0%nat /\ idle_rows t = [].
Proof. intros H. unfold used, ready, idle_rows, started. by rewrite H, andb_false_r. Qed.

Lemma idle_sums t : in_use t = false -> used t = 0%nat /\ idle_rows t = tuple_rows t.
Proof. intros H. unfold used, idle_rows. by rewrite H. Qed.

Lemma tuple_ok_set_in_use b t : tuple_ok t -> tuple_ok (set_in_use b t).
Proof. intros [[] ? ? ?]. by split. Qed.

(** The tuple of a call is in use, by this call only. *)
Lemma owned_tuple n bufs all s i c p :
  system_ok n bufs all s -> threads s !! i = Some p -> p_call p = Some c ->
  phase_ok n (m_paral_range (shared s)) p ->
  exists t, m_work_tuples (shared s) !! c_index c = Some t /\ in_use t = true /\
    total (owns (c_index c)) (threads s) = 1%nat.
Proof.
  intros [] Hi Hc Hp. assert (Hlt : (c_index c < n)%nat).
  { destruct p; try done; injection Hc as ->; apply Hp. }
  destruct (lookup_lt_is_Some_2 (m_work_tuples (shared s)) (c_index c)) as [t Ht]; [lia|].
  exists t. pose proof (so_owner0 _ _ Ht) as Hu.
  pose proof (total_ge (owns (c_index c)) _ _ _ Hi) as Hge. unfold owns at 1 in Hge.
  rewrite Hc, Nat.eqb_refl in Hge. unfold used in Hu. destruct (in_use t); cbn in Hu, Hge; split_and!; done || lia.
Qed.

Lemma tuple_ok_ready t : tuple_ok t -> started t = negb (fetched_num t =? 0) && negb (in_use t).
Proof.
  intros [_ _ _ Hs]. unfold started. destruct (Z.eqb_spec (fetched_num t) 0); cbn.
  - by rewrite andb_false_r.
  - by rewrite Hs.
Qed.

Lemma fetched_step_ok n bufs all s i c :
  system_ok n bufs all s -> threads s !! i = Some (Fetched c) ->
  exists s', system_step conv m_row_len m_cantian_rec_len i s = Some s' /\ system_ok n bufs all s'.
Proof.
  intros Hs Hi. pose proof Hs as [].
  pose proof (proj1 (Forall_lookup _ _) so_threads0 i _ Hi) as Hph. pose proof Hph as (Hc & Hok & Hend).
  destruct (owned_tuple n bufs all s i c _ Hs Hi eq_refl Hph) as (u & Hu & Huse & Hown).
  destruct (convert_prefetch_buffer_ok (c_tuple c) Hok) as (t & dn & Hconv & Hsplit & Ht & Hf & Hdn & Hsz).
  unfold system_step. rewrite Hi. cbn [mbind option_bind thread_step]. unfold end_call. rewrite Hconv.
  cbn [mbind option_bind].
  assert ((length (m_work_tuples (shared s)) <=? c_index c)%nat = false) as -> by (apply Nat.leb_gt; lia).
  cbn [mbind option_bind]. eexists. split; [reflexivity|].
  destruct so_rows0 as (dl & Hdl & Hrows).
  set (q := match map row_of dn with [] => _ | _ => _ end).
  assert (Hq : (dn = [] /\ q = Empty (c_buf c) /\ m_paral_range (shared s) = [] /\ fetched_num t = 0)
               \/ q = Holding (c_buf c)).
  { subst q. destruct dn; [left|by right]. destruct (leftover (c_tuple c)); [|by destruct Hdn].
    rewrite Hf. tauto. }
  assert (Hqs : calls q = 0%nat /\ (forall j, owns j q = 0%nat) /\ call_rows q = [] /\
    p_buf q = [c_buf c] /\ live q = 1%nat /\
    phase_ok n (m_paral_range (shared s)) q /\ (ready (set_in_use false t) <= waits q)%nat /\
    (waits q + empties q = 1)%nat).
  { unfold ready. rewrite tuple_ok_ready by by apply tuple_ok_set_in_use.
    destruct Hq as [(-> & -> & Hr & Hf0)| ->]; cbn; [rewrite Hf0; done|].
    destruct (fetched_num t =? 0); cbn; split_and!; done || lia. }
  destruct Hqs as (Q1 & Q1' & Q1'' & Q2 & Q3 & Q4 & Q5 & Q6). clearbody q.
  thread_sums Hi q. tuple_sums Hu (set_in_use false t).
  destruct (in_use_sums u Huse) as (V1 & V2 & V3). destruct (idle_sums (set_in_use false t) eq_refl) as (W1 & W2).
  rewrite ?Q2 in *. cbn [length] in Tbuf.
  split; cbn [threads shared delivered set_tuples m_work_tuples m_my_buf_for_read
                   m_buf_for_read_count m_paral_range]; try done; try lia.
  - by rewrite length_insert.
  - intros j v Hj Hv. destruct (decide (j = c_index c)) as [->|Hne].
    + rewrite list_lookup_insert_eq in Hj by lia. injection Hj as <-. by apply tuple_ok_set_in_use.
    + rewrite list_lookup_insert_ne in Hj by done. by apply (so_tuples0 j).
  - by apply threads_ok_ranges.
  - intros j v Hj. specialize (Towns j). rewrite Q1' in Towns.
    destruct (decide (j = c_index c)) as [->|Hne].
    + rewrite list_lookup_insert_eq in Hj by lia. injection Hj as <-. cbn.
      rewrite Nat.eqb_refl in Towns. cbn in Towns. lia.
    + rewrite list_lookup_insert_ne in Hj by done. rewrite (so_owner0 j v Hj).
      rewrite (proj2 (Nat.eqb_neq (c_index c) j)) in Towns by done. cbn in Towns. lia.
  - split; [lia|]. intros b. specialize (Thold b). destruct so_bufs0 as [_ Hb]. specialize (Hb b). lia.
  - exists (dl ++ dn). split; [by rewrite Hdl, map_app|]. intros x. specialize (Hrows x).
    specialize (Trows x). specialize (Urows x). cbn beta in Urows. rewrite Q1'' in Trows. rewrite V3, W2 in Urows.
    change (tuple_rows (set_in_use false t)) with (tuple_rows t) in Urows.
    assert (Z0 : occ x [] = 0%nat) by done.
    apply (f_equal (occ x)) in Hsplit. rewrite occ_app in Hsplit. rewrite occ_app. lia.
Qed.

Lemma reset_tuples_ok (bufs : list Z) k buf b :
  (k < length bufs)%nat ->
  occ b (take (S k) (<[k := buf]> bufs)) = (occ b (take k bufs) + occ b [buf])%nat.
Proof.
  intros H. rewrite (occ_take_S _ _ _ buf) by by apply list_lookup_insert_eq.
  by rewrite take_insert_ge.
Qed.

Lemma reset_step_ok n bufs all s i (p : phase E) buf (q : phase E) :
  system_ok n bufs all s -> threads s !! i = Some p ->
  (p = Holding buf /\ q = Idle) \/ (p = Empty buf /\ q = Done) ->
  exists s', system_step conv m_row_len m_cantian_rec_len i s = Some s' /\ system_ok n bufs all s'.
Proof.
  intros [] Hi Hpq.
  pose proof (proj1 (Forall_lookup _ _) so_threads0 i _ Hi) as Hph.
  assert (Hb1 : p_buf p = [buf]) by (by destruct Hpq as [[-> ->]|[-> ->]]).
  pose proof (total_ge (fun p => length (p_buf p)) _ _ _ Hi) as Hge. cbn beta in Hge. rewrite Hb1 in Hge.
  cbn [length] in Hge. destruct so_bufs0 as [Hcnt Hbufs].
  set (k := m_buf_for_read_count (shared s) + 1) in *.
  assert (Hreset : reset_data_frame buf (shared s)
    = Some (set_bufs (<[Z.to_nat k := buf]> (m_my_buf_for_read (shared s))) k (shared s))).
  { unfold reset_data_frame. fold k.
    replace (_ || _) with false by (symmetry; apply orb_false_iff; split; zb; lia). done. }
  exists (mk_system (<[i := q]> (threads s))
    (set_bufs (<[Z.to_nat k := buf]> (m_my_buf_for_read (shared s))) k (shared s)) (delivered s)).
  split.
  { unfold system_step. rewrite Hi. cbn [mbind option_bind].
    destruct Hpq as [[-> ->]|[-> ->]]; cbn [thread_step]; rewrite Hreset; cbn [mbind option_bind];
      by rewrite app_nil_r. }
  assert (Hqs : calls p = calls q /\ (forall j, owns j p = owns j q) /\ call_rows p = call_rows q /\
    p_buf q = [] /\ waits p = waits q /\ (empties q <= empties p)%nat /\
    (m_paral_range (shared s) = [] \/ live p = live q) /\ phase_ok n (m_paral_range (shared s)) q).
  { destruct Hpq as [[-> ->]|[-> ->]]; cbn; split_and!; try done; auto; lia. }
  destruct Hqs as (Q1 & Q2 & Q3 & Q4 & Q5 & Q6 & Q7 & Q8). clear Hpq Hph. thread_sums Hi q.
  rewrite Hb1, Q4 in *. cbn [length] in Tbuf.
  split; cbn [threads shared delivered set_bufs m_work_tuples m_my_buf_for_read
                   m_buf_for_read_count m_paral_range]; try done; try lia.
  - by rewrite length_insert.
  - by apply threads_ok_ranges.
  - intros j t Hj. rewrite (so_owner0 j t Hj). specialize (Towns j). rewrite Q2 in Towns. lia.
  - split; [lia|]. intros b. specialize (Hbufs b). specialize (Thold b).
    replace (Z.to_nat (k + 1)) with (S (Z.to_nat k)) by lia. rewrite reset_tuples_ok by lia.
    change (occ b []) with 0%nat in Thold. lia.
  - destruct Q7 as [H7|H7]; [by left|]. destruct so_live0; [by left|right; lia].
  - destruct so_rows0 as (dl & Hdl & Hrows). exists dl. split; [done|]. intros x.
    specialize (Hrows x). specialize (Trows x). rewrite Q3 in Trows. lia.
Qed.

(** Which tuple a call gets *)
Lemma get_work_tuple_spec (l : list (pq_work_tuple E)) :
  match get_work_tuple l with
  | Some i => exists t, l !! i = Some t /\ in_use t = false /\ ((0 < total ready l)%nat -> ready t = 1%nat)
  | None => total used l = length l /\ total ready l = 0%nat
  end.
Proof.
  unfold get_work_tuple. destruct (list_find (fun t => started t = true) l) as [[i t]|] eqn:Hs.
  - apply list_find_Some in Hs as (Hi & Ht & _). exists t. split; [done|].
    unfold ready. rewrite Ht. split; [|done]. unfold started in Ht. destruct (in_use t); [|done].
    by rewrite andb_false_r in Ht.
  - apply list_find_None in Hs. assert (Hr : total ready l = 0%nat).
    { apply total_zero. revert Hs. apply Forall_impl. intros t Ht. unfold ready.
      by destruct (started t). }
    destruct (list_find (fun t => in_use t = false) l) as [[i t]|] eqn:Hf; cbn [option_map fst].
    + apply list_find_Some in Hf as (Hi & Ht & _). exists t. split_and!; try done. lia.
    + apply list_find_None in Hf. split; [|done]. clear Hr Hs.
      induction Hf as [|t l Ht _ IH]; [done|]. cbn. rewrite IH. unfold used. by destruct (in_use t).
Qed.

(** A thread with a buffer is in a call, holds rows, or is about to give it back. *)
Definition idles (p : phase E) : nat := match p with Idle => 1 | _ => 0 end.

Lemma buffers_held (l : list (phase E)) :
  (total (fun p => length (p_buf p)) l + total idles l = total calls l + total waits l + total empties l)%nat /\
  (total (fun p => length (p_buf p)) l + total idles l <= total live l)%nat /\
  (total idles l <= total waits l)%nat.
Proof. induction l as [|p l (IH1 & IH2 & IH3)]; [done|]. destruct p; cbn in *; lia. Qed.

(** No buffer or no tuple: the thread is told that there are no more rows; what
    is left belongs to others. *)
Lemma idle_done_ok n bufs all s i :
  system_ok n bufs all s -> threads s !! i = Some Idle -> (1 <= n)%nat ->
  m_buf_for_read_count (shared s) < 0 \/
    (total used (m_work_tuples (shared s)) = n /\ total ready (m_work_tuples (shared s)) = 0%nat) ->
  system_ok n bufs all (mk_system (<[i := Done]> (threads s)) (shared s) (delivered s ++ [])).
Proof.
  intros [] Hi Hn Hno. destruct (buffers_held (threads s)) as (B1 & B2 & B3).
  pose proof (total_ge idles _ _ _ Hi) as Gidle. cbn in Gidle.
  thread_sums Hi (Done : phase E).
  split; cbn [threads shared delivered]; try done; try lia.
  - by apply threads_ok_ranges.
  - intros j t Hj. rewrite (so_owner0 j t Hj). specialize (Towns j). lia.
  - split; [lia|]. intros b. specialize (Thold b). destruct so_bufs0 as [_ Hb]. specialize (Hb b). lia.
  - destruct so_rows0 as (dl & Hdl & Hrows). exists dl. rewrite app_nil_r. split; [done|].
    intros x. specialize (Hrows x). specialize (Trows x). lia.
Qed.

Lemma idle_step_ok n bufs all s i :
  system_ok n bufs all s -> threads s !! i = Some Idle -> (1 <= n)%nat ->
  exists s', system_step conv m_row_len m_cantian_rec_len i s = Some s' /\ system_ok n bufs all s'.
Proof.
  intros Hs Hi Hn. pose proof (idle_done_ok n bufs all s i Hs Hi Hn) as Hdone. pose proof Hs as [].
  unfold system_step. rewrite Hi. cbn [mbind option_bind thread_step]. unfold begin_call.
  destruct (Z.ltb_spec (m_buf_for_read_count (shared s)) 0) as [Hneg|Hpos].
  { eexists. split; [reflexivity|]. apply Hdone. by left. }
  pose proof (get_work_tuple_spec (m_work_tuples (shared s))) as Hget.
  destruct (get_work_tuple (m_work_tuples (shared s))) as [j|].
  2:{ eexists. split; [reflexivity|]. apply Hdone. right. rewrite so_tuples_len0 in Hget. done. }
  clear Hdone. destruct Hget as (t & Hj & Hidle & Hready). rewrite Hj. cbn [mbind option_bind].
  set (k := m_buf_for_read_count (shared s)) in *.
  destruct (lookup_lt_is_Some_2 (m_my_buf_for_read (shared s)) (Z.to_nat k)) as [buf Hbuf]; [lia|].
  rewrite Hbuf. cbn [mbind option_bind].
  eexists. split; [reflexivity|].
  set (c := mk_call j (set_in_use true t) buf). set (q := if _ || _ then _ else _).
  pose proof (so_tuples0 j t Hj Hidle) as Ht.
  assert (Hqs : p_call q = Some c /\ p_buf q = [buf] /\ waits q = 0%nat /\ empties q = 0%nat /\
    live q = 1%nat /\ phase_ok n (m_paral_range (shared s)) q).
  { pose proof (tuple_ok_set_in_use true t Ht) as Ht'. pose proof (to_buffer _ Ht') as Hb'.
    pose proof (leftover_nil _ Hb') as Hl. apply lookup_lt_Some in Hj.
    subst q. destruct (_ || _); cbn; split_and!; try done; try lia.
    - split_and!; try done. by apply Hl.
    - intros Hl'. apply Hl in Hl'. done. }
  destruct Hqs as (Q1 & Q2 & Q3 & Q4 & Q5 & Q6). clearbody q.
  thread_sums Hi q. tuple_sums Hj (set_in_use true t).
  destruct (in_use_sums (set_in_use true t) eq_refl) as (V1 & V2 & V3).
  destruct (idle_sums t Hidle) as (W1 & W2). destruct (buffers_held (threads s)) as (B1 & B2 & B3).
  assert (Qc : calls q = 1%nat) by (unfold calls; by rewrite Q1).
  assert (Qr : call_rows q = tuple_rows t) by (unfold call_rows; by rewrite Q1).
  assert (Qo : forall j', owns j' q = Nat.b2n (j =? j')%nat) by (intros j'; unfold owns; by rewrite Q1).
  rewrite ?Q2 in *. cbn [length] in Tbuf.
  pose proof (total_ge idles _ _ _ Hi) as Gidle. cbn in Gidle.
  split; cbn [threads shared delivered set_tuples set_bufs m_work_tuples m_my_buf_for_read
                   m_buf_for_read_count m_paral_range]; fold k; try done; try lia.
  - by rewrite length_insert.
  - intros j' t' Hj' Hidle'. destruct (decide (j' = j)) as [->|Hne].
    + rewrite list_lookup_insert_eq in Hj' by by eapply lookup_lt_Some. by injection Hj' as <-.
    + rewrite list_lookup_insert_ne in Hj' by done. by apply (so_tuples0 j').
  - by apply threads_ok_ranges.
  - intros j' t' Hj'. specialize (Towns j'). rewrite Qo in Towns.
    destruct (decide (j' = j)) as [->|Hne].
    + rewrite list_lookup_insert_eq in Hj' by by eapply lookup_lt_Some. injection Hj' as <-.
      rewrite Nat.eqb_refl in Towns. cbn in Towns. pose proof (so_owner0 j t Hj). lia.
    + rewrite list_lookup_insert_ne in Hj' by done. rewrite (so_owner0 j' t' Hj').
      rewrite (proj2 (Nat.eqb_neq j j')) in Towns by done. cbn in Towns. lia.
  - split; [lia|]. intros b. specialize (Thold b). destruct so_bufs0 as [_ Hb]. specialize (Hb b).
    change (occ b []) with 0%nat in Thold.
    replace (Z.to_nat (k - 1 + 1)) with (Z.to_nat k) by lia.
    replace (Z.to_nat (k + 1)) with (S (Z.to_nat k)) in Hb by lia.
    rewrite (occ_take_S _ _ _ _ Hbuf) in Hb. lia.
  - destruct so_rows0 as (dl & Hdl & Hrows). exists dl. rewrite app_nil_r. split; [done|]. intros x.
    specialize (Hrows x). specialize (Trows x). specialize (Urows x). cbn beta in Urows.
    rewrite Qr in Trows. rewrite V3, W2 in Urows. change (occ x []) with 0%nat in *. lia.
Qed.

(** ** Schedules *)

Lemma system_step_length i s s' :
  system_step conv m_row_len m_cantian_rec_len i s = Some s' -> length (threads s') = length (threads s).
Proof.
  unfold system_step. intros H. destruct (threads s !! i) as [p|]; [|done]. cbn [mbind option_bind] in H.
  destruct (thread_step _ _ _ p (shared s)) as [[[q rows] r]|]; [|done].
  injection H as <-. apply length_insert.
Qed.

Lemma done_step i s :
  threads s !! i = Some Done -> system_step conv m_row_len m_cantian_rec_len i s = Some s.
Proof.
  intros H. unfold system_step. rewrite H. cbn [mbind option_bind thread_step].
  rewrite list_insert_id, app_nil_r by done. by destruct s.
Qed.

Lemma system_step_ok n bufs all s i :
  (1 <= n)%nat -> (i < length (threads s))%nat -> system_ok n bufs all s ->
  exists s', system_step conv m_row_len m_cantian_rec_len i s = Some s' /\ system_ok n bufs all s'.
Proof.
  intros Hn Hi Hs. destruct (lookup_lt_is_Some_2 _ _ Hi) as [p Hp].
  destruct p as [|c need|c|b|b|].
  - by apply idle_step_ok.
  - by eapply fetching_step_ok.
  - by eapply fetched_step_ok.
  - eapply (reset_step_ok n bufs all s i _ b Idle); [done..|]. by left.
  - eapply (reset_step_ok n bufs all s i _ b Done); [done..|]. by right.
  - exists s. split; [by apply done_step|done].
Qed.

Lemma run_ok n bufs all schedule : forall s,
  (1 <= n)%nat -> Forall (fun i => (i < length (threads s))%nat) schedule -> system_ok n bufs all s ->
  exists s', run conv m_row_len m_cantian_rec_len schedule s = Some s' /\ system_ok n bufs all s' /\
    length (threads s') = length (threads s).
Proof.
  induction schedule as [|i schedule IH]; intros s Hn Hi Hs; [by exists s|].
  destruct (system_step_ok n bufs all s i Hn (Forall_inv Hi) Hs) as (s1 & H1 & Hs1).
  pose proof (system_step_length i s s1 H1) as Hl.
  destruct (IH s1 Hn) as (s' & H' & Hs' & Hl'); [rewrite Hl; apply (Forall_inv_tail Hi)|done|].
  exists s'. cbn [run]. rewrite H1. cbn [mbind option_bind]. by rewrite H', Hl'.
Qed.

(** The rows of the ranges, and the system before the first call *)
Definition all_rows (ranges : list scan_range) : list (list Z) := concat (map range_rows ranges).

Definition initial_system (threads : nat) (tchs : list E) (bufs memory : list Z) (ranges : list scan_range)
  : system R E :=
  mk_system (replicate threads Idle) (initialize tchs bufs memory ranges) [].

Lemma occ_concat_map {A} (f : A -> list (list Z)) (x : list Z) l :
  occ x (concat (map f l)) = total (fun y => occ x (f y)) l.
Proof. induction l as [|y l IH]; [done|]. cbn [map concat total]. by rewrite occ_app, IH. Qed.

Lemma total_replicate {A} (f : A -> nat) m x : total f (replicate m x) = (m * f x)%nat.
Proof. induction m; cbn; lia. Qed.

Definition workers_ok (tchs : list E) (bufs memory : list Z) : Prop :=
  (1 <= length tchs)%nat /\ length bufs = length tchs /\ Z.of_nat (length memory) = BIG_RECORD_SIZE /\
  Forall (fun e => cursor_valid e = false) tchs.

Lemma new_tuple_ok e memory :
  Z.of_nat (length memory) = BIG_RECORD_SIZE -> cursor_valid e = false ->
  let t := mk_tuple e memory 0 0 (replicate (Z.to_nat MAX_BATCH_FETCH_NUM) 0) 0 false in
  tuple_ok t /\ ready t = 0%nat /\ idle_rows t = [].
Proof.
  intros Hm He t. assert (Hc : cursor_rows t = []) by (unfold cursor_rows; cbn; by rewrite He).
  split_and!.
  - split; rewrite ?Hc; try done. split; cbn; try done. by exists [], memory.
  - unfold ready, started. cbn. by rewrite He.
  - unfold idle_rows, tuple_rows. cbn [in_use t]. by rewrite Hc.
Qed.

Lemma initial_ok m tchs bufs memory ranges :
  (1 <= m)%nat -> workers_ok tchs bufs memory ->
  system_ok (length tchs) bufs (all_rows ranges) (initial_system m tchs bufs memory ranges).
Proof.
  intros Hm (Hn & Hbufs & Hmem & Hcur).
  assert (Hnew : forall f : pq_work_tuple E -> nat,
    (forall e, cursor_valid e = false ->
       f (mk_tuple e memory 0 0 (replicate (Z.to_nat MAX_BATCH_FETCH_NUM) 0) 0 false) = 0%nat) ->
    total f (m_work_tuples (initialize tchs bufs memory ranges)) = 0%nat).
  { intros f Hf. apply total_zero. cbn. apply Forall_map. revert Hcur. apply Forall_impl. exact Hf. }
  assert (Hready := Hnew ready (fun e He => proj1 (proj2 (new_tuple_ok e memory Hmem He)))).
  assert (Hused := Hnew used (fun e He => eq_refl)).
  unfold initial_system.
  split; cbn [threads shared delivered]; rewrite ?total_replicate, ?Hready, ?Hused; cbn [waits empties live p_buf length].
  all: try (cbn; lia).
  - cbn. apply length_map.
  - cbn. intros j t Hj _. apply list_lookup_fmap_Some in Hj as (e & -> & He).
    apply new_tuple_ok; [done|]. apply (proj1 (Forall_lookup _ _) Hcur _ _ He).
  - by apply Forall_replicate.
  - cbn. intros j t Hj. apply list_lookup_fmap_Some in Hj as (e & -> & He). rewrite total_replicate. cbn. lia.
  - cbn. split; [lia|]. intros b. rewrite total_replicate. cbn. rewrite take_ge by lia. lia.
  - exists []. split; [done|]. intros x. rewrite total_replicate, Hnew.
    + unfold all_rows. rewrite occ_concat_map. cbn. unfold ranges_occ. lia.
    + intros e He. by rewrite (proj2 (proj2 (new_tuple_ok e memory Hmem He))).
Qed.

(** ** What the invariant gives *)

Lemma rows_accounted n bufs all s :
  system_ok n bufs all s ->
  exists dl, delivered s = map row_of dl /\
    dl ++ concat (map idle_rows (m_work_tuples (shared s))) ++ concat (map call_rows (threads s))
      ++ all_rows (m_paral_range (shared s)) ≡ₚ all.
Proof.
  intros []. destruct so_rows0 as (dl & Hdl & H). exists dl. split; [done|].
  apply occ_Permutation. intros x. rewrite <- (H x), !occ_app. unfold all_rows.
  rewrite !occ_concat_map. unfold ranges_occ. lia.
Qed.

Lemma delivered_bound n bufs all s :
  system_ok n bufs all s -> (length (delivered s) <= length all)%nat.
Proof.
  intros Hs. destruct (rows_accounted n bufs all s Hs) as (dl & -> & H).
  apply Permutation_length in H. rewrite !length_app in H. rewrite length_map. lia.
Qed.

Lemma total_all_zero {A} (f : A -> nat) l : total f l = 0%nat -> Forall (fun x => f x = 0%nat) l.
Proof. induction l as [|x l IH]; cbn; [constructor|]. intros H. constructor; [lia|]. apply IH. lia. Qed.

Lemma concat_nil {A B} (f : A -> list B) l : Forall (fun x => f x = []) l -> concat (map f l) = [].
Proof. induction 1 as [|x l Hx _ IH]; [done|]. cbn. by rewrite Hx, IH. Qed.

(** Once every thread was told that there are no more rows, all rows were
    delivered and every buffer is back. *)
Lemma all_done n bufs all s :
  system_ok n bufs all s -> Forall (fun p => p = Done) (threads s) ->
  delivered s ≡ₚ map row_of all /\ freed (Z.of_nat n) (shared s) ≡ₚ bufs.
Proof.
  intros Hs Hd. destruct (rows_accounted n bufs all s Hs) as (dl & Hdl & Hp). destruct Hs.
  assert (Hz : forall f : phase E -> nat, f Done = 0%nat -> total f (threads s) = 0%nat).
  { intros f Hf. apply total_zero. revert Hd. apply Forall_impl. by intros p ->. }
  pose proof (Hz waits eq_refl) as Zw. pose proof (Hz live eq_refl) as Zl. pose proof (Hz calls eq_refl) as Zc.
  pose proof (Hz (fun p => length (p_buf p)) eq_refl) as Zb.
  split.
  - rewrite Hdl. rewrite <- Hp.
    assert (m_paral_range (shared s) = []) as -> by (destruct so_live0; [done|lia]).
    rewrite (concat_nil call_rows), (concat_nil idle_rows), !app_nil_r; [done| |].
    + assert (Hr : Forall (fun t => ready t = 0%nat) (m_work_tuples (shared s))) by (apply total_all_zero; lia).
      assert (Hu : Forall (fun t => used t = 0%nat) (m_work_tuples (shared s))) by (apply total_all_zero; lia).
      apply Forall_lookup. intros j t Hj. pose proof (proj1 (Forall_lookup _ _) Hr j t Hj) as Hrt.
      pose proof (proj1 (Forall_lookup _ _) Hu j t Hj) as Hut. cbn beta in Hrt, Hut.
      unfold used in Hut. destruct (in_use t) eqn:Hi; [done|].
      pose proof (so_tuples0 j t Hj Hi) as Ht. unfold ready in Hrt. rewrite tuple_ok_ready, Hi in Hrt by done.
      unfold idle_rows. rewrite Hi. unfold tuple_rows. rewrite (to_none _ Ht).
      * rewrite app_nil_r. apply (leftover_nil t (to_buffer _ Ht)). destruct (fetched_num t =? 0); [|done].
        by rewrite orb_true_r.
      * destruct (Z.eqb_spec (fetched_num t) 0); done.
    + revert Hd. apply Forall_impl. by intros p ->.
  - apply occ_Permutation. intros b. destruct so_bufs0 as [_ Hb]. rewrite <- (Hb b), Hz by done.
    unfold freed. replace (m_buf_for_read_count (shared s) + 1) with (Z.of_nat n) by lia. lia.
Qed.

(** ** Progress *)

Definition rank (p : phase E) : nat :=
  match p with
  | Idle => 5 | Fetching _ false => 4 | Fetching _ true => 3 | Fetched _ => 2 | Holding _ => 6
  | Empty _ => 1 | Done => 0
  end.

(** What is left to do, when [total_rows] rows are to be delivered *)
Definition work (total_rows : nat) (s : system R E) : nat :=
  (10 * (total_rows - length (delivered s)) + length (m_paral_range (shared s)) + total rank (threads s))%nat.

Lemma work_insert total_rows s i p q ranges r rows :
  threads s !! i = Some p -> m_paral_range r = ranges ->
  (length ranges + rank q + 10 * (length (delivered s) + length rows) <
     length (m_paral_range (shared s)) + rank p + 10 * (length (delivered s) + 2 * length rows))%nat ->
  (length (delivered s ++ rows) <= total_rows)%nat ->
  (work total_rows (mk_system (<[i := q]> (threads s)) r (delivered s ++ rows)) < work total_rows s)%nat.
Proof.
  intros Hi Hr Hlt Hle. unfold work. cbn [threads shared delivered].
  pose proof (total_insert rank _ _ _ q Hi) as Ht. rewrite length_app in *. rewrite Hr. lia.
Qed.

(** A step of a thread that is not done *)
Lemma step_progress n bufs all s i p s' :
  system_ok n bufs all s -> threads s !! i = Some p -> p <> Done ->
  system_step conv m_row_len m_cantian_rec_len i s = Some s' -> system_ok n bufs all s' ->
  (work (length all) s' < work (length all) s)%nat.
Proof.
  intros Hs Hi Hp Hstep Hs'. pose proof (delivered_bound _ _ _ _ Hs') as Hle.
  pose proof (proj1 (Forall_lookup _ _) (so_threads _ _ _ _ Hs) i _ Hi) as Hph.
  unfold system_step in Hstep. rewrite Hi in Hstep. cbn [mbind option_bind] in Hstep.
  destruct (thread_step _ _ _ p (shared s)) as [[[q rows] r]|] eqn:Ht; [|done].
  cbn [mbind option_bind] in Hstep. injection Hstep as <-. cbn [delivered] in Hle.
  apply (work_insert _ s i p q (m_paral_range r)); try done.
  destruct p as [|c need|c|b|b|]; cbn [thread_step] in Ht; [| | | | |done].
  - unfold begin_call in Ht. destruct (m_buf_for_read_count (shared s) <? 0).
    { injection Ht as <- <- <-. cbn. lia. }
    destruct (get_work_tuple _) as [j|]; [|injection Ht as <- <- <-; cbn; lia].
    destruct (m_work_tuples (shared s) !! j); [|done]. cbn [mbind option_bind] in Ht.
    destruct (m_my_buf_for_read (shared s) !! _); [|done]. cbn [mbind option_bind] in Ht.
    injection Ht as <- <- <-. destruct (_ || _); cbn; lia.
  - destruct Hph as [_ Hf]. destruct (fetch_pass_ok (m_paral_range (shared s)) need _ Hf) as (rs & res & H1 & _ & H2).
    rewrite H1 in Ht. cbn [mbind option_bind] in Ht. injection Ht as <- <- <-.
    destruct res; [destruct H2 as [_ H2]|destruct H2 as (_ & _ & H2)]; destruct need; cbn; lia.
  - unfold end_call in Ht. destruct (convert_prefetch_buffer_to_mysql _ _ _) as [[t dn]|]; [|done].
    cbn [mbind option_bind] in Ht. destruct (_ <=? _)%nat; [done|]. cbn [mbind option_bind] in Ht.
    injection Ht as <- <- <-. destruct dn; cbn; lia.
  - unfold reset_data_frame in Ht. destruct (_ || _); [done|]. injection Ht as <- <- <-. cbn. lia.
  - unfold reset_data_frame in Ht. destruct (_ || _); [done|]. injection Ht as <- <- <-. cbn. lia.
Qed.

Lemma round_progress n bufs all rd : forall s s',
  (1 <= n)%nat -> Forall (fun i => (i < length (threads s))%nat) rd -> system_ok n bufs all s ->
  run conv m_row_len m_cantian_rec_len rd s = Some s' ->
  (work (length all) s' < work (length all) s)%nat \/
  (s' = s /\ Forall (fun i => threads s !! i = Some Done) rd).
Proof.
  induction rd as [|i rd IH]; intros s s' Hn Hi Hs Hrun; [injection Hrun as <-; by right|].
  destruct (system_step_ok n bufs all s i Hn (Forall_inv Hi) Hs) as (s1 & H1 & Hs1).
  cbn [run] in Hrun. rewrite H1 in Hrun. cbn [mbind option_bind] in Hrun.
  assert (Hrd : Forall (fun i => (i < length (threads s1))%nat) rd).
  { rewrite (system_step_length i s s1 H1). apply (Forall_inv_tail Hi). }
  destruct (lookup_lt_is_Some_2 _ _ (Forall_inv Hi)) as [p Hp].
  assert (Hdone : p = Done \/ p <> Done) by (destruct p; first [by left | by right]).
  destruct Hdone as [->|Hnd].
  - rewrite (done_step i s Hp) in H1. injection H1 as <-.
    destruct (IH s s' Hn Hrd Hs Hrun) as [Hlt|[-> Hd]]; [by left|]. right. split; [done|].
    by constructor.
  - left. pose proof (step_progress n bufs all s i p s1 Hs Hp Hnd H1 Hs1).
    destruct (IH s1 s' Hn Hrd Hs1 Hrun) as [?|[-> ?]]; lia.
Qed.

(** Every thread has a turn in a round. *)
Definition round (m : nat) (rd : list nat) : Prop := forall i, i ∈ rd <-> (i < m)%nat.

Lemma round_bounds m rd : round m rd -> Forall (fun i => (i < m)%nat) rd.
Proof. intros H. apply Forall_forall. intros i Hi. by apply H, list_elem_of_In. Qed.

Lemma rounds_done n bufs all rounds : forall s,
  (1 <= n)%nat -> Forall (round (length (threads s))) rounds -> system_ok n bufs all s ->
  (work (length all) s < length rounds)%nat ->
  exists s', run conv m_row_len m_cantian_rec_len (concat rounds) s = Some s' /\ system_ok n bufs all s' /\
    Forall (fun p => p = Done) (threads s').
Proof.
  assert (Hrun_app : forall l k s, run conv m_row_len m_cantian_rec_len (l ++ k) s
     = s1 ← run conv m_row_len m_cantian_rec_len l s; run conv m_row_len m_cantian_rec_len k s1).
  { induction l as [|i l IH]; intros k s; [done|]. cbn [app run].
    destruct (system_step _ _ _ i s) as [s1|]; [|done]. cbn [mbind option_bind]. apply IH. }
  induction rounds as [|rd rounds IH]; intros s Hn Hr Hs Hw; [cbn [length] in Hw; lia|].
  pose proof (round_bounds _ _ (Forall_inv Hr)) as Hb.
  destruct (run_ok n bufs all rd s Hn Hb Hs) as (s1 & H1 & Hs1 & Hl1).
  cbn [concat]. rewrite Hrun_app, H1. cbn [mbind option_bind].
  destruct (round_progress n bufs all rd s s1 Hn Hb Hs H1) as [Hlt|[-> Hd]].
  - apply IH; [done| |done|cbn [length] in Hw; lia]. rewrite Hl1. apply (Forall_inv_tail Hr).
  - assert (Hall : Forall (fun p => p = Done) (threads s)).
    { apply Forall_lookup. intros i p Hp.
      assert (Hin : i ∈ rd) by (apply (Forall_inv Hr); by eapply lookup_lt_Some).
      pose proof (proj1 (Forall_forall _ _) Hd i (proj1 (list_elem_of_In _ _) Hin)) as Hi. cbn beta in Hi.
      rewrite Hp in Hi. by injection Hi. }
    assert (Hstay : forall l, Forall (fun i => (i < length (threads s))%nat) l ->
        run conv m_row_len m_cantian_rec_len l s = Some s).
    { induction l as [|i l IHl]; [done|]. intros Hl. cbn [run].
      destruct (lookup_lt_is_Some_2 _ _ (Forall_inv Hl)) as [p Hp].
      pose proof (proj1 (Forall_lookup _ _) Hall i p Hp) as ->. rewrite (done_step i s Hp).
      cbn [mbind option_bind]. apply IHl, (Forall_inv_tail Hl). }
    exists s. split; [|done]. apply Hstay. apply Forall_concat.
    pose proof (Forall_inv_tail Hr) as Hr'. revert Hr'. apply Forall_impl. intros rd'. apply round_bounds.
Qed.

(** The rounds that are enough *)
Definition enough_rounds (m : nat) (ranges : list scan_range) : nat :=
  (10 * length (all_rows ranges) + length ranges + 5 * m + 1)%nat.

Lemma parallel_scan_ends m tchs bufs memory ranges rounds :
  (1 <= m)%nat -> workers_ok tchs bufs memory ->
  Forall (round m) rounds -> (enough_rounds m ranges <= length rounds)%nat ->
  exists s, run conv m_row_len m_cantian_rec_len (concat rounds) (initial_system m tchs bufs memory ranges) = Some s /\
    Forall (fun p => p = Done) (threads s) /\
    delivered s ≡ₚ map row_of (all_rows ranges) /\ freed (Z.of_nat (length tchs)) (shared s) ≡ₚ bufs.
Proof.
  intros Hm Hw Hr He. pose proof (initial_ok m tchs bufs memory ranges Hm Hw) as Hs.
  destruct (rounds_done (length tchs) bufs (all_rows ranges) rounds (initial_system m tchs bufs memory ranges))
    as (s & Hrun & Hok & Hd); [apply Hw| |done| |].
  - cbn [threads initial_system]. by rewrite length_replicate.
  - unfold work, initial_system. cbn [threads shared delivered length]. rewrite total_replicate.
    unfold enough_rounds in He. cbn. lia.
  - exists s. split_and!; try done; by eapply all_done.
Qed.

(** Threads that hold buffers or tuples, in any state the system reaches *)
Lemma no_sharing n bufs all s i j p q :
  NoDup bufs -> system_ok n bufs all s -> i <> j -> threads s !! i = Some p -> threads s !! j = Some q ->
  (forall b, b ∈ p_buf p -> b ∈ p_buf q -> False) /\
  (forall c d, p_call p = Some c -> p_call q = Some d -> c_index c <> c_index d).
Proof.
  intros Hnd Hs Hij Hp Hq. split.
  - intros b Hbp Hbq. destruct Hs. destruct so_bufs0 as [_ Hb]. specialize (Hb b).
    pose proof (total_ge_two (fun p => occ b (p_buf p)) _ i j _ _ Hij Hp Hq) as Hge. cbn beta in Hge.
    pose proof (occ_NoDup bufs b Hnd).
    assert (forall l : list Z, b ∈ l -> (0 < occ b l)%nat) as Hin.
    { intros l Hl. apply list_elem_of_In in Hl. by apply (count_occ_In (fun a b => decide (a = b))) in Hl. }
    pose proof (Hin _ Hbp). pose proof (Hin _ Hbq). lia.
  - intros c d Hc Hd Heq. pose proof (proj1 (Forall_lookup _ _) (so_threads _ _ _ _ Hs) i _ Hp) as Hph.
    destruct (owned_tuple n bufs all s i c p Hs Hp Hc Hph) as (t & _ & _ & Hown).
    pose proof (total_ge_two (owns (c_index c)) _ i j _ _ Hij Hp Hq) as Hge. unfold owns at 1 2 in Hge.
    rewrite Hc, Hd, <- Heq, Nat.eqb_refl in Hge. cbn in Hge. lia.
Qed.

(** ** Theorems *)

(** C7: whatever the interleaving of the threads' steps, no step leaves an
    array or fails an assertion; no two threads ever share a buffer or a
    worker's tuple; no row is delivered twice; and when every thread was told
    that there are no more rows, all rows of the ranges were delivered.  This
    is for an engine that answers no call with an error ([PqLaws]): after an
    error the code delivers the rows of the last batch again
    ([prefetch_error_repeats]) or drops a range ([prepare_error_loses_range]).
    Every worker has a buffer of its own and no cursor yet, the tables
    of the workers could be opened, and every row converts. *)
Theorem parallel_scan_safe m tchs bufs memory ranges schedule :
  (1 <= m)%nat -> workers_ok tchs bufs memory -> NoDup bufs ->
  Forall (fun i => (i < m)%nat) schedule ->
  exists s, run conv m_row_len m_cantian_rec_len schedule (initial_system m tchs bufs memory ranges) = Some s /\
    (forall i j p q, i <> j -> threads s !! i = Some p -> threads s !! j = Some q ->
       (forall b, b ∈ p_buf p -> b ∈ p_buf q -> False) /\
       (forall c d, p_call p = Some c -> p_call q = Some d -> c_index c <> c_index d)) /\
    (exists rest, delivered s ++ rest ≡ₚ map row_of (all_rows ranges)) /\
    (Forall (fun p => p = Done) (threads s) -> delivered s ≡ₚ map row_of (all_rows ranges)).
Proof.
  intros Hm Hw Hnd Hsch. pose proof (initial_ok m tchs bufs memory ranges Hm Hw) as Hs.
  destruct (run_ok (length tchs) bufs (all_rows ranges) schedule (initial_system m tchs bufs memory ranges))
    as (s & Hrun & Hok & _); [apply Hw| |done|].
  { cbn [threads initial_system]. by rewrite length_replicate. }
  exists s. split_and!; [done| | |].
  - intros i j p q Hij Hp Hq. by eapply no_sharing.
  - destruct (rows_accounted _ _ _ _ Hok) as (dl & -> & Hp). eexists.
    rewrite <- Hp. rewrite map_app. reflexivity.
  - intros Hd. by apply (all_done _ _ _ _ Hok).
Qed.

(** C6: when every thread gets its turn often enough, all calls return, every
    thread is told that there are no more rows, and by then each row of the
    ranges was delivered exactly once; [deinitialize] then frees every buffer
    once.  The engine answers no call with an error here either. *)
Theorem parallel_scan_complete m tchs bufs memory ranges rounds :
  (1 <= m)%nat -> workers_ok tchs bufs memory ->
  Forall (round m) rounds -> (enough_rounds m ranges <= length rounds)%nat ->
  exists s, run conv m_row_len m_cantian_rec_len (concat rounds) (initial_system m tchs bufs memory ranges) = Some s /\
    Forall (fun p => p = Done) (threads s) /\
    delivered s ≡ₚ map row_of (all_rows ranges) /\ freed (Z.of_nat (length tchs)) (shared s) ≡ₚ bufs.
Proof. apply parallel_scan_ends. Qed.

End Correct.

(** ** Errors of the engine *)

Section Errors.
Context {R E : Type} {PE : PqEngine E} {good : list Z -> Prop}.
Context (conv : list Z -> option R) (row_of : list Z -> R) (m_row_len m_cantian_rec_len : Z).
Hypothesis good_conv : forall x rest, good x -> conv (x ++ rest) = Some (row_of x).
Hypothesis row_len_ok : 0 < m_row_len <= BIG_RECORD_SIZE.

(** The rows of a worker's last batch were all delivered; when the next
    [ctc_rnd_prefetch] fails, [fetched_num] is that of the last batch and the
    position is set to its start: the same rows are delivered again, to the
    reader as if the scan went on. *)
Theorem prefetch_error_repeats batch ranges ret rows e t :
  buffer_of good (set_position 0 0 t) -> leftover (set_position 0 0 t) = batch -> batch <> [] ->
  cursor_valid (tch t) = true ->
  ctc_rnd_prefetch m_cantian_rec_len (tch t) = (ret, rows, e) -> ret <> CT_SUCCESS ->
  exists t1 t2 again, fetch_pass m_cantian_rec_len ranges false t = Some (ranges, inr t1) /\
    convert_prefetch_buffer_to_mysql conv m_row_len t1 = Some (t2, map row_of again) /\
    batch = again ++ leftover t2 /\ again <> [].
Proof.
  intros Hb Hl Hne Hv Hp Hret. unfold fetch_pass, prepare_work_tuple. rewrite Hv.
  cbn [andb negb]. rewrite Hp. unfold store_batch. rewrite decide_True by done.
  cbn [mbind option_bind]. rewrite (bool_decide_eq_false_2 (ret = CT_SUCCESS)), andb_false_r by done.
  set (t1 := set_position 0 0 (set_tch e t)).
  assert (Hb1 : buffer_of good t1) by (destruct Hb; by split).
  destruct (convert_loop_ok conv row_of m_row_len good_conv row_len_ok batch t1 [] Hb1 Hl)
    as (t2 & again & Hc & Hsplit & _ & _ & _ & Hd & _); [simpl; lia|].
  exists t1, t2, again. split_and!; try done; [|by apply Hd].
  unfold convert_prefetch_buffer_to_mysql.
  rewrite <- (leftover_length t1 Hb1) by apply (bo_index t1 Hb1).
  change (leftover t1) with (leftover (set_position 0 0 t)). rewrite Hl. exact Hc.
Qed.

(** An error of [ctc_rnd_init] or [ctc_pq_set_cursor_range] takes a range out
    of the list, and its rows are delivered to no one. *)
Lemma prepare_error_loses_range r ranges t e1 ret e2 :
  cursor_valid (tch t) = false -> ctc_rnd_end (tch t) = (CT_SUCCESS, e1) ->
  ctc_rnd_init (sr_part r) e1 = (ret, e2) -> ret <> CT_SUCCESS ->
  fetch_pass m_cantian_rec_len (r :: ranges) false t = Some (ranges, inr (set_tch e2 t)).
Proof.
  intros Hv He Hi Hr. unfold fetch_pass, prepare_work_tuple. rewrite Hv. cbn [andb negb fetch_range].
  rewrite He. cbn beta iota. rewrite decide_False by tauto. rewrite Hi. cbn beta iota.
  by rewrite decide_True.
Qed.

End Errors.

(** The threads that all readers use together are within the global limit, and
    a reader gives back what it took. *)
Lemma parallel_threads_bounded expected_dop dop_thd_var global_dop_var running :
  0 <= running <= global_dop_var -> 0 <= expected_dop -> 0 <= dop_thd_var ->
  let '(n, running') := acquire_parallel_thread_count_from_global expected_dop dop_thd_var global_dop_var running in
  0 <= n /\ 0 <= running' <= global_dop_var /\
  release_parallel_thread_count_back_to_global n running' = running.
Proof.
  intros Hr He Hd. unfold acquire_parallel_thread_count_from_global, release_parallel_thread_count_back_to_global.
  unfold MAX_PARALLEL_READ_THREADS. repeat case_match; zb; simplify_eq; lia.
Qed.

(** ** An engine for the examples

    A page has one row, of one byte, its number; a batch has two rows. *)

Definition demo_engine : Type := bool * list Z.

#[export] Instance demo_pq : PqEngine demo_engine := {
  cursor_valid e := fst e;
  ctc_rnd_end e := (CT_SUCCESS, (false, []));
  ctc_rnd_init p e := (CT_SUCCESS, (true, []));
  ctc_pq_set_cursor_range r e := (CT_SUCCESS, (true, seqZ (l_page r) (r_page r - l_page r)));
  ctc_rnd_prefetch n e := (CT_SUCCESS, map (fun z => [z]) (take 2 (snd e)), (fst e, drop 2 (snd e))) }.

#[export] Program Instance demo_pq_laws : PqLaws demo_engine := {
  rows_left e := map (fun z => [z]) (snd e);
  range_rows r := map (fun z => [z]) (seqZ (l_page r) (r_page r - l_page r)) }.
Next Obligation. intros e. by eexists. Qed.
Next Obligation. intros p e. by eexists. Qed.
Next Obligation. intros r e0 e p _. by eexists. Qed.
Next Obligation.
  intros n [v l] Hv. do 2 eexists. split; [reflexivity|]. cbn in *.
  assert (Hlen : forall k : list Z, length (concat (map (fun z => [z]) k)) = length k).
  { induction k as [|z k IH]; [done|]. cbn. by rewrite IH. }
  split_and!; try done.
  - by rewrite <- map_app, take_drop.
  - intros H. destruct l; [done|]. by destruct l.
  - rewrite length_map, length_take. unfold MAX_BATCH_FETCH_NUM. lia.
  - rewrite Hlen, length_take. unfold BIG_RECORD_SIZE. lia.
Qed.

Definition demo_conv (bytes : list Z) : option Z := head bytes.
Definition demo_row (x : list Z) : Z := default 0 (head x).

Lemma demo_conv_ok (r : scan_range) x rest :
  x ∈ range_rows (E := demo_engine) r -> demo_conv (x ++ rest) = Some (demo_row x).
Proof. cbn. intros H. apply list_elem_of_fmap in H as (z & -> & _). done. Qed.

Definition demo_memory : list Z := replicate (Z.to_nat BIG_RECORD_SIZE) 0.
Definition demo_ranges : list scan_range := [mk_range 1 4 (0, 0) 9 9; mk_range 10 15 (0, 0) 9 9].

Lemma demo_workers_ok : workers_ok (E := demo_engine) [(false, []); (false, [])] [100; 200] demo_memory.
Proof.
  split; [cbn; lia|]. split; [reflexivity|]. split; [|by repeat constructor].
  unfold demo_memory. rewrite length_replicate. apply Z2Nat.id. done.
Qed.

(** Three threads, two workers *)
Lemma parallel_scan_safe_witness :
  exists s, run demo_conv 8 1 [0; 1; 2; 1; 0; 0; 1; 2; 0]%nat
      (initial_system (R := Z) 3 [(false, []); (false, [])] [100; 200] demo_memory demo_ranges) = Some s /\
    exists rest, delivered s ++ rest ≡ₚ map demo_row (all_rows (E := demo_engine) demo_ranges).
Proof.
  destruct (parallel_scan_safe demo_conv demo_row 8 1 demo_conv_ok ltac:(unfold BIG_RECORD_SIZE; lia)
    3 [(false, []); (false, [])] [100; 200] demo_memory demo_ranges [0; 1; 2; 1; 0; 0; 1; 2; 0]%nat)
    as (s & Hrun & _ & Hrest & _).
  - lia.
  - apply demo_workers_ok.
  - by apply (bool_decide_unpack _).
  - repeat (constructor; [lia|]). constructor.
  - exists s. split; [exact Hrun|exact Hrest].
Defined.

Lemma parallel_scan_complete_witness :
  exists s, run demo_conv 8 1 (concat (replicate (enough_rounds (E := demo_engine) 3 demo_ranges) [0; 1; 2]%nat))
      (initial_system (R := Z) 3 [(false, []); (false, [])] [100; 200] demo_memory demo_ranges) = Some s /\
    delivered s ≡ₚ [1; 2; 3; 10; 11; 12; 13; 14].
Proof.
  destruct (parallel_scan_complete demo_conv demo_row 8 1 demo_conv_ok ltac:(unfold BIG_RECORD_SIZE; lia)
    3 [(false, []); (false, [])] [100; 200] demo_memory demo_ranges
    (replicate (enough_rounds (E := demo_engine) 3 demo_ranges) [0; 1; 2]%nat))
    as (s & Hrun & _ & Hrows & _).
  - lia.
  - apply demo_workers_ok.
  - apply Forall_replicate. intros i. rewrite !elem_of_cons, elem_of_nil. lia.
  - by rewrite length_replicate.
  - exists s. split; [exact Hrun|exact Hrows].
Defined.

(** An engine whose cursor fails after the first batch *)
Definition failing_engine : PqEngine demo_engine := {|
  cursor_valid e := fst e;
  ctc_rnd_end e := (CT_SUCCESS, e);
  ctc_rnd_init p e := (CT_SUCCESS, e);
  ctc_pq_set_cursor_range r e := (CT_SUCCESS, e);
  ctc_rnd_prefetch n e := (ERR_SNAPSHOT_TOO_OLD, [], e) |}.

(** A tuple whose batch of two rows was delivered *)
Definition demo_tuple : pq_work_tuple demo_engine :=
  mk_tuple (true, []) ([7; 8] ++ replicate (Z.to_nat (BIG_RECORD_SIZE - 2)) 0) 2 2
    ([1; 1] ++ replicate (Z.to_nat (MAX_BATCH_FETCH_NUM - 2)) 0) 2 true.

Definition demo_good (x : list Z) : Prop := length x = 1%nat.

Lemma demo_good_conv x rest : demo_good x -> demo_conv (x ++ rest) = Some (demo_row x).
Proof. by destruct x. Qed.

Lemma demo_tuple_holds :
  buffer_of demo_good (set_position 0 0 demo_tuple) /\ leftover (set_position 0 0 demo_tuple) = [[7]; [8]].
Proof.
  split; [|reflexivity]. split; cbn [set_position demo_tuple prefetch_buf record_lens current_offset
    current_entry_index fetched_num].
  - rewrite length_app, length_replicate. cbn [length]. unfold BIG_RECORD_SIZE. lia.
  - done.
  - unfold MAX_BATCH_FETCH_NUM. lia.
  - exists [[7]; [8]], (replicate (Z.to_nat (BIG_RECORD_SIZE - 2)) 0). split_and!; try done.
    by repeat constructor.
Qed.

Lemma prefetch_error_repeats_witness :
  exists t1 t2 again, fetch_pass (PE := failing_engine) 1 [] false demo_tuple = Some ([], inr t1) /\
    convert_prefetch_buffer_to_mysql demo_conv 8 t1 = Some (t2, map demo_row again) /\
    [[7]; [8]] = again ++ leftover t2 /\ again <> [].
Proof.
  apply (prefetch_error_repeats (PE := failing_engine) (good := demo_good) demo_conv demo_row 8 1 demo_good_conv
    ltac:(unfold BIG_RECORD_SIZE; lia) [[7]; [8]] [] ERR_SNAPSHOT_TOO_OLD [] (true, []) demo_tuple).
  - apply demo_tuple_holds.
  - apply demo_tuple_holds.
  - done.
  - done.
  - done.
  - done.
Defined.

(** A frame that was not given back when [deinitialize] runs: the first thread
    gave its buffer back into the slot of the other one's. *)
Definition one_frame_out : option (system Z demo_engine) :=
  run demo_conv 8 1 [0; 1; 0; 0; 1; 1; 0]%nat
    (initial_system 2 [(false, []); (false, [])] [100; 200] demo_memory demo_ranges).

Lemma deinitialize_frees_twice : option_map (fun s => freed 2 (shared s)) one_frame_out = Some [200; 200].
Proof. vm_compute. reflexivity. Qed.
End ParallelReader.
