(* ===== verification/Cbo.v ===== *)
(** * Cbo: selectivities for the optimizer

    Models [ctc_cbo.cc] and the methods of [ha_ctc.cc] that answer the
    optimizer: the histograms of the engine, the boundaries of a range taken
    from the server's key tuples, the share of the rows in the range, the
    estimates of rows and costs.

    A [double] is a [spec_float] with 53 bits, with the roundings of the
    standard; where C leaves a conversion undefined the result is [None].  A
    pointer into a key is the bytes that start there. *)

From Stdlib Require Import SpecFloat Sorted.
From S2P Require Import Prelude CalDate DecDigits FieldTypes Server Demo Numeric DateCnvrt CtcError Handler RowFormat IndexSearch.
Import DecDigits FieldTypes Server CtcError Handler.

Module Cbo.

Abbreviation KEY_PART_INFO := IndexSearch.KEY_PART_INFO.
Abbreviation key_range := IndexSearch.key_range.
Abbreviation kp_field := IndexSearch.kp_field.
Abbreviation kp_key_length := IndexSearch.kp_key_length.

Definition STATS_HISTGRAM_MAX_SIZE : Z := 254.
Definition CBO_STRING_MAX_LEN : Z := 64.
Definition OFFSET_VARCHAR_TYPE : Z := 2.

(** ** Numbers of type double *)

Abbreviation double := spec_float.
Definition dadd : double -> double -> double := SFadd 53 1024.
Definition dsub : double -> double -> double := SFsub 53 1024.
Definition dmul : double -> double -> double := SFmul 53 1024.
Definition ddiv : double -> double -> double := SFdiv 53 1024.
Definition dbl (n : Z) : double := binary_normalize 53 1024 n 0 false.
Definition dltb (a b : double) : bool := SFltb a b.
Definition d0 : double := S754_zero false.
Definition d1 : double := dbl 1.

(** The bits of a double *)
Definition double_of_bits (z : Z) : double :=
  let s := Z.testbit z 63 in
  let e := z / 2 ^ 52 mod 2 ^ 11 in
  let m := z mod 2 ^ 52 in
  if e =? 2047 then (if m =? 0 then S754_infinity s else S754_nan)
  else if e =? 0 then match m with Zpos p => S754_finite s p (-1074) | _ => S754_zero s end
  else match m + 2 ^ 52 with Zpos p => S754_finite s p (e - 1075) | _ => S754_nan end.

(** A double to an integer of 64 bits without sign: towards zero; undefined
    when the result has no place. *)
Definition to_uint64 (d : double) : option Z :=
  z ← match d with
      | S754_zero _ => Some 0
      | S754_finite s m e =>
        let n := if e >=? 0 then Z.pos m * 2 ^ e else Z.pos m / 2 ^ (- e) in
        Some (if s then - n else n)
      | _ => None
      end;
  if (0 <=? z) && (z <? 2 ^ 64) then Some z else None.

Definition DEFAULT_RANGE_DENSITY : double := S754_finite false 4503599627370496 (-53).     (* 0.5 *)
Definition PREFER_RANGE_DENSITY : double := S754_finite false 7205759403792794 (-53).      (* 0.8 *)
Definition REAL_EPSINON : double := S754_finite false 5902958103587057 (-69).              (* 0.00001 *)

(** ** Statistics *)

(** [cache_variant_t]: the eight bytes of the union, and what [v_str] points
    at. *)
Record cache_variant_t := mk_variant { v_bits : Z; v_str : list Z }.

Definition v_int (v : cache_variant_t) : Z := wrapS 32 (v_bits v).
Definition v_uint32 (v : cache_variant_t) : Z := wrapU 32 (v_bits v).
Definition v_bigint (v : cache_variant_t) : Z := wrapS 64 (v_bits v).
Definition v_ubigint (v : cache_variant_t) : Z := wrapU 64 (v_bits v).
Definition v_real (v : cache_variant_t) : double := double_of_bits (wrapU 64 (v_bits v)).
Definition v_date (v : cache_variant_t) : Z := wrapS 64 (v_bits v).
Definition v_date_bytes (v : cache_variant_t) : list Z := le_bytes 8 (v_bits v).

(** An assignment to a member of [w] bits *)
Definition put (w z : Z) (v : cache_variant_t) : cache_variant_t :=
  mk_variant (v_bits v / 2 ^ w * 2 ^ w + wrapU w z) (v_str v).

(** [strlen] bytes of a string *)
Fixpoint c_str (l : list Z) : list Z :=
  match l with [] => [] | c :: l => if c =? 0 then [] else c :: c_str l end.

Inductive ctc_cbo_hist_type_t := FREQUENCY_HIST | HEIGHT_BALANCED_HIST.

Record ctc_cbo_column_hist_t := mk_hist { ep_value : cache_variant_t; ep_number : Z }.

(** [column_hist] has [hist_count] elements here. *)
Record ctc_cbo_stats_column_t := mk_column {
  num_null : Z;
  density : double;
  hist_type : ctc_cbo_hist_type_t;
  column_hist : list ctc_cbo_column_hist_t;
  low_value : cache_variant_t;
  high_value : cache_variant_t }.

Definition hist_count (c : ctc_cbo_stats_column_t) : Z := Z.of_nat (length (column_hist c)).

Record ctc_cbo_stats_table_t := mk_stats_table {
  estimate_rows : Z;
  columns : list ctc_cbo_stats_column_t;
  blocks : Z;
  avg_row_len : Z }.

(** ** Ranges *)

Inductive ctc_cmp_type_t := CMP_TYPE_NULL | CMP_TYPE_OPEN_INTERNAL | CMP_TYPE_CLOSE_INTERNAL.
Inductive en_ctc_compare_type := GREAT | EQUAL | LESS | UNCOMPARABLE.

#[export] Instance ctc_cmp_type_eq_dec : EqDecision ctc_cmp_type_t.
Proof. solve_decision. Defined.
#[export] Instance en_ctc_compare_type_eq_dec : EqDecision en_ctc_compare_type.
Proof. solve_decision. Defined.
#[export] Instance ctc_cbo_hist_type_eq_dec : EqDecision ctc_cbo_hist_type_t.
Proof. solve_decision. Defined.

Record ctc_key := mk_ckey {
  ck_key : option (list Z);         (* a null pointer: None *)
  ck_len : Z;
  cmp_type : ctc_cmp_type_t;
  col_map : Z }.

Definition set_cmp_type (t : ctc_cmp_type_t) (k : ctc_key) : ctc_key :=
  mk_ckey (ck_key k) (ck_len k) t (col_map k).

(** [ctc_range_key]: the lower and the upper end. *)
Definition ctc_range_key : Type := ctc_key * ctc_key.

Record field_stats_val := mk_stats_val {
  min_type : ctc_cmp_type_t;
  max_type : ctc_cmp_type_t;
  max_key_val : cache_variant_t;
  min_key_val : cache_variant_t }.

(** ** The boundaries of a range *)

(** Functions of the server: decimals to double, with its status, and the
    collation of a column. *)
Class CboServer := {
  decimal2double : my_decimal -> Z * Z;                      (* status, bits *)
  strnncollsp : Field -> list Z -> list Z -> Z }.

Section Operations.
Context {M : MySQL} {CS : CboServer}.

Definition convert_enum_key_to_variant (enum_key : list Z) (variant : cache_variant_t) (cap_usage : Z)
  : option cache_variant_t :=
  if cap_usage =? 1 then b ← rd enum_key 0 1; Some (put 32 (le_val b) variant)
  else if cap_usage =? 2 then b ← rd enum_key 0 2; Some (put 32 (le_val b) variant)
  else Some variant.

Definition convert_set_key_to_variant (set_key : list Z) (variant : cache_variant_t) (cap_usage : Z)
  : option cache_variant_t :=
  if cap_usage =? 1 then b ← rd set_key 0 1; Some (put 32 (le_val b) variant)
  else if cap_usage =? 2 then b ← rd set_key 0 2; Some (put 32 (le_val b) variant)
  else if cap_usage =? 3 then b ← rd set_key 0 3; Some (put 32 (uint3korr b) variant)
  else if cap_usage =? 4 then b ← rd set_key 0 4; Some (put 32 (le_val b) variant)
  else if cap_usage =? 8 then b ← rd set_key 0 8; Some (put 64 (le_val b) variant)
  else Some variant.

(** [n]: the bytes of both types. *)
Definition convert_int_to_variant (n : nat) (key : list Z) (variant : cache_variant_t) (is_unsigned : bool)
  : option cache_variant_t :=
  b ← rd key 0 (Z.of_nat n);
  Some (put 32 (if is_unsigned then le_val b else wrapS (8 * Z.of_nat n) (le_val b)) variant).

(** [true]: the boundary is the lowest or highest value, [value]. *)
Definition handle_null_and_single_boundary (rKey : ctc_key) (field : Field) (ret_val value : cache_variant_t)
    (key_offset : Z) : option (bool * cache_variant_t * ctc_key) :=
  if decide (cmp_type rKey = CMP_TYPE_NULL)
  then Some (true, value, set_cmp_type CMP_TYPE_CLOSE_INTERNAL rKey) else
  null ← (if f_nullable field then key ← ck_key rKey; b ← rd key key_offset 1; Some (le_val b =? 1)
          else Some false);
  if null : bool then Some (true, value, set_cmp_type CMP_TYPE_CLOSE_INTERNAL rKey)
  else Some (false, ret_val, rKey).

Definition decimal_mysql_to_double (ptr : list Z) (f : Field) : Z :=
  let '(ret, d) := binary2my_decimal ptr (f_precision f) (f_decimals f) in
  if negb (ret =? Numeric.E_DEC_OK) then 0 else snd (decimal2double d).

(** [extract_boundary_value] behind the tests; [key] is the pointer to the
    value. *)
Definition extract_value (field : Field) (key : list Z) (str_key_len : Z) (ret_val : cache_variant_t)
  : option cache_variant_t :=
  let str_copy_len :=
    if str_key_len >? CBO_STRING_MAX_LEN - 1 then CBO_STRING_MAX_LEN - 1 else str_key_len in
  let is_unsigned := f_unsigned field in
  match f_real_type field with
  | MYSQL_TYPE_SET => convert_set_key_to_variant key ret_val (f_pack_length field)
  | MYSQL_TYPE_ENUM => convert_enum_key_to_variant key ret_val (f_pack_length field)
  | MYSQL_TYPE_BIT => Some (put 64 (Numeric.bit_cnvt_mysql_cantian field key) ret_val)
  | MYSQL_TYPE_TINY => convert_int_to_variant 1 key ret_val is_unsigned
  | MYSQL_TYPE_SHORT => convert_int_to_variant 2 key ret_val is_unsigned
  | MYSQL_TYPE_INT24 =>
    b ← rd key 0 3; Some (put 32 (if is_unsigned then uint3korr b else sint3korr b) ret_val)
  | MYSQL_TYPE_LONG => convert_int_to_variant 4 key ret_val is_unsigned
  | MYSQL_TYPE_FLOAT => b ← rd key 0 4; Some (put 64 (Numeric.float_to_double (le_val b)) ret_val)
  | MYSQL_TYPE_DOUBLE | MYSQL_TYPE_LONGLONG | MYSQL_TYPE_NEWDATE =>
    b ← rd key 0 8; Some (put 64 (le_val b) ret_val)
  | MYSQL_TYPE_TIMESTAMP2 | MYSQL_TYPE_YEAR =>
    '(_, bs) ← DateCnvrt.convert_datetime_to_cantian (f_type field) key field;
    Some (put 64 (le_val bs) ret_val)
  | MYSQL_TYPE_DATETIME2 =>
    bs ← DateCnvrt.cnvrt_datetime_decimal key (f_decimals field) DateCnvrt.DATETIME_MAX_DECIMALS DateCnvrt.CTC_BYTE_8;
    Some (put 64 (le_val bs) ret_val)
  | MYSQL_TYPE_TIME2 =>
    bs ← DateCnvrt.cnvrt_time_decimal key (f_decimals field) DateCnvrt.DATETIME_MAX_DECIMALS DateCnvrt.CTC_BYTE_8;
    Some (put 64 (le_val bs) ret_val)
  | MYSQL_TYPE_DECIMAL | MYSQL_TYPE_NEWDECIMAL => Some (put 64 (decimal_mysql_to_double key field) ret_val)
  | MYSQL_TYPE_VARCHAR | MYSQL_TYPE_VAR_STRING | MYSQL_TYPE_STRING =>
    b ← rd key 0 str_copy_len;
    let s := c_str b in                                       (* strncpy *)
    Some (mk_variant (v_bits ret_val)
            (s ++ replicate (length b - length s) 0 ++ drop (length b) (v_str ret_val)))
  | _ => Some ret_val
  end.

(** The bytes of the key from [pos] on *)
Definition key_at (rKey : ctc_key) (pos : Z) : option (list Z) :=
  key ← ck_key rKey;
  if Z.of_nat (length key) <? pos then None else Some (drop (Z.to_nat pos) key).

(** [str_key_len] and [varchar_offset] *)
Definition string_length (rKey : ctc_key) (kp : KEY_PART_INFO) (pos : Z) : option (Z * Z) :=
  match f_real_type (kp_field kp) with
  | MYSQL_TYPE_VARCHAR => key ← key_at rKey pos; b ← rd key 0 2; Some (le_val b, OFFSET_VARCHAR_TYPE)
  | MYSQL_TYPE_STRING =>
    key ← key_at rKey pos; data ← rd key 0 (kp_key_length kp);
    Some (Z.of_nat (RowFormat.trim_pad data (f_pad_char (kp_field kp)) (length data)), 0)
  | _ => Some (0, 0)
  end.

Definition extract_boundary_value (rKey : ctc_key) (kp : KEY_PART_INFO) (ret_val value : cache_variant_t)
    (key_offset : Z) : option (cache_variant_t * ctc_key) :=
  let field := kp_field kp in
  '(found, ret_val, rKey) ← handle_null_and_single_boundary rKey field ret_val value key_offset;
  if found : bool then Some (ret_val, rKey) else
  let null_offset := if f_nullable field then 1 else 0 in
  '(str_key_len, varchar_offset) ← string_length rKey kp (key_offset + null_offset);
  key ← key_at rKey (key_offset + varchar_offset + null_offset);
  ret_val ← extract_value field key str_key_len ret_val;
  Some (ret_val, rKey).

(** ** Comparison of two values *)

(** The bytes behind a value: [date1], [date1 + 1], [date1 + 2]. *)
Definition date_compare (date1 date2 : list Z) : Z := le_val (take 3 date1) - le_val (take 3 date2).
Definition time_compare (time1 time2 : list Z) : Z :=
  my_time_packed_from_binary time1 DateCnvrt.DATETIME_MAX_DECIMALS
  - my_time_packed_from_binary time2 DateCnvrt.DATETIME_MAX_DECIMALS.
Definition datetime_compare (datetime1 datetime2 : list Z) : Z :=
  my_datetime_packed_from_binary datetime1 DateCnvrt.DATETIME_MAX_DECIMALS
  - my_datetime_packed_from_binary datetime2 DateCnvrt.DATETIME_MAX_DECIMALS.

Definition two_nums_compare (a b : Z) : en_ctc_compare_type :=
  if a >? b then GREAT else if a <? b then LESS else EQUAL.

(** The end of [compare] *)
Definition of_double (compare_value : double) : en_ctc_compare_type :=
  if dltb (SFabs compare_value) REAL_EPSINON then EQUAL
  else if dltb d0 compare_value then GREAT
  else LESS.

Definition compare (right_v left_v : cache_variant_t) (field : Field) : en_ctc_compare_type :=
  let is_unsigned := f_unsigned field in
  match f_real_type field with
  | MYSQL_TYPE_SET =>
    if f_pack_length field <=? 4 then two_nums_compare (v_uint32 right_v) (v_uint32 left_v)
    else two_nums_compare (v_ubigint right_v) (v_ubigint left_v)
  | MYSQL_TYPE_ENUM => two_nums_compare (v_uint32 right_v) (v_uint32 left_v)
  | MYSQL_TYPE_BIT => two_nums_compare (v_ubigint right_v) (v_ubigint left_v)
  | MYSQL_TYPE_TINY | MYSQL_TYPE_SHORT | MYSQL_TYPE_INT24 | MYSQL_TYPE_LONG =>
    if is_unsigned then two_nums_compare (v_uint32 right_v) (v_uint32 left_v)
    else two_nums_compare (v_int right_v) (v_int left_v)
  | MYSQL_TYPE_FLOAT | MYSQL_TYPE_DOUBLE | MYSQL_TYPE_DECIMAL | MYSQL_TYPE_NEWDECIMAL =>
    of_double (dsub (v_real right_v) (v_real left_v))
  | MYSQL_TYPE_LONGLONG =>
    if is_unsigned then two_nums_compare (v_ubigint right_v) (v_ubigint left_v)
    else two_nums_compare (v_bigint right_v) (v_bigint left_v)
  | MYSQL_TYPE_YEAR | MYSQL_TYPE_TIMESTAMP2 => of_double (dbl (wrapS 64 (v_date right_v - v_date left_v)))
  | MYSQL_TYPE_NEWDATE => of_double (dbl (date_compare (v_date_bytes right_v) (v_date_bytes left_v)))
  | MYSQL_TYPE_DATETIME2 => of_double (dbl (datetime_compare (v_date_bytes right_v) (v_date_bytes left_v)))
  | MYSQL_TYPE_TIME2 => of_double (dbl (time_compare (v_date_bytes right_v) (v_date_bytes left_v)))
  | MYSQL_TYPE_VARCHAR | MYSQL_TYPE_VAR_STRING | MYSQL_TYPE_STRING =>
    of_double (dbl (strnncollsp field (c_str (v_str right_v)) (c_str (v_str left_v))))
  | _ => UNCOMPARABLE
  end.

(** ** Selectivity of a condition on a column *)

Definition eval_density_result (density : double) : double :=
  if dltb density d0 then d0 else if dltb d1 density then d1 else density.

(** The loop over the buckets; [i], [prev]: the number of the bucket and
    [ep_number] of the one before. *)
Fixpoint equal_rows (hist_infos : list ctc_cbo_column_hist_t) (first : bool) (prev : Z)
    (val : cache_variant_t) (field : Field) : Z :=
  match hist_infos with
  | [] => 0
  | h :: l =>
    match compare (ep_value h) val field with
    | EQUAL => if first then ep_number h else ep_number h - prev
    | GREAT => 0
    | _ => equal_rows l false (ep_number h) val field
    end
  end.

(** [ep_number] of the last bucket *)
Definition last_number (col_stat : ctc_cbo_stats_column_t) : option Z :=
  option_map ep_number (column_hist col_stat !! (length (column_hist col_stat) - 1)%nat).

Definition calc_frequency_hist_equal_density (col_stat : ctc_cbo_stats_column_t) (val : cache_variant_t)
    (field : Field) : option double :=
  let result := equal_rows (column_hist col_stat) true 0 val field in
  if result >? 0 then
    total ← last_number col_stat;
    Some (if total >? 0 then ddiv (dbl result) (dbl total) else density col_stat)
  else Some (if result =? 0 then d0 else density col_stat).

Fixpoint popular_count (hist_infos : list ctc_cbo_column_hist_t) (val : cache_variant_t) (field : Field) : Z :=
  match hist_infos with
  | [] => 0
  | h :: l =>
    match compare (ep_value h) val field with
    | EQUAL => 1 + popular_count l val field
    | GREAT => 0
    | _ => popular_count l val field
    end
  end.

Definition calc_balance_hist_equal_density (col_stat : ctc_cbo_stats_column_t) (val : cache_variant_t)
    (field : Field) : double :=
  let popular_count := popular_count (column_hist col_stat) val field in
  if (popular_count >? 1) && (hist_count col_stat >? 0)
  then ddiv (dbl popular_count) (dbl (hist_count col_stat)) else density col_stat.

Definition calc_equal_null_density (cbo_stats : ctc_cbo_stats_table_t) (col_id : nat) : option double :=
  col_stat ← columns cbo_stats !! col_id;
  Some (if estimate_rows cbo_stats >? 0 then ddiv (dbl (num_null col_stat)) (dbl (estimate_rows cbo_stats))
        else DEFAULT_RANGE_DENSITY).

(** [None] for too many buckets: the assertion. *)
Definition calc_hist_equal_density (cbo_stats : ctc_cbo_stats_table_t) (val : cache_variant_t) (col_id : nat)
    (field : Field) : option double :=
  col_stat ← columns cbo_stats !! col_id;
  if hist_count col_stat =? 0 then Some (density col_stat)
  else if hist_count col_stat >? STATS_HISTGRAM_MAX_SIZE then None
  else if decide (hist_type col_stat = FREQUENCY_HIST)
  then calc_frequency_hist_equal_density col_stat val field
  else Some (calc_balance_hist_equal_density col_stat val field).

(** The first bucket with [stop], and the number of rows before it *)
Fixpoint rows_before (hist_infos : list ctc_cbo_column_hist_t) (stop : cache_variant_t -> bool) (prev : Z)
  : option Z :=
  match hist_infos with
  | [] => None
  | h :: l => if stop (ep_value h) then Some prev else rows_before l stop (ep_number h)
  end.

Definition min_stop (stats_val : field_stats_val) (field : Field) (v : cache_variant_t) : bool :=
  let cmp_result := compare v (min_key_val stats_val) field in
  (bool_decide (min_type stats_val = CMP_TYPE_CLOSE_INTERNAL)
     && (bool_decide (cmp_result = GREAT) || bool_decide (cmp_result = EQUAL)))
  || (bool_decide (min_type stats_val = CMP_TYPE_OPEN_INTERNAL) && bool_decide (cmp_result = GREAT)).

Definition max_stop (stats_val : field_stats_val) (field : Field) (v : cache_variant_t) : bool :=
  let cmp_result := compare v (max_key_val stats_val) field in
  (bool_decide (max_type stats_val = CMP_TYPE_OPEN_INTERNAL)
     && (bool_decide (cmp_result = GREAT) || bool_decide (cmp_result = EQUAL)))
  || (bool_decide (max_type stats_val = CMP_TYPE_CLOSE_INTERNAL) && bool_decide (cmp_result = GREAT)).

Definition calc_hist_between_frequency (col_stat : ctc_cbo_stats_column_t) (stats_val : field_stats_val)
    (field : Field) : option double :=
  total_nums ← last_number col_stat;
  let low_nums :=
    match rows_before (column_hist col_stat) (min_stop stats_val field) 0 with
    | Some n => total_nums - n
    | None => 0
    end in
  let high_nums := default total_nums (rows_before (column_hist col_stat) (max_stop stats_val field) 0) in
  Some (if total_nums >? 0 then ddiv (dbl (low_nums + high_nums - total_nums)) (dbl total_nums)
        else density col_stat).

(** The share of a bucket above [key], for members of [int] and of unsigned
    types, whose difference wraps around *)
Definition share (ep_high ep_low key : Z) (wrap : Z -> Z) : double :=
  if ep_high >? ep_low then ddiv (dbl (wrap (ep_high - key))) (dbl (wrap (ep_high - ep_low))) else d0.

Definition share_by (compare : list Z -> list Z -> Z) (ep_high ep_low key : cache_variant_t) : double :=
  let denominator := dbl (compare (v_date_bytes ep_high) (v_date_bytes ep_low)) in
  if dltb d0 denominator
  then ddiv (dbl (compare (v_date_bytes ep_high) (v_date_bytes key))) denominator else d0.

Definition percent_in_bucket (col_stat : ctc_cbo_stats_column_t) (high : nat) (key : cache_variant_t)
    (field : Field) : option double :=
  ep_high ← (if hist_count col_stat <=? Z.of_nat high then Some (high_value col_stat)
             else option_map ep_value (column_hist col_stat !! high));
  ep_low ← (if (high <? 1)%nat then Some (low_value col_stat)
            else option_map ep_value (column_hist col_stat !! (high - 1)%nat));
  let by_uint32 := share (v_uint32 ep_high) (v_uint32 ep_low) (v_uint32 key) (wrapU 32) in
  let by_ubigint := share (v_ubigint ep_high) (v_ubigint ep_low) (v_ubigint key) (wrapU 64) in
  Some match f_real_type field with
  | MYSQL_TYPE_SET => if f_pack_length field <=? 4 then by_uint32 else by_ubigint
  | MYSQL_TYPE_ENUM => by_uint32
  | MYSQL_TYPE_BIT => by_ubigint
  | MYSQL_TYPE_TINY | MYSQL_TYPE_SHORT | MYSQL_TYPE_INT24 | MYSQL_TYPE_LONG =>
    if f_unsigned field then by_uint32
    else share (v_int ep_high) (v_int ep_low) (v_int key) (wrapS 32)
  | MYSQL_TYPE_FLOAT | MYSQL_TYPE_DOUBLE | MYSQL_TYPE_DECIMAL | MYSQL_TYPE_NEWDECIMAL =>
    if dltb d0 (dsub (v_real ep_high) (v_real ep_low))
    then ddiv (dsub (v_real ep_high) (v_real key)) (dsub (v_real ep_high) (v_real ep_low)) else d0
  | MYSQL_TYPE_LONGLONG =>
    if f_unsigned field then by_ubigint
    else share (v_bigint ep_high) (v_bigint ep_low) (v_bigint key) (wrapS 64)
  | MYSQL_TYPE_YEAR | MYSQL_TYPE_TIMESTAMP2 =>
    let denominator := dbl (wrapS 64 (v_date ep_high - v_date ep_low)) in
    if dltb d0 denominator then ddiv (dbl (wrapS 64 (v_date ep_high - v_date key))) denominator else d0
  | MYSQL_TYPE_NEWDATE => share_by date_compare ep_high ep_low key
  | MYSQL_TYPE_DATETIME2 => share_by datetime_compare ep_high ep_low key
  | MYSQL_TYPE_TIME2 => share_by time_compare ep_high ep_low key
  | _ => DEFAULT_RANGE_DENSITY
  end.

(** The first bucket from [i] on with [stop]; its number, or the number of
    buckets. *)
Fixpoint find_bucket (hist_infos : list ctc_cbo_column_hist_t) (i : nat) (stop : cache_variant_t -> bool)
  : nat * bool :=
  match hist_infos with
  | [] => (i, false)
  | h :: l => if stop (ep_value h) then (i, true) else find_bucket l (S i) stop
  end.

(** The number of whole buckets, and the new [percent] *)
Definition calc_hist_range_boundary (stats_val : field_stats_val) (field : Field)
    (col_stat : ctc_cbo_stats_column_t) (percent : double) : option (Z * double) :=
  let hist_infos := column_hist col_stat in
  let end_ := wrapU 32 (hist_count col_stat - 1) in
  let '(i, found) := find_bucket hist_infos 0
    (fun v => bool_decide (compare v (min_key_val stats_val) field = GREAT)) in
  let lo_pos := if found then Z.of_nat i else end_ in
  p ← percent_in_bucket col_stat i (min_key_val stats_val) field;
  let percent := dadd percent p in
  let '(i, found) := find_bucket (drop (Z.to_nat lo_pos) hist_infos) (Z.to_nat lo_pos)
    (fun v => let c := compare v (max_key_val stats_val) field in bool_decide (c = GREAT) || bool_decide (c = EQUAL)) in
  let hi_pos := if found then Z.of_nat i else end_ in
  p ← percent_in_bucket col_stat i (max_key_val stats_val) field;
  let percent := dsub percent p in
  let percent := if hist_count col_stat >? 0 then ddiv percent (dbl (hist_count col_stat)) else percent in
  let percent := if decide (min_type stats_val = CMP_TYPE_CLOSE_INTERNAL)
                 then dadd percent (calc_balance_hist_equal_density col_stat (min_key_val stats_val) field) else percent in
  let percent := if decide (max_type stats_val = CMP_TYPE_CLOSE_INTERNAL)
                 then dadd percent (calc_balance_hist_equal_density col_stat (max_key_val stats_val) field) else percent in
  Some (wrapS 32 (hi_pos - lo_pos), percent).

Definition calc_hist_between_balance (col_stat : ctc_cbo_stats_column_t) (stats_val : field_stats_val)
    (field : Field) : option double :=
  '(bucket_range, percent) ← calc_hist_range_boundary stats_val field col_stat d0;
  Some (if hist_count col_stat >? 0
        then dadd (ddiv (dbl bucket_range) (dbl (hist_count col_stat))) percent else percent).

Definition calc_hist_between_density (cbo_stats : ctc_cbo_stats_table_t) (col_id : nat) (field : Field)
    (stats_val : field_stats_val) : option double :=
  col_stat ← columns cbo_stats !! col_id;
  if hist_count col_stat =? 0 then Some (density col_stat)
  else if hist_count col_stat >? STATS_HISTGRAM_MAX_SIZE then None
  else if decide (hist_type col_stat = FREQUENCY_HIST)
  then calc_hist_between_frequency col_stat stats_val field
  else calc_hist_between_balance col_stat stats_val field.

Definition is_str (field : Field) : bool :=
  match f_real_type field with
  | MYSQL_TYPE_VARCHAR | MYSQL_TYPE_VAR_STRING | MYSQL_TYPE_STRING => true
  | _ => false
  end.

(** The value of a boundary before it is known: zeros. *)
Definition zero_variant (field : Field) : cache_variant_t :=
  mk_variant 0 (if is_str field then replicate (Z.to_nat CBO_STRING_MAX_LEN) 0 else []).

(** The density, whether the next column is looked at, and the keys. *)
Definition calc_density_by_cond (cbo_stats : ctc_cbo_stats_table_t) (cur_index_part : KEY_PART_INFO)
    (key : ctc_range_key) (key_offset : Z) (col_id : nat) (continue_calc : bool)
  : option (double * bool * ctc_range_key) :=
  let '(min_key, max_key) := key in
  let field := kp_field cur_index_part in
  col_stat ← columns cbo_stats !! col_id;
  '(min_val, min_key) ←
    extract_boundary_value min_key cur_index_part (zero_variant field) (low_value col_stat) key_offset;
  '(max_val, max_key) ←
    extract_boundary_value max_key cur_index_part (zero_variant field) (high_value col_stat) key_offset;
  let compare_value := compare max_val min_val field in
  let continue_calc := if decide (compare_value <> EQUAL) then false else continue_calc in
  let ret d := Some (d, continue_calc, (min_key, max_key)) in
  if decide (compare max_val (low_value col_stat) field = LESS) then ret d0
  else if decide (compare min_val (high_value col_stat) field = GREAT) then ret d0
  else if bool_decide (compare_value = EQUAL) && bool_decide (cmp_type min_key = CMP_TYPE_CLOSE_INTERNAL)
          && bool_decide (cmp_type max_key = CMP_TYPE_CLOSE_INTERNAL)
  then d ← calc_hist_equal_density cbo_stats max_val col_id field; ret d
  else match compare_value with
       | UNCOMPARABLE => ret DEFAULT_RANGE_DENSITY
       | LESS => ret d0
       | _ =>
         let stats_val := mk_stats_val (cmp_type min_key) (cmp_type max_key) max_val min_val in
         d ← calc_hist_between_density cbo_stats col_id field stats_val; ret d
       end.

(** [acc_gcol_num]: the virtual generated columns before each column. *)
Fixpoint calc_accumulate_gcol_num (field : list Field) (count : Z) : list Z :=
  match field with
  | [] => []
  | f :: l => count :: calc_accumulate_gcol_num l (if f_virtual f then count + 1 else count)
  end.

Definition null_at (key : ctc_key) (key_offset : Z) : option bool :=
  match ck_key key with
  | None => Some false
  | Some bytes => b ← rd bytes key_offset 1; Some (le_val b =? 1)
  end.

Definition calculate_column_selectivity (cbo_stats : ctc_cbo_stats_table_t) (key : ctc_range_key)
    (cur_index_part : KEY_PART_INFO) (ctc_col_id : nat) (key_offset : Z) (is_nullable continue_calc : bool)
  : option (double * bool * ctc_range_key) :=
  let '(min_key, max_key) := key in
  min_null ← (if is_nullable then null_at min_key key_offset else Some false);
  let no_max := bool_decide (ck_key max_key = None) || (ck_len max_key <=? key_offset) in
  if min_null && no_max then
    d ← calc_equal_null_density cbo_stats ctc_col_id; Some (dsub d1 d, continue_calc, key)
  else
    max_null ← (if min_null then null_at max_key key_offset else Some false);
    if max_null : bool then
      d ← calc_equal_null_density cbo_stats ctc_col_id; Some (d, continue_calc, key)
    else calc_density_by_cond cbo_stats cur_index_part key key_offset ctc_col_id continue_calc.

Definition set_key_boundary_types (key : ctc_range_key) (id : Z)
    (min_key_cmp_type max_key_cmp_type : ctc_cmp_type_t) : ctc_range_key :=
  let '(min_key, max_key) := key in
  if Z.testbit (col_map min_key) id && Z.testbit (col_map max_key) id
     && (Z.testbit (col_map min_key) (id + 1) || Z.testbit (col_map max_key) (id + 1))
  then (set_cmp_type CMP_TYPE_CLOSE_INTERNAL min_key, set_cmp_type CMP_TYPE_CLOSE_INTERNAL max_key)
  else (set_cmp_type min_key_cmp_type min_key, set_cmp_type max_key_cmp_type max_key).

(** The loop over the columns of the index *)
Fixpoint calc_density_parts (cbo_stats : ctc_cbo_stats_table_t) (acc_gcol_num : list Z)
    (valid_map : Z) (min_key_cmp_type max_key_cmp_type : ctc_cmp_type_t) (parts : list KEY_PART_INFO)
    (idx_col_num : Z) (key : ctc_range_key) (key_offset : Z) (density : double) : option double :=
  match parts with
  | [] => Some density
  | cur_index_part :: parts =>
    if negb (Z.testbit valid_map idx_col_num) then Some density else
    let field := kp_field cur_index_part in
    if f_virtual field then
      calc_density_parts cbo_stats acc_gcol_num valid_map min_key_cmp_type max_key_cmp_type parts
        (idx_col_num + 1) key key_offset density
    else
      acc ← acc_gcol_num !! f_index field;
      let ctc_col_id := Z.to_nat (Z.of_nat (f_index field) - acc) in
      let null_offset := if f_nullable field then 1 else 0 in
      let varchar_offset := if decide (f_real_type field = MYSQL_TYPE_VARCHAR) then OFFSET_VARCHAR_TYPE else 0 in
      let key := set_key_boundary_types key idx_col_num min_key_cmp_type max_key_cmp_type in
      '(col_selectivity, continue_calc, key) ←
        calculate_column_selectivity cbo_stats key cur_index_part ctc_col_id key_offset
          (f_nullable field) true;
      let density := dmul density (eval_density_result col_selectivity) in
      let key_offset := key_offset + (varchar_offset + null_offset + kp_key_length cur_index_part) in
      if continue_calc : bool then
        calc_density_parts cbo_stats acc_gcol_num valid_map min_key_cmp_type max_key_cmp_type parts
          (idx_col_num + 1) key key_offset density
      else Some density
  end.

(** [field]: the columns of the table, [parts]: the columns of the index. *)
Definition calc_density_one_table (parts : list KEY_PART_INFO) (key : ctc_range_key)
    (cbo_stats : ctc_cbo_stats_table_t) (field : list Field) : option double :=
  if estimate_rows cbo_stats =? 0 then Some d0 else
  let '(min_key, max_key) := key in
  density ← calc_density_parts cbo_stats (calc_accumulate_gcol_num field 0)
    (Z.max (col_map min_key) (col_map max_key)) (cmp_type min_key) (cmp_type max_key) parts 0 key 0 d1;
  Some (if dltb density d0 || dltb d1 density then PREFER_RANGE_DENSITY else density).

(** ** The handler *)

Definition HA_READ_KEY_EXACT : Z := 0.
Definition HA_READ_AFTER_KEY : Z := IndexSearch.HA_READ_AFTER_KEY.
Definition HA_READ_BEFORE_KEY : Z := IndexSearch.HA_READ_BEFORE_KEY.

Definition set_ctc_range_key (mysql_range_key : option key_range) (is_min_key : bool) : ctc_key :=
  match mysql_range_key with
  | None => mk_ckey None 0 CMP_TYPE_NULL 0
  | Some r =>
    let flag := IndexSearch.kr_flag r in
    mk_ckey (Some (IndexSearch.kr_key r)) (IndexSearch.kr_length r)
      (if flag =? HA_READ_KEY_EXACT then CMP_TYPE_CLOSE_INTERNAL
       else if flag =? HA_READ_BEFORE_KEY then CMP_TYPE_OPEN_INTERNAL
       else if flag =? HA_READ_AFTER_KEY
       then (if is_min_key then CMP_TYPE_OPEN_INTERNAL else CMP_TYPE_CLOSE_INTERNAL)
       else CMP_TYPE_NULL)
      (IndexSearch.kr_keypart_map r)
  end.

(** Both keys; the shorter one does not bound the last column. *)
Definition range_keys (min_key max_key : option key_range) : ctc_range_key :=
  let ctc_min_key := set_ctc_range_key min_key true in
  let ctc_max_key := set_ctc_range_key max_key false in
  if ck_len ctc_max_key <? ck_len ctc_min_key then (ctc_min_key, set_cmp_type CMP_TYPE_NULL ctc_max_key)
  else if ck_len ctc_max_key >? ck_len ctc_min_key then (set_cmp_type CMP_TYPE_NULL ctc_min_key, ctc_max_key)
  else (ctc_min_key, ctc_max_key).

(** [m_share->cbo_stats] of a table that is not partitioned *)
Record ctc_cbo_stats_t := mk_cbo {
  is_updated : bool; records_ : Z; page_size : Z; ndv_keys : list Z; tables : list ctc_cbo_stats_table_t }.

Definition ctc_cbo_stats_table (s : ctc_cbo_stats_t) : option ctc_cbo_stats_table_t := tables s !! 0%nat.

(** The rows of a table, or of a partition, in the range *)
Definition rows_in_range (parts : list KEY_PART_INFO) (field : list Field) (min_key max_key : option key_range)
    (t : ctc_cbo_stats_table_t) : option Z :=
  density ← calc_density_one_table parts (range_keys min_key max_key) t field;
  to_uint64 (dmul (dbl (estimate_rows t)) density).

Definition at_least_one (n_rows : Z) : Z := if n_rows =? 0 then 1 else n_rows.

(** [ha_ctc::records_in_range]; [None] for [m_share]: there is none. *)
Definition records_in_range (parts : list KEY_PART_INFO) (field : list Field) (min_key max_key : option key_range)
    (m_share : option ctc_cbo_stats_t) : option Z :=
  match m_share with
  | None => Some (at_least_one 0)
  | Some cbo =>
    if negb (is_updated cbo) then Some 1 else
    t ← ctc_cbo_stats_table cbo;
    n_rows ← rows_in_range parts field min_key max_key t;
    Some (at_least_one n_rows)
  end.

(** [ha_ctcpart::records_in_range] over the used partitions *)
Definition part_records_in_range (used : list nat) (parts : list KEY_PART_INFO) (field : list Field)
    (min_key max_key : option key_range) (m_part_share : option ctc_cbo_stats_t) : option Z :=
  match m_part_share with
  | None => None                                              (* a null pointer *)
  | Some cbo =>
    if negb (is_updated cbo) then Some 1 else
    n_rows_num ← fold_left (fun n part_id =>
        n ← n; t ← tables cbo !! part_id;
        r ← rows_in_range parts field min_key max_key t; Some (wrapU 64 (n + r))) used (Some 0);
    Some (at_least_one n_rows_num)
  end.

(** *** Costs *)

Definition scan_time (m_share : option ctc_cbo_stats_table_t) : double :=
  let scan_time := match m_share with Some t => dbl (blocks t) | None => d0 end in
  if dltb scan_time (dbl 2) then dbl 2 else scan_time.

Definition keys_per_block (block_size key_length ref_length : Z) : option Z :=
  if key_length + ref_length =? 0 then None
  else Some (wrapU 32 (block_size / 2 / (key_length + ref_length) + 1)).

Definition index_only_read_time (block_size key_length ref_length : Z) (records_to_scan : double) : option double :=
  keys_per_block ← keys_per_block block_size key_length ref_length;
  Some (ddiv (dsub (dadd records_to_scan (dbl keys_per_block)) d1) (dbl keys_per_block)).

(** [other]: the server's [handler::read_time] *)
Definition read_time (is_primary_key : bool) (other : double) (ranges rows stats_records : Z)
    (m_share : option ctc_cbo_stats_table_t) : double :=
  if negb is_primary_key then other
  else if rows <=? 2 then dbl rows
  else let time_for_scan := scan_time m_share in
       if stats_records <? rows then time_for_scan
       else dadd (dbl ranges) (dmul (ddiv (dbl rows) (dbl stats_records)) time_for_scan).

(** *** [info] *)

(** [stats] *)
Record ha_statistics := mk_ha_stats { st_records : Z; mean_rec_length : Z; block_size : Z }.

Definition info_low (m_share : option ctc_cbo_stats_t) (stats : ha_statistics) : option ha_statistics :=
  match m_share with
  | None => Some stats
  | Some cbo => t ← ctc_cbo_stats_table cbo;
    Some (mk_ha_stats (estimate_rows t) (avg_row_len t) (page_size cbo))
  end.

(** [strncmp] of [n] bytes of two strings is 0. *)
Definition strncmp_0 (n : nat) (a b : list Z) : bool := bool_decide (take n (c_str a ++ [0]) = take n (c_str b ++ [0])).

(** The number of the index named in the error *)
Fixpoint find_errkey (key_names : list (list Z)) (i : Z) (index_name : list Z) (errkey : Z) : Z :=
  match key_names with
  | [] => errkey
  | n :: l => if strncmp_0 (length (c_str index_name)) n index_name then i
              else find_errkey l (i + 1) index_name errkey
  end.

Definition UINT_MAX : Z := 2 ^ 32 - 1.

(** What [info] finds: the flags, the statement, the answers of the engine.
    The code that [analyze] returns is converted again, [reconvert]. *)
Record info_env := mk_info {
  passthru : bool;
  HA_STATUS_VARIABLE : bool; HA_STATUS_NO_LOCK : bool; HA_STATUS_ERRKEY : bool;
  delete_all : bool; is_analyze : bool;
  records_answer : Z -> Z;                     (* records(&stats.records) *)
  analyze_answer : Handler.ha_code; reconvert : Handler.ha_code -> Handler.ha_code;
  get_cbo_stats_4share : ct_errno_t * option ctc_cbo_stats_t;
  get_index_name : ct_errno_t * list Z;
  key_names : list (list Z) }.

(** The end of [info], after the statistics were fetched *)
Definition info_end (E : info_env) (ret : ct_errno_t) (m_share : option ctc_cbo_stats_t) (stats : ha_statistics)
    (errkey : Z) : option (Handler.ha_code * ha_statistics * Z) :=
  stats ← info_low m_share stats;
  let stats := if st_records stats <? 2 then mk_ha_stats 3 (mean_rec_length stats) (block_size stats) else stats in
  if negb (HA_STATUS_ERRKEY E) then Some (Handler.convert ret, stats, errkey) else
  let '(ret, index_name) := get_index_name E in
  if decide (ret <> CT_SUCCESS) then Some (Handler.convert ret, stats, errkey) else
  let errkey := find_errkey (key_names E) 0 index_name errkey in
  if errkey =? UINT_MAX then Some (Handler.HA_ERR_KEY_NOT_FOUND, stats, errkey)
  else Some (Handler.convert ret, stats, errkey).

Definition info (E : info_env) (m_share : option ctc_cbo_stats_t) (stats : ha_statistics) (errkey : Z)
  : option (Handler.ha_code * ha_statistics * Z) :=
  if passthru E then Some (Handler.OK, stats, errkey)
  else if negb (HA_STATUS_VARIABLE E) then info_end E CT_SUCCESS m_share stats errkey
  else if delete_all E then
    Some (Handler.OK, mk_ha_stats (records_answer E (st_records stats)) (mean_rec_length stats) (block_size stats), errkey)
  else if HA_STATUS_NO_LOCK E && is_analyze E && negb (bool_decide (analyze_answer E = Handler.OK))
  then Some (reconvert E (analyze_answer E), stats, errkey)
  else let '(ret, m_share) := get_cbo_stats_4share E in
       if decide (ret <> CT_SUCCESS) then Some (Handler.convert ret, stats, errkey)
       else info_end E ret m_share stats errkey.

(** *** Rows per value of an index *)

Definition flt (n : Z) : spec_float := binary_normalize 24 128 n 0 false.

Definition check_index_is_contain_null (cbo : ctc_cbo_stats_t) (part_cnt : Z) (fld_idx : nat) : option bool :=
  fold_left (fun b k =>
      b ← b; if b : bool then Some true else
      t ← tables cbo !! k; c ← columns t !! fld_idx; Some (negb (num_null c =? 0)))
    (seq 0 (Z.to_nat (if part_cnt =? 0 then 1 else part_cnt))) (Some false).

Definition rec_per_key (records n_diff_part : Z) (has_null : bool) : spec_float :=
  let r := if negb (n_diff_part =? 0)
           then SFdiv 24 128 (flt records) (flt (wrapU 32 (n_diff_part + (if has_null then 1 else 0))))
           else flt records in
  if SFltb r (flt 1) then flt 1 else r.

(** The rows per value of each prefix of each index; [None] for the result of
    a table without rows: the values stay. *)
Definition ctc_index_stats_update (keys : list (list KEY_PART_INFO)) (field : list Field) (part_cnt : Z)
    (cbo : ctc_cbo_stats_t) : option (option (list (list spec_float))) :=
  if records_ cbo =? 0 then Some None else
  let acc_gcol_num := calc_accumulate_gcol_num field 0 in
  r ← mapM (fun '(i, parts) =>
        mapM (fun '(j, kp) =>
          acc ← acc_gcol_num !! f_index (kp_field kp);
          has_null ← check_index_is_contain_null cbo part_cnt (Z.to_nat (Z.of_nat (f_index (kp_field kp)) - acc));
          n_diff_part ← ndv_keys cbo !! (i * Z.to_nat IndexSearch.MAX_KEY_COLUMNS + j)%nat;
          Some (rec_per_key (records_ cbo) n_diff_part has_null))
          (imap (fun j kp => (j, kp)) parts))
      (imap (fun i parts => (i, parts)) keys);
  Some (Some r).

End Operations.

(** *** Memory of the strings *)

(** The strings of a column: two for the ends, one per bucket. *)
Definition strings_per_column : Z := STATS_HISTGRAM_MAX_SIZE + 2.

Definition num_str_cols (field : list Field) : Z :=
  Z.of_nat (length (List.filter (fun f => negb (f_virtual f) && is_str f) field)).

(** [str_stats_mem_size] is a [uint32_t]. *)
Definition str_stats_mem_size (part_num : Z) (field : list Field) : Z :=
  wrapU 32 (part_num * num_str_cols field * strings_per_column * CBO_STRING_MAX_LEN).

(** The string pointers of a column, [str_stats_mem] where it stands: those of
    [high_value], [low_value] and the buckets. *)
Definition column_pointers (str_stats_mem : Z) : list Z :=
  str_stats_mem :: (str_stats_mem + CBO_STRING_MAX_LEN)
  :: map (fun k => str_stats_mem + CBO_STRING_MAX_LEN * 2 + Z.of_nat k * CBO_STRING_MAX_LEN)
       (seq 0 (Z.to_nat STATS_HISTGRAM_MAX_SIZE)).

(** [alloc_str_mysql_mem]: the size, and the pointers of every column of every
    partition as offsets in the memory. *)
Definition alloc_str_mysql_mem (part_num : Z) (field : list Field) : Z * list (list Z) :=
  let cols := List.filter (fun f => negb (f_virtual f) && is_str f) field in
  (str_stats_mem_size part_num field,
   snd (fold_left (fun '(mem, l) _ => (mem + strings_per_column * CBO_STRING_MAX_LEN, l ++ [column_pointers mem]))
          (concat (replicate (Z.to_nat part_num) cols)) (0, []))).

(** ** Rounding *)

Lemma iter_pos_nat {A} (f : A -> A) p x : SpecFloat.iter_pos f p x = Nat.iter (Pos.to_nat p) f x.
Proof.
  revert x. induction p as [p IH|p IH|]; intros x; cbn [SpecFloat.iter_pos].
  - rewrite !IH, Pos2Nat.inj_xI. cbn [Nat.iter]. rewrite <- !Nat.iter_succ_r, <- Nat.iter_add.
    f_equal. lia.
  - rewrite !IH, Pos2Nat.inj_xO, <- Nat.iter_add. f_equal. lia.
  - done.
Qed.

Lemma shr_1_m r : 0 <= shr_m r -> shr_m (shr_1 r) = shr_m r / 2.
Proof.
  intros H. rewrite <- Z.div2_div. destruct r as [[|[p|p|]|p] a b]; cbn in *; done || lia.
Qed.

Lemma shr_1_exact r :
  0 <= shr_m r -> shr_r r = false -> shr_s r = false -> shr_m r mod 2 = 0 ->
  shr_r (shr_1 r) = false /\ shr_s (shr_1 r) = false.
Proof.
  intros H Hr Hs Hm. rewrite Zmod_even in Hm.
  destruct r as [[|[p|p|]|p] a b]; cbn in *; subst; done || lia.
Qed.

Lemma shift_m n : forall r, 0 <= shr_m r -> shr_m (Nat.iter n shr_1 r) = shr_m r / 2 ^ Z.of_nat n.
Proof.
  induction n as [|n IH]; intros r H; [by rewrite Z.div_1_r|].
  change (Nat.iter (S n) shr_1 r) with (shr_1 (Nat.iter n shr_1 r)). rewrite shr_1_m.
  - rewrite IH by done. rewrite Z.div_div by lia. f_equal. rewrite Nat2Z.inj_succ, Z.pow_succ_r by lia. lia.
  - rewrite IH by done. apply Z.div_pos; lia.
Qed.

Lemma shift_exact n : forall r k,
  shr_m r = k * 2 ^ Z.of_nat n -> 0 <= k -> shr_r r = false -> shr_s r = false ->
  shr_r (Nat.iter n shr_1 r) = false /\ shr_s (Nat.iter n shr_1 r) = false.
Proof.
  induction n as [|n IH]; intros r k Hm Hk Hr Hs; [done|].
  rewrite Nat2Z.inj_succ, Z.pow_succ_r in Hm by lia.
  destruct (IH r (2 * k)) as [IHr IHs]; [lia|lia|done|done|]. change (Nat.iter (S n) shr_1 r) with (shr_1 (Nat.iter n shr_1 r)).
  apply shr_1_exact; [|done|done|].
  - rewrite shift_m by nia. apply Z.div_pos; nia.
  - rewrite shift_m by nia. rewrite Hm.
    replace (k * (2 * 2 ^ Z.of_nat n)) with (2 * k * 2 ^ Z.of_nat n) by lia.
    rewrite Z.div_mul by lia. rewrite Z.mul_comm. apply Z_mod_mult.
Qed.

(** Is the location exact? *)
Definition inexact (l : location) : Z := match l with loc_Exact => 0 | loc_Inexact _ => 1 end.

(** A shift by [n] keeps a bound [b] that is a multiple of [2^n]. *)
Lemma shr_bound m l e n b :
  0 <= m -> m + inexact l <= b * 2 ^ (Z.max 0 n) ->
  let '(r, e') := shr (shr_record_of_loc m l) e n in
  e' = e + Z.max 0 n /\ shr_m r = m / 2 ^ (Z.max 0 n) /\ shr_m r + inexact (loc_of_shr_record r) <= b.
Proof.
  intros Hm Hb.
  assert (H0 : shr_m (shr_record_of_loc m l) = m) by (destruct l as [|[]]; done).
  assert (Hin : forall r, 0 <= inexact (loc_of_shr_record r) <= 1) by (intros [? [] []]; cbn; lia).
  destruct n as [|n|n]; cbn [shr].
  - change (Z.max 0 0) with 0 in *. rewrite Z.mul_1_r in Hb. split_and!; [lia|by rewrite Z.div_1_r|]. destruct l as [|[]]; cbn in *; lia.
  - rewrite Z.max_r in * by lia. rewrite iter_pos_nat.
    assert (Hs : shr_m (Nat.iter (Pos.to_nat n) shr_1 (shr_record_of_loc m l)) = m / 2 ^ Z.pos n).
    { rewrite shift_m by (rewrite H0; lia). by rewrite H0, positive_nat_Z. }
    split; [done|]. split; [exact Hs|]. rewrite Hs.
    destruct (Z.eq_dec m (b * 2 ^ Z.pos n)) as [Heq|Hne].
    + destruct l as [|c]; cbn [inexact] in Hb; [|lia].
      destruct (shift_exact (Pos.to_nat n) (shr_record_of_loc m loc_Exact) b) as [Hr Hsticky]; cbn; rewrite ?positive_nat_Z; try done.
      { assert (0 < 2 ^ Z.pos n) by (apply Z.pow_pos_nonneg; lia). nia. }
      set (r := Nat.iter _ _ _) in *. assert (loc_of_shr_record r = loc_Exact) as -> by (destruct r as [? ? ?]; cbn in *; by subst).
      cbn [inexact]. rewrite Heq, Z.div_mul; lia.
    + assert (m / 2 ^ Z.pos n < b); [|specialize (Hin (Nat.iter (Pos.to_nat n) shr_1 (shr_record_of_loc m l))); lia].
      apply Z.div_lt_upper_bound; [lia|]. destruct l; cbn [inexact] in Hb; lia.
  - rewrite Z.max_l in * by lia. rewrite Z.mul_1_r in Hb. split_and!; [lia|by rewrite Z.div_1_r|]. destruct l as [|[]]; cbn in *; lia.
Qed.

Lemma digits2_bounds m : 0 < m -> 2 ^ (Zdigits2 m - 1) <= m < 2 ^ Zdigits2 m /\ 0 < Zdigits2 m.
Proof.
  intros H. destruct m as [|p|]; try lia. clear H. cbn [Zdigits2].
  induction p as [p [IH IH0]|p [IH IH0]|]; cbn [digits2_pos]; [| |cbn; lia].
  - rewrite Pos2Z.inj_succ. change (Z.pos p~1) with (2 * Z.pos p + 1). split; [|lia].
    replace (Z.succ (Z.pos (digits2_pos p)) - 1) with (Z.succ (Z.pos (digits2_pos p) - 1)) by lia.
    rewrite !Z.pow_succ_r by lia. revert IH.
    generalize (2 ^ (Z.pos (digits2_pos p) - 1)) (2 ^ Z.pos (digits2_pos p)). intros A B IH. lia.
  - rewrite Pos2Z.inj_succ. change (Z.pos p~0) with (2 * Z.pos p). split; [|lia].
    replace (Z.succ (Z.pos (digits2_pos p)) - 1) with (Z.succ (Z.pos (digits2_pos p) - 1)) by lia.
    rewrite !Z.pow_succ_r by lia. revert IH.
    generalize (2 ^ (Z.pos (digits2_pos p) - 1)) (2 ^ Z.pos (digits2_pos p)). intros A B IH. lia.
Qed.

Lemma digits2_le m n : 0 <= m < 2 ^ n -> 0 <= n -> Zdigits2 m <= n.
Proof.
  intros Hm Hn. destruct (Z.eq_dec m 0) as [->|]; [done|].
  destruct (digits2_bounds m) as [[Hlo _] _]; [lia|].
  assert (Zdigits2 m - 1 < n); [|lia]. apply (Z.pow_lt_mono_r_iff 2); lia.
Qed.

(** A step of rounding under a bound of [X], an integer *)
Lemma shr_fexp_bound X m e l :
  0 < X < 2 ^ 53 -> e <= 0 -> 0 <= m -> m + inexact l <= X * 2 ^ (- e) ->
  let '(r, e') := shr_fexp 53 1024 m e l in
  e' <= 0 /\ 0 <= shr_m r < 2 ^ 53 /\ shr_m r + inexact (loc_of_shr_record r) <= X * 2 ^ (- e').
Proof.
  intros HX He Hm Hb. unfold shr_fexp, fexp, emin.
  set (n := Z.max _ _ - e).
  assert (Hd : Zdigits2 m <= 53 - e).
  { apply digits2_le; [|lia]. split; [done|].
    apply Z.le_lt_trans with (X * 2 ^ (- e)); [destruct l; cbn in Hb; lia|].
    replace (53 - e) with (53 + - e) by lia. rewrite Z.pow_add_r by lia.
    apply Z.mul_lt_mono_pos_r; [apply Z.pow_pos_nonneg|]; lia. }
  assert (He' : e + Z.max 0 n <= 0) by lia.
  assert (Hmul : X * 2 ^ (- e) = X * 2 ^ (- (e + Z.max 0 n)) * 2 ^ Z.max 0 n).
  { rewrite <- Z.mul_assoc, <- Z.pow_add_r by lia. do 2 f_equal. lia. }
  rewrite Hmul in Hb. pose proof (shr_bound m l e n _ Hm Hb) as H.
  destruct (shr _ e n) as [r e']. destruct H as (-> & Hr & Hle). split; [done|]. split; [|done].
  rewrite Hr. split; [apply Z.div_pos; lia|].
  destruct (Z.eq_dec m 0) as [->|]; [done|]. destruct (digits2_bounds m) as [[_ Hlt] _]; [lia|].
  apply Z.div_lt_upper_bound; [lia|]. apply Z.lt_le_trans with (2 ^ Zdigits2 m); [done|].
  rewrite <- Z.pow_add_r by lia. apply Z.pow_le_mono_r; lia.
Qed.

(** A result of an operation that is at most the integer [X] is at most [X]
    after rounding, and its mantissa has 53 bits. *)
Definition at_most (X : Z) (d : double) : Prop :=
  match d with
  | S754_finite false m e => e <= 0 /\ Z.pos m <= X * 2 ^ (- e) /\ Z.pos m < 2 ^ 53
  | S754_zero _ => True
  | _ => False
  end.

Lemma round_bound X m e l :
  0 < X < 2 ^ 53 -> e <= 0 -> 0 <= m -> m + inexact l <= X * 2 ^ (- e) ->
  at_most X (binary_round_aux 53 1024 false m e l).
Proof.
  intros HX He Hm Hb. unfold binary_round_aux.
  pose proof (shr_fexp_bound X m e l HX He Hm Hb) as H1. destruct (shr_fexp 53 1024 m e l) as [r e'].
  destruct H1 as (He' & [Hr _] & Hr').
  set (m' := round_nearest_even _ _).
  assert (Hm' : 0 <= m' /\ m' + inexact loc_Exact <= X * 2 ^ (- e')).
  { subst m'. cbn [inexact]. destruct (loc_of_shr_record r) as [|[]]; cbn [round_nearest_even inexact] in *;
      try destruct (Z.even _); lia. }
  destruct Hm' as [Hm0 Hm'].
  pose proof (shr_fexp_bound X m' e' loc_Exact HX He' Hm0 Hm') as H2.
  destruct (shr_fexp 53 1024 m' e' loc_Exact) as [r' e'']. destruct H2 as (He'' & [Hr0 Hr1] & Hr'').
  assert (0 <= inexact (loc_of_shr_record r')) by (by destruct (loc_of_shr_record r')).
  destruct (shr_m r') as [|p|p]; cbn; [done| |lia].
  rewrite (proj2 (Z.leb_le _ _)) by lia. cbn. lia.
Qed.

Lemma digits2_iter p k : digits2_pos (Pos.iter xO p k) = (digits2_pos p + k)%positive.
Proof.
  induction k as [|k IH] using Pos.peano_ind; [cbn; lia|].
  rewrite Pos.iter_succ. cbn [digits2_pos]. rewrite IH. lia.
Qed.

Lemma iter_xO p k : Z.pos (Pos.iter xO p k) = Z.pos p * 2 ^ Z.pos k.
Proof.
  induction k as [|k IH] using Pos.peano_ind; [cbn; lia|].
  rewrite Pos.iter_succ, Pos2Z.inj_succ, Z.pow_succ_r by lia.
  change (Z.pos (xO (Pos.iter xO p k))) with (2 * Z.pos (Pos.iter xO p k)). rewrite IH. lia.
Qed.

(** A mantissa of 53 bits is not changed. *)
Lemma round_exact p e :
  Z.pos (digits2_pos p) = 53 -> -1074 <= e <= 971 ->
  binary_round_aux 53 1024 false (Z.pos p) e loc_Exact = S754_finite false p e.
Proof.
  intros Hd He.
  assert (H : shr_fexp 53 1024 (Z.pos p) e loc_Exact = (Build_shr_record (Z.pos p) false false, e)).
  { unfold shr_fexp, fexp, emin. cbn [Zdigits2]. rewrite Hd.
    replace (Z.max _ _ - e) with 0 by lia. done. }
  unfold binary_round_aux. rewrite H. cbn [loc_of_shr_record shr_m round_nearest_even].
  rewrite H. cbn [shr_m]. by rewrite (proj2 (Z.leb_le _ _)) by lia.
Qed.

(** Integers of 53 bits are exact. *)
Lemma dbl_exact n :
  0 < n < 2 ^ 53 ->
  exists m e, dbl n = S754_finite false m e /\ e = Zdigits2 n - 53 /\ e <= 0 /\
    Z.pos m = n * 2 ^ (- e) /\ Z.pos (digits2_pos m) = 53.
Proof.
  intros Hn. assert (Hd : Zdigits2 n <= 53) by (apply digits2_le; lia).
  destruct (digits2_bounds n) as [_ Hd0]; [lia|]. destruct n as [|p|]; try lia.
  cbn [Zdigits2] in *. unfold dbl, binary_normalize, binary_round, fexp, emin.
  set (d := Z.pos (digits2_pos p)) in *. unfold shl_align.
  replace (Z.max (d + 0 - 53) (3 - 1024 - 53) - 0) with (d - 53) by lia.
  replace (Z.max (d + 0 - 53) (3 - 1024 - 53)) with (d - 53) by lia.
  destruct (d - 53) as [|q|q] eqn:Hq; [|lia|].
  - rewrite round_exact by lia. exists p, 0. split; [done|]. split; [lia|]. split; [lia|]. split; [lia|]. lia.
  - rewrite round_exact; [|rewrite digits2_iter, Pos2Z.inj_add; fold d; lia|lia].
    exists (Pos.iter xO p q), (Z.neg q). split_and!; try done || lia.
    + rewrite iter_xO. done.
    + rewrite digits2_iter, Pos2Z.inj_add. fold d. lia.
Qed.

(** A product with an integer *)
Lemma dmul_at_most X d : 0 <= X < 2 ^ 53 -> at_most 1 d -> at_most X (dmul (dbl X) d).
Proof.
  intros HX Hd. destruct (Z.eq_dec X 0) as [->|Hne].
  { destruct d as [s|s| |[] m e]; try done. }
  destruct (dbl_exact X) as (m1 & e1 & -> & _ & He1 & Hm1 & _); [lia|].
  destruct d as [s|s| |[] m e]; try done. destruct Hd as (He & Hm & _). unfold dmul, SFmul. cbn [xorb].
  apply round_bound; [lia|lia|lia|]. cbn [inexact]. rewrite Pos2Z.inj_mul, Hm1, Z.add_0_r.
  replace (- (e1 + e)) with (- e1 + - e) by lia. rewrite Z.pow_add_r by lia.
  assert (0 < 2 ^ (- e1)) by (apply Z.pow_pos_nonneg; lia). nia.
Qed.

Lemma to_uint64_at_most X d : 0 <= X < 2 ^ 53 -> at_most X d -> exists n, to_uint64 d = Some n /\ 0 <= n <= X.
Proof.
  intros HX Hd. unfold to_uint64.
  destruct d as [s|s| |[] m e]; try done; cbn [mbind option_bind].
  { exists 0. split; [reflexivity|lia]. }
  destruct Hd as (He & Hm & _).
  set (n := if e >=? 0 then _ else _).
  assert (Hn : 0 <= n <= X).
  { subst n. destruct (Z.geb_spec e 0).
    - replace e with 0 in * by lia. rewrite Z.mul_1_r in *. lia.
    - split; [apply Z.div_pos; lia|]. apply Z.div_le_upper_bound; [|lia]. apply Z.pow_pos_nonneg; lia. }
  exists n. rewrite (proj2 (Z.leb_le _ _)), (proj2 (Z.ltb_lt _ _)) by lia. done.
Qed.

(** Doubles that the tests find between 0 and 1 *)
Definition fits (d : double) : Prop := match d with S754_finite _ m _ => Z.pos m < 2 ^ 53 | _ => True end.

Lemma d1_eq : exists m1, d1 = S754_finite false m1 (-52) /\ Z.pos m1 = 2 ^ 52.
Proof. exists 4503599627370496%positive. split; [vm_compute; reflexivity|reflexivity]. Qed.

Lemma compare_1 m e :
  dltb d1 (S754_finite false m e) = true <-> -52 < e \/ (e = -52 /\ 2 ^ 52 < Z.pos m).
Proof.
  destruct d1_eq as (m1 & -> & Hm1). unfold dltb, SFltb. cbn [SFcompare].
  destruct (Z.compare_spec (-52) e) as [Heq|Hlt|Hgt]; [|split; [by left|done]|split; [done|lia]].
  change (Pos.compare_cont Eq m1 m) with (m1 ?= m)%positive.
  destruct (Pos.compare_spec m1 m); split; try done; try lia.
Qed.

Lemma tests_at_most d :
  fits d -> d <> S754_nan -> dltb d d0 = false -> dltb d1 d = false -> at_most 1 d.
Proof.
  intros Hf Hn H0 H1. destruct d as [s|[]| |[] m e]; try done.
  cbn [fits] in Hf. assert (Hnot : ~ (-52 < e \/ (e = -52 /\ 2 ^ 52 < Z.pos m))).
  { intros H. apply compare_1 in H. by rewrite H in H1. }
  split; [lia|]. split; [|done]. rewrite Z.mul_1_l. destruct (Z.eq_dec e (-52)) as [->|].
  - change (2 ^ (- (-52))) with (2 ^ 52). lia.
  - apply Z.lt_le_incl, Z.lt_le_trans with (2 ^ 53); [done|]. apply Z.pow_le_mono_r; lia.
Qed.

Lemma fexp_eq e : fexp 53 1024 e = Z.max (e - 53) (-1074).
Proof. done. Qed.

Lemma digits2_ge m n : 2 ^ n <= m -> 0 <= n -> n + 1 <= Zdigits2 m.
Proof.
  intros Hm Hn. assert (0 < 2 ^ n) by (apply Z.pow_pos_nonneg; lia).
  destruct (digits2_bounds m) as [[_ Hhi] Hpos]; [lia|].
  assert (n < Zdigits2 m); [|lia]. apply (Z.pow_lt_mono_r_iff 2); lia.
Qed.

(** A value of at most 1 that has enough digits is rounded to one with an
    exponent of at most -52. *)
Lemma round_fine m e l :
  e <= 0 -> 0 < m -> m + inexact l <= 2 ^ (- e) -> e <= fexp 53 1024 (Zdigits2 m + e) ->
  match binary_round_aux 53 1024 false m e l with S754_finite _ _ e' => e' <= -52 | _ => True end.
Proof.
  intros He Hm Hb Hfine. unfold binary_round_aux.
  assert (Hb1 : m + inexact l <= 1 * 2 ^ (- e)) by lia.
  assert (H1 := shr_fexp_bound 1 m e l ltac:(done) He ltac:(lia) Hb1).
  destruct (shr_fexp 53 1024 m e l) as [r e'] eqn:Hs. destruct H1 as (He' & [Hr _] & Hr').
  assert (Hn := shr_bound m l e (fexp 53 1024 (Zdigits2 m + e) - e) (m + inexact l)).
  unfold shr_fexp in Hs. rewrite Hs in Hn.
  destruct Hn as (Hee & Hrm & _); [lia| |].
  { assert (1 <= 2 ^ Z.max 0 (fexp 53 1024 (Zdigits2 m + e) - e)) by (apply (Z.pow_le_mono_r 2 0); lia).
    assert (0 <= inexact l) by (by destruct l). nia. }
  rewrite fexp_eq in *. set (m' := round_nearest_even _ _).
  assert (Hm' : shr_m r <= m' /\ m' <= 2 ^ (- e')).
  { subst m'. destruct (loc_of_shr_record r) as [|[]]; cbn [round_nearest_even inexact] in *;
      try destruct (Z.even _); lia. }
  destruct Hm' as [Hrm' Hm'].
  unfold shr_fexp in *. rewrite fexp_eq in *.
  set (n2 := Z.max (Zdigits2 m' + e' - 53) (-1074) - e') in *.
  pose proof (shr_bound m' loc_Exact e' n2 m') as H3.
  destruct (shr (shr_record_of_loc m' loc_Exact) e' n2) as [r' e''].
  destruct H3 as (He'' & _); [lia| |].
  { cbn [inexact]. assert (1 <= 2 ^ Z.max 0 n2) by (apply (Z.pow_le_mono_r 2 0); lia). nia. }
  destruct (shr_m r'); try done. destruct (_ <=? _); [|done].
  assert (Hup : Zdigits2 m' + e' <= 1).
  { destruct (Z.eq_dec m' (2 ^ (- e'))) as [Heq|].
    - assert (Zdigits2 m' <= - e' + 1); [|lia]. apply digits2_le; [|lia].
      rewrite Z.pow_add_r by lia. lia.
    - assert (Zdigits2 m' <= - e'); [|lia]. apply digits2_le; lia. }
  assert (Hlow : e' = -1074 \/ 53 <= Zdigits2 m').
  { destruct (Z.le_gt_cases (Zdigits2 m + e - 53) (-1074)); [left; lia|right].
    apply (digits2_ge m' 52); [|lia]. apply Z.le_trans with (shr_m r); [|done]. rewrite Hrm.
    destruct (digits2_bounds m) as [[Hlo _] _]; [lia|].
    apply Z.div_le_lower_bound; [apply Z.pow_pos_nonneg; lia|]. rewrite <- Z.pow_add_r by lia.
    apply Z.le_trans with (2 ^ (Zdigits2 m - 1)); [|done]. apply Z.pow_le_mono_r; lia. }
  lia.
Qed.

(** [k] of [n] rows *)
Definition frac (k n : Z) : double := ddiv (dbl k) (dbl n).

Lemma frac_core k n :
  0 < k <= n -> n < 2 ^ 53 ->
  exists m e l, frac k n = binary_round_aux 53 1024 false m e l /\ e <= 0 /\ 0 < m /\
    m + inexact l <= 2 ^ (- e) /\ e <= fexp 53 1024 (Zdigits2 m + e).
Proof.
  intros Hk Hn. destruct (dbl_exact k) as (m1 & e1 & Hd1 & He1 & He1' & Hm1 & Hp1); [lia|].
  destruct (dbl_exact n) as (m2 & e2 & Hd2 & He2 & He2' & Hm2 & Hp2); [lia|].
  unfold frac. rewrite Hd1, Hd2. unfold ddiv, SFdiv, SFdiv_core_binary. cbn [Zdigits2 xorb].
  rewrite Hp1, Hp2, fexp_eq. set (D := e1 - e2).
  assert (HD : Zdigits2 k <= Zdigits2 n).
  { apply digits2_le; [|destruct (digits2_bounds n); lia]. destruct (digits2_bounds n); lia. }
  assert (Hlim : -53 <= D <= 0).
  { subst D. destruct (digits2_bounds k) as [_ ?]; [lia|]. assert (Zdigits2 n <= 53) by (apply digits2_le; lia). lia. }
  replace (53 + e1 - (53 + e2)) with D by lia.
  set (e' := Z.min _ _). assert (He' : e' = D - 53) by lia. replace (D - e') with 53 by lia.
  cbn match. rewrite Z.shiftl_mul_pow2 by lia.
  assert (H52 : 2 ^ 52 <= Z.pos m1 < 2 ^ 53 /\ 2 ^ 52 <= Z.pos m2 < 2 ^ 53).
  { destruct (digits2_bounds (Z.pos m1)) as [Ha _]; [lia|]. destruct (digits2_bounds (Z.pos m2)) as [Hb _]; [lia|].
    cbn [Zdigits2] in *. rewrite Hp1 in Ha. rewrite Hp2 in Hb. lia. }
  pose proof (Z_div_mod (Z.pos m1 * 2 ^ 53) (Z.pos m2) ltac:(lia)) as Hdm.
  destruct (Z.div_eucl (Z.pos m1 * 2 ^ 53) (Z.pos m2)) as [q r]. destruct Hdm as [Hq Hr].
  exists q, e', (new_location (Z.pos m2) r). split; [done|]. split; [lia|].
  assert (Hq52 : 2 ^ 52 <= q) by nia. split; [lia|]. split.
  - assert (Hle : Z.pos m1 * 2 ^ 53 <= Z.pos m2 * 2 ^ (- e')).
    { rewrite Hm1, Hm2. rewrite <- !Z.mul_assoc, <- !Z.pow_add_r by lia.
      replace (- e2 + - e') with (- e1 + 53) by lia. apply Z.mul_le_mono_nonneg_r; [|lia].
      apply Z.pow_nonneg. lia. }
    destruct (Z.eq_dec r 0) as [->|Hr0].
    + assert (new_location (Z.pos m2) 0 = loc_Exact) as ->.
      { unfold new_location, new_location_even, new_location_odd. by destruct (Z.even _). }
      cbn [inexact]. nia.
    + assert (inexact (new_location (Z.pos m2) r) <= 1) by (destruct (new_location _ _); cbn; lia). nia.
  - rewrite fexp_eq. pose proof (digits2_ge q 52 Hq52 ltac:(lia)). lia.
Qed.

(** The share of rows is a number between 0 and 1, and passes
    [eval_density_result]. *)
Lemma frac_ok k n :
  0 <= k <= n -> 0 < n < 2 ^ 53 -> at_most 1 (frac k n) /\ eval_density_result (frac k n) = frac k n.
Proof.
  intros Hk Hn. destruct (Z.eq_dec k 0) as [->|Hne].
  { destruct (dbl_exact n) as (m & e & Hd & _); [lia|].
    assert (H0 : frac 0 n = d0) by (unfold frac; rewrite Hd; reflexivity).
    rewrite H0. split; [done|vm_compute; reflexivity]. }
  destruct (frac_core k n) as (m & e & l & -> & He & Hm & Hb & Hf); [lia|lia|].
  pose proof (round_bound 1 m e l ltac:(done) He ltac:(lia) ltac:(lia)) as Ha.
  pose proof (round_fine m e l He Hm Hb Hf) as Hfine. split; [done|].
  destruct (binary_round_aux 53 1024 false m e l) as [s|s| |[] p e']; try done.
  unfold eval_density_result. change (dltb (S754_finite false p e') d0) with false.
  destruct (dltb d1 (S754_finite false p e')) eqn:H1; [|done].
  apply compare_1 in H1. destruct Ha as (_ & Ha & _). destruct H1 as [|[-> ?]]; [lia|].
  change (- (-52)) with 52 in Ha. lia.
Qed.

(** ** Products of shares *)

Lemma shr_fexp_spec m e l : 0 <= m ->
  let '(r, e') := shr_fexp 53 1024 m e l in
  let n := Z.max 0 (fexp 53 1024 (Zdigits2 m + e) - e) in
  e' = e + n /\ shr_m r = m / 2 ^ n /\ 0 <= shr_m r < 2 ^ 53.
Proof.
  intros Hm. unfold shr_fexp. set (n := fexp _ _ _ - e).
  assert (Hp : 1 <= 2 ^ Z.max 0 n) by (apply (Z.pow_le_mono_r 2 0); lia).
  pose proof (shr_bound m l e n (m + 1) Hm) as H. destruct (shr _ e n) as [r e'].
  destruct H as (-> & Hr & _); [assert (inexact l <= 1) by (by destruct l); nia|].
  split; [done|]. split; [done|]. rewrite Hr. split; [apply Z.div_pos; lia|].
  destruct (Z.eq_dec m 0) as [->|]; [by rewrite Z.div_0_l by lia|].
  destruct (digits2_bounds m) as [[_ Hhi] _]; [lia|].
  apply Z.div_lt_upper_bound; [lia|]. apply Z.lt_le_trans with (2 ^ Zdigits2 m); [done|].
  rewrite <- Z.pow_add_r by lia. apply Z.pow_le_mono_r; [lia|]. subst n. rewrite fexp_eq. lia.
Qed.

Lemma round_up m l : 0 <= m -> m <= round_nearest_even m l <= m + 1.
Proof. intros. destruct l as [|[]]; cbn [round_nearest_even]; try destruct (Z.even _); lia. Qed.

(** The mantissa of a rounded value has at most 53 bits, *)
Lemma round_fits s m e l : 0 <= m -> fits (binary_round_aux 53 1024 s m e l).
Proof.
  intros Hm. unfold binary_round_aux. pose proof (shr_fexp_spec m e l Hm) as H.
  destruct (shr_fexp 53 1024 m e l) as [r e1]. destruct H as (_ & _ & Hr & _).
  pose proof (round_up (shr_m r) (loc_of_shr_record r) Hr) as Hup. set (m' := round_nearest_even _ _) in *.
  pose proof (shr_fexp_spec m' e1 loc_Exact ltac:(lia)) as H.
  destruct (shr_fexp 53 1024 m' e1 loc_Exact) as [r' e2]. destruct H as (_ & _ & Hr').
  destruct (shr_m r'); try done. destruct (_ <=? _); [|done]. cbn [fits]. lia.
Qed.

(** and just 53 when it came from one with enough bits and is not the smallest
    kind of number. *)
Lemma round_canonical m e l :
  0 < m -> e <= fexp 53 1024 (Zdigits2 m + e) ->
  match binary_round_aux 53 1024 false m e l with
  | S754_finite _ p e' => 2 ^ 52 <= Z.pos p \/ e' <= -1074
  | _ => True
  end.
Proof.
  intros Hm Hf. unfold binary_round_aux. pose proof (shr_fexp_spec m e l ltac:(lia)) as H.
  destruct (shr_fexp 53 1024 m e l) as [r e1]. cbn zeta in H. rewrite fexp_eq in *.
  rewrite Z.max_r in H by lia. destruct H as (He1 & Hrm & Hr & _).
  pose proof (round_up (shr_m r) (loc_of_shr_record r) Hr) as Hup. set (m' := round_nearest_even _ _) in *.
  pose proof (shr_fexp_spec m' e1 loc_Exact ltac:(lia)) as H.
  destruct (shr_fexp 53 1024 m' e1 loc_Exact) as [r' e2]. cbn zeta in H. rewrite fexp_eq in H.
  destruct H as (He2 & Hrm' & _). destruct (shr_m r') as [|p|p] eqn:Hp; try done. destruct (_ <=? _); [|done].
  rewrite Hrm'. assert (Hcase : e1 = -1074 \/ (-1074 < e1 /\ 53 <= Zdigits2 m')).
  { destruct (Z.le_gt_cases (Zdigits2 m + e - 53) (-1074)); [left; lia|right]. split; [lia|].
    apply (digits2_ge m' 52); [|lia]. apply Z.le_trans with (shr_m r); [|lia]. rewrite Hrm.
    destruct (digits2_bounds m) as [[Hlo _] Hd]; [lia|].
    apply Z.div_le_lower_bound; [apply Z.pow_pos_nonneg; lia|]. rewrite <- Z.pow_add_r by lia.
    apply Z.le_trans with (2 ^ (Zdigits2 m - 1)); [|done]. apply Z.pow_le_mono_r; lia. }
  assert (Hm' : 53 <= Zdigits2 m' -> e2 = e1 + (Zdigits2 m' - 53) -> 2 ^ 52 <= m' / 2 ^ (e2 - e1)).
  { intros Hd ->. destruct (digits2_bounds m') as [[Hlo _] _].
    { destruct (Z.eq_dec m' 0) as [Hz|]; [rewrite Hz in Hd; cbn in Hd; lia|lia]. }
    apply Z.div_le_lower_bound; [apply Z.pow_pos_nonneg; lia|]. rewrite <- Z.pow_add_r by lia.
    apply Z.le_trans with (2 ^ (Zdigits2 m' - 1)); [|done]. apply Z.pow_le_mono_r; lia. }
  rewrite He2 in Hm' at 2. replace (e1 + Z.max 0 _ - e1) with (Z.max 0 (Z.max (Zdigits2 m' + e1 - 53) (-1074) - e1)) in Hm' by lia.
  destruct (Z.le_gt_cases 53 (Zdigits2 m')); [left; apply Hm'; lia|right; lia].
Qed.

(** Doubles between 0 and 1 that were rounded *)
Definition in_unit (d : double) : Prop :=
  at_most 1 d /\ match d with S754_finite _ m e => e <= -52 /\ (2 ^ 52 <= Z.pos m \/ e <= -1074) | _ => True end.

Lemma in_unit_round m e l :
  e <= 0 -> 0 < m -> m + inexact l <= 2 ^ (- e) -> e <= fexp 53 1024 (Zdigits2 m + e) ->
  in_unit (binary_round_aux 53 1024 false m e l).
Proof.
  intros He Hm Hb Hf. split; [apply round_bound; lia|].
  pose proof (round_fine m e l He Hm Hb Hf). pose proof (round_canonical m e l Hm Hf).
  by destruct (binary_round_aux _ _ _ _ _ _).
Qed.

Lemma in_unit_frac k n : 0 <= k <= n -> 0 < n < 2 ^ 53 -> in_unit (frac k n).
Proof.
  intros Hk Hn. destruct (Z.eq_dec k 0) as [->|].
  { destruct (dbl_exact n Hn) as (m & e & Hd & _). by unfold frac; rewrite Hd. }
  destruct (frac_core k n) as (m & e & l & -> & He & Hm & Hb & Hf); [lia|lia|]. by apply in_unit_round.
Qed.

Lemma in_unit_d1 : in_unit d1.
Proof. apply (in_unit_frac 1 1); lia. Qed.

Lemma in_unit_mul a b : in_unit a -> in_unit b -> in_unit (dmul a b).
Proof.
  intros [Ha Ha'] [Hb Hb'].
  destruct a as [s| | |[] m1 e1], b as [s'| | |[] m2 e2]; try done.
  unfold dmul, SFmul. cbn [xorb]. destruct Ha as (He1 & Hm1 & _), Hb as (He2 & Hm2 & _).
  apply in_unit_round; [lia|lia| |].
  - cbn [inexact]. rewrite Pos2Z.inj_mul, Z.add_0_r. replace (- (e1 + e2)) with (- e1 + - e2) by lia.
    rewrite Z.pow_add_r by lia. rewrite !Z.mul_1_l in *. nia.
  - rewrite fexp_eq. destruct Ha' as [_ [Hc1|]]; [|lia]. destruct Hb' as [_ [Hc2|]]; [|lia].
    pose proof (digits2_ge (Z.pos (m1 * m2)) 104 ltac:(change (2 ^ 104) with (2 ^ 52 * 2 ^ 52); nia)). lia.
Qed.

Lemma in_unit_tests d : in_unit d -> dltb d d0 = false /\ dltb d1 d = false /\ d <> S754_nan.
Proof.
  intros [Ha Hd]. destruct d as [s|s| |[] m e]; try done. split; [done|]. split; [|done].
  destruct (dltb d1 _) eqn:H1; [|done]. apply compare_1 in H1. destruct Ha as (_ & Ha & _).
  destruct H1 as [|[-> ?]]; [lia|]. change (- (-52)) with 52 in Ha. lia.
Qed.

Lemma fits_mul a b : fits (dmul a b).
Proof. destruct a, b; try done. apply round_fits. lia. Qed.

(** ** Values in order *)

(** A positive integer as a double is at least 1: its exponent is at least
    -52; the opposite differs in its sign. *)
Lemma round_sign p e : -52 <= e ->
  53 <= Zdigits2 (Z.pos p) ->
  (exists m e', -52 <= e' /\ forall s, binary_round_aux 53 1024 s (Z.pos p) e loc_Exact = S754_finite s m e') \/
  (forall s, binary_round_aux 53 1024 s (Z.pos p) e loc_Exact = S754_infinity s).
Proof.
  intros He Hd. unfold binary_round_aux, shr_fexp. rewrite !fexp_eq.
  set (n := Z.max _ _ - e). assert (Hn : n = Zdigits2 (Z.pos p) - 53) by lia.
  pose proof (shr_bound (Z.pos p) loc_Exact e n (Z.pos p) ltac:(lia)) as H1.
  destruct (shr (shr_record_of_loc (Z.pos p) loc_Exact) e n) as [r e1].
  assert (0 < 2 ^ Z.max 0 n) by (apply Z.pow_pos_nonneg; lia).
  destruct H1 as (-> & Hr & _); [cbn [inexact]; nia|].
  assert (Hr0 : 2 ^ 52 <= shr_m r).
  { rewrite Hr. destruct (digits2_bounds (Z.pos p)) as [[Hlo _] _]; [lia|].
    apply Z.div_le_lower_bound; [lia|]. rewrite <- Z.pow_add_r by lia.
    apply Z.le_trans with (2 ^ (Zdigits2 (Z.pos p) - 1)); [|done]. apply Z.pow_le_mono_r; lia. }
  set (m' := round_nearest_even _ _).
  assert (Hm' : 2 ^ 52 <= m' <= shr_m r + 1).
  { subst m'. destruct (loc_of_shr_record r) as [|[]]; cbn [round_nearest_even]; try destruct (Z.even _); lia. }
  set (e1 := e + Z.max 0 n) in *. rewrite fexp_eq. set (n2 := Z.max _ _ - e1).
  pose proof (shr_bound m' loc_Exact e1 n2 m' ltac:(lia)) as H2.
  destruct (shr (shr_record_of_loc m' loc_Exact) e1 n2) as [r' e2].
  assert (0 < 2 ^ Z.max 0 n2) by (apply Z.pow_pos_nonneg; lia).
  destruct H2 as (-> & Hr' & _); [cbn [inexact]; nia|].
  assert (Hpos : 0 < shr_m r').
  { rewrite Hr'. pose proof (digits2_ge m' 52 ltac:(lia) ltac:(lia)) as Hd'.
    destruct (digits2_bounds m') as [[Hlo _] _]; [lia|]. apply Z.div_str_pos. split; [lia|].
    apply Z.le_trans with (2 ^ (Zdigits2 m' - 1)); [|done]. apply Z.pow_le_mono_r; [lia|]. subst n2. lia. }
  destruct (shr_m r') as [|q|q]; try lia. destruct (_ <=? _); [left|by right].
  exists q, (e1 + Z.max 0 n2). split; [lia|done].
Qed.

Lemma dbl_sign p :
  (exists m e, -52 <= e /\ dbl (Z.pos p) = S754_finite false m e /\ dbl (Z.neg p) = S754_finite true m e) \/
  (dbl (Z.pos p) = S754_infinity false /\ dbl (Z.neg p) = S754_infinity true).
Proof.
  unfold dbl, binary_normalize, binary_round. rewrite fexp_eq, Z.add_0_r.
  set (d := Z.pos (digits2_pos p)). destruct (digits2_bounds (Z.pos p)) as [_ Hd]; [lia|].
  cbn [Zdigits2] in Hd. fold d in Hd. replace (Z.max (d - 53) (-1074)) with (d - 53) by lia.
  unfold shl_align. rewrite Z.sub_0_r.
  assert (H : forall q e, -52 <= e -> 53 <= Zdigits2 (Z.pos q) ->
    (exists m e', -52 <= e' /\ binary_round_aux 53 1024 false (Z.pos q) e loc_Exact = S754_finite false m e' /\
       binary_round_aux 53 1024 true (Z.pos q) e loc_Exact = S754_finite true m e') \/
    (binary_round_aux 53 1024 false (Z.pos q) e loc_Exact = S754_infinity false /\
       binary_round_aux 53 1024 true (Z.pos q) e loc_Exact = S754_infinity true)).
  { intros q e He Hq. destruct (round_sign q e He Hq) as [(m & e' & ? & Hs)|Hs]; [left; by exists m, e'|by right]. }
  destruct (d - 53) as [|k|k] eqn:Hk.
  - apply H; cbn [Zdigits2]; fold d; lia.
  - apply H; cbn [Zdigits2]; fold d; lia.
  - apply H; [lia|]. cbn [Zdigits2]. rewrite digits2_iter, Pos2Z.inj_add. fold d. lia.
Qed.

(** The comparison of a difference of two integers as a double *)
Lemma of_double_dbl a b : of_double (dbl (a - b)) = two_nums_compare a b.
Proof.
  unfold two_nums_compare. destruct (a - b) as [|p|p] eqn:Hd.
  - assert ((a >? b) = false) as -> by (zb; lia). assert ((a <? b) = false) as -> by (zb; lia).
    vm_compute. reflexivity.
  - assert ((a >? b) = true) as -> by (zb; lia). unfold of_double, REAL_EPSINON.
    destruct (dbl_sign p) as [(m & e & He & -> & _)|[-> _]]; [|done]. unfold dltb, SFltb. cbn [SFabs SFcompare].
    destruct (Z.compare_spec e (-69)); [lia|lia|done].
  - assert ((a >? b) = false) as -> by (zb; lia). assert ((a <? b) = true) as -> by (zb; lia).
    unfold of_double, REAL_EPSINON.
    destruct (dbl_sign p) as [(m & e & He & _ & ->)|[_ ->]]; [|done]. unfold dltb, SFltb. cbn [SFabs SFcompare].
    destruct (Z.compare_spec e (-69)); [lia|lia|done].
Qed.

Section Ordered.
Context {M : MySQL} {CS : CboServer}.

(** The number that the values of a column are ordered by, for the types that
    are compared as integers *)
Definition ord (f : Field) (v : cache_variant_t) : option Z :=
  match f_real_type f with
  | MYSQL_TYPE_SET => Some (if f_pack_length f <=? 4 then v_uint32 v else v_ubigint v)
  | MYSQL_TYPE_ENUM => Some (v_uint32 v)
  | MYSQL_TYPE_BIT => Some (v_ubigint v)
  | MYSQL_TYPE_TINY | MYSQL_TYPE_SHORT | MYSQL_TYPE_INT24 | MYSQL_TYPE_LONG =>
    Some (if f_unsigned f then v_uint32 v else v_int v)
  | MYSQL_TYPE_LONGLONG => Some (if f_unsigned f then v_ubigint v else v_bigint v)
  | MYSQL_TYPE_NEWDATE => Some (le_val (take 3 (v_date_bytes v)))
  | MYSQL_TYPE_DATETIME2 => Some (my_datetime_packed_from_binary (v_date_bytes v) DateCnvrt.DATETIME_MAX_DECIMALS)
  | MYSQL_TYPE_TIME2 => Some (my_time_packed_from_binary (v_date_bytes v) DateCnvrt.DATETIME_MAX_DECIMALS)
  | _ => None
  end.

Lemma compare_ord f a b x y : ord f a = Some x -> ord f b = Some y -> compare a b f = two_nums_compare x y.
Proof.
  unfold ord, compare. intros Ha Hb.
  destruct (f_real_type f); try done; simplify_eq; try done;
    try (unfold date_compare, datetime_compare, time_compare; apply of_double_dbl).
  - by destruct (f_unsigned f).
  - by destruct (f_unsigned f).
  - by destruct (f_unsigned f).
  - by destruct (f_unsigned f).
  - by destruct (f_unsigned f).
  - by destruct (f_pack_length f <=? 4).
Qed.

(** ** Frequency histograms *)

Lemma all_of {A} (P : A -> Prop) l x : Forall P l -> x ∈ l -> P x.
Proof. intros H Hx. exact (proj1 (Forall_forall _ _) H x (proj1 (list_elem_of_In _ _) Hx)). Qed.

(** How many rows satisfy a test *)
Definition count (P : Z -> bool) (rows : list Z) : Z := Z.of_nat (length (List.filter P rows)).

Lemma count_ext P Q rows : Forall (fun r => P r = Q r) rows -> count P rows = count Q rows.
Proof.
  unfold count. induction 1 as [|r rows Hr _ IH]; [done|]. cbn [List.filter]. rewrite Hr.
  destruct (Q r); cbn [length]; lia.
Qed.

Lemma count_split P Q rows :
  Forall (fun r => Q r = true -> P r = true) rows ->
  count (fun r => P r && negb (Q r)) rows = count P rows - count Q rows.
Proof.
  unfold count. induction 1 as [|r rows Hr _ IH]; [done|]. cbn [List.filter].
  destruct (P r), (Q r); cbn [length andb negb]; try lia.
Qed.

Lemma count_negb P rows : count (fun r => negb (P r)) rows = Z.of_nat (length rows) - count P rows.
Proof.
  unfold count. induction rows as [|r rows IH]; [done|]. cbn [List.filter].
  destruct (P r); cbn [length negb]; lia.
Qed.

Lemma count_bounds P rows : 0 <= count P rows <= Z.of_nat (length rows).
Proof. unfold count. pose proof (filter_length_le P rows). lia. Qed.

(** The rows [rows] of a column as the numbers they are ordered by; a
    frequency histogram has a bucket for each of their values. *)
Record frequency_histogram (f : Field) (rows : list Z) (hist : list ctc_cbo_column_hist_t) (values : list Z) : Prop := {
  fh_values : Forall2 (fun h z => ord f (ep_value h) = Some z /\
                         ep_number h = count (fun r => r <=? z) rows) hist values;
  fh_sorted : StronglySorted Z.lt values;
  fh_rows : Forall (fun r => r ∈ values) rows }.

Definition among (l : list Z) (r : Z) : bool := bool_decide (r ∈ l).

Lemma sorted_app_lt l z k :
  StronglySorted Z.lt (l ++ z :: k) -> Forall (fun y => y < z) l /\ Forall (fun y => z < y) k.
Proof.
  induction l as [|y l IH]; cbn; intros H; apply StronglySorted_inv in H as [H1 H2].
  - split; [constructor|done].
  - destruct (IH H1) as [Hl Hk]. split; [|done]. constructor; [|done].
    apply Forall_app in H2 as [_ H2]. by inversion H2.
Qed.

(** The number of a bucket counts the rows of the values up to its own. *)
Lemma bucket_number rows pre z vals :
  StronglySorted Z.lt (pre ++ z :: vals) -> Forall (fun r => r ∈ pre ++ z :: vals) rows ->
  count (fun r => r <=? z) rows = count (among (pre ++ [z])) rows.
Proof.
  intros Hs Hr. destruct (sorted_app_lt _ _ _ Hs) as [Hl Hk]. apply count_ext.
  revert Hr. apply Forall_impl. intros r Hr. unfold among.
  apply elem_of_app in Hr as [Hr|Hr].
  - rewrite bool_decide_eq_true_2 by (apply elem_of_app; by left).
    pose proof (all_of _ _ _ Hl Hr) as Hlt. cbn beta in Hlt. zb; lia.
  - apply elem_of_cons in Hr as [->|Hr].
    + rewrite bool_decide_eq_true_2 by (apply elem_of_app; right; by apply list_elem_of_singleton). zb; lia.
    + pose proof (all_of _ _ _ Hk Hr) as Hlt. cbn beta in Hlt.
      rewrite bool_decide_eq_false_2; [zb; lia|]. intros [Hin|Hin%list_elem_of_singleton]%elem_of_app; [|lia].
      pose proof (all_of _ _ _ Hl Hin) as Hlt'. cbn beta in Hlt'. lia.
Qed.

Lemma count_among_snoc pre x rows :
  ~ x ∈ pre -> count (among (pre ++ [x])) rows = count (among pre) rows + count (fun r => r =? x) rows.
Proof.
  intros Hnx. unfold count, among. induction rows as [|r rows IH]; [done|]. cbn [List.filter].
  destruct (Z.eqb_spec r x) as [->|Hne].
  - rewrite (bool_decide_eq_true_2 (x ∈ pre ++ [x])) by (apply elem_of_app; right; by apply list_elem_of_singleton).
    rewrite (bool_decide_eq_false_2 (x ∈ pre)) by done. cbn [length]. lia.
  - rewrite (bool_decide_ext (r ∈ pre ++ [x]) (r ∈ pre)).
    + destruct (bool_decide (r ∈ pre)); cbn [length]; lia.
    + rewrite elem_of_app, list_elem_of_singleton. tauto.
Qed.

Lemma count_none P rows : Forall (fun r => P r = false) rows -> count P rows = 0.
Proof. unfold count. induction 1 as [|r rows Hr _ IH]; [done|]. cbn [List.filter]. by rewrite Hr. Qed.

(** The loops over the buckets: [pre] are the values passed. *)
Lemma rows_before_spec f rows stop P hist vals : forall pre prev,
  Forall2 (fun h z => ord f (ep_value h) = Some z /\ ep_number h = count (fun r => r <=? z) rows) hist vals ->
  StronglySorted Z.lt (pre ++ vals) -> Forall (fun r => r ∈ pre ++ vals) rows ->
  (forall v z, ord f v = Some z -> stop v = P z) -> (forall a b, P a = true -> a <= b -> P b = true) ->
  Forall (fun z => P z = false) pre -> prev = count (among pre) rows ->
  match rows_before hist stop prev with
  | Some n => n = count (fun r => negb (P r)) rows
  | None => count (fun r => negb (P r)) rows = Z.of_nat (length rows)
  end.
Proof.
  intros pre prev H. revert pre prev. induction H as [|h z hist vals [Ho Hn] _ IH]; intros pre prev Hs Hr Hst Hup Hpre Hprev.
  - cbn. rewrite app_nil_r in Hr. rewrite (count_ext _ (fun _ => true)).
    + unfold count. clear. induction rows; cbn in *; lia.
    + revert Hr. apply Forall_impl. intros r Hin.
      pose proof (all_of _ _ _ Hpre Hin) as HP. cbn beta in HP. by rewrite HP.
  - cbn [rows_before]. rewrite (Hst _ _ Ho). destruct (P z) eqn:HP.
    + rewrite Hprev. apply count_ext. destruct (sorted_app_lt _ _ _ Hs) as [_ Hk].
      revert Hr. apply Forall_impl. intros r Hin. unfold among. apply elem_of_app in Hin as [Hin|Hin].
      * rewrite bool_decide_eq_true_2 by done.
        pose proof (all_of _ _ _ Hpre Hin) as HPr. cbn beta in HPr. by rewrite HPr.
      * assert (Hge : z <= r).
        { apply elem_of_cons in Hin as [->|Hin]; [done|].
          pose proof (all_of _ _ _ Hk Hin) as Hlt. cbn beta in Hlt. lia. }
        rewrite (Hup z r HP Hge). apply bool_decide_eq_false_2. intros Hp.
        pose proof (all_of _ _ _ Hpre Hp) as HPr. cbn beta in HPr.
        by rewrite (Hup z r HP Hge) in HPr.
    + apply (IH (pre ++ [z])); rewrite <- ?(assoc_L (++)); try done.
      * apply Forall_app. split; [done|]. by constructor.
      * rewrite Hn. by apply (bucket_number rows pre z vals).
Qed.

Lemma equal_rows_spec f rows val x hist vals : forall pre first prev,
  Forall2 (fun h z => ord f (ep_value h) = Some z /\ ep_number h = count (fun r => r <=? z) rows) hist vals ->
  StronglySorted Z.lt (pre ++ vals) -> Forall (fun r => r ∈ pre ++ vals) rows ->
  ord f val = Some x -> Forall (fun z => z < x) pre ->
  (first = true -> pre = []) -> (first = false -> prev = count (among pre) rows) ->
  equal_rows hist first prev val f = count (fun r => r =? x) rows.
Proof.
  intros pre first prev H. revert pre first prev.
  induction H as [|h z hist vals [Ho Hn] _ IH]; intros pre first prev Hs Hr Hx Hpre H1 H2.
  - cbn. rewrite app_nil_r in Hr. rewrite (count_ext _ (fun _ => false)).
    + unfold count. clear. induction rows; cbn in *; lia.
    + revert Hr. apply Forall_impl. intros r Hin.
      pose proof (all_of _ _ _ Hpre Hin) as Hlt. cbn beta in Hlt. zb; lia.
  - destruct (sorted_app_lt _ _ _ Hs) as [Hl Hk]. cbn [equal_rows].
    rewrite (compare_ord f _ _ _ _ Ho Hx). unfold two_nums_compare.
    destruct (Z.gtb_spec z x) as [Hgt|Hle]; [|destruct (Z.ltb_spec z x) as [Hlt|Hge]].
    + symmetry. rewrite (count_ext _ (fun _ => false)).
      * unfold count. clear. induction rows; cbn in *; lia.
      * revert Hr. apply Forall_impl. intros r [Hin|[->|Hin]%elem_of_cons]%elem_of_app.
        -- pose proof (all_of _ _ _ Hpre Hin) as Hlt. cbn beta in Hlt. zb; lia.
        -- zb; lia.
        -- pose proof (all_of _ _ _ Hk Hin) as Hlt. cbn beta in Hlt. zb; lia.
    + apply (IH (pre ++ [z])); rewrite <- ?(assoc_L (++)); try done.
      * apply Forall_app. split; [done|]. by constructor.
      * intros _. rewrite Hn. by apply (bucket_number rows pre z vals).
    + assert (z = x) as -> by lia. rewrite Hn, (bucket_number rows pre x vals) by done.
      assert (Hsum : count (among (pre ++ [x])) rows = count (among pre) rows + count (fun r => r =? x) rows).
      { apply count_among_snoc. intros Hin. pose proof (all_of _ _ _ Hl Hin) as Hlt. cbn beta in Hlt. lia. }
      destruct first.
      * rewrite (H1 eq_refl) in *. rewrite Hsum. unfold count at 1. replace (List.filter (among []) rows) with (@nil Z).
        -- done.
        -- clear. induction rows as [|r rows IH]; [done|]. cbn [List.filter]. unfold among at 1.
           by rewrite bool_decide_eq_false_2 by apply not_elem_of_nil.
      * rewrite (H2 eq_refl), Hsum. lia.
Qed.

(** ** Selectivity of a range *)

Definition above (t : ctc_cmp_type_t) (lo r : Z) : bool :=
  if decide (t = CMP_TYPE_CLOSE_INTERNAL) then lo <=? r else lo <? r.
Definition below (t : ctc_cmp_type_t) (hi r : Z) : bool :=
  if decide (t = CMP_TYPE_CLOSE_INTERNAL) then r <=? hi else r <? hi.
Definition within (t1 t2 : ctc_cmp_type_t) (lo hi r : Z) : bool := above t1 lo r && below t2 hi r.

(** The boundaries do not exclude their only value twice. *)
Definition proper_range (t1 t2 : ctc_cmp_type_t) (lo hi : Z) : Prop :=
  t1 <> CMP_TYPE_NULL /\ t2 <> CMP_TYPE_NULL /\
  (lo <> hi \/ t1 = CMP_TYPE_CLOSE_INTERNAL \/ t2 = CMP_TYPE_CLOSE_INTERNAL).

Ltac stop_cases t z b :=
  destruct t; try done; destruct (Z.gtb_spec z b); try (destruct (Z.ltb_spec z b));
  repeat case_bool_decide; repeat case_decide; try done; cbn [andb orb];
  destruct (b <=? z) eqn:?, (b <? z) eqn:?, (z <=? b) eqn:?, (z <? b) eqn:?; zb; try done; lia.

Lemma min_stop_above f sv lo v z :
  min_type sv <> CMP_TYPE_NULL -> ord f (min_key_val sv) = Some lo -> ord f v = Some z ->
  min_stop sv f v = above (min_type sv) lo z.
Proof.
  intros Ht Hlo Hz. unfold min_stop, above. rewrite (compare_ord f _ _ _ _ Hz Hlo). unfold two_nums_compare.
  stop_cases (min_type sv) z lo.
Qed.

Lemma max_stop_below f sv hi v z :
  max_type sv <> CMP_TYPE_NULL -> ord f (max_key_val sv) = Some hi -> ord f v = Some z ->
  max_stop sv f v = negb (below (max_type sv) hi z).
Proof.
  intros Ht Hhi Hz. unfold max_stop, below. rewrite (compare_ord f _ _ _ _ Hz Hhi). unfold two_nums_compare.
  stop_cases (max_type sv) z hi.
Qed.

(** The number of the last bucket is the number of rows. *)
Lemma last_number_rows f rows col values :
  frequency_histogram f rows (column_hist col) values -> rows <> [] ->
  last_number col = Some (Z.of_nat (length rows)).
Proof.
  intros [Hv Hs Hr] Hne. unfold last_number.
  destruct values as [|z vals _] using rev_ind.
  { destruct rows as [|r rows]; [done|]. apply Forall_inv in Hr. by apply not_elem_of_nil in Hr. }
  apply Forall2_app_inv_r in Hv as (h1 & h2 & Hv1 & Hv2 & ->).
  apply Forall2_cons_inv_r in Hv2 as (h & h3 & [_ Hn] & Hv3 & ->). apply Forall2_nil_inv_r in Hv3 as ->.
  rewrite length_app. cbn [length]. rewrite Nat.add_sub, list_lookup_middle by done. cbn [option_map].
  rewrite Hn, (bucket_number rows vals z []) by done. f_equal.
  rewrite (count_ext _ (fun _ => true)).
  - unfold count. clear. induction rows; cbn in *; lia.
  - revert Hr. apply Forall_impl. intros r Hin. unfold among. by apply bool_decide_eq_true_2.
Qed.

Lemma rows_before_count f rows stop P col values :
  frequency_histogram f rows (column_hist col) values ->
  (forall v z, ord f v = Some z -> stop v = P z) -> (forall a b, P a = true -> a <= b -> P b = true) ->
  match rows_before (column_hist col) stop 0 with
  | Some n => n = count (fun r => negb (P r)) rows
  | None => count (fun r => negb (P r)) rows = Z.of_nat (length rows)
  end.
Proof.
  intros [Hv Hs Hr] Hst Hup. apply (rows_before_spec f rows stop P _ values [] 0); try done.
  symmetry. apply count_none. apply Forall_forall. intros r _. unfold among.
  apply bool_decide_eq_false_2. apply not_elem_of_nil.
Qed.

Lemma between_frequency f rows col values sv lo hi :
  frequency_histogram f rows (column_hist col) values -> rows <> [] ->
  ord f (min_key_val sv) = Some lo -> ord f (max_key_val sv) = Some hi -> lo <= hi ->
  proper_range (min_type sv) (max_type sv) lo hi ->
  calc_hist_between_frequency col sv f
  = Some (frac (count (within (min_type sv) (max_type sv) lo hi) rows) (Z.of_nat (length rows))).
Proof.
  intros Hh Hne Hlo Hhi Hle (Ht1 & Ht2 & Hp). unfold calc_hist_between_frequency.
  rewrite (last_number_rows f rows col values Hh Hne). cbn [mbind option_bind].
  set (total := Z.of_nat (length rows)).
  assert (Htot : 0 < total) by (subst total; destruct rows; [done|cbn [length]; lia]).
  assert ((total >? 0) = true) as -> by (zb; lia). unfold frac. do 3 f_equal.
  pose proof (rows_before_count f rows (min_stop sv f) (above (min_type sv) lo) col values Hh
    (fun v z => min_stop_above f sv lo v z Ht1 Hlo)) as Hmin.
  pose proof (rows_before_count f rows (max_stop sv f) (fun r => negb (below (max_type sv) hi r)) col values Hh
    (fun v z => max_stop_below f sv hi v z Ht2 Hhi)) as Hmax.
  unfold within. rewrite (count_ext _ (fun r => above (min_type sv) lo r && negb (negb (below (max_type sv) hi r))))
    by (apply Forall_forall; intros r _; by rewrite negb_involutive).
  rewrite count_split, (count_negb _ rows).
  2:{ apply Forall_forall. intros r _. unfold above, below in *.
      repeat case_decide; intros; zb; try lia; destruct Hp as [|[|]]; congruence || lia. }
  rewrite count_negb in Hmin. rewrite count_negb, count_negb in Hmax. fold total in Hmin, Hmax |- *.
  assert (H1 : forall a b, above (min_type sv) lo a = true -> a <= b -> above (min_type sv) lo b = true).
  { unfold above. intros a b. case_decide; intros; zb; lia. }
  assert (H2 : forall a b, negb (below (max_type sv) hi a) = true -> a <= b -> negb (below (max_type sv) hi b) = true).
  { unfold below. intros a b. case_decide; intros; zb; lia. }
  specialize (Hmin H1). specialize (Hmax H2).
  destruct (rows_before (column_hist col) (min_stop sv f) 0), (rows_before (column_hist col) (max_stop sv f) 0);
    cbn [default]; unfold id; lia.
Qed.

(** The statistics of a column whose values, but for null, are [rows], between
    [l] and [h]. *)
Record column_ok (f : Field) (rows : list Z) (col : ctc_cbo_stats_column_t) (l h : Z) : Prop := {
  co_type : hist_type col = FREQUENCY_HIST;
  co_size : hist_count col <= STATS_HISTGRAM_MAX_SIZE;
  co_hist : exists values, frequency_histogram f rows (column_hist col) values;
  co_low : ord f (low_value col) = Some l;
  co_high : ord f (high_value col) = Some h;
  co_rows : Forall (fun r => l <= r <= h) rows;
  co_some : 0 < Z.of_nat (length rows) < 2 ^ 53 }.

Lemma column_hist_count f rows col l h : column_ok f rows col l h -> hist_count col <> 0.
Proof.
  intros [_ _ [values [Hv _ Hr]] _ _ _ Hn]. unfold hist_count. intros H0.
  assert (Hh : column_hist col = []) by (apply nil_length_inv; lia). rewrite Hh in Hv.
  apply Forall2_nil_inv_l in Hv as ->. destruct rows as [|r rows]; [cbn in Hn; lia|].
  apply Forall_inv in Hr. by apply not_elem_of_nil in Hr.
Qed.

Lemma between_density f rows stats col_id col l h sv lo hi :
  columns stats !! col_id = Some col -> column_ok f rows col l h ->
  ord f (min_key_val sv) = Some lo -> ord f (max_key_val sv) = Some hi -> lo <= hi ->
  proper_range (min_type sv) (max_type sv) lo hi ->
  calc_hist_between_density stats col_id f sv
  = Some (frac (count (within (min_type sv) (max_type sv) lo hi) rows) (Z.of_nat (length rows))).
Proof.
  intros Hc Hok Hlo Hhi Hle Hp. unfold calc_hist_between_density. rewrite Hc. cbn [mbind option_bind].
  pose proof (column_hist_count f rows col l h Hok) as H0. destruct Hok as [Ht Hs [values Hh] _ _ _ Hn].
  rewrite (proj2 (Z.eqb_neq _ _)) by done. assert ((hist_count col >? STATS_HISTGRAM_MAX_SIZE) = false) as -> by (zb; lia).
  rewrite decide_True by done. apply (between_frequency f rows col values); try done.
  intros ->. cbn in Hn. lia.
Qed.

Lemma equal_density f rows stats col_id col l h v x :
  columns stats !! col_id = Some col -> column_ok f rows col l h -> ord f v = Some x ->
  calc_hist_equal_density stats v col_id f = Some (frac (count (fun r => r =? x) rows) (Z.of_nat (length rows))).
Proof.
  intros Hc Hok Hx. unfold calc_hist_equal_density. rewrite Hc. cbn [mbind option_bind].
  pose proof (column_hist_count f rows col l h Hok) as H0. destruct Hok as [Ht Hs [values Hh] _ _ _ Hn].
  rewrite (proj2 (Z.eqb_neq _ _)) by done. assert ((hist_count col >? STATS_HISTGRAM_MAX_SIZE) = false) as -> by (zb; lia).
  rewrite decide_True by done. unfold calc_frequency_hist_equal_density.
  assert (Heq : equal_rows (column_hist col) true 0 v f = count (fun r => r =? x) rows).
  { destruct Hh as [Hv Hsrt Hr]. by apply (equal_rows_spec f rows v x (column_hist col) values [] true 0). }
  assert (Hne : rows <> []) by (intros ->; cbn in Hn; lia).
  rewrite Heq, (last_number_rows f rows col values Hh Hne).
  pose proof (count_bounds (fun r => r =? x) rows). set (n := count _ rows) in *. cbn [mbind option_bind].
  destruct (Z.gtb_spec n 0).
  - assert ((Z.of_nat (length rows) >? 0) = true) as -> by (zb; lia). done.
  - assert (n = 0) as -> by lia. destruct (dbl_exact (Z.of_nat (length rows))) as (m & e & Hd & _); [lia|].
    unfold frac. by rewrite Hd.
Qed.

(** The rows of a range outside of the values, or whose ends are in the wrong
    order *)
Lemma within_none t1 t2 lo hi l h rows :
  Forall (fun r => l <= r <= h) rows -> hi < l \/ h < lo \/ hi < lo -> count (within t1 t2 lo hi) rows = 0.
Proof.
  intros H Hout. apply count_none. revert H. apply Forall_impl. intros r Hr.
  unfold within, above, below. repeat case_decide; apply andb_false_iff; zb; lia.
Qed.

Lemma frac_0 n : 0 < n < 2 ^ 53 -> frac 0 n = d0.
Proof. intros H. destruct (dbl_exact n H) as (m & e & Hd & _). unfold frac. by rewrite Hd. Qed.

Lemma two_nums_cases a b :
  (b < a /\ two_nums_compare a b = GREAT) \/ (a < b /\ two_nums_compare a b = LESS) \/
  (a = b /\ two_nums_compare a b = EQUAL).
Proof. unfold two_nums_compare. destruct (Z.gtb_spec a b), (Z.ltb_spec a b); try lia; auto with lia. Qed.

(** The end of [calc_density_by_cond] *)
Lemma density_by_order f rows stats col_id col l h mn mx t1 t2 lo hi (rest : bool * ctc_range_key) :
  columns stats !! col_id = Some col -> column_ok f rows col l h ->
  ord f mn = Some lo -> ord f mx = Some hi -> proper_range t1 t2 lo hi ->
  let ret d := Some (d, fst rest, snd rest) in
  exists d,
    (if bool_decide (two_nums_compare hi lo = EQUAL) && bool_decide (t1 = CMP_TYPE_CLOSE_INTERNAL)
        && bool_decide (t2 = CMP_TYPE_CLOSE_INTERNAL)
     then d ← calc_hist_equal_density stats mx col_id f; ret d
     else match two_nums_compare hi lo with
          | UNCOMPARABLE => ret DEFAULT_RANGE_DENSITY
          | LESS => ret d0
          | _ => d ← calc_hist_between_density stats col_id f (mk_stats_val t1 t2 mx mn); ret d
          end) = ret d /\
    eval_density_result d = frac (count (within t1 t2 lo hi) rows) (Z.of_nat (length rows)).
Proof.
  intros Hc Hok Hlo Hhi Hp ret. pose proof Hok as [_ _ _ _ _ Hrows Hn].
  assert (Hfrac : forall w, eval_density_result (frac (count w rows) (Z.of_nat (length rows)))
      = frac (count w rows) (Z.of_nat (length rows))) by (intros w; apply frac_ok; [apply count_bounds|done]).
  pose proof (between_density f rows stats col_id col l h (mk_stats_val t1 t2 mx mn) lo hi Hc Hok Hlo Hhi) as Hbet.
  cbn [min_type max_type] in Hbet.
  destruct (two_nums_cases hi lo) as [[Hlt H]|[[Hlt H]|[Heq H]]]; rewrite ?H.
  - rewrite bool_decide_eq_false_2 by done. cbn [andb]. rewrite Hbet by (done || lia). cbn [mbind option_bind].
    eexists. split; [reflexivity|]. apply Hfrac.
  - rewrite bool_decide_eq_false_2 by done. cbn [andb]. eexists. split; [reflexivity|].
    rewrite (within_none _ _ lo hi l h rows Hrows), frac_0 by (done || lia). vm_compute. reflexivity.
  - rewrite bool_decide_eq_true_2 by done. cbn [andb].
    destruct (bool_decide (t1 = CMP_TYPE_CLOSE_INTERNAL) && bool_decide (t2 = CMP_TYPE_CLOSE_INTERNAL)) eqn:Hb.
    + apply andb_true_iff in Hb as [H1%bool_decide_eq_true H2%bool_decide_eq_true]. subst t1 t2 lo.
      rewrite (equal_density f rows stats col_id col l h mx hi Hc Hok Hhi). cbn [mbind option_bind].
      eexists. split; [reflexivity|]. rewrite Hfrac. f_equal. apply count_ext, Forall_forall. intros r _.
      unfold within, above, below. rewrite !decide_True by done. zb; lia.
    + rewrite Hbet by (done || lia). cbn [mbind option_bind]. eexists. split; [reflexivity|]. apply Hfrac.
Qed.

Lemma density_by_cond stats kp col_id col rows l h off min_key max_key mn mx min_key' max_key' lo hi cont :
  let f := IndexSearch.kp_field kp in
  columns stats !! col_id = Some col -> column_ok f rows col l h ->
  extract_boundary_value min_key kp (zero_variant f) (low_value col) off = Some (mn, min_key') -> ord f mn = Some lo ->
  extract_boundary_value max_key kp (zero_variant f) (high_value col) off = Some (mx, max_key') -> ord f mx = Some hi ->
  proper_range (cmp_type min_key') (cmp_type max_key') lo hi ->
  exists d, calc_density_by_cond stats kp (min_key, max_key) off col_id cont
    = Some (d, if lo =? hi then cont else false, (min_key', max_key')) /\
  eval_density_result d
    = frac (count (within (cmp_type min_key') (cmp_type max_key') lo hi) rows) (Z.of_nat (length rows)).
Proof.
  intros f Hc Hok Hmn Hlo Hmx Hhi Hp. set (w := within _ _ lo hi). unfold calc_density_by_cond.
  rewrite Hc. cbn [mbind option_bind]. fold f. rewrite Hmn. cbn [mbind option_bind]. rewrite Hmx.
  cbn [mbind option_bind]. pose proof Hok as [_ _ _ Hl Hh Hrows Hn].
  rewrite (compare_ord f _ _ _ _ Hhi Hlo), (compare_ord f _ _ _ _ Hhi Hl), (compare_ord f _ _ _ _ Hlo Hh).
  assert (Hcont : (if decide (two_nums_compare hi lo <> EQUAL) then false else cont) = (if lo =? hi then cont else false)).
  { unfold two_nums_compare. destruct (Z.gtb_spec hi lo), (Z.ltb_spec hi lo), (Z.eqb_spec lo hi); try lia; done. }
  rewrite Hcont. clear Hcont.
  assert (Hnone : hi < l \/ h < lo \/ hi < lo -> eval_density_result d0 = frac (count w rows) (Z.of_nat (length rows))).
  { intros Hout. subst w. rewrite (within_none _ _ lo hi l h rows Hrows Hout), frac_0 by done. vm_compute. reflexivity. }
  destruct (two_nums_cases hi l) as [[? H1]|[[? H1]|[? H1]]];
    [|rewrite decide_True by done; eexists; split; [reflexivity|apply Hnone; lia]|].
  all: rewrite (decide_False (P := two_nums_compare hi l = LESS)) by (rewrite H1; done).
  all: destruct (two_nums_cases lo h) as [[? H2]|[[? H2]|[? H2]]];
    [rewrite decide_True by done; eexists; split; [reflexivity|apply Hnone; lia]|..].
  all: rewrite (decide_False (P := two_nums_compare lo h = GREAT)) by (rewrite H2; done).
  all: exact (density_by_order f rows stats col_id col l h mn mx _ _ lo hi
    (if lo =? hi then cont else false, (min_key', max_key')) Hc Hok Hlo Hhi Hp).
Qed.

(** ** Boundaries of integer columns *)

Lemma put_low w z v : 0 <= w -> v_bits v = 0 -> v_bits (put w z v) = wrapU w z.
Proof. intros Hw Hv. unfold put. cbn [v_bits]. rewrite Hv. cbn. done. Qed.

Definition ctc_int (kp : KEY_PART_INFO) (n : nat) : Prop :=
  exists m, Numeric.int_width (f_real_type (IndexSearch.kp_field kp)) = Some (n, m) /\
    IndexSearch.var_part kp = false.

Lemma int_ord (BO : ByteOrder M) f key v rest ret n m :
  Numeric.int_width (f_real_type f) = Some (n, m) -> length v = n -> Forall byte v -> v_bits ret = 0 ->
  key = v ++ rest ->
  exists var, extract_value f key 0 ret = Some var /\ ord f var = Some (Numeric.int_value (f_unsigned f) n v).
Proof.
  intros Ht Hl Hb Hret ->.
  assert (Hrd : forall k, k = Z.of_nat n -> rd (v ++ rest) 0 k = Some v).
  { intros k ->. rewrite rd_Some by (rewrite ?length_app; lia). change (Z.to_nat 0) with 0%nat. cbn [drop].
    rewrite Nat2Z.id, drop_0, <- Hl. by rewrite take_app_length. }
  pose proof (le_val_range v Hb) as Hr. rewrite Hl in Hr.
  unfold Numeric.int_value. rewrite (take_ge v) by lia. unfold extract_value, ord, convert_int_to_variant.
  destruct (f_real_type f); cbn [Numeric.int_width] in Ht; try done; injection Ht as <- <-;
    rewrite Hrd by done; cbn [mbind option_bind]; eexists; (split; [reflexivity|]); f_equal;
    rewrite ?uint3korr_spec, ?sint3korr_spec by done;
    unfold v_uint32, v_int, v_ubigint, v_bigint; rewrite put_low by (done || lia);
    destruct (f_unsigned f); rewrite ?wrapU_wrapS, ?wrapS_wrapU, ?wrapU_narrow by lia.
  all: try (apply wrapU_small; cbn in Hr |- *; lia).
  all: try done.
  all: change (8 * Z.of_nat 1) with 8; change (8 * Z.of_nat 2) with 16; change (8 * Z.of_nat 3) with 24.
  all: apply wrapS_small; [lia|].
  - pose proof (wrapS_range 8 (le_val v) ltac:(lia)). lia.
  - pose proof (wrapS_range 16 (le_val v) ltac:(lia)). lia.
  - pose proof (wrapS_range 24 (le_val v) ltac:(lia)). lia.
Qed.

(** An end of a range as a column of the index sees it, [off] behind the start
    of the tuples: none, with the lowest or highest value, or the value in the
    tuple. *)
Inductive key_bound (kp : KEY_PART_INFO) (off : Z) (n : nat) (deflt : Z) (k : ctc_key) : ctc_cmp_type_t -> Z -> Prop :=
  | kb_none : cmp_type k = CMP_TYPE_NULL -> key_bound kp off n deflt k CMP_TYPE_CLOSE_INTERNAL deflt
  | kb_value pre v img post :
      cmp_type k <> CMP_TYPE_NULL -> ck_key k = Some (pre ++ img ++ post) -> Z.of_nat (length pre) = off ->
      IndexSearch.part_image kp (Some v) img -> length v = n -> Forall byte v ->
      key_bound kp off n deflt k (cmp_type k) (Numeric.int_value (f_unsigned (IndexSearch.kp_field kp)) n v).

Lemma fixed_image kp v img :
  IndexSearch.part_image kp (Some v) img -> IndexSearch.var_part kp = false ->
  img = replicate (Z.to_nat (IndexSearch.null_bytes kp)) 0 ++ v.
Proof. intros H Hv. inversion H; congruence. Qed.

Lemma extract_bound (BO : ByteOrder M) kp off n deflt value k t z :
  ctc_int kp n -> ord (IndexSearch.kp_field kp) value = Some deflt -> key_bound kp off n deflt k t z ->
  exists var k', extract_boundary_value k kp (zero_variant (IndexSearch.kp_field kp)) value off = Some (var, k') /\
    ord (IndexSearch.kp_field kp) var = Some z /\ k' = set_cmp_type t k.
Proof.
  intros (m & Ht & Hvar) Hv Hk. set (f := IndexSearch.kp_field kp) in *.
  unfold extract_boundary_value, handle_null_and_single_boundary. fold f.
  destruct Hk as [Hnull|pre v img post Hnn Hkey Hoff Himg Hl Hb].
  { rewrite decide_True by done. cbn [mbind option_bind]. eexists _, _. split; [reflexivity|]. done. }
  rewrite decide_False by done.
  apply fixed_image in Himg as ->; [|done].
  assert (Hnb : 0 <= IndexSearch.null_bytes kp <= 1) by (unfold IndexSearch.null_bytes; destruct (f_nullable _); lia).
  assert (Hnull : (if f_nullable f then key ← ck_key k; b ← rd key off 1; Some (le_val b =? 1) else Some false) = Some false).
  { destruct (f_nullable f) eqn:Hn; [|done]. rewrite Hkey. cbn [mbind option_bind].
    unfold IndexSearch.null_bytes. fold f. rewrite Hn. change (replicate (Z.to_nat 1) 0) with [0].
    rewrite (IndexSearch.rd_at pre [0] (v ++ post)) by done. done. }
  rewrite Hnull. cbn [mbind option_bind].
  destruct (int_ord BO f (v ++ post) v post (zero_variant f) n m Ht Hl Hb eq_refl eq_refl) as (var & Hx & Ho).
  assert (string_length k kp (off + (if f_nullable f then 1 else 0)) = Some (0, 0)) as ->.
  { unfold string_length. fold f. by destruct (f_real_type f). }
  cbn [mbind option_bind]. rewrite Z.add_0_r.
  assert (key_at k (off + (if f_nullable f then 1 else 0)) = Some (v ++ post)) as ->.
  { unfold key_at. rewrite Hkey. cbn [mbind option_bind].
    change (if f_nullable f then 1 else 0) with (IndexSearch.null_bytes kp).
    assert (Hd : Z.to_nat (off + IndexSearch.null_bytes kp) = length (pre ++ replicate (Z.to_nat (IndexSearch.null_bytes kp)) 0)).
    { rewrite length_app, length_replicate. lia. }
    rewrite (proj2 (Z.ltb_ge _ _)) by (rewrite !length_app, length_replicate; lia).
    rewrite Hd. f_equal. rewrite <- (assoc_L (++)), (assoc_L (++) pre). by rewrite drop_app_length. }
  cbn [mbind option_bind]. rewrite Hx. cbn [mbind option_bind].
  exists var, k. split; [done|]. split; [done|]. by destruct k.
Qed.

(** What a column of the index knows of a range: the ends, in the order of the
    column, and how they are bounded. *)
Lemma selectivity_of_range (BO : ByteOrder M) stats kp n col_id col rows l h off min_key max_key t1 t2 lo hi :
  ctc_int kp n -> f_nullable (IndexSearch.kp_field kp) = false ->
  columns stats !! col_id = Some col -> column_ok (IndexSearch.kp_field kp) rows col l h ->
  key_bound kp off n l min_key t1 lo -> key_bound kp off n h max_key t2 hi -> proper_range t1 t2 lo hi ->
  exists d, calculate_column_selectivity stats (min_key, max_key) kp col_id off false true
      = Some (d, lo =? hi, (set_cmp_type t1 min_key, set_cmp_type t2 max_key)) /\
    eval_density_result d = frac (count (within t1 t2 lo hi) rows) (Z.of_nat (length rows)).
Proof.
  intros Hint Hnn Hc Hok Hmin Hmax Hp. unfold calculate_column_selectivity. cbn [mbind option_bind andb].
  destruct (extract_bound BO kp off n l (low_value col) min_key t1 lo Hint (co_low _ _ _ _ _ Hok) Hmin)
    as (mn & min' & Hmn & Hlo & ->).
  destruct (extract_bound BO kp off n h (high_value col) max_key t2 hi Hint (co_high _ _ _ _ _ Hok) Hmax)
    as (mx & max' & Hmx & Hhi & ->).
  destruct (density_by_cond stats kp col_id col rows l h off min_key max_key mn mx _ _ lo hi true
    Hc Hok Hmn Hlo Hmx Hhi Hp) as (d & Hd & Heval).
  exists d. split; [|done]. rewrite Hd. by destruct (lo =? hi).
Qed.

(** The share of the rows of a range of an integer column: the boundaries
    are the values that the server put into its key tuples behind the columns
    before, an end that is missing is the lowest or highest value, and the
    share is the number of the rows inside, exactly as the kinds of the ends
    say, divided by the number of rows; the column that follows is looked at
    just when the range is one value. *)
Theorem column_selectivity_exact (BO : ByteOrder M) stats kp n col_id col rows l h off min_key max_key t1 t2 lo hi :
  ctc_int kp n -> f_nullable (IndexSearch.kp_field kp) = false ->
  columns stats !! col_id = Some col -> column_ok (IndexSearch.kp_field kp) rows col l h ->
  key_bound kp off n l min_key t1 lo -> key_bound kp off n h max_key t2 hi -> proper_range t1 t2 lo hi ->
  exists d keys, calculate_column_selectivity stats (min_key, max_key) kp col_id off false true
      = Some (d, lo =? hi, keys) /\
    eval_density_result d = frac (count (within t1 t2 lo hi) rows) (Z.of_nat (length rows)).
Proof.
  intros. edestruct selectivity_of_range as (d & Hd & He); [done..|]. by eexists _, _.
Qed.

(** ** Several columns *)

(** The room of a column in the tuple is what [key_offset] advances by. *)
Lemma column_room kp :
  IndexSearch.part_ok kp -> f_blob_flag (IndexSearch.kp_field kp) = false ->
  (f_real_type (IndexSearch.kp_field kp) = MYSQL_TYPE_VARCHAR <-> f_type (IndexSearch.kp_field kp) = MYSQL_TYPE_VARCHAR) ->
  (if decide (f_real_type (IndexSearch.kp_field kp) = MYSQL_TYPE_VARCHAR) then OFFSET_VARCHAR_TYPE else 0)
  + (if f_nullable (IndexSearch.kp_field kp) then 1 else 0) + IndexSearch.kp_key_length kp
  = IndexSearch.kp_store_length kp.
Proof.
  intros (_ & _ & H) Hb Ht. rewrite (H Hb). unfold IndexSearch.null_bytes, OFFSET_VARCHAR_TYPE.
  assert (Hd : bool_decide (f_type (IndexSearch.kp_field kp) = MYSQL_TYPE_VARCHAR)
    = bool_decide (f_real_type (IndexSearch.kp_field kp) = MYSQL_TYPE_VARCHAR)) by (by apply bool_decide_ext).
  rewrite Hd. clear. destruct (decide (f_real_type _ = _));
    [rewrite bool_decide_eq_true_2 by done|rewrite bool_decide_eq_false_2 by done]; lia.
Qed.

(** The columns of an index with the rows of each, and the values that a
    tuple has for them *)
Inductive equalities (stats : ctc_cbo_stats_table_t) (acc : list Z)
  : list KEY_PART_INFO -> list (list Z) -> list (Z * Z) -> Prop :=
  | eq_nil : equalities stats acc [] [] []
  | eq_cons kp parts v vs n a col rows l h shares :
      ctc_int kp n -> IndexSearch.part_ok kp -> f_blob_flag (IndexSearch.kp_field kp) = false ->
      (f_real_type (IndexSearch.kp_field kp) = MYSQL_TYPE_VARCHAR <-> f_type (IndexSearch.kp_field kp) = MYSQL_TYPE_VARCHAR) ->
      f_nullable (IndexSearch.kp_field kp) = false -> f_virtual (IndexSearch.kp_field kp) = false ->
      length v = n -> Forall byte v ->
      acc !! f_index (IndexSearch.kp_field kp) = Some a ->
      columns stats !! Z.to_nat (Z.of_nat (f_index (IndexSearch.kp_field kp)) - a) = Some col ->
      column_ok (IndexSearch.kp_field kp) rows col l h ->
      equalities stats acc parts vs shares ->
      equalities stats acc (kp :: parts) (v :: vs)
        ((count (fun r => r =? Numeric.int_value (f_unsigned (IndexSearch.kp_field kp)) n v) rows,
          Z.of_nat (length rows)) :: shares).

Lemma equality_parts (BO : ByteOrder M) stats acc parts vs shares : equalities stats acc parts vs shares ->
  forall bytes valid_map idx pre post min_key max_key off rest d,
  rest = [] \/ Z.testbit valid_map (idx + Z.of_nat (length parts)) = false ->
  IndexSearch.tuple parts (map Some vs) bytes ->
  (forall i, idx <= i < idx + Z.of_nat (length parts) -> Z.testbit valid_map i = true) ->
  0 <= idx -> ck_key min_key = Some (pre ++ bytes ++ post) -> ck_key max_key = Some (pre ++ bytes ++ post) ->
  Z.of_nat (length pre) = off ->
  calc_density_parts stats acc valid_map CMP_TYPE_CLOSE_INTERNAL CMP_TYPE_CLOSE_INTERNAL (parts ++ rest) idx
    (min_key, max_key) off d = Some (fold_left (fun d s => dmul d (frac (fst s) (snd s))) shares d).
Proof.
  induction 1 as [|kp parts v vs n a col rows l h shares Hint Hpart Hblob Hvc Hnn Hvirt Hl Hb Ha Hc Hok _ IH];
    intros bytes valid_map idx pre post min_key max_key off rest d Hrest Ht Hbits Hidx Hmin Hmax Hoff.
  { destruct rest as [|kp rest]; [done|]. cbn [app calc_density_parts length] in *. rewrite Z.add_0_r in Hrest.
    by destruct Hrest as [ | ->]. }
  cbn [map] in Ht. inversion Ht as [|? ? ? ? img bytes' Himg Ht']; subst. cbn [app calc_density_parts].
  rewrite Hbits by (cbn [length]; lia). cbn [negb]. rewrite Hvirt, Ha. cbn [mbind option_bind].
  assert (Hset : set_key_boundary_types (min_key, max_key) idx CMP_TYPE_CLOSE_INTERNAL CMP_TYPE_CLOSE_INTERNAL
    = (set_cmp_type CMP_TYPE_CLOSE_INTERNAL min_key, set_cmp_type CMP_TYPE_CLOSE_INTERNAL max_key)).
  { unfold set_key_boundary_types. by destruct (_ && _). }
  rewrite Hset, Hnn.
  assert (Hk : forall k deflt, ck_key k = Some (pre ++ (img ++ bytes') ++ post) ->
    key_bound kp (Z.of_nat (length pre)) (length v) deflt (set_cmp_type CMP_TYPE_CLOSE_INTERNAL k)
      CMP_TYPE_CLOSE_INTERNAL (Numeric.int_value (f_unsigned (IndexSearch.kp_field kp)) (length v) v)).
  { intros k deflt Hkey. refine (kb_value kp _ (length v) deflt (set_cmp_type CMP_TYPE_CLOSE_INTERNAL k) pre v img
      (bytes' ++ post) _ _ _ Himg _ Hb); try done. cbn [ck_key set_cmp_type]. by rewrite Hkey, <- (assoc_L (++)). }
  set (x := Numeric.int_value _ _ v) in *.
  destruct (selectivity_of_range BO stats kp (length v) _ col rows l h (Z.of_nat (length pre))
      (set_cmp_type CMP_TYPE_CLOSE_INTERNAL min_key) (set_cmp_type CMP_TYPE_CLOSE_INTERNAL max_key) _ _ x x
      Hint Hnn Hc Hok (Hk min_key l Hmin) (Hk max_key h Hmax)) as (dd & -> & Heval).
  { split; [done|]. split; [done|]. by right; left. }
  cbn [mbind option_bind]. rewrite Z.eqb_refl, Heval. cbn [fold_left fst snd].
  assert (Hroom := column_room kp Hpart Hblob Hvc). rewrite Hnn in Hroom. rewrite Hroom.
  pose proof (IndexSearch.part_image_length _ _ _ Himg) as Himgl.
  rewrite (IH bytes' valid_map (idx + 1) (pre ++ img) post); cbn [ck_key set_cmp_type];
    [|destruct Hrest as [|Hrest]; [by left|right; rewrite <- Hrest; f_equal; cbn [length]; lia]|done|intros i Hi; apply Hbits; cbn [length]; lia|lia|by rewrite Hmin, <- !(assoc_L (++))
     |by rewrite Hmax, <- !(assoc_L (++))|rewrite length_app; lia].
  do 4 f_equal. apply count_ext, Forall_forall. intros r _. unfold within, above, below.
  rewrite !decide_True by done. zb; lia.
Qed.

Definition product (shares : list (Z * Z)) : double := fold_left (fun d s => dmul d (frac (fst s) (snd s))) shares d1.

Lemma equalities_unit stats acc parts vs shares : equalities stats acc parts vs shares ->
  forall d, in_unit d -> in_unit (fold_left (fun d s => dmul d (frac (fst s) (snd s))) shares d).
Proof.
  induction 1; intros d Hd; [done|]. cbn [fold_left fst snd]. apply IHequalities, in_unit_mul; [done|].
  apply in_unit_frac; [apply count_bounds|]. match goal with H : column_ok _ _ _ _ _ |- _ => apply H end.
Qed.

(** A condition [column = value] on each of the first columns of an index *)
Definition equal_range (bytes : list Z) (k : Z) (min_key max_key : key_range) : Prop :=
  IndexSearch.kr_key min_key = bytes /\ IndexSearch.kr_key max_key = bytes /\
  IndexSearch.kr_flag min_key = HA_READ_KEY_EXACT /\ IndexSearch.kr_flag max_key = HA_READ_AFTER_KEY /\
  IndexSearch.kr_length min_key = IndexSearch.kr_length max_key /\
  IndexSearch.kr_keypart_map min_key = Z.ones k /\ IndexSearch.kr_keypart_map max_key = Z.ones k.

Lemma equal_range_keys bytes k min_key max_key :
  equal_range bytes k min_key max_key ->
  range_keys (Some min_key) (Some max_key)
  = (mk_ckey (Some bytes) (IndexSearch.kr_length min_key) CMP_TYPE_CLOSE_INTERNAL (Z.ones k),
     mk_ckey (Some bytes) (IndexSearch.kr_length min_key) CMP_TYPE_CLOSE_INTERNAL (Z.ones k)).
Proof.
  intros (Hb1 & Hb2 & Hf1 & Hf2 & Hl & Hm1 & Hm2). unfold range_keys, set_ctc_range_key.
  rewrite Hb1, Hb2, Hf1, Hf2, <- Hl, Hm1, Hm2. cbn. by rewrite Z.gtb_ltb, Z.ltb_irrefl.
Qed.

Lemma density_tests d : in_unit d -> (if dltb d d0 || dltb d1 d then PREFER_RANGE_DENSITY else d) = d.
Proof. intros H. by destruct (in_unit_tests d H) as (-> & -> & _). Qed.

(** Equalities on the first columns of an index are taken as independent:
    the density is the product of the shares of the rows that have the value
    of the tuple in each column; no share is lost and the product is never
    replaced by the default. *)
Theorem equality_density (BO : ByteOrder M) stats field parts vs shares bytes min_key max_key rest :
  equalities stats (calc_accumulate_gcol_num field 0) parts vs shares ->
  IndexSearch.tuple parts (map Some vs) bytes ->
  equal_range bytes (Z.of_nat (length parts)) min_key max_key -> estimate_rows stats <> 0 ->
  calc_density_one_table (parts ++ rest) (range_keys (Some min_key) (Some max_key)) stats field = Some (product shares).
Proof.
  intros Heq Ht Hr Hn. unfold calc_density_one_table. rewrite (proj2 (Z.eqb_neq _ _)) by done.
  rewrite (equal_range_keys _ _ _ _ Hr). cbn [col_map cmp_type]. rewrite Z.max_id.
  set (k := mk_ckey _ _ _ _).
  rewrite (equality_parts BO stats _ parts vs shares Heq bytes _ 0 [] []); try done.
  - cbn [mbind option_bind]. by rewrite density_tests by (eapply equalities_unit, in_unit_d1; done).
  - right. apply Z.ones_spec_high. lia.
  - intros i Hi. apply Z.ones_spec_low. lia.
  - cbn [ck_key k app]. by rewrite app_nil_r.
  - cbn [ck_key k app]. by rewrite app_nil_r.
Qed.

Lemma virtual_step stats acc valid_map t1 t2 kpv parts idx key off d :
  Z.testbit valid_map idx = true -> f_virtual (IndexSearch.kp_field kpv) = true ->
  calc_density_parts stats acc valid_map t1 t2 (kpv :: parts) idx key off d
  = calc_density_parts stats acc valid_map t1 t2 parts (idx + 1) key off d.
Proof. intros Hb Hv. cbn [calc_density_parts]. by rewrite Hb, Hv. Qed.

(** The engine does not store a virtual generated column and has no
    statistics of it; when an index contains one, its values in the key tuples
    are not passed over, and the column that follows is looked up with the
    value of the virtual column: the estimate is the share of the wrong value. *)
Theorem virtual_column_offset (BO : ByteOrder M) stats field kpv kp rest v v' img img' shares min_key max_key :
  f_virtual (IndexSearch.kp_field kpv) = true ->
  equalities stats (calc_accumulate_gcol_num field 0) [kp] [v] shares ->
  IndexSearch.tuple [kpv; kp] [Some v; Some v'] (img ++ img') -> IndexSearch.part_image kp (Some v) img ->
  equal_range (img ++ img') 2 min_key max_key -> estimate_rows stats <> 0 ->
  calc_density_one_table (kpv :: kp :: rest) (range_keys (Some min_key) (Some max_key)) stats field
  = Some (product shares).
Proof.
  intros Hv Heq _ Himg Hr Hn. unfold calc_density_one_table. rewrite (proj2 (Z.eqb_neq _ _)) by done.
  rewrite (equal_range_keys _ _ _ _ Hr). cbn [col_map cmp_type]. rewrite Z.max_id.
  set (k := mk_ckey _ _ _ _). rewrite virtual_step by done. change (kp :: rest) with ([kp] ++ rest).
  assert (Ht : IndexSearch.tuple [kp] (map Some [v]) (img ++ [])) by (constructor; [done|constructor]).
  rewrite (equality_parts BO stats _ [kp] [v] shares Heq (img ++ []) _ (0 + 1) [] img'); try done; [|by right|..].
  - cbn [mbind option_bind]. by rewrite density_tests by (eapply equalities_unit, in_unit_d1; done).
  - intros i Hi. cbn [length] in Hi. by replace i with 1 by lia.
  - cbn [ck_key k app]. by rewrite app_nil_r.
  - cbn [ck_key k app]. by rewrite app_nil_r.
Qed.

(** ** Estimates *)

Lemma density_fits stats acc valid_map t1 t2 parts : forall idx key off d d',
  fits d -> calc_density_parts stats acc valid_map t1 t2 parts idx key off d = Some d' -> fits d'.
Proof.
  induction parts as [|kp parts IH]; intros idx key off d d' Hd; cbn [calc_density_parts]; [by intros [= <-]|].
  destruct (negb _); [by intros [= <-]|]. destruct (f_virtual _); [by apply IH|].
  cbn [mbind option_bind]. destruct (acc !! _) as [a|]; [|done].
  cbn [mbind option_bind]. lazymatch goal with |- context [calculate_column_selectivity ?a ?b ?c ?d ?e ?f ?g] =>
    destruct (calculate_column_selectivity a b c d e f g) as [[[s []] k]|] end; [|intros [= <-]; apply fits_mul|done].
  apply IH, fits_mul.
Qed.

Lemma density_at_most parts key stats field d :
  calc_density_one_table parts key stats field = Some d -> d <> S754_nan -> at_most 1 d.
Proof.
  unfold calc_density_one_table. destruct (_ =? 0); [by intros [= <-]|]. destruct key as [min_key max_key].
  cbn [mbind option_bind]. lazymatch goal with |- context [calc_density_parts ?a ?b ?c ?d ?e ?f ?g ?h ?i ?j] =>
    destruct (calc_density_parts a b c d e f g h i j) as [d'|] eqn:Hp end; [|done].
  intros [= <-] Hn. destruct (dltb d' d0) eqn:H0; [vm_compute; done|]. destruct (dltb d1 d') eqn:H1; [vm_compute; done|].
  cbn [orb] in *. apply tests_at_most; try done. refine (density_fits _ _ _ _ _ _ _ _ _ _ _ _ Hp). vm_compute. reflexivity.
Qed.

(** The estimate of a range: whatever the statistics hold, a density is
    the result of the tests against 0 and 1, so that the conversion of the
    product to an integer is defined and the estimate is at most the number of
    rows; only a density that is not a number, which passes both tests, makes
    the conversion undefined. *)
Theorem rows_in_range_bounded parts field min_key max_key stats d :
  0 <= estimate_rows stats < 2 ^ 32 ->
  calc_density_one_table parts (range_keys min_key max_key) stats field = Some d ->
  (d <> S754_nan -> exists n, rows_in_range parts field min_key max_key stats = Some n /\ 0 <= n <= estimate_rows stats) /\
  (d = S754_nan -> rows_in_range parts field min_key max_key stats = None).
Proof.
  intros Hr Hd. unfold rows_in_range. rewrite Hd. cbn [mbind option_bind]. split.
  - intros Hn. apply to_uint64_at_most; [lia|]. apply dmul_at_most; [lia|].
    by apply (density_at_most _ _ _ _ _ Hd).
  - intros ->. by destruct (dbl _).
Qed.

(** A condition "is null" takes the share of the rows that are null, and
    "is not null" what is left; neither looks at the values, and both go on
    with the next column. *)
Theorem null_selectivity stats key kp col_id off cont col min_bytes max_bytes :
  columns stats !! col_id = Some col -> 0 < estimate_rows stats ->
  let '(min_key, max_key) := key in
  ck_key min_key = Some min_bytes -> rd min_bytes off 1 = Some [1] ->
  let nulls := ddiv (dbl (num_null col)) (dbl (estimate_rows stats)) in
  (ck_key max_key = None \/ ck_len max_key <= off ->
     calculate_column_selectivity stats key kp col_id off true cont = Some (dsub d1 nulls, cont, key)) /\
  (ck_key max_key = Some max_bytes -> off < ck_len max_key -> rd max_bytes off 1 = Some [1] ->
     calculate_column_selectivity stats key kp col_id off true cont = Some (nulls, cont, key)).
Proof.
  intros Hc Hr. destruct key as [min_key max_key]. intros Hmin Hrd nulls.
  assert (Hd : calc_equal_null_density stats col_id = Some nulls).
  { unfold calc_equal_null_density. rewrite Hc. cbn [mbind option_bind].
    assert ((estimate_rows stats >? 0) = true) as -> by (zb; lia). done. }
  unfold calculate_column_selectivity, null_at. rewrite Hmin. cbn [mbind option_bind]. rewrite Hrd.
  cbn [mbind option_bind]. change (le_val [1] =? 1) with true. cbn [andb]. split.
  - intros Hno. assert (bool_decide (ck_key max_key = None) || (ck_len max_key <=? off) = true) as ->.
    { destruct Hno as [->|]; [done|]. apply orb_true_iff. right. zb. lia. }
    cbn match. by rewrite Hd.
  - intros Hmax Hlen Hrd'. rewrite Hmax. rewrite bool_decide_eq_false_2 by done.
    rewrite (proj2 (Z.leb_gt _ _)) by lia. cbn [orb andb mbind option_bind]. rewrite Hrd'. cbn [mbind option_bind].
    change (le_val [1] =? 1) with true. cbn match. by rewrite Hd.
Qed.

(** *** The index of an error *)

Definition text (s : list Z) : Prop := Forall (fun c => 0 < c) s.

Lemma c_str_text s : text s -> c_str s = s.
Proof.
  induction 1 as [|c s Hc _ IH]; [done|]. cbn [c_str].
  assert (Hz : (c =? 0) = false) by (zb; lia). by rewrite Hz, IH.
Qed.

Lemma strncmp_prefix a b : text a -> text b -> strncmp_0 (length b) a b = true <-> b `prefix_of` a.
Proof.
  intros Ha Hb. unfold strncmp_0. rewrite (c_str_text a Ha), (c_str_text b Hb), bool_decide_eq_true, take_app_length.
  split.
  - intros H. exists (drop (length b) a). rewrite <- (take_drop (length b) a) at 1. f_equal.
    destruct (Nat.le_gt_cases (length b) (length a)); [by rewrite take_app_le in H by done|].
    exfalso. rewrite take_app_ge in H by lia.
    assert (Hz : 0 ∈ b) by (rewrite <- H; apply elem_of_app; right; destruct (length b - length a)%nat eqn:?; [lia|by left]).
    apply list_elem_of_In in Hz. unfold text in Hb. rewrite List.Forall_forall in Hb. specialize (Hb 0 Hz). lia.
  - intros [k ->]. rewrite <- app_assoc. by rewrite take_app_length.
Qed.

(** The index that [info] reports for a violated key: the first one whose
    name begins with the name that the engine gives, so that an earlier index
    with a longer name is reported in place of the violated one. *)
Theorem find_errkey_first names index_name i errkey :
  text index_name -> Forall text names ->
  (forall before n after, names = before ++ n :: after ->
     index_name `prefix_of` n -> Forall (fun m => ~ index_name `prefix_of` m) before ->
     find_errkey names i index_name errkey = i + Z.of_nat (length before)) /\
  (Forall (fun m => ~ index_name `prefix_of` m) names -> find_errkey names i index_name errkey = errkey).
Proof.
  intros Hi Hn. revert i. induction Hn as [|m names Hm Hn IH]; intros i.
  { split; [by intros []|done]. }
  cbn [find_errkey]. rewrite (c_str_text _ Hi). pose proof (strncmp_prefix m index_name Hm Hi) as Hp.
  destruct (strncmp_0 _ m index_name).
  - assert (Hpre : index_name `prefix_of` m) by (by apply Hp). split.
    + intros [|b before] n after [= <- ->] Hpn Hb; [cbn; lia|]. by apply Forall_inv in Hb.
    + intros Hb. by apply Forall_inv in Hb.
  - assert (Hno : ~ index_name `prefix_of` m) by (intros H; by apply Hp in H).
    destruct (IH (i + 1)) as [IH1 IH2]. split.
    + intros [|b before] n after [= <- ->] Hpn Hb; [done|].
      rewrite (IH1 before n after) by (done || by apply Forall_inv_tail in Hb). cbn [length]. lia.
    + intros Hb. apply IH2. by apply Forall_inv_tail in Hb.
Qed.

End Ordered.

(** *** Memory of the strings *)

Lemma column_pointers_spec mem :
  column_pointers mem = map (fun k => mem + CBO_STRING_MAX_LEN * Z.of_nat k) (seq 0 (Z.to_nat strings_per_column)).
Proof.
  unfold column_pointers, strings_per_column.
  replace (Z.to_nat (STATS_HISTGRAM_MAX_SIZE + 2)) with (2 + Z.to_nat STATS_HISTGRAM_MAX_SIZE)%nat by done.
  rewrite seq_app, map_app. change (0 + 2)%nat with 2%nat.
  assert (H : forall n k, map (fun k => mem + CBO_STRING_MAX_LEN * 2 + Z.of_nat k * CBO_STRING_MAX_LEN) (seq k n)
    = map (fun k => mem + CBO_STRING_MAX_LEN * Z.of_nat k) (seq (2 + k) n)).
  { induction n as [|n IH]; intros k; [done|]. cbn [seq map]. f_equal; [lia|]. apply IH. }
  rewrite H. cbn [seq map app]. by rewrite Z.mul_0_r, Z.add_0_r.
Qed.

Lemma pointers_spec {A} (cols : list A) : forall mem l,
  snd (fold_left (fun '(mem, l) (_ : A) => (mem + strings_per_column * CBO_STRING_MAX_LEN, l ++ [column_pointers mem])) cols (mem, l))
  = l ++ map (fun i => column_pointers (mem + strings_per_column * CBO_STRING_MAX_LEN * Z.of_nat i)) (seq 0 (length cols)).
Proof.
  induction cols as [|c cols IH]; intros mem l; cbn [fold_left length seq map]; [by rewrite app_nil_r|].
  rewrite IH, <- app_assoc. f_equal. cbn [app]. f_equal; [f_equal; lia|]. rewrite <- seq_shift, map_map.
  apply map_ext. intros i. f_equal. lia.
Qed.

Lemma length_concat_replicate {A} (l : list A) n : length (concat (replicate n l)) = (n * length l)%nat.
Proof. induction n as [|n IH]; [done|]. cbn [replicate concat]. rewrite length_app, IH. lia. Qed.

(** The strings of the statistics lie one behind the other: string [k] of
    column [i] at 64 * (256 * i + k).  While the sum of the sizes has place in
    32 bits all of them are inside of the memory; from there on the size has
    wrapped around, and the strings at the end are written behind it. *)
Theorem string_memory part_num field :
  0 <= part_num ->
  let total := part_num * num_str_cols field * strings_per_column * CBO_STRING_MAX_LEN in
  let '(size, pointers) := alloc_str_mysql_mem part_num field in
  pointers = map (fun i => map (fun k => CBO_STRING_MAX_LEN * (strings_per_column * Z.of_nat i + Z.of_nat k))
                             (seq 0 (Z.to_nat strings_per_column)))
               (seq 0 (Z.to_nat (part_num * num_str_cols field))) /\
  (total < 2 ^ 32 -> forall column p, In column pointers -> In p column -> 0 <= p /\ p + CBO_STRING_MAX_LEN <= size) /\
  (2 ^ 32 <= total -> exists column p, In column pointers /\ In p column /\ size < p + CBO_STRING_MAX_LEN).
Proof.
  intros Hp total. unfold alloc_str_mysql_mem. set (cols := List.filter _ field). rewrite pointers_spec. cbn [app].
  assert (Hlen : length (concat (replicate (Z.to_nat part_num) cols)) = Z.to_nat (part_num * num_str_cols field)).
  { rewrite length_concat_replicate. unfold num_str_cols. fold cols. lia. }
  assert (Hptr : forall n, map (fun i => column_pointers (0 + strings_per_column * CBO_STRING_MAX_LEN * Z.of_nat i)) (seq 0 n)
    = map (fun i => map (fun k => CBO_STRING_MAX_LEN * (strings_per_column * Z.of_nat i + Z.of_nat k))
                             (seq 0 (Z.to_nat strings_per_column))) (seq 0 n)).
  { intros n. apply map_ext. intros i. rewrite column_pointers_spec. apply map_ext. intros k. lia. }
  rewrite Hlen, Hptr. split; [done|].
  assert (Hc : 0 <= num_str_cols field) by (unfold num_str_cols; lia).
  assert (Htot : total = part_num * num_str_cols field * (strings_per_column * CBO_STRING_MAX_LEN)) by (unfold total; lia).
  unfold str_stats_mem_size. fold total. set (n := part_num * num_str_cols field) in *.
  assert (0 <= n) by (unfold n; lia). unfold strings_per_column, STATS_HISTGRAM_MAX_SIZE, CBO_STRING_MAX_LEN in *. split.
  - intros Hlt column p Hcol Hin. rewrite wrapU_small by lia.
    apply in_map_iff in Hcol as (i & <- & Hi%in_seq). apply in_map_iff in Hin as (k & <- & Hk%in_seq). lia.
  - intros Hge. pose proof (wrapU_range 32 total ltac:(lia)) as Hw.
    exists (map (fun k => 64 * ((254 + 2) * Z.of_nat (Z.to_nat (n - 1)) + Z.of_nat k)) (seq 0 (Z.to_nat (254 + 2)))),
      (64 * ((254 + 2) * Z.of_nat (Z.to_nat (n - 1)) + Z.of_nat 255)).
    split_and!; [|apply in_map_iff; exists 255%nat; split; [done|apply in_seq; lia]|].
    + apply (in_map (fun i => map (fun k => 64 * ((254 + 2) * Z.of_nat i + Z.of_nat k)) (seq 0 (Z.to_nat (254 + 2))))).
      apply in_seq. lia.
    + lia.
Qed.

(** ** Witnesses *)

#[export] Instance demo_cbo_server : CboServer := {|
  decimal2double d := (0, 0);
  strnncollsp f a b := le_val a - le_val b |}.

(** An integer column with the rows 1, 2, 2, 5, and its index *)
Definition demo_field (i : nat) (virtual : bool) : Field :=
  mk_field MYSQL_TYPE_LONG MYSQL_TYPE_LONG 0 4 4 0 false 0 0 virtual false 0 0 false false false false 32 0 0 0 i.
Definition demo_part (i : nat) (virtual : bool) : KEY_PART_INFO := IndexSearch.mk_part (demo_field i virtual) 4 4 false.
Definition demo_value (z : Z) : cache_variant_t := mk_variant z [].
Definition demo_rows : list Z := [1; 2; 2; 5].
Definition demo_column : ctc_cbo_stats_column_t :=
  mk_column 1 DEFAULT_RANGE_DENSITY FREQUENCY_HIST
    [mk_hist (demo_value 1) 1; mk_hist (demo_value 2) 3; mk_hist (demo_value 5) 4] (demo_value 1) (demo_value 5).
Definition demo_stats : ctc_cbo_stats_table_t := mk_stats_table 5 [demo_column; demo_column] 1 8.
Definition demo_end (z flag : Z) : key_range := IndexSearch.mk_range (le_bytes 4 z) 4 1 flag.

Lemma demo_column_ok i v : @column_ok Demo.demo (demo_field i v) demo_rows demo_column 1 5.
Proof.
  split; try done.
  - exists [1; 2; 5]. split.
    + repeat constructor.
    + repeat constructor.
    + repeat (constructor; [by vm_compute; repeat constructor|]); constructor.
  - repeat constructor; lia.
Qed.

Lemma demo_ctc_int i v : ctc_int (demo_part i v) 4.
Proof. by exists 4%nat. Qed.

Lemma demo_image i v z : 0 <= z < 2 ^ 32 -> IndexSearch.part_image (demo_part i v) (Some (le_bytes 4 z)) (le_bytes 4 z).
Proof. intros Hz. exact (IndexSearch.pi_fixed (demo_part i v) (le_bytes 4 z) eq_refl eq_refl). Qed.

Definition demo_key (z : Z) (t : ctc_cmp_type_t) : ctc_key := mk_ckey (Some (le_bytes 4 z)) 4 t 1.

Lemma demo_bound i v z t deflt : t <> CMP_TYPE_NULL -> 0 <= z < 2 ^ 31 ->
  key_bound (demo_part i v) 0 4 deflt (demo_key z t) t z.
Proof.
  intros Ht Hz. assert (Hv : Numeric.int_value false 4 (le_bytes 4 z) = z).
  { unfold Numeric.int_value. rewrite take_ge by (rewrite length_le_bytes; lia). rewrite le_val_le_bytes.
    change (256 ^ Z.of_nat 4) with (2 ^ 32). rewrite Z.mod_small by lia. apply wrapS_small; cbn; lia. }
  rewrite <- Hv at 2. refine (kb_value (demo_part i v) 0 4 deflt (demo_key z t) [] (le_bytes 4 z) (le_bytes 4 z) []
    Ht _ eq_refl (demo_image i v z ltac:(lia)) (length_le_bytes _ _) (le_bytes_byte _ _)).
  cbn [demo_key ck_key app]. by rewrite app_nil_r.
Qed.

(** The rows with 2 <= value < 5 *)
Lemma column_selectivity_exact_witness :
  exists d keys, @calculate_column_selectivity Demo.demo demo_cbo_server demo_stats
      (demo_key 2 CMP_TYPE_CLOSE_INTERNAL, demo_key 5 CMP_TYPE_OPEN_INTERNAL) (demo_part 0 false) 0 0 false true
      = Some (d, false, keys) /\
    eval_density_result d = frac 2 4.
Proof.
  exact (@column_selectivity_exact Demo.demo demo_cbo_server Demo.demo_byte_order demo_stats (demo_part 0 false) 4 0
    demo_column demo_rows 1 5 0 (demo_key 2 CMP_TYPE_CLOSE_INTERNAL) (demo_key 5 CMP_TYPE_OPEN_INTERNAL) _ _ 2 5
    (demo_ctc_int 0 false) eq_refl eq_refl (demo_column_ok 0 false)
    (demo_bound 0 false 2 CMP_TYPE_CLOSE_INTERNAL 1 ltac:(done) ltac:(lia))
    (demo_bound 0 false 5 CMP_TYPE_OPEN_INTERNAL 5 ltac:(done) ltac:(lia))
    ltac:(split; [done|]; split; [done|]; by left)).
Defined.

Lemma demo_equalities i z : (i < 2)%nat -> 0 <= z < 2 ^ 32 ->
  @equalities Demo.demo demo_stats (calc_accumulate_gcol_num [demo_field 0 false; demo_field 1 false] 0)
    [demo_part i false] [le_bytes 4 z]
    [(count (fun r => r =? Numeric.int_value false 4 (le_bytes 4 z)) demo_rows, 4)].
Proof.
  intros Hi Hz. refine (eq_cons demo_stats _ (demo_part i false) [] (le_bytes 4 z) [] 4 0 demo_column demo_rows 1 5 []
    (demo_ctc_int i false) _ eq_refl _ eq_refl eq_refl (length_le_bytes _ _) (le_bytes_byte _ _) _ _
    (demo_column_ok i false) (eq_nil _ _)); [done|done|..]; destruct i as [|[]]; done || lia.
Qed.

Definition demo_min : key_range := IndexSearch.mk_range (le_bytes 4 2) 4 1 HA_READ_KEY_EXACT.
Definition demo_max : key_range := IndexSearch.mk_range (le_bytes 4 2) 4 1 HA_READ_AFTER_KEY.
Definition demo_table : list Field := [demo_field 0 false; demo_field 1 false].

(** Two of four rows have the value 2. *)
Lemma equality_density_witness :
  @calc_density_one_table Demo.demo demo_cbo_server [demo_part 0 false; demo_part 1 false]
    (range_keys (Some demo_min) (Some demo_max)) demo_stats demo_table = Some (product [(2, 4)]).
Proof.
  exact (@equality_density Demo.demo demo_cbo_server Demo.demo_byte_order demo_stats demo_table [demo_part 0 false]
    [le_bytes 4 2] [(2, 4)] (le_bytes 4 2 ++ []) demo_min demo_max [demo_part 1 false]
    (demo_equalities 0 2 ltac:(lia) ltac:(lia))
    (IndexSearch.tup_cons _ _ _ _ _ _ (demo_image 0 false 2 ltac:(lia)) (IndexSearch.tup_nil _))
    ltac:(by repeat split) ltac:(done)).
Defined.

Lemma rows_in_range_bounded_witness :
  exists n, @rows_in_range Demo.demo demo_cbo_server [demo_part 0 false] demo_table (Some demo_min) (Some demo_max) demo_stats
    = Some n /\ 0 <= n <= 5.
Proof.
  refine (proj1 (@rows_in_range_bounded Demo.demo demo_cbo_server [demo_part 0 false] demo_table (Some demo_min)
    (Some demo_max) demo_stats (product [(2, 4)]) ltac:(cbn; lia) _) _); vm_compute; done.
Defined.

(** An index of a virtual column and one that is stored: the condition
    "2 and 5" is answered with the rows that have 2 in the second column. *)
Definition demo_virtual : list Field := [demo_field 0 true; demo_field 1 false].
Definition demo_two : list Z := le_bytes 4 2 ++ le_bytes 4 5.

Lemma virtual_column_offset_witness :
  @calc_density_one_table Demo.demo demo_cbo_server [demo_part 0 true; demo_part 1 false]
    (range_keys (Some (IndexSearch.mk_range demo_two 8 3 HA_READ_KEY_EXACT))
                (Some (IndexSearch.mk_range demo_two 8 3 HA_READ_AFTER_KEY))) demo_stats demo_virtual
  = Some (product [(2, 4)]).
Proof.
  refine (@virtual_column_offset Demo.demo demo_cbo_server Demo.demo_byte_order demo_stats demo_virtual (demo_part 0 true)
    (demo_part 1 false) [] (le_bytes 4 2) (le_bytes 4 5) (le_bytes 4 2) (le_bytes 4 5) [(2, 4)]
    (IndexSearch.mk_range demo_two 8 3 HA_READ_KEY_EXACT) (IndexSearch.mk_range demo_two 8 3 HA_READ_AFTER_KEY)
    eq_refl _ _ (demo_image 1 false 2 ltac:(lia)) ltac:(by repeat split) ltac:(done)).
  - refine (eq_cons demo_stats (calc_accumulate_gcol_num demo_virtual 0) (demo_part 1 false) [] (le_bytes 4 2) [] 4 1 demo_column demo_rows 1 5 []
      (demo_ctc_int 1 false) _ eq_refl _ eq_refl eq_refl (length_le_bytes _ _) (le_bytes_byte _ _) eq_refl eq_refl
      (demo_column_ok 1 false) (eq_nil _ _)); done.
  - exact (IndexSearch.tup_cons _ _ _ _ _ _ (demo_image 0 true 2 ltac:(lia)) (IndexSearch.tup_cons _ _ _ _ _ _ (demo_image 1 false 5 ltac:(lia)) (IndexSearch.tup_nil _))).
Defined.

Lemma null_selectivity_witness :
  @calculate_column_selectivity Demo.demo demo_cbo_server demo_stats
    (mk_ckey (Some [1; 0; 0; 0; 0]) 5 CMP_TYPE_CLOSE_INTERNAL 1, mk_ckey (Some [1; 0; 0; 0; 0]) 5 CMP_TYPE_CLOSE_INTERNAL 1)
    (demo_part 0 false) 0 0 true true
  = Some (ddiv (dbl 1) (dbl 5), true,
      (mk_ckey (Some [1; 0; 0; 0; 0]) 5 CMP_TYPE_CLOSE_INTERNAL 1, mk_ckey (Some [1; 0; 0; 0; 0]) 5 CMP_TYPE_CLOSE_INTERNAL 1)).
Proof.
  exact (proj2 (@null_selectivity Demo.demo demo_cbo_server demo_stats
    (mk_ckey (Some [1; 0; 0; 0; 0]) 5 CMP_TYPE_CLOSE_INTERNAL 1, mk_ckey (Some [1; 0; 0; 0; 0]) 5 CMP_TYPE_CLOSE_INTERNAL 1)
    (demo_part 0 false) 0 0 true demo_column [1; 0; 0; 0; 0] [1; 0; 0; 0; 0] eq_refl ltac:(done) eq_refl eq_refl)
    eq_refl ltac:(done) eq_refl).
Defined.

(** The violated index "ab" is reported as "abc", which comes first. *)
Lemma find_errkey_first_witness : find_errkey [[99]; [97; 98; 99]; [97; 98]] 0 [97; 98] UINT_MAX = 1.
Proof.
  refine (proj1 (find_errkey_first [[99]; [97; 98; 99]; [97; 98]] [97; 98] 0 UINT_MAX _ _)
    [[99]] [97; 98; 99] [[97; 98]] eq_refl _ _);
    [repeat constructor| repeat constructor|by exists [99]|].
  repeat constructor. intros [k Hk]. discriminate.
Defined.

Definition demo_str : Field :=
  mk_field MYSQL_TYPE_VARCHAR MYSQL_TYPE_VARCHAR 0 21 20 1 false 0 0 false false 0 0 false false false false 32 0 0 0 0.

(** 262144 string columns in all partitions: the size is 0. *)
Lemma string_memory_witness :
  (exists column p, In column (snd (alloc_str_mysql_mem 262144 [demo_str])) /\ In p column /\
     fst (alloc_str_mysql_mem 262144 [demo_str]) < p + CBO_STRING_MAX_LEN).
Proof.
  pose proof (string_memory 262144 [demo_str] ltac:(lia)) as H.
  destruct (alloc_str_mysql_mem 262144 [demo_str]) as [size pointers]. apply H. vm_compute. done.
Defined.
End Cbo.
