(* ===== verification/SqlText.v ===== *)
(** * SqlText: text of statements

    The string functions that the DDL rewriter plugin uses: lower case,
    [atoi], the regular expressions of [std::regex] in the ECMAScript grammar
    with the backtracking order and the formats of the standard, the names of
    users as literals ([ctc_util.cc]), and the rewriting of statements that
    change passwords ([ctc_ddl_rewriter_plugin.cc]).

    A text is a list of characters; [txt] makes one of a literal. *)

From Stdlib Require Import Ascii String.
From S2P Require Import Prelude.

Module SqlText.

Abbreviation text := (list ascii).
Definition txt (s : string) : text := list_ascii_of_string s.

(** ** Characters *)

Definition code (c : ascii) : Z := Z.of_nat (nat_of_ascii c).
Definition chr (z : Z) : ascii := ascii_of_nat (Z.to_nat z).

(** [::tolower] in the C locale *)
Definition lower (c : ascii) : ascii := if (65 <=? code c) && (code c <=? 90) then chr (code c + 32) else c.
Definition lower_text (s : text) : text := map lower s.
Definition isspace (c : ascii) : bool := (code c =? 32) || ((9 <=? code c) && (code c <=? 13)).
Definition isdigit (c : ascii) : bool := (48 <=? code c) && (code c <=? 57).

(** [strcasecmp] is 0. *)
Definition strcasecmp_0 (a b : text) : bool := bool_decide (lower_text a = lower_text b).

(** [atoi]: the value of [strtol], which is limited to 64 bits, as an [int] *)
Fixpoint digits_val (acc : Z) (s : text) : Z :=
  match s with
  | c :: s => if isdigit c then digits_val (10 * acc + (code c - 48)) s else acc
  | [] => acc
  end.

Fixpoint skip_space (s : text) : text :=
  match s with c :: s' => if isspace c then skip_space s' else s | [] => [] end.

Definition atoi (s : text) : Z :=
  let v := match skip_space s with
           | c :: s' => if code c =? 45 then - digits_val 0 s'
                        else if code c =? 43 then digits_val 0 s' else digits_val 0 (c :: s')
           | [] => 0
           end in
  wrapS 32 (Z.max (- 2 ^ 63) (Z.min v (2 ^ 63 - 1))).

(** ** Regular expressions *)

Inductive rx :=
  | Chr (p : ascii -> bool)
  | Cat (a b : rx)
  | Or (a b : rx)                     (* a|b: a first *)
  | Star (a : rx)                     (* a*: as often as possible first *)
  | Look (a : rx)                     (* (?=a) *)
  | Group (a : rx).                   (* the only group *)

Definition match_result : Type := text * option text.      (* what follows, the group *)

(** [a*]: a further turn, which must not be empty, before the continuation *)
Definition cont : Type := text -> option text -> option match_result.

Fixpoint star_loop (step : text -> option text -> cont -> option match_result) (n : nat) (s : text)
    (g : option text) (k : cont) : option match_result :=
  match n with
  | O => k s g
  | S n =>
    match step s g (fun s' g => if (length s' <? length s)%nat then star_loop step n s' g k else None) with
    | Some m => Some m
    | None => k s g
    end
  end.

(** The first match at the front of [s], in the order of the search, that the
    continuation accepts *)
Fixpoint rmatch (r : rx) (s : text) (g : option text) (k : cont) : option match_result :=
  match r with
  | Chr p => match s with c :: s' => if p c then k s' g else None | [] => None end
  | Cat a b => rmatch a s g (fun s g => rmatch b s g k)
  | Or a b => match rmatch a s g k with Some m => Some m | None => rmatch b s g k end
  | Star a => star_loop (rmatch a) (length s) s g k
  | Look a => match rmatch a s g (fun s g => Some (s, g)) with Some (_, g) => k s g | None => None end
  | Group a => rmatch a s g (fun s' _ => k s' (Some (take (length s - length s') s)))
  end.

Definition match_at (r : rx) (s : text) : option match_result := rmatch r s None (fun s g => Some (s, g)).

(** [match_results::format]: [$$], [$&], [$`], [$'], [$n], [$nn]; [groups] is
    the number of groups. *)
Definition subst (groups n : Z) (m : text) (g : option text) : text :=
  if n =? 0 then m else if n <=? groups then default [] g else [].

Fixpoint expand (groups : Z) (pre m suf : text) (g : option text) (fmt : text) : text :=
  match fmt with
  | [] => []
  | c :: f =>
    if negb (code c =? 36) then c :: expand groups pre m suf g f else
    match f with
    | [] => [c]
    | d :: f' =>
      if code d =? 36 then d :: expand groups pre m suf g f'
      else if code d =? 38 then m ++ expand groups pre m suf g f'
      else if code d =? 96 then pre ++ expand groups pre m suf g f'
      else if code d =? 39 then suf ++ expand groups pre m suf g f'
      else if isdigit d then
        match f' with
        | e :: f'' =>
          if isdigit e then subst groups (10 * (code d - 48) + (code e - 48)) m g ++ expand groups pre m suf g f''
          else subst groups (code d - 48) m g ++ expand groups pre m suf g f'
        | [] => subst groups (code d - 48) m g
        end
      else c :: expand groups pre m suf g f
    end
  end.

(** A pattern: whether it starts with [^], the number of groups *)
Record pattern := mk_pattern { anchored : bool; groups : Z; body : rx }.

(** [regex_replace]; [pre] is the text since the last match, in reverse.  None
    of the patterns matches the empty text. *)
Fixpoint replace_from (fuel : nat) (p : pattern) (fmt : text) (first : bool) (pre s : text) : text :=
  match fuel with
  | O => rev pre ++ s
  | S fuel =>
    match (if anchored p && negb first then None else match_at (body p) s) with
    | Some (rest, g) =>
      rev pre ++ expand (groups p) (rev pre) (take (length s - length rest) s) rest g fmt
      ++ replace_from fuel p fmt false [] rest
    | None =>
      match s with
      | [] => rev pre
      | c :: s => replace_from fuel p fmt false (c :: pre) s
      end
    end
  end.

Definition regex_replace (s : text) (p : pattern) (fmt : text) : text :=
  replace_from (S (length s)) p fmt true [] s.

(** Parts of the patterns *)
Definition icase (c : ascii) : rx := Chr (fun x => Ascii.eqb (lower x) (lower c)).
Definition one (c : ascii) : rx := Chr (Ascii.eqb c).
Fixpoint word (c : ascii) (s : text) : rx :=
  match s with [] => icase c | d :: s => Cat (icase c) (word d s) end.
Definition lit (s : string) : rx := match txt s with [] => Chr (fun _ => false) | c :: s => word c s end.
Definition space : rx := one " "%char.
Definition spaces : rx := Star (Chr isspace).                                         (* \s* *)
Definition dot (c : ascii) : bool := negb (code c =? 10) && negb (code c =? 13).
Definition quoted (q : ascii) : rx := Cat (one q) (Cat (Star (Chr dot)) (one q)).     (* q.*q *)
Definition dquote : ascii := chr 34.
Definition quote : ascii := chr 39.

Definition replace_pattern : pattern :=
  mk_pattern false 1
    (Cat space (Cat spaces (Cat (lit "replace ") (Cat spaces (Group (Or (quoted dquote) (quoted quote))))))).

Definition current_user_pattern : pattern :=
  mk_pattern false 0 (Cat space (Cat spaces (lit "current_user() "))).

Definition add_or_rewrite_for_pattern : pattern :=
  mk_pattern true 1
    (Cat (lit "set ") (Cat spaces (Cat (lit "password") (Cat spaces
      (Group (Or (Look (Or (lit "to") (lit "=")))
                 (Cat (lit "for ") (Cat spaces (lit "current_user()"))))))))).

(** ** Names of users as literals *)

(** [no_escapes]: the mode NO_BACKSLASH_ESCAPES *)
Definition backslash : ascii := chr 92.

Definition escape_char (c : ascii) : text :=
  if code c =? 10 then txt "\n" else if code c =? 9 then txt "\t" else if code c =? 13 then txt "\r"
  else if code c =? 8 then txt "\b" else if code c =? 26 then txt "\Z" else [c].

Fixpoint get_text_chars (name : text) : text :=
  match name with
  | [] => []
  | c :: l =>
    if (code c =? 92) && negb (bool_decide (l = [])) then
      match l with
      | d :: l' => if (code d =? 95) || (code d =? 37) then backslash :: d :: get_text_chars l'
                   else backslash :: backslash :: get_text_chars l
      | [] => []
      end
    else escape_char c ++ get_text_chars l
  end.

Definition ctc_deserilize_get_text (no_escapes : bool) (name : text) : text :=
  if negb no_escapes then name else get_text_chars name.

Fixpoint ctc_escape_single_quotation_str (src : text) : text :=
  match src with
  | [] => []
  | c :: l => (if code c =? 39 then [backslash; c] else [c]) ++ ctc_escape_single_quotation_str l
  end.

Definition ctc_deserilize_username_with_single_quotation (no_escapes : bool) (src : text) : text :=
  ctc_escape_single_quotation_str (ctc_deserilize_get_text no_escapes src).

(** ** Statements *)

Definition ctc_remove_replace_clause4sql (sql_str : text) : text := regex_replace sql_str replace_pattern (txt " ").

(** The current user in place of [current_user()] *)
Definition rewrite_current_user (no_escapes : bool) (user host sql : text) : text :=
  regex_replace sql current_user_pattern
    (txt " '" ++ ctc_deserilize_username_with_single_quotation no_escapes user ++ txt "'@'" ++ host ++ txt "'").

(** The user named in a statement that sets a password *)
Definition rewrite_setpasswd_user (no_escapes : bool) (user host sql : text) : text :=
  regex_replace sql add_or_rewrite_for_pattern
    (txt "SET PASSWORD FOR '" ++ ctc_deserilize_username_with_single_quotation no_escapes user ++ txt "'@'"
     ++ host ++ txt "' ").


(** ** Matching *)

Fixpoint star_chr (p : ascii -> bool) (n : nat) (s : text) (g : option text) (k : cont) : option match_result :=
  match n with
  | O => k s g
  | S n =>
    match (match s with c :: s' => if p c then star_chr p n s' g k else None | [] => None end) with
    | Some m => Some m
    | None => k s g
    end
  end.

Lemma star_chr_eq p n : forall s g k, star_loop (rmatch (Chr p)) n s g k = star_chr p n s g k.
Proof.
  induction n as [|n IH]; intros s g k; [done|]. cbn [star_loop star_chr rmatch].
  destruct s as [|c s]; [done|]. destruct (p c); [|done].
  rewrite (proj2 (Nat.ltb_lt _ _)) by (cbn [length]; lia). by rewrite IH.
Qed.

Lemma star_none p n : forall s g k,
  (forall s' : text, s' `suffix_of` s -> k s' g = None) -> star_chr p n s g k = None.
Proof.
  induction n as [|n IH]; intros s g k H; cbn [star_chr]; [by apply H|].
  destruct s as [|c s]; [by apply H|]. destruct (p c); [|by apply H]. rewrite IH; [by apply H|].
  intros s' Hs. apply H. by apply suffix_cons_r.
Qed.

(** The longest way that the continuation accepts is taken. *)
Lemma star_last p (x b : text) r : forall n g k,
  Forall (fun c => p c = true) x -> k b g = Some r ->
  (forall s' : text, s' `suffix_of` b -> s' <> b -> k s' g = None) ->
  (length (x ++ b) <= n)%nat -> star_chr p n (x ++ b) g k = Some r.
Proof.
  induction x as [|c x IH]; intros n g k Hx Hk Hno Hn; cbn [app length] in *.
  - destruct n as [|n]; cbn [star_chr]; [done|]. destruct b as [|c b]; [done|]. destruct (p c); [|done].
    rewrite star_none; [done|]. intros s' Hs. apply Hno; [by apply suffix_cons_r|].
    intros ->. apply suffix_length in Hs. cbn in Hs. lia.
  - destruct n as [|n]; [lia|]. cbn [star_chr]. inversion Hx as [|? ? Hc Hx']; subst. rewrite Hc.
    by rewrite (IH n g k) by (done || lia).
Qed.

(** Nothing to repeat *)
Lemma star_stop p n s g k r :
  k s g = Some r -> match s with c :: _ => p c = false | [] => True end -> star_chr p n s g k = Some r.
Proof. intros Hk Hs. destruct n; cbn [star_chr]; [done|]. destruct s as [|c s]; [done|]. by rewrite Hs. Qed.

Lemma star_run p (x b : text) r : forall n g k,
  Forall (fun c => p c = true) x -> k b g = Some r -> match b with c :: _ => p c = false | [] => True end ->
  (length (x ++ b) <= n)%nat -> star_chr p n (x ++ b) g k = Some r.
Proof.
  induction x as [|c x IH]; intros n g k Hx Hk Hb Hn; cbn [app length] in *; [by apply star_stop|].
  destruct n as [|n]; [lia|]. cbn [star_chr]. inversion Hx as [|? ? Hc Hx']; subst. rewrite Hc.
  by rewrite (IH n g k) by (done || lia).
Qed.

Lemma replace_step fuel p fmt first pre c s :
  (if anchored p && negb first then None else match_at (body p) (c :: s)) = None ->
  replace_from (S fuel) p fmt first pre (c :: s) = replace_from fuel p fmt false (c :: pre) s.
Proof. intros H. cbn [replace_from]. by rewrite H. Qed.

Lemma replace_hit fuel p fmt first pre s rest g :
  (if anchored p && negb first then None else match_at (body p) s) = Some (rest, g) ->
  replace_from (S fuel) p fmt first pre s
  = rev pre ++ expand (groups p) (rev pre) (take (length s - length rest) s) rest g fmt
    ++ replace_from fuel p fmt false [] rest.
Proof. intros H. cbn [replace_from]. by rewrite H. Qed.

(** No match starts in [a], which [b] follows. *)
Definition no_match_before (p : pattern) (a b : text) : bool :=
  forallb (fun i => match match_at (body p) (drop i a ++ b) with Some _ => false | None => true end) (seq 0 (length a)).

Lemma replace_skip p fmt (a b : text) : forall fuel first pre,
  anchored p = false -> no_match_before p a b = true -> (length a <= fuel)%nat ->
  replace_from fuel p fmt first pre (a ++ b) = replace_from (fuel - length a) p fmt (first && bool_decide (a = [])) (rev a ++ pre) b.
Proof.
  induction a as [|c a IH]; intros fuel first pre Hp Hno Hf; cbn [app length rev] in *.
  - by rewrite Nat.sub_0_r, bool_decide_eq_true_2, andb_true_r by done.
  - destruct fuel as [|fuel]; [lia|]. unfold no_match_before in Hno. cbn [length seq forallb drop] in Hno.
    apply andb_true_iff in Hno as [H0 Hno]. rewrite replace_step.
    + rewrite IH; [|done| |lia].
      * rewrite (bool_decide_eq_false_2 (c :: a = [])), andb_false_r by done. rewrite <- app_assoc. done.
      * unfold no_match_before. rewrite forallb_forall in *. intros i Hi%in_seq. apply (Hno (S i)), in_seq. lia.
    + rewrite Hp. cbn [andb]. cbn [app] in H0. by destruct (match_at _ _).
Qed.

(** ** Formats *)

Definition plain (s : text) : Prop := Forall (fun c => code c <> 36) s.

Lemma expand_plain groups pre m suf g a : forall b, plain a -> expand groups pre m suf g (a ++ b) = a ++ expand groups pre m suf g b.
Proof.
  induction a as [|c a IH]; intros b H; [done|]. inversion H as [|? ? Hc Ha]; subst. cbn [app expand].
  rewrite (proj2 (Z.eqb_neq _ _)) by done. cbn [negb]. by rewrite IH.
Qed.

Lemma rmatch_cat a b s g k : rmatch (Cat a b) s g k = rmatch a s g (fun s g => rmatch b s g k).
Proof. done. Qed.
Lemma rmatch_or a b s g k : rmatch (Or a b) s g k = match rmatch a s g k with Some m => Some m | None => rmatch b s g k end.
Proof. done. Qed.
Lemma rmatch_group a s g k : rmatch (Group a) s g k = rmatch a s g (fun s' _ => k s' (Some (take (length s - length s') s))).
Proof. done. Qed.
Lemma rmatch_look a s g k : rmatch (Look a) s g k
  = match rmatch a s g (fun s g => Some (s, g)) with Some (_, g) => k s g | None => None end.
Proof. done. Qed.
Lemma rmatch_star p s g k : rmatch (Star (Chr p)) s g k = star_chr p (length s) s g k.
Proof. apply star_chr_eq. Qed.

Lemma rmatch_one c b g k : rmatch (one c) (c :: b) g k = k b g.
Proof. cbn [rmatch one]. by rewrite Ascii.eqb_refl. Qed.

Lemma rmatch_one_no c d b g k : c <> d -> rmatch (one c) (d :: b) g k = None.
Proof. intros H. cbn [rmatch one]. by rewrite (proj2 (Ascii.eqb_neq _ _)). Qed.

Lemma rmatch_word s : forall c b g k, rmatch (word c s) (c :: s ++ b) g k = k b g.
Proof.
  induction s as [|d s IH]; intros c b g k; cbn [word rmatch icase app]; rewrite Ascii.eqb_refl; [done|]. apply IH.
Qed.

Lemma rmatch_lit w c s b g k : txt w = c :: s -> rmatch (lit w) (txt w ++ b) g k = k b g.
Proof. intros H. unfold lit. rewrite H. apply rmatch_word. Qed.

(** No space: [\s*] is empty. *)
Lemma rmatch_no_space r s g k m :
  match s with c :: _ => isspace c = false | [] => True end ->
  rmatch r s g k = Some m -> rmatch (Cat spaces r) s g k = Some m.
Proof. intros Hc H. unfold spaces. rewrite rmatch_cat, rmatch_star. by apply star_stop. Qed.

Definition no_char (c : ascii) (s : text) : Prop := Forall (fun d => d <> c) s.

(** A quoted text reaches to the last quote of the line. *)
Lemma rmatch_quoted q x b g k m :
  Forall (fun c => dot c = true) x -> no_char q b -> k b g = Some m ->
  rmatch (quoted q) (q :: x ++ q :: b) g k = Some m.
Proof.
  intros Hx Hb Hk. unfold quoted. rewrite rmatch_cat, rmatch_one, rmatch_cat, rmatch_star.
  apply star_last; [done|by rewrite rmatch_one| |done].
  intros s' Hs Hne. destruct s' as [|c s']; [done|].
  assert (Hin : c ∈ b).
  { destruct Hs as [pre Hpre]. destruct pre as [|d pre]; [by rewrite Hpre in Hne|].
    injection Hpre as _ ->. apply elem_of_app. right. by left. }
  apply rmatch_one_no. intros <-. apply list_elem_of_In in Hin.
  unfold no_char in Hb. rewrite List.Forall_forall in Hb. by apply (Hb q).
Qed.

Lemma match_replace old rest :
  Forall (fun c => dot c = true) old -> no_char quote rest ->
  exists g, match_at (body replace_pattern) (txt " replace '" ++ old ++ quote :: rest) = Some (rest, g).
Proof.
  intros Hold Hrest. eexists. unfold match_at. cbn [body replace_pattern].
  change (txt " replace '" ++ old ++ quote :: rest) with (" "%char :: (txt "replace " ++ quote :: old ++ quote :: rest)).
  unfold space. rewrite rmatch_cat, rmatch_one. apply rmatch_no_space; [done|].
  rewrite rmatch_cat, (rmatch_lit "replace " _ _ _ _ _ eq_refl). apply rmatch_no_space; [done|].
  rewrite rmatch_group, rmatch_or. unfold quoted at 1. rewrite rmatch_cat, (rmatch_one_no dquote quote) by done.
  by apply rmatch_quoted.
Qed.


Lemma replace_rest p fmt (s : text) fuel pre :
  anchored p = false -> no_match_before p s [] = true -> (length s <= fuel)%nat -> match_at (body p) [] = None ->
  replace_from fuel p fmt false pre s = rev pre ++ s.
Proof.
  intros Hp Hno Hf H0. rewrite <- (app_nil_r s) at 1. rewrite replace_skip by done. cbn [andb].
  destruct (fuel - length s)%nat as [|n]; cbn [replace_from].
  - by rewrite app_nil_r, rev_app_distr, rev_involutive.
  - rewrite Hp. cbn [andb]. by rewrite H0, rev_app_distr, rev_involutive.
Qed.

(** What the clause [replace 'old password'] takes with it when it is
    removed from a statement before the broadcast: all up to the last quote of
    its line.  When no other quote follows this is just the clause; in a
    statement that names several users it is also what is said of the users
    behind it. *)
Theorem replace_clause_greedy before old rest :
  let clause := txt " replace '" ++ old ++ [quote] in
  Forall (fun c => dot c = true) old -> no_char quote rest ->
  no_match_before replace_pattern before (clause ++ rest) = true ->
  no_match_before replace_pattern rest [] = true ->
  ctc_remove_replace_clause4sql (before ++ clause ++ rest) = before ++ txt " " ++ rest.
Proof.
  intros clause Hold Hrest Hbefore Hafter. unfold ctc_remove_replace_clause4sql, regex_replace.
  rewrite replace_skip by (done || rewrite !length_app; lia).
  assert (Hc : clause ++ rest = txt " replace '" ++ old ++ quote :: rest).
  { unfold clause. by rewrite <- !app_assoc. }
  destruct (match_replace old rest Hold Hrest) as [g Hg]. rewrite <- Hc in Hg.
  remember (S (length (before ++ clause ++ rest)) - length before)%nat as fuel eqn:Hfuel.
  rewrite !length_app in Hfuel. destruct fuel as [|fuel]; [lia|]. cbn [replace_from].
  change (anchored replace_pattern) with false. cbn [andb]. rewrite Hg.
  rewrite replace_rest; [|done|done|lia|reflexivity]. rewrite app_nil_r, rev_involutive. cbn [rev app].
  f_equal.
Qed.

(** ** Statements that set a password *)

Lemma match_set rest :
  match_at (body add_or_rewrite_for_pattern) (txt "set password = " ++ rest) = Some (txt "= " ++ rest, Some []).
Proof.
  unfold match_at. cbn [body add_or_rewrite_for_pattern].
  change (txt "set password = " ++ rest) with (txt "set " ++ txt "password" ++ txt " = " ++ rest).
  rewrite rmatch_cat, (rmatch_lit "set " _ _ _ _ _ eq_refl). apply rmatch_no_space; [done|].
  rewrite rmatch_cat, (rmatch_lit "password" _ _ _ _ _ eq_refl). unfold spaces. rewrite rmatch_cat, rmatch_star.
  change (txt " = " ++ rest) with (txt " " ++ txt "= " ++ rest). apply star_run; [by repeat constructor| |done|done].
  rewrite rmatch_group, rmatch_or.
  assert (Hl : rmatch (Look (Or (lit "to") (lit "="))) (txt "= " ++ rest) None
    (fun s' _ => Some (s', Some (take (length (txt "= " ++ rest) - length s') (txt "= " ++ rest))))
    = Some (txt "= " ++ rest, Some [])).
  { rewrite rmatch_look, rmatch_or.
    change (rmatch (lit "to") (txt "= " ++ rest) None (fun s g => Some (s, g))) with (@None match_result).
    rewrite (rmatch_lit "=" _ _ (txt " " ++ rest) _ _ eq_refl). by rewrite Nat.sub_diag. }
  by rewrite Hl.
Qed.

Lemma anchored_rest p fmt n : forall pre s, anchored p = true -> replace_from n p fmt false pre s = rev pre ++ s.
Proof.
  induction n as [|n IH]; intros pre s Hp; [done|]. cbn [replace_from]. rewrite Hp. cbn [negb andb].
  destruct s as [|c s]; [by rewrite app_nil_r|]. rewrite IH by done. cbn [rev]. by rewrite <- app_assoc.
Qed.

Lemma setpasswd_step rest fmt :
  regex_replace (txt "set password = " ++ rest) add_or_rewrite_for_pattern fmt
  = expand 1 [] (txt "set password ") (txt "= " ++ rest) (Some []) fmt ++ txt "= " ++ rest.
Proof.
  unfold regex_replace. rewrite (replace_hit _ add_or_rewrite_for_pattern fmt true [] _ _ _ (match_set rest)), anchored_rest by done.
  assert (Ht : take (length (txt "set password = " ++ rest) - length (txt "= " ++ rest)) (txt "set password = " ++ rest)
    = txt "set password "); [|by rewrite Ht].
  rewrite !length_app. change (length (txt "set password = ")) with 15%nat. change (length (txt "= ")) with 2%nat.
  replace (15 + length rest - (2 + length rest))%nat with 13%nat by lia. reflexivity.
Qed.

(** A statement that sets the password of the current user is sent with
    the user's name; a name with a dollar sign is taken as a format: of one
    that ends in a dollar sign the broadcast statement has the rest of the
    statement, the password included, in place of the end of the name. *)
Theorem setpasswd_user_named no_escapes user host rest :
  plain host -> let name := ctc_deserilize_username_with_single_quotation no_escapes user in
  (plain name ->
     rewrite_setpasswd_user no_escapes user host (txt "set password = " ++ rest)
     = txt "SET PASSWORD FOR '" ++ name ++ txt "'@'" ++ host ++ txt "' " ++ txt "= " ++ rest) /\
  (forall n, name = n ++ txt "$" -> plain n ->
     rewrite_setpasswd_user no_escapes user host (txt "set password = " ++ rest)
     = txt "SET PASSWORD FOR '" ++ n ++ (txt "= " ++ rest) ++ txt "@'" ++ host ++ txt "' " ++ txt "= " ++ rest).
Proof.
  intros Hh name.
  unfold rewrite_setpasswd_user. fold name. rewrite setpasswd_step.
  assert (Htail : forall g pre m suf, expand 1 pre m suf g (txt "'@'" ++ host ++ txt "' ") = txt "'@'" ++ host ++ txt "' ").
  { intros. rewrite expand_plain by (repeat constructor; done). rewrite expand_plain by done. done. }
  split.
  - intros Hn. rewrite expand_plain by (repeat constructor; done). rewrite expand_plain by done. by rewrite Htail, <- !app_assoc.
  - intros n -> Hn. rewrite expand_plain by (repeat constructor; done). rewrite <- (app_assoc n), expand_plain by done.
    change (txt "$" ++ txt "'@'" ++ host ++ txt "' ") with (txt "$'" ++ txt "@'" ++ host ++ txt "' ").
    change (expand 1 [] (txt "set password ") (txt "= " ++ rest) (Some []) (txt "$'" ++ txt "@'" ++ host ++ txt "' "))
      with ((txt "= " ++ rest) ++ expand 1 [] (txt "set password ") (txt "= " ++ rest) (Some []) (txt "@'" ++ host ++ txt "' ")).
    rewrite expand_plain by (repeat constructor; done). rewrite expand_plain by done.
    change (expand _ _ _ _ _ (txt "' ")) with (txt "' "). by rewrite <- !app_assoc.
Qed.

(** ** Witnesses *)

(** Two users: the second one is lost. *)
Lemma replace_clause_greedy_witness :
  ctc_remove_replace_clause4sql
    (txt "alter user a identified by 'x'" ++ (txt " replace '" ++ txt "old', b identified by 'y" ++ [quote]) ++ txt " ")
  = txt "alter user a identified by 'x'  ".
Proof.
  apply (replace_clause_greedy (txt "alter user a identified by 'x'") (txt "old', b identified by 'y") (txt " "));
    [repeat constructor|repeat constructor; discriminate|vm_compute; reflexivity|vm_compute; reflexivity].
Defined.

(** The user [root$] *)
Lemma setpasswd_user_named_witness :
  rewrite_setpasswd_user false (txt "root$") (txt "%") (txt "set password = " ++ txt "'secret'")
  = txt "SET PASSWORD FOR 'root= 'secret'@'%' = 'secret'".
Proof.
  apply (proj2 (setpasswd_user_named false (txt "root$") (txt "%") (txt "'secret'") ltac:(repeat constructor; discriminate))
    (txt "root")); [reflexivity|repeat constructor; discriminate].
Defined.
End SqlText.
