(* ===== verification/DdlRewriter.v ===== *)
(** * DdlRewriter: which statements run, and where

    Models [ctc_ddl_rewriter_plugin.cc]: the check of every statement after
    it was parsed and its broadcast to the other nodes, with the functions it
    calls in [ctc_util.cc] (locks of tables and of the instance).

    The statement and what the server knows of it are records.  Calls that
    have an effect are recorded in a log, the latest first, with their
    answers, which an arbitrary function of the log chooses.  [need_forward],
    which the C++ functions change through a reference, is passed along.  A
    failed assertion is [None]. *)

From Stdlib Require Import Ascii String.
From S2P Require Import Prelude CtcError Handler SqlText.
Import CtcError Handler SqlText.

Module DdlRewriter.

(** ** Statements *)

(** [enum_sql_command], the commands that the table of the plugin names *)
Inductive sqlcom :=
  | SQLCOM_GRANT | SQLCOM_REVOKE | SQLCOM_CREATE_USER | SQLCOM_DROP_USER | SQLCOM_RENAME_USER
  | SQLCOM_REVOKE_ALL | SQLCOM_ALTER_USER | SQLCOM_ALTER_USER_DEFAULT_ROLE | SQLCOM_CREATE_ROLE
  | SQLCOM_DROP_ROLE | SQLCOM_SET_ROLE | SQLCOM_GRANT_ROLE | SQLCOM_REVOKE_ROLE | SQLCOM_SET_PASSWORD
  | SQLCOM_PREPARE | SQLCOM_EXECUTE
  | SQLCOM_CREATE_PROCEDURE | SQLCOM_DROP_PROCEDURE | SQLCOM_ALTER_PROCEDURE | SQLCOM_ALTER_FUNCTION
  | SQLCOM_CREATE_SPFUNCTION | SQLCOM_DROP_FUNCTION
  | SQLCOM_CREATE_VIEW | SQLCOM_DROP_VIEW | SQLCOM_CREATE_TRIGGER | SQLCOM_DROP_TRIGGER
  | SQLCOM_SET_OPTION
  | SQLCOM_LOCK_TABLES | SQLCOM_UNLOCK_TABLES | SQLCOM_LOCK_INSTANCE | SQLCOM_UNLOCK_INSTANCE
  | SQLCOM_ANALYZE | SQLCOM_FLUSH
  | SQLCOM_CREATE_TABLE | SQLCOM_ALTER_TABLE | SQLCOM_CREATE_INDEX | SQLCOM_DROP_INDEX | SQLCOM_REPAIR
  | SQLCOM_OPTIMIZE | SQLCOM_CHECK | SQLCOM_RENAME_TABLE | SQLCOM_ALTER_TABLESPACE | SQLCOM_DROP_TABLE
  | SQLCOM_CHANGE_DB | SQLCOM_CREATE_DB | SQLCOM_DROP_DB | SQLCOM_ALTER_DB
  | SQLCOM_CREATE_EVENT | SQLCOM_ALTER_EVENT | SQLCOM_DROP_EVENT
  | SQLCOM_CREATE_SERVER | SQLCOM_DROP_SERVER | SQLCOM_ALTER_SERVER | SQLCOM_ALTER_INSTANCE | SQLCOM_IMPORT
  | SQLCOM_CREATE_SRS | SQLCOM_DROP_SRS
  | SQLCOM_CREATE_RESOURCE_GROUP | SQLCOM_ALTER_RESOURCE_GROUP | SQLCOM_DROP_RESOURCE_GROUP
  | SQLCOM_SET_RESOURCE_GROUP
  | SQLCOM_XA_START | SQLCOM_XA_END | SQLCOM_XA_PREPARE | SQLCOM_XA_COMMIT | SQLCOM_XA_ROLLBACK
  | SQLCOM_XA_RECOVER
  | SQLCOM_HA_OPEN | SQLCOM_HA_CLOSE | SQLCOM_HA_READ
  | SQLCOM_OTHER (code : Z).

#[export] Instance sqlcom_eq_dec : EqDecision sqlcom.
Proof. solve_decision. Defined.

Record LEX_USER := mk_user {
  lu_user : option text; lu_host : option text; uses_replace_clause : bool; current_auth : text }.

(** [Item] of a value in SET *)
Inductive item_kind := UserVar (name : text) | SystemVar | OtherItem.
Record item := mk_item {
  it_kind : item_kind;
  it_fix_fails : bool;                     (* fix_fields *)
  it_bind_fails : bool;                    (* bind, of a system variable *)
  it_name : option text;                   (* item_name *)
  it_string : bool;                        (* result_type() == STRING_RESULT *)
  it_int : bool;                           (* result_type() == INT_RESULT *)
  it_isolation : enum_tx_isolation;        (* val_int() as an isolation level *)
  it_val_str : option text;                (* val_str *)
  it_error : bool }.                       (* val_str is error_str() *)

Inductive enum_var_type := OPT_DEFAULT | OPT_SESSION | OPT_GLOBAL | OPT_PERSIST | OPT_PERSIST_ONLY.
#[export] Instance enum_var_type_eq_dec : EqDecision enum_var_type.
Proof. solve_decision. Defined.

Record set_var := mk_set_var {
  sv_found : bool;                         (* the variable exists *)
  sv_readonly : bool; sv_global_persist : bool;
  sv_scope_global : bool;                  (* check_scope(OPT_GLOBAL) *)
  sv_type : enum_var_type; sv_name : text; sv_base : text; sv_value : option item }.

(** The elements of [lex->var_list] *)
Inductive set_var_base :=
  | SetVar (v : set_var)
  | SetUser (printed : text)               (* set_var_user; its print *)
  | SetPassword (user : LEX_USER)
  | SetNames.                              (* set_var_collation_client *)

Inductive lock_kind := ReadLock | WriteLock | NoLock.
Record table_ref := mk_tab { tl_db : text; tl_name : text; tl_lock : lock_kind; tl_temporary : bool }.

Record HA_CREATE_INFO := mk_create {
  db_type : option Z;                      (* the handlerton *)
  create_tmp : bool; create_like : bool }. (* options *)

(** A user variable: its value as a number and as text *)
Record user_var_entry := mk_uvar { uv_unset : bool; uv_null : bool; uv_int : Z; uv_str : text }.

Record stmt := mk_stmt {
  sql_command : sqlcom;
  query : text;                            (* without a zero byte *)
  current_db : option text;
  users_list : list LEX_USER;
  var_list : list set_var_base;
  query_tables : list table_ref;           (* the chain of next_global *)
  own_tables : nat;                        (* those before first_not_own_table() *)
  create_info : option HA_CREATE_INFO;
  drop_temporary : bool;
  tablespace_engine : option text;         (* of a CREATE TABLESPACE *)
  refresh_flags : bool;                    (* REFRESH_FOR_EXPORT, _READ_LOCK or _GRANT *)
  contains_plaintext_password : bool;
  user_vars : text -> option user_var_entry;
  priv_user : text; priv_host : text; sctx_user : text;       (* the security context *)
  no_escapes : bool;                       (* NO_BACKSLASH_ESCAPES *)
  default_engine : text }.                 (* table_plugin *)

(** ** Effects *)

Inductive mdl_type := MDL_SHARED_READ_ONLY | MDL_SHARED_NO_READ_WRITE | MDL_SHARED_UPGRADABLE.
#[export] Instance mdl_type_eq_dec : EqDecision mdl_type.
Proof. solve_decision. Defined.

(** The messages to the client *)
Inductive er :=
  | ER_DISALLOWED_OPERATION | ER_LOCK_WAIT_TIMEOUT | ER_UNKNOWN_COM_ERROR | ER_NOT_ALLOWED_COMMAND
  | ER_INCORRECT_CURRENT_PASSWORD | ER_CANT_UPDATE_WITH_READLOCK | ER_REMOTE (code : Z)
  | ER_DB_CREATE_EXISTS | ER_CANT_CREATE_DB | ER_BAD_DB_ERROR | ER_ILLEGAL_HA.

Record broadcast_request := mk_request {
  rq_db : text; rq_sql : text; rq_user : text; rq_ip : text; rq_command : sqlcom; rq_options : Z }.

(** Locks on behalf of a name that the server locks, [ctc_lock_table_info] *)
Inductive enum_mdl_namespace := SCHEMA | ACL_CACHE | OtherNamespace (n : Z).
#[export] Instance enum_mdl_namespace_eq_dec : EqDecision enum_mdl_namespace.
Proof. solve_decision. Defined.
Record lock_info := mk_lock_info { li_db : text; li_table : text; li_command : sqlcom; li_namespace : enum_mdl_namespace }.
#[export] Instance lock_info_eq_dec : EqDecision lock_info.
Proof. solve_decision. Defined.

(** A variable for the other nodes, [set_opt_info_t] *)
Record set_opt_info := mk_opt_info {
  oi_base : text; oi_name : text; oi_value : text; oi_options : Z; oi_int : bool }.

Inductive event :=
  | Message (m : er)                       (* my_printf_error, my_error *)
  | Warning
  | Acquire_mdl (t : table_ref) (m : mdl_type)
  | Release_mdl (t : table_ref)
  | Acquire_backup_intention | Release_backup_intention
  | Acquire_backup_lock | Release_backup_lock
  | Get_tch                                (* get_tch_in_handler_data *)
  | Ctc_lock_table (db tab : text) (cmd : sqlcom) (m : mdl_type)
  | Ctc_unlock_table (db tab : text) (cmd : sqlcom)
  | Ctc_lock_instance (exclusive : bool)
  | Ctc_unlock_instance
  | Ctc_broadcast_rewrite_sql (r : broadcast_request)
  | Ctc_record_sql_for_cantian (r : broadcast_request)
  | Ctc_lock_mdl (i : lock_info) | Ctc_unlock_mdl (i : lock_info)
  | Ctc_pre_create_db (name sql : text) | Ctc_drop_db_pre_check (name : text)
  | Ctc_drop_tablespace_and_user (name : text)
  | Ctc_execute_mysql_ddl_sql (r : broadcast_request)
  | Ctc_execute_set_opt (l : list set_opt_info)
  | Invalidate_remote_dcl_cache
  | Init_agent_client
  | Close_mysql_conn.

(** The answer: what the call returns, and [err_code] of the request *)
Record reply := mk_reply { rp_ret : Z; rp_err : Z }.
Definition log := list (event * reply).

(** [w_flag]: [set_flag] of the session context *)
Record world := mk_world { w_flag : Z; w_log : log }.

Definition M (A : Type) := world -> option (A * world).
#[export] Instance M_ret : MRet M := fun A a w => Some (a, w).
#[export] Instance M_bind : MBind M := fun A B k m w =>
  match m w with Some (a, w) => k a w | None => None end.
Definition ret {A} (a : A) : M A := mret a.
Definition fail {A} : M A := fun _ => None.

Inductive metadata_switchs := SWITCH_FAILED | NOT_MATCH | MATCH_META | MATCH_NO_META | CLUSTER_NOT_READY.
#[export] Instance metadata_switchs_eq_dec : EqDecision metadata_switchs.
Proof. solve_decision. Defined.

(** What is outside of the plugin *)
Record env := mk_env {
  oracle : log -> event -> reply;
  srv : server;
  thd : THD;
  metadata_normalized : bool;              (* METADATA_NORMALIZED *)
  mysql_32 : bool;                         (* FEATURE_X_FOR_MYSQL_32 *)
  metadata_switch : metadata_switchs;      (* ctc_get_metadata_switch() *)
  max_sessions_per_node : Z * Z;           (* ctc_get_max_sessions_per_node *)
  check_readonly : bool -> bool; check_schema_readonly : bool;
  ctc_hton : option Z;                     (* ha_resolve_by_name(ctc_hton_name) *)
  ctc_hton_name : text;
  owns_backup_lock : bool;                 (* has_locks(BACKUP_LOCK) *)
  owns_shared_backup : bool;               (* owns_equal_or_stronger_lock *)
  name_locks : Z;                          (* get_g_name_locks() *)
  ctc_enable_x_lock_instance : bool;
  own_global_read_lock : bool; global_read_lock_active : bool }.

(** The number of a timeout, which LOCK TABLES returns, and the accounts of
    the server *)
Record ACL_USER := mk_acl { auth_string : text; auth_plugin : text }.
Class Accounts := {
  lock_wait_timeout_number : Z;
  acl_cache_lock : bool;
  find_acl_user : option text -> option text -> option ACL_USER;      (* host, user *)
  plugin_found : text -> bool;
  uses_internal_storage : text -> bool;                               (* and has compare_password_with_hash *)
  compare_password_with_hash : text -> text -> text -> bool * bool;   (* plugin, hash, password; result, error *)
  get_current_user : LEX_USER -> LEX_USER;
  my_strcasecmp_latin1 : text -> text -> bool }.                      (* equal *)


(** ** Strings *)

Definition is_prefix (a b : text) : bool := bool_decide (take (length a) b = a).

(** [find(sub, pos)] *)
Fixpoint find_from (sub s : text) (pos : nat) : option nat :=
  if is_prefix sub s then Some pos else
  match s with [] => None | _ :: s => find_from sub s (S pos) end.
Definition find (sub s : text) (pos : nat) : option nat :=
  if (length s <? pos)%nat then None else find_from sub (drop pos s) pos.

(** A C string *)
Fixpoint c_text (s : text) : text :=
  match s with [] => [] | c :: s => if code c =? 0 then [] else c :: c_text s end.

Definition SMALL_RECORD_SIZE : nat := 128.
Definition MAX_DDL_SQL_LEN_CONTEXT : Z := 63488.
Definition MAX_DDL_SQL_LEN : Z := MAX_DDL_SQL_LEN_CONTEXT + 30.
Definition strncpy_to (n : nat) (s : text) : text := take (n - 1) (c_text s).

Section Operations.
Context {AC : Accounts} (E : env) (S : stmt).

Definition call (ev : event) : M reply := fun w =>
  let r := oracle E (w_log w) ev in Some (r, mk_world (w_flag w) ((ev, r) :: w_log w)).
Definition call_ (ev : event) : M unit := call ev ≫= fun _ => ret tt.
Definition ask (ev : event) : M Z := r ← call ev; ret (rp_ret r).
Definition say (m : er) : M unit := call_ (Message m).
Definition get_flag : M Z := fun w => Some (w_flag w, w).
Definition put_flag (z : Z) : M unit := fun w => Some (tt, mk_world z (w_log w)).
Definition when (b : bool) (m : M unit) : M unit := if b then m else ret tt.

(** [say], and -1 *)
Definition refuse (m : er) : M Z := say m ≫= fun _ => ret (-1).

(** The thread with the flags of the session context *)
Definition with_flag (z : Z) : THD :=
  let t := thd E in
  mk_thd (thread_id t) (query_id t) (Handler.sql_command t) (is_exec_started t) (is_ignore t) (no_fk_checks t)
    (dd_update_context t) (in_sub_stmt t) (in_trigger t) (auto_increment_increment t) (auto_increment_offset t)
    (alter_copy t) (is_recursive t) (in_multi_stmt_transaction_mode t) (tx_isolation t) z.
Definition flagged (f : server -> THD -> bool) : M bool := z ← get_flag; ret (f (srv E) (with_flag z)).

Definition IS_METADATA_NORMALIZATION : bool := bool_decide (metadata_switch E = MATCH_META).

(** ** Checks of variables *)

(** What a check returns, and [need_forward]. *)
Definition verdict : Type := Z * bool.

Definition is_current_system_var (setvar : set_var) : bool :=
  match sv_value setvar with
  | None => true
  | Some i => match it_kind i with SystemVar => true | _ => false end
  end.

Definition value_name (setvar : set_var) : option text := sv_value setvar ≫= it_name.

Definition check_default_engine (setvar : set_var) (need_forward : bool) (user_val_str : text) : M verdict :=
  if is_current_system_var setvar then ret (0, need_forward) else
  match value_name setvar with
  | None =>
    if bool_decide (user_val_str = []) then ret (0, need_forward) else
    let s := lower_text user_val_str in
    if bool_decide (s = txt "ctc") || bool_decide (s = txt "default") then ret (0, need_forward)
    else r ← refuse ER_DISALLOWED_OPERATION; ret (r, need_forward)
  | Some name =>
    if negb (strcasecmp_0 (c_text name) (ctc_hton_name E))
    then r ← refuse ER_DISALLOWED_OPERATION; ret (r, need_forward)
    else ret (0, need_forward)
  end.

Definition check_session_pool_volume (setvar : set_var) (need_forward : bool) (user_val_str : text) : M verdict :=
  let bad : M verdict := r ← refuse ER_DISALLOWED_OPERATION; ret (r, need_forward) in
  let limit (n : Z) : M verdict :=
    let max_sessions := wrapS 32 (snd (max_sessions_per_node E)) in
    if n >? max_sessions then bad else if n <? 1 then bad else ret (0, need_forward) in
  if is_current_system_var setvar then ret (0, need_forward) else
  if negb (fst (max_sessions_per_node E) =? 0) then bad else
  match value_name setvar with
  | None =>
    match user_val_str with
    | [] => ret (0, need_forward)
    | c :: _ => if negb (isdigit c) then bad else limit (atoi (c_text user_val_str))
    end
  | Some name => limit (atoi (c_text name))
  end.

Definition unsupport_tx_isolation_level (setvar : set_var) (need_forward : bool) (user_val_str : text) : M verdict :=
  let ok : M verdict := ret (0, need_forward) in
  let warned : M verdict := call_ Warning ≫= fun _ => ret (0, need_forward) in
  let bad : M verdict := r ← refuse ER_DISALLOWED_OPERATION; ret (r, need_forward) in
  match sv_value setvar with
  | None => ok
  | Some i =>
    if is_current_system_var setvar then ok
    else if it_string i then
      match it_name i with
      | None =>
        let s := lower_text user_val_str in
        if bool_decide (s = txt "read-committed") || bool_decide (s = txt "1") then ok
        else if bool_decide (s = txt "repeatable-read") || bool_decide (s = txt "2") then warned
        else bad
      | Some name =>
        if strcasecmp_0 (c_text name) (txt "read-committed") then ok
        else if strcasecmp_0 (c_text name) (txt "repeatable-read") then warned
        else bad
      end
    else match it_isolation i with
         | ISO_READ_COMMITTED => ok
         | ISO_REPEATABLE_READ => warned
         | _ => bad
         end
  end.

Definition ctc_check_sample_size (setvar : set_var) (need_forward : bool) (user_val_str : text) : M verdict :=
  call_ Warning ≫= fun _ => ret (0, false).

Definition set_variable_rules_map : list (text * (set_var -> bool -> text -> M verdict)) :=
  [(txt "default_storage_engine", check_default_engine);
   (txt "max_connections", check_session_pool_volume);
   (txt "transaction_isolation", unsupport_tx_isolation_level);
   (txt "ctc_sample_size", ctc_check_sample_size)].

Fixpoint assoc {B} (l : list (text * B)) (k : text) : option B :=
  match l with [] => None | (x, b) :: l => if decide (x = k) then Some b else assoc l k end.

(** The code, and the value of the user variable *)
Definition ctc_get_user_var_string (name : text) : M (Z * text) :=
  match user_vars S name with
  | None => r ← refuse ER_DISALLOWED_OPERATION; ret (r, [])
  | Some v => ret (0, if uv_null v then [] else c_text (uv_str v))
  end.

Definition allow_sqlcmd (session_var_name : text) : Z :=
  match user_vars S session_var_name with
  | None => 0
  | Some v =>
    if uv_unset v then 0
    else if negb (uv_null v) && ((uv_int v =? 1) || bool_decide (lower_text (c_text (uv_str v)) = txt "true")) then -1
    else 0
  end.

(** ** Accounts *)

Definition ctc_check_dcl (need_forward : bool) : M verdict :=
  let need_forward := if check_readonly E false || (negb (bool_decide (query_tables S = [])) && check_schema_readonly E)
                      then false else need_forward in
  if negb (allow_sqlcmd (txt "ctc_dcl_disabled") =? 0)
  then r ← refuse ER_DISALLOWED_OPERATION; ret (r, need_forward)
  else ret (0, need_forward).

(** The code, and [res] *)
Definition ctc_verify_password4existed_user (existed_user : LEX_USER) (res : bool) : Z * bool :=
  if negb acl_cache_lock then (-1, res) else
  match find_acl_user (lu_host existed_user) (lu_user existed_user) with
  | None => (-1, res)
  | Some acl_user =>
    if negb (plugin_found (auth_plugin acl_user)) then (-1, res) else
    let hash := auth_string acl_user in
    let res :=
      if bool_decide (hash = []) && negb (bool_decide (current_auth existed_user = [])) then false
      else if uses_internal_storage (auth_plugin acl_user)
              && fst (compare_password_with_hash (auth_plugin acl_user) hash (current_auth existed_user))
              && negb (snd (compare_password_with_hash (auth_plugin acl_user) hash (current_auth existed_user)))
      then false
      else res in
    let res := true in
    (0, res)
  end.

(** A user of the statement with the current user for an empty one *)
Definition fill_user (u : LEX_USER) : LEX_USER :=
  match lu_host u, lu_user u with
  | None, None => mk_user (Some (sctx_user S)) (Some (priv_host S)) (uses_replace_clause u) (current_auth u)
  | _, _ => u
  end.

(** The loop over the users: an error, or [existed_other_user_with_replace] *)
Fixpoint check_users (users : list LEX_USER) (existed_other_user_with_replace : bool) : M (Z + bool) :=
  match users with
  | [] => ret (inr existed_other_user_with_replace)
  | tmp_user :: users =>
    let user := get_current_user (fill_user tmp_user) in
    let is_self := bool_decide (Some (sctx_user S) = lu_user user)
                   && match lu_host user with Some h => my_strcasecmp_latin1 h (priv_host S) | None => false end in
    if negb (uses_replace_clause user) then check_users users existed_other_user_with_replace
    else if is_self then
      let '(failed, is_password_matched) := ctc_verify_password4existed_user user false in
      if negb (failed =? 0) then ret (inl (-1))
      else if negb is_password_matched then r ← refuse ER_INCORRECT_CURRENT_PASSWORD; ret (inl r)
      else check_users users existed_other_user_with_replace
    else check_users users true
  end.

Definition ctc_rewrite_alter_user4update_passwd (sql_str : text) : M (Z * text) :=
  r ← check_users (users_list S) false;
  match r with
  | inl e => ret (e, sql_str)
  | inr other =>
    let sql := if other : bool then sql_str else ctc_remove_replace_clause4sql sql_str in
    ret (0, rewrite_current_user (no_escapes S) (sctx_user S) (priv_host S) sql)
  end.

(** A check before the broadcast: the code, the statement, [need_forward] *)
Definition checked_stmt : Type := Z * text * bool.

Definition ctc_check_alter_user (sql_str : text) (need_forward : bool) : M checked_stmt :=
  '(r, need_forward) ← ctc_check_dcl need_forward;
  if negb (r =? 0) then ret (-1, sql_str, need_forward) else
  '(r, sql_str) ← ctc_rewrite_alter_user4update_passwd sql_str;
  ret (r, sql_str, need_forward).

Definition ctc_rewrite_setpasswd (sql_str : text) : M (Z * text) :=
  match var_list S with
  | [SetPassword user_for_setpasswd] =>
    match lu_user user_for_setpasswd, lu_host user_for_setpasswd with
    | Some username, Some host =>
      let sql := rewrite_setpasswd_user (no_escapes S) username host sql_str in
      if uses_replace_clause user_for_setpasswd && bool_decide (priv_user S = username) then
        let '(failed, is_password_matched) := ctc_verify_password4existed_user user_for_setpasswd false in
        if negb (failed =? 0) then ret (-1, sql_str)
        else if is_password_matched : bool then ret (0, ctc_remove_replace_clause4sql sql)
        else r ← refuse ER_INCORRECT_CURRENT_PASSWORD; ret (r, sql_str)
      else ret (0, sql)
    | _, _ => fail                                          (* a null pointer *)
    end
  | _ => fail                                               (* assert(elements == 1) *)
  end.

Definition ctc_check_set_password (sql_str : text) (need_forward : bool) : M checked_stmt :=
  '(r, need_forward) ← ctc_check_dcl need_forward;
  if negb (r =? 0) then ret (-1, sql_str, need_forward) else
  '(r, sql_str) ← ctc_rewrite_setpasswd sql_str;
  ret (r, sql_str, need_forward).

(** ** SET *)

(** The code, the value, [need_forward] *)
Definition ctc_get_variables_value_string (i : item) (need_forward : bool) : M (Z * text * bool) :=
  if it_fix_fails i then ret (0, [], false) else
  match it_kind i with
  | UserVar name =>
    '(r, v) ← ctc_get_user_var_string name;
    if negb (r =? 0) then ret (-1, v, false) else ret (0, v, need_forward)
  | SystemVar =>
    if negb (mysql_32 E) && it_bind_fails i then ret (-1, [], false) else
    match it_val_str i with
    | None => ret (0, txt "null", need_forward)
    | Some v => if it_error i then ret (-1, [], false) else ret (0, c_text v, need_forward)
    end
  | OtherItem =>
    ret (0, match it_val_str i with None => txt "null" | Some v => c_text v end, need_forward)
  end.

Definition ctc_check_set_opt_rule (setvar : set_var) (name_str user_val_str : text) (need_forward : bool) : M verdict :=
  match assoc set_variable_rules_map (lower_text name_str) with
  | None => ret (0, need_forward)
  | Some rule =>
    '(rule_res, need_forward) ← rule setvar need_forward user_val_str;
    ret (rule_res, if rule_res =? -1 then false else need_forward)
  end.

Definition user_var_flag_map : list (text * Z) :=
  [(txt "ctc_ddl_local_enabled", CTC_DDL_LOCAL_ENABLED); (txt "ctc_ddl_enabled", CTC_DDL_ENABLED);
   (txt "ctc_replay_ddl", CTC_REPLAY_DDL)].

Definition ctc_set_user_var_flag (name value : text) : M Z :=
  let is_flag_set := bool_decide (value = txt "1") || bool_decide (value = txt "true") in
  let is_flag_unset := bool_decide (value = txt "0") || bool_decide (value = txt "false") || bool_decide (value = txt "NULL") in
  match assoc user_var_flag_map name with
  | None => ret 0
  | Some bit =>
    z ← get_flag;
    if is_flag_set then put_flag (Z.setbit z bit) ≫= fun _ => ret 0
    else if is_flag_unset then put_flag (Z.clearbit z bit) ≫= fun _ => ret 0
    else refuse ER_UNKNOWN_COM_ERROR
  end.

(** The name and the value in the print of [SET @name:=value] *)
Definition printed_name (str : text) : text :=
  match find (txt "@") str 0 with
  | None => []
  | Some pos => match find (txt ":=") str pos with
                | None => []
                | Some end_pos => take (end_pos - (pos + 1)) (drop (pos + 1) str)
                end
  end.
Definition printed_value (str : text) : text :=
  match find (txt ":=") str 0 with None => [] | Some pos => drop (pos + 2) str end.

Definition check_non_system_var (var : set_var_base) : M verdict :=
  match var with
  | SetUser str =>
    if bool_decide (str = []) then r ← refuse ER_NOT_ALLOWED_COMMAND; ret (r, false)
    else r ← ctc_set_user_var_flag (printed_name str) (printed_value str); ret (r, false)
  | _ => ret (0, false)
  end.

(** What the variable says of the broadcast *)
Definition forward_var (setvar : set_var) (need_forward : bool) : bool :=
  if negb (sv_found setvar) then need_forward
  else negb (sv_readonly setvar) && sv_global_persist setvar && (mysql_32 E || sv_scope_global setvar).

Definition check_system_var (setvar : set_var) (need_forward contain_subselect : bool) : M verdict :=
  let need_forward := forward_var setvar need_forward in
  let name_str := if sv_found setvar || mysql_32 E then sv_name setvar else [] in
  '(r, val_str, need_forward) ←
    (if negb (sv_found setvar) && negb (mysql_32 E) || contain_subselect then ret (0, [], need_forward)
     else '(r, val_str, need_forward) ←
            match sv_value setvar with
            | Some i => ctc_get_variables_value_string i need_forward
            | None => ret (0, [], need_forward)
            end;
          '(rule, need_forward) ← ctc_check_set_opt_rule setvar name_str val_str need_forward;
          ret (Z.lor r rule, val_str, need_forward));
  if Z.of_nat (length (c_text val_str)) >? MAX_DDL_SQL_LEN
  then r ← refuse ER_DISALLOWED_OPERATION; ret (r, need_forward)
  else if need_forward && negb (allow_sqlcmd (txt "ctc_setopt_disabled") =? 0)
  then r ← refuse ER_DISALLOWED_OPERATION; ret (r, need_forward)
  else ret (r, need_forward).

(** The loop over the variables *)
Fixpoint check_vars (vars : list set_var_base) (need_forward contain_subselect : bool) : M verdict :=
  match vars with
  | [] => ret (0, need_forward)
  | var :: vars =>
    '(r, need_forward) ← match var with
                         | SetVar setvar => check_system_var setvar need_forward contain_subselect
                         | _ => check_non_system_var var
                         end;
    if negb (r =? 0) then ret (-1, need_forward) else check_vars vars need_forward contain_subselect
  end.

Definition ctc_check_set_opt (sql_str : text) (need_forward : bool) : M checked_stmt :=
  let contain_subselect := negb (bool_decide (query_tables S = [])) in
  '(r, need_forward) ← check_vars (var_list S) need_forward contain_subselect;
  if negb (r =? 0) then ret (r, sql_str, need_forward)
  else ret (r, sql_str, if IS_METADATA_NORMALIZATION then false else need_forward).

(** ** Definitions *)

Definition mysql_system_db : list text :=
  [txt "information_schema"; txt "mysql"; txt "performance_schema"; txt "sys"].

Definition is_system_db (ddl_db : text) : M Z :=
  if bool_decide (ddl_db ∈ mysql_system_db) then refuse ER_DISALLOWED_OPERATION else ret 0.

Definition no_tmp (c : HA_CREATE_INFO) : bool := negb (create_tmp c).

Definition ctc_check_ddl_engine (sql_str : text) (need_forward : bool) : M checked_stmt :=
  let out (r : Z) : checked_stmt := (r, sql_str, false) in
  let other_engine :=
    match create_info S with
    | Some c => match db_type c with Some h => negb (bool_decide (Some h = ctc_hton E)) && no_tmp c | None => false end
    | None => false
    end in
  if other_engine then r ← refuse ER_DISALLOWED_OPERATION; ret (out r) else
  match (if IS_METADATA_NORMALIZATION then None else
         match create_info S, query_tables S with
         | Some c, _ :: t :: _ => if create_like c && no_tmp c && negb (drop_temporary S) then Some t else None
         | _, _ => None
         end) with
  | Some t => r ← is_system_db (tl_db t); ret (out r)
  | None =>
    if bool_decide (sql_command S = SQLCOM_ALTER_TABLESPACE)
       && match tablespace_engine S with Some e => negb (bool_decide (e = ctc_hton_name E)) | None => false end
    then r ← refuse ER_DISALLOWED_OPERATION; ret (out r) else
    match (if IS_METADATA_NORMALIZATION then None else
           match create_info S, query_tables S with
           | Some c, t :: _ => if no_tmp c && negb (drop_temporary S) then Some t else None
           | _, _ => None
           end) with
    | Some t => r ← is_system_db (tl_db t); ret (out r)
    | None => ret (out 0)
    end
  end.

Definition ctc_check_ddl (sql_str : text) (need_forward : bool) : M checked_stmt := ret (0, sql_str, false).

Definition ctc_check_unspport_ddl (sql_str : text) (need_forward : bool) : M checked_stmt :=
  r ← refuse ER_DISALLOWED_OPERATION; ret (r, sql_str, need_forward).

Definition ctc_read_only_ddl (sql_str : text) (need_forward : bool) : M checked_stmt :=
  ret (0, sql_str,
       if check_readonly E true || (negb (bool_decide (query_tables S = [])) && check_schema_readonly E)
       then false else need_forward).

Definition ctc_check_flush (sql_str : text) (need_forward : bool) : M checked_stmt :=
  ret (0, sql_str, refresh_flags S).

(** ** Locks of tables *)

(** The tables that were locked, or fewer and an error *)
Fixpoint ctc_lock_table_pre (tables : list table_ref) (m : mdl_type) (ticket_list : list table_ref)
  : M (Z * list table_ref) :=
  match tables with
  | [] => ret (0, ticket_list)
  | t :: tables =>
    if tl_temporary t then ctc_lock_table_pre tables m ticket_list else
    failed ← ask (Acquire_mdl t m);
    if negb (failed =? 0) then ret (1, ticket_list) else ctc_lock_table_pre tables m (ticket_list ++ [t])
  end.

Fixpoint ctc_lock_table_post (ticket_list : list table_ref) : M unit :=
  match ticket_list with
  | [] => ret tt
  | t :: l => call_ (Release_mdl t) ≫= fun _ => ctc_lock_table_post l
  end.

Definition tables_to_lock : list table_ref := take (own_tables S) (query_tables S).

(** The first loop: [inl] is an error of [get_tch_in_handler_data], with which
    the function returns. *)
Fixpoint lock_tables (tables : list table_ref) : M (Z + Z) :=
  match tables with
  | [] => ret (inr 0)
  | t :: tables =>
    r ← ask Get_tch;
    if negb (r =? 0) then ret (inl r) else
    match (match tl_lock t with ReadLock => Some MDL_SHARED_READ_ONLY | WriteLock => Some MDL_SHARED_NO_READ_WRITE | NoLock => None end) with
    | None => lock_tables tables
    | Some m =>
      r ← ask (Ctc_lock_table (strncpy_to SMALL_RECORD_SIZE (tl_db t)) (strncpy_to SMALL_RECORD_SIZE (tl_name t)) SQLCOM_LOCK_TABLES m);
      if negb (r =? 0) then ret (inr r) else lock_tables tables
    end
  end.

(** The second one; [r] is [ret]. *)
Fixpoint unlock_tables (tables : list table_ref) (r : Z) : M Z :=
  match tables with
  | [] => ret r
  | t :: tables =>
    e ← ask Get_tch;
    if negb (e =? 0) then ret e else
    r ← ask (Ctc_unlock_table (strncpy_to SMALL_RECORD_SIZE (tl_db t)) (strncpy_to SMALL_RECORD_SIZE (tl_name t)) SQLCOM_LOCK_TABLES);
    unlock_tables tables r
  end.

Definition ctc_lock_tables_ddl (sql_str : text) (need_forward : bool) : M checked_stmt :=
  let out (r : Z) : checked_stmt := (r, sql_str, need_forward) in
  '(pre_lock_ret, ticket_list) ← ctc_lock_table_pre tables_to_lock MDL_SHARED_NO_READ_WRITE [];
  if negb (pre_lock_ret =? 0) then
    ctc_lock_table_post ticket_list ≫= fun _ => say ER_LOCK_WAIT_TIMEOUT ≫= fun _ => ret (out lock_wait_timeout_number)
  else
    r ← lock_tables (query_tables S);
    match r with
    | inl e => ret (out e)
    | inr r =>
      ctc_lock_table_post ticket_list ≫= fun _ =>
      if negb (r =? 0) then r ← unlock_tables (query_tables S) r; ret (out r) else ret (out r)
    end.

Definition ctc_unlock_tables_ddl (sql_str : text) (need_forward : bool) : M checked_stmt :=
  e ← ask Get_tch;
  if negb (e =? 0) then ret (e, sql_str, need_forward) else
  r ← ask (Ctc_unlock_table [] [] SQLCOM_UNLOCK_TABLES);
  ret (r, sql_str, need_forward).

(** ** The table of the commands *)

Inductive pre_func :=
  | Check_dcl | Check_alter_user | Check_set_password | Check_ddl | Read_only_ddl | Check_set_opt
  | Lock_tables_ddl | Unlock_tables_ddl | Check_flush | Check_ddl_engine | Check_unspport_ddl.
#[local] Instance pre_func_eq_dec : EqDecision pre_func.
Proof using. solve_decision. Defined.

Record ddl_broadcast_cmd := mk_cmd { need_select_db : bool; pre : option pre_func }.

Definition ddl_cmds : list (sqlcom * ddl_broadcast_cmd) :=
  [(SQLCOM_GRANT, mk_cmd true (Some Check_dcl));
   (SQLCOM_REVOKE, mk_cmd false (Some Check_dcl));
   (SQLCOM_CREATE_USER, mk_cmd false (Some Check_dcl));
   (SQLCOM_DROP_USER, mk_cmd false (Some Check_dcl));
   (SQLCOM_RENAME_USER, mk_cmd false (Some Check_dcl));
   (SQLCOM_REVOKE_ALL, mk_cmd false (Some Check_dcl));
   (SQLCOM_ALTER_USER, mk_cmd false (Some Check_alter_user));
   (SQLCOM_ALTER_USER_DEFAULT_ROLE, mk_cmd false (Some Check_dcl));
   (SQLCOM_CREATE_ROLE, mk_cmd false (Some Check_dcl));
   (SQLCOM_DROP_ROLE, mk_cmd false (Some Check_dcl));
   (SQLCOM_SET_ROLE, mk_cmd false (Some Check_dcl));
   (SQLCOM_GRANT_ROLE, mk_cmd false (Some Check_dcl));
   (SQLCOM_REVOKE_ROLE, mk_cmd false (Some Check_dcl));
   (SQLCOM_SET_PASSWORD, mk_cmd false (Some Check_set_password));
   (SQLCOM_PREPARE, mk_cmd false (Some Check_ddl));
   (SQLCOM_EXECUTE, mk_cmd false (Some Check_ddl));
   (SQLCOM_CREATE_PROCEDURE, mk_cmd true (Some Read_only_ddl));
   (SQLCOM_DROP_PROCEDURE, mk_cmd true (Some Read_only_ddl));
   (SQLCOM_ALTER_PROCEDURE, mk_cmd true (Some Read_only_ddl));
   (SQLCOM_ALTER_FUNCTION, mk_cmd true (Some Read_only_ddl));
   (SQLCOM_CREATE_SPFUNCTION, mk_cmd true (Some Read_only_ddl));
   (SQLCOM_DROP_FUNCTION, mk_cmd true (Some Read_only_ddl));
   (SQLCOM_CREATE_VIEW, mk_cmd true (Some Read_only_ddl));
   (SQLCOM_DROP_VIEW, mk_cmd true (Some Read_only_ddl));
   (SQLCOM_CREATE_TRIGGER, mk_cmd true (Some Read_only_ddl));
   (SQLCOM_DROP_TRIGGER, mk_cmd true (Some Read_only_ddl));
   (SQLCOM_SET_OPTION, mk_cmd true (Some Check_set_opt));
   (SQLCOM_LOCK_TABLES, mk_cmd true (Some Lock_tables_ddl));
   (SQLCOM_UNLOCK_TABLES, mk_cmd true (Some Unlock_tables_ddl));
   (SQLCOM_LOCK_INSTANCE, mk_cmd false None);
   (SQLCOM_UNLOCK_INSTANCE, mk_cmd false None);
   (SQLCOM_ANALYZE, mk_cmd true None);
   (SQLCOM_FLUSH, mk_cmd false (Some Check_flush));
   (SQLCOM_CREATE_TABLE, mk_cmd false (Some Check_ddl_engine));
   (SQLCOM_ALTER_TABLE, mk_cmd false (Some Check_ddl_engine));
   (SQLCOM_CREATE_INDEX, mk_cmd false (Some Check_ddl));
   (SQLCOM_DROP_INDEX, mk_cmd false (Some Check_ddl));
   (SQLCOM_REPAIR, mk_cmd false (Some Check_ddl));
   (SQLCOM_OPTIMIZE, mk_cmd false (Some Check_ddl));
   (SQLCOM_CHECK, mk_cmd false (Some Check_ddl));
   (SQLCOM_RENAME_TABLE, mk_cmd false (Some Check_ddl));
   (SQLCOM_ALTER_TABLESPACE, mk_cmd false (Some Check_ddl_engine));
   (SQLCOM_DROP_TABLE, mk_cmd false (Some Check_ddl_engine));
   (SQLCOM_CHANGE_DB, mk_cmd false (Some Check_ddl));
   (SQLCOM_CREATE_DB, mk_cmd false (Some Check_ddl));
   (SQLCOM_DROP_DB, mk_cmd false (Some Check_ddl_engine));
   (SQLCOM_ALTER_DB, mk_cmd false None);
   (SQLCOM_CREATE_EVENT, mk_cmd false (Some Check_unspport_ddl));
   (SQLCOM_ALTER_EVENT, mk_cmd false (Some Check_unspport_ddl));
   (SQLCOM_DROP_EVENT, mk_cmd false (Some Check_unspport_ddl));
   (SQLCOM_CREATE_SERVER, mk_cmd false (Some Check_unspport_ddl));
   (SQLCOM_DROP_SERVER, mk_cmd false (Some Check_unspport_ddl));
   (SQLCOM_ALTER_SERVER, mk_cmd false (Some Check_unspport_ddl));
   (SQLCOM_ALTER_INSTANCE, mk_cmd false (Some Check_unspport_ddl));
   (SQLCOM_IMPORT, mk_cmd false (Some Check_unspport_ddl));
   (SQLCOM_CREATE_SRS, mk_cmd false (Some Check_unspport_ddl));
   (SQLCOM_DROP_SRS, mk_cmd false (Some Check_unspport_ddl));
   (SQLCOM_CREATE_RESOURCE_GROUP, mk_cmd false (Some Check_unspport_ddl));
   (SQLCOM_ALTER_RESOURCE_GROUP, mk_cmd false (Some Check_unspport_ddl));
   (SQLCOM_DROP_RESOURCE_GROUP, mk_cmd false (Some Check_unspport_ddl));
   (SQLCOM_SET_RESOURCE_GROUP, mk_cmd false (Some Check_unspport_ddl));
   (SQLCOM_XA_START, mk_cmd false (Some Check_unspport_ddl));
   (SQLCOM_XA_END, mk_cmd false (Some Check_unspport_ddl));
   (SQLCOM_XA_PREPARE, mk_cmd false (Some Check_unspport_ddl));
   (SQLCOM_XA_COMMIT, mk_cmd false (Some Check_unspport_ddl));
   (SQLCOM_XA_ROLLBACK, mk_cmd false (Some Check_unspport_ddl));
   (SQLCOM_XA_RECOVER, mk_cmd false (Some Check_unspport_ddl));
   (SQLCOM_HA_OPEN, mk_cmd false (Some Check_ddl));
   (SQLCOM_HA_CLOSE, mk_cmd false (Some Check_ddl));
   (SQLCOM_HA_READ, mk_cmd false (Some Check_ddl))].

Fixpoint find_cmd (l : list (sqlcom * ddl_broadcast_cmd)) (c : sqlcom) : option ddl_broadcast_cmd :=
  match l with [] => None | (x, b) :: l => if decide (x = c) then Some b else find_cmd l c end.

Definition is_ddl_sql_cmd (sql_cmd : sqlcom) : bool := bool_decide (find_cmd ddl_cmds sql_cmd <> None).

Definition is_dcl_sql_cmd (sql_cmd : sqlcom) : bool :=
  match sql_cmd with
  | SQLCOM_GRANT | SQLCOM_REVOKE | SQLCOM_CREATE_USER | SQLCOM_DROP_USER | SQLCOM_RENAME_USER
  | SQLCOM_REVOKE_ALL | SQLCOM_ALTER_USER | SQLCOM_ALTER_USER_DEFAULT_ROLE | SQLCOM_CREATE_ROLE
  | SQLCOM_DROP_ROLE | SQLCOM_SET_ROLE | SQLCOM_GRANT_ROLE | SQLCOM_REVOKE_ROLE => true
  | _ => false
  end.

Definition run_pre (p : pre_func) (sql_str : text) (need_forward : bool) : M checked_stmt :=
  match p with
  | Check_dcl => '(r, need_forward) ← ctc_check_dcl need_forward; ret (r, sql_str, need_forward)
  | Check_alter_user => ctc_check_alter_user sql_str need_forward
  | Check_set_password => ctc_check_set_password sql_str need_forward
  | Check_ddl => ctc_check_ddl sql_str need_forward
  | Read_only_ddl => ctc_read_only_ddl sql_str need_forward
  | Check_set_opt => ctc_check_set_opt sql_str need_forward
  | Lock_tables_ddl => ctc_lock_tables_ddl sql_str need_forward
  | Unlock_tables_ddl => ctc_unlock_tables_ddl sql_str need_forward
  | Check_flush => ctc_check_flush sql_str need_forward
  | Check_ddl_engine => ctc_check_ddl_engine sql_str need_forward
  | Check_unspport_ddl => ctc_check_unspport_ddl sql_str need_forward
  end.

(** ** Locks of the instance *)

Definition ctc_check_lock_instance (need_forward : bool) : M verdict :=
  if owns_backup_lock E then ret (0, false) else
  if name_locks E >? 0 then r ← refuse ER_DISALLOWED_OPERATION; ret (r, need_forward) else
  failed ← ask Acquire_backup_lock;
  if negb (failed =? 0) then r ← refuse ER_DISALLOWED_OPERATION; ret (r, need_forward) else
  e ← ask Get_tch;
  if negb (e =? 0) then call_ Release_backup_lock ≫= fun _ => ret (-1, need_forward) else
  r ← ask (Ctc_lock_instance (ctc_enable_x_lock_instance E || is_starting (srv E)));
  if negb (r =? 0) then fail else ret (0, need_forward).         (* assert(ret == 0) *)

Definition ctc_check_unlock_instance : M Z :=
  if negb (owns_backup_lock E) then ret 0 else
  e ← ask Get_tch;
  if negb (e =? 0) then ret e else call_ Ctc_unlock_instance ≫= fun _ => ret 0.

Definition ctc_is_instance_locked_by_backup : M bool :=
  if owns_shared_backup E then ret true else
  failed ← ask Acquire_backup_intention;
  if negb (failed =? 0) then ret true else call_ Release_backup_intention ≫= fun _ => ret false.

Definition ctc_is_have_global_read_lock : bool := negb (own_global_read_lock E) && global_read_lock_active E.

(** ** The broadcast *)

Definition CTC_SET_VARIABLE_WITH_SUBSELECT : Z := 2 ^ 0.
Definition CTC_NOT_NEED_CANTIAN_EXECUTE : Z := 2 ^ 4.
Definition CTC_CURRENT_SQL_CONTAIN_PLAINTEXT_PASSWORD : Z := 2 ^ 5.
Definition CTC_DDL_VERSION_NOT_MATCH : Z := 9999.

Definition request (need_select_db : bool) (sql : text) (options : Z) : broadcast_request :=
  mk_request (match current_db S with Some db => if need_select_db then strncpy_to SMALL_RECORD_SIZE db else [] | None => [] end)
    (strncpy_to (Z.to_nat MAX_DDL_SQL_LEN) sql) (strncpy_to SMALL_RECORD_SIZE (priv_user S))
    (strncpy_to SMALL_RECORD_SIZE (priv_host S)) (sql_command S)
    (Z.lor (Z.lor options CTC_NOT_NEED_CANTIAN_EXECUTE)
           (if contains_plaintext_password S then CTC_CURRENT_SQL_CONTAIN_PLAINTEXT_PASSWORD else 0)).

Definition ctc_ddl_rewrite_handle_error (r err_code : Z) : M Z :=
  if r =? CTC_DDL_VERSION_NOT_MATCH then say ER_DISALLOWED_OPERATION ≫= fun _ => ret 1
  else say (ER_REMOTE err_code) ≫= fun _ =>
       (if decide (sql_command S = SQLCOM_LOCK_INSTANCE) then ctc_check_unlock_instance ≫= fun _ => ret tt else ret tt)
       ≫= fun _ => ret err_code.

(** [err_code] of the engine for the codes of the engine: [convert] *)
Definition ddl_broadcast_and_wait (query_str : text) (cmd : ddl_broadcast_cmd) : M Z :=
  let is_lock := bool_decide (sql_command S = SQLCOM_LOCK_TABLES) in
  let req := request (need_select_db cmd) query_str
               (if decide (sql_command S = SQLCOM_SET_OPTION) then CTC_SET_VARIABLE_WITH_SUBSELECT else 0) in
  '(pre_lock_ret, ticket_list) ←
    (if is_lock then ctc_lock_table_pre tables_to_lock MDL_SHARED_NO_READ_WRITE [] else ret (0, []));
  if negb (pre_lock_ret =? 0) then
    ctc_lock_table_post ticket_list ≫= fun _ => say ER_LOCK_WAIT_TIMEOUT ≫= fun _ => ret lock_wait_timeout_number
  else
    rp ← call (Ctc_broadcast_rewrite_sql req);
    (if is_lock then ctc_lock_table_post ticket_list else ret tt) ≫= fun _ =>
    if negb (rp_ret rp =? 0) && negb (rp_err rp =? 0) then ctc_ddl_rewrite_handle_error (rp_ret rp) (rp_err rp)
    else ret (rp_ret rp).

Definition plugin_ddl_passthru (it : option ddl_broadcast_cmd) : M bool :=
  match it with
  | None => ret true
  | Some _ =>
    p ← flagged engine_ddl_passthru;
    ret (p || negb (strcasecmp_0 (default_engine S) (ctc_hton_name E)))
  end.

Definition check_agent_connection : M bool :=
  let host := priv_host S in
  if negb (bool_decide (host = txt "localhost") || bool_decide (host = txt "127.0.0.1")
           || bool_decide (host = txt "%") || bool_decide (host = txt "skip-grants host"))
  then say ER_DISALLOWED_OPERATION ≫= fun _ => ret true
  else
    r ← ask Init_agent_client;
    (if negb (r =? 0) then say ER_DISALLOWED_OPERATION else ret tt) ≫= fun _ =>
    call_ Close_mysql_conn ≫= fun _ => ret (negb (r =? 0)).

Definition ctc_record_sql (need_select_db : bool) : M Z :=
  e ← ask Get_tch;
  if negb (e =? 0) then ret e else ask (Ctc_record_sql_for_cantian (request need_select_db (query S) 0)).

Definition ctc_check_ddl_sql_length (query_str : text) : M bool :=
  if Z.of_nat (length query_str) >? MAX_DDL_SQL_LEN_CONTEXT then say ER_DISALLOWED_OPERATION ≫= fun _ => ret true
  else ret false.

(** Blocked?  The statement, [need_forward] *)
Definition plugin_ddl_block (cmd : ddl_broadcast_cmd) (query_str : text) (need_forward : bool)
  : M (bool * text * bool) :=
  '(r, query_str, need_forward) ←
    match pre cmd with Some p => run_pre p query_str need_forward | None => ret (0, query_str, need_forward) end;
  if negb (r =? 0) then ret (true, query_str, need_forward) else
  long ← ctc_check_ddl_sql_length query_str;
  if long : bool then ret (true, query_str, need_forward) else
  if negb need_forward then ret (false, query_str, need_forward) else
  if IS_METADATA_NORMALIZATION then
    if is_dcl_sql_cmd (sql_command S) then ret (false, query_str, need_forward)
    else r ← ctc_record_sql (need_select_db cmd); ret (negb (r =? 0), query_str, need_forward)
  else
    skip ← flagged engine_skip_ddl;
    if skip : bool then ret (false, query_str, need_forward) else
    enabled ← flagged ddl_enabled_normal;
    if negb enabled then say ER_DISALLOWED_OPERATION ≫= fun _ => ret (true, query_str, need_forward)
    else b ← check_agent_connection; ret (b, query_str, need_forward).

Definition ctc_is_broadcast_by_storage_engine (cmd : ddl_broadcast_cmd) : bool :=
  bool_decide (pre cmd = Some Check_ddl) || bool_decide (pre cmd = Some Check_ddl_engine).

Definition ctc_is_set_session_var : bool :=
  bool_decide (sql_command S = SQLCOM_SET_OPTION)
  && existsb (fun v => match v with SetVar v => negb (bool_decide (sv_type v = OPT_GLOBAL)) | SetNames => true | _ => false end)
       (var_list S).

Definition ctc_check_metadata_switch : M Z :=
  match metadata_switch E with
  | MATCH_META => ret 0
  | MATCH_NO_META => ret 1
  | CLUSTER_NOT_READY | NOT_MATCH | SWITCH_FAILED => refuse ER_DISALLOWED_OPERATION
  end.

(** The locks that stop a statement; [Some] is the result of the plugin. *)
Definition check_locks (cmd : ddl_broadcast_cmd) (need_forward : bool) : M (option Z * bool) :=
  if decide (sql_command S = SQLCOM_LOCK_INSTANCE) then
    '(r, need_forward) ← ctc_check_lock_instance need_forward;
    ret (if negb (r =? 0) then Some (-1) else None, need_forward)
  else if decide (sql_command S = SQLCOM_UNLOCK_INSTANCE) then
    ctc_check_unlock_instance ≫= fun _ => ret (None, need_forward)
  else if negb IS_METADATA_NORMALIZATION && (need_forward || ctc_is_broadcast_by_storage_engine cmd) then
    locked ← ctc_is_instance_locked_by_backup;
    if locked : bool then
      if ctc_is_set_session_var then ret (Some 0, need_forward)
      else say ER_DISALLOWED_OPERATION ≫= fun _ => ret (Some (-1), need_forward)
    else if ctc_is_have_global_read_lock
    then say ER_CANT_UPDATE_WITH_READLOCK ≫= fun _ => ret (Some (-1), need_forward)
    else ret (None, need_forward)
  else ret (None, need_forward).

(** After the block: the metadata switch, the locks, the broadcast *)
Definition rewrite_end (cmd : ddl_broadcast_cmd) (query_str : text) (need_forward : bool) : M Z :=
  check_metadata_switch_result ← ctc_check_metadata_switch;
  if negb (check_metadata_switch_result =? 1)
     && negb (need_forward && bool_decide (sql_command S = SQLCOM_SET_OPTION))
  then ret check_metadata_switch_result else
  '(out, need_forward) ← check_locks cmd need_forward;
  match out with
  | Some r => ret r
  | None =>
    if need_forward : bool
    then r ← ddl_broadcast_and_wait query_str cmd; ret (if negb (r =? 0) then 1 else 0)
    else ret 0
  end.

Definition ctc_ddl_rewrite : M Z :=
  if metadata_normalized E && is_initialize (srv E) then ret 0 else
  let it := find_cmd ddl_cmds (sql_command S) in
  skip ← flagged engine_skip_ddl;
  passthru ← plugin_ddl_passthru it;
  if passthru : bool then ret 0 else
  match it with
  | None => ret 0
  | Some cmd =>
    '(blocked, query_str, need_forward) ← plugin_ddl_block cmd (query S) (negb skip);
    if blocked : bool then ret (-1) else rewrite_end cmd query_str need_forward
  end.

End Operations.

(** ** What a run adds to the log *)

#[export] Instance lock_kind_eq_dec : EqDecision lock_kind.
Proof. solve_decision. Defined.
#[export] Instance table_ref_eq_dec : EqDecision table_ref.
Proof. solve_decision. Defined.

Definition emits (P : event -> reply -> Prop) {A} (m : M A) : Prop :=
  forall w a w', m w = Some (a, w') -> exists l, w_log w' = l ++ w_log w /\ Forall (fun e => P (fst e) (snd e)) l.

Section Emits.
Context {AC : Accounts} (E : env) (S : stmt) (P : event -> reply -> Prop).

Lemma emits_ret {A} (a : A) : emits P (ret a).
Proof. intros w b w' [= -> ->]. by exists []. Qed.

Lemma emits_fail {A} : emits P (@fail A).
Proof. by intros w a w' H. Qed.

Lemma emits_bind {A B} (m : M A) (k : A -> M B) : emits P m -> (forall a, emits P (k a)) -> emits P (m ≫= k).
Proof.
  intros Hm Hk w b w' H. unfold mbind, M_bind in H. destruct (m w) as [[a w1]|] eqn:H1; [|done].
  destruct (Hm _ _ _ H1) as (l1 & Hl1 & HP1), (Hk _ _ _ _ H) as (l2 & Hl2 & HP2).
  exists (l2 ++ l1). rewrite Hl2, Hl1, <- (assoc_L (++)). split; [done|]. by apply Forall_app.
Qed.

Lemma emits_call ev : (forall r, P ev r) -> emits P (call E ev).
Proof. intros H w r w' [= <- <-]. eexists [_]. split; [reflexivity|]. repeat constructor. apply H. Qed.

Lemma emits_get : emits P get_flag.
Proof. intros w a w' [= <- <-]. by exists []. Qed.
Lemma emits_put z : emits P (put_flag z).
Proof. intros w a w' [= <- <-]. by exists []. Qed.

End Emits.

(** Steps through a function: what it calls is left. *)
Ltac emits_step :=
  lazymatch goal with
  | |- emits _ (ret _) => apply emits_ret
  | |- emits _ fail => apply emits_fail
  | |- emits _ get_flag => apply emits_get
  | |- emits _ (put_flag _) => apply emits_put
  | |- emits _ (call _ _) => apply emits_call; intros ?
  | |- emits _ (_ ≫= _) => apply emits_bind; [|intros ?]
  | |- emits _ (match ?x with _ => _ end) => destruct x
  | |- emits _ (let _ := _ in _) => cbv zeta
  end.
Create HintDb emits.
Ltac emits := repeat (emits_step || solve [eauto 2 with emits] || eassumption || (progress unfold call_, ask, say, refuse, flagged)).

(** Not a broadcast, and no lock of a table by the server *)
Definition quiet (ev : event) (r : reply) : Prop :=
  match ev with Ctc_broadcast_rewrite_sql _ | Acquire_mdl _ _ | Release_mdl _ => False | _ => True end.
Definition no_broadcast (ev : event) (r : reply) : Prop :=
  match ev with Ctc_broadcast_rewrite_sql _ => False | _ => True end.

(** The checks add nothing but what they say. *)
Section Quiet.
Context {AC : Accounts} (E : env) (S : stmt).

Lemma quiet_rule rule v nf s :
  assoc (set_variable_rules_map E) rule = Some v -> forall x, emits quiet (v x nf s).
Proof.
  unfold set_variable_rules_map. cbn [assoc]. repeat case_decide; intros [= <-] x.
  - unfold check_default_engine. emits; done.
  - unfold check_session_pool_volume. emits; done.
  - unfold unsupport_tx_isolation_level. emits; done.
  - unfold ctc_check_sample_size. emits; done.
Qed.

Local Hint Resolve quiet_rule : emits.

Lemma quiet_dcl nf : emits quiet (ctc_check_dcl E S nf).
Proof. unfold ctc_check_dcl. emits; done. Qed.
Local Hint Resolve quiet_dcl : emits.

Lemma quiet_users users : forall other, emits quiet (check_users E S users other).
Proof.
  induction users as [|u users IH]; intros other; cbn [check_users]; emits; try done; apply IH.
Qed.
Local Hint Resolve quiet_users : emits.

Lemma quiet_alter_user sql nf : emits quiet (ctc_check_alter_user E S sql nf).
Proof. unfold ctc_check_alter_user, ctc_rewrite_alter_user4update_passwd. emits. Qed.

Lemma quiet_set_password sql nf : emits quiet (ctc_check_set_password E S sql nf).
Proof. unfold ctc_check_set_password, ctc_rewrite_setpasswd. emits; done. Qed.

Lemma quiet_values i nf : emits quiet (ctc_get_variables_value_string E S i nf).
Proof. unfold ctc_get_variables_value_string, ctc_get_user_var_string. emits; done. Qed.
Local Hint Resolve quiet_values : emits.

Lemma quiet_opt_rule v name s nf : emits quiet (ctc_check_set_opt_rule E v name s nf).
Proof.
  unfold ctc_check_set_opt_rule. destruct (assoc _ _) as [rule|] eqn:H; [|emits].
  emits.
Qed.
Local Hint Resolve quiet_opt_rule : emits.

Lemma quiet_non_system v : emits quiet (check_non_system_var E v).
Proof. unfold check_non_system_var, ctc_set_user_var_flag. emits; done. Qed.
Local Hint Resolve quiet_non_system : emits.

Lemma quiet_system v nf c : emits quiet (check_system_var E S v nf c).
Proof. unfold check_system_var. emits; done. Qed.
Local Hint Resolve quiet_system : emits.

Lemma quiet_vars vars : forall nf c, emits quiet (check_vars E S vars nf c).
Proof. induction vars as [|v vars IH]; intros nf c; cbn [check_vars]; emits; done || apply IH. Qed.
Local Hint Resolve quiet_vars : emits.

Lemma quiet_set_opt sql nf : emits quiet (ctc_check_set_opt E S sql nf).
Proof. unfold ctc_check_set_opt. emits. Qed.

Lemma quiet_engine sql nf : emits quiet (ctc_check_ddl_engine E S sql nf).
Proof. unfold ctc_check_ddl_engine, is_system_db. emits; done. Qed.

Lemma quiet_lock_loop tables : emits quiet (lock_tables E tables).
Proof. induction tables as [|t tables IH]; cbn [lock_tables]; emits; done. Qed.

Lemma quiet_unlock_loop tables : forall r, emits quiet (unlock_tables E tables r).
Proof. induction tables as [|t tables IH]; intros r; cbn [unlock_tables]; emits; try done; apply IH. Qed.

Lemma quiet_unlock_tables sql nf : emits quiet (ctc_unlock_tables_ddl E sql nf).
Proof. unfold ctc_unlock_tables_ddl. emits; done. Qed.

Lemma quiet_unlock_instance : emits quiet (ctc_check_unlock_instance E).
Proof. unfold ctc_check_unlock_instance. emits; done. Qed.
Local Hint Resolve quiet_unlock_instance : emits.

Lemma quiet_handle_error r e : emits quiet (ctc_ddl_rewrite_handle_error E S r e).
Proof. unfold ctc_ddl_rewrite_handle_error. emits; done. Qed.

Lemma quiet_length s : emits quiet (ctc_check_ddl_sql_length E s).
Proof. unfold ctc_check_ddl_sql_length. emits; done. Qed.

Lemma quiet_record b : emits quiet (ctc_record_sql E S b).
Proof. unfold ctc_record_sql. emits; done. Qed.

Lemma quiet_agent : emits quiet (check_agent_connection E S).
Proof. unfold check_agent_connection. emits; done. Qed.

Lemma quiet_switch : emits quiet (ctc_check_metadata_switch E).
Proof. unfold ctc_check_metadata_switch. emits; done. Qed.

Lemma quiet_locks cmd nf : emits quiet (check_locks E S cmd nf).
Proof.
  unfold check_locks, ctc_check_lock_instance, ctc_is_instance_locked_by_backup. emits; done.
Qed.

Lemma quiet_passthru it : emits quiet (plugin_ddl_passthru E S it).
Proof. unfold plugin_ddl_passthru. emits. Qed.

End Quiet.

#[export] Hint Resolve quiet_lock_loop quiet_unlock_loop quiet_unlock_tables quiet_handle_error quiet_length quiet_record
  quiet_agent quiet_switch quiet_locks quiet_passthru quiet_dcl quiet_alter_user quiet_set_password quiet_set_opt
  quiet_engine : emits.

(** ** Tickets of locks *)

(** The locks on [t] that were got and not yet given back *)
Fixpoint balance (t : table_ref) (l : log) : Z :=
  match l with
  | [] => 0
  | (ev, r) :: l =>
    match ev with
    | Acquire_mdl t' _ => if decide (t' = t /\ rp_ret r = 0) then 1 else 0
    | Release_mdl t' => if decide (t' = t) then -1 else 0
    | _ => 0
    end + balance t l
  end.

Definition occ (t : table_ref) (l : list table_ref) : Z := Z.of_nat (length (List.filter (fun x => bool_decide (x = t)) l)).

Definition balanced {A} (m : M A) : Prop :=
  forall w a w', m w = Some (a, w') -> forall t, balance t (w_log w') = balance t (w_log w).

Lemma balanced_bind {A B} (m : M A) (k : A -> M B) : balanced m -> (forall a, balanced (k a)) -> balanced (m ≫= k).
Proof.
  intros Hm Hk w b w' H t. unfold mbind, M_bind in H. destruct (m w) as [[a w1]|] eqn:H1; [|done].
  by rewrite (Hk _ _ _ _ H), (Hm _ _ _ H1).
Qed.

Lemma balance_app t l k : balance t (l ++ k) = balance t l + balance t k.
Proof. induction l as [|[ev r] l IH]; [done|]. cbn [app balance]. rewrite IH. lia. Qed.

Lemma quiet_balanced {A} (m : M A) : emits quiet m -> balanced m.
Proof.
  intros Hq w a w' H t. destruct (Hq _ _ _ H) as (l & -> & Hl). rewrite balance_app.
  assert (balance t l = 0); [|lia]. induction Hl as [|[ev r] l Hev _ IH]; [done|]. cbn [balance].
  rewrite IH. by destruct ev.
Qed.

Lemma bind_inv {A B} (m : M A) (k : A -> M B) w b w' :
  (m ≫= k) w = Some (b, w') -> exists a w1, m w = Some (a, w1) /\ k a w1 = Some (b, w').
Proof. unfold mbind, M_bind. destruct (m w) as [[a w1]|] eqn:H; [|done]. intros Hk. by exists a, w1. Qed.

Section Tickets.
Context {AC : Accounts} (E : env) (S : stmt).

Lemma pre_balance tables m : forall tk w r tk' w',
  ctc_lock_table_pre E tables m tk w = Some ((r, tk'), w') ->
  forall t, balance t (w_log w') - occ t tk' = balance t (w_log w) - occ t tk.
Proof.
  induction tables as [|x tables IH]; intros tk w r tk' w' H t; cbn [ctc_lock_table_pre] in H.
  { by injection H as <- <- <-. }
  destruct (tl_temporary x); [by apply (IH _ _ _ _ _ H)|].
  apply bind_inv in H as (failed & w1 & H1 & H). apply bind_inv in H1 as (rp & w2 & H1 & H2).
  injection H1 as <- <-. injection H2 as <- <-.
  destruct (rp_ret _ =? 0) eqn:Hr; cbn [negb] in H.
  - rewrite (IH _ _ _ _ _ H). cbn [w_log balance]. zb. unfold occ. rewrite filter_app, length_app. cbn [List.filter].
    destruct (decide (x = t)) as [->|Hne].
    + rewrite decide_True, bool_decide_eq_true_2 by done. cbn [length]. lia.
    + rewrite decide_False, bool_decide_eq_false_2 by tauto. cbn [length]. lia.
  - injection H as <- <- <-. cbn [w_log balance]. zb. rewrite decide_False by tauto. lia.
Qed.

Lemma post_balance tk : forall w w',
  ctc_lock_table_post E tk w = Some (tt, w') -> forall t, balance t (w_log w') = balance t (w_log w) - occ t tk.
Proof.
  induction tk as [|x tk IH]; intros w w' H t; cbn [ctc_lock_table_post] in H; [injection H as <-; change (occ t []) with 0; lia|].
  apply bind_inv in H as (u & w1 & H1 & H). apply bind_inv in H1 as (rp & w2 & H1 & H2).
  injection H1 as <- <-. injection H2 as <- <-. rewrite (IH _ _ H). cbn [w_log balance]. unfold occ. cbn [List.filter].
  destruct (decide (x = t)); [rewrite bool_decide_eq_true_2 by done|rewrite bool_decide_eq_false_2 by done]; cbn [length]; lia.
Qed.

(** The locks of [ctc_lock_table_pre] are given back by what follows. *)
Lemma pre_post {B} tables m (k : Z -> list table_ref -> M B) :
  (forall r tk w b w', k r tk w = Some (b, w') -> forall t, balance t (w_log w') = balance t (w_log w) - occ t tk) ->
  balanced ('(r, tk) ← ctc_lock_table_pre E tables m []; k r tk).
Proof.
  intros Hk w b w' H t. apply bind_inv in H as ([r tk] & w1 & H1 & H). cbn beta match in H.
  rewrite (Hk _ _ _ _ _ H). pose proof (pre_balance _ _ _ _ _ _ _ H1 t) as Hb. change (occ t []) with 0 in Hb. lia.
Qed.

Lemma post_then {B} tk (m : M B) :
  balanced m -> forall w b w', (ctc_lock_table_post E tk ≫= fun _ => m) w = Some (b, w') ->
  forall t, balance t (w_log w') = balance t (w_log w) - occ t tk.
Proof.
  intros Hm w b w' H t. apply bind_inv in H as ([] & w1 & H1 & H). by rewrite (Hm _ _ _ H), (post_balance _ _ _ H1).
Qed.

Lemma lock_loop_no_error tables :
  (forall l, rp_ret (oracle E l Get_tch) = 0) -> forall w e w', lock_tables E tables w = Some (inl e, w') -> False.
Proof.
  intros Ht. induction tables as [|x tables IH]; intros w e w' H; cbn [lock_tables] in H; [done|].
  apply bind_inv in H as (r & w1 & H1 & H). apply bind_inv in H1 as (rp & w2 & H1 & H2).
  injection H1 as <- <-. injection H2 as <- <-. rewrite Ht in H. cbn [Z.eqb negb] in H.
  destruct (tl_lock x); [| |by apply (IH _ _ _ H)];
    apply bind_inv in H as (r & w1 & H1 & H); destruct (negb (r =? 0)); try done; by apply (IH _ _ _ H).
Qed.

Lemma quiet_say m : balanced (say E m).
Proof. apply quiet_balanced. emits; done. Qed.
Lemma balanced_ret {A} (a : A) : balanced (ret a).
Proof. apply quiet_balanced. emits. Qed.

Lemma lock_tables_balanced sql nf :
  (forall l, rp_ret (oracle E l Get_tch) = 0) -> balanced (ctc_lock_tables_ddl E S sql nf).
Proof.
  intros Ht. apply pre_post. intros r tk w b w' H t. cbn beta in H. destruct (r =? 0); cbn [negb] in H.
  - apply bind_inv in H as (x & w1 & H1 & H). rewrite <- (quiet_balanced _ (quiet_lock_loop E _) _ _ _ H1 t).
    destruct x as [e|x]; [by destruct (lock_loop_no_error _ Ht _ _ _ H1)|].
    apply (fun Hm => post_then _ _ Hm _ _ _ H t). apply quiet_balanced. emits.
  - apply (fun Hm => post_then _ _ Hm _ _ _ H t). apply quiet_balanced. emits; done.
Qed.

Lemma broadcast_balanced sql cmd : balanced (ddl_broadcast_and_wait E S sql cmd).
Proof.
  assert (Hq : forall rp, emits quiet (if negb (rp_ret rp =? 0) && negb (rp_err rp =? 0)
    then ctc_ddl_rewrite_handle_error E S (rp_ret rp) (rp_err rp) else ret (rp_ret rp))) by (intros rp; emits).
  unfold ddl_broadcast_and_wait. destruct (bool_decide (sql_command S = SQLCOM_LOCK_TABLES)) eqn:Hlock.
  - apply pre_post. intros r tk w b w' H t. destruct (r =? 0); cbn [negb] in H.
    + apply bind_inv in H as (rp & w1 & H1 & H). injection H1 as <- <-.
      rewrite (post_then _ _ (quiet_balanced _ (Hq _)) _ _ _ H). done.
    + apply (fun Hm => post_then _ _ Hm _ _ _ H t). apply quiet_balanced. emits; done.
  - intros w b w' H t. apply bind_inv in H as ([r tk] & w0 & H0 & H). injection H0 as <- <- <-. cbn [Z.eqb negb] in H.
    apply bind_inv in H as (rp & w1 & H1 & H). injection H1 as <- <-. apply bind_inv in H as (u & w2 & H0 & H). injection H0 as <- <-.
    by rewrite (quiet_balanced _ (Hq _) _ _ _ H).
Qed.

Lemma pre_balanced p sql nf :
  (forall l, rp_ret (oracle E l Get_tch) = 0) -> balanced (run_pre E S p sql nf).
Proof.
  intros Ht. destruct p; cbn [run_pre]; [| | | | | |by apply lock_tables_balanced|..]; apply quiet_balanced;
    unfold ctc_check_ddl, ctc_read_only_ddl, ctc_check_flush, ctc_check_unspport_ddl; emits; done.
Qed.

End Tickets.

(** ** What a function returns *)

Definition yields {A} (Q : A -> Prop) (m : M A) : Prop := forall w a w', m w = Some (a, w') -> Q a.

Lemma yields_ret {A} (Q : A -> Prop) a : Q a -> yields Q (ret a).
Proof. intros H w b w' [= <- <-]. done. Qed.
Lemma yields_fail {A} (Q : A -> Prop) : yields Q fail.
Proof. by intros w a w' H. Qed.
Lemma yields_bind {A B} (Q : B -> Prop) (m : M A) (k : A -> M B) : (forall a, yields Q (k a)) -> yields Q (m ≫= k).
Proof. intros Hk w b w' H. apply bind_inv in H as (a & w1 & _ & H). by apply (Hk _ _ _ _ H). Qed.

Ltac yields_step :=
  lazymatch goal with
  | |- yields _ (ret _) => apply yields_ret
  | |- yields _ fail => apply yields_fail
  | |- yields _ (_ ≫= _) => apply yields_bind; intros ?
  | |- yields _ (match ?x with _ => _ end) => destruct x
  | |- yields _ (let _ := _ in _) => cbv zeta
  end.
Ltac yields := repeat yields_step.

Section Decisions.
Context {AC : Accounts} (E : env) (S : stmt).

(** *** When the check of a statement lets it be broadcast *)

(** The user variable is 1 or true. *)
Definition switched_on (name : text) : Prop :=
  exists v, user_vars S name = Some v /\ uv_unset v = false /\ uv_null v = false /\
    (uv_int v = 1 \/ lower_text (c_text (uv_str v)) = txt "true").

Lemma allow_sqlcmd_off name : allow_sqlcmd S name = 0 <-> ~ switched_on name.
Proof.
  unfold allow_sqlcmd, switched_on. destruct (user_vars S name) as [v|]; [|by split; [intros _ (? & [=] & _)|]].
  destruct (uv_unset v) eqn:Hu; [split; [|done]; intros _ (? & [= <-] & H & _); congruence|].
  destruct (uv_null v) eqn:Hn; cbn [negb andb]; [split; [|done]; intros _ (? & [= <-] & _ & H & _); congruence|].
  destruct (uv_int v =? 1) eqn:Hi; cbn [orb]; zb;
    [split; [done|]; intros H; destruct H; exists v; auto|].
  destruct (bool_decide _) eqn:Hs; [apply bool_decide_eq_true in Hs|apply bool_decide_eq_false in Hs].
  - split; [done|]. intros H. destruct H. exists v. auto.
  - split; [|done]. intros _ (? & [= <-] & _ & _ & [?|?]); done.
Qed.

(** The server and the schemas may be written. *)
Definition writes_allowed (super : bool) : Prop :=
  check_readonly E super = false /\ (query_tables S = [] \/ check_schema_readonly E = false).

(** A variable whose new value the other nodes need *)
Definition global_variable (v : set_var) : Prop :=
  sv_found v = true /\ sv_readonly v = false /\ sv_global_persist v = true /\
  (mysql_32 E = true \/ sv_scope_global v = true).

Definition unknown_var (b : set_var_base) : Prop := exists v, b = SetVar v /\ sv_found v = false.

(** In SET the last variable that exists decides, even where the flags skip
    the statement. *)
Definition set_forwards (skip : bool) (vars : list set_var_base) : Prop :=
  (skip = false /\ Forall unknown_var vars) \/
  (exists l v l', vars = l ++ SetVar v :: l' /\ global_variable v /\ Forall unknown_var l').

Definition check_allows (skip : bool) (p : option pre_func) : Prop :=
  match p with
  | None | Some (Lock_tables_ddl | Unlock_tables_ddl) => skip = false
  | Some (Check_dcl | Check_alter_user | Check_set_password) =>
    skip = false /\ writes_allowed false /\ ~ switched_on (txt "ctc_dcl_disabled")
  | Some Read_only_ddl => skip = false /\ writes_allowed true
  | Some Check_set_opt =>
    set_forwards skip (var_list S) /\ (var_list S = [] \/ ~ switched_on (txt "ctc_setopt_disabled")) /\
    metadata_switch E <> MATCH_META
  | Some Check_flush => refresh_flags S = true
  | Some (Check_ddl | Check_ddl_engine | Check_unspport_ddl) => False
  end.

(** A check that forwards was asked to. *)
Definition flag_kept_off {A} (fwd : A -> bool) (nf : bool) (m : M A) : Prop := yields (fun x => fwd x = true -> nf = true) m.

Lemma dcl_forward nf :
  yields (fun x : verdict => fst x = 0 -> snd x = true ->
    nf = true /\ writes_allowed false /\ ~ switched_on (txt "ctc_dcl_disabled")) (ctc_check_dcl E S nf).
Proof.
  unfold ctc_check_dcl. destruct (allow_sqlcmd S _ =? 0) eqn:Ha; cbn [negb].
  - apply yields_ret. cbn [fst snd]. intros _ Hf. zb. apply allow_sqlcmd_off in Ha.
    destruct (check_readonly E false) eqn:Hr; [done|]. cbn [orb] in Hf. unfold writes_allowed.
    destruct (bool_decide (query_tables S = [])) eqn:Hq; cbn [negb andb] in Hf.
    { apply bool_decide_eq_true in Hq. auto. }
    destruct (check_schema_readonly E) eqn:Hs; [done|]. auto.
  - unfold refuse. intros w [r b] w' H. apply bind_inv in H as (x & w1 & H1 & H). injection H as <- <- _.
    apply bind_inv in H1 as (u & w2 & _ & H1). injection H1 as <- _. done.
Qed.

Lemma value_forward i nf : flag_kept_off snd nf (ctc_get_variables_value_string E S i nf).
Proof.
  unfold flag_kept_off, ctc_get_variables_value_string. yields; cbn [snd]; done.
Qed.

Lemma rule_forward v name s nf : flag_kept_off snd nf (ctc_check_set_opt_rule E v name s nf).
Proof.
  unfold flag_kept_off, ctc_check_set_opt_rule. destruct (assoc _ _) as [rule|] eqn:Hr; [|by apply yields_ret].
  assert (flag_kept_off snd nf (rule v nf s)) as Hk.
  { revert Hr. unfold set_variable_rules_map. cbn [assoc]. repeat case_decide; intros [= <-]; unfold flag_kept_off.
    - unfold check_default_engine. yields; done.
    - unfold check_session_pool_volume. yields; done.
    - unfold unsupport_tx_isolation_level. yields; done.
    - unfold ctc_check_sample_size. yields; done. }
  intros w [r b] w' H. apply bind_inv in H as ([r1 b1] & w1 & H1 & H). injection H as <- <- _. cbn [snd].
  destruct (r1 =? -1); [done|]. apply (Hk _ _ _ H1).
Qed.

Lemma system_var_forward v nf sub :
  yields (fun x : verdict => fst x = 0 -> snd x = true ->
    ((sv_found v = false /\ nf = true) \/ global_variable v) /\ ~ switched_on (txt "ctc_setopt_disabled"))
    (check_system_var E S v nf sub).
Proof.
  unfold check_system_var. set (nf0 := forward_var E v nf). intros w [r b] w' H.
  apply bind_inv in H as ([[r1 s1] b1] & w1 & H1 & H). intros Hr Hb. cbn [fst snd] in Hr, Hb. subst r b.
  assert (b1 = true -> nf0 = true) as Hoff.
  { destruct (_ || _) in H1; [by injection H1 as _ _ <- _|].
    apply bind_inv in H1 as ([[r2 s2] b2] & w2 & H1 & H2).
    apply bind_inv in H2 as ([r3 b3] & w3 & H2 & H3). injection H3 as _ _ <- _.
    intros Hb. pose proof (rule_forward _ _ _ _ _ _ _ H2 Hb) as Hb2. subst b2.
    destruct (sv_value v) as [i|]; [|by injection H1 as _ _ <-].
    exact (value_forward _ _ _ _ _ H1 eq_refl). }
  assert (forall m w0, (x ← refuse E m; ret (x, b1)) w0 <> Some (0, true, w')) as Hno.
  { intros m w0 H0. apply bind_inv in H0 as (x & w2 & H1' & H0). injection H0 as -> _ _.
    unfold refuse in H1'. apply bind_inv in H1' as (u & w3 & _ & H1'). injection H1' as H1' _. done. }
  destruct (_ >? _); [by destruct (Hno _ _ H)|].
  destruct (b1 && negb (allow_sqlcmd S (txt "ctc_setopt_disabled") =? 0)) eqn:Ha; [by destruct (Hno _ _ H)|].
  injection H as _ -> _. cbn [andb] in Ha. apply negb_false_iff in Ha. zb. split; [|by apply allow_sqlcmd_off].
  specialize (Hoff eq_refl). unfold nf0, forward_var in Hoff. destruct (sv_found v) eqn:Hf; cbn [negb] in Hoff; [|auto].
  right. apply andb_true_iff in Hoff as [Hoff Hs]. apply andb_true_iff in Hoff as [Hro Hg].
  apply negb_true_iff in Hro. apply orb_true_iff in Hs. by repeat split.
Qed.

Lemma vars_forward sub vars : forall nf,
  yields (fun x : verdict => fst x = 0 -> snd x = true ->
    set_forwards (negb nf) vars /\ (vars = [] \/ ~ switched_on (txt "ctc_setopt_disabled")))
    (check_vars E S vars nf sub).
Proof.
  induction vars as [|var vars IH]; intros nf w [r b] w' H Hr Hb; cbn [fst snd] in Hr, Hb; subst r b; cbn [check_vars] in H.
  { injection H as -> _. split; [|by left]. left. by split. }
  apply bind_inv in H as ([r1 b1] & w1 & H1 & H). destruct (r1 =? 0) eqn:Hr; cbn [negb] in H; [|done]. zb. subst r1.
  destruct (IH _ _ _ _ H eq_refl eq_refl) as [Hf Hd].
  assert (b1 = true -> exists v, var = SetVar v /\ ((sv_found v = false /\ nf = true) \/ global_variable v) /\
    ~ switched_on (txt "ctc_setopt_disabled")) as Hv.
  { intros ->. destruct var as [v|str|user|]; [exists v; split; [done|]; exact (system_var_forward _ _ _ _ _ _ H1 eq_refl eq_refl)|..];
      exfalso; revert H1; cbn [check_non_system_var]; [|done..].
    destruct (bool_decide _); intros H1; apply bind_inv in H1 as (x & w2 & _ & H1); done. }
  destruct Hf as [[Hnf Hall]|(l & v & l' & -> & Hg & Hall)].
  - apply negb_false_iff in Hnf. destruct (Hv Hnf) as (v & -> & Hv' & Hoff). split; [|by right].
    destruct Hv' as [[Hu ->]|Hg]; [left; split; [done|]; constructor; [by exists v|done]|].
    right. by exists [], v, vars.
  - split; [right; by exists (var :: l), v, l'|]. right. destruct Hd as [Hd|Hd]; [by destruct l|done].
Qed.

(** A check that passes and forwards is one of [check_allows]. *)
Lemma pre_forward p sql skip :
  yields (fun x => fst (fst x) = 0 -> snd x = true -> check_allows skip (Some p)) (run_pre E S p sql (negb skip)).
Proof.
  assert (forall w1 x w2, ctc_check_dcl E S (negb skip) w1 = Some (x, w2) -> fst x = 0 -> snd x = true ->
    skip = false /\ writes_allowed false /\ ~ switched_on (txt "ctc_dcl_disabled")) as Hdcl.
  { intros w1 x w2 H H0 H1. destruct (dcl_forward _ _ _ _ H H0 H1) as (Hn & Hw & Ho). by apply negb_true_iff in Hn. }
  intros w [[r s] b] w' H Hr Hb. cbn [fst snd] in Hr, Hb. subst r b. destruct p; cbn [run_pre check_allows] in *.
  - apply bind_inv in H as ([r b] & w1 & H1 & H). injection H as -> _ -> _. by apply (Hdcl _ _ _ H1).
  - unfold ctc_check_alter_user in H. apply bind_inv in H as ([r b] & w1 & H1 & H).
    destruct (r =? 0) eqn:Hr; cbn [negb] in H; [|done]. zb. subst r.
    apply bind_inv in H as ([r q] & w2 & _ & H). injection H as _ _ -> _. by apply (Hdcl _ _ _ H1).
  - unfold ctc_check_set_password in H. apply bind_inv in H as ([r b] & w1 & H1 & H).
    destruct (r =? 0) eqn:Hr; cbn [negb] in H; [|done]. zb. subst r.
    apply bind_inv in H as ([r q] & w2 & _ & H). injection H as _ _ -> _. by apply (Hdcl _ _ _ H1).
  - by injection H.
  - unfold ctc_read_only_ddl in H. injection H as _ H _. unfold writes_allowed.
    destruct (check_readonly E true) eqn:Hr; [done|]. cbn [orb] in H.
    destruct (bool_decide (query_tables S = [])) eqn:Hq; cbn [negb andb] in H.
    { apply bool_decide_eq_true in Hq. apply negb_true_iff in H. auto. }
    destruct (check_schema_readonly E) eqn:Hs; [done|]. apply negb_true_iff in H. auto.
  - unfold ctc_check_set_opt in H. apply bind_inv in H as ([r b] & w1 & H1 & H).
    destruct (r =? 0) eqn:Hr; cbn [negb] in H; [|injection H as -> _ _ _; by zb]. zb. subst r.
    injection H as _ H _. unfold IS_METADATA_NORMALIZATION in H.
    destruct (bool_decide (metadata_switch E = MATCH_META)) eqn:Hm; [done|]. apply bool_decide_eq_false in Hm.
    subst b. destruct (vars_forward _ _ _ _ _ _ H1 eq_refl eq_refl) as [Hf Hd]. by rewrite negb_involutive in Hf.
  - unfold ctc_lock_tables_ddl in H. apply bind_inv in H as ([e tk] & w1 & _ & H).
    assert (negb skip = true) as Hs; [|by apply negb_true_iff in Hs].
    destruct (negb (e =? 0)).
    { apply bind_inv in H as (x & w2 & _ & H). apply bind_inv in H as (y & w3 & _ & H). by injection H. }
    apply bind_inv in H as ([e1|r1] & w2 & _ & H); [by injection H|].
    apply bind_inv in H as (x & w3 & _ & H). destruct (negb (r1 =? 0)); [|by injection H].
    apply bind_inv in H as (y & w4 & _ & H). by injection H.
  - unfold ctc_unlock_tables_ddl in H. assert (negb skip = true) as Hs; [|by apply negb_true_iff in Hs].
    apply bind_inv in H as (e & w1 & _ & H). destruct (negb (e =? 0)); [by injection H|].
    apply bind_inv in H as (r & w2 & _ & H). by injection H.
  - unfold ctc_check_flush in H. by injection H.
  - unfold ctc_check_ddl_engine in H. revert H. cbv zeta.
    assert (forall (o : M Z) w0 w1 s1, (r ← o; ret (r, sql, false)) w0 <> Some (0, s1, true, w1)) as Hno
      by (intros o w0 w1 s1 H; apply bind_inv in H as (x & w2 & _ & H); done).
    repeat (match goal with |- context [match ?x with _ => _ end] => destruct x end;
      try (intros H; first [by destruct (Hno _ _ _ _ H)|done])).
  - unfold ctc_check_unspport_ddl in H. apply bind_inv in H as (x & w1 & H1 & H). injection H as -> _ _ _.
    unfold refuse in H1. by apply bind_inv in H1 as (u & w2 & _ & H1).
Qed.

(** What the table says of SET *)
Lemma set_option_cmd cmd : find_cmd ddl_cmds SQLCOM_SET_OPTION = Some cmd -> pre cmd = Some Check_set_opt.
Proof. vm_compute. by intros [= <-]. Qed.

(** *** Functions that leave the flags alone *)

Definition keeps {A} (m : M A) : Prop := forall w a w', m w = Some (a, w') -> w_flag w' = w_flag w.

Lemma flag_kept_ret {A} (a : A) : keeps (ret a).
Proof. by intros w b w' [= -> ->]. Qed.
Lemma flag_kept_fail {A} : keeps (@fail A).
Proof. intros w b w' H. discriminate H. Qed.
Lemma flag_kept_get : keeps get_flag.
Proof. intros w b w' H. by injection H as _ <-. Qed.
Lemma flag_kept_call ev : keeps (call E ev).
Proof. intros w r w' H. by injection H as _ <-. Qed.
Lemma flag_kept_bind {A B} (m : M A) (k : A -> M B) : keeps m -> (forall a, keeps (k a)) -> keeps (m ≫= k).
Proof.
  intros Hm Hk w b w' H. apply bind_inv in H as (a & w1 & H1 & H).
  rewrite (Hk _ _ _ _ H). apply (Hm _ _ _ H1).
Qed.

Ltac keeps :=
  repeat first
    [ solve [auto 2] | apply flag_kept_ret | apply flag_kept_fail | apply flag_kept_get | apply flag_kept_call
    | apply flag_kept_bind; [|intros ?]
    | lazymatch goal with
      | |- keeps (match ?x with _ => _ end) => destruct x
      | |- keeps (let _ := _ in _) => cbv zeta
      end
    | progress unfold call_, ask, say, refuse, flagged ].

Lemma flag_kept_agent : keeps (check_agent_connection E S).
Proof. unfold check_agent_connection. keeps. Qed.

Lemma flag_kept_pre tables m : forall tk, keeps (ctc_lock_table_pre E tables m tk).
Proof. induction tables as [|t tables IH]; intros tk; cbn [ctc_lock_table_pre]; keeps; apply IH. Qed.
Lemma flag_kept_post tk : keeps (ctc_lock_table_post E tk).
Proof. induction tk as [|t tk IH]; cbn [ctc_lock_table_post]; keeps. Qed.

Lemma flag_kept_broadcast sql cmd : keeps (ddl_broadcast_and_wait E S sql cmd).
Proof.
  pose proof flag_kept_pre. pose proof flag_kept_post.
  unfold ddl_broadcast_and_wait, ctc_ddl_rewrite_handle_error, ctc_check_unlock_instance. keeps.
Qed.

Lemma flag_kept_end cmd sql nf : keeps (rewrite_end E S cmd sql nf).
Proof.
  pose proof flag_kept_broadcast.
  unfold rewrite_end, ctc_check_metadata_switch, check_locks, ctc_check_lock_instance, ctc_check_unlock_instance,
    ctc_is_instance_locked_by_backup. keeps.
Qed.

(** *** Broadcasts *)

Fixpoint broadcasts (l : log) : list broadcast_request :=
  match l with
  | [] => []
  | (Ctc_broadcast_rewrite_sql rq, _) :: l => rq :: broadcasts l
  | _ :: l => broadcasts l
  end.

Lemma broadcasts_app l k : broadcasts (l ++ k) = broadcasts l ++ broadcasts k.
Proof. induction l as [|[[] r] l IH]; cbn [app broadcasts]; rewrite ?IH; done. Qed.

Lemma silent {A} (m : M A) w a w' : emits no_broadcast m -> m w = Some (a, w') -> broadcasts (w_log w') = broadcasts (w_log w).
Proof.
  intros Hm H. destruct (Hm _ _ _ H) as (l & -> & Hl). rewrite broadcasts_app.
  assert (broadcasts l = []) as ->; [|done]. induction Hl as [|[ev r] l Hev _ IH]; [done|]. by destruct ev.
Qed.

Lemma emits_mono (P Q : event -> reply -> Prop) {A} (m : M A) :
  (forall ev r, P ev r -> Q ev r) -> emits P m -> emits Q m.
Proof.
  intros H Hm w a w' Hr. destruct (Hm _ _ _ Hr) as (l & Hl & HP). exists l. split; [done|].
  revert HP. apply Forall_impl. intros [ev r]. apply H.
Qed.

Lemma quiet_silent {A} (m : M A) : emits quiet m -> emits no_broadcast m.
Proof. apply emits_mono. by intros []. Qed.

Lemma silent_pre tables m : forall tk, emits no_broadcast (ctc_lock_table_pre E tables m tk).
Proof. induction tables as [|t tables IH]; intros tk; cbn [ctc_lock_table_pre]; emits; try done; apply IH. Qed.
Lemma silent_post tk : emits no_broadcast (ctc_lock_table_post E tk).
Proof. induction tk as [|t tk IH]; cbn [ctc_lock_table_post]; emits; done. Qed.
Local Hint Resolve silent_pre silent_post : emits.

Lemma silent_run p sql nf : emits no_broadcast (run_pre E S p sql nf).
Proof.
  destruct p; cbn [run_pre]; try (apply quiet_silent;
    unfold ctc_check_ddl, ctc_read_only_ddl, ctc_check_flush, ctc_check_unspport_ddl; emits; done).
  unfold ctc_lock_tables_ddl. emits; try done; apply quiet_silent; emits.
Qed.
Local Hint Resolve silent_run : emits.

Lemma silent_block cmd sql nf : emits no_broadcast (plugin_ddl_block E S cmd sql nf).
Proof.
  unfold plugin_ddl_block. emits; try done; apply quiet_silent; emits.
Qed.

Lemma broadcast_once sql cmd w r w' :
  ddl_broadcast_and_wait E S sql cmd w = Some (r, w') ->
  broadcasts (w_log w') = broadcasts (w_log w) \/
  exists rq, rq_command rq = sql_command S /\ rq_sql rq = strncpy_to (Z.to_nat MAX_DDL_SQL_LEN) sql /\
    broadcasts (w_log w') = rq :: broadcasts (w_log w).
Proof.
  unfold ddl_broadcast_and_wait. set (rq := request _ _ _ _). intros H. apply bind_inv in H as ([e tk] & w0 & H0 & H).
  assert (Hs : broadcasts (w_log w0) = broadcasts (w_log w)).
  { revert H0. apply silent. destruct (bool_decide _); emits. }
  destruct (e =? 0); cbn [negb] in H.
  - right. exists rq. split; [done|]. split; [done|]. apply bind_inv in H as (rp & w1 & H1 & H). injection H1 as <- <-.
    rewrite <- Hs. refine (silent _ _ _ _ _ H). emits; apply quiet_silent; emits.
  - left. rewrite <- Hs. refine (silent _ _ _ _ _ H). emits; done.
Qed.

End Decisions.

Section Claims.
Context {AC : Accounts} (E : env) (S : stmt).

Lemma block_balanced cmd sql nf :
  (forall l, rp_ret (oracle E l Get_tch) = 0) -> balanced (plugin_ddl_block E S cmd sql nf).
Proof.
  intros Ht. unfold plugin_ddl_block. apply balanced_bind.
  - destruct (pre cmd) as [p|]; [by apply pre_balanced|apply balanced_ret].
  - intros [[r q] b]. apply quiet_balanced. emits; done.
Qed.

Lemma end_balanced cmd sql nf : balanced (rewrite_end E S cmd sql nf).
Proof.
  unfold rewrite_end. apply balanced_bind; [apply quiet_balanced; emits|]. intros c.
  destruct (_ && _); [apply balanced_ret|]. apply balanced_bind; [apply quiet_balanced; emits|].
  intros [[out|] nf']; [apply balanced_ret|]. destruct nf'; [|apply balanced_ret].
  apply balanced_bind; [apply broadcast_balanced|intros r; apply balanced_ret].
Qed.

(** C25: the plugin never keeps a lock of a table: when the session has a
    context, every lock that the server granted to it on the way is given back
    whatever the other calls answer, for every statement and every result. *)
Theorem tickets_released w r w' :
  (forall l, rp_ret (oracle E l Get_tch) = 0) -> ctc_ddl_rewrite E S w = Some (r, w') ->
  forall t, balance t (w_log w') = balance t (w_log w).
Proof.
  intros Ht. revert w r w'. change (balanced (ctc_ddl_rewrite E S)). unfold ctc_ddl_rewrite.
  destruct (_ && _); [apply balanced_ret|]. apply balanced_bind; [apply quiet_balanced; emits|]. intros skip.
  apply balanced_bind; [apply quiet_balanced; emits|]. intros passthru.
  destruct passthru; [apply balanced_ret|]. destruct (find_cmd _ _) as [cmd|]; [|apply balanced_ret].
  apply balanced_bind; [by apply block_balanced|]. intros [[blocked q] nf].
  destruct blocked; [apply balanced_ret|apply end_balanced].
Qed.

(** The agents' port is only used for these accounts. *)
Definition local_client : Prop :=
  priv_host S = txt "localhost" \/ priv_host S = txt "127.0.0.1" \/ priv_host S = txt "%" \/
  priv_host S = txt "skip-grants host".

(** Locks that stop a statement *)
Definition instance_free : Prop :=
  if decide (sql_command S = SQLCOM_LOCK_INSTANCE) then owns_backup_lock E = false /\ name_locks E <= 0
  else if decide (sql_command S = SQLCOM_UNLOCK_INSTANCE) then True
  else owns_shared_backup E = false /\ (own_global_read_lock E = true \/ global_read_lock_active E = false).

(** When a statement may be broadcast with the text [sql]; [flag] and [flag'] are
    the flags of the session before it and after its check (SET may change
    them). *)
Definition may_broadcast (flag flag' : Z) (sql : text) : Prop :=
  exists cmd, find_cmd ddl_cmds (sql_command S) = Some cmd /\
    engine_ddl_passthru (srv E) (with_flag E flag) = false /\ strcasecmp_0 (default_engine S) (ctc_hton_name E) = true /\
    check_allows E S (engine_skip_ddl (srv E) (with_flag E flag)) (pre cmd) /\
    Z.of_nat (length sql) <= MAX_DDL_SQL_LEN_CONTEXT /\
    (engine_skip_ddl (srv E) (with_flag E flag') = true \/
     (ddl_enabled_normal (srv E) (with_flag E flag') = true /\ local_client)) /\
    (metadata_switch E = MATCH_NO_META \/ (sql_command S = SQLCOM_SET_OPTION /\ metadata_switch E <> MATCH_META)) /\
    instance_free.

Lemma agent_local w w' : check_agent_connection E S w = Some (false, w') -> local_client /\ w_flag w' = w_flag w.
Proof.
  intros H. pose proof (flag_kept_agent E S _ _ _ H) as Hk. split; [|done].
  unfold check_agent_connection in H. destruct (negb _) eqn:Hh.
  { by apply bind_inv in H as (x & w1 & _ & H). }
  apply negb_false_iff in Hh. rewrite !orb_true_iff, !bool_decide_eq_true in Hh. unfold local_client. tauto.
Qed.

Lemma block_forward cmd sql skip w q w' :
  plugin_ddl_block E S cmd sql (negb skip) w = Some ((false, q, true), w') ->
  check_allows E S skip (pre cmd) /\ Z.of_nat (length q) <= MAX_DDL_SQL_LEN_CONTEXT /\
  (metadata_switch E = MATCH_META \/ engine_skip_ddl (srv E) (with_flag E (w_flag w')) = true \/
   (ddl_enabled_normal (srv E) (with_flag E (w_flag w')) = true /\ local_client)).
Proof.
  intros H. unfold plugin_ddl_block in H. apply bind_inv in H as ([[r s] nf] & w1 & H1 & H).
  destruct (r =? 0) eqn:Hr; cbn [negb] in H; [|done]. zb. subst r. apply bind_inv in H as (long & w2 & H2 & H).
  assert (long = false -> Z.of_nat (length s) <= MAX_DDL_SQL_LEN_CONTEXT /\ w2 = w1) as Hlong.
  { intros ->. unfold ctc_check_ddl_sql_length in H2. rewrite Z.gtb_ltb in H2.
    destruct (_ <? _) eqn:Hl; [by apply bind_inv in H2 as (x & w3 & _ & H2)|]. injection H2 as <-. zb. by split. }
  destruct long; [done|]. destruct (Hlong eq_refl) as [Hlen ->].
  destruct nf; cbn [negb] in H; [|done].
  assert (check_allows E S skip (pre cmd)) as Hp.
  { destruct (pre cmd) as [p|]; [exact (pre_forward E S p sql skip _ _ _ H1 eq_refl eq_refl)|].
    injection H1 as _ H1 _. by apply negb_true_iff in H1. }
  split; [exact Hp|]. unfold IS_METADATA_NORMALIZATION in H.
  destruct (bool_decide (metadata_switch E = MATCH_META)) eqn:Hm.
  { apply bool_decide_eq_true in Hm.
    assert (q = s) as ->; [|by auto].
    destruct (is_dcl_sql_cmd _); [by injection H|]. apply bind_inv in H as (x & w3 & _ & H). by injection H. }
  apply bind_inv in H as (sk & w3 & H3 & H). injection H3 as <- <-.
  destruct (engine_skip_ddl _ _) eqn:Hsk; [injection H as <- <-; auto|].
  apply bind_inv in H as (en & w3 & H3 & H). injection H3 as <- <-.
  destruct (ddl_enabled_normal _ _) eqn:Hen; cbn [negb] in H; [|by apply bind_inv in H as (x & w3 & _ & H)].
  apply bind_inv in H as (bl & w3 & H3 & H). injection H as -> <- <-.
  destruct (agent_local _ _ H3) as [Hl Hf]. split; [done|]. right. right. rewrite Hf. by split.
Qed.

Lemma lock_instance_forward nf :
  yields (fun x : verdict => fst x = 0 -> snd x = true -> nf = true /\ owns_backup_lock E = false /\ name_locks E <= 0)
    (ctc_check_lock_instance E nf).
Proof.
  unfold ctc_check_lock_instance. destruct (owns_backup_lock E); [by apply yields_ret|].
  rewrite Z.gtb_ltb. destruct (0 <? name_locks E) eqn:Hn; zb.
  - intros w [r b] w' H. apply bind_inv in H as (x & w1 & H1 & H). injection H as <- <- _.
    unfold refuse in H1. apply bind_inv in H1 as (u & w2 & _ & H1). by injection H1 as <- _.
  - yields; cbn [fst snd]; try done; by repeat split.
Qed.

Lemma locks_forward cmd nf :
  (sql_command S <> SQLCOM_LOCK_INSTANCE -> sql_command S <> SQLCOM_UNLOCK_INSTANCE -> metadata_switch E <> MATCH_META) ->
  yields (fun x => fst x = None -> snd x = true -> nf = true /\ instance_free) (check_locks E S cmd nf).
Proof.
  intros Hmeta. unfold check_locks, instance_free. destruct (decide _) as [Hli|Hli].
  { intros w [out nf'] w' H Ho Hf. cbn [fst snd] in Ho, Hf. subst out nf'.
    apply bind_inv in H as ([r nf1] & w1 & H1 & H). injection H as Hr -> _.
    destruct (r =? 0) eqn:Hz; cbn [negb] in Hr; [|done]. zb. subst r.
    exact (lock_instance_forward nf _ _ _ H1 eq_refl eq_refl). }
  destruct (decide _) as [Hui|Hui]; [yields; cbn [fst snd]; by auto|].
  unfold IS_METADATA_NORMALIZATION. rewrite bool_decide_eq_false_2 by auto. cbn [negb andb].
  destruct (nf || _) eqn:Hnf; [|apply orb_false_iff in Hnf as [-> _]; yields; cbn [fst snd]; by auto].
  intros w [out nf'] w' H Ho Hf. cbn [fst snd] in Ho, Hf. subst out nf'.
  apply bind_inv in H as (locked & w1 & H1 & H). destruct locked.
  { destruct (ctc_is_set_session_var S); [done|]. by apply bind_inv in H as (x & w2 & _ & H). }
  assert (owns_shared_backup E = false) as Hob.
  { unfold ctc_is_instance_locked_by_backup in H1. destruct (owns_shared_backup E); done. }
  destruct (ctc_is_have_global_read_lock E) eqn:Hg; [by apply bind_inv in H as (x & w2 & _ & H)|].
  injection H as -> _. split; [done|]. split; [done|]. unfold ctc_is_have_global_read_lock in Hg.
  apply andb_false_iff in Hg as [Hg|Hg]; [left; by apply negb_false_iff in Hg|by right].
Qed.

Lemma switch_1 : yields (fun c => c = 1 -> metadata_switch E = MATCH_NO_META) (ctc_check_metadata_switch E).
Proof.
  unfold ctc_check_metadata_switch. destruct (metadata_switch E); try (by apply yields_ret);
    unfold refuse; apply yields_bind; intros _; by apply yields_ret.
Qed.

Lemma end_forward cmd sql nf w r w' :
  (sql_command S = SQLCOM_SET_OPTION -> nf = true -> metadata_switch E <> MATCH_META) ->
  rewrite_end E S cmd sql nf w = Some (r, w') ->
  broadcasts (w_log w') = broadcasts (w_log w) \/
  (exists rq, rq_command rq = sql_command S /\ rq_sql rq = strncpy_to (Z.to_nat MAX_DDL_SQL_LEN) sql /\
     broadcasts (w_log w') = rq :: broadcasts (w_log w)) /\ nf = true /\
  (metadata_switch E = MATCH_NO_META \/ (sql_command S = SQLCOM_SET_OPTION /\ metadata_switch E <> MATCH_META)) /\
  instance_free.
Proof.
  intros Hset H. unfold rewrite_end in H. apply bind_inv in H as (c & w1 & H1 & H).
  pose proof (silent _ _ _ _ (quiet_silent _ (quiet_switch E)) H1) as Hb1. pose proof (switch_1 _ _ _ H1) as Hc.
  destruct (negb (c =? 1) && negb (nf && bool_decide (sql_command S = SQLCOM_SET_OPTION))) eqn:Hgo.
  { injection H as <- <-. by left. }
  assert (metadata_switch E = MATCH_NO_META \/ (sql_command S = SQLCOM_SET_OPTION /\ metadata_switch E <> MATCH_META)) as Hm.
  { apply andb_false_iff in Hgo as [Hgo|Hgo]; apply negb_false_iff in Hgo; [left; apply Hc; zb; lia|].
    right. apply andb_true_iff in Hgo as [Hnf Hs]. apply bool_decide_eq_true in Hs. auto. }
  apply bind_inv in H as ([out nf'] & w2 & H2 & H).
  pose proof (silent _ _ _ _ (quiet_silent _ (quiet_locks E S cmd nf)) H2) as Hb2.
  assert (out = None -> nf' = true -> nf = true /\ instance_free) as Hnf.
  { apply (fun Hx => locks_forward cmd nf Hx _ _ _ H2). intros _ _. destruct Hm as [Hm|[_ Hm]]; congruence. }
  rewrite Hb1 in Hb2. destruct out as [o|]; [injection H as <- <-; by left|].
  destruct nf'; [|injection H as <- <-; by left]. destruct (Hnf eq_refl eq_refl) as [-> Hfree].
  apply bind_inv in H as (x & w3 & H3 & H). injection H as _ <-.
  destruct (broadcast_once E S sql cmd _ _ _ H3) as [Hb|(rq & Hrq & Hq & Hb)]; [left; by rewrite Hb|right].
  split; [exists rq; by rewrite Hb, Hb2|]. by split_and!.
Qed.


Definition after (ev : event) (w : world) : world := mk_world (w_flag w) ((ev, oracle E (w_log w) ev) :: w_log w).

Lemma ask_step {B} ev (k : Z -> M B) w : (ask E ev ≫= k) w = k (rp_ret (oracle E (w_log w) ev)) (after ev w).
Proof. done. Qed.

Lemma pre_total tables m : (forall l t m, rp_ret (oracle E l (Acquire_mdl t m)) = 0) ->
  forall tk w, exists tk' w', ctc_lock_table_pre E tables m tk w = Some ((0, tk'), w').
Proof.
  intros Ha. induction tables as [|t tables IH]; intros tk w; cbn [ctc_lock_table_pre]; [by eexists _, _|].
  destruct (tl_temporary t); [apply IH|]. rewrite ask_step, Ha. apply IH.
Qed.

Lemma post_total tk : forall w, exists w', ctc_lock_table_post E tk w = Some (tt, w').
Proof. induction tk as [|t tk IH]; intros w; cbn [ctc_lock_table_post]; [by eexists|]. apply IH. Qed.

Lemma lock_loop_total tables : (forall l, rp_ret (oracle E l Get_tch) = 0) ->
  forall w, exists r w', lock_tables E tables w = Some (inr r, w') /\ (tables = [] -> r = 0).
Proof.
  intros Ht. induction tables as [|t tables IH]; intros w; cbn [lock_tables]; [by eexists _, _|].
  rewrite ask_step, Ht. cbn [Z.eqb negb].
  destruct (tl_lock t); [| |destruct (IH (after Get_tch w)) as (r & w' & -> & _); by eexists _, _].
  all: rewrite ask_step; lazymatch goal with |- context [if negb (?x =? 0) then _ else _] => destruct (x =? 0); cbn [negb] end;
    [lazymatch goal with H : forall w, exists r w', _ |- context [lock_tables _ _ ?w0] => destruct (H w0) as (r & w' & -> & _) end|];
    by eexists _, _.
Qed.

Lemma unlock_loop_total tables : (forall l, rp_ret (oracle E l Get_tch) = 0) ->
  (forall l db tab, rp_ret (oracle E l (Ctc_unlock_table db tab SQLCOM_LOCK_TABLES)) = 0) ->
  forall r w, exists w', unlock_tables E tables r w = Some (if decide (tables = []) then r else 0, w').
Proof.
  intros Ht Hu. induction tables as [|t tables IH]; intros r w; cbn [unlock_tables]; [by eexists|].
  rewrite ask_step, Ht. cbn [Z.eqb negb]. rewrite ask_step, Hu.
  lazymatch goal with |- context [unlock_tables _ _ 0 ?w0] => destruct (IH 0 w0) as [w' ->] end.
  rewrite (decide_False (P := t :: tables = [])) by done. exists w'. by destruct (decide (tables = [])).
Qed.

(** LOCK TABLES reports success whatever the engine answers to the locks:
    when it refuses one, the tables are unlocked again, and the code of the
    last unlock takes the place of the error. *)
Theorem lock_failure_hidden sql nf w :
  (forall l t m, rp_ret (oracle E l (Acquire_mdl t m)) = 0) -> (forall l, rp_ret (oracle E l Get_tch) = 0) ->
  (forall l db tab, rp_ret (oracle E l (Ctc_unlock_table db tab SQLCOM_LOCK_TABLES)) = 0) ->
  exists w', ctc_lock_tables_ddl E S sql nf w = Some ((0, sql, nf), w').
Proof.
  intros Ha Ht Hu. unfold ctc_lock_tables_ddl. unfold mbind, M_bind.
  destruct (pre_total (tables_to_lock S) MDL_SHARED_NO_READ_WRITE Ha [] w) as (tk & w1 & ->). cbn [Z.eqb negb].
  destruct (lock_loop_total (query_tables S) Ht w1) as (r & w2 & -> & Hr).
  destruct (post_total tk w2) as [w3 ->].
  destruct (r =? 0) eqn:H0; cbn [negb]; [zb; subst r; by eexists|].
  destruct (unlock_loop_total (query_tables S) Ht Hu r w3) as [w4 ->].
  rewrite decide_False; [by eexists|]. intros Hn. zb. by rewrite Hr in H0.
Qed.

(** The old password that SET PASSWORD ... REPLACE asks for is never
    compared: for every password given the check passes, and the statement is
    sent without the clause, so that the other nodes do not check it either. *)
Theorem password_not_checked u user host acl sql nf w :
  var_list S = [SetPassword u] -> lu_user u = Some user -> lu_host u = Some host ->
  uses_replace_clause u = true -> priv_user S = user -> allow_sqlcmd S (txt "ctc_dcl_disabled") = 0 ->
  acl_cache_lock = true -> find_acl_user (Some host) (Some user) = Some acl -> plugin_found (auth_plugin acl) = true ->
  exists nf', ctc_check_set_password E S sql nf w
    = Some ((0, ctc_remove_replace_clause4sql (rewrite_setpasswd_user (no_escapes S) user host sql), nf'), w).
Proof.
  intros Hv Hu Hh Hr Hp Ha Hl Hf Hpl. eexists. unfold ctc_check_set_password, ctc_check_dcl, mbind, M_bind.
  rewrite Ha. cbn [Z.eqb negb ret mret M_ret]. unfold ctc_rewrite_setpasswd. rewrite Hv, Hu, Hh, Hr, Hp.
  rewrite bool_decide_eq_true_2 by done. cbn [andb].
  assert (Hver : ctc_verify_password4existed_user u false = (0, true)).
  { unfold ctc_verify_password4existed_user. by rewrite Hl, Hh, Hu, Hf, Hpl. }
  by rewrite Hver.
Qed.

(** *** SET of several variables *)

(** A SET of several variables is broadcast as its last variable says: a
    global variable followed by one that is not global changes on this node
    only. *)
Theorem set_global_lost vars v nf sql r s b w w' :
  var_list S = vars ++ [SetVar v] -> sv_found v = true -> forward_var E v false = false ->
  ctc_check_set_opt E S sql nf w = Some ((r, s, b), w') -> r = 0 -> b = false.
Proof.
  intros Hv Hfound Hf H ->. unfold ctc_check_set_opt in H. rewrite Hv in H. clear Hv.
  apply bind_inv in H as ([r1 b1] & w1 & H1 & H). destruct (r1 =? 0) eqn:Hr; cbn [negb] in H;
    [|by injection H; intros; zb].
  zb. subst r1. injection H as _ <- _. destruct (IS_METADATA_NORMALIZATION E); [done|].
  destruct b1; [|done]. destruct (vars_forward E S _ _ _ _ _ _ H1 eq_refl eq_refl) as [[[_ Hall]|(l & v' & l' & Hl & Hg & Hall)] _].
  - apply Forall_app in Hall as [_ Hall]. destruct (Forall_inv Hall) as (v2 & [= <-] & Hu). congruence.
  - destruct l' as [|x l' _] using rev_ind.
    + apply app_inj_tail in Hl as [_ [= <-]]. destruct Hg as (_ & Hro & Hgl & Hs). unfold forward_var in Hf.
      rewrite Hfound, Hro, Hgl in Hf. destruct Hs as [Hs|Hs]; rewrite Hs in Hf; [done|by rewrite orb_true_r in Hf].
    + rewrite app_comm_cons, app_assoc in Hl. apply app_inj_tail in Hl as [_ <-].
      apply Forall_app in Hall as [_ Hall]. destruct (Forall_inv Hall) as (v2 & [= <-] & Hu). congruence.
Qed.

End Claims.

(** ** Witnesses *)

#[export] Instance demo_accounts : Accounts := {|
  lock_wait_timeout_number := 1205;
  acl_cache_lock := true;
  find_acl_user h u := Some (mk_acl (txt "hash") (txt "native"));
  plugin_found p := true;
  uses_internal_storage p := true;
  compare_password_with_hash p h w := (negb (bool_decide (w = txt "right")), false);
  get_current_user u := u;
  my_strcasecmp_latin1 a b := bool_decide (a = b) |}.

(** The engine refuses to lock tables; all else succeeds. *)
Definition demo_oracle (l : log) (ev : event) : reply :=
  match ev with Ctc_lock_table _ _ _ _ => mk_reply 7 7 | _ => mk_reply 0 0 end.

Definition demo_thread : THD :=
  mk_thd 5 9 Handler.SQLCOM_SELECT false false false false false false 1 1 None false false ISO_READ_COMMITTED 0.

Definition demo_env (orc : log -> event -> reply) : env :=
  mk_env orc (mk_server false false true false true true 0) demo_thread false true MATCH_NO_META (0, 100)
    (fun _ => false) false (Some 1) (txt "CTC") false false 0 false false false.

Definition demo_stmt (cmd : sqlcom) (vars : list set_var_base) (tables : list table_ref) (q : text) : stmt :=
  mk_stmt cmd q (Some (txt "db")) [] vars tables (length tables) None false None false false (fun _ => None)
    (txt "root") (txt "localhost") (txt "root") false (txt "ctc").

Definition demo_start : world := mk_world 0 [].
Definition demo_table : table_ref := mk_tab (txt "db") (txt "t") WriteLock false.

Definition demo_lock : stmt := demo_stmt SQLCOM_LOCK_TABLES [] [demo_table] (txt "lock tables t write").

Definition run_of (E : env) (S : stmt) : Z * world := default (0, demo_start) (ctc_ddl_rewrite E S demo_start).

Lemma tickets_released_witness :
  ctc_ddl_rewrite (demo_env demo_oracle) demo_lock demo_start = Some (run_of (demo_env demo_oracle) demo_lock) /\
  length (w_log (snd (run_of (demo_env demo_oracle) demo_lock))) = 13%nat /\
  balance demo_table (w_log (snd (run_of (demo_env demo_oracle) demo_lock))) = 0.
Proof.
  split; [vm_compute; reflexivity|]. split; [vm_compute; reflexivity|].
  exact (tickets_released (demo_env demo_oracle) demo_lock demo_start (fst (run_of (demo_env demo_oracle) demo_lock))
    (snd (run_of (demo_env demo_oracle) demo_lock)) ltac:(done) ltac:(vm_compute; reflexivity) demo_table).
Defined.

Definition demo_view : stmt := demo_stmt SQLCOM_CREATE_VIEW [] [] (txt "create view v as select 1").


(** During a forced upgrade a local session broadcasts FLUSH TABLES WITH READ
    LOCK, which its flag should skip. *)
Definition demo_upgrade (orc : log -> event -> reply) : env :=
  mk_env orc (mk_server false true true false true true 0) demo_thread false true MATCH_NO_META (0, 100)
    (fun _ => false) false (Some 1) (txt "CTC") false false 0 false false false.
Definition demo_flush : stmt :=
  mk_stmt SQLCOM_FLUSH (txt "flush tables with read lock") (Some (txt "db")) [] [] [] 0 None false None true false
    (fun _ => None) (txt "root") (txt "localhost") (txt "root") false (txt "ctc").

Lemma flush_not_skipped :
  let flag := 2 ^ CTC_DDL_LOCAL_ENABLED in
  engine_skip_ddl (srv (demo_upgrade demo_oracle)) (with_flag (demo_upgrade demo_oracle) flag) = true /\
  exists w', ctc_ddl_rewrite (demo_upgrade demo_oracle) demo_flush (mk_world flag []) = Some (0, w') /\
    length (broadcasts (w_log w')) = 1%nat.
Proof. split; [reflexivity|]. eexists. split; vm_compute; reflexivity. Qed.

(** The engine refuses the lock of the table, and LOCK TABLES goes on. *)
Lemma lock_failure_hidden_witness :
  exists w', ctc_lock_tables_ddl (demo_env demo_oracle) demo_lock (txt "lock tables t write") true demo_start
    = Some ((0, txt "lock tables t write", true), w').
Proof. apply (lock_failure_hidden (demo_env demo_oracle) demo_lock); done. Defined.

Definition demo_root : LEX_USER := mk_user (Some (txt "root")) (Some (txt "localhost")) true (txt "wrong").
Definition demo_set_password : stmt :=
  demo_stmt SQLCOM_SET_PASSWORD [SetPassword demo_root] [] (txt "set password = 'new' replace 'wrong'").

Lemma password_not_checked_witness :
  exists nf', ctc_check_set_password (demo_env demo_oracle) demo_set_password (txt "set password = 'new' replace 'wrong'") true
      demo_start
    = Some ((0, ctc_remove_replace_clause4sql
                  (rewrite_setpasswd_user false (txt "root") (txt "localhost") (txt "set password = 'new' replace 'wrong'")), nf'),
            demo_start).
Proof.
  exact (password_not_checked (demo_env demo_oracle) demo_set_password demo_root (txt "root") (txt "localhost")
    (mk_acl (txt "hash") (txt "native")) _ true demo_start eq_refl eq_refl eq_refl eq_refl eq_refl eq_refl eq_refl eq_refl eq_refl).
Defined.

(** SET GLOBAL a = 1, SESSION b = 1 *)
Definition demo_item : item := mk_item OtherItem false false (Some (txt "1")) false true ISO_READ_COMMITTED (Some (txt "1")) false.
Definition demo_var (name : string) (global : bool) : set_var :=
  mk_set_var true false global true (if global then OPT_GLOBAL else OPT_SESSION) (txt name) [] (Some demo_item).
Definition demo_set : stmt :=
  demo_stmt SQLCOM_SET_OPTION [SetVar (demo_var "a" true); SetVar (demo_var "b" false)] [] (txt "set global a = 1, session b = 1").

Lemma set_global_lost_witness :
  exists b, ctc_check_set_opt (demo_env demo_oracle) demo_set (txt "") true demo_start = Some ((0, txt "", b), demo_start) /\
    b = false.
Proof.
  exists false. split; [vm_compute; reflexivity|].
  exact (set_global_lost (demo_env demo_oracle) demo_set [SetVar (demo_var "a" true)] (demo_var "b" false) true (txt "") 0
    (txt "") false demo_start demo_start eq_refl eq_refl eq_refl ltac:(vm_compute; reflexivity) eq_refl).
Defined.
End DdlRewriter.
