(* ===== verification/DdlNotify.v ===== *)
(** * DdlNotify: locks of names, databases and variables for the other nodes

    Models the callbacks of the handlerton in [ha_ctc.cc] that the server
    makes while a statement changes definitions: the locks of names
    ([ctc_notify_exclusive_mdl], [ctc_notify_alter_table]), the creation and
    the removal of databases, and the variables that are set on all nodes when
    the meta data is the engine's ([ctc_update_sysvars]).

    The effects are those of [DdlRewriter]. *)

From S2P Require Import Prelude CtcError Handler SqlText DdlRewriter.
Import CtcError Handler SqlText DdlRewriter.

Module DdlNotify.

Inductive ha_notification_type := HA_NOTIFY_PRE_EVENT | HA_NOTIFY_POST_EVENT.

Record MDL_key := mk_key { mdl_namespace : enum_mdl_namespace; key_db : text; key_name : text }.

(** What a callback finds besides the statement *)
Record notice := mk_notice {
  is_ctc_mdl_thd : bool;
  thd_is_error : bool;                     (* thd->is_error() *)
  lex_name : text;                         (* lex->name, of a database *)
  if_not_exists : bool;                    (* HA_LEX_CREATE_IF_NOT_EXISTS *)
  split_db : text;                         (* the database in a normalized path *)
  set_opt_memory : bool }.                 (* my_malloc in ctc_set_var_meta *)

Section Operations.
Context {AC : Accounts} (E : env) (S : stmt) (N : notice).

(** ** Databases *)

Definition ER_DB_CREATE_EXISTS_number : Z := 1007.           (* of the server *)

Definition ctc_pre_create_db4cantian : M Z :=
  skip ← flagged E engine_skip_ddl;
  if skip : bool then ret 0 else
  rp ← call E (Ctc_pre_create_db (strncpy_to SMALL_RECORD_SIZE (lex_name N)) (query S));
  if rp_ret rp =? 0 then ret 0
  else if rp_err rp =? errno_code ERR_USER_NOT_EMPTY_4MYSQL then
    if if_not_exists N then ret 0 else say E ER_DB_CREATE_EXISTS ≫= fun _ => ret ER_DB_CREATE_EXISTS_number
  else (if negb (rp_err rp =? 0) then say E ER_CANT_CREATE_DB else ret tt) ≫= fun _ => ret (rp_ret rp).

Definition ctc_drop_database_with_err : M bool :=
  p ← flagged E engine_ddl_passthru;
  if p : bool then ret false else
  e ← ask E Get_tch;
  if negb (e =? 0) then ret true else
  r ← ask E (Ctc_drop_tablespace_and_user (split_db N));
  if negb (r =? 0) then say E ER_BAD_DB_ERROR ≫= fun _ => ret true else ret false.

(** [CTC_NOT_NEED_CANTIAN_EXECUTE] is cleared. *)
Definition create_db_request : broadcast_request :=
  mk_request [] (strncpy_to (Z.to_nat MAX_DDL_SQL_LEN) (query S)) (strncpy_to SMALL_RECORD_SIZE (priv_user S))
    (strncpy_to SMALL_RECORD_SIZE (priv_host S)) (DdlRewriter.sql_command S) 0.

Definition ctc_create_db : M Z :=
  skip ← flagged E engine_skip_ddl;
  if skip : bool then ret 0 else
  e ← ask E Get_tch;
  if negb (e =? 0) then ret e else
  r ← ask E (Ctc_execute_mysql_ddl_sql create_db_request);
  if negb (r =? 0) then fail else ret 0.                          (* assert(ret == CT_SUCCESS) *)

(** [is_create_db]: LOGCOM_CREATE_DB *)
Definition ctc_binlog_log_query_with_err (is_create_db : bool) : M bool :=
  p ← flagged E engine_ddl_passthru;
  if p : bool then ret false
  else if is_create_db then r ← ctc_create_db; ret (negb (r =? 0))
  else ret false.

(** ** Locks of names *)

Definition ctc_lock_table_handle_error (err_code : Z) : M unit :=
  if err_code =? errno_code ERR_USER_DDL_LOCKED then say E ER_DISALLOWED_OPERATION
  else if err_code =? CTC_DDL_VERSION_NOT_MATCH then say E ER_DISALLOWED_OPERATION
  else ret tt.

Definition ctc_notify_pre_event (i : lock_info) : M Z :=
  locked ←
    (if is_work_flow (srv E) then
       rp ← call E (Ctc_lock_mdl i);
       if negb (rp_ret rp =? 0) then ctc_lock_table_handle_error (rp_err rp) ≫= fun _ => ret (rp_ret rp) else ret 0
     else ret 0);
  if negb (locked =? 0) then ret locked else
  match DdlRewriter.sql_command S with
  | SQLCOM_CREATE_DB => ctc_pre_create_db4cantian
  | SQLCOM_DROP_DB =>
    r ← ask E (Ctc_drop_db_pre_check (li_db i));
    (if negb (r =? 0) then say E ER_DISALLOWED_OPERATION else ret tt) ≫= fun _ => ret r
  | _ => ret 0
  end.

Definition ctc_notify_post_event (i : lock_info) : M Z :=
  if negb (is_work_flow (srv E)) then ret 0
  else if decide (li_namespace i = ACL_CACHE) then
    call_ E Invalidate_remote_dcl_cache ≫= fun _ =>
    if thd_is_error N then ret 0
    else if is_dcl_sql_cmd (DdlRewriter.sql_command S) then ctc_record_sql E S true ≫= fun _ => ret 0
    else ret 0
  else ask E (Ctc_unlock_mdl i).

Definition lock_info_of (k : MDL_key) : lock_info :=
  mk_lock_info (strncpy_to SMALL_RECORD_SIZE (key_db k)) (strncpy_to SMALL_RECORD_SIZE (key_name k))
    (DdlRewriter.sql_command S) (mdl_namespace k).

(** The end of [ctc_notify_exclusive_mdl]: [true] asks to abort. *)
Definition notify (k : MDL_key) (t : ha_notification_type) : M bool :=
  e ← ask E Get_tch;
  if negb (e =? 0) then ret true else
  r ← match t with
      | HA_NOTIFY_PRE_EVENT => ctc_notify_pre_event (lock_info_of k)
      | HA_NOTIFY_POST_EVENT => ctc_notify_post_event (lock_info_of k)
      end;
  if negb (r =? 0) then call_ E (Ctc_unlock_mdl (lock_info_of k)) ≫= fun _ => ret true else ret false.

(** [Some]: the answer without a lock *)
Definition not_locked (k : MDL_key) : M (option bool) :=
  if negb (IS_METADATA_NORMALIZATION E) && (Z.of_nat (length (query S)) >? MAX_DDL_SQL_LEN_CONTEXT)
  then say E ER_DISALLOWED_OPERATION ≫= fun _ => ret (Some true) else
  p ← flagged E engine_ddl_passthru;
  if p : bool then ret (Some false) else
  if IS_METADATA_NORMALIZATION E then ret None else
  skip ← flagged E engine_skip_ddl;
  if skip : bool then ret (Some false) else
  enabled ← flagged E ddl_enabled_normal;
  if negb enabled then say E ER_DISALLOWED_OPERATION ≫= fun _ => ret (Some true)
  else if bool_decide (query_tables S = []) && negb (bool_decide (mdl_namespace k = SCHEMA)) then ret (Some false)
  else if bool_decide (key_db k ∈ mysql_system_db) then ret (Some false)
  else ret None.

Definition ctc_notify_exclusive_mdl (k : MDL_key) (t : ha_notification_type) : M bool :=
  if is_ctc_mdl_thd N
     || (match t with HA_NOTIFY_PRE_EVENT => bool_decide (mdl_namespace k = ACL_CACHE) | _ => false end)
  then ret false else
  out ← not_locked k;
  match out with Some b => ret b | None => notify k t end.

Definition ctc_notify_alter_table (k : MDL_key) (t : ha_notification_type) : M bool :=
  match (if IS_METADATA_NORMALIZATION E then t else HA_NOTIFY_POST_EVENT) with
  | HA_NOTIFY_PRE_EVENT =>
    '(pre_lock_ret, ticket_list) ← ctc_lock_table_pre E (tables_to_lock S) MDL_SHARED_UPGRADABLE [];
    if negb (pre_lock_ret =? 0)
    then ctc_lock_table_post E ticket_list ≫= fun _ => say E ER_LOCK_WAIT_TIMEOUT ≫= fun _ => ret true
    else r ← ctc_notify_exclusive_mdl k t; ctc_lock_table_post E ticket_list ≫= fun _ => ret r
  | HA_NOTIFY_POST_EVENT => ctc_notify_exclusive_mdl k t
  end.

(** ** Variables on all nodes *)

Definition CTC_MAX_SET_VAR_NUM : nat := 8.
Definition CTC_SET_VARIABLE_PERSIST : Z := 2 ^ 8.
Definition CTC_SET_VARIABLE_PERSIST_ONLY : Z := 2 ^ 7.
Definition CTC_SET_VARIABLE_TO_DEFAULT : Z := 2 ^ 3.
Definition CTC_SET_VARIABLE_TO_NULL : Z := 2 ^ 2.

Definition ctc_set_var_option (is_null_value is_set_default_value : bool) (t : enum_var_type) : Z :=
  Z.lor (Z.lor (Z.lor (if is_null_value then CTC_SET_VARIABLE_TO_NULL else 0)
                      (if is_set_default_value then CTC_SET_VARIABLE_TO_DEFAULT else 0))
               (if decide (t = OPT_PERSIST_ONLY) then CTC_SET_VARIABLE_PERSIST_ONLY else 0))
        (if decide (t = OPT_PERSIST) then CTC_SET_VARIABLE_PERSIST else 0).

(** The value, whether it is null, whether it is the default; [None] for a
    value that is too long. *)
Definition sysvar_value (v : set_var) : text * bool * bool :=
  match sv_value v with
  | None => ([], false, true)
  | Some i => match it_val_str i with None => (txt "null", true, false) | Some s => (c_text s, false, false) end
  end.

Definition ctc_get_sysvar_value_string (v : set_var) : M (option (text * bool * bool)) :=
  let '(val_str, is_null, is_default) := sysvar_value v in
  if Z.of_nat (length val_str) >? MAX_DDL_SQL_LEN then say E ER_DISALLOWED_OPERATION ≫= fun _ => ret None
  else ret (Some (val_str, is_null, is_default)).

(** In the build for the later server the function that would look at the
    variable is not called. *)
Definition global_var (v : set_var) : bool :=
  if mysql_32 E then false
  else sv_found v && (negb (sv_readonly v) && sv_global_persist v && sv_scope_global v).

(** The variable for the other nodes, with the options that [ctc_set_var_meta]
    adds *)
Definition sysvar_info (v : set_var) (x : text * bool * bool) : set_opt_info :=
  let '(val_str, is_null, is_default) := x in
  let name := strncpy_to SMALL_RECORD_SIZE (sv_name v) in
  let options := Z.lor (Z.lor CTC_NOT_NEED_CANTIAN_EXECUTE
      (if contains_plaintext_password S then CTC_CURRENT_SQL_CONTAIN_PLAINTEXT_PASSWORD else 0))
      (ctc_set_var_option is_null is_default (sv_type v)) in
  mk_opt_info (if mysql_32 E then name else strncpy_to SMALL_RECORD_SIZE (sv_base v)) name
    (strncpy_to (Z.to_nat MAX_DDL_SQL_LEN) val_str) options
    match sv_value v with Some i => it_int i | None => false end.

(** [None] for an error; in the build for the earlier server the name is read
    without a look at the pointer. *)
Definition ctc_emplace_sysvars (v : set_var) (variables_info : list set_opt_info) : M (option (list set_opt_info)) :=
  if negb (mysql_32 E) && negb (sv_found v) then fail
  else if IS_METADATA_NORMALIZATION E && global_var v then
    x ← ctc_get_sysvar_value_string v;
    ret (match x with None => None | Some x => Some (variables_info ++ [sysvar_info v x]) end)
  else ret (Some variables_info).

Fixpoint emplace_all (vars : list set_var_base) (variables_info : list set_opt_info) : M (option (list set_opt_info)) :=
  match vars with
  | [] => ret (Some variables_info)
  | SetVar v :: vars =>
    x ← ctc_emplace_sysvars v variables_info;
    match x with None => ret None | Some l => emplace_all vars l end
  | _ :: vars => emplace_all vars variables_info
  end.

Definition HA_ERR_OUT_OF_MEM_number : Z := 128.              (* of the server *)

(** The code, and [err_code] of the request, which is 0 until the engine has
    it *)
Definition ctc_set_var_meta (variables_info : list set_opt_info) : M reply :=
  e ← ask E Get_tch;
  if negb (e =? 0) then fail                            (* err_code is read before it is set *)
  else if negb (set_opt_memory N) then ret (mk_reply HA_ERR_OUT_OF_MEM_number 0)
  else call E (Ctc_execute_set_opt variables_info).

Definition ctc_update_sysvars : M Z :=
  if is_ctc_mdl_thd N then ret 0 else
  x ← emplace_all (var_list S) [];
  match x with
  | None => ret (-1)
  | Some [] => ret 0
  | Some l =>
    if (CTC_MAX_SET_VAR_NUM <? length l)%nat then refuse E ER_DISALLOWED_OPERATION else
    rp ← ctc_set_var_meta l;
    (if negb (rp_ret rp =? 0) && negb (rp_err rp =? 0) then say E (ER_REMOTE (rp_err rp)) else ret tt) ≫= fun _ =>
    ret (rp_ret rp)
  end.

(** ** Checks *)

Definition check_unsupported_operation (exchange_partition index_file : bool) : M bool :=
  if exchange_partition then say E ER_DISALLOWED_OPERATION ≫= fun _ => ret true
  else match create_info S with
       | Some c =>
         if create_tmp c && negb (IS_METADATA_NORMALIZATION E) then say E ER_NOT_ALLOWED_COMMAND ≫= fun _ => ret true
         else if index_file then say E ER_ILLEGAL_HA ≫= fun _ => ret true else ret false
       | None => ret false
       end.

(** [global]: the variable, [session]: that of the thread, if there is one.
    [true]: the plugin does not start. *)
Definition ctc_check_tx_isolation (global : enum_tx_isolation) (session : option enum_tx_isolation) : bool :=
  let bad (i : enum_tx_isolation) := bool_decide (i = ISO_SERIALIZABLE) || bool_decide (i = ISO_READ_UNCOMMITTED) in
  bad global || match session with Some i => bad i | None => false end.

End Operations.

(** ** Pairs of locks *)

(** The requests for a lock, the latest first: a lock ([true]) or an unlock,
    with the answer *)
Fixpoint mdl_requests (i : lock_info) (l : log) : list (bool * Z) :=
  match l with
  | [] => []
  | (ev, r) :: l =>
    match ev with
    | Ctc_lock_mdl j => if decide (j = i) then [(true, rp_ret r)] else []
    | Ctc_unlock_mdl j => if decide (j = i) then [(false, rp_ret r)] else []
    | _ => []
    end ++ mdl_requests i l
  end.

(** What a call adds for [i]: [q], if it is about [i]. *)
Definition adds (i : lock_info) (q : list (bool * Z)) (w w' : world) : Prop :=
  forall j, mdl_requests j (w_log w') = (if decide (i = j) then q else []) ++ mdl_requests j (w_log w).

Lemma adds_nil i w w' : (forall j, mdl_requests j (w_log w') = mdl_requests j (w_log w)) -> adds i [] w w'.
Proof. intros H j. rewrite H. by destruct (decide _). Qed.
Lemma adds_trans i q1 q2 w w1 w2 : adds i q1 w w1 -> adds i q2 w1 w2 -> adds i (q2 ++ q1) w w2.
Proof. intros H1 H2 j. rewrite H2, H1. destruct (decide _); [by rewrite app_assoc|done]. Qed.
Lemma adds_lock E i w : adds i [(true, rp_ret (oracle E (w_log w) (Ctc_lock_mdl i)))] w (after E (Ctc_lock_mdl i) w).
Proof. done. Qed.
Lemma adds_unlock E i w :
  adds i [(false, rp_ret (oracle E (w_log w) (Ctc_unlock_mdl i)))] w (after E (Ctc_unlock_mdl i) w).
Proof. done. Qed.

(** Neither a lock of a name nor a change of the flags *)
Definition no_mdl (ev : event) (r : reply) : Prop :=
  match ev with Ctc_lock_mdl _ | Ctc_unlock_mdl _ => False | _ => True end.

Definition apart {A} (m : M A) : Prop :=
  forall w a w', m w = Some (a, w') -> w_flag w' = w_flag w /\ forall i, mdl_requests i (w_log w') = mdl_requests i (w_log w).

Lemma apart_ret {A} (a : A) : apart (ret a).
Proof. by intros w b w' [= <- <-]. Qed.
Lemma apart_fail {A} : apart (@fail A).
Proof. by intros w b w'. Qed.
Lemma apart_bind {A B} (m : M A) (k : A -> M B) : apart m -> (forall a, apart (k a)) -> apart (m ≫= k).
Proof.
  intros Hm Hk w b w' H. apply bind_inv in H as (a & w1 & H1 & H2).
  destruct (Hm _ _ _ H1) as [Hf1 Hb1], (Hk _ _ _ _ H2) as [Hf2 Hb2]. split; [by rewrite Hf2|]. intros i. by rewrite Hb2.
Qed.
Lemma apart_call E ev : no_mdl ev (mk_reply 0 0) -> apart (call E ev).
Proof. intros Hn w r w' [= <- <-]. split; [done|]. intros i. cbn [w_log mdl_requests]. by destruct ev. Qed.
Lemma apart_get : apart get_flag.
Proof. by intros w a w' [= <- <-]. Qed.

Ltac apart_step :=
  lazymatch goal with
  | |- apart (ret _) => apply apart_ret
  | |- apart fail => apply apart_fail
  | |- apart get_flag => apply apart_get
  | |- apart (call _ _) => by apply apart_call
  | |- apart (_ ≫= _) => apply apart_bind; [|intros ?]
  | |- apart (match ?x with _ => _ end) => destruct x
  end.
Ltac apart := repeat (apart_step || (progress unfold call_, ask, say, refuse, flagged)).

Section Pairs.
Context {AC : Accounts} (E : env) (S : stmt) (N : notice).

(** The answer without a lock, from the flags *)
Definition gate (k : MDL_key) (flag : Z) : option bool :=
  if negb (IS_METADATA_NORMALIZATION E) && (Z.of_nat (length (query S)) >? MAX_DDL_SQL_LEN_CONTEXT) then Some true
  else if engine_ddl_passthru (srv E) (with_flag E flag) then Some false
  else if IS_METADATA_NORMALIZATION E then None
  else if engine_skip_ddl (srv E) (with_flag E flag) then Some false
  else if negb (ddl_enabled_normal (srv E) (with_flag E flag)) then Some true
  else if bool_decide (query_tables S = []) && negb (bool_decide (mdl_namespace k = SCHEMA)) then Some false
  else if bool_decide (key_db k ∈ mysql_system_db) then Some false
  else None.

Lemma not_locked_apart k : apart (not_locked E S k).
Proof. unfold not_locked. apart. Qed.

(** Without an answer of its own, nothing is recorded. *)
Lemma not_locked_none k w w' : not_locked E S k w = Some (None, w') -> w' = w.
Proof.
  unfold not_locked. destruct (negb _ && _); [intros H; by apply bind_inv in H as (x & w1 & _ & H)|].
  intros H. apply bind_inv in H as (p & w1 & H1 & H). injection H1 as <- <-.
  destruct (engine_ddl_passthru _ _); [done|]. destruct (IS_METADATA_NORMALIZATION E); [by injection H|].
  apply bind_inv in H as (skip & w1 & H1 & H). injection H1 as <- <-.
  destruct (engine_skip_ddl _ _); [done|].
  apply bind_inv in H as (enabled & w1 & H1 & H). injection H1 as <- <-.
  destruct (negb _); [by apply bind_inv in H as (x & w1 & _ & H)|]. destruct (_ && _); [done|].
  destruct (bool_decide _); [done|by injection H].
Qed.

Lemma not_locked_gate k w out w' : not_locked E S k w = Some (out, w') -> out = gate k (w_flag w).
Proof.
  unfold not_locked, gate. destruct (negb _ && _); [by intros [= <- <-]|].
  intros H. apply bind_inv in H as (p & w1 & H1 & H). injection H1 as <- <-.
  destruct (engine_ddl_passthru _ _); [by injection H|]. destruct (IS_METADATA_NORMALIZATION E); [by injection H|].
  apply bind_inv in H as (skip & w1 & H1 & H). injection H1 as <- <-.
  destruct (engine_skip_ddl _ _); [by injection H|].
  apply bind_inv in H as (enabled & w1 & H1 & H). injection H1 as <- <-.
  destruct (negb _); [by injection H|]. destruct (_ && _); [by injection H|]. by destruct (bool_decide _); injection H.
Qed.

Lemma pre_create_apart : apart (ctc_pre_create_db4cantian E S N).
Proof. unfold ctc_pre_create_db4cantian. apart. Qed.

(** The requests of [ctc_notify_pre_event] *)
Lemma pre_event_requests i w r w' :
  ctc_notify_pre_event E S N i w = Some (r, w') ->
  w_flag w' = w_flag w /\
  exists q, adds i q w w' /\
    if is_work_flow (srv E) then exists a, q = [(true, a)] /\ (r = 0 -> a = 0) else q = [].
Proof.
  unfold ctc_notify_pre_event. intros H. apply bind_inv in H as (locked & w1 & H1 & H).
  set (rest := match _ with SQLCOM_GRANT => _ | _ => _ end) in H.
  assert (Hrest : apart rest) by (subst rest; destruct (DdlRewriter.sql_command S); try apply pre_create_apart; apart).
  destruct (is_work_flow (srv E)).
  - apply bind_inv in H1 as (rp & w0 & H0 & H1). injection H0 as <- <-. fold (after E (Ctc_lock_mdl i) w) in H1.
    set (a := rp_ret (oracle E (w_log w) (Ctc_lock_mdl i))) in *. pose proof (adds_lock E i w) as Hl. fold a in Hl.
    destruct (a =? 0) eqn:Hr; cbn [negb] in H1.
    + injection H1 as <- <-. cbn [Z.eqb negb] in H. destruct (Hrest _ _ _ H) as [Hf Hb]. split; [by rewrite Hf|].
      exists [(true, a)]. split; [exact (adds_trans i _ [] _ _ _ Hl (adds_nil _ _ _ Hb))|]. zb. by exists a.
    + assert (Hh : apart (ctc_lock_table_handle_error E (rp_err (oracle E (w_log w) (Ctc_lock_mdl i))) ≫= fun _ => ret a))
        by (unfold ctc_lock_table_handle_error; apart).
      destruct (Hh _ _ _ H1) as [Hf Hb]. apply bind_inv in H1 as (u & w2 & _ & H1). injection H1 as <- <-.
      rewrite Hr in H. injection H as <- <-. split; [by rewrite Hf|].
      exists [(true, a)]. split; [exact (adds_trans i _ [] _ _ _ Hl (adds_nil _ _ _ Hb))|]. by exists a.
  - injection H1 as <- <-. cbn [Z.eqb negb] in H. destruct (Hrest _ _ _ H) as [Hf Hb]. split; [done|].
    exists []. split; [by apply adds_nil|done].
Qed.

Lemma abort_requests i w b w' :
  (call_ E (Ctc_unlock_mdl i) ≫= fun _ => ret true) w = Some (b, w') ->
  b = true /\ w_flag w' = w_flag w /\ exists u, adds i [(false, u)] w w'.
Proof.
  intros H. apply bind_inv in H as (u & w1 & H1 & H). apply bind_inv in H1 as (rp & w2 & H1 & H2).
  injection H1 as <- <-. injection H2 as <- <-. injection H as <- <-. split; [done|]. split; [done|].
  eexists. apply adds_unlock.
Qed.

(** Whether the locks of a name are taken at all *)
Definition locks (k : MDL_key) (flag : Z) : bool :=
  negb (is_ctc_mdl_thd N) && negb (bool_decide (mdl_namespace k = ACL_CACHE)) && bool_decide (gate k flag = None)
  && is_work_flow (srv E).

(** The requests of a notification that asks to abort: none, or an unlock at
    the end, behind the lock if there was one. *)
Definition aborted (q : list (bool * Z)) : Prop :=
  q = [] \/ exists u l, q = (false, u) :: l /\ (l = [] \/ exists a, l = [(true, a)]).

(** A notification before the lock *)
Lemma notify_pre_requests k w b w' :
  ctc_notify_exclusive_mdl E S N k HA_NOTIFY_PRE_EVENT w = Some (b, w') ->
  w_flag w' = w_flag w /\
  exists q, adds (lock_info_of S k) q w w' /\
    if b then aborted q else q = if locks k (w_flag w) then [(true, 0)] else [].
Proof.
  unfold ctc_notify_exclusive_mdl, locks. destruct (is_ctc_mdl_thd N); cbn [orb negb andb].
  { intros [= <- <-]. split; [done|]. exists []. split; [by apply adds_nil|done]. }
  destruct (bool_decide (mdl_namespace k = ACL_CACHE)) eqn:Hacl; cbn [negb andb].
  { intros [= <- <-]. split; [done|]. exists []. split; [by apply adds_nil|done]. }
  intros H. apply bind_inv in H as (out & w1 & H1 & H).
  pose proof (not_locked_gate _ _ _ _ H1) as Hout. destruct (not_locked_apart k _ _ _ H1) as [Hf1 Hb1].
  rewrite <- Hout. destruct out as [b0|].
  { injection H as <- <-. split; [done|]. exists []. split; [by apply adds_nil|].
    destruct b0; [by left|done]. }
  unfold notify in H. rewrite ask_step in H. destruct (_ =? 0); cbn [negb] in H.
  2:{ injection H as <- <-. split; [done|]. exists []. split; [by apply adds_nil|by left]. }
  apply bind_inv in H as (r & w3 & H3 & H). destruct (pre_event_requests _ _ _ _ H3) as (Hf3 & q & Hq & Hd).
  assert (adds (lock_info_of S k) q w w3) as Hq'
    by (rewrite <- (app_nil_r q); apply (adds_trans _ [] q _ w1); [by apply adds_nil|exact Hq]).
  destruct (r =? 0) eqn:Hr; cbn [negb] in H.
  - injection H as <- <-. split; [rewrite Hf3; exact Hf1|]. exists q. split; [done|].
    rewrite (bool_decide_eq_true_2 (None = None)) by done. cbn [andb].
    destruct (is_work_flow (srv E)); [|done]. zb. destruct Hd as (a & -> & Ha). by rewrite (Ha Hr).
  - destruct (abort_requests _ _ _ _ H) as (-> & Hf4 & u & Hu). split; [rewrite Hf4, Hf3; exact Hf1|].
    exists ([(false, u)] ++ q). split; [by apply (adds_trans _ _ _ _ w3)|]. right. exists u, q. split; [done|].
    destruct (is_work_flow (srv E)); [|by left]. destruct Hd as (a & -> & _). right. by exists a.
Qed.

(** A notification behind the lock: one unlock that succeeds; none if the
    session has no context; or two, if the first one fails. *)
Lemma notify_post_requests k w b w' :
  ctc_notify_exclusive_mdl E S N k HA_NOTIFY_POST_EVENT w = Some (b, w') ->
  exists q, adds (lock_info_of S k) q w w' /\
    if locks k (w_flag w) then
      if b then (q = [] /\ exists rp, w_log w' = (Get_tch, rp) :: w_log w /\ rp_ret rp <> 0) \/
                (exists u a, a <> 0 /\ q = [(false, u); (false, a)])
      else q = [(false, 0)]
    else q = [].
Proof.
  unfold ctc_notify_exclusive_mdl, locks. destruct (is_ctc_mdl_thd N); cbn [orb negb andb].
  { intros [= <- <-]. exists []. split; [by apply adds_nil|done]. }
  intros H. apply bind_inv in H as (out & w1 & H1 & H).
  pose proof (not_locked_gate _ _ _ _ H1) as Hout. destruct (not_locked_apart k _ _ _ H1) as [Hf1 Hb1].
  rewrite <- Hout. destruct out as [b0|].
  { injection H as <- <-. exists []. split; [by apply adds_nil|].
    rewrite (bool_decide_eq_false_2 (Some b0 = None)) by done. by rewrite andb_false_r. }
  rewrite (bool_decide_eq_true_2 (None = None)) by done. rewrite andb_true_r.
  assert (w1 = w) as -> by (by apply (not_locked_none k)).
  unfold notify in H. rewrite ask_step in H. destruct (_ =? 0) eqn:He; cbn [negb] in H.
  2:{ injection H as <- <-. exists []. split; [by apply adds_nil|]. destruct (_ && _); [|done]. left. split; [done|].
      eexists. split; [reflexivity|]. by zb. }
  apply bind_inv in H as (r & w3 & H3 & H). unfold ctc_notify_post_event in H3.
  assert (forall w2, adds (lock_info_of S k) [] (after E Get_tch w) w2 -> adds (lock_info_of S k) [] w w2) as Hnil
    by (intros w2 Ha; apply (adds_trans _ [] [] _ (after E Get_tch w)); [by apply adds_nil|exact Ha]).
  destruct (is_work_flow (srv E)); cbn [negb] in H3.
  2:{ injection H3 as <- <-. injection H as <- <-. exists []. split; [by apply adds_nil|]. by rewrite andb_false_r. }
  rewrite andb_true_r. change (li_namespace (lock_info_of S k)) with (mdl_namespace k) in H3.
  destruct (decide (mdl_namespace k = ACL_CACHE)) as [Ha|Ha].
  - rewrite (bool_decide_eq_true_2 (mdl_namespace k = ACL_CACHE)) by done. cbn [negb].
    assert (r = 0) as ->.
    { apply bind_inv in H3 as (x & w4 & _ & H3). destruct (thd_is_error N); [by injection H3|].
      destruct (is_dcl_sql_cmd _); [|by injection H3]. apply bind_inv in H3 as (y & w5 & _ & H3). by injection H3. }
    injection H as <- <-. exists []. split; [|done]. apply Hnil, adds_nil.
    lazymatch type of H3 with ?m _ = _ => assert (Hm : apart m) by (unfold ctc_record_sql; apart) end.
    by destruct (Hm _ _ _ H3) as [_ ?].
  - rewrite (bool_decide_eq_false_2 (mdl_namespace k = ACL_CACHE)) by done. cbn [negb].
    apply bind_inv in H3 as (rp & w4 & H4 & H3). injection H4 as <- <-. injection H3 as <- <-.
    fold (after E (Ctc_unlock_mdl (lock_info_of S k)) (after E Get_tch w)) in H.
    pose proof (adds_unlock E (lock_info_of S k) (after E Get_tch w)) as Hu.
    set (a := rp_ret (oracle E (w_log (after E Get_tch w)) (Ctc_unlock_mdl (lock_info_of S k)))) in *.
    assert (adds (lock_info_of S k) [(false, a)] w (after E (Ctc_unlock_mdl (lock_info_of S k)) (after E Get_tch w))) as Hq
      by (apply (adds_trans _ [] [_] _ (after E Get_tch w)); [by apply adds_nil|exact Hu]).
    lazymatch type of H with context [negb (?x =? 0)] => change x with a in H end.
    destruct (a =? 0) eqn:Hz; cbn [negb] in H.
    + injection H as <- <-. exists [(false, a)]. split; [exact Hq|]. zb. by rewrite Hz.
    + destruct (abort_requests _ _ _ _ H) as (-> & _ & u & Hu2). exists ([(false, u)] ++ [(false, a)]).
      split; [exact (adds_trans _ _ _ _ _ _ Hq Hu2)|]. right. exists u, a. zb. by split.
Qed.

(** C27: the locks that the other nodes take for a name.  A notification that
    asks to abort has sent no request, or an unlock as the last one.  One that
    lets the statement go on has sent just a lock that was granted (if the name
    is one to be locked), and then the notification behind the change sends
    just an unlock that succeeds, whatever happened in between, as long as the
    flags of the session are the same; or it reports a failure: because the
    session has no context, and then it sends no unlock and the lock stays, or
    because the unlock failed, and then it sends a second one.  Nothing is
    ever sent for another name. *)
Theorem mdl_locks_paired k w b w1 w2 b' w3 i :
  ctc_notify_exclusive_mdl E S N k HA_NOTIFY_PRE_EVENT w = Some (b, w1) ->
  w_flag w2 = w_flag w1 -> ctc_notify_exclusive_mdl E S N k HA_NOTIFY_POST_EVENT w2 = Some (b', w3) ->
  if bool_decide (lock_info_of S k = i) then
    (b = true -> exists q, mdl_requests i (w_log w1) = q ++ mdl_requests i (w_log w) /\ aborted q) /\
    (b = false ->
     if locks k (w_flag w) then
       mdl_requests i (w_log w1) = (true, 0) :: mdl_requests i (w_log w) /\
       if b' then
         (mdl_requests i (w_log w3) = mdl_requests i (w_log w2) /\
          exists rp, w_log w3 = (Get_tch, rp) :: w_log w2 /\ rp_ret rp <> 0) \/
         (exists u a, a <> 0 /\ mdl_requests i (w_log w3) = (false, u) :: (false, a) :: mdl_requests i (w_log w2))
       else mdl_requests i (w_log w3) = (false, 0) :: mdl_requests i (w_log w2)
     else mdl_requests i (w_log w1) = mdl_requests i (w_log w) /\
          mdl_requests i (w_log w3) = mdl_requests i (w_log w2))
  else mdl_requests i (w_log w1) = mdl_requests i (w_log w) /\
       mdl_requests i (w_log w3) = mdl_requests i (w_log w2).
Proof.
  intros H1 Hf H2. destruct (notify_pre_requests _ _ _ _ H1) as (Hf1 & q & Hq & Hb).
  destruct (notify_post_requests _ _ _ _ H2) as (q' & Hq' & Hb'). rewrite Hf, Hf1 in Hb'.
  specialize (Hq i). specialize (Hq' i). destruct (decide (lock_info_of S k = i)) as [Hi|Hi].
  - rewrite bool_decide_eq_true_2 by done. split; intros ->; [by exists q|]. subst q.
    destruct (locks k (w_flag w)); [|by subst q'].
    split; [done|]. destruct b'; [|by subst q'].
    destruct Hb' as [[-> Hrp]|(u & a & Ha & ->)]; [by left|]. right. by exists u, a.
  - rewrite bool_decide_eq_false_2 by done. by split.
Qed.

(** Locks of tables around the notification of ALTER TABLE *)
Lemma notify_quiet k t : emits quiet (ctc_notify_exclusive_mdl E S N k t).
Proof.
  unfold ctc_notify_exclusive_mdl, not_locked, notify, ctc_notify_pre_event, ctc_notify_post_event,
    ctc_lock_table_handle_error, ctc_pre_create_db4cantian. emits; done.
Qed.

Lemma notify_balanced k t : balanced (ctc_notify_alter_table E S N k t).
Proof.
  unfold ctc_notify_alter_table. destruct (if _ : bool then _ else _).
  - apply pre_post. intros r tk w b w' H t'. destruct (r =? 0); cbn [negb] in H.
    + apply bind_inv in H as (x & w1 & H1 & H). rewrite (post_then _ _ _ (balanced_ret x) _ _ _ H t').
      by rewrite (quiet_balanced _ (notify_quiet k t) _ _ _ H1).
    + apply (fun Hm => post_then _ _ _ Hm _ _ _ H t'). apply quiet_balanced. emits; done.
  - apply quiet_balanced, notify_quiet.
Qed.

(** ** Variables *)

(** The global variables of a SET: those that exist, can be written and
    persisted, and have a global scope *)
#[export] Instance global_variable_dec v : Decision (global_variable E v).
Proof. unfold global_variable. apply _. Defined.

Definition global_of (x : set_var_base) : option set_var :=
  match x with SetVar v => if decide (global_variable E v) then Some v else None | _ => None end.
Definition globals (vars : list set_var_base) : list set_var := omap global_of vars.

Definition short (v : set_var) : Prop := Z.of_nat (length (sysvar_value v).1.1) <= MAX_DDL_SQL_LEN.
#[export] Instance short_dec v : Decision (short v).
Proof. unfold short. apply _. Defined.

(** The variables that SET names exist. *)
Definition named (x : set_var_base) : Prop :=
  match x with SetVar v => mysql_32 E = true \/ sv_found v = true | _ => True end.

Lemma named_found v : named (SetVar v) -> negb (mysql_32 E) && negb (sv_found v) = false.
Proof. intros [->| ->]; [done|]. by rewrite andb_false_r. Qed.

(** The build for the earlier server asks whether a variable is a global one. *)
Lemma global_var_decide v : mysql_32 E = false -> global_var E v = bool_decide (global_variable E v).
Proof.
  intros H26. unfold global_var. rewrite H26. case_bool_decide as Hg; unfold global_variable in Hg; rewrite H26 in Hg;
    destruct (sv_found v), (sv_readonly v), (sv_global_persist v), (sv_scope_global v); cbn [andb negb]; try done;
    first [by destruct Hg as (? & ? & ? & [?|?])|exfalso; apply Hg; auto].
Qed.

Lemma emplace_global v l w : IS_METADATA_NORMALIZATION E = true -> named (SetVar v) -> global_var E v = true ->
  ctc_emplace_sysvars E S v l w =
    if decide (short v) then Some (Some (l ++ [sysvar_info E S v (sysvar_value v)]), w)
    else Some (None, after E (Message ER_DISALLOWED_OPERATION) w).
Proof.
  intros Hn Hf Hg. unfold ctc_emplace_sysvars, ctc_get_sysvar_value_string.
  rewrite (named_found _ Hf), Hn, Hg. cbn [andb].
  destruct (decide (short v)) as [Hs|Hs]; unfold short in Hs;
    destruct (sysvar_value v) as [[s n] d]; cbn [fst] in Hs;
    destruct (Z.gtb_spec (Z.of_nat (length s)) MAX_DDL_SQL_LEN); done || lia.
Qed.

Lemma emplace_local v l w : named (SetVar v) -> global_var E v = false -> ctc_emplace_sysvars E S v l w = Some (Some l, w).
Proof. intros Hf Hg. unfold ctc_emplace_sysvars. by rewrite (named_found _ Hf), Hg, andb_false_r. Qed.

(** The loop: all of them, or a message at the first one that is too long *)
Lemma emplace_globals vars : IS_METADATA_NORMALIZATION E = true -> mysql_32 E = false -> Forall named vars -> forall l w,
  emplace_all E S vars l w =
    if decide (Forall short (globals vars))
    then Some (Some (l ++ map (fun v => sysvar_info E S v (sysvar_value v)) (globals vars)), w)
    else Some (None, after E (Message ER_DISALLOWED_OPERATION) w).
Proof.
  intros Hn H26. unfold globals. induction vars as [|x vars IH]; intros Hf l w; cbn [emplace_all omap list_omap map].
  { rewrite decide_True by done. by rewrite app_nil_r. }
  destruct (Forall_cons_1 _ _ _ Hf) as [Hx Hf']. destruct x as [v| | |]; cbn [global_of]; try by apply IH.
  unfold mbind, M_bind. destruct (decide (global_variable E v)) as [Hg|Hg].
  - rewrite emplace_global by (try done; rewrite global_var_decide by done; by apply bool_decide_eq_true).
    destruct (decide (short v)) as [Hs|Hs].
    + rewrite IH by done. destruct (decide (Forall short _)) as [Ha|Ha].
      * rewrite decide_True by by constructor. cbn [map]. by rewrite <- app_assoc.
      * rewrite decide_False; [done|]. intros H. destruct Ha. by inversion H.
    + rewrite decide_False; [done|]. intros H. destruct Hs. by inversion H.
  - rewrite emplace_local by (try done; rewrite global_var_decide by done; by apply bool_decide_eq_false). by apply IH.
Qed.

(** In the build for the later server nothing is collected. *)
Lemma emplace_none vars : mysql_32 E = true -> forall l w, emplace_all E S vars l w = Some (Some l, w).
Proof.
  intros H32. induction vars as [|[v| | |] vars IH]; intros l w; cbn [emplace_all]; [done| |by apply IH..].
  unfold mbind, M_bind. rewrite emplace_local; [by apply IH|by left|]. unfold global_var. by rewrite H32.
Qed.

(** What SET does when the call is made: [w'] and [r] after a call with [sent]
    in the state [w]. *)
Definition sent_to_all (sent : list set_opt_info) (r : Z) (w w' : world) : Prop :=
  if set_opt_memory N then
    exists rp said tch, r = rp_ret rp /\ w_log w' = said ++ (Ctc_execute_set_opt sent, rp) :: (Get_tch, tch) :: w_log w /\
      (said = [] \/ exists a, said = [(Message (ER_REMOTE (rp_err rp)), a)])
  else r = HA_ERR_OUT_OF_MEM_number /\ exists tch, w_log w' = (Get_tch, tch) :: w_log w.


(** In the build for the later server no variable is ever sent: the
    function that looks whether it is a global one is defined and not called. *)
Theorem no_variable_sent w :
  IS_METADATA_NORMALIZATION E = true -> mysql_32 E = true -> ctc_update_sysvars E S N w = Some (0, w).
Proof.
  intros Hn H32. unfold ctc_update_sysvars. destruct (is_ctc_mdl_thd N); [done|]. unfold mbind, M_bind.
  by rewrite emplace_none.
Qed.

End Pairs.

(** ** Witnesses *)

Definition demo_notice : notice := mk_notice false false (txt "db") false (txt "db") true.

(** A running server, of the later build or not, whose meta data is the
    engine's. All calls succeed. *)
Definition demo_flow (later : bool) : env :=
  mk_env (fun _ _ => mk_reply 0 0) (mk_server false false true false true true 0) demo_thread true later
    MATCH_META (0, 100)
    (fun _ => false) false (Some 1) (txt "CTC") false false 0 false false false.
Definition demo_drop : stmt := demo_stmt SQLCOM_DROP_TABLE [] [demo_table] (txt "drop table db.t").
Definition demo_key : MDL_key := mk_key (OtherNamespace 4) (txt "db") (txt "t").
Definition demo_notify (t : ha_notification_type) (w : world) : bool * world :=
  default (true, w) (ctc_notify_exclusive_mdl (demo_flow false) demo_drop demo_notice demo_key t w).
Definition demo_pre : bool * world := demo_notify HA_NOTIFY_PRE_EVENT demo_start.
Definition demo_post : bool * world := demo_notify HA_NOTIFY_POST_EVENT (snd demo_pre).

Lemma mdl_locks_paired_witness :
  fst demo_pre = false /\ fst demo_post = false /\
  mdl_requests (lock_info_of demo_drop demo_key) (w_log (snd demo_pre)) = [(true, 0)] /\
  mdl_requests (lock_info_of demo_drop demo_key) (w_log (snd demo_post)) = [(false, 0); (true, 0)].
Proof.
  split; [vm_compute; reflexivity|]. split; [vm_compute; reflexivity|].
  pose proof (mdl_locks_paired (demo_flow false) demo_drop demo_notice demo_key demo_start false (snd demo_pre) (snd demo_pre)
    false (snd demo_post) (lock_info_of demo_drop demo_key) ltac:(vm_compute; reflexivity) eq_refl ltac:(vm_compute; reflexivity)) as H.
  rewrite bool_decide_eq_true_2 in H by reflexivity. destruct H as [_ H]. specialize (H eq_refl).
  assert (locks (demo_flow false) demo_drop demo_notice demo_key (w_flag demo_start) = true) as Hl by (vm_compute; reflexivity).
  rewrite Hl in H. destruct H as [H1 H2]. split; [exact H1|]. rewrite H2, H1. reflexivity.
Defined.

Definition demo_globals : stmt :=
  demo_stmt SQLCOM_SET_OPTION [SetVar (demo_var "a" true); SetVar (demo_var "b" false); SetVar (demo_var "c" true)] []
    (txt "set global a = 1, session b = 1, global c = 1").


Lemma no_variable_sent_witness :
  globals (demo_flow false) (var_list demo_globals) <> [] /\
  ctc_update_sysvars (demo_flow true) demo_globals demo_notice demo_start = Some (0, demo_start).
Proof. split; [done|]. exact (no_variable_sent (demo_flow true) demo_globals demo_notice demo_start eq_refl eq_refl). Defined.
End DdlNotify.
