(* ===== verification/Effects.v ===== *)
(** * Effects: state and failure

    The monad of the code that changes the state of the server or of the
    plugin, for the components behind a request of another node and for
    definitions of tables.  [None] is undefined behaviour (a pointer that is
    null or freed, a failed assertion).  [total P m Q]: from a state that
    satisfies [P] the code returns, and its result and state satisfy [Q]. *)

From S2P Require Import Prelude.

Module Effects.

Definition ST (W A : Type) : Type := W -> option (A * W).

#[export] Instance ST_ret {W} : MRet (ST W) := fun A a w => Some (a, w).
#[export] Instance ST_bind {W} : MBind (ST W) := fun A B k m w =>
  match m w with Some (a, w) => k a w | None => None end.

Section Operations.
Context {W : Type}.

Definition ret {A} (a : A) : ST W A := mret a.
Definition fail {A} : ST W A := fun _ => None.
Definition get : ST W W := fun w => Some (w, w).
Definition modify (f : W -> W) : ST W unit := fun w => Some (tt, f w).

(** A pointer that must not be null *)
Definition deref {A} (o : option A) : ST W A := match o with Some a => ret a | None => fail end.

(** [for (x : l) f(x)] *)
Fixpoint for_each {A} (l : list A) (f : A -> ST W unit) : ST W unit :=
  match l with [] => ret tt | x :: l => f x ≫= fun _ => for_each l f end.

(** The same with a variable that each turn sets *)
Fixpoint fold_each {A B} (l : list A) (b : B) (f : B -> A -> ST W B) : ST W B :=
  match l with [] => ret b | x :: l => f b x ≫= fun b => fold_each l b f end.

End Operations.

Lemma st_bind_inv {W A B} (m : ST W A) (k : A -> ST W B) w b w' :
  (m ≫= k) w = Some (b, w') -> exists a w1, m w = Some (a, w1) /\ k a w1 = Some (b, w').
Proof. unfold mbind, ST_bind. destruct (m w) as [[a w1]|]; [|done]. intros H. by exists a, w1. Qed.

Lemma bind_some {W A B} (m : ST W A) (k : A -> ST W B) w a w1 : m w = Some (a, w1) -> (m ≫= k) w = k a w1.
Proof. intros H. unfold mbind, ST_bind. by rewrite H. Qed.

Lemma ret_step {W A B} (a : A) (k : A -> ST W B) w : (ret a ≫= k) w = k a w.
Proof. done. Qed.

Lemma deref_step {W A B} (a : A) (k : A -> ST W B) w : (deref (Some a) ≫= k) w = k a w.
Proof. done. Qed.

Lemma get_step {W B} (k : W -> ST W B) w : (get ≫= k) w = k w w.
Proof. done. Qed.

(** Runs the code as far as it goes. *)
Ltac exec := cbv [mbind ST_bind ret mret ST_ret get modify fail deref]; cbn beta iota.

(** ** Total correctness *)

Definition total {W A} (P : W -> Prop) (m : ST W A) (Q : A -> W -> Prop) : Prop :=
  forall w, P w -> exists a w', m w = Some (a, w') /\ Q a w'.

Section Rules.
Context {W : Type}.

Lemma total_ret {A} (a : A) (P : W -> Prop) : total P (ret a) (fun x w => x = a /\ P w).
Proof. intros w Hw. by exists a, w. Qed.

Lemma total_bind {A B} (m : ST W A) (k : A -> ST W B) P Q R :
  total P m Q -> (forall a, total (Q a) (k a) R) -> total P (m ≫= k) R.
Proof.
  intros Hm Hk w Hw. destruct (Hm _ Hw) as (a & w1 & H1 & Ha). destruct (Hk a w1 Ha) as (b & w2 & H2 & Hb).
  exists b, w2. split; [|done]. by rewrite (bind_some _ _ _ _ _ H1).
Qed.

Lemma total_conseq {A} (m : ST W A) (P P' : W -> Prop) (Q Q' : A -> W -> Prop) :
  total P m Q -> (forall w, P' w -> P w) -> (forall a w, Q a w -> Q' a w) -> total P' m Q'.
Proof. intros H Hp Hq w Hw. destruct (H w (Hp w Hw)) as (a & w' & Hr & Ha). exists a, w'. by auto. Qed.

Lemma total_get (P : W -> Prop) : total P get (fun a w => a = w /\ P w).
Proof. intros w Hw. by exists w, w. Qed.

Lemma total_modify (f : W -> W) (P : W -> Prop) (Q : unit -> W -> Prop) :
  (forall w, P w -> Q tt (f w)) -> total P (modify f) Q.
Proof. intros H w Hw. exists tt, (f w). by auto. Qed.

Lemma total_pre {A} (m : ST W A) (P : W -> Prop) Q :
  (forall w, P w -> total (fun w' => w' = w) m Q) -> total P m Q.
Proof. intros H w Hw. exact (H w Hw w eq_refl). Qed.

Lemma total_for {A} (l : list A) (f : A -> ST W unit) (I : W -> Prop) :
  (forall x, x ∈ l -> total I (f x) (fun _ => I)) -> total I (for_each l f) (fun _ => I).
Proof.
  induction l as [|x l IH]; intros H; cbn [for_each].
  - intros w Hw. by exists tt, w.
  - eapply total_bind; [apply (H x), list_elem_of_here|]. intros u. apply IH. intros y Hy. by apply H, list_elem_of_further.
Qed.

Lemma total_fold {A B} (l : list A) (f : B -> A -> ST W B) (I : W -> Prop) : forall b,
  (forall b x, total I (f b x) (fun _ => I)) -> total I (fold_each l b f) (fun _ => I).
Proof.
  induction l as [|x l IH]; intros b0 H; cbn [fold_each].
  - intros w Hw. by exists b0, w.
  - eapply total_bind; [apply H|]. intros b'. by apply IH.
Qed.

End Rules.

End Effects.
