(* ===== verification/MetaData.v ===== *)
(** * MetaData: locks and cached definitions on behalf of other nodes

    Models [ctc_meta_data.cc]: a statement that runs on another node takes its
    locks of names here too, in a thread ([THD]) that this node keeps for the
    session of the other one, and definitions that the other node changed are
    removed from the caches here.  Also the keys of sessions
    ([ctc_proxy_util.h]) and the messages about changed definitions that
    [invalidate_remote_dd] of [ha_ctc.cc] sends.

    The server's metadata locks are a class; whether a lock is granted and what
    its caches answer is an arbitrary function of the calls so far, and so is
    whether memory is allocated ([New_thd], [New_object]). *)

From Stdlib Require Import Ascii String.
From stdpp Require Import sorting.
From S2P Require Import Prelude Effects SqlText DdlRewriter.
Import Effects SqlText.

Module MetaData.

#[local] Existing Instance DdlRewriter.sqlcom_eq_dec.

(** ** Keys of sessions *)

Definition AGENT_CONN_KEY_MASK : Z := 2 ^ 63.

Definition ctc_get_conn_key (inst_id thd_id : Z) (use_proxy : bool) : Z :=
  let conn_key := wrapU 64 (wrapU 64 (Z.shiftl inst_id 32) + thd_id) in
  if use_proxy then conn_key else Z.lor conn_key AGENT_CONN_KEY_MASK.

Definition ctc_get_inst_id_from_conn_key (conn_key : Z) : Z :=
  wrapU 32 (Z.shiftr (Z.land conn_key (AGENT_CONN_KEY_MASK - 1)) 32).

Definition ctc_get_cantian_id_from_conn_key (conn_key : Z) : Z :=
  wrapU 16 (Z.shiftr (Z.land conn_key (AGENT_CONN_KEY_MASK - 1)) 48).

(** ** Metadata locks *)

(** [enum_mdl_namespace] and [enum_mdl_type] of the server *)
Definition GLOBAL : Z := 0.
Definition BACKUP_LOCK : Z := 1.
Definition TABLESPACE : Z := 2.
Definition SCHEMA : Z := 3.
Definition TABLE : Z := 4.
Definition FUNCTION : Z := 5.
Definition PROCEDURE : Z := 6.
Definition TRIGGER : Z := 7.
Definition EVENT : Z := 8.
Definition RESOURCE_GROUPS : Z := 15.

Definition MDL_INTENTION_EXCLUSIVE : Z := 0.
Definition MDL_SHARED : Z := 1.
Definition MDL_SHARED_READ_ONLY : Z := 7.
Definition MDL_SHARED_NO_READ_WRITE : Z := 9.
Definition MDL_EXCLUSIVE : Z := 10.

Record mdl_key := mk_key { k_namespace : Z; k_db : text; k_name : text }.

#[export] Instance mdl_key_eq_dec : EqDecision mdl_key.
Proof. solve_decision. Defined.
#[export] Instance mdl_key_countable : Countable mdl_key.
Proof.
  refine (inj_countable' (fun k => (k_namespace k, k_db k, k_name k)) (fun x => mk_key x.1.1 x.1.2 x.2) _).
  by intros [].
Defined.

(** The kinds of objects of [THD::invalidates()]; their numbers are the server's. *)
Inductive obj_type :=
  | OBJ_ABSTRACT_TABLE | OBJ_RT_PROCEDURE | OBJ_RT_FUNCTION | OBJ_SCHEMA | OBJ_TABLESPACE | OBJ_EVENT
  | OBJ_COLUMN_STATISTICS | OBJ_RESOURCE_GROUP | OBJ_SPATIAL_REFERENCE_SYSTEM | OBJ_CHARSET | OBJ_COLLATION
  | OBJ_OTHER (code : Z).

Definition named (ty : obj_type) : bool := match ty with OBJ_OTHER _ => false | _ => true end.

(** A session of the server holds tickets: a key and a kind of lock each. *)
Class MdlServer := {
  mdl_context : Type;
  new_context : mdl_context;
  tickets : mdl_context -> gmap Z (mdl_key * Z);
  obj_code : obj_type -> Z;
  obj_of_code : Z -> obj_type;
  dd_mdl_key : Z -> text -> text -> mdl_key;                     (* create_mdl_key *)
  mdl_acquire : mdl_context -> mdl_key -> Z -> mdl_context * Z;  (* acquire_lock, when it is granted *)
  owns_equal_or_stronger_lock : mdl_context -> mdl_key -> Z -> bool;
  release_lock : mdl_context -> Z -> mdl_context;
  release_all_locks_for_name : mdl_context -> Z -> mdl_context;
  release_locks : mdl_context -> (mdl_key -> Z -> bool) -> mdl_context }.

(** What the server documents.  All locks here have the explicit duration: each
    request that is granted has a ticket of its own. *)
Class MdlLaws `{MdlServer} := {
  obj_of_code_code ty : named ty = true -> obj_of_code (obj_code ty) = ty;
  obj_code_byte ty : 0 <= obj_code ty < 256;
  new_tickets : tickets new_context = ∅;
  dd_mdl_key_namespace ns db name : k_namespace (dd_mdl_key ns db name) = ns;
  acquire_tickets c k ty c' t : mdl_acquire c k ty = (c', t) ->
    tickets c !! t = None /\ tickets c' = <[t := (k, ty)]> (tickets c);
  release_tickets c t : tickets (release_lock c t) = delete t (tickets c);
  release_name_tickets c t k ty : tickets c !! t = Some (k, ty) ->
    tickets (release_all_locks_for_name c t) = filter (fun x => x.2.1 <> k) (tickets c);
  release_locks_tickets c p : tickets (release_locks c p) = filter (fun x => p x.2.1 x.2.2 = false) (tickets c) }.

(** ** State *)

(** [invalidate_obj_entry_t] *)
Record obj_entry := mk_obj { obj_kind : obj_type; obj_first : text; obj_second : text }.

(** What the node does, the latest first *)
Inductive dd_event :=
  | Acquire (thd : Z) (k : mdl_key) (ty : Z)
  | Invalidate_table (schema table : text)
  | Invalidate_tablespace (name : text)
  | Invalidate_schema (name : text)
  | Invalidate_routine (ty : obj_type) (schema name : text)
  | Reset_dictionary_cache
  | Reload_acl_caches
  | Reset_mqh
  | New_thd (key : Z)                                    (* new (std::nothrow) THD *)
  | New_object.                                          (* my_malloc of an object's entry *)

Definition dd_log := list (dd_event * bool).             (* with the answers: failed *)

Section Model.
Context `{MS : MdlServer}.

Record world := mk_world {
  g_ctc_mdl_thd_map : gmap Z Z;                          (* THD: its number *)
  g_ctc_mdl_ticket_maps : gmap Z (option (gmap mdl_key Z));
  g_ctc_invalidate_routine_maps : gmap Z (list obj_entry);
  g_ctc_invalidate_schema_maps : gmap Z (list obj_entry);
  contexts : gmap Z mdl_context;                         (* of the threads that exist *)
  next_thd : Z;
  orphans : list (mdl_key * Z);       (* locks that a deleted thread still held *)
  w_log : dd_log }.

Definition M := ST world.

Definition set_thd_map m (w : world) : world :=
  mk_world m (g_ctc_mdl_ticket_maps w) (g_ctc_invalidate_routine_maps w) (g_ctc_invalidate_schema_maps w)
    (contexts w) (next_thd w) (orphans w) (w_log w).
Definition set_ticket_maps m (w : world) : world :=
  mk_world (g_ctc_mdl_thd_map w) m (g_ctc_invalidate_routine_maps w) (g_ctc_invalidate_schema_maps w)
    (contexts w) (next_thd w) (orphans w) (w_log w).
Definition set_routine_maps m (w : world) : world :=
  mk_world (g_ctc_mdl_thd_map w) (g_ctc_mdl_ticket_maps w) m (g_ctc_invalidate_schema_maps w)
    (contexts w) (next_thd w) (orphans w) (w_log w).
Definition set_schema_maps m (w : world) : world :=
  mk_world (g_ctc_mdl_thd_map w) (g_ctc_mdl_ticket_maps w) (g_ctc_invalidate_routine_maps w) m
    (contexts w) (next_thd w) (orphans w) (w_log w).
Definition set_contexts m (w : world) : world :=
  mk_world (g_ctc_mdl_thd_map w) (g_ctc_mdl_ticket_maps w) (g_ctc_invalidate_routine_maps w)
    (g_ctc_invalidate_schema_maps w) m (next_thd w) (orphans w) (w_log w).

(** What is outside: the answers, this node, whether the server works *)
Record env := mk_env {
  oracle : dd_log -> dd_event -> bool;                   (* true: it fails *)
  ctc_instance_id : Z;
  is_work_flow : bool;
  metadata_normalized : bool }.                          (* METADATA_NORMALIZED *)

Record ctc_handler := mk_tch { inst_id : Z; thd_id : Z }.

(** [ctc_lock_table_info] *)
Record lock_table_info := mk_info {
  db_name : text; table_name : text; sql_type : DdlRewriter.sqlcom; mdl_namespace : Z }.

Context (E : env).

Definition call (ev : dd_event) : M bool := fun w =>
  let failed := oracle E (w_log w) ev in
  Some (failed, mk_world (g_ctc_mdl_thd_map w) (g_ctc_mdl_ticket_maps w) (g_ctc_invalidate_routine_maps w)
    (g_ctc_invalidate_schema_maps w) (contexts w) (next_thd w) (orphans w) ((ev, failed) :: w_log w)).

(** [thd->mdl_context] of a thread that exists *)
Definition context_of (thd : Z) : M mdl_context := w ← get; deref (contexts w !! thd).
Definition set_context (thd : Z) (c : mdl_context) : M unit :=
  modify (fun w => set_contexts (<[thd := c]> (contexts w)) w).

(** [acquire_lock]: the ticket, or [None] *)
Definition acquire_lock (thd : Z) (k : mdl_key) (ty : Z) : M (option Z) :=
  c ← context_of thd;
  failed ← call (Acquire thd k ty);
  if failed : bool then ret None
  else let '(c, t) := mdl_acquire c k ty in set_context thd c ;; ret (Some t).

Definition change_context (thd : Z) (f : mdl_context -> mdl_context) : M unit :=
  c ← context_of thd; set_context thd (f c).

(** Memory; a null pointer is not looked for (or asserted against), it is used. *)
Definition allocate (ev : dd_event) : M unit := failed ← call ev; if failed : bool then fail else ret tt.

(** ** Threads *)

Definition ctc_init_thd (thd_key : Z) : M Z :=
  w ← get;
  match g_ctc_mdl_thd_map w !! thd_key with
  | Some thd => ret thd
  | None =>
    allocate (New_thd thd_key) ;;
    let new_thd := next_thd w in
    modify (fun w => mk_world (<[thd_key := new_thd]> (g_ctc_mdl_thd_map w)) (g_ctc_mdl_ticket_maps w)
      (g_ctc_invalidate_routine_maps w) (g_ctc_invalidate_schema_maps w)
      (<[new_thd := new_context]> (contexts w)) (next_thd w + 1) (orphans w) (w_log w)) ;;
    ret new_thd
  end.

(** [Release_all_ctc_explicit_locks::release] *)
Definition explicit_lock (k : mdl_key) (ty : Z) : bool :=
  (ty =? MDL_EXCLUSIVE)
  || ((ty =? MDL_SHARED_READ_ONLY) || (ty =? MDL_SHARED_NO_READ_WRITE)) && (k_namespace k =? TABLE).

(** What the thread still holds is lost with it. *)
Definition release_ctc_thd_and_explicit_locks (thd : Z) : M unit :=
  change_context thd (fun c => release_locks c explicit_lock) ;;
  c ← context_of thd;
  modify (fun w => mk_world (g_ctc_mdl_thd_map w) (g_ctc_mdl_ticket_maps w) (g_ctc_invalidate_routine_maps w)
    (g_ctc_invalidate_schema_maps w) (delete thd (contexts w)) (next_thd w)
    (map snd (map_to_list (tickets c)) ++ orphans w) (w_log w)).

Definition release_ctc_thd_tickets (thd : Z) : M unit :=
  modify (fun w => set_ticket_maps (delete thd (g_ctc_mdl_ticket_maps w)) w).

(** ** Cached definitions *)

(** The lock that an invalidation needs, if the thread does not have it:
    [None] when it is not granted, [Some None] when there is no ticket. *)
Definition take_lock (thd : Z) (k : mdl_key) (ty : Z) : M (option (option Z)) :=
  c ← context_of thd;
  if owns_equal_or_stronger_lock c k ty then ret (Some None)
  else t ← acquire_lock thd k ty; ret (match t with None => None | Some t => Some (Some t) end).

Definition release_ticket (thd : Z) (t : option Z) : M unit :=
  match t with Some t => change_context thd (fun c => release_lock c t) | None => ret tt end.

Definition schema_key (schema : text) : mdl_key := mk_key SCHEMA schema [].

Definition call_ (ev : dd_event) : M unit := call ev ;; ret tt.

Definition invalidate_routine (thd : Z) (schema_name routine_name : text) (type : obj_type) : M bool :=
  schema_ticket ← take_lock thd (schema_key schema_name) MDL_INTENTION_EXCLUSIVE;
  match schema_ticket with
  | None => ret true
  | Some schema_ticket =>
    let mdl_key := dd_mdl_key match type with OBJ_RT_PROCEDURE => PROCEDURE | _ => FUNCTION end schema_name routine_name in
    routine_ticket ← take_lock thd mdl_key MDL_EXCLUSIVE;
    match routine_ticket with
    | None => ret true
    | Some routine_ticket =>
      call_ (Invalidate_routine type schema_name routine_name) ;;
      release_ticket thd routine_ticket ;; release_ticket thd schema_ticket ;; ret false
    end
  end.

Definition invalidate_table (thd : Z) (schema_name table_name : text) : M bool :=
  schema_ticket ← take_lock thd (schema_key schema_name) MDL_INTENTION_EXCLUSIVE;
  match schema_ticket with
  | None => ret true
  | Some schema_ticket =>
    table_ticket ← take_lock thd (mk_key TABLE schema_name table_name) MDL_EXCLUSIVE;
    match table_ticket with
    | None => ret true
    | Some table_ticket =>
      call_ (Invalidate_table schema_name table_name) ;;
      release_ticket thd schema_ticket ;; release_ticket thd table_ticket ;; ret false
    end
  end.

Definition invalidate_schema (thd : Z) (schema_name : text) : M bool :=
  schema_ticket ← acquire_lock thd (schema_key schema_name) MDL_EXCLUSIVE;
  match schema_ticket with
  | None => ret true
  | Some t => call_ (Invalidate_schema schema_name) ;; release_ticket thd (Some t) ;; ret false
  end.

Definition invalidate_tablespace (thd : Z) (tablespace_name : text) : M bool :=
  tablespace_ticket ← acquire_lock thd (mk_key TABLESPACE tablespace_name []) MDL_EXCLUSIVE;
  match tablespace_ticket with
  | None => ret true
  | Some t => call_ (Invalidate_tablespace tablespace_name) ;; release_ticket thd (Some t) ;; ret false
  end.

Definition push_back (thd : Z) (obj : obj_entry) (m : gmap Z (list obj_entry)) : gmap Z (list obj_entry) :=
  <[thd := default [] (m !! thd) ++ [obj]]> m.

Definition ctc_insert_schema (thd : Z) (obj : obj_entry) : M unit :=
  modify (fun w => set_schema_maps (push_back thd obj (g_ctc_invalidate_schema_maps w)) w).

Definition ctc_insert_routine (thd : Z) (obj : obj_entry) : M unit :=
  modify (fun w => set_routine_maps (push_back thd obj (g_ctc_invalidate_routine_maps w)) w).

(** [error] is that of the last object. *)
Definition release_routine_and_schema (thd : Z) (error : bool) : M bool :=
  if negb (metadata_normalized E) then ret error else
  w ← get;
  error ← fold_each (default [] (g_ctc_invalidate_routine_maps w !! thd)) error
            (fun _ it => invalidate_routine thd (obj_first it) (obj_second it) (obj_kind it));
  modify (fun w => set_routine_maps (delete thd (g_ctc_invalidate_routine_maps w)) w) ;;
  error ← fold_each (default [] (g_ctc_invalidate_schema_maps w !! thd)) error
            (fun _ it => invalidate_schema thd (obj_first it));
  modify (fun w => set_schema_maps (delete thd (g_ctc_invalidate_schema_maps w)) w) ;;
  ret error.

(** ** The end of a session of another node *)

Definition release_thd (mdl_thd_key thd : Z) : M unit :=
  release_routine_and_schema thd false ;;
  release_ctc_thd_tickets thd ;;
  release_ctc_thd_and_explicit_locks thd ;;
  modify (fun w => set_thd_map (delete mdl_thd_key (g_ctc_mdl_thd_map w)) w).

Definition release_ctc_mdl_thd_by_key (mdl_thd_key : Z) : M unit :=
  w ← get;
  match g_ctc_mdl_thd_map w !! mdl_thd_key with
  | None => ret tt
  | Some thd => release_thd mdl_thd_key thd
  end.

(** The loop over the map, in the order of the keys *)
Definition keys_in_order (m : gmap Z Z) : list Z := merge_sort Z.le (map fst (map_to_list m)).

Definition release_where (p : Z -> bool) : M unit :=
  w ← get;
  for_each (keys_in_order (g_ctc_mdl_thd_map w)) (fun k => if p k then release_ctc_mdl_thd_by_key k else ret tt).

Definition release_ctc_mdl_thd_by_cantian_id (cantian_inst_id : Z) : M unit :=
  release_where (fun k => ctc_get_cantian_id_from_conn_key k =? cantian_inst_id).

Definition release_ctc_mdl_thd_by_inst_id (mysql_inst_id : Z) : M unit :=
  release_where (fun k => ctc_get_inst_id_from_conn_key k =? mysql_inst_id).

Definition CANTIAN_DOWN_MASK : Z := 65535.

Definition close_ctc_mdl_thd (thd_id mysql_inst_id : Z) : M Z :=
  (if thd_id =? 0 then
     if wrapU 16 mysql_inst_id =? CANTIAN_DOWN_MASK
     then release_ctc_mdl_thd_by_cantian_id (wrapU 16 (Z.shiftr mysql_inst_id 16))
     else release_ctc_mdl_thd_by_inst_id mysql_inst_id
   else release_ctc_mdl_thd_by_key (ctc_get_conn_key mysql_inst_id thd_id true)) ;;
  ret 0.

(** ** Locks *)

Definition ctc_init_mdl_request (lock_info : lock_table_info) : mdl_key * Z :=
  let ns := mdl_namespace lock_info in
  let db := db_name lock_info in
  let name := table_name lock_info in
  if bool_decide (ns ∈ [FUNCTION; PROCEDURE; EVENT; TRIGGER]) then (dd_mdl_key ns db name, MDL_EXCLUSIVE)
  else if ns =? RESOURCE_GROUPS then (dd_mdl_key ns db [], MDL_EXCLUSIVE)
  else if (ns =? GLOBAL) || (ns =? BACKUP_LOCK) then (mk_key ns db name, MDL_SHARED)
  else (mk_key ns db name, MDL_EXCLUSIVE).

(** The other one: [mdl_namespace] of the message is the kind of the lock. *)
Definition table_request (lock_info : lock_table_info) : mdl_key * Z :=
  (mk_key TABLE (db_name lock_info) (table_name lock_info), mdl_namespace lock_info).

Definition thd_key (tch : ctc_handler) : Z := ctc_get_conn_key (inst_id tch) (thd_id tch) true.
Definition is_same_node (tch : ctc_handler) : bool := inst_id tch =? ctc_instance_id E.

(** The ticket map of the thread; a null pointer must not be used. *)
Definition ticket_map (thd : Z) : M (gmap mdl_key Z) :=
  w ← get;
  match g_ctc_mdl_ticket_maps w !! thd with
  | None => modify (fun w => set_ticket_maps (<[thd := Some ∅]> (g_ctc_mdl_ticket_maps w)) w) ;; ret ∅
  | Some m => deref m
  end.

(** [insert] keeps a ticket that is there. *)
Definition insert_ticket (thd : Z) (k : mdl_key) (t : Z) : M unit :=
  m ← ticket_map thd;
  modify (fun w => set_ticket_maps (<[thd := Some (match m !! k with Some _ => m | None => <[k := t]> m end)]>
                                      (g_ctc_mdl_ticket_maps w)) w).

(** The lock and its ticket; [true] with [err_code] ER_LOCK_WAIT_TIMEOUT when it
    is not granted *)
Definition lock_thd (tch : ctc_handler) (request : mdl_key * Z) : M bool :=
  thd ← ctc_init_thd (thd_key tch);
  t ← acquire_lock thd request.1 request.2;
  match t with
  | None => ret true
  | Some t => insert_ticket thd request.1 t ;; ret false
  end.

Definition ctc_mdl_lock_thd (tch : ctc_handler) (lock_info : lock_table_info) : M bool :=
  if negb (is_work_flow E) then ret false
  else if is_same_node tch then ret false
  else lock_thd tch (ctc_init_mdl_request lock_info).

Definition ctc_mdl_unlock_thd_by_ticket (thd : Z) (k : mdl_key) : M unit :=
  w ← get;
  match g_ctc_mdl_ticket_maps w !! thd with
  | None => ret tt
  | Some None => modify (fun w => set_ticket_maps (delete thd (g_ctc_mdl_ticket_maps w)) w)
  | Some (Some m) =>
    match m !! k with
    | None => ret tt
    | Some ticket =>
      change_context thd (fun c => release_all_locks_for_name c ticket) ;;
      let m := delete k m in
      modify (fun w => set_ticket_maps (if bool_decide (m = ∅) then delete thd (g_ctc_mdl_ticket_maps w)
                                        else <[thd := Some m]> (g_ctc_mdl_ticket_maps w)) w)
    end
  end.

(** The loop over the tickets, whose kind the server tells *)
Fixpoint release_matching (thd : Z) (l : list (mdl_key * Z)) (filter_key : option mdl_key) (m : gmap mdl_key Z)
  : M (gmap mdl_key Z) :=
  match l with
  | [] => ret m
  | (k, ticket) :: l =>
    c ← context_of thd;
    x ← deref (tickets c !! ticket);
    let key_match := match filter_key with None => true | Some k' => bool_decide (k = k') end in
    let type_match := (x.2 =? MDL_SHARED_READ_ONLY) || (x.2 =? MDL_SHARED_NO_READ_WRITE) in
    if key_match && type_match
    then set_context thd (release_lock c ticket) ;; release_matching thd l filter_key (delete k m)
    else release_matching thd l filter_key m
  end.

Definition ctc_release_mdl_tickets (thd : Z) (m : gmap mdl_key Z) (filter_key : option mdl_key) : M (gmap mdl_key Z) :=
  release_matching thd (map_to_list m) filter_key m.

Definition ctc_mdl_unlock_tables_thd (tch : ctc_handler) (mdl_request : option mdl_key) : M unit :=
  if is_same_node tch then ret tt else
  w ← get;
  match g_ctc_mdl_thd_map w !! thd_key tch with
  | None => ret tt
  | Some thd =>
    match g_ctc_mdl_ticket_maps w !! thd with
    | None => ret tt
    | Some None => modify (fun w => set_ticket_maps (delete thd (g_ctc_mdl_ticket_maps w)) w)
    | Some (Some m) =>
      m ← ctc_release_mdl_tickets thd m mdl_request;
      modify (fun w => set_ticket_maps (if bool_decide (m = ∅) then delete thd (g_ctc_mdl_ticket_maps w)
                                        else <[thd := Some m]> (g_ctc_mdl_ticket_maps w)) w)
    end
  end.

Definition ctc_mdl_unlock_thd (tch : ctc_handler) (lock_info : lock_table_info) : M unit :=
  if negb (is_work_flow E) then ret tt
  else if is_same_node tch then ret tt else
  w ← get;
  match g_ctc_mdl_thd_map w !! thd_key tch with
  | None => ret tt
  | Some thd => ctc_mdl_unlock_thd_by_ticket thd (ctc_init_mdl_request lock_info).1
  end.

Definition ctc_ddl_execute_lock_tables_by_req (tch : ctc_handler) (lock_info : lock_table_info) : M bool :=
  let request := table_request lock_info in
  ctc_mdl_unlock_tables_thd tch (Some request.1) ;;
  if is_same_node tch then ret false else lock_thd tch request.

(** ** Messages about changed definitions *)

Definition DD_BROADCAST_RECORD_LENGTH : Z := 3072.
Definition DD_BROADCAST_RECORD_SIZE : nat := 1000.
Definition ENTRY_SIZE : Z := 257.                            (* sizeof(invalidate_obj_entry_t) *)
Definition END_OF_OBJECTS : Z := 49.                         (* '1' *)

(** [ctc_invalidate_broadcast_request] *)
Record dd_request := mk_dd_request {
  buff : list Z; buff_len : Z; mysql_inst_id : Z; is_dcl : bool; is_flush : bool }.

(** [strncpy(dst, s, n)] *)
Definition strncpy (n : nat) (s : text) : list Z :=
  let b := map code (take n (DdlRewriter.c_text s)) in b ++ replicate (n - length b) 0.

Definition write_entry (b : list Z) (off : Z) (o : obj_entry) : option (list Z) :=
  b ← wr b off [obj_code (obj_kind o)];
  b ← wr b (off + 1) (strncpy (DdlRewriter.SMALL_RECORD_SIZE - 1) (obj_first o));
  wr b (off + 129) (strncpy (DdlRewriter.SMALL_RECORD_SIZE - 1) (obj_second o)).

(** The object as it is sent, if it is *)
Definition sent_entry (o : obj_entry) : option obj_entry :=
  match obj_kind o with
  | OBJ_ABSTRACT_TABLE | OBJ_EVENT | OBJ_COLUMN_STATISTICS | OBJ_RT_PROCEDURE | OBJ_RT_FUNCTION => Some o
  | OBJ_SCHEMA | OBJ_TABLESPACE | OBJ_RESOURCE_GROUP | OBJ_SPATIAL_REFERENCE_SYSTEM =>
    Some (mk_obj (obj_kind o) (obj_first o) [])
  | _ => None
  end.

Section Sender.
Context (flush : bool).

Definition request (b : list Z) (len : Z) : dd_request := mk_dd_request b len (ctc_instance_id E) false flush.

(** The buffer, [buff_len] and the messages so far *)
Definition sender : Type := list Z * Z * list dd_request.

Definition broadcast_and_reload_buffer (s : sender) : sender :=
  let '(b, len, sent) := s in
  if len + ENTRY_SIZE >? DD_BROADCAST_RECORD_LENGTH
  then (replicate (Z.to_nat DD_BROADCAST_RECORD_LENGTH) 0, 1, sent ++ [request b len])
  else s.

Definition add_object (s : sender) (o : obj_entry) : option sender :=
  match sent_entry o with
  | None => Some s
  | Some o =>
    let '(b, len, sent) := broadcast_and_reload_buffer s in
    b ← write_entry b len o; Some (b, len + ENTRY_SIZE, sent)
  end.

Fixpoint add_objects (s : sender) (objs : list obj_entry) : option sender :=
  match objs with [] => Some s | o :: objs => s ← add_object s o; add_objects s objs end.

(** [junk]: the request is on the stack and not initialised. *)
Definition invalidate_remote_dd (junk : list Z) (objs : list obj_entry) : option (list dd_request) :=
  if (DD_BROADCAST_RECORD_SIZE <=? length objs)%nat then Some [request junk 0]
  else
    '(b, len, sent) ← add_objects (junk, 1, []) objs;
    b ← wr b 0 [END_OF_OBJECTS];
    Some (sent ++ [request b len]).

End Sender.

(** A C string in memory *)
Fixpoint c_string (l : list Z) : option text :=
  match l with [] => None | z :: l => if z =? 0 then Some [] else s ← c_string l; Some (chr z :: s) end.

Definition read_entry (b : list Z) (off : Z) : option obj_entry :=
  m ← rd b off ENTRY_SIZE;
  first ← c_string (drop 1 m);
  second ← c_string (drop 129 m);
  Some (mk_obj (obj_of_code (match m with z :: _ => z | [] => 0 end)) first second).

(** [while (offset < buff_len)] *)
Fixpoint read_objects (fuel : nat) (b : list Z) (len off : Z) : option (list obj_entry) :=
  if negb (off <? len) then Some [] else
  match fuel with
  | O => None
  | S fuel => o ← read_entry b off; l ← read_objects fuel b len (off + ENTRY_SIZE); Some (o :: l)
  end.

Definition objects_of (r : dd_request) : option (list obj_entry) :=
  read_objects (Z.to_nat (buff_len r)) (buff r) (buff_len r) 1.

Definition is_end (r : dd_request) : option bool := m ← rd (buff r) 0 1; Some (bool_decide (m = [END_OF_OBJECTS])).

(** The cases of the loop *)
Definition handle_object (thd : Z) (error : bool) (o : obj_entry) : M bool :=
  match obj_kind o with
  | OBJ_ABSTRACT_TABLE => invalidate_table thd (obj_first o) (obj_second o)
  | OBJ_RT_PROCEDURE | OBJ_RT_FUNCTION => ctc_insert_routine thd o ;; ret error
  | OBJ_SCHEMA => ctc_insert_schema thd o ;; ret error
  | OBJ_TABLESPACE => invalidate_tablespace thd (obj_first o)
  | _ => ret error
  end.

Definition ctc_invalidate_mysql_dd_cache_req (tch : ctc_handler) (r : dd_request) : M bool :=
  if negb (is_work_flow E) then ret false
  else if mysql_inst_id r =? ctc_instance_id E then ret false else
  thd ← ctc_init_thd (thd_key tch);
  if (buff_len r =? 0) && negb (is_dcl r) then call_ Reset_dictionary_cache ;; ret false
  else if is_dcl r then
    error ← call Reload_acl_caches;
    (if is_flush r then call_ Reset_mqh else ret tt) ;; ret error
  else
    e ← deref (is_end r);
    objs ← deref (objects_of r);
    error ← fold_each objs false (fun error o => allocate New_object ;; handle_object thd error o);
    if e : bool then release_routine_and_schema thd error else ret error.

(** ** Requests of other nodes, when the meta data is the engine's

    These branches are in [ctc_mysql_proxy.cc]. *)

Definition ER_LOCK_WAIT_TIMEOUT_number : Z := 1205.          (* of the server *)

Definition execute_lock_tables (tch : ctc_handler) (lock_info : lock_table_info) : M Z :=
  b ← (if decide (sql_type lock_info = DdlRewriter.SQLCOM_LOCK_TABLES)
       then ctc_ddl_execute_lock_tables_by_req tch lock_info else ctc_mdl_lock_thd tch lock_info);
  ret (if b : bool then ER_LOCK_WAIT_TIMEOUT_number else 0).

Definition execute_unlock_tables (tch : ctc_handler) (lock_info : lock_table_info) : M Z :=
  (if decide (sql_type lock_info = DdlRewriter.SQLCOM_UNLOCK_TABLES)
   then ctc_mdl_unlock_tables_thd tch None else ret tt) ;;
  ctc_mdl_unlock_thd tch lock_info ;; ret 0.

Inductive remote_request :=
  | Lock_tables (tch : ctc_handler) (i : lock_table_info)
  | Unlock_tables (tch : ctc_handler) (i : lock_table_info)
  | Invalidate (tch : ctc_handler) (r : dd_request)
  | Close_session (thd_id mysql_inst_id : Z).

Definition serve (r : remote_request) : M Z :=
  match r with
  | Lock_tables tch i => execute_lock_tables tch i
  | Unlock_tables tch i => execute_unlock_tables tch i
  | Invalidate tch r => b ← ctc_invalidate_mysql_dd_cache_req tch r; ret (if b : bool then 1 else 0)
  | Close_session t i => close_ctc_mdl_thd t i
  end.
End Model.

#[global] Arguments mk_env : clear implicits.

(** ** The effect on one thread *)

Section Threads.
Context `{MS : MdlServer} {ML : MdlLaws} (E : env).

(** All but the locks of [thd] and the log *)
Record same (thd : Z) (w w' : world) : Prop := mk_same {
  same_map : g_ctc_mdl_thd_map w' = g_ctc_mdl_thd_map w;
  same_tickets : g_ctc_mdl_ticket_maps w' = g_ctc_mdl_ticket_maps w;
  same_routines : g_ctc_invalidate_routine_maps w' = g_ctc_invalidate_routine_maps w;
  same_schemas : g_ctc_invalidate_schema_maps w' = g_ctc_invalidate_schema_maps w;
  same_next : next_thd w' = next_thd w;
  same_orphans : orphans w' = orphans w;
  same_others : forall t, t <> thd -> contexts w' !! t = contexts w !! t }.

Lemma same_refl thd w : same thd w w.
Proof. by constructor. Qed.

Lemma same_trans thd w1 w2 w3 : same thd w1 w2 -> same thd w2 w3 -> same thd w1 w3.
Proof.
  intros [] []. constructor; try congruence. intros t Ht. by rewrite same_others1, same_others0.
Qed.

(** The tickets of the thread *)
Definition has (thd : Z) (w : world) (T : gmap Z (mdl_key * Z)) : Prop :=
  exists c, contexts w !! thd = Some c /\ tickets c = T.

(** What the node did, besides locks, in the order of time *)
Definition is_effect (x : dd_event * bool) : bool := match x.1 with Acquire _ _ _ | New_thd _ | New_object => false | _ => true end.

(** The allocations succeed. *)
Definition memory : Prop :=
  forall l ev, match ev with New_thd _ | New_object => true | _ => false end = true -> oracle E l ev = false.
Definition effects (l : dd_log) : list dd_event := rev (map fst (List.filter is_effect l)).

Lemma effects_app l k : effects (l ++ k) = effects k ++ effects l.
Proof. unfold effects. by rewrite List.filter_app, map_app, rev_app_distr. Qed.

(** [thd] has [T] before and [T'] after; [ev] is done meanwhile. *)
Record runs (thd : Z) (w w' : world) (T' : gmap Z (mdl_key * Z)) (ev : list dd_event) : Prop := mk_runs {
  runs_same : same thd w w';
  runs_has : has thd w' T';
  runs_log : exists l, w_log w' = l ++ w_log w /\ effects l = ev }.

Lemma runs_trans thd w1 w2 w3 T2 T3 e1 e2 :
  runs thd w1 w2 T2 e1 -> runs thd w2 w3 T3 e2 -> runs thd w1 w3 T3 (e1 ++ e2).
Proof.
  intros [S1 _ (l1 & L1 & F1)] [S2 H2 (l2 & L2 & F2)]. constructor; [by eapply same_trans|done|].
  exists (l2 ++ l1). rewrite L2, L1, app_assoc. split; [done|]. by rewrite effects_app, F1, F2.
Qed.

Lemma runs_refl thd w T : has thd w T -> runs thd w w T [].
Proof. intros H. constructor; [apply same_refl|done|]. by exists []. Qed.

Lemma runs_nil thd w1 w2 w3 T2 T3 e : runs thd w1 w2 T2 [] -> runs thd w2 w3 T3 e -> runs thd w1 w3 T3 e.
Proof. apply (runs_trans _ _ _ _ _ _ []). Qed.

Lemma context_step {B} thd c (k : mdl_context -> M B) w : contexts w !! thd = Some c -> (context_of thd ≫= k) w = k c w.
Proof. intros Hc. unfold context_of. exec. by rewrite Hc. Qed.

Lemma acquire_run thd k ty w T : has thd w T ->
  exists r w', acquire_lock E thd k ty w = Some (r, w') /\
    match r with
    | None => oracle E (w_log w) (Acquire thd k ty) = true /\ runs thd w w' T []
    | Some t => oracle E (w_log w) (Acquire thd k ty) = false /\ T !! t = None /\ runs thd w w' (<[t := (k, ty)]> T) []
    end.
Proof.
  intros (c & Hc & <-). unfold acquire_lock, context_of, call. exec. rewrite Hc.
  destruct (oracle E (w_log w) (Acquire thd k ty)) eqn:Ho.
  - do 2 eexists. split; [reflexivity|]. split; [done|]. constructor; [done|by exists c|].
    by exists [(Acquire thd k ty, true)].
  - destruct (mdl_acquire c k ty) as [c' t] eqn:Ha. destruct (acquire_tickets _ _ _ _ _ Ha) as [Hn Ht].
    do 2 eexists. split; [reflexivity|]. split; [done|]. split; [done|]. constructor.
    + constructor; try done. intros t' Hne. cbn. by rewrite lookup_insert_ne.
    + exists c'. cbn. by rewrite lookup_insert_eq.
    + by exists [(Acquire thd k ty, false)].
Qed.

Lemma take_run thd k ty w T : has thd w T ->
  exists r w', take_lock E thd k ty w = Some (r, w') /\
    match r with
    | None => oracle E (w_log w) (Acquire thd k ty) = true /\ runs thd w w' T []
    | Some None => runs thd w w' T []
    | Some (Some t) => T !! t = None /\ runs thd w w' (<[t := (k, ty)]> T) []
    end.
Proof.
  intros Hh. pose proof Hh as (c & Hc & _). unfold take_lock. rewrite (context_step _ _ _ _ Hc).
  destruct (owns_equal_or_stronger_lock c k ty).
  - exists (Some None), w. split; [done|]. by apply runs_refl.
  - destruct (acquire_run thd k ty w T Hh) as (r & w' & Hr & Hm). rewrite (bind_some _ _ _ _ _ Hr).
    destruct r as [t|]; do 2 eexists; (split; [reflexivity|]); tauto.
Qed.

Lemma release_run thd w T t : has thd w T -> exists w', release_ticket thd t w = Some (tt, w') /\
  runs thd w w' (match t with Some t => delete t T | None => T end) [].
Proof.
  intros Hh. destruct t as [t|]; cbn [release_ticket].
  - destruct Hh as (c & Hc & <-). unfold change_context, context_of. exec. rewrite Hc. eexists. split; [reflexivity|].
    constructor; [|exists (release_lock c t); cbn; by rewrite lookup_insert_eq, release_tickets|by exists []].
    constructor; try done. intros t' Hne. cbn. by rewrite lookup_insert_ne.
  - exists w. split; [done|]. by apply runs_refl.
Qed.

Lemma call_run thd w T ev : is_effect (ev, false) = true -> has thd w T ->
  exists w', call_ E ev w = Some (tt, w') /\ runs thd w w' T [ev].
Proof.
  intros He Hh. eexists. split; [reflexivity|]. constructor; [done|exact Hh|].
  exists [(ev, oracle E (w_log w) ev)]. split; [done|]. destruct ev; try done.
Qed.

(** An invalidation: [false] when it is done and the thread has the locks it
    had, else more of them *)
Definition invalidates (m : M bool) (thd : Z) (ev : dd_event) : Prop :=
  forall w T, has thd w T -> exists e w' T', m w = Some (e, w') /\
    runs thd w w' T' (if e : bool then [] else [ev]) /\ T ⊆ T' /\ (e = false -> T' = T) /\
    ((forall l k ty, oracle E l (Acquire thd k ty) = false) -> e = false).

(** The tickets after a lock was taken, if one was *)
Definition got (T : gmap Z (mdl_key * Z)) (o : option Z) (T' : gmap Z (mdl_key * Z)) : Prop :=
  match o with None => T' = T | Some t => T !! t = None /\ exists x, T' = <[t := x]> T end.
Definition dropped (o : option Z) (T : gmap Z (mdl_key * Z)) : gmap Z (mdl_key * Z) :=
  match o with Some t => delete t T | None => T end.

Lemma got_sub T o T' : got T o T' -> T ⊆ T'.
Proof. destruct o as [t|]; cbn [got]; [intros (Hn & x & ->); by apply insert_subseteq|by intros ->]. Qed.

Lemma got_dropped T o T' : got T o T' -> dropped o T' = T.
Proof. destruct o as [t|]; cbn [got dropped]; [intros (Hn & x & ->); by apply delete_insert_id|done]. Qed.

Lemma dropped_comm a b T : dropped a (dropped b T) = dropped b (dropped a T).
Proof. destruct a, b; cbn [dropped]; try done. apply delete_delete. Qed.

Lemma take_got thd k ty w T : has thd w T ->
  exists r w', take_lock E thd k ty w = Some (r, w') /\
    match r with
    | None => oracle E (w_log w) (Acquire thd k ty) = true /\ runs thd w w' T []
    | Some o => exists T', got T o T' /\ runs thd w w' T' []
    end.
Proof.
  intros Hh. destruct (take_run thd k ty w T Hh) as (r & w' & Hr & Hm). exists r, w'. split; [done|].
  destruct r as [[t|]|]; cbn [got]; [|by exists T|done]. destruct Hm as [Hn Hm]. eexists. split; [|exact Hm]. by eauto.
Qed.

(** Two locks, an effect, and both locks given back in either order *)
Lemma two_locks thd k1 ty1 k2 ty2 ev (m : option Z -> option Z -> M bool) :
  is_effect (ev, false) = true ->
  (forall o1 o2, m o1 o2 = (call_ E ev ;; release_ticket thd o1 ;; release_ticket thd o2 ;; ret false) \/
                 m o1 o2 = (call_ E ev ;; release_ticket thd o2 ;; release_ticket thd o1 ;; ret false)) ->
  invalidates (r1 ← take_lock E thd k1 ty1;
               match r1 with
               | None => ret true
               | Some o1 => r2 ← take_lock E thd k2 ty2; match r2 with None => ret true | Some o2 => m o1 o2 end
               end) thd ev.
Proof.
  intros He Hm w T Hh. destruct (take_got thd k1 ty1 w T Hh) as (r1 & w1 & H1 & G1). rewrite (bind_some _ _ _ _ _ H1).
  destruct r1 as [o1|]; [destruct G1 as (T1 & G1 & R1)|destruct G1 as [Ho R1]].
  2:{ exists true, w1, T. do 3 (split; [done|]). split; [done|]. intros Hn. by rewrite Hn in Ho. }
  destruct (take_got thd k2 ty2 w1 T1 (runs_has _ _ _ _ _ R1)) as (r2 & w2 & H2 & G2). rewrite (bind_some _ _ _ _ _ H2).
  destruct r2 as [o2|]; [destruct G2 as (T2 & G2 & R2)|destruct G2 as [Ho R2]].
  2:{ exists true, w2, T1. split; [done|]. split; [by apply (runs_nil _ _ _ _ _ _ _ R1 R2)|].
      split; [by apply (got_sub _ _ _ G1)|]. split; [done|]. intros Hn. by rewrite Hn in Ho. }
  destruct (call_run thd w2 T2 ev He (runs_has _ _ _ _ _ R2)) as (w3 & H3 & R3).
  assert (Hrel : forall oa ob, exists w5, (call_ E ev ;; release_ticket thd oa ;; release_ticket thd ob ;; ret false) w2 = Some (false, w5) /\
    runs thd w2 w5 (dropped ob (dropped oa T2)) [ev]).
  { intros oa ob. destruct (release_run thd w3 T2 oa (runs_has _ _ _ _ _ R3)) as (w4 & H4 & R4).
    destruct (release_run thd w4 _ ob (runs_has _ _ _ _ _ R4)) as (w5 & H5 & R5).
    exists w5. rewrite (bind_some _ _ _ _ _ H3), (bind_some _ _ _ _ _ H4), (bind_some _ _ _ _ _ H5). split; [done|].
    pose proof (runs_trans _ _ _ _ _ _ _ _ R3 (runs_trans _ _ _ _ _ _ _ _ R4 R5)) as R. exact R. }
  assert (Hback : dropped o1 (dropped o2 T2) = T) by (rewrite (got_dropped _ _ _ G2); by apply got_dropped).
  assert (Hend : exists w5, m o1 o2 w2 = Some (false, w5) /\ runs thd w2 w5 T [ev]).
  { destruct (Hm o1 o2) as [-> | ->];
      [destruct (Hrel o1 o2) as (w5 & H5 & R5)|destruct (Hrel o2 o1) as (w5 & H5 & R5)]; exists w5; (split; [done|]).
    - by rewrite dropped_comm, Hback in R5.
    - by rewrite Hback in R5. }
  destruct Hend as (w5 & H5 & R5). rewrite H5. exists false, w5, T. split; [done|].
  split; [|done]. apply (runs_nil _ _ _ _ _ _ _ R1), (runs_nil _ _ _ _ _ _ _ R2), R5.
Qed.

Lemma one_lock thd k ty ev :
  is_effect (ev, false) = true ->
  invalidates (r ← acquire_lock E thd k ty;
               match r with None => ret true | Some t => call_ E ev ;; release_ticket thd (Some t) ;; ret false end) thd ev.
Proof.
  intros He w T Hh. destruct (acquire_run thd k ty w T Hh) as (r & w1 & H1 & G1). rewrite (bind_some _ _ _ _ _ H1).
  destruct r as [t|]; [destruct G1 as (_ & Hn & R1)|destruct G1 as [Ho R1]].
  2:{ exists true, w1, T. do 3 (split; [done|]). split; [done|]. intros Hn. by rewrite Hn in Ho. }
  destruct (call_run thd w1 _ ev He (runs_has _ _ _ _ _ R1)) as (w2 & H2 & R2). rewrite (bind_some _ _ _ _ _ H2).
  destruct (release_run thd w2 _ (Some t) (runs_has _ _ _ _ _ R2)) as (w3 & H3 & R3). rewrite (bind_some _ _ _ _ _ H3).
  rewrite delete_insert_id in R3 by done. exists false, w3, T. split; [done|].
  split; [|done]. exact (runs_nil _ _ _ _ _ _ _ R1 (runs_trans _ _ _ _ _ _ _ _ R2 R3)).
Qed.

Lemma table_run thd schema name : invalidates (invalidate_table E thd schema name) thd (Invalidate_table schema name).
Proof.
  unfold invalidate_table.
  apply (two_locks thd _ _ _ _ _ (fun o1 o2 => call_ E (Invalidate_table schema name) ;; release_ticket thd o1 ;; release_ticket thd o2 ;; ret false));
    [done|by left].
Qed.

Lemma routine_run thd schema name ty : invalidates (invalidate_routine E thd schema name ty) thd (Invalidate_routine ty schema name).
Proof.
  unfold invalidate_routine.
  apply (two_locks thd _ _ _ _ _ (fun o1 o2 => call_ E (Invalidate_routine ty schema name) ;; release_ticket thd o2 ;; release_ticket thd o1 ;; ret false));
    [done|by right].
Qed.

Lemma schema_run thd schema : invalidates (invalidate_schema E thd schema) thd (Invalidate_schema schema).
Proof. by apply one_lock. Qed.

Lemma tablespace_run thd name : invalidates (invalidate_tablespace E thd name) thd (Invalidate_tablespace name).
Proof. by apply one_lock. Qed.

End Threads.

(** ** The invariant *)

Section Invariant.
Context `{MS : MdlServer} {ML : MdlLaws} (E : env).

(** Threads of different sessions are different and exist; a stored ticket is
    one that its thread holds, for the key it is stored under; no map of
    tickets is null or empty. *)
Record inv (w : world) : Prop := mk_inv {
  inv_thd : forall key thd, g_ctc_mdl_thd_map w !! key = Some thd -> is_Some (contexts w !! thd);
  inv_fresh : forall thd c, contexts w !! thd = Some c -> thd < next_thd w;
  inv_inj : forall k1 k2 thd, g_ctc_mdl_thd_map w !! k1 = Some thd -> g_ctc_mdl_thd_map w !! k2 = Some thd -> k1 = k2;
  inv_stored : forall thd o, g_ctc_mdl_ticket_maps w !! thd = Some o ->
    exists m T, o = Some m /\ m <> ∅ /\ has thd w T /\ forall k t, m !! k = Some t -> exists ty, T !! t = Some (k, ty) }.

(** [thd] is the thread of the session [key]. *)
Definition at_thd (key thd : Z) (w : world) : Prop := inv w /\ g_ctc_mdl_thd_map w !! key = Some thd.

Lemma at_has key thd w : at_thd key thd w -> exists T, has thd w T.
Proof. intros [Hi Hk]. destruct (inv_thd _ Hi _ _ Hk) as [c Hc]. by exists (tickets c), c. Qed.

Lemma has_same thd thd' w w' T : same thd w w' -> thd' <> thd -> has thd' w T -> has thd' w' T.
Proof. intros S Hne (c & Hc & Ht). exists c. by rewrite (same_others _ _ _ S _ Hne). Qed.

(** A thread gets more locks. *)
Lemma inv_runs thd w w' T T' ev : inv w -> has thd w T -> runs thd w w' T' ev -> T ⊆ T' -> inv w'.
Proof.
  intros [I1 I2 I3 I4] Hh [S Hh' _] Hsub. pose proof Hh' as (c' & Hc' & HT'). pose proof Hh as (c & Hc & HT).
  constructor.
  - intros key thd1. rewrite (same_map _ _ _ S). intros Hk. destruct (decide (thd1 = thd)) as [->|Hne]; [by eexists|].
    rewrite (same_others _ _ _ S _ Hne). by eapply I1.
  - intros thd1 c1. rewrite (same_next _ _ _ S). destruct (decide (thd1 = thd)) as [->|Hne]; [intros _; by eapply I2|].
    rewrite (same_others _ _ _ S _ Hne). apply I2.
  - rewrite (same_map _ _ _ S). apply I3.
  - rewrite (same_tickets _ _ _ S). intros thd1 o Ho. destruct (I4 _ _ Ho) as (m & T1 & -> & Hm & Hh1 & Hs).
    destruct (decide (thd1 = thd)) as [->|Hne].
    + exists m, T'. split; [done|]. split; [done|]. split; [done|]. intros k t Hkt. destruct (Hs _ _ Hkt) as [ty Hty].
      exists ty. eapply lookup_weaken; [exact Hty|]. destruct Hh1 as (c1 & Hc1 & <-). rewrite Hc in Hc1. injection Hc1 as <-.
      by rewrite HT.
    + exists m, T1. split; [done|]. split; [done|]. split; [by eapply has_same|done].
Qed.

Lemma at_runs key thd w w' T T' ev :
  at_thd key thd w -> has thd w T -> runs thd w w' T' ev -> T ⊆ T' -> at_thd key thd w'.
Proof.
  intros [Hi Hk] Hh Hr Hs. split; [by eapply inv_runs|]. by rewrite (same_map _ _ _ (runs_same _ _ _ _ _ Hr)).
Qed.

Lemma at_invalidates key thd m ev : invalidates E m thd ev -> total (at_thd key thd) m (fun _ => at_thd key thd).
Proof.
  intros Hm w Hw. destruct (at_has _ _ _ Hw) as [T Hh]. destruct (Hm w T Hh) as (e & w' & T' & H & Hr & Hs & _).
  exists e, w'. split; [done|]. by eapply at_runs.
Qed.

(** Changes of what the invariant does not look at *)
Lemma at_routines key thd m : total (at_thd key thd) (modify (fun w => set_routine_maps (m w) w)) (fun _ => at_thd key thd).
Proof. apply total_modify. intros w [[I1 I2 I3 I4] Hk]. by repeat constructor. Qed.
Lemma at_schemas key thd m : total (at_thd key thd) (modify (fun w => set_schema_maps (m w) w)) (fun _ => at_thd key thd).
Proof. apply total_modify. intros w [[I1 I2 I3 I4] Hk]. by repeat constructor. Qed.
Lemma at_call key thd ev : total (at_thd key thd) (call E ev) (fun _ => at_thd key thd).
Proof. intros w [[I1 I2 I3 I4] Hk]. do 2 eexists. split; [reflexivity|]. by repeat constructor. Qed.

Lemma at_ret {A} key thd (a : A) : total (at_thd key thd) (ret a) (fun _ => at_thd key thd).
Proof. intros w Hw. by exists a, w. Qed.

Lemma at_get {A} key thd (k : world -> M A) (Q : A -> world -> Prop) :
  (forall w, total (at_thd key thd) (k w) Q) -> total (at_thd key thd) (get ≫= k) Q.
Proof. intros H w Hw. exact (H w w Hw). Qed.

Lemma at_release_pending key thd error :
  total (at_thd key thd) (release_routine_and_schema E thd error) (fun _ => at_thd key thd).
Proof.
  unfold release_routine_and_schema. destruct (negb _); [apply at_ret|]. apply at_get. intros w.
  eapply total_bind; [apply total_fold; intros; eapply at_invalidates, routine_run|]. intros e1.
  eapply total_bind; [apply at_routines|]. intros [].
  eapply total_bind; [apply total_fold; intros; eapply at_invalidates, schema_run|]. intros e2.
  eapply total_bind; [apply at_schemas|]. intros []. apply at_ret.
Qed.

(** ** The end of a session *)

Lemma inv_delete key thd w : at_thd key thd w -> forall o,
  inv (mk_world (delete key (g_ctc_mdl_thd_map w)) (delete thd (g_ctc_mdl_ticket_maps w)) (g_ctc_invalidate_routine_maps w)
    (g_ctc_invalidate_schema_maps w) (delete thd (contexts w)) (next_thd w) o (w_log w)).
Proof.
  intros [[I1 I2 I3 I4] Hk] o. constructor; cbn.
  - intros key1 thd1 [Hne H1]%lookup_delete_Some. rewrite lookup_delete_ne; [by eapply I1|].
    intros ->. by apply Hne, (I3 key key1 thd1).
  - intros thd1 c [_ H1]%lookup_delete_Some. by eapply I2.
  - intros k1 k2 thd1 [_ H1]%lookup_delete_Some [_ H2]%lookup_delete_Some. by eapply I3.
  - intros thd1 o1 [Hne H1]%lookup_delete_Some. destruct (I4 _ _ H1) as (m & T & -> & Hm & (c & Hc & HT) & Hs).
    exists m, T. split; [done|]. split; [done|]. split; [|done]. exists c. cbn. by rewrite lookup_delete_ne.
Qed.

(** The tickets that the end of the thread does not release *)
Definition left_over (T : gmap Z (mdl_key * Z)) : list (mdl_key * Z) :=
  map snd (map_to_list (filter (fun x => explicit_lock x.2.1 x.2.2 = false) T)).

Lemma drop_thread_run key thd w T : at_thd key thd w -> has thd w T ->
  (release_ctc_thd_tickets thd ;; release_ctc_thd_and_explicit_locks thd ;;
   modify (fun w => set_thd_map (delete key (g_ctc_mdl_thd_map w)) w)) w
  = Some (tt, mk_world (delete key (g_ctc_mdl_thd_map w)) (delete thd (g_ctc_mdl_ticket_maps w))
      (g_ctc_invalidate_routine_maps w) (g_ctc_invalidate_schema_maps w) (delete thd (contexts w)) (next_thd w)
      (left_over T ++ orphans w) (w_log w)).
Proof.
  intros Hw (c & Hc & <-). unfold release_ctc_thd_tickets, release_ctc_thd_and_explicit_locks, change_context, context_of, left_over.
  exec. cbn. rewrite Hc. cbn. rewrite lookup_insert_eq. cbn. rewrite release_locks_tickets, delete_insert_eq. done.
Qed.

Lemma release_thd_run key thd : total (at_thd key thd) (release_thd E key thd) (fun _ w' => inv w' /\ g_ctc_mdl_thd_map w' !! key = None).
Proof.
  unfold release_thd. eapply total_bind; [apply at_release_pending|]. intros e w Hw.
  destruct (at_has _ _ _ Hw) as [T HT]. do 2 eexists. split; [exact (drop_thread_run key thd w T Hw HT)|].
  split; [by apply inv_delete|]. cbn. apply lookup_delete_eq.
Qed.

Lemma release_by_key_run key : total inv (release_ctc_mdl_thd_by_key E key) (fun _ => inv).
Proof.
  intros w Hw. unfold release_ctc_mdl_thd_by_key. exec. destruct (g_ctc_mdl_thd_map w !! key) as [thd|] eqn:Hk; [|by exists tt, w].
  destruct (release_thd_run key thd w (conj Hw Hk)) as (u & w' & H & Hi & _). by exists u, w'.
Qed.

Lemma close_run t i : total inv (close_ctc_mdl_thd E t i) (fun _ => inv).
Proof.
  assert (Hwhere : forall p, total inv (release_where E p) (fun _ => inv)).
  { intros p w Hw. unfold release_where. refine (total_for _ _ inv _ w Hw). intros k _.
    destruct (p k); [apply release_by_key_run|]. intros w1 H1. by exists tt, w1. }
  unfold close_ctc_mdl_thd. eapply total_bind with (Q := fun _ => inv).
  - destruct (t =? 0); [|apply release_by_key_run]. destruct (_ =? _); apply Hwhere.
  - intros u w Hw. by exists 0, w.
Qed.

(** ** Locks and their release *)

Definition stored (m : gmap mdl_key Z) (T : gmap Z (mdl_key * Z)) : Prop :=
  forall k t, m !! k = Some t -> exists ty, T !! t = Some (k, ty).

Definition put_map (thd : Z) (m : gmap mdl_key Z) (w : world) : world :=
  set_ticket_maps (if bool_decide (m = ∅) then delete thd (g_ctc_mdl_ticket_maps w)
                   else <[thd := Some m]> (g_ctc_mdl_ticket_maps w)) w.

(** The tickets of [thd] and its map changed. *)
Lemma at_put_map key thd w w1 m T : at_thd key thd w -> same thd w w1 -> has thd w1 T -> stored m T ->
  at_thd key thd (put_map thd m w1).
Proof.
  intros [[I1 I2 I3 I4] Hk] S Hh Hs. pose proof Hh as (c & Hc & HT).
  split; [constructor|]; cbn; rewrite ?(same_map _ _ _ S), ?(same_next _ _ _ S), ?(same_tickets _ _ _ S); try done.
  - intros key1 thd1 H1. destruct (decide (thd1 = thd)) as [->|Hne]; [by eexists|].
    rewrite (same_others _ _ _ S _ Hne). by eapply I1.
  - intros thd1 c1 H1. destruct (decide (thd1 = thd)) as [->|Hne].
    + destruct (I1 _ _ Hk) as [c0 Hc0]. by eapply I2.
    + rewrite (same_others _ _ _ S _ Hne) in H1. by eapply I2.
  - intros thd1 o Ho.
    assert (Hcase : (thd1 = thd /\ o = Some m /\ m <> ∅) \/ (thd1 <> thd /\ g_ctc_mdl_ticket_maps w !! thd1 = Some o)).
    { case_bool_decide as Hm; [apply lookup_delete_Some in Ho as [Hne Ho]; right; split; [congruence|done]|].
      apply lookup_insert_Some in Ho as [[<- <-]|[Hne Ho]]; [by left|]. right. split; [congruence|done]. }
    destruct Hcase as [(-> & -> & Hm)|[Hne H1]]; [by exists m, T|].
    destruct (I4 _ _ H1) as (m1 & T1 & -> & Hm1 & Hh1 & Hs1). exists m1, T1. split; [done|]. split; [done|].
    split; [exact (has_same _ _ _ _ _ S Hne Hh1)|done].
Qed.

(** A thread that is there, or that was allocated *)
Lemma at_init_some key w thd w1 : inv w -> ctc_init_thd E key w = Some (thd, w1) -> at_thd key thd w1.
Proof.
  intros Hw. unfold ctc_init_thd, allocate, call. exec. destruct (g_ctc_mdl_thd_map w !! key) as [thd'|] eqn:Hk; [by intros [= <- <-]|].
  destruct (oracle E (w_log w) (New_thd key)); [done|]. intros [= <- <-].
  destruct Hw as [I1 I2 I3 I4]. split; [constructor|]; cbn.
  - intros key1 thd1 [[<- <-]|[Hne H1]]%lookup_insert_Some; [rewrite lookup_insert_eq; by eexists|].
    destruct (I1 _ _ H1) as [c Hc]. destruct (decide (thd1 = next_thd w)) as [->|]; [rewrite lookup_insert_eq; by eexists|].
    rewrite lookup_insert_ne by done. by eexists.
  - intros thd1 c [[<- <-]|[Hne H1]]%lookup_insert_Some; [lia|]. apply I2 in H1. lia.
  - intros k1 k2 thd1 [[<- <-]|[Hn1 H1]]%lookup_insert_Some [[<- H2]|[Hn2 H2]]%lookup_insert_Some; [done| | |by eapply I3].
    + destruct (I1 _ _ H2) as [c Hc]. apply I2 in Hc. lia.
    + subst thd1. destruct (I1 _ _ H1) as [c Hc]. apply I2 in Hc. lia.
  - intros thd1 o H1. destruct (I4 _ _ H1) as (m & T & -> & Hm & (c & Hc & HT) & Hs). exists m, T. split; [done|].
    split; [done|]. split; [|done]. exists c. cbn. rewrite lookup_insert_ne; [done|]. intros <-. apply I2 in Hc. lia.
  - apply lookup_insert_eq.
Qed.

Lemma init_some key w : memory E -> exists thd w1, ctc_init_thd E key w = Some (thd, w1).
Proof.
  intros Hm. unfold ctc_init_thd, allocate, call. exec. destruct (g_ctc_mdl_thd_map w !! key) as [thd'|]; [by do 2 eexists|].
  rewrite Hm by done. by do 2 eexists.
Qed.

Lemma at_init key : memory E -> total inv (ctc_init_thd E key) (fun thd => at_thd key thd).
Proof.
  intros Hm w Hw. destruct (init_some key w Hm) as (thd & w1 & H). exists thd, w1. split; [done|]. by apply (at_init_some key w).
Qed.

Lemma at_allocate key thd ev : (forall l, oracle E l ev = false) ->
  total (at_thd key thd) (allocate E ev) (fun _ => at_thd key thd).
Proof.
  intros Ho w [[I1 I2 I3 I4] Hk]. unfold allocate, call. exec. rewrite Ho. do 2 eexists. split; [reflexivity|].
  by repeat constructor.
Qed.

(** The map of a thread, empty when there is none *)
Definition map_of (thd : Z) (w : world) : gmap mdl_key Z :=
  match g_ctc_mdl_ticket_maps w !! thd with Some (Some m) => m | _ => ∅ end.

Lemma map_stored thd w T : inv w -> has thd w T -> stored (map_of thd w) T.
Proof.
  intros [_ _ _ I4] (c & Hc & HT) k t. unfold map_of.
  destruct (g_ctc_mdl_ticket_maps w !! thd) as [o|] eqn:Ho; [|by rewrite lookup_empty].
  destruct (I4 _ _ Ho) as (m & T1 & -> & _ & (c1 & Hc1 & HT1) & Hs). rewrite Hc in Hc1. injection Hc1 as <-.
  rewrite HT in HT1. subst T1. apply Hs.
Qed.

(** A ticket more *)
Definition with_ticket (k : mdl_key) (t : Z) (m : gmap mdl_key Z) : gmap mdl_key Z :=
  match m !! k with Some _ => m | None => <[k := t]> m end.

Lemma with_ticket_nonempty k t m : with_ticket k t m <> ∅.
Proof.
  unfold with_ticket. destruct (m !! k) eqn:Hk; [|apply insert_non_empty]. intros ->. by rewrite lookup_empty in Hk.
Qed.

Lemma insert_ticket_run key thd k t w T : at_thd key thd w -> has thd w T -> (exists ty, T !! t = Some (k, ty)) ->
  insert_ticket thd k t w = Some (tt, put_map thd (with_ticket k t (map_of thd w)) w).
Proof.
  intros [[_ _ _ I4] _] _ _. unfold insert_ticket, ticket_map, put_map, map_of. rewrite bool_decide_eq_false_2 by apply with_ticket_nonempty.
  exec. destruct (g_ctc_mdl_ticket_maps w !! thd) as [o|] eqn:Ho.
  - destruct (I4 _ _ Ho) as (m & T1 & -> & _). done.
  - unfold with_ticket. rewrite lookup_empty. unfold set_ticket_maps. cbn. by rewrite insert_insert_eq.
Qed.

Lemma stored_with k t m T : stored m T -> (exists ty, T !! t = Some (k, ty)) -> stored (with_ticket k t m) T.
Proof.
  intros Hs Ht k1 t1. unfold with_ticket. destruct (m !! k) eqn:Hk; [apply Hs|].
  intros [[<- <-]|[_ H]]%lookup_insert_Some; [done|by apply Hs].
Qed.

(** A lock: not granted, or with a new ticket of the thread *)
Lemma lock_run tch k ty w : inv w -> is_Some (ctc_init_thd E (thd_key tch) w) -> exists b w', lock_thd E tch (k, ty) w = Some (b, w') /\ inv w' /\
  exists thd, g_ctc_mdl_thd_map w' !! thd_key tch = Some thd /\
    (b = false -> exists T t, has thd w' (<[t := (k, ty)]> T) /\ T !! t = None /\ map_of thd w' !! k <> None).
Proof.
  intros Hw [[thd w1] H1]. unfold lock_thd. pose proof (at_init_some _ _ _ _ Hw H1) as A1. rewrite (bind_some _ _ _ _ _ H1).
  destruct (at_has _ _ _ A1) as [T HT]. destruct (acquire_run E thd k ty w1 T HT) as (r & w2 & H2 & G). cbn [fst snd].
  rewrite (bind_some _ _ _ _ _ H2). destruct r as [t|].
  - destruct G as (_ & Hn & R). pose proof (at_runs _ _ _ _ _ _ _ A1 HT R (insert_subseteq _ _ _ Hn)) as A2.
    assert (Hti : exists ty0, (<[t := (k, ty)]> T) !! t = Some (k, ty0)) by (exists ty; apply lookup_insert_eq).
    pose proof (insert_ticket_run _ _ k t _ _ A2 (runs_has _ _ _ _ _ R) Hti) as H3. rewrite (bind_some _ _ _ _ _ H3).
    assert (A3 : at_thd (thd_key tch) thd (put_map thd (with_ticket k t (map_of thd w2)) w2)).
    { apply (at_put_map _ _ w2 _ _ (<[t := (k, ty)]> T) A2); [apply same_refl|by apply R|].
      apply stored_with; [|done]. apply (map_stored _ _ _ (proj1 A2)). by apply R. }
    do 2 eexists. split; [reflexivity|]. split; [by apply A3|]. exists thd. split; [by apply A3|]. intros _.
    exists T, t. split; [by apply R|]. split; [done|]. unfold map_of at 1, put_map at 1. cbn.
    rewrite bool_decide_eq_false_2, lookup_insert_eq by apply with_ticket_nonempty. unfold with_ticket.
    destruct (map_of thd w2 !! k) as [t0|] eqn:Hk; [by rewrite Hk|by rewrite lookup_insert_eq].
  - destruct G as [_ R]. pose proof (at_runs _ _ _ _ _ _ _ A1 HT R (reflexivity _)) as A2. do 2 eexists.
    split; [reflexivity|]. split; [by apply A2|]. exists thd. split; [by apply A2|done].
Qed.

(** All locks of a name *)
Lemma unlock_run key thd k w : at_thd key thd w -> forall T, has thd w T ->
  exists w', ctc_mdl_unlock_thd_by_ticket thd k w = Some (tt, w') /\ at_thd key thd w' /\
    (forall thd', thd' <> thd -> contexts w' !! thd' = contexts w !! thd') /\
    has thd w' (if decide (is_Some (map_of thd w !! k)) then filter (fun x => x.2.1 <> k) T else T) /\
    map_of thd w' !! k = None.
Proof.
  intros Hw T HT. pose proof Hw as [[_ _ _ I4] _]. unfold ctc_mdl_unlock_thd_by_ticket, map_of. exec.
  destruct (g_ctc_mdl_ticket_maps w !! thd) as [o|] eqn:Ho.
  2:{ exists w. split; [done|]. split; [done|]. split; [done|]. rewrite Ho. cbn.
      destruct (decide (is_Some _)) as [[? H]|]; [by rewrite lookup_empty in H|done]. }
  destruct (I4 _ _ Ho) as (m & T1 & -> & _ & HT1 & Hs).
  assert (T1 = T) as -> by (destruct HT as (c & Hc & <-), HT1 as (c1 & Hc1 & <-); rewrite Hc in Hc1; by injection Hc1 as ->).
  destruct (m !! k) as [t|] eqn:Hk.
  2:{ exists w. rewrite Ho. destruct (decide _) as [[? ?]|]; [done|]. by rewrite Hk. }
  destruct (Hs _ _ Hk) as [ty Hty]. destruct HT as (c & Hc & <-).
  unfold change_context, context_of. exec. rewrite Hc. cbn.
  set (w1 := set_contexts (<[thd := release_all_locks_for_name c t]> (contexts w)) w).
  assert (S1 : same thd w w1) by (constructor; try done; intros t' Hne; cbn; by rewrite lookup_insert_ne).
  assert (H1 : has thd w1 (filter (fun x => x.2.1 <> k) (tickets c))).
  { exists (release_all_locks_for_name c t). cbn. rewrite lookup_insert_eq. split; [done|]. by eapply release_name_tickets. }
  exists (put_map thd (delete k m) w1). split; [done|].
  assert (Hst : stored (delete k m) (filter (fun x => x.2.1 <> k) (tickets c))).
  { intros k1 t1 [Hne Hm]%lookup_delete_Some. destruct (Hs _ _ Hm) as [ty1 Ht1]. exists ty1.
    apply map_lookup_filter_Some. split; [done|]. cbn. congruence. }
  split; [exact (at_put_map _ _ _ _ _ _ Hw S1 H1 Hst)|]. split; [apply S1|].
  rewrite decide_True by (by eexists). split; [exact H1|].
  unfold put_map. cbn. case_bool_decide as Hm; [by rewrite lookup_delete_eq, lookup_empty|].
  rewrite lookup_insert_eq. apply lookup_delete_eq.
Qed.

(** The loop over the tickets of tables *)
Definition table_lock (ty : Z) : bool := (ty =? MDL_SHARED_READ_ONLY) || (ty =? MDL_SHARED_NO_READ_WRITE).
Definition matches (f : option mdl_key) (k : mdl_key) : bool :=
  match f with None => true | Some k' => bool_decide (k = k') end.

Lemma matching_run thd f l : forall m T w, has thd w T -> stored m T -> (forall k t, (k, t) ∈ l -> m !! k = Some t) ->
  NoDup (l.*1) ->
  exists m' T' w', release_matching thd l f m w = Some (m', w') /\ runs thd w w' T' [] /\ stored m' T' /\ m' ⊆ m /\ T' ⊆ T /\
    forall k t ty, (k, t) ∈ l -> T !! t = Some (k, ty) -> matches f k && table_lock ty = true -> m' !! k = None.
Proof.
  induction l as [|[k t] l IH]; intros m T w Hh Hs Hl Hnd; cbn [release_matching].
  { exists m, T, w. split; [done|]. split; [by apply runs_refl|]. repeat split; try done. intros k t ty H. by inversion H. }
  cbn [fmap list_fmap] in Hnd. inversion Hnd as [|? ? Hk Hnd1]; subst; clear Hnd; rename Hnd1 into Hnd.
  assert (Hkl : forall t', (k, t') ∉ l). { intros t' H. apply Hk. apply list_elem_of_fmap. by exists (k, t'). }
  pose proof Hh as (c & Hc & HT). rewrite (context_step _ _ _ _ Hc).
  destruct (Hs k t (Hl _ _ (list_elem_of_here _ _))) as [ty Hty]. rewrite HT, Hty. cbn [deref].
  unfold mbind at 1, ST_bind at 1. cbn [ret mret ST_ret snd].
  change (match f with Some k' => bool_decide (k = k') | None => true end) with (matches f k).
  change ((ty =? MDL_SHARED_READ_ONLY) || (ty =? MDL_SHARED_NO_READ_WRITE)) with (table_lock ty).
  destruct (matches f k && table_lock ty) eqn:Hm.
  - set (w1 := set_contexts (<[thd := release_lock c t]> (contexts w)) w).
    assert (R1 : runs thd w w1 (delete t T) []).
    { constructor; [|exists (release_lock c t); cbn; by rewrite lookup_insert_eq, release_tickets, HT|by exists []].
      constructor; try done. intros t' Hne. cbn. by rewrite lookup_insert_ne. }
    change ((set_context thd (release_lock c t) ;; release_matching thd l f (delete k m)) w)
      with (release_matching thd l f (delete k m) w1).
    destruct (IH (delete k m) (delete t T) w1) as (m' & T' & w' & Hr & R & Hs' & Hsub & Htsub & Hdone); [by apply R1| | |done|].
    + intros k1 t1 [Hne H1]%lookup_delete_Some. destruct (Hs _ _ H1) as [ty1 Ht1]. exists ty1. rewrite lookup_delete_ne; [done|].
      intros ->. congruence.
    + intros k1 t1 Hin. rewrite lookup_delete_ne; [apply Hl; by right|]. intros <-. by apply (Hkl t1).
    + exists m', T', w'. split; [done|]. split; [by apply (runs_nil _ _ _ _ _ _ _ R1)|]. split; [done|].
      split; [etrans; [exact Hsub|apply delete_subseteq]|]. split; [etrans; [exact Htsub|apply delete_subseteq]|].
      intros k1 t1 ty1 [[= -> ->]|Hin]%elem_of_cons Ht1 Hm1.
      * destruct (m' !! k) as [t2|] eqn:Hk2; [|done]. apply (lookup_weaken _ _ _ _ Hk2) in Hsub. by rewrite lookup_delete_eq in Hsub.
      * apply (Hdone k1 t1 ty1 Hin); [|done]. rewrite lookup_delete_ne; [done|]. intros ->. assert (k1 = k) as -> by congruence.
        by apply (Hkl t1).
  - destruct (IH m T w Hh Hs) as (m' & T' & w' & Hr & R & Hs' & Hsub & Htsub & Hdone); [|done|].
    { intros k1 t1 Hin. apply Hl. by right. }
    exists m', T', w'. split; [done|]. do 4 (split; [done|]).
    intros k1 t1 ty1 [[= -> ->]|Hin]%elem_of_cons Ht1 Hm1; [congruence|by eapply Hdone].
Qed.

Lemma unlock_tables_run tch f : total inv (ctc_mdl_unlock_tables_thd E tch f) (fun _ => inv).
Proof.
  intros w Hw. unfold ctc_mdl_unlock_tables_thd. destruct (is_same_node E tch); [by exists tt, w|].
  unfold mbind at 1, ST_bind at 1, get. cbn iota beta.
  destruct (g_ctc_mdl_thd_map w !! thd_key tch) as [thd|] eqn:Hk; [|by exists tt, w].
  destruct (g_ctc_mdl_ticket_maps w !! thd) as [o|] eqn:Ho; [|by exists tt, w].
  destruct (inv_stored _ Hw _ _ Ho) as (m & T & -> & _ & HT & Hs).
  destruct (matching_run thd f (map_to_list m) m T w HT Hs) as (m' & T' & w' & Hr & R & Hs' & _).
  { intros k t. apply elem_of_map_to_list. } { apply NoDup_fst_map_to_list. }
  unfold ctc_release_mdl_tickets. rewrite (bind_some _ _ _ _ _ Hr). exists tt, (put_map thd m' w'). split; [done|].
  apply (at_put_map (thd_key tch) thd w w' m' T' (conj Hw Hk) (runs_same _ _ _ _ _ R) (runs_has _ _ _ _ _ R) Hs').
Qed.

(** A lock that came to an end had its thread. *)
Lemma lock_had_thread tch rq w x : lock_thd E tch rq w = Some x -> is_Some (ctc_init_thd E (thd_key tch) w).
Proof. destruct x as [b w']. intros H. apply st_bind_inv in H as (thd & w1 & H & _). by exists (thd, w1). Qed.

Lemma lock_total tch rq : memory E -> total inv (lock_thd E tch rq) (fun _ => inv).
Proof.
  intros Hm. destruct rq as [k ty]. intros w Hw. destruct (init_some (thd_key tch) w Hm) as (thd & w1 & H1).
  destruct (lock_run tch k ty w Hw ltac:(by rewrite H1)) as (b & w' & H & Hi & _). by exists b, w'. Qed.

Lemma inv_ret {A} (a : A) : total inv (ret a) (fun _ => inv).
Proof. intros w Hw. by exists a, w. Qed.

Lemma mdl_lock_total tch i : memory E -> total inv (ctc_mdl_lock_thd E tch i) (fun _ => inv).
Proof.
  intros Hm. unfold ctc_mdl_lock_thd. destruct (negb _); [apply inv_ret|].
  destruct (is_same_node E tch); [apply inv_ret|by apply lock_total].
Qed.

Lemma mdl_unlock_total tch i : total inv (ctc_mdl_unlock_thd E tch i) (fun _ => inv).
Proof.
  unfold ctc_mdl_unlock_thd. destruct (negb _); [apply inv_ret|]. destruct (is_same_node E tch); [apply inv_ret|].
  intros w Hw. unfold mbind at 1, ST_bind at 1, get. cbn iota beta.
  destruct (g_ctc_mdl_thd_map w !! thd_key tch) as [thd|] eqn:Hk; [|by exists tt, w].
  destruct (at_has (thd_key tch) thd w (conj Hw Hk)) as [T HT].
  destruct (unlock_run (thd_key tch) thd (ctc_init_mdl_request i).1 w (conj Hw Hk) T HT) as (w' & H & A & _).
  exists tt, w'. split; [done|]. apply A.
Qed.

Lemma by_req_total tch i : memory E -> total inv (ctc_ddl_execute_lock_tables_by_req E tch i) (fun _ => inv).
Proof.
  intros Hm. unfold ctc_ddl_execute_lock_tables_by_req. eapply total_bind; [apply unlock_tables_run|]. intros [].
  destruct (is_same_node E tch); [apply inv_ret|by apply lock_total].
Qed.

Lemma handle_total key thd e o : total (at_thd key thd) (handle_object E thd e o) (fun _ => at_thd key thd).
Proof.
  unfold handle_object. destruct (obj_kind o); try apply at_ret.
  - eapply at_invalidates, table_run.
  - eapply total_bind; [apply at_routines|]. intros []. apply at_ret.
  - eapply total_bind; [apply at_routines|]. intros []. apply at_ret.
  - eapply total_bind; [apply at_schemas|]. intros []. apply at_ret.
  - eapply at_invalidates, tablespace_run.
Qed.
End Invariant.

(** ** All requests *)

Section Requests.
Context `{MS : MdlServer} {ML : MdlLaws} (E : env).

Definition empty_world : world := mk_world ∅ ∅ ∅ ∅ ∅ 0 [] [].

Lemma empty_inv : inv empty_world.
Proof.
  constructor; cbn.
  - intros k t H. by rewrite lookup_empty in H.
  - intros k t H. by rewrite lookup_empty in H.
  - intros k1 k2 t H. by rewrite lookup_empty in H.
  - intros k t H. by rewrite lookup_empty in H.
Qed.

(** A message whose objects can be read *)
Definition readable (r : dd_request) : Prop := is_Some (is_end r) /\ is_Some (objects_of r).
Definition valid (r : remote_request) : Prop := match r with Invalidate _ r => readable r | _ => True end.

Lemma at_weaken {A} key thd (m : M A) : total (at_thd key thd) m (fun _ => at_thd key thd) -> total (at_thd key thd) m (fun _ => inv).
Proof. intros H. eapply total_conseq; [exact H|done|]. by intros a w [Hi _]. Qed.

Lemma invalidate_total tch r : memory E -> readable r ->
  total inv (ctc_invalidate_mysql_dd_cache_req E tch r) (fun _ => inv).
Proof.
  intros Hm [[e He] [objs Hobjs]]. unfold ctc_invalidate_mysql_dd_cache_req.
  destruct (negb _); [apply inv_ret|]. destruct (_ =? _); [apply inv_ret|].
  eapply total_bind; [by apply at_init|]. intros thd. cbn beta. apply at_weaken.
  destruct (_ && _); [|destruct (is_dcl r)].
  - unfold call_. eapply total_bind; [|intros u; apply at_ret].
    eapply total_bind; [apply at_call|intros b; apply at_ret].
  - eapply total_bind; [apply at_call|]. intros b. eapply total_bind; [|intros u; apply at_ret].
    destruct (is_flush r); [|apply at_ret]. eapply total_bind; [apply at_call|intros c; apply at_ret].
  - rewrite He, Hobjs. cbn [deref]. eapply total_bind; [apply at_ret|]. intros e'.
    eapply total_bind; [apply at_ret|]. intros objs'. eapply total_bind; [apply total_fold; intros; eapply total_bind;
      [apply at_allocate; intros l; by apply Hm|intros []; apply handle_total]|].
    intros b. destruct e'; [apply at_release_pending|apply at_ret].
Qed.

Lemma serve_total r : memory E -> valid r -> total inv (serve E r) (fun _ => inv).
Proof.
  intros Hm. destruct r as [tch i|tch i|tch r|t i]; cbn [serve valid]; intros Hv.
  - unfold execute_lock_tables. eapply total_bind with (Q := fun _ => inv); [|intros b; apply inv_ret].
    destruct (decide _); [by apply by_req_total|by apply mdl_lock_total].
  - unfold execute_unlock_tables. eapply total_bind with (Q := fun _ => inv).
    + destruct (decide _); [apply unlock_tables_run|apply inv_ret].
    + intros []. eapply total_bind; [apply mdl_unlock_total|intros u; apply inv_ret].
  - eapply total_bind; [by apply invalidate_total|]. intros b. apply inv_ret.
  - apply close_run.
Qed.

(** C28: whatever requests other nodes send, in whatever order, whichever locks
    are granted, as long as the allocations succeed and every message has the
    length that it says: each request is served without a look at a thread or
    a ticket that is null or gone, every ticket that is kept is one that its
    thread holds for just that name, and sessions do not share threads.
    ([null_thread_used] is what happens without memory.) *)
Theorem remote_requests_safe (rs : list remote_request) :
  memory E -> Forall valid rs ->
  exists w, for_each rs (fun r => serve E r ;; ret tt) empty_world = Some (tt, w) /\ inv w.
Proof.
  intros Hm Hv. rewrite List.Forall_forall in Hv.
  assert (Ht : total inv (for_each rs (fun r => serve E r ;; ret tt)) (fun _ => inv)).
  { apply total_for. intros r Hr. eapply total_bind; [by apply serve_total, Hv, list_elem_of_In|]. intros z. apply inv_ret. }
  destruct (Ht _ empty_inv) as ([] & w & H & Hi). by exists w.
Qed.

(** The thread of a new session is allocated with [std::nothrow] and used
    without a look at the pointer: without memory the first request of a
    session is undefined behaviour. *)
Theorem null_thread_used tch i w :
  is_work_flow E = true -> inst_id tch <> ctc_instance_id E -> g_ctc_mdl_thd_map w !! thd_key tch = None ->
  oracle E (w_log w) (New_thd (thd_key tch)) = true ->
  ctc_mdl_lock_thd E tch i w = None.
Proof.
  intros Hf Hn Hk Ho. unfold ctc_mdl_lock_thd, is_same_node. rewrite Hf, (proj2 (Z.eqb_neq _ _) Hn). cbn [negb].
  unfold lock_thd, ctc_init_thd, allocate, call. exec. by rewrite Hk, Ho.
Qed.

(** C30: a lock of a name that a statement of another node took here is held by
    the thread of that session, and the unlock that follows leaves it no lock
    of the name (none of LOCK TABLES either), keeps its locks of other names
    and those of all other sessions. *)
Theorem remote_lock_round_trip tch i w w1 :
  inv w -> is_work_flow E = true -> inst_id tch <> ctc_instance_id E ->
  ctc_mdl_lock_thd E tch i w = Some (false, w1) ->
  exists thd T w2, g_ctc_mdl_thd_map w1 !! thd_key tch = Some thd /\ has thd w1 T /\
    (exists t, T !! t = Some (ctc_init_mdl_request i)) /\
    ctc_mdl_unlock_thd E tch i w1 = Some (tt, w2) /\
    has thd w2 (filter (fun x => x.2.1 <> (ctc_init_mdl_request i).1) T) /\
    forall thd', thd' <> thd -> contexts w2 !! thd' = contexts w1 !! thd'.
Proof.
  intros Hw Hf Hn H. unfold ctc_mdl_lock_thd, is_same_node in H. rewrite Hf in H. cbn [negb] in H.
  rewrite (proj2 (Z.eqb_neq _ _) Hn) in H. destruct (ctc_init_mdl_request i) as [k ty] eqn:Hi.
  destruct (lock_run E tch k ty w Hw (lock_had_thread _ _ _ _ _ H)) as (b & w' & Hl & Hi1 & thd & Hthd & Hb).
  rewrite Hl in H. injection H as -> ->.
  destruct (Hb eq_refl) as (T & t & HT & Hfr & Hmap).
  destruct (unlock_run (thd_key tch) thd k w1 (conj Hi1 Hthd) _ HT) as (w2 & Hu & A2 & Ho & Hh2 & _).
  exists thd, (<[t := (k, ty)]> T), w2. split; [done|]. split; [done|]. split; [exists t; apply lookup_insert_eq|].
  split; [|split; [|done]].
  - unfold ctc_mdl_unlock_thd, is_same_node. rewrite Hf. cbn [negb]. rewrite (proj2 (Z.eqb_neq _ _) Hn).
    unfold mbind, ST_bind, get. cbn beta iota. rewrite Hthd, Hi. exact Hu.
  - rewrite decide_True in Hh2; [exact Hh2|]. by apply not_eq_None_Some.
Qed.

(** C39: when LOCK TABLES fails on one node, the connector asks the others to
    unlock with the kind [TL_UNLOCK], 0, where the name space belongs; that
    request changes nothing here, and the lock of the table stays. *)
Theorem lock_tables_undo_ignored tch db tab ty w w1 :
  inv w -> is_work_flow E = true -> inst_id tch <> ctc_instance_id E ->
  ctc_ddl_execute_lock_tables_by_req E tch (mk_info db tab DdlRewriter.SQLCOM_LOCK_TABLES ty) w = Some (false, w1) ->
  (forall thd, map_of thd w1 !! mk_key GLOBAL db tab = None) ->
  execute_unlock_tables E tch (mk_info db tab DdlRewriter.SQLCOM_LOCK_TABLES 0) w1 = Some (0, w1) /\
  exists thd T t, g_ctc_mdl_thd_map w1 !! thd_key tch = Some thd /\ has thd w1 T /\ T !! t = Some (mk_key TABLE db tab, ty).
Proof.
  intros Hw Hf Hn H Hg. unfold ctc_ddl_execute_lock_tables_by_req, is_same_node in H.
  destruct (unlock_tables_run E tch (Some (mk_key TABLE db tab)) w Hw) as ([] & w0 & H0 & Hi0).
  change ((table_request (mk_info db tab DdlRewriter.SQLCOM_LOCK_TABLES ty)).1) with (mk_key TABLE db tab) in H.
  rewrite (bind_some _ _ _ _ _ H0), (proj2 (Z.eqb_neq _ _) Hn) in H.
  change (table_request _) with (mk_key TABLE db tab, ty) in H.
  destruct (lock_run E tch (mk_key TABLE db tab) ty w0 Hi0 (lock_had_thread _ _ _ _ _ H)) as (b & w' & Hl & Hi1 & thd & Hthd & Hb).
  rewrite Hl in H.
  injection H as -> ->. destruct (Hb eq_refl) as (T & t & HT & _ & _). split.
  - unfold execute_unlock_tables, ctc_mdl_unlock_thd, is_same_node. cbn [sql_type]. rewrite decide_False by done. rewrite Hf. cbn [negb].
    rewrite (proj2 (Z.eqb_neq _ _) Hn). unfold mbind, ST_bind, ret, mret, ST_ret, get. cbn beta iota. rewrite Hthd.
    change ((ctc_init_mdl_request (mk_info db tab DdlRewriter.SQLCOM_LOCK_TABLES 0)).1) with (mk_key GLOBAL db tab).
    specialize (Hg thd). unfold map_of in Hg. unfold ctc_mdl_unlock_thd_by_ticket, mbind, ST_bind, get. cbn beta iota.
    destruct (g_ctc_mdl_ticket_maps w1 !! thd) as [o|] eqn:Ho; [|done].
    destruct (inv_stored _ Hi1 _ _ Ho) as (m & T1 & -> & _). by rewrite Hg.
  - exists thd, (<[t := (mk_key TABLE db tab, ty)]> T), t. split; [done|]. split; [done|]. apply lookup_insert_eq.
Qed.

(** Nothing waits for the last message. *)
Lemma nothing_pending key thd w T e : at_thd key thd w -> has thd w T ->
  default [] (g_ctc_invalidate_routine_maps w !! thd) = [] -> default [] (g_ctc_invalidate_schema_maps w !! thd) = [] ->
  exists w', release_routine_and_schema E thd e w = Some (e, w') /\ at_thd key thd w' /\ has thd w' T.
Proof.
  intros [Hi Hk] Hh Hr Hs. unfold release_routine_and_schema. destruct (metadata_normalized E); cbn [negb]; [|by exists w].
  exec. rewrite Hr, Hs. cbn. eexists. split; [reflexivity|]. split; [|exact Hh]. split; [|exact Hk].
  destruct Hi as [I1 I2 I3 I4]. by constructor.
Qed.

(** A table cannot be removed from the cache because its lock is not
    granted: the lock of the schema that was taken before stays with the thread,
    in no map, and the end of the session leaves it behind. *)
Theorem schema_lock_orphaned key thd schema name w T :
  at_thd key thd w -> has thd w T ->
  default [] (g_ctc_invalidate_routine_maps w !! thd) = [] -> default [] (g_ctc_invalidate_schema_maps w !! thd) = [] ->
  (forall c, contexts w !! thd = Some c -> owns_equal_or_stronger_lock c (schema_key schema) MDL_INTENTION_EXCLUSIVE = false) ->
  (forall c, owns_equal_or_stronger_lock c (mk_key TABLE schema name) MDL_EXCLUSIVE = false) ->
  oracle E (w_log w) (Acquire thd (schema_key schema) MDL_INTENTION_EXCLUSIVE) = false ->
  (forall l, oracle E l (Acquire thd (mk_key TABLE schema name) MDL_EXCLUSIVE) = true) ->
  exists w1 w2, invalidate_table E thd schema name w = Some (true, w1) /\
    release_ctc_mdl_thd_by_key E key w1 = Some (tt, w2) /\ (schema_key schema, MDL_INTENTION_EXCLUSIVE) ∈ orphans w2.
Proof.
  intros Hw HT Hpr Hps Ho1 Ho2 Hgrant Hrefuse.
  assert (H1 : exists t w1, take_lock E thd (schema_key schema) MDL_INTENTION_EXCLUSIVE w = Some (Some (Some t), w1) /\
    T !! t = None /\ runs thd w w1 (<[t := (schema_key schema, MDL_INTENTION_EXCLUSIVE)]> T) []).
  { pose proof HT as (c & Hc & _). unfold take_lock. rewrite (context_step _ _ _ _ Hc), (Ho1 _ Hc).
    destruct (acquire_run E thd (schema_key schema) MDL_INTENTION_EXCLUSIVE w T HT) as (r & w1 & Hr & G).
    rewrite (bind_some _ _ _ _ _ Hr). destruct r as [t|]; [|destruct G; congruence]. destruct G as (_ & Hn & R). by exists t, w1. }
  destruct H1 as (t & w1 & H1 & Hn & R1). pose proof (at_runs _ _ _ _ _ _ _ Hw HT R1 (insert_subseteq _ _ _ Hn)) as A1.
  assert (H2 : exists w2, take_lock E thd (mk_key TABLE schema name) MDL_EXCLUSIVE w1 = Some (None, w2) /\
    runs thd w1 w2 (<[t := (schema_key schema, MDL_INTENTION_EXCLUSIVE)]> T) []).
  { pose proof (runs_has _ _ _ _ _ R1) as (c & Hc & Ht). unfold take_lock. rewrite (context_step _ _ _ _ Hc), Ho2.
    destruct (acquire_run E thd (mk_key TABLE schema name) MDL_EXCLUSIVE w1 _ (runs_has _ _ _ _ _ R1)) as (r & w2 & Hr & G).
    rewrite (bind_some _ _ _ _ _ Hr). destruct r as [t'|]; destruct G as [Hor G]; [by rewrite Hrefuse in Hor|]. by exists w2. }
  destruct H2 as (w2 & H2 & R2). pose proof (at_runs _ _ _ _ _ _ _ A1 (runs_has _ _ _ _ _ R1) R2 (reflexivity _)) as A2.
  destruct (nothing_pending key thd w2 _ false A2 (runs_has _ _ _ _ _ R2)) as (w3 & H3 & A3 & Hh3).
  { by rewrite (same_routines _ _ _ (runs_same _ _ _ _ _ R2)), (same_routines _ _ _ (runs_same _ _ _ _ _ R1)). }
  { by rewrite (same_schemas _ _ _ (runs_same _ _ _ _ _ R2)), (same_schemas _ _ _ (runs_same _ _ _ _ _ R1)). }
  exists w2. eexists. split; [unfold invalidate_table; by rewrite (bind_some _ _ _ _ _ H1), (bind_some _ _ _ _ _ H2)|].
  unfold release_ctc_mdl_thd_by_key. unfold mbind at 1, ST_bind at 1, get. cbn beta iota. rewrite (proj2 A2).
  unfold release_thd. rewrite (bind_some _ _ _ _ _ H3). split; [exact (drop_thread_run key thd w3 _ A3 Hh3)|].
  cbn [orphans]. apply elem_of_app. left. unfold left_over. apply list_elem_of_fmap.
  exists (t, (schema_key schema, MDL_INTENTION_EXCLUSIVE)). split; [done|]. apply elem_of_map_to_list, map_lookup_filter_Some.
  split; [apply lookup_insert_eq|done].
Qed.

(** ** Messages: round trip *)

(** A name that is sent whole *)
Definition sendable (s : text) : Prop := (length s < DdlRewriter.SMALL_RECORD_SIZE - 1)%nat /\ Forall (fun c => code c <> 0) s.
Definition sendable_obj (o : obj_entry) : Prop := sendable (obj_first o) /\ sendable (obj_second o).

Lemma c_text_id s : Forall (fun c => code c <> 0) s -> DdlRewriter.c_text s = s.
Proof.
  induction 1 as [|c s Hc _ IH]; [done|]. cbn [DdlRewriter.c_text]. by rewrite (proj2 (Z.eqb_neq _ _) Hc), IH.
Qed.

Lemma chr_code c : chr (code c) = c.
Proof. unfold chr, code. rewrite Nat2Z.id. apply ascii_nat_embedding. Qed.

Lemma c_string_app s rest : Forall (fun c => code c <> 0) s -> c_string (map code s ++ 0 :: rest) = Some s.
Proof.
  induction 1 as [|c s Hc _ IH]; [done|]. cbn [map app c_string]. rewrite (proj2 (Z.eqb_neq _ _) Hc), IH. cbn.
  by rewrite chr_code.
Qed.

Lemma length_strncpy n s : length (strncpy n s) = n.
Proof. unfold strncpy. rewrite length_app, length_replicate, length_map, length_take. lia. Qed.

Lemma c_string_strncpy s l : sendable s ->
  take 127 l = strncpy (DdlRewriter.SMALL_RECORD_SIZE - 1) s -> c_string l = Some s.
Proof.
  intros [Hl Hs] H. unfold strncpy in H. rewrite c_text_id, (take_ge s) in H by (done || lia).
  rewrite length_map in H. rewrite <- (take_drop 127 l), H.
  destruct (DdlRewriter.SMALL_RECORD_SIZE - 1 - length s)%nat as [|n] eqn:Hn; [lia|].
  cbn [replicate]. rewrite <- app_assoc. by apply c_string_app.
Qed.

(** An entry that is written can be read, and nothing else changes. *)
Lemma write_entry_spec b off o : 0 <= off -> off + ENTRY_SIZE <= Z.of_nat (length b) -> sendable_obj o ->
  named (obj_kind o) = true ->
  exists b', write_entry b off o = Some b' /\ length b' = length b /\ read_entry b' off = Some o /\
    forall k n, k + n <= off \/ off + ENTRY_SIZE <= k -> rd b' k n = rd b k n.
Proof.
  unfold ENTRY_SIZE, write_entry. intros H0 Hl [Hf Hs] Hnm.
  assert (L : forall s, Z.of_nat (length (strncpy (DdlRewriter.SMALL_RECORD_SIZE - 1) s)) = 127) by (intros; by rewrite length_strncpy).
  destruct (wr_Some b off [obj_code (obj_kind o)]) as [b1 H1]; [lia|cbn; lia|].
  pose proof (length_wr _ _ _ _ H1) as L1.
  destruct (wr_Some b1 (off + 1) (strncpy (DdlRewriter.SMALL_RECORD_SIZE - 1) (obj_first o))) as [b2 H2]; [lia|rewrite L; lia|].
  pose proof (length_wr _ _ _ _ H2) as L2.
  destruct (wr_Some b2 (off + 129) (strncpy (DdlRewriter.SMALL_RECORD_SIZE - 1) (obj_second o))) as [b3 H3]; [lia|rewrite L; lia|].
  pose proof (length_wr _ _ _ _ H3) as L3. exists b3. rewrite H1. cbn [mbind option_bind]. rewrite H2. cbn [mbind option_bind].
  split; [done|]. split; [lia|].
  assert (O3 := rd_wr_other _ _ _ _ off 1 H3). assert (O2 := rd_wr_other _ _ _ _ off 1 H2).
  assert (O1 := rd_wr_other _ _ _ _ (off + 1) 127 H3). rewrite L in O1, O2, O3.
  pose proof (rd_wr_same _ _ _ _ H1) as S1. pose proof (rd_wr_same _ _ _ _ H2) as S2. pose proof (rd_wr_same _ _ _ _ H3) as S3.
  rewrite L in S2, S3. cbn [length] in S1. change (Z.of_nat 1) with 1 in S1. rewrite <- O2, <- O3 in S1 by lia. rewrite <- O1 in S2 by lia.
  split.
  - unfold read_entry. destruct (rd_is_Some b3 off 257) as [m Hm]; [lia..|]. unfold ENTRY_SIZE. rewrite Hm. cbn [mbind option_bind].
    pose proof (rd_sub _ _ _ _ 0 1 Hm) as R0. pose proof (rd_sub _ _ _ _ 1 127 Hm) as R1. pose proof (rd_sub _ _ _ _ 129 127 Hm) as R2.
    rewrite Z.add_0_r, S1 in R0 by lia. rewrite S2 in R1 by lia. rewrite S3 in R2 by lia.
    rewrite (c_string_strncpy (obj_first o) (drop 1 m)) by (done || (symmetry; apply (inj Some), R1; lia)).
    cbn [mbind option_bind].
    rewrite (c_string_strncpy (obj_second o) (drop 129 m)) by (done || (symmetry; apply (inj Some), R2; lia)).
    cbn [mbind option_bind]. specialize (R0 ltac:(lia) ltac:(lia) ltac:(lia)). destruct m as [|z m]; [done|].
    cbn in R0. injection R0 as <-. rewrite obj_of_code_code by done. by destruct o.
  - intros k n Hk. rewrite (rd_wr_other _ _ _ _ k n H3), (rd_wr_other _ _ _ _ k n H2), (rd_wr_other _ _ _ _ k n H1); [done| | |];
      rewrite ?L; cbn [length]; lia.
Qed.

Lemma read_entry_local b b' off : rd b' off ENTRY_SIZE = rd b off ENTRY_SIZE -> read_entry b' off = read_entry b off.
Proof. unfold read_entry. by intros ->. Qed.

Lemma sent_named o o' : sent_entry o = Some o' -> named (obj_kind o') = true.
Proof. unfold sent_entry. destruct (obj_kind o) eqn:Ho; intros [= <-]; by rewrite ?Ho. Qed.

(** The entries of a buffer *)
Definition entries_at (b : list Z) (l : list obj_entry) : Prop :=
  forall i o, l !! i = Some o -> read_entry b (1 + ENTRY_SIZE * Z.of_nat i) = Some o.

Lemma read_objects_at b l : entries_at b l -> forall n i fuel, (length l - i = n)%nat -> (i <= length l)%nat -> (n <= fuel)%nat ->
  read_objects fuel b (1 + ENTRY_SIZE * Z.of_nat (length l)) (1 + ENTRY_SIZE * Z.of_nat i) = Some (drop i l).
Proof.
  intros Hl. induction n as [|n IH]; intros i fuel Hn Hi Hf.
  - assert (i = length l) as -> by lia. rewrite drop_all. destruct fuel; cbn [read_objects]; by rewrite Z.ltb_irrefl.
  - destruct fuel as [|fuel]; [lia|]. cbn [read_objects].
    rewrite (proj2 (Z.ltb_lt _ _)) by (unfold ENTRY_SIZE; lia). cbn [negb].
    destruct (lookup_lt_is_Some_2 l i ltac:(lia)) as [o Ho]. rewrite (Hl _ _ Ho). cbn [mbind option_bind].
    replace (1 + ENTRY_SIZE * Z.of_nat i + ENTRY_SIZE) with (1 + ENTRY_SIZE * Z.of_nat (S i)) by lia.
    rewrite IH by lia. cbn [mbind option_bind]. by rewrite (drop_S _ _ _ Ho).
Qed.

(** A message with these objects *)
Definition carries (r : dd_request) (l : list obj_entry) : Prop :=
  objects_of r = Some l /\ 0 < buff_len r /\ is_dcl r = false /\ mysql_inst_id r = ctc_instance_id E.

(** What the sender keeps: the full messages, and the entries of the one at hand *)
Definition sending (s : sender) (l : list obj_entry) : Prop :=
  let '(b, len, sent) := s in exists prev cur,
    l = concat prev ++ cur /\ Forall2 (fun r l => carries r l /\ is_end r = Some false) sent prev /\
    entries_at b cur /\ len = 1 + ENTRY_SIZE * Z.of_nat (length cur) /\ len <= DD_BROADCAST_RECORD_LENGTH /\
    length b = Z.to_nat DD_BROADCAST_RECORD_LENGTH /\ exists z, rd b 0 1 = Some [z] /\ z <> END_OF_OBJECTS.

Lemma entries_carried flush b cur : entries_at b cur -> carries (request E flush b (1 + ENTRY_SIZE * Z.of_nat (length cur))) cur.
Proof.
  intros H. split; [|unfold ENTRY_SIZE; cbn; split; [lia|done]].
  unfold objects_of, request. cbn [buff buff_len]. pose proof (read_objects_at b cur H (length cur) 0) as R.
  rewrite Z.mul_0_r, Z.add_0_r, drop_0 in R. apply R; unfold ENTRY_SIZE; lia.
Qed.

Lemma is_end_false flush b len z : rd b 0 1 = Some [z] -> z <> END_OF_OBJECTS -> is_end (request E flush b len) = Some false.
Proof.
  intros H Hz. unfold is_end, request. cbn [buff]. rewrite H. cbn [mbind option_bind]. rewrite bool_decide_eq_false_2; [done|congruence].
Qed.

Lemma reload_sending flush s l : sending s l ->
  sending (broadcast_and_reload_buffer E flush s) l /\ (broadcast_and_reload_buffer E flush s).1.2 + ENTRY_SIZE <= DD_BROADCAST_RECORD_LENGTH.
Proof.
  destruct s as [[b len] sent]. intros (prev & cur & -> & Hs & Hc & Hlen & Hmax & Hb & z & Hz & Hne). unfold broadcast_and_reload_buffer.
  destruct (_ >? _) eqn:Hfull; zb.
  - split; [|done]. exists (prev ++ [cur]), []. split; [by rewrite concat_app, !app_nil_r; cbn; rewrite app_nil_r|].
    split; [apply Forall2_app; [done|constructor; [|done]]; subst len; split; [by apply entries_carried|by eapply is_end_false]|].
    split; [intros i o H; by rewrite lookup_nil in H|]. split; [done|]. split; [done|]. split; [by rewrite length_replicate|].
    exists 0. split; [vm_compute; reflexivity|done].
  - split; [|cbn; lia]. exists prev, cur. do 6 (split; [done|]). by exists z.
Qed.

Lemma add_sending flush s l o : sending s l -> (forall o', sent_entry o = Some o' -> sendable_obj o') ->
  exists s', add_object E flush s o = Some s' /\ sending s' (l ++ omap sent_entry [o]).
Proof.
  intros Hs Ho. unfold add_object. cbn [omap list_omap]. destruct (sent_entry o) as [o'|] eqn:He; [|exists s; by rewrite app_nil_r].
  destruct (reload_sending flush s l Hs) as [Hs' Hroom]. destruct (broadcast_and_reload_buffer E flush s) as [[b len] sent].
  cbn [fst snd] in Hroom. destruct Hs' as (prev & cur & -> & Hp & Hc & Hlen & Hmax & Hb & z & Hz & Hne).
  destruct (write_entry_spec b len o') as (b' & -> & Hb' & Hr & Hother); [unfold ENTRY_SIZE in *; lia|rewrite Hb; exact Hroom|by apply Ho|by eapply sent_named|].
  cbn [mbind option_bind]. eexists. split; [done|]. exists prev, (cur ++ [o']). split; [by rewrite app_assoc|]. split; [done|].
  split; [|split; [rewrite length_app; cbn; unfold ENTRY_SIZE in *; lia|split; [done|split; [congruence|]]]].
  - intros i x [Hi|[Hi Hx]]%lookup_app_Some.
    + rewrite (read_entry_local b); [by apply Hc|]. apply Hother. apply lookup_lt_Some in Hi. unfold ENTRY_SIZE in *. lia.
    + destruct (i - length cur)%nat as [|n] eqn:Hn; [|by destruct n]. injection Hx as ->.
      replace i with (length cur) by lia. by rewrite <- Hlen.
  - exists z. split; [|done]. rewrite Hother; [done|]. unfold ENTRY_SIZE in *. lia.
Qed.

Lemma adds_sending flush objs : forall s l, sending s l -> Forall sendable_obj (omap sent_entry objs) ->
  exists s', add_objects E flush s objs = Some s' /\ sending s' (l ++ omap sent_entry objs).
Proof.
  induction objs as [|o objs IH]; intros s l Hs Ho; cbn [add_objects]; [exists s; by rewrite app_nil_r|].
  change (o :: objs) with ([o] ++ objs) in *. rewrite omap_app in *. apply Forall_app in Ho as [Ho Hos].
  destruct (add_sending flush s l o Hs) as (s1 & -> & H1).
  { intros o' He. cbn in Ho. rewrite He in Ho. by inversion Ho. }
  cbn [mbind option_bind]. rewrite app_assoc. by apply IH.
Qed.

(** The messages of a list of objects *)
Lemma messages_of flush junk objs : length junk = Z.to_nat DD_BROADCAST_RECORD_LENGTH -> junk !! 0%nat <> Some END_OF_OBJECTS ->
  (length objs < DD_BROADCAST_RECORD_SIZE)%nat -> Forall sendable_obj (omap sent_entry objs) ->
  exists msgs lists last l, invalidate_remote_dd E flush junk objs = Some (msgs ++ [last]) /\ concat lists ++ l = omap sent_entry objs /\
    Forall2 (fun r l => carries r l /\ is_end r = Some false) msgs lists /\ carries last l /\ is_end last = Some true.
Proof.
  intros Hj H0 Hn Ho. unfold invalidate_remote_dd. rewrite (proj2 (Nat.leb_gt _ _) Hn).
  destruct (adds_sending flush objs (junk, 1, []) []) as ([[b len] sent] & -> & H); [|done|].
  { exists [], []. do 2 (split; [done|]). split; [intros i o H; by rewrite lookup_nil in H|]. do 3 (split; [done|]).
    destruct junk as [|z junk]; [done|]. exists z. split; [|by intros ->]. rewrite rd_Some; [done|lia|lia|]. rewrite Hj. unfold DD_BROADCAST_RECORD_LENGTH. lia. }
  cbn [mbind option_bind]. destruct H as (prev & cur & Hl & Hp & Hc & Hlen & Hmax & Hb & z & Hz & Hne).
  destruct (wr_Some b 0 [END_OF_OBJECTS]) as [b' Hw]; [done|rewrite Hb; unfold DD_BROADCAST_RECORD_LENGTH; cbn [length]; lia|]. rewrite Hw. cbn [mbind option_bind].
  exists sent, prev, (request E flush b' len), cur. split; [done|]. split; [done|]. split; [done|]. split.
  - subst len. apply entries_carried. intros i o Hi. rewrite (read_entry_local b); [by apply Hc|].
    apply (rd_wr_other _ _ _ _ _ _ Hw). right. cbn. unfold ENTRY_SIZE. lia.
  - unfold is_end, request. cbn [buff]. pose proof (rd_wr_same _ _ _ _ Hw) as S. change (Z.of_nat (length [END_OF_OBJECTS])) with 1 in S.
    rewrite S. cbn [mbind option_bind]. by rewrite bool_decide_eq_true_2.
Qed.

(** ** What the messages do *)

Definition granted : Prop := memory E /\ forall l thd k ty, oracle E l (Acquire thd k ty) = false.

(** What is done as the object arrives, and what waits for the last message *)
Definition at_once (o : obj_entry) : option dd_event :=
  match obj_kind o with
  | OBJ_ABSTRACT_TABLE => Some (Invalidate_table (obj_first o) (obj_second o))
  | OBJ_TABLESPACE => Some (Invalidate_tablespace (obj_first o))
  | _ => None
  end.
Definition is_routine (o : obj_entry) : option obj_entry :=
  match obj_kind o with OBJ_RT_PROCEDURE | OBJ_RT_FUNCTION => Some o | _ => None end.
Definition is_schema (o : obj_entry) : option obj_entry := match obj_kind o with OBJ_SCHEMA => Some o | _ => None end.

Definition invalidate_routine_of (o : obj_entry) : dd_event := Invalidate_routine (obj_kind o) (obj_first o) (obj_second o).
Definition invalidate_schema_of (o : obj_entry) : dd_event := Invalidate_schema (obj_first o).

Definition pending (m : gmap Z (list obj_entry)) (thd : Z) : list obj_entry := default [] (m !! thd).

(** The thread of the session, its locks, what was done and what waits *)
Record keeps (key thd : Z) (T : gmap Z (mdl_key * Z)) (ev : list dd_event) (rs ss : list obj_entry) (w : world) : Prop := mk_keeps {
  keeps_thd : g_ctc_mdl_thd_map w !! key = Some thd;
  keeps_has : has thd w T;
  keeps_log : effects (w_log w) = ev;
  keeps_routines : pending (g_ctc_invalidate_routine_maps w) thd = rs;
  keeps_schemas : pending (g_ctc_invalidate_schema_maps w) thd = ss }.

Lemma keeps_runs key thd T ev rs ss w w' e :
  keeps key thd T ev rs ss w -> runs thd w w' T e -> keeps key thd T (ev ++ e) rs ss w'.
Proof.
  intros [Ht Hh Hl Hr Hs] [S Hh' (l & Hw & He)]. constructor; [by rewrite (same_map _ _ _ S)|done| | |].
  - by rewrite Hw, effects_app, He, Hl.
  - by rewrite (same_routines _ _ _ S).
  - by rewrite (same_schemas _ _ _ S).
Qed.

Lemma keeps_invalidates key thd T ev rs ss m e : granted -> invalidates E m thd e ->
  total (keeps key thd T ev rs ss) m (fun b w => b = false /\ keeps key thd T (ev ++ [e]) rs ss w).
Proof.
  intros Hg Hm w Hw. destruct (Hm w T (keeps_has _ _ _ _ _ _ _ Hw)) as (b & w' & T' & H & R & _ & HT & Hb).
  assert (b = false) as -> by (apply Hb; intros; apply (proj2 Hg)). rewrite (HT eq_refl) in R.
  exists false, w'. split; [done|]. split; [done|]. by eapply keeps_runs.
Qed.

Lemma keeps_object key thd T ev rs ss o : granted ->
  total (keeps key thd T ev rs ss) (handle_object E thd false o)
    (fun b w => b = false /\ keeps key thd T (ev ++ omap at_once [o]) (rs ++ omap is_routine [o]) (ss ++ omap is_schema [o]) w).
Proof.
  intros Hg. unfold handle_object, at_once, is_routine, is_schema. cbn [omap list_omap].
  destruct (obj_kind o) eqn:Ho; rewrite ?app_nil_r; try (intros w Hw; by exists false, w).
  - apply keeps_invalidates, table_run. done.
  - intros w [Ht Hh Hl Hr Hs]. do 2 eexists. split; [reflexivity|]. split; [done|]. constructor; try done.
    cbn. unfold pending, push_back. rewrite lookup_insert_eq. cbn. by rewrite <- Hr.
  - intros w [Ht Hh Hl Hr Hs]. do 2 eexists. split; [reflexivity|]. split; [done|]. constructor; try done.
    cbn. unfold pending, push_back. rewrite lookup_insert_eq. cbn. by rewrite <- Hr.
  - intros w [Ht Hh Hl Hr Hs]. do 2 eexists. split; [reflexivity|]. split; [done|]. constructor; try done.
    cbn. unfold pending, push_back. rewrite lookup_insert_eq. cbn. by rewrite <- Hs.
  - apply keeps_invalidates, tablespace_run. done.
Qed.

Lemma keeps_allocate key thd T ev rs ss : granted ->
  total (keeps key thd T ev rs ss) (allocate E New_object) (fun _ => keeps key thd T ev rs ss).
Proof.
  intros [Hm _] w [Ht Hh Hl Hr Hs]. unfold allocate, call. exec. rewrite Hm by done. do 2 eexists. split; [reflexivity|].
  by constructor.
Qed.

Lemma keeps_objects key thd T objs : granted -> forall ev rs ss,
  total (keeps key thd T ev rs ss) (fold_each objs false (fun e o => allocate E New_object ;; handle_object E thd e o))
    (fun b w => b = false /\ keeps key thd T (ev ++ omap at_once objs) (rs ++ omap is_routine objs) (ss ++ omap is_schema objs) w).
Proof.
  intros Hg. induction objs as [|o objs IH]; intros ev rs ss; cbn [fold_each].
  { rewrite !app_nil_r. intros w Hw. by exists false, w. }
  eapply total_bind.
  { eapply total_bind; [by apply keeps_allocate|]. intros []. by apply keeps_object. }
  intros b w [-> Hw]. destruct (IH _ _ _ w Hw) as (b & w' & H & -> & Hw').
  exists false, w'. split; [done|]. split; [done|]. change (o :: objs) with ([o] ++ objs). by rewrite !omap_app, !app_assoc.
Qed.

(** Objects that waited *)
Lemma keeps_each key thd T (f : bool -> obj_entry -> M bool) (g : obj_entry -> dd_event) rs ss l : granted ->
  (forall b o, invalidates E (f b o) thd (g o)) -> forall ev,
  total (keeps key thd T ev rs ss) (fold_each l false f) (fun b w => b = false /\ keeps key thd T (ev ++ map g l) rs ss w).
Proof.
  intros Hg Hf. induction l as [|o l IH]; intros ev; cbn [fold_each].
  { rewrite app_nil_r. intros w Hw. by exists false, w. }
  eapply total_bind; [by apply keeps_invalidates|]. intros b w [-> Hw]. destruct (IH _ w Hw) as (b & w' & H & -> & Hw').
  exists false, w'. split; [done|]. split; [done|]. cbn [map]. by rewrite <- app_assoc in Hw'.
Qed.

Lemma keeps_release key thd T ev rs ss : granted -> metadata_normalized E = true ->
  total (keeps key thd T ev rs ss) (release_routine_and_schema E thd false)
    (fun b w => b = false /\ keeps key thd T (ev ++ map invalidate_routine_of rs ++ map invalidate_schema_of ss) [] [] w).
Proof.
  intros Hg Hm w Hw. unfold release_routine_and_schema. rewrite Hm. cbn [negb]. unfold mbind at 1, ST_bind at 1, get. cbn beta iota.
  pose proof (keeps_routines _ _ _ _ _ _ _ Hw) as Hr. pose proof (keeps_schemas _ _ _ _ _ _ _ Hw) as Hs.
  unfold pending in Hr, Hs. rewrite Hr, Hs.
  destruct (keeps_each key thd T (fun _ it => invalidate_routine E thd (obj_first it) (obj_second it) (obj_kind it))
              invalidate_routine_of rs ss rs Hg ltac:(intros; apply routine_run) ev w Hw) as (b & w1 & H1 & -> & K1).
  rewrite (bind_some _ _ _ _ _ H1). rewrite (bind_some (modify _) _ w1 tt _ eq_refl).
  assert (K2 : keeps key thd T (ev ++ map invalidate_routine_of rs) [] ss (set_routine_maps (delete thd (g_ctc_invalidate_routine_maps w1)) w1)).
  { destruct K1 as [A B C D F]. constructor; try done. cbn. unfold pending. by rewrite lookup_delete_eq. }
  destruct (keeps_each key thd T (fun _ it => invalidate_schema E thd (obj_first it))
              invalidate_schema_of [] ss ss Hg ltac:(intros; apply schema_run) _ _ K2) as (b & w3 & H3 & -> & K3).
  rewrite (bind_some _ _ _ _ _ H3). do 2 eexists. split; [reflexivity|]. split; [done|].
  destruct K3 as [A B C D F]. rewrite <- app_assoc in C. constructor; try done. cbn. unfold pending. by rewrite lookup_delete_eq.
Qed.

(** One message *)
Lemma keeps_message tch thd T ev rs ss r l (last : bool) :
  granted -> is_work_flow E = true -> mysql_inst_id r <> ctc_instance_id E ->
  objects_of r = Some l -> 0 < buff_len r -> is_dcl r = false -> is_end r = Some last -> (last = true -> metadata_normalized E = true) ->
  total (keeps (thd_key tch) thd T ev rs ss) (ctc_invalidate_mysql_dd_cache_req E tch r)
    (fun b w => b = false /\
       let rs := rs ++ omap is_routine l in let ss := ss ++ omap is_schema l in let ev := ev ++ omap at_once l in
       if last then keeps (thd_key tch) thd T (ev ++ map invalidate_routine_of rs ++ map invalidate_schema_of ss) [] [] w
       else keeps (thd_key tch) thd T ev rs ss w).
Proof.
  intros Hg Hf Hn Hobjs Hlen Hd Hend Hnorm w Hw. unfold ctc_invalidate_mysql_dd_cache_req. rewrite Hf. cbn [negb].
  rewrite (proj2 (Z.eqb_neq _ _) Hn).
  assert (H0 : ctc_init_thd E (thd_key tch) w = Some (thd, w)).
  { unfold ctc_init_thd. exec. by rewrite (keeps_thd _ _ _ _ _ _ _ Hw). }
  rewrite (bind_some _ _ _ _ _ H0), (proj2 (Z.eqb_neq (buff_len r) 0)) by lia. cbn [andb]. rewrite Hd, Hend, Hobjs. cbn [deref].
  do 2 (unfold mbind at 1, ST_bind at 1; cbn [ret mret ST_ret]).
  destruct (keeps_objects (thd_key tch) thd T l Hg ev rs ss w Hw) as (b & w1 & H1 & -> & K1). rewrite (bind_some _ _ _ _ _ H1).
  destruct last; [|by exists false, w1].
  apply (keeps_release (thd_key tch) thd T _ _ _ Hg (Hnorm eq_refl) w1 K1).
Qed.

End Requests.

Section Broadcast.
Context `{MS : MdlServer} {ML : MdlLaws} (E0 E : env).

(** The node that is told *)
Definition receive_all (tch : ctc_handler) (rs : list dd_request) : M bool :=
  fold_each rs false (fun _ r => ctc_invalidate_mysql_dd_cache_req E tch r).

Lemma keeps_messages tch thd T ms ls : granted E -> is_work_flow E = true -> ctc_instance_id E0 <> ctc_instance_id E ->
  Forall2 (fun r l => carries E0 r l /\ is_end r = Some false) ms ls -> forall ev rs ss,
  total (keeps (thd_key tch) thd T ev rs ss) (receive_all tch ms)
    (fun b w => b = false /\
       keeps (thd_key tch) thd T (ev ++ omap at_once (concat ls)) (rs ++ omap is_routine (concat ls)) (ss ++ omap is_schema (concat ls)) w).
Proof.
  intros Hg Hf Hn. unfold receive_all. induction 1 as [|r l ms ls [(Ho & Hl & Hd & Hi) He] _ IH]; intros ev rs ss; cbn [fold_each concat].
  { rewrite !app_nil_r. intros w Hw. by exists false, w. }
  eapply total_bind; [by apply (keeps_message E tch thd T ev rs ss r l false Hg Hf ltac:(congruence) Ho Hl Hd He)|].
  intros b w [-> Hw]. destruct (IH _ _ _ w Hw) as (b & w' & H & -> & K). exists false, w'. split; [done|]. split; [done|].
  by rewrite !omap_app, !app_assoc.
Qed.

Lemma fold_each_app {A} (l1 l2 : list A) (f : bool -> A -> M bool) b w b1 w1 :
  fold_each l1 b f w = Some (b1, w1) -> fold_each (l1 ++ l2) b f w = fold_each l2 b1 f w1.
Proof.
  revert b w. induction l1 as [|x l1 IH]; intros b w; cbn [app fold_each]; [by intros [= -> ->]|].
  unfold mbind, ST_bind. destruct (f b x w) as [[b' w']|]; [|done]. apply IH.
Qed.

(** C31: the objects that a statement changed on one node are removed from the
    caches of another one, when that grants every lock and has the memory, the
    objects are fewer than [DD_BROADCAST_RECORD_SIZE], their names shorter than
    127 bytes, and the first byte of the sender's uninitialised buffer is not
    the end mark by chance: the sender's messages,
    of eleven objects at most, are read there as they were written, every
    table and tablespace is removed as it arrives, all procedures and functions after the
    last message, then the schemas; each object once, in the order of the list;
    the thread has the locks it had and nothing waits. *)
Theorem definitions_invalidated tch thd flush junk objs w T :
  is_work_flow E = true -> metadata_normalized E = true -> ctc_instance_id E0 <> ctc_instance_id E -> granted E ->
  length junk = Z.to_nat DD_BROADCAST_RECORD_LENGTH -> junk !! 0%nat <> Some END_OF_OBJECTS ->
  (length objs < DD_BROADCAST_RECORD_SIZE)%nat -> Forall sendable_obj (omap sent_entry objs) ->
  keeps (thd_key tch) thd T (effects (w_log w)) [] [] w ->
  let sent := omap sent_entry objs in
  exists msgs w', invalidate_remote_dd E0 flush junk objs = Some msgs /\ receive_all tch msgs w = Some (false, w') /\
    keeps (thd_key tch) thd T
      (effects (w_log w) ++ omap at_once sent ++ map invalidate_routine_of (omap is_routine sent)
         ++ map invalidate_schema_of (omap is_schema sent)) [] [] w'.
Proof.
  intros Hf Hnorm Hn Hg Hj H0 Hlen Ho Hw sent.
  destruct (messages_of E0 flush junk objs Hj H0 Hlen Ho) as (ms & ls & last & l & -> & Hcat & Hms & (Hl1 & Hl2 & Hl3 & Hl4) & Hend).
  destruct (keeps_messages tch thd T ms ls Hg Hf Hn Hms _ _ _ w Hw) as (b & w1 & H1 & -> & K1).
  destruct (keeps_message E tch thd T _ _ _ last l true Hg Hf ltac:(congruence) Hl1 Hl2 Hl3 Hend (fun _ => Hnorm) w1 K1)
    as (b & w2 & H2 & -> & K2).
  eexists _, w2. split; [done|]. split.
  - unfold receive_all in *. rewrite (fold_each_app _ _ _ _ _ _ _ H1). cbn [fold_each]. by rewrite (bind_some _ _ _ _ _ H2).
  - cbn beta zeta iota in K2. rewrite <- !app_assoc, !app_nil_l in K2.
    rewrite (app_assoc (omap at_once (concat ls)) (omap at_once l)), <- !omap_app in K2. unfold sent. by rewrite <- Hcat.
Qed.

End Broadcast.

(** ** Keys *)

Lemma land_mask z : Z.land z (AGENT_CONN_KEY_MASK - 1) = z mod 2 ^ 63.
Proof. apply (Z.land_ones z 63). lia. Qed.

Lemma conn_key_low inst thd b : 0 <= inst < 2 ^ 31 -> 0 <= thd < 2 ^ 32 ->
  Z.land (ctc_get_conn_key inst thd b) (AGENT_CONN_KEY_MASK - 1) = inst * 2 ^ 32 + thd.
Proof.
  intros Hi Ht. unfold ctc_get_conn_key. rewrite Z.shiftl_mul_pow2, (wrapU_small 64 (inst * 2 ^ 32)) by lia.
  rewrite wrapU_small by lia. destruct b; [|rewrite Z.land_lor_distr_l; change (Z.land AGENT_CONN_KEY_MASK _) with 0; rewrite Z.lor_0_r];
    rewrite land_mask, Z.mod_small; lia.
Qed.

(** The key of a session tells the node and its engine, and two sessions
    that exist at the same time have different keys, whether a statement runs for
    them or the session is an agent's. *)
Theorem session_keys inst thd b :
  0 <= inst < 2 ^ 31 -> 0 <= thd < 2 ^ 32 ->
  ctc_get_inst_id_from_conn_key (ctc_get_conn_key inst thd b) = inst /\
  ctc_get_cantian_id_from_conn_key (ctc_get_conn_key inst thd b) = Z.shiftr inst 16 /\
  forall inst' thd', 0 <= inst' < 2 ^ 31 -> 0 <= thd' < 2 ^ 32 ->
    ctc_get_conn_key inst thd b = ctc_get_conn_key inst' thd' b -> inst' = inst /\ thd' = thd.
Proof.
  intros Hi Ht. unfold ctc_get_inst_id_from_conn_key, ctc_get_cantian_id_from_conn_key. rewrite conn_key_low by done.
  assert (H32 : Z.shiftr (inst * 2 ^ 32 + thd) 32 = inst).
  { rewrite Z.shiftr_div_pow2, Z.div_add_l, Z.div_small by lia. lia. }
  split; [rewrite H32; apply wrapU_small; lia|]. split.
  - rewrite <- (Z.shiftr_shiftr _ 32 16), H32 by lia. apply wrapU_small. rewrite Z.shiftr_div_pow2 by lia.
    change (2 ^ 16) with 65536. change (2 ^ 31) with 2147483648 in Hi. dlia.
  - intros inst' thd' Hi' Ht' H. apply (f_equal (fun z => Z.land z (AGENT_CONN_KEY_MASK - 1))) in H.
    rewrite !conn_key_low in H by done. lia.
Qed.

(** ** Examples *)

Module Example.

Definition next_ticket (c : gmap Z (mdl_key * Z)) : Z := foldr (fun x a => Z.max x.1 a) 0 (map_to_list c) + 1.

Lemma next_ticket_fresh c : c !! next_ticket c = None.
Proof.
  destruct (c !! next_ticket c) as [x|] eqn:Hx; [|done]. apply elem_of_map_to_list in Hx. exfalso.
  assert (H : forall (l : list (Z * (mdl_key * Z))) t y, (t, y) ∈ l -> t <= foldr (fun x a => Z.max x.1 a) 0 l).
  { intros l. induction l as [|[t' y'] l IH]; intros t y; [intros H; by inversion H|]. intros [[= -> ->]|H]%elem_of_cons; cbn; [lia|].
    specialize (IH _ _ H). lia. }
  apply H in Hx. unfold next_ticket in Hx. lia.
Qed.

Definition code_of (ty : obj_type) : Z :=
  match ty with
  | OBJ_ABSTRACT_TABLE => 1 | OBJ_RT_PROCEDURE => 2 | OBJ_RT_FUNCTION => 3 | OBJ_SCHEMA => 4 | OBJ_TABLESPACE => 5 | OBJ_EVENT => 6
  | OBJ_COLUMN_STATISTICS => 7 | OBJ_RESOURCE_GROUP => 8 | OBJ_SPATIAL_REFERENCE_SYSTEM => 9 | OBJ_CHARSET => 10 | OBJ_COLLATION => 11
  | OBJ_OTHER _ => 0
  end.

Definition of_code (z : Z) : obj_type :=
  if z =? 1 then OBJ_ABSTRACT_TABLE else if z =? 2 then OBJ_RT_PROCEDURE else if z =? 3 then OBJ_RT_FUNCTION
  else if z =? 4 then OBJ_SCHEMA else if z =? 5 then OBJ_TABLESPACE else if z =? 6 then OBJ_EVENT
  else if z =? 7 then OBJ_COLUMN_STATISTICS else if z =? 8 then OBJ_RESOURCE_GROUP else if z =? 9 then OBJ_SPATIAL_REFERENCE_SYSTEM
  else if z =? 10 then OBJ_CHARSET else if z =? 11 then OBJ_COLLATION else OBJ_OTHER z.

(** Every request takes a lock of its own. *)
Definition server : MdlServer := {|
  mdl_context := gmap Z (mdl_key * Z);
  new_context := ∅;
  tickets c := c;
  obj_code := code_of;
  obj_of_code := of_code;
  dd_mdl_key ns db name := mk_key ns db (lower_text name);
  mdl_acquire c k ty := (<[next_ticket c := (k, ty)]> c, next_ticket c);
  owns_equal_or_stronger_lock c k ty := false;
  release_lock c t := delete t c;
  release_all_locks_for_name c t := match c !! t with Some x => filter (fun y => y.2.1 <> x.1) c | None => c end;
  release_locks c p := filter (fun x => p x.2.1 x.2.2 = false) c |}.

#[local] Existing Instance server.

#[local] Instance laws : MdlLaws.
Proof.
  constructor; try done.
  - by intros [].
  - intros []; cbn; lia.
  - intros c k ty c' t [= <- <-]. split; [apply next_ticket_fresh|done].
  - intros c t k ty H. cbn in H |- *. by rewrite H.
Qed.

Definition node (id : Z) (fails : dd_log -> dd_event -> bool) (normal : bool) : env := mk_env fails id true normal.
Definition all_granted : dd_log -> dd_event -> bool := fun _ _ => false.
Definition no_exclusive : dd_log -> dd_event -> bool := fun _ ev => match ev with Acquire _ _ ty => ty =? MDL_EXCLUSIVE | _ => false end.
Definition session : ctc_handler := mk_tch 1 7.
Definition lock_info ns := mk_info (txt "db") (txt "t") DdlRewriter.SQLCOM_LOCK_TABLES ns.

Definition objects : list obj_entry :=
  [mk_obj OBJ_SCHEMA (txt "db") []; mk_obj OBJ_ABSTRACT_TABLE (txt "db") (txt "t"); mk_obj OBJ_CHARSET (txt "c") [];
   mk_obj OBJ_RT_FUNCTION (txt "db") (txt "f"); mk_obj OBJ_TABLESPACE (txt "ts") (txt "x")]
  ++ replicate 9 (mk_obj OBJ_EVENT (txt "db") (txt "e")).
Definition junk : list Z := replicate (Z.to_nat DD_BROADCAST_RECORD_LENGTH) 205.
Definition messages : list dd_request := default [] (invalidate_remote_dd (node 1 all_granted true) true junk objects).

(** A lock, LOCK TABLES, messages about objects, UNLOCK TABLES, the end *)
Definition requests : list remote_request :=
  [Lock_tables session (mk_info (txt "db") (txt "p") (DdlRewriter.SQLCOM_OTHER 0) PROCEDURE); Lock_tables session (lock_info MDL_SHARED_NO_READ_WRITE)]
  ++ map (Invalidate session) messages ++
  [Unlock_tables session (lock_info 0); Close_session 7 1].

Definition after {A} (m : M A) : world := match m empty_world with Some (_, w) => w | None => empty_world end.
End Example.

#[local] Existing Instance Example.server.
#[local] Existing Instance Example.laws.

Lemma all_valid rs :
  forallb (fun r => match r with Invalidate _ r => bool_decide (is_Some (is_end r)) && bool_decide (is_Some (objects_of r)) | _ => true end) rs = true ->
  Forall valid rs.
Proof.
  intros H. apply List.Forall_forall. intros r Hr. apply (proj1 (forallb_forall _ _) H) in Hr.
  destruct r as [| |tch r|]; cbn; try done. apply andb_prop in Hr as [H1 H2]. split; by eapply bool_decide_eq_true_1.
Qed.

Lemma remote_requests_safe_witness :
  memory (Example.node 2 Example.all_granted true) /\ Forall valid Example.requests /\
  exists w, for_each Example.requests (fun r => serve (Example.node 2 Example.all_granted true) r ;; ret tt) empty_world = Some (tt, w) /\ inv w.
Proof.
  assert (H : Forall valid Example.requests).
  { apply all_valid. vm_compute. reflexivity. }
  assert (Hm : memory (Example.node 2 Example.all_granted true)) by (intros l ev _; reflexivity).
  split; [exact Hm|]. split; [exact H|]. apply (remote_requests_safe _ Example.requests Hm H).
Defined.

(** A session without memory for its thread, and its first lock *)
Lemma null_thread_used_witness :
  ctc_mdl_lock_thd (Example.node 2 (fun _ _ => true) true) Example.session (Example.lock_info FUNCTION) empty_world = None.
Proof.
  apply (null_thread_used (Example.node 2 (fun _ _ => true) true) Example.session (Example.lock_info FUNCTION) empty_world);
    [reflexivity|discriminate|apply lookup_empty|reflexivity].
Defined.

Definition no_ticket (k : mdl_key) (w : world) : bool :=
  forallb (fun x : Z * option (gmap mdl_key Z) => match x.2 with Some m => match m !! k with None => true | Some _ => false end | None => true end)
    (map_to_list (g_ctc_mdl_ticket_maps w)).

Lemma no_ticket_map_of k w thd : no_ticket k w = true -> map_of thd w !! k = None.
Proof.
  unfold no_ticket, map_of. intros H. destruct (g_ctc_mdl_ticket_maps w !! thd) as [[m|]|] eqn:Hm; try apply lookup_empty.
  pose proof (proj1 (forallb_forall _ _) H (thd, Some m)) as H'. cbn in H'. rewrite <- list_elem_of_In, elem_of_map_to_list in H'.
  specialize (H' Hm). by destruct (m !! k).
Qed.

Lemma sendable_all l :
  forallb (fun o => forallb (fun s => (length s <? 127)%nat && forallb (fun c => negb (code c =? 0)) s) [obj_first o; obj_second o]) l = true ->
  Forall sendable_obj l.
Proof.
  intros H. apply List.Forall_forall. intros o Ho. apply (proj1 (forallb_forall _ _) H) in Ho. cbn [forallb] in Ho.
  rewrite andb_true_r in Ho. apply andb_prop in Ho as [H1 H2].
  assert (S : forall s, (length s <? 127)%nat && forallb (fun c => negb (code c =? 0)) s = true -> sendable s).
  { intros s [Hl Hs]%andb_prop. apply Nat.ltb_lt in Hl. split; [done|]. apply List.Forall_forall. intros c Hc.
    apply (proj1 (forallb_forall _ _) Hs) in Hc. zb. done. }
  split; by apply S.
Qed.

Lemma succeeds (m : M bool) (p : world -> bool) w :
  match m w with Some (b, w1) => negb b && p w1 | None => false end = true -> exists w1, m w = Some (false, w1) /\ p w1 = true.
Proof. destruct (m w) as [[[] w1]|]; try done. intros H. by exists w1. Qed.

Lemma remote_lock_round_trip_witness :
  exists w1 thd T w2, ctc_mdl_lock_thd (Example.node 2 Example.all_granted true) Example.session (Example.lock_info FUNCTION) empty_world = Some (false, w1) /\
    g_ctc_mdl_thd_map w1 !! thd_key Example.session = Some thd /\ has thd w1 T /\
    (exists t, T !! t = Some (ctc_init_mdl_request (Example.lock_info FUNCTION))) /\
    ctc_mdl_unlock_thd (Example.node 2 Example.all_granted true) Example.session (Example.lock_info FUNCTION) w1 = Some (tt, w2) /\
    has thd w2 (filter (fun x => x.2.1 <> (ctc_init_mdl_request (Example.lock_info FUNCTION)).1) T).
Proof.
  destruct (succeeds (ctc_mdl_lock_thd (Example.node 2 Example.all_granted true) Example.session (Example.lock_info FUNCTION)) (fun _ => true) empty_world)
    as (w1 & H & _); [vm_compute; reflexivity|].
  destruct (remote_lock_round_trip (Example.node 2 Example.all_granted true) Example.session (Example.lock_info FUNCTION) empty_world w1
              empty_inv eq_refl ltac:(done) H) as (thd & T & w2 & H1 & H2 & H3 & H4 & H5 & _).
  exists w1, thd, T, w2. exact (conj H (conj H1 (conj H2 (conj H3 (conj H4 H5))))).
Defined.

Lemma lock_tables_undo_ignored_witness :
  exists w1, ctc_ddl_execute_lock_tables_by_req (Example.node 2 Example.all_granted true) Example.session (Example.lock_info MDL_SHARED_NO_READ_WRITE)
      empty_world = Some (false, w1) /\
    execute_unlock_tables (Example.node 2 Example.all_granted true) Example.session (Example.lock_info 0) w1 = Some (0, w1) /\
    exists thd T t, g_ctc_mdl_thd_map w1 !! thd_key Example.session = Some thd /\ has thd w1 T /\
      T !! t = Some (mk_key TABLE (txt "db") (txt "t"), MDL_SHARED_NO_READ_WRITE).
Proof.
  destruct (succeeds (ctc_ddl_execute_lock_tables_by_req (Example.node 2 Example.all_granted true) Example.session
              (Example.lock_info MDL_SHARED_NO_READ_WRITE)) (no_ticket (mk_key GLOBAL (txt "db") (txt "t"))) empty_world)
    as (w1 & H & Hp); [vm_compute; reflexivity|].
  exists w1. split; [exact H|].
  apply (lock_tables_undo_ignored (Example.node 2 Example.all_granted true) Example.session (txt "db") (txt "t") MDL_SHARED_NO_READ_WRITE
           empty_world w1 empty_inv eq_refl ltac:(done) H).
  intros thd. exact (no_ticket_map_of _ _ thd Hp).
Defined.

Lemma definitions_invalidated_witness :
  exists msgs w w', invalidate_remote_dd (Example.node 1 Example.all_granted true) true Example.junk Example.objects = Some msgs /\
    receive_all (Example.node 2 Example.all_granted true) Example.session msgs w = Some (false, w') /\
    effects (w_log w') = [Invalidate_table (txt "db") (txt "t"); Invalidate_tablespace (txt "ts");
                          Invalidate_routine OBJ_RT_FUNCTION (txt "db") (txt "f"); Invalidate_schema (txt "db")].
Proof.
  destruct (at_init (Example.node 2 Example.all_granted true) (thd_key Example.session) ltac:(done) empty_world empty_inv)
    as (thd & w & H & A).
  destruct (at_has _ _ _ A) as [T HT].
  assert (K : keeps (thd_key Example.session) thd T (effects (w_log w)) [] [] w /\ effects (w_log w) = []).
  { unfold ctc_init_thd, allocate, call in H. revert H. exec. cbn [empty_world g_ctc_mdl_thd_map]. rewrite lookup_empty.
    cbn [oracle Example.node Example.all_granted]. intros [= <- <-]. split; [|done]. constructor; done. }
  destruct K as [K K0].
  destruct (definitions_invalidated (Example.node 1 Example.all_granted true) (Example.node 2 Example.all_granted true) Example.session thd true
              Example.junk Example.objects w T) as (msgs & w' & H1 & H2 & K').
  - reflexivity.
  - reflexivity.
  - discriminate.
  - by split.
  - apply length_replicate.
  - vm_compute. discriminate.
  - vm_compute. lia.
  - apply sendable_all. vm_compute. reflexivity.
  - exact K.
  - exists msgs, w, w'. split; [exact H1|]. split; [exact H2|]. rewrite (keeps_log _ _ _ _ _ _ _ K'), K0. reflexivity.
Defined.

Lemma schema_lock_orphaned_witness :
  exists w1 w2, invalidate_table (Example.node 2 Example.no_exclusive true) 0 (txt "db") (txt "t") (Example.after (ctc_init_thd (Example.node 2 Example.no_exclusive true) 9)) = Some (true, w1) /\
    release_ctc_mdl_thd_by_key (Example.node 2 Example.no_exclusive true) 9 w1 = Some (tt, w2) /\
    (schema_key (txt "db"), MDL_INTENTION_EXCLUSIVE) ∈ orphans w2.
Proof.
  destruct (at_init (Example.node 2 Example.no_exclusive true) 9 ltac:(by intros l [] ?) empty_world empty_inv) as (thd & w & H & A).
  assert (Hw : Example.after (ctc_init_thd (Example.node 2 Example.no_exclusive true) 9) = w) by (unfold Example.after; by rewrite H).
  assert (Ht : thd = 0 /\ contexts w = <[0 := new_context]> ∅ /\
    g_ctc_invalidate_routine_maps w = ∅ /\ g_ctc_invalidate_schema_maps w = ∅).
  { unfold ctc_init_thd, allocate, call in H. revert H. exec. cbn [empty_world g_ctc_mdl_thd_map]. rewrite lookup_empty.
    cbn [oracle Example.node Example.no_exclusive]. by intros [= <- <-]. }
  destruct Ht as (-> & Hc & Hr & Hs). rewrite Hw.
  apply (schema_lock_orphaned (Example.node 2 Example.no_exclusive true) 9 0 (txt "db") (txt "t") w ∅ A); try done.
  - exists new_context. by rewrite Hc.
  - by rewrite Hr.
  - by rewrite Hs.
Defined.

Lemma session_keys_witness :
  ctc_get_inst_id_from_conn_key (ctc_get_conn_key 65539 7 true) = 65539 /\
  ctc_get_cantian_id_from_conn_key (ctc_get_conn_key 65539 7 true) = Z.shiftr 65539 16 /\
  forall inst' thd', 0 <= inst' < 2 ^ 31 -> 0 <= thd' < 2 ^ 32 ->
    ctc_get_conn_key 65539 7 true = ctc_get_conn_key inst' thd' true -> inst' = 65539 /\ thd' = 7.
Proof. apply (session_keys 65539 7 true); lia. Defined.
End MetaData.
