(* ===== verification/Proxy.v ===== *)
(** * Proxy: statements of other nodes

    Models [ctc_mysql_proxy.cc] and [ctc_proxy_util.cc]: when the meta data is
    not the engine's, a statement that changes a definition on one node is run
    on every other one, over a connection of this process to its own server.
    Connections are kept in a map by the session they stand for.  Also the role
    of the cluster and the read only switches ([ctc_get_cluster_role] of
    [ha_ctc.cc]).  The branches of these functions for meta data that is the
    engine's are in [MetaData].

    The client library is an arbitrary function of the calls so far; a handle
    ([MYSQL *]) must be open when it is used. *)

From Stdlib Require Import Ascii String.
From stdpp Require Import pretty sorting.
From S2P Require Import Prelude Effects SqlText DdlRewriter MetaData.
Import Effects SqlText.

Module Proxy.

#[local] Existing Instance DdlRewriter.sqlcom_eq_dec.

(** ** Statements *)

Inductive statement :=
  | Drop_user (name : text)
  | Create_user (name : text)
  | Grant_proxy (user ip name : text)
  | Set_lock_wait_timeout
  | Set_random_password_seed (thd_id : text)
  | Set_foreign_key_checks (on : bool)
  | Get_lock (hash : text)
  | Release_all_locks
  | Table_exists (db table : text)
  | Lock_tables (tables : list (text * text))
  | Unlock_tables
  | Sql (s : text).

Fixpoint cnvrt_name_for_sql (name : text) : text :=
  match name with
  | [] => []
  | c :: name => (if code c =? 96 then [chr 96; c] else [c]) ++ cnvrt_name_for_sql name
  end.

Definition lock_of (x : text * text) : text :=
  txt "`" ++ cnvrt_name_for_sql x.1 ++ txt "`.`" ++ cnvrt_name_for_sql x.2 ++ txt "` write, ".

(** [erase(end() - 2)]: one character *)
Definition erase_comma (s : text) : text := take (length s - 2) s ++ drop (length s - 1) s.

Definition statement_text (s : statement) : text :=
  match s with
  | Drop_user n => txt "drop user if exists '" ++ n ++ txt "';"
  | Create_user n => txt "CREATE USER '" ++ n ++ txt "' IDENTIFIED WITH 'mysql_native_password' BY RANDOM PASSWORD;"
  | Grant_proxy u ip n =>
    txt "grant proxy on '" ++ ctc_escape_single_quotation_str u ++ txt "'@'" ++ ip ++ txt "' to '" ++ n ++ txt "';"
  | Set_lock_wait_timeout => txt "set lock_wait_timeout = 1;"
  | Set_random_password_seed t => txt "set @random_password_seed = " ++ t ++ txt ";"
  | Set_foreign_key_checks b => txt "SET SESSION foreign_key_checks = " ++ (if b then txt "1;" else txt "0;")
  | Get_lock h => txt "SELECT GET_LOCK('" ++ h ++ txt "', 0);"
  | Release_all_locks => txt "SELECT RELEASE_ALL_LOCKS();"
  | Table_exists d t =>
    txt "SELECT EXISTS (SELECT TABLE_NAME FROM information_schema.TABLES WHERE TABLE_SCHEMA LIKE '" ++ d
      ++ txt "' AND TABLE_NAME = '" ++ t ++ txt "');"
  | Lock_tables l => erase_comma (txt "lock tables " ++ concat (map lock_of l)) ++ txt ";"
  | Unlock_tables => txt "UNLOCK TABLES;"
  | Sql s => s
  end.

(** ** State *)

(** The answer of a call: its value, [mysql_errno], [mysql_error] and the
    result, if there is one: no row or the first one *)
Record answer := mk_answer {
  a_ret : Z; a_errno : Z; a_error : text; a_result : option (option (list (option text))) }.

Inductive event :=
  | Init                                                   (* mysql_init *)
  | Connect (h : Z) (host user : text) (password : option text)
  | Use_compression (h : Z) (zstd : bool)
  | Ping (h : Z)
  | Select_db (h : Z) (db : text)
  | Query (h : Z) (s : statement)
  | Close (h : Z)
  | Agent_password                                         (* ctc_get_agent_info *)
  | Reset_mqh
  | Query_cluster_role.

Definition log := list (event * answer).

(** [ctc_mysql_conn_info] *)
Record conn_info := mk_conn {
  conn : Z; table_lock_info : list (text * text); has_explicit_table_lock : bool; conn_name_locks : Z }.

Record world := mk_world {
  g_mysql_conn_map : gmap Z conn_info;
  g_name_locks : Z;
  handles : gmap Z answer;                   (* open, with the last answer *)
  next_handle : Z;
  connection_count : Z;
  ctc_cluster_role : Z;
  super_read_only : bool; read_only : bool; opt_readonly : bool;
  w_log : log }.

Definition M := ST world.

Definition set_map m (w : world) : world :=
  mk_world m (g_name_locks w) (handles w) (next_handle w) (connection_count w) (ctc_cluster_role w)
    (super_read_only w) (read_only w) (opt_readonly w) (w_log w).
Definition set_handles m (w : world) : world :=
  mk_world (g_mysql_conn_map w) (g_name_locks w) m (next_handle w) (connection_count w) (ctc_cluster_role w)
    (super_read_only w) (read_only w) (opt_readonly w) (w_log w).
Definition set_name_locks n (w : world) : world :=
  mk_world (g_mysql_conn_map w) n (handles w) (next_handle w) (connection_count w) (ctc_cluster_role w)
    (super_read_only w) (read_only w) (opt_readonly w) (w_log w).
Definition set_count n (w : world) : world :=
  mk_world (g_mysql_conn_map w) (g_name_locks w) (handles w) (next_handle w) n (ctc_cluster_role w)
    (super_read_only w) (read_only w) (opt_readonly w) (w_log w).
Definition set_role r (w : world) : world :=
  mk_world (g_mysql_conn_map w) (g_name_locks w) (handles w) (next_handle w) (connection_count w) r
    (super_read_only w) (read_only w) (opt_readonly w) (w_log w).
Definition set_read_only (b : bool) (w : world) : world :=
  mk_world (g_mysql_conn_map w) (g_name_locks w) (handles w) (next_handle w) (connection_count w) (ctc_cluster_role w)
    b b b (w_log w).

Record env := mk_env {
  oracle : log -> event -> answer;
  ctc_instance_id : Z;
  opt_noacl : bool;
  metadata_normalized : bool;                (* IS_METADATA_NORMALIZATION() *)
  md5_hex : text -> text }.                  (* compute_md5_hash, array_to_hex *)

(** [ctc_ddl_broadcast_request] *)
Record request := mk_request {
  r_db : text; r_sql : text; r_user : text; r_ip : text; r_inst : Z; r_command : DdlRewriter.sqlcom; r_options : Z }.

Definition uint32 (z : Z) : Z := wrapU 32 z.

Section Model.
Context (E : env).

Definition ask (ev : event) : M answer := fun w =>
  let a := oracle E (w_log w) ev in
  Some (a, mk_world (g_mysql_conn_map w) (g_name_locks w) (handles w) (next_handle w) (connection_count w)
    (ctc_cluster_role w) (super_read_only w) (read_only w) (opt_readonly w) ((ev, a) :: w_log w)).

(** ** The client library *)

(** A call on a handle, which is the one to ask about the error afterwards *)
Definition on_handle (h : Z) (ev : event) : M answer :=
  w ← get;
  deref (handles w !! h) ≫= fun _ =>
  a ← ask ev; modify (fun w => set_handles (<[h := a]> (handles w)) w) ;; ret a.

Definition mysql_errno (h : Z) : M Z := w ← get; a ← deref (handles w !! h); ret (a_errno a).
Definition mysql_store_result (h : Z) : M (option (option (list (option text)))) :=
  w ← get; a ← deref (handles w !! h); ret (a_result a).

Definition CR_OUT_OF_MEMORY : Z := 2008.

(** The handle, or the error *)
Definition mysql_init : M (Z + Z) :=
  a ← ask Init;
  if a_ret a =? 0 then
    w ← get;
    let h := next_handle w in
    modify (fun w => mk_world (g_mysql_conn_map w) (g_name_locks w) (<[h := a]> (handles w)) (h + 1) (connection_count w)
      (ctc_cluster_role w) (super_read_only w) (read_only w) (opt_readonly w) (w_log w)) ;;
    ret (inl h)
  else ret (inr (if a_errno a =? 0 then CR_OUT_OF_MEMORY else a_errno a)).

(** [mysql_close]: nothing for a null pointer *)
Definition ctc_close_mysql_conn (h : option Z) : M unit :=
  match h with
  | None => ret tt
  | Some h =>
    w ← get; deref (handles w !! h) ≫= fun _ => ask (Close h) ;;
    modify (fun w => set_handles (delete h (handles w)) w)
  end.

(** ** The role of the cluster *)

Definition ROLE_DEFAULT : Z := -1.
Definition ROLE_PRIMARY : Z := 0.
Definition ROLE_STANDBY : Z := 1.
Definition ROLE_CLUSTER_NOT_READY : Z := 2.

Definition ctc_set_mysql_read_only : M unit := modify (set_read_only true).
Definition ctc_reset_mysql_read_only : M unit := modify (set_read_only false).

Definition ctc_set_cluster_role_by_cantian (is_slave : bool) : M Z :=
  (if is_slave then modify (set_role ROLE_STANDBY) ;; ctc_set_mysql_read_only
   else modify (set_role ROLE_PRIMARY) ;; ctc_reset_mysql_read_only) ;;
  ret 0.

(** The answer of the engine: [a_errno] 1 is the standby, [a_result] tells that
    the cluster is ready. *)
Definition ctc_get_cluster_role : M Z :=
  w ← get;
  let role := ctc_cluster_role w in
  if (role =? ROLE_PRIMARY) || (role =? ROLE_STANDBY) then ret role else
  a ← ask Query_cluster_role;
  let is_slave := a_errno a =? 1 in
  if negb (a_ret a =? 0) || bool_decide (a_result a = None)
  then modify (set_role ROLE_CLUSTER_NOT_READY) ;; ret ROLE_CLUSTER_NOT_READY
  else
    (if is_slave then ctc_set_mysql_read_only
     else if role =? ROLE_STANDBY then ctc_reset_mysql_read_only else ret tt) ;;
    let role := if is_slave then ROLE_STANDBY else ROLE_PRIMARY in
    modify (set_role role) ;; ret role.

(** ** Connections *)

(** Results that are left are read first. *)
Definition ctc_mysql_query (h : Z) (s : statement) : M Z :=
  ask Reset_mqh ;;
  on_handle h (Ping h) ;;
  role ← ctc_get_cluster_role;
  (if role =? ROLE_STANDBY then ctc_reset_mysql_read_only else ret tt) ;;
  a ← on_handle h (Query h s);
  role ← ctc_get_cluster_role;
  (if role =? ROLE_STANDBY then ctc_set_mysql_read_only else ret tt) ;;
  ret (a_ret a).

Definition CTC_CONN_MAX_RETRY_TIMES : nat := 10.
Definition ER_CON_COUNT_ERROR : Z := 1040.
Definition ER_WRONG_COMPRESSION_ALGORITHM_CLIENT : Z := 3922.
(** The answer of [mysql_real_connect]: 0 is success; [a_result] tells which
    compression the server wants. *)
Definition wanted_compression (a : answer) : option bool :=
  match a_result a with None => None | Some None => Some false | Some (Some _) => Some true end.

(** The loop; the result is [dec_conn_count]. *)
Fixpoint connect_loop (retry_time : nat) (h : Z) (host user : text) (password : option text) (dec_conn_count : Z) : M Z :=
  a ← on_handle h (Connect h host user password);
  if a_ret a =? 0 then ret dec_conn_count else
  match retry_time with
  | O => ret dec_conn_count
  | S retry_time =>
    let err := a_errno a in
    dec_conn_count ← (if err =? ER_CON_COUNT_ERROR
                      then modify (fun w => set_count (connection_count w - 1) w) ;; ret (dec_conn_count + 1)
                      else ret dec_conn_count);
    (if err =? ER_WRONG_COMPRESSION_ALGORITHM_CLIENT
     then match wanted_compression a with None => ret tt | Some z => on_handle h (Use_compression h z) ;; ret tt end
     else ret tt) ;;
    connect_loop retry_time h host user password dec_conn_count
  end.

(** [while (dec_conn_count != 0) ctc_inc_conn_count(dec_conn_count)] *)
Fixpoint inc_conn_count (n : nat) : M unit :=
  match n with O => ret tt | S n => modify (fun w => set_count (connection_count w + 1) w) ;; inc_conn_count n end.

Definition ctc_mysql_conn (host user : text) (password : option text) : M (option Z * Z) :=
  con ← mysql_init;
  match con with
  | inr err => ret (None, err)
  | inl h =>
    dec_conn_count ← connect_loop CTC_CONN_MAX_RETRY_TIMES h host user password 0;
    inc_conn_count (Z.to_nat dec_conn_count) ;;
    ret (Some h, 0)                            (* con == nullptr *)
  end.

Definition my_localhost : text := txt "localhost".

Definition ctc_init_agent_client : M (option Z * Z) :=
  a ← ask Agent_password;
  let '(user, password) :=
    if a_ret a =? 0 then (txt "RDS_agent", Some (a_error a)) else (txt "root", None) in
  r ← ctc_mysql_conn my_localhost user password;
  if negb (r.2 =? 0) then ctc_close_mysql_conn r.1 ;; ret (None, r.2) else ret (r.1, 0).

Definition ctc_select_db (h : Z) (db : text) : M Z :=
  if bool_decide (db = []) then ret 0 else
  on_handle h (Ping h) ;;
  a ← on_handle h (Select_db h db);
  ret (if negb (a_ret a =? 0) then a_errno a else 0).

(** [assert(0)] when it fails *)
Definition ctc_drop_proxy_user (agent_conn : Z) (proxy_user_name : text) : M unit :=
  r ← ctc_mysql_query agent_conn (Drop_user proxy_user_name);
  if r =? 0 then ret tt else fail.

(** [ret != 0 || mysql_errno(curr_conn) != 0], [ret] and [err_code], which may be 0 *)
Definition query_failed_with (h : Z) (s : statement) : M (bool * Z * Z) :=
  r ← ctc_mysql_query h s; e ← mysql_errno h; ret (negb (r =? 0) || negb (e =? 0), r, e).
Definition query_failed (h : Z) (s : statement) : M (bool * Z) :=
  q ← query_failed_with h s; ret (q.1.1, q.2).

Definition ctc_create_proxy_user (agent_conn : Z) (user_name user_ip proxy_user_name : text) : M (Z * text) :=
  r ← query_failed agent_conn (Create_user proxy_user_name);
  if r.1 : bool then ret (r.2, []) else
  result ← mysql_store_result agent_conn;
  match result with
  | None | Some None => ctc_drop_proxy_user agent_conn proxy_user_name ;; ret (-1, [])
  | Some (Some row) =>
    password ← deref (row !! 2%nat); password ← deref password;
    r ← query_failed agent_conn (Grant_proxy user_name user_ip proxy_user_name);
    if r.1 : bool then ctc_drop_proxy_user agent_conn proxy_user_name ;; ret (r.2, password)
    else ret (0, password)
  end.

Definition proxy_user_of (conn_map_key : Z) : text := txt "proxy_" ++ txt (pretty conn_map_key).

Definition ctc_init_proxy_client (conn_map_key : Z) (user_name user_ip : text) : M (option Z * Z) :=
  agent ← ctc_init_agent_client;
  if negb (agent.2 =? 0) then ret (None, agent.2) else
  agent_conn ← deref agent.1;
  let proxy_user_name := proxy_user_of conn_map_key in
  u ← ctc_create_proxy_user agent_conn user_name user_ip proxy_user_name;
  if negb (u.1 =? 0) then ctc_close_mysql_conn (Some agent_conn) ;; ret (None, u.1) else
  let con_host := if bool_decide (user_ip = txt "%") then my_localhost else user_ip in
  r ← ctc_mysql_conn con_host proxy_user_name (Some u.2);
  curr_conn ← (if negb (r.2 =? 0) then ctc_close_mysql_conn r.1 ;; ret None else ret r.1);
  ctc_drop_proxy_user agent_conn proxy_user_name ;;
  ctc_close_mysql_conn (Some agent_conn) ;;
  ret (curr_conn, r.2).

(** The connection of the session, or the error.  The server has started. *)
Definition ctc_init_mysql_client (conn_map_key : Z) (db user_name user_ip : text) (use_proxy : bool) : M (Z + Z) :=
  let use_proxy := if opt_noacl E && bool_decide (user_name = txt "skip-grants user") then false else use_proxy in
  w ← get;
  let old := match g_mysql_conn_map w !! conn_map_key with None => None | Some i => Some (conn i) end in
  r ← match old with
      | None => ret None
      | Some h =>
        r ← ctc_select_db h db;
        if r =? 0 then ret (Some h)
        else
          modify (fun w => set_map (delete conn_map_key (g_mysql_conn_map w)) w) ;;
          ctc_close_mysql_conn (Some h) ;; ret None
      end;
  match r with
  | Some h => ret (inl h)
  | None =>
    c ← (if use_proxy then ctc_init_proxy_client conn_map_key user_name user_ip else ctc_init_agent_client);
    if negb (c.2 =? 0) then ret (inr c.2) else
    h ← deref c.1;
    query_failed h Set_lock_wait_timeout ;;
    r ← ctc_select_db h db;
    if negb (r =? 0) then ctc_close_mysql_conn (Some h) ;; ret (inr r)
    else modify (fun w => set_map (<[conn_map_key := mk_conn h [] false 0]> (g_mysql_conn_map w)) w) ;; ret (inl h)
  end.

Definition sub_g_name_locks (n : Z) : M unit := modify (fun w => set_name_locks (uint32 (g_name_locks w - n)) w).
Definition add_g_name_locks (n : Z) : M unit := modify (fun w => set_name_locks (uint32 (g_name_locks w + n)) w).

Definition close_mysql_conn_by_key (conn_map_key : Z) : M unit :=
  w ← get;
  match g_mysql_conn_map w !! conn_map_key with
  | None => ret tt
  | Some i =>
    ctc_close_mysql_conn (Some (conn i)) ;;
    sub_g_name_locks (conn_name_locks i) ;;
    modify (fun w => set_map (delete conn_map_key (g_mysql_conn_map w)) w)
  end.

Definition keys_in_order (m : gmap Z conn_info) : list Z := merge_sort Z.le (map fst (map_to_list m)).

Definition close_mysql_conn_by_inst_id (inst_id : Z) (by_mysql_inst : bool) : M unit :=
  w ← get;
  for_each (keys_in_order (g_mysql_conn_map w)) (fun k =>
    let find_id := if by_mysql_inst then MetaData.ctc_get_inst_id_from_conn_key k
                   else MetaData.ctc_get_cantian_id_from_conn_key k in
    if find_id =? inst_id then close_mysql_conn_by_key k else ret tt).

Definition close_mysql_connection (thd_id mysql_inst_id : Z) : M Z :=
  (if thd_id =? 0 then
     if wrapU 16 mysql_inst_id =? MetaData.CANTIAN_DOWN_MASK
     then close_mysql_conn_by_inst_id (Z.shiftr mysql_inst_id 16) false
     else close_mysql_conn_by_inst_id mysql_inst_id true
   else
     close_mysql_conn_by_key (MetaData.ctc_get_conn_key mysql_inst_id thd_id true) ;;
     close_mysql_conn_by_key (MetaData.ctc_get_conn_key mysql_inst_id thd_id false)) ;;
  ret 0.

(** ** Statements of other nodes *)

Definition is_backup_lock_op (c : DdlRewriter.sqlcom) : bool :=
  bool_decide (c = DdlRewriter.SQLCOM_LOCK_INSTANCE) || bool_decide (c = DdlRewriter.SQLCOM_UNLOCK_INSTANCE).

Definition ctc_use_proxy (c : DdlRewriter.sqlcom) : M bool :=
  role ← ctc_get_cluster_role; ret (negb (role =? ROLE_STANDBY) && negb (is_backup_lock_op c)).

Definition ctc_execute_rewrite_open_conn (thd_id : Z) (r : request) : M Z :=
  if r_inst r =? ctc_instance_id E then ret 0 else
  use_proxy ← ctc_use_proxy (r_command r);
  c ← ctc_init_mysql_client (MetaData.ctc_get_conn_key (r_inst r) thd_id use_proxy) (r_db r) (r_user r) (r_ip r) use_proxy;
  match c with inr e => ret e | inl h => mysql_store_result h ;; ret 0 end.

Definition set_explicit_table_lock (conn_map_key : Z) (c : DdlRewriter.sqlcom) : M unit :=
  let set (b : bool) := w ← get; i ← deref (g_mysql_conn_map w !! conn_map_key);
    modify (fun w => set_map (<[conn_map_key := mk_conn (conn i) (table_lock_info i) b (conn_name_locks i)]> (g_mysql_conn_map w)) w) in
  if bool_decide (c = DdlRewriter.SQLCOM_LOCK_TABLES) then set true
  else if bool_decide (c = DdlRewriter.SQLCOM_UNLOCK_TABLES) then set false else ret tt.

Definition CTC_OPEN_NO_CHECK_FK_FOR_CURRENT_SQL : Z := Z.shiftl 1 6.

Definition CTC_SET_VARIABLE_WITH_SUBSELECT : Z := Z.shiftl 1 0.

Definition needs_seed (c : DdlRewriter.sqlcom) : bool :=
  bool_decide (c ∈ [DdlRewriter.SQLCOM_CREATE_USER; DdlRewriter.SQLCOM_ALTER_USER; DdlRewriter.SQLCOM_SET_PASSWORD]).

(** [SET SESSION foreign_key_checks], if the statement asks for it: the error *)
Definition set_foreign_key_checks (h : Z) (r : request) (b : bool) : M (option Z) :=
  if Z.land (r_options r) CTC_OPEN_NO_CHECK_FK_FOR_CURRENT_SQL =? 0 then ret None else
  x ← ctc_mysql_query h (Set_foreign_key_checks b);
  if x =? 0 then ret None else e ← mysql_errno h; ctc_close_mysql_conn (Some h) ;; ret (Some e).

(** The value and [allow_fail] *)
Definition ctc_ddl_execute_update (thd_id : Z) (r : request) (allow_fail : bool) : M (Z * bool) :=
  if r_inst r =? ctc_instance_id E then ret (0, allow_fail) else
  if metadata_normalized E && (negb (bool_decide (r_command r = DdlRewriter.SQLCOM_SET_OPTION))
                               || (Z.land (r_options r) CTC_SET_VARIABLE_WITH_SUBSELECT =? 0))
  then ret (0, allow_fail) else
  use_proxy ← ctc_use_proxy (r_command r);
  let conn_map_key := MetaData.ctc_get_conn_key (r_inst r) thd_id use_proxy in
  c ← ctc_init_mysql_client conn_map_key (r_db r) (r_user r) (r_ip r) use_proxy;
  match c with
  | inr e => ret (e, allow_fail)
  | inl h =>
    seed ← (if needs_seed (r_command r) then ctc_mysql_query h (Set_random_password_seed (txt (pretty thd_id))) else ret 0);
    if negb (seed =? 0) then ret (seed, allow_fail) else
    fk ← set_foreign_key_checks h r false;
    match fk with
    | Some e => ret (e, allow_fail)
    | None =>
      q ← query_failed h (Sql (r_sql r));
      if q.1 : bool then ret (q.2, allow_fail) else
      fk ← set_foreign_key_checks h r true;
      match fk with
      | Some e => ret (e, allow_fail)
      | None => set_explicit_table_lock conn_map_key (r_command r) ;; mysql_store_result h ;; ret (0, false)
      end
    end
  end.

Definition ER_DISALLOWED_OPERATION_number : Z := 3554.       (* of the server *)

(** The value and what is stored in [err_code], if anything *)
Definition ctc_ddl_get_lock (h conn_map_key : Z) (lock_name : text) : M (Z * option Z) :=
  q ← query_failed h (Get_lock (md5_hex E lock_name));
  if q.1 : bool then ret (q.2, Some q.2) else
  result ← mysql_store_result h;
  match result with
  | None => ret (1, Some 0)
  | Some row =>
    row ← deref row; v ← deref (row !! 0%nat); v ← deref v;
    if atoi v =? 0 then ret (-1, Some ER_DISALLOWED_OPERATION_number) else
    w ← get;
    match g_mysql_conn_map w !! conn_map_key with
    | None => ret (0, Some 0)
    | Some i =>
      modify (fun w => set_map (<[conn_map_key := mk_conn (conn i) (table_lock_info i) (has_explicit_table_lock i) (uint32 (conn_name_locks i + 1))]>
                         (g_mysql_conn_map w)) w) ;;
      add_g_name_locks 1 ;; ret (0, Some 0)
    end
  end.

Definition ctc_check_table_exist (h : Z) (db_name table_name : text) (err : option Z) : M (Z * option Z) :=
  q ← ctc_mysql_query h (Table_exists db_name table_name);
  result ← mysql_store_result h;
  if negb (q =? 0) || bool_decide (result = None) then e ← mysql_errno h; ret (-1, Some e) else
  row ← deref result; row ← deref row; v ← deref (row !! 0%nat); v ← deref v; ret (atoi v, err).

(** The order of [std::set<pair<string, string>>] *)
Fixpoint text_compare (a b : text) : comparison :=
  match a, b with
  | [], [] => Eq
  | [], _ => Lt
  | _, [] => Gt
  | x :: a, y :: b => match code x ?= code y with Eq => text_compare a b | c => c end
  end.
Definition pair_compare (x y : text * text) : comparison :=
  match text_compare x.1 y.1 with Eq => text_compare x.2 y.2 | c => c end.
Fixpoint set_insert (x : text * text) (l : list (text * text)) : list (text * text) :=
  match l with
  | [] => [x]
  | y :: l' => match pair_compare x y with Lt => x :: l | Eq => l | Gt => y :: set_insert x l' end
  end.

(** The loop over the tables: whether they all exist *)
Fixpoint all_exist (h : Z) (l : list (text * text)) (err : option Z) : M (bool * option Z) :=
  match l with
  | [] => ret (true, err)
  | x :: l => r ← ctc_check_table_exist h x.1 x.2 err; if r.1 <=? 0 then ret (false, r.2) else all_exist h l r.2
  end.

Definition skips_lock_table (c : DdlRewriter.sqlcom) : bool :=
  bool_decide (c ∈ [DdlRewriter.SQLCOM_CREATE_TABLE; DdlRewriter.SQLCOM_DROP_VIEW; DdlRewriter.SQLCOM_CREATE_VIEW]).

Definition info_of (conn_map_key : Z) : M conn_info := w ← get; deref (g_mysql_conn_map w !! conn_map_key).
Definition set_tables (conn_map_key : Z) (f : list (text * text) -> list (text * text)) : M unit :=
  i ← info_of conn_map_key;
  modify (fun w => set_map (<[conn_map_key := mk_conn (conn i) (f (table_lock_info i)) (has_explicit_table_lock i) (conn_name_locks i)]>
                              (g_mysql_conn_map w)) w).

Definition is_same_node (tch : MetaData.ctc_handler) : bool := MetaData.inst_id tch =? ctc_instance_id E.
Definition conn_key_of (tch : MetaData.ctc_handler) : Z :=
  MetaData.ctc_get_conn_key (MetaData.inst_id tch) (MetaData.thd_id tch) (negb (is_same_node tch)).

Definition ctc_ddl_execute_lock_tables (tch : MetaData.ctc_handler) (db user ip : text) (lock_info : MetaData.lock_table_info)
  : M (Z * option Z) :=
  let conn_map_key := conn_key_of tch in
  c ← ctc_init_mysql_client conn_map_key db user ip (negb (is_same_node tch));
  match c with
  | inr e => ret (e, Some e)
  | inl h =>
    let d := MetaData.db_name lock_info in let t := MetaData.table_name lock_info in
    if bool_decide (t = []) then ctc_ddl_get_lock h conn_map_key d else
    r ← ctc_ddl_get_lock h conn_map_key (d ++ txt "." ++ t);
    if negb (r.1 =? 0) then ret r else
    if is_same_node tch then ret r else
    if skips_lock_table (MetaData.sql_type lock_info) then ret r else
    i ← info_of conn_map_key;
    if has_explicit_table_lock i then ret r else
    x ← ctc_check_table_exist h d t r.2;
    (if 0 <? x.1 then set_tables conn_map_key (set_insert (d, t)) else ret tt) ;;
    i ← info_of conn_map_key;
    ok ← all_exist h (table_lock_info i) x.2;
    if negb ok.1 then ret (0, ok.2) else
    if bool_decide (table_lock_info i = []) then ret (0, ok.2) else
    q ← query_failed_with h (Lock_tables (table_lock_info i));
    ret (q.1.2, if q.1.1 : bool then Some q.2 else ok.2)
  end.

Definition ctc_ddl_execute_unlock_tables (tch : MetaData.ctc_handler) : M Z :=
  let conn_map_key := conn_key_of tch in
  w ← get;
  match g_mysql_conn_map w !! conn_map_key with
  | None => ret 0
  | Some i =>
    let h := conn i in
    r ← ctc_mysql_query h Release_all_locks;
    if negb (r =? 0) then close_mysql_conn_by_key conn_map_key ;; ret 0 else
    mysql_store_result h ;;
    w ← get;
    (match g_mysql_conn_map w !! conn_map_key with
    | None => ret tt
    | Some i =>
      let one := 0 <? conn_name_locks i in
      modify (fun w => set_map (<[conn_map_key := mk_conn (conn i) [] (has_explicit_table_lock i) (conn_name_locks i - if one then 1 else 0)]>
                         (g_mysql_conn_map w)) w) ;;
      if one then sub_g_name_locks 1 else ret tt
    end) ;;
    if is_same_node tch then close_mysql_conn_by_key conn_map_key ;; ret 0 else
    i ← info_of conn_map_key;
    if has_explicit_table_lock i then ret 0 else
    r ← ctc_mysql_query h Unlock_tables;
    if negb (r =? 0) then close_mysql_conn_by_key conn_map_key ;; ret 0 else
    mysql_store_result h ;; ret 0
  end.

Inductive remote_request :=
  | Open_conn (thd_id : Z) (r : request)
  | Execute_update (thd_id : Z) (r : request) (allow_fail : bool)
  | Lock_table (tch : MetaData.ctc_handler) (db user ip : text) (i : MetaData.lock_table_info)
  | Unlock_table (tch : MetaData.ctc_handler)
  | Close_connection (thd_id mysql_inst_id : Z)
  | Set_cluster_role (is_slave : bool).

Definition serve (r : remote_request) : M Z :=
  match r with
  | Open_conn t r => ctc_execute_rewrite_open_conn t r
  | Execute_update t r b => x ← ctc_ddl_execute_update t r b; ret x.1
  | Lock_table tch db user ip i => x ← ctc_ddl_execute_lock_tables tch db user ip i; ret x.1
  | Unlock_table tch => ctc_ddl_execute_unlock_tables tch
  | Close_connection t i => close_mysql_connection t i
  | Set_cluster_role b => ctc_set_cluster_role_by_cantian b
  end.

End Model.

(** ** What the server holds for a connection *)

Section Spec.

(** Events that take or give back names, or make users *)
Definition is_mark (x : event * answer) : bool :=
  match x.1 with
  | Query _ (Create_user _) | Query _ (Drop_user _) | Query _ (Get_lock _) | Query _ Release_all_locks | Close _ => true
  | _ => false
  end.
Definition marks (l : log) : log := List.filter is_mark l.

Definition succeeded (a : answer) : bool := (a_ret a =? 0) && (a_errno a =? 0).

(** [GET_LOCK] returned other than 0. *)
Definition granted (a : answer) : bool :=
  succeeded a && match a_result a with Some (Some (Some v :: _)) => negb (atoi v =? 0) | _ => false end.

(** The named locks of a connection: those that it took since it released all
    of them.  The latest event is the first one. *)
Fixpoint held (h : Z) (l : log) : Z :=
  match l with
  | [] => 0
  | (ev, a) :: l =>
    match ev with
    | Query h' (Get_lock _) => if (h' =? h) && granted a then 1 + held h l else held h l
    | Query h' Release_all_locks => if (h' =? h) && (a_ret a =? 0) then 0 else held h l
    | Close h' => if h' =? h then 0 else held h l
    | _ => held h l
    end
  end.

(** All locks that were ever granted *)
Fixpoint grants (l : log) : Z :=
  match l with
  | [] => 0
  | (ev, a) :: l => match ev with Query _ (Get_lock _) => if granted a then 1 + grants l else grants l | _ => grants l end
  end.

(** The users that were made and are there *)
Fixpoint users (l : log) : list text :=
  match l with
  | [] => []
  | (ev, a) :: l =>
    match ev with
    | Query _ (Create_user n) => if succeeded a then n :: users l else users l
    | Query _ (Drop_user n) => if a_ret a =? 0 then List.filter (fun m => bool_decide (m <> n)) (users l) else users l
    | _ => users l
    end
  end.

Lemma grants_nonneg l : 0 <= grants l.
Proof. induction l as [|[ev a] l IH]; cbn; [lia|]. destruct ev as [| | | | |h []| | | |]; try done. destruct (granted a); lia. Qed.

Lemma held_nonneg h l : 0 <= held h l.
Proof.
  induction l as [|[ev a] l IH]; cbn; [lia|]. destruct ev as [| | | | |h' []|h'| | |]; try lia; destruct (h' =? h); cbn; try lia.
  - destruct (granted a); lia.
  - destruct (a_ret a =? 0); lia.
Qed.

Definition total_locks (m : gmap Z conn_info) : Z := map_fold (fun _ i s => conn_name_locks i + s) 0 m.

Lemma locks_insert k i m : m !! k = None -> total_locks (<[k := i]> m) = conn_name_locks i + total_locks m.
Proof. intros H. unfold total_locks. rewrite map_fold_insert_L; [done|intros; lia|done]. Qed.

Lemma locks_delete k i m : m !! k = Some i -> total_locks m = conn_name_locks i + total_locks (delete k m).
Proof. intros H. rewrite <- (insert_delete_id m k i H) at 1. apply locks_insert, lookup_delete_eq. Qed.

Lemma locks_update k i0 i m : m !! k = Some i0 ->
  total_locks (<[k := i]> m) = total_locks m + conn_name_locks i - conn_name_locks i0.
Proof.
  intros H. rewrite (locks_delete k i0 m H), <- insert_delete_eq, locks_insert by apply lookup_delete_eq. lia.
Qed.

Lemma locks_nonneg m : (forall k i, m !! k = Some i -> 0 <= conn_name_locks i) -> 0 <= total_locks m.
Proof.
  unfold total_locks. intros H. apply (map_fold_weak_ind (fun s m' => (forall k i, m' !! k = Some i -> 0 <= conn_name_locks i) -> 0 <= s) _ _); try done.
  intros k i m' s Hk IH H'. specialize (H' k i (lookup_insert_eq _ _ _)) as Hi.
  assert (0 <= s); [|lia]. apply IH. intros k' i' Hk'. apply (H' k'). rewrite lookup_insert_ne; [done|]. intros ->. congruence.
Qed.

End Spec.

(** ** The invariant *)

(** [X]: handles that are open and in no entry.  A connection that is open is
    in just one entry or one of these; new ones hold nothing. *)
Record shape (X : gset Z) (m : gmap Z conn_info) (w : world) : Prop := mk_shape {
  s_map : g_mysql_conn_map w = m;
  s_open : forall k i, m !! k = Some i -> (conn i ∉ X) /\ is_Some (handles w !! conn i);
  s_inj : forall k1 k2 i1 i2, m !! k1 = Some i1 -> m !! k2 = Some i2 -> conn i1 = conn i2 -> k1 = k2;
  s_extra : forall h, h ∈ X -> is_Some (handles w !! h);
  s_all : forall h, is_Some (handles w !! h) -> h ∈ X \/ exists k i, m !! k = Some i /\ conn i = h;
  s_fresh : forall h, is_Some (handles w !! h) -> h < next_handle w;
  s_new : forall h, h ∈ X \/ next_handle w <= h -> held h (marks (w_log w)) = 0 }.

(** No entry counts less locks than its connection holds, and the counter is
    theirs and what is counted for nobody. *)
Definition counted (m : gmap Z conn_info) (l : log) (g : Z) : Prop :=
  (forall k i, m !! k = Some i -> held (conn i) l <= conn_name_locks i) /\
  exists leaked, 0 <= leaked /\ total_locks m + leaked <= grants l /\ g = total_locks m + leaked.

Definition counts (m : gmap Z conn_info) (w : world) : Prop :=
  grants (marks (w_log w)) < 2 ^ 32 -> counted m (marks (w_log w)) (g_name_locks w).

Record inv (X : gset Z) (U : list text) (m : gmap Z conn_info) (w : world) : Prop := mk_inv {
  i_shape : shape X m w;
  i_users : users (marks (w_log w)) = U;
  i_counts : counts m w }.

(** Nothing changes but answers and [l] *)
Record step (w w' : world) (l : log) : Prop := mk_step {
  st_map : g_mysql_conn_map w' = g_mysql_conn_map w;
  st_locks : g_name_locks w' = g_name_locks w;
  st_handles : forall h, (is_Some (handles w' !! h)) <-> (is_Some (handles w !! h));
  st_next : next_handle w' = next_handle w;
  st_log : marks (w_log w') = l ++ marks (w_log w) }.

Lemma step_refl w : step w w [].
Proof. by constructor. Qed.

Lemma step_trans w1 w2 w3 l1 l2 : step w1 w2 l1 -> step w2 w3 l2 -> step w1 w3 (l2 ++ l1).
Proof.
  intros [] []. constructor; try congruence.
  - intros h. by rewrite st_handles1, st_handles0.
  - by rewrite st_log1, st_log0, app_assoc.
Qed.

Lemma step_quiet w1 w2 w3 l : step w1 w2 [] -> step w2 w3 l -> step w1 w3 l.
Proof. intros H1 H2. rewrite <- (app_nil_r l). by eapply step_trans. Qed.

Lemma quiet_inv X U m w w' : inv X U m w -> step w w' [] -> inv X U m w'.
Proof.
  intros [[] Hu Hc] S. pose proof (st_log _ _ _ S) as Hl. cbn [app] in Hl.
  destruct S as [Hm Hg Hs Hn _]. constructor.
  - constructor; try congruence.
    + intros k i Hk. destruct (s_open0 _ _ Hk) as [H1 H2]. split; [done|by apply Hs].
    + done.
    + intros h Hh. by apply Hs, s_extra0.
    + intros h Hh. by apply s_all0, Hs.
    + intros h Hh. rewrite Hn. by apply s_fresh0, Hs.
    + intros h. rewrite Hn, Hl. apply s_new0.
  - by rewrite Hl.
  - unfold counts. by rewrite Hl, Hg.
Qed.

(** Code that uses a handle and leaves no mark *)
Definition quiet {A} (h : Z) (m : M A) : Prop :=
  forall w, is_Some (handles w !! h) -> exists a w', m w = Some (a, w') /\ step w w' [].

Section Calls.
Context (E : env).

Lemma quiet_ret {A} h (a : A) : quiet h (ret a).
Proof. intros w _. exists a, w. split; [done|apply step_refl]. Qed.

Lemma quiet_bind {A B} h (m : M A) (k : A -> M B) : quiet h m -> (forall a, quiet h (k a)) -> quiet h (m ≫= k).
Proof.
  intros Hm Hk w Hw. destruct (Hm w Hw) as (a & w1 & H1 & S1).
  destruct (Hk a w1) as (b & w2 & H2 & S2); [by apply S1|]. exists b, w2. rewrite (bind_some _ _ _ _ _ H1).
  split; [done|]. by eapply step_quiet.
Qed.

Lemma quiet_modify h f : (forall w, step w (f w) []) -> quiet h (modify f).
Proof. intros Hf w _. by exists tt, (f w). Qed.

Lemma quiet_ask h ev : is_mark (ev, mk_answer 0 0 [] None) = false -> quiet h (ask E ev).
Proof.
  intros H w _. do 2 eexists. split; [reflexivity|]. constructor; try done. cbn [w_log app]. unfold marks. cbn [List.filter].
  change (is_mark (ev, oracle E (w_log w) ev)) with (is_mark (ev, mk_answer 0 0 [] None)). by rewrite H.
Qed.

Lemma insert_is_Some (hs : gmap Z answer) h a h' : is_Some (hs !! h) -> (is_Some (<[h := a]> hs !! h')) <-> (is_Some (hs !! h')).
Proof. intros H. destruct (decide (h' = h)) as [->|Hne]; [rewrite lookup_insert_eq; naive_solver|by rewrite lookup_insert_ne]. Qed.

(** A call on a handle: its answer stays with the handle. *)
Lemma on_handle_run h ev w : is_Some (handles w !! h) ->
  exists w', on_handle E h ev w = Some (oracle E (w_log w) ev, w') /\ handles w' !! h = Some (oracle E (w_log w) ev) /\
    step w w' (marks [(ev, oracle E (w_log w) ev)]).
Proof.
  intros [a Ha]. unfold on_handle, ask. exec. rewrite Ha. cbn. eexists. split; [reflexivity|]. cbn. split; [apply lookup_insert_eq|].
  constructor; try done.
  - intros h'. cbn. apply insert_is_Some. by eexists.
  - cbn [w_log set_handles]. unfold marks. cbn [List.filter]. by destruct (is_mark _).
Qed.

Lemma quiet_on h ev : is_mark (ev, mk_answer 0 0 [] None) = false -> quiet h (on_handle E h ev).
Proof.
  intros H w Hw. destruct (on_handle_run h ev w Hw) as (w' & H1 & _ & S). do 2 eexists. split; [exact H1|].
  unfold marks in S. cbn [List.filter] in S. change (is_mark (ev, oracle E (w_log w) ev)) with (is_mark (ev, mk_answer 0 0 [] None)) in S.
  by rewrite H in S.
Qed.

Lemma quiet_get {A} h (k : world -> M A) : (forall w, quiet h (k w)) -> quiet h (get ≫= k).
Proof. intros H w Hw. exact (H w w Hw). Qed.

Lemma quiet_if {A} h (b : bool) (m1 m2 : M A) : quiet h m1 -> quiet h m2 -> quiet h (if b then m1 else m2).
Proof. by destruct b. Qed.

Lemma quiet_role h : quiet h (ctc_get_cluster_role E).
Proof.
  apply quiet_get. intros w. apply quiet_if; [apply quiet_ret|]. apply quiet_bind; [by apply quiet_ask|]. intros a.
  apply quiet_if; (apply quiet_bind; [|intros u]); try (apply quiet_bind; [|intros u']); try apply quiet_ret; try by apply quiet_modify.
  repeat apply quiet_if; try apply quiet_ret; by apply quiet_modify.
Qed.

Lemma quiet_role_switch h (b : bool) f : (forall w, step w (f w) []) -> quiet h (if b then modify f else ret tt).
Proof. intros H. apply quiet_if; [by apply quiet_modify|apply quiet_ret]. Qed.

Lemma quiet_select h db : quiet h (ctc_select_db E h db).
Proof.
  apply quiet_if; [apply quiet_ret|]. apply quiet_bind; [by apply quiet_on|]. intros a.
  apply quiet_bind; [by apply quiet_on|]. intros b. apply quiet_ret.
Qed.

Lemma quiet_compression h a : quiet h (match wanted_compression a with None => ret tt | Some z => on_handle E h (Use_compression h z) ;; ret tt end).
Proof. destruct (wanted_compression a); [|apply quiet_ret]. apply quiet_bind; [by apply quiet_on|]. intros u. apply quiet_ret. Qed.

Lemma quiet_connect h host user pw : forall n d, quiet h (connect_loop E n h host user pw d).
Proof.
  induction n as [|n IH]; intros d; cbn [connect_loop]; (apply quiet_bind; [by apply quiet_on|]); intros a; apply quiet_if;
    try apply quiet_ret.
  apply quiet_bind; [apply quiet_if; [apply quiet_bind; [by apply quiet_modify|]; intros u; apply quiet_ret|apply quiet_ret]|].
  intros d'. apply quiet_bind; [apply quiet_if; [apply quiet_compression|apply quiet_ret]|]. intros u. apply IH.
Qed.

Lemma quiet_inc h n : quiet h (inc_conn_count n).
Proof. induction n as [|n IH]; cbn [inc_conn_count]; [apply quiet_ret|]. apply quiet_bind; [by apply quiet_modify|]. intros u. apply IH. Qed.

(** Before and behind a statement *)
Definition before (h : Z) : M unit :=
  ask E Reset_mqh ;; on_handle E h (Ping h) ;;
  role ← ctc_get_cluster_role E; if role =? ROLE_STANDBY then ctc_reset_mysql_read_only else ret tt.
Definition behind : M unit :=
  role ← ctc_get_cluster_role E; if role =? ROLE_STANDBY then ctc_set_mysql_read_only else ret tt.

Lemma query_split h s w u w1 a w2 w3 : before h w = Some (u, w1) -> on_handle E h (Query h s) w1 = Some (a, w2) ->
  behind w2 = Some (tt, w3) -> ctc_mysql_query E h s w = Some (a_ret a, w3).
Proof.
  unfold before, behind, ctc_mysql_query. intros H1 H2 H3.
  apply st_bind_inv in H1 as (a0 & v0 & H0 & H1). rewrite (bind_some _ _ _ _ _ H0).
  apply st_bind_inv in H1 as (a1 & v1 & H4 & H1). rewrite (bind_some _ _ _ _ _ H4).
  apply st_bind_inv in H1 as (r & v2 & H5 & H1). rewrite (bind_some _ _ _ _ _ H5), (bind_some _ _ _ _ _ H1), (bind_some _ _ _ _ _ H2).
  apply st_bind_inv in H3 as (r' & v3 & H6 & H3). rewrite (bind_some _ _ _ _ _ H6). by rewrite (bind_some _ _ _ _ _ H3).
Qed.

Lemma behind_run w : exists w', behind w = Some (tt, w') /\ step w w' [] /\ handles w' = handles w.
Proof.
  unfold behind, ctc_get_cluster_role, ctc_set_mysql_read_only, ctc_reset_mysql_read_only, ask. exec.
  repeat first [case_match | progress cbn in * | progress simplify_eq]; try done;
    (eexists; split; [reflexivity|]; split; [by constructor|done]).
Qed.

(** A statement: its answer stays with the handle too. *)
Lemma query_run h s w : is_Some (handles w !! h) ->
  exists (l : log) w', ctc_mysql_query E h s w = Some (a_ret (oracle E l (Query h s)), w') /\ handles w' !! h = Some (oracle E l (Query h s)) /\ step w w' (marks [(Query h s, oracle E l (Query h s))]).
Proof.
  intros Hw.
  assert (Hpre : quiet h (before h)).
  { apply quiet_bind; [by apply quiet_ask|]. intros u. apply quiet_bind; [by apply quiet_on|]. intros u'.
    apply quiet_bind; [apply quiet_role|]. intros r. by apply quiet_role_switch. }
  destruct (Hpre w Hw) as (u & w1 & H1 & S1). assert (Hw1 : is_Some (handles w1 !! h)) by (by apply S1).
  destruct (on_handle_run h (Query h s) w1 Hw1) as (w2 & H2 & Ha & S2). destruct (behind_run w2) as (w3 & H3 & S3 & Hh3).
  exists (w_log w1), w3. split; [by eapply query_split|]. split; [by rewrite Hh3|].
  eapply step_quiet; [exact S1|]. rewrite <- (app_nil_l (marks _)). by eapply step_trans.
Qed.
End Calls.

(** ** Requests keep the invariant *)

(** What the client library and the server document, and what the code relies
    on without a check: users can be dropped, [foreign_key_checks] can be set,
    the results of these statements have a row with values. *)
Record polite (E : env) : Prop := mk_polite {
  drop_works l h n : a_ret (oracle E l (Query h (Drop_user n))) = 0;
  fk_works l h b : a_ret (oracle E l (Query h (Set_foreign_key_checks b))) = 0;
  create_row l h n row : a_result (oracle E l (Query h (Create_user n))) = Some (Some row) -> exists p, row !! 2%nat = Some (Some p);
  lock_row l h n r : succeeded (oracle E l (Query h (Get_lock n))) = true -> a_result (oracle E l (Query h (Get_lock n))) = Some r ->
    exists v row, r = Some (Some v :: row);
  lock_result l h n : granted (oracle E l (Query h (Get_lock n))) = false \/ is_Some (a_result (oracle E l (Query h (Get_lock n))));
  exists_row l h d t r : a_ret (oracle E l (Query h (Table_exists d t))) = 0 -> a_result (oracle E l (Query h (Table_exists d t))) = Some r ->
    exists v row, r = Some (Some v :: row) }.

Section Invariant.
Context (E : env) (P : polite E).

Lemma quiet_query h s : is_mark (Query h s, mk_answer 0 0 [] None) = false -> quiet h (ctc_mysql_query E h s).
Proof.
  intros H w Hw. destruct (query_run E h s w Hw) as (l & w' & H1 & _ & S). do 2 eexists. split; [exact H1|].
  unfold marks in S. cbn [List.filter] in S.
  change (is_mark (Query h s, oracle E l (Query h s))) with (is_mark (Query h s, mk_answer 0 0 [] None)) in S. by rewrite H in S.
Qed.

Lemma quiet_errno h : quiet h (mysql_errno h).
Proof. intros w [a Ha]. unfold mysql_errno. exec. rewrite Ha. do 2 eexists. split; [reflexivity|apply step_refl]. Qed.

Lemma store_run h w a : handles w !! h = Some a -> mysql_store_result h w = Some (a_result a, w).
Proof. intros Ha. unfold mysql_store_result. by rewrite get_step, Ha. Qed.

Lemma quiet_store h : quiet h (mysql_store_result h).
Proof. intros w [a Ha]. unfold mysql_store_result. exec. rewrite Ha. do 2 eexists. split; [reflexivity|apply step_refl]. Qed.

Lemma quiet_failed_with h s : is_mark (Query h s, mk_answer 0 0 [] None) = false -> quiet h (query_failed_with E h s).
Proof.
  intros H. apply quiet_bind; [by apply quiet_query|]. intros r. apply quiet_bind; [apply quiet_errno|]. intros e. apply quiet_ret.
Qed.

Lemma quiet_failed h s : is_mark (Query h s, mk_answer 0 0 [] None) = false -> quiet h (query_failed E h s).
Proof. intros H. apply quiet_bind; [by apply quiet_failed_with|]. intros r. apply quiet_ret. Qed.

(** *** Handles that are in no entry *)

Lemma quiet_loose {A} X U m h (c : M A) : quiet h c -> h ∈ X -> total (inv X U m) c (fun _ => inv X U m).
Proof.
  intros Hq Hh w Hw. destruct (Hq w (s_extra _ _ _ (i_shape _ _ _ _ Hw) h Hh)) as (a & w' & H & S). exists a, w'.
  split; [done|]. by eapply quiet_inv.
Qed.

Lemma init_run X U m : total (inv X U m) (mysql_init E) (fun r w =>
  match r with inl h => (h ∉ X) /\ inv ({[h]} ∪ X) U m w | inr e => e <> 0 /\ inv X U m w end).
Proof.
  intros w Hw. unfold mysql_init, ask. exec. cbn [a_ret].
  destruct (a_ret (oracle E (w_log w) Init) =? 0) eqn:Hr.
  - do 2 eexists. split; [reflexivity|]. cbn. destruct Hw as [[] Hu Hc].
    assert (Hx : handles w !! next_handle w = None).
    { destruct (handles w !! next_handle w) eqn:Hh; [|done]. specialize (s_fresh0 _ (mk_is_Some _ _ Hh)). lia. }
    split.
    { intros Hin. destruct (s_extra0 _ Hin) as [? ?]. congruence. }
    constructor; [|done|done]. constructor; cbn; try done.
    + intros k i Hk. destruct (s_open0 _ _ Hk) as [H1 [a Ha]]. assert (Hne : conn i <> next_handle w) by congruence.
      split; [clear -H1 Hne; set_solver|]. rewrite lookup_insert_ne by done. by eexists.
    + intros h [->%elem_of_singleton|Hh]%elem_of_union; [rewrite lookup_insert_eq; by eexists|].
      destruct (decide (h = next_handle w)) as [->|Hne]; [rewrite lookup_insert_eq; by eexists|].
      rewrite lookup_insert_ne by done. by apply s_extra0.
    + intros h Hh. destruct (decide (h = next_handle w)) as [->|Hne]; [left; clear; set_solver|]. rewrite lookup_insert_ne in Hh by done.
      destruct (s_all0 _ Hh) as [Hin|?]; [left; clear -Hin; set_solver|by right].
    + intros h Hh. destruct (decide (h = next_handle w)) as [->|Hne]; [lia|]. rewrite lookup_insert_ne in Hh by done.
      apply s_fresh0 in Hh. lia.
    + intros h Hh. apply s_new0. destruct Hh as [[->%elem_of_singleton|Hh]%elem_of_union|Hh]; [right; lia|by left|right; lia].
  - do 2 eexists. split; [reflexivity|]. cbn beta iota. split.
    + case_match; [done|]. zb. done.
    + eapply quiet_inv; [exact Hw|by constructor].
Qed.

(** A new connection *)
Definition connected (X : gset Z) (U : list text) (m : gmap Z conn_info) (r : option Z * Z) (w : world) : Prop :=
  match r.1 with
  | Some h => r.2 = 0 /\ (h ∉ X) /\ inv ({[h]} ∪ X) U m w
  | None => r.2 <> 0 /\ inv X U m w
  end.

Lemma conn_run X U m host user pw : total (inv X U m) (ctc_mysql_conn E host user pw) (connected X U m).
Proof.
  unfold ctc_mysql_conn. eapply total_bind; [apply init_run|]. intros [h|e].
  - intros w [Hx Hw].
    assert (Q : quiet h (connect_loop E CTC_CONN_MAX_RETRY_TIMES h host user pw 0 ≫= fun d => inc_conn_count (Z.to_nat d) ;; ret (Some h, 0))).
    { apply quiet_bind; [apply quiet_connect|]. intros d. apply quiet_bind; [apply quiet_inc|]. intros u. apply quiet_ret. }
    destruct (quiet_loose ({[h]} ∪ X) U m h _ Q ltac:(set_solver) w Hw) as (r & w' & H & Hw'). exists r, w'. split; [exact H|].
    apply st_bind_inv in H as (d & w1 & _ & H). apply st_bind_inv in H as (u & w2 & _ & H). injection H as <- <-. done.
  - intros w [He Hw]. by exists (None, e), w.
Qed.

Lemma agent_run X U m : total (inv X U m) (ctc_init_agent_client E) (connected X U m).
Proof.
  unfold ctc_init_agent_client. eapply total_bind with (Q := fun _ => inv X U m).
  { intros w Hw. do 2 eexists. split; [reflexivity|]. eapply quiet_inv; [exact Hw|by constructor]. }
  intros a. destruct (if a_ret a =? 0 then _ else _) as [user pw]. eapply total_bind; [apply conn_run|].
  intros [[h|] e] w Hc; cbn [fst snd connected] in *.
  - destruct Hc as (-> & Hx & Hw). by exists (Some h, 0), w.
  - destruct Hc as [He Hw]. rewrite (proj2 (Z.eqb_neq _ _) He). cbn. by exists (None, e), w.
Qed.

Lemma close_handle_run X U m h : h ∈ X -> total (inv X U m) (ctc_close_mysql_conn E (Some h)) (fun _ => inv (X ∖ {[h]}) U m).
Proof.
  intros Hh w [[] Hu Hc]. destruct (s_extra0 _ Hh) as [a Ha]. unfold ctc_close_mysql_conn, ask. exec. rewrite Ha. cbn.
  do 2 eexists. split; [reflexivity|].
  assert (Hheld : forall h', h' <> h -> held h' (marks ((Close h, oracle E (w_log w) (Close h)) :: w_log w)) = held h' (marks (w_log w))).
  { intros h' Hne. cbn. by rewrite (proj2 (Z.eqb_neq _ _)). }
  constructor; [constructor; cbn [set_handles handles next_handle w_log g_mysql_conn_map]|exact Hu|]; try done.
  - intros k i Hk. destruct (s_open0 _ _ Hk) as [H1 H2]. assert (conn i <> h) by (intros Heq; by rewrite Heq in H1).
    split; [set_solver|]. by rewrite lookup_delete_ne.
  - intros h' Hin. rewrite lookup_delete_ne by set_solver. apply s_extra0. set_solver.
  - intros h' [b Hb]. apply lookup_delete_Some in Hb as [Hne Hb]. destruct (s_all0 h' (mk_is_Some _ _ Hb)) as [?|?]; [left; set_solver|by right].
  - intros h' [b Hb]. apply lookup_delete_Some in Hb as [Hne Hb]. by apply s_fresh0.
  - intros h' Hn. destruct (decide (h' = h)) as [->|Hne]; [cbn; by rewrite Z.eqb_refl|]. rewrite Hheld by done.
    apply s_new0. set_solver.
  - unfold counts. cbn [set_handles g_name_locks w_log]. intros Hg. destruct (Hc Hg) as [C1 C2]. split; [|exact C2].
    intros k i Hk. rewrite Hheld; [by eapply C1|]. intros Heq. destruct (s_open0 _ _ Hk) as [H1 _]. by rewrite Heq in H1.
Qed.

(** *** Users *)

Lemma user_inv X U m w w' ev a : inv X U m w -> step w w' [(ev, a)] ->
  (forall h, held h ((ev, a) :: marks (w_log w)) = held h (marks (w_log w))) ->
  grants ((ev, a) :: marks (w_log w)) = grants (marks (w_log w)) ->
  inv X (users ((ev, a) :: marks (w_log w))) m w'.
Proof.
  intros [[] Hu Hc] S Hh Hg. pose proof (st_log _ _ _ S) as Hl. cbn [app] in Hl. destruct S as [Hm Hgl Hs Hn _].
  constructor; [constructor|by rewrite Hl|].
  - congruence.
  - intros k i Hk. destruct (s_open0 _ _ Hk) as [H1 H2]. split; [done|by apply Hs].
  - done.
  - intros h Hx. by apply Hs, s_extra0.
  - intros h Hx. by apply s_all0, Hs.
  - intros h Hx. rewrite Hn. by apply s_fresh0, Hs.
  - intros h. rewrite Hn, Hl, Hh. apply s_new0.
  - unfold counts. rewrite Hl, Hg, Hgl. intros Hb. destruct (Hc Hb) as [C1 C2]. split; [|by rewrite Hg].
    intros k i Hk. rewrite Hh. by eapply C1.
Qed.

Definition without (n : text) (U : list text) : list text := List.filter (fun m => bool_decide (m <> n)) U.

Lemma drop_run X U m h n : h ∈ X -> total (inv X U m) (ctc_drop_proxy_user E h n) (fun _ => inv X (without n U) m).
Proof.
  intros Hh w Hw. destruct (query_run E h (Drop_user n) w (s_extra _ _ _ (i_shape _ _ _ _ Hw) h Hh)) as (l & w' & H & _ & S).
  unfold ctc_drop_proxy_user. rewrite (bind_some _ _ _ _ _ H), drop_works by done. exists tt, w'. split; [done|].
  pose proof (user_inv _ _ _ _ _ _ _ Hw S ltac:(done) ltac:(done)) as R. cbn [users] in R.
  by rewrite drop_works, (i_users _ _ _ _ Hw) in R.
Qed.

Lemma query_failed_run h s w : is_Some (handles w !! h) -> exists l w', let a := oracle E l (Query h s) in
  query_failed E h s w = Some ((negb (succeeded a), a_errno a), w') /\ handles w' !! h = Some a /\ step w w' (marks [(Query h s, a)]).
Proof.
  intros Hw. destruct (query_run E h s w Hw) as (l & w' & H & Ha & S). exists l, w'. cbn zeta. split; [|done].
  unfold query_failed, query_failed_with, mysql_errno. unfold mbind at 1, ST_bind at 1. rewrite (bind_some _ _ _ _ _ H).
  exec. rewrite Ha. cbn. unfold succeeded. by rewrite negb_andb.
Qed.

(** At most the user is there, and only when there is no error. *)
Definition user_made (X : gset Z) (n : text) (m : gmap Z conn_info) (r : Z * text) (w : world) : Prop :=
  exists U, inv X U m w /\ without n U = [] /\ (r.1 <> 0 -> U = []).

Lemma create_run X m h user ip n : h ∈ X ->
  total (inv X [] m) (ctc_create_proxy_user E h user ip n) (user_made X n m).
Proof.
  intros Hh w Hw. assert (Hn : without n [n] = []) by (cbn; by rewrite bool_decide_eq_false_2 by tauto).
  destruct (query_failed_run h (Create_user n) w (s_extra _ _ _ (i_shape _ _ _ _ Hw) h Hh)) as (l & w1 & H & Ha & S).
  unfold ctc_create_proxy_user. rewrite (bind_some _ _ _ _ _ H). cbn [fst snd].
  pose proof (user_inv _ _ _ _ _ _ _ Hw S ltac:(done) ltac:(done)) as R. cbn [users] in R. rewrite (i_users _ _ _ _ Hw) in R.
  destruct (succeeded _) eqn:Hs; cbn [negb].
  2:{ eexists _, w1. split; [reflexivity|]. by exists []. }
  rewrite (bind_some _ _ _ _ _ (store_run h w1 _ Ha)).
  assert (Hdrop : forall w2 e (p : text), inv X [n] m w2 -> exists r w3, (ctc_drop_proxy_user E h n ≫= fun _ => ret (e, p)) w2 = Some (r, w3) /\ user_made X n m r w3).
  { intros w2 e p H2. destruct (drop_run X [n] m h n Hh w2 H2) as ([] & w3 & H3 & I3). rewrite (bind_some _ _ _ _ _ H3).
    eexists _, w3. split; [reflexivity|]. exists []. by rewrite Hn in I3. }
  destruct (a_result (oracle E l (Query h (Create_user n)))) as [[row|]|] eqn:Hr; [|by apply Hdrop..].
  destruct (create_row _ P _ _ _ _ Hr) as [p Hp]. rewrite Hp, !deref_step.
  destruct (quiet_loose X [n] m h _ (quiet_failed h (Grant_proxy user ip n) eq_refl) Hh w1 R) as (q & w2 & H2 & I2).
  rewrite (bind_some _ _ _ _ _ H2). destruct q as [[] e]; cbn [fst snd].
  - by apply Hdrop.
  - eexists _, w2. split; [reflexivity|]. exists [n]. split; [done|]. split; [done|]. done.
Qed.

Lemma proxy_client_run m key user ip : total (inv ∅ [] m) (ctc_init_proxy_client E key user ip) (connected ∅ [] m).
Proof.
  intros w Hw. unfold ctc_init_proxy_client. destruct (agent_run ∅ [] m w Hw) as ([[a|] e] & w1 & H1 & C1);
    rewrite (bind_some _ _ _ _ _ H1); cbn [connected fst snd] in *.
  2:{ destruct C1 as [He I1]. rewrite (proj2 (Z.eqb_neq _ _) He). by exists (None, e), w1. }
  destruct C1 as (-> & _ & I1). cbn [negb Z.eqb]. rewrite deref_step. rewrite union_empty_r_L in I1.
  destruct (create_run {[a]} m a user ip (proxy_user_of key) ltac:(set_solver) w1 I1) as (u & w2 & H2 & U & I2 & HU & He2).
  rewrite (bind_some _ _ _ _ _ H2). destruct (u.1 =? 0) eqn:Hu; cbn [negb]; zb.
  2:{ rewrite (He2 Hu) in I2. destruct (close_handle_run {[a]} [] m a ltac:(set_solver) w2 I2) as ([] & w3 & H3 & I3).
      rewrite (bind_some _ _ _ _ _ H3). eexists _, w3. split; [reflexivity|]. split; [done|]. by replace ({[a]} ∖ {[a]}) with (∅ : gset Z) in I3 by set_solver. }
  set (host := if bool_decide (ip = txt "%") then my_localhost else ip).
  destruct (conn_run {[a]} U m host (proxy_user_of key) (Some u.2) w2 I2) as ([[h|] e] & w3 & H3 & C3);
    rewrite (bind_some _ _ _ _ _ H3); cbn [connected fst snd] in *.
  - destruct C3 as (-> & Hx & I3). cbn [negb Z.eqb]. rewrite ret_step.
    destruct (drop_run _ U m a (proxy_user_of key) (elem_of_union_r a {[h]} {[a]} (elem_of_singleton_2 _ _ eq_refl)) w3 I3) as ([] & w4 & H4 & I4). rewrite HU in I4.
    rewrite (bind_some _ _ _ _ _ H4). destruct (close_handle_run _ [] m a (elem_of_union_r a {[h]} {[a]} (elem_of_singleton_2 _ _ eq_refl)) w4 I4) as ([] & w5 & H5 & I5).
    rewrite (bind_some _ _ _ _ _ H5). eexists _, w5. split; [reflexivity|]. split; [done|]. split; [set_solver|].
    by replace (({[h]} ∪ {[a]}) ∖ {[a]}) with ({[h]} ∪ ∅ : gset Z) in I5 by set_solver.
  - destruct C3 as [He I3]. rewrite (proj2 (Z.eqb_neq _ _) He). cbn [negb ctc_close_mysql_conn].
    rewrite (bind_some _ _ w3 None w3 eq_refl).
    destruct (drop_run _ U m a (proxy_user_of key) (elem_of_singleton_2 a a eq_refl) w3 I3) as ([] & w4 & H4 & I4). rewrite HU in I4.
    rewrite (bind_some _ _ _ _ _ H4). destruct (close_handle_run _ [] m a (elem_of_singleton_2 a a eq_refl) w4 I4) as ([] & w5 & H5 & I5).
    rewrite (bind_some _ _ _ _ _ H5). eexists _, w5. split; [reflexivity|]. split; [done|].
    by replace ({[a]} ∖ {[a]}) with (∅ : gset Z) in I5 by set_solver.
Qed.

(** *** Entries *)

Definition good (w : world) : Prop := exists m, inv ∅ [] m w.

(** [h] is the connection of the session. *)
Definition has (key h : Z) (w : world) : Prop := exists m i, inv ∅ [] m w /\ m !! key = Some i /\ conn i = h.

Lemma has_good key h w : has key h w -> good w.
Proof. intros (m & i & H & _). by exists m. Qed.

Lemma has_open key h w : has key h w -> is_Some (handles w !! h).
Proof. intros (m & i & H & Hk & <-). by apply (s_open _ _ _ (i_shape _ _ _ _ H) key i). Qed.

Lemma has_entry key h w : has key h w -> exists i, g_mysql_conn_map w !! key = Some i /\ conn i = h /\ inv ∅ [] (g_mysql_conn_map w) w.
Proof. intros (m & i & H & Hk & Hc). exists i. by rewrite (s_map _ _ _ (i_shape _ _ _ _ H)). Qed.

Lemma good_inv w : good w -> inv ∅ [] (g_mysql_conn_map w) w.
Proof. intros (m & H). by rewrite (s_map _ _ _ (i_shape _ _ _ _ H)). Qed.

Lemma quiet_has {A} key h (c : M A) : quiet h c -> total (has key h) c (fun _ => has key h).
Proof.
  intros Hq w Hw. destruct (Hq w (has_open _ _ _ Hw)) as (a & w' & H & S). exists a, w'. split; [done|].
  destruct Hw as (m & i & Hi & Hk). exists m, i. split; [|done]. by eapply quiet_inv.
Qed.

(** The entry is gone and its connection closed; the counter may keep its locks. *)
Lemma entry_closed m k i w w' a : inv ∅ [] m w -> m !! k = Some i ->
  g_mysql_conn_map w' = delete k m -> handles w' = delete (conn i) (handles w) -> next_handle w' = next_handle w ->
  marks (w_log w') = (Close (conn i), a) :: marks (w_log w) ->
  g_name_locks w' = g_name_locks w \/ g_name_locks w' = uint32 (g_name_locks w - conn_name_locks i) ->
  inv ∅ [] (delete k m) w'.
Proof.
  intros [[] Hu Hc] Hk Hm Hh Hn Hl Hg.
  assert (Hother : forall k' i', delete k m !! k' = Some i' -> m !! k' = Some i' /\ conn i' <> conn i).
  { intros k' i' [Hne H]%lookup_delete_Some. split; [done|]. intros Heq. by destruct (Hne (s_inj0 _ _ _ _ Hk H (eq_sym Heq))). }
  constructor; [constructor|by rewrite Hl|].
  - done.
  - intros k' i' [H H']%Hother. destruct (s_open0 _ _ H) as [H1 H2]. split; [done|]. by rewrite Hh, lookup_delete_ne.
  - intros k1 k2 i1 i2 [H1 _]%Hother [H2 _]%Hother. by apply s_inj0.
  - intros h Hin. by apply not_elem_of_empty in Hin.
  - intros h. rewrite Hh. intros [b Hb]. apply lookup_delete_Some in Hb as [Hne Hb].
    destruct (s_all0 h (mk_is_Some _ _ Hb)) as [?|(k' & i' & Hk' & Hi')]; [by left|]. right. exists k', i'. split; [|done].
    rewrite lookup_delete_ne; [done|]. intros ->. congruence.
  - intros h. rewrite Hh, Hn. intros [b Hb]. apply lookup_delete_Some in Hb as [_ Hb]. by apply s_fresh0.
  - intros h H. rewrite Hl, Hn in *. cbn [held]. destruct (conn i =? h); [done|]. by apply s_new0.
  - intros Hb. rewrite Hl in *. cbn [grants] in Hb. destruct (Hc Hb) as (C1 & leaked & C2 & C3 & C4).
    pose proof (locks_delete k i m Hk) as Ht.
    assert (Hpos : 0 <= conn_name_locks i) by (pose proof (C1 _ _ Hk); pose proof (held_nonneg (conn i) (marks (w_log w))); lia).
    assert (Htot : 0 <= total_locks (delete k m)).
    { apply locks_nonneg. intros k' i' [H' _]%Hother. pose proof (C1 _ _ H'). pose proof (held_nonneg (conn i') (marks (w_log w))). lia. }
    split.
    + intros k' i' [H' Hne]%Hother. cbn [held]. rewrite (proj2 (Z.eqb_neq _ _)) by congruence. by eapply C1.
    + cbn [grants]. destruct Hg as [-> | ->].
      * exists (leaked + conn_name_locks i). lia.
      * exists leaked. split; [done|]. split; [lia|]. unfold uint32. rewrite wrapU_small; lia.
Qed.

(** The entry changes, with what is counted for it. *)
Lemma entry_changed m k i i' w w' l : inv ∅ [] m w -> m !! k = Some i -> conn i' = conn i ->
  g_mysql_conn_map w' = <[k := i']> m -> (forall h, (is_Some (handles w' !! h)) <-> (is_Some (handles w !! h))) ->
  next_handle w' = next_handle w -> marks (w_log w') = l ++ marks (w_log w) ->
  users (l ++ marks (w_log w)) = users (marks (w_log w)) ->
  (forall h, h <> conn i -> held h (l ++ marks (w_log w)) = held h (marks (w_log w))) ->
  grants (marks (w_log w)) <= grants (l ++ marks (w_log w)) ->
  (forall leaked, 0 <= leaked -> 0 <= conn_name_locks i -> grants (l ++ marks (w_log w)) < 2 ^ 32 ->
     conn_name_locks i <= total_locks m -> total_locks m + leaked <= grants (marks (w_log w)) ->
     g_name_locks w = total_locks m + leaked -> held (conn i) (marks (w_log w)) <= conn_name_locks i ->
     held (conn i) (l ++ marks (w_log w)) <= conn_name_locks i' /\
     conn_name_locks i' - conn_name_locks i <= grants (l ++ marks (w_log w)) - grants (marks (w_log w)) /\
     g_name_locks w' = total_locks m + leaked + (conn_name_locks i' - conn_name_locks i)) ->
  inv ∅ [] (<[k := i']> m) w'.
Proof.
  intros [[] Hu Hc] Hk Hci Hm Hh Hn Hl Hus Hheld Hgr Hcnt. rewrite <- Hl in Hus, Hheld, Hgr, Hcnt.
  assert (Hcase : forall k1 i1, <[k := i']> m !! k1 = Some i1 -> exists i0, m !! k1 = Some i0 /\ conn i1 = conn i0 /\ (k1 = k /\ i1 = i' \/ k1 <> k /\ i1 = i0)).
  { intros k1 i1 [[<- <-]|[Hne H]]%lookup_insert_Some; [exists i; tauto|]. exists i1. split; [done|]. split; [done|]. right. by split. }
  constructor; [constructor|congruence|].
  - done.
  - intros k1 i1 (i0 & H0 & -> & _)%Hcase. destruct (s_open0 _ _ H0) as [H1 H2]. split; [done|by apply Hh].
  - intros k1 k2 i1 i2 (i3 & H3 & -> & _)%Hcase (i4 & H4 & -> & _)%Hcase. by apply s_inj0.
  - intros h Hin. by apply not_elem_of_empty in Hin.
  - intros h Hx. apply Hh, s_all0 in Hx as [?|(k1 & i1 & H1 & H2)]; [by left|]. right.
    destruct (decide (k1 = k)) as [->|Hne]; [exists k, i'; rewrite lookup_insert_eq; split; [done|congruence]|].
    exists k1, i1. by rewrite lookup_insert_ne.
  - intros h Hx. rewrite Hn. by apply s_fresh0, Hh.
  - intros h Hx. rewrite Hn in Hx. rewrite Hheld; [by apply s_new0|]. intros ->. destruct (s_open0 _ _ Hk) as [_ Ho].
    destruct Hx as [Hx|Hx]; [by apply not_elem_of_empty in Hx|]. apply s_fresh0 in Ho. lia.
  - intros Hb. destruct (Hc ltac:(lia)) as (C1 & leaked & C2 & C3 & C4). pose proof (locks_delete k i m Hk) as Ht.
    assert (Hpos : forall k1 i1, m !! k1 = Some i1 -> 0 <= conn_name_locks i1).
    { intros k1 i1 H1. pose proof (C1 _ _ H1). pose proof (held_nonneg (conn i1) (marks (w_log w))). lia. }
    assert (Hrest : 0 <= total_locks (delete k m)) by (apply locks_nonneg; intros k1 i1 [_ H1]%lookup_delete_Some; by eapply Hpos).
    destruct (Hcnt leaked C2 (Hpos _ _ Hk) Hb ltac:(lia) C3 C4 (C1 _ _ Hk)) as (D1 & D2 & D3). split.
    + intros k1 i1 Hi1. destruct (Hcase _ _ Hi1) as (i0 & H0 & Heq & [[-> ->]|[Hne ->]]); [by rewrite Heq; replace i0 with i by congruence|].
      rewrite Hheld; [by eapply C1|]. intros Hx. by destruct (Hne (s_inj0 _ _ _ _ H0 Hk Hx)).
    + exists leaked. rewrite (locks_update k i i' m Hk). split; [done|]. split; [lia|]. lia.
Qed.

Lemma entry_same key h i i' w : has key h w -> g_mysql_conn_map w !! key = Some i -> conn i' = conn i ->
  conn_name_locks i' = conn_name_locks i -> has key h (set_map (<[key := i']> (g_mysql_conn_map w)) w).
Proof.
  intros Hw Hk Hc Hn. destruct (has_entry _ _ _ Hw) as (i0 & Hk0 & Hc0 & Hi). rewrite Hk in Hk0. injection Hk0 as <-.
  exists (<[key := i']> (g_mysql_conn_map w)), i'. split; [|by rewrite lookup_insert_eq, Hc].
  eapply (entry_changed _ key i i' w _ []); try done. intros leaked. intros. cbn [app]. cbn. lia.
Qed.

Lemma info_run key h : total (has key h) (info_of key) (fun i w => has key h w /\ g_mysql_conn_map w !! key = Some i).
Proof.
  intros w Hw. destruct (has_entry _ _ _ Hw) as (i & Hk & _). exists i, w. unfold info_of. rewrite get_step, Hk. done.
Qed.

Lemma tables_run key h f : total (has key h) (set_tables key f) (fun _ => has key h).
Proof.
  unfold set_tables. eapply total_bind; [apply info_run|]. intros i w [Hw Hk]. eexists tt, _. split; [reflexivity|].
  by apply (entry_same key h i).
Qed.

Lemma explicit_run key h c : total (has key h) (set_explicit_table_lock key c) (fun _ => has key h).
Proof.
  assert (Hset : forall b, total (has key h) (w ← get; i ← deref (g_mysql_conn_map w !! key);
    modify (fun w => set_map (<[key := mk_conn (conn i) (table_lock_info i) b (conn_name_locks i)]> (g_mysql_conn_map w)) w)) (fun _ => has key h)).
  { intros b w Hw. destruct (has_entry _ _ _ Hw) as (i & Hk & _). rewrite get_step, Hk, deref_step. eexists tt, _. split; [reflexivity|].
    by apply (entry_same key h i). }
  unfold set_explicit_table_lock. repeat case_bool_decide; try apply Hset. intros w Hw. by exists tt, w.
Qed.

(** A new entry *)
Lemma entry_added m k h w : inv {[h]} [] m w -> m !! k = None ->
  inv ∅ [] (<[k := mk_conn h [] false 0]> m) (set_map (<[k := mk_conn h [] false 0]> (g_mysql_conn_map w)) w).
Proof.
  intros [[] Hu Hc] Hk. assert (Hh : h ∈ ({[h]} : gset Z)) by (by apply elem_of_singleton).
  assert (Hcase : forall k1 i1, <[k := mk_conn h [] false 0]> m !! k1 = Some i1 ->
    (k1 = k /\ i1 = mk_conn h [] false 0) \/ (m !! k1 = Some i1 /\ conn i1 <> h)).
  { intros k1 i1 [[<- <-]|[Hne H]]%lookup_insert_Some; [by left|]. right. split; [done|]. intros Heq.
    destruct (s_open0 _ _ H) as [H1 _]. by rewrite Heq in H1. }
  constructor; [constructor; cbn|done|]; try done.
  - by rewrite s_map0.
  - intros k1 i1 [[-> ->]|[H _]]%Hcase; cbn [conn]; (split; [apply not_elem_of_empty|]); [by apply s_extra0|by eapply s_open0].
  - intros k1 k2 i1 i2 [[-> ->]|[H1 N1]]%Hcase [[-> ->]|[H2 N2]]%Hcase; cbn [conn]; [done|congruence|congruence|by apply s_inj0].
  - intros h1 H1. right. destruct (s_all0 _ H1) as [->%elem_of_singleton|(k1 & i1 & Hk1 & Hi1)].
    + exists k, (mk_conn h [] false 0). by rewrite lookup_insert_eq.
    + exists k1, i1. rewrite lookup_insert_ne; [done|]. intros ->. congruence.
  - intros h1 [Hin|Hn]; [by apply not_elem_of_empty in Hin|]. apply s_new0. by right.
  - intros Hb. destruct (Hc Hb) as (C1 & leaked & C2 & C3 & C4). split.
    + intros k1 i1 [[-> ->]|[H1 N1]]%Hcase; [|by eapply C1]. cbn [conn conn_name_locks set_map w_log].
      rewrite s_new0; [lia|by left].
    + exists leaked. rewrite locks_insert by done. cbn [conn_name_locks set_map g_name_locks w_log]. lia.
Qed.

(** *** Clients *)

Lemma close_by_key_run key : total good (close_mysql_conn_by_key E key) (fun _ => good).
Proof.
  intros w Hw. pose proof (good_inv _ Hw) as Hi. unfold close_mysql_conn_by_key. rewrite get_step.
  destruct (g_mysql_conn_map w !! key) as [i|] eqn:Hk; [|by exists tt, w].
  destruct (s_open _ _ _ (i_shape _ _ _ _ Hi) _ _ Hk) as [_ [a Ha]].
  unfold ctc_close_mysql_conn, sub_g_name_locks, ask. exec. rewrite Ha. cbn. eexists tt, _. split; [reflexivity|].
  exists (delete key (g_mysql_conn_map w)). eapply (entry_closed _ key i w); try done. by right.
Qed.

Lemma close_by_inst_run id b : total good (close_mysql_conn_by_inst_id E id b) (fun _ => good).
Proof.
  intros w Hw. unfold close_mysql_conn_by_inst_id. rewrite get_step.
  refine (total_for _ _ good _ w Hw). intros k _. destruct (_ =? id); [apply close_by_key_run|]. intros w1 H1. by exists tt, w1.
Qed.

(** A session without a connection *)
Lemma new_client key db user ip proxy w : good w -> g_mysql_conn_map w !! key = None ->
  exists r w', ctc_init_mysql_client E key db user ip proxy w = Some (r, w') /\ good w' /\
    g_mysql_conn_map w' = match r with inl h => <[key := mk_conn h [] false 0]> (g_mysql_conn_map w) | inr _ => g_mysql_conn_map w end.
Proof.
  intros Hw Hk. pose proof (good_inv _ Hw) as Hi. unfold ctc_init_mysql_client. rewrite get_step, Hk, ret_step.
  set (use_proxy := if _ && _ then false else proxy). set (m := g_mysql_conn_map w) in *.
  assert (Hnew : exists c w2, (if use_proxy then ctc_init_proxy_client E key user ip else ctc_init_agent_client E) w = Some (c, w2) /\
    connected ∅ [] m c w2).
  { destruct use_proxy; [by apply proxy_client_run|by apply agent_run]. }
  destruct Hnew as ([[h|] e] & w2 & H2 & C); rewrite (bind_some _ _ _ _ _ H2); cbn [connected fst snd] in C |- *.
  2:{ destruct C as [He I2]. rewrite (proj2 (Z.eqb_neq _ _) He). eexists _, w2. split; [reflexivity|]. split; [by eexists|apply (i_shape _ _ _ _ I2)]. }
  destruct C as (-> & _ & I2). cbn [negb Z.eqb]. rewrite deref_step. rewrite union_empty_r_L in I2.
  assert (Hin : h ∈ ({[h]} : gset Z)) by (by apply elem_of_singleton).
  destruct (quiet_loose {[h]} [] m h _ (quiet_failed h Set_lock_wait_timeout eq_refl) Hin w2 I2) as (q & w3 & H3 & I3).
  rewrite (bind_some _ _ _ _ _ H3).
  destruct (quiet_loose {[h]} [] m h _ (quiet_select E h db) Hin w3 I3) as (r & w4 & H4 & I4).
  rewrite (bind_some _ _ _ _ _ H4). destruct (negb (r =? 0)).
  - destruct (close_handle_run {[h]} [] m h Hin w4 I4) as ([] & w5 & H5 & I5). rewrite (bind_some _ _ _ _ _ H5).
    rewrite difference_diag_L in I5. eexists _, w5. split; [reflexivity|]. split; [by exists m|apply (i_shape _ _ _ _ I5)].
  - eexists _, _. split; [reflexivity|]. split; [eexists; by apply (entry_added m)|]. cbn. by rewrite (s_map _ _ _ (i_shape _ _ _ _ I4)).
Qed.

(** A connection that does not take the database is closed, and another one is made. *)
Lemma reconnect key i db user ip proxy w r w1 : good w -> g_mysql_conn_map w !! key = Some i ->
  ctc_select_db E (conn i) db w = Some (r, w1) -> r <> 0 ->
  exists w2, good w2 /\ g_mysql_conn_map w2 !! key = None /\ g_name_locks w2 = g_name_locks w /\
    ctc_init_mysql_client E key db user ip proxy w = ctc_init_mysql_client E key db user ip proxy w2.
Proof.
  intros Hw Hk H1 Hr. assert (Hh : has key (conn i) w) by (exists (g_mysql_conn_map w), i; by split; [apply good_inv|]).
  destruct (quiet_select E (conn i) db w (has_open _ _ _ Hh)) as (r' & w1' & H1' & S). rewrite H1 in H1'. injection H1' as <- <-.
  assert (Hw1 : has key (conn i) w1) by (destruct Hh as (m & j & Hi & Hj); exists m, j; split; [by eapply quiet_inv|done]).
  destruct (has_entry _ _ _ Hw1) as (i1 & Hk1 & Hc1 & Hi1). destruct (has_open _ _ _ Hw1) as [a Ha].
  set (v := set_map (delete key (g_mysql_conn_map w1)) w1).
  assert (Hv : exists w2, ctc_close_mysql_conn E (Some (conn i)) v = Some (tt, w2) /\ good w2 /\ g_mysql_conn_map w2 = delete key (g_mysql_conn_map w1) /\
    g_name_locks w2 = g_name_locks w1).
  { unfold ctc_close_mysql_conn, ask. exec. cbn. rewrite Ha. cbn. eexists. split; [reflexivity|]. split; [|done].
    exists (delete key (g_mysql_conn_map w1)). eapply (entry_closed _ key i1 w1); try done; [by rewrite Hc1|by rewrite Hc1|by left]. }
  destruct Hv as (w2 & H2 & G2 & M2 & L2). exists w2. assert (Hn : g_mysql_conn_map w2 !! key = None) by (rewrite M2; apply lookup_delete_eq).
  split; [done|]. split; [done|]. split; [by rewrite L2, (st_locks _ _ _ S)|]. unfold ctc_init_mysql_client.
  rewrite !get_step, Hk, Hn, ret_step. unfold mbind at 1, ST_bind at 1.
  rewrite (bind_some _ _ _ _ _ H1), (proj2 (Z.eqb_neq _ _) Hr). 
  rewrite (bind_some (modify (fun w => set_map (delete key (g_mysql_conn_map w)) w)) _ w1 tt v eq_refl).
  by rewrite (bind_some _ _ _ _ _ H2).
Qed.

Lemma client_run key db user ip proxy : total good (ctc_init_mysql_client E key db user ip proxy)
  (fun r w => match r with inl h => has key h w | inr _ => good w end).
Proof.
  assert (Hnew : forall w, good w -> g_mysql_conn_map w !! key = None -> exists r w', ctc_init_mysql_client E key db user ip proxy w = Some (r, w') /\
    match r with inl h => has key h w' | inr _ => good w' end).
  { intros w Hw Hk. destruct (new_client key db user ip proxy w Hw Hk) as (r & w' & H & G & Hm). exists r, w'. split; [done|].
    destruct r as [h|e]; [|done]. exists (g_mysql_conn_map w'), (mk_conn h [] false 0). split; [by apply good_inv|].
    by rewrite Hm, lookup_insert_eq. }
  intros w Hw. destruct (g_mysql_conn_map w !! key) as [i|] eqn:Hk; [|by apply Hnew].
  assert (Hh : has key (conn i) w) by (exists (g_mysql_conn_map w), i; by split; [apply good_inv|]).
  destruct (quiet_has key _ _ (quiet_select E (conn i) db) w Hh) as (r & w1 & H1 & Hw1).
  destruct (decide (r = 0)) as [->|Hr].
  - exists (inl (conn i)), w1. split; [|done]. unfold ctc_init_mysql_client. rewrite get_step, Hk. unfold mbind at 1, ST_bind at 1.
    by rewrite (bind_some _ _ _ _ _ H1).
  - destruct (reconnect key i db user ip proxy w r w1 Hw Hk H1 Hr) as (w2 & G2 & N2 & _ & ->). by apply Hnew.
Qed.

(** *** Requests *)

Lemma total_good {A} key h (c : M A) : total (has key h) c (fun _ => has key h) -> total (has key h) c (fun _ => good).
Proof. intros H. eapply total_conseq; [exact H|done|]. intros a w. apply has_good. Qed.

Lemma good_ret {A} (a : A) : total good (ret a) (fun _ => good).
Proof. intros w Hw. by exists a, w. Qed.

Lemma has_ret {A} key h (a : A) : total (has key h) (ret a) (fun _ => good).
Proof. intros w Hw. exists a, w. split; [done|]. by eapply has_good. Qed.

Lemma role_run : total good (ctc_get_cluster_role E) (fun _ => good).
Proof.
  intros w [m Hw].
  assert (H : exists r w', ctc_get_cluster_role E w = Some (r, w') /\ step w w' []).
  { unfold ctc_get_cluster_role, ctc_set_mysql_read_only, ctc_reset_mysql_read_only, ask. exec.
    repeat first [case_match | progress cbn in * | progress simplify_eq]; try done;
      (do 2 eexists; split; [reflexivity|]; by constructor). }
  destruct H as (r & w' & H & S). exists r, w'. split; [done|]. exists m. by eapply quiet_inv.
Qed.

Lemma use_proxy_run c : total good (ctc_use_proxy E c) (fun _ => good).
Proof. eapply total_bind; [apply role_run|]. intros r. apply good_ret. Qed.

Lemma open_conn_run t r : total good (ctc_execute_rewrite_open_conn E t r) (fun _ => good).
Proof.
  unfold ctc_execute_rewrite_open_conn. destruct (_ =? _); [apply good_ret|]. eapply total_bind; [apply use_proxy_run|]. intros p.
  eapply total_bind; [apply client_run|]. intros [h|e]; cbn beta iota; [|apply good_ret].
  eapply total_bind; [apply quiet_has, quiet_store|]. intros u. apply has_ret.
Qed.

Lemma fk_run key h r b : total (has key h) (set_foreign_key_checks E h r b) (fun o w => o = None /\ has key h w).
Proof.
  unfold set_foreign_key_checks. destruct (_ =? 0); [intros w Hw; by exists None, w|]. intros w Hw.
  destruct (query_run E h (Set_foreign_key_checks b) w (has_open _ _ _ Hw)) as (l & w' & H & _ & S).
  rewrite (bind_some _ _ _ _ _ H), (fk_works _ P). exists None, w'. split; [done|]. split; [done|].
  destruct Hw as (m & i & Hi & Hk). exists m, i. split; [|done]. by eapply quiet_inv.
Qed.

Lemma update_run t r b : total good (ctc_ddl_execute_update E t r b) (fun _ => good).
Proof.
  unfold ctc_ddl_execute_update. destruct (_ =? _); [apply good_ret|]. destruct (_ && _); [apply good_ret|]. eapply total_bind; [apply use_proxy_run|]. intros p.
  set (key := MetaData.ctc_get_conn_key _ _ _). eapply total_bind; [apply client_run|]. intros [h|e]; cbn beta iota; [|apply good_ret].
  eapply total_bind with (Q := fun _ => has key h).
  { apply quiet_has. apply quiet_if; [by apply quiet_query|apply quiet_ret]. }
  intros seed. destruct (negb _); [apply has_ret|]. eapply total_bind; [apply fk_run|]. intros o w [-> Hw]. revert w Hw.
  change (total (has key h) (q ← query_failed E h (Sql (r_sql r));
    if q.1 : bool then ret (q.2, b) else
    fk ← set_foreign_key_checks E h r true;
    match fk with
    | Some e => ret (e, b)
    | None => set_explicit_table_lock key (r_command r) ;; mysql_store_result h ;; ret (0, false)
    end) (fun _ => good)).
  eapply total_bind; [apply quiet_has; by apply quiet_failed|]. intros [[] e]; cbn [fst snd]; [apply has_ret|].
  eapply total_bind; [apply fk_run|]. intros o w [-> Hw]. revert w Hw.
  change (total (has key h) (set_explicit_table_lock key (r_command r) ;; mysql_store_result h ;; ret (0, false)) (fun _ => good)).
  eapply total_bind; [apply explicit_run|]. intros u. eapply total_bind; [apply quiet_has, quiet_store|]. intros u'. apply has_ret.
Qed.

(** [GET_LOCK]: the connection holds one more, and it is counted. *)
Lemma get_lock_run key h name : total (has key h) (ctc_ddl_get_lock E h key name) (fun _ => has key h).
Proof.
  intros w Hw. destruct (has_entry _ _ _ Hw) as (i & Hk & Hc & Hi).
  destruct (query_failed_run h (Get_lock (md5_hex E name)) w (has_open _ _ _ Hw)) as (l & w1 & H & Ha & S).
  unfold ctc_ddl_get_lock. rewrite (bind_some _ _ _ _ _ H). cbn [fst snd]. clear H.
  set (a := oracle E l (Query h (Get_lock (md5_hex E name)))) in *. set (q := (Query h (Get_lock (md5_hex E name)), a)) in *.
  assert (Hno : granted a = false -> has key h w1).
  { intros Hgr. exists (g_mysql_conn_map w), i. split; [|done].
    destruct (entry_changed _ key i i w w1 [q] Hi Hk eq_refl) as [Sh Us Co]; try apply S; try done.
    - by rewrite (st_map _ _ _ S), insert_id.
    - intros h' Hne. cbn. by rewrite Hgr, andb_false_r.
    - cbn. by rewrite Hgr.
    - intros leaked. intros. cbn [app q held grants]. rewrite Hgr, andb_false_r, (st_locks _ _ _ S). lia.
    - rewrite insert_id in Sh, Co by done. by constructor. }
  destruct (succeeded a) eqn:Hs; cbn [negb].
  2:{ eexists _, w1. split; [reflexivity|]. apply Hno. unfold granted. by rewrite Hs. }
  rewrite (bind_some _ _ _ _ _ (store_run h w1 _ Ha)). destruct (a_result a) as [row|] eqn:Hr.
  2:{ eexists _, w1. split; [reflexivity|]. apply Hno. unfold granted. by rewrite Hr, andb_false_r. }
  destruct (lock_row _ P _ _ _ _ Hs Hr) as (v & row' & ->). rewrite deref_step. cbn [lookup list_lookup]. rewrite !deref_step.
  destruct (atoi v =? 0) eqn:Hv.
  { eexists _, w1. split; [reflexivity|]. apply Hno. unfold granted. by rewrite Hr, Hv, andb_false_r. }
  rewrite get_step, (st_map _ _ _ S), Hk. eexists _, _. split; [reflexivity|].
  assert (Hgr : granted a = true) by (unfold granted; by rewrite Hs, Hr, Hv).
  set (i' := mk_conn _ _ _ _). exists (<[key := i']> (g_mysql_conn_map w)), i'. split; [|by rewrite lookup_insert_eq].
  eapply (entry_changed _ key i i' w _ [q]); try done; cbn [set_map set_name_locks g_mysql_conn_map handles next_handle w_log g_name_locks].
  - by rewrite (st_map _ _ _ S).
  - apply S.
  - apply S.
  - apply S.
  - intros h' Hne. cbn. rewrite Hgr, andb_true_r, (proj2 (Z.eqb_neq _ _)); [done|congruence].
  - cbn. rewrite Hgr. lia.
  - intros leaked Hl Hp Hb Ht Htl Hg Hheld. cbn [app q held grants i' conn_name_locks] in *.
    rewrite Hgr, Hc, Z.eqb_refl in *. cbn [andb]. rewrite (st_locks _ _ _ S). unfold uint32. rewrite !wrapU_small by lia. lia.
Qed.

Lemma exist_run key h d t e : total (has key h) (ctc_check_table_exist E h d t e) (fun _ => has key h).
Proof.
  intros w Hw. destruct (query_run E h (Table_exists d t) w (has_open _ _ _ Hw)) as (l & w' & H & Ha & S).
  assert (Hw' : has key h w') by (destruct Hw as (m & i & Hi & Hk); exists m, i; split; [by eapply quiet_inv|done]).
  unfold ctc_check_table_exist. rewrite (bind_some _ _ _ _ _ H), (bind_some _ _ _ _ _ (store_run h w' _ Ha)).
  destruct (negb _ || _) eqn:Hb.
  - unfold mysql_errno. unfold mbind at 1, ST_bind at 1. rewrite get_step, Ha, deref_step. by eexists _, w'.
  - apply orb_false_elim in Hb as [Hq Hr]. zb. apply bool_decide_eq_false_1 in Hr.
    destruct (a_result _) as [row|] eqn:Hrow; [|done]. destruct (exists_row _ P _ _ _ _ _ Hq Hrow) as (v & row' & ->).
    rewrite !deref_step. cbn [lookup list_lookup]. rewrite !deref_step. by eexists _, w'.
Qed.

Lemma all_exist_run key h l : forall e, total (has key h) (all_exist E h l e) (fun _ => has key h).
Proof.
  induction l as [|x l IH]; intros e; cbn [all_exist]; [intros w Hw; by eexists _, w|].
  eapply total_bind; [apply exist_run|]. intros r. destruct (r.1 <=? 0); [intros w Hw; by eexists _, w|apply IH].
Qed.

Lemma proxy_lock_run tch db user ip i : total good (ctc_ddl_execute_lock_tables E tch db user ip i) (fun _ => good).
Proof.
  unfold ctc_ddl_execute_lock_tables. set (key := conn_key_of E tch). eapply total_bind; [apply client_run|].
  intros [h|e]; cbn beta iota; [|apply good_ret]. destruct (bool_decide _); [apply total_good, get_lock_run|].
  eapply total_bind; [apply get_lock_run|]. intros r. do 3 (destruct (_ : bool); [apply has_ret|]).
  eapply total_bind; [apply info_run|]. intros i0 w [Hw _]. destruct (has_explicit_table_lock i0); [by apply (has_ret key h)|].
  revert w Hw. match goal with |- forall w, has key h w -> exists a w', ?m w = _ /\ _ => change (total (has key h) m (fun _ => good)) end.
  eapply total_bind; [apply exist_run|]. intros x.
  eapply total_bind with (Q := fun _ => has key h).
  { destruct (0 <? x.1); [apply tables_run|intros w Hw; by exists tt, w]. }
  intros u. eapply total_bind; [apply info_run|]. intros i1 w [Hw _]. revert w Hw.
  match goal with |- forall w, has key h w -> exists a w', ?m w = _ /\ _ => change (total (has key h) m (fun _ => good)) end.
  eapply total_bind; [apply all_exist_run|]. intros ok. do 2 (destruct (_ : bool); [apply has_ret|]).
  eapply total_bind; [apply quiet_has; by apply quiet_failed_with|]. intros q. apply has_ret.
Qed.

(** [RELEASE_ALL_LOCKS]: the connection holds none; one less is counted, if any is. *)
Lemma unlock_tail_run tch key h : total (has key h)
  (if is_same_node E tch then close_mysql_conn_by_key E key ;; ret 0 else
    i ← info_of key;
    if has_explicit_table_lock i then ret 0 else
    r ← ctc_mysql_query E h Unlock_tables;
    if negb (r =? 0) then close_mysql_conn_by_key E key ;; ret 0 else
    mysql_store_result h ;; ret 0) (fun _ => good).
Proof.
  assert (Hclose : total (has key h) (close_mysql_conn_by_key E key ;; ret 0) (fun _ => good)).
  { eapply total_bind with (Q := fun _ => good); [|intros u; apply good_ret].
    eapply total_conseq; [apply (close_by_key_run key)|intros w; apply has_good|done]. }
  destruct (is_same_node E tch); [exact Hclose|]. eapply total_bind; [apply info_run|]. intros i w [Hw _].
  destruct (has_explicit_table_lock i); [by apply (has_ret key h)|]. revert w Hw.
  match goal with |- forall w, has key h w -> exists a w', ?m w = _ /\ _ => change (total (has key h) m (fun _ => good)) end.
  eapply total_bind; [apply quiet_has; by apply quiet_query|]. intros r. destruct (negb _); [exact Hclose|].
  eapply total_bind; [apply quiet_has, quiet_store|]. intros u. apply has_ret.
Qed.

Lemma proxy_unlock_run tch : total good (ctc_ddl_execute_unlock_tables E tch) (fun _ => good).
Proof.
  intros w Hg. pose proof (good_inv _ Hg) as Hi. unfold ctc_ddl_execute_unlock_tables. set (key := conn_key_of E tch). rewrite get_step.
  destruct (g_mysql_conn_map w !! key) as [i|] eqn:Hk; [|by apply good_ret].
  assert (Hw : has key (conn i) w) by (by exists (g_mysql_conn_map w), i).
  destruct (query_run E (conn i) Release_all_locks w (has_open _ _ _ Hw)) as (l & w1 & H & Ha & S). rewrite (bind_some _ _ _ _ _ H). clear H.
  set (a := oracle E l (Query (conn i) Release_all_locks)) in *. set (q := (Query (conn i) Release_all_locks, a)) in *.
  assert (Hother : forall h', h' <> conn i -> held h' ([q] ++ marks (w_log w)) = held h' (marks (w_log w))).
  { intros h' Hne. cbn. by rewrite (proj2 (Z.eqb_neq _ _)) by congruence. }
  destruct (a_ret a =? 0) eqn:Hr; cbn [negb].
  - rewrite (bind_some _ _ _ _ _ (store_run _ w1 _ Ha)), get_step, (st_map _ _ _ S), Hk. set (one := 0 <? conn_name_locks i).
    set (i' := mk_conn _ _ _ _).
    set (w3 := set_map (<[key := i']> (g_mysql_conn_map w)) w1).
    set (w2 := if one then set_name_locks (uint32 (g_name_locks w1 - 1)) w3 else w3).
    match goal with |- exists a w', (?m ≫= ?k) w1 = _ /\ _ => assert (Hm : m w1 = Some (tt, w2)) end.
    { unfold w2, w3, sub_g_name_locks. rewrite <- (st_map _ _ _ S). by destruct one. }
    rewrite (bind_some _ _ _ _ _ Hm). apply (unlock_tail_run tch key (conn i)).
    exists (<[key := i']> (g_mysql_conn_map w)), i'. split; [|by rewrite lookup_insert_eq].
    eapply (entry_changed _ key i i' w w2 [q]); try done.
    + unfold w2. by destruct one.
    + unfold w2. destruct one; apply S.
    + unfold w2. destruct one; apply S.
    + unfold w2. destruct one; apply S.
    + intros leaked Hl Hp Hb Ht Htl Hgl Hheld. cbn [app q held grants i' conn_name_locks]. rewrite Z.eqb_refl, Hr. cbn [andb].
      pose proof (grants_nonneg (marks (w_log w))). unfold w2, one.
      destruct (0 <? conn_name_locks i) eqn:Ho; zb; cbn; rewrite (st_locks _ _ _ S), ?Z.sub_0_r; [|lia].
      cbn [app q grants] in Hb. unfold uint32. rewrite wrapU_small by lia. lia.
  - eapply total_bind with (P := good) (Q := fun _ => good); [apply close_by_key_run|intros u; apply good_ret|].
    exists (<[key := i]> (g_mysql_conn_map w)). eapply (entry_changed _ key i i w w1 [q]); try done; try apply S.
    + by rewrite (st_map _ _ _ S), insert_id.
    + intros leaked. intros. cbn [app q held grants]. rewrite Z.eqb_refl, Hr, (st_locks _ _ _ S). cbn [andb]. lia.
Qed.

Lemma close_connection_run t i : total good (close_mysql_connection E t i) (fun _ => good).
Proof.
  unfold close_mysql_connection. eapply total_bind with (Q := fun _ => good); [|intros u; apply good_ret].
  destruct (t =? 0); [destruct (_ =? _); apply close_by_inst_run|].
  eapply total_bind; [apply close_by_key_run|]. intros u. apply close_by_key_run.
Qed.

Lemma set_role_run b : total good (ctc_set_cluster_role_by_cantian b) (fun _ => good).
Proof. intros w [m Hw]. destruct b; (do 2 eexists; split; [reflexivity|]; exists m; eapply quiet_inv; [exact Hw|by constructor]). Qed.

Lemma serve_run r : total good (serve E r) (fun _ => good).
Proof.
  destruct r; cbn [serve].
  - apply open_conn_run.
  - eapply total_bind; [apply update_run|]. intros x. apply good_ret.
  - eapply total_bind; [apply proxy_lock_run|]. intros x. apply good_ret.
  - apply proxy_unlock_run.
  - apply close_connection_run.
  - apply set_role_run.
Qed.

End Invariant.

(** ** Properties *)

Section Claims.
Context (E : env).

Definition start (count role : Z) (ro : bool) : world := mk_world ∅ 0 ∅ 0 count role ro ro ro [].

Lemma start_good count role ro : good (start count role ro).
Proof.
  exists ∅. constructor; [constructor; cbn|done|]; try done.
  - intros h [a Ha]. by rewrite lookup_empty in Ha.
  - intros h [a Ha]. by rewrite lookup_empty in Ha.
  - intros _. split; [intros k i H; by rewrite lookup_empty in H|]. exists 0. cbn. unfold total_locks. rewrite map_fold_empty. lia.
Qed.

Lemma held_counted w k i : good w -> g_mysql_conn_map w !! k = Some i -> grants (marks (w_log w)) < 2 ^ 32 ->
  held (conn i) (marks (w_log w)) <= g_name_locks w.
Proof.
  intros Hw Hk Hb. destruct (i_counts _ _ _ _ (good_inv _ Hw) Hb) as (C1 & leaked & C2 & C3 & ->).
  pose proof (locks_delete k i _ Hk) as Ht. pose proof (C1 _ _ Hk) as Hi.
  assert (0 <= total_locks (delete k (g_mysql_conn_map w))); [|lia].
  apply locks_nonneg. intros k' i' [_ H']%lookup_delete_Some. pose proof (C1 _ _ H'). pose proof (held_nonneg (conn i') (marks (w_log w))). lia.
Qed.

(** C29: requests of other nodes in any order, for a server on which ([polite])
    DROP USER and SET foreign_key_checks do not fail (after a failure of the
    latter a freed connection stays in the map and is used again,
    [foreign_key_failure_frees]), CREATE USER gives the password it made,
    GET_LOCK does not answer NULL, and a result that is there can be read; all
    other statements may fail or answer anything: no connection is used after
    it was closed, the connections that
    are open are those of the map, each for one session, no user that was made
    for a connection is left, and the counter that LOCK INSTANCE looks at is at
    least what any of them holds. *)
Theorem proxy_requests_safe rs count role ro :
  polite E ->
  exists w, for_each rs (fun r => serve E r ;; ret tt) (start count role ro) = Some (tt, w) /\
    (forall k i, g_mysql_conn_map w !! k = Some i -> is_Some (handles w !! conn i)) /\
    (forall h, is_Some (handles w !! h) -> exists k i, g_mysql_conn_map w !! k = Some i /\ conn i = h) /\
    (forall k1 k2 i1 i2, g_mysql_conn_map w !! k1 = Some i1 -> g_mysql_conn_map w !! k2 = Some i2 -> conn i1 = conn i2 -> k1 = k2) /\
    users (marks (w_log w)) = [] /\
    (forall k i, g_mysql_conn_map w !! k = Some i -> grants (marks (w_log w)) < 2 ^ 32 ->
       held (conn i) (marks (w_log w)) <= g_name_locks w).
Proof.
  intros P.
  assert (Ht : total good (for_each rs (fun r => serve E r ;; ret tt)) (fun _ => good)).
  { apply total_for. intros r _. eapply total_bind; [by apply serve_run|]. intros z. apply good_ret. }
  destruct (Ht _ (start_good count role ro)) as ([] & w & H & Hw). exists w. split; [exact H|].
  pose proof (good_inv _ Hw) as [[] Hu Hc]. split; [intros k i Hk; by eapply s_open0|]. split; [|split; [|split; [done|]]].
  - intros h Hh. destruct (s_all0 h Hh) as [Hx|Hx]; [by apply not_elem_of_empty in Hx|done].
  - exact s_inj0.
  - intros k i Hk Hb. by apply held_counted with k.
Qed.

(** *** Connecting *)

Definition is_connect (x : event * answer) : bool := match x.1 with Connect _ _ _ _ => true | _ => false end.
Definition attempts (l : log) : nat := length (List.filter is_connect l).

Lemma on_handle_facts h ev w a w' : on_handle E h ev w = Some (a, w') ->
  connection_count w' = connection_count w /\ w_log w' = (ev, a) :: w_log w.
Proof.
  unfold on_handle, ask. exec. destruct (handles w !! h); cbn; [|done]. intros H. simplify_eq. done.
Qed.

Lemma connect_loop_facts h host user pw : forall n d w d' w',
  connect_loop E n h host user pw d w = Some (d', w') -> 0 <= d ->
  0 <= d' /\ connection_count w' + d' = connection_count w + d /\
  (attempts (w_log w') <= attempts (w_log w) + S n)%nat.
Proof.
  induction n as [|n IH]; intros d w d' w' H Hd; cbn [connect_loop] in H;
    apply st_bind_inv in H as (a & w1 & H1 & H); apply on_handle_facts in H1 as [C1 L1];
    (assert (A1 : (attempts (w_log w1) = S (attempts (w_log w)))%nat) by (rewrite L1; done));
    (destruct (a_ret a =? 0); [injection H as <- <-; rewrite C1, A1; split; [done|]; split; [done|lia]|]).
  - injection H as <- <-. rewrite C1, A1. split; [done|]. split; [done|lia].
  - apply st_bind_inv in H as (d1 & w2 & H2 & H). apply st_bind_inv in H as (u & w3 & H3 & H).
    assert (F2 : 0 <= d1 /\ connection_count w2 + d1 = connection_count w1 + d /\ w_log w2 = w_log w1).
    { destruct (_ =? ER_CON_COUNT_ERROR).
      - apply st_bind_inv in H2 as (u2 & w4 & [= <- <-] & [= <- <-]). cbn. split; [lia|]. split; [lia|done].
      - by injection H2 as <- <-. }
    assert (F3 : connection_count w3 = connection_count w2 /\ attempts (w_log w3) = attempts (w_log w2)).
    { destruct (_ =? ER_WRONG_COMPRESSION_ALGORITHM_CLIENT); [|by injection H3 as <- <-].
      destruct (wanted_compression a); [|by injection H3 as <- <-].
      apply st_bind_inv in H3 as (b4 & w4 & H3 & [= <- <-]). apply on_handle_facts in H3 as [C3 L3]. by rewrite L3. }
    destruct F2 as (F2 & F4 & F5), F3 as [F6 F7]. destruct (IH _ _ _ _ H F2) as (G1 & G2 & G3).
    rewrite F7, F5, A1 in G3. split; [done|]. split; [lia|lia].
Qed.

Lemma inc_facts n : forall w, exists w', inc_conn_count n w = Some (tt, w') /\
  connection_count w' = connection_count w + Z.of_nat n /\ w_log w' = w_log w.
Proof.
  induction n as [|n IH]; intros w; cbn [inc_conn_count]; [exists w; split; [done|]; split; [lia|done]|].
  destruct (IH (set_count (connection_count w + 1) w)) as (w' & H & H1 & H2).
  exists w'. rewrite (bind_some (modify _) _ w tt _ eq_refl). split; [exact H|]. cbn in H1, H2. split; [lia|done].
Qed.

Lemma init_facts w : exists r w', mysql_init E w = Some (r, w') /\ connection_count w' = connection_count w /\
  attempts (w_log w') = attempts (w_log w) /\ match r with inl h => is_Some (handles w' !! h) | inr _ => True end.
Proof.
  unfold mysql_init, ask. exec. destruct (a_ret _ =? 0); do 2 eexists; (split; [reflexivity|]); cbn; [|done].
  do 2 (split; [done|]). rewrite lookup_insert_eq. by eexists.
Qed.

(** C10: a connection is tried eleven times at most, whatever the server
    answers; the count of connections, lowered for every attempt that found too
    many of them, is what it was; and the function says that it worked, even when no attempt did. *)
Theorem connect_terminates host user pw w :
  exists r w', ctc_mysql_conn E host user pw w = Some (r, w') /\
    connection_count w' = connection_count w /\
    (attempts (w_log w') <= attempts (w_log w) + 11)%nat /\
    (r.1 <> None -> r.2 = 0).
Proof.
  unfold ctc_mysql_conn. destruct (init_facts w) as (r & w1 & H1 & C1 & A1 & Hr). rewrite (bind_some _ _ _ _ _ H1).
  destruct r as [h|e].
  2:{ do 2 eexists. split; [reflexivity|]. split; [done|]. split; [lia|]. intros H. by destruct H. }
  destruct (quiet_connect E h host user pw CTC_CONN_MAX_RETRY_TIMES 0 w1 Hr) as (d & w2 & H2 & _).
  destruct (connect_loop_facts _ _ _ _ _ _ _ _ _ H2 ltac:(lia)) as (Hd & Hc & Ha).
  destruct (inc_facts (Z.to_nat d) w2) as (w3 & H3 & Hc3 & Hl3).
  exists (Some h, 0), w3. rewrite (bind_some _ _ _ _ _ H2), (bind_some _ _ _ _ _ H3).
  split; [done|]. rewrite Hl3, <- A1. split; [lia|]. by split.
Qed.

(** *** What goes wrong *)

(** C40: when [foreign_key_checks] cannot be set, the connection is closed and its
    entry stays: the next request of the session uses it after it was freed. *)
Theorem foreign_key_failure_frees key h r w db user ip proxy :
  has key h w -> Z.land (r_options r) CTC_OPEN_NO_CHECK_FK_FOR_CURRENT_SQL <> 0 ->
  (forall l, a_ret (oracle E l (Query h (Set_foreign_key_checks false))) <> 0) -> db <> [] ->
  exists e w', set_foreign_key_checks E h r false w = Some (Some e, w') /\
    (exists i, g_mysql_conn_map w' !! key = Some i /\ conn i = h) /\ handles w' !! h = None /\
    ctc_init_mysql_client E key db user ip proxy w' = None.
Proof.
  intros Hw Ho Hf Hdb. unfold set_foreign_key_checks. rewrite (proj2 (Z.eqb_neq _ _) Ho).
  destruct (query_run E h (Set_foreign_key_checks false) w (has_open _ _ _ Hw)) as (l & w1 & H1 & Ha & S).
  rewrite (bind_some _ _ _ _ _ H1), (proj2 (Z.eqb_neq _ _) (Hf l)). unfold mysql_errno. unfold mbind at 1, ST_bind at 1.
  rewrite get_step, Ha, deref_step. cbn [ret mret ST_ret]. unfold ctc_close_mysql_conn, ask. exec. rewrite Ha. cbn.
  do 2 eexists. split; [reflexivity|]. cbn. destruct (has_entry _ _ _ Hw) as (i & Hk & Hc & _). rewrite (st_map _ _ _ S).
  split; [by exists i|]. split; [apply lookup_delete_eq|]. unfold ctc_init_mysql_client. rewrite get_step. cbn [g_mysql_conn_map set_handles]. rewrite Hk, Hc. unfold ctc_select_db. rewrite bool_decide_eq_false_2 by done. unfold on_handle, get. exec. cbn.
  by rewrite lookup_delete_eq.
Qed.

(** The counter goes down by one when all named locks of a connection are
    released: with two of them (two tables) LOCK INSTANCE stays refused though
    the connection holds nothing. *)
Theorem unlock_counts_one tch i w :
  good w -> g_mysql_conn_map w !! conn_key_of E tch = Some i -> 2 <= conn_name_locks i -> grants (marks (w_log w)) < 2 ^ 32 ->
  is_same_node E tch = false -> has_explicit_table_lock i = true ->
  (forall l, a_ret (oracle E l (Query (conn i) Release_all_locks)) = 0) ->
  exists w', ctc_ddl_execute_unlock_tables E tch w = Some (0, w') /\ held (conn i) (marks (w_log w')) = 0 /\ 0 < g_name_locks w'.
Proof.
  intros Hw Hk Hn Hb Hsame He Hr. pose proof (good_inv _ Hw) as Hi.
  destruct (s_open _ _ _ (i_shape _ _ _ _ Hi) _ _ Hk) as [_ Ho]. unfold ctc_ddl_execute_unlock_tables. rewrite get_step, Hk.
  destruct (query_run E (conn i) Release_all_locks w Ho) as (l & w1 & H1 & Ha & S). rewrite (bind_some _ _ _ _ _ H1), Hr.
  cbn [Z.eqb negb]. rewrite (bind_some _ _ _ _ _ (store_run _ w1 _ Ha)), get_step, (st_map _ _ _ S), Hk, Hsame.
  rewrite (proj2 (Z.ltb_lt 0 (conn_name_locks i))) by lia. unfold sub_g_name_locks, info_of. exec. cbn.
  rewrite lookup_insert_eq. cbn. rewrite He. eexists. split; [reflexivity|].
  cbn [w_log set_map set_name_locks g_name_locks]. rewrite (st_log _ _ _ S), (st_locks _ _ _ S). cbn [marks List.filter is_mark fst app held].
  rewrite Z.eqb_refl, Hr. split; [done|].
  destruct (i_counts _ _ _ _ Hi Hb) as (C1 & leaked & C2 & C3 & ->). pose proof (locks_delete _ _ _ Hk) as Ht.
  assert (0 <= total_locks (delete (conn_key_of E tch) (g_mysql_conn_map w))).
  { apply locks_nonneg. intros k' i' [_ H']%lookup_delete_Some. pose proof (C1 _ _ H'). pose proof (held_nonneg (conn i') (marks (w_log w))). lia. }
  unfold uint32. rewrite wrapU_small by lia. lia.
Qed.

(** The counter of named locks is not changed. *)
Definition keeps {A} (c : M A) : Prop := forall w a w', c w = Some (a, w') -> g_name_locks w' = g_name_locks w.

Lemma keeps_bind {A B} (c : M A) (k : A -> M B) : keeps c -> (forall a, keeps (k a)) -> keeps (c ≫= k).
Proof. intros Hc Hk w b w' H. apply st_bind_inv in H as (a & w1 & H1 & H2). by rewrite (Hk _ _ _ _ H2), (Hc _ _ _ H1). Qed.
Lemma keeps_ret {A} (a : A) : keeps (ret a).
Proof. by intros w x w' [= <- <-]. Qed.
Lemma keeps_fail {A} : keeps (@fail world A).
Proof. by intros w x w'. Qed.
Lemma keeps_get : keeps get.
Proof. by intros w x w' [= <- <-]. Qed.
Lemma keeps_deref {A} (o : option A) : keeps (deref o).
Proof. destruct o; [apply keeps_ret|apply keeps_fail]. Qed.
Lemma keeps_modify f : (forall w, g_name_locks (f w) = g_name_locks w) -> keeps (modify f).
Proof. intros H w a w' [= <- <-]. apply H. Qed.
Lemma keeps_ask ev : keeps (ask E ev).
Proof. by intros w a w' [= <- <-]. Qed.

Ltac keep := first
  [ done | apply keeps_ret | apply keeps_fail | apply keeps_get | apply keeps_deref | apply keeps_ask | (apply keeps_modify; intros []; reflexivity)
  | apply keeps_bind; [|intros ?] | progress case_match | progress cbn zeta | assumption ].

Lemma keeps_on h ev : keeps (on_handle E h ev).
Proof. unfold on_handle. repeat keep. Qed.
Lemma keeps_role : keeps (ctc_get_cluster_role E).
Proof. unfold ctc_get_cluster_role, ctc_set_mysql_read_only, ctc_reset_mysql_read_only. repeat keep. Qed.
Lemma keeps_query h s : keeps (ctc_mysql_query E h s).
Proof.
  unfold ctc_mysql_query, ctc_set_mysql_read_only, ctc_reset_mysql_read_only. repeat first [apply keeps_on | apply keeps_role | keep].
Qed.
Lemma keeps_errno h : keeps (mysql_errno h).
Proof. unfold mysql_errno. repeat keep. Qed.
Lemma keeps_store h : keeps (mysql_store_result h).
Proof. unfold mysql_store_result. repeat keep. Qed.
Lemma keeps_close h : keeps (ctc_close_mysql_conn E h).
Proof. unfold ctc_close_mysql_conn. repeat keep. Qed.
Lemma keeps_select h db : keeps (ctc_select_db E h db).
Proof. unfold ctc_select_db. repeat first [apply keeps_on | keep]. Qed.
Lemma keeps_connect host user pw h : forall n d, keeps (connect_loop E n h host user pw d).
Proof. induction n as [|n IH]; intros d; cbn [connect_loop]; repeat first [apply keeps_on | apply IH | keep]. Qed.
Lemma keeps_inc n : keeps (inc_conn_count n).
Proof. induction n; cbn [inc_conn_count]; repeat keep. Qed.
Lemma keeps_conn host user pw : keeps (ctc_mysql_conn E host user pw).
Proof. unfold ctc_mysql_conn, mysql_init. repeat first [apply keeps_connect | apply keeps_inc | keep]. Qed.
Lemma keeps_agent : keeps (ctc_init_agent_client E).
Proof. unfold ctc_init_agent_client. repeat first [apply keeps_conn | apply keeps_close | keep]. Qed.
Lemma keeps_failed h s : keeps (query_failed E h s).
Proof. unfold query_failed, query_failed_with. repeat first [apply keeps_query | apply keeps_errno | keep]. Qed.
Lemma keeps_drop h n : keeps (ctc_drop_proxy_user E h n).
Proof. unfold ctc_drop_proxy_user. repeat first [apply keeps_query | keep]. Qed.
Lemma keeps_create h u i n : keeps (ctc_create_proxy_user E h u i n).
Proof. unfold ctc_create_proxy_user. repeat first [apply keeps_failed | apply keeps_drop | apply keeps_store | keep]. Qed.
Lemma keeps_proxy k u i : keeps (ctc_init_proxy_client E k u i).
Proof. unfold ctc_init_proxy_client. repeat first [apply keeps_agent | apply keeps_create | apply keeps_conn | apply keeps_close | apply keeps_drop | keep]. Qed.
Lemma keeps_client k db u i p : keeps (ctc_init_mysql_client E k db u i p).
Proof.
  unfold ctc_init_mysql_client. repeat first [apply keeps_select | apply keeps_close | apply keeps_proxy | apply keeps_agent | apply keeps_failed | keep].
Qed.

(** When the database of a request cannot be selected, the connection of the
    session is replaced; the named locks of the old one are gone and stay in the
    counter: nothing takes them out of it any more. *)
Theorem name_locks_leaked key i db user ip proxy w :
  polite E -> good w -> g_mysql_conn_map w !! key = Some i -> db <> [] ->
  (forall l, a_ret (oracle E l (Select_db (conn i) db)) <> 0) -> (forall l, a_errno (oracle E l (Select_db (conn i) db)) <> 0) ->
  exists r w', ctc_init_mysql_client E key db user ip proxy w = Some (r, w') /\
    g_name_locks w' = g_name_locks w /\
    match r with inl h => exists i', g_mysql_conn_map w' !! key = Some i' /\ conn_name_locks i' = 0 | inr _ => g_mysql_conn_map w' !! key = None end.
Proof.
  intros P Hw Hk Hdb Hf He. assert (Hh : has key (conn i) w) by (exists (g_mysql_conn_map w), i; by split; [apply good_inv|]).
  assert (Hsel : exists r w1, ctc_select_db E (conn i) db w = Some (r, w1) /\ r <> 0).
  { unfold ctc_select_db. rewrite bool_decide_eq_false_2 by done.
    destruct (on_handle_run E (conn i) (Ping (conn i)) w (has_open _ _ _ Hh)) as (w1 & H1 & Ha & _). rewrite (bind_some _ _ _ _ _ H1).
    destruct (on_handle_run E (conn i) (Select_db (conn i) db) w1 (mk_is_Some _ _ Ha)) as (w2 & H2 & _). rewrite (bind_some _ _ _ _ _ H2).
    rewrite (proj2 (Z.eqb_neq _ _) (Hf _)). eexists _, w2. split; [reflexivity|apply He]. }
  destruct Hsel as (r & w1 & H1 & Hr). destruct (reconnect E key i db user ip proxy w r w1 Hw Hk H1 Hr) as (w2 & G2 & N2 & L2 & ->).
  destruct (new_client E P key db user ip proxy w2 G2 N2) as (x & w' & H & _ & Hm). exists x, w'. split; [done|].
  split; [by rewrite (keeps_client _ _ _ _ _ _ _ _ H), L2|]. rewrite Hm. destruct x as [h|e]; [|exact N2].
  exists (mk_conn h [] false 0). by rewrite lookup_insert_eq.
Qed.
End Claims.

(** ** Examples *)

Module Example.

(** The server grants everything, but for what [fails]. *)
Definition answer_of (fails : event -> bool) (ev : event) : answer :=
  mk_answer (if fails ev then 1 else 0) (if fails ev then 1049 else 0) []
    match ev with
    | Query _ (Create_user _) => Some (Some [Some (txt "u"); Some (txt "%"); Some (txt "secret")])
    | Query _ (Get_lock _) | Query _ (Table_exists _ _) => Some (Some [Some (txt "1")])
    | Query_cluster_role => Some None
    | _ => None
    end.
Definition node (fails : event -> bool) : env := mk_env (fun _ ev => answer_of fails ev) 2 false false (fun s => s).

Definition nothing (ev : event) : bool := false.
Definition no_select (ev : event) : bool := match ev with Select_db _ db => bool_decide (db = txt "gone") | _ => false end.
Definition no_fk (ev : event) : bool := match ev with Query _ (Set_foreign_key_checks _) => true | _ => false end.
Definition no_connect (ev : event) : bool := match ev with Connect _ _ _ _ => true | _ => false end.

Lemma polite_node fails :
  (forall h n, fails (Query h (Drop_user n)) = false) -> (forall h b, fails (Query h (Set_foreign_key_checks b)) = false) -> polite (node fails).
Proof.
  intros Hd Hf. constructor; cbn; intros.
  - by rewrite Hd.
  - by rewrite Hf.
  - simplify_eq. by exists (txt "secret").
  - simplify_eq. by exists (txt "1"), [].
  - right. by eexists.
  - simplify_eq. by exists (txt "1"), [].
Qed.

Definition session : MetaData.ctc_handler := MetaData.mk_tch 1 7.
Definition key : Z := conn_key_of (node nothing) session.
Definition info t := MetaData.mk_info (txt "db") t DdlRewriter.SQLCOM_ALTER_TABLE 0.
Definition update c s := mk_request (txt "db") s (txt "root") (txt "%") 1 c CTC_OPEN_NO_CHECK_FK_FOR_CURRENT_SQL.

(** Two names, LOCK TABLES, a change of a definition *)
Definition requests : list remote_request :=
  [Lock_table session (txt "db") (txt "root") (txt "%") (info (txt "t")); Lock_table session (txt "db") (txt "root") (txt "%") (info (txt "s"));
   Execute_update 7 (update DdlRewriter.SQLCOM_LOCK_TABLES (txt "LOCK TABLES t WRITE")) true;
   Execute_update 7 (update DdlRewriter.SQLCOM_ALTER_TABLE (txt "ALTER TABLE t ADD c INT")) true].

Definition run_all (fails : event -> bool) (rs : list remote_request) : option (unit * world) :=
  for_each rs (fun r => serve (node fails) r ;; ret tt) (start 5 ROLE_DEFAULT false).

End Example.

Import Example.

(** After requests: the invariant, and what can be computed *)
Lemma after_requests fails rs (p : world -> bool) :
  polite (node fails) -> match run_all fails rs with Some (_, w) => p w | None => false end = true ->
  exists w, run_all fails rs = Some (tt, w) /\ good w /\ p w = true.
Proof.
  intros P H.
  assert (Ht : total good (for_each rs (fun r => serve (node fails) r ;; ret tt)) (fun _ => good)).
  { apply total_for. intros r _. eapply total_bind; [by apply serve_run|]. intros z. apply good_ret. }
  destruct (Ht _ (start_good 5 ROLE_DEFAULT false)) as ([] & w & Hr & Hw).
  exists w. split; [exact Hr|]. split; [done|]. unfold run_all in H. by rewrite Hr in H.
Qed.

Definition entry_with (q : conn_info -> bool) (w : world) : bool :=
  match g_mysql_conn_map w !! key with Some i => q i && (conn i =? 1) && (grants (marks (w_log w)) <? 2 ^ 32) | None => false end.

Lemma entry_with_inv q w : entry_with q w = true ->
  exists i, g_mysql_conn_map w !! key = Some i /\ q i = true /\ conn i = 1 /\ grants (marks (w_log w)) < 2 ^ 32.
Proof.
  unfold entry_with. destruct (g_mysql_conn_map w !! key) as [i|]; [|done]. intros H. zb. by exists i.
Qed.

Lemma proxy_requests_safe_witness :
  polite (node no_select) /\
  exists w, for_each requests (fun r => serve (node no_select) r ;; ret tt) (start 5 ROLE_DEFAULT false) = Some (tt, w) /\
    (forall k i, g_mysql_conn_map w !! k = Some i -> is_Some (handles w !! conn i)) /\
    users (marks (w_log w)) = [].
Proof.
  assert (P : polite (node no_select)) by (by apply polite_node).
  split; [exact P|].
  destruct (proxy_requests_safe (node no_select) requests 5 ROLE_DEFAULT false P) as (w & H & H1 & _ & _ & H4 & _).
  exists w. exact (conj H (conj H1 H4)).
Defined.

Lemma foreign_key_failure_frees_witness :
  exists w e w', set_foreign_key_checks (node no_fk) 1 (update DdlRewriter.SQLCOM_ALTER_TABLE []) false w = Some (Some e, w') /\
    handles w' !! 1 = None /\ ctc_init_mysql_client (node no_fk) key (txt "db") (txt "root") (txt "%") true w' = None.
Proof.
  destruct (after_requests nothing requests (entry_with (fun _ => true)) ltac:(by apply polite_node) ltac:(vm_compute; reflexivity))
    as (w & _ & Hg & Hp).
  destruct (entry_with_inv _ _ Hp) as (i & Hk & _ & Hc & _). exists w.
  destruct (foreign_key_failure_frees (node no_fk) key 1 (update DdlRewriter.SQLCOM_ALTER_TABLE []) w (txt "db") (txt "root") (txt "%") true)
    as (e & w' & H1 & _ & H3 & H4).
  - exists (g_mysql_conn_map w), i. exact (conj (good_inv w Hg) (conj Hk Hc)).
  - vm_compute. discriminate.
  - intros l. vm_compute. discriminate.
  - discriminate.
  - exists e, w'. exact (conj H1 (conj H3 H4)).
Defined.

Lemma unlock_counts_one_witness :
  exists w w', ctc_ddl_execute_unlock_tables (node nothing) session w = Some (0, w') /\ held 1 (marks (w_log w')) = 0 /\ 0 < g_name_locks w'.
Proof.
  destruct (after_requests nothing requests (entry_with (fun i => (2 <=? conn_name_locks i) && has_explicit_table_lock i))
              ltac:(by apply polite_node) ltac:(vm_compute; reflexivity)) as (w & _ & Hg & Hp).
  destruct (entry_with_inv _ _ Hp) as (i & Hk & Hq & Hc & Hb). apply andb_prop in Hq as [Hn He]. apply Z.leb_le in Hn. exists w.
  rewrite <- Hc. apply (unlock_counts_one (node nothing) session i w Hg Hk Hn Hb eq_refl He). intros l. reflexivity.
Defined.

Lemma name_locks_leaked_witness :
  exists w r w', 2 <= g_name_locks w /\ ctc_init_mysql_client (node no_select) key (txt "gone") (txt "root") (txt "%") true w = Some (r, w') /\
    g_name_locks w' = g_name_locks w.
Proof.
  assert (P : polite (node no_select)) by (by apply polite_node).
  destruct (after_requests no_select requests (fun w => entry_with (fun _ => true) w && (2 <=? g_name_locks w)) P ltac:(vm_compute; reflexivity))
    as (w & _ & Hg & Hp).
  apply andb_prop in Hp as [Hp Hl]. apply Z.leb_le in Hl. destruct (entry_with_inv _ _ Hp) as (i & Hk & _ & Hc & _).
  destruct (name_locks_leaked (node no_select) key i (txt "gone") (txt "root") (txt "%") true w P Hg Hk) as (r & w' & H1 & H2 & _).
  - discriminate.
  - intros l. vm_compute. discriminate.
  - intros l. vm_compute. discriminate.
  - exists w, r, w'. exact (conj Hl (conj H1 H2)).
Defined.
End Proxy.
