(* ===== verification/ReqMem.v ===== *)
(** * ReqMem: memory of the requests that define tables

    Models [ctc_ddl_alloc_mem] of [ctc_ddl_util.cc], the array
    [ctc_ddl_req_mem] of [ha_ctc_ddl.cc] that it hands out, and the class
    [ctc_ddl_stack_mem] of [ha_ctc_ddl.h] for the packed message.

    The structures of a request and the texts that the connector makes for it
    lie in one static array, of which a request uses the first part; there is
    no free.  [E R A] is a piece of a function with the return type [R]: it
    goes on with a value of type [A], or it has returned ([inl]); [None] is
    undefined behaviour.  [costs] says how much of the array the code takes
    and what it does when that does not fit; [frames], that it changes nothing
    below. *)

From S2P Require Import Prelude FieldTypes SqlText.
Import FieldTypes SqlText.

Module ReqMem.

Definition CTC_DDL_PROTOBUF_MEM_SIZE : Z := 1024 * 1024 * 10.
Definition HA_ERR_OUT_OF_MEM : Z := 128.

(** Offsets stand for pointers into [ctc_ddl_req_mem].  The conversion table
    of [FieldTypes] is shared and changes with the columns that are looked up. *)
Record arena := mk_arena { mem_start : Z; ctc_ddl_req_mem : Z -> Ascii.ascii; cnvrt_table : aux_table }.

Definition E (R A : Type) : Type := arena -> option ((R + A) * arena).

#[export] Instance E_ret {R} : MRet (E R) := fun A x a => Some (inr x, a).
#[export] Instance E_bind {R} : MBind (E R) := fun A B k m a =>
  match m a with
  | Some (inr x, a) => k x a
  | Some (inl r, a) => Some (inl r, a)
  | None => None
  end.

Section Operations.
Context {R : Type}.

Definition give {A} (x : A) : E R A := mret x.
Definition returns {A} (r : R) : E R A := fun a => Some (inl r, a).
Definition undefined {A} : E R A := fun _ => None.

(** A pointer that must not be null, an index in range, an assertion *)
Definition deref {A} (o : option A) : E R A := match o with Some x => give x | None => undefined end.

(** [null]: the block would reach the end of the array. *)
Definition ctc_ddl_alloc_mem (malloc_size : Z) : E R (option Z) := fun a =>
  if CTC_DDL_PROTOBUF_MEM_SIZE <=? mem_start a + malloc_size then Some (inr None, a)
  else Some (inr (Some (mem_start a)), mk_arena (mem_start a + malloc_size) (ctc_ddl_req_mem a) (cnvrt_table a)).

(** [if (p == NULL) return code;] *)
Definition need (code : R) (size : Z) : E R Z :=
  p ← ctc_ddl_alloc_mem size; match p with Some p => give p | None => returns code end.

(** Characters stored from an address on.  The array ends at its size; a
    store behind the block that the address belongs to stays in the array. *)
Definition store (p : Z) (s : text) : E R unit := fun a =>
  if (0 <=? p) && (p + Z.of_nat (length s) <=? CTC_DDL_PROTOBUF_MEM_SIZE)
  then Some (inr tt, mk_arena (mem_start a) (fun i =>
         if (p <=? i) && (i <? p + Z.of_nat (length s)) then nth (Z.to_nat (i - p)) s (chr 0)
         else ctc_ddl_req_mem a i) (cnvrt_table a))
  else None.

(** [for (x : l) ...] with a result for each *)
Fixpoint each {A B} (l : list A) (f : A -> E R B) : E R (list B) :=
  match l with
  | [] => give []
  | x :: l => y ← f x; ys ← each l f; give (y :: ys)
  end.

End Operations.

(** A call: the code that its return value decides about *)
Definition call {R R' A} (on_return : R' -> E R A) (m : E R' A) : E R A := fun a =>
  match m a with
  | Some (inr x, a) => Some (inr x, a)
  | Some (inl r, a) => on_return r a
  | None => None
  end.

(** The string at an address *)
Fixpoint c_string (mem : Z -> Ascii.ascii) (fuel : nat) (p : Z) : text :=
  match fuel with
  | O => []
  | S n => if code (mem p) =? 0 then [] else mem p :: c_string mem n (p + 1)
  end.

Definition text_at (a : arena) (p : Z) : text :=
  c_string (ctc_ddl_req_mem a) (Z.to_nat (CTC_DDL_PROTOBUF_MEM_SIZE - p)) p.

(** A block of its length and one that holds the string: what the code does
    with [strncpy(..., len + 1)] and with [sprintf("%s")] *)
Definition new_text {R} (oom : R) (s : text) : E R Z :=
  p ← need oom (Z.of_nat (length s) + 1);
  _ ← store p (s ++ [chr 0]);
  give p.

(** ** Costs *)

Definition inside (a : arena) : Prop := 0 <= mem_start a < CTC_DDL_PROTOBUF_MEM_SIZE.

(** From any state the code takes [n] bytes, and its result satisfies [Q]; or
    there are not that many: then it returns [oom], or, if [abort] allows
    that, it stops at an assertion. *)
Definition costs {R A} (abort : bool) (oom : R) (m : E R A) (n : Z) (Q : A -> Prop) : Prop :=
  0 <= n /\ forall a, inside a ->
  (mem_start a + n < CTC_DDL_PROTOBUF_MEM_SIZE ->
     exists x a', m a = Some (inr x, a') /\ mem_start a' = mem_start a + n /\ Q x) /\
  (CTC_DDL_PROTOBUF_MEM_SIZE <= mem_start a + n ->
     (exists a', m a = Some (inl oom, a')) \/ (abort = true /\ m a = None)).

(** The code only changes what it allocates or what is not allocated. *)
Definition frames {R A} (m : E R A) : Prop := forall a r a',
  m a = Some (r, a') -> mem_start a <= mem_start a' /\
  forall i, i < mem_start a -> ctc_ddl_req_mem a' i = ctc_ddl_req_mem a i.

Section Rules.
Context {R : Type}.
Implicit Types oom : R.

Lemma bind_val {A B} (m : E R A) (k : A -> E R B) a x a1 :
  m a = Some (inr x, a1) -> (m ≫= k) a = k x a1.
Proof. intros H. unfold mbind, E_bind. by rewrite H. Qed.

Lemma give_step {A B} (x : A) (k : A -> E R B) a : (give x ≫= k) a = k x a.
Proof. done. Qed.

Lemma req_deref_step {A B} (x : A) (k : A -> E R B) a : (deref (Some x) ≫= k) a = k x a.
Proof. done. Qed.

Lemma bind_ret {A B} (m : E R A) (k : A -> E R B) a r a1 :
  m a = Some (inl r, a1) -> (m ≫= k) a = Some (inl r, a1).
Proof. intros H. unfold mbind, E_bind. by rewrite H. Qed.

Lemma bind_none {A B} (m : E R A) (k : A -> E R B) a : m a = None -> (m ≫= k) a = None.
Proof. intros H. unfold mbind, E_bind. by rewrite H. Qed.

Lemma bind_assoc {A B C} (m : E R A) (k : A -> E R B) (k' : B -> E R C) a :
  ((m ≫= k) ≫= k') a = (m ≫= fun x => k x ≫= k') a.
Proof. unfold mbind, E_bind. by destruct (m a) as [[[r|x] a1]|]. Qed.

Lemma bind_ext {A B} (m : E R A) (k k' : A -> E R B) a : (forall x a, k x a = k' x a) -> (m ≫= k) a = (m ≫= k') a.
Proof. intros H. unfold mbind, E_bind. destruct (m a) as [[[r|x] a1]|]; [done|apply H|done]. Qed.

Lemma req_bind_inv {A B} (m : E R A) (k : A -> E R B) a r a' :
  (m ≫= k) a = Some (r, a') ->
  (exists x a1, m a = Some (inr x, a1) /\ k x a1 = Some (r, a')) \/
  (exists e, m a = Some (inl e, a') /\ r = inl e).
Proof.
  unfold mbind, E_bind. destruct (m a) as [[[e|x] a1]|]; [| |done].
  - intros [= <- <-]. right. eauto.
  - intros H. left. eauto.
Qed.

Lemma costs_give {A} b oom (x : A) (Q : A -> Prop) : Q x -> costs b oom (give x) 0 Q.
Proof.
  intros HQ. split; [lia|]. intros a [H1 H2]. split.
  - intros _. exists x, a. split_and!; [done|lia|done].
  - intros H. lia.
Qed.

Lemma costs_bind {A B} b oom (m : E R A) (k : A -> E R B) n1 n2 Q1 Q2 :
  costs b oom m n1 Q1 -> (forall x, Q1 x -> costs b oom (k x) n2 Q2) -> 0 <= n2 ->
  costs b oom (m ≫= k) (n1 + n2) Q2.
Proof.
  intros [Hn1 Hm] Hk Hn2. split; [lia|]. intros a Ha. destruct (Hm a Ha) as [Hfit Hno].
  destruct (decide (mem_start a + n1 < CTC_DDL_PROTOBUF_MEM_SIZE)) as [Hlt|Hge].
  - destruct (Hfit Hlt) as (x & a1 & Hx & Hs & HQ). rewrite (bind_val _ _ _ _ _ Hx).
    destruct (Hk x HQ) as [_ Hk']. destruct (Hk' a1) as [H1 H2]; [unfold inside in *; lia|]. rewrite Hs in H1, H2. split.
    + intros H. destruct H1 as (y & a2 & -> & Hs2 & HQ2); [lia|]. exists y, a2. split_and!; [done|lia|done].
    + intros H. apply H2. lia.
  - split; [lia|]. intros _. destruct Hno as [[a' Ha']|[Hb Hnone]]; [lia| |].
    + left. exists a'. by apply bind_ret.
    + right. split; [done|]. unfold mbind, E_bind. by rewrite Hnone.
Qed.

Lemma costs_conseq {A} b oom (m : E R A) n n' (Q Q' : A -> Prop) :
  costs b oom m n Q -> n = n' -> (forall x, Q x -> Q' x) -> costs b oom m n' Q'.
Proof.
  intros [Hn H] <- HQ. split; [done|]. intros a Ha. destruct (H a Ha) as [H1 H2]. split; [|done].
  intros Hf. destruct (H1 Hf) as (x & a' & ? & ? & ?). exists x, a'. auto.
Qed.

Lemma costs_weaken {A} b oom (m : E R A) n Q : costs false oom m n Q -> costs b oom m n Q.
Proof.
  intros [Hn H]. split; [done|]. intros a Ha. destruct (H a Ha) as [H1 H2]. split; [done|].
  intros Hf. destruct (H2 Hf) as [?|[? ?]]; [by left|done].
Qed.

Lemma costs_need b oom n : 0 <= n -> costs b oom (need oom n) n (fun _ => True).
Proof.
  intros Hn. split; [done|]. intros a Ha. unfold need, ctc_ddl_alloc_mem, mbind, E_bind.
  destruct (CTC_DDL_PROTOBUF_MEM_SIZE <=? mem_start a + n) eqn:E; zb; split; intros H; try lia.
  - left. by eexists.
  - by eexists _, _.
Qed.

(** An allocation whose result an assertion checks *)
Lemma costs_assert oom n : 0 <= n ->
  costs true oom (p ← ctc_ddl_alloc_mem n; deref p) n (fun _ => True).
Proof.
  intros Hn. split; [done|]. intros a Ha. unfold ctc_ddl_alloc_mem, mbind, E_bind.
  destruct (CTC_DDL_PROTOBUF_MEM_SIZE <=? mem_start a + n) eqn:E; zb; split; intros H; try lia.
  - by right.
  - by eexists _, _.
Qed.

(** The bytes of a list of things *)
Definition total {A} (n : A -> Z) (l : list A) : Z := foldr Z.add 0 (map n l).

Lemma total_nonneg {A} (n : A -> Z) l : (forall x, 0 <= n x) -> 0 <= total n l.
Proof.
  intros H. unfold total. induction l as [|x l IH]; cbn [map foldr]; [lia|]. specialize (H x). lia.
Qed.

Lemma total_cons {A} (n : A -> Z) x l : total n (x :: l) = n x + total n l.
Proof. done. Qed.

Lemma req_total_const {A} (c : Z) (l : list A) : total (fun _ => c) l = c * Z.of_nat (length l).
Proof. unfold total. induction l as [|x l IH]; cbn [map foldr length]; lia. Qed.

Lemma req_total_le {A} (n : A -> Z) c l : (forall x, x ∈ l -> n x <= c) -> total n l <= c * Z.of_nat (length l).
Proof.
  unfold total. induction l as [|x l IH]; intros H; cbn [map foldr length]; [lia|].
  pose proof (H x ltac:(left)). specialize (IH ltac:(intros; apply H; by right)). lia.
Qed.

Lemma costs_each {A B} b oom (l : list A) (f : A -> E R B) (n : A -> Z) (Q : A -> B -> Prop) :
  (forall x, 0 <= n x) -> (forall x, x ∈ l -> costs b oom (f x) (n x) (Q x)) ->
  costs b oom (each l f) (total n l) (fun ys => Forall2 Q l ys).
Proof.
  intros Hn. induction l as [|x l IH]; intros Hf; cbn [each].
  - by apply costs_give.
  - rewrite total_cons. eapply costs_bind; [apply Hf; left| |by apply total_nonneg]. intros y Hy.
    eapply costs_conseq; [eapply (costs_bind _ _ _ _ _ 0); [apply IH; intros; apply Hf; by right| |lia]|lia|intros z Hz; exact Hz].
    intros ys Hys. apply costs_give. by constructor.
Qed.

(** What costs the same for every element *)
Lemma costs_each_const {A B} b oom (l : list A) (f : A -> E R B) n (Q : B -> Prop) :
  (forall x, costs b oom (f x) n Q) ->
  costs b oom (each l f) (n * Z.of_nat (length l)) (fun ys => length ys = length l /\ Forall Q ys).
Proof.
  intros Hf. destruct l as [|x0 l'] eqn:Hl.
  { cbn [each length]. eapply costs_conseq; [by apply (costs_give _ _ [] (fun ys => ys = []))|lia|]. by intros ? ->. }
  rewrite <- Hl. clear Hl. assert (0 <= n) as Hn by apply (Hf x0).
  eapply costs_conseq; [apply (costs_each b oom l f (fun _ => n) (fun _ => Q)); [done|by intros; apply Hf]|apply req_total_const|].
  intros ys H. split; [symmetry; by eapply Forall2_length|]. clear -H. induction H; by constructor.
Qed.

(** The request that is built first starts at the beginning of the array. *)
Definition empty_arena (mem : Z -> Ascii.ascii) (tab : aux_table) : arena := mk_arena 0 mem tab.

Lemma costs_run {A} b oom (m : E R A) n Q mem tab :
  costs b oom m n Q ->
  (n < CTC_DDL_PROTOBUF_MEM_SIZE <-> exists x a', m (empty_arena mem tab) = Some (inr x, a') /\ Q x).
Proof.
  intros [Hn H]. destruct (H (empty_arena mem tab)) as [H1 H2].
  { unfold inside, CTC_DDL_PROTOBUF_MEM_SIZE. simpl. lia. }
  cbn [mem_start empty_arena] in H1, H2. split.
  - intros Hlt. destruct H1 as (x & a' & ? & _ & ?); [lia|]. by exists x, a'.
  - intros (x & a' & Hx & _). destruct (decide (n < CTC_DDL_PROTOBUF_MEM_SIZE)) as [?|Hge]; [done|].
    destruct H2 as [[a2 Ha2]|[_ Hnone]]; [lia| |]; by rewrite Hx in *.
Qed.

(** ** Frames *)

Lemma frames_give {A} (x : A) : frames (R := R) (give x).
Proof. intros a r a' [= <- <-]. split; [lia|done]. Qed.

Lemma frames_returns {A} (r : R) : frames (A := A) (returns r).
Proof. intros a r' a' [= <- <-]. split; [lia|done]. Qed.

Lemma frames_bind {A B} (m : E R A) (k : A -> E R B) :
  frames m -> (forall x, frames (k x)) -> frames (m ≫= k).
Proof.
  intros Hm Hk a r a' H. apply req_bind_inv in H as [(x & a1 & H1 & H2)|(e & H1 & ->)].
  - apply Hm in H1 as [Hs1 Hf1]. apply Hk in H2 as [Hs2 Hf2]. split; [lia|].
    intros i Hi. rewrite Hf2 by lia. by apply Hf1.
  - by apply Hm in H1.
Qed.

Lemma frames_deref {A} (o : option A) : frames (R := R) (deref o).
Proof. destruct o; [apply frames_give|]. by intros a r a' [=]. Qed.

Lemma frames_alloc n : 0 <= n -> frames (R := R) (ctc_ddl_alloc_mem n).
Proof.
  intros Hn a r a'. unfold ctc_ddl_alloc_mem. destruct (_ <=? _); intros [= <- <-]; simpl; split; try lia; done.
Qed.

Lemma frames_need (code : R) n : 0 <= n -> frames (need code n).
Proof.
  intros Hn. apply frames_bind; [by apply frames_alloc|]. intros [p|]; [apply frames_give|apply frames_returns].
Qed.

Lemma frames_each {A B} (l : list A) (f : A -> E R B) : (forall x, frames (f x)) -> frames (each l f).
Proof.
  intros H. induction l as [|x l IH]; cbn [each]; [apply frames_give|].
  apply frames_bind; [apply H|]. intros y. apply frames_bind; [done|]. intros ys. apply frames_give.
Qed.

End Rules.

(** ** Stores into new blocks

    [keeps lo m]: the code changes nothing below [lo], which is allocated. *)

Definition keeps {R A} (lo : Z) (m : E R A) : Prop := forall a r a',
  lo <= mem_start a -> m a = Some (r, a') -> mem_start a <= mem_start a' /\
  forall i, i < lo -> ctc_ddl_req_mem a' i = ctc_ddl_req_mem a i.

Section Keeps.
Context {R : Type}.
Implicit Type lo : Z.

Lemma keeps_frames {A} (m : E R A) : (forall lo, keeps lo m) -> frames m.
Proof. intros H a r a' Hm. apply (H (mem_start a)) in Hm; [done|lia]. Qed.

Lemma keeps_give {A} lo (x : A) : keeps (R := R) lo (give x).
Proof. intros a r a' Hl [= <- <-]. split; [lia|done]. Qed.

Lemma keeps_returns {A} lo (r : R) : keeps (A := A) lo (returns r).
Proof. intros a r' a' Hl [= <- <-]. split; [lia|done]. Qed.

Lemma keeps_undefined {A} lo : keeps (R := R) (A := A) lo undefined.
Proof. by intros a r a' Hl [=]. Qed.

Lemma req_keeps_deref {A} lo (o : option A) : keeps (R := R) lo (deref o).
Proof. destruct o; [apply keeps_give|apply keeps_undefined]. Qed.

Lemma req_keeps_bind {A B} lo (m : E R A) (k : A -> E R B) :
  keeps lo m -> (forall x, keeps lo (k x)) -> keeps lo (m ≫= k).
Proof.
  intros Hm Hk a r a' Hl H. apply req_bind_inv in H as [(x & a1 & H1 & H2)|(e & H1 & ->)].
  - apply Hm in H1 as [Hs1 Hf1]; [|done]. apply Hk in H2 as [Hs2 Hf2]; [|lia]. split; [lia|].
    intros i Hi. by rewrite Hf2, Hf1.
  - by apply Hm in H1.
Qed.

(** The block that follows an allocation is new. *)
Lemma keeps_need {B} lo (code : R) n (k : Z -> E R B) :
  0 <= n -> (forall p, lo <= p -> keeps lo (k p)) -> keeps lo (need code n ≫= k).
Proof.
  intros Hn Hk a r a' Hl H. unfold need in H.
  apply req_bind_inv in H as [(p & a1 & H1 & H2)|(e & H1 & ->)].
  - apply req_bind_inv in H1 as [(o & a2 & H3 & H4)|(e & _ & [=])]. unfold ctc_ddl_alloc_mem in H3.
    destruct (_ <=? _); injection H3 as <- <-; [done|]. injection H4 as <- <-.
    apply Hk in H2 as [Hs Hf]; [|done|cbn; lia]. cbn in Hs. split; [lia|done].
  - apply req_bind_inv in H1 as [(o & a2 & H3 & H4)|(e' & H3 & [= ->])]; unfold ctc_ddl_alloc_mem in H3;
      destruct (_ <=? _); try done; injection H3 as <- <-; [|done]. injection H4 as <- <-. split; [lia|done].
Qed.

Lemma req_keeps_store lo p s : lo <= p -> keeps (R := R) lo (store p s).
Proof.
  intros Hp a r a' Hl. unfold store. destruct (_ && _); [|done]. intros [= <- <-]. cbn. split; [lia|].
  intros i Hi. by rewrite (proj2 (Z.leb_gt _ _)) by lia.
Qed.

Lemma keeps_new_text lo (oom : R) s : keeps lo (new_text oom s).
Proof.
  apply keeps_need; [lia|]. intros p Hp. apply req_keeps_bind; [by apply req_keeps_store|]. intros _. apply keeps_give.
Qed.

Lemma req_keeps_each {A B} lo (l : list A) (f : A -> E R B) : (forall x, keeps lo (f x)) -> keeps lo (each l f).
Proof.
  intros H. induction l as [|x l IH]; cbn [each]; [apply keeps_give|].
  apply req_keeps_bind; [apply H|]. intros y. apply req_keeps_bind; [done|]. intros ys. apply keeps_give.
Qed.

End Keeps.

Create HintDb keeps discriminated.
#[export] Hint Resolve keeps_give keeps_returns keeps_undefined req_keeps_deref keeps_new_text : keeps.
#[export] Hint Extern 2 (keeps _ (store _ _)) => apply req_keeps_store; lia : keeps.

(** One step of the code: an allocation with its continuation, a branch, a
    piece and what follows *)
Ltac keeps_step :=
  match goal with
  | |- keeps _ (need _ _ ≫= _) => apply keeps_need; [try lia|intros ? ?]
  | |- keeps _ (_ ≫= _) => apply req_keeps_bind; [|intros ?]
  | |- keeps _ (match ?x with _ => _ end) => destruct x
  | |- keeps _ (let '(_, _) := ?x in _) => destruct x
  | _ => solve [eauto with keeps]
  end.
Ltac keeps_auto := repeat (cbv zeta; keeps_step).

(** ** What a result satisfies *)

Section Gives.
Context {R : Type}.

(** Every result that [m] gives satisfies [P]. *)
Definition gives {A} (P : A -> Prop) (m : E R A) : Prop :=
  forall a x a', m a = Some (inr x, a') -> P x.

Lemma gives_give {A} (P : A -> Prop) x : P x -> gives P (give x).
Proof. by intros H a y a' [= <- _]. Qed.

Lemma gives_returns {A} (P : A -> Prop) r : gives P (returns r).
Proof. by intros a y a' [=]. Qed.

Lemma gives_undefined {A} (P : A -> Prop) : gives P undefined.
Proof. by intros a y a' [=]. Qed.

Lemma gives_bind_with {A B} (Q : A -> Prop) (P : B -> Prop) (m : E R A) (k : A -> E R B) :
  gives Q m -> (forall x, Q x -> gives P (k x)) -> gives P (m ≫= k).
Proof.
  intros Hm Hk a y a' H. apply req_bind_inv in H as [(x & a1 & H1 & H2)|(e & _ & [=])].
  by eapply Hk; [eapply Hm|].
Qed.

Lemma gives_bind {A B} (P : B -> Prop) (m : E R A) (k : A -> E R B) :
  (forall x, gives P (k x)) -> gives P (m ≫= k).
Proof. intros Hk. apply (gives_bind_with (fun _ => True)); [by intros ? ? ? ?|auto]. Qed.

End Gives.

Create HintDb gives discriminated.
#[export] Hint Resolve gives_returns gives_undefined : gives.
#[export] Hint Extern 1 (gives _ (give _)) => apply gives_give; done : gives.

(** The last results of a piece of code, whatever goes before them *)
Ltac gives_auto :=
  repeat (cbv zeta; match goal with
    | |- gives _ (_ ≫= _) => apply gives_bind; intros ?
    | |- gives _ (match ?x with _ => _ end) => destruct x
    | _ => solve [eauto with gives]
    end).

(** ** Allocation *)

(** A block is behind everything that was allocated before it, and ends
    before the array does; the last byte of the array is never handed out. *)
Lemma alloc_spec {R} n a : 0 <= n -> inside a ->
  (mem_start a + n < CTC_DDL_PROTOBUF_MEM_SIZE /\
   ctc_ddl_alloc_mem (R := R) n a = Some (inr (Some (mem_start a)), mk_arena (mem_start a + n) (ctc_ddl_req_mem a) (cnvrt_table a)) /\
   inside (mk_arena (mem_start a + n) (ctc_ddl_req_mem a) (cnvrt_table a))) \/
  (CTC_DDL_PROTOBUF_MEM_SIZE <= mem_start a + n /\ ctc_ddl_alloc_mem (R := R) n a = Some (inr None, a)).
Proof.
  intros Hn Ha. unfold ctc_ddl_alloc_mem, inside in *. destruct (_ <=? _) eqn:E; zb; [by right|left].
  simpl. split_and!; [lia|done|lia|lia].
Qed.

(** ** Texts *)

Lemma store_val {R} p s a : 0 <= p -> p + Z.of_nat (length s) <= CTC_DDL_PROTOBUF_MEM_SIZE ->
  store (R := R) p s a = Some (inr tt, mk_arena (mem_start a) (fun i =>
    if (p <=? i) && (i <? p + Z.of_nat (length s)) then nth (Z.to_nat (i - p)) s (chr 0) else ctc_ddl_req_mem a i) (cnvrt_table a)).
Proof. intros H1 H2. unfold store. by rewrite !(proj2 (Z.leb_le _ _)) by lia. Qed.

(** A text without the character 0 *)
Definition no_nul (s : text) : Prop := Forall (fun c => code c <> 0) s.

Lemma c_string_stored mem s : forall fuel p, no_nul s -> (length s < fuel)%nat ->
  (forall i, (i <= length s)%nat -> mem (p + Z.of_nat i) = nth i (s ++ [chr 0]) (chr 0)) ->
  c_string mem fuel p = s.
Proof.
  induction s as [|c s IH]; intros fuel p Hs Hf Hm; (destruct fuel as [|fuel]; [simpl in Hf; lia|]); cbn [c_string].
  - specialize (Hm 0%nat ltac:(simpl; lia)). rewrite Z.add_0_r in Hm. rewrite Hm. done.
  - inversion Hs as [|? ? Hc Hs']; subst.
    pose proof (Hm 0%nat ltac:(simpl; lia)) as H0. rewrite Z.add_0_r in H0. rewrite H0. cbn [nth app].
    destruct (code c =? 0) eqn:E; zb; [done|]. f_equal. apply IH; [done|simpl in Hf; lia|].
    intros i Hi. replace (p + 1 + Z.of_nat i) with (p + Z.of_nat (S i)) by lia. apply (Hm (S i)). simpl. lia.
Qed.

(** Memory that holds a text and its end at an address *)
Definition holds (a : arena) (p : Z) (s : text) : Prop :=
  0 <= p /\ p + Z.of_nat (length s) + 1 <= mem_start a /\ no_nul s /\
  forall i, (i <= length s)%nat -> ctc_ddl_req_mem a (p + Z.of_nat i) = nth i (s ++ [chr 0]) (chr 0).

Lemma holds_text a p s : holds a p s -> inside a -> text_at a p = s.
Proof.
  intros (H1 & H2 & H3 & H4) [Ha Hb]. unfold text_at. apply c_string_stored; [done|lia|done].
Qed.

(** Whatever is built later leaves the text as it is. *)
Lemma holds_frames {R A} (m : E R A) a r a' p s : frames m -> m a = Some (r, a') -> holds a p s -> holds a' p s.
Proof.
  intros Hf Hm (H1 & H2 & H3 & H4). apply Hf in Hm as [Hs Hm]. split_and!; [done|lia|done|].
  intros i Hi. rewrite Hm by lia. by apply H4.
Qed.

Lemma holds_stored {R} p s a a' r : 0 <= p -> p + Z.of_nat (length s) + 1 <= mem_start a -> inside a -> no_nul s ->
  store (R := R) p (s ++ [chr 0]) a = Some (r, a') -> holds a' p s.
Proof.
  intros Hp Hl [Ha1 Ha2] Hs H. rewrite store_val in H by (rewrite ?length_app; simpl; lia).
  injection H as <- <-. split_and!; [done|simpl; lia|done|]. intros i Hi. cbn [ctc_ddl_req_mem].
  rewrite length_app. simpl length. rewrite (proj2 (Z.leb_le p _)), (proj2 (Z.ltb_lt _ _)) by lia.
  cbn [andb]. f_equal. lia.
Qed.

Lemma need_val {R} (oom : R) n a : 0 <= n -> inside a -> mem_start a + n < CTC_DDL_PROTOBUF_MEM_SIZE ->
  need oom n a = Some (inr (mem_start a), mk_arena (mem_start a + n) (ctc_ddl_req_mem a) (cnvrt_table a)).
Proof.
  intros Hn Ha Hf. unfold need. destruct (alloc_spec (R := R) n a Hn Ha) as [(_ & H & _)|[? _]]; [|lia].
  by rewrite (bind_val _ _ _ _ _ H).
Qed.

Lemma new_text_holds {R} (oom : R) s a : inside a -> no_nul s ->
  mem_start a + Z.of_nat (length s) + 1 < CTC_DDL_PROTOBUF_MEM_SIZE ->
  exists a', new_text oom s a = Some (inr (mem_start a), a') /\
    mem_start a' = mem_start a + Z.of_nat (length s) + 1 /\ holds a' (mem_start a) s.
Proof.
  intros Ha Hs Hfit. unfold new_text. rewrite (bind_val _ _ _ _ _ (need_val oom (Z.of_nat (length s) + 1) a ltac:(lia) Ha ltac:(lia))).
  set (a1 := mk_arena _ _ _). destruct Ha as [Ha1 Ha2].
  pose proof (store_val (R := R) (mem_start a) (s ++ [chr 0]) a1 Ha1 ltac:(rewrite length_app; simpl; lia)) as H.
  rewrite (bind_val _ _ _ _ _ H). eexists. split_and!; [done|simpl; lia|].
  eapply (holds_stored (R := R) _ _ a1); [done|subst a1; simpl; lia|split; subst a1; simpl; lia|done|exact H].
Qed.

(** ** The packed message *)

Definition CTC_DDL_PROTOBUF_MSG_STACK_SIZE : Z := 4 * 1024.
Definition CTC_DDL_PROTOBUF_MSG_SIZE : Z := 1024 * 1024 * 10.

(** [buf_obj]: null, the array in the object, or a block of [my_malloc] *)
Inductive buffer := No_buf | Stack_obj | Heap (size : Z).

(** [ctc_ddl_stack_mem], with the counters of the class and the blocks that
    are not freed *)
Record stack_mem := mk_stack_mem {
  buf_obj : buffer;
  ctc_ddl_req_msg_mem_max_size : Z;
  ctc_ddl_req_msg_mem_use_heap_cnt : Z;
  blocks : list Z }.

Definition free_buf (s : stack_mem) : option stack_mem :=
  match buf_obj s with
  | Heap n => match blocks s with
              | m :: l => if m =? n then Some (mk_stack_mem No_buf (ctc_ddl_req_msg_mem_max_size s)
                                               (ctc_ddl_req_msg_mem_use_heap_cnt s) l) else None
              | [] => None
              end
  | _ => Some s
  end.

(** [malloc_works]: what [my_malloc] does *)
Definition set_mem_size (malloc_works : bool) (mem_size : Z) (s : stack_mem) : option stack_mem :=
  s ← free_buf s;
  if negb (mem_size <? CTC_DDL_PROTOBUF_MSG_SIZE) then None else
  let max_size := Z.max (ctc_ddl_req_msg_mem_max_size s) mem_size in
  let cnt := ctc_ddl_req_msg_mem_use_heap_cnt s in
  Some (if mem_size <=? CTC_DDL_PROTOBUF_MSG_STACK_SIZE then mk_stack_mem Stack_obj max_size cnt (blocks s)
        else if malloc_works then mk_stack_mem (Heap mem_size) max_size (cnt + 1) (mem_size :: blocks s)
        else mk_stack_mem No_buf max_size (cnt + 1) (blocks s)).

Definition get_buf (s : stack_mem) : option Z :=
  match buf_obj s with
  | No_buf => None | Stack_obj => Some CTC_DDL_PROTOBUF_MSG_STACK_SIZE | Heap n => Some n
  end.

(** An object from its construction to its end: the sizes it is set to *)
Definition object (max_size cnt : Z) (sizes : list (bool * Z)) : option stack_mem :=
  s ← set_mem_size true 0 (mk_stack_mem No_buf max_size cnt []);
  s ← foldl (fun s x => s ≫= set_mem_size x.1 x.2) (Some s) sizes;
  free_buf s.

Definition owns (s : stack_mem) : Prop :=
  blocks s = match buf_obj s with Heap n => [n] | _ => [] end.

Lemma set_mem_size_owns w n s : owns s -> 0 <= n < CTC_DDL_PROTOBUF_MSG_SIZE ->
  exists s', set_mem_size w n s = Some s' /\ owns s' /\
    match get_buf s' with Some room => n <= room | None => w = false end.
Proof.
  unfold owns, set_mem_size, free_buf, get_buf. intros Ho Hn.
  assert (exists s1, free_buf s = Some s1 /\ blocks s1 = []) as (s1 & H1 & H2).
  { unfold free_buf. destruct (buf_obj s) eqn:Hb; [by eauto..|]. rewrite Ho, Z.eqb_refl. by eauto. }
  unfold free_buf in H1. rewrite H1. cbn [mbind option_bind]. rewrite (proj2 (Z.ltb_lt _ _)) by lia. cbn [negb].
  eexists. split; [done|]. destruct (n <=? CTC_DDL_PROTOBUF_MSG_STACK_SIZE) eqn:E; zb; [by rewrite H2; split|].
  destruct w; simpl; rewrite H2; by split.
Qed.

(** The buffer holds what it was set to, unless the allocation failed, and the
    end of the object leaves no block behind. *)
Lemma stack_mem_released max_size cnt sizes :
  Forall (fun x => 0 <= x.2 < CTC_DDL_PROTOBUF_MSG_SIZE) sizes ->
  exists s, object max_size cnt sizes = Some s /\ blocks s = [].
Proof.
  intros H. unfold object. destruct (set_mem_size_owns true 0 (mk_stack_mem No_buf max_size cnt [])) as (s0 & H0 & Ho & _).
  { done. } { unfold CTC_DDL_PROTOBUF_MSG_SIZE. lia. }
  rewrite H0. cbn [mbind option_bind]. clear H0. revert s0 Ho. induction H as [|[w n] l Hn Hl IH]; intros s Ho; cbn [foldl].
  - cbn [mbind option_bind]. unfold free_buf. unfold owns in Ho. destruct (buf_obj s); [by eauto..|].
    rewrite Ho, Z.eqb_refl. by eauto.
  - cbn [mbind option_bind fst snd]. destruct (set_mem_size_owns w n s Ho Hn) as (s' & -> & Ho' & _). by apply IH.
Qed.

End ReqMem.
