(* ===== verification/FuncIndex.v ===== *)
(** * FuncIndex: the parts of an index

    Models the part of [ha_ctc_ddl.cc] that describes the columns of an index
    to the engine: which expressions of functional indexes are allowed and
    which column they depend on, the text of the expression, prefixes, and the
    three functions that fill a part of a key, with the helpers of
    [ctc_ddl_util.cc] that they use.

    [functional_index_accepted] says which expressions are accepted, against
    all functions and columns of the expression; [condition_ignored] which are
    accepted because arguments of [AND] and [OR] are not looked at.

    An expression is a tree of the server's items.  [print] of the server is
    the text an item carries; the printer of the connector is for builds with
    [METADATA_NORMALIZED]. *)

From Stdlib Require Import Ascii String.
From stdpp Require Import pretty.
From S2P Require Import Prelude FieldTypes SqlText ReqMem.
Import FieldTypes SqlText ReqMem.

Module FuncIndex.

Definition CT_SUCCESS : Z := 0.
Definition CT_ERROR : Z := -1.
Definition FUNC_TEXT_MAX_LEN : Z := 128.

(** ** Expressions *)

(** [Json_on_response_type] *)
Inductive json_response := Error | Null_value | Default | Implicit.

Record func_info := mk_func_info {
  fi_printed : text;                        (* print() *)
  fi_collation_bin : bool;                  (* collation.collation == &my_charset_bin *)
  fi_cast_char : bool;                      (* m_cast_target == ITEM_CAST_CHAR *)
  fi_cast_type : text;                      (* print_cast_type() *)
  fi_on_empty : json_response;
  fi_on_error : json_response }.

(** An item that is an [Item_func] has the type [FUNC_ITEM] or, as [AND] and
    [OR] do, another one. *)
Inductive item :=
  | Field_item (field_name column_name item_name : text)
  | Func_item (func_type : bool) (func_name : text) (args : list item) (info : func_info)
  | Other_item (printed : text).

Section ItemInd.
Variable P : item -> Prop.
Hypothesis HField : forall f c n, P (Field_item f c n).
Hypothesis HFunc : forall t name args info, Forall P args -> P (Func_item t name args info).
Hypothesis HOther : forall s, P (Other_item s).

Fixpoint item_ind' (i : item) : P i :=
  match i with
  | Field_item f c n => HField f c n
  | Func_item t name args info =>
    HFunc t name args info ((fix go l : Forall P l :=
      match l with [] => Forall_nil_2 P | x :: l => Forall_cons_2 P x l (item_ind' x) (go l) end) args)
  | Other_item s => HOther s
  end.
End ItemInd.

Definition is_func_item (i : item) : bool := match i with Func_item t _ _ _ => t | _ => false end.

(** ** Columns *)

(** A column: what [FieldTypes] describes and the rest that is used here *)
Record column := mk_column {
  c_field : Field;
  c_field_name : text;
  c_functional : bool;                      (* is_field_for_functional_index() *)
  c_gcol_info : option item;                (* gcol_info->expr_item *)
  c_is_array : bool;                        (* is_array() *)
  c_mbmaxlen : Z }.                         (* charset()->mbmaxlen *)

Fixpoint ctc_get_field_by_name (form : list column) (name : text) : option column :=
  match form with
  | [] => None
  | f :: form => if strcasecmp_0 (c_field_name f) name then Some f else ctc_get_field_by_name form name
  end.

(** ** Which expressions are allowed *)

Definition mysql_func_name_to_ctc_map : list (text * text) :=
  [(txt "%", txt "mod"); (txt "cast_as", txt "cast"); (txt "ceiling", txt "ceil"); (txt "locate", txt "position")].

(** [func_name.compare(0, len, name) == 0] *)
Definition starts_with (p s : text) : bool :=
  (length p <=? length s)%nat && bool_decide (take (length p) s = p).

Definition not_indexable (func_name : text) : bool :=
  existsb (fun m => starts_with m.1 func_name) mysql_func_name_to_ctc_map.

Fixpoint ctc_check_func_name (func_expr_item : item) : Z :=
  match func_expr_item with
  | Func_item _ name args _ =>
    if not_indexable name then CT_ERROR else
    (fix go args := match args with
     | [] => CT_SUCCESS
     | a :: args => if is_func_item a
                    then let ret := ctc_check_func_name a in if negb (ret =? 0) then ret else go args
                    else go args
     end) args
  | _ => CT_SUCCESS
  end.

(** [req_key_part->name] and [*col_item_count] *)
Definition dependency : Type := option text * Z.

Section Form.
Variable form : list column.

Fixpoint recursively_get_dependency_item (item_func : item) (s : dependency) : Z * dependency :=
  match item_func with
  | Func_item _ _ args _ =>
    (fix go args s := match args with
     | [] => (CT_SUCCESS, s)
     | a :: args =>
       let '(result, s) := if is_func_item a then recursively_get_dependency_item a s else (CT_SUCCESS, s) in
       if negb (result =? CT_SUCCESS) then (result, s) else
       match a with
       | Field_item _ column_name item_name =>
         if match ctc_get_field_by_name form column_name with Some f => f_virtual (c_field f) | None => false end
         then (CT_ERROR, s)
         else if 1 <=? s.2 then (CT_ERROR, s)
         else go args (Some item_name, s.2 + 1)
       | _ => go args s
       end
     end) args s
  | _ => (CT_SUCCESS, s)
  end.

End Form.

(** ** The text of an expression *)

Definition print_op_func_name : list text :=
  map txt ["DIV"; "/"; "*"; "%"; "+"; "-"; "|"; "&"; "^"; "<<"; ">>"; "~"]%string.

Fixpoint join (sep : text) (l : list text) : text :=
  match l with [] => [] | [s] => s | s :: l => s ++ sep ++ join sep l end.

(** The loop runs up to [arg_count - 1], which is unsigned. *)
Definition ctc_print_op (func_name : text) (args : list (option text)) : option text :=
  l ← mapM id args;
  match l with
  | [] => None
  | _ => Some (txt "(" ++ join (txt " " ++ func_name ++ txt " ") l ++ txt ")")
  end.

Definition ctc_print_func (func_name : text) (info : func_info) (args : list (option text)) : option text :=
  l ← mapM id args;
  let name := if fi_collation_bin info && bool_decide (func_name = txt "substr") then txt "substrb" else func_name in
  Some (name ++ txt "(" ++ join (txt ",") l ++ txt ")").

Definition ctc_print_on_empty_or_error (on_empty : bool) (response_type : json_response)
    (default_string : option text) : option text :=
  let clause := if on_empty then txt " on empty" else txt " on error" in
  match response_type with
  | Error => Some (txt " error" ++ clause)
  | Null_value => Some (txt " null" ++ clause)
  | Default => s ← default_string; Some (txt " default " ++ s ++ clause)
  | Implicit => Some []
  end.

Definition ctc_item_print_json_value (info : func_info) (args : list (option text)) : option text :=
  let get_arg i := mjoin (args !! i) in
  a0 ← get_arg 0%nat; a1 ← get_arg 1%nat;
  empty ← ctc_print_on_empty_or_error true (fi_on_empty info) (get_arg 2%nat);
  error ← ctc_print_on_empty_or_error false (fi_on_error info) (get_arg 3%nat);
  let type := if fi_cast_char info && negb (fi_collation_bin info) then txt "CLOB" else fi_cast_type info in
  Some (txt "json_value(" ++ a0 ++ txt ", " ++ a1 ++ txt " returning " ++ type ++ empty ++ error ++ txt ")").

Fixpoint ctc_rewrite_expression_clause (i : item) : option text :=
  match i with
  | Field_item field_name _ _ => Some field_name
  | Func_item true func_name args info =>
    let args := map ctc_rewrite_expression_clause args in
    if bool_decide (func_name ∈ print_op_func_name) then ctc_print_op func_name args
    else if bool_decide (func_name = txt "json_value") then ctc_item_print_json_value info args
    else ctc_print_func func_name info args
  | Func_item false _ _ info => Some (fi_printed info)
  | Other_item printed => Some printed
  end.

(** ** Parts of a key *)

(** [TcDb__CtcDDLTableKeyPart] *)
Record key_part := mk_key_part {
  kp_name : option text; kp_length : Z; kp_datatype : Z; kp_is_func : bool;
  kp_func_text : option text; kp_func_name : option text; kp_is_unsigned : bool }.

(** What [init] leaves, with the 128 zeros for [func_text] *)
Definition init_key_part : key_part := mk_key_part None 0 0 false (Some []) None false.

Definition set_func (name func_name : option text) (func_text : text) (k : key_part) : key_part :=
  mk_key_part name (kp_length k) (kp_datatype k) true (Some func_text) func_name (kp_is_unsigned k).
Definition set_plain (name : text) (k : key_part) : key_part :=
  mk_key_part (Some name) (kp_length k) (kp_datatype k) false None (kp_func_name k) (kp_is_unsigned k).
Definition set_name (name : text) (k : key_part) : key_part :=
  mk_key_part (Some name) (kp_length k) (kp_datatype k) (kp_is_func k) (kp_func_text k) (kp_func_name k) (kp_is_unsigned k).
Definition set_type (length datatype : Z) (u : bool) (k : key_part) : key_part :=
  mk_key_part (kp_name k) length datatype (kp_is_func k) (kp_func_text k) (kp_func_name k) u.

(** A string up to its end *)
Fixpoint c_str (s : text) : text :=
  match s with [] => [] | c :: s => if code c =? 0 then [] else c :: c_str s end.

(** [None]: undefined behaviour; the result is a code and the part. *)
Definition ctc_fill_func_key_part (form : list column) (k : key_part) (gcol_info : option item)
    : option (Z * key_part) :=
  expr_item ← gcol_info;
  match expr_item with
  | Func_item _ func_name args _ =>
    if (length args =? 0)%nat then Some (CT_ERROR, k) else
    if negb (ctc_check_func_name expr_item =? CT_SUCCESS) then Some (CT_ERROR, k) else
    let '(result, (name, count)) := recursively_get_dependency_item form expr_item (kp_name k, 0) in
    let k := mk_key_part name (kp_length k) (kp_datatype k) true (kp_func_text k) (Some func_name) (kp_is_unsigned k) in
    if negb (result =? CT_SUCCESS) || negb (count =? 1) then Some (CT_ERROR, k) else
    gc_expr ← ctc_rewrite_expression_clause expr_item;
    Some (CT_SUCCESS, set_func name (Some func_name) (take (Z.to_nat (FUNC_TEXT_MAX_LEN - 1)) (c_str gc_expr)) k)
  | _ => Some (CT_ERROR, k)
  end.

Definition decimal (n : Z) : text := txt (pretty n).

(** [snprintf] stores one character less than it is told. *)
Definition ctc_fill_prefix_func_key_part (k : key_part) (field : column) (prefix_len : Z) : key_part :=
  let name := if f_charset_bin (c_field field) && f_binary_flag (c_field field) then txt "substrb" else txt "substr" in
  set_func (kp_name k) (Some name)
    (take (Z.to_nat (FUNC_TEXT_MAX_LEN - 1 - 1)) (name ++ txt "(" ++ c_field_name field ++ txt ",1," ++ decimal prefix_len ++ txt ")")) k.

(** [None]: the assertion; lengths are unsigned 32-bit integers. *)
Definition get_prefix_index_len (field : column) (key_length : Z) : option Z :=
  let f := c_field field in
  if negb (c_is_array field)
     && (f_blob_flag f
         || ((key_length <? f_pack_length f) && bool_decide (f_type f = MYSQL_TYPE_STRING))
         || (bool_decide (f_type f = MYSQL_TYPE_VARCHAR)
             && (key_length <? (f_pack_length f - f_length_bytes f) mod 2 ^ 32)))
  then if bool_decide (is_Some (c_gcol_info field)) then None else Some (key_length / c_mbmaxlen field)
  else Some 0.

(** ** Types *)

Definition CTC_DDL_TYPE_UNKNOW : Z := -1.
Definition CTC_DDL_TYPE_TINY : Z := 1.
Definition CTC_DDL_TYPE_SHORT : Z := 2.
Definition CTC_DDL_TYPE_INT24 : Z := 9.

(** The numbers of [enum_ctc_ddl_field_types] *)
Definition ddl_code (t : enum_ctc_ddl_field_types) : Z :=
  match t with
  | CTC_DDL_TYPE_DECIMAL => 0 | CTC_DDL_TYPE_LONG => 3 | CTC_DDL_TYPE_DOUBLE => 5 | CTC_DDL_TYPE_NULL => 6
  | CTC_DDL_TYPE_TIMESTAMP => 7 | CTC_DDL_TYPE_LONGLONG => 8 | CTC_DDL_TYPE_DATE => 10 | CTC_DDL_TYPE_TIME => 11
  | CTC_DDL_TYPE_DATETIME => 12 | CTC_DDL_TYPE_YEAR => 13 | CTC_DDL_TYPE_NEWDATE => 14 | CTC_DDL_TYPE_VARCHAR => 15
  | CTC_DDL_TYPE_TIMESTAMP2 => 17 | CTC_DDL_TYPE_DATETIME2 => 18 | CTC_DDL_TYPE_TIME2 => 19
  | CTC_DDL_TYPE_TYPED_ARRAY => 20 | CTC_DDL_TYPE_JSON => 245 | CTC_DDL_TYPE_NEWDECIMAL => 246
  | CTC_DDL_TYPE_CLOB => 247 | CTC_DDL_TYPE_TINY_BLOB => 249 | CTC_DDL_TYPE_MEDIUM_BLOB => 250
  | CTC_DDL_TYPE_LONG_BLOB => 251 | CTC_DDL_TYPE_BLOB => 252 | CTC_DDL_TYPE_VAR_STRING => 253
  | CTC_DDL_TYPE_STRING => 254
  end.

(** [true] and the type, or [false] and [CTC_DDL_TYPE_UNKNOW]; the lookup
    changes the table. *)
Definition ctc_ddl_get_data_type_from_mysql_type {R} (field : option Field) (mysql_type : enum_field_types)
    : E R (bool * Z) := fun a =>
  match field with
  | None => Some (inr (false, CTC_DDL_TYPE_UNKNOW), a)
  | Some field =>
    match get_auxiliary_for_field_convert (cnvrt_table a) field mysql_type with
    | None => None
    | Some (tab, info) =>
      Some (inr match info with Some m => (true, ddl_code (ddl_field_type m)) | None => (false, CTC_DDL_TYPE_UNKNOW) end,
            mk_arena (mem_start a) (ctc_ddl_req_mem a) tab)
    end
  end.

Section Server.
(** [is_numeric_type] of the server *)
Variable is_numeric_type : enum_field_types -> bool.

Definition ctc_set_unsigned_column (field : Field) : bool :=
  (is_numeric_type (f_type field) && f_unsigned field)
  || bool_decide (f_real_type field = MYSQL_TYPE_ENUM) || bool_decide (f_real_type field = MYSQL_TYPE_BIT).

(** What the three functions that fill a part have in common: [fld] is the
    column of the table, [named] the one whose prefix and name are taken.
    [inl tt] is [return false]. *)
Definition fill_key_part (form : list column) (fld : column) (named : option column) (gcol_info : option item)
    (name : text) (key_length length : Z) (mysql_type : enum_field_types) (k : key_part) : E unit (bool * key_part) :=
  '(is_func, is_prefix_key, k) ←
    (if c_functional fld then
       '(ret, k) ← deref (ctc_fill_func_key_part form k gcol_info);
       if ret =? CT_SUCCESS then give (true, false, k) else returns tt
     else if f_virtual (c_field fld) then returns tt
     else
       named ← deref named;
       prefix_len ← deref (get_prefix_index_len named key_length);
       give (if negb (prefix_len =? 0)
             then (false, true, set_name name (ctc_fill_prefix_func_key_part k named prefix_len))
             else (false, false, set_plain name k)));
  '(_, datatype) ← ctc_ddl_get_data_type_from_mysql_type (Some (c_field fld)) mysql_type;
  give (is_func, set_type length
    (if is_prefix_key && f_blob_flag (c_field fld) then ddl_code CTC_DDL_TYPE_VARCHAR else datatype)
    (ctc_set_unsigned_column (c_field fld)) k).

(** [TcDb__CtcDDLTableKey] as far as its parts set it: [is_dsc], [is_func] *)
Definition key_flags : Type := bool * bool.

(** [KEY_PART_INFO] and [dd::Index_element]; the number of the column is that
    in the table. *)
Record part_info := mk_part_info {
  pi_reverse : bool; pi_fieldnr : nat; pi_field_name : text; pi_length : Z }.

Definition ctc_ddl_create_table_fill_add_key_table_def_null_fill_key_part (form : list column) (p : part_info)
    (flags : key_flags) (k : key_part) : E unit (key_flags * key_part) :=
  fld ← deref (form !! pi_fieldnr p);
  '(is_func, k) ← fill_key_part form fld (Some fld) (c_gcol_info fld) (pi_field_name p) (pi_length p) (pi_length p)
                    (f_type (c_field fld)) k;
  give ((flags.1 || pi_reverse p, flags.2 || is_func), k).

Definition ctc_ddl_create_table_fill_add_key_table_def_not_null_fill_key_part (form : list column) (p : part_info)
    (flags : key_flags) (k : key_part) : E unit (key_flags * key_part) :=
  fld ← deref (ctc_get_field_by_name form (pi_field_name p));
  '(is_func, k) ← fill_key_part form fld (Some fld) (c_gcol_info fld) (pi_field_name p) (pi_length p) (pi_length p)
                    (f_type (c_field fld)) k;
  give ((flags.1 || pi_reverse p, flags.2 || is_func), k).

(** [Create_field]: [cf_field] is null for a column that is added. *)
Record create_field := mk_create_field {
  cf_field_name : text; cf_sql_type : enum_field_types; cf_key_length : Z;
  cf_field : option column; cf_gcol_info : option item;
  cf_functional : bool; cf_virtual : bool; cf_change : option text }.

Definition ctc_fill_key_part (form : list column) (cf : create_field) (p : part_info)
    (flags : key_flags) (k : key_part) : E unit (key_flags * key_part) :=
  field ← deref (ctc_get_field_by_name form (cf_field_name cf));
  '(is_func, k) ← fill_key_part form field (cf_field cf) (cf_gcol_info cf) (cf_field_name cf) (pi_length p)
                    (cf_key_length cf) (cf_sql_type cf) k;
  give ((flags.1, flags.2 || is_func), k).

End Server.

(** ** What an expression contains *)

(** All functions of an expression, and all its columns in order: the name in
    the table and in the statement *)
Fixpoint all_functions (i : item) : list text :=
  match i with
  | Func_item _ name args _ => name :: concat (map all_functions args)
  | _ => []
  end.

Fixpoint all_columns (i : item) : list (text * text) :=
  match i with
  | Field_item _ c n => [(c, n)]
  | Func_item _ _ args _ => concat (map all_columns args)
  | Other_item _ => []
  end.

(** No [AND] or [OR] in an argument *)
Fixpoint no_conditions (i : item) : bool :=
  match i with
  | Func_item _ _ args _ =>
    forallb (fun a => match a with Func_item false _ _ _ => false | _ => no_conditions a end) args
  | _ => true
  end.

(** What the code goes through: the functions of an expression, not those
    below an [AND] or [OR] *)
Fixpoint func_names (i : item) : list text :=
  match i with
  | Func_item _ name args _ => name :: concat (map (fun a => if is_func_item a then func_names a else []) args)
  | _ => []
  end.

Fixpoint columns_of (i : item) : list (text * text) :=
  match i with
  | Func_item _ _ args _ =>
    concat (map (fun a => match a with Field_item _ c n => [(c, n)] | _ => if is_func_item a then columns_of a else [] end) args)
  | _ => []
  end.

(** Without conditions these are all. *)
Lemma no_conditions_all t name args info :
  let i := Func_item t name args info in
  no_conditions i = true -> func_names i = all_functions i /\ columns_of i = all_columns i.
Proof.
  enough (forall i, no_conditions i = true -> match i with Func_item _ _ _ _ =>
    func_names i = all_functions i /\ columns_of i = all_columns i | _ => True end) as H
    by (intros i Hi; exact (H i Hi)).
  clear. intros i. induction i as [|t name args info IH|] using item_ind'; intros Hi; [done| |done].
  cbn [no_conditions func_names all_functions columns_of all_columns] in *.
  induction IH as [|a args Ha _ IH]; cbn [forallb map concat] in *; [done|].
  apply andb_true_iff in Hi as [H1 H2]. destruct (IH H2) as [E1 E2]. injection E1 as E1.
  rewrite E1, E2. destruct a as [f c n|[] n l fi|p]; cbn [is_func_item]; try done.
  by destruct (Ha H1) as [-> ->].
Qed.

(** The server's functions have the arguments that the printer expects. *)
Fixpoint wf_item (i : item) : bool :=
  match i with
  | Func_item true name args _ =>
    forallb wf_item args
    && (negb (bool_decide (name ∈ print_op_func_name)) || negb (length args =? 0)%nat)
    && (negb (bool_decide (name = txt "json_value")) || (length args =? 4)%nat)
  | _ => true
  end.

Fixpoint check_args (args : list item) : Z :=
  match args with
  | [] => CT_SUCCESS
  | a :: args => if is_func_item a
                 then let ret := ctc_check_func_name a in if negb (ret =? 0) then ret else check_args args
                 else check_args args
  end.

Lemma check_eq t name args info :
  ctc_check_func_name (Func_item t name args info) = if not_indexable name then CT_ERROR else check_args args.
Proof. cbn [ctc_check_func_name]. destruct (not_indexable name); [done|]. induction args as [|a args IH]; cbn; [done|]. by rewrite IH. Qed.

Definition allowed (name : text) : Prop := not_indexable name = false.

Lemma check_spec i : ctc_check_func_name i = CT_SUCCESS <-> Forall allowed (func_names i).
Proof.
  induction i as [|t name args info IH|] using item_ind'; [by split| |by split].
  rewrite check_eq. cbn [func_names]. rewrite Forall_cons_iff.
  destruct (not_indexable name) eqn:Hn; unfold allowed at 1; rewrite Hn; [by split; [|intros [? _]]|].
  enough (check_args args = CT_SUCCESS
          <-> Forall allowed (concat (map (fun a => if is_func_item a then func_names a else []) args))) by naive_solver.
  clear Hn. induction IH as [|a args Ha Hargs IH]; cbn [check_args map concat]; [by split; [constructor|]|].
  rewrite Forall_app, <- IH. destruct (is_func_item a); [|naive_solver].
  cbv zeta. destruct (ctc_check_func_name a =? 0) eqn:E; zb; cbn [negb]; [by rewrite <- Ha, E; naive_solver|].
  rewrite <- Ha. unfold CT_SUCCESS in *. naive_solver.
Qed.

(** ** The column an index depends on *)

Section Dependency.
Variable form : list column.

Fixpoint dependency_args (args : list item) (s : dependency) : Z * dependency :=
  match args with
  | [] => (CT_SUCCESS, s)
  | a :: args =>
    let '(result, s) := if is_func_item a then recursively_get_dependency_item form a s else (CT_SUCCESS, s) in
    if negb (result =? CT_SUCCESS) then (result, s) else
    match a with
    | Field_item _ column_name item_name =>
      if match ctc_get_field_by_name form column_name with Some f => f_virtual (c_field f) | None => false end
      then (CT_ERROR, s)
      else if 1 <=? s.2 then (CT_ERROR, s)
      else dependency_args args (Some item_name, s.2 + 1)
    | _ => dependency_args args s
    end
  end.

Lemma dependency_eq t name args info s :
  recursively_get_dependency_item form (Func_item t name args info) s = dependency_args args s.
Proof.
  cbn [recursively_get_dependency_item]. revert s. induction args as [|a args IH]; intros s; cbn; [done|].
  destruct (if is_func_item a then _ else _) as [result s']. destruct (negb _); [done|].
  destruct a; [|apply IH|apply IH]. destruct (ctc_get_field_by_name _ _) as [g|]; [destruct (f_virtual (c_field g)); [done|]|];
    (destruct (1 <=? _); [done|apply IH]).
Qed.

Definition is_virtual (c : text * text) : bool :=
  match ctc_get_field_by_name form c.1 with Some f => f_virtual (c_field f) | None => false end.

(** What a list of columns does to the state, one after the other *)
Fixpoint depend (cs : list (text * text)) (s : dependency) : Z * dependency :=
  match cs with
  | [] => (CT_SUCCESS, s)
  | c :: cs => if is_virtual c then (CT_ERROR, s)
               else if 1 <=? s.2 then (CT_ERROR, s)
               else depend cs (Some c.2, s.2 + 1)
  end.

Lemma depend_app cs1 : forall cs2 s, depend (cs1 ++ cs2) s =
  let '(r, s') := depend cs1 s in if r =? CT_SUCCESS then depend cs2 s' else (r, s').
Proof.
  induction cs1 as [|c cs1 IH]; intros cs2 s; cbn [depend app]; [done|].
  destruct (is_virtual c); [done|]. destruct (1 <=? s.2); [done|]. apply IH.
Qed.

Lemma dependency_spec i s : recursively_get_dependency_item form i s = depend (columns_of i) s.
Proof.
  revert s. induction i as [|t name args info IH|] using item_ind'; intros s0; [done| |done].
  rewrite dependency_eq. cbn [columns_of]. revert s0.
  induction IH as [|a args Ha Hargs IH]; intros s; cbn [dependency_args map concat]; [done|].
  rewrite depend_app. destruct a as [f c n|t' name' args' info'|p]; cbn [is_func_item].
  - cbn [depend]. unfold is_virtual. cbn [fst snd]. rewrite Z.eqb_refl. cbn [negb].
    destruct (ctc_get_field_by_name form c) as [g|]; [destruct (f_virtual (c_field g)); [done|]|];
      (destruct (1 <=? s.2); [done|apply IH]).
  - destruct t'; [|apply IH]. rewrite Ha. destruct (depend _ s) as [r s']. destruct (r =? CT_SUCCESS); [apply IH|done].
  - apply IH.
Qed.

(** Exactly one column, which is not virtual *)
Lemma depend_one cs name0 name :
  depend cs (name0, 0) = (CT_SUCCESS, (name, 1)) <-> exists c, cs = [c] /\ is_virtual c = false /\ name = Some c.2.
Proof.
  destruct cs as [|c [|d cs]]; cbn [depend fst snd].
  - split; [intros [= _ [=]]|intros (c & [=] & _)].
  - destruct (is_virtual c) eqn:Hc; (split; [|intros (c' & [= <-] & Hv & ->); by rewrite ?Hv in *]); [done|].
    intros [= <-]. by exists c.
  - split; [|intros (c' & [=] & _)]. destruct (is_virtual c); [done|]. cbn. by destruct (is_virtual d).
Qed.

Lemma depend_count cs : forall s r n k, depend cs s = (r, (n, k)) -> r = CT_SUCCESS -> 0 <= s.2 -> k = s.2 + Z.of_nat (length cs).
Proof.
  induction cs as [|c cs IH]; intros s r n k; cbn [depend length].
  - intros [= <- ->] _ _. cbn. lia.
  - destruct (is_virtual c); [by intros [= <- _]|]. destruct (1 <=? s.2) eqn:E; [by intros [= <- _]|].
    intros H Hr Hs. apply IH in H; [|done|cbn; lia]. cbn in H. lia.
Qed.

End Dependency.

(** ** The printer *)

Lemma mapM_id_Some (l : list (option text)) : Forall is_Some l -> exists l', mapM id l = Some l' /\ length l' = length l.
Proof.
  induction 1 as [|x l [s ->] Hl (l' & H & Hlen)]; [by exists []|]. exists (s :: l'). cbn. rewrite H. cbn. by rewrite Hlen.
Qed.

Lemma rewrite_defined i : wf_item i = true -> is_Some (ctc_rewrite_expression_clause i).
Proof.
  induction i as [|t name args info IH|] using item_ind'; intros H; [by eexists| |by eexists].
  destruct t; [|by eexists]. cbn [wf_item] in H. apply andb_prop in H as [H H3]. apply andb_prop in H as [H1 H2].
  assert (Forall is_Some (map ctc_rewrite_expression_clause args)) as Hargs.
  { rewrite Forall_map. rewrite forallb_forall in H1. apply Forall_forall. intros x Hx.
    rewrite Forall_forall in IH. apply IH; [done|by apply H1]. }
  destruct (mapM_id_Some _ Hargs) as (l & Hl & Hlen). rewrite length_map in Hlen. cbn [ctc_rewrite_expression_clause].
  destruct (bool_decide (name ∈ print_op_func_name)) eqn:Hop.
  { unfold ctc_print_op. rewrite Hl. cbn. destruct l; [|by eexists]. by destruct args. }
  destruct (bool_decide (name = txt "json_value")) eqn:Hjs; [|unfold ctc_print_func; rewrite Hl; by eexists].
  cbn [negb orb] in H3. destruct args as [|a0 [|a1 [|a2 [|a3 [|]]]]]; try done. clear Hl.
  cbn [map] in *. rewrite !Forall_cons_iff in Hargs. destruct Hargs as ([s0 E0] & [s1 E1] & [s2 E2] & [s3 E3] & _).
  unfold ctc_item_print_json_value. cbn. rewrite E0, E1, E2, E3. cbn. destruct (fi_on_empty info), (fi_on_error info); by eexists.
Qed.

(** ** Functional indexes *)

Lemma func_key_part_spec form k k' t name args info :
  ctc_fill_func_key_part form k (Some (Func_item t name args info)) = Some (CT_SUCCESS, k') <->
  Forall allowed (func_names (Func_item t name args info)) /\
  exists c s, columns_of (Func_item t name args info) = [c] /\ is_virtual form c = false /\
    ctc_rewrite_expression_clause (Func_item t name args info) = Some s /\
    k' = set_func (Some c.2) (Some name) (take (Z.to_nat (FUNC_TEXT_MAX_LEN - 1)) (c_str s)) k.
Proof.
  unfold ctc_fill_func_key_part. cbn [mbind option_bind]. set (i := Func_item t name args info).
  rewrite dependency_spec, <- check_spec. pose proof (depend_one form (columns_of i) (kp_name k)) as Hone.
  pose proof (fun r n m => depend_count form (columns_of i) (kp_name k, 0) r n m) as Hcnt.
  destruct (length args =? 0)%nat eqn:Hargs.
  { apply Nat.eqb_eq, length_zero_iff_nil in Hargs. subst i args. split; [done|]. by intros (_ & c & s & Hnil & _). }
  destruct (ctc_check_func_name i =? CT_SUCCESS) eqn:Hc; zb; cbn [negb].
  2:{ split; [done|]. by intros [Hc' _]. }
  destruct (depend form (columns_of i) (kp_name k, 0)) as [r [n m]] eqn:Hd.
  destruct (negb (r =? CT_SUCCESS) || negb (m =? 1)) eqn:Hr.
  - split; [done|]. intros (_ & c & s & Hcs & Hv & _).
    pose proof (proj2 (Hone (Some c.2)) (ex_intro _ c (conj Hcs (conj Hv eq_refl)))) as [= -> -> ->]. done.
  - apply orb_false_elim in Hr as [Hr Hm]. zb. subst r m. destruct (proj1 (Hone n) eq_refl) as (c & Hcs & Hv & ->).
    split.
    + destruct (ctc_rewrite_expression_clause i) as [s|]; cbn [mbind option_bind]; [|done]. intros [= <-].
      split; [done|]. by exists c, s.
    + intros (_ & c' & s & Hcs' & _ & -> & ->). cbn [mbind option_bind]. rewrite Hcs in Hcs'. by injection Hcs' as <-.
Qed.

(** With the arguments that the functions of the server have the code returns. *)
Lemma functional_index_defined form k i : wf_item i = true -> is_Some (ctc_fill_func_key_part form k (Some i)).
Proof.
  intros Hi. unfold ctc_fill_func_key_part. cbn [mbind option_bind]. destruct i as [|t name args info|]; [by eexists| |by eexists].
  destruct (length args =? 0)%nat; [by eexists|]. destruct (negb (ctc_check_func_name _ =? _)); [by eexists|].
  destruct (recursively_get_dependency_item _ _ _) as [r [n m]]. destruct (_ || _); [by eexists|].
  destruct (rewrite_defined _ Hi) as [s ->]. by eexists.
Qed.

Lemma func_key_part_code form k i r k' :
  ctc_fill_func_key_part form k (Some i) = Some (r, k') -> r = CT_SUCCESS \/ r = CT_ERROR.
Proof.
  unfold ctc_fill_func_key_part. cbn [mbind option_bind]. destruct i as [|t name args info|]; [intros [= <- _]; by right| |intros [= <- _]; by right].
  destruct (length args =? 0)%nat; [intros [= <- _]; by right|].
  destruct (negb (ctc_check_func_name _ =? _)); [intros [= <- _]; by right|].
  destruct (recursively_get_dependency_item _ _ _) as [r' [n m]]. destruct (_ || _); [intros [= <- _]; by right|].
  destruct (ctc_rewrite_expression_clause _); [|done]. intros [= <- _]. by left.
Qed.

(** C36: an expression of the server's functions without [AND] and [OR] in
    their arguments is accepted exactly when no function in it is one of the
    four that cannot be indexed and it uses one column, once, that is not
    virtual; what is sent is that column, the outermost function and the first
    127 characters of the text.  (What is below an [AND] or [OR] is not looked
    at: [condition_ignored].) *)
Theorem functional_index_accepted form k t name args info :
  let i := Func_item t name args info in
  wf_item i = true -> no_conditions i = true ->
  exists r k', ctc_fill_func_key_part form k (Some i) = Some (r, k') /\ (r = CT_SUCCESS \/ r = CT_ERROR) /\
    (r = CT_SUCCESS <-> Forall allowed (all_functions i) /\ exists c, all_columns i = [c] /\ is_virtual form c = false) /\
    (r = CT_SUCCESS -> exists c s, all_columns i = [c] /\ ctc_rewrite_expression_clause i = Some s /\
       k' = set_func (Some c.2) (Some name) (take 127 (c_str s)) k).
Proof.
  intros i Hi Hc. destruct (no_conditions_all t name args info Hc) as [Hf Hcol]. fold i in Hf, Hcol.
  rewrite <- Hf, <- Hcol. destruct (functional_index_defined form k i Hi) as [[r k'] H]. exists r, k'.
  split; [done|]. split; [by eapply func_key_part_code|]. destruct (rewrite_defined i Hi) as [s Hs]. split.
  - split; [intros ->|].
    + apply func_key_part_spec in H as (Ha & c & _ & Hcs & Hv & _). split; [done|]. by exists c.
    + intros (Ha & c & Hcs & Hv). pose proof (proj2 (func_key_part_spec form k _ t name args info)
        (conj Ha (ex_intro _ c (ex_intro _ s (conj Hcs (conj Hv (conj Hs eq_refl))))))) as H'. fold i in H'.
      rewrite H in H'. by injection H' as ->.
  - intros ->. apply func_key_part_spec in H as (_ & c & s' & Hcs & _ & Hs' & ->). by exists c, s'.
Qed.

(** The arguments of an [AND] or [OR] are not looked at: an index on
    [if(x AND y, c, z)] is accepted as one on the column [c] alone, whatever the
    conditions are. *)
Theorem condition_ignored form k op conds cinfo f c n z info :
  is_virtual form (c, n) = false ->
  exists k', ctc_fill_func_key_part form k
    (Some (Func_item true (txt "if") [Func_item false op conds cinfo; Field_item f c n; Other_item z] info))
    = Some (CT_SUCCESS, k') /\ kp_name k' = Some n.
Proof.
  intros Hv. eexists (set_func (Some n) (Some (txt "if")) _ k). split; [apply func_key_part_spec|reflexivity].
  split; [repeat constructor|]. exists (c, n). eexists. split; [reflexivity|]. split; [exact Hv|].
  split; [|reflexivity]. reflexivity.
Qed.

(** An operator with one argument is not printed: the index on [~ a] is
    declared as one on [(a)]. *)
Theorem unary_operator_lost op a info :
  op ∈ print_op_func_name ->
  ctc_rewrite_expression_clause (Func_item true op [a] info)
  = s ← ctc_rewrite_expression_clause a; Some (txt "(" ++ s ++ txt ")").
Proof.
  intros Hop. cbn [ctc_rewrite_expression_clause map]. rewrite bool_decide_true by done. unfold ctc_print_op.
  by destruct (ctc_rewrite_expression_clause a).
Qed.

Definition no_info : func_info := mk_func_info [] false false [] Implicit Implicit.
Definition col (s : string) : item := Field_item (txt s) (txt s) (txt s).

Lemma unary_operator_lost_witness :
  txt "~" ∈ print_op_func_name /\
  ctc_rewrite_expression_clause (Func_item true (txt "~") [col "a"] no_info) = Some (txt "(a)").
Proof.
  assert (txt "~" ∈ print_op_func_name) as H by (apply (bool_decide_eq_true_1 _); vm_compute; reflexivity).
  split; [exact H|]. rewrite (unary_operator_lost (txt "~") (col "a") no_info H). reflexivity.
Defined.

(** Expressions that agree in the first 127 characters have the same index. *)
Lemma index_text_cut form k k1 k2 t1 n1 args1 info1 t2 n2 args2 info2 s1 s2 :
  let i1 := Func_item t1 n1 args1 info1 in let i2 := Func_item t2 n2 args2 info2 in
  ctc_fill_func_key_part form k (Some i1) = Some (CT_SUCCESS, k1) ->
  ctc_fill_func_key_part form k (Some i2) = Some (CT_SUCCESS, k2) ->
  ctc_rewrite_expression_clause i1 = Some s1 -> ctc_rewrite_expression_clause i2 = Some s2 ->
  take 127 (c_str s1) = take 127 (c_str s2) -> kp_func_text k1 = kp_func_text k2.
Proof.
  intros i1 i2 H1 H2 E1 E2 Ht. apply func_key_part_spec in H1 as (_ & c1 & s1' & _ & _ & F1 & ->).
  apply func_key_part_spec in H2 as (_ & c2 & s2' & _ & _ & F2 & ->).
  fold i1 in F1. fold i2 in F2. rewrite E1 in F1. rewrite E2 in F2. injection F1 as <-. injection F2 as <-.
  cbn [kp_func_text set_func]. change (Z.to_nat (FUNC_TEXT_MAX_LEN - 1)) with 127%nat. by rewrite Ht.
Qed.

Lemma functional_index_accepted_witness :
  exists r k', ctc_fill_func_key_part [] init_key_part
      (Some (Func_item true (txt "upper") [col "name"] no_info)) = Some (r, k') /\ r = CT_SUCCESS /\
    kp_func_text k' = Some (txt "upper(name)").
Proof.
  destruct (functional_index_accepted [] init_key_part true (txt "upper") [col "name"] no_info eq_refl eq_refl)
    as (r & k' & H & _ & Hr & Hk).
  assert (r = CT_SUCCESS) as Hs.
  { apply Hr. split; [repeat constructor|]. exists (txt "name", txt "name"). by split. }
  exists r, k'. split; [exact H|]. split; [exact Hs|]. destruct (Hk Hs) as (c & s & _ & Ht & ->).
  assert (s = txt "upper(name)") as -> by (vm_compute in Ht; injection Ht as <-; reflexivity). reflexivity.
Defined.

(** The conditions name two other columns. *)
Lemma condition_ignored_witness :
  let i := Func_item true (txt "if") [Func_item false (txt "and") [col "a"; col "b"] no_info; col "c"; Other_item (txt "0")] no_info in
  all_columns i = [(txt "a", txt "a"); (txt "b", txt "b"); (txt "c", txt "c")] /\
  exists k', ctc_fill_func_key_part [] init_key_part (Some i) = Some (CT_SUCCESS, k') /\ kp_name k' = Some (txt "c").
Proof.
  split; [reflexivity|]. by apply (condition_ignored [] init_key_part (txt "and") [col "a"; col "b"] no_info).
Defined.

(** ** Prefixes *)

(** A name that fills the text leaves no room for the length of the prefix,
    and none for the end of the expression. *)
Lemma prefix_text_cut k field n1 n2 :
  (119 <= length (c_field_name field))%nat ->
  kp_func_text (ctc_fill_prefix_func_key_part k field n1) = kp_func_text (ctc_fill_prefix_func_key_part k field n2).
Proof.
  intros H. unfold ctc_fill_prefix_func_key_part. cbn [kp_func_text set_func]. f_equal.
  set (name := if f_charset_bin (c_field field) && f_binary_flag (c_field field) then txt "substrb" else txt "substr"). assert (6 <= length name)%nat as Hn by (subst name; destruct (_ && _); simpl; lia).
  assert (forall n, name ++ txt "(" ++ c_field_name field ++ txt ",1," ++ decimal n ++ txt ")"
    = (name ++ txt "(" ++ c_field_name field) ++ txt ",1," ++ decimal n ++ txt ")") as He.
  { intros n. by rewrite !app_assoc. }
  assert (126 <= length (name ++ txt "(" ++ c_field_name field))%nat as Hl by (rewrite !length_app; cbn; lia).
  rewrite !He. etrans; [apply take_app_le; exact Hl|symmetry; apply take_app_le; exact Hl].
Qed.

(** A prefix is not longer than the part of the key, and one is only taken of
    texts and large objects. *)
Lemma prefix_len_bounds field key_length n :
  0 <= key_length -> 1 <= c_mbmaxlen field -> get_prefix_index_len field key_length = Some n ->
  0 <= n <= key_length /\
  (n <> 0 -> f_blob_flag (c_field field) = true \/ f_type (c_field field) = MYSQL_TYPE_STRING
             \/ f_type (c_field field) = MYSQL_TYPE_VARCHAR).
Proof.
  intros Hk Hm. unfold get_prefix_index_len. destruct (negb _ && _) eqn:E.
  - destruct (bool_decide (is_Some (c_gcol_info field))); [done|]. intros [= <-]. split.
    + split; [apply Z.div_pos; lia|]. apply Z.div_le_upper_bound; nia.
    + intros _. apply andb_prop in E as [_ E]. rewrite !orb_true_iff, !andb_true_iff, !bool_decide_eq_true in E. tauto.
  - intros [= <-]. split; [lia|intros H; by destruct H].
Qed.

(** ** Parts of a key *)

Section KeyParts.
Variable is_numeric_type : enum_field_types -> bool.

(** The two ways to create a table describe a part alike. *)
Lemma create_paths_agree form p flags k fld :
  form !! pi_fieldnr p = Some fld -> ctc_get_field_by_name form (pi_field_name p) = Some fld ->
  ctc_ddl_create_table_fill_add_key_table_def_null_fill_key_part is_numeric_type form p flags k
  = ctc_ddl_create_table_fill_add_key_table_def_not_null_fill_key_part is_numeric_type form p flags k.
Proof.
  intros H1 H2. unfold ctc_ddl_create_table_fill_add_key_table_def_null_fill_key_part,
    ctc_ddl_create_table_fill_add_key_table_def_not_null_fill_key_part. by rewrite H1, H2.
Qed.

Lemma fill_key_part_length form fld named gcol name key_length l1 l2 ty k a :
  fill_key_part is_numeric_type form fld named gcol name key_length l1 ty k a
  = match fill_key_part is_numeric_type form fld named gcol name key_length l2 ty k a with
    | Some (inr (f, k'), a') => Some (inr (f, set_type l1 (kp_datatype k') (kp_is_unsigned k') k'), a')
    | Some (inl r, a') => Some (inl r, a')
    | None => None
    end.
Proof.
  unfold fill_key_part. match goal with |- @mbind _ _ _ _ _ ?m a = _ => generalize m end. intros m.
  unfold mbind, E_bind. destruct (m a) as [[[r|[[is_func is_prefix] k1]] a1]|]; [done| |done].
  destruct (ctc_ddl_get_data_type_from_mysql_type (Some (c_field fld)) ty a1) as [[[r|[b dt]] a2]|]; [done| |done]. done.
Qed.

(** A part of an index that is added to a table is described as the one of a
    new table, but with the length of the whole column, and without the order:
    a descending index is sent as an ascending one. *)
Theorem added_key_part form p flags k fld cf a :
  form !! pi_fieldnr p = Some fld ->
  ctc_get_field_by_name form (pi_field_name p) = Some fld ->
  cf_field_name cf = pi_field_name p -> cf_field cf = Some fld -> cf_gcol_info cf = c_gcol_info fld ->
  cf_sql_type cf = f_type (c_field fld) ->
  ctc_fill_key_part is_numeric_type form cf p flags k a
  = match ctc_ddl_create_table_fill_add_key_table_def_null_fill_key_part is_numeric_type form p flags k a with
    | Some (inr (fl, k'), a') =>
      Some (inr ((flags.1, fl.2), set_type (cf_key_length cf) (kp_datatype k') (kp_is_unsigned k') k'), a')
    | Some (inl r, a') => Some (inl r, a')
    | None => None
    end.
Proof.
  intros H1 H2 Hn Hf Hg Ht. unfold ctc_fill_key_part, ctc_ddl_create_table_fill_add_key_table_def_null_fill_key_part.
  rewrite H1, Hn, H2, Hf, Hg, Ht. unfold mbind at 1 3, E_bind at 1 3. cbn [deref give mret E_ret]. unfold give, mret, E_ret.
  unfold mbind, E_bind.
  rewrite (fill_key_part_length _ _ _ _ _ _ (cf_key_length cf) (pi_length p)).
  by destruct (fill_key_part is_numeric_type form fld (Some fld) (c_gcol_info fld) (pi_field_name p) (pi_length p) (pi_length p)
    (f_type (c_field fld)) k a) as [[[r|[f k']] a']|].
Qed.

End KeyParts.

Definition varchar_col : column :=
  mk_column (mk_field MYSQL_TYPE_VARCHAR MYSQL_TYPE_VARCHAR 0 82 81 1 true 0 1 false false 0 0 false false false false 32 0 0 0 0)
    (txt "name") false None false 4.

Lemma added_key_part_witness :
  let p := mk_part_info true 0 (txt "name") 40 in
  let cf := mk_create_field (txt "name") MYSQL_TYPE_VARCHAR 80 (Some varchar_col) None false false None in
  let a := empty_arena (fun _ => chr 0) g_field_cnvrt_aux_array in
  option_map fst (ctc_ddl_create_table_fill_add_key_table_def_null_fill_key_part (fun _ => false) [varchar_col] p (false, false) init_key_part a)
  = Some (inr ((true, false), mk_key_part (Some (txt "name")) 40 15 true (Some (txt "substr(name,1,10)")) (Some (txt "substr")) false)) /\
  option_map fst (ctc_fill_key_part (fun _ => false) [varchar_col] cf p (false, false) init_key_part a)
  = Some (inr ((false, false), mk_key_part (Some (txt "name")) 80 15 true (Some (txt "substr(name,1,10)")) (Some (txt "substr")) false)).
Proof.
  intros p cf a.
  assert (option_map fst (ctc_ddl_create_table_fill_add_key_table_def_null_fill_key_part (fun _ => false) [varchar_col] p
            (false, false) init_key_part a)
    = Some (inr ((true, false), mk_key_part (Some (txt "name")) 40 15 true (Some (txt "substr(name,1,10)")) (Some (txt "substr")) false)))
    as Hc by (vm_compute; reflexivity).
  split; [exact Hc|].
  rewrite (added_key_part (fun _ => false) [varchar_col] p (false, false) init_key_part varchar_col cf a
             eq_refl eq_refl eq_refl eq_refl eq_refl eq_refl).
  destruct (ctc_ddl_create_table_fill_add_key_table_def_null_fill_key_part _ _ _ _ _ _) as [[[r|[fl k']] a']|]; [discriminate| |discriminate].
  cbn [option_map fst] in Hc. injection Hc as -> ->. reflexivity.
Defined.

End FuncIndex.
