(* ===== verification/ColumnDef.v ===== *)
(** * ColumnDef: the description of a column

    Models how [ha_ctc_ddl.cc] and [ctc_ddl_util.cc] describe a column to the
    engine: its type, precision and scale, the set of its options, and the
    text of its default value, which is put into the memory of the request
    ([ReqMem]); [ctc_ddl_fill_column_by_field] and what it calls.

    What the server computes (values of expressions, members of [ENUM] and
    [SET], character sets) is the class [DdlServer]. *)

From Stdlib Require Import Ascii String.
From stdpp Require Import pretty.
From S2P Require Import Prelude CalDate DecDigits FieldTypes Server DateCnvrt Demo RowFormat SqlText ReqMem FuncIndex.
Import CalDate FieldTypes Server DateCnvrt SqlText ReqMem FuncIndex.

Module ColumnDef.

(** ** The server's side *)

(** [dd::Column] *)
Record dd_column := mk_dd_column {
  dc_default_value : text;                  (* the bytes in the record format *)
  dc_default_value_utf8 : text;
  dc_is_default_value_null : bool;
  dc_has_no_default : bool;
  dc_is_virtual : bool }.

Inductive expr_type := Func_expr (func_name : text) (field_args : bool) | String_expr | Varbin_expr | Other_expr.

(** An item that gives a default value; [ex_val_str] is null for [NULL]. *)
Record expr := mk_expr {
  ex_type : expr_type;
  ex_const : bool;                          (* const_for_execution() *)
  ex_val_int : Z;
  ex_val_str : option text;
  ex_charset : Z;                           (* val_str()->charset() *)
  ex_strntoll : Z * Z }.                    (* my_strntoll(val_str()): value and error *)

Record typelib := mk_typelib { tl_count : Z; tl_names : list text }.

(** A column of the table with its default and attributes *)
Record table_column := mk_table_column {
  tc_column : column;
  tc_not_null : bool; tc_pri_key : bool; tc_unique_key : bool;
  tc_no_default : bool;                     (* NO_DEFAULT_VALUE_FLAG *)
  tc_next_number : bool;                    (* auto_flags & NEXT_NUMBER *)
  tc_general_default : bool;                (* has_insert_default_general_value_expression() *)
  tc_insert_datetime : bool;                (* has_insert_default_datetime_value_expression() *)
  tc_update_datetime : bool;                (* has_update_default_datetime_value_expression() *)
  tc_default_expr : option expr;            (* m_default_val_expr *)
  tc_display_length : Z;                    (* max_display_length() *)
  tc_typelib_count : Z;
  tc_charset : Z;
  tc_comment : text;
  tc_dd : option dd_column }.               (* table_def->get_column(field_name) *)

Definition tc_field (f : table_column) : Field := c_field (tc_column f).

(** [Create_field] *)
Record new_field := mk_new_field {
  nf_create : create_field;
  nf_charset : option Z; nf_not_null : bool;
  nf_constant_default : option expr; nf_default_expr : option expr;
  nf_typelib : typelib }.                   (* interval, or create_typelib() *)

Class DdlServer := {
  is_numeric_type : enum_field_types -> bool;
  new_field_of : table_column -> new_field;             (* Create_field(field, field) *)
  my_charset_bin : Z;
  same_csname : Z -> Z -> bool;
  lengthsp : Z -> text -> Z;
  find_type2 : typelib -> text -> Z -> Z;
  find_set : typelib -> option text -> Z -> Z * bool;   (* the set, not_found *)
  has_comma : Z -> text -> bool;
  numchars : expr -> Z;
  mbmaxlen : Z -> Z;
  bit_val_int : Field -> text -> Z;                     (* Field_bit::val_int *)
  str_to_datetime : text -> MYSQL_TIME;
  my_datetime_to_str : MYSQL_TIME -> Z -> text;
  column_collation : Z -> Z;                            (* ctc_get_column_cs *)
  char_signed : bool }.                                 (* char is a signed type *)

(** ** The description *)

(** A default text: in the memory of the request, or the server's *)
Inductive text_ptr := Own (p : Z) | Srv (s : text).

(** [ctc_column_option_set_bit] *)
Record option_set := mk_option_set {
  o_nullable : bool; o_primary : bool; o_unique : bool; o_is_virtual : bool; o_is_serial : bool;
  o_is_default : bool; o_is_comment : bool; o_is_collate : bool; o_has_null : bool;
  o_is_default_null : bool; o_is_default_func : bool; o_is_curr_timestamp : bool }.

(** The bits of the word that is sent *)
Definition is_option_set (o : option_set) : Z :=
  Z.b2z (o_nullable o) + Z.b2z (o_primary o) * 2 ^ 1 + Z.b2z (o_unique o) * 2 ^ 2 + Z.b2z (o_is_virtual o) * 2 ^ 3
  + Z.b2z (o_is_serial o) * 2 ^ 4 + Z.b2z (o_is_default o) * 2 ^ 7 + Z.b2z (o_is_comment o) * 2 ^ 9
  + Z.b2z (o_is_collate o) * 2 ^ 10 + Z.b2z (o_has_null o) * 2 ^ 11 + Z.b2z (o_is_default_null o) * 2 ^ 14
  + Z.b2z (o_is_default_func o) * 2 ^ 16 + Z.b2z (o_is_curr_timestamp o) * 2 ^ 17.

(** [TcDb__CtcDDLColumnDataTypeDef] *)
Record data_type := mk_data_type {
  d_datatype : Z; d_size : Z; d_precision : Z; d_scale : Z; d_mysql_ori_datatype : option enum_field_types }.

(** [TcDb__CtcDDLColumnDef] *)
Record column_def := mk_column_def {
  cd_name : text; cd_new_name : option text; cd_datatype : data_type; cd_is_option_set : Z;
  cd_cons_name : option text; cd_default_text : option text_ptr; cd_comment : option text;
  cd_alter_mode : Z; cd_collate : Z; cd_is_unsigned : bool; cd_default_func_name : option text }.

Definition init_data_type : data_type := mk_data_type 0 0 0 0 None.
Definition init_column_def : column_def := mk_column_def [] None init_data_type 0 None None None 0 0 false None.

Definition set_datatype (d : data_type) (c : column_def) : column_def :=
  mk_column_def (cd_name c) (cd_new_name c) d (cd_is_option_set c) (cd_cons_name c) (cd_default_text c)
    (cd_comment c) (cd_alter_mode c) (cd_collate c) (cd_is_unsigned c) (cd_default_func_name c).
Definition set_unsigned (u : bool) (c : column_def) : column_def :=
  mk_column_def (cd_name c) (cd_new_name c) (cd_datatype c) (cd_is_option_set c) (cd_cons_name c) (cd_default_text c)
    (cd_comment c) (cd_alter_mode c) (cd_collate c) u (cd_default_func_name c).
Definition set_default (t : option text_ptr) (c : column_def) : column_def :=
  mk_column_def (cd_name c) (cd_new_name c) (cd_datatype c) (cd_is_option_set c) (cd_cons_name c) t
    (cd_comment c) (cd_alter_mode c) (cd_collate c) (cd_is_unsigned c) (cd_default_func_name c).
Definition set_func_name (n : text) (c : column_def) : column_def :=
  mk_column_def (cd_name c) (cd_new_name c) (cd_datatype c) (cd_is_option_set c) (cd_cons_name c) (cd_default_text c)
    (cd_comment c) (cd_alter_mode c) (cd_collate c) (cd_is_unsigned c) (Some n).
Definition set_names (n : text) (nn : option text) (c : column_def) : column_def :=
  mk_column_def n nn (cd_datatype c) (cd_is_option_set c) (cd_cons_name c) (cd_default_text c)
    (cd_comment c) (cd_alter_mode c) (cd_collate c) (cd_is_unsigned c) (cd_default_func_name c).
Definition set_attributes (cons comment : option text) (coll : Z) (c : column_def) : column_def :=
  mk_column_def (cd_name c) (cd_new_name c) (cd_datatype c) 0 cons (cd_default_text c)
    comment (cd_alter_mode c) coll (cd_is_unsigned c) (cd_default_func_name c).
Definition set_options (o mode : Z) (c : column_def) : column_def :=
  mk_column_def (cd_name c) (cd_new_name c) (cd_datatype c) o (cd_cons_name c) (cd_default_text c)
    (cd_comment c) mode (cd_collate c) (cd_is_unsigned c) (cd_default_func_name c).
Definition set_type_code (t : Z) (d : data_type) : data_type :=
  mk_data_type t (d_size d) (d_precision d) (d_scale d) (d_mysql_ori_datatype d).
Definition set_precision (p : Z) (d : data_type) : data_type :=
  mk_data_type (d_datatype d) (d_size d) p (d_scale d) (d_mysql_ori_datatype d).
Definition set_precision_scale (p s : Z) (d : data_type) : data_type :=
  mk_data_type (d_datatype d) (d_size d) p s (d_mysql_ori_datatype d).

Definition CT_UNSPECIFIED_NUM_PREC : Z := 0.
Definition CT_UNSPECIFIED_NUM_SCALE : Z := -100.
Definition DECIMAL_NOT_SPECIFIED : Z := 31.
Definition MAX_NUMERIC_BUFF : Z := 65.
Definition CTC_MAX_BIT_LEN : Z := 64.
Definition CTC_ENUM_DEFAULT_NULL : Z := -1.
Definition CTC_ENUM_DEFAULT_INVALID : Z := -2.

Section Fill.
Context {M : MySQL} {DS : DdlServer}.

(** [E unit]: [inl tt] is [return false]. *)
Abbreviation F := (E unit).

Definition ctc_fill_column_precision_and_scale (d : data_type) (field : table_column) : bool * data_type :=
  let f := tc_field field in
  match f_real_type f with
  | MYSQL_TYPE_FLOAT | MYSQL_TYPE_DOUBLE =>
    (true, if f_decimals f =? DECIMAL_NOT_SPECIFIED
           then set_precision_scale CT_UNSPECIFIED_NUM_PREC CT_UNSPECIFIED_NUM_SCALE d
           else set_precision_scale (tc_display_length field) (f_decimals f) d)
  | MYSQL_TYPE_DECIMAL | MYSQL_TYPE_NEWDECIMAL =>
    (negb (MAX_NUMERIC_BUFF <? f_precision f), set_precision_scale (f_precision f) (f_decimals f) d)
  | MYSQL_TYPE_TIME2 | MYSQL_TYPE_DATETIME2 | MYSQL_TYPE_TIMESTAMP2 => (true, set_precision (f_decimals f) d)
  | MYSQL_TYPE_ENUM | MYSQL_TYPE_SET => (true, set_precision (tc_typelib_count field) d)
  | MYSQL_TYPE_BIT => (true, set_precision (tc_display_length field) d)
  | _ => (true, d)
  end.

Definition ctc_ddl_fill_column_by_field_fill_type (c : column_def) (field : table_column) : F column_def :=
  let f := tc_field field in
  '(ok, t) ← ctc_ddl_get_data_type_from_mysql_type (Some f) (f_type f);
  if negb ok then returns tt else
  let d := cd_datatype c in
  let d := mk_data_type t (f_pack_length f) (d_precision d) (d_scale d) (Some (f_real_type f)) in
  let d := if bool_decide (f_type f = MYSQL_TYPE_VARCHAR)
           then mk_data_type (if RowFormat.VARCHAR_AS_BLOB (f_row_pack_length f) then ddl_code CTC_DDL_TYPE_CLOB else t)
                  (f_row_pack_length f) (d_precision d) (d_scale d) (d_mysql_ori_datatype d)
           else d in
  let '(ok, d) := ctc_fill_column_precision_and_scale d field in
  if ok then give (set_unsigned (ctc_set_unsigned_column is_numeric_type f) (set_datatype d c)) else returns tt.

(** ** [ENUM] and [SET] *)

Definition set_column_datatype (set_num : Z) : option Z :=
  if set_num <? 9 then Some CTC_DDL_TYPE_TINY
  else if (8 <? set_num) && (set_num <? 17) then Some CTC_DDL_TYPE_SHORT
  else if (16 <? set_num) && (set_num <? 33) then Some CTC_DDL_TYPE_INT24
  else if (32 <? set_num) && (set_num <? 65) then Some (ddl_code CTC_DDL_TYPE_LONGLONG)
  else None.

(** The result is the index, or one of the two codes. *)
Definition ctc_prepare_enum_field_impl (sql_field : new_field) (charset : option Z) (def : option text) : Z :=
  let charset := default my_charset_bin charset in
  match def with
  | None => if nf_not_null sql_field then CTC_ENUM_DEFAULT_NULL else CTC_ENUM_DEFAULT_INVALID
  | Some def =>
    let enum_index := find_type2 (nf_typelib sql_field) (take (Z.to_nat (lengthsp charset def)) def) charset in
    if enum_index =? 0 then CTC_ENUM_DEFAULT_INVALID else enum_index
  end.

(** The set and the type of the column; [None]: [false] *)
Definition ctc_prepare_set_field_impl (sql_field : new_field) (charset : option Z) (def : option text)
    : option (Z * Z) :=
  let charset := default my_charset_bin charset in
  let interval := nf_typelib sql_field in
  t ← set_column_datatype (tl_count interval);
  if existsb (has_comma charset) (tl_names interval) then None else
  if match def with None => nf_not_null sql_field | Some _ => false end then None else
  let '(set_bitmap, not_found) := find_set interval def charset in
  if not_found then None else Some (set_bitmap, t).

(** The field, its character set and the default that both use: [fld] is null
    when a table is created.  [None]: a null pointer. *)
Definition prepare_field (field : table_column) (fld : option new_field) (field_cs : option Z)
    : option (new_field * option Z * option text) :=
  let sql_field := match fld with None => new_field_of field | Some nf => nf end in
  def ← match nf_constant_default sql_field with Some e => Some e | None => nf_default_expr sql_field end;
  match fld with
  | Some nf => Some (nf, nf_charset nf, ex_val_str def)
  | None =>
    match field_cs with
    | Some cs => if bool_decide (ex_val_str def = None) then None
                 else Some (sql_field, if same_csname (ex_charset def) cs then nf_charset sql_field
                                       else Some (ex_charset def), ex_val_str def)
    | None => if bool_decide (ex_val_str def = None) then None
              else Some (sql_field, Some (ex_charset def), ex_val_str def)
    end
  end.

Definition ctc_prepare_enum_field (field : table_column) (fld : option new_field) (field_cs : option Z) : option Z :=
  '(sql_field, charset, def) ← prepare_field field fld field_cs;
  Some (ctc_prepare_enum_field_impl sql_field charset def).

Definition ctc_prepare_set_field (field : table_column) (fld : option new_field) (field_cs : option Z)
    : option (option (Z * Z)) :=
  '(sql_field, charset, def) ← prepare_field field fld field_cs;
  Some (ctc_prepare_set_field_impl sql_field charset def).

(** ** Texts of default values *)

(** [boost::algorithm::replace_all(s, "'", "''")] *)
Fixpoint replace_quotes (s : text) : text :=
  match s with [] => [] | c :: s => if Ascii.eqb c quote then quote :: quote :: replace_quotes s else c :: replace_quotes s end.

Definition hex_digit (d : Z) : ascii := if d <? 10 then chr (48 + d) else chr (55 + d).

(** [sprintf("%02X", ch)]: the character is converted to an [int]. *)
Definition percent_02X (ch : ascii) : text :=
  let low := [hex_digit (code ch / 16); hex_digit (code ch mod 16)] in
  if char_signed && (128 <=? code ch) then txt "FFFFFF" ++ low else low.

(** The loop; the result is [pos]. *)
Fixpoint store_hex (pos : Z) (s : text) : F Z :=
  match s with
  | [] => give pos
  | ch :: s => _ ← store pos (percent_02X ch ++ [chr 0]); store_hex (pos + 2) s
  end.

Definition ctc_process_string_default_value (c : column_def) (expr_str : text) (is_blob_type : bool) : F column_def :=
  if negb is_blob_type then
    p ← new_text tt (replace_quotes expr_str);
    give (set_default (Some (Own p)) c)
  else
    p ← need tt (Z.of_nat (length expr_str) * 2 + 1);
    pos ← store_hex p expr_str;
    _ ← store pos [chr 0];
    give (set_default (Some (Own p)) c).

(** A block of the length of [to_string(num)], [sprintf("%llu", num)], and the
    end of the string *)
Definition unsigned_text (num : Z) : F Z :=
  let num_len := Z.of_nat (length (decimal num)) in
  p ← need tt (num_len + 1);
  _ ← store p (decimal (num mod 2 ^ 64) ++ [chr 0]);
  _ ← store (p + num_len) [chr 0];
  give p.

(** The expression of the default: that of the statement, if there is one *)
Definition expr_item (field : table_column) (fld : option new_field) : option expr :=
  match fld with None => tc_default_expr field | Some nf => nf_default_expr nf end.

Definition ctc_get_bit_default_value (c : column_def) (field : table_column) (fld : option new_field)
    (is_expr_value : bool) : F column_def :=
  let c := set_unsigned true c in
  num ← (if negb is_expr_value then
           dc ← deref (tc_dd field);
           if CTC_MAX_BIT_LEN <? Z.of_nat (length (dc_default_value dc)) then undefined
           else give (inl (bit_val_int (tc_field field) (dc_default_value dc)))
         else
           e ← deref (expr_item field fld);
           match ex_type e with
           | String_expr =>
             match ex_val_str e with
             | None => give (inl 0)
             | Some s => if negb ((ex_strntoll e).2 =? 0) then give (inr (c_str s)) else give (inl (ex_strntoll e).1)
             end
           | _ => give (inl (ex_val_int e))
           end);
  match num with
  | inr expr_str => ctc_process_string_default_value c expr_str false
  | inl num => p ← unsigned_text num; give (set_default (Some (Own p)) c)
  end.

Definition zero_date_text : text := txt "0000-00-00 00:00:00".

Definition ctc_get_datetime_default_value (c : column_def) (field : table_column) (fld : option new_field)
    (o : option_set) (is_expr_value : bool) : F (column_def * option_set) :=
  if tc_insert_datetime field then
    dc ← deref (tc_dd field);
    give (set_default (Some (Srv (c_str (dc_default_value_utf8 dc)))) c,
          mk_option_set (o_nullable o) (o_primary o) (o_unique o) (o_is_virtual o) (o_is_serial o) (o_is_default o)
            (o_is_comment o) (o_is_collate o) (o_has_null o) (o_is_default_null o) true true)
  else
  no_default ← (if tc_update_datetime field
                then dc ← deref (tc_dd field); give (length (c_str (dc_default_value_utf8 dc)) =? 0)%nat
                else give false);
  if (no_default : bool) then give (c, o) else
  let f := tc_field field in
  t ← (fun a => match get_auxiliary_for_field_convert (cnvrt_table a) f (f_type f) with
                | Some (tab, Some m) => Some (inr (mysql_field_type m), mk_arena (mem_start a) (ctc_ddl_req_mem a) tab)
                | _ => None
                end);
  '(expr_str, ltime) ←
    (if is_expr_value then
       e ← deref (expr_item field fld);
       s ← deref (ex_val_str e);
       give (c_str s, str_to_datetime (c_str s))
     else
       dc ← deref (tc_dd field);
       ltime ← deref (decode_mysql_datetime zero_ltime t (map code (dc_default_value dc)) f);
       give (c_str (dc_default_value_utf8 dc), ltime));
  let date_detail := assign_mysql_date_detail (bool_decide (t = MYSQL_TYPE_TIME)) ltime in
  let s := if check_zero_date date_detail then zero_date_text
           else match f_real_type f with
                | MYSQL_TYPE_TIMESTAMP2 => if is_expr_value then expr_str else my_datetime_to_str ltime (f_decimals f)
                | _ => expr_str
                end in
  p ← new_text tt s;
  give (set_default (Some (Own p)) c, o).

Definition ctc_get_enum_default_value (c : column_def) (field : table_column) (fld : option new_field)
    (field_cs : option Z) : F column_def :=
  let c := set_unsigned true c in
  let d := cd_datatype c in
  let c := set_datatype (set_type_code (if d_size d =? 1 then CTC_DDL_TYPE_TINY else CTC_DDL_TYPE_SHORT) d) c in
  is_enum ← deref (ctc_prepare_enum_field field fld field_cs);
  if is_enum =? CTC_ENUM_DEFAULT_INVALID then returns tt else
  if negb (is_enum =? CTC_ENUM_DEFAULT_NULL) then
    p ← need tt 10;
    _ ← store p (decimal is_enum ++ [chr 0]);
    give (set_default (Some (Own p)) c)
  else
    dc ← deref (tc_dd field);
    p ← new_text tt (c_str (dc_default_value_utf8 dc));
    give (set_default (Some (Own p)) c).

(** [sprintf("%lld", set_bitmap)] *)
Definition ctc_get_set_default_value (c : column_def) (field : table_column) (fld : option new_field)
    (field_cs : option Z) : F column_def :=
  let f := tc_field field in
  let c := if is_numeric_type (f_type f) && f_unsigned f then set_unsigned true c else c in
  r ← deref (ctc_prepare_set_field field fld field_cs);
  match r with
  | None => returns tt
  | Some (set_bitmap, t) =>
    p ← need tt 64;
    _ ← store p (decimal (wrapS 64 set_bitmap) ++ [chr 0]);
    give (set_default (Some (Own p)) (set_datatype (set_type_code t (cd_datatype c)) c))
  end.

Definition ctc_verify_string_default_length (c : column_def) (default_str : option expr) (field : table_column)
    (fld : option new_field) : option bool :=
  if d_datatype (cd_datatype c) =? ddl_code CTC_DDL_TYPE_CLOB then Some true else
  cs ← match fld with Some nf => nf_charset nf | None => Some (tc_charset field) end;
  e ← default_str;
  if bool_decide (ex_val_str e = None) then None else
  Some (negb (d_size (cd_datatype c) / mbmaxlen cs <? numchars e)).

Definition ctc_get_string_default_value (c : column_def) (field : table_column) (fld : option new_field)
    (is_blob_type : bool) : F column_def :=
  field_default_string ←
    match fld, tc_default_expr field with
    | None, None =>
      dc ← deref (tc_dd field);
      give (if bool_decide (f_real_type (tc_field field) = MYSQL_TYPE_STRING)
            then dc_default_value dc else drop 1 (dc_default_value dc))
    | None, Some e =>
      ok ← (if is_blob_type then give true else deref (ctc_verify_string_default_length c (Some e) field fld));
      if (ok : bool) then deref (ex_val_str e) else returns tt
    | Some nf, _ =>
      e ← deref match nf_constant_default nf with Some e => Some e | None => nf_default_expr nf end;
      ok ← deref (ctc_verify_string_default_length c (Some e) field fld);
      if (ok : bool) then deref (ex_val_str e) else returns tt
    end;
  ctc_process_string_default_value c (c_str field_default_string) is_blob_type.

Definition ctc_get_numeric_default_value (c : column_def) (field : table_column) (fld : option new_field)
    (is_expr_value : bool) : F column_def :=
  if is_expr_value then
    e ← deref (expr_item field fld);
    p ← match ex_type e with
        | Varbin_expr => unsigned_text (ex_val_int e)
        | _ => s ← deref (ex_val_str e); new_text tt (c_str s)
        end;
    give (set_default (Some (Own p)) c)
  else
    dc ← deref (tc_dd field);
    p ← new_text tt (c_str (dc_default_value_utf8 dc));
    give (set_default (Some (Own p)) c).

(** ** The default of a column *)

Definition with_func (b : bool) (o : option_set) : option_set :=
  mk_option_set (o_nullable o) (o_primary o) (o_unique o) (o_is_virtual o) (o_is_serial o) (o_is_default o)
    (o_is_comment o) (o_is_collate o) (o_has_null o) (o_is_default_null o) b (o_is_curr_timestamp o).

Definition with_default (is_default is_default_null is_default_func : bool) (o : option_set) : option_set :=
  mk_option_set (o_nullable o) (o_primary o) (o_unique o) (o_is_virtual o) (o_is_serial o) is_default
    (o_is_comment o) (o_is_collate o) (o_has_null o) is_default_null is_default_func false.

(** The column, the options and [is_expr_value] *)
Definition ctc_check_expression_default_value (c : column_def) (field : table_column) (fld : option new_field)
    (o : option_set) : F (column_def * option_set * bool) :=
  if bool_decide (tc_default_expr field = None)
     || match fld with Some nf => bool_decide (nf_default_expr nf = None) | None => false end
  then give (c, with_func false o, false) else
  e ← deref (expr_item field fld);
  match ex_type e with
  | Func_expr name field_args =>
    if (field_args : bool) then returns tt else give (set_func_name name c, o, false)
  | _ => if negb (ex_const e) then returns tt else give (c, with_func false o, true)
  end.

Definition ctc_is_with_default_value (field : table_column) : bool :=
  match tc_dd field with
  | Some dc => (negb (tc_no_default field) && negb (tc_next_number field) && negb (dc_is_default_value_null dc))
               || bool_decide (is_Some (tc_default_expr field))
  | None => false
  end || tc_insert_datetime field.

Definition ctc_ddl_fill_column_default_value (c : column_def) (field : table_column) (fld : option new_field)
    (o : option_set) (field_cs : option Z) : F (column_def * option_set) :=
  let is_default_func := tc_general_default field && negb (tc_insert_datetime field) && negb (tc_update_datetime field) in
  let o := with_default true false is_default_func o in
  '(c, o, is_expr_value) ←
    (if is_default_func then ctc_check_expression_default_value c field fld o else give (c, o, false));
  if is_default_func && negb is_expr_value then give (c, o) else
  let keep (m : F column_def) : F (column_def * option_set) := c ← m; give (c, o) in
  let string is_blob_type := keep (ctc_get_string_default_value c field fld is_blob_type) in
  let json is_blob_type :=
    if negb is_expr_value then
      keep (dc ← deref (tc_dd field);
            p ← new_text tt (c_str (dc_default_value_utf8 dc));
            give (set_default (Some (Own p)) c))
    else string is_blob_type in
  match f_real_type (tc_field field) with
  | MYSQL_TYPE_BIT => keep (ctc_get_bit_default_value c field fld is_expr_value)
  | MYSQL_TYPE_BLOB => json (negb (d_datatype (cd_datatype c) =? ddl_code CTC_DDL_TYPE_CLOB))
  | MYSQL_TYPE_JSON => json false
  | MYSQL_TYPE_STRING | MYSQL_TYPE_VARCHAR => string false
  | MYSQL_TYPE_ENUM => keep (ctc_get_enum_default_value c field fld field_cs)
  | MYSQL_TYPE_SET => keep (ctc_get_set_default_value c field fld field_cs)
  | MYSQL_TYPE_YEAR | MYSQL_TYPE_NEWDATE | MYSQL_TYPE_DATETIME2 | MYSQL_TYPE_TIMESTAMP2 | MYSQL_TYPE_TIME2 =>
    ctc_get_datetime_default_value c field fld o is_expr_value
  | _ => keep (ctc_get_numeric_default_value c field fld is_expr_value)
  end.

(** ** Options *)

(** [keynames]: the names of the keys of the table *)
Definition ctc_fill_column_option_set (c : column_def) (field : table_column) (keynames : list text)
    : F (column_def * option_set) :=
  let f := tc_field field in
  let primary := tc_pri_key field in
  let unique := tc_unique_key field in
  let named := f_auto_increment f && existsb (fun k => bool_decide (k = cd_name c)) keynames in
  let cons_name := if named then Some (cd_name c) else
                   if primary then Some (txt "PRIMARY") else if unique then Some (cd_name c) else None in
  let comment := if (0 <? length (tc_comment field))%nat then Some (tc_comment field) else None in
  m ← (fun a => match get_auxiliary_for_field_convert (cnvrt_table a) f (f_real_type f) with
                | Some (tab, Some m) => Some (inr m, mk_arena (mem_start a) (ctc_ddl_req_mem a) tab)
                | _ => None
                end);
  let text_type := bool_decide (sql_data_type m = STRING_DATA) || bool_decide (sql_data_type m = LOB_DATA) in
  give (set_attributes cons_name comment (if text_type then column_collation (tc_charset field) else cd_collate c) c,
        mk_option_set (negb (tc_not_null field || primary)) (primary && negb named) (unique || named) (f_virtual f)
          (f_auto_increment f) false (bool_decide (is_Some comment)) text_type true false false false).

Definition ctc_ddl_fill_column_by_field (c : column_def) (field : table_column) (keynames : list text)
    (fld : option new_field) (alter_mode : Z) (field_cs : option Z) : F column_def :=
  let field_name := c_field_name (tc_column field) in
  let c := match fld ≫= (fun nf => cf_change (nf_create nf)) with
           | Some change => set_names change (if bool_decide (change = field_name) then cd_new_name c
                                              else Some field_name) c
           | None => set_names field_name (cd_new_name c) c
           end in
  c ← ctc_ddl_fill_column_by_field_fill_type c field;
  '(c, o) ← ctc_fill_column_option_set c field keynames;
  '(c, o) ← (if o_is_virtual o then give (c, mk_option_set (o_nullable o) (o_primary o) (o_unique o) (o_is_virtual o)
                 (o_is_serial o) false (o_is_comment o) (o_is_collate o) (o_has_null o) false (o_is_default_func o)
                 (o_is_curr_timestamp o))
             else if ctc_is_with_default_value field then ctc_ddl_fill_column_default_value c field fld o field_cs
             else give (c, with_default false true false o));
  give (set_options (is_option_set o) alter_mode c).

End Fill.

(** ** What is kept *)

Section Keeps.
Context {M : MySQL} {DS : DdlServer}.
Implicit Type lo : Z.

Lemma keeps_lookup {R B} lo (g : arena -> option (B * aux_table)) :
  keeps (R := R) lo (fun a => match g a with
    | Some (x, tab) => Some (inr x, mk_arena (mem_start a) (ctc_ddl_req_mem a) tab)
    | None => None
    end).
Proof. intros a r a' Hl. destruct (g a) as [[x tab]|]; [|done]. intros [= <- <-]. cbn. split; [lia|done]. Qed.

Lemma keeps_data_type {R} lo f t : keeps (R := R) lo (ctc_ddl_get_data_type_from_mysql_type f t).
Proof.
  intros a r a' Hl. unfold ctc_ddl_get_data_type_from_mysql_type. destruct f as [f|].
  - destruct (get_auxiliary_for_field_convert _ f t) as [[tab i]|]; [|done]. intros [= <- <-]. cbn. split; [lia|done].
  - intros [= <- <-]. split; [lia|done].
Qed.

Lemma keeps_fill_type lo c f : keeps lo (ctc_ddl_fill_column_by_field_fill_type c f).
Proof.
  unfold ctc_ddl_fill_column_by_field_fill_type. apply req_keeps_bind; [apply keeps_data_type|]. intros [ok t].
  keeps_auto.
Qed.

Lemma keeps_store_hex lo s : forall p, lo <= p -> keeps lo (store_hex p s).
Proof.
  induction s as [|ch s IH]; intros p Hp; cbn [store_hex]; [apply keeps_give|].
  apply req_keeps_bind; [by apply req_keeps_store|]. intros _. apply IH. lia.
Qed.

Lemma store_hex_pos s : forall p a x a', store_hex p s a = Some (inr x, a') -> x = p + 2 * Z.of_nat (length s).
Proof.
  induction s as [|ch s IH]; intros p a x a' H; cbn [store_hex length] in H |- *.
  - injection H as <- _. lia.
  - apply req_bind_inv in H as [(u & a1 & _ & H)|(e & _ & [=])]. apply IH in H. lia.
Qed.

Lemma keeps_string lo c s b : keeps lo (ctc_process_string_default_value c s b).
Proof.
  unfold ctc_process_string_default_value. destruct (negb b); [keeps_auto|].
  apply keeps_need; [lia|]. intros p Hp a r a' Hl H. apply req_bind_inv in H as [(x & a1 & H1 & H2)|(e & H1 & ->)].
  - pose proof (store_hex_pos _ _ _ _ _ H1) as ->. apply (keeps_store_hex lo s p Hp) in H1 as [Hs1 Hf1]; [|done].
    apply (req_keeps_bind lo) in H2 as [Hs2 Hf2]; [|apply req_keeps_store; lia|intros; apply keeps_give|lia].
    split; [lia|]. intros i Hi. by rewrite Hf2, Hf1.
  - by apply (keeps_store_hex lo s p Hp) in H1.
Qed.

Lemma keeps_unsigned lo n : keeps lo (unsigned_text n).
Proof. unfold unsigned_text. keeps_auto. Qed.

#[local] Hint Resolve keeps_string keeps_unsigned : keeps.

Lemma keeps_bit lo c f fld b : keeps lo (ctc_get_bit_default_value c f fld b).
Proof. unfold ctc_get_bit_default_value. keeps_auto. Qed.

Lemma keeps_enum lo c f fld cs : keeps lo (ctc_get_enum_default_value c f fld cs).
Proof. unfold ctc_get_enum_default_value. keeps_auto. Qed.

Lemma keeps_set lo c f fld cs : keeps lo (ctc_get_set_default_value c f fld cs).
Proof. unfold ctc_get_set_default_value. keeps_auto. Qed.

Lemma keeps_string_default lo c f fld b : keeps lo (ctc_get_string_default_value c f fld b).
Proof. unfold ctc_get_string_default_value. keeps_auto. Qed.

Lemma keeps_numeric lo c f fld b : keeps lo (ctc_get_numeric_default_value c f fld b).
Proof. unfold ctc_get_numeric_default_value. keeps_auto. Qed.

Lemma keeps_datetime lo c f fld o b : keeps lo (ctc_get_datetime_default_value c f fld o b).
Proof.
  unfold ctc_get_datetime_default_value. destruct (tc_insert_datetime f); [keeps_auto|].
  apply req_keeps_bind; [keeps_auto|]. intros no. destruct no; [keeps_auto|]. apply req_keeps_bind; [|intros t; keeps_auto].
  intros a r a' Hl. destruct (get_auxiliary_for_field_convert _ _ _) as [[tab [m|]]|]; [|done|done].
  intros [= <- <-]. cbn. split; [lia|done].
Qed.

#[local] Hint Resolve keeps_bit keeps_enum keeps_set keeps_string_default keeps_numeric keeps_datetime : keeps.

Lemma keeps_default lo c f fld o cs : keeps lo (ctc_ddl_fill_column_default_value c f fld o cs).
Proof.
  unfold ctc_ddl_fill_column_default_value. apply req_keeps_bind.
  - unfold ctc_check_expression_default_value. keeps_auto.
  - intros [[c' o'] b]. keeps_auto.
Qed.

(** Describing a column leaves the descriptions of the columns before it, and
    everything else that was allocated, as it is. *)
Lemma fill_column_frames c f keynames fld mode cs : frames (ctc_ddl_fill_column_by_field c f keynames fld mode cs).
Proof.
  apply keeps_frames. intros lo. unfold ctc_ddl_fill_column_by_field. cbv zeta.
  apply req_keeps_bind; [apply keeps_fill_type|]. intros c1. apply req_keeps_bind.
  - unfold ctc_fill_column_option_set. cbv zeta. apply req_keeps_bind; [|intros m; keeps_auto].
    intros a r a' Hl. destruct (get_auxiliary_for_field_convert _ _ _) as [[tab [m|]]|]; [|done|done].
    intros [= <- <-]. cbn. split; [lia|done].
  - intros [c2 o]. apply req_keeps_bind; [|intros [c3 o3]; keeps_auto].
    destruct (o_is_virtual o); [keeps_auto|]. destruct (ctc_is_with_default_value f); [apply keeps_default|keeps_auto].
Qed.

End Keeps.

(** ** What a description says *)

Section Described.
Context {M : MySQL} {DS : DdlServer}.

(** The default may change the type's code, the sign and the texts of the
    default, and nothing else. *)
Definition head (c : column_def) : text * option text * (Z * Z * Z) * option text * option text * Z :=
  let d := cd_datatype c in
  (cd_name c, cd_new_name c, (d_size d, d_precision d, d_scale d), cd_cons_name c, cd_comment c, cd_collate c).

Lemma head_string c s b : gives (fun c' => head c' = head c) (ctc_process_string_default_value c s b).
Proof. unfold ctc_process_string_default_value. gives_auto. Qed.

#[local] Hint Resolve head_string : gives.

Lemma head_bit c f fld b : gives (fun c' => head c' = head c) (ctc_get_bit_default_value c f fld b).
Proof.
  unfold ctc_get_bit_default_value. cbv zeta. change (head c) with (head (set_unsigned true c)). gives_auto.
Qed.

Lemma head_enum c f fld cs : gives (fun c' => head c' = head c) (ctc_get_enum_default_value c f fld cs).
Proof. unfold ctc_get_enum_default_value. gives_auto. Qed.

Lemma head_set c f fld cs : gives (fun c' => head c' = head c) (ctc_get_set_default_value c f fld cs).
Proof.
  unfold ctc_get_set_default_value. cbv zeta. destruct (is_numeric_type _ && _); gives_auto.
Qed.

Lemma head_string_default c f fld b :
  gives (fun c' => head c' = head c) (ctc_get_string_default_value c f fld b).
Proof. unfold ctc_get_string_default_value. gives_auto. Qed.

Lemma head_numeric c f fld b :
  gives (fun c' => head c' = head c) (ctc_get_numeric_default_value c f fld b).
Proof. unfold ctc_get_numeric_default_value. gives_auto. Qed.

Lemma head_datetime c f fld o b :
  gives (fun x => head x.1 = head c) (ctc_get_datetime_default_value c f fld o b).
Proof. unfold ctc_get_datetime_default_value. gives_auto. Qed.

#[local] Hint Resolve head_bit head_enum head_set head_string_default head_numeric head_datetime : gives.

Lemma head_kept c (o : option_set) (m : E unit column_def) :
  gives (fun c' => head c' = head c) m ->
  gives (fun x => head x.1 = head c) (c' ← m; give (c', o)).
Proof. intros H. apply (gives_bind_with _ _ _ _ H). intros c' Hc. by apply gives_give. Qed.

Lemma head_default c f fld o cs :
  gives (fun x => head x.1 = head c) (ctc_ddl_fill_column_default_value c f fld o cs).
Proof.
  unfold ctc_ddl_fill_column_default_value. cbv zeta.
  apply (gives_bind_with (fun x => head x.1.1 = head c)).
  { unfold ctc_check_expression_default_value. gives_auto. }
  intros [[c' o'] b']. cbn [fst]. intros <-. destruct (_ && negb b'); [by apply gives_give|].
  destruct (f_real_type (tc_field f)), b'; cbn [negb];
    first [apply head_datetime|apply head_kept; solve [gives_auto]].
Qed.

(** The size that is sent for a column *)
Definition sent_size (f : Field) : Z :=
  if bool_decide (f_type f = MYSQL_TYPE_VARCHAR) then f_row_pack_length f else f_pack_length f.

Lemma fill_type_described c f :
  gives (fun c' => set_datatype (cd_datatype c) (set_unsigned (cd_is_unsigned c) c') = c /\
      d_size (cd_datatype c') = sent_size (tc_field f))
    (ctc_ddl_fill_column_by_field_fill_type c f).
Proof.
  unfold ctc_ddl_fill_column_by_field_fill_type, sent_size, ctc_fill_column_precision_and_scale. cbv zeta.
  apply gives_bind. intros [ok t]. destruct (negb ok); [apply gives_returns|].
  destruct (bool_decide _), (f_real_type (tc_field f)); cbv beta iota;
    try (destruct (negb _)); try (destruct (f_decimals _ =? _));
    try apply gives_returns; apply gives_give; by destruct c.
Qed.

(** The description of a column names it: its name before the statement, and
    the new one if that is another; it has the mode, the size and the comment
    of the column. *)
Definition describes (f : table_column) (fld : option new_field) (mode : Z) (c : column_def) : Prop :=
  let name := c_field_name (tc_column f) in
  let old := default name (fld ≫= fun nf => cf_change (nf_create nf)) in
  cd_name c = old /\ cd_new_name c = (if decide (old = name) then None else Some name) /\
  cd_alter_mode c = mode /\ d_size (cd_datatype c) = sent_size (tc_field f) /\
  cd_comment c = (if decide (tc_comment f = []) then None else Some (tc_comment f)).

Lemma column_described f keynames fld mode cs :
  gives (describes f fld mode) (ctc_ddl_fill_column_by_field init_column_def f keynames fld mode cs).
Proof.
  unfold ctc_ddl_fill_column_by_field. cbv zeta.
  match goal with |- gives _ (ctc_ddl_fill_column_by_field_fill_type ?c _ ≫= _) => set (c0 := c) end.
  assert (cd_name c0 = default (c_field_name (tc_column f)) (fld ≫= fun nf => cf_change (nf_create nf)) /\
    cd_new_name c0 = (if decide (cd_name c0 = c_field_name (tc_column f)) then None
                      else Some (c_field_name (tc_column f)))) as [Hn Hnn].
  { subst c0. destruct (fld ≫= _) as [ch|]; cbn; [|by rewrite decide_True]. split; [done|].
    destruct (decide _) as [Hd|Hd]; [by rewrite bool_decide_true|by rewrite bool_decide_false]. }
  rewrite Hn in Hnn.
  apply (gives_bind_with _ _ _ _ (fill_type_described c0 f)). intros c1 [Hc1 Hs].
  assert (cd_name c1 = cd_name c0 /\ cd_new_name c1 = cd_new_name c0) as [Hn1 Hnn1] by (by rewrite <- Hc1).
  clearbody c0. clear Hc1.
  apply (gives_bind_with (fun x => cd_name x.1 = cd_name c1 /\ cd_new_name x.1 = cd_new_name c1 /\
    d_size (cd_datatype x.1) = d_size (cd_datatype c1) /\
    cd_comment x.1 = (if decide (tc_comment f = []) then None else Some (tc_comment f)))).
  { unfold ctc_fill_column_option_set. cbv zeta. apply gives_bind. intros m. apply gives_give. cbn.
    split_and!; [done..|]. destruct (tc_comment f); [by rewrite decide_True|by rewrite decide_False]. }
  intros [c2 o]. cbn [fst]. intros (Hn2 & Hnn2 & Hs2 & Hc2).
  apply (gives_bind_with (fun x => head x.1 = head c2)).
  { destruct (o_is_virtual o); [by apply gives_give|].
    destruct (ctc_is_with_default_value f); [apply head_default|by apply gives_give]. }
  intros [c3 o3]. cbn [fst]. unfold head. intros [= Hn3 Hnn3 Hs3 _ _ _ Hc3 _].
  apply gives_give. unfold describes. cbn. split_and!; congruence.
Qed.

End Described.

(** ** Texts that the connector makes *)

(** [pretty] of an integer: digits, and a sign *)
Lemma no_nul_cons c s : no_nul (c :: s) <-> code c <> 0 /\ no_nul s.
Proof. apply Forall_cons_iff. Qed.

Lemma code_chr z : 0 <= z < 256 -> code (chr z) = z.
Proof. intros H. unfold code, chr. rewrite nat_ascii_embedding by lia. lia. Qed.

Definition no_nulb (s : text) : bool := forallb (fun c => negb (code c =? 0)) s.

Lemma no_nulb_spec s : no_nulb s = true <-> no_nul s.
Proof.
  unfold no_nulb, no_nul. rewrite forallb_forall, Forall_forall. split; intros H x Hx; specialize (H x Hx); zb; [done|].
  by rewrite (proj2 (Z.eqb_neq _ _)).
Qed.

Lemma no_nul_c_str s : no_nul (c_str s).
Proof.
  induction s as [|c s IH]; cbn [c_str]; [constructor|]. destruct (code c =? 0) eqn:E; [constructor|].
  zb. by constructor.
Qed.

Lemma c_str_no_nul s : no_nul s -> c_str s = s.
Proof.
  induction 1 as [|c s Hc Hs IH]; cbn [c_str]; [done|]. rewrite (proj2 (Z.eqb_neq _ _)) by done. by rewrite IH.
Qed.

Lemma no_nul_replace s : no_nul s -> no_nul (replace_quotes s).
Proof.
  induction 1 as [|c s Hc Hs IH]; cbn [replace_quotes]; [constructor|].
  destruct (Ascii.eqb c quote) eqn:E; repeat constructor; done.
Qed.

(** A literal of SQL without its quotation marks *)
Fixpoint read_literal (s : text) : text :=
  match s with
  | [] => []
  | c :: s' =>
    match s' with
    | d :: s'' => if Ascii.eqb c quote && Ascii.eqb d quote then quote :: read_literal s'' else c :: read_literal s'
    | [] => [c]
    end
  end.

Lemma read_replace s : read_literal (replace_quotes s) = s.
Proof.
  induction s as [|c s IH]; [done|]. cbn [replace_quotes]. destruct (Ascii.eqb c quote) eqn:E.
  - apply Ascii.eqb_eq in E as ->. cbn [read_literal]. rewrite !Ascii.eqb_refl. cbn [andb]. by rewrite IH.
  - destruct (replace_quotes s) as [|d l] eqn:Hr; cbn [read_literal].
    + destruct s as [|e s]; [done|]. cbn [replace_quotes] in Hr. by destruct (Ascii.eqb e quote).
    + rewrite E. cbn [andb]. cbn [read_literal] in IH. by rewrite IH.
Qed.

Section Texts.
Context {M : MySQL} {DS : DdlServer}.

(** Room for the text and, if the text is binary, for what is written behind
    its block *)
Definition room (a : arena) (n : Z) : Prop := inside a /\ mem_start a + n < CTC_DDL_PROTOBUF_MEM_SIZE.

Lemma string_default_stored c s a : no_nul s -> room a (Z.of_nat (length (replace_quotes s)) + 1) ->
  exists a', ctc_process_string_default_value c s false a
             = Some (inr (set_default (Some (Own (mem_start a))) c), a') /\
    inside a' /\ holds a' (mem_start a) (replace_quotes s).
Proof.
  intros Hs [Ha Hr]. destruct (new_text_holds tt (replace_quotes s) a Ha (no_nul_replace s Hs)) as (a' & H & Hm & Hh); [lia|].
  exists a'. unfold ctc_process_string_default_value. cbn [negb]. rewrite (bind_val _ _ _ _ _ H). split; [done|].
  split; [|done]. unfold inside in *. lia.
Qed.

(** ** Hexadecimal text *)

Definition hex_text (s : text) : text := concat (map (fun c => take 2 (percent_02X c)) s).

Lemma percent_length c : (length (percent_02X c) = 2 \/ length (percent_02X c) = 8)%nat.
Proof. unfold percent_02X. destruct (_ && _); simpl; lia. Qed.

Lemma hex_text_cons c s : hex_text (c :: s) = take 2 (percent_02X c) ++ hex_text s.
Proof. done. Qed.

Lemma hex_text_length s : length (hex_text s) = (2 * length s)%nat.
Proof.
  induction s as [|c s IH]; [done|]. rewrite hex_text_cons, length_app, length_take, IH. cbn [length].
  destruct (percent_length c); lia.
Qed.

Lemma store_hex_spec s : forall p a, 0 <= p -> p + 2 * Z.of_nat (length s) + 7 <= CTC_DDL_PROTOBUF_MEM_SIZE ->
  exists a', store_hex p s a = Some (inr (p + 2 * Z.of_nat (length s)), a') /\
    mem_start a' = mem_start a /\
    (forall i, i < p -> ctc_ddl_req_mem a' i = ctc_ddl_req_mem a i) /\
    (forall i, (i < 2 * length s)%nat -> ctc_ddl_req_mem a' (p + Z.of_nat i) = nth i (hex_text s) (chr 0)).
Proof.
  induction s as [|c s IH]; intros p a Hp Hl; cbn [store_hex].
  - exists a. cbn [length]. rewrite Z.add_0_r. split_and!; [done..|]. intros i Hi. cbn in Hi. lia.
  - cbn [length] in Hl. pose proof (percent_length c) as Hc.
    pose proof (store_val (R := unit) p (percent_02X c ++ [chr 0]) a Hp ltac:(rewrite length_app; simpl; lia)) as H1.
    rewrite (bind_val _ _ _ _ _ H1). set (a1 := mk_arena _ _ _).
    destruct (IH (p + 2) a1) as (a' & -> & Hm & Hb & Hi); [lia..|]. exists a'. split_and!.
    + do 3 f_equal. cbn [length]. lia.
    + by rewrite Hm.
    + intros i Hlt. rewrite Hb by lia. subst a1. cbn [ctc_ddl_req_mem]. by rewrite (proj2 (Z.leb_gt _ _)) by lia.
    + intros i Hlt. rewrite hex_text_cons. assert (length (take 2 (percent_02X c)) = 2)%nat as H2 by (rewrite length_take; lia).
      destruct (decide (i < 2)%nat) as [Hi2|Hi2].
      * rewrite app_nth1 by lia. rewrite Hb by lia. subst a1. cbn [ctc_ddl_req_mem].
        rewrite (proj2 (Z.leb_le _ _)), (proj2 (Z.ltb_lt _ _)) by (rewrite ?length_app; simpl; lia). cbn [andb].
        replace (Z.to_nat (p + Z.of_nat i - p)) with i by lia. rewrite app_nth1 by lia.
        rewrite <- (take_drop 2 (percent_02X c)) at 1. by rewrite app_nth1 by lia.
      * rewrite app_nth2 by lia. rewrite H2. cbn [length] in Hlt.
        rewrite <- (Hi (i - 2)%nat) by lia. f_equal. lia.
Qed.

Lemma hex_digit_code d : 0 <= d < 16 -> 48 <= code (hex_digit d) <= 70.
Proof. intros H. unfold hex_digit. destruct (d <? 10) eqn:E; zb; rewrite code_chr; lia. Qed.

Lemma hex_text_no_nul s : no_nul (hex_text s).
Proof.
  induction s as [|c s IH]; [constructor|]. rewrite hex_text_cons. apply Forall_app. split; [|done].
  assert (0 <= code c < 256) as Hc by (unfold code; pose proof (nat_ascii_bounded c); lia).
  pose proof (hex_digit_code (code c / 16) ltac:(dlia)). pose proof (hex_digit_code (code c mod 16) ltac:(dlia)).
  unfold percent_02X. destruct (_ && _); cbn [take app]; repeat constructor; try done; lia.
Qed.

(** The text of a binary default: two digits for each byte; what is written
    behind its block is free. *)
Lemma hex_default_stored c s a : room a (Z.of_nat (length s) * 2 + 8) ->
  exists a', ctc_process_string_default_value c s true a
             = Some (inr (set_default (Some (Own (mem_start a))) c), a') /\
    inside a' /\ holds a' (mem_start a) (hex_text s).
Proof.
  intros [Ha Hr]. unfold ctc_process_string_default_value. cbn [negb].
  rewrite (bind_val _ _ _ _ _ (need_val tt (Z.of_nat (length s) * 2 + 1) a ltac:(lia) Ha ltac:(lia))).
  set (a1 := mk_arena _ _ _). destruct Ha as [Ha1 Ha2].
  destruct (store_hex_spec s (mem_start a) a1) as (a2 & H2 & Hm2 & Hb2 & Hi2); [done|lia|].
  rewrite (bind_val _ _ _ _ _ H2). subst a1. cbn [mem_start] in Hm2.
  pose proof (store_val (R := unit) (mem_start a + 2 * Z.of_nat (length s)) [chr 0] a2 ltac:(lia) ltac:(cbn [length]; lia)) as H3.
  rewrite (bind_val _ _ _ _ _ H3). eexists. split; [done|]. split; [split; cbn [mem_start]; lia|].
  split_and!; [done|cbn [mem_start]; rewrite hex_text_length; lia|apply hex_text_no_nul|].
  intros i Hi. rewrite hex_text_length in Hi. cbn [ctc_ddl_req_mem length]. destruct (decide (i = 2 * length s)%nat) as [->|Hne].
  - rewrite app_nth2, hex_text_length, Nat.sub_diag by (rewrite hex_text_length; lia).
    rewrite (proj2 (Z.leb_le _ _)), (proj2 (Z.ltb_lt _ _)) by lia. cbn [andb].
    by replace (Z.to_nat _) with 0%nat by lia.
  - rewrite app_nth1 by (rewrite hex_text_length; lia). rewrite (proj2 (Z.leb_gt _ _)) by lia. cbn [andb]. apply Hi2. lia.
Qed.

Definition hex_value (c : ascii) : Z := if code c <? 65 then code c - 48 else code c - 55.
Fixpoint read_hex (s : text) : text :=
  match s with c :: d :: s => chr (16 * hex_value c + hex_value d) :: read_hex s | _ => [] end.

Lemma hex_value_digit d : 0 <= d < 16 -> hex_value (hex_digit d) = d.
Proof.
  intros H. unfold hex_value, hex_digit. destruct (d <? 10) eqn:E; zb; rewrite code_chr by lia;
    [rewrite (proj2 (Z.ltb_lt _ _))|rewrite (proj2 (Z.ltb_ge _ _))]; lia.
Qed.

(** What a reader of the digits gets: bytes from 128 on become 255 where the
    type of characters is signed. *)
Lemma read_hex_text s : read_hex (hex_text s)
  = map (fun c => if char_signed && (128 <=? code c) then chr 255 else c) s.
Proof.
  induction s as [|c s IH]; [done|]. rewrite hex_text_cons. cbn [map].
  assert (0 <= code c < 256) as Hc by (unfold code; pose proof (nat_ascii_bounded c); lia).
  unfold percent_02X. destruct (char_signed && (128 <=? code c)); cbn [take app txt list_ascii_of_string read_hex].
  - rewrite IH. f_equal.
  - rewrite IH, !hex_value_digit by dlia. f_equal. rewrite <- Z.div_mod by lia. unfold chr, code.
    by rewrite Nat2Z.id, ascii_nat_embedding.
Qed.

End Texts.

(** ** Numbers as texts *)

Definition is_digit (c : ascii) : bool := (48 <=? code c) && (code c <=? 57).

Lemma pretty_N_char_digit n : is_digit (pretty_N_char n) = true.
Proof. unfold pretty_N_char. by repeat case_match. Qed.

Lemma pretty_N_go_digits x : forall s, forallb is_digit (txt s) = true -> forallb is_digit (txt (pretty_N_go x s)) = true.
Proof.
  induction (N.lt_wf_0 x) as [x _ IH]; intros s Hs. assert (x = 0 \/ 0 < x)%N as [->|Hx] by lia; [done|].
  rewrite pretty_N_go_step by done. apply IH; [by apply N.div_lt|].
  cbn [txt list_ascii_of_string forallb]. by rewrite pretty_N_char_digit.
Qed.

Lemma pretty_N_go_length x : forall s k, (x < 10 ^ N.of_nat k)%N ->
  (length (txt (pretty_N_go x s)) <= length (txt s) + k)%nat.
Proof.
  induction (N.lt_wf_0 x) as [x _ IH]; intros s k Hk. assert (x = 0 \/ 0 < x)%N as [->|Hx] by lia.
  { rewrite pretty_N_go_0. lia. }
  rewrite pretty_N_go_step by done. destruct k as [|k]; [cbn in Hk; lia|].
  etrans; [apply (IH (x `div` 10)%N (N.div_lt x 10 Hx eq_refl) _ k)|cbn [txt list_ascii_of_string length]; unfold txt; lia].
  apply N.Div0.div_lt_upper_bound. rewrite Nat2N.inj_succ, N.pow_succ_r' in Hk. lia.
Qed.

Lemma digits_no_nul s : forallb is_digit s = true -> no_nul s.
Proof.
  unfold no_nul. rewrite forallb_forall, Forall_forall. intros H c Hc. specialize (H c Hc). unfold is_digit in H. zb. lia.
Qed.

Lemma decimal_N n : 0 <= n -> decimal n = txt (pretty (Z.to_N n)).
Proof. intros H. destruct n as [|n|n]; [reflexivity|reflexivity|lia]. Qed.

Lemma decimal_nonneg n k : 0 <= n < 10 ^ Z.of_nat k -> (1 <= k)%nat ->
  forallb is_digit (decimal n) = true /\ (length (decimal n) <= k)%nat.
Proof.
  intros Hn Hk. rewrite decimal_N by lia. unfold pretty, pretty_N. destruct (decide _); [split; [done|cbn; lia]|]. split.
  - by apply pretty_N_go_digits.
  - apply (pretty_N_go_length _ ""). lia.
Qed.

Lemma decimal_neg n : n < 0 -> decimal n = txt "-" ++ decimal (- n).
Proof. intros H. destruct n as [|n|n]; [lia|lia|reflexivity]. Qed.

(** 64-bit numbers have at most twenty characters. *)
Lemma decimal_no_nul n : - 2 ^ 63 <= n < 2 ^ 64 -> no_nul (decimal n) /\ (length (decimal n) <= 20)%nat.
Proof.
  intros Hn. destruct (decide (0 <= n)) as [H0|H0].
  - destruct (decimal_nonneg n 20) as [H1 H2]; [cbn; lia|lia|]. split; [by apply digits_no_nul|done].
  - rewrite decimal_neg by lia. destruct (decimal_nonneg (- n) 19) as [H1 H2]; [cbn; lia|lia|]. split.
    + apply Forall_cons_iff. split; [done|by apply digits_no_nul].
    + cbn [length app txt list_ascii_of_string]. lia.
Qed.

Section Numbers.
Context {M : MySQL} {DS : DdlServer}.

Lemma no_nul_take n s : no_nul s -> no_nul (take n s).
Proof. apply Forall_take. Qed.

(** A text, and then its end put somewhere *)
Lemma cut_text p s n a : 0 <= p -> inside a -> no_nul s -> p + Z.of_nat n + 1 <= mem_start a ->
  p + Z.of_nat (length s) + 1 <= CTC_DDL_PROTOBUF_MEM_SIZE ->
  exists a', (_ ← store p (s ++ [chr 0]); _ ← store (p + Z.of_nat n) [chr 0]; give (R := unit) p) a = Some (inr p, a') /\
    mem_start a' = mem_start a /\ holds a' p (take n s).
Proof.
  intros Hp [Ha1 Ha2] Hs Hn Hl.
  pose proof (store_val (R := unit) p (s ++ [chr 0]) a Hp ltac:(rewrite length_app; simpl; lia)) as H1.
  rewrite (bind_val _ _ _ _ _ H1). set (a1 := mk_arena _ _ _).
  pose proof (store_val (R := unit) (p + Z.of_nat n) [chr 0] a1 ltac:(lia) ltac:(cbn [length]; lia)) as H2.
  rewrite (bind_val _ _ _ _ _ H2). eexists. split; [done|]. split; [done|].
  split_and!; [done|subst a1; cbn [mem_start]; rewrite length_take; lia|by apply no_nul_take|].
  intros i Hi. rewrite length_take in Hi. cbn [ctc_ddl_req_mem length]. subst a1. cbn [ctc_ddl_req_mem].
  destruct (decide (i = n)) as [->|Hne].
  - rewrite (proj2 (Z.leb_le _ _)), (proj2 (Z.ltb_lt _ _)) by lia. cbn [andb].
    replace (Z.to_nat _) with 0%nat by lia. cbn [nth]. rewrite app_nth2 by (rewrite length_take; lia).
    rewrite length_take. by replace (n - n `min` length s)%nat with 0%nat by lia.
  - rewrite (proj2 (Z.leb_gt _ _)) by lia. cbn [andb]. rewrite length_app. cbn [length].
    rewrite (proj2 (Z.leb_le _ _)), (proj2 (Z.ltb_lt _ _)) by lia. cbn [andb].
    replace (Z.to_nat (p + Z.of_nat i - p)) with i by lia. destruct (decide (i < length s)%nat) as [Hlt|Hge].
    + rewrite !app_nth1 by (rewrite ?length_take; lia). rewrite <- (take_drop n s) at 1.
      by rewrite app_nth1 by (rewrite length_take; lia).
    + rewrite !app_nth2 by (rewrite ?length_take; lia). rewrite length_take. f_equal. lia.
Qed.

(** The text of a number: as many digits of the unsigned number as the signed
    one has characters *)
Lemma unsigned_text_stored num a : - 2 ^ 63 <= num < 2 ^ 63 -> room a 22 ->
  exists a', unsigned_text num a = Some (inr (mem_start a), a') /\ inside a' /\
    holds a' (mem_start a) (take (length (decimal num)) (decimal (num mod 2 ^ 64))).
Proof.
  intros Hn [Ha Hr]. destruct (decimal_no_nul num) as [_ Hl]; [lia|].
  destruct (decimal_no_nul (num mod 2 ^ 64)) as [Hs Hu]; [pose proof (Z.mod_pos_bound num (2 ^ 64)); lia|].
  unfold unsigned_text. cbv zeta.
  rewrite (bind_val _ _ _ _ _ (need_val tt (Z.of_nat (length (decimal num)) + 1) a ltac:(lia) Ha ltac:(lia))).
  destruct Ha as [Ha1 Ha2].
  destruct (cut_text (mem_start a) (decimal (num mod 2 ^ 64)) (length (decimal num))
    (mk_arena (mem_start a + (Z.of_nat (length (decimal num)) + 1)) (ctc_ddl_req_mem a) (cnvrt_table a))) as (a' & H & Hm & Hh);
    [done|split; cbn [mem_start]; lia|done|cbn [mem_start]; lia|lia|].
  exists a'. split; [exact H|]. cbn [mem_start] in Hm. split; [unfold inside; lia|done].
Qed.

End Numbers.

(** ** Defaults of columns *)

Section Defaults.
Context {M : MySQL} {DS : DdlServer}.

Lemma holds_read {a p s} : holds a p s -> inside a -> text_at a p = s.
Proof. apply holds_text. Qed.

(** [s] is the default of a [CHAR] or [VARCHAR] column: the value of the
    expression in the statement ([ALTER]) or of the default expression, when it
    is short enough for the column; or the bytes that the data dictionary
    keeps of the server's record: a [CHAR] as it is, a [VARCHAR] with one byte
    for its length. *)
Inductive string_default (c : column_def) (field : table_column) : option new_field -> text -> Prop :=
  | sd_statement nf e s :
      match nf_constant_default nf with Some e => Some e | None => nf_default_expr nf end = Some e ->
      ex_val_str e = Some s -> ctc_verify_string_default_length c (Some e) field (Some nf) = Some true ->
      string_default c field (Some nf) s
  | sd_expression e s :
      tc_default_expr field = Some e -> ex_val_str e = Some s ->
      ctc_verify_string_default_length c (Some e) field None = Some true -> string_default c field None s
  | sd_char dc :
      tc_default_expr field = None -> tc_dd field = Some dc ->
      f_real_type (tc_field field) = MYSQL_TYPE_STRING -> string_default c field None (dc_default_value dc)
  | sd_varchar dc s rest :
      tc_default_expr field = None -> tc_dd field = Some dc ->
      f_real_type (tc_field field) = MYSQL_TYPE_VARCHAR ->
      dc_default_value dc = chr (Z.of_nat (length s)) :: s ++ rest ->
      match rest with [] => True | x :: _ => x = chr 0 end -> string_default c field None s.

Lemma c_str_end s rest :
  no_nul s -> match rest with [] => True | x :: _ => x = chr 0 end -> c_str (s ++ rest) = s.
Proof.
  intros Hn Hr. induction Hn as [|x s Hx Hn IH]; cbn [app c_str].
  - destruct rest as [|y rest]; [done|]. by subst y.
  - rewrite (proj2 (Z.eqb_neq _ _)) by done. by rewrite IH.
Qed.


(** What is sent for the constant default of a [VARCHAR] column of a new
    table: the value when the record format keeps its length in one byte,
    nothing when in two. *)
Theorem varchar_default_sent c field dc n s pad a :
  f_real_type (tc_field field) = MYSQL_TYPE_VARCHAR -> tc_default_expr field = None -> tc_dd field = Some dc ->
  no_nul s -> (length s < 256)%nat -> (n = 1 \/ n = 2)%nat ->
  dc_default_value dc = map chr (le_bytes n (Z.of_nat (length s))) ++ s ++ chr 0 :: pad ->
  room a (2 * Z.of_nat (length s) + 1) ->
  exists p a', ctc_get_string_default_value c field None false a
      = Some (inr (set_default (Some (Own p)) c), a') /\
    read_literal (text_at a' p) = if (n =? 1)%nat then s else [].
Proof.
  intros Ht He Hd Hn Hl Hlb Hv [Ha Hr].
  assert (length (replace_quotes s) <= 2 * length s)%nat as Hlen.
  { clear. induction s as [|x s IH]; cbn [replace_quotes length]; [lia|]. destruct (Ascii.eqb x quote); cbn [length]; lia. }
  assert (c_str (drop 1 (dc_default_value dc)) = if (n =? 1)%nat then s else []) as Hc.
  { rewrite Hv. destruct Hlb as [-> | ->].
    - cbn [le_bytes map app drop Nat.eqb]. clear -Hn. induction Hn as [|x s Hx Hn IH]; [done|].
      simpl. rewrite drop_0 in IH. rewrite (proj2 (Z.eqb_neq _ _)) by done. by rewrite IH.
    - cbn [le_bytes map app drop Nat.eqb]. rewrite Z.div_small by lia. done. }
  destruct (string_default_stored c (if (n =? 1)%nat then s else []) a) as (a' & H & Ha' & Hh).
  { destruct (n =? 1)%nat; [done|constructor]. }
  { split; [done|]. destruct (n =? 1)%nat; cbn [replace_quotes length]; lia. }
  exists (mem_start a), a'. split; [|by rewrite (holds_read Hh Ha'), read_replace].
  unfold ctc_get_string_default_value. rewrite He, (bind_val _ _ _ (drop 1 (dc_default_value dc)) a); [by rewrite Hc|].
  rewrite Hd, req_deref_step, Ht. by rewrite bool_decide_false.
Qed.

(** The default of a [BIT] column: the number, unless its highest bit of
    sixty-four is set; then the text is cut. *)
Theorem bit_default_sent c field dc a :
  tc_dd field = Some dc -> (length (dc_default_value dc) <= 64)%nat ->
  let num := bit_val_int (tc_field field) (dc_default_value dc) in
  - 2 ^ 63 <= num < 2 ^ 63 -> room a 22 ->
  exists p a', ctc_get_bit_default_value c field None false a
      = Some (inr (set_default (Some (Own p)) (set_unsigned true c)), a') /\
    text_at a' p = (if num <? 0 then take (length (decimal num)) (decimal (num mod 2 ^ 64)) else decimal num).
Proof.
  intros Hd Hl num Hn Hr. destruct (unsigned_text_stored num a Hn Hr) as (a' & H & Ha' & Hh).
  exists (mem_start a), a'. split.
  - unfold ctc_get_bit_default_value. cbn [negb]. cbv zeta. rewrite (bind_val _ _ _ (inl num) a).
    + by rewrite (bind_val _ _ _ _ _ H).
    + rewrite Hd, req_deref_step. by rewrite (proj2 (Z.ltb_ge _ _)) by (unfold CTC_MAX_BIT_LEN; lia).
  - rewrite (holds_read Hh Ha'). destruct (num <? 0) eqn:E; zb; [done|].
    rewrite Z.mod_small by lia. by rewrite take_ge.
Qed.

(** An expression that is [NULL] as the default of a text column: the
    description follows a null pointer. *)
Lemma null_default_crashes c field e a :
  tc_default_expr field = Some e -> ex_val_str e = None ->
  d_datatype (cd_datatype c) <> ddl_code CTC_DDL_TYPE_CLOB ->
  ctc_get_string_default_value c field None false a = None.
Proof.
  intros He Hs Hc. unfold ctc_get_string_default_value. rewrite He. unfold ctc_verify_string_default_length.
  rewrite (proj2 (Z.eqb_neq _ _)) by done. cbn [mbind option_bind]. by rewrite Hs.
Qed.

(** A text in the memory of the request stays as it is while other columns are
    described. *)
Theorem column_texts_kept (cols : list (table_column * option new_field * option Z)) keynames mode a r a' p s :
  holds a p s ->
  each cols (fun x => ctc_ddl_fill_column_by_field init_column_def x.1.1 keynames x.1.2 mode x.2) a = Some (r, a') ->
  holds a' p s.
Proof. intros Hh H. eapply holds_frames; [|exact H|exact Hh]. apply frames_each. intros x. apply fill_column_frames. Qed.

(** Bytes that the members of a [SET] need, and those of the types chosen *)
Definition set_bytes (n : Z) : Z := if n <=? 8 then 1 else if n <=? 16 then 2 else if n <=? 24 then 3 else if n <=? 32 then 4 else 8.
Definition type_bytes (t : Z) : Z :=
  if t =? CTC_DDL_TYPE_TINY then 1 else if t =? CTC_DDL_TYPE_SHORT then 2 else if t =? CTC_DDL_TYPE_INT24 then 3 else 8.

Lemma set_type_size n : 1 <= n <= 64 ->
  exists t, set_column_datatype n = Some t /\ (type_bytes t = set_bytes n <-> ~ 25 <= n <= 32).
Proof.
  intros Hn. unfold set_column_datatype, set_bytes.
  destruct (n <? 9) eqn:E1; zb.
  { eexists. split; [done|]. rewrite (proj2 (Z.leb_le n 8)) by lia. split; [lia|done]. }
  rewrite (proj2 (Z.leb_gt n 8)), (proj2 (Z.ltb_lt 8 n)) by lia. cbn [andb].
  destruct (n <? 17) eqn:E2; zb.
  { eexists. split; [done|]. rewrite (proj2 (Z.leb_le n 16)) by lia. split; [lia|done]. }
  rewrite (proj2 (Z.leb_gt n 16)), (proj2 (Z.ltb_lt 16 n)) by lia. cbn [andb].
  destruct (n <? 33) eqn:E3; zb.
  { eexists. split; [done|]. destruct (n <=? 24) eqn:E4; zb; [split; [lia|done]|].
    rewrite (proj2 (Z.leb_le n 32)) by lia. split; [done|lia]. }
  rewrite (proj2 (Z.leb_gt n 24)), (proj2 (Z.leb_gt n 32)), (proj2 (Z.ltb_lt 32 n)), (proj2 (Z.ltb_lt n 65)) by lia.
  cbn [andb]. eexists. split; [done|]. split; [lia|done].
Qed.

End Defaults.

(** ** A server *)

(** Sets and enumerations of one member, characters of one byte *)
Definition demo_ddl : DdlServer := {|
  is_numeric_type := fun t => bool_decide (t = MYSQL_TYPE_LONG);
  new_field_of := fun f => mk_new_field (mk_create_field (c_field_name (tc_column f)) (f_type (tc_field f))
                             (f_pack_length (tc_field f)) (Some (tc_column f)) None false false None)
                             (Some 0) false None (tc_default_expr f) (mk_typelib 1 [txt "a"]);
  my_charset_bin := 63;
  same_csname := Z.eqb;
  lengthsp := fun _ s => Z.of_nat (length s);
  find_type2 := fun tl s _ => if bool_decide (tl_names tl = [s]) then 1 else 0;
  find_set := fun tl s _ => (1, bool_decide (s = None));
  has_comma := fun _ s => existsb (Ascii.eqb ",") s;
  numchars := fun e => Z.of_nat (length (default [] (ex_val_str e)));
  mbmaxlen := fun _ => 1;
  bit_val_int := fun _ b => wrapS 64 (be_val (map code b));
  str_to_datetime := fun _ => zero_ltime;
  my_datetime_to_str := fun _ _ => zero_date_text;
  column_collation := fun c => c;
  char_signed := true |}.
#[local] Existing Instance demo_ddl.

Definition demo_column (f : Field) (dc : dd_column) : table_column :=
  mk_table_column (mk_column f (txt "c") false None false 1) false false false false false false false false None 64 0 0 [] (Some dc).

(** [VARCHAR(300) DEFAULT 'abc'] *)
Definition long_varchar : Field :=
  mk_field MYSQL_TYPE_VARCHAR MYSQL_TYPE_VARCHAR 0 302 300 2 true 0 1 false false 0 0 false false false false 32 0 0 0 0.
Definition long_default : dd_column := mk_dd_column (chr 3 :: chr 0 :: txt "abc" ++ [chr 0]) (txt "abc") false false false.

Definition fresh : arena := empty_arena (fun _ => chr 0) g_field_cnvrt_aux_array.

Lemma fresh_room n : 0 <= n < 1000 -> room fresh n.
Proof. intros H. unfold room, inside, fresh, empty_arena, CTC_DDL_PROTOBUF_MEM_SIZE. cbn [mem_start]. lia. Qed.

Lemma varchar_default_sent_witness :
  exists p a', ctc_get_string_default_value init_column_def (demo_column long_varchar long_default) None false fresh
      = Some (inr (set_default (Some (Own p)) init_column_def), a') /\ read_literal (text_at a' p) = [].
Proof.
  apply (varchar_default_sent init_column_def (demo_column long_varchar long_default) long_default 2 (txt "abc") [] fresh).
  - reflexivity.
  - reflexivity.
  - reflexivity.
  - apply no_nulb_spec. reflexivity.
  - simpl. lia.
  - right. reflexivity.
  - reflexivity.
  - apply fresh_room. simpl. lia.
Defined.

(** [BIT(64)] with all bits set: [18] instead of [18446744073709551615] *)
Definition bit64 : Field :=
  mk_field MYSQL_TYPE_BIT MYSQL_TYPE_BIT 0 8 8 0 true 0 1 false true 0 0 false false false false 32 64 8 0 0.
Definition all_bits : dd_column := mk_dd_column (repeat (chr 255) 8) (txt "18446744073709551615") false false false.

Lemma bit_default_sent_witness :
  exists p a', ctc_get_bit_default_value init_column_def (demo_column bit64 all_bits) None false fresh
      = Some (inr (set_default (Some (Own p)) (set_unsigned true init_column_def)), a') /\ text_at a' p = txt "18".
Proof.
  assert (bit_val_int (tc_field (demo_column bit64 all_bits)) (dc_default_value all_bits) = -1) as Hn by (vm_compute; reflexivity).
  destruct (bit_default_sent init_column_def (demo_column bit64 all_bits) all_bits fresh) as (p & a' & H & Ht).
  - reflexivity.
  - simpl. lia.
  - rewrite Hn. lia.
  - apply fresh_room. lia.
  - exists p, a'. split; [exact H|]. rewrite Ht, Hn. vm_compute. reflexivity.
Defined.

(** [VARCHAR(20) DEFAULT 'it''s'] of a new table *)
Definition short_varchar : Field :=
  mk_field MYSQL_TYPE_VARCHAR MYSQL_TYPE_VARCHAR 0 21 20 1 true 0 1 false false 0 0 false false false false 32 0 0 0 0.
Definition short_default : dd_column :=
  mk_dd_column (chr 4 :: txt "it's" ++ repeat (chr 0) 16) (txt "it's") false false false.


(** A column of integers from the server's description to the request *)
Definition int_column : table_column :=
  mk_table_column (mk_column (mk_field MYSQL_TYPE_LONG MYSQL_TYPE_LONG 0 4 4 0 false 0 0 false true 0 0 false false false false 32 0 0 0 0)
    (txt "n") false None false 1) true true false false false false false false None 11 0 0 (txt "count")
    (Some (mk_dd_column [] (txt "7") false false false)).

Example int_column_described :
  exists a', ctc_ddl_fill_column_by_field (M := Demo.Demo.demo) init_column_def int_column [] None 1 None fresh
    = Some (inr (mk_column_def (txt "n") None (mk_data_type 3 4 0 0 (Some MYSQL_TYPE_LONG)) 2690
                   (Some (txt "PRIMARY")) (Some (Own 0)) (Some (txt "count")) 1 0 true None), a').
Proof. eexists. vm_compute. reflexivity. Qed.

End ColumnDef.
