(* ===== verification/TableDef.v ===== *)
(** * TableDef: the requests that define tables

    Models how [ha_ctc_ddl.cc] builds the request of [CREATE TABLE]: the
    structures that are laid out in the memory of the request before anything
    is filled in ([ctc_ddl_init_create_table_def] and what it calls), and the
    loops that fill in columns, keys, foreign keys and partitions, up to
    [fill_create_table_req].

    [Layout] are the sizes of the generated structures.  An array of pointers
    to structures is the list of the structures. *)

From Stdlib Require Import Ascii String.
From S2P Require Import Prelude FieldTypes Server SqlText ReqMem FuncIndex ColumnDef.
Import FieldTypes Server SqlText ReqMem FuncIndex ColumnDef.

Module TableDef.

Class Layout := {
  sz_ptr : Z; sz_column : Z; sz_data_type : Z; sz_key : Z; sz_key_part : Z; sz_foreign_key : Z; sz_fk_element : Z;
  sz_partition_def : Z; sz_part_table : Z; sz_drop : Z; sz_alter_column : Z; sz_drop_key : Z; sz_alter_index : Z;
  sz_table_prop : Z;
  HA_ERR_TOO_MANY_FIELDS : Z }.                (* a code of the server *)

Class LayoutOk (L : Layout) (max : Z) : Prop := {
  layout_nonneg : Forall (fun n => 0 <= n) [sz_ptr; sz_column; sz_data_type; sz_key; sz_key_part; sz_foreign_key;
    sz_fk_element; sz_partition_def; sz_part_table; sz_drop; sz_alter_column; sz_drop_key; sz_alter_index; sz_table_prop];
  layout_max : Forall (fun n => n <= max) [sz_ptr; sz_column; sz_data_type; sz_key; sz_key_part; sz_foreign_key;
    sz_fk_element; sz_partition_def; sz_part_table; sz_drop; sz_alter_column; sz_drop_key; sz_alter_index; sz_table_prop] }.

Definition REC_MAX_N_USER_FIELDS : Z := 1024 - 1 - 3 * 2.
Definition MAX_SUBPART_NUM : Z := 4096.
Definition SMALL_RECORD_SIZE : Z := 128.
Definition CTC_IDENTIFIER_MAX_LEN : Z := 64.
Definition HA_ERR_WRONG_COMMAND : Z := 131.
Definition ER_WRONG_KEY_COLUMN : Z := 1167.

(** ** What the server hands over *)

(** [fk_option] and [dd::Foreign_key::enum_rule] *)
Inductive fk_rule := Rule_undef | Rule_no_action | Rule_restrict | Rule_default | Rule_cascade | Rule_set_null.

Record dd_foreign_key := mk_dd_fk {
  dfk_name : text; dfk_delete : fk_rule; dfk_update : fk_rule;
  dfk_ref_schema : text; dfk_ref_table : text; dfk_elements : list (text * text) }.

(** [dd::Index::enum_index_type] *)
Inductive index_type := It_primary | It_unique | It_multiple | It_fulltext | It_spatial.
(** [ha_key_alg] and [dd::Index::enum_index_algorithm] *)
Inductive key_algorithm := Alg_se_specific | Alg_btree | Alg_rtree | Alg_hash | Alg_fulltext.

#[export] Instance key_algorithm_eq_dec : EqDecision key_algorithm.
Proof. solve_decision. Defined.

Record dd_index := mk_dd_index {
  dix_name : text; dix_type : index_type; dix_algorithm : key_algorithm; dix_elements : list part_info }.

Inductive partition_type := PT_none | PT_range | PT_range_columns | PT_list | PT_list_columns | PT_hash | PT_linear_hash
  | PT_key_51 | PT_key_55 | PT_linear_key_51 | PT_linear_key_55 | PT_auto | PT_auto_linear.
Inductive subpartition_type := ST_none | ST_hash | ST_linear_hash | ST_key_51 | ST_key_55 | ST_linear_key_51 | ST_linear_key_55.

Record dd_table := mk_dd_table {
  dt_name : text;
  dt_indexes : list dd_index;
  dt_foreign_keys : list dd_foreign_key;
  dt_partition_type : partition_type; dt_subpartition_type : subpartition_type;
  dt_partitions : list (text * list text) }.        (* names, with those of the subpartitions *)

(** [leaf_partitions]: the subpartitions, or the partitions *)
Definition leaf_count (t : dd_table) : Z :=
  foldr Z.add 0 (map (fun p => Z.max 1 (Z.of_nat (length p.2))) (dt_partitions t)).

(** [KEY] *)
Record key_info := mk_key_info {
  ki_name : text; ki_key_length : Z; ki_spatial : bool; ki_nosame : bool; ki_fulltext : bool; ki_generated : bool;
  ki_algorithm : key_algorithm; ki_parts : list part_info }.

(** [TABLE] *)
Record table := mk_table {
  t_fields : list table_column;
  t_key_info : list key_info }.

Definition t_columns (t : table) : list column := map tc_column (t_fields t).
Definition t_keynames (t : table) : list text := map ki_name (t_key_info t).

(** ** The request *)

Record key_def := mk_key_def {
  k_owner : option (Z * text);              (* user and table: [req->schema], [req->name] *)
  k_name : option text; k_key_type : Z; k_algorithm : Z; k_is_constraint : bool; k_is_dsc : bool; k_is_func : bool;
  k_parallelism : Z; k_columns : list key_part }.
Definition init_key (parts : list key_part) (parallelism : Z) : key_def :=
  mk_key_def None None 0 0 false false false parallelism parts.

Record fk_def := mk_fk_def {
  fk_name : option text; fk_delete_opt : Z; fk_update_opt : Z; fk_schema : option Z; fk_table : option text;
  fk_elements : list (option (text * text)) }.
Definition init_fk (elements : list (option (text * text))) : fk_def := mk_fk_def None 0 0 None None elements.

Record part_table := mk_part_table { pt_name : text; pt_subpart_table_list : list text }.
Record partition_def := mk_partition_def {
  pd_part_type : Z; pd_subpart_type : Z; pd_part_table_list : list part_table }.

(** [TcDb__CtcDDLCreateTableDef]: the counters are next to the arrays. *)
Record create_req := mk_create_req {
  r_n_columns : nat; r_columns : list column_def;
  r_fk_list : list fk_def; r_key_list : list key_def;
  r_partition_def : option partition_def }.

Section Init.
Context {L : Layout}.
Variable parallelism : Z.      (* get_session_level_create_index_parallelism(thd) *)

Abbreviation I := (E Z).
Abbreviation alloc n := (need HA_ERR_OUT_OF_MEM n).

Definition times {A} (n : nat) (m : I A) : I (list A) := each (seq 0 n) (fun _ => m).

Definition new_column : I column_def := _ ← alloc sz_column; _ ← alloc sz_data_type; give init_column_def.

Definition ctc_ddl_init_column_def (n_columns : nat) : I (list column_def) :=
  _ ← alloc (sz_ptr * Z.of_nat n_columns);
  times n_columns new_column.

Definition ctc_ddl_init_foreign_key_def (fks : list dd_foreign_key) : I (list fk_def) :=
  _ ← alloc (sz_ptr * Z.of_nat (length fks));
  each fks (fun fk =>
    _ ← alloc sz_foreign_key;
    _ ← alloc (sz_ptr * Z.of_nat (length (dfk_elements fk)));
    elements ← times (length (dfk_elements fk)) (_ ← alloc sz_fk_element; give None);
    give (init_fk elements)).

(** An assertion checks the text of a part. *)
Definition asserted_part : I key_part :=
  _ ← alloc sz_key_part;
  _ ← (p ← ctc_ddl_alloc_mem FUNC_TEXT_MAX_LEN; deref p);
  give init_key_part.

Definition ctc_ddl_init_index_def (indexes : list dd_index) : I (list key_def) :=
  _ ← alloc (sz_ptr * Z.of_nat (length indexes));
  each indexes (fun idx =>
    _ ← alloc sz_key;
    _ ← alloc (sz_ptr * Z.of_nat (length (dix_elements idx)));
    parts ← times (length (dix_elements idx)) asserted_part;
    give (init_key parts (if (0 <? length parts)%nat then parallelism else 0))).

Definition ctc_ddl_init_index_form (keys : list key_info) : I (list key_def) :=
  if (length keys =? 0)%nat then give [] else
  _ ← alloc (sz_ptr * Z.of_nat (length keys));
  each keys (fun key =>
    if ki_key_length key =? 0 then returns ER_WRONG_KEY_COLUMN else
    _ ← alloc sz_key;
    _ ← alloc (sz_ptr * Z.of_nat (length (ki_parts key)));
    parts ← times (length (ki_parts key)) asserted_part;
    give (init_key parts parallelism)).

(** ** Partitions *)

Definition CTC_PART_TYPE_INVALID : Z := 0.
Definition CTC_PART_TYPE_RANGE : Z := 1.
Definition CTC_PART_TYPE_LIST : Z := 2.
Definition CTC_PART_TYPE_HASH : Z := 3.

(** [None]: the code 1 *)
Definition convert_ctc_part_type (t : partition_type) : option Z :=
  match t with
  | PT_range | PT_range_columns => Some CTC_PART_TYPE_RANGE
  | PT_list | PT_list_columns => Some CTC_PART_TYPE_LIST
  | PT_hash | PT_linear_hash | PT_key_51 | PT_key_55 | PT_linear_key_51 | PT_linear_key_55 => Some CTC_PART_TYPE_HASH
  | _ => None
  end.

Definition convert_ctc_subpart_type (t : subpartition_type) : option Z :=
  match t with
  | ST_none => Some CTC_PART_TYPE_INVALID
  | ST_hash | ST_linear_hash | ST_key_51 | ST_key_55 | ST_linear_key_51 | ST_linear_key_55 => Some CTC_PART_TYPE_HASH
  end.

Definition ctc_ddl_fill_partition_table_info (pt : text * list text) : I part_table :=
  if (length pt.2 =? 0)%nat then give (mk_part_table pt.1 []) else
  _ ← alloc (sz_ptr * Z.of_nat (length pt.2));
  subs ← each pt.2 (fun sub => _ ← alloc sz_part_table; give sub);
  give (mk_part_table pt.1 subs).

Definition ctc_ddl_prepare_create_partition_info (t : dd_table) : I partition_def :=
  _ ← alloc sz_partition_def;
  part_type ← match convert_ctc_part_type (dt_partition_type t) with Some x => give x | None => returns 1 end;
  subpart_type ← match convert_ctc_subpart_type (dt_subpartition_type t) with Some x => give x | None => returns 1 end;
  _ ← alloc (sz_ptr * Z.of_nat (length (dt_partitions t)));
  parts ← each (dt_partitions t) (fun pt => _ ← alloc sz_part_table; ctc_ddl_fill_partition_table_info pt);
  give (mk_partition_def part_type subpart_type parts).

Definition ctc_ddl_init_create_table_def (form : table) (table_def : option dd_table) : I create_req :=
  let n := length (t_fields form) in
  if REC_MAX_N_USER_FIELDS <? Z.of_nat n then returns HA_ERR_TOO_MANY_FIELDS else
  columns ← (if (0 <? n)%nat then ctc_ddl_init_column_def n else give []);
  match table_def with
  | None =>
    keys ← ctc_ddl_init_index_form (t_key_info form);
    give (mk_create_req n columns [] keys None)
  | Some t =>
    keys ← (if (0 <? length (dt_indexes t))%nat then ctc_ddl_init_index_def (dt_indexes t) else give []);
    fks ← (if (0 <? length (dt_foreign_keys t))%nat then ctc_ddl_init_foreign_key_def (dt_foreign_keys t) else give []);
    partition ← (if (0 <? length (dt_partitions t))%nat then
                   if MAX_SUBPART_NUM <? leaf_count t / Z.of_nat (length (dt_partitions t)) then returns (-1)
                   else p ← ctc_ddl_prepare_create_partition_info t; give (Some p)
                 else give None);
    give (mk_create_req n columns fks keys partition)
  end.

(** ** How much memory they take *)

Definition column_bytes : Z := sz_column + sz_data_type.
Definition columns_bytes (n : nat) : Z := sz_ptr * Z.of_nat n + column_bytes * Z.of_nat n.
Definition fk_bytes (fk : dd_foreign_key) : Z :=
  sz_foreign_key + sz_ptr * Z.of_nat (length (dfk_elements fk)) + sz_fk_element * Z.of_nat (length (dfk_elements fk)).
Definition key_bytes (parts : nat) : Z :=
  sz_key + sz_ptr * Z.of_nat parts + (sz_key_part + FUNC_TEXT_MAX_LEN) * Z.of_nat parts.
Definition subparts_bytes (pt : text * list text) : Z := (sz_ptr + sz_part_table) * Z.of_nat (length pt.2).

Definition indexes_bytes (l : list dd_index) : Z :=
  sz_ptr * Z.of_nat (length l) + total (fun i => key_bytes (length (dix_elements i))) l.
Definition fks_bytes (l : list dd_foreign_key) : Z := sz_ptr * Z.of_nat (length l) + total fk_bytes l.
Definition keys_bytes (l : list key_info) : Z :=
  sz_ptr * Z.of_nat (length l) + total (fun k => key_bytes (length (ki_parts k))) l.
Definition partitions_bytes (l : list (text * list text)) : Z :=
  sz_partition_def + sz_ptr * Z.of_nat (length l) + total (fun pt => sz_part_table + subparts_bytes pt) l.

End Init.

Section Costs.
Context {L : Layout} {max : Z} `{!LayoutOk L max}.
Variable parallelism : Z.

Lemma sizes : 0 <= sz_ptr <= max /\ 0 <= sz_column <= max /\ 0 <= sz_data_type <= max /\ 0 <= sz_key <= max /\
  0 <= sz_key_part <= max /\ 0 <= sz_foreign_key <= max /\ 0 <= sz_fk_element <= max /\ 0 <= sz_partition_def <= max /\
  0 <= sz_part_table <= max /\ 0 <= sz_drop <= max /\ 0 <= sz_alter_column <= max /\ 0 <= sz_drop_key <= max /\
  0 <= sz_alter_index <= max /\ 0 <= sz_table_prop <= max.
Proof.
  pose proof layout_nonneg as H1. pose proof layout_max as H2. rewrite !Forall_cons_iff in H1, H2. tauto.
Qed.

(** Two pieces of code, the first of which only allocates *)
Lemma costs_then {R A} b (oom : R) n (m : E R A) n2 Q :
  0 <= n -> costs b oom m n2 Q -> costs b oom (need oom n ≫= fun _ => m) (n + n2) Q.
Proof. intros Hn Hm. eapply costs_bind; [by apply costs_need|by intros|]. by destruct Hm. Qed.

Lemma costs_then_give {R A} b (oom : R) n (x : A) :
  0 <= n -> costs b oom (need oom n ≫= fun _ => give x) n (fun y => y = x).
Proof.
  intros Hn. eapply costs_conseq; [apply (costs_then b oom n _ 0 (fun y => y = x)); [done|by apply costs_give]|lia|done].
Qed.

Lemma costs_map {R A B} b (oom : R) (m : E R A) (f : A -> B) n (Q : A -> Prop) (Q' : B -> Prop) :
  costs b oom m n Q -> (forall x, Q x -> Q' (f x)) -> costs b oom (x ← m; give (f x)) n Q'.
Proof.
  intros Hm HQ. eapply costs_conseq; [eapply costs_bind; [exact Hm|intros x Hx; apply costs_give, HQ, Hx|lia]|lia|done].
Qed.

Lemma costs_times {A} b oom k (m : E Z A) n (Q : A -> Prop) :
  costs b oom m n Q -> costs b oom (times k m) (n * Z.of_nat k) (fun ys => length ys = k /\ Forall Q ys).
Proof.
  intros H. eapply costs_conseq; [apply (costs_each_const b oom (seq 0 k) (fun _ => m) n Q); by intros|..].
  - by rewrite length_seq.
  - intros ys. by rewrite length_seq.
Qed.

Lemma Forall_eq_replicate {A} (x : A) ys : Forall (fun y => y = x) ys -> ys = replicate (length ys) x.
Proof. induction 1 as [|y l -> Hl IH]; [done|]. cbn. by rewrite <- IH. Qed.

Lemma costs_times_eq {A} b oom k (m : E Z A) n x :
  costs b oom m n (fun y => y = x) -> costs b oom (times k m) (n * Z.of_nat k) (fun ys => ys = replicate k x).
Proof.
  intros H. eapply costs_conseq; [by apply (costs_times b oom k m n _ H)|done|]. intros ys [<- Hys]. by apply Forall_eq_replicate.
Qed.

Lemma Forall2_eq_map {A B} (f : A -> B) l ys : Forall2 (fun x y => y = f x) l ys -> ys = map f l.
Proof. induction 1 as [|x y l ys -> _ IH]; [done|]. cbn. by rewrite IH. Qed.

Lemma init_columns_cost n :
  costs false HA_ERR_OUT_OF_MEM (ctc_ddl_init_column_def n) (columns_bytes n) (fun cs => cs = replicate n init_column_def).
Proof.
  pose proof sizes. apply costs_then; [nia|]. apply costs_times_eq. unfold new_column, column_bytes.
  apply costs_then; [lia|]. apply costs_then_give; lia.
Qed.

Lemma asserted_part_cost : costs true HA_ERR_OUT_OF_MEM asserted_part (sz_key_part + FUNC_TEXT_MAX_LEN) (fun p => p = init_key_part).
Proof.
  pose proof sizes. apply costs_then; [lia|].
  eapply costs_conseq; [eapply costs_bind; [apply costs_assert; unfold FUNC_TEXT_MAX_LEN; lia|intros p _; by apply (costs_give _ _ _ (fun p => p = init_key_part))|lia]|lia|done].
Qed.

Definition has_parts (k : key_def) (n : nat) : Prop := k_columns k = replicate n init_key_part.

Lemma key_cost n (f : list key_part -> key_def) : (forall l, k_columns (f l) = l) ->
  costs true HA_ERR_OUT_OF_MEM
    (_ ← need HA_ERR_OUT_OF_MEM sz_key; _ ← need HA_ERR_OUT_OF_MEM (sz_ptr * Z.of_nat n);
     parts ← times n asserted_part; give (f parts)) (key_bytes n) (fun k => has_parts k n).
Proof.
  intros Hf. pose proof sizes. unfold key_bytes. rewrite <- Z.add_assoc. apply costs_then; [lia|]. apply costs_then; [nia|].
  eapply costs_map; [apply costs_times_eq, asserted_part_cost|]. intros x ->. apply Hf.
Qed.

Lemma key_bytes_nonneg n : 0 <= key_bytes n.
Proof. pose proof sizes. unfold key_bytes, FUNC_TEXT_MAX_LEN. nia. Qed.

Lemma init_index_cost l :
  costs true HA_ERR_OUT_OF_MEM (ctc_ddl_init_index_def parallelism l) (indexes_bytes l)
    (fun ks => Forall2 (fun i k => has_parts k (length (dix_elements i))) l ks).
Proof.
  pose proof sizes. apply costs_then; [nia|].
  apply costs_each; [intros; apply key_bytes_nonneg|]. intros i _.
  by apply (key_cost _ (fun parts => init_key parts (if (0 <? length parts)%nat then parallelism else 0))).
Qed.

Lemma init_form_cost l : Forall (fun k => ki_key_length k <> 0) l -> l <> [] ->
  costs true HA_ERR_OUT_OF_MEM (ctc_ddl_init_index_form parallelism l) (keys_bytes l)
    (fun ks => Forall2 (fun i k => has_parts k (length (ki_parts i))) l ks).
Proof.
  intros Hk Hl. pose proof sizes. unfold ctc_ddl_init_index_form. rewrite (proj2 (Nat.eqb_neq _ _)) by (by destruct l).
  apply costs_then; [nia|].
  apply costs_each; [intros; apply key_bytes_nonneg|]. intros i Hi. rewrite Forall_forall in Hk.
  rewrite (proj2 (Z.eqb_neq _ _)) by (apply Hk; by apply list_elem_of_In).
  by apply (key_cost _ (fun parts => init_key parts parallelism)).
Qed.

Lemma fk_bytes_nonneg fk : 0 <= fk_bytes fk.
Proof. pose proof sizes. unfold fk_bytes. nia. Qed.

Lemma init_fks_cost l :
  costs false HA_ERR_OUT_OF_MEM (ctc_ddl_init_foreign_key_def l) (fks_bytes l)
    (fun fs => Forall2 (fun fk f => f = init_fk (replicate (length (dfk_elements fk)) None)) l fs).
Proof.
  pose proof sizes. apply costs_then; [nia|]. apply costs_each; [apply fk_bytes_nonneg|]. intros fk _.
  unfold fk_bytes. rewrite <- Z.add_assoc. apply costs_then; [lia|]. apply costs_then; [nia|].
  eapply costs_map; [apply costs_times_eq|intros x ->; done].
  apply costs_then_give; lia.
Qed.

Lemma subparts_nonneg pt : 0 <= subparts_bytes pt.
Proof. pose proof sizes. unfold subparts_bytes. apply Z.mul_nonneg_nonneg; lia. Qed.

Lemma partition_cost t pty spty :
  convert_ctc_part_type (dt_partition_type t) = Some pty -> convert_ctc_subpart_type (dt_subpartition_type t) = Some spty ->
  costs false HA_ERR_OUT_OF_MEM (ctc_ddl_prepare_create_partition_info t) (partitions_bytes (dt_partitions t))
    (fun p => p = mk_partition_def pty spty (map (fun x => mk_part_table x.1 x.2) (dt_partitions t))).
Proof.
  intros H1 H2. pose proof sizes. unfold ctc_ddl_prepare_create_partition_info, partitions_bytes. rewrite H1, H2.
  rewrite <- Z.add_assoc. apply costs_then; [lia|].
  change (costs false HA_ERR_OUT_OF_MEM (need HA_ERR_OUT_OF_MEM (sz_ptr * Z.of_nat (length (dt_partitions t))) ≫= fun _ =>
    parts ← each (dt_partitions t) (fun pt => _ ← need HA_ERR_OUT_OF_MEM sz_part_table; ctc_ddl_fill_partition_table_info pt);
    give (mk_partition_def pty spty parts))
    (sz_ptr * Z.of_nat (length (dt_partitions t)) + total (fun pt => sz_part_table + subparts_bytes pt) (dt_partitions t))
    (fun p => p = mk_partition_def pty spty (map (fun x => mk_part_table x.1 x.2) (dt_partitions t)))).
  apply costs_then; [nia|].
  eapply (costs_map _ _ _ _ _ (fun ps => Forall2 (fun pt p => p = mk_part_table pt.1 pt.2) (dt_partitions t) ps)).
  - apply costs_each; [intros pt; unfold subparts_bytes; nia|]. intros [name subs] _. apply costs_then; [lia|].
    unfold ctc_ddl_fill_partition_table_info, subparts_bytes. cbn [fst snd]. destruct (length subs =? 0)%nat eqn:E.
    + apply Nat.eqb_eq, length_zero_iff_nil in E as ->. eapply costs_conseq; [by apply (costs_give _ _ _ (fun p => p = mk_part_table name []))|cbn; lia|done].
    + rewrite Z.mul_add_distr_r. apply costs_then; [nia|].
      eapply (costs_map _ _ _ _ _ (fun l => Forall2 (fun x y => y = x) subs l)).
      * rewrite <- (req_total_const sz_part_table subs). apply costs_each; [lia|]. intros x _.
        apply costs_then_give; lia.
      * intros l Hl. f_equal. rewrite (Forall2_eq_map id subs l Hl). by rewrite map_id.
  - intros ps Hps. f_equal. by apply (Forall2_eq_map (fun x => mk_part_table x.1 x.2)).
Qed.

End Costs.

(** ** The whole request *)

Section CreateLayout.
Context {L : Layout} {max : Z} `{!LayoutOk L max}.
Variable parallelism : Z.

Definition when {A} (l : list A) (n : Z) : Z := if (0 <? length l)%nat then n else 0.

Definition create_bytes (form : table) (table_def : option dd_table) : Z :=
  when (t_fields form) (columns_bytes (length (t_fields form)))
  + match table_def with
    | None => when (t_key_info form) (keys_bytes (t_key_info form))
    | Some t => when (dt_indexes t) (indexes_bytes (dt_indexes t)) + when (dt_foreign_keys t) (fks_bytes (dt_foreign_keys t))
                + when (dt_partitions t) (partitions_bytes (dt_partitions t))
    end.

(** What the code checks while it lays out the request *)
Definition valid_create (form : table) (table_def : option dd_table) : Prop :=
  Z.of_nat (length (t_fields form)) <= REC_MAX_N_USER_FIELDS /\
  match table_def with
  | None => Forall (fun k => ki_key_length k <> 0) (t_key_info form)
  | Some t => dt_partitions t = [] \/
      leaf_count t / Z.of_nat (length (dt_partitions t)) <= MAX_SUBPART_NUM /\
      is_Some (convert_ctc_part_type (dt_partition_type t)) /\ is_Some (convert_ctc_subpart_type (dt_subpartition_type t))
  end.

(** An element for each column, key, part of a key, foreign key and partition *)
Definition laid_out (form : table) (table_def : option dd_table) (r : create_req) : Prop :=
  r_n_columns r = length (t_fields form) /\ r_columns r = replicate (length (t_fields form)) init_column_def /\
  match table_def with
  | None => Forall2 (fun i k => has_parts k (length (ki_parts i))) (t_key_info form) (r_key_list r) /\
            r_fk_list r = [] /\ r_partition_def r = None
  | Some t =>
    Forall2 (fun i k => has_parts k (length (dix_elements i))) (dt_indexes t) (r_key_list r) /\
    Forall2 (fun fk f => f = init_fk (replicate (length (dfk_elements fk)) None)) (dt_foreign_keys t) (r_fk_list r) /\
    match r_partition_def r with
    | Some p => pd_part_table_list p = map (fun x => mk_part_table x.1 x.2) (dt_partitions t)
    | None => dt_partitions t = []
    end
  end.

Lemma costs_when {A B} b oom (l : list A) (m : E Z (list B)) n (Q : list B -> Prop) :
  (l <> [] -> costs b oom m n Q) -> (l = [] -> Q []) ->
  costs b oom (if (0 <? length l)%nat then m else give []) (when l n) Q.
Proof.
  intros Hm Hn. unfold when. destruct l as [|x l]; cbn [length Nat.ltb Nat.leb]; [by apply costs_give, Hn|by apply Hm].
Qed.

Lemma when_nonneg {A} (l : list A) n : 0 <= n -> 0 <= when l n.
Proof. intros H. unfold when. destruct (_ <? _)%nat; lia. Qed.

Lemma bytes_nonneg form t : 0 <= columns_bytes (length (t_fields form)) /\ 0 <= keys_bytes (t_key_info form) /\
  0 <= indexes_bytes (dt_indexes t) /\ 0 <= fks_bytes (dt_foreign_keys t) /\ 0 <= partitions_bytes (dt_partitions t).
Proof.
  pose proof sizes. unfold columns_bytes, column_bytes, keys_bytes, indexes_bytes, fks_bytes, partitions_bytes.
  pose proof (total_nonneg (fun k => key_bytes (length (ki_parts k))) (t_key_info form) ltac:(intros; apply key_bytes_nonneg)).
  pose proof (total_nonneg (fun k => key_bytes (length (dix_elements k))) (dt_indexes t) ltac:(intros; apply key_bytes_nonneg)).
  pose proof (total_nonneg fk_bytes (dt_foreign_keys t) ltac:(intros; apply fk_bytes_nonneg)).
  assert (0 <= total (fun pt => sz_part_table + subparts_bytes pt) (dt_partitions t)) as Hpt.
  { apply total_nonneg. intros pt. pose proof (subparts_nonneg pt). lia. }
  nia.
Qed.

Lemma create_cost form table_def : valid_create form table_def ->
  costs true HA_ERR_OUT_OF_MEM (ctc_ddl_init_create_table_def parallelism form table_def) (create_bytes form table_def)
    (laid_out form table_def).
Proof.
  intros [Hn Hv]. unfold ctc_ddl_init_create_table_def, create_bytes. cbv zeta. rewrite (proj2 (Z.ltb_ge _ _)) by done.
  eapply costs_bind.
  { apply costs_weaken, (costs_when _ _ _ _ _ (fun cs => cs = replicate (length (t_fields form)) init_column_def)).
    - intros _. apply init_columns_cost.
    - by intros ->. }
  - intros cols ->. destruct table_def as [t|].
    + pose proof (bytes_nonneg form t) as Hb. rewrite <- Z.add_assoc. eapply costs_bind.
      { apply (costs_when _ _ _ _ _ (fun ks => Forall2 (fun i k => has_parts k (length (dix_elements i))) (dt_indexes t) ks)).
        - intros _. apply init_index_cost.
        - intros ->. constructor. }
      2:{ apply Z.add_nonneg_nonneg; apply when_nonneg; lia. }
      intros keys Hkeys. eapply costs_bind.
      { apply costs_weaken, (costs_when _ _ _ _ _ (fun fs => Forall2 (fun fk f => f = init_fk (replicate (length (dfk_elements fk)) None)) (dt_foreign_keys t) fs)).
        - intros _. apply init_fks_cost.
        - intros ->. constructor. }
      2:{ apply when_nonneg; lia. }
      intros fks Hfks.
      apply (costs_map _ _ _ _ _ (fun p => match p with
        | Some p => pd_part_table_list p = map (fun x => mk_part_table x.1 x.2) (dt_partitions t)
        | None => dt_partitions t = [] end)); [|by intros p Hp].
      unfold when. destruct (dt_partitions t) as [|pt pts] eqn:Hp; cbn [length Nat.ltb Nat.leb]; [by apply costs_give|].
      rewrite <- Hp. destruct Hv as [?|(Hleaf & [pty Hpty] & [spty Hspty])]; [by rewrite Hp in *|].
      change (S (length pts)) with (length (pt :: pts)) in *. rewrite <- Hp in *. rewrite (proj2 (Z.ltb_ge _ _)) by done.
      eapply costs_map; [by eapply costs_weaken, partition_cost|]. by intros p ->.
    + pose proof (bytes_nonneg form (mk_dd_table [] [] [] PT_none ST_none [])) as Hb.
      eapply (costs_map _ _ _ _ _ (fun ks => Forall2 (fun i k => has_parts k (length (ki_parts i))) (t_key_info form) ks)); [|by intros ks Hks].
      unfold when. destruct (t_key_info form) as [|k ks] eqn:Hk; cbn [length Nat.ltb Nat.leb].
      * unfold ctc_ddl_init_index_form. cbn [length Nat.eqb]. apply costs_give. constructor.
      * rewrite <- Hk in *. apply init_form_cost; [done|by rewrite Hk].
  - destruct table_def as [t|].
    + pose proof (bytes_nonneg form t). repeat apply Z.add_nonneg_nonneg; apply when_nonneg; lia.
    + pose proof (bytes_nonneg form (mk_dd_table [] [] [] PT_none ST_none [])). apply when_nonneg. lia.
Qed.

(** C9: the request of a table is laid out exactly when its structures, with all
    that belongs to them, take less than the ten megabytes that there are; then
    it has an element for everything the table has. *)
Theorem create_request_laid_out form table_def mem tab :
  valid_create form table_def ->
  (create_bytes form table_def < CTC_DDL_PROTOBUF_MEM_SIZE <->
   exists r a', ctc_ddl_init_create_table_def parallelism form table_def (empty_arena mem tab) = Some (inr r, a') /\
     laid_out form table_def r).
Proof. intros H. by eapply costs_run, create_cost. Qed.

End CreateLayout.

(** ** Tables that always fit *)

Definition leaves (l : list (text * list text)) : Z := Z.of_nat (length l) + total (fun pt => Z.of_nat (length pt.2)) l.

Section Fits.
Context {L : Layout} `{!LayoutOk L 160}.

Lemma total_add {A} (f g : A -> Z) l : total (fun x => f x + g x) l = total f l + total g l.
Proof. unfold total. induction l as [|x l IH]; cbn [map foldr]; lia. Qed.

Lemma total_mul {A} c (f : A -> Z) l : total (fun x => c * f x) l = c * total f l.
Proof. unfold total. induction l as [|x l IH]; cbn [map foldr]; lia. Qed.

Lemma mul_bound a A b B : 0 <= a <= A -> 0 <= b <= B -> 0 <= a * b <= A * B.
Proof. intros. split; [nia|]. apply Z.mul_le_mono_nonneg; lia. Qed.

Lemma key_bytes_le n : (n <= 16)%nat -> 0 <= key_bytes n <= 160 + 160 * 16 + 288 * 16.
Proof.
  intros H. pose proof (sizes (max := 160)). unfold key_bytes, FUNC_TEXT_MAX_LEN.
  pose proof (mul_bound (@sz_ptr L) 160 (Z.of_nat n) 16 ltac:(lia) ltac:(lia)).
  pose proof (mul_bound ((@sz_key_part L) + 128) 288 (Z.of_nat n) 16 ltac:(lia) ltac:(lia)). lia.
Qed.

Lemma fk_bytes_le fk : (length (dfk_elements fk) <= 16)%nat -> 0 <= fk_bytes fk <= 160 + 320 * 16.
Proof.
  intros H. pose proof (sizes (max := 160)). unfold fk_bytes.
  pose proof (mul_bound (@sz_ptr L) 160 (Z.of_nat (length (dfk_elements fk))) 16 ltac:(lia) ltac:(lia)).
  pose proof (mul_bound (@sz_fk_element L) 160 (Z.of_nat (length (dfk_elements fk))) 16 ltac:(lia) ltac:(lia)). lia.
Qed.

(** Structures of 160 bytes at most, 64 keys and 500 foreign keys of sixteen
    columns each, and 8192 partitions and subpartitions *)
Lemma create_always_fits form t :
  Z.of_nat (length (t_fields form)) <= REC_MAX_N_USER_FIELDS ->
  (length (dt_indexes t) <= 64)%nat -> Forall (fun i => (length (dix_elements i) <= 16)%nat) (dt_indexes t) ->
  (length (dt_foreign_keys t) <= 500)%nat -> Forall (fun fk => (length (dfk_elements fk) <= 16)%nat) (dt_foreign_keys t) ->
  leaves (dt_partitions t) <= 8192 ->
  create_bytes form (Some t) < CTC_DDL_PROTOBUF_MEM_SIZE.
Proof.
  intros Hn Hi Hp Hf He Hl. pose proof (sizes (max := 160)) as Hsz. unfold create_bytes, CTC_DDL_PROTOBUF_MEM_SIZE.
  assert (forall A (l : list A) n, 0 <= n -> when l n <= n) as Hw by (intros A l n H; unfold when; destruct (_ <? _)%nat; lia).
  pose proof (bytes_nonneg (max := 160) form t) as (Hb1 & _ & Hb2 & Hb3 & Hb4).
  pose proof (Hw _ (t_fields form) _ Hb1). pose proof (Hw _ (dt_indexes t) _ Hb2).
  pose proof (Hw _ (dt_foreign_keys t) _ Hb3). pose proof (Hw _ (dt_partitions t) _ Hb4).
  assert (columns_bytes (length (t_fields form)) <= 480 * 1017).
  { unfold columns_bytes, column_bytes, REC_MAX_N_USER_FIELDS in *.
    pose proof (mul_bound (@sz_ptr L) 160 (Z.of_nat (length (t_fields form))) 1017 ltac:(lia) ltac:(lia)).
    pose proof (mul_bound ((@sz_column L) + (@sz_data_type L)) 320 (Z.of_nat (length (t_fields form))) 1017 ltac:(lia) ltac:(lia)). lia. }
  assert (indexes_bytes (dt_indexes t) <= 64 * (160 + (160 + 160 * 16 + 288 * 16))).
  { unfold indexes_bytes. assert (total (fun i => key_bytes (length (dix_elements i))) (dt_indexes t)
      <= (160 + 160 * 16 + 288 * 16) * Z.of_nat (length (dt_indexes t))).
    { apply req_total_le. intros x Hx. rewrite Forall_forall in Hp. apply key_bytes_le, Hp. by apply list_elem_of_In. }
    pose proof (mul_bound (@sz_ptr L) 160 (Z.of_nat (length (dt_indexes t))) 64 ltac:(lia) ltac:(lia)). lia. }
  assert (fks_bytes (dt_foreign_keys t) <= 500 * (160 + (160 + 320 * 16))).
  { unfold fks_bytes. assert (total fk_bytes (dt_foreign_keys t) <= (160 + 320 * 16) * Z.of_nat (length (dt_foreign_keys t))).
    { apply req_total_le. intros x Hx. rewrite Forall_forall in He. apply fk_bytes_le, He. by apply list_elem_of_In. }
    pose proof (mul_bound (@sz_ptr L) 160 (Z.of_nat (length (dt_foreign_keys t))) 500 ltac:(lia) ltac:(lia)). lia. }
  assert (partitions_bytes (dt_partitions t) <= 160 + 320 * 8192).
  { unfold partitions_bytes, leaves in *. rewrite total_add, req_total_const.
    unfold subparts_bytes. rewrite (total_mul (sz_ptr + sz_part_table) (fun pt => Z.of_nat (length pt.2))).
    assert (0 <= total (fun pt : text * list text => Z.of_nat (length pt.2)) (dt_partitions t)) as Htot by (apply total_nonneg; lia).
    set (x := total _ _) in *. set (y := Z.of_nat (length (dt_partitions t))) in *.
    assert (0 <= (sz_ptr + sz_part_table) * (y + x) <= 320 * 8192) by (apply mul_bound; lia). lia. }
  lia.
Qed.

End Fits.

(** ** Names and codes *)

(** 0, or -1 with an error *)
Definition check_ctc_identifier_name (in_name : option text) : Z :=
  match in_name with
  | None => 0
  | Some s => if CTC_IDENTIFIER_MAX_LEN <? Z.of_nat (length s) then -1 else 0
  end.

Definition CTC_KEYTYPE_PRIMARY : Z := 0.
Definition CTC_KEYTYPE_UNIQUE : Z := 1.
Definition CTC_KEYTYPE_MULTIPLE : Z := 2.
Definition CTC_KEYTYPE_FOREIGN : Z := 5.
Definition CTC_HA_KEY_ALG_BTREE : Z := 1.

(** [None]: [false] *)
Definition get_ctc_key_type (k : key_info) : option Z :=
  if ki_spatial k then None
  else if ki_nosame k then Some (if strcasecmp_0 (ki_name k) (txt "PRIMARY") then CTC_KEYTYPE_PRIMARY else CTC_KEYTYPE_UNIQUE)
  else if ki_fulltext k then None
  else if ki_generated k then Some CTC_KEYTYPE_FOREIGN else Some CTC_KEYTYPE_MULTIPLE.

Definition get_ctc_key_algorithm (algorithm : key_algorithm) : option Z :=
  match algorithm with
  | Alg_rtree | Alg_hash | Alg_btree => Some CTC_HA_KEY_ALG_BTREE
  | Alg_se_specific | Alg_fulltext => None
  end.

Definition ctc_ddl_get_create_key_type (t : index_type) : option Z :=
  match t with
  | It_primary => Some CTC_KEYTYPE_PRIMARY | It_unique => Some CTC_KEYTYPE_UNIQUE | It_multiple => Some CTC_KEYTYPE_MULTIPLE
  | It_fulltext | It_spatial => None
  end.

Definition ctc_ddl_get_create_key_algorithm (algorithm : key_algorithm) : option Z :=
  match algorithm with
  | Alg_rtree | Alg_hash | Alg_btree => Some CTC_HA_KEY_ALG_BTREE
  | Alg_se_specific | Alg_fulltext => None
  end.

Definition ctc_ddl_get_foreign_key_rule (rule : fk_rule) : Z :=
  match rule with
  | Rule_undef | Rule_no_action | Rule_restrict | Rule_default => 0
  | Rule_cascade => 1
  | Rule_set_null => 2
  end.

(** ** Columns *)

Section Columns.
Context {X : Type}.
Variables is_functional is_virtual_gcol : X -> bool.
Variable describe : X -> column_def -> E unit column_def.
Variable err : Z.

(** The loops over the columns of [fill_create_table_req_columns_info] and
    [fill_ctc_alter_create_list]: the two positions, the number of columns of
    the request, which shrinks, the virtual columns and the array *)
Fixpoint columns_loop (fuel : nat) (xs : list X) (ctc_idx mysql_idx n_columns virtual_cols : nat) (columns : list column_def)
    : E Z (nat * nat * list column_def) :=
  if (ctc_idx <? n_columns)%nat then
    match fuel with
    | O => undefined
    | S fuel =>
      x ← deref (xs !! mysql_idx);
      if is_functional x then columns_loop fuel xs ctc_idx (S mysql_idx) (n_columns - 1) virtual_cols columns else
      c ← deref (columns !! ctc_idx);
      c ← call (fun _ => returns err) (describe x c);
      columns_loop fuel xs (S ctc_idx) (S mysql_idx) n_columns (if is_virtual_gcol x then S virtual_cols else virtual_cols)
        (<[ctc_idx := c]> columns)
    end
  else give (n_columns, virtual_cols, columns).

(** The loop and the check after it; also whether a column is virtual *)
Definition fill_columns (xs : list X) (n : nat) (columns : list column_def) : E Z (nat * list column_def * bool) :=
  '(n, virtual_cols, columns) ← columns_loop n xs 0 0 n 0 columns;
  if (n =? virtual_cols)%nat then returns HA_ERR_WRONG_COMMAND
  else give (n, columns, (0 <? virtual_cols)%nat).

End Columns.

Section Create.
Context {M : MySQL} {DS : DdlServer} {L : Layout}.
Variable parallelism : Z.

(** The columns with what [ctc_get_create_field_by_column_name] and
    [get_sql_field_charset] find for them *)
Variable field_charset : table_column -> option Z.

Definition CTC_ALTER_COLUMN_ALTER_MODE_NONE : Z := -1.
Definition CTC_ALTER_COLUMN_ALTER_ADD_COLUMN : Z := 1.
Definition CTC_ALTER_COLUMN_ALTER_MODIFY_COLUMN : Z := 2.

Definition fill_create_table_req_columns_info (form : table) (r : create_req) : E Z (create_req * bool) :=
  '(n, columns, virtual) ← fill_columns (fun f => c_functional (tc_column f)) (fun f => f_virtual (tc_field f))
    (fun field c => ctc_ddl_fill_column_by_field c field (t_keynames form) None CTC_ALTER_COLUMN_ALTER_ADD_COLUMN
                      (field_charset field))
    HA_ERR_WRONG_COMMAND (t_fields form) (r_n_columns r) (r_columns r);
  give (mk_create_req n columns (r_fk_list r) (r_key_list r) (r_partition_def r), virtual).

(** ** Foreign keys *)

(** [return code] where the code is not zero *)
Definition return_if_not_zero (code : Z) : E Z unit := if code =? 0 then give tt else returns code.

(** The elements of an array with their positions *)
Definition each_i {R A B} (l : list A) (f : nat -> A -> E R B) : E R (list B) := each (imap pair l) (fun x => f x.1 x.2).

Definition fill_fk_create (t : dd_table) (i : nat) (d : fk_def) : E Z fk_def :=
  fk ← deref (dt_foreign_keys t !! i);
  _ ← return_if_not_zero (check_ctc_identifier_name (Some (dfk_name fk)));
  schema ← new_text HA_ERR_OUT_OF_MEM (dfk_ref_schema fk);
  elements ← each_i (fk_elements d) (fun j _ => e ← deref (dfk_elements fk !! j); give (Some e));
  give (mk_fk_def (Some (dfk_name fk)) (ctc_ddl_get_foreign_key_rule (dfk_delete fk))
          (ctc_ddl_get_foreign_key_rule (dfk_update fk)) (Some schema) (Some (dfk_ref_table fk)) elements).

Definition ctc_ddl_create_table_fill_foreign_key_info (table_def : option dd_table) (r : create_req) : E Z create_req :=
  if (length (r_fk_list r) =? 0)%nat then give r else
  fks ← each_i (r_fk_list r) (fun i d => t ← deref table_def; fill_fk_create t i d);
  give (mk_create_req (r_n_columns r) (r_columns r) fks (r_key_list r) (r_partition_def r)).

(** ** Keys *)

Fixpoint fill_parts (fill : nat -> key_flags -> key_part -> E unit (key_flags * key_part)) (j : nat) (flags : key_flags)
    (parts : list key_part) : E unit (key_flags * list key_part) :=
  match parts with
  | [] => give (flags, [])
  | k :: parts =>
    '(flags, k) ← fill j flags k;
    '(flags, parts) ← fill_parts fill (S j) flags parts;
    give (flags, k :: parts)
  end.

(** The functions that fill the keys return [bool]: [inl tt] is [false].  A
    code that is not zero is [true]: then ([inl] of the inner result) the key
    is as far as it was filled, and the rest of the array is left alone. *)
Fixpoint fill_keys (fill : nat -> key_def -> E unit (key_def + key_def)) (i : nat) (keys : list key_def)
    : E unit (list key_def) :=
  match keys with
  | [] => give []
  | k :: keys =>
    r ← fill i k;
    match r with
    | inl k => give (k :: keys)
    | inr k => keys ← fill_keys fill (S i) keys; give (k :: keys)
    end
  end.

Definition set_owner (o : Z * text) (k : key_def) : key_def :=
  mk_key_def (Some o) (k_name k) (k_key_type k) (k_algorithm k) (k_is_constraint k) (k_is_dsc k) (k_is_func k)
    (k_parallelism k) (k_columns k).

(** [initialize_ddl_table_key_req_key_def]: the code and the key *)
Definition initialize_ddl_table_key_req_key_def (k : key_def) (user : Z) (table name : text) : Z * key_def :=
  let k := set_owner (user, table) k in
  let ret := check_ctc_identifier_name (Some name) in
  if negb (ret =? 0) then (ret, k)
  else (0, mk_key_def (k_owner k) (Some name) (k_key_type k) (k_algorithm k) (k_is_constraint k) (k_is_dsc k) (k_is_func k)
             (k_parallelism k) (k_columns k)).

Definition or_false {A} (o : option A) : E unit A := match o with Some x => give x | None => returns tt end.

Definition fill_key_null (form : table) (user : Z) (name : text) (i : nat) (k : key_def) : E unit (key_def + key_def) :=
  key ← deref (t_key_info form !! i);
  if ki_key_length key =? 0 then give (inl k) else
  let '(ret, k) := initialize_ddl_table_key_req_key_def k user name (ki_name key) in
  if negb (ret =? 0) then give (inl k) else
  key_type ← or_false (get_ctc_key_type key);
  algorithm ← or_false (get_ctc_key_algorithm (ki_algorithm key));
  '(flags, parts) ← fill_parts (fun j flags part =>
      p ← deref (ki_parts key !! j);
      ctc_ddl_create_table_fill_add_key_table_def_null_fill_key_part is_numeric_type (t_columns form) p flags part)
    0 (k_is_dsc k, k_is_func k) (k_columns k);
  give (inr (mk_key_def (k_owner k) (k_name k) key_type algorithm
    (k_is_constraint k || (key_type =? CTC_KEYTYPE_PRIMARY) || (key_type =? CTC_KEYTYPE_UNIQUE)) flags.1 flags.2 parallelism parts)).

Definition fill_key_not_null (form : table) (t : dd_table) (user : Z) (name : text) (i : nat) (k : key_def)
    : E unit (key_def + key_def) :=
  idx ← deref (dt_indexes t !! i);
  let '(ret, k) := initialize_ddl_table_key_req_key_def k user name (dix_name idx) in
  if negb (ret =? 0) then give (inl k) else
  key_type ← or_false (ctc_ddl_get_create_key_type (dix_type idx));
  algorithm ← or_false (ctc_ddl_get_create_key_algorithm (dix_algorithm idx));
  '(flags, parts) ← fill_parts (fun j flags part =>
      p ← deref (dix_elements idx !! j);
      ctc_ddl_create_table_fill_add_key_table_def_not_null_fill_key_part is_numeric_type (t_columns form) p flags part)
    0 (k_is_dsc k, k_is_func k) (k_columns k);
  give (inr (mk_key_def (k_owner k) (k_name k) key_type algorithm (k_is_constraint k) flags.1 flags.2 parallelism parts)).

Definition ctc_ddl_create_table_fill_add_key_table_def_null form user name keys :=
  fill_keys (fill_key_null form user name) 0 keys.
Definition ctc_ddl_create_table_fill_add_key_table_def_not_null form t user name keys :=
  fill_keys (fill_key_not_null form t user name) 0 keys.

Definition ctc_ddl_create_table_fill_add_key (form : table) (table_def : option dd_table) (user : Z) (name : text)
    (r : create_req) : E unit create_req :=
  if (length (r_key_list r) =? 0)%nat then give r else
  keys ← match table_def with
         | None => ctc_ddl_create_table_fill_add_key_table_def_null form user name (r_key_list r)
         | Some t => ctc_ddl_create_table_fill_add_key_table_def_not_null form t user name (r_key_list r)
         end;
  give (mk_create_req (r_n_columns r) (r_columns r) (r_fk_list r) keys (r_partition_def r)).

(** ** The request of [CREATE TABLE] *)

Record create_info := mk_create_info {
  ci_tablespace : option text; ci_auto_increment_value : Z; ci_if_not_exists : bool; ci_tmp_table : bool }.

(** What is used of the session; [q_tables] is [thd->lex->query_tables], its
    database and name. *)
Record query := mk_query {
  q_tables : option (text * text); q_no_foreign_key_checks : bool; q_field_list_is_empty : bool;
  q_sql : text; q_db_name : text }.

Definition CTC_CREATE_IF_NOT_EXISTS : Z := 1.
Definition CTC_CREATE_TYPE_NO_CHECK_CONS : Z := 8.

Record base_info := mk_base_info {
  b_schema : Z; b_alter_db_name : Z; b_name : text; b_space : option text; b_alter_table_name : text;
  b_auto_increment_value : Z; b_options : Z; b_db_name : text; b_is_create_as_select : bool }.

(** [ctc_copy_name]: [strncpy] fills with zeros. *)
Definition copied (n : nat) (from_name : text) : text :=
  let s := take (n - 1) (c_str from_name) in s ++ replicate (n - length s) (chr 0).
Definition ctc_copy_name (to_name : Z) (from_name : text) (to_buf_len : nat) : E Z unit :=
  store to_name (copied to_buf_len from_name).

Definition fill_create_table_req_base_info (ci : create_info) (db_name table_name : text) (q : query) (is_alter_copy : bool)
    : E Z base_info :=
  schema ← need HA_ERR_OUT_OF_MEM SMALL_RECORD_SIZE;
  alter_db_name ← need HA_ERR_OUT_OF_MEM SMALL_RECORD_SIZE;
  _ ← ctc_copy_name schema db_name 128;
  _ ← ctc_copy_name alter_db_name match q_tables q with Some t => t.1 | None => db_name end 128;
  _ ← return_if_not_zero (check_ctc_identifier_name (ci_tablespace ci));
  let space := match ci_tablespace ci with
               | Some s => if bool_decide (take 127 (c_str db_name) = s) then None else Some s
               | None => None
               end in
  alter_table_name ← (if is_alter_copy then t ← deref (q_tables q); give t.2 else give table_name);
  give (mk_base_info schema alter_db_name table_name space alter_table_name (ci_auto_increment_value ci)
    (Z.lor (if ci_if_not_exists ci then CTC_CREATE_IF_NOT_EXISTS else 0)
           (if q_no_foreign_key_checks q then CTC_CREATE_TYPE_NO_CHECK_CONS else 0))
    (q_db_name q) (negb (q_field_list_is_empty q))).

Definition create_message : Type := base_info * create_req * option text.

(** [get_packed_size] of the generated code, the size of [ddl_ctrl_t] and
    what [my_malloc] does *)
Variable packed_size : create_message -> Z.
Variable sizeof_ddl_ctrl : Z.
Variable malloc_works : bool.

(** The buffer for the packed message *)
Definition message_buffer (size : Z) : E Z unit :=
  s ← deref (set_mem_size malloc_works size (mk_stack_mem Stack_obj 0 0 []));
  if get_buf s is Some _ then give tt else returns HA_ERR_OUT_OF_MEM.

(** The message and whether the table has virtual columns *)
Definition fill_create_table_req (ci : create_info) (table_def : option dd_table) (db_name table_name : text) (form : table)
    (q : query) (is_alter_copy : bool) : E Z (create_message * bool) :=
  r ← ctc_ddl_init_create_table_def parallelism form table_def;
  let sql_str := if ci_tmp_table ci then None else Some (q_sql q) in
  base ← fill_create_table_req_base_info ci db_name table_name q is_alter_copy;
  '(r, virtual) ← fill_create_table_req_columns_info form r;
  r ← ctc_ddl_create_table_fill_foreign_key_info table_def r;
  r ← call (fun _ => returns HA_ERR_WRONG_COMMAND)
        (ctc_ddl_create_table_fill_add_key form table_def (b_schema base) table_name r);
  let m := (base, r, sql_str) in
  _ ← message_buffer (packed_size m + sizeof_ddl_ctrl);
  give (m, virtual).

End Create.

(** ** The columns that are sent *)

Section ColumnsSent.
Context {X : Type}.
Variables is_functional is_virtual_gcol : X -> bool.
Variable describe : X -> column_def -> E unit column_def.
Variable err : Z.

(** The columns that the engine gets, in order *)
Definition sent (xs : list X) : list X := List.filter (fun x => negb (is_functional x)) xs.
Definition virtuals (xs : list X) : nat := length (List.filter is_virtual_gcol (sent xs)).
Definition describe_sent (xs : list X) : E Z (list column_def) :=
  each (sent xs) (fun x => call (fun _ => returns err) (describe x init_column_def)).

Abbreviation loop := (columns_loop is_functional is_virtual_gcol describe err).

Lemma columns_loop_end fuel xs i j v cs a : loop fuel xs i j i v cs a = Some (inr (i, v, cs), a).
Proof. destruct fuel; cbn [columns_loop]; by rewrite Nat.ltb_irrefl. Qed.

Lemma columns_loop_spec rest : forall pre fuel dn m v a,
  (length rest <= fuel)%nat -> (length rest <= m)%nat ->
  loop fuel (pre ++ rest) (length dn) (length pre) (length dn + length rest) v (dn ++ replicate m init_column_def) a
  = (ys ← describe_sent rest;
     give ((length dn + length ys)%nat, (v + virtuals rest)%nat,
           dn ++ ys ++ replicate (m - length ys) init_column_def)) a.
Proof.
  induction rest as [|x rest IH]; intros pre fuel dn m v a Hf Hm.
  - cbn [length]. rewrite Nat.add_0_r, columns_loop_end. cbn. rewrite !Nat.add_0_r, give_step. cbn [length app]. by rewrite Nat.add_0_r, Nat.sub_0_r.
  - destruct fuel as [|fuel]; [cbn in Hf; lia|]. cbn [columns_loop length].
    rewrite (proj2 (Nat.ltb_lt _ _)) by lia. rewrite list_lookup_middle by done. rewrite req_deref_step.
    unfold describe_sent, virtuals, sent. cbn [List.filter]. destruct (is_functional x) eqn:Hx; cbn [negb].
    + replace (length dn + S (length rest) - 1)%nat with (length dn + length rest)%nat by lia.
      pose proof (IH (pre ++ [x]) fuel dn m v a ltac:(cbn in *; lia) ltac:(cbn in *; lia)) as H.
      rewrite length_app, <- app_assoc in H. cbn [app length] in H. rewrite Nat.add_1_r in H. exact H.
    + destruct m as [|m]; [cbn in Hm; lia|]. cbn [replicate]. rewrite list_lookup_middle by done. rewrite req_deref_step. cbn [each].
      rewrite bind_assoc. destruct (call (fun _ => returns err) (describe x init_column_def) a) as [[[r|c] a1]|] eqn:E.
      * by rewrite !(bind_ret _ _ _ _ _ E).
      * rewrite !(bind_val _ _ _ _ _ E), bind_assoc. rewrite insert_app_r_alt, Nat.sub_diag by done. cbn [list_insert insert].
        specialize (IH (pre ++ [x]) fuel (dn ++ [c]) m (if is_virtual_gcol x then S v else v) a1).
        rewrite !length_app in IH. cbn [length] in IH. rewrite !Nat.add_1_r, <- !app_assoc in IH. cbn [app] in IH.
        replace (length dn + S (length rest))%nat with (S (length dn) + length rest)%nat by lia.
        rewrite IH by (cbn in *; lia). unfold describe_sent, virtuals, sent. apply bind_ext. intros ys a2.
        rewrite give_step. unfold give, mret, E_ret. rewrite <- app_assoc. cbn [length app].
        replace (S m - S (length ys))%nat with (m - length ys)%nat by lia.
        replace (S (length dn) + length ys)%nat with (length dn + S (length ys))%nat by lia.
        cbn [List.filter]. destruct (is_virtual_gcol x); cbn [length]; [by rewrite Nat.add_succ_comm|done].
      * by rewrite !(bind_none _ _ _ E).
Qed.

(** The loop describes the columns that are not for functional indexes, in
    the order of the table, wherever those are; it ends, and refuses a table
    whose columns are all virtual, or that has none. *)
Lemma fill_columns_spec xs a :
  fill_columns is_functional is_virtual_gcol describe err xs (length xs) (replicate (length xs) init_column_def) a
  = (ys ← describe_sent xs;
     if (length ys =? virtuals xs)%nat then returns HA_ERR_WRONG_COMMAND
     else give (length ys, ys ++ replicate (length xs - length ys) init_column_def, (0 <? virtuals xs)%nat)) a.
Proof.
  unfold fill_columns. pose proof (columns_loop_spec xs [] (length xs) [] (length xs) 0 a ltac:(lia) ltac:(lia)) as H.
  cbn [length app Nat.add] in H. unfold mbind, E_bind in *. rewrite H.
  by destruct (describe_sent xs a) as [[[r|ys] a1]|].
Qed.

Lemma each_length {R A B} (l : list A) (f : A -> E R B) : forall a ys a', each l f a = Some (inr ys, a') -> length ys = length l.
Proof.
  induction l as [|x l IH]; intros a ys a' H; cbn [each] in H; [by injection H as <- _|].
  apply req_bind_inv in H as [(y & a1 & _ & H)|(e & _ & [=])]. apply req_bind_inv in H as [(z & a2 & H & H2)|(e & _ & [=])].
  injection H2 as <- _. cbn [length]. f_equal. by eapply IH.
Qed.

End ColumnsSent.

Section CreateProperties.
Context {M : MySQL} {DS : DdlServer} {L : Layout}.
Variable parallelism : Z.
Variable field_charset : table_column -> option Z.

Definition describe_field (form : table) (field : table_column) (c : column_def) : E unit column_def :=
  ctc_ddl_fill_column_by_field c field (t_keynames form) None CTC_ALTER_COLUMN_ALTER_ADD_COLUMN (field_charset field).

(** The request of a new table has the descriptions of its columns, without
    those of functional indexes, in the order of the table and nothing else
    before its number of columns; a table with virtual columns only is
    refused. *)
Theorem columns_sent form r a :
  r_n_columns r = length (t_fields form) -> r_columns r = replicate (length (t_fields form)) init_column_def ->
  let functional f := c_functional (tc_column f) in
  let virtual f := f_virtual (tc_field f) in
  fill_create_table_req_columns_info field_charset form r a
  = (ys ← describe_sent functional (describe_field form) HA_ERR_WRONG_COMMAND (t_fields form);
     if (length ys =? virtuals functional virtual (t_fields form))%nat then returns HA_ERR_WRONG_COMMAND
     else give (mk_create_req (length ys) (ys ++ replicate (length (t_fields form) - length ys) init_column_def)
                  (r_fk_list r) (r_key_list r) (r_partition_def r),
                (0 <? virtuals functional virtual (t_fields form))%nat)) a.
Proof.
  intros Hn Hc functional virtual. unfold fill_create_table_req_columns_info. rewrite Hn, Hc.
  pose proof (fill_columns_spec functional virtual (describe_field form) HA_ERR_WRONG_COMMAND (t_fields form) a) as H.
  unfold describe_field in *. unfold mbind at 1, E_bind at 1. unfold functional, virtual in *. rewrite H.
  unfold mbind, E_bind. destruct (describe_sent _ _ _ _ a) as [[[e|ys] a1]|]; [done| |done].
  by destruct (_ =? _)%nat.
Qed.

(** The texts of all columns are there when the last one is described. *)
Lemma each_texts {A B} (l : list A) (f : A -> E Z B) : (forall x, frames (f x)) -> forall a ys a',
  each l f a = Some (inr ys, a') ->
  Forall2 (fun x y => exists a1 a2, f x a1 = Some (inr y, a2) /\ forall p s, holds a2 p s -> holds a' p s) l ys.
Proof.
  intros Hf. induction l as [|x l IH]; intros a ys a' H; cbn [each] in H.
  - injection H as <- _. constructor.
  - apply req_bind_inv in H as [(y & a1 & H1 & H)|(e & _ & [=])]. apply req_bind_inv in H as [(zs & a2 & H2 & H)|(e & _ & [=])].
    injection H as <- <-. constructor; [|by eapply IH]. exists a, a1. split; [done|]. intros p s Hh.
    eapply holds_frames; [|exact H2|exact Hh]. by apply frames_each.
Qed.

Lemma frames_call {R R' A} (m : E R' A) (r : R) : frames m -> frames (call (fun _ => returns (A := A) r) m).
Proof.
  intros Hm a x a'. unfold call. destruct (m a) as [[[e|y] a1]|] eqn:E; [|intros [= <- <-]; by eapply Hm|done].
  intros [= <- <-]. by eapply Hm.
Qed.

(** When the columns of a new table are described, each one of the request is
    what describing its column gave, and its default text still reads as it
    did then. *)
Theorem column_texts_sent form functional a ys a' :
  describe_sent functional (describe_field form) HA_ERR_WRONG_COMMAND (t_fields form) a = Some (inr ys, a') ->
  Forall2 (fun field c => exists a1 a2, describe_field form field init_column_def a1 = Some (inr c, a2) /\
      forall p s, holds a2 p s -> holds a' p s) (sent functional (t_fields form)) ys.
Proof.
  intros H. unfold describe_sent in H. apply each_texts in H.
  - eapply Forall2_impl; [|exact H]. intros field c (a1 & a2 & H1 & H2). exists a1, a2. split; [|done].
    unfold call, returns in H1. revert H1.
    destruct (describe_field form field init_column_def a1) as [[[e|y] a3]|]; congruence.
  - intros x. apply frames_call, fill_column_frames.
Qed.

(** ** Keys *)

(** C37: a name of more than 64 bytes raises an error, but the function that should
    stop returns the code of the error, which means success: the key stays
    without a name, a type and columns, as do all keys after it, and the table
    is created. *)
Theorem long_key_name_accepted form t idx idxs user name r k ks a :
  dt_indexes t = idx :: idxs -> r_key_list r = k :: ks -> CTC_IDENTIFIER_MAX_LEN < Z.of_nat (length (dix_name idx)) ->
  ctc_ddl_create_table_fill_add_key parallelism form (Some t) user name r a
  = Some (inr (mk_create_req (r_n_columns r) (r_columns r) (r_fk_list r) (set_owner (user, name) k :: ks)
                 (r_partition_def r)), a).
Proof.
  intros Hi Hk Hl. unfold ctc_ddl_create_table_fill_add_key. rewrite Hk. cbn [length Nat.eqb].
  unfold ctc_ddl_create_table_fill_add_key_table_def_not_null. cbn [fill_keys].
  assert (fill_key_not_null parallelism form t user name 0 k a = Some (inr (inl (set_owner (user, name) k)), a)) as H.
  { unfold fill_key_not_null. rewrite Hi. cbn [lookup list_lookup]. rewrite req_deref_step.
    unfold initialize_ddl_table_key_req_key_def, check_ctc_identifier_name. by rewrite (proj2 (Z.ltb_lt _ _)). }
  by rewrite bind_assoc, (bind_val _ _ _ _ _ H).
Qed.

End CreateProperties.

(** ** Concrete tables *)

Definition small_layout : Layout := {|
  sz_ptr := 8; sz_column := 128; sz_data_type := 48; sz_key := 104; sz_key_part := 72; sz_foreign_key := 88; sz_fk_element := 40;
  sz_partition_def := 48; sz_part_table := 48; sz_drop := 48; sz_alter_column := 64; sz_drop_key := 48; sz_alter_index := 64;
  sz_table_prop := 64; HA_ERR_TOO_MANY_FIELDS := 185 |}.

#[local] Instance small_layout_ok : LayoutOk small_layout 160.
Proof. split; repeat constructor; cbn; lia. Qed.

Definition one_column : table := mk_table [int_column] [].
Definition no_dd : dd_table := mk_dd_table (txt "t") [] [] PT_none ST_none [].

Lemma create_request_laid_out_witness :
  let create := ctc_ddl_init_create_table_def (L := small_layout) 0 one_column (Some no_dd) in
  create_bytes (L := small_layout) one_column (Some no_dd) < CTC_DDL_PROTOBUF_MEM_SIZE /\
  exists r a', create fresh = Some (inr r, a') /\ laid_out one_column (Some no_dd) r.
Proof.
  intros create.
  assert (create_bytes (L := small_layout) one_column (Some no_dd) < CTC_DDL_PROTOBUF_MEM_SIZE) as Hb by (vm_compute; reflexivity).
  split; [exact Hb|]. apply (create_request_laid_out (max := 160) 0 one_column (Some no_dd) _ _); [|exact Hb].
  split; [vm_compute; discriminate|left; reflexivity].
Defined.

Definition long_name : text := repeat (chr 97) 66.
Definition long_key_table : dd_table :=
  mk_dd_table (txt "t") [mk_dd_index long_name It_multiple Alg_btree []] [] PT_none ST_none [].

Lemma long_key_name_accepted_witness :
  CTC_IDENTIFIER_MAX_LEN < Z.of_nat (length long_name) /\
  option_map (fun x => match x.1 with inr r => map k_name (r_key_list r) | inl _ => [] end)
    (ctc_ddl_create_table_fill_add_key (DS := demo_ddl) 0 one_column (Some long_key_table) 0 (txt "t")
       (mk_create_req 0 [] [] [init_key [] 0] None) fresh) = Some [None].
Proof.
  assert (CTC_IDENTIFIER_MAX_LEN < Z.of_nat (length long_name)) as Hl by (vm_compute; reflexivity).
  split; [exact Hl|].
  rewrite (long_key_name_accepted (DS := demo_ddl) 0 one_column long_key_table (mk_dd_index long_name It_multiple Alg_btree []) []
    0 (txt "t") (mk_create_req 0 [] [] [init_key [] 0] None) (init_key [] 0) [] fresh eq_refl eq_refl Hl). reflexivity.
Defined.

Lemma columns_sent_witness :
  option_map (fun x => match x.1 with inr (r, v) => Some (r_n_columns r, map cd_name (r_columns r), v) | inl _ => None end)
    (fill_create_table_req_columns_info (M := Demo.Demo.demo) (DS := demo_ddl) (fun _ => None)
       (mk_table [int_column] []) (mk_create_req 1 [init_column_def] [] [] None) fresh)
  = Some (Some (1%nat, [txt "n"], false)).
Proof.
  rewrite (columns_sent (M := Demo.Demo.demo) (DS := demo_ddl) (fun _ => None) (mk_table [int_column] [])
             (mk_create_req 1 [init_column_def] [] [] None) fresh eq_refl eq_refl).
  vm_compute. reflexivity.
Defined.

End TableDef.
