(* ===== verification/TableAlter.v ===== *)
(** * TableAlter: the requests that change tables

    Models the rest of [ha_ctc_ddl.cc]: the request of [ALTER TABLE] with its
    lists of columns to rename, to drop and to describe, of keys, foreign keys
    and partitions ([fill_alter_table_req]); the constraints that are renamed
    with a table ([fill_rename_table_req]); the partitions to truncate; the
    names and the dispatch of [ctcbase_alter_tablespace]; and the helpers of
    [ctc_ddl_util.cc] that these use. *)

From Stdlib Require Import Ascii String.
From stdpp Require Import pretty.
From S2P Require Import Prelude FieldTypes Server SqlText ReqMem FuncIndex ColumnDef TableDef.
Import FieldTypes Server SqlText ReqMem FuncIndex ColumnDef TableDef.

Module TableAlter.

(** ** Columns to change *)

(** [Alter_column::Type] *)
Inductive change_type := Set_default | Drop_default | Rename_column | Set_column_visible | Set_column_invisible.

#[export] Instance change_type_eq_dec : EqDecision change_type.
Proof. solve_decision. Defined.

Definition ctc_ddl_get_alter_column_type_from_mysql_type (t : change_type) : Z :=
  match t with
  | Set_default => 0 | Drop_default => 1 | Rename_column => 2 | Set_column_visible => 3 | Set_column_invisible => 4
  end.

Record alter_column := mk_alter_column { ac_name : text; ac_new_name : option text; ac_type : change_type }.

(** [TcDb__CtcDDLAlterTableAlterColumn] *)
Record alter_entry := mk_alter_entry {
  ae_name : option text_ptr; ae_new_name : option text_ptr; ae_type : Z;
  ae_has_no_default : bool; ae_is_default_null : bool }.
Definition init_alter_entry : alter_entry := mk_alter_entry None None 0 false false.

Definition CTC_MAX_COLUMN_LEN : Z := 65.

(** [sprintf("TMPCOLUMN4CANTIAN_%d_%d", index, thd_id)] *)
Definition temporary_name (index thd_id : Z) : text :=
  txt "TMPCOLUMN4CANTIAN_" ++ decimal (wrapS 32 index) ++ txt "_" ++ decimal (wrapS 32 thd_id).

Definition is_rename (c : alter_column) : bool := bool_decide (ac_type c = Rename_column).
Definition rename_count (l : list alter_column) : nat := length (List.filter is_rename l).

Section AlterList.
(** [new_table_def->get_column(name)], and the number of the connection *)
Variable get_column : text -> option dd_column.
Variable thd_id : Z.

(** The entries for the columns, and behind them, from [first] on, a second
    one for each column that is renamed; [copies] is [copy_rm_num]. *)
Fixpoint alter_list_loop (cols : list alter_column) (first i copies : nat) (entries : list alter_entry)
    : E unit (list alter_entry) :=
  match cols with
  | [] => give entries
  | c :: cols =>
    e ← deref (entries !! i);
    let t := ctc_ddl_get_alter_column_type_from_mysql_type (ac_type c) in
    let new_name := Srv <$> ac_new_name c in
    if is_rename c then
      let index := (first + copies)%nat in
      p ← (p ← ctc_ddl_alloc_mem CTC_MAX_COLUMN_LEN; deref p);
      _ ← store p (temporary_name (Z.of_nat index) thd_id ++ [chr 0]);
      let entries := <[i := mk_alter_entry (Some (Srv (ac_name c))) (Some (Own p)) t (ae_has_no_default e) (ae_is_default_null e)]>
                       entries in
      e' ← deref (entries !! index);
      alter_list_loop cols first (S i) (S copies)
        (<[index := mk_alter_entry (Some (Own p)) new_name t (ae_has_no_default e') (ae_is_default_null e')]> entries)
    else
      new_col ← deref (get_column (ac_name c));
      alter_list_loop cols first (S i) copies
        (<[i := mk_alter_entry (Some (Srv (ac_name c))) new_name t (dc_has_no_default new_col) (dc_is_default_value_null new_col)]>
           entries)
  end.

Definition fill_alter_list_4alter_table (cols : list alter_column) (entries : list alter_entry) : E unit (list alter_entry) :=
  alter_list_loop cols (length cols) 0 0 entries.

End AlterList.

(** ** What a list of renamed columns does

    The engine renames one column after the other: the old name must be that
    of a column and the new one must not. *)

Definition rename_one (cols : list text) (r : text * text) : option (list text) :=
  if bool_decide (r.1 ∈ cols) && negb (bool_decide (r.2 ∈ cols))
  then Some (map (fun c => if bool_decide (c = r.1) then r.2 else c) cols) else None.

Fixpoint rename_all (rs : list (text * text)) (cols : list text) : option (list text) :=
  match rs with [] => Some cols | r :: rs => cols ← rename_one cols r; rename_all rs cols end.

(** All at once *)
Fixpoint new_name_of (rs : list (text * text)) (c : text) : text :=
  match rs with [] => c | r :: rs => if bool_decide (c = r.1) then r.2 else new_name_of rs c end.

Lemma new_name_other rs c : c ∉ rs.*1 -> new_name_of rs c = c.
Proof.
  induction rs as [|[x y] rs IH]; cbn [new_name_of fmap list_fmap fst snd]; [done|].
  intros H. apply not_elem_of_cons in H as [Hne H]. rewrite bool_decide_false by done. by apply IH.
Qed.

Lemma NoDup_map_inj {A B} (f : A -> B) l x y : NoDup (map f l) -> x ∈ l -> y ∈ l -> f x = f y -> x = y.
Proof.
  induction l as [|z l IH]; [by intros _ Hx%elem_of_nil|]. cbn [map]. rewrite list.NoDup_cons. intros [Hz Hl].
  rewrite !elem_of_cons. intros [-> | Hx] [-> | Hy] He; [done|..|by apply IH].
  - destruct Hz. rewrite He. by apply (list_elem_of_fmap_2 f).
  - destruct Hz. rewrite <- He. by apply (list_elem_of_fmap_2 f).
Qed.

Lemma NoDup_map_1 {A B} (f : A -> B) l : NoDup (map f l) -> NoDup l.
Proof. apply (NoDup_fmap_1 f). Qed.

(** One after the other is all at once when no new name is an old one. *)
Lemma rename_all_spec rs : forall cols,
  NoDup rs.*1 -> (forall x, x ∈ rs.*1 -> x ∈ cols) -> (forall x, x ∈ rs.*2 -> x ∉ rs.*1) ->
  NoDup (map (new_name_of rs) cols) -> rename_all rs cols = Some (map (new_name_of rs) cols).
Proof.
  induction rs as [|[x y] rs IH]; intros cols Hnd Hin Hdis Hfin; cbn [rename_all].
  - cbn [new_name_of]. by rewrite map_id.
  - cbn [fmap list_fmap fst snd] in *. apply list.NoDup_cons in Hnd as [Hx Hnd].
    assert (x ∈ cols) as Hxc by (apply Hin; left).
    assert (x <> y) as Hxy. { intros ->. apply (Hdis y); by left. }
    assert (y ∉ rs.*1) as Hy1. { intros H. apply (Hdis y); [left|by right]. }
    assert (y ∉ cols) as Hyc.
    { intros Hyc. destruct Hxy. apply (NoDup_map_inj _ _ _ _ Hfin Hxc Hyc). cbn [new_name_of fst snd].
      rewrite bool_decide_true by done. rewrite bool_decide_false by (intros ->; by destruct (Hdis x); left).
      by rewrite new_name_other. }
    unfold rename_one. cbn [fst snd]. rewrite bool_decide_true by done. rewrite bool_decide_false by done.
    cbn [negb andb mbind option_bind].
    assert (map (new_name_of ((x, y) :: rs)) cols
            = map (new_name_of rs) (map (fun c => if bool_decide (c = x) then y else c) cols)) as Heq.
    { rewrite map_map. apply map_ext. intros c. cbn [new_name_of fst snd]. destruct (bool_decide (c = x)) eqn:E; [|done].
      by rewrite new_name_other. }
    rewrite Heq in *. apply IH; [done| | |done].
    + intros z Hz. assert (z <> x) as Hzx by (intros ->; done). apply list_elem_of_fmap. exists z.
      rewrite bool_decide_false by done. split; [done|]. apply Hin. by right.
    + intros z Hz H1. apply (Hdis z); by right.
Qed.

Lemma rename_all_app r1 : forall r2 cols, rename_all (r1 ++ r2) cols = (rename_all r1 cols ≫= rename_all r2).
Proof.
  induction r1 as [|r r1 IH]; intros r2 cols; cbn [rename_all app]; [done|].
  destruct (rename_one cols r); [|done]. cbn [mbind option_bind]. apply IH.
Qed.

(** A name that only the second of two lists can give *)
Lemma new_name_not_in (froms : list text) : forall (tmps : list text) c t,
  t ∉ tmps -> c <> t -> new_name_of (zip froms tmps) c <> t.
Proof.
  induction froms as [|g froms IH]; intros tmps c t Ht Hc; [done|]. destruct tmps as [|u tmps]; [done|].
  cbn [zip_with new_name_of fst snd]. apply not_elem_of_cons in Ht as [Hu Ht].
  destruct (bool_decide (c = g)); [by intros ->|by apply IH].
Qed.

Lemma new_name_through (froms : list text) : forall (tmps tos : list text) c,
  length tmps = length froms -> length tos = length froms -> NoDup tmps ->
  c ∉ tmps -> (forall x, x ∈ tmps -> x ∉ tos) ->
  new_name_of (zip tmps tos) (new_name_of (zip froms tmps) c) = new_name_of (zip froms tos) c.
Proof.
  induction froms as [|f froms IH]; intros tmps tos c Hl1 Hl2 Ht Hct Hfresh.
  - destruct tmps; [|done]. by destruct tos.
  - destruct tmps as [|t tmps]; [done|]. destruct tos as [|o tos]; [done|]. cbn [zip_with new_name_of fst snd].
    apply list.NoDup_cons in Ht as [Ht1 Ht2]. apply not_elem_of_cons in Hct as [Hct1 Hct2].
    destruct (bool_decide (c = f)) eqn:E; [by rewrite bool_decide_true|].
    rewrite bool_decide_false by (by apply new_name_not_in). apply IH; [cbn in *; lia|cbn in *; lia|done..|].
    intros x Hx. assert (x ∉ o :: tos) as H by (apply Hfresh; by right). by apply not_elem_of_cons in H as [_ ?].
Qed.

(** Renaming by way of temporary names *)
Lemma rename_by_temporaries (froms tmps tos cols : list text) :
  length tmps = length froms -> length tos = length froms ->
  NoDup froms -> NoDup tmps -> (forall x, x ∈ froms -> x ∈ cols) ->
  (forall x, x ∈ tmps -> (x ∉ cols) /\ (x ∉ tos)) ->
  NoDup (map (new_name_of (zip froms tos)) cols) ->
  rename_all (zip froms tmps ++ zip tmps tos) cols = Some (map (new_name_of (zip froms tos)) cols).
Proof.
  intros Hl1 Hl2 Hf Ht Hin Hfresh Hfin. rewrite rename_all_app.
  assert (forall c, c ∈ cols -> new_name_of (zip tmps tos) (new_name_of (zip froms tmps) c) = new_name_of (zip froms tos) c) as Hcomp
    by (intros c Hc; apply new_name_through; [done..|intros H; by destruct (Hfresh c H)|intros x Hx; by destruct (Hfresh x Hx)]).
  assert (map (new_name_of (zip tmps tos)) (map (new_name_of (zip froms tmps)) cols) = map (new_name_of (zip froms tos)) cols) as Heq.
  { rewrite map_map. apply map_ext_in. intros c Hc. apply Hcomp. by apply list_elem_of_In. }
  rewrite <- Heq in Hfin. rewrite rename_all_spec.
  - cbn [mbind option_bind]. rewrite rename_all_spec; [by rewrite Heq|..].
    + by rewrite fst_zip by lia.
    + rewrite fst_zip by lia. intros x Hx. apply list_elem_of_lookup in Hx as [i Hi].
      destruct (lookup_lt_is_Some_2 froms i) as [f Hfi]; [apply lookup_lt_Some in Hi; lia|].
      apply list_elem_of_fmap. exists f. split; [|apply Hin; by eapply list_elem_of_lookup_2].
      clear -Hf Hfi Hi. revert tmps i Hfi Hi. induction froms as [|g froms IH]; intros tmps i Hfi Hi; [done|].
      destruct tmps as [|u tmps]; [done|]. apply list.NoDup_cons in Hf as [Hg Hf]. cbn [zip_with new_name_of fst snd].
      destruct i as [|i]; cbn in Hfi, Hi.
      * injection Hfi as ->. injection Hi as ->. by rewrite bool_decide_true.
      * rewrite bool_decide_false by (intros ->; destruct Hg; by eapply list_elem_of_lookup_2). by apply (IH Hf _ i).
    + rewrite snd_zip, fst_zip by lia. intros x Hx H. by destruct (Hfresh x H).
    + done.
  - by rewrite fst_zip by lia.
  - by rewrite fst_zip by lia.
  - rewrite snd_zip, fst_zip by lia. intros x Hx H. destruct (Hfresh x Hx) as [H1 _]. by apply H1, Hin.
  - by eapply NoDup_map_1.
Qed.

(** ** The list that is sent *)

(** The text of a pointer *)
Definition ptr_text (a : arena) (q : text_ptr) : text := match q with Srv s => s | Own p => text_at a p end.

Definition entry_rename (a : arena) (e : alter_entry) : option (text * text) :=
  if ae_type e =? ctc_ddl_get_alter_column_type_from_mysql_type Rename_column
  then x ← ae_name e; y ← ae_new_name e; Some (ptr_text a x, ptr_text a y) else None.
Definition renames_of (a : arena) (es : list alter_entry) : list (text * text) := omap (entry_rename a) es.

(** The renamed columns with their new names, as the statement has them *)
Definition wanted (cols : list alter_column) : list (text * text) :=
  omap (fun c => if is_rename c then (ac_name c,.) <$> ac_new_name c else None) cols.

Section AlterListSpec.
Variable get_column : text -> option dd_column.
Variable thd_id : Z.

Definition CTC_RENAME : Z := ctc_ddl_get_alter_column_type_from_mysql_type Rename_column.

Fixpoint first_entries (p : Z) (cols : list alter_column) : list alter_entry :=
  match cols with
  | [] => []
  | c :: cols =>
    if is_rename c then mk_alter_entry (Some (Srv (ac_name c))) (Some (Own p)) CTC_RENAME false false
                        :: first_entries (p + CTC_MAX_COLUMN_LEN) cols
    else mk_alter_entry (Some (Srv (ac_name c))) (Srv <$> ac_new_name c)
           (ctc_ddl_get_alter_column_type_from_mysql_type (ac_type c))
           (default false (dc_has_no_default <$> get_column (ac_name c)))
           (default false (dc_is_default_value_null <$> get_column (ac_name c))) :: first_entries p cols
  end.

Fixpoint second_entries (p : Z) (cols : list alter_column) : list alter_entry :=
  match cols with
  | [] => []
  | c :: cols =>
    if is_rename c then mk_alter_entry (Some (Own p)) (Srv <$> ac_new_name c) CTC_RENAME false false
                        :: second_entries (p + CTC_MAX_COLUMN_LEN) cols
    else second_entries p cols
  end.

Lemma rename_type c : is_rename c = true -> ctc_ddl_get_alter_column_type_from_mysql_type (ac_type c) = CTC_RENAME.
Proof. unfold is_rename. intros H%bool_decide_eq_true. by rewrite H. Qed.

Lemma rename_count_cons c cols : rename_count (c :: cols) = ((if is_rename c then 1 else 0) + rename_count cols)%nat.
Proof. unfold rename_count. cbn [List.filter]. by destruct (is_rename c). Qed.

(** What is asked of the columns that are not renamed: they exist. *)
Definition known (cols : list alter_column) : Prop :=
  Forall (fun c => is_rename c = false -> is_Some (get_column (ac_name c))) cols.

Lemma temporary_name_length i t : (length (temporary_name i t) <= 60)%nat /\ no_nul (temporary_name i t).
Proof.
  pose proof (decimal_no_nul (wrapS 32 i)) as [H1 H2].
  { pose proof (wrapS_range 32 i ltac:(lia)). lia. }
  pose proof (decimal_no_nul (wrapS 32 t)) as [H3 H4].
  { pose proof (wrapS_range 32 t ltac:(lia)). lia. }
  unfold temporary_name. rewrite !length_app. split; [cbn [length txt list_ascii_of_string]; cbn; lia|].
  unfold no_nul in *. repeat apply Forall_app_2; [|done| |done]; repeat constructor; discriminate.
Qed.
Lemma insert_middle {A} (l1 l2 : list A) x y : <[length l1 := y]> (l1 ++ x :: l2) = l1 ++ y :: l2.
Proof. by rewrite insert_app_r_alt, Nat.sub_diag by done. Qed.

Lemma inside_block (a a' : arena) n : inside a -> mem_start a' = mem_start a + n -> 0 <= n ->
  mem_start a + n < CTC_DDL_PROTOBUF_MEM_SIZE -> inside a'.
Proof. intros [H1 H2] Hs Hn Hf. unfold inside. lia. Qed.

(** The place for a temporary name *)
Lemma temporary_stored a i : inside a -> mem_start a + CTC_MAX_COLUMN_LEN < CTC_DDL_PROTOBUF_MEM_SIZE ->
  exists a', (p ← (p ← ctc_ddl_alloc_mem CTC_MAX_COLUMN_LEN; deref p);
              _ ← store p (temporary_name i thd_id ++ [chr 0]); give (R := unit) p) a = Some (inr (mem_start a), a') /\
    mem_start a' = mem_start a + CTC_MAX_COLUMN_LEN /\ holds a' (mem_start a) (temporary_name i thd_id) /\
    forall p s, holds a p s -> holds a' p s.
Proof.
  intros Ha Hfit. destruct (temporary_name_length i thd_id) as [Hl Hn].
  destruct (alloc_spec (R := unit) CTC_MAX_COLUMN_LEN a) as [(_ & H1 & Hin)|[? _]]; [done..| |lia].
  rewrite bind_assoc, (bind_val _ _ _ _ _ H1), req_deref_step. set (a1 := mk_arena _ _ _) in *.
  assert (mem_start a1 = mem_start a + CTC_MAX_COLUMN_LEN) as Hm by done. unfold CTC_MAX_COLUMN_LEN in *.
  pose proof (store_val (R := unit) (mem_start a) (temporary_name i thd_id ++ [chr 0]) a1 ltac:(apply Ha)
                ltac:(rewrite length_app; cbn [length]; lia)) as H2.
  rewrite (bind_val _ _ _ _ _ H2). eexists. split_and!; [done|done| |].
  - eapply (holds_stored (R := unit) _ _ a1); [apply Ha|lia|done|done|exact H2].
  - intros p s (Hp1 & Hp2 & Hp3 & Hp4). split_and!; [done|cbn [mem_start] in *; lia|done|].
    intros k Hk. cbn [ctc_ddl_req_mem]. rewrite (proj2 (Z.leb_gt _ _)) by lia. by apply Hp4.
Qed.

Lemma temporary_then {B} i (k : Z -> E unit B) a q a' :
  (p ← (p ← ctc_ddl_alloc_mem CTC_MAX_COLUMN_LEN; deref p);
   _ ← store p (temporary_name i thd_id ++ [chr 0]); give (R := unit) p) a = Some (inr q, a') ->
  (p ← (p ← ctc_ddl_alloc_mem CTC_MAX_COLUMN_LEN; deref p);
   _ ← store p (temporary_name i thd_id ++ [chr 0]); k p) a = k q a'.
Proof.
  intros H. rewrite <- (bind_val _ k _ _ _ H). symmetry. rewrite (bind_assoc (_ ≫= deref)). apply bind_ext. intros x a2.
  rewrite bind_assoc. by apply bind_ext.
Qed.

(** The loop: the first entries are those of the columns that are done, the
    ones behind them those of the copies. *)
Lemma alter_list_loop_spec rest : forall first dn dm a,
  inside a -> known rest ->
  first = (length dn + length rest)%nat ->
  mem_start a + CTC_MAX_COLUMN_LEN * Z.of_nat (rename_count rest) < CTC_DDL_PROTOBUF_MEM_SIZE ->
  exists a', alter_list_loop get_column thd_id rest first (length dn) (length dm)
      (dn ++ replicate (length rest) init_alter_entry ++ dm ++ replicate (rename_count rest) init_alter_entry) a
    = Some (inr (dn ++ first_entries (mem_start a) rest ++ dm ++ second_entries (mem_start a) rest), a') /\
    inside a' /\ mem_start a <= mem_start a' /\
    (forall p s, holds a p s -> holds a' p s) /\
    forall j, (j < rename_count rest)%nat ->
      holds a' (mem_start a + CTC_MAX_COLUMN_LEN * Z.of_nat j) (temporary_name (Z.of_nat (first + length dm + j)) thd_id).
Proof.
  induction rest as [|c rest IH]; intros first dn dm a Ha Hk Hfirst Hfit; cbn [length] in Hfirst.
  - exists a. cbn. rewrite !app_nil_r. split_and!; try done. intros j Hj. cbn in Hj. lia.
  - apply Forall_cons_iff in Hk as [Hc Hk]. rewrite rename_count_cons in Hfit |- *. cbn [alter_list_loop length replicate app].
    rewrite list_lookup_middle by done. rewrite req_deref_step. cbn [first_entries second_entries]. destruct (is_rename c) eqn:Hr.
    + destruct (temporary_stored a (Z.of_nat (first + length dm)) Ha ltac:(unfold CTC_MAX_COLUMN_LEN in *; lia)) as (a1 & H1 & Hs1 & Hh1 & Hf1).
      rewrite (temporary_then _ _ _ _ _ H1). cbn [replicate Nat.add]. rewrite insert_middle.
      set (e1 := mk_alter_entry (Some (Srv (ac_name c))) (Some (Own (mem_start a))) _ _ _).
      replace (dn ++ e1 :: replicate (length rest) init_alter_entry ++ dm ++ init_alter_entry :: replicate (rename_count rest) init_alter_entry)
        with ((dn ++ e1 :: replicate (length rest) init_alter_entry ++ dm) ++ init_alter_entry :: replicate (rename_count rest) init_alter_entry)
        by (by rewrite <- !app_assoc, <- app_comm_cons, <- !app_assoc).
      set (pre := dn ++ e1 :: replicate (length rest) init_alter_entry ++ dm).
      assert ((first + length dm)%nat = length pre) as Hpre.
      { unfold pre. rewrite length_app. cbn [length]. rewrite length_app, length_replicate. lia. }
      rewrite Hpre, list_lookup_middle by done. rewrite req_deref_step, insert_middle, <- Hpre. unfold pre.
      set (e2 := mk_alter_entry (Some (Own (mem_start a))) _ _ _ _).
      destruct (IH first (dn ++ [e1]) (dm ++ [e2]) a1) as (a' & Hrun & Ha' & Hm' & Hh' & Ht'); [|done|..].
      { apply (inside_block a a1 CTC_MAX_COLUMN_LEN); [done|done|unfold CTC_MAX_COLUMN_LEN in *; lia..]. }
      { rewrite length_app. cbn [length]. lia. } { unfold CTC_MAX_COLUMN_LEN in *. lia. }
      exists a'. split_and!; [|done|unfold CTC_MAX_COLUMN_LEN in *; lia|by intros p s Hp; apply Hh', Hf1|].
      * rewrite !length_app in Hrun. cbn [length] in Hrun. rewrite !Nat.add_1_r in Hrun. rewrite Hs1 in Hrun.
        rewrite <- !app_assoc in Hrun |- *. cbn [app] in Hrun |- *. rewrite <- !app_assoc in Hrun |- *.
        cbn [app] in Hrun |- *. rewrite Hrun. unfold e1, e2. rewrite rename_type by done. by rewrite <- !app_assoc.
      * intros [|j] Hj; [change (Z.of_nat 0) with 0; rewrite Z.mul_0_r, Z.add_0_r, Nat.add_0_r; by apply Hh'|].
        specialize (Ht' j ltac:(lia)). rewrite length_app in Ht'. cbn [length] in Ht'. rewrite Hs1 in Ht'.
        replace (first + length dm + S j)%nat with (first + (length dm + 1) + j)%nat by lia.
        replace (mem_start a + CTC_MAX_COLUMN_LEN * Z.of_nat (S j))
          with (mem_start a + CTC_MAX_COLUMN_LEN + CTC_MAX_COLUMN_LEN * Z.of_nat j) by lia. done.
    + cbn [Nat.add] in *. destruct (Hc eq_refl) as [col Hcol]. rewrite Hcol. rewrite req_deref_step, insert_middle.
      set (e1 := mk_alter_entry (Some (Srv (ac_name c))) _ _ _ _).
      destruct (IH first (dn ++ [e1]) dm a) as (a' & Hrun & Ha' & Hm' & Hh' & Ht'); [done|done| |done|].
      { rewrite length_app. cbn [length] in *. lia. }
      exists a'. split_and!; [|done..]. rewrite length_app in Hrun. cbn [length] in Hrun. rewrite Nat.add_1_r in Hrun.
      rewrite <- !app_assoc in Hrun. cbn [app] in Hrun. rewrite Hrun. done.
Qed.

(** What the entries rename when the places hold the texts [tmps] *)
Definition places (a : arena) (p : Z) (tmps : list text) : Prop :=
  forall j t, tmps !! j = Some t -> text_at a (p + CTC_MAX_COLUMN_LEN * Z.of_nat j) = t.

Lemma places_cons a p t tmps : places a p (t :: tmps) -> text_at a p = t /\ places a (p + CTC_MAX_COLUMN_LEN) tmps.
Proof.
  intros H. split.
  - rewrite <- (H 0%nat t eq_refl). f_equal. lia.
  - intros j u Hj. rewrite <- (H (S j) u Hj). f_equal. lia.
Qed.

Definition complete (cols : list alter_column) : Prop :=
  Forall (fun c => is_rename c = true -> is_Some (ac_new_name c)) cols.

Lemma length_wanted cols : complete cols -> length (wanted cols) = rename_count cols.
Proof.
  induction 1 as [|c cols Hc _ IH]; [done|]. rewrite rename_count_cons. unfold wanted in *. cbn [omap list_omap].
  destruct (is_rename c); [|done]. destruct (Hc eq_refl) as [n ->]. cbn. by rewrite IH.
Qed.

Lemma renames_split a cols : forall p tmps,
  complete cols -> places a p tmps -> length tmps = rename_count cols ->
  renames_of a (first_entries p cols) = zip (wanted cols).*1 tmps /\
  renames_of a (second_entries p cols) = zip tmps (wanted cols).*2.
Proof.
  unfold renames_of, wanted. induction cols as [|c cols IH]; intros p tmps Hc Hp Hl.
  - by destruct tmps.
  - apply Forall_cons_iff in Hc as [Hc Hcs]. rewrite rename_count_cons in Hl. cbn [first_entries second_entries omap list_omap].
    destruct (is_rename c) eqn:Hr.
    + destruct tmps as [|t tmps]; [done|]. apply places_cons in Hp as [Ht Hp]. destruct (Hc eq_refl) as [n Hn]. rewrite Hn.
      destruct (IH (p + CTC_MAX_COLUMN_LEN) tmps Hcs Hp ltac:(cbn in Hl; lia)) as [H1 H2].
      cbn [omap list_omap].
      change (entry_rename a (mk_alter_entry (Some (Srv (ac_name c))) (Some (Own p)) CTC_RENAME false false)) with (Some (ac_name c, text_at a p)).
      change (entry_rename a (mk_alter_entry (Some (Own p)) (Srv <$> Some n) CTC_RENAME false false)) with (Some (text_at a p, n)).
      rewrite Ht, H1, H2. by split.
    + cbn [omap list_omap].
      assert (forall x y b1 b2, entry_rename a (mk_alter_entry x y (ctc_ddl_get_alter_column_type_from_mysql_type (ac_type c)) b1 b2) = None) as ->.
      { intros x y b1 b2. unfold entry_rename, is_rename in *. apply bool_decide_eq_false in Hr. by destruct (ac_type c). }
      by apply IH.
Qed.

Lemma length_first cols : forall p, length (first_entries p cols) = length cols.
Proof. induction cols as [|c cols IH]; intros p; cbn [first_entries]; [done|]. destruct (is_rename c); cbn [length]; by rewrite IH. Qed.

Lemma length_second cols : forall p, length (second_entries p cols) = rename_count cols.
Proof.
  induction cols as [|c cols IH]; intros p; cbn [second_entries]; [done|]. rewrite rename_count_cons.
  destruct (is_rename c); cbn [length]; by rewrite IH.
Qed.

Definition temporaries (first n : nat) : list text := map (fun j => temporary_name (Z.of_nat (first + j)) thd_id) (seq 0 n).

Lemma txt_inj s t : txt s = txt t -> s = t.
Proof. unfold txt. intros H. rewrite <- (string_of_list_ascii_of_string s), H. apply string_of_list_ascii_of_string. Qed.

Lemma temporary_name_inj i j : 0 <= i < 2 ^ 31 -> 0 <= j < 2 ^ 31 -> temporary_name i thd_id = temporary_name j thd_id -> i = j.
Proof.
  intros Hi Hj H. unfold temporary_name in H. rewrite (wrapS_small 32 i), (wrapS_small 32 j) in H by lia.
  rewrite !app_assoc in H. apply app_inv_tail, app_inv_tail, app_inv_head in H. unfold decimal in H. apply txt_inj in H.
  exact (pretty_Z_inj _ _ H).
Qed.

Lemma temporaries_nodup first n : Z.of_nat first + Z.of_nat n <= 2 ^ 31 -> NoDup (temporaries first n).
Proof.
  intros Hn. unfold temporaries. apply (NoDup_fmap_2_strong (fun j => temporary_name (Z.of_nat (first + j)) thd_id)).
  - intros x y Hx%elem_of_seq Hy%elem_of_seq H. apply temporary_name_inj in H; lia.
  - apply list.NoDup_seq.
Qed.

End AlterListSpec.

(** The columns whose names could be taken for temporary ones *)
Definition reserved (c : text) : Prop := exists i t, c = temporary_name i t.

Lemma not_reserved c : hd_error c <> Some (chr 84) -> ~ reserved c.
Proof. by intros H (i & t & ->). Qed.

(** What the hypotheses are about: the columns of the table, the old and the
    new names. *)
Definition renameable (cols : list alter_column) (table_cols : list text) : Prop :=
  complete cols /\ Z.of_nat (length cols) + Z.of_nat (rename_count cols) <= 2 ^ 31 /\
  NoDup (wanted cols).*1 /\ (forall c, c ∈ (wanted cols).*1 -> c ∈ table_cols) /\
  (forall c, c ∈ table_cols ++ (wanted cols).*2 -> ~ reserved c) /\
  NoDup (map (new_name_of (wanted cols)) table_cols).

Lemma holds_text_later a a' p s : inside a -> holds a p s -> holds a' p s -> text_at a' p = s.
Proof.
  intros [Ha1 Ha2] (H1 & H2 & H3 & _) (_ & _ & _ & H4). unfold text_at. apply c_string_stored; [done|lia|done].
Qed.

(** The entries, and what they rename wherever later code leaves the texts *)
Lemma alter_list_renames get_column thd_id cols table_cols a :
  inside a -> known get_column cols -> renameable cols table_cols ->
  mem_start a + CTC_MAX_COLUMN_LEN * Z.of_nat (rename_count cols) < CTC_DDL_PROTOBUF_MEM_SIZE ->
  exists es a', fill_alter_list_4alter_table get_column thd_id cols
      (replicate (length cols + rename_count cols) init_alter_entry) a = Some (inr es, a') /\
    length es = (length cols + rename_count cols)%nat /\
    forall b, (forall p s, holds a' p s -> holds b p s) ->
      rename_all (renames_of b es) table_cols = Some (map (new_name_of (wanted cols)) table_cols).
Proof.
  intros Ha Hk (Hc & Hcount & Hnd & Hin & Hres & Hfin) Hfit.
  destruct (alter_list_loop_spec get_column thd_id cols (length cols) [] [] a Ha Hk eq_refl Hfit) as (a' & Hrun & Ha' & _ & _ & Ht).
  cbn [app length] in Hrun. rewrite <- replicate_add in Hrun. eexists _, a'. split; [exact Hrun|].
  split; [by rewrite length_app, length_first, length_second|]. intros b Hb.
  pose proof (length_wanted cols Hc) as Hlw. set (k := rename_count cols) in *. set (tmps := temporaries thd_id (length cols) k).
  assert (length tmps = k) as Hlt by (unfold tmps, temporaries; by rewrite length_map, length_seq).
  destruct (renames_split get_column b cols (mem_start a) tmps Hc) as [H1 H2]; [|done|].
  { intros j t Hj. unfold tmps, temporaries in Hj. apply list_lookup_fmap_Some in Hj as (i & Hi & Hj).
    apply lookup_seq in Hj as [-> Hj]. rewrite Hi. specialize (Ht j Hj). cbn [length] in Ht. rewrite Nat.add_0_r in Ht.
    eapply holds_text_later; [exact Ha'|exact Ht|by apply Hb]. }
  unfold renames_of in *. rewrite omap_app, H1, H2.
  rewrite rename_by_temporaries.
  - f_equal. by rewrite zip_fst_snd.
  - by rewrite Hlt, length_fmap.
  - by rewrite !length_fmap.
  - done.
  - apply temporaries_nodup. lia.
  - done.
  - intros x Hx. unfold tmps, temporaries in Hx. apply list_elem_of_fmap in Hx as (j & -> & _).
    split; intros Hx; (eapply Hres; [apply elem_of_app; by eauto|by eexists _, _]).
  - by rewrite zip_fst_snd.
Qed.

(** Columns are renamed all at once: [RENAME COLUMN a TO b, RENAME COLUMN b TO a]
    works although the engine renames one after the other.  When the old
    names are columns, the new names are different from each other and from
    the columns that stay, and no name is a temporary one, the entries of the
    request, applied in their order, give each column the name that the
    statement asks for. *)
Theorem columns_renamed_at_once get_column thd_id cols table_cols a :
  inside a -> known get_column cols -> renameable cols table_cols ->
  mem_start a + CTC_MAX_COLUMN_LEN * Z.of_nat (rename_count cols) < CTC_DDL_PROTOBUF_MEM_SIZE ->
  exists es a', fill_alter_list_4alter_table get_column thd_id cols
      (replicate (length cols + rename_count cols) init_alter_entry) a = Some (inr es, a') /\
    rename_all (renames_of a' es) table_cols = Some (map (new_name_of (wanted cols)) table_cols).
Proof.
  intros Ha Hk Hr Hfit. destruct (alter_list_renames get_column thd_id cols table_cols a Ha Hk Hr Hfit) as (es & a' & H1 & _ & H2).
  exists es, a'. split; [exact H1|by apply H2].
Qed.

(** A swap *)
Definition swap_columns : list alter_column :=
  [mk_alter_column (txt "a") (Some (txt "b")) Rename_column; mk_alter_column (txt "b") (Some (txt "a")) Rename_column].
Definition swap_table : list text := [txt "a"; txt "b"].

Lemma swap_renameable : renameable swap_columns swap_table.
Proof.
  split_and!.
  - repeat constructor; intros _; by eexists.
  - vm_compute. discriminate.
  - apply (bool_decide_unpack _). vm_compute. exact I.
  - vm_compute. set_solver.
  - intros c Hc. apply not_reserved. cbn [app] in Hc. repeat (apply elem_of_cons in Hc as [-> | Hc]; [discriminate|]).
    by apply elem_of_nil in Hc.
  - apply (bool_decide_unpack _). vm_compute. exact I.
Qed.

Lemma swap_known get_column : known get_column swap_columns.
Proof. repeat constructor; discriminate. Qed.

Lemma columns_renamed_at_once_witness :
  wanted swap_columns = [(txt "a", txt "b"); (txt "b", txt "a")] /\
  exists es a', fill_alter_list_4alter_table (fun _ => None) 7 swap_columns (replicate 4 init_alter_entry) fresh = Some (inr es, a') /\
    rename_all (renames_of a' es) swap_table = Some [txt "b"; txt "a"].
Proof.
  split; [reflexivity|].
  apply (columns_renamed_at_once (fun _ => None) 7 swap_columns swap_table fresh).
  - split; vm_compute; [discriminate|reflexivity].
  - apply swap_known.
  - apply swap_renameable.
  - vm_compute. reflexivity.
Defined.

(** ** Things to drop *)

(** [Alter_drop::drop_type] *)
Inductive drop_type := Drop_key | Drop_column | Drop_foreign_key | Drop_check_constraint | Drop_any_constraint.

Definition CTC_ALTER_TABLE_DROP_KEY : Z := 0.
Definition ctc_ddl_get_drop_type_from_mysql_type (t : drop_type) : Z :=
  match t with
  | Drop_key => CTC_ALTER_TABLE_DROP_KEY | Drop_column => 1 | Drop_foreign_key => 2 | Drop_check_constraint => 3
  | Drop_any_constraint => 4
  end.

Record alter_drop := mk_alter_drop { ad_name : text; ad_type : drop_type }.

(** [TcDb__CtcDDLAlterTableDrop] and [TcDb__CtcDDLAlterTableDropKey] *)
Record drop_entry := mk_drop_entry { de_name : option text; de_drop_type : Z; de_key_type : Z }.
Definition init_drop_entry : drop_entry := mk_drop_entry None 0 0.

Section DropList.
(** [my_strcasecmp(system_charset_info, ...) == 0], and the columns of the old
    table with [is_virtual()] *)
Variable same_name : text -> text -> bool.
Variable old_columns : list (text * bool).

Definition ctc_ddl_get_column_by_name (col_name : text) : option (text * bool) :=
  List.find (fun c => same_name c.1 col_name) old_columns.

(** The two positions, [n_drop_list] and the array *)
Fixpoint drop_loop (fuel : nat) (drops : list alter_drop) (ctc_idx mysql_idx n : nat) (l : list drop_entry)
    : E Z (nat * list drop_entry) :=
  if (ctc_idx <? n)%nat then
    match fuel with
    | O => undefined
    | S fuel =>
      e ← deref (l !! ctc_idx);
      d ← deref (drops !! mysql_idx);
      let t := ctc_ddl_get_drop_type_from_mysql_type (ad_type d) in
      let fill key_type := <[ctc_idx := mk_drop_entry (Some (ad_name d)) t key_type]> l in
      match ad_type d with
      | Drop_column =>
        col ← deref (ctc_ddl_get_column_by_name (ad_name d));
        if (col.2 : bool) then drop_loop fuel drops ctc_idx (S mysql_idx) (n - 1) (fill (de_key_type e))
        else drop_loop fuel drops (S ctc_idx) (S mysql_idx) n (fill (de_key_type e))
      | Drop_foreign_key => drop_loop fuel drops (S ctc_idx) (S mysql_idx) n (fill CTC_KEYTYPE_FOREIGN)
      | Drop_key => drop_loop fuel drops ctc_idx (S mysql_idx) (n - 1) (fill (de_key_type e))
      | _ => drop_loop fuel drops (S ctc_idx) (S mysql_idx) n (fill (de_key_type e))
      end
    end
  else give (n, l).

Definition fill_ctc_alter_drop_list (drops : list alter_drop) (l : list drop_entry) : E Z (nat * list drop_entry) :=
  drop_loop (length drops) drops 0 0 (length l) l.

(** What the engine is told to drop: not the keys, which another list has,
    and no virtual columns, which it does not know *)
Definition told (d : alter_drop) : bool :=
  match ad_type d with
  | Drop_key => false
  | Drop_column => negb (default false (snd <$> ctc_ddl_get_column_by_name (ad_name d)))
  | _ => true
  end.

Definition drop_entry_of (d : alter_drop) : drop_entry :=
  mk_drop_entry (Some (ad_name d)) (ctc_ddl_get_drop_type_from_mysql_type (ad_type d))
    match ad_type d with Drop_foreign_key => CTC_KEYTYPE_FOREIGN | _ => 0 end.

Definition droppable (drops : list alter_drop) : Prop :=
  Forall (fun d => ad_type d = Drop_column -> is_Some (ctc_ddl_get_column_by_name (ad_name d))) drops.

(** The entries behind those that count may be filled and given up. *)
Definition unset (l : list drop_entry) : Prop := Forall (fun e => de_key_type e = 0) l.

Lemma drop_loop_spec rest : forall pre fuel dn l a,
  droppable rest -> unset l -> (length rest <= length l)%nat -> (length rest <= fuel)%nat ->
  exists l', drop_loop fuel (pre ++ rest) (length dn) (length pre) (length dn + length rest) (dn ++ l) a
    = Some (inr ((length dn + length (List.filter told rest))%nat,
                 dn ++ map drop_entry_of (List.filter told rest) ++ l'), a).
Proof.
  induction rest as [|d rest IH]; intros pre fuel dn l a Hd Hu Hl Hf.
  - exists l. rewrite Nat.add_0_r. cbn [List.filter map length app]. rewrite Nat.add_0_r.
    destruct fuel; cbn [drop_loop]; by rewrite Nat.ltb_irrefl.
  - destruct fuel as [|fuel]; [cbn in Hf; lia|]. destruct l as [|e l]; [cbn in Hl; lia|].
    apply Forall_cons_iff in Hd as [Hd Hds]. apply Forall_cons_iff in Hu as [He Hu]. cbn [length] in *.
    cbn [drop_loop]. rewrite (proj2 (Nat.ltb_lt _ _)) by lia. rewrite !list_lookup_middle by done.
    rewrite !req_deref_step, He.
    assert (forall k, exists l', drop_loop fuel (pre ++ d :: rest) (S (length dn)) (S (length pre)) (length dn + S (length rest))
        (<[length dn := mk_drop_entry (Some (ad_name d)) (ctc_ddl_get_drop_type_from_mysql_type (ad_type d)) k]> (dn ++ e :: l)) a
      = Some (inr ((length dn + S (length (List.filter told rest)))%nat,
          dn ++ mk_drop_entry (Some (ad_name d)) (ctc_ddl_get_drop_type_from_mysql_type (ad_type d)) k
             :: map drop_entry_of (List.filter told rest) ++ l'), a)) as Hkeep.
    { intros k. rewrite insert_middle.
      destruct (IH (pre ++ [d]) fuel (dn ++ [mk_drop_entry (Some (ad_name d)) (ctc_ddl_get_drop_type_from_mysql_type (ad_type d)) k]) l a
                  Hds Hu ltac:(lia) ltac:(lia)) as [l' H].
      exists l'. rewrite !length_app, <- !app_assoc in H. cbn [length app] in H. rewrite !Nat.add_1_r in H.
      rewrite !Nat.add_succ_r. exact H. }
    assert (exists l', drop_loop fuel (pre ++ d :: rest) (length dn) (S (length pre)) (length dn + S (length rest) - 1)
        (<[length dn := mk_drop_entry (Some (ad_name d)) (ctc_ddl_get_drop_type_from_mysql_type (ad_type d)) 0]> (dn ++ e :: l)) a
      = Some (inr ((length dn + length (List.filter told rest))%nat, dn ++ map drop_entry_of (List.filter told rest) ++ l'), a)) as Hskip.
    { rewrite insert_middle. set (e' := mk_drop_entry _ _ _).
      destruct (IH (pre ++ [d]) fuel dn (e' :: l) a Hds ltac:(by constructor) ltac:(cbn [length]; lia) ltac:(lia)) as [l' H].
      exists l'. rewrite length_app, <- app_assoc in H. cbn [length app] in H. rewrite Nat.add_1_r in H.
      replace (length dn + S (length rest) - 1)%nat with (length dn + length rest)%nat by lia. exact H. }
    assert (forall k, told d = true -> drop_entry_of d = mk_drop_entry (Some (ad_name d)) (ctc_ddl_get_drop_type_from_mysql_type (ad_type d)) k ->
      exists l', Some (inr ((length dn + length (List.filter told (d :: rest)))%nat, dn ++ map drop_entry_of (List.filter told (d :: rest)) ++ l'), a)
      = drop_loop fuel (pre ++ d :: rest) (S (length dn)) (S (length pre)) (length dn + S (length rest))
        (<[length dn := mk_drop_entry (Some (ad_name d)) (ctc_ddl_get_drop_type_from_mysql_type (ad_type d)) k]> (dn ++ e :: l)) a) as Hk.
    { intros k Ht Hk. destruct (Hkeep k) as [l' ->]. exists l'. cbn [List.filter]. rewrite Ht. cbn [length map app]. by rewrite Hk. }
    assert (told d = false -> exists l', Some (inr ((length dn + length (List.filter told (d :: rest)))%nat,
        dn ++ map drop_entry_of (List.filter told (d :: rest)) ++ l'), a)
      = drop_loop fuel (pre ++ d :: rest) (length dn) (S (length pre)) (length dn + S (length rest) - 1)
        (<[length dn := mk_drop_entry (Some (ad_name d)) (ctc_ddl_get_drop_type_from_mysql_type (ad_type d)) 0]> (dn ++ e :: l)) a) as Hs.
    { intros Ht. destruct Hskip as [l' ->]. exists l'. cbn [List.filter]. by rewrite Ht. }
    unfold told, drop_entry_of in Hk, Hs. destruct (ad_type d) eqn:Hty.
    + destruct (Hs eq_refl) as [l' <-]. by exists l'.
    + destruct (Hd eq_refl) as [col Hcol]. rewrite Hcol in *. rewrite req_deref_step. cbn [default fmap option_fmap option_map] in *.
      destruct col.2; [destruct (Hs eq_refl) as [l' <-]|destruct (Hk 0 eq_refl eq_refl) as [l' <-]]; by exists l'.
    + destruct (Hk _ eq_refl eq_refl) as [l' <-]. by exists l'.
    + destruct (Hk _ eq_refl eq_refl) as [l' <-]. by exists l'.
    + destruct (Hk _ eq_refl eq_refl) as [l' <-]. by exists l'.
Qed.

Lemma drop_list_filled drops a : droppable drops ->
  exists rest, fill_ctc_alter_drop_list drops (replicate (length drops) init_drop_entry) a
    = Some (inr (length (List.filter told drops), map drop_entry_of (List.filter told drops) ++ rest), a).
Proof.
  intros Hd. unfold fill_ctc_alter_drop_list. rewrite length_replicate.
  destruct (drop_loop_spec drops [] (length drops) [] (replicate (length drops) init_drop_entry) a Hd) as [l' H].
  - by apply Forall_replicate.
  - by rewrite length_replicate.
  - done.
  - exists l'. exact H.
Qed.

End DropList.

(** ** Partitions to drop and to add *)

(** [partition_state] as far as it is told apart *)
Inductive part_state := Part_normal | Part_changed | Part_to_be_dropped | Part_to_be_added | Part_reorged_dropped | Part_other.

#[export] Instance part_state_eq_dec : EqDecision part_state.
Proof. solve_decision. Defined.

Record partition_element := mk_partition_element { pe_name : text; pe_state : part_state; pe_subpartitions : list text }.

(** [drop_partition_names], [add_part_list] with the subpartitions, and
    [hash_coalesce_count] *)
Record part_lists := mk_part_lists { pl_drop : list Z; pl_add : list (Z * list Z); pl_coalesce : Z }.
Definition no_part_lists : part_lists := mk_part_lists [] [] 0.

Definition PART_CURSOR_NUM : Z := 8192.

Section AlterPartitions.
Context {L : Layout}.

Abbreviation I := (E Z).
Abbreviation alloc n := (need HA_ERR_OUT_OF_MEM n).

Definition ctc_ddl_fill_add_part_table_info (part : partition_element) : I (Z * list Z) :=
  name ← new_text HA_ERR_OUT_OF_MEM (pe_name part);
  if (length (pe_subpartitions part) =? 0)%nat then give (name, []) else
  _ ← alloc (sz_ptr * Z.of_nat (length (pe_subpartitions part)));
  subs ← each (pe_subpartitions part) (fun sub => _ ← alloc sz_part_table; new_text HA_ERR_OUT_OF_MEM sub);
  give (name, subs).

Fixpoint partition_loop (parts : list partition_element) (l : part_lists) : I part_lists :=
  match parts with
  | [] => give l
  | part :: parts =>
    match pe_state part with
    | Part_to_be_dropped =>
      p ← new_text HA_ERR_OUT_OF_MEM (pe_name part);
      partition_loop parts (mk_part_lists (pl_drop l ++ [p]) (pl_add l) (pl_coalesce l))
    | Part_to_be_added =>
      _ ← alloc sz_part_table;
      add_part ← ctc_ddl_fill_add_part_table_info part;
      partition_loop parts (mk_part_lists (pl_drop l) (pl_add l ++ [add_part]) (pl_coalesce l))
    | Part_reorged_dropped => partition_loop parts (mk_part_lists (pl_drop l) (pl_add l) (pl_coalesce l + 1))
    | Part_changed | Part_normal => partition_loop parts l
    | Part_other => returns 1
    end
  end.

Definition ctc_prepare_alter_partition_init_part_list (parts : list partition_element) : I unit :=
  if PART_CURSOR_NUM <? Z.of_nat (length parts) then returns (-1) else
  _ ← alloc (sz_ptr * Z.of_nat (length parts));
  _ ← alloc (sz_ptr * Z.of_nat (length parts));
  give tt.

Definition ctc_ddl_prepare_alter_partition_info (parts : list partition_element) : I part_lists :=
  if (length parts =? 0)%nat then give no_part_lists else
  _ ← ctc_prepare_alter_partition_init_part_list parts;
  partition_loop parts no_part_lists.

End AlterPartitions.

Section AlterPartitionsSpec.
Context {L : Layout} {max : Z} `{!LayoutOk L max}.

Definition with_state (s : part_state) (parts : list partition_element) : list partition_element :=
  List.filter (fun p => bool_decide (pe_state p = s)) parts.

(** What the addresses of a list read as *)
Definition reads (a : arena) (l : part_lists) (dropped added : list partition_element) : Prop :=
  Forall2 (fun p e => holds a p (pe_name e)) (pl_drop l) dropped /\
  Forall2 (fun x e => holds a x.1 (pe_name e) /\ Forall2 (holds a) x.2 (pe_subpartitions e)) (pl_add l) added.

Definition plain_names (parts : list partition_element) : Prop :=
  Forall (fun p => no_nul (pe_name p) /\ Forall no_nul (pe_subpartitions p)) parts.

(** Later code leaves the names as they are. *)
Definition extends (a a' : arena) : Prop := inside a' /\ forall p s, holds a p s -> holds a' p s.

Lemma extends_trans a b c : extends a b -> extends b c -> extends a c.
Proof. intros [_ H1] [? H2]. split; [done|]. eauto. Qed.

Lemma reads_extends a a' l d e : extends a a' -> reads a l d e -> reads a' l d e.
Proof.
  intros [_ Hx] [H1 H2]. split.
  - eapply Forall2_impl; [|exact H1]. intros ? ?. apply Hx.
  - eapply Forall2_impl; [|exact H2]. intros x y [H3 H4]. split; [by apply Hx|].
    eapply Forall2_impl; [|exact H4]. intros ? ?. apply Hx.
Qed.

Lemma need_extends n a p a' : 0 <= n -> inside a -> need HA_ERR_OUT_OF_MEM n a = Some (inr p, a') -> extends a a'.
Proof.
  intros Hn Ha H. split.
  - unfold need in H. apply req_bind_inv in H as [(o & a1 & H1 & H2)|(e & _ & [=])].
    destruct (alloc_spec (R := Z) n a Hn Ha) as [(_ & Hr & Hin)|[_ Hr]]; rewrite Hr in H1; injection H1 as <- <-;
      [injection H2 as <- <-; done|discriminate H2].
  - intros q s Hq. eapply (holds_frames (need HA_ERR_OUT_OF_MEM n)); [by apply frames_need|exact H|exact Hq].
Qed.

Lemma new_text_extends s a p a' : no_nul s -> inside a -> new_text HA_ERR_OUT_OF_MEM s a = Some (inr p, a') ->
  extends a a' /\ holds a' p s.
Proof.
  intros Hs Ha H. assert (mem_start a + Z.of_nat (length s) + 1 < CTC_DDL_PROTOBUF_MEM_SIZE) as Hfit.
  { destruct (decide (mem_start a + Z.of_nat (length s) + 1 < CTC_DDL_PROTOBUF_MEM_SIZE)) as [?|Hge]; [done|].
    unfold new_text, need in H. destruct (alloc_spec (R := Z) (Z.of_nat (length s) + 1) a ltac:(lia) Ha) as [[? _]|[_ Hr]]; [lia|].
    rewrite !bind_assoc, (bind_val _ _ _ _ _ Hr) in H. discriminate H. }
  destruct (new_text_holds HA_ERR_OUT_OF_MEM s a Ha Hs Hfit) as (a1 & H1 & H2 & H3). rewrite H1 in H. injection H as <- <-.
  split; [split|done].
  - destruct Ha. unfold inside. lia.
  - intros q t Hq. eapply holds_frames; [|exact H1|exact Hq]. apply keeps_frames. intros lo. apply keeps_new_text.
Qed.

Lemma subs_extends subs : forall a ps a', Forall no_nul subs -> inside a ->
  each subs (fun sub => _ ← need HA_ERR_OUT_OF_MEM sz_part_table; new_text HA_ERR_OUT_OF_MEM sub) a = Some (inr ps, a') ->
  extends a a' /\ Forall2 (holds a') ps subs.
Proof.
  pose proof (sizes (max := max)) as Hsz.
  induction subs as [|s subs IH]; intros a ps a' Hs Ha H; cbn [each] in H.
  - injection H as <- <-. split; [by split|constructor].
  - apply Forall_cons_iff in Hs as [Hs Hss]. apply req_bind_inv in H as [(p & a1 & H1 & H)|(e & _ & [=])].
    apply req_bind_inv in H1 as [(q & a0 & H0 & H1)|(e & _ & [=])]. apply req_bind_inv in H as [(qs & a2 & H2 & H)|(e & _ & [=])].
    injection H as <- <-. apply need_extends in H0 as Hx0; [|lia|done].
    apply new_text_extends in H1 as [Hx1 Hh]; [|done|by apply Hx0]. destruct (IH a1 qs a2 Hss) as [Hx2 Hqs]; [apply Hx1|done|].
    split; [eapply extends_trans; [exact Hx0|eapply extends_trans; [exact Hx1|exact Hx2]]|]. constructor; [by apply Hx2|done].
Qed.

Lemma add_part_extends part a x a' : no_nul (pe_name part) -> Forall no_nul (pe_subpartitions part) -> inside a ->
  ctc_ddl_fill_add_part_table_info part a = Some (inr x, a') ->
  extends a a' /\ holds a' x.1 (pe_name part) /\ Forall2 (holds a') x.2 (pe_subpartitions part).
Proof.
  intros Hn Hs Ha H. pose proof (sizes (max := max)) as Hsz. unfold ctc_ddl_fill_add_part_table_info in H.
  apply req_bind_inv in H as [(p & a1 & H1 & H)|(e & _ & [=])]. apply new_text_extends in H1 as [Hx1 Hh]; [|done|done].
  destruct (length (pe_subpartitions part) =? 0)%nat eqn:E.
  - injection H as <- <-. apply Nat.eqb_eq, length_zero_iff_nil in E. rewrite E. by split_and!.
  - apply req_bind_inv in H as [(q & a2 & H2 & H)|(e & _ & [=])]. apply req_bind_inv in H as [(ps & a3 & H3 & H)|(e & _ & [=])].
    injection H as <- <-. apply need_extends in H2; [|nia|by apply Hx1]. apply subs_extends in H3 as [Hx3 Hps]; [|done|by apply H2].
    pose proof (extends_trans _ _ _ H2 Hx3) as Hx. split_and!; [by eapply extends_trans|by apply Hx|done].
Qed.

Lemma partition_loop_spec parts : forall l a r a' dropped added,
  plain_names parts -> inside a -> reads a l dropped added -> partition_loop parts l a = Some (inr r, a') ->
  extends a a' /\ reads a' r (dropped ++ with_state Part_to_be_dropped parts) (added ++ with_state Part_to_be_added parts) /\
  pl_coalesce r = pl_coalesce l + Z.of_nat (length (with_state Part_reorged_dropped parts)).
Proof.
  pose proof (sizes (max := max)) as Hsz.
  induction parts as [|part parts IH]; intros l a r a' dropped added Hp Ha Hr H; cbn [partition_loop] in H.
  - injection H as <- <-. cbn. rewrite !app_nil_r. split_and!; [by split|done|lia].
  - apply Forall_cons_iff in Hp as [[Hn Hs] Hp]. unfold with_state in *. cbn [List.filter].
    destruct (pe_state part).
    + by apply (IH l a).
    + by apply (IH l a).
    + apply req_bind_inv in H as [(p & a1 & H1 & H)|(e & _ & [=])]. apply new_text_extends in H1 as [Hx Hh]; [|done|done].
      eapply (reads_extends _ _ _ _ _ Hx) in Hr. destruct Hr as [Hr1 Hr2].
      apply (IH _ a1 _ _ (dropped ++ [part]) added) in H as (Hx2 & Hr & Hc); [|done|apply Hx|split; [apply Forall2_app; [done|by constructor]|done]].
      rewrite <- app_assoc in Hr. split_and!; [by eapply extends_trans|done|done].
    + apply req_bind_inv in H as [(q & a0 & H0 & H)|(e & _ & [=])]. apply req_bind_inv in H as [(x & a1 & H1 & H)|(e & _ & [=])].
      apply need_extends in H0; [|lia|done]. apply add_part_extends in H1 as (Hx1 & Hh & Hss); [|done|done|apply H0].
      pose proof (extends_trans _ _ _ H0 Hx1) as Hx. eapply (reads_extends _ _ _ _ _ Hx) in Hr. destruct Hr as [Hr1 Hr2].
      apply (IH _ a1 _ _ dropped (added ++ [part])) in H as (Hx2 & Hr & Hc); [|done|apply Hx|split; [done|apply Forall2_app; [done|by constructor]]].
      rewrite <- app_assoc in Hr. split_and!; [by eapply extends_trans|done|done].
    + apply (IH _ a _ _ dropped added) in H as (Hx & Hr' & Hc); [|done|done|done]. cbn [pl_coalesce] in Hc. cbn [length]. split_and!; [done|done|].
      rewrite Hc, <- Z.add_assoc. f_equal. rewrite Z.add_1_l, <- Nat2Z.inj_succ. done.
    + discriminate H.
Qed.

(** When the request is made, it names the partitions that are dropped, the
    ones that are added with their subpartitions, each in the order of the
    table, and counts the ones that are merged. *)
Theorem partition_lists_sent parts a r a' : plain_names parts -> inside a ->
  ctc_ddl_prepare_alter_partition_info parts a = Some (inr r, a') ->
  reads a' r (with_state Part_to_be_dropped parts) (with_state Part_to_be_added parts) /\
  pl_coalesce r = Z.of_nat (length (with_state Part_reorged_dropped parts)).
Proof.
  intros Hp Ha H. pose proof (sizes (max := max)) as Hsz. unfold ctc_ddl_prepare_alter_partition_info in H.
  destruct (length parts =? 0)%nat eqn:E.
  - apply Nat.eqb_eq, length_zero_iff_nil in E as ->. injection H as <- <-. split; [split; constructor|done].
  - apply req_bind_inv in H as [(u & a1 & H1 & H)|(e & _ & [=])].
    unfold ctc_prepare_alter_partition_init_part_list in H1. destruct (_ <? _); [discriminate H1|].
    apply req_bind_inv in H1 as [(p & a2 & H2 & H1)|(e & _ & [=])]. apply req_bind_inv in H1 as [(q & a3 & H3 & H1)|(e & _ & [=])].
    injection H1 as <- <-. apply need_extends in H2; [|nia|done]. apply need_extends in H3; [|nia|by apply H2].
    apply (partition_loop_spec _ _ _ _ _ [] []) in H as (_ & Hr & Hc); [|done|apply H3|split; constructor]. by split.
Qed.

End AlterPartitionsSpec.

(** ** Partitions to truncate *)

(** [TcDb__CtcDDLTruncateTablePartitionDef] *)
Record truncate_parts := mk_truncate_parts {
  tp_partition_id : list Z; tp_partition_name : list text; tp_is_subpart : bool;
  tp_subpartition_id : list Z; tp_subpartition_name : list text }.

Section Truncate.
(** [part_info->is_partition_used] and [num_subparts]; 0: not subpartitioned *)
Variable is_partition_used : Z -> bool.
Variable num_subparts : Z.

(** The loop over the leaves, with [part_num] *)
Fixpoint used_leaves (part_num : Z) (leaves : list text) : list (Z * text) :=
  match leaves with
  | [] => []
  | name :: leaves =>
    if is_partition_used part_num then (part_num, name) :: used_leaves (part_num + 1) leaves
    else used_leaves (part_num + 1) leaves
  end.

Definition fill_partition_info_4truncate (is_sub_partitioned : bool) (leaves : list text) : E Z truncate_parts :=
  let used := used_leaves 0 leaves in
  if is_sub_partitioned then
    _ ← need HA_ERR_OUT_OF_MEM (Z.of_nat (length leaves) * 4);
    _ ← need HA_ERR_OUT_OF_MEM (Z.of_nat (length leaves) * 8);
    if (num_subparts =? 0) && (0 <? length used)%nat then undefined else
    give (mk_truncate_parts (map (fun x => x.1 / num_subparts) used) (map snd used) true
            (map (fun x => x.1 mod num_subparts) used) (map snd used))
  else give (mk_truncate_parts (map fst used) (map snd used) false [] []).

(** The two arrays before it *)
Definition truncate_partitions (is_sub_partitioned : bool) (leaves : list text) : E Z truncate_parts :=
  _ ← need HA_ERR_OUT_OF_MEM (Z.of_nat (length leaves) * 4);
  _ ← need HA_ERR_OUT_OF_MEM (Z.of_nat (length leaves) * 8);
  fill_partition_info_4truncate is_sub_partitioned leaves.

Lemma used_leaves_spec leaves : forall k i name,
  (i, name) ∈ used_leaves k leaves <-> k <= i /\ leaves !! Z.to_nat (i - k) = Some name /\ is_partition_used i = true.
Proof.
  induction leaves as [|l leaves IH]; intros k i name; cbn [used_leaves].
  - rewrite elem_of_nil. split; [done|]. intros (_ & H & _). by destruct (Z.to_nat (i - k)).
  - assert (forall x, k + 1 <= x -> Z.to_nat (x - k) = S (Z.to_nat (x - (k + 1)))) as Hs by (intros; lia).
    destruct (is_partition_used k) eqn:Hu; rewrite ?elem_of_cons, IH.
    + split.
      * intros [[= -> ->]|(H1 & H2 & H3)]; [by rewrite Z.sub_diag|]. rewrite Hs by lia. split_and!; [lia|done|done].
      * intros (H1 & H2 & H3). destruct (decide (i = k)) as [->|Hne].
        -- left. rewrite Z.sub_diag in H2. by injection H2 as ->.
        -- right. rewrite Hs in H2 by lia. split_and!; [lia|done|done].
    + split.
      * intros (H1 & H2 & H3). rewrite Hs by lia. split_and!; [lia|done|done].
      * intros (H1 & H2 & H3). destruct (decide (i = k)) as [->|Hne]; [by rewrite Hu in H3|].
        rewrite Hs in H2 by lia. split_and!; [lia|done|done].
Qed.

(** With subpartitions, the numbers of the partition and of the subpartition
    within it are those of a leaf that is truncated, and the other way round. *)
Theorem truncated_subpartitions leaves a r a' : 0 < num_subparts ->
  truncate_partitions true leaves a = Some (inr r, a') ->
  length (tp_partition_id r) = length (tp_subpartition_id r) /\
  (forall p s name, (p, s, name) ∈ zip (zip (tp_partition_id r) (tp_subpartition_id r)) (tp_subpartition_name r) <->
     0 <= s < num_subparts /\ 0 <= p /\ leaves !! Z.to_nat (p * num_subparts + s) = Some name /\
     is_partition_used (p * num_subparts + s) = true).
Proof.
  intros Hn H. unfold truncate_partitions, fill_partition_info_4truncate in H.
  do 4 (apply req_bind_inv in H as [(? & ? & _ & H)|(? & _ & [=])]).
  rewrite (proj2 (Z.eqb_neq _ _)) in H by lia. injection H as <- _. cbn [tp_partition_id tp_subpartition_id tp_subpartition_name].
  split; [by rewrite !length_map|]. intros p s name.
  assert (forall l : list (Z * text), zip (zip (map (fun x => x.1 / num_subparts) l) (map (fun x => x.1 mod num_subparts) l)) (map snd l)
    = map (fun x => ((x.1 / num_subparts, x.1 mod num_subparts), x.2)) l) as ->.
  { induction l as [|y l IH]; [done|]. cbn [map zip_with]. by rewrite IH. }
  rewrite list_elem_of_fmap. split.
  - intros ([i nm] & [= -> -> ->] & Hi). apply used_leaves_spec in Hi as (H1 & H2 & H3). cbn [fst snd].
    pose proof (Z.mod_pos_bound i num_subparts Hn). rewrite Z.mul_comm, <- Z.div_mod by lia.
    rewrite Z.sub_0_r in H2. split_and!; [lia|lia|apply Z.div_pos; lia|done|done].
  - intros ((H1 & H2) & H3 & H4 & H5). exists (p * num_subparts + s, name). cbn [fst snd]. split.
    + rewrite Z.div_add_l, (Z.div_small s), Z.add_0_r, (Z.add_comm (p * _)), Z.mod_add, Z.mod_small by lia. done.
    + apply used_leaves_spec. rewrite Z.sub_0_r. split_and!; [nia|done|done].
Qed.

End Truncate.

(** ** Constraints of a renamed table *)

Definition CTC_MAX_CONS_NAME_LEN : Z := 64.

Section RenameConstraints.
(** [dd::is_generated_foreign_key_name] for the table's old name *)
Variable is_generated_name : text -> bool.

(** [strxnmov(..., sizeof - 1, ...)] *)
Definition new_constraint_name (from_tbl_name to_name fk_name : text) : text :=
  take (Z.to_nat CTC_MAX_CONS_NAME_LEN) (to_name ++ drop (length from_tbl_name) fk_name).

(** Both blocks are allocated before the assertions. *)
Definition ctc_fill_rename_constraints (old_cons_name new_cons_name : text) : E Z (Z * Z) :=
  old ← ctc_ddl_alloc_mem (Z.of_nat (length old_cons_name) + 1);
  new ← ctc_ddl_alloc_mem (Z.of_nat (length new_cons_name) + 1);
  old ← deref old;
  new ← deref new;
  _ ← store old (old_cons_name ++ [chr 0]);
  _ ← store new (new_cons_name ++ [chr 0]);
  give (old, new).

(** [sql_is_rename]: [SQLCOM_RENAME_TABLE], or the table goes to another
    tablespace *)
Definition init_ctc_ddl_rename_constraints_def (sql_is_rename : bool) (from_tbl_name to_name : text) (foreign_keys : list text)
    : E Z (list (Z * Z)) :=
  if (length foreign_keys =? 0)%nat then give [] else
  let is_rename_table := sql_is_rename || negb (bool_decide (from_tbl_name = to_name)) in
  let generated := List.filter (fun fk => is_generated_name fk && is_rename_table) foreign_keys in
  news ← ctc_ddl_alloc_mem (8 * Z.of_nat (length generated));
  olds ← ctc_ddl_alloc_mem (8 * Z.of_nat (length generated));
  if bool_decide (news = None) || bool_decide (olds = None) then returns HA_ERR_OUT_OF_MEM else
  each generated (fun fk => ctc_fill_rename_constraints fk (new_constraint_name from_tbl_name to_name fk)).

(** A generated name keeps what follows the name of the table, if the new name
    leaves room. *)
Lemma new_constraint_name_spec from_tbl_name to_name suffix :
  Z.of_nat (length to_name + length suffix) <= CTC_MAX_CONS_NAME_LEN ->
  new_constraint_name from_tbl_name to_name (from_tbl_name ++ suffix) = to_name ++ suffix.
Proof. intros H. unfold new_constraint_name. rewrite drop_app_length. apply take_ge. rewrite length_app. unfold CTC_MAX_CONS_NAME_LEN in *. lia. Qed.

(** The names are cut at 64 bytes, where MySQL allows 64 characters: all
    generated names of a table whose new name has 64 bytes become one. *)
Lemma constraint_names_cut from_tbl_name to_name s1 s2 :
  CTC_MAX_CONS_NAME_LEN <= Z.of_nat (length to_name) ->
  new_constraint_name from_tbl_name to_name s1 = new_constraint_name from_tbl_name to_name s2.
Proof.
  intros H. unfold new_constraint_name, CTC_MAX_CONS_NAME_LEN in *. by rewrite !take_app_le by lia.
Qed.

End RenameConstraints.

(** ** Tablespaces *)

Definition check_file_name_prefix (file_name : text) : bool :=
  match file_name with c :: _ => (code c =? 32) || (code c =? 47) | [] => false end.

(** [true]: refused *)
Definition check_file_name_has_suffix (file_name suffix : text) : bool :=
  (length file_name <=? length suffix)%nat
  || negb (bool_decide (drop (length file_name - length suffix) file_name = suffix)).

Definition ibd_suffix : text := txt ".ibd".

(** [true]: an error was raised *)
Definition check_data_file_name (data_file_name : option text) : bool :=
  match data_file_name with
  | None | Some [] => true
  | Some s => check_file_name_prefix s || check_file_name_has_suffix s ibd_suffix || (SMALL_RECORD_SIZE <? Z.of_nat (length s))
  end.

(** A file name is accepted when it is relative, has a name before the suffix
    and at most 128 bytes. *)
Lemma data_file_name_accepted s :
  check_data_file_name (Some s) = false <->
  exists c name, s = c :: name ++ ibd_suffix /\ code c <> 32 /\ code c <> 47 /\ Z.of_nat (length s) <= SMALL_RECORD_SIZE.
Proof.
  unfold check_data_file_name, check_file_name_prefix, check_file_name_has_suffix. destruct s as [|c s].
  - split; [done|]. intros (c & name & H & _). discriminate H.
  - rewrite !orb_false_iff, negb_false_iff, bool_decide_eq_true, !Z.eqb_neq, Z.ltb_ge, Nat.leb_gt. split.
    + intros [[[H1 H2] [H3 H4]] H5]. exists c, (take (length s - length ibd_suffix) s). split_and!; [|done..].
      rewrite <- H4 at 2. f_equal. rewrite <- (take_drop (length s - length ibd_suffix) s) at 1. f_equal.
      cbn [length] in H3 |- *. by rewrite Nat.sub_succ_l by (cbn in *; lia).
    + intros (c' & name & [= <- ->] & H1 & H2 & H3). split_and!; [done|done| | |done].
      * cbn [length]. rewrite length_app. cbn. lia.
      * cbn [length]. rewrite length_app. replace (S (length name + length ibd_suffix) - length ibd_suffix)%nat with (S (length name)) by lia.
        cbn [drop]. by rewrite drop_app_length.
Qed.

(** [ts_alter_tablespace_type] *)
Inductive alter_space := Space_add_file | Space_drop_file | Space_rename | Space_options | Space_other.

#[export] Instance alter_space_eq_dec : EqDecision alter_space.
Proof. solve_decision. Defined.

Definition g_ctc_alter_tablespace_map (t : alter_space) : option Z :=
  match t with
  | Space_add_file => Some 0 | Space_drop_file => Some 1 | Space_rename => Some 3 | Space_options => Some 4 | Space_other => None
  end.

(** [ts_command_type] *)
Inductive space_command := Create_tablespace | Alter_tablespace | Drop_tablespace | Undo_tablespace | Unsupported_tablespace.

Record space_info := mk_space_info {
  si_command : space_command; si_alter : alter_space; si_name : text; si_file : option text; si_autoextend : option Z }.

(** The requests *)
Inductive space_request :=
  | Create_space (name : text) (file : text) (size nextsize : Z)
  | Alter_space (action : Z) (name new_name : text) (auto_extend_size : Z)
  | Drop_space (name : text).

Definition ER_ILLEGAL_HA : Z := 1031.

Section Tablespaces.
Context {L : Layout}.
Variable same_name : text -> text -> bool.
Variable engine_ddl_passthru : bool.
(** The sizes of the structures of the request, and codes of the server *)
Variables sz_datafile sz_autoextend HA_ERR_WRONG_FILE_NAME HA_WRONG_CREATE_OPTION HA_ADMIN_NOT_IMPLEMENTED : Z.

(** What the engine is asked, or the result without it *)
Definition ctc_create_tablespace_handler (i : space_info) : E Z space_request :=
  if engine_ddl_passthru then returns CT_SUCCESS else
  _ ← need HA_ERR_OUT_OF_MEM sz_ptr;
  _ ← need HA_ERR_OUT_OF_MEM sz_datafile;
  _ ← need HA_ERR_OUT_OF_MEM sz_autoextend;
  _ ← return_if_not_zero (check_ctc_identifier_name (Some (si_name i)));
  if check_data_file_name (si_file i) then returns HA_ERR_WRONG_FILE_NAME else
  file ← deref (si_file i);
  give (Create_space (si_name i) file (1024 * 1024) (default 0 (si_autoextend i))).

Definition ctc_alter_tablespace_handler (i : space_info) (from to : text) : E Z space_request :=
  if negb (bool_decide (si_alter i = Space_rename)) && negb (bool_decide (si_alter i = Space_options))
  then returns HA_ADMIN_NOT_IMPLEMENTED else
  if engine_ddl_passthru then returns CT_SUCCESS else
  if bool_decide (si_alter i = Space_rename) && same_name from to then returns HA_WRONG_CREATE_OPTION else
  action ← match g_ctc_alter_tablespace_map (si_alter i) with Some action => give action | None => returns ER_ILLEGAL_HA end;
  _ ← return_if_not_zero (check_ctc_identifier_name (Some from));
  _ ← return_if_not_zero (check_ctc_identifier_name (Some to));
  give (Alter_space action from to (default 0 (si_autoextend i))).

Definition ctc_drop_tablespace_handler (i : space_info) : E Z space_request :=
  if engine_ddl_passthru then returns CT_SUCCESS else
  _ ← return_if_not_zero (check_ctc_identifier_name (Some (si_name i)));
  give (Drop_space (si_name i)).

Definition ctcbase_alter_tablespace (i : space_info) (old_name new_name : text) : E Z space_request :=
  match si_command i with
  | Create_tablespace => ctc_create_tablespace_handler i
  | Alter_tablespace => ctc_alter_tablespace_handler i old_name new_name
  | Drop_tablespace => ctc_drop_tablespace_handler i
  | Undo_tablespace => returns CT_SUCCESS
  | Unsupported_tablespace => returns HA_ADMIN_NOT_IMPLEMENTED
  end.

(** Names in the requests have at most 64 bytes, files are relative with at
    most 128 bytes, and a tablespace is not renamed to its own name. *)
Theorem tablespace_request_checked i old_name new_name a r a' :
  ctcbase_alter_tablespace i old_name new_name a = Some (inr r, a') ->
  engine_ddl_passthru = false /\
  match r with
  | Create_space name file _ _ => Z.of_nat (length name) <= CTC_IDENTIFIER_MAX_LEN /\ check_data_file_name (Some file) = false
  | Alter_space action name new_name _ => Z.of_nat (length name) <= CTC_IDENTIFIER_MAX_LEN /\
      Z.of_nat (length new_name) <= CTC_IDENTIFIER_MAX_LEN /\ (action = 3 /\ same_name name new_name = false \/ action = 4)
  | Drop_space name => Z.of_nat (length name) <= CTC_IDENTIFIER_MAX_LEN
  end.
Proof.
  assert (forall n a u a1, return_if_not_zero (check_ctc_identifier_name (Some n)) a = Some (inr u, a1) ->
            Z.of_nat (length n) <= CTC_IDENTIFIER_MAX_LEN) as Hname.
  { intros n b u b1. unfold check_ctc_identifier_name, return_if_not_zero. destruct (_ <? _) eqn:E; [discriminate|]. intros _. by zb. }
  unfold ctcbase_alter_tablespace. destruct (si_command i); [| | |discriminate|discriminate].
  - unfold ctc_create_tablespace_handler. destruct engine_ddl_passthru; [discriminate|]. intros H. split; [done|].
    do 3 (apply req_bind_inv in H as [(? & ? & _ & H)|(? & _ & [=])]). apply req_bind_inv in H as [(? & ? & H1 & H)|(? & _ & [=])].
    apply Hname in H1. destruct (check_data_file_name (si_file i)) eqn:E; [discriminate H|].
    destruct (si_file i) as [file|]; [|discriminate H]. rewrite req_deref_step in H. injection H as <- _. by split.
  - unfold ctc_alter_tablespace_handler. destruct (negb _ && negb _) eqn:Hg; [discriminate|].
    destruct engine_ddl_passthru; [discriminate|]. intros H. split; [done|].
    destruct (bool_decide (si_alter i = Space_rename) && same_name _ _) eqn:Hs; [discriminate H|]. destruct (g_ctc_alter_tablespace_map (si_alter i)) as [action|] eqn:Hm; [|discriminate H].
    rewrite give_step in H. apply req_bind_inv in H as [(? & ? & H1 & H)|(? & _ & [=])]. apply req_bind_inv in H as [(? & ? & H2 & H)|(? & _ & [=])].
    apply Hname in H1, H2. injection H as <- _. split_and!; [done|done|].
    destruct (si_alter i); try discriminate Hg; try discriminate Hm; injection Hm as <-; [left; split; [done|exact Hs]|by right].
  - unfold ctc_drop_tablespace_handler. destruct engine_ddl_passthru; [discriminate|]. intros H. split; [done|].
    apply req_bind_inv in H as [(? & ? & H1 & H)|(? & _ & [=])]. apply Hname in H1. injection H as <- _. exact H1.
Qed.

End Tablespaces.

End TableAlter.
