(* ===== verification/AlterReq.v ===== *)
(** * AlterReq: the request of [ALTER TABLE]

    Models [fill_alter_table_req] of [ha_ctc_ddl.cc] with
    [init_ctc_ddl_alter_table_def], which lays out the lists of the request,
    and the functions that fill them: [fill_ctc_alter_create_list],
    [ctc_ddl_fill_add_key], [ctc_ddl_fill_drop_key], the foreign keys that are
    added and the indexes that are renamed.  The lists of columns to rename and
    to drop and of partitions are in [TableAlter]. *)

From Stdlib Require Import Ascii String.
From S2P Require Import Prelude CalDate FieldTypes Server Demo SqlText ReqMem FuncIndex ColumnDef TableDef TableAlter.
Import CalDate FieldTypes Server SqlText ReqMem FuncIndex ColumnDef TableDef TableAlter.

Module AlterReq.

(** ** What the statement asks for *)

(** [Foreign_key_spec]; a name may be null. *)
Record fk_spec := mk_fk_spec {
  fs_name : option text; fs_delete : fk_rule; fs_update : fk_rule; fs_ref_db : text; fs_ref_table : text;
  fs_columns : list text; fs_ref_columns : list text }.

(** [index_rename_buffer]: the old key and the name of the new one *)
Record alter_info := mk_alter_info {
  al_drop_list : list alter_drop;
  al_alter_list : list alter_column;
  al_create_list : list new_field;
  al_key_list : list (option fk_spec);      (* [None]: not a foreign key *)
  al_key_info : list key_info;              (* key_info_buffer *)
  al_index_add : list nat;                  (* index_add_buffer *)
  al_index_drop : list text;                (* index_drop_buffer: names *)
  al_index_rename : list (key_info * text);
  al_partitions : option (list partition_element);
  al_add_stored_column : bool;              (* ADD_STORED_BASE_COLUMN *)
  al_add_foreign_key : bool;                (* ADD_FOREIGN_KEY *)
  al_is_alter : bool;                       (* SQLCOM_ALTER_TABLE *)
  al_new_auto_increment : option Z }.       (* when there is such a column and the statement sets it *)

(** [TcDb__CtcDDLAlterIndexDef] *)
Record index_entry := mk_index_entry {
  ie_user : option text; ie_table : option text; ie_name : option text; ie_new_name : option text; ie_key_type : Z }.
Definition init_index_entry : index_entry := mk_index_entry None None None None 0.

(** [TcDb__CtcDDLAlterTableDef] *)
Record alter_req := mk_alter_req {
  q_parts : part_lists;
  q_n_drop : nat; q_drop_list : list drop_entry;
  q_alter_list : list alter_entry;
  q_n_create : nat; q_create_list : list column_def;
  q_add_keys : list key_def; q_drop_keys : list drop_entry;
  q_fks : list fk_def;
  q_auto_increment : Z;
  q_alter_index : list index_entry }.

Section Init.
Context {L : Layout}.
Variable parallelism : Z.

Abbreviation I := (E Z).
Abbreviation alloc n := (need HA_ERR_OUT_OF_MEM n).

Definition init_drop_list_4alter_table (n : nat) : I (list drop_entry) :=
  _ ← alloc (sz_ptr * Z.of_nat n); times n (_ ← alloc sz_drop; give init_drop_entry).

Definition init_alter_list_4alter_table (n : nat) : I (list alter_entry) :=
  _ ← alloc (sz_ptr * Z.of_nat n); times n (_ ← alloc sz_alter_column; give init_alter_entry).

Definition init_create_list_4alter_table (n : nat) : I (list column_def) :=
  _ ← alloc (sz_ptr * Z.of_nat n); times n new_column.

Definition checked_part : I key_part := _ ← alloc sz_key_part; _ ← alloc FUNC_TEXT_MAX_LEN; give init_key_part.

Definition init_add_key_list_4alter_table (key_info : list key_info) (index_add : list nat) : I (list key_def) :=
  _ ← alloc (sz_ptr * Z.of_nat (length index_add));
  each index_add (fun i =>
    _ ← alloc sz_key;
    key ← deref (key_info !! i);
    _ ← alloc (sz_ptr * Z.of_nat (length (ki_parts key)));
    parts ← times (length (ki_parts key)) checked_part;
    give (init_key parts parallelism)).

Definition init_drop_key_list_4alter_table (n : nat) : I (list drop_entry) :=
  _ ← alloc (sz_ptr * Z.of_nat n); times n (_ ← alloc sz_drop_key; give init_drop_entry).

(** The array takes the size of the structures, not of pointers. *)
Definition init_alter_index_list_4alter_table (n : nat) : I (list index_entry) :=
  _ ← alloc (sz_alter_index * Z.of_nat n); times n (_ ← alloc sz_alter_index; give init_index_entry).

Definition ctc_ddl_alter_table_fill_foreign_key_info (fk : fk_spec) (d : fk_def) : I fk_def :=
  _ ← return_if_not_zero (check_ctc_identifier_name (fs_name fk));
  p ← alloc (Z.of_nat (length (fs_ref_db fk)) + 1);
  _ ← ctc_copy_name p (fs_ref_db fk) (length (fs_ref_db fk) + 1);
  elements ← each_i (fk_elements d) (fun j _ =>
    c ← deref (fs_columns fk !! j); r ← deref (fs_ref_columns fk !! j); give (Some (c, r)));
  give (mk_fk_def (fs_name fk) (ctc_ddl_get_foreign_key_rule (fs_delete fk)) (ctc_ddl_get_foreign_key_rule (fs_update fk))
          (Some p) (Some (fs_ref_table fk)) elements).

Definition init_foreign_key_list_4alter_table (key_list : list (option fk_spec)) : I (list fk_def) :=
  _ ← alloc (sz_ptr * Z.of_nat (length key_list));
  each (omap id key_list) (fun fk =>
    _ ← alloc sz_foreign_key;
    _ ← alloc (sz_ptr * Z.of_nat (length (fs_columns fk)));
    elements ← times (length (fs_columns fk)) (_ ← alloc sz_fk_element; give None);
    ctc_ddl_alter_table_fill_foreign_key_info fk (init_fk elements)).

(** [if (n > 0) ...] *)
Definition nonempty {A} (n : nat) (m : I (list A)) : I (list A) := if (0 <? n)%nat then m else give [].

Definition init_ctc_ddl_alter_table_def (ai : alter_info) : I alter_req :=
  let n_drop := length (al_drop_list ai) in
  let n_alter := (length (al_alter_list ai) + rename_count (al_alter_list ai))%nat in
  let n_create := length (al_create_list ai) in
  if REC_MAX_N_USER_FIELDS <? Z.of_nat n_create then returns HA_ERR_TOO_MANY_FIELDS else
  parts ← match al_partitions ai with Some ps => ctc_ddl_prepare_alter_partition_info ps | None => give no_part_lists end;
  drops ← nonempty n_drop (init_drop_list_4alter_table n_drop);
  alters ← nonempty n_alter (init_alter_list_4alter_table n_alter);
  creates ← nonempty n_create (init_create_list_4alter_table n_create);
  _ ← alloc sz_table_prop;
  add_keys ← (if al_add_stored_column ai && al_is_alter ai then give []
              else nonempty (length (al_index_add ai)) (init_add_key_list_4alter_table (al_key_info ai) (al_index_add ai)));
  drop_keys ← nonempty (length (al_index_drop ai)) (init_drop_key_list_4alter_table (length (al_index_drop ai)));
  fks ← (if al_add_foreign_key ai then init_foreign_key_list_4alter_table (al_key_list ai) else give []);
  indexes ← nonempty (length (al_index_rename ai)) (init_alter_index_list_4alter_table (length (al_index_rename ai)));
  give (mk_alter_req parts n_drop drops alters n_create creates add_keys drop_keys fks
          (default 0 (al_new_auto_increment ai)) indexes).

End Init.

(** ** Filling the lists *)

(** What the code reads of the tables: [old_columns] with [is_virtual()],
    the indexes of the old table, the new table's columns *)
Record alter_tables := mk_alter_tables {
  at_old_columns : list (text * bool);
  at_old_indexes : list dd_index;
  at_new_column : text -> option dd_column;
  at_altered : table }.

Section Fill.
Context {M : MySQL} {DS : DdlServer} {L : Layout}.
Variable parallelism : Z.
(** [my_strcasecmp(system_charset_info, ...) == 0], [get_sql_field_charset] *)
Variable same_name : text -> text -> bool.
Variable get_sql_field_charset : new_field -> option Z.
(** The sizes of the packed request and of [ddl_ctrl_t], and [my_malloc] *)
Variable packed_size : alter_req -> Z.
Variable sizeof_ddl_ctrl : Z.
Variable malloc_works : bool.

Definition alter_mode (fld : new_field) : Z :=
  match cf_change (nf_create fld) with
  | Some _ => CTC_ALTER_COLUMN_ALTER_MODIFY_COLUMN
  | None => if bool_decide (cf_field (nf_create fld) = None) then CTC_ALTER_COLUMN_ALTER_ADD_COLUMN
            else CTC_ALTER_COLUMN_ALTER_MODE_NONE
  end.

(** The column at the same position of the altered table *)
Definition describe_altered (altered : table) (x : nat * new_field) (c : column_def) : E unit column_def :=
  field ← deref (t_fields altered !! x.1);
  ctc_ddl_fill_column_by_field c field (t_keynames altered) (Some x.2) (alter_mode x.2) (get_sql_field_charset x.2).

Definition fill_ctc_alter_create_list (altered : table) (create_list : list new_field) (n : nat) (l : list column_def)
    : E Z (nat * list column_def * bool) :=
  fill_columns (fun x => cf_functional (nf_create x.2)) (fun x => cf_virtual (nf_create x.2)) (describe_altered altered)
    CT_ERROR (imap pair create_list) n l.

(** [ctc_ddl_get_index_by_name]: [strcmp] *)
Definition ctc_ddl_get_index_by_name (indexes : list dd_index) (index_name : text) : option dd_index :=
  List.find (fun i => bool_decide (dix_name i = index_name)) indexes.

Definition ctc_ddl_fill_drop_key (indexes : list dd_index) (index_drop : list text) (l : list drop_entry) : E Z (list drop_entry) :=
  each_i l (fun i _ =>
    name ← deref (index_drop !! i);
    idx ← deref (ctc_ddl_get_index_by_name indexes name);
    match ctc_ddl_get_create_key_type (dix_type idx) with
    | Some t => give (mk_drop_entry (Some name) CTC_ALTER_TABLE_DROP_KEY t)
    | None => returns CT_ERROR
    end).

(** A key that is added: [inl tt] is [false], and the inner [inl] the code of
    the name's check, which the function returns as [true]. *)
Definition fill_key_alter (ai : alter_info) (form : table) (user : Z) (table_name : text) (i : nat) (k : key_def)
    : E unit (key_def + key_def) :=
  n ← deref (al_index_add ai !! i);
  key ← deref (al_key_info ai !! n);
  let k := set_owner (user, table_name) k in
  if negb (check_ctc_identifier_name (Some (ki_name key)) =? 0) then give (inl k) else
  key_type ← or_false (get_ctc_key_type key);
  algorithm ← or_false (get_ctc_key_algorithm (ki_algorithm key));
  '(flags, parts) ← fill_parts (fun j flags part =>
      p ← deref (ki_parts key !! j);
      fld ← deref (al_create_list ai !! pi_fieldnr p);
      ctc_fill_key_part is_numeric_type (t_columns form) (nf_create fld) p flags part)
    0 (k_is_dsc k, k_is_func k) (k_columns k);
  give (inr (mk_key_def (k_owner k) (Some (ki_name key)) key_type algorithm
    (k_is_constraint k || (key_type =? CTC_KEYTYPE_PRIMARY) || (key_type =? CTC_KEYTYPE_UNIQUE)) flags.1 flags.2 parallelism parts)).

Definition ctc_ddl_fill_add_key (ai : alter_info) (form : table) (user : Z) (table_name : text) (keys : list key_def)
    : E unit (list key_def) :=
  fill_keys (fill_key_alter ai form user table_name) 0 keys.

(** The renamed indexes; a type that is not supported returns [true]. *)
Definition fill_renamed_indexes (ai : alter_info) (user table_name : text) (l : list index_entry) : E Z (list index_entry) :=
  each_i l (fun i _ =>
    r ← deref (al_index_rename ai !! i);
    match get_ctc_key_type r.1 with
    | Some t => give (mk_index_entry (Some user) (Some table_name) (Some (ki_name r.1)) (Some r.2) t)
    | None => returns 1
    end).

(** [fill_sys_cur_timestamp]: the start of the statement in UTC, and the
    result of [calc_time_diff] with the local time *)
Definition fill_sys_cur_timestamp (utc : MYSQL_TIME) (negative : bool) (seconds_diff : Z) : option (Z * Z) :=
  t ← cm_encode_date (assign_mysql_date_detail false utc);
  Some (t, if negative then - (Z.quot seconds_diff 60) else Z.quot seconds_diff 60).

Record alter_session := mk_alter_session {
  as_query : query; as_altered_db : text; as_thd_id : Z; as_utc : MYSQL_TIME; as_negative : bool; as_seconds_diff : Z }.

(** The rest of the message *)
Record alter_base := mk_alter_base {
  ab_user : text; ab_name : text; ab_systimestamp : Z; ab_tz_offset_utc : Z; ab_options : Z; ab_db_name : text; ab_sql : text }.

(** [user] is an array on the stack, of which the key definitions have the
    address: 0. *)
Definition fill_alter_table_req (ai : alter_info) (tables : alter_tables) (s : alter_session) : E Z (alter_base * alter_req * bool) :=
  let q := as_query s in
  r ← init_ctc_ddl_alter_table_def parallelism ai;
  let user := take 127 (c_str match q_tables q with Some t => t.1 | None => as_altered_db s end) in
  '(_, name) ← deref (q_tables q);
  '(systimestamp, tz) ← deref (fill_sys_cur_timestamp (as_utc s) (as_negative s) (as_seconds_diff s));
  '(n_drop, drops) ← fill_ctc_alter_drop_list same_name (at_old_columns tables) (al_drop_list ai) (q_drop_list r);
  let options := if q_no_foreign_key_checks q then CTC_CREATE_TYPE_NO_CHECK_CONS else 0 in
  drop_keys ← (if (0 <? length (al_index_drop ai))%nat
               then ctc_ddl_fill_drop_key (at_old_indexes tables) (al_index_drop ai) (q_drop_keys r) else give (q_drop_keys r));
  alters ← (if (0 <? length (q_alter_list r))%nat
            then call (fun _ => returns CT_ERROR)
                   (fill_alter_list_4alter_table (at_new_column tables) (as_thd_id s) (al_alter_list ai) (q_alter_list r))
            else give (q_alter_list r));
  '(n_create, creates, virtual) ← call (fun _ => returns CT_ERROR)
      (fill_ctc_alter_create_list (at_altered tables) (al_create_list ai) (q_n_create r) (q_create_list r));
  add_keys ← call (fun _ => returns 1) (ctc_ddl_fill_add_key ai (at_altered tables) 0 name (q_add_keys r));
  indexes ← fill_renamed_indexes ai user name (q_alter_index r);
  let r := mk_alter_req (q_parts r) n_drop drops alters n_create creates add_keys drop_keys (q_fks r) (q_auto_increment r) indexes in
  _ ← message_buffer malloc_works (packed_size r + sizeof_ddl_ctrl);
  give (mk_alter_base user name systimestamp tz options (q_db_name q) (q_sql q), r, virtual).

End Fill.

(** ** The arena

    Code that allocates stays in the array, and leaves what is allocated as it
    is. *)

Definition stays {R A} (m : E R A) : Prop := forall a r a', inside a -> m a = Some (r, a') -> inside a'.

Section Stays.
Context {R : Type}.

Lemma stays_give {A} (x : A) : stays (R := R) (give x).
Proof. by intros a r a' Ha [= <- <-]. Qed.
Lemma stays_returns {A} (r : R) : stays (A := A) (returns r).
Proof. by intros a r' a' Ha [= <- <-]. Qed.
Lemma stays_undefined {A} : stays (R := R) (A := A) undefined.
Proof. by intros a r a' Ha [=]. Qed.
Lemma stays_deref {A} (o : option A) : stays (R := R) (deref o).
Proof. destruct o; [apply stays_give|apply stays_undefined]. Qed.
Lemma stays_store p s : stays (R := R) (store p s).
Proof. intros a r a' Ha. unfold store. destruct (_ && _); [|done]. intros [= <- <-]. done. Qed.

Lemma stays_bind {A B} (m : E R A) (k : A -> E R B) : stays m -> (forall x, stays (k x)) -> stays (m ≫= k).
Proof.
  intros Hm Hk a r a' Ha H. apply req_bind_inv in H as [(x & a1 & H1 & H2)|(e & H1 & ->)]; [|by eapply Hm].
  eapply Hk; [by eapply Hm|done].
Qed.

Lemma stays_alloc n : 0 <= n -> stays (R := R) (ctc_ddl_alloc_mem n).
Proof.
  intros Hn a r a' Ha H. destruct (alloc_spec (R := R) n a Hn Ha) as [(_ & Hr & Hin)|[_ Hr]]; rewrite Hr in H;
    by injection H as <- <-.
Qed.

Lemma stays_need (code : R) n : 0 <= n -> stays (need code n).
Proof. intros Hn. apply stays_bind; [by apply stays_alloc|]. intros [p|]; [apply stays_give|apply stays_returns]. Qed.

Lemma stays_new_text (oom : R) s : stays (new_text oom s).
Proof. apply stays_bind; [apply stays_need; lia|]. intros p. apply stays_bind; [apply stays_store|]. intros _. apply stays_give. Qed.

Lemma stays_each {A B} (l : list A) (f : A -> E R B) : (forall x, stays (f x)) -> stays (each l f).
Proof.
  intros H. induction l as [|x l IH]; cbn [each]; [apply stays_give|].
  apply stays_bind; [apply H|]. intros y. apply stays_bind; [done|]. intros ys. apply stays_give.
Qed.

Lemma stays_call {R' A} (m : E R' A) (f : R' -> E R A) : stays m -> (forall r, stays (f r)) -> stays (call f m).
Proof.
  intros Hm Hf a r a' Ha. unfold call. destruct (m a) as [[[e|x] a1]|] eqn:E; [|intros [= <- <-]; by eapply Hm|done].
  apply Hf. by eapply Hm.
Qed.

Lemma stays_apply {A} (m : E R A) a r a' : stays m -> inside a -> m a = Some (r, a') -> inside a'.
Proof. intros H Ha Hm. by eapply H. Qed.

End Stays.

Create HintDb stays discriminated.
#[export] Hint Resolve stays_give stays_returns stays_undefined stays_deref stays_store stays_new_text : stays.

Ltac stays_step :=
  match goal with
  | |- stays (_ ≫= _) => apply stays_bind; [|intros ?]
  | |- stays (need _ _) => apply stays_need; try nia
  | |- stays (each _ _) => apply stays_each; intros ?
  | |- stays (match ?x with _ => _ end) => destruct x
  | _ => solve [eauto with stays]
  end.
Ltac stays_auto := repeat (cbv zeta; stays_step).

Section InitSpec.
Context {L : Layout} {max : Z} `{!LayoutOk L max}.
Variable parallelism : Z.

(** What is repeated gives the same thing each time. *)
Lemma times_value {A} n (m : E Z A) x a l a' :
  (forall a y a', m a = Some (inr y, a') -> y = x) -> times n m a = Some (inr l, a') -> l = replicate n x.
Proof.
  intros Hm. unfold times. generalize 0%nat. revert a l a'. induction n as [|n IH]; intros a l a' k H; cbn [seq each] in H.
  - by injection H as <- _.
  - apply req_bind_inv in H as [(y & a1 & H1 & H)|(e & _ & [=])]. apply req_bind_inv in H as [(ys & a2 & H2 & H)|(e & _ & [=])].
    injection H as <- _. apply Hm in H1 as ->. by apply IH in H2 as ->.
Qed.

Lemma array_value {A} size n (m : E Z A) x a l a' :
  (forall a y a', m a = Some (inr y, a') -> y = x) ->
  nonempty n (_ ← need HA_ERR_OUT_OF_MEM size; times n m) a = Some (inr l, a') -> l = replicate n x.
Proof.
  intros Hm H. unfold nonempty in H. destruct n as [|n]; [by injection H as <- _|].
  cbn [Nat.ltb Nat.leb] in H. apply req_bind_inv in H as [(p & a1 & _ & H)|(e & _ & [=])]. by eapply times_value.
Qed.

Lemma then_give {A} n (x : A) a y a' : (_ ← need HA_ERR_OUT_OF_MEM n; give x) a = Some (inr y, a') -> y = x.
Proof. intros H. apply req_bind_inv in H as [(p & a1 & _ & H)|(e & _ & [=])]. by injection H as <- _. Qed.

Lemma stays_array {A} size n (m : E Z A) : 0 <= size -> stays m ->
  stays (nonempty n (_ ← need HA_ERR_OUT_OF_MEM size; times n m)).
Proof. intros Hs Hm. unfold nonempty, times. stays_auto. Qed.

Lemma stays_partitions parts : stays (ctc_ddl_prepare_alter_partition_info parts).
Proof.
  pose proof (sizes (max := max)) as Hsz. unfold ctc_ddl_prepare_alter_partition_info. destruct (_ =? _)%nat; [apply stays_give|].
  apply stays_bind; [unfold ctc_prepare_alter_partition_init_part_list; stays_auto|]. intros _. generalize no_part_lists.
  induction parts as [|part parts IH]; intros l; cbn [partition_loop]; [apply stays_give|].
  destruct (pe_state part); [apply IH..| | |apply IH|apply stays_returns].
  - apply stays_bind; [apply stays_new_text|]. intros p. apply IH.
  - apply stays_bind; [apply stays_need; lia|]. intros _. apply stays_bind; [|intros x; apply IH].
    unfold ctc_ddl_fill_add_part_table_info. stays_auto.
Qed.

Lemma stays_fks key_list : stays (init_foreign_key_list_4alter_table key_list).
Proof.
  pose proof (sizes (max := max)) as Hsz. unfold init_foreign_key_list_4alter_table, times.
  apply stays_bind; [apply stays_need; nia|]. intros _. apply stays_each. intros fk.
  apply stays_bind; [apply stays_need; nia|]. intros _. apply stays_bind; [apply stays_need; nia|]. intros _.
  apply stays_bind; [stays_auto|]. intros elements.
  unfold ctc_ddl_alter_table_fill_foreign_key_info, return_if_not_zero, each_i, ctc_copy_name. stays_auto.
Qed.

(** The lists before they are filled *)
Lemma init_alter_spec ai a r a' : inside a -> init_ctc_ddl_alter_table_def parallelism ai a = Some (inr r, a') ->
  inside a' /\ q_drop_list r = replicate (length (al_drop_list ai)) init_drop_entry /\
  q_alter_list r = replicate (length (al_alter_list ai) + rename_count (al_alter_list ai)) init_alter_entry /\
  q_n_create r = length (al_create_list ai) /\ q_create_list r = replicate (length (al_create_list ai)) init_column_def /\
  q_drop_keys r = replicate (length (al_index_drop ai)) init_drop_entry /\
  q_alter_index r = replicate (length (al_index_rename ai)) init_index_entry.
Proof.
  pose proof (sizes (max := max)) as Hsz. intros Ha. unfold init_ctc_ddl_alter_table_def. cbv zeta.
  destruct (_ <? _); [discriminate|]. intros H.
  assert (stays match al_partitions ai with Some ps => ctc_ddl_prepare_alter_partition_info ps | None => give no_part_lists end) as Hst.
  { destruct (al_partitions ai); [apply stays_partitions|apply stays_give]. }
  apply req_bind_inv in H as [(parts & a0 & H0 & H)|(e & _ & [=])]. apply Hst in H0; [|done]. clear Hst.
  apply req_bind_inv in H as [(drops & a1 & H1 & H)|(e & _ & [=])].
  pose proof (array_value _ _ _ init_drop_entry _ _ _ ltac:(intros ???; apply then_give) H1) as ->.
  apply stays_array in H1; [|nia|stays_auto|done].
  apply req_bind_inv in H as [(alters & a2 & H2 & H)|(e & _ & [=])].
  pose proof (array_value _ _ _ init_alter_entry _ _ _ ltac:(intros ???; apply then_give) H2) as ->.
  apply stays_array in H2; [|nia|stays_auto|done].
  apply req_bind_inv in H as [(creates & a3 & H3 & H)|(e & _ & [=])].
  assert (creates = replicate (length (al_create_list ai)) init_column_def) as ->.
  { apply (array_value _ _ _ init_column_def _ _ _) in H3; [done|]. intros b y b' Hb. unfold new_column in Hb.
    apply req_bind_inv in Hb as [(p & b1 & _ & Hb)|(e & _ & [=])]. by apply then_give in Hb. }
  apply stays_array in H3; [|nia|unfold new_column; stays_auto|done].
  apply req_bind_inv in H as [(p & a4 & H4 & H)|(e & _ & [=])]. apply (stays_need HA_ERR_OUT_OF_MEM) in H4; [|lia|done].
  apply req_bind_inv in H as [(add_keys & a5 & H5 & H)|(e & _ & [=])].
  assert (inside a5) as Ha5.
  { eapply stays_apply; [|exact H4|exact H5]. unfold nonempty, init_add_key_list_4alter_table, times, checked_part, FUNC_TEXT_MAX_LEN. stays_auto. }
  apply req_bind_inv in H as [(drop_keys & a6 & H6 & H)|(e & _ & [=])].
  pose proof (array_value _ _ _ init_drop_entry _ _ _ ltac:(intros ???; apply then_give) H6) as ->.
  apply stays_array in H6; [|nia|stays_auto|done].
  apply req_bind_inv in H as [(fks & a7 & H7 & H)|(e & _ & [=])].
  assert (inside a7) as Ha7.
  { eapply stays_apply; [|exact H6|exact H7]. destruct (al_add_foreign_key ai); [apply stays_fks|apply stays_give]. }
  apply req_bind_inv in H as [(indexes & a8 & H8 & H)|(e & _ & [=])].
  pose proof (array_value _ _ _ init_index_entry _ _ _ ltac:(intros ???; apply then_give) H8) as ->.
  apply stays_array in H8; [|nia|stays_auto|done].
  injection H as <- <-. by split_and!.
Qed.

End InitSpec.

(** ** The whole request *)

Section Complete.
Context {M : MySQL} {DS : DdlServer} {L : Layout} {max : Z} `{!LayoutOk L max}.
Variable parallelism : Z.
Variable same_name : text -> text -> bool.
Variable get_sql_field_charset : new_field -> option Z.
Variable packed_size : alter_req -> Z.
Variable sizeof_ddl_ctrl : Z.
Variable malloc_works : bool.

(** The list was made: its temporary names fitted. *)
Lemma alter_list_fits get_column thd_id cols : forall first i copies entries a es a', inside a ->
  alter_list_loop get_column thd_id cols first i copies entries a = Some (inr es, a') ->
  mem_start a + CTC_MAX_COLUMN_LEN * Z.of_nat (rename_count cols) < CTC_DDL_PROTOBUF_MEM_SIZE.
Proof.
  induction cols as [|c cols IH]; intros first i copies entries a es a' Ha H.
  - destruct Ha. cbn. unfold CTC_MAX_COLUMN_LEN. lia.
  - cbn [alter_list_loop] in H. cbv zeta in H. rewrite rename_count_cons. apply req_bind_inv in H as [(e & a0 & H0 & H)|(e & _ & [=])].
    destruct (entries !! i) as [e0|]; [|discriminate H0]. injection H0 as <- <-. destruct (is_rename c).
    + apply req_bind_inv in H as [(p & a1 & H1 & H)|(e & _ & [=])]. apply req_bind_inv in H as [(u & a2 & H2 & H)|(e & _ & [=])].
      apply req_bind_inv in H as [(e' & a3 & H3 & H)|(e' & _ & [=])].
      assert (a3 = a2) as -> by (destruct (_ !! _); [by injection H3|discriminate H3]). apply req_bind_inv in H1 as [(o & a4 & H4 & H1)|(e'' & _ & [=])].
      destruct (alloc_spec (R := unit) CTC_MAX_COLUMN_LEN a) as [(_ & Hr & Hin)|[_ Hr]]; [done|done| |];
        rewrite Hr in H4; injection H4 as <- <-; [|discriminate H1]. injection H1 as <- <-.
      unfold store in H2. destruct (_ && _); [|discriminate H2]. injection H2 as <- <-.
      apply IH in H; [|done]. cbn [mem_start] in H. lia.
    + apply req_bind_inv in H as [(col & a1 & H1 & H)|(e & _ & [=])]. destruct (get_column (ac_name c)); [|discriminate H1].
      injection H1 as <- <-. by apply IH in H.
Qed.

(** Filling the lists that come after it leaves the texts as they are. *)
Lemma keeps_data_type' {R} lo f t : keeps (R := R) lo (ctc_ddl_get_data_type_from_mysql_type f t).
Proof. apply keeps_data_type. Qed.

Lemma keeps_key_part lo form cf p flags k : keeps lo (ctc_fill_key_part is_numeric_type form cf p flags k).
Proof.
  unfold ctc_fill_key_part, fill_key_part. repeat (cbv zeta; first [apply keeps_data_type|keeps_step]).
Qed.

Lemma keeps_fill_parts lo fill parts : (forall j flags k, keeps lo (fill j flags k)) -> forall j flags, keeps lo (fill_parts fill j flags parts).
Proof.
  intros Hf. induction parts as [|k parts IH]; intros j flags; cbn [fill_parts]; [apply keeps_give|].
  apply req_keeps_bind; [apply Hf|]. intros [f1 k1]. apply req_keeps_bind; [apply IH|]. intros [f2 ks]. apply keeps_give.
Qed.

Lemma keeps_add_key lo ai form user name keys : keeps lo (ctc_ddl_fill_add_key parallelism ai form user name keys).
Proof.
  unfold ctc_ddl_fill_add_key. generalize 0%nat. induction keys as [|k keys IH]; intros i; cbn [fill_keys]; [apply keeps_give|].
  apply req_keeps_bind.
  - unfold fill_key_alter, or_false. repeat (cbv zeta; first
      [apply keeps_fill_parts; intros; apply req_keeps_bind; [apply req_keeps_deref|intros ?; apply req_keeps_bind; [apply req_keeps_deref|intros ?; apply keeps_key_part]]
      |keeps_step]).
  - intros [k'|k']; [apply keeps_give|]. apply req_keeps_bind; [apply IH|]. intros ks. apply keeps_give.
Qed.

Lemma frames_describe altered x c : frames (describe_altered get_sql_field_charset altered x c).
Proof.
  unfold describe_altered. apply frames_bind; [apply frames_deref|]. intros f. apply fill_column_frames.
Qed.

(** A loop over an array that reads the element of a list at the same place *)
Lemma each_i_names {R A B C X} (f : nat -> A -> E R B) (g : B -> X) (h : C -> X) (src : list C) (l : list A) a ys a' :
  length l = length src ->
  (forall i x a y a', f i x a = Some (inr y, a') -> a' = a /\ exists c, src !! i = Some c /\ g y = h c) ->
  each_i l f a = Some (inr ys, a') -> map g ys = map h src /\ a' = a.
Proof.
  intros Hl Hf. unfold each_i. change (imap pair l) with (imap (fun i => pair (length (@nil C) + i)%nat) l).
  change src with ([] ++ src) in Hf. revert Hl Hf. generalize (@nil C) as pre. revert src ys a.
  induction l as [|x l IH]; intros src ys a pre Hl Hf H; (destruct src as [|c src]; [|try discriminate Hl]); try discriminate Hl.
  - by injection H as <- <-.
  - cbn [imap each] in H. apply req_bind_inv in H as [(y & a1 & H1 & H)|(e & _ & [=])]. apply req_bind_inv in H as [(zs & a2 & H2 & H)|(e & _ & [=])].
    injection H as <- <-. cbn [fst snd] in H1. rewrite Nat.add_0_r in H1. apply Hf in H1 as (-> & c' & Hc & Hg).
    rewrite list_lookup_middle in Hc by done. injection Hc as <-.
    rewrite (imap_ext _ (fun i => pair (length (pre ++ [c]) + i)%nat)) in H2
      by (intros; cbn; rewrite length_app; cbn [length]; f_equal; lia).
    destruct (IH src zs a (pre ++ [c])) as [Hm ->]; [by injection Hl| |exact H2|].
    + by rewrite <- app_assoc.
    + cbn [map]. by rewrite Hg, Hm.
Qed.

Lemma drop_keys_names indexes names l a ks a' : length l = length names ->
  ctc_ddl_fill_drop_key indexes names l a = Some (inr ks, a') -> map de_name ks = map Some names /\ a' = a.
Proof.
  intros Hl. apply each_i_names; [done|]. intros i x b y b' H. destruct (names !! i) as [name|]; [|discriminate H].
  rewrite req_deref_step in H. destruct (ctc_ddl_get_index_by_name indexes name) as [idx|]; [|discriminate H]. rewrite req_deref_step in H.
  destruct (ctc_ddl_get_create_key_type (dix_type idx)); [|discriminate H]. injection H as <- <-. by split; [|eexists].
Qed.

Definition renamed_index (r : key_info * text) : option text * option text := (Some (ki_name r.1), Some r.2).

Lemma renamed_indexes_names ai user table_name l a ks a' : length l = length (al_index_rename ai) ->
  fill_renamed_indexes ai user table_name l a = Some (inr ks, a') ->
  map (fun e => (ie_name e, ie_new_name e)) ks = map renamed_index (al_index_rename ai) /\ a' = a.
Proof.
  intros Hl. apply each_i_names; [done|]. intros i x b y b' H. destruct (al_index_rename ai !! i) as [r|]; [|discriminate H].
  rewrite req_deref_step in H. destruct (get_ctc_key_type r.1); [|discriminate H]. injection H as <- <-. by split; [|eexists].
Qed.

Lemma call_inv {R R' A} (on_return : R' -> E R A) (m : E R' A) a x a' :
  (forall r b y, on_return r b <> Some (inr x, y)) -> call on_return m a = Some (inr x, a') -> m a = Some (inr x, a').
Proof. intros Hr. unfold call. destruct (m a) as [[[e|y] a1]|]; [|by intros [= -> ->]|done]. intros H. destruct (Hr _ _ _ H). Qed.

(** The columns that are sent, with their positions: those of the new table
    that are not for functional indexes *)
Definition sent_fields (l : list new_field) : list (nat * new_field) :=
  List.filter (fun x => negb (cf_functional (nf_create x.2))) (imap pair l).

(** The entry [c] of the finished request describes the column [x]: it names
    the column that the altered table has at its position, and its default
    text is still what it was when the column was described. *)
Definition column_sent (altered : table) (a : arena) (x : nat * new_field) (c : column_def) : Prop :=
  exists field a1 a2, t_fields altered !! x.1 = Some field /\
    describes field (Some x.2) (alter_mode x.2) c /\
    describe_altered get_sql_field_charset altered x init_column_def a1 = Some (inr c, a2) /\
    forall p s, holds a2 p s -> holds a p s.

Lemma create_list_sent altered l a n cs v a' :
  fill_ctc_alter_create_list get_sql_field_charset altered l (length l) (replicate (length l) init_column_def) a = Some (inr (n, cs, v), a') ->
  n = length (sent_fields l) /\ Forall2 (column_sent altered a') (sent_fields l) (take n cs) /\
  forall p s, holds a p s -> holds a' p s.
Proof.
  intros H. unfold fill_ctc_alter_create_list in H. pose proof (length_imap pair l) as Hl.
  pose proof (fill_columns_spec (fun x : nat * new_field => cf_functional (nf_create x.2)) (fun x => cf_virtual (nf_create x.2))
    (describe_altered get_sql_field_charset altered) CT_ERROR (imap pair l) a) as Hs. rewrite Hl in Hs. rewrite Hs in H. clear Hs.
  apply req_bind_inv in H as [(ys & a1 & H1 & H)|(e & _ & [=])].
  assert (a1 = a' /\ n = length ys /\ take n cs = ys) as (-> & -> & ->).
  { destruct (_ =? _)%nat; [discriminate H|]. injection H as <- <- _ <-. by rewrite take_app_length. }
  unfold describe_sent, sent in H1. split; [by eapply each_length|]. split.
  - apply each_texts in H1; [|intros x; apply frames_call, frames_describe].
    eapply Forall2_impl; [|exact H1]. intros x c (b1 & b2 & Hc & Hh). apply call_inv in Hc; [|by intros ? ? ? [=]].
    unfold column_sent. pose proof Hc as Hd. unfold describe_altered in Hd.
    destruct (t_fields altered !! x.1) as [field|]; [|done]. rewrite req_deref_step in Hd.
    apply column_described in Hd. by exists field, b1, b2.
  - intros p s Hh. eapply holds_frames; [|exact H1|exact Hh]. apply frames_each. intros x. apply frames_call, frames_describe.
Qed.

Lemma message_buffer_same n a u a' : message_buffer malloc_works n a = Some (inr u, a') -> a' = a.
Proof.
  unfold message_buffer. destruct (set_mem_size _ _ _) as [sm|]; [|discriminate]. rewrite req_deref_step.
  destruct (get_buf sm); [by intros [= <-]|discriminate].
Qed.

(** The list of the columns to change, whether there are any or not *)
Lemma alters_renamed tables s cols table_cols l a al a' :
  inside a -> known (at_new_column tables) cols -> renameable cols table_cols ->
  l = replicate (length cols + rename_count cols) init_alter_entry ->
  (if (0 <? length l)%nat
   then call (fun _ => returns (A := list alter_entry) CT_ERROR)
          (fill_alter_list_4alter_table (at_new_column tables) (as_thd_id s) cols l)
   else give l) a = Some (inr al, a') ->
  forall b, (forall p s, holds a' p s -> holds b p s) ->
    rename_all (renames_of b al) table_cols = Some (map (new_name_of (wanted cols)) table_cols).
Proof.
  intros Ha Hk Hr -> H. rewrite length_replicate in H. destruct cols as [|c cols].
  - injection H as <- <-. intros b _. cbn. f_equal. symmetry. apply map_id.
  - cbn [Nat.add length] in H. rewrite (proj2 (Nat.ltb_lt _ _)) in H by lia. unfold call in H.
    destruct (fill_alter_list_4alter_table _ _ _ _ a) as [[[e|es] a1]|] eqn:E; [discriminate H| |discriminate H].
    injection H as <- <-. pose proof E as Hfit. unfold fill_alter_list_4alter_table in Hfit.
    pose proof (alter_list_fits _ _ _ _ _ _ _ _ _ _ Ha Hfit) as Hroom. clear Hfit.
    destruct (alter_list_renames (at_new_column tables) (as_thd_id s) (c :: cols) table_cols a Ha Hk Hr Hroom) as (es' & a2 & H1 & _ & H2).
    cbn [Nat.add length] in H1. rewrite E in H1. by injection H1 as <- <-.
Qed.

(** C8: the finished request of [ALTER TABLE] has what the statement asks for.
    It drops what the statement drops, without keys, which have a list of their
    own, and virtual columns, which the engine does not know; its column
    changes, applied one after the other, give every column the name that the
    statement gives it, read from the memory of the request after everything
    else was put there; it describes, in order, exactly the columns that are
    not for functional indexes: each with its name before the statement, the
    new one if that is another, its size, comment and mode, and with default
    texts that are still there at the end; and it names the keys to drop and
    the indexes to rename.  The names of the statement are columns of the
    tables, no new name is used twice, and the columns to drop exist. *)
Theorem alter_request_complete ai tables s table_cols a b r v a' :
  inside a -> droppable same_name (at_old_columns tables) (al_drop_list ai) ->
  known (at_new_column tables) (al_alter_list ai) -> renameable (al_alter_list ai) table_cols ->
  fill_alter_table_req parallelism same_name get_sql_field_charset packed_size sizeof_ddl_ctrl malloc_works ai tables s a
    = Some (inr (b, r, v), a') ->
  take (q_n_drop r) (q_drop_list r)
    = map drop_entry_of (List.filter (told same_name (at_old_columns tables)) (al_drop_list ai)) /\
  rename_all (renames_of a' (q_alter_list r)) table_cols = Some (map (new_name_of (wanted (al_alter_list ai))) table_cols) /\
  Forall2 (column_sent (at_altered tables) a') (sent_fields (al_create_list ai)) (take (q_n_create r) (q_create_list r)) /\
  map de_name (q_drop_keys r) = map Some (al_index_drop ai) /\
  map (fun e => (ie_name e, ie_new_name e)) (q_alter_index r) = map renamed_index (al_index_rename ai).
Proof.
  intros Ha Hdrop Hk Hr H. unfold fill_alter_table_req in H.
  apply req_bind_inv in H as [(r0 & a0 & H0 & H)|(e & _ & [=])].
  apply (init_alter_spec (max := max)) in H0 as (Ha0 & Hq1 & Hq2 & Hq3 & Hq4 & Hq5 & Hq6); [|done].
  cbv zeta in H. destruct (q_tables (as_query s)) as [[db name]|]; [|discriminate H]. rewrite req_deref_step in H.
  destruct (fill_sys_cur_timestamp _ _ _) as [[systimestamp tz]|]; [|discriminate H]. rewrite req_deref_step in H.
  rewrite Hq1 in H. destruct (drop_list_filled same_name (at_old_columns tables) (al_drop_list ai) a0 Hdrop) as [rest Hd].
  rewrite (bind_val _ _ _ _ _ Hd) in H. apply req_bind_inv in H as [(dk & a1 & H1 & H)|(e & _ & [=])].
  assert (map de_name dk = map Some (al_index_drop ai) /\ a1 = a0) as [Hdk ->].
  { rewrite Hq5 in H1. destruct (al_index_drop ai) as [|n ns] eqn:En; [by injection H1 as <- <-|].
    rewrite <- En in *. rewrite (proj2 (Nat.ltb_lt _ _)) in H1 by (rewrite En; cbn; lia).
    eapply drop_keys_names; [|exact H1]. apply length_replicate. }
  apply req_bind_inv in H as [(al & a2 & H2 & H)|(e & _ & [=])]. pose proof (alters_renamed tables s _ table_cols _ a0 al a2 Ha0 Hk Hr Hq2 H2) as Hren.
  apply req_bind_inv in H as [([[nc cs] vc] & a3 & H3 & H)|(e & _ & [=])].
  apply req_bind_inv in H as [(ks & a4 & H4 & H)|(e & _ & [=])]. apply req_bind_inv in H as [(ix & a5 & H5 & H)|(e & _ & [=])].
  apply req_bind_inv in H as [(u & a6 & H6 & H)|(e & _ & [=])].
  rewrite Hq3, Hq4 in H3. apply call_inv in H3; [|by intros ? ? ? [=]]. apply create_list_sent in H3 as (Hn & Hsent & Hx3).
  apply call_inv in H4; [|by intros ? ? ? [=]].
  apply renamed_indexes_names in H5 as [Hix ->]; [|rewrite Hq6; apply length_replicate].
  assert (a6 = a4) as -> by (by eapply message_buffer_same).
  assert (forall p t, holds a3 p t -> holds a4 p t) as Hx4.
  { intros p t Hp. eapply holds_frames; [|exact H4|exact Hp]. apply keeps_frames. intros lo. apply keeps_add_key. }
  injection H as <- <- <- <-. cbn [q_n_drop q_drop_list q_alter_list q_n_create q_create_list q_drop_keys q_alter_index].
  split_and!; [| | |done..].
  - apply take_app_length'. by rewrite length_map.
  - apply Hren. intros p t Hp. by apply Hx4, Hx3.
  - eapply Forall2_impl; [|exact Hsent]. intros x c (field & b1 & b2 & Hf & Hdc & Hb & Hh). exists field, b1, b2.
    split_and!; [done..|]. intros p t Hp. by apply Hx4, Hh.
Qed.

End Complete.

(** ** A concrete request *)

Definition kept_field : new_field :=
  mk_new_field (mk_create_field (txt "n") MYSQL_TYPE_LONG 4 (Some (tc_column int_column)) None false false None)
    None false None None (mk_typelib 0 []).

(** [ALTER TABLE t RENAME COLUMN a TO b, RENAME COLUMN b TO a, DROP COLUMN c,
    DROP INDEX i, RENAME INDEX j TO k] *)
Definition demo_alter : alter_info :=
  mk_alter_info [mk_alter_drop (txt "c") Drop_column; mk_alter_drop (txt "i") Drop_key] swap_columns [kept_field] [] [] []
    [txt "i"] [(mk_key_info (txt "j") 4 false false false false Alg_btree [], txt "k")] None false false true None.

Definition demo_tables : alter_tables :=
  mk_alter_tables [(txt "a", false); (txt "b", false); (txt "c", false)]
    [mk_dd_index (txt "i") It_multiple Alg_btree []] (fun _ => None) (mk_table [int_column] []).

Definition demo_session : alter_session :=
  mk_alter_session (mk_query (Some (txt "db", txt "t")) false true (txt "alter table ...") (txt "db")) (txt "db") 7
    (mk_mysql_time 2024 1 2 3 4 5 0 false) false 0.

Abbreviation demo_request :=
  (fill_alter_table_req (M := Demo.Demo.demo) (DS := demo_ddl) (L := small_layout) 0 (fun x y => bool_decide (x = y)) (fun _ => None)
    (fun _ => 100) 200 true demo_alter demo_tables demo_session fresh).

#[local] Existing Instance small_layout_ok.

Definition answered (x : option ((Z + (alter_base * alter_req * bool)) * arena)) : bool :=
  match x with Some (inr _, _) => true | _ => false end.

Lemma alter_request_complete_witness :
  answered demo_request = true /\
  match demo_request with
  | Some (inr (b, r, v), a') =>
      map de_name (take (q_n_drop r) (q_drop_list r)) = [Some (txt "c")] /\
      rename_all (renames_of a' (q_alter_list r)) swap_table = Some [txt "b"; txt "a"] /\
      Forall2 (column_sent (M := Demo.Demo.demo) (DS := demo_ddl) (fun _ => None) (at_altered demo_tables) a')
        [(0%nat, kept_field)] (take (q_n_create r) (q_create_list r)) /\
      map (fun e => (ie_name e, ie_new_name e)) (q_alter_index r) = [(Some (txt "j"), Some (txt "k"))]
  | _ => False
  end.
Proof.
  assert (answered demo_request = true) as Hok by (vm_compute; reflexivity). split; [exact Hok|].
  destruct demo_request as [[[e|[[b r] v]] a']|] eqn:E; [discriminate Hok| |discriminate Hok].
  destruct (alter_request_complete (M := Demo.Demo.demo) (DS := demo_ddl) (L := small_layout) (max := 160) 0
    (fun x y => bool_decide (x = y)) (fun _ => None) (fun _ => 100) 200 true demo_alter demo_tables demo_session swap_table
    fresh b r v a') as (H1 & H2 & H3 & _ & H5).
  - split; vm_compute; [discriminate|reflexivity].
  - apply Forall_cons_2; [intros _; by eexists|]. apply Forall_cons_2; [done|apply Forall_nil_2].
  - apply swap_known.
  - apply swap_renameable.
  - exact E.
  - rewrite H1. split_and!; [vm_compute; reflexivity|rewrite H2; vm_compute; reflexivity|exact H3|rewrite H5; reflexivity].
Defined.

End AlterReq.
